(* ===== verification/_CoqProject ===== *)
-Q . S2P
Prelude.v
Effects.v
Interface.v
Vlapic.v
Vatpic.v
Bintime.v
Callout.v
Vatpit.v
Vioapic.v
Calendar.v
Vrtc.v
Uart.v
Vhpet.v
PciIrq.v
VmmCommon.v
MemRange.v
Lapic.v
LapicSafe.v
LapicDeliver.v
LapicBoot.v
VieDecode.v
VieEncode.v
Vmm.v
Paging.v
VieEmul.v
VieRefine.v
VieString.v
InstEmul.v
MmioDevices.v
VmApi.v
Inout.v
PciCfg.v
PciCaps.v
PciBar.v
PciSafe.v
PciProg.v
PciSetup.v
PciAlloc.v
PciMsix.v
PciWire.v
PciLpc.v
PciExample.v
Ini.v
Manager.v
Virtio.v
VirtioChain.v
VirtioRing.v
VirtioReg.v
VirtioBlk.v
VirtioExample.v
