(* ===== verification/Prelude.v ===== *)
(** * A verification library for the device models of xhyve

    xhyve-manager bundles xhyve, a hypervisor that runs on macOS: a vCPU run
    loop on top of Hypervisor.framework and, around it, software models of the
    devices of a PC.  The guest reaches a device by port or memory accesses, a
    device reaches the guest by interrupts, and timers run in a callout thread
    of their own.  Accesses to memory-mapped devices are emulated: the monitor
    fetches, decodes and executes the guest's instruction.  This library models
    the devices, the timer subsystem, the core of the monitor, the instruction
    emulator, the PCI bus, the virtio queues with the block device on them and
    the configuration files of the manager as functions on their state and
    proves what makes them correct.

    ** Parts and files

    - [Prelude]: record updates, fixed-width integers, bit operations and
      their ranges, shared tactics and hint databases.
    - [Effects]: a state monad for code with failing assertions ([KASSERT]
      aborts in the default build) and loops that may not end, with a
      weakest-precondition calculus for total correctness.
    - [Interface]: what the components need of each other, as type classes:
      the interrupt fabric ([IrqFabric], [PulseFabric]) and the timers
      ([CalloutOps] with its laws [CalloutLaws]).
    - [Vlapic]: src/vmm/io/vlapic.c, the part of the local APIC that requests,
      injects and retires interrupts: request and in-service registers, the
      stack of injected vectors, priorities, error and local vector table
      interrupts.  [Lapic] is the rest of that file and src/vmm/vmm_lapic.c,
      for the sixteen local APICs of a machine: timer, inter-processor
      interrupts, destinations, the register window and the MSRs.
      [LapicSafe] holds their invariant, [LapicDeliver] the delivery from an
      I/O APIC pin or an MSI to the processors it is addressed to, [LapicBoot]
      the start of the application processors.
    - [Vatpic]: src/vmm/io/vatpic.c, the pair of 8259 interrupt controllers:
      initialisation words, operation words, priority resolution, cascade,
      pin counters, polling, edge/level registers.
    - [Bintime]: the binary time arithmetic of vmm_callout.h and the clock
      conversions of vmm_callout.c, at 64 bits.
    - [Callout]: src/vmm/vmm_callout.c, the timer queue as the intrusive
      doubly linked list it is, over a heap of callouts, and the callout
      thread.  It is an instance of [CalloutOps] that satisfies the laws.
    - [Vatpit]: src/vmm/io/vatpit.c, the 8254 timer, a client of the timers
      and of the interrupt controllers.
    - [Vioapic]: src/vmm/io/vioapic.c, the I/O APIC, with the window in which
      [vioapic_write] has released its lock.
    - [Calendar] and [Vrtc]: src/vmm/io/vrtc.c, calendar conversions and the
      real-time clock.
    - [Uart]: src/uart_emul.c, the 16550 serial port.
    - [Vhpet]: src/vmm/io/vhpet.c, the HPET with its eight timers, another
      client of the timers.
    - [PciIrq]: src/pci_irq.c, src/ioapic.c and the INTx part of
      src/pci_emul.c: from the interrupt pin of a PCI device over a PIRQ link
      to the interrupt controllers.
    - [MemRange]: src/mem.c, the tree of memory ranges of the user-level
      devices with the cache of each CPU.
    - [VmmCommon]: the types of include/xhyve/vmm/vmm_common.h.
    - [VieDecode]: the instruction decoder of
      src/vmm/vmm_instruction_emul.c, a cursor over at most 15 bytes.
      [VieEncode] is a reference assembler and the proof that the decoder
      inverts it.
    - [Vmm]: the core of src/vmm/vmm.c: guest memory, registers, the state of
      a virtual CPU, suspension, exceptions and events at VM entry.  The
      processor back end ([struct vmm_ops]) is the class [VmmOps] with the
      laws [VmmLaws].
    - [Paging]: [vm_gla2gpa], the walk of the guest's page tables, with the
      compare-and-set races against other CPUs, and the copies by linear
      address ([vm_copy_setup], [vm_copyin], [vm_copyout]) on top of it.
    - [VieEmul]: segmentation and every emulated instruction.  [VieRefine]
      holds a reference semantics of the instructions with one memory operand
      and the refinement, with the class [MmioLaws] of what a device promises
      the emulator; [VieString] the string and stack instructions.
    - [InstEmul]: [vm_handle_inst_emul], from VM exit through fetch, decoding
      and dispatch to the emulated device.  [MmioDevices] puts the I/O APIC of
      [Vioapic] behind it, as an instance of [MmioLaws].
    - [VmApi]: src/vmm/vmm_api.c, how the user level calls the monitor, sets
      up guest memory and maps it.
    - [Inout]: src/inout.c and src/vmm/vmm_ioport.c, the port handlers of the
      user level and of the monitor, and the port instructions on them.
    - [PciCfg]: src/pci_emul.c: configuration space and its two access paths,
      base address registers and their allocation, capabilities, MSI and
      MSI-X, the dispatch to devices.  [PciCaps] holds the chain of
      capabilities, [PciBar] the invariant of the registered ranges,
      [PciSafe] the safety of configuration accesses, [PciProg] what a driver
      sees that programs a device, [PciSetup] and [PciAlloc] the set-up of
      devices, [PciMsix] the MSI-X table.  [PciWire] puts the bus on the port
      table of [Inout] and the ranges of [MemRange]; [PciLpc] is the PIRQ
      routing of src/pci_lpc.c on top of [PciIrq]; [PciExample] has a concrete
      bus.
    - [Virtio]: src/virtio.c, what virtio devices share: the registers behind
      base address register 0, and the queues in guest memory, which the guest
      may change before each load.  [VirtioChain] specifies the chains of
      descriptors a driver can build and [vq_getchain] against them,
      [VirtioRing] the layout of a queue and the return of requests,
      [VirtioReg] the registers.  [VirtioBlk] is the device of
      src/pci_virtio_block.c, as a function of the PCI bus: it discharges what
      [Virtio] expects of a PCI function ([VirtioPciLaws]) and of a device
      ([device_laws]).  [VirtioExample] has a driver and a request.
    - [Ini]: src/ini/ini.c, the parser.  [Manager]: src/xhyve-manager.c with
      include/xhyve-manager/config.def, the configuration file of a machine
      and the arguments the hypervisor is started with.

    Definitions carry the names of the C functions; a function whose body has
    a part worth naming (a loop, a case of a switch) is split into the parts
    and their composition.  C integers are [Z]; wrap-around is written out
    with [u8] ... [i64] where an assignment or a cast truncates.  Counters of
    type [int] and times ([time_t], [sbintime_t] after conversion) are
    unbounded where the program cannot reach their limits.

    ** What the theorems show

    - Invariants: for each device a well-formedness or consistency invariant
      holds at every state reachable by any interleaving of its entry points
      with the rest of the system ([Vatpic.reachable_wf],
      [Vatpic.reachable_notified], [Callout.reachable_queue_inv],
      [Vatpit.reachable_wf_pit], [Vioapic.reachable_level_ok],
      [Vrtc.rtc_reachable_inv], [Uart.uart_reachable_pin],
      [Vhpet.hpet_lines_balanced], [PciIrq.intx_balanced],
      [LapicBoot.ap_started_once]).  For the 8259 pair this includes the calls
      to the other controllers; for the INTx interrupts it is the balance of
      the calls made, since an 8259 that is being initialised ignores them
      ([Vatpic.reinit_sticks_line]).
    - Refinement: the timer queue implements stable insertion by deadline
      ([Callout.callout_reset_sorted]) and the timer interface
      ([Callout.cstate_callouts_laws]); priority resolution is the arbitration
      it stands for ([Vatpic.highest_irrpin_spec],
      [Vlapic.pending_intr_spec]); the serial FIFO is a
      bounded queue ([Uart.rxfifo_refines_queue]); memory and port accesses
      reach the handler that a list of registered ranges gives
      ([MemRange.mem_dispatch], [Inout.ports_dispatch]), and the two maps of
      guest memory agree ([VmApi.map_gpa_agrees]); emulated instructions have
      the effect of the reference semantics ([VieRefine.emulate_refines]); the
      page walk computes the translation the tables describe
      ([Paging.gla2gpa_correct]); segmentation is that of the architecture
      ([VieEmul.calculate_gla_correct]); accesses to a wired PCI bus reach the
      device whose enabled register contains the address, however the guest
      moves, disables and enables registers, at the offset in that register
      ([PciWire.bar_dispatch]); taking a request from a virtio queue gives the
      chain that its descriptors and indirect tables describe
      ([VirtioChain.getchain_correct]).
    - Functional behaviour: interrupt delivery and acknowledgement
      ([LapicDeliver.pin_reaches_lapics], [LapicDeliver.ipi_delivered]), port
      instructions ([Inout.emulate_inout_correct],
      [Inout.handle_inout_correct]), counter
      values, periodic timers without drift, alarm and time of day; string
      and stack instructions step by step ([VieString.movs_correct],
      [VieString.stos_correct], [VieString.stack_correct]); events at VM entry
      ([Vmm.entry_intinfo_spec]); a register of the I/O APIC read by two
      emulated instructions ([MmioDevices.ioapic_guest_read]); allocation of
      PCI registers and capabilities ([PciAlloc.bar_allocated],
      [PciSetup.capability_added]), MSI ([PciProg.msi_delivered]) and PIRQ
      routing ([PciLpc.lpc_routes_pirq]); the used ring and the interrupts of
      a virtio queue ([VirtioRing.completions_signalled]) and its layout
      ([VirtioRing.queue_setup]); the arguments a configuration stands
      for ([Manager.start_arguments]).
    - Round trips: latching and reading counters, redirection entries, EOI
      after acknowledge, calendar fields and seconds in both directions,
      loopback, decoding an assembled instruction ([VieEncode.decode_encode]),
      delivering an injected exception ([Vmm.inject_entry_roundtrip]),
      programming a 64-bit PCI register ([PciProg.bar64_roundtrip]), writing
      and loading a machine's configuration ([Manager.config_roundtrip]).
    - Termination and safety: the mutual recursion of the 8259 pair ends
      ([Vatpic.notify_fuel_enough]); the run-time checks of the local APICs
      never abort ([LapicSafe.lapics_never_abort]), apart from the guest
      accesses shown by [LapicSafe.guest_aborts]; neither do those of the HPET
      ([Vhpet.hpet_never_aborts]); as long as no operation of the RTC has
      failed, the next one fails no assertion and does not loop
      ([Vrtc.rtc_op_returns]), with the exceptions shown by
      [Vrtc.rtc_set_back_hangs] and [Vrtc.failed_write_aborts]; an emulated
      instruction neither aborts nor blocks the monitor, apart from a MOVS that
      a device refuses with an error other than EFAULT and from a device whose
      handler does not return ([InstEmul.handle_inst_emul_safe],
      [VieString.movs_einval_aborts]), the decoder always yields a
      well-formed instruction ([VieDecode.decode_well_typed]), the page walk
      ends once the other CPUs leave the tables alone
      ([Paging.gla2gpa_terminates]), guest addresses of ranges that end below
      2^64 never reach host memory outside an allocation
      ([Vmm.guest_memory_safe]; a range that wraps does,
      [Vmm.gpa2hva_wraps]), the arrays of copies do
      not overflow ([Paging.copy_setup_fits]), and errors leave the registers
      alone ([InstEmul.emulate_errors]); PCI configuration accesses neither
      abort nor loop unless the guest enables a register that overlaps another
      or the chip set ([PciSafe.config_access_safe]), the MSI-X table is never
      accessed outside its allocation ([PciMsix.msix_table_bounds]), and
      accesses to the registers of a virtio device return
      ([VirtioReg.registers_safe]).

    ** Bounds, fuel and concurrency

    - [Vatpic.notify_fuel] allows two levels of recursion: the slave notifies
      the master, which has no controller above it; the theorem shows that
      more makes no difference.
    - [Vlapic.set_error_fuel] allows one nested error: the flag [esr_firing]
      stops the second.
    - The walk of [Callout.insert_walk] has the size of the heap as fuel; a
      queue cannot be longer, and [Callout.callout_reset_sorted] shows that
      the walk always finds its place.
    - [Calendar.sub_while] has as fuel the number of days (years) or 12
      (months); the round trips show that it suffices.
    - [Vrtc.time_loop] has one more iteration than there are seconds to visit;
      running out of them is the outcome [Hang], which the theorems exclude.
    - [Ini.ini_loop] has a round per byte of the file: each line takes one at
      least ([Ini.ini_parse_file_total]).
    - [PciCfg.find_cap] walks the capabilities with as many steps as
      configuration space has bytes; the invariant shows that a chain is
      shorter.
    - [VieDecode.prefix_loop] has one iteration per remaining byte.
    - [Virtio.chain_loop] and [Virtio.indir_loop] have a round for each of the
      512 descriptors that a chain may have; a round records one at least, and
      [VirtioChain.getchain_correct] shows that a longer chain or a loop gives
      -1.  [VirtioBlk.pci_vtblk_notify] takes its number of rounds as an
      argument: it ends when the guest adds no more requests.
    - [Paging.gla2gpa_loop] bounds the number of restarts of the page walk:
      two attempts are enough without interference, and with interference in
      the first [N] attempts [N + 2] are; running out is [Hang].
    - Entry points hold the lock of their device, so each is one step; code
      that releases its lock in the middle ([vioapic_write]) is split there
      into separate steps; so is the callout thread, which keeps its callout
      over its timed wait and over the call of the handler
      ([Callout.thread_step]).
    - Clocks are functions of the number of readings, so that two readings in
      one call may differ; the theorems assume only that uptime does not go
      backwards and that the calendar clock is a 32-bit count.

    ** Not modelled

    Trace output; the destruction of devices; the terminal modes of the host.
    src/vmm/intel drives Hypervisor.framework, whose behaviour is not part of
    the repository: the monitor sees it through the class [VmmOps].  The run
    loop, rendezvous and halting of virtual CPUs (the rest of src/vmm/vmm.c)
    wait on host threads.  The other PCI devices (AHCI, the virtio network and
    entropy devices, the PCI front end of the UART), the block and network back
    ends and the event loop are built on host files, sockets and threads; of
    virtio the set-up ([vi_softc_linkup], [vi_intr_init], [vi_set_io_bar]) and
    of the block device its initialisation from a backing file are left out; of the ISA bridge the UART ports and
    of the bus the option parser, the test device and the ACPI output of
    src/pci_emul.c are missing too.  The ACPI, MP and SMBIOS tables are
    constant data, the boot loaders copy files to guest memory, task switching
    and CPUID filtering depend on the processor back end.  Of the manager, the
    command line, interactive creation and the start of processes are left
    out.  The rebalancing and removal of the tree of [MemRange] are macros of
    include/xhyve/support/tree.h, BSD code, and are parameters that keep the
    order of the elements. *)

From Stdlib Require Export ZArith Lia Bool.
From stdpp Require Export base tactics numbers option relations list.

#[global] Open Scope Z_scope.

(** ** Record updates

    [r <| f := v |>] is the record [r] with field [f] replaced by [v] and
    [r <| f ::= g |>] applies [g] to the field, the reading of C's [r->f = v]
    and [r->f op= v].  A record opts in with one [Eta] instance, which lists
    its fields once; the setter of a field is then computed from it. *)
Class Eta (R : Type) := eta : R -> R.

Class Setter {R T : Type} (proj : R -> T) := upd : (T -> T) -> R -> R.

Ltac solve_setter :=
  lazymatch goal with
  | |- @Setter ?R ?T ?proj =>
      let g := fresh "g" in
      let r := fresh "r" in
      unfold Setter; intros g r;
      let inst := constr:(_ : Eta R) in
      let body := eval red in (inst r) in
      let p := eval pattern (proj r) in body in
      lazymatch p with
      | ?k _ => let t := eval cbv beta in (k (g (proj r))) in exact t
      end
  end.

#[global] Hint Extern 0 (Setter _) => solve_setter : typeclass_instances.

Declare Scope vm_scope.
Delimit Scope vm_scope with vm.
#[global] Open Scope vm_scope.

#[warnings="-postfix-notation-not-level-1"]
Notation "r <| f := v |>" := (upd (proj := f) (fun _ => v) r)
  (at level 12, left associativity, format "r  <|  f  :=  v  |>") : vm_scope.
#[warnings="-postfix-notation-not-level-1"]
Notation "r <| f ::= g |>" := (upd (proj := f) g r)
  (at level 12, left associativity, format "r  <|  f  ::=  g  |>") : vm_scope.

(** ** Fixed-width integers

    A C integer of width [w] is a [Z]; the wrap-around of an assignment to an
    unsigned type is written out with these casts. *)
Definition u8 (x : Z) : Z := x mod 2 ^ 8.
Definition u16 (x : Z) : Z := x mod 2 ^ 16.
Definition u32 (x : Z) : Z := x mod 2 ^ 32.
Definition u64 (x : Z) : Z := x mod 2 ^ 64.

(** Conversion to a signed [w]-bit type (two's complement). *)
Definition to_signed (w x : Z) : Z :=
  let m := x mod 2 ^ w in if m <? 2 ^ (w - 1) then m else m - 2 ^ w.

Definition i32 (x : Z) : Z := to_signed 32 x.
Definition i64 (x : Z) : Z := to_signed 64 x.

(** The single-bit mask [1 << n], the test [(x & m) != 0], [x & ~(m)]. *)
Definition bit (n : Z) : Z := Z.shiftl 1 n.
Definition tst (x m : Z) : bool := negb (Z.land x m =? 0).
Definition clr (x m : Z) : Z := Z.land x (Z.lnot m).

Notation "x 'in_u' w" := (0 <= x < 2 ^ w) (at level 70, no associativity) : vm_scope.

(** [b2z] is C's conversion of a [bool] to an integer. *)
Definition b2z (b : bool) : Z := if b then 1 else 0.

(** C's [errno] values the code returns. *)
Definition EINVAL : Z := 22.

Lemma i32_small x : 0 <= x < 2 ^ 31 -> i32 x = x.
Proof.
  intros Hx. unfold i32, to_signed. rewrite Z.mod_small by lia.
  change (2 ^ (32 - 1)) with (2 ^ 31). destruct (Z.ltb_spec x (2 ^ 31)); lia.
Qed.

(** ** Lemmas on bits *)

Create Rewrite HintDb bits.
#[export] Hint Rewrite Z.land_spec Z.lor_spec Z.lxor_spec Z.ldiff_spec
  Z.testbit_0_l andb_true_l andb_true_r andb_false_l andb_false_r
  orb_true_l orb_true_r orb_false_l orb_false_r negb_involutive : bits.

Lemma bit_pow n : 0 <= n -> bit n = 2 ^ n.
Proof. intros. unfold bit. rewrite Z.shiftl_1_l. reflexivity. Qed.

Lemma bit_testbit n m : 0 <= n -> Z.testbit (bit n) m = (n =? m).
Proof.
  intros Hn. rewrite bit_pow by done.
  destruct (Z.eqb_spec n m) as [->|Hne]; [by apply Z.pow2_bits_true|by apply Z.pow2_bits_false].
Qed.

Lemma clr_testbit x m i : 0 <= i -> Z.testbit (clr x m) i = Z.testbit x i && negb (Z.testbit m i).
Proof. intros. unfold clr. by rewrite Z.land_spec, Z.lnot_spec. Qed.

Lemma land_bit x n : 0 <= n -> Z.land x (bit n) = if Z.testbit x n then bit n else 0.
Proof.
  intros Hn. apply Z.bits_inj'. intros i Hi. rewrite Z.land_spec, bit_testbit by done.
  destruct (Z.eqb_spec n i) as [->|Hne].
  - destruct (Z.testbit x i); by rewrite ?bit_testbit, ?Z.eqb_refl, ?Z.testbit_0_l by done.
  - rewrite andb_false_r. destruct (Z.testbit x n); [|by rewrite Z.testbit_0_l].
    rewrite bit_testbit by done. symmetry. by apply Z.eqb_neq.
Qed.

Lemma bit_pos n : 0 <= n -> 0 < bit n.
Proof. intros. rewrite bit_pow by done. by apply Z.pow_pos_nonneg. Qed.

Lemma tst_bit x n : 0 <= n -> tst x (bit n) = Z.testbit x n.
Proof.
  intros Hn. unfold tst. rewrite land_bit by done.
  pose proof (bit_pos n Hn). destruct (Z.testbit x n); [|done].
  apply negb_true_iff, Z.eqb_neq. lia.
Qed.

Lemma tst_lxor_false a b k : 0 <= k -> tst (Z.lxor a b) (bit k) = false -> tst a (bit k) = tst b (bit k).
Proof. intros Hk. rewrite !tst_bit, Z.lxor_spec by done. destruct (Z.testbit a k), (Z.testbit b k); done. Qed.

Lemma tst_lxor_true a b k : 0 <= k -> tst (Z.lxor a b) (bit k) = true -> tst b (bit k) = negb (tst a (bit k)).
Proof. intros Hk. rewrite !tst_bit, Z.lxor_spec by done. destruct (Z.testbit a k), (Z.testbit b k); done. Qed.

Lemma tst_sub x m k : 0 <= k -> Z.testbit m k = true -> tst x m = false -> tst x (bit k) = false.
Proof.
  intros Hk Hm H. rewrite tst_bit by done. unfold tst in H. apply negb_false_iff, Z.eqb_eq in H.
  assert (Ht : Z.testbit (Z.land x m) k = false) by (rewrite H; apply Z.testbit_0_l).
  by rewrite Z.land_spec, Hm, andb_true_r in Ht.
Qed.

Lemma tst_0_l m : tst 0 m = false.
Proof. reflexivity. Qed.

(** *** Ranges *)

Lemma in_u_bits w x : 0 <= w -> x in_u w <-> 0 <= x /\ forall i, w <= i -> Z.testbit x i = false.
Proof.
  intros Hw. split.
  - intros [Hx Hlt]. split; [done|]. intros i Hi.
    rewrite <- (Z.mod_small x (2 ^ w)) by lia. apply Z.mod_pow2_bits_high. lia.
  - intros [Hx Hb]. split; [done|].
    destruct (Z.eq_dec x 0) as [->|Hnz]; [by apply Z.pow_pos_nonneg|].
    apply Z.log2_lt_pow2; [lia|]. destruct (Z.lt_ge_cases (Z.log2 x) w) as [|Hge]; [done|].
    pose proof (Z.bit_log2 x ltac:(lia)) as Ht. by rewrite Hb in Ht.
Qed.

Lemma land_in_u_l w x y : 0 <= w -> x in_u w -> Z.land x y in_u w.
Proof.
  intros Hw Hx. apply in_u_bits in Hx as [Hx Hb]; [|done]. apply in_u_bits; [done|].
  split; [apply Z.land_nonneg; by left|]. intros i Hi. by rewrite Z.land_spec, Hb.
Qed.

Lemma land_in_u_r w x y : 0 <= w -> y in_u w -> Z.land x y in_u w.
Proof. intros. rewrite Z.land_comm. by apply land_in_u_l. Qed.

Lemma lor_in_u w x y : 0 <= w -> x in_u w -> y in_u w -> Z.lor x y in_u w.
Proof.
  intros Hw Hx Hy. apply in_u_bits in Hx as [Hx Hbx]; [|done].
  apply in_u_bits in Hy as [Hy Hby]; [|done]. apply in_u_bits; [done|].
  split; [by apply Z.lor_nonneg|]. intros i Hi. by rewrite Z.lor_spec, Hbx, Hby.
Qed.

Lemma lxor_in_u w x y : 0 <= w -> x in_u w -> y in_u w -> Z.lxor x y in_u w.
Proof.
  intros Hw Hx Hy. apply in_u_bits in Hx as [Hx Hbx]; [|done].
  apply in_u_bits in Hy as [Hy Hby]; [|done]. apply in_u_bits; [done|].
  split; [apply Z.lxor_nonneg; lia|]. intros i Hi. by rewrite Z.lxor_spec, Hbx, Hby.
Qed.

Lemma clr_in_u w x m : 0 <= w -> x in_u w -> clr x m in_u w.
Proof. apply land_in_u_l. Qed.

Lemma bit_in_u w n : 0 <= n < w -> bit n in_u w.
Proof.
  intros [Hn Hw]. rewrite bit_pow by done.
  split; [apply Z.pow_nonneg; lia|apply Z.pow_lt_mono_r; lia].
Qed.

Lemma mod_in_u w x : 0 <= w -> x mod 2 ^ w in_u w.
Proof. intros. apply Z.mod_pos_bound. by apply Z.pow_pos_nonneg. Qed.

Lemma shiftr_in_u w x n : 0 <= n -> x in_u w -> Z.shiftr x n in_u w.
Proof.
  intros Hn [Hx Hlt]. rewrite Z.shiftr_div_pow2 by done.
  assert (0 < 2 ^ n) by (by apply Z.pow_pos_nonneg).
  split; [by apply Z.div_pos|]. eapply Z.le_lt_trans; [|exact Hlt].
  apply Z.div_le_upper_bound; nia.
Qed.

Lemma in_u_le w w' x : 0 <= w <= w' -> x in_u w -> x in_u w'.
Proof. intros [? ?] [? ?]. pose proof (Z.pow_le_mono_r 2 w w' ltac:(lia) ltac:(lia)). lia. Qed.

Lemma u8_in_u x : u8 x in_u 8.   Proof. by apply mod_in_u. Qed.
Lemma u16_in_u x : u16 x in_u 16. Proof. by apply mod_in_u. Qed.
Lemma u32_in_u x : u32 x in_u 32. Proof. by apply mod_in_u. Qed.
Lemma u64_in_u x : u64 x in_u 64. Proof. by apply mod_in_u. Qed.

Lemma u8_id x : x in_u 8 -> u8 x = x.
Proof. intros. by apply Z.mod_small. Qed.
Lemma u16_id x : x in_u 16 -> u16 x = x.
Proof. intros. by apply Z.mod_small. Qed.
Lemma u32_id x : x in_u 32 -> u32 x = x.
Proof. intros. by apply Z.mod_small. Qed.
Lemma u64_id x : x in_u 64 -> u64 x = x.
Proof. intros. by apply Z.mod_small. Qed.

(** A sum whose parts occupy different bits is their disjunction. *)
Lemma add_lor_high w c r : 0 <= w -> c in_u w -> c + 2 ^ w * r = Z.lor c (Z.shiftl r w).
Proof.
  intros Hw Hc. rewrite Z.mul_comm, <- Z.shiftl_mul_pow2 by done.
  assert (H0 : Z.land c (Z.shiftl r w) = 0).
  { apply in_u_bits in Hc as [_ Hc]; [|done]. apply Z.bits_inj'. intros k Hk.
    rewrite Z.land_spec, Z.shiftl_spec, Z.testbit_0_l by done.
    destruct (Z.lt_ge_cases k w); [|by rewrite Hc]. rewrite (Z.testbit_neg_r r) by lia. apply andb_false_r. }
  by rewrite Z.add_nocarry_lxor, Z.lxor_lor.
Qed.

(** [range] closes the goals [x in_u w] for expressions built from masks,
    shifts, casts and fields whose range is a hypothesis. *)
Create HintDb range.
#[export] Hint Resolve u8_in_u u16_in_u u32_in_u u64_in_u : range.
#[export] Hint Resolve lor_in_u lxor_in_u clr_in_u : range.
#[export] Hint Extern 1 (_ <= _) => lia : range.
#[export] Hint Extern 1 (bit _ in_u _) => (apply bit_in_u; lia) : range.
#[export] Hint Extern 2 (Z.land _ _ in_u _) =>
  first [apply land_in_u_r; [lia | (vm_compute; split; [discriminate | reflexivity])]
        | apply land_in_u_l; [lia | eauto with range]] : range.
#[export] Hint Extern 3 (_ in_u _) => (vm_compute; split; [discriminate | reflexivity]) : range.
#[export] Hint Extern 4 (_ in_u _) => lia : range.

Ltac range := eauto with range.

(** A property of a byte is checked on the 256 values. *)
Lemma forall_below (P : Z -> bool) n x :
  forallb P (seqZ 0 n) = true -> 0 <= x < n -> P x = true.
Proof.
  intros HP Hx. rewrite forallb_forall in HP. apply HP.
  apply list_elem_of_In, elem_of_seqZ. lia.
Qed.

(** A search that starts one later. *)
Lemma existsb_shift (f g : nat -> bool) n : (forall k, f (S k) = g k) ->
  existsb f (seq 1 n) = existsb g (seq 0 n).
Proof.
  intros H. rewrite <- (seq_shift n 0). induction (seq 0 n) as [|k l IH]; [done|].
  cbn. by rewrite H, IH.
Qed.

(** ** Tactics *)

(** [simp_if] decides the conditionals of the goal by the hypotheses at hand
    and [split_if] case-splits the first one it finds. *)
Ltac split_if :=
  match goal with
  | |- context [if ?b then _ else _] => let E := fresh "E" in destruct b eqn:E
  end.

Ltac split_if_in H :=
  match type of H with
  | context [if ?b then _ else _] => let E := fresh "E" in destruct b eqn:E
  end.

(** Boolean comparisons to propositions, everywhere. *)
Ltac bools :=
  repeat match goal with
  | H : (_ && _)%bool = true |- _ => apply andb_true_iff in H as [? ?]
  | H : (_ || _)%bool = false |- _ => apply orb_false_iff in H as [? ?]
  | H : negb _ = true |- _ => apply negb_true_iff in H
  | H : negb _ = false |- _ => apply negb_false_iff in H
  | H : (_ =? _) = true |- _ => apply Z.eqb_eq in H
  | H : (_ =? _) = false |- _ => apply Z.eqb_neq in H
  | H : (_ <? _) = true |- _ => apply Z.ltb_lt in H
  | H : (_ <? _) = false |- _ => apply Z.ltb_ge in H
  | H : (_ <=? _) = true |- _ => apply Z.leb_le in H
  | H : (_ <=? _) = false |- _ => apply Z.leb_gt in H
  end.

(** ** Little-endian integers *)

Fixpoint le_combine (l : list Z) : Z :=
  match l with [] => 0 | b :: l => b + 256 * le_combine l end.

Fixpoint le_split (n : nat) (z : Z) : list Z :=
  match n with O => [] | S n => z mod 256 :: le_split n (z / 256) end.

Lemma le_combine_split n z : le_combine (le_split n z) = z mod 2 ^ (8 * Z.of_nat n).
Proof.
  revert z. induction n as [|n IH]; intros z; [cbn; by rewrite Z.mod_1_r|].
  cbn [le_split le_combine]. rewrite IH, Nat2Z.inj_succ.
  replace (8 * Z.succ (Z.of_nat n)) with (8 + 8 * Z.of_nat n) by lia.
  rewrite Z.pow_add_r by lia. change (2 ^ 8) with 256.
  symmetry. apply Z.rem_mul_r; [lia|]. apply Z.pow_pos_nonneg; lia.
Qed.

Lemma length_le_split n z : length (le_split n z) = n.
Proof. revert z. induction n as [|n IH]; intros z; cbn; [done|by rewrite IH]. Qed.

Lemma le_split_bytes n z : Forall (fun b => b in_u 8) (le_split n z).
Proof.
  revert z. induction n as [|n IH]; intros z; cbn; constructor; [|done].
  change 256 with (2 ^ 8). by apply mod_in_u.
Qed.

Lemma le_combine_range l : Forall (fun b => b in_u 8) l -> le_combine l in_u (8 * Z.of_nat (length l)).
Proof.
  induction 1 as [|b l Hb _ IH]; [done|]. cbn [le_combine length]. rewrite Nat2Z.inj_succ.
  replace (8 * Z.succ (Z.of_nat (length l))) with (8 + 8 * Z.of_nat (length l)) by lia.
  rewrite Z.pow_add_r by lia. change (2 ^ 8) with 256 in *. nia.
Qed.

Lemma le_split_combine l : Forall (fun b => b in_u 8) l -> le_split (length l) (le_combine l) = l.
Proof.
  induction 1 as [|b l Hb _ IH]; [done|]. cbn [le_combine length le_split].
  change (2 ^ 8) with 256 in Hb. f_equal.
  - rewrite Z.mul_comm, Z.mod_add by lia. by apply Z.mod_small.
  - rewrite Z.mul_comm, Z.div_add by lia. by rewrite Z.div_small, Z.add_0_l.
Qed.

Lemma le_split_mod n z : le_split n (z mod 2 ^ (8 * Z.of_nat n)) = le_split n z.
Proof.
  rewrite <- le_combine_split, <- (length_le_split n z) at 1. apply le_split_combine, le_split_bytes.
Qed.
