(* ===== verification/Effects.v ===== *)
(** * Stateful code that can abort

    The longer device models are written in a small state monad.  [cmd S A] is
    a computation on the state [S] with result [A]; besides returning it can
    fail a [KASSERT] (which calls [xhyve_abort] in the default build,
    config.mk) or not return at all.  [wp c Q s] is its weakest precondition
    for total correctness: started in [s], [c] returns, and the result and the
    final state satisfy [Q]. *)

From S2P Require Import Prelude.

Inductive outcome (A : Type) : Type :=
| Return (a : A)
| Panic
| Hang.
Arguments Return {A}.
Arguments Panic {A}.
Arguments Hang {A}.

Definition cmd (S A : Type) : Type := S -> outcome (A * S).

Section Commands.
Context {S A B : Type}.

Definition ret (a : A) : cmd S A := fun s => Return (a, s).
Definition bind (c : cmd S A) (k : A -> cmd S B) : cmd S B := fun s =>
  match c s with
  | Return (a, s') => k a s'
  | Panic => Panic
  | Hang => Hang
  end.
Definition gets (f : S -> A) : cmd S A := fun s => Return (f s, s).
Definition update (f : S -> S) : cmd S unit := fun s => Return (tt, f s).
Definition KASSERT (b : bool) : cmd S unit := fun s => if b then Return (tt, s) else Panic.
Definition skip : cmd S unit := fun s => Return (tt, s).
Definition when (b : bool) (c : cmd S unit) : cmd S unit := if b then c else skip.

Definition wp (c : cmd S A) (Q : A -> S -> Prop) (s : S) : Prop :=
  match c s with Return (a, s') => Q a s' | _ => False end.
End Commands.

Declare Scope cmd_scope.
Delimit Scope cmd_scope with cmd.
Notation "x <- c ;; k" := (bind c (fun x => k))
  (at level 100, c at next level, right associativity) : cmd_scope.
Notation "c ;;; k" := (bind c (fun _ => k)) (at level 100, right associativity) : cmd_scope.

(** ** Rules *)
Section Rules.
Context {S A B : Type}.
Implicit Types s : S.

Lemma wp_ret (a : A) Q s : Q a s -> wp (ret a) Q s.
Proof. done. Qed.

Lemma wp_bind (c : cmd S A) (k : A -> cmd S B) Q s :
  wp c (fun a s' => wp (k a) Q s') s -> wp (bind c k) Q s.
Proof. unfold wp, bind. destruct (c s) as [[a s']| |]; done. Qed.

(** A specified prefix of a sequence. *)
Lemma wp_prefix {C} (c : cmd S A) (f : A -> cmd S B) (k : B -> cmd S C) P Q s :
  wp (bind c f) P s -> (forall b s', P b s' -> wp (k b) Q s') ->
  wp (bind c (fun a => bind (f a) k)) Q s.
Proof.
  intros H HP. unfold wp, bind in *. destruct (c s) as [[a s']| |]; try done.
  destruct (f a s') as [[b s'']| |]; try done. by apply HP.
Qed.

Lemma wp_gets (f : S -> A) Q s : Q (f s) s -> wp (gets f) Q s.
Proof. done. Qed.

Lemma wp_update (f : S -> S) Q s : Q tt (f s) -> wp (update f) Q s.
Proof. done. Qed.

Lemma wp_KASSERT b (Q : unit -> S -> Prop) s : b = true -> Q tt s -> wp (KASSERT b) Q s.
Proof. intros ->. done. Qed.

Lemma wp_skip (Q : unit -> S -> Prop) s : Q tt s -> wp skip Q s.
Proof. done. Qed.

Lemma wp_when b c (Q : unit -> S -> Prop) s :
  (b = true -> wp c Q s) -> (b = false -> Q tt s) -> wp (when b c) Q s.
Proof. destruct b; cbn; auto. Qed.

Lemma wp_if (b : bool) (c d : cmd S A) Q s :
  (b = true -> wp c Q s) -> (b = false -> wp d Q s) -> wp (if b then c else d) Q s.
Proof. destruct b; auto. Qed.

Lemma wp_conseq (c : cmd S A) (P Q : A -> S -> Prop) s :
  wp c P s -> (forall a s', P a s' -> Q a s') -> wp c Q s.
Proof. unfold wp. destruct (c s) as [[a s']| |]; auto. Qed.

(** [wp] names the result a run computes. *)
Lemma wp_elim (c : cmd S A) Q s : wp c Q s -> exists a s', c s = Return (a, s') /\ Q a s'.
Proof. unfold wp. destruct (c s) as [[a s']| |]; [eauto|done|done]. Qed.

Lemma wp_run (c : cmd S A) Q s a s' : wp c Q s -> c s = Return (a, s') -> Q a s'.
Proof. unfold wp. intros H E. by rewrite E in H. Qed.
End Rules.

Lemma bind_return {S A B} (c : cmd S A) (k : A -> cmd S B) s a s' :
  c s = Return (a, s') -> bind c k s = k a s'.
Proof. unfold bind. by intros ->. Qed.

Lemma KASSERT_true {S B} b (k : unit -> cmd S B) s :
  b = true -> bind (KASSERT b) k s = k tt s.
Proof. by intros ->. Qed.

(** One step of symbolic execution; [wp_go] runs to the first conditional,
    assertion or call. *)
Ltac wp_step :=
  lazymatch goal with
  | |- wp (bind _ _) _ _ => apply wp_bind
  | |- wp (ret _) _ _ => apply wp_ret
  | |- wp (gets _) _ _ => apply wp_gets
  | |- wp (update _) _ _ => apply wp_update
  | |- wp skip _ _ => apply wp_skip
  end; cbv beta.

Ltac wp_go := repeat wp_step.
