(* ===== verification/Interface.v ===== *)
(** * Interfaces between the components

    The device models of the code call each other through global functions on
    [struct vm].  Each class below is what one component needs of the others:
    a client is defined, and its theorems are proved, for any type [V] of "the
    rest of the virtual machine" that provides the operations.  The log
    instance records the calls in order; it is the one the examples use. *)

From S2P Require Import Prelude.

(** The interrupt outputs of the 8259 pair and of the timers:
    [lapic_set_local_intr(vm, vcpu, vector)], [vioapic_pulse_irq(vm, irq)]. *)
Class IrqFabric (V : Type) := {
  lapic_set_local_intr : Z -> Z -> V -> V;
  vioapic_pulse_irq : Z -> V -> V;
}.

(** The calls as data. *)
Inductive irq_call : Type :=
| CallLocalIntr (vcpu vector : Z)
| CallIoapicPulse (irq : Z).

#[export] Instance irq_call_eq_dec : EqDecision irq_call.
Proof. solve_decision. Defined.

#[export] Instance log_fabric : IrqFabric (list irq_call) := {
  lapic_set_local_intr vcpu vector log := log ++ [CallLocalIntr vcpu vector];
  vioapic_pulse_irq irq log := log ++ [CallIoapicPulse irq];
}.

(** [errno]-style results: an [int] next to the new state. *)
Definition result (S : Type) : Type := Z * S.

(** [enum vm_intr_trigger] of vmm_common.h. *)
Inductive vm_intr_trigger : Type := EDGE_TRIGGER | LEVEL_TRIGGER.

#[export] Instance vm_intr_trigger_eq_dec : EqDecision vm_intr_trigger.
Proof. solve_decision. Defined.

(** Index of the local vector table entry of LINT0 (apicreg.h). *)
Definition APIC_LVT_LINT0 : Z := 0.

(** The timers a device owns, by number: arming one at an absolute [sbintime]
    or, with [co_reset_in c sbt now], after [sbt] from the host time [now];
    stopping one; and the flags of [struct callout].  [co_ok c] says that the
    timer system is consistent and [c] is one of its timers. *)
Class CalloutOps (T : Type) := {
  co_reset : Z -> Z -> T -> T;
  co_reset_in : Z -> Z -> Z -> T -> T;
  co_stop : Z -> T -> T;
  co_pending : Z -> T -> bool;
  co_active : Z -> T -> bool;
  co_deactivate : Z -> T -> T;
  co_ok : Z -> T -> Prop;
}.

Class CalloutLaws (T : Type) `{!CalloutOps T} := {
  reset_ok c c' sbt t : co_ok c t -> co_ok c' t -> co_ok c' (co_reset c sbt t);
  reset_in_ok c c' sbt now t : co_ok c t -> co_ok c' t -> co_ok c' (co_reset_in c sbt now t);
  stop_ok c c' t : co_ok c t -> co_ok c' t -> co_ok c' (co_stop c t);
  reset_in_pending c sbt now t : co_ok c t -> co_pending c (co_reset_in c sbt now t) = true;
  reset_in_active c sbt now t : co_ok c t -> co_active c (co_reset_in c sbt now t) = true;
  stop_pending c t : co_ok c t -> co_pending c (co_stop c t) = false;
  stop_active c t : co_ok c t -> co_active c (co_stop c t) = false;
  deactivate_ok c c' t : co_ok c' t -> co_ok c' (co_deactivate c t);
  reset_pending c sbt t : co_ok c t -> co_pending c (co_reset c sbt t) = true;
  reset_active c sbt t : co_ok c t -> co_active c (co_reset c sbt t) = true;
  deactivate_active c t : co_active c (co_deactivate c t) = false;
  deactivate_pending c t : co_pending c (co_deactivate c t) = co_pending c t;
  reset_in_frame c c' sbt now t : co_ok c t -> c' <> c ->
    co_active c' (co_reset_in c sbt now t) = co_active c' t;
  stop_frame c c' t : co_ok c t -> c' <> c -> co_active c' (co_stop c t) = co_active c' t;
  deactivate_frame c c' t : c' <> c -> co_active c' (co_deactivate c t) = co_active c' t;
}.

(** A timer system of its own for the examples: the armed deadlines. *)
Definition timers : Type := Z -> option Z * bool.

#[export] Instance fun_callouts : CalloutOps timers := {
  co_reset c sbt t := fun x => if x =? c then (Some sbt, true) else t x;
  co_reset_in c sbt now t := fun x => if x =? c then (Some (now + sbt), true) else t x;
  co_stop c t := fun x => if x =? c then (None, false) else t x;
  co_pending c t := match (t c).1 with Some _ => true | None => false end;
  co_active c t := (t c).2;
  co_deactivate c t := fun x => if x =? c then ((t c).1, false) else t x;
  co_ok _ _ := True;
}.

#[export] Instance fun_callouts_laws : CalloutLaws timers.
Proof. split; intros; cbn; rewrite ?Z.eqb_refl, ?(proj2 (Z.eqb_neq c' c)) by done; done. Qed.

(** The inputs of the interrupt controllers that the timers pulse. *)
Class PulseFabric (V : Type) := {
  pulse_atpic : Z -> V -> V;
  pulse_ioapic : Z -> V -> V;
}.

Inductive pulse_call : Type := PulseAtpic (irq : Z) | PulseIoapic (irq : Z).

#[export] Instance log_pulses : PulseFabric (list pulse_call) := {
  pulse_atpic irq log := log ++ [PulseAtpic irq];
  pulse_ioapic irq log := log ++ [PulseIoapic irq];
}.
