(* ===== verification/Vlapic.v ===== *)
(** * The local APIC: interrupt requests, service and priority (vlapic.c)

    The request, in-service and trigger-mode registers are eight 32-bit words
    each, as in the APIC page.  [vlapic_update_ppr] checks at run time that
    the stack of injected vectors and the in-service register agree and aborts
    otherwise; the commands below keep those checks ([xhyve_abort] is the
    outcome [Panic], like a failing [KASSERT]), and the theorems show that
    they never fail.  The optional hardware hooks ([vlapic->ops]) are
    null pointers in this program: no code sets them.

    Modelled here: delivery, acknowledgement, end of interrupt, priorities,
    the local vector table as a source, and errors.  The timer, inter-processor
    interrupts and the register window are in [Lapic]. *)

From Stdlib Require List.
From S2P Require Import Prelude Effects Interface.
Local Open Scope cmd_scope.

Definition APIC_LVT_LINT1 : Z := 1.
Definition APIC_LVT_TIMER : Z := 2.
Definition APIC_LVT_ERROR : Z := 3.
Definition APIC_LVT_PMC : Z := 4.
Definition APIC_LVT_THERMAL : Z := 5.
Definition APIC_LVT_CMCI : Z := 6.
Definition APIC_LVT_VECTOR : Z := 0xff.
Definition APIC_LVT_DM : Z := 0x700.
Definition APIC_LVT_DM_FIXED : Z := 0.
Definition APIC_LVT_DM_NMI : Z := 0x400.
Definition APIC_LVT_DM_EXTINT : Z := 0x700.
Definition APIC_LVT_M : Z := 0x10000.
Definition APIC_SVR_ENABLE : Z := 0x100.
Definition APIC_ESR_SEND_ILLEGAL_VECTOR : Z := 0x20.
Definition APIC_ESR_RECEIVE_ILLEGAL_VECTOR : Z := 0x40.
Definition APICBASE_ENABLED : Z := 0x800.
Definition ISRVEC_STK_SIZE : Z := 17.

Definition PRIO (x : Z) : Z := Z.shiftr x 4.

Record vlapic : Type := mk_vlapic {
  tpr : Z; ppr : Z; svr : Z; esr : Z;
  irr : list Z; isr : list Z; tmr : list Z;
  esr_pending : Z;
  esr_firing : bool;
  isrvec_stk : list Z;
  isrvec_stk_top : Z;
  msr_apicbase : Z;
  lvt_last : list Z;
}.
#[export] Instance eta_vlapic : Eta vlapic := fun l =>
  mk_vlapic (tpr l) (ppr l) (svr l) (esr l) (irr l) (isr l) (tmr l) (esr_pending l) (esr_firing l)
    (isrvec_stk l) (isrvec_stk_top l) (msr_apicbase l) (lvt_last l).

(** What the local APIC asks of the vCPU and of the I/O APIC. *)
Class LapicOut (V : Type) := {
  vcpu_notify_event : V -> V;
  vm_inject_nmi : V -> V;
  vm_inject_extint : V -> V;
  vm_inject_gp : V -> V;
  ioapic_process_eoi : Z -> V -> V;
}.

Inductive lapic_call : Type := CallNotify | CallNmi | CallExtint | CallGp | CallEoi (vector : Z).

#[export] Instance log_lapic : LapicOut (list lapic_call) := {
  vcpu_notify_event l := l ++ [CallNotify];
  vm_inject_nmi l := l ++ [CallNmi];
  vm_inject_extint l := l ++ [CallExtint];
  vm_inject_gp l := l ++ [CallGp];
  ioapic_process_eoi v l := l ++ [CallEoi v];
}.

Record lmachine (V : Type) : Type := mk_lmachine { lapic : vlapic; out : V }.
Arguments mk_lmachine {V}.
Arguments lapic {V}.
Arguments out {V}.
#[export] Instance eta_lmachine V : Eta (lmachine V) := fun m => mk_lmachine (lapic m) (out m).

(** Bit [vector] of a 256-bit register. *)
Definition word (r : list Z) (i : Z) : Z := default 0 (r !! Z.to_nat i).
Definition vtst (r : list Z) (vector : Z) : bool := tst (word r (vector / 32)) (bit (vector mod 32)).
Definition vset (r : list Z) (vector : Z) : list Z :=
  alter (fun x => Z.lor x (bit (vector mod 32))) (Z.to_nat (vector / 32)) r.
Definition vclr (r : list Z) (vector : Z) : list Z :=
  alter (fun x => clr x (bit (vector mod 32))) (Z.to_nat (vector / 32)) r.

(** Position of the most significant bit, counted from one. *)
Definition fls (x : Z) : Z := if x =? 0 then 0 else Z.log2 x + 1.

(** [for (i = 7; i >= 0; i--)] to the first word with a bit set: its number
    and the position of its highest bit. *)
Fixpoint top_bit (r : list Z) (ws : list Z) : option (Z * Z) :=
  match ws with
  | [] => None
  | i :: ws' =>
      let bitpos := fls (word r i) in
      if negb (bitpos =? 0) then Some (i, bitpos - 1) else top_bit r ws'
  end.

Definition words_down : list Z := [7; 6; 5; 4; 3; 2; 1; 0].

Section Device.
Context {V : Type} `{!LapicOut V}.
Local Abbreviation M := (cmd (lmachine V)).

Definition set_lapic (f : vlapic -> vlapic) : M unit := update (fun m => m <| lapic ::= f |>).
Definition emit (f : V -> V) : M unit := update (fun m => m <| out ::= f |>).

Definition vlapic_get_lvt (idx : Z) (l : vlapic) : Z := default 0 (lvt_last l !! Z.to_nat idx).

(** The functions [vlapic_set_error], [vlapic_fire_lvt] and
    [vlapic_set_intr_ready] call each other; the two below take
    [vlapic_set_error] as an argument. *)
Definition set_intr_ready_with (set_error : Z -> M unit) (vector : Z) : M Z :=
  KASSERT ((0 <=? vector) && (vector <? 256)) ;;;
  l <- gets lapic ;;
  if negb (tst (svr l) APIC_SVR_ENABLE) then ret 0
  else if vector <? 16 then set_error APIC_ESR_RECEIVE_ILLEGAL_VECTOR ;;; ret 1
  else set_lapic (fun l => l <| irr ::= fun r => vset r vector |>) ;;; ret 1.

Definition fire_lvt_with (set_error : Z -> M unit) (lvt : Z) : M Z :=
  if tst lvt APIC_LVT_M then ret 0
  else
    let vec := Z.land lvt APIC_LVT_VECTOR in
    let mode := Z.land lvt APIC_LVT_DM in
    if mode =? APIC_LVT_DM_FIXED then
      if vec <? 16 then set_error APIC_ESR_SEND_ILLEGAL_VECTOR ;;; ret 0
      else
        r <- set_intr_ready_with set_error vec ;;
        when (negb (r =? 0)) (emit vcpu_notify_event) ;;;
        ret 1
    else if mode =? APIC_LVT_DM_NMI then emit vm_inject_nmi ;;; ret 1
    else if mode =? APIC_LVT_DM_EXTINT then emit vm_inject_extint ;;; ret 1
    else ret 0.

(** A nested call finds [esr_firing] set and returns, so one level of fuel is
    enough. *)
Fixpoint set_error_fuel (fuel : nat) (mask : Z) : M unit :=
  set_lapic (fun l => l <| esr_pending ::= fun p => Z.lor p mask |>) ;;;
  l <- gets lapic ;;
  if esr_firing l then skip
  else
    match fuel with
    | O => fun _ => Hang
    | S fuel' =>
        set_lapic (fun l => l <| esr_firing := true |>) ;;;
        fire_lvt_with (set_error_fuel fuel') (Z.lor (vlapic_get_lvt APIC_LVT_ERROR l) APIC_LVT_DM_FIXED) ;;;
        set_lapic (fun l => l <| esr_firing := false |>)
    end.

Definition vlapic_set_error (mask : Z) : M unit := set_error_fuel 1 mask.
Definition vlapic_set_intr_ready (vector : Z) : M Z := set_intr_ready_with vlapic_set_error vector.
Definition vlapic_fire_lvt (lvt : Z) : M Z := fire_lvt_with vlapic_set_error lvt.

(** The two checks of [vlapic_update_ppr]; [stk] is the stack from index 1 to
    the top. *)
Fixpoint prio_increasing (lastprio : Z) (stk : list Z) : bool :=
  match stk with
  | [] => true
  | v :: stk' => if PRIO v <=? lastprio then false else prio_increasing (PRIO v) stk'
  end.

Fixpoint isr_in_stack (r : list Z) (stk : list Z) (vectors : list Z) : bool :=
  match vectors with
  | [] => true
  | v :: vectors' =>
      if vtst r v then
        match stk with
        | x :: stk' => (x =? v) && isr_in_stack r stk' vectors'
        | [] => false
        end
      else isr_in_stack r stk vectors'
  end.

Definition injected (l : vlapic) : list Z := take (Z.to_nat (isrvec_stk_top l)) (drop 1 (isrvec_stk l)).

Definition vlapic_update_ppr : M unit :=
  l <- gets lapic ;;
  let isrvec := default 0 (isrvec_stk l !! Z.to_nat (isrvec_stk_top l)) in
  KASSERT (negb ((isrvec_stk_top l =? 0) && negb (isrvec =? 0))) ;;;
  KASSERT (prio_increasing (-1) (injected l)) ;;;
  KASSERT (isr_in_stack (isr l) (injected l) (seqZ 0 256)) ;;;
  set_lapic (fun l => l <| ppr := if PRIO isrvec <=? PRIO (tpr l) then tpr l else Z.land isrvec 0xf0 |>).

Definition vlapic_process_eoi : M unit :=
  l <- gets lapic ;;
  match top_bit (isr l) words_down with
  | Some (i, bitpos) =>
      KASSERT (0 <? isrvec_stk_top l) ;;;
      let vector := i * 32 + bitpos in
      set_lapic (fun l => l <| isr ::= alter (fun x => clr x (bit bitpos)) (Z.to_nat i) |>
                            <| isrvec_stk_top ::= fun t => t - 1 |>) ;;;
      vlapic_update_ppr ;;;
      l <- gets lapic ;;
      when (tst (word (tmr l) i) (bit bitpos)) (emit (ioapic_process_eoi vector))
  | None => skip
  end.

Definition vlapic_fire_timer : M unit :=
  l <- gets lapic ;;
  vlapic_fire_lvt (Z.lor (vlapic_get_lvt APIC_LVT_TIMER l) APIC_LVT_DM_FIXED) ;;;
  skip.

Definition vlapic_fire_cmci : M unit :=
  l <- gets lapic ;;
  vlapic_fire_lvt (vlapic_get_lvt APIC_LVT_CMCI l) ;;;
  skip.

Definition vlapic_enabled (l : vlapic) : bool :=
  tst (msr_apicbase l) APICBASE_ENABLED && tst (svr l) APIC_SVR_ENABLE.

Definition vlapic_trigger_lvt (vector : Z) : M Z :=
  l <- gets lapic ;;
  if negb (vlapic_enabled l) then
    (if vector =? APIC_LVT_LINT0 then emit vm_inject_extint
     else if vector =? APIC_LVT_LINT1 then emit vm_inject_nmi
     else skip) ;;;
    ret 0
  else
    let lvt := vlapic_get_lvt vector l in
    if (vector =? APIC_LVT_LINT0) || (vector =? APIC_LVT_LINT1) || (vector =? APIC_LVT_PMC) ||
       (vector =? APIC_LVT_THERMAL) || (vector =? APIC_LVT_CMCI) then
      vlapic_fire_lvt lvt ;;; ret 0
    else if (vector =? APIC_LVT_TIMER) || (vector =? APIC_LVT_ERROR) then
      vlapic_fire_lvt (Z.lor lvt APIC_LVT_DM_FIXED) ;;; ret 0
    else ret EINVAL.

Definition vlapic_esr_write_handler : M unit :=
  set_lapic (fun l => l <| esr := esr_pending l |>) ;;;
  set_lapic (fun l => l <| esr_pending := 0 |>).

Definition vlapic_set_tpr (val : Z) : M unit :=
  l <- gets lapic ;;
  when (negb (tpr l =? val)) (
    set_lapic (fun l => l <| tpr := val |>) ;;;
    vlapic_update_ppr).

Definition vlapic_get_tpr (l : vlapic) : Z := u8 (tpr l).

Definition vlapic_set_cr8 (val : Z) : M unit :=
  if negb (Z.land val (u64 (Z.lnot 0xf)) =? 0) then emit vm_inject_gp
  else vlapic_set_tpr (u8 (Z.shiftl val 4)).

Definition vlapic_get_cr8 (l : vlapic) : Z := Z.shiftr (vlapic_get_tpr l) 4.

(** The highest requested vector, when its priority class beats the PPR. *)
Definition vlapic_pending_intr (l : vlapic) : option Z :=
  match top_bit (irr l) words_down with
  | Some (i, bitpos) =>
      let vector := i * 32 + bitpos in
      if PRIO (ppr l) <? PRIO vector then Some vector else None
  | None => None
  end.

Definition vlapic_intr_accepted (vector : Z) : M unit :=
  set_lapic (fun l => l <| irr ::= fun r => vclr r vector |>) ;;;
  set_lapic (fun l => l <| isr ::= fun r => vset r vector |>) ;;;
  set_lapic (fun l => l <| isrvec_stk_top ::= fun t => t + 1 |>) ;;;
  l <- gets lapic ;;
  let stk_top := isrvec_stk_top l in
  KASSERT (stk_top <? ISRVEC_STK_SIZE) ;;;
  set_lapic (fun l => l <| isrvec_stk ::= <[Z.to_nat stk_top := u8 vector]> |>) ;;;
  vlapic_update_ppr.

Definition vlapic_set_tmr (vector : Z) (level : bool) (l : vlapic) : vlapic :=
  l <| tmr ::= fun r => if level then vset r vector else vclr r vector |>.

Definition vlapic_reset_tmr (l : vlapic) : vlapic :=
  foldl (fun l vector => vlapic_set_tmr vector false l) l (seqZ 0 256).
End Device.

(** ** 256-bit registers *)

Definition wf256 (r : list Z) : Prop := length r = 8%nat /\ Forall (fun x => x in_u 32) r.

Definition is_vector (v : Z) : Prop := 0 <= v < 256.

Lemma word_range r i : wf256 r -> word r i in_u 32.
Proof.
  intros [_ Hb]. unfold word. destruct (r !! Z.to_nat i) as [x|] eqn:E; cbn; [|range].
  exact (Forall_lookup_1 _ _ _ _ Hb E).
Qed.

Lemma word_alter f r i j : wf256 r -> 0 <= i < 8 -> 0 <= j ->
  word (alter f (Z.to_nat i) r) j = if j =? i then f (word r i) else word r j.
Proof.
  intros [Hl _] Hi Hj. unfold word. destruct (Z.eqb_spec j i) as [->|Hne].
  - rewrite list_lookup_alter_eq. destruct (lookup_lt_is_Some_2 r (Z.to_nat i)) as [x ->]; [lia|done].
  - by rewrite list_lookup_alter_ne by lia.
Qed.

Lemma wf256_alter f r i : wf256 r -> (forall x, x in_u 32 -> f x in_u 32) -> wf256 (alter f i r).
Proof.
  intros [Hl Hb] Hf. split; [by rewrite length_alter|]. apply Forall_alter; [done|]. intros x _ Hx. auto.
Qed.

Lemma div_mod_vector v : is_vector v -> 0 <= v / 32 < 8 /\ 0 <= v mod 32 < 32 /\ v = v / 32 * 32 + v mod 32.
Proof. intros [? ?]. Z.to_euclidean_division_equations; lia. Qed.

Lemma same_bit u v : (u / 32 =? v / 32) && (u mod 32 =? v mod 32) = (u =? v).
Proof.
  pose proof (Z.div_mod u 32 ltac:(lia)). pose proof (Z.div_mod v 32 ltac:(lia)).
  destruct (Z.eqb_spec (u / 32) (v / 32)), (Z.eqb_spec (u mod 32) (v mod 32)), (Z.eqb_spec u v); cbn; try done; try lia; congruence.
Qed.

Lemma vtst_testbit r v : is_vector v -> vtst r v = Z.testbit (word r (v / 32)) (v mod 32).
Proof. intros Hv. unfold vtst. apply tst_bit. pose proof (div_mod_vector v Hv). lia. Qed.

Lemma vtst_vset r u v : wf256 r -> is_vector u -> is_vector v -> vtst (vset r v) u = vtst r u || (u =? v).
Proof.
  intros W Hu Hv. rewrite !vtst_testbit by done.
  pose proof (div_mod_vector u Hu). pose proof (div_mod_vector v Hv).
  unfold vset. rewrite word_alter by (done || lia). rewrite <- (same_bit u v).
  destruct (Z.eqb_spec (u / 32) (v / 32)) as [E|E]; cbn [andb]; [|by rewrite orb_false_r].
  rewrite Z.lor_spec, bit_testbit, E by lia. by rewrite (Z.eqb_sym (v mod 32)).
Qed.

Lemma vtst_vclr r u v : wf256 r -> is_vector u -> is_vector v -> vtst (vclr r v) u = vtst r u && negb (u =? v).
Proof.
  intros W Hu Hv. rewrite !vtst_testbit by done.
  pose proof (div_mod_vector u Hu). pose proof (div_mod_vector v Hv).
  unfold vclr. rewrite word_alter by (done || lia). rewrite <- (same_bit u v).
  destruct (Z.eqb_spec (u / 32) (v / 32)) as [E|E]; cbn [andb negb]; [|by rewrite andb_true_r].
  rewrite clr_testbit, bit_testbit, E by lia. by rewrite (Z.eqb_sym (v mod 32)).
Qed.

Lemma wf256_vset r v : wf256 r -> is_vector v -> wf256 (vset r v).
Proof.
  intros W Hv. pose proof (div_mod_vector v Hv). apply wf256_alter; [done|]. intros x Hx.
  apply lor_in_u; [lia|done|]. apply bit_in_u. lia.
Qed.

Lemma wf256_vclr r v : wf256 r -> wf256 (vclr r v).
Proof. intros W. apply wf256_alter; [done|]. intros x Hx. by apply clr_in_u. Qed.

(** ** The highest bit *)

Lemma fls_zero x : fls x = 0 -> 0 <= x -> x = 0.
Proof.
  unfold fls. destruct (Z.eqb_spec x 0); [done|]. intros H Hx. pose proof (Z.log2_nonneg x). lia.
Qed.

Lemma top_bit_word r i b : wf256 r -> 0 <= b < 32 -> 0 <= i < 8 ->
  fls (word r i) = b + 1 ->
  vtst r (i * 32 + b) = true /\ (forall c, b < c < 32 -> vtst r (i * 32 + c) = false).
Proof.
  intros W Hb Hi E. pose proof (word_range r i W) as [Hw _].
  assert (D : forall c, 0 <= c < 32 -> (i * 32 + c) / 32 = i /\ (i * 32 + c) mod 32 = c /\ is_vector (i * 32 + c)).
  { intros c Hc. unfold is_vector. Z.to_euclidean_division_equations; lia. }
  unfold fls in E. destruct (Z.eqb_spec (word r i) 0); [lia|].
  assert (El : Z.log2 (word r i) = b) by lia. split.
  - destruct (D b Hb) as (E1 & E2 & Hv). rewrite vtst_testbit, E1, E2, <- El by done. apply Z.bit_log2. lia.
  - intros c Hc. destruct (D c ltac:(lia)) as (E1 & E2 & Hv). rewrite vtst_testbit, E1, E2 by done.
    apply Z.bits_above_log2; lia.
Qed.

(** [v] is the highest vector of [r]. *)
Definition is_top (r : list Z) (v : Z) : Prop :=
  is_vector v /\ vtst r v = true /\ forall u, is_vector u -> vtst r u = true -> u <= v.

Fixpoint down (n : nat) : list Z :=
  match n with O => [] | S k => Z.of_nat k :: down k end.

Lemma fls_range x : x in_u 32 -> 0 <= fls x <= 32.
Proof.
  intros Hx. unfold fls. destruct (Z.eqb_spec x 0); [lia|]. pose proof (Z.log2_nonneg x).
  assert (Z.log2 x < 32) by (apply Z.log2_lt_pow2; lia). lia.
Qed.

Lemma top_bit_down r n : wf256 r -> (n <= 8)%nat -> (forall j, Z.of_nat n <= j < 8 -> word r j = 0) ->
  match top_bit r (down n) with
  | Some (i, b) => 0 <= i < 8 /\ 0 <= b < 32 /\ is_top r (i * 32 + b)
  | None => forall v, is_vector v -> vtst r v = false
  end.
Proof.
  intros W. induction n as [|n IH]; intros Hn Hz; cbn [down top_bit].
  - intros v Hv. rewrite vtst_testbit by done. pose proof (div_mod_vector v Hv).
    rewrite Hz by lia. apply Z.testbit_0_l.
  - pose proof (word_range r (Z.of_nat n) W) as Hw. pose proof (fls_range _ Hw).
    destruct (Z.eqb_spec (fls (word r (Z.of_nat n))) 0) as [E|E]; cbn [negb].
    + apply IH; [lia|]. intros j Hj. destruct (decide (j = Z.of_nat n)) as [->|]; [|apply Hz; lia].
      apply fls_zero; [done|lia].
    + destruct (top_bit_word r (Z.of_nat n) (fls (word r (Z.of_nat n)) - 1)) as [Ht Ha]; [done|lia|lia|lia|].
      split; [lia|]. split; [lia|]. split; [unfold is_vector; lia|]. split; [done|].
      intros u Hu Hu'. pose proof (div_mod_vector u Hu) as (Hd & Hm & Eu).
      destruct (Z.lt_trichotomy (u / 32) (Z.of_nat n)) as [Hlt|[Heq|Hgt]].
      * lia.
      * destruct (Z.le_gt_cases (u mod 32) (fls (word r (Z.of_nat n)) - 1)); [lia|].
        rewrite Eu, Heq, Ha in Hu' by lia. done.
      * rewrite vtst_testbit, Hz, Z.testbit_0_l in Hu' by (done || lia). done.
Qed.

Lemma top_bit_spec r : wf256 r ->
  match top_bit r words_down with
  | Some (i, b) => 0 <= i < 8 /\ 0 <= b < 32 /\ is_top r (i * 32 + b)
  | None => forall v, is_vector v -> vtst r v = false
  end.
Proof. intros W. apply (top_bit_down r 8 W); [lia|]. intros j Hj. lia. Qed.

(** ** Interrupts in service *)

(** The vectors in service, in increasing order. *)
Definition members (r : list Z) : list Z := List.filter (vtst r) (seqZ 0 256).

Lemma filter_none (P : Z -> bool) l : (forall u, u ∈ l -> P u = false) -> List.filter P l = [].
Proof.
  induction l as [|x l IH]; intros H; [done|]. cbn. rewrite H by (apply elem_of_cons; auto).
  apply IH. intros u Hu. apply H. apply elem_of_cons. auto.
Qed.

Lemma filter_same (P Q : Z -> bool) l : (forall u, u ∈ l -> P u = Q u) -> List.filter P l = List.filter Q l.
Proof. intros H. apply List.filter_ext_in. intros u Hu. apply H. by apply list_elem_of_In. Qed.

Lemma seqZ_around v : is_vector v -> seqZ 0 256 = seqZ 0 v ++ v :: seqZ (v + 1) (255 - v).
Proof.
  intros [? ?]. replace 256 with (v + (256 - v)) by lia. rewrite seqZ_app by lia.
  rewrite Z.add_0_l, (seqZ_cons v) by lia. do 3 f_equal; lia.
Qed.

(** A register with a new highest bit lists it last. *)
Lemma members_snoc r r' v : is_vector v ->
  (forall u, is_vector u -> vtst r' u = vtst r u || (u =? v)) ->
  (forall u, is_vector u -> vtst r u = true -> u < v) ->
  members r' = members r ++ [v].
Proof.
  intros Hv HQ HP. unfold members. rewrite (seqZ_around v Hv), !List.filter_app. cbn [List.filter].
  assert (Hhigh : forall P : Z -> bool, (forall u, v < u < 256 -> P u = false) ->
    List.filter P (seqZ (v + 1) (255 - v)) = []).
  { intros P H. apply filter_none. intros u Hu%elem_of_seqZ. apply H. lia. }
  assert (Hnot : forall u, is_vector u -> v <= u -> vtst r u = false).
  { intros u Hu Hle. destruct (vtst r u) eqn:E; [|done]. specialize (HP u Hu E). lia. }
  unfold is_vector in *.
  rewrite !Hhigh by (intros u Hu; rewrite ?HQ, Hnot by lia; try done; apply Z.eqb_neq; lia).
  rewrite HQ, Hnot, Z.eqb_refl by lia. cbn. rewrite app_nil_r. f_equal.
  apply filter_same. intros u Hu%elem_of_seqZ. rewrite HQ by lia.
  rewrite (proj2 (Z.eqb_neq u v)) by lia. by rewrite orb_false_r.
Qed.

Lemma isr_in_stack_members r vs : isr_in_stack r (List.filter (vtst r) vs) vs = true.
Proof.
  induction vs as [|v vs IH]; [done|]. cbn. destruct (vtst r v) eqn:E; [|done].
  by rewrite Z.eqb_refl.
Qed.

Lemma members_spec r v : v ∈ members r <-> is_vector v /\ vtst r v = true.
Proof.
  unfold members. rewrite list_elem_of_In, List.filter_In, <- list_elem_of_In, elem_of_seqZ.
  unfold is_vector. intuition lia.
Qed.

(** ** Priorities *)

Lemma PRIO_mono u v : PRIO u < PRIO v -> u < v.
Proof. unfold PRIO. rewrite !Z.shiftr_div_pow2 by lia. intros H. Z.to_euclidean_division_equations; lia. Qed.

Lemma prio_snoc last stk v : prio_increasing last (stk ++ [v]) =
  prio_increasing last stk && (default last (PRIO <$> list.last stk) <? PRIO v).
Proof.
  revert last. induction stk as [|x stk IH]; intros last.
  - cbn. destruct (Z.leb_spec (PRIO v) last), (Z.ltb_spec last (PRIO v)); lia || done.
  - cbn [app prio_increasing]. destruct (PRIO x <=? last); [done|]. rewrite IH. f_equal.
    destruct stk as [|y stk]; [done|]. cbn [list.last]. destruct (list.last (y :: stk)) eqn:E; [done|].
    by apply last_None in E.
Qed.

Lemma prio_length last stk : 0 <= last -> prio_increasing last stk = true ->
  Forall (fun v => PRIO v <= 15) stk -> Z.of_nat (length stk) <= Z.max 0 (15 - last).
Proof.
  revert last. induction stk as [|x stk IH]; intros last Hl H F; cbn [length]; [lia|].
  cbn in H. destruct (Z.leb_spec (PRIO x) last); [done|]. apply Forall_cons_1 in F as [Hx F].
  specialize (IH (PRIO x) ltac:(lia) H F). lia.
Qed.

Lemma prio_weaken a b stk : b <= a -> prio_increasing a stk = true -> prio_increasing b stk = true.
Proof.
  destruct stk as [|x stk]; intros Hle H; [done|]. cbn in *.
  destruct (Z.leb_spec (PRIO x) a), (Z.leb_spec (PRIO x) b); done || lia.
Qed.

(** ** Invariant *)

(** The vector the priority is computed from: the last one injected, 0 if
    none. *)
Definition isrvec (l : vlapic) : Z := default 0 (isrvec_stk l !! Z.to_nat (isrvec_stk_top l)).
Definition new_ppr (l : vlapic) : Z := if PRIO (isrvec l) <=? PRIO (tpr l) then tpr l else Z.land (isrvec l) 0xf0.

Record pre_inv (l : vlapic) : Prop := {
  v_irr : wf256 (irr l);
  v_isr : wf256 (isr l);
  v_tmr : wf256 (tmr l);
  v_len : length (isrvec_stk l) = 17%nat;
  v_stk0 : isrvec_stk l !! O = Some 0;
  v_top : 0 <= isrvec_stk_top l <= 16;
  v_injected : injected l = members (isr l);
  v_prio : prio_increasing 0 (members (isr l)) = true;
  v_tpr : tpr l in_u 8;
  v_low : forall u, is_vector u -> u < 16 -> vtst (irr l) u = false;
}.

Definition lapic_inv (l : vlapic) : Prop := pre_inv l /\ ppr l = new_ppr l.

Lemma length_members l : pre_inv l -> Z.of_nat (length (members (isr l))) = isrvec_stk_top l.
Proof. intros []. rewrite <- v_injected0. unfold injected. rewrite length_take, length_drop, v_len0. lia. Qed.

Lemma isrvec_last l : pre_inv l -> isrvec l = default 0 (list.last (members (isr l))).
Proof.
  intros P. pose proof (length_members l P) as Hlen. destruct P. unfold isrvec.
  destruct (decide (isrvec_stk_top l = 0)) as [E|E].
  - rewrite E in *. destruct (members (isr l)); [|cbn in Hlen; lia]. 
    change (Z.to_nat 0) with O. by rewrite v_stk1.
  - rewrite last_lookup. replace (pred (length (members (isr l)))) with (Z.to_nat (isrvec_stk_top l - 1)) by lia.
    rewrite <- v_injected0. unfold injected. rewrite lookup_take_lt, lookup_drop by lia.
    replace (1 + Z.to_nat (isrvec_stk_top l - 1))%nat with (Z.to_nat (isrvec_stk_top l)) by lia. done.
Qed.

Lemma PRIO_range v : is_vector v -> 0 <= PRIO v <= 15.
Proof. unfold is_vector, PRIO. rewrite Z.shiftr_div_pow2 by lia. intros. Z.to_euclidean_division_equations; lia. Qed.

Lemma members_prio r : Forall (fun v => PRIO v <= 15) (members r).
Proof. apply Forall_forall. intros v Hv%members_spec. destruct Hv as [Hv _]. apply PRIO_range in Hv. lia. Qed.

(** At most one vector per priority class is in service. *)
Lemma top_small l : pre_inv l -> isrvec_stk_top l <= 15.
Proof.
  intros P. rewrite <- length_members by done. destruct P.
  pose proof (prio_length 0 _ ltac:(lia) v_prio0 (members_prio _)). lia.
Qed.

Lemma prio_last_max last stk u : prio_increasing last stk = true -> u ∈ stk ->
  PRIO u <= default 0 (PRIO <$> list.last stk).
Proof.
  revert last. induction stk as [|x stk IH]; intros last H Hu; [by apply elem_of_nil in Hu|].
  cbn in H. destruct (Z.leb_spec (PRIO x) last); [done|].
  assert (Hx : PRIO x <= default 0 (PRIO <$> list.last (x :: stk))).
  { clear IH Hu. revert x H H0. induction stk as [|y stk IH]; intros x H H0; [cbn; lia|].
    cbn in H. destruct (Z.leb_spec (PRIO y) (PRIO x)); [done|].
    specialize (IH y H ltac:(lia)). cbn [list.last] in *. lia. }
  apply elem_of_cons in Hu as [->|Hu]; [done|]. specialize (IH _ H Hu).
  destruct stk as [|y stk]; [by apply elem_of_nil in Hu|]. exact IH.
Qed.

Lemma PRIO_mask x : is_vector x -> PRIO (Z.land x 0xf0) = PRIO x.
Proof.
  intros Hx. assert (H : forallb (fun x => PRIO (Z.land x 0xf0) =? PRIO x) (seqZ 0 256) = true) by (vm_compute; reflexivity).
  apply Z.eqb_eq. exact (forall_below (fun x => PRIO (Z.land x 0xf0) =? PRIO x) 256 x H Hx).
Qed.

Lemma isrvec_vector l : pre_inv l -> is_vector (isrvec l).
Proof.
  intros P. rewrite isrvec_last by done. destruct (list.last (members (isr l))) as [v|] eqn:E; cbn; [|done].
  apply last_Some_elem_of in E. by apply members_spec in E as [? _].
Qed.

Lemma PRIO_new_ppr l : pre_inv l -> PRIO (new_ppr l) = Z.max (PRIO (tpr l)) (PRIO (isrvec l)).
Proof.
  intros P. unfold new_ppr. destruct (Z.leb_spec (PRIO (isrvec l)) (PRIO (tpr l))); [lia|].
  rewrite PRIO_mask by (by apply isrvec_vector). lia.
Qed.

(** The priority of the processor is at least that of each interrupt in
    service. *)
Lemma in_service_prio l u : lapic_inv l -> is_vector u -> vtst (isr l) u = true -> PRIO u <= PRIO (ppr l).
Proof.
  intros [P ->] Hu Ht. rewrite PRIO_new_ppr, isrvec_last by done.
  assert (Hin : u ∈ members (isr l)) by (by apply members_spec).
  pose proof (prio_last_max 0 _ u (v_prio _ P) Hin) as Hm.
  destruct (list.last (members (isr l))) as [w|] eqn:E; cbn in *; [lia|].
  apply last_None in E. rewrite E in Hin. by apply elem_of_nil in Hin.
Qed.

Section Proofs.
Context {V : Type} `{!LapicOut V}.
Implicit Types m : lmachine V.

Lemma update_ppr_run m : pre_inv (lapic m) ->
  vlapic_update_ppr m = Return (tt, m <| lapic ::= fun l => l <| ppr := new_ppr l |> |>).
Proof.
  intros P. pose proof P as []. unfold vlapic_update_ppr. erewrite bind_return by reflexivity. cbv zeta.
  fold (isrvec (lapic m)).
  assert (E0 : negb ((isrvec_stk_top (lapic m) =? 0) && negb (isrvec (lapic m) =? 0)) = true).
  { destruct (Z.eqb_spec (isrvec_stk_top (lapic m)) 0) as [E|E]; [|done]. unfold isrvec. rewrite E. change (Z.to_nat 0) with O.
    by rewrite v_stk1. }
  rewrite KASSERT_true by done. rewrite v_injected0.
  rewrite KASSERT_true by (by apply (prio_weaken 0); [lia|]).
  rewrite KASSERT_true by apply isr_in_stack_members. reflexivity.
Qed.

Lemma inv_update_ppr l : pre_inv l -> lapic_inv (l <| ppr := new_ppr l |>).
Proof. intros []. by split; [constructor|]. Qed.

(** *** Acknowledge and end of interrupt *)

(** The device after [v] was accepted, before the priority is updated. *)
Definition pushed (v : Z) (l : vlapic) : vlapic :=
  l <| irr ::= fun r => vclr r v |> <| isr ::= fun r => vset r v |>
    <| isrvec_stk_top ::= fun t => t + 1 |>
    <| isrvec_stk ::= <[Z.to_nat (isrvec_stk_top l + 1) := u8 v]> |>.

(** The device after the highest vector [v] in service was retired. *)
Definition popped (v : Z) (l : vlapic) : vlapic :=
  l <| isr ::= fun r => vclr r v |> <| isrvec_stk_top ::= fun t => t - 1 |>.

Lemma pushed_injected v l : pre_inv l -> v in_u 8 -> injected (pushed v l) = injected l ++ [v].
Proof.
  intros P Hv. pose proof (top_small l P). destruct P. unfold injected, pushed. cbn [isrvec_stk isrvec_stk_top upd].
  rewrite u8_id by done.
  replace (Z.to_nat (isrvec_stk_top l + 1)) with (S (Z.to_nat (isrvec_stk_top l))) by lia.
  destruct (isrvec_stk l) as [|x stk]; [done|]. cbn in v_len0. cbn [drop insert list_insert].
  rewrite !drop_0.
  rewrite (take_S_r _ _ v) by (apply list_lookup_insert_eq; lia).
  f_equal. apply take_insert_ge. lia.
Qed.

Lemma members_pushed v l : lapic_inv l -> is_vector v -> PRIO (ppr l) < PRIO v ->
  members (vset (isr l) v) = members (isr l) ++ [v].
Proof.
  intros I Hv Hp. pose proof I as [P _]. apply members_snoc; [done| |].
  - intros u Hu. apply vtst_vset; [apply P|done..].
  - intros u Hu Ht. apply PRIO_mono. pose proof (in_service_prio l u I Hu Ht). lia.
Qed.

Lemma pushed_inv v l : lapic_inv l -> 16 <= v < 256 -> PRIO (ppr l) < PRIO v -> pre_inv (pushed v l).
Proof.
  intros I Hv Hp. pose proof I as [P Ep]. pose proof (top_small l P) as Ht.
  assert (Hvec : is_vector v) by (unfold is_vector; lia).
  pose proof (members_pushed v l I Hvec Hp) as Em.
  pose proof (pushed_injected v l P ltac:(lia)) as Ei. pose proof P as [].
  constructor; cbn [irr isr tmr isrvec_stk isrvec_stk_top tpr pushed upd]; try done.
  - by apply wf256_vclr.
  - by apply wf256_vset.
  - by rewrite length_insert.
  - by rewrite list_lookup_insert_ne by lia.
  - lia.
  - change (injected (pushed v l) = members (vset (isr l) v)). by rewrite Ei, Em, v_injected0.
  - rewrite Em, prio_snoc, v_prio0. apply Z.ltb_lt.
    rewrite Ep, PRIO_new_ppr, isrvec_last in Hp by done.
    pose proof (PRIO_range (tpr l) ltac:(unfold is_vector; lia)).
    destruct (list.last (members (isr l))) as [w|]; cbn in *; lia.
  - intros u Hu Hlt. rewrite vtst_vclr by done. by rewrite v_low0.
Qed.

Lemma accepted_run v m : lapic_inv (lapic m) -> 16 <= v < 256 -> PRIO (ppr (lapic m)) < PRIO v ->
  vlapic_intr_accepted v m =
    Return (tt, m <| lapic ::= fun l => pushed v l <| ppr := new_ppr (pushed v l) |> |>).
Proof.
  intros I Hv Hp. pose proof (top_small _ (proj1 I)). unfold vlapic_intr_accepted, set_lapic.
  do 3 erewrite bind_return by reflexivity. erewrite bind_return by reflexivity. cbv zeta.
  rewrite KASSERT_true by (apply Z.ltb_lt; cbn; unfold ISRVEC_STK_SIZE; lia).
  erewrite bind_return by reflexivity. unfold upd. cbn [lapic out].
  rewrite update_ppr_run by (exact (pushed_inv v (lapic m) I Hv Hp)). reflexivity.
Qed.

Lemma top_alter r i b : 0 <= i < 8 -> 0 <= b < 32 ->
  alter (fun x => clr x (bit b)) (Z.to_nat i) r = vclr r (i * 32 + b).
Proof.
  intros Hi Hb. unfold vclr.
  replace ((i * 32 + b) / 32) with i by (Z.to_euclidean_division_equations; lia).
  by replace ((i * 32 + b) mod 32) with b by (Z.to_euclidean_division_equations; lia).
Qed.

Lemma popped_inv v l : pre_inv l -> is_top (isr l) v ->
  pre_inv (popped v l) /\ members (isr l) = members (isr (popped v l)) ++ [v] /\ 0 < isrvec_stk_top l.
Proof.
  intros P (Hv & Ht & Hmax).
  assert (Em : members (isr l) = members (vclr (isr l) v) ++ [v]).
  { apply members_snoc; [done| |].
    - intros u Hu. rewrite vtst_vclr by (done || apply P). destruct (Z.eqb_spec u v) as [->|]; [by rewrite Ht|].
      by rewrite andb_true_r, orb_false_r.
    - intros u Hu Hc. rewrite vtst_vclr in Hc by (done || apply P). apply andb_true_iff in Hc as [Hc Hne].
      apply negb_true_iff, Z.eqb_neq in Hne. specialize (Hmax u Hu Hc). lia. }
  pose proof (length_members l P) as Hlen. rewrite Em, length_app in Hlen. cbn in Hlen.
  split; [|split; [done|lia]]. pose proof P as [].
  constructor; cbn [irr isr tmr isrvec_stk isrvec_stk_top tpr popped upd]; try done.
  - by apply wf256_vclr.
  - lia.
  - unfold injected in *. cbn [isrvec_stk isrvec_stk_top upd].
    rewrite Em in v_injected0. apply (f_equal (take (Z.to_nat (isrvec_stk_top l - 1)))) in v_injected0.
    rewrite take_take, take_app_le in v_injected0 by lia.
    rewrite (take_ge (members _)) in v_injected0 by lia.
    rewrite <- v_injected0. cbn [popped isrvec_stk isrvec_stk_top upd]. f_equal. lia.
  - rewrite Em, prio_snoc in v_prio0. by apply andb_true_iff in v_prio0 as [? _].
Qed.

(** [vlapic_process_eoi] retires the highest vector in service. *)
Lemma eoi_run m : lapic_inv (lapic m) ->
  vlapic_process_eoi m =
    match top_bit (isr (lapic m)) words_down with
    | Some (i, b) =>
        let v := i * 32 + b in
        let l := popped v (lapic m) in
        Return (tt, mk_lmachine (l <| ppr := new_ppr l |>)
                      (if vtst (tmr (lapic m)) v then ioapic_process_eoi v (out m) else out m))
    | None => Return (tt, m)
    end.
Proof.
  intros [P _]. unfold vlapic_process_eoi. erewrite bind_return by reflexivity.
  pose proof (top_bit_spec (isr (lapic m)) (v_isr _ P)) as Ht.
  destruct (top_bit _ _) as [[i b]|]; [|done]. destruct Ht as (Hi & Hb & Htop).
  destruct (popped_inv _ _ P Htop) as (Pp & _ & Hpos).
  rewrite KASSERT_true by (by apply Z.ltb_lt). cbv zeta. unfold set_lapic. erewrite bind_return by reflexivity.
  unfold upd. cbn [lapic out]. rewrite top_alter by done.
  set (m1 := mk_lmachine _ _). assert (E1 : lapic m1 = popped (i * 32 + b) (lapic m)) by done.
  rewrite (bind_return _ _ _ _ _ (update_ppr_run m1 ltac:(by rewrite E1))).
  erewrite bind_return by reflexivity.
  assert (Et : vtst (tmr (lapic m)) (i * 32 + b) = tst (word (tmr (lapic m)) i) (bit b)).
  { unfold vtst. replace ((i * 32 + b) / 32) with i by (Z.to_euclidean_division_equations; lia).
    by replace ((i * 32 + b) mod 32) with b by (Z.to_euclidean_division_equations; lia). }
  rewrite Et. change (word (tmr (lapic _)) i) with (word (tmr (lapic m)) i).
  by destruct (tst (word (tmr (lapic m)) i) (bit b)).
Qed.

(** *** Requests and errors *)

(** Changes that leave service and priority alone. *)
Lemma inv_frame l l' : lapic_inv l -> irr l' = irr l -> isr l' = isr l -> wf256 (tmr l') ->
  isrvec_stk l' = isrvec_stk l -> isrvec_stk_top l' = isrvec_stk_top l -> tpr l' = tpr l -> ppr l' = ppr l ->
  lapic_inv l'.
Proof.
  intros [[] Ep] Hi Hs Ht Hk Hkt Htp Hp. split.
  - constructor; unfold injected in *; rewrite ?Hi, ?Hs, ?Hk, ?Hkt, ?Htp; done.
  - rewrite Hp, Ep. unfold new_ppr, isrvec. by rewrite Hk, Hkt, Htp.
Qed.

Lemma inv_irr v l : lapic_inv l -> 16 <= v < 256 -> lapic_inv (l <| irr ::= fun r => vset r v |>).
Proof.
  intros [P Ep] Hv. assert (Hvec : is_vector v) by (unfold is_vector; lia). split; [|exact Ep].
  destruct P. constructor; try done; cbn.
  - by apply wf256_vset.
  - intros u Hu Hlt. rewrite vtst_vset, v_low0 by done. apply Z.eqb_neq. lia.
Qed.

Definition spec (set_error : Z -> cmd (lmachine V) unit) (firing : bool) : Prop :=
  forall mask m, lapic_inv (lapic m) -> esr_firing (lapic m) = firing ->
  wp (set_error mask) (fun _ m' => lapic_inv (lapic m') /\ esr_firing (lapic m') = firing) m.

Lemma wp_set_intr_ready se firing v m : spec se firing -> lapic_inv (lapic m) -> esr_firing (lapic m) = firing ->
  is_vector v ->
  wp (set_intr_ready_with se v) (fun _ m' => lapic_inv (lapic m') /\ esr_firing (lapic m') = firing) m.
Proof.
  intros Hse I Hf [Hv1 Hv2]. unfold set_intr_ready_with, set_lapic. wp_go.
  apply wp_KASSERT; [by apply andb_true_iff; rewrite Z.leb_le, Z.ltb_lt|]. wp_go.
  split_if; [by wp_go|]. destruct (Z.ltb_spec v 16); wp_go.
  - eapply wp_conseq; [by apply Hse|]. intros ? m' H'. by wp_go.
  - split; [apply inv_irr; [done|lia]|done].
Qed.

Lemma wp_fire_lvt se firing lvt m : spec se firing -> lapic_inv (lapic m) -> esr_firing (lapic m) = firing ->
  wp (fire_lvt_with se lvt) (fun _ m' => lapic_inv (lapic m') /\ esr_firing (lapic m') = firing) m.
Proof.
  intros Hse I Hf. unfold fire_lvt_with, emit. cbv zeta.
  repeat match goal with |- wp (if ?b then _ else _) _ _ => destruct b eqn:? end; wp_go; try done.
  - eapply wp_conseq; [by apply Hse|]. intros ? m' H'. by wp_go.
  - eapply wp_conseq; [apply (wp_set_intr_ready se firing); try done|].
    + apply (land_in_u_r 8); [lia|range].
    + intros r m' H'. cbv beta. wp_go. apply wp_when; intros _; by wp_go.
Qed.

Lemma set_error_nested n : spec (set_error_fuel n) true.
Proof.
  intros mask m I Hf. destruct n; cbn [set_error_fuel]; unfold set_lapic; wp_go; cbn [lapic upd esr_firing];
    rewrite Hf; wp_go; (split; [|done]); by eapply inv_frame; [exact I|..]; try done; apply I.
Qed.

Lemma set_error_spec : spec vlapic_set_error false.
Proof.
  intros mask m I Hf. unfold vlapic_set_error. cbn [set_error_fuel]. unfold set_lapic. wp_go.
  cbn [lapic upd esr_firing]. rewrite Hf. wp_go.
  eapply wp_conseq; [apply (wp_fire_lvt _ true); [apply (set_error_nested 0)| |done]|].
  - eapply inv_frame; [exact I|..]; try done. apply I.
  - intros ? m' [I' _]. cbv beta. wp_go. split; [|done]. eapply inv_frame; [exact I'|..]; try done. apply I'.
Qed.

Lemma inv_tpr val m : lapic_inv (lapic m) -> val in_u 8 ->
  wp (vlapic_set_tpr val) (fun _ m' => lapic_inv (lapic m') /\ esr_firing (lapic m') = esr_firing (lapic m)) m.
Proof.
  intros I Hv. unfold vlapic_set_tpr, set_lapic. wp_go. apply wp_when; intros _; [|done]. wp_go.
  unfold wp. assert (P : pre_inv ((lapic m) <| tpr := val |>)) by (destruct I as [[] _]; by constructor).
  rewrite update_ppr_run by exact P. split; [exact (inv_update_ppr _ P)|done].
Qed.

(** *** Every operation *)

Inductive lapic_op : Type :=
| LSetIntr (vector : Z)
| LAccept (vector : Z)
| LEoi
| LTpr (val : Z)
| LCr8 (val : Z)
| LTrigger (idx : Z)
| LTimer
| LCmci
| LEsr
| LTmr (vector : Z) (level : bool).

Definition run_lapic (o : lapic_op) : cmd (lmachine V) unit :=
  match o with
  | LSetIntr v => vlapic_set_intr_ready v ;;; skip
  | LAccept v => vlapic_intr_accepted v
  | LEoi => vlapic_process_eoi
  | LTpr val => vlapic_set_tpr val
  | LCr8 val => vlapic_set_cr8 val
  | LTrigger idx => vlapic_trigger_lvt idx ;;; skip
  | LTimer => vlapic_fire_timer
  | LCmci => vlapic_fire_cmci
  | LEsr => vlapic_esr_write_handler
  | LTmr v level => set_lapic (vlapic_set_tmr v level)
  end%cmd.

(** Arguments in range; a vector is accepted while it is requested and above
    the current priority, which is what [vlapic_pending_intr] reports. *)
Definition lapic_allowed (o : lapic_op) (l : vlapic) : Prop :=
  match o with
  | LSetIntr v | LTmr v _ => is_vector v
  | LAccept v => is_vector v /\ vtst (irr l) v = true /\ PRIO (ppr l) < PRIO v
  | LTpr val => val in_u 8
  | _ => True
  end.

Definition lapic_ok (l : vlapic) : Prop := lapic_inv l /\ esr_firing l = false.

Lemma wp_lapic o m : lapic_ok (lapic m) -> lapic_allowed o (lapic m) ->
  wp (run_lapic o) (fun _ m' => lapic_ok (lapic m')) m.
Proof.
  intros [I F] Ha. pose proof set_error_spec as SE.
  assert (HL : forall lvt, wp (vlapic_fire_lvt lvt ;;; skip)%cmd (fun _ m' => lapic_ok (lapic m')) m).
  { intros lvt. wp_go. eapply wp_conseq; [by apply (wp_fire_lvt _ false)|]. intros ? m' H'. by wp_go. }
  destruct o; cbn [run_lapic lapic_allowed] in *.
  - wp_go. eapply wp_conseq; [by apply (wp_set_intr_ready _ false)|]. intros ? m' H'. by wp_go.
  - destruct Ha as (Hv & Hr & Hp). destruct (Z.lt_ge_cases vector 16) as [Hlt|Hge].
    { rewrite (v_low _ (proj1 I)) in Hr by done. done. }
    unfold wp. rewrite accepted_run by (done || (unfold is_vector in Hv; lia)).
    split; [|exact F]. cbn. apply inv_update_ppr. apply pushed_inv; [done|unfold is_vector in Hv; lia|done].
  - unfold wp. rewrite eoi_run by done. pose proof (top_bit_spec (isr (lapic m)) (v_isr _ (proj1 I))) as Ht.
    destruct (top_bit _ _) as [[i b]|]; [|done]. cbv zeta. split; [|exact F]. cbn [lapic].
    apply inv_update_ppr. apply popped_inv; [apply I|apply Ht].
  - eapply wp_conseq; [by apply inv_tpr|]. intros ? m' [H1 H2]. split; [done|congruence].
  - unfold vlapic_set_cr8, emit. split_if; [by wp_go|].
    eapply wp_conseq; [apply inv_tpr; [done|range]|]. intros ? m' [H1 H2]. split; [done|congruence].
  - unfold vlapic_trigger_lvt, emit. wp_go. split_if.
    { wp_go. repeat split_if; wp_go; done. }
    cbv zeta. repeat match goal with |- wp (if ?b then _ else _) _ _ => destruct b end; wp_go; try done.
    all: eapply wp_conseq; [by apply (wp_fire_lvt _ false)|]; intros ? m' H'; by wp_go.
  - apply wp_bind, wp_gets. apply HL.
  - apply wp_bind, wp_gets. apply HL.
  - unfold vlapic_esr_write_handler, set_lapic. wp_go. split; [|exact F].
    eapply inv_frame; [exact I|..]; try done. apply I.
  - unfold set_lapic. wp_go. split; [|exact F]. eapply inv_frame; [exact I|..]; try done.
    cbn. destruct level; [by apply wf256_vset; [apply I|]|by apply wf256_vclr, I].
Qed.

(** Steps: an operation, or a change of the registers this file does not
    write (the guest's writes to SVR, the local vector table and the base
    register) and of the rest of the machine. *)
Inductive lapic_step : lmachine V -> lmachine V -> Prop :=
| ls_op o m m' : lapic_allowed o (lapic m) -> run_lapic o m = Return (tt, m') -> lapic_step m m'
| ls_env s b lvts w m :
    lapic_step m (mk_lmachine ((lapic m) <| svr := s |> <| msr_apicbase := b |> <| lvt_last := lvts |>) w).

(** The state [vlapic_reset] leaves: [bzero] and the stack of one zero. *)
Definition vlapic_zero : vlapic :=
  mk_vlapic 0 0 0xff 0 (replicate 8 0) (replicate 8 0) (replicate 8 0) 0 false (replicate 17 0) 0 0
    (replicate 7 APIC_LVT_M).

Lemma zero_ok : lapic_ok vlapic_zero.
Proof.
  assert (W : wf256 (replicate 8 0)) by (split; [done|repeat constructor; discriminate]).
  split; [|done]. split; [|reflexivity]. 
  constructor; [exact W..|done|done|cbn; lia|vm_compute; reflexivity|vm_compute; reflexivity|done|].
  intros u Hu _. rewrite vtst_testbit by done. unfold word.
  destruct (_ !! _) as [x|] eqn:E; [|apply Z.testbit_0_l].
  apply lookup_replicate in E as [-> _]. apply Z.testbit_0_l.
Qed.

Lemma lapic_reachable_ok w m : rtc lapic_step (mk_lmachine vlapic_zero w) m -> lapic_ok (lapic m).
Proof.
  intros R. assert (H : lapic_ok (lapic (mk_lmachine vlapic_zero w))) by apply zero_ok.
  revert H. induction R as [|x y z [o m0 m1 Ha E|s b lvts w' m0] _ IH]; intros H; [done|apply IH..].
  - exact (wp_run _ _ _ _ _ (wp_lapic o m0 H Ha) E).
  - destruct H as [I F]. split; [|exact F]. eapply inv_frame; [exact I|..]; try done. apply I.
Qed.

(** whatever interrupts arrive and however the guest programs the task
    priority and ends interrupts, the local APIC never aborts: the stack of
    injected vectors never overflows or empties too early, its priorities
    increase, and it matches the in-service register. *)
Theorem lapic_never_aborts w m o : rtc lapic_step (mk_lmachine vlapic_zero w) m ->
  lapic_allowed o (lapic m) ->
  injected (lapic m) = members (isr (lapic m)) /\ exists m', run_lapic o m = Return (tt, m').
Proof.
  intros R Ha. pose proof (lapic_reachable_ok w m R) as H. split; [apply H|].
  destruct (wp_elim _ _ _ (wp_lapic o m H Ha)) as ([] & m' & E & _). eauto.
Qed.

(** the vector [vlapic_pending_intr] reports is the highest one requested,
    and it is reported exactly when its priority class is above the task
    priority and above every interrupt in service. *)
Theorem pending_intr_spec l v : lapic_inv l ->
  vlapic_pending_intr l = Some v <->
  is_top (irr l) v /\ PRIO (tpr l) < PRIO v /\
  (forall u, is_vector u -> vtst (isr l) u = true -> PRIO u < PRIO v).
Proof.
  intros I. pose proof I as [P Ep]. unfold vlapic_pending_intr.
  pose proof (top_bit_spec (irr l) (v_irr _ P)) as Ht.
  assert (Hmax : PRIO (ppr l) = Z.max (PRIO (tpr l)) (PRIO (isrvec l))) by (rewrite Ep; by apply PRIO_new_ppr).
  destruct (top_bit _ _) as [[i b]|].
  2: { split; [done|]. intros [(Hv & Hr & _) _]. by rewrite Ht in Hr. }
  destruct Ht as (_ & _ & Ht). set (t := i * 32 + b) in *. clearbody t. cbv zeta. split.
  - intros H. destruct (Z.ltb_spec (PRIO (ppr l)) (PRIO t)); [|done]. injection H as <-.
    split; [done|]. split; [lia|]. intros u Hu Hs. pose proof (in_service_prio l u I Hu Hs). lia.
  - intros ((Hv & Hr & Hm) & Htp & Hs).
    assert (v = t) as <-.
    { destruct Ht as (Hv' & Hr' & Hm'). specialize (Hm t Hv' Hr'). specialize (Hm' v Hv Hr). lia. }
    destruct (Z.ltb_spec (PRIO (ppr l)) (PRIO v)) as [|Hge]; [done|]. exfalso.
    rewrite Hmax in Hge. pose proof (PRIO_range (tpr l) (v_tpr _ P)).
    rewrite (isrvec_last l P) in Hge. destruct (list.last (members (isr l))) as [w|] eqn:E; cbn [default from_option] in Hge; [|change (PRIO 0) with 0 in Hge; lia].
    apply last_Some_elem_of, members_spec in E as [Hw Hw']. specialize (Hs w Hw Hw').
    unfold id in Hge; lia.
Qed.

Lemma pending_vector l v : lapic_inv l -> vlapic_pending_intr l = Some v ->
  16 <= v < 256 /\ PRIO (ppr l) < PRIO v.
Proof.
  intros [P _] H. unfold vlapic_pending_intr in H. pose proof (top_bit_spec (irr l) (v_irr _ P)) as Ht.
  destruct (top_bit _ _) as [[i b]|]; [|done]. cbv zeta in H. destruct Ht as (_ & _ & Hv & Hr & _).
  destruct (Z.ltb_spec (PRIO (ppr l)) (PRIO (i * 32 + b))); [|done]. injection H as <-. split; [|done].
  destruct (Z.lt_ge_cases (i * 32 + b) 16); [|unfold is_vector in Hv; lia].
  by rewrite (v_low _ P) in Hr.
Qed.

(** An accepted vector is the highest one in service. *)
Lemma pushed_top v l : lapic_inv l -> 16 <= v < 256 -> PRIO (ppr l) < PRIO v ->
  exists i b, top_bit (isr (pushed v l)) words_down = Some (i, b) /\ i * 32 + b = v /\
    vtst (isr (pushed v l)) v = true.
Proof.
  intros I Hv Hp. assert (Hvec : is_vector v) by (unfold is_vector; lia). pose proof (proj1 I) as P.
  pose proof (pushed_inv v l I Hv Hp) as P1.
  assert (Hs : forall u, is_vector u -> vtst (isr (pushed v l)) u = vtst (isr l) u || (u =? v))
    by (intros u Hu; apply vtst_vset; [apply P|done..]).
  assert (Hs1 : vtst (isr (pushed v l)) v = true) by (rewrite Hs, Z.eqb_refl by done; apply orb_true_r).
  pose proof (top_bit_spec _ (v_isr _ P1)) as Ht. destruct (top_bit _ _) as [[i b]|]; [|by rewrite Ht in Hs1].
  exists i, b. split; [done|]. split; [|done]. destruct Ht as (_ & _ & Hv' & Hs' & Hm').
  specialize (Hm' v Hvec Hs1). rewrite Hs in Hs' by done. apply orb_true_iff in Hs' as [Hs'|Hs'].
  - pose proof (in_service_prio l _ I Hv' Hs'). pose proof (PRIO_mono (i * 32 + b) v ltac:(lia)). lia.
  - by apply Z.eqb_eq in Hs'.
Qed.

(** accepting the pending vector and ending the interrupt restores the
    in-service register, the stack and the processor priority, and tells the
    I/O APIC exactly if the vector is level triggered. *)
Theorem accept_eoi_restores m v : lapic_inv (lapic m) -> vlapic_pending_intr (lapic m) = Some v ->
  exists m1 m2, vlapic_intr_accepted v m = Return (tt, m1) /\ vtst (isr (lapic m1)) v = true /\
    vlapic_process_eoi m1 = Return (tt, m2) /\
    (forall u, is_vector u -> vtst (isr (lapic m2)) u = vtst (isr (lapic m)) u) /\
    isrvec_stk_top (lapic m2) = isrvec_stk_top (lapic m) /\ ppr (lapic m2) = ppr (lapic m) /\
    out m2 = if vtst (tmr (lapic m)) v then ioapic_process_eoi v (out m) else out m.
Proof.
  intros I Hp. pose proof I as [P Ep]. apply pending_vector in Hp as (Hv & Hp); [|done].
  assert (Hvec : is_vector v) by (unfold is_vector; lia).
  destruct (pushed_top v _ I Hv Hp) as (i & b & Et & Eib & Hs1).
  set (l1 := pushed v (lapic m)) in *. set (l2 := popped v (l1 <| ppr := new_ppr l1 |>)).
  pose proof (inv_update_ppr l1 (pushed_inv v _ I Hv Hp)) as I1.
  exists (m <| lapic := l1 <| ppr := new_ppr l1 |> |>), (mk_lmachine (l2 <| ppr := new_ppr l2 |>)
    (if vtst (tmr (lapic m)) v then ioapic_process_eoi v (out m) else out m)).
  split; [by apply accepted_run|]. split; [done|]. split.
  { rewrite eoi_run by exact I1. cbn [lapic upd isr]. change (isr (l1 <| ppr := new_ppr l1 |>)) with (isr l1).
    rewrite Et. cbv zeta. by rewrite Eib. }
  split; [|split; [cbn; lia|split; [|done]]].
  - intros u Hu. cbn. rewrite vtst_vclr, vtst_vset by (done || apply P || apply wf256_vset; done || apply P).
    destruct (Z.eqb_spec u v) as [->|]; [|by rewrite orb_false_r, andb_true_r].
    rewrite andb_false_r. destruct (vtst (isr (lapic m)) v) eqn:E; [|done].
    pose proof (in_service_prio _ v I Hvec E). lia.
  - etrans; [exact (eq_refl (new_ppr l2))|]. rewrite Ep. pose proof (v_top _ P).
    assert (Ei : isrvec l2 = isrvec (lapic m)).
    { unfold isrvec, l2, l1, popped, pushed. cbn [isrvec_stk isrvec_stk_top upd].
      rewrite Z.add_simpl_r. by rewrite list_lookup_insert_ne by lia. }
    unfold new_ppr. by rewrite Ei.
Qed.
End Proofs.

(** ** Examples *)

Module LapicExample.
Definition start : lmachine (list lapic_call) := mk_lmachine vlapic_zero [].
Definition on : lmachine (list lapic_call) :=
  mk_lmachine (vlapic_zero <| svr := 0x1ff |> <| msr_apicbase := 0x800 |> <| lvt_last := replicate 7 APIC_LVT_M |>) [].
Definition run (o : lapic_op) (m : lmachine (list lapic_call)) : lmachine (list lapic_call) :=
  match run_lapic o m with Return (_, m') => m' | _ => m end.
(** Vector 0x41, level triggered, is requested. *)
Definition asked : lmachine (list lapic_call) := run (LSetIntr 0x41) (run (LTmr 0x41 true) on).

Lemma asked_reachable : rtc lapic_step start asked.
Proof.
  apply (rtc_l _ _ on); [exact (ls_env 0x1ff 0x800 _ _ start)|].
  apply (rtc_l _ _ (run (LTmr 0x41 true) on)).
  { apply (ls_op (LTmr 0x41 true)); [unfold lapic_allowed, is_vector; lia|reflexivity]. }
  apply rtc_once. apply (ls_op (LSetIntr 0x41)); [unfold lapic_allowed, is_vector; lia|vm_compute; reflexivity].
Qed.

Lemma asked_inv : lapic_inv (lapic asked).
Proof. apply (lapic_reachable_ok []), asked_reachable. Qed.
End LapicExample.

Import LapicExample.

Lemma lapic_never_aborts_witness :
  injected (lapic asked) = members (isr (lapic asked)) /\
  exists m', run_lapic (LAccept 0x41) asked = Return (tt, m').
Proof.
  apply (lapic_never_aborts [] asked (LAccept 0x41) asked_reachable).
  split; [unfold is_vector; lia|]. vm_compute. done.
Defined.

Lemma pending_intr_spec_witness :
  vlapic_pending_intr (lapic asked) = Some 0x41 <->
  is_top (irr (lapic asked)) 0x41 /\ PRIO (tpr (lapic asked)) < PRIO 0x41 /\
  (forall u, is_vector u -> vtst (isr (lapic asked)) u = true -> PRIO u < PRIO 0x41).
Proof. exact (pending_intr_spec (lapic asked) 0x41 asked_inv). Defined.

Lemma accept_eoi_restores_witness :
  exists m1 m2, vlapic_intr_accepted 0x41 asked = Return (tt, m1) /\ vtst (isr (lapic m1)) 0x41 = true /\
    vlapic_process_eoi m1 = Return (tt, m2) /\
    (forall u, is_vector u -> vtst (isr (lapic m2)) u = vtst (isr (lapic asked)) u) /\
    isrvec_stk_top (lapic m2) = isrvec_stk_top (lapic asked) /\ ppr (lapic m2) = ppr (lapic asked) /\
    out m2 = if vtst (tmr (lapic asked)) 0x41 then ioapic_process_eoi 0x41 (out asked) else out asked.
Proof. apply (accept_eoi_restores asked 0x41 asked_inv). vm_compute. reflexivity. Defined.
