(* ===== verification/Vatpic.v ===== *)
(** * The 8259 programmable interrupt controllers (src/src/vmm/io/vatpic.c)

    [atpic] is one controller, [vatpic] the cascaded master/slave pair with
    its edge/level control registers.  The operations on one controller are
    functions on [atpic]; the operations that can raise an interrupt run on a
    [machine]: the pair next to the rest [V] of the virtual machine.

    [VATPIC_LOCK] makes every entry point atomic, so an execution is a
    sequence of entry points: the step relation [step]. *)

From S2P Require Import Prelude Interface.

(** ** Data *)

Inductive irqstate : Type := IRQSTATE_ASSERT | IRQSTATE_DEASSERT | IRQSTATE_PULSE.

Record atpic : Type := mk_atpic {
  ready : bool;
  icw_num : Z;
  rd_cmd_reg : Z;
  aeoi : bool;
  poll : bool;
  rotate : bool;
  sfn : bool;
  irq_base : Z;
  request : Z;
  service : Z;
  mask : Z;
  smm : Z;
  acnt : list Z;
  lowprio : Z;
  intr_raised : bool;
}.

#[export] Instance eta_atpic : Eta atpic := fun a =>
  mk_atpic (ready a) (icw_num a) (rd_cmd_reg a) (aeoi a) (poll a) (rotate a) (sfn a)
    (irq_base a) (request a) (service a) (mask a) (smm a) (acnt a) (lowprio a)
    (intr_raised a).

(** [struct vatpic]: [atpic[2]] and [elc[2]]; the lock and the back pointer to
    the machine carry no data. *)
Record vatpic : Type := mk_vatpic {
  atpic0 : atpic;
  atpic1 : atpic;
  elc0 : Z;
  elc1 : Z;
}.

#[export] Instance eta_vatpic : Eta vatpic := fun v =>
  mk_vatpic (atpic0 v) (atpic1 v) (elc0 v) (elc1 v).

(** [&vatpic->atpic[i]] as an index: reading and writing through the pointer. *)
Definition get_atpic (i : Z) (v : vatpic) : atpic :=
  if i =? 0 then atpic0 v else atpic1 v.

Definition set_atpic (i : Z) (a : atpic) (v : vatpic) : vatpic :=
  if i =? 0 then v <| atpic0 := a |> else v <| atpic1 := a |>.

Definition get_elc (i : Z) (v : vatpic) : Z := if i =? 0 then elc0 v else elc1 v.

Definition set_elc (i x : Z) (v : vatpic) : vatpic :=
  if i =? 0 then v <| elc0 := x |> else v <| elc1 := x |>.

Definition get_acnt (pin : Z) (a : atpic) : Z := nth (Z.to_nat pin) (acnt a) 0.

Definition ICW1_IC4 : Z := 0x01.
Definition ICW1_SNGL : Z := 0x02.
Definition ICW4_8086 : Z := 0x01.
Definition ICW4_AEOI : Z := 0x02.
Definition ICW4_SFNM : Z := 0x10.
Definition OCW2_EOI : Z := 0x20.
Definition OCW2_SL : Z := 0x40.
Definition OCW2_R : Z := 0x80.
Definition OCW3_RIS : Z := 0x01.
Definition OCW3_RR : Z := 0x02.
Definition OCW3_P : Z := 0x04.
Definition OCW3_SMM : Z := 0x20.
Definition OCW3_ESMM : Z := 0x40.
Definition ICU_IMR_OFFSET : Z := 1.
Definition IO_ELCR1 : Z := 0x4d0.

(** ** Operations on one controller *)

(** The values [pin] takes in [ATPIC_PIN_FOREACH]: [n] iterations from [pin]. *)
Fixpoint pins_from (n : nat) (pin : Z) : list Z :=
  match n with
  | O => []
  | S n' => pin :: pins_from n' (Z.land (pin + 1) 0x7)
  end.

Definition atpic_pin_foreach (a : atpic) : list Z :=
  pins_from 8 (Z.land (lowprio a + 1) 0x7).

Fixpoint isr_scan (a : atpic) (pins : list Z) : Z :=
  match pins with
  | [] => -1
  | pin :: rest =>
      if tst (service a) (bit pin) then
        if negb (smm a =? 0) && tst (mask a) (bit pin) then isr_scan a rest else pin
      else isr_scan a rest
  end.

Definition vatpic_get_highest_isrpin (a : atpic) : Z :=
  isr_scan a (atpic_pin_foreach a).

(** The in-service bits that [vatpic_get_highest_irrpin] honours. *)
Definition irr_serviced (a : atpic) : Z :=
  let serviced := service a in
  let serviced := if sfn a then clr serviced (bit 2) else serviced in
  if negb (smm a =? 0) then 0 else serviced.

Fixpoint irr_scan (a : atpic) (serviced : Z) (pins : list Z) : Z :=
  match pins with
  | [] => -1
  | pin :: rest =>
      if tst serviced (bit pin) then -1
      else if tst (request a) (bit pin) && negb (tst (mask a) (bit pin)) then pin
      else irr_scan a serviced rest
  end.

Definition vatpic_get_highest_irrpin (a : atpic) : Z :=
  irr_scan a (irr_serviced a) (atpic_pin_foreach a).

Definition vatpic_icw1 (a : atpic) (val : Z) : result atpic :=
  let a := a <| ready := false |> <| icw_num := 1 |> <| request := 0 |> <| mask := 0 |>
             <| lowprio := 7 |> <| rd_cmd_reg := 0 |> <| poll := false |> <| smm := 0 |> in
  if tst val ICW1_SNGL then (-1, a)
  else if negb (tst val ICW1_IC4) then (-1, a)
  else (0, a <| icw_num ::= Z.add 1 |>).

Definition vatpic_icw2 (a : atpic) (val : Z) : result atpic :=
  (0, a <| irq_base := Z.land val 0xf8 |> <| icw_num ::= Z.add 1 |>).

Definition vatpic_icw3 (a : atpic) (val : Z) : result atpic :=
  (0, a <| icw_num ::= Z.add 1 |>).

Definition vatpic_icw4 (master : bool) (a : atpic) (val : Z) : result atpic :=
  if negb (tst val ICW4_8086) then (-1, a)
  else
    let a := if tst val ICW4_AEOI then a <| aeoi := true |> else a in
    let a := if tst val ICW4_SFNM then (if master then a <| sfn := true |> else a) else a in
    (0, a <| icw_num := 0 |> <| ready := true |>).

Definition vatpic_ocw1 (a : atpic) (val : Z) : result atpic :=
  (0, a <| mask := Z.land val 0xff |>).

Definition vatpic_ocw2 (a : atpic) (val : Z) : result atpic :=
  let a := a <| rotate := tst val OCW2_R |> in
  if tst val OCW2_EOI then
    let isr_bit := if tst val OCW2_SL then Z.land val 0x7 else vatpic_get_highest_isrpin a in
    if negb (isr_bit =? -1) then
      let a := a <| service ::= fun x => clr x (bit isr_bit) |> in
      (0, if rotate a then a <| lowprio := isr_bit |> else a)
    else (0, a)
  else if tst val OCW2_SL && rotate a then (0, a <| lowprio := Z.land val 0x7 |>)
  else (0, a).

Definition vatpic_ocw3 (a : atpic) (val : Z) : result atpic :=
  let a := if tst val OCW3_ESMM then a <| smm := if tst val OCW3_SMM then 1 else 0 |> else a in
  let a := if tst val OCW3_RR
           then a <| rd_cmd_reg := Z.land val OCW3_RIS |> <| poll := tst val OCW3_P |>
           else a in
  (0, a).

Definition vatpic_pin_accepted (a : atpic) (pin : Z) : atpic :=
  let a := a <| intr_raised := false |> in
  let a := if get_acnt pin a =? 0 then a <| request ::= fun x => clr x (bit pin) |> else a in
  if aeoi a then (if rotate a then a <| lowprio := pin |> else a)
  else a <| service ::= fun x => Z.lor x (bit pin) |>.

(** The part of [vatpic_set_pinstate] before the notification: the assertion
    count of the pin and the request bit. *)
Definition update_pin (v : vatpic) (pin : Z) (newstate : bool) : vatpic :=
  let i := Z.shiftr pin 3 in
  let p := Z.land pin 0x7 in
  let a := get_atpic i v in
  let oldcnt := get_acnt p a in
  let newcnt := if newstate then oldcnt + 1 else oldcnt - 1 in
  let a := a <| acnt ::= <[Z.to_nat p := newcnt]> |> in
  let level := tst (get_elc i v) (bit p) in
  let a :=
    if ((oldcnt =? 0) && (newcnt =? 1)) || ((0 <? newcnt) && level)
    then a <| request ::= fun x => Z.lor x (bit p) |>
    else if (oldcnt =? 1) && (newcnt =? 0)
    then (if level then a <| request ::= fun x => clr x (bit p) |> else a)
    else a in
  set_atpic i a v.

(** ** Operations on the machine *)
Section Machine.
Context {V : Type} `{!IrqFabric V}.

Definition machine : Type := vatpic * V.

(** [vatpic_set_pinstate] and [vatpic_notify_intr] call each other: the
    notification of the slave pulses pin 2 of the master.  [fuel] bounds the
    nesting; [None] is a nesting deeper than [fuel]. *)
Definition set_pinstate_with (notify : machine -> option machine)
    (pin : Z) (newstate : bool) (m : machine) : option machine :=
  notify (update_pin m.1 pin newstate, m.2).

Definition notify_master (m : machine) : machine :=
  let '(v, w) := m in
  let a := atpic0 v in
  if negb (intr_raised a) && negb (vatpic_get_highest_irrpin a =? -1) then
    (v <| atpic0 := a <| intr_raised := true |> |>,
     vioapic_pulse_irq 0 (lapic_set_local_intr (-1) APIC_LVT_LINT0 w))
  else (v, w).

Fixpoint notify_fuel (fuel : nat) (m : machine) : option machine :=
  match fuel with
  | O => None
  | S fuel' =>
      let '(v, w) := m in
      let a := atpic1 v in
      let after_slave :=
        if negb (intr_raised a) && negb (vatpic_get_highest_irrpin a =? -1) then
          let m := (v <| atpic1 := a <| intr_raised := true |> |>, w) in
          m ← set_pinstate_with (notify_fuel fuel') 2 true m;
          set_pinstate_with (notify_fuel fuel') 2 false m
        else Some (v, w) in
      notify_master <$> after_slave
  end.

(** Two levels are enough ([notify_fuel_enough] below). *)
Definition vatpic_notify_intr (m : machine) : machine := default m (notify_fuel 2 m).

Definition vatpic_set_pinstate (pin : Z) (newstate : bool) (m : machine) : machine :=
  vatpic_notify_intr (update_pin m.1 pin newstate, m.2).

Definition vatpic_set_irqstate (irq : Z) (s : irqstate) (m : machine) : result machine :=
  if (irq <? 0) || (15 <? irq) then (EINVAL, m)
  else if negb (ready (get_atpic (Z.shiftr irq 3) m.1)) then (0, m)
  else (0, match s with
           | IRQSTATE_ASSERT => vatpic_set_pinstate irq true m
           | IRQSTATE_DEASSERT => vatpic_set_pinstate irq false m
           | IRQSTATE_PULSE => vatpic_set_pinstate irq false (vatpic_set_pinstate irq true m)
           end).

Definition vatpic_assert_irq (irq : Z) := vatpic_set_irqstate irq IRQSTATE_ASSERT.
Definition vatpic_deassert_irq (irq : Z) := vatpic_set_irqstate irq IRQSTATE_DEASSERT.
Definition vatpic_pulse_irq (irq : Z) := vatpic_set_irqstate irq IRQSTATE_PULSE.

Definition vatpic_set_irq_trigger (irq : Z) (trigger : vm_intr_trigger) (m : machine)
    : result machine :=
  if (irq <? 0) || (15 <? irq) then (EINVAL, m)
  else
    let i := Z.shiftr irq 3 in
    let b := bit (Z.land irq 0x7) in
    let e := get_elc i m.1 in
    match trigger with
    | LEVEL_TRIGGER =>
        if bool_decide (irq ∈ [0; 1; 2; 8; 13]) then (EINVAL, m)
        else (0, (set_elc i (Z.lor e b) m.1, m.2))
    | EDGE_TRIGGER => (0, (set_elc i (clr e b) m.1, m.2))
    end.

Definition vatpic_pending_intr (v : vatpic) : Z :=
  let a := atpic0 v in
  let pin := vatpic_get_highest_irrpin a in
  let '(a, pin) := if pin =? 2 then (atpic1 v, vatpic_get_highest_irrpin (atpic1 v))
                   else (a, pin) in
  let pin := if pin =? -1 then 7 else pin in
  irq_base a + pin.

Definition vatpic_intr_accepted (vector : Z) (m : machine) : machine :=
  let '(v, w) := m in
  let pin := Z.land vector 0x7 in
  let v :=
    if clr vector 0x7 =? irq_base (atpic1 v) then
      let v := v <| atpic1 ::= fun a => vatpic_pin_accepted a pin |> in
      v <| atpic0 ::= fun a => vatpic_pin_accepted a 2 |>
    else v <| atpic0 ::= fun a => vatpic_pin_accepted a pin |> in
  vatpic_notify_intr (v, w).

(** [vatpic_read]: the new state of the controller and the value of [*eax]. *)
Definition vatpic_read (a : atpic) (port : Z) : atpic * Z :=
  if poll a then
    let a := a <| poll := false |> in
    let pin := vatpic_get_highest_irrpin a in
    if 0 <=? pin then (vatpic_pin_accepted a pin, Z.lor 0x80 (u32 pin)) else (a, 0)
  else
    (a, if tst port ICU_IMR_OFFSET then mask a
        else if rd_cmd_reg a =? OCW3_RIS then service a else request a).

(** The dispatch of [vatpic_write] to the command words of controller [i]. *)
Definition write_command (master : bool) (a : atpic) (port val : Z) : result atpic :=
  if tst port ICU_IMR_OFFSET then
    if icw_num a =? 2 then vatpic_icw2 a val
    else if icw_num a =? 3 then vatpic_icw3 a val
    else if icw_num a =? 4 then vatpic_icw4 master a val
    else vatpic_ocw1 a val
  else
    let '(error, a) := if tst val (bit 4) then vatpic_icw1 a val else (0, a) in
    if ready a then
      if tst val (bit 3) then vatpic_ocw3 a val else vatpic_ocw2 a val
    else (error, a).

Definition vatpic_write (i : Z) (port eax : Z) (m : machine) : result machine :=
  let '(v, w) := m in
  let val := u8 eax in
  let '(error, a) := write_command (i =? 0) (get_atpic i v) port val in
  let m := (set_atpic i a v, w) in
  (error, if ready a then vatpic_notify_intr m else m).

(** The port handlers: error code, new machine, and the value of [*eax]. *)
Definition vatpic_handler (i : Z) (inp : bool) (port bytes eax : Z) (m : machine)
    : Z * machine * Z :=
  if negb (bytes =? 1) then (-1, m, eax)
  else if inp then
    let '(a, eax) := vatpic_read (get_atpic i m.1) port in
    (0, (set_atpic i a m.1, m.2), eax)
  else
    let '(error, m) := vatpic_write i port eax m in (error, m, eax).

Definition vatpic_master_handler := vatpic_handler 0.
Definition vatpic_slave_handler := vatpic_handler 1.

Definition vatpic_elc_handler (inp : bool) (port bytes eax : Z) (m : machine)
    : Z * machine * Z :=
  let is_master := port =? IO_ELCR1 in
  if negb (bytes =? 1) then (-1, m, eax)
  else if inp then (0, m, if is_master then elc0 m.1 else elc1 m.1)
  else (0, (if is_master then m.1 <| elc0 := Z.land eax 0xf8 |>
            else m.1 <| elc1 := Z.land eax 0xde |>, m.2), eax).

End Machine.

Arguments machine : clear implicits.

(** [vatpic_init]: the zeroed structure. *)
Definition atpic_zero : atpic :=
  mk_atpic false 0 0 false false false false 0 0 0 0 0 (replicate 8 0) 0 false.

Definition vatpic_init : vatpic := mk_vatpic atpic_zero atpic_zero 0 0.

(** ** Priority resolution

    [prio a pin] is the rank of [pin] under the current rotation: 0 for the
    pin after [lowprio], 7 for [lowprio] itself. *)
Definition prio (a : atpic) (pin : Z) : Z := (pin - lowprio a - 1) mod 8.

(** A request that the mask lets through. *)
Definition pending (a : atpic) (pin : Z) : bool :=
  Z.testbit (request a) pin && negb (Z.testbit (mask a) pin).

Definition is_pin (pin : Z) : Prop := 0 <= pin < 8.

Lemma is_pin_eq q p : is_pin q -> is_pin p -> forall a, prio a q = prio a p -> q = p.
Proof.
  unfold is_pin, prio. intros Hq Hp a H.
  pose proof (Z.div_mod (q - lowprio a - 1) 8 ltac:(lia)).
  pose proof (Z.div_mod (p - lowprio a - 1) 8 ltac:(lia)). lia.
Qed.

Lemma land7_mod x : Z.land x 0x7 = x mod 8.
Proof. change 0x7 with (Z.ones 3). by rewrite Z.land_ones by lia. Qed.

Lemma is_pin_land x : is_pin (Z.land x 0x7).
Proof. rewrite land7_mod. apply Z.mod_pos_bound. lia. Qed.

Lemma pins_from_lookup n pin k q :
  is_pin pin -> pins_from n pin !! k = Some q -> q = (pin + Z.of_nat k) mod 8.
Proof.
  revert pin k. induction n as [|n IH]; intros pin k Hp; [done|].
  destruct k as [|k]; cbn [pins_from lookup list_lookup].
  - intros [= <-]. unfold is_pin in Hp. rewrite Z.add_0_r. by rewrite Z.mod_small.
  - intros H. apply IH in H; [|apply is_pin_land].
    rewrite land7_mod in H. rewrite H, Zplus_mod_idemp_l. f_equal. lia.
Qed.

Lemma pins_from_length n pin : length (pins_from n pin) = n.
Proof. revert pin. induction n; intros; cbn; auto. Qed.

(** The rank of the [k]-th pin visited by the loop is [k]. *)
Lemma foreach_rank a k q :
  atpic_pin_foreach a !! k = Some q -> is_pin q /\ prio a q = Z.of_nat k.
Proof.
  intros H. pose proof (lookup_lt_Some _ _ _ H) as Hk. unfold atpic_pin_foreach in *.
  rewrite pins_from_length in Hk. apply pins_from_lookup in H; [|apply is_pin_land].
  rewrite land7_mod, Zplus_mod_idemp_l in H. subst q. unfold is_pin, prio.
  split; [apply Z.mod_pos_bound; lia|].
  rewrite <- Z.sub_add_distr, Zminus_mod_idemp_l.
  replace (lowprio a + 1 + Z.of_nat k - (lowprio a + 1)) with (Z.of_nat k) by lia.
  apply Z.mod_small. lia.
Qed.

Lemma foreach_split a l1 p l2 :
  atpic_pin_foreach a = l1 ++ p :: l2 ->
  is_pin p /\ forall q, q ∈ l1 <-> is_pin q /\ prio a q < prio a p.
Proof.
  intros H.
  assert (Hp : atpic_pin_foreach a !! length l1 = Some p)
    by (rewrite H; by apply list_lookup_middle).
  destruct (foreach_rank _ _ _ Hp) as [Hpp Hrp]. split; [done|]. intros q. split.
  - intros Hq. apply list_elem_of_lookup in Hq as [k Hk].
    pose proof (lookup_lt_Some _ _ _ Hk).
    destruct (foreach_rank a k q) as [? ->]; [rewrite H; by apply lookup_app_l_Some|].
    split; [done|lia].
  - intros [Hqp Hlt].
    pose proof (Z.mod_pos_bound (q - lowprio a - 1) 8 ltac:(lia)) as Hb. fold (prio a q) in Hb.
    destruct (atpic_pin_foreach a !! Z.to_nat (prio a q)) as [q'|] eqn:E.
    + destruct (foreach_rank _ _ _ E) as [Hq' Hr]. rewrite Z2Nat.id in Hr by lia.
      assert (q' = q) as -> by (by apply (is_pin_eq _ _ Hq' Hqp a)).
      rewrite H in E. rewrite lookup_app_l in E by lia. by apply list_elem_of_lookup_2 in E.
    + apply lookup_ge_None in E. unfold atpic_pin_foreach in E.
      rewrite pins_from_length in E. lia.
Qed.

Lemma foreach_complete a q : is_pin q -> q ∈ atpic_pin_foreach a.
Proof.
  intros Hq. pose proof (Z.mod_pos_bound (q - lowprio a - 1) 8 ltac:(lia)) as Hb.
  fold (prio a q) in Hb.
  destruct (atpic_pin_foreach a !! Z.to_nat (prio a q)) as [q'|] eqn:E.
  - pose proof (list_elem_of_lookup_2 _ _ _ E) as Hin.
    destruct (foreach_rank _ _ _ E) as [Hq' Hr]. rewrite Z2Nat.id in Hr by lia.
    by rewrite (is_pin_eq _ _ Hq Hq' a).
  - apply lookup_ge_None in E. unfold atpic_pin_foreach in E. rewrite pins_from_length in E. lia.
Qed.

Lemma foreach_in a q : q ∈ atpic_pin_foreach a -> is_pin q.
Proof. intros [k Hk]%list_elem_of_lookup. by apply foreach_rank in Hk as [? _]. Qed.

(** What each scan finds in the visiting order. *)
Lemma irr_scan_cases a s pins : Forall is_pin pins ->
  (irr_scan a s pins = -1 /\
     forall l1 q l2, pins = l1 ++ q :: l2 -> pending a q = true ->
       exists r, r ∈ l1 ++ [q] /\ Z.testbit s r = true) \/
  (exists l1 p l2, irr_scan a s pins = p /\ pins = l1 ++ p :: l2 /\
     pending a p = true /\ Z.testbit s p = false /\
     forall q, q ∈ l1 -> Z.testbit s q = false /\ pending a q = false).
Proof.
  induction pins as [|p pins IH]; intros Hf.
  { left. split; [done|]. intros l1 q l2 E. by destruct l1. }
  apply Forall_cons in Hf as [[Hp _] Hf]. specialize (IH Hf). cbn [irr_scan].
  rewrite !tst_bit by lia. fold (pending a p).
  destruct (Z.testbit s p) eqn:Es.
  { left. split; [done|]. intros l1 q l2 E _. exists p. split; [|done].
    destruct l1 as [|x l1]; injection E as -> ->; by left. }
  destruct (pending a p) eqn:Ep.
  { right. exists [], p, pins. split_and!; try done. intros q Hq. by apply not_elem_of_nil in Hq. }
  destruct IH as [[-> H]|(l1 & x & l2 & -> & -> & Hpx & Hsx & H)]; [left|right].
  - split; [done|]. intros l1 q l2 E Hq. destruct l1 as [|y l1]; injection E as -> ->; [congruence|].
    destruct (H l1 q l2 eq_refl Hq) as (r & Hr & ?). exists r. split; [by right|done].
  - exists (p :: l1), x, l2. split_and!; try done. intros q [->|Hq]%elem_of_cons; auto.
Qed.

Lemma foreach_all_pins a : Forall is_pin (atpic_pin_foreach a).
Proof. apply Forall_forall. intros q Hq. by apply (foreach_in a). Qed.

(** [pin] wins the arbitration: it is requested and unmasked, nothing of the
    same or a higher rank is being serviced, and no other pin of a higher rank
    is requested and unmasked. *)
Definition irr_winner (a : atpic) (p : Z) : Prop :=
  is_pin p /\ pending a p = true /\
  forall q, is_pin q -> prio a q <= prio a p ->
    Z.testbit (irr_serviced a) q = false /\ (q <> p -> pending a q = false).

Definition irr_blocked (a : atpic) : Prop :=
  forall q, is_pin q -> pending a q = true ->
    exists r, is_pin r /\ prio a r <= prio a q /\ Z.testbit (irr_serviced a) r = true.

Lemma irrpin_cases a :
  let p := vatpic_get_highest_irrpin a in (p = -1 /\ irr_blocked a) \/ irr_winner a p.
Proof.
  cbv zeta. unfold vatpic_get_highest_irrpin.
  destruct (irr_scan_cases a (irr_serviced a) _ (foreach_all_pins a))
    as [[-> H]|(l1 & p & l2 & -> & E & Hp & Hs & H)]; [left|right].
  - split; [done|]. intros q Hq Hpend.
    destruct (list_elem_of_split _ _ (foreach_complete a q Hq)) as (l1 & l2 & E).
    destruct (H _ _ _ E Hpend) as (r & Hr & ?). exists r.
    apply foreach_split in E as [_ Hl1].
    apply elem_of_app in Hr as [Hr|Hr%list_elem_of_singleton]; [|subst; split_and!; [done|lia|done]].
    apply Hl1 in Hr as [? ?]. split_and!; [done|lia|done].
  - apply foreach_split in E as [Hpin Hl1]. split_and!; [done..|]. intros q Hq Hle.
    destruct (decide (q = p)) as [->|Hne]; [done|].
    destruct (H q) as [? ?]; [|done]. apply Hl1. split; [done|].
    assert (prio a q <> prio a p) by (intros ?; by apply Hne, (is_pin_eq _ _ Hq Hpin a)). lia.
Qed.

Lemma irr_winner_unique a p q : irr_winner a p -> irr_winner a q -> p = q.
Proof.
  intros (Hp & Pp & Wp) (Hq & Pq & Wq). destruct (decide (p = q)) as [|Hne]; [done|exfalso].
  destruct (Z.le_ge_cases (prio a p) (prio a q)) as [Hle|Hge].
  - destruct (Wq p Hp Hle) as [_ W]. rewrite W in Pp; congruence.
  - destruct (Wp q Hq Hge) as [_ W]. rewrite W in Pq; congruence.
Qed.

Lemma irr_winner_not_blocked a p : irr_winner a p -> ~ irr_blocked a.
Proof.
  intros (Hp & Pp & Wp) B. destruct (B p Hp Pp) as (r & Hr & Hle & Hs).
  destruct (Wp r Hr Hle) as [H _]. congruence.
Qed.

(** [vatpic_get_highest_irrpin] resolves priorities correctly: it returns
    [p >= 0] exactly when [p] wins the arbitration under the current rotation,
    mask, in-service bits and special modes, and -1 exactly when every
    unmasked request is blocked by an in-service pin of the same or a higher
    priority. *)
Theorem highest_irrpin_spec (a : atpic) (p : Z) :
  vatpic_get_highest_irrpin a = p <->
  irr_winner a p \/ (p = -1 /\ irr_blocked a).
Proof.
  destruct (irrpin_cases a) as [[E B]|W]; split.
  - intros <-. auto.
  - intros [W|[-> _]]; [|done]. by apply irr_winner_not_blocked in W.
  - intros <-. auto.
  - intros [W'|[_ B]]; [by apply (irr_winner_unique a)|]. by apply irr_winner_not_blocked in W.
Qed.

(** An in-service pin that a non-specific EOI may clear. *)
Definition eoi_candidate (a : atpic) (p : Z) : bool :=
  Z.testbit (service a) p && negb (negb (smm a =? 0) && Z.testbit (mask a) p).

Lemma isr_scan_cases a pins : Forall is_pin pins ->
  (isr_scan a pins = -1 /\ forall q, q ∈ pins -> eoi_candidate a q = false) \/
  (exists l1 p l2, isr_scan a pins = p /\ pins = l1 ++ p :: l2 /\ eoi_candidate a p = true /\
     forall q, q ∈ l1 -> eoi_candidate a q = false).
Proof.
  induction pins as [|p pins IH]; intros Hf.
  { left. split; [done|]. intros q Hq. by apply not_elem_of_nil in Hq. }
  apply Forall_cons in Hf as [[Hp _] Hf]. specialize (IH Hf). cbn [isr_scan].
  rewrite !tst_bit by lia.
  destruct (eoi_candidate a p) eqn:Ep; pose proof Ep as Ec; unfold eoi_candidate in Ec.
  { right. exists [], p, pins.
    destruct (Z.testbit (service a) p); [|done]. cbn in Ec. apply negb_true_iff in Ec as ->.
    split_and!; try done. intros q Hq. by apply not_elem_of_nil in Hq. }
  assert ((if Z.testbit (service a) p then
             if negb (smm a =? 0) && Z.testbit (mask a) p then isr_scan a pins else p
           else isr_scan a pins) = isr_scan a pins) as ->.
  { destruct (Z.testbit (service a) p); [|done]. cbn in Ec. by apply negb_false_iff in Ec as ->. }
  destruct IH as [[-> H]|(l1 & x & l2 & -> & -> & ? & H)]; [left|right].
  - split; [done|]. intros q [->|Hq]%elem_of_cons; auto.
  - exists (p :: l1), x, l2. split_and!; try done. intros q [->|Hq]%elem_of_cons; auto.
Qed.

Lemma isrpin_cases a :
  let p := vatpic_get_highest_isrpin a in
  (p = -1 /\ forall q, is_pin q -> eoi_candidate a q = false) \/
  (is_pin p /\ eoi_candidate a p = true /\
   forall q, is_pin q -> prio a q < prio a p -> eoi_candidate a q = false).
Proof.
  cbv zeta. unfold vatpic_get_highest_isrpin.
  destruct (isr_scan_cases a _ (foreach_all_pins a)) as [[-> H]|(l1 & p & l2 & -> & E & Hp & H)].
  - left. split; [done|]. intros q Hq. by apply H, foreach_complete.
  - right. apply foreach_split in E as [? Hl1]. split_and!; try done.
    intros q Hq Hlt. by apply H, Hl1.
Qed.

(** [vatpic_get_highest_isrpin] returns the in-service pin of highest
    priority, ignoring masked pins in special mask mode, and -1 exactly when
    there is none. *)
Theorem highest_isrpin_spec (a : atpic) :
  let p := vatpic_get_highest_isrpin a in
  (p = -1 /\ forall q, is_pin q -> eoi_candidate a q = false) \/
  (is_pin p /\ eoi_candidate a p = true /\
   forall q, is_pin q -> prio a q < prio a p -> eoi_candidate a q = false).
Proof. exact (isrpin_cases a). Qed.

(** ** The notification

    The nested calls of [vatpic_notify_intr] see a slave that is already
    marked raised, so they only run the master half. *)
Section Notify.
Context {V : Type} `{!IrqFabric V}.
Implicit Types (v : vatpic) (m : machine V).

Definition slave_eligible v : bool :=
  negb (intr_raised (atpic1 v)) && negb (vatpic_get_highest_irrpin (atpic1 v) =? -1).

Definition raise_slave v : vatpic := v <| atpic1 ::= fun a => a <| intr_raised := true |> |>.

Definition pin2 (b : bool) m : machine V := notify_master (update_pin m.1 2 b, m.2).

Lemma update_pin2_slave v b : atpic1 (update_pin v 2 b) = atpic1 v.
Proof. reflexivity. Qed.

Lemma notify_master_slave m : atpic1 (notify_master m).1 = atpic1 m.1.
Proof. destruct m as [v w]. unfold notify_master. by split_if. Qed.

Lemma notify_fuel_raised n m :
  intr_raised (atpic1 m.1) = true -> notify_fuel (S n) m = Some (notify_master m).
Proof. destruct m as [v w]. cbn -[notify_master]. by intros ->. Qed.

Lemma notify_fuel_cascade n m :
  intr_raised (atpic1 m.1) = true ->
  (m' ← set_pinstate_with (notify_fuel (S n)) 2 true m;
   set_pinstate_with (notify_fuel (S n)) 2 false m') = Some (pin2 false (pin2 true m)).
Proof.
  intros H. unfold set_pinstate_with.
  rewrite notify_fuel_raised by done. cbn [mbind option_bind]. fold (pin2 true m).
  apply notify_fuel_raised. cbn [fst]. rewrite update_pin2_slave.
  unfold pin2. by rewrite notify_master_slave.
Qed.

Lemma notify_fuel_S n v w :
  notify_fuel (S n) (v, w) =
  notify_master <$>
    (if slave_eligible v
     then m ← set_pinstate_with (notify_fuel n) 2 true (raise_slave v, w);
          set_pinstate_with (notify_fuel n) 2 false m
     else Some (v, w)).
Proof. reflexivity. Qed.

Lemma notify_fuel_eq n v w :
  notify_fuel (S (S n)) (v, w) =
  Some (notify_master (if slave_eligible v then pin2 false (pin2 true (raise_slave v, w))
                       else (v, w))).
Proof.
  rewrite notify_fuel_S. destruct (slave_eligible v); [|done].
  rewrite (notify_fuel_cascade n (raise_slave v, w)) by done. done.
Qed.

(** The equation of [vatpic_notify_intr] without the fuel. *)
Lemma notify_eq v w :
  vatpic_notify_intr (v, w) =
  notify_master (if slave_eligible v then pin2 false (pin2 true (raise_slave v, w)) else (v, w)).
Proof. unfold vatpic_notify_intr. by rewrite (notify_fuel_eq 0). Qed.

(** the mutual recursion of [vatpic_notify_intr] and [vatpic_set_pinstate]
    terminates: with any nesting bound of at least two levels the
    notification returns, and the result does not depend on the bound. *)
Theorem notify_fuel_enough (n : nat) m : notify_fuel (S (S n)) m = Some (vatpic_notify_intr m).
Proof. destruct m as [v w]. by rewrite notify_fuel_eq, notify_eq. Qed.

(** What the notification may change in a controller: the request bits, the
    pin counters and the raised flag. *)
Definition same_config (a b : atpic) : Prop :=
  b = a <| request := request b |> <| acnt := acnt b |> <| intr_raised := intr_raised b |>.

#[export] Instance same_config_preorder : PreOrder same_config.
Proof.
  split; [by intros []|]. intros [] [] []. unfold same_config. cbn.
  intros H1 H2. injection H1; injection H2; intros; by subst.
Qed.

Lemma notify_master_frame m :
  let m' := notify_master m in
  atpic1 m'.1 = atpic1 m.1 /\ elc0 m'.1 = elc0 m.1 /\ elc1 m'.1 = elc1 m.1 /\
  atpic0 m'.1 = atpic0 m.1 <| intr_raised := intr_raised (atpic0 m'.1) |>.
Proof. destruct m as [[[] a1 e0 e1] w]. cbv zeta. unfold notify_master. by split_if. Qed.

Lemma update_pin2_frame v b :
  let v' := update_pin v 2 b in
  elc0 v' = elc0 v /\ elc1 v' = elc1 v /\ same_config (atpic0 v) (atpic0 v') /\
  acnt (atpic0 v') =
    <[2%nat := (if b then get_acnt 2 (atpic0 v) + 1 else get_acnt 2 (atpic0 v) - 1)]>
      (acnt (atpic0 v)).
Proof.
  destruct v as [[] a1 e0 e1]. cbv zeta. unfold update_pin, same_config.
  change (Z.shiftr 2 3) with 0. change (Z.land 2 0x7) with 2.
  cbn -[get_acnt bit tst clr Z.lor].
  repeat split_if; cbn -[get_acnt bit tst clr Z.lor]; split_and!; reflexivity.
Qed.

Lemma update_pin2_request v b i : 0 <= i -> i <> 2 ->
  Z.testbit (request (atpic0 (update_pin v 2 b))) i = Z.testbit (request (atpic0 v)) i.
Proof.
  intros Hi Hne. unfold update_pin.
  change (Z.shiftr 2 3) with 0. change (Z.land 2 0x7) with 2. cbn -[get_acnt bit tst clr Z.lor].
  repeat split_if; cbn -[get_acnt bit tst clr Z.lor]; try done.
  all: rewrite ?Z.lor_spec, ?clr_testbit, bit_testbit by lia.
  all: replace (2 =? i) with false by (symmetry; apply Z.eqb_neq; lia).
  all: by rewrite ?orb_false_r, ?andb_true_r.
Qed.

Lemma pin2_frame b m :
  let m' := pin2 b m in
  atpic1 m'.1 = atpic1 m.1 /\ elc0 m'.1 = elc0 m.1 /\ elc1 m'.1 = elc1 m.1 /\
  same_config (atpic0 m.1) (atpic0 m'.1) /\
  acnt (atpic0 m'.1) =
    <[2%nat := (if b then get_acnt 2 (atpic0 m.1) + 1 else get_acnt 2 (atpic0 m.1) - 1)]>
      (acnt (atpic0 m.1)) /\
  (forall i, 0 <= i -> i <> 2 ->
    Z.testbit (request (atpic0 m'.1)) i = Z.testbit (request (atpic0 m.1)) i).
Proof.
  cbv zeta. unfold pin2.
  destruct (notify_master_frame (update_pin m.1 2 b, m.2)) as (H1 & H2 & H3 & H4).
  destruct (update_pin2_frame m.1 b) as (E0 & E1 & Hc & Ha). cbn [fst snd] in *.
  rewrite H1, H2, H3, H4, E0, E1. split_and!; try done.
  - etransitivity; [exact Hc|]. by destruct (atpic0 (update_pin m.1 2 b)).
  - intros i Hi Hne. by apply update_pin2_request.
Qed.

(** The whole notification leaves the configuration, the in-service bits, the
    mask and the pin counters alone; only the raised flags and the cascade
    request (bit 2 of the master) may change. *)
Lemma notify_frame v w :
  length (acnt (atpic0 v)) = 8%nat ->
  let v' := (vatpic_notify_intr (v, w)).1 in
  atpic1 v' = atpic1 v <| intr_raised := intr_raised (atpic1 v') |> /\
  elc0 v' = elc0 v /\ elc1 v' = elc1 v /\
  same_config (atpic0 v) (atpic0 v') /\ acnt (atpic0 v') = acnt (atpic0 v) /\
  (forall i, 0 <= i -> i <> 2 ->
    Z.testbit (request (atpic0 v')) i = Z.testbit (request (atpic0 v)) i).
Proof.
  intros Hlen. cbv zeta. rewrite notify_eq.
  destruct (slave_eligible v); cycle 1.
  { destruct (notify_master_frame (v, w)) as (H1 & H2 & H3 & H4). cbn [fst] in *.
    rewrite H1, H2, H3, H4. split_and!; try done; [by destruct (atpic1 v)]. }
  set (m1 := pin2 true (raise_slave v, w)).
  destruct (notify_master_frame (pin2 false m1)) as (H1 & H2 & H3 & H4).
  destruct (pin2_frame true (raise_slave v, w)) as (A1 & A2 & A3 & A4 & A5 & A6). fold m1 in A1,A2,A3,A4,A5,A6.
  destruct (pin2_frame false m1) as (B1 & B2 & B3 & B4 & B5 & B6). cbn [fst] in *.
  rewrite H1, H2, H3, H4, B1, B2, B3, A1, A2, A3. split_and!; try done.
  - etransitivity; [exact A4|]. etransitivity; [exact B4|]. by destruct (atpic0 (pin2 false m1).1).
  - cbn [acnt upd]. rewrite B5. unfold get_acnt. rewrite A5. unfold get_acnt.
    change (acnt (atpic0 (raise_slave v))) with (acnt (atpic0 v)). change (Z.to_nat 2) with 2%nat.
    destruct (acnt (atpic0 v)) as [|c0 [|c1 [|c2 cs]]]; try done. cbn. by replace (c2 + 1 - 1) with c2 by lia.
  - intros i Hi Hne. cbn [request upd]. rewrite B6, A6 by done. done.
Qed.
End Notify.

(** ** Invariant *)

Record wf_atpic (master : bool) (a : atpic) : Prop := {
  wf_request : request a in_u 8;
  wf_service : service a in_u 8;
  wf_mask : mask a in_u 8;
  wf_smm : 0 <= smm a <= 1;
  wf_lowprio : is_pin (lowprio a);
  wf_icw_num : 0 <= icw_num a <= 4;
  wf_rd_cmd : 0 <= rd_cmd_reg a <= 1;
  wf_base : irq_base a in_u 8 /\ Z.land (irq_base a) 0x7 = 0;
  wf_acnt : length (acnt a) = 8%nat;
  wf_ready : ready a = true -> icw_num a = 0;
  wf_sfn : master = false -> sfn a = false;
}.

Record wf_vatpic (v : vatpic) : Prop := {
  wf_atpic0 : wf_atpic true (atpic0 v);
  wf_atpic1 : wf_atpic false (atpic1 v);
  wf_elc0 : elc0 v in_u 8 /\ Z.land (elc0 v) 0x07 = 0;
  wf_elc1 : elc1 v in_u 8 /\ Z.land (elc1 v) 0x21 = 0;
}.

Create HintDb pic.

(** [wf_solve] proves a well-formedness goal whose fields are those of a
    well-formed controller or are written in the goal. *)
Ltac wf_solve :=
  match goal with
  | H : wf_atpic _ ?a |- wf_atpic _ _ => destruct H, a
  end; cbn in *; repeat split_if; cbn in *; constructor; cbn in *;
  try done; try lia; try range; try apply is_pin_land.

Lemma wf_zero b : wf_atpic b atpic_zero.
Proof. constructor; cbn; try done; unfold is_pin; lia. Qed.

Lemma land_base x : Z.land (Z.land x 0xf8) 0x7 = 0.
Proof. rewrite <- Z.land_assoc. apply Z.land_0_r. Qed.

Lemma wf_icw1 b a val : wf_atpic b a -> wf_atpic b (vatpic_icw1 a val).2.
Proof. intros H. unfold vatpic_icw1. repeat split_if; wf_solve; unfold is_pin; lia. Qed.

Lemma wf_icw2 b a val : wf_atpic b a -> icw_num a = 2 -> wf_atpic b (vatpic_icw2 a val).2.
Proof.
  intros H Hn. unfold vatpic_icw2. wf_solve; [split; [range|apply land_base]|].
  intros Hr. specialize (wf_ready0 Hr). lia.
Qed.

Lemma wf_icw3 b a val : wf_atpic b a -> icw_num a = 3 -> wf_atpic b (vatpic_icw3 a val).2.
Proof. intros H Hn. unfold vatpic_icw3. wf_solve. intros Hr. specialize (wf_ready0 Hr). lia. Qed.

Lemma wf_icw4 b a val : wf_atpic b a -> wf_atpic b (vatpic_icw4 b a val).2.
Proof. intros H. unfold vatpic_icw4. destruct b; wf_solve. Qed.

Lemma wf_ocw1 b a val : wf_atpic b a -> wf_atpic b (vatpic_ocw1 a val).2.
Proof. intros H. unfold vatpic_ocw1. wf_solve. Qed.

Lemma isrpin_range a : vatpic_get_highest_isrpin a = -1 \/ is_pin (vatpic_get_highest_isrpin a).
Proof. destruct (isrpin_cases a) as [[-> _]|[? _]]; auto. Qed.

Lemma irrpin_range a : vatpic_get_highest_irrpin a = -1 \/ is_pin (vatpic_get_highest_irrpin a).
Proof. destruct (irrpin_cases a) as [[-> _]|[? _]]; auto. Qed.

Lemma wf_eoi b a p : wf_atpic b a -> p = -1 \/ is_pin p ->
  wf_atpic b (if negb (p =? -1) then
                let a := a <| service ::= fun x => clr x (bit p) |> in
                if rotate a then a <| lowprio := p |> else a
              else a).
Proof.
  intros H Hp. destruct (Z.eqb_spec p (-1)) as [|Hne]; cbn [negb]; [done|].
  destruct Hp as [|Hp]; [done|]. cbv zeta. wf_solve.
Qed.

Lemma wf_ocw2 b a val : wf_atpic b a -> wf_atpic b (vatpic_ocw2 a val).2.
Proof.
  intros H. unfold vatpic_ocw2.
  assert (Hr : wf_atpic b (a <| rotate := tst val OCW2_R |>)) by wf_solve.
  set (a' := a <| rotate := _ |>) in *. cbv zeta.
  destruct (tst val OCW2_EOI).
  - pose proof (wf_eoi b a' (if tst val OCW2_SL then Z.land val 0x7 else vatpic_get_highest_isrpin a')
      Hr ltac:(destruct (tst val OCW2_SL); [right; apply is_pin_land|apply isrpin_range])) as W.
    revert W. cbv zeta. by destruct (negb _).
  - destruct (tst val OCW2_SL && rotate a'); cbn [snd]; [|done]. clearbody a'. wf_solve.
Qed.

Lemma wf_ocw3 b a val : wf_atpic b a -> wf_atpic b (vatpic_ocw3 a val).2.
Proof.
  intros H. unfold vatpic_ocw3.
  assert (0 <= Z.land val OCW3_RIS < 2 ^ 1) by (apply land_in_u_r; done || lia).
  wf_solve.
Qed.

Lemma wf_pin_accepted b a p : is_pin p -> wf_atpic b a -> wf_atpic b (vatpic_pin_accepted a p).
Proof.
  intros Hp H. unfold is_pin in Hp. unfold vatpic_pin_accepted. cbv zeta.
  destruct (get_acnt p _ =? 0); wf_solve.
Qed.

#[export] Hint Resolve wf_icw1 wf_icw2 wf_icw3 wf_icw4 wf_ocw1 wf_ocw2 wf_ocw3 wf_pin_accepted
  wf_zero is_pin_land : pic.

Lemma wf_write_command b a port val : wf_atpic b a -> wf_atpic b (write_command b a port val).2.
Proof.
  intros H. unfold write_command. destruct (tst port ICU_IMR_OFFSET).
  - repeat (split_if; bools; [solve [auto with pic]|]). auto with pic.
  - set (r := if tst val (bit 4) then vatpic_icw1 a val else (0, a)).
    assert (Hr : wf_atpic b r.2) by (unfold r; split_if; auto with pic).
    destruct r as [error a']. cbn [snd] in Hr. repeat split_if; auto with pic.
Qed.

Lemma wf_read b a port : wf_atpic b a -> wf_atpic b (vatpic_read a port).1.
Proof.
  intros H. unfold vatpic_read. destruct (poll a); [|done]. cbv zeta.
  assert (Hp : wf_atpic b (a <| poll := false |>)) by wf_solve.
  destruct (irrpin_range (a <| poll := false |>)) as [->|Hpin]; [done|].
  destruct (0 <=? _); cbn [fst]; auto with pic.
Qed.

(** A pin counter update keeps the controller well formed. *)
Lemma wf_set_request b a r l : wf_atpic b a -> r in_u 8 -> length l = 8%nat ->
  wf_atpic b (a <| acnt := l |> <| request := r |>).
Proof. intros H Hr Hl. wf_solve. Qed.

Lemma update_pin_form v pin newstate :
  wf_vatpic v -> 0 <= pin < 16 ->
  exists r l, r in_u 8 /\ length l = 8%nat /\
    update_pin v pin newstate =
    set_atpic (Z.shiftr pin 3) (get_atpic (Z.shiftr pin 3) v <| acnt := l |> <| request := r |>) v.
Proof.
  intros [H0 H1 _ _] Hpin. unfold update_pin. cbv zeta.
  set (i := Z.shiftr pin 3). set (p := Z.land pin 0x7). set (a := get_atpic i v).
  assert (Hp : is_pin p) by apply is_pin_land. unfold is_pin in Hp.
  assert (Ha : request a in_u 8 /\ length (acnt a) = 8%nat).
  { unfold a, get_atpic. destruct (i =? 0); [destruct H0|destruct H1]; auto. }
  destruct Ha as [Hr Hl]. clearbody a p i. destruct a. cbn in Hr, Hl |- *.
  repeat split_if; eexists _, (<[Z.to_nat p := _]> _); (split; [|split; [|reflexivity]]).
  all: try (by rewrite length_insert). all: range.
Qed.

Lemma wf_set_atpic v i a : wf_vatpic v -> (forall b, b = (i =? 0) -> wf_atpic b a) ->
  wf_vatpic (set_atpic i a v).
Proof.
  intros [? ? ? ?] Ha. unfold set_atpic. specialize (Ha _ eq_refl).
  destruct (i =? 0); constructor; cbn; done.
Qed.

Lemma wf_get_atpic v i b : wf_vatpic v -> b = (i =? 0) -> wf_atpic b (get_atpic i v).
Proof. intros [? ? ? ?] ->. unfold get_atpic. by destruct (i =? 0). Qed.

#[export] Hint Resolve wf_set_atpic wf_get_atpic wf_write_command wf_read : pic.

Lemma wf_update_pin v pin newstate :
  wf_vatpic v -> 0 <= pin < 16 -> wf_vatpic (update_pin v pin newstate).
Proof.
  intros H Hpin. destruct (update_pin_form v pin newstate H Hpin) as (r & l & Hr & Hl & ->).
  apply wf_set_atpic; [done|]. intros b ->. apply wf_set_request; auto with pic.
Qed.

Section Steps.
Context {V : Type} `{!IrqFabric V}.
Implicit Types (v : vatpic) (m : machine V).

Lemma wf_raise b a : wf_atpic b a -> wf_atpic b (a <| intr_raised := true |>).
Proof. intros H. wf_solve. Qed.

Lemma wf_notify_master m : wf_vatpic m.1 -> wf_vatpic (notify_master m).1.
Proof.
  destruct m as [v w]. intros [H0 H1 ? ?]. unfold notify_master. split_if; [|done].
  constructor; cbn; try done. by apply wf_raise.
Qed.

Lemma wf_pin2 b m : wf_vatpic m.1 -> wf_vatpic (pin2 b m).1.
Proof. intros H. apply wf_notify_master. cbn [fst]. apply wf_update_pin; [done|lia]. Qed.

Lemma wf_notify m : wf_vatpic m.1 -> wf_vatpic (vatpic_notify_intr m).1.
Proof.
  destruct m as [v w]. intros H. rewrite notify_eq. apply wf_notify_master.
  destruct (slave_eligible v); [|done]. do 2 apply wf_pin2. cbn [fst].
  destruct H. constructor; cbn; try done. by apply wf_raise.
Qed.

#[local] Hint Resolve wf_notify : pic.

Lemma wf_set_pinstate pin b m :
  0 <= pin < 16 -> wf_vatpic m.1 -> wf_vatpic (vatpic_set_pinstate pin b m).1.
Proof. intros. apply wf_notify. cbn [fst]. by apply wf_update_pin. Qed.

Lemma wf_set_irqstate irq s m :
  wf_vatpic m.1 -> wf_vatpic (vatpic_set_irqstate irq s m).2.1.
Proof.
  intros H. unfold vatpic_set_irqstate. destruct ((irq <? 0) || (15 <? irq)) eqn:E; [done|]. bools.
  split_if; [done|]. cbn [snd]. destruct s; repeat apply wf_set_pinstate; done || lia.
Qed.

(** The level-triggered set of a controller avoids the pins that must be edge
    triggered. *)
Lemma elc_clear e b k : e in_u 8 -> Z.land e k = 0 ->
  clr e b in_u 8 /\ Z.land (clr e b) k = 0.
Proof.
  intros He Hk. split; [range|]. unfold clr.
  rewrite <- Z.land_assoc, (Z.land_comm (Z.lnot b)), Z.land_assoc, Hk. apply Z.land_0_l.
Qed.

Lemma elc_set e n k : is_pin n -> e in_u 8 -> Z.land e k = 0 -> Z.testbit k n = false ->
  Z.lor e (bit n) in_u 8 /\ Z.land (Z.lor e (bit n)) k = 0.
Proof.
  intros [Hn ?] He Hk Hb. split; [range|].
  rewrite Z.land_lor_distr_l, Hk, Z.lor_0_l, Z.land_comm, land_bit by done. by rewrite Hb.
Qed.

Lemma wf_set_irq_trigger irq t m :
  wf_vatpic m.1 -> wf_vatpic (vatpic_set_irq_trigger irq t m).2.1.
Proof.
  intros H. unfold vatpic_set_irq_trigger.
  destruct ((irq <? 0) || (15 <? irq)) eqn:E; [done|]. bools. cbv zeta.
  destruct H as [? ? [? ?] [? ?]], t; [|case_bool_decide as Hin; [by constructor|]];
    cbn [snd fst]; unfold get_elc, set_elc.
  - destruct (Z.shiftr irq 3 =? 0); constructor; cbn; try done; by apply elc_clear.
  - assert (Hcase : irq = 3 \/ irq = 4 \/ irq = 5 \/ irq = 6 \/ irq = 7 \/ irq = 9 \/ irq = 10 \/
      irq = 11 \/ irq = 12 \/ irq = 14 \/ irq = 15).
    { rewrite !elem_of_cons in Hin. lia. }
    repeat destruct Hcase as [->|Hcase]; [..|subst irq];
      constructor; cbn -[bit Z.lor]; try done; by apply elc_set.
Qed.

Lemma wf_intr_accepted vector m :
  wf_vatpic m.1 -> wf_vatpic (vatpic_intr_accepted vector m).1.
Proof.
  destruct m as [v w]. intros [H0 H1 ? ?]. unfold vatpic_intr_accepted. apply wf_notify. cbn [fst].
  pose proof (is_pin_land vector). assert (is_pin 2) by (unfold is_pin; lia).
  split_if; constructor; cbn; auto with pic.
Qed.

Lemma wf_write i port eax m : wf_vatpic m.1 -> wf_vatpic (vatpic_write i port eax m).2.1.
Proof.
  destruct m as [v w]. intros H. unfold vatpic_write. cbn [fst] in *.
  pose proof (wf_write_command (i =? 0) (get_atpic i v) port (u8 eax) (wf_get_atpic _ _ _ H eq_refl)) as W.
  destruct (write_command _ _ _ _) as [error a]. cbn [snd] in *.
  assert (wf_vatpic (set_atpic i a v)) by (apply wf_set_atpic; [done|]; by intros ? ->).
  destruct (ready a); [apply wf_notify|]; done.
Qed.

Lemma wf_handler i inp port bytes eax m :
  wf_vatpic m.1 -> wf_vatpic (vatpic_handler i inp port bytes eax m).1.2.1.
Proof.
  intros H. unfold vatpic_handler. destruct (negb _); [done|]. destruct inp.
  - pose proof (wf_read (i =? 0) (get_atpic i m.1) port (wf_get_atpic _ _ _ H eq_refl)) as W.
    destruct (vatpic_read _ _) as [a x]. cbn [fst snd] in *.
    apply wf_set_atpic; [done|]. by intros ? ->.
  - pose proof (wf_write i port eax m H) as W. by destruct (vatpic_write i port eax m).
Qed.

Lemma wf_elc_handler inp port bytes eax m :
  wf_vatpic m.1 -> wf_vatpic (vatpic_elc_handler inp port bytes eax m).1.2.1.
Proof.
  intros H. unfold vatpic_elc_handler. destruct (negb _); [done|]. destruct inp; [done|].
  destruct H. split_if; constructor; cbn; try done; (split; [range|]).
  all: rewrite <- Z.land_assoc; apply Z.land_0_r.
Qed.

(** The entry points of the component, any of which may come next.  Only the
    port handlers of the two controllers take an index, 0 or 1. *)
Inductive entry : Type :=
| EIrqstate (irq : Z) (s : irqstate)
| ETrigger (irq : Z) (t : vm_intr_trigger)
| EAccepted (vector : Z)
| EMaster (inp : bool) (port bytes eax : Z)
| ESlave (inp : bool) (port bytes eax : Z)
| EElc (inp : bool) (port bytes eax : Z).

Definition run_entry (e : entry) m : machine V :=
  match e with
  | EIrqstate irq s => (vatpic_set_irqstate irq s m).2
  | ETrigger irq t => (vatpic_set_irq_trigger irq t m).2
  | EAccepted vector => vatpic_intr_accepted vector m
  | EMaster inp port bytes eax => (vatpic_master_handler inp port bytes eax m).1.2
  | ESlave inp port bytes eax => (vatpic_slave_handler inp port bytes eax m).1.2
  | EElc inp port bytes eax => (vatpic_elc_handler inp port bytes eax m).1.2
  end.

(** An entry point, or the rest of the machine moving on. *)
Inductive step : machine V -> machine V -> Prop :=
| step_entry e m : step m (run_entry e m)
| step_environment v w w' : step (v, w) (v, w').

Lemma wf_run e m : wf_vatpic m.1 -> wf_vatpic (run_entry e m).1.
Proof.
  destruct e; intros Hwf; cbn [run_entry]; unfold vatpic_master_handler, vatpic_slave_handler;
    auto using wf_set_irqstate, wf_set_irq_trigger, wf_intr_accepted, wf_handler, wf_elc_handler.
Qed.

Lemma wf_step m m' : step m m' -> wf_vatpic m.1 -> wf_vatpic m'.1.
Proof. destruct 1; [apply wf_run|done]. Qed.

Lemma wf_init : wf_vatpic vatpic_init.
Proof. constructor; cbn; auto with pic; split; done || range. Qed.

Lemma wf_steps m m' : rtc step m m' -> wf_vatpic m.1 -> wf_vatpic m'.1.
Proof. induction 1; eauto using wf_step. Qed.

(** from [vatpic_init], whatever entry points are called with whatever
    arguments, the registers stay in their ranges, the initialisation state
    machine stays in step with [ready], the vector bases stay multiples of 8,
    and no pin of the legacy timer, keyboard, cascade, RTC or FPU interrupts
    is ever level triggered. *)
Theorem reachable_wf (w : V) m : rtc step (vatpic_init, w) m -> wf_vatpic m.1.
Proof. intros H. apply (wf_steps _ _ H), wf_init. Qed.
End Steps.

(** An execution: programming the master and pulsing IRQ 4. *)
Lemma reachable_wf_witness :
  exists m : machine (list irq_call),
    rtc step (vatpic_init, []) m /\ request (atpic0 m.1) = 16 /\
    wf_vatpic m.1.
Proof.
  set (m0 := (vatpic_init, []) : machine (list irq_call)).
  set (m1 := run_entry (EMaster false 0x20 1 0x11) m0).
  set (m2 := run_entry (EMaster false 0x21 1 0x20) m1).
  set (m3 := run_entry (EMaster false 0x21 1 0x04) m2).
  set (m4 := run_entry (EMaster false 0x21 1 0x01) m3).
  set (m5 := run_entry (EIrqstate 4 IRQSTATE_PULSE) m4).
  assert (R : rtc step m0 m5) by (do 5 (eapply rtc_l; [apply step_entry|]); apply rtc_refl).
  exists m5. split; [exact R|]. split; [vm_compute; reflexivity|].
  exact (reachable_wf [] m5 R).
Defined.

(** ** No lost notification *)
Section Liveness.
Context {V : Type} `{!IrqFabric V}.
Implicit Types (v : vatpic) (m : machine V).

Definition eligible (a : atpic) : bool := negb (vatpic_get_highest_irrpin a =? -1).

(** An initialised controller with a deliverable request has raised its output. *)
Definition notified_pic (a : atpic) : Prop :=
  ready a = true -> eligible a = true -> intr_raised a = true.

Definition notified v : Prop := notified_pic (atpic0 v) /\ notified_pic (atpic1 v).

Lemma eligible_raise a : eligible (a <| intr_raised := true |>) = eligible a.
Proof. reflexivity. Qed.

Lemma notify_master_raised m :
  eligible (atpic0 (notify_master m).1) = true -> intr_raised (atpic0 (notify_master m).1) = true.
Proof.
  destruct m as [v w]. unfold notify_master. fold (eligible (atpic0 v)).
  destruct (intr_raised (atpic0 v)) eqn:E, (eligible (atpic0 v)) eqn:E2; cbn; intros; congruence.
Qed.

Lemma notify_slave_raised v w :
  eligible (atpic1 (vatpic_notify_intr (v, w)).1) = true ->
  intr_raised (atpic1 (vatpic_notify_intr (v, w)).1) = true.
Proof.
  rewrite notify_eq, notify_master_slave. destruct (slave_eligible v) eqn:E.
  - destruct (pin2_frame false (pin2 true (raise_slave v, w))) as [-> _].
    destruct (pin2_frame true (raise_slave v, w)) as [-> _]. done.
  - unfold slave_eligible in E. fold (eligible (atpic1 v)) in E. cbn [fst].
    destruct (intr_raised (atpic1 v)), (eligible (atpic1 v)); done.
Qed.

Lemma notify_notified m : notified (vatpic_notify_intr m).1.
Proof.
  destruct m as [v w]. split; intros _.
  - rewrite notify_eq. apply notify_master_raised.
  - apply notify_slave_raised.
Qed.

Lemma no_request_not_eligible a : request a = 0 -> eligible a = false.
Proof.
  intros H. destruct (irrpin_cases a) as [[E _]|(? & Hp & _)]; [unfold eligible; by rewrite E|].
  unfold pending in Hp. by rewrite H, Z.testbit_0_l in Hp.
Qed.

(** In fully nested mode the pin just put in service blocks every request of
    its rank or lower, and the arbitration saw none of a higher rank. *)
Lemma accepted_not_eligible a :
  aeoi a = false -> smm a = 0 -> sfn a = false ->
  irr_winner a (vatpic_get_highest_irrpin a) ->
  eligible (vatpic_pin_accepted a (vatpic_get_highest_irrpin a)) = false.
Proof.
  set (p := vatpic_get_highest_irrpin a). clearbody p.
  intros Ha Hs Hf (Hp & Hpend & Hw). pose proof Hp as [Hp0 _].
  set (a' := vatpic_pin_accepted a p).
  assert (Hserv : irr_serviced a' = Z.lor (service a) (bit p)).
  { unfold a', vatpic_pin_accepted, irr_serviced. destruct (get_acnt p _ =? 0); cbn.
    all: rewrite Ha; cbn; by rewrite Hf, Hs. }
  assert (Hprio : forall q, prio a' q = prio a q).
  { intros q. unfold a', vatpic_pin_accepted, prio. destruct (get_acnt p _ =? 0); cbn; by rewrite Ha. }
  assert (Hpd : forall q, is_pin q -> pending a' q = true -> pending a q = true).
  { intros q [Hq _]. unfold a', vatpic_pin_accepted, pending.
    destruct (get_acnt p _ =? 0); cbn; rewrite Ha; cbn; [|done].
    rewrite clr_testbit by done.
    by destruct (Z.testbit (request a) q), (Z.testbit (mask a) q), (Z.testbit (bit p) q). }
  destruct (irrpin_cases a') as [[E _]|W]; [unfold eligible; by rewrite E|exfalso].
  apply irr_winner_not_blocked in W. apply W. intros q Hq Hqp. exists p.
  split_and!; [done| |].
  - rewrite !Hprio. destruct (Z.le_gt_cases (prio a p) (prio a q)) as [|Hlt]; [done|].
    destruct (Hw q Hq ltac:(lia)) as [_ Hn]. apply Hpd in Hqp; [|done].
    destruct (decide (q = p)) as [->|Hne]; [lia|]. by rewrite Hn in Hqp.
  - rewrite Hserv, Z.lor_spec, bit_testbit, Z.eqb_refl by done. apply orb_true_r.
Qed.

(** The entry points other than a polled read on a controller that is not in
    plain fully nested mode. *)
Definition poll_safe (a : atpic) : Prop :=
  poll a = false \/ (aeoi a = false /\ smm a = 0 /\ sfn a = false).

Lemma read_notified a port : poll_safe a -> notified_pic a -> notified_pic (vatpic_read a port).1.
Proof.
  intros Hs Hn. unfold vatpic_read. destruct (poll a) eqn:Epoll; [|done].
  destruct Hs as [|(Ha & Hsmm & Hsfn)]; [congruence|]. cbv zeta.
  set (a' := a <| poll := false |>).
  destruct (irrpin_cases a') as [[E _]|W].
  - rewrite E. change (0 <=? -1) with false. cbn [fst]. intros _. unfold eligible. by rewrite E.
  - pose proof W as [[Hp _] _]. apply Z.leb_le in Hp. rewrite Hp. cbn [fst].
    intros _. by rewrite accepted_not_eligible.
Qed.


Lemma set_get_notified i a v : notified v -> notified_pic a -> notified (set_atpic i a v).
Proof. intros [? ?] ?. unfold set_atpic. by destruct (i =? 0). Qed.

Lemma get_notified i v : notified v -> notified_pic (get_atpic i v).
Proof. intros [? ?]. unfold get_atpic. by destruct (i =? 0). Qed.

Lemma write_notified i port eax m : notified m.1 -> notified (vatpic_write i port eax m).2.1.
Proof.
  destruct m as [v w]. intros Hn. unfold vatpic_write.
  destruct (write_command _ _ _ _) as [error a]. cbn [snd]. destruct (ready a) eqn:Er.
  - apply notify_notified.
  - apply set_get_notified; [done|]. intros ?. congruence.
Qed.

Lemma handler_notified i inp port bytes eax m :
  poll_safe (get_atpic i m.1) -> notified m.1 ->
  notified (vatpic_handler i inp port bytes eax m).1.2.1.
Proof.
  intros Hs Hn. unfold vatpic_handler. destruct (negb _); [done|]. destruct inp.
  - pose proof (read_notified _ port Hs (get_notified i _ Hn)) as Hr.
    destruct (vatpic_read _ _) as [a x]. cbn [fst snd] in *. by apply set_get_notified.
  - pose proof (write_notified i port eax m Hn) as Hw. by destruct (vatpic_write _ _ _ _).
Qed.

Lemma run_notified e m : poll_safe (atpic0 m.1) -> poll_safe (atpic1 m.1) -> notified m.1 -> notified (run_entry e m).1.
Proof.
  intros P0 P1 Hn. destruct e; cbn [run_entry].
  - unfold vatpic_set_irqstate. repeat split_if; try done. destruct s; apply notify_notified.
  - unfold vatpic_set_irq_trigger, set_elc. destruct t; by repeat split_if.
  - destruct m as [v w]. apply notify_notified.
  - by apply (handler_notified 0).
  - by apply (handler_notified 1).
  - unfold vatpic_elc_handler. repeat split_if; done.
Qed.

(** *** What is sent to the processors

    [signal] is the pair of calls at the end of [vatpic_notify_intr].  With the
    master's output at [r], the operation has sent it exactly when the output
    is up now and was not before. *)
Definition signal (w : V) : V := vioapic_pulse_irq 0 (lapic_set_local_intr (-1) APIC_LVT_LINT0 w).

Definition raised v : bool := intr_raised (atpic0 v).

Definition signalled (r : bool) (w : V) m : Prop :=
  m.2 = (if negb r && raised m.1 then signal w else w) /\ (r = true -> raised m.1 = true).

Lemma signalled_refl v w : signalled (raised v) w (v, w).
Proof. unfold signalled. cbn. by destruct (raised v). Qed.

Lemma signalled_trans r w m m' : signalled r w m -> signalled (raised m.1) m.2 m' -> signalled r w m'.
Proof.
  unfold signalled. intros [E1 H1] [E2 H2]. rewrite E2, E1.
  destruct r, (raised m.1) eqn:?, (raised m'.1) eqn:?; cbn in *; naive_solver.
Qed.

Lemma update_pin_raised v pin b : raised (update_pin v pin b) = raised v.
Proof. unfold update_pin, raised, set_atpic, get_atpic. by repeat split_if. Qed.

Lemma master_signalled m : signalled (raised m.1) m.2 (notify_master m).
Proof.
  destruct m as [v w]. unfold notify_master, signalled, raised. cbn [fst snd].
  destruct (intr_raised (atpic0 v)) eqn:E; cbn; [by rewrite E|]. split_if; cbn; by rewrite ?E.
Qed.

Lemma pin2_signalled b m : signalled (raised m.1) m.2 (pin2 b m).
Proof.
  pose proof (master_signalled (update_pin m.1 2 b, m.2)) as H. cbn [fst snd] in H. by rewrite update_pin_raised in H.
Qed.

Lemma notify_signalled v w : signalled (raised v) w (vatpic_notify_intr (v, w)).
Proof.
  rewrite notify_eq. destruct (slave_eligible v); [|apply (master_signalled (v, w))].
  eapply signalled_trans; [|apply master_signalled]. eapply signalled_trans; [|apply pin2_signalled].
  apply (pin2_signalled true (raise_slave v, w)).
Qed.

Lemma set_pinstate_signalled pin b m : signalled (raised m.1) m.2 (vatpic_set_pinstate pin b m).
Proof.
  pose proof (notify_signalled (update_pin m.1 pin b) m.2) as H. by rewrite update_pin_raised in H.
Qed.

(** The output of the master an entry point starts from: an acknowledged
    interrupt has taken it down. *)
Definition was_raised (e : entry) v : bool := match e with EAccepted _ => false | _ => raised v end.

Lemma command_raised b a port val : intr_raised (write_command b a port val).2 = intr_raised a.
Proof.
  unfold write_command, vatpic_icw1, vatpic_icw2, vatpic_icw3, vatpic_icw4, vatpic_ocw1, vatpic_ocw2, vatpic_ocw3.
  cbv zeta. repeat (split_if; try done).
Qed.

Lemma read_lowers a port : intr_raised (vatpic_read a port).1 = true -> intr_raised a = true.
Proof.
  unfold vatpic_read, vatpic_pin_accepted. cbv zeta. repeat (split_if; try done).
Qed.

Lemma set_atpic_raised i a v : raised (set_atpic i a v) = if i =? 0 then intr_raised a else raised v.
Proof. unfold set_atpic, raised. by destruct (i =? 0). Qed.
End Liveness.

(** ** The life of an interrupt *)

Lemma lor_clr_bit x n : 0 <= n -> Z.testbit x n = false -> clr (Z.lor x (bit n)) (bit n) = x.
Proof.
  intros Hn Hx. apply Z.bits_inj'. intros i Hi.
  rewrite clr_testbit, Z.lor_spec, bit_testbit by done.
  destruct (Z.eqb_spec n i) as [->|]; [by rewrite Hx|]. by rewrite orb_false_r, andb_true_r.
Qed.

(** In fully nested mode the pin just accepted is the one a non-specific EOI
    finds. *)
Lemma isrpin_accepted a p r :
  aeoi a = false -> sfn a = false -> smm a = 0 -> irr_winner a p ->
  vatpic_get_highest_isrpin (vatpic_pin_accepted a p <| rotate := r |>) = p.
Proof.
  intros Ha Hf Hs (Hp & Hpend & Hw). pose proof Hp as [Hp0 _].
  set (a' := vatpic_pin_accepted a p <| rotate := r |>).
  assert (Hserv : service a' = Z.lor (service a) (bit p) /\ smm a' = 0 /\
                  forall q, prio a' q = prio a q).
  { unfold a', vatpic_pin_accepted, prio. destruct (get_acnt p _ =? 0); cbn; by rewrite Ha. }
  destruct Hserv as (Hserv & Hsmm & Hprio).
  assert (Hc : forall q, is_pin q -> eoi_candidate a' q = Z.testbit (service a) q || (p =? q)).
  { intros q [Hq _]. unfold eoi_candidate. rewrite Hsmm, Hserv, Z.lor_spec, bit_testbit by done.
    by rewrite andb_true_r. }
  assert (Hsq : forall q, is_pin q -> prio a q <= prio a p -> Z.testbit (service a) q = false).
  { intros q Hq Hle. destruct (Hw q Hq Hle) as [H _]. unfold irr_serviced in H. by rewrite Hf, Hs in H. }
  destruct (isrpin_cases a') as [[_ Hn]|(Hq & Hcq & Hn)].
  { specialize (Hn p Hp). by rewrite Hc, Z.eqb_refl, orb_true_r in Hn. }
  set (q := vatpic_get_highest_isrpin a') in *. clearbody q. rewrite Hc in Hcq by done.
  destruct (Z.eqb_spec p q) as [|Hne]; [done|]. rewrite orb_false_r in Hcq.
  destruct (Z.le_gt_cases (prio a q) (prio a p)) as [Hle|Hgt]; [by rewrite Hsq in Hcq|].
  specialize (Hn p Hp). rewrite !Hprio, Hc, Z.eqb_refl, orb_true_r in Hn by done.
  by specialize (Hn ltac:(lia)).
Qed.

(** acknowledge and end of interrupt cancel out.  In fully nested mode,
    accepting the pin that won the arbitration and then writing a non-specific
    EOI (OCW2 0x20) restores the in-service register and the priorities; the
    request bit survives exactly when the line is still asserted. *)
Theorem accept_eoi_roundtrip (a : atpic) :
  let p := vatpic_get_highest_irrpin a in
  let a' := (vatpic_ocw2 (vatpic_pin_accepted a p) 0x20).2 in
  aeoi a = false -> sfn a = false -> smm a = 0 -> p <> -1 ->
  service a' = service a /\ lowprio a' = lowprio a /\ intr_raised a' = false /\
  Z.testbit (request a') p = negb (get_acnt p a =? 0).
Proof.
  intros p a' Ha Hf Hs Hp.
  assert (W : irr_winner a p) by (destruct (irrpin_cases a) as [[? _]|]; [contradiction|done]).
  pose proof W as ([Hp0 _] & Hpend & Hw). unfold a', vatpic_ocw2.
  change (tst 0x20 OCW2_R) with false. change (tst 0x20 OCW2_EOI) with true.
  change (tst 0x20 OCW2_SL) with false. cbv beta iota zeta.
  rewrite isrpin_accepted by done. clear a'. clearbody p.
  replace (p =? -1) with false by (symmetry; apply Z.eqb_neq; lia). cbn [negb snd].
  assert (Hsp : Z.testbit (service a) p = false).
  { destruct (Hw p (proj1 W) ltac:(lia)) as [H _]. unfold irr_serviced in H. by rewrite Hf, Hs in H. }
  assert (Hreq : Z.testbit (request a) p = true).
  { unfold pending in Hpend. by bools. }
  unfold vatpic_pin_accepted. change (get_acnt p (a <| intr_raised := false |>)) with (get_acnt p a).
  destruct (get_acnt p a =? 0) eqn:Ec; cbn; rewrite Ha; cbn; rewrite lor_clr_bit by done;
    split_and!; try done.
  by rewrite clr_testbit, bit_testbit, Z.eqb_refl, andb_false_r by done.
Qed.

(** A master in fully nested mode with IRQ 1 in service rank 1 and IRQ 0 requested. *)
Definition nested_example : atpic :=
  atpic_zero <| ready := true |> <| request := 0x01 |> <| service := 0x02 |> <| lowprio := 7 |>.

Lemma accept_eoi_roundtrip_witness :
  vatpic_get_highest_irrpin nested_example = 0 /\
  service (vatpic_ocw2 (vatpic_pin_accepted nested_example 0) 0x20).2 = 0x02.
Proof.
  split; [reflexivity|].
  apply (accept_eoi_roundtrip nested_example); [reflexivity..|discriminate].
Defined.

(** *** Acknowledging a vector *)

Lemma vector_pin base pin : base in_u 8 -> Z.land base 0x7 = 0 -> is_pin pin ->
  Z.land (base + pin) 0x7 = pin /\ clr (base + pin) 0x7 = base.
Proof.
  rewrite !land7_mod. unfold is_pin. intros Hb Hm Hp.
  pose proof (Z.div_mod base 8 ltac:(lia)) as E. rewrite Hm in E.
  assert (Hq : (base + pin) / 8 = base / 8).
  { symmetry. apply Z.div_unique with pin; lia. }
  split.
  - rewrite Z.mod_eq, Hq by lia. lia.
  - unfold clr. rewrite <- Z.ldiff_land. change 0x7 with (Z.ones 3).
    rewrite Z.ldiff_ones_r, Z.shiftr_div_pow2, Z.shiftl_mul_pow2 by lia.
    change (2 ^ 3) with 8. rewrite Hq. lia.
Qed.

Section Acknowledge.
Context {V : Type} `{!IrqFabric V}.

Lemma notify_service0 v (w : V) : length (acnt (atpic0 v)) = 8%nat ->
  service (atpic0 (vatpic_notify_intr (v, w)).1) = service (atpic0 v).
Proof. intros H. destruct (notify_frame v w H) as (_ & _ & _ & E & _). by rewrite E. Qed.

Lemma notify_service1 v (w : V) : length (acnt (atpic0 v)) = 8%nat ->
  service (atpic1 (vatpic_notify_intr (v, w)).1) = service (atpic1 v).
Proof. intros H. destruct (notify_frame v w H) as (E & _). by rewrite E. Qed.

Lemma accepted_acnt a p : acnt (vatpic_pin_accepted a p) = acnt a.
Proof.
  unfold vatpic_pin_accepted. cbv zeta. destruct (get_acnt p _ =? 0), (aeoi a) eqn:E; cbn.
  all: rewrite E; cbn; by repeat split_if.
Qed.

(** the vector that [vatpic_pending_intr] reports is acknowledged at the
    controller that asserted it.  When the two vector bases differ, a winner
    other than the cascade pin goes into service at the master and leaves the
    slave alone; when the cascade pin wins, the slave's winner (pin 7, the
    spurious vector, if it has none left) goes into service at the slave and
    pin 2 at the master. *)
Theorem pending_accepted (v : vatpic) (w : V) :
  wf_vatpic v -> irq_base (atpic0 v) <> irq_base (atpic1 v) ->
  vatpic_get_highest_irrpin (atpic0 v) <> -1 ->
  let p := vatpic_get_highest_irrpin (atpic0 v) in
  let q := vatpic_get_highest_irrpin (atpic1 v) in
  let q' := if q =? -1 then 7 else q in
  let v' := (vatpic_intr_accepted (vatpic_pending_intr v) (v, w)).1 in
  service (atpic0 v') = service (vatpic_pin_accepted (atpic0 v) p) /\
  service (atpic1 v') =
    if p =? 2 then service (vatpic_pin_accepted (atpic1 v) q') else service (atpic1 v).
Proof.
  intros [W0 W1 _ _] Hbase Hp. cbv zeta.
  destruct (irrpin_range (atpic0 v)) as [|Pp]; [contradiction|].
  set (p := vatpic_get_highest_irrpin (atpic0 v)) in *.
  set (q := vatpic_get_highest_irrpin (atpic1 v)).
  set (q' := if q =? -1 then 7 else q).
  assert (Pq : is_pin q').
  { unfold q'. destruct (irrpin_range (atpic1 v)) as [E|P]; fold q in E || fold q in P.
    - rewrite E. unfold is_pin. cbn. lia.
    - destruct (Z.eqb_spec q (-1)) as [E|]; [|done]. unfold is_pin. lia. }
  unfold vatpic_intr_accepted, vatpic_pending_intr. fold p q.
  destruct (wf_base _ _ W0) as [B0 M0]. destruct (wf_base _ _ W1) as [B1 M1].
  pose proof (wf_acnt _ _ W0) as L0.
  destruct (Z.eqb_spec p 2) as [E2|Hn2].
  - fold q'. destruct (vector_pin _ q' B1 M1 Pq) as [-> ->]. rewrite Z.eqb_refl.
    rewrite notify_service0, notify_service1 by (cbn; by rewrite accepted_acnt).
    rewrite E2. done.
  - replace (p =? -1) with false by (symmetry; by apply Z.eqb_neq).
    destruct (vector_pin _ p B0 M0 Pp) as [-> ->]. apply Z.eqb_neq in Hbase. rewrite Hbase.
    rewrite notify_service0, notify_service1 by (cbn; by rewrite accepted_acnt). done.
Qed.
End Acknowledge.

(** Both controllers programmed at 0x20 and 0x28, IRQ 12 requested through the cascade. *)
Definition cascade_example : vatpic :=
  mk_vatpic (atpic_zero <| ready := true |> <| request := 0x04 |> <| irq_base := 0x20 |> <| lowprio := 7 |>)
            (atpic_zero <| ready := true |> <| request := 0x10 |> <| irq_base := 0x28 |> <| lowprio := 7 |>
               <| intr_raised := true |>) 0 0.

Lemma cascade_example_wf : wf_vatpic cascade_example.
Proof. constructor; [constructor..| |]; cbn; unfold is_pin; try done; lia. Qed.

Lemma pending_accepted_witness :
  vatpic_pending_intr cascade_example = 0x2c /\
  service (atpic1 (vatpic_intr_accepted 0x2c (cascade_example, [] : list irq_call)).1) = 0x10.
Proof.
  split; [reflexivity|].
  exact (proj2 (pending_accepted cascade_example ([] : list irq_call) cascade_example_wf
                  ltac:(discriminate) ltac:(discriminate))).
Defined.

(** *** Interrupt lines *)

(** The trigger mode of a line: set in the ELC register of its controller. *)
Definition is_level (v : vatpic) (irq : Z) : bool :=
  Z.testbit (get_elc (Z.shiftr irq 3) v) (Z.land irq 0x7).

Lemma get_set_atpic i a v : get_atpic i (set_atpic i a v) = a.
Proof. unfold get_atpic, set_atpic. by destruct (i =? 0). Qed.

Lemma elc_set_atpic i j a v : get_elc i (set_atpic j a v) = get_elc i v.
Proof. unfold get_elc, set_atpic. by destruct (j =? 0). Qed.

Lemma get_acnt_insert a p c : is_pin p -> length (acnt a) = 8%nat ->
  nth (Z.to_nat p) (<[Z.to_nat p := c]> (acnt a)) 0 = c.
Proof.
  intros [? ?] Hl. apply nth_lookup_Some, list_lookup_insert_eq. lia.
Qed.

Section Lines.
Variables (v : vatpic) (irq : Z).
Hypothesis Hwf : wf_vatpic v.
Let i := Z.shiftr irq 3.
Let p := Z.land irq 0x7.
Let a := get_atpic i v.

Lemma line_pin : is_pin p. Proof. apply is_pin_land. Qed.
Lemma line_acnt : length (acnt a) = 8%nat.
Proof. apply (wf_acnt _ _ (wf_get_atpic v i _ Hwf eq_refl)). Qed.

Lemma update_pin_rise : get_acnt p a = 0 ->
  let a' := get_atpic i (update_pin v irq true) in
  Z.testbit (request a') p = true /\ get_acnt p a' = 1.
Proof.
  intros Hc a'. pose proof line_pin as [Hp0 Hp8].
  unfold a', update_pin. fold i p a. cbv zeta. rewrite Hc.
  change ((0 =? 0) && (0 + 1 =? 1)) with true. cbn [orb]. rewrite get_set_atpic. split.
  - cbn [request upd]. by rewrite Z.lor_spec, bit_testbit, Z.eqb_refl, orb_true_r by done.
  - unfold get_acnt. cbn [acnt upd]. by apply get_acnt_insert, line_acnt.
Qed.

Lemma update_pin_fall : get_acnt p a = 1 ->
  let a' := get_atpic i (update_pin v irq false) in
  Z.testbit (request a') p = negb (is_level v irq) && Z.testbit (request a) p /\ get_acnt p a' = 0.
Proof.
  intros Hc a'. pose proof line_pin as [Hp0 Hp8].
  unfold a', update_pin, is_level. fold i p a. cbv zeta. rewrite Hc, tst_bit by done.
  change ((1 =? 0) && (1 - 1 =? 1)) with false. change (0 <? 1 - 1) with false.
  change ((1 =? 1) && (1 - 1 =? 0)) with true. cbn [orb andb]. rewrite get_set_atpic.
  destruct (Z.testbit (get_elc i v) p); cbn [negb andb]; split.
  - cbn [request upd]. by rewrite clr_testbit, bit_testbit, Z.eqb_refl, andb_false_r by done.
  - unfold get_acnt. cbn [acnt upd]. by apply get_acnt_insert, line_acnt.
  - done.
  - unfold get_acnt. cbn [acnt upd]. by apply get_acnt_insert, line_acnt.
Qed.
End Lines.

Section Pulse.
Context {V : Type} `{!IrqFabric V}.

(** A notification does not disturb a line other than the cascade. *)
Lemma notify_line v (w : V) irq : wf_vatpic v -> 0 <= irq < 16 -> irq <> 2 ->
  let i := Z.shiftr irq 3 in let p := Z.land irq 0x7 in
  let v' := (vatpic_notify_intr (v, w)).1 in
  Z.testbit (request (get_atpic i v')) p = Z.testbit (request (get_atpic i v)) p /\
  get_acnt p (get_atpic i v') = get_acnt p (get_atpic i v) /\
  is_level v' irq = is_level v irq.
Proof.
  intros Hwf Hirq Hne. cbv zeta.
  destruct (notify_frame v w (wf_acnt _ _ (wf_atpic0 _ Hwf))) as (H1 & He0 & He1 & _ & Ha & Hr).
  unfold is_level, get_elc, get_atpic. rewrite He0, He1.
  destruct (Z.eqb_spec (Z.shiftr irq 3) 0) as [E|E].
  - split_and!; [|unfold get_acnt; by rewrite Ha|done].
    pose proof (is_pin_land irq) as [? ?]. apply Hr; [done|].
    rewrite Z.shiftr_div_pow2 in E by lia. apply Z.div_small_iff in E; [|done].
    rewrite land7_mod, Z.mod_small by lia. done.
  - rewrite H1. done.
Qed.

(** pulsing the idle line of an initialised controller latches the request
    when the line is edge triggered, leaves no request behind when it is level
    triggered, and in both cases returns the line to its idle count. *)
Theorem pulse_irq_latches (v : vatpic) (w : V) (irq : Z) :
  wf_vatpic v -> 0 <= irq < 16 -> irq <> 2 ->
  let i := Z.shiftr irq 3 in let p := Z.land irq 0x7 in
  ready (get_atpic i v) = true -> get_acnt p (get_atpic i v) = 0 ->
  let r := vatpic_pulse_irq irq (v, w) in
  let a' := get_atpic i r.2.1 in
  r.1 = 0 /\ Z.testbit (request a') p = negb (is_level v irq) /\ get_acnt p a' = 0.
Proof.
  intros Hwf Hirq Hne i p Hr Hc. cbv zeta. unfold vatpic_pulse_irq, vatpic_set_irqstate.
  replace ((irq <? 0) || (15 <? irq)) with false by (symmetry; apply orb_false_iff; lia).
  cbn [fst snd]. fold i. rewrite Hr. cbn [negb fst snd]. split; [done|].
  unfold vatpic_set_pinstate. cbn [fst snd].
  destruct (update_pin_rise v irq Hwf Hc) as [R1 R2].
  set (v1 := update_pin v irq true) in *.
  assert (Hwf1 : wf_vatpic v1) by (by apply wf_update_pin).
  destruct (vatpic_notify_intr (v1, w)) as [v2 w2] eqn:E2.
  destruct (notify_line v1 w irq Hwf1 Hirq Hne) as (N1 & N2 & N3).
  pose proof (wf_notify (v1, w) Hwf1) as Hwf2. rewrite E2 in N1, N2, N3, Hwf2. cbn [fst snd] in *.
  fold i p in N1, N2, R1, R2. rewrite <- N1 in R1. rewrite <- N2 in R2.
  destruct (update_pin_fall v2 irq Hwf2 R2) as [F1 F2]. fold i p in F1, F2.
  rewrite R1, andb_true_r, N3 in F1.
  assert (Hl : is_level v1 irq = is_level v irq) by (unfold is_level, v1, update_pin; by rewrite elc_set_atpic).
  rewrite Hl in F1.
  destruct (notify_line (update_pin v2 irq false) w2 irq) as (M1 & M2 & _);
    [by apply wf_update_pin|done..|]. fold i p in M1, M2. by rewrite M1, M2, F1, F2.
Qed.
End Pulse.

Lemma pulse_irq_latches_witness :
  let r := vatpic_pulse_irq 9 (cascade_example, [] : list irq_call) in
  let a' := get_atpic (Z.shiftr 9 3) r.2.1 in
  r.1 = 0 /\ Z.testbit (request a') (Z.land 9 0x7) = negb (is_level cascade_example 9) /\
  get_acnt (Z.land 9 0x7) a' = 0.
Proof.
  apply (pulse_irq_latches cascade_example ([] : list irq_call) 9 cascade_example_wf);
    [lia|discriminate|reflexivity|reflexivity].
Defined.

(** *** Initialisation and errors *)
Section Init.
Context {V : Type} `{!IrqFabric V}.

(** The four command words of the initialisation sequence, written by a guest
    to the ports of controller [i] (even port [port], odd port [port + 1]). *)
Definition init_sequence (i port base icw3 : Z) (m : machine V) : machine V :=
  let m := (vatpic_handler i false port 1 0x11 m).1.2 in
  let m := (vatpic_handler i false (port + 1) 1 base m).1.2 in
  let m := (vatpic_handler i false (port + 1) 1 icw3 m).1.2 in
  (vatpic_handler i false (port + 1) 1 0x01 m).1.2.

Lemma handler_write i port eax v (w : V) e a :
  write_command (i =? 0) (get_atpic i v) port (u8 eax) = (e, a) ->
  (vatpic_handler i false port 1 eax (v, w)).1.2 =
  if ready a then vatpic_notify_intr (set_atpic i a v, w) else (set_atpic i a v, w).
Proof.
  intros H. unfold vatpic_handler, vatpic_write. cbn [Z.eqb Pos.eqb negb fst]. by rewrite H.
Qed.

Lemma set_set_atpic i a b v : set_atpic i a (set_atpic i b v) = set_atpic i a v.
Proof. unfold set_atpic. by destruct (i =? 0). Qed.

Lemma notify_config i v (w : V) :
  length (acnt (atpic0 v)) = 8%nat ->
  same_config (get_atpic i v) (get_atpic i (vatpic_notify_intr (v, w)).1).
Proof.
  intros Hl. destruct (notify_frame v w Hl) as (E & _ & _ & Hc & _). unfold get_atpic.
  destruct (i =? 0); [done|]. rewrite E. by destruct (atpic1 v).
Qed.

(** The state of the controller before the final notification. *)
Definition initialised (a : atpic) (base : Z) : atpic :=
  a <| ready := true |> <| icw_num := 0 |> <| rd_cmd_reg := 0 |> <| poll := false |>
    <| irq_base := Z.land (u8 base) 0xf8 |> <| request := 0 |> <| mask := 0 |> <| smm := 0 |>
    <| lowprio := 7 |>.

Lemma init_sequence_eq i port base icw3 v (w : V) :
  tst port ICU_IMR_OFFSET = false -> tst (port + 1) ICU_IMR_OFFSET = true ->
  init_sequence i port base icw3 (v, w) =
  vatpic_notify_intr (set_atpic i (initialised (get_atpic i v) base) v, w).
Proof.
  intros Hp Hp1. unfold init_sequence. cbv zeta. set (a := get_atpic i v).
  erewrite (handler_write i port _ v w 0
    (a <| ready := false |> <| icw_num := 2 |> <| request := 0 |> <| mask := 0 |>
       <| lowprio := 7 |> <| rd_cmd_reg := 0 |> <| poll := false |> <| smm := 0 |>)); cycle 1.
  { unfold write_command. by rewrite Hp. }
  set (a1 := a <| ready := false |> <| icw_num := 2 |> <| request := 0 |> <| mask := 0 |>
       <| lowprio := 7 |> <| rd_cmd_reg := 0 |> <| poll := false |> <| smm := 0 |>).
  change (ready a1) with false. cbv iota.
  rewrite (handler_write _ _ _ _ _ 0 (a1 <| irq_base := Z.land (u8 base) 0xf8 |> <| icw_num := 3 |>));
    cycle 1.
  { unfold write_command. by rewrite Hp1, get_set_atpic. }
  rewrite set_set_atpic. cbn [ready upd]. change (ready a1) with false. cbv iota.
  rewrite (handler_write _ _ _ _ _ 0 (a1 <| irq_base := Z.land (u8 base) 0xf8 |> <| icw_num := 4 |>));
    cycle 1.
  { unfold write_command. by rewrite Hp1, get_set_atpic. }
  rewrite set_set_atpic. cbn [ready upd]. change (ready a1) with false. cbv iota.
  rewrite (handler_write _ _ _ _ _ 0 (initialised a base)); cycle 1.
  { unfold write_command. by rewrite Hp1, get_set_atpic. }
  by rewrite set_set_atpic.
Qed.

(** the ICW1..ICW4 sequence initialises a controller whatever state it was
    in: it ends ready, out of the initialisation state machine, with the
    vector base rounded down to a multiple of 8, nothing masked, no special
    mask mode and the default priorities. *)
Theorem init_sequence_ready (i port base icw3 : Z) (v : vatpic) (w : V) :
  tst port ICU_IMR_OFFSET = false -> tst (port + 1) ICU_IMR_OFFSET = true -> wf_vatpic v ->
  let a' := get_atpic i (init_sequence i port base icw3 (v, w)).1 in
  ready a' = true /\ icw_num a' = 0 /\ irq_base a' = Z.land (u8 base) 0xf8 /\
  mask a' = 0 /\ smm a' = 0 /\ lowprio a' = 7 /\ poll a' = false /\ rd_cmd_reg a' = 0.
Proof.
  intros Hp Hp1 Hwf. cbv zeta. rewrite init_sequence_eq by done.
  set (v1 := set_atpic i (initialised (get_atpic i v) base) v).
  assert (Hl : length (acnt (atpic0 v1)) = 8%nat).
  { unfold v1, set_atpic, get_atpic. destruct (i =? 0); apply (wf_acnt _ _ (wf_atpic0 _ Hwf)). }
  pose proof (notify_config i v1 w Hl) as Hc. unfold same_config in Hc. rewrite Hc.
  unfold v1. rewrite get_set_atpic. done.
Qed.
End Init.

Lemma init_sequence_ready_witness :
  let a' := get_atpic 1 (init_sequence 1 0xa0 0x2b 0x02 (vatpic_init, [] : list irq_call)).1 in
  ready a' = true /\ icw_num a' = 0 /\ irq_base a' = Z.land (u8 0x2b) 0xf8 /\
  mask a' = 0 /\ smm a' = 0 /\ lowprio a' = 7 /\ poll a' = false /\ rd_cmd_reg a' = 0.
Proof.
  apply (init_sequence_ready 1 0xa0 0x2b 0x02 vatpic_init ([] : list irq_call));
    [reflexivity|reflexivity|exact wf_init].
Defined.

(** A master in automatic-EOI mode, polled, with IRQ 3 and IRQ 4 requested. *)
Definition polled_aeoi : atpic :=
  atpic_zero <| ready := true |> <| aeoi := true |> <| poll := true |> <| request := 0x18 |>
    <| lowprio := 7 |> <| intr_raised := true |>.

(** The side condition of the reachability result is needed: a polled read in
    automatic-EOI mode drops the raised flag while IRQ 4 is still deliverable,
    and does not notify again. *)
Lemma polled_aeoi_loses_notification :
  notified_pic polled_aeoi /\ ~ notified_pic (vatpic_read polled_aeoi 0x20).1.
Proof.
  split; [done|]. intros H. specialize (H eq_refl eq_refl). discriminate.
Qed.

(** ** From a request to the processors *)
Section Outputs.
Context {V : Type} `{!IrqFabric V}.
Implicit Types (v : vatpic) (m : machine V).

Lemma handler_signalled i inp port bytes eax m :
  let m' := (vatpic_handler i inp port bytes eax m).1.2 in
  m'.2 = (if negb (raised m.1) && raised m'.1 then signal m.2 else m.2).
Proof.
  destruct m as [v w]. cbv zeta. unfold vatpic_handler. destruct (negb (bytes =? 1)); [by destruct (raised v) eqn:E; cbn; rewrite E|].
  destruct inp; cbn [fst snd].
  - pose proof (read_lowers (get_atpic i v) port) as Hr. destruct (vatpic_read _ _) as [a x]. cbn [fst snd] in *.
    rewrite set_atpic_raised. unfold raised, get_atpic in *.
    destruct (i =? 0), (intr_raised (atpic0 v)) eqn:E, (intr_raised a) eqn:Ea; cbn; naive_solver.
  - unfold vatpic_write. pose proof (command_raised (i =? 0) (get_atpic i v) port (u8 eax)) as Hc.
    destruct (write_command _ _ _ _) as [er a]. cbn [snd] in Hc.
    assert (Hr : raised (set_atpic i a v) = raised v).
    { rewrite set_atpic_raised, Hc. unfold raised, get_atpic. by destruct (i =? 0). }
    destruct (ready a); cbn [fst snd]; [destruct (notify_signalled (set_atpic i a v) w) as [-> _]; by rewrite Hr|].
    rewrite Hr. by destruct (raised v).
Qed.

Lemma accepted_low a p : intr_raised (vatpic_pin_accepted a p) = false.
Proof. unfold vatpic_pin_accepted. cbv zeta. by repeat (split_if; try done). Qed.

Lemma run_signalled e m :
  let m' := run_entry e m in m'.2 = (if negb (was_raised e m.1) && raised m'.1 then signal m.2 else m.2).
Proof.
  assert (Hid : forall m', m'.2 = m.2 -> raised m'.1 = raised m.1 ->
            m'.2 = (if negb (raised m.1) && raised m'.1 then signal m.2 else m.2)).
  { intros m' -> ->. by destruct (raised m.1). }
  destruct e; cbn [run_entry was_raised]; cbv zeta.
  - unfold vatpic_set_irqstate. destruct ((irq <? 0) || _); [by apply Hid|].
    destruct (negb (ready _)); [by apply Hid|]. cbn [snd]. destruct s; [apply set_pinstate_signalled..|].
    eapply signalled_trans; apply set_pinstate_signalled.
  - apply Hid; unfold vatpic_set_irq_trigger, set_elc; destruct t; by repeat split_if.
  - destruct m as [v w]. unfold vatpic_intr_accepted. cbv zeta. cbn [snd].
    match goal with |- context [vatpic_notify_intr (?x, _)] => set (v1 := x); destruct (notify_signalled v1 w) as [E _] end.
    assert (Hr : raised v1 = false) by (unfold v1, raised; destruct (clr vector 0x7 =? _); apply accepted_low).
    by rewrite Hr in E.
  - apply handler_signalled.
  - apply handler_signalled.
  - apply Hid; unfold vatpic_elc_handler; by repeat split_if.
Qed.

(** *** The cascade

    With nobody else on line 2, the slave going up leaves a request on pin 2 of
    the master. *)
Definition cascade_request v : bool := Z.testbit (request (atpic0 v)) 2.

Lemma elc_cascade v : wf_vatpic v -> is_level v 2 = false.
Proof.
  intros [_ _ [_ H] _]. unfold is_level. change (Z.testbit (elc0 v) 2 = false).
  pose proof (f_equal (fun x => Z.testbit x 2) H) as E. cbn beta in E. rewrite Z.land_spec, Z.testbit_0_l in E.
  by rewrite andb_true_r in E.
Qed.

Lemma cascade_line pin : 0 <= pin < 16 -> Z.shiftr pin 3 = 0 -> Z.land pin 0x7 = pin.
Proof.
  intros Hp E. rewrite Z.shiftr_div_pow2 in E by lia. apply Z.div_small_iff in E; [|done]. rewrite land7_mod. apply Z.mod_small. lia.
Qed.

Lemma update_pin_cascade v pin b : 0 <= pin < 16 -> wf_vatpic v -> cascade_request v = true ->
  cascade_request (update_pin v pin b) = true.
Proof.
  intros Hp Hwf Hc. pose proof (elc_cascade v Hwf) as Hl. unfold cascade_request, is_level, update_pin, set_atpic in *.
  change (Z.shiftr 2 3) with 0 in Hl. change (Z.land 2 0x7) with 2 in Hl. cbv zeta.
  destruct (Z.eqb_spec (Z.shiftr pin 3) 0) as [E|E]; [|done]. rewrite (cascade_line pin Hp E), E. rewrite tst_bit by lia.
  change (get_atpic 0 v) with (atpic0 v). cbn [atpic0 upd]. repeat split_if; cbn [request upd]; try done.
  all: first [by rewrite Z.lor_spec, Hc|rewrite clr_testbit, bit_testbit, Hc by lia].
  all: destruct (Z.eqb_spec pin 2) as [->|]; [congruence|done].
Qed.

Lemma master_cascade m : cascade_request (notify_master m).1 = cascade_request m.1.
Proof. destruct m as [v w]. unfold notify_master, cascade_request. by split_if. Qed.

Lemma pin2_cascade b m : wf_vatpic m.1 -> cascade_request m.1 = true -> cascade_request (pin2 b m).1 = true.
Proof. intros Hwf Hc. unfold pin2. rewrite master_cascade. cbn [fst]. by apply update_pin_cascade. Qed.

Lemma wf_raise_slave v : wf_vatpic v -> wf_vatpic (raise_slave v).
Proof. intros []. constructor; cbn; try done. by apply wf_raise. Qed.

Lemma notify_cascade v (w : V) : wf_vatpic v -> cascade_request v = true -> cascade_request (vatpic_notify_intr (v, w)).1 = true.
Proof.
  intros Hwf Hc. rewrite notify_eq, master_cascade. destruct (slave_eligible v); [|done].
  apply wf_raise_slave in Hwf. apply pin2_cascade; [by apply wf_pin2|]. by apply pin2_cascade.
Qed.

Lemma set_pinstate_cascade pin b m : 0 <= pin < 16 -> wf_vatpic m.1 -> cascade_request m.1 = true ->
  cascade_request (vatpic_set_pinstate pin b m).1 = true.
Proof. intros Hp Hwf Hc. apply notify_cascade; [by apply wf_update_pin|by apply update_pin_cascade]. Qed.

Definition slave_raised v : bool := intr_raised (atpic1 v).

Lemma notify_acnt v (w : V) : wf_vatpic v -> get_acnt 2 (atpic0 (vatpic_notify_intr (v, w)).1) = get_acnt 2 (atpic0 v).
Proof.
  intros Hwf. destruct (notify_frame v w (wf_acnt _ _ (wf_atpic0 _ Hwf))) as (_ & _ & _ & _ & E & _). unfold get_acnt. by rewrite E.
Qed.

Lemma notify_rise v (w : V) : wf_vatpic v -> slave_raised v = false -> slave_raised (vatpic_notify_intr (v, w)).1 = true ->
  get_acnt 2 (atpic0 v) = 0 -> cascade_request (vatpic_notify_intr (v, w)).1 = true.
Proof.
  intros Hwf H0 H1 Ha. rewrite notify_eq, master_cascade. rewrite notify_eq in H1. destruct (slave_eligible v).
  - apply wf_raise_slave in Hwf. apply pin2_cascade; [by apply wf_pin2|]. unfold pin2. rewrite master_cascade. cbn [fst].
    by destruct (update_pin_rise (raise_slave v) 2 Hwf Ha) as [H _].
  - unfold slave_raised in *. rewrite notify_master_slave in H1. cbn [fst] in H1. congruence.
Qed.

Lemma update_pin_acnt v pin b : 0 <= pin < 16 -> wf_vatpic v ->
  get_acnt 2 (atpic0 (update_pin v pin b)) = get_acnt 2 (atpic0 v) + (if pin =? 2 then if b then 1 else -1 else 0).
Proof.
  intros Hp Hwf. pose proof (wf_acnt _ _ (wf_atpic0 _ Hwf)) as Hl. destruct (Z.eqb_spec pin 2) as [->|Hne].
  - destruct (update_pin2_frame v b) as (_ & _ & _ & E). unfold get_acnt at 1. rewrite E.
    change 2%nat with (Z.to_nat 2). rewrite get_acnt_insert by (done || unfold is_pin; lia). destruct b; lia.
  - rewrite Z.add_0_r. unfold update_pin, set_atpic. cbv zeta.
    destruct (Z.eqb_spec (Z.shiftr pin 3) 0) as [E|E]; [|done]. rewrite (cascade_line pin Hp E), E.
    change (get_atpic 0 v) with (atpic0 v). cbn [atpic0 upd].
    assert (Hn : forall x, nth 2 (<[Z.to_nat pin := x]> (acnt (atpic0 v))) 0 = nth 2 (acnt (atpic0 v)) 0).
    { intros x. rewrite !nth_lookup, list_lookup_insert_ne by lia. done. }
    repeat split_if; apply Hn.
Qed.

Lemma set_pinstate_rise pin b m : 0 <= pin < 16 -> wf_vatpic m.1 -> slave_raised m.1 = false ->
  let m' := vatpic_set_pinstate pin b m in
  slave_raised m'.1 = true -> get_acnt 2 (atpic0 m'.1) = 0 -> cascade_request m'.1 = true.
Proof.
  intros Hp Hwf H0 m' H1 Ha. unfold m', vatpic_set_pinstate in *. pose proof (wf_update_pin m.1 pin b Hwf Hp) as Hwf1.
  rewrite notify_acnt in Ha by done. apply notify_rise; try done. unfold slave_raised, update_pin, set_atpic, get_atpic in *.
  by repeat split_if.
Qed.

(** A pulse on line 2 itself latches the request at its first edge. *)
Lemma pulse_rise pin m : 0 <= pin < 16 -> wf_vatpic m.1 -> slave_raised m.1 = false ->
  let m' := vatpic_set_pinstate pin false (vatpic_set_pinstate pin true m) in
  slave_raised m'.1 = true -> get_acnt 2 (atpic0 m'.1) = 0 -> cascade_request m'.1 = true.
Proof.
  intros Hp Hwf H0 m' H1 Ha. set (m1 := vatpic_set_pinstate pin true m) in *.
  assert (Hwf1 : wf_vatpic m1.1) by (by apply wf_set_pinstate).
  destruct (slave_raised m1.1) eqn:E1; [|by apply set_pinstate_rise].
  apply set_pinstate_cascade; [done..|]. unfold m', vatpic_set_pinstate in Ha.
  rewrite notify_acnt, update_pin_acnt in Ha by (try done; by apply wf_update_pin).
  pose proof Hp as Hp'. destruct (Z.eqb_spec pin 2) as [->|Hne].
  - apply notify_cascade; [by apply wf_update_pin|]. apply (update_pin_rise m.1 2 Hwf).
    unfold m1, vatpic_set_pinstate in Ha. rewrite notify_acnt, update_pin_acnt in Ha by (try done; by apply wf_update_pin).
    change (get_acnt 2 (atpic0 m.1) = 0). change (2 =? 2) with true in Ha. cbv iota in Ha. lia.
  - apply set_pinstate_rise; try done. fold m1. lia.
Qed.

Lemma notified_rise v (w : V) : wf_vatpic v -> slave_raised v = false ->
  let v' := (vatpic_notify_intr (v, w)).1 in
  slave_raised v' = true -> get_acnt 2 (atpic0 v') = 0 -> cascade_request v' = true.
Proof. intros Hwf H0 v' H1 Ha. unfold v' in *. rewrite notify_acnt in Ha by done. by apply notify_rise. Qed.

Lemma handler_rise i inp port bytes eax m : wf_vatpic m.1 -> slave_raised m.1 = false ->
  let v' := (vatpic_handler i inp port bytes eax m).1.2.1 in
  slave_raised v' = true -> get_acnt 2 (atpic0 v') = 0 -> cascade_request v' = true.
Proof.
  intros Hwf H0. cbv zeta. unfold vatpic_handler. destruct (negb (bytes =? 1)); [cbn; congruence|]. destruct inp.
  - pose proof (read_lowers (get_atpic i m.1) port) as Hr. destruct (vatpic_read _ _) as [a x]. cbn [fst snd] in *.
    unfold slave_raised, set_atpic, get_atpic in *. destruct (i =? 0); cbn; intros H1; [congruence|]. rewrite (Hr H1) in H0. done.
  - destruct m as [v w]. unfold vatpic_write. cbn [fst] in *.
    pose proof (wf_write_command (i =? 0) (get_atpic i v) port (u8 eax) (wf_get_atpic _ _ _ Hwf eq_refl)) as W.
    pose proof (command_raised (i =? 0) (get_atpic i v) port (u8 eax)) as Hc.
    destruct (write_command _ _ _ _) as [er a]. cbn [snd] in Hc, W.
    assert (Hr : slave_raised (set_atpic i a v) = false).
    { unfold slave_raised, set_atpic, get_atpic in *. destruct (i =? 0); [done|]. cbn. congruence. }
    destruct (ready a); cbn [fst snd]; [|congruence]. apply notified_rise; [|done]. apply wf_set_atpic; [done|]. by intros ? ->.
Qed.

(** The output of the slave an entry point starts from. *)
Definition slave_was (e : entry) v : bool :=
  match e with
  | EAccepted vector => if clr vector 0x7 =? irq_base (atpic1 v) then false else slave_raised v
  | _ => slave_raised v
  end.

Lemma run_rise e m : wf_vatpic m.1 -> slave_was e m.1 = false ->
  let v' := (run_entry e m).1 in
  slave_raised v' = true -> get_acnt 2 (atpic0 v') = 0 -> cascade_request v' = true.
Proof.
  intros Hwf H0. cbv zeta. destruct e; cbn [run_entry slave_was] in *.
  - unfold vatpic_set_irqstate. destruct ((irq <? 0) || _) eqn:E; [cbn; congruence|].
    destruct (negb (ready _)); [cbn; congruence|]. bools. cbn [snd].
    destruct s; [apply set_pinstate_rise..|apply pulse_rise]; done || lia.
  - assert (E : atpic1 (vatpic_set_irq_trigger irq t m).2.1 = atpic1 m.1).
    { unfold vatpic_set_irq_trigger, set_elc. destruct t; by repeat split_if. }
    unfold slave_raised in *. rewrite E. congruence.
  - destruct m as [v w]. unfold vatpic_intr_accepted. cbn [fst] in *. destruct Hwf.
    assert (is_pin 2) by (unfold is_pin; lia).
    destruct (clr vector 0x7 =? _); apply notified_rise.
    all: first [by constructor; cbn; auto with pic|apply accepted_low|done].
  - by apply handler_rise.
  - by apply handler_rise.
  - assert (E : atpic1 (vatpic_elc_handler inp port bytes eax m).1.2.1 = atpic1 m.1).
    { unfold vatpic_elc_handler. by repeat split_if. }
    unfold slave_raised in *. rewrite E. congruence.
Qed.

(** An entry point that does not poll a controller in automatic-EOI,
    special-mask or special-fully-nested mode, or the rest of the machine. *)
Definition polled_step m m' : Prop := step m m' /\ poll_safe (atpic0 m.1) /\ poll_safe (atpic1 m.1).

Lemma polled_reachable (w : V) m : rtc polled_step (vatpic_init, w) m -> wf_vatpic m.1 /\ notified m.1.
Proof.
  intros R. assert (H0 : wf_vatpic (vatpic_init, w).1 /\ notified (vatpic_init, w).1) by (split; [apply wf_init|by split; intros ?]).
  revert H0. induction R as [|x y z (S & P0 & P1) _ IH]; [done|]. intros [Hwf Hn]. apply IH.
  split; [by apply (wf_step x y)|]. destruct S; [by apply run_notified|done].
Qed.

(** C8: the outputs of the 8259 pair.  At every state reached from
    [vatpic_init] through entry points that do not poll a controller in
    automatic-EOI, special-mask or special-fully-nested mode, after the next
    such entry point: an initialised controller with a deliverable request has
    its output raised; the entry point has signalled the processors (LINT0 of
    every local APIC, then pin 0 of the I/O APIC) exactly when the output of
    the master is up and was down or has just been acknowledged, once and
    nothing else; and when the output of the slave went up, pin 2 of the master
    is requested, provided nobody else holds that line. *)
Theorem reachable_notified (w0 : V) m (e : entry) :
  rtc polled_step (vatpic_init, w0) m -> poll_safe (atpic0 m.1) -> poll_safe (atpic1 m.1) ->
  let m' := run_entry e m in
  notified m'.1 /\
  m'.2 = (if negb (was_raised e m.1) && raised m'.1
          then vioapic_pulse_irq 0 (lapic_set_local_intr (-1) APIC_LVT_LINT0 m.2) else m.2) /\
  (slave_was e m.1 = false -> slave_raised m'.1 = true -> get_acnt 2 (atpic0 m'.1) = 0 -> cascade_request m'.1 = true).
Proof.
  intros R P0 P1. destruct (polled_reachable w0 m R) as [Hwf Hn].
  split; [by apply run_notified|]. split; [apply run_signalled|by apply run_rise].
Qed.
End Outputs.

(** Both controllers initialised the usual way; then IRQ 10, on the slave. *)
Definition boot_entries : list entry :=
  [EMaster false 0x20 1 0x11; EMaster false 0x21 1 0x20; EMaster false 0x21 1 0x04; EMaster false 0x21 1 0x01;
   ESlave false 0xa0 1 0x11; ESlave false 0xa1 1 0x28; ESlave false 0xa1 1 0x02; ESlave false 0xa1 1 0x01].

Definition run_entries (l : list entry) (m : machine (list irq_call)) : machine (list irq_call) :=
  fold_left (fun m e => run_entry e m) l m.

Definition booted : machine (list irq_call) := Eval vm_compute in run_entries boot_entries (vatpic_init, []).

Fixpoint unpolled (l : list entry) (m : machine (list irq_call)) : Prop :=
  match l with
  | [] => True
  | e :: l' => poll (atpic0 m.1) = false /\ poll (atpic1 m.1) = false /\ unpolled l' (run_entry e m)
  end.

Lemma unpolled_run l m : unpolled l m -> rtc polled_step m (run_entries l m).
Proof.
  revert m. induction l as [|e l IH]; intros m; [intros _; apply rtc_refl|]. intros (P0 & P1 & Hl).
  eapply rtc_l; [|by apply IH]. split; [apply step_entry|]. split; by left.
Qed.

Lemma booted_reachable : rtc polled_step (vatpic_init, [] : list irq_call) booted.
Proof.
  change booted with (run_entries boot_entries (vatpic_init, [])). apply unpolled_run. vm_compute. done.
Qed.

Lemma reachable_notified_witness :
  ready (atpic0 booted.1) = true /\ ready (atpic1 booted.1) = true /\
  let m' := run_entry (EIrqstate 10 IRQSTATE_PULSE) booted in
  eligible (atpic0 m'.1) = true /\ eligible (atpic1 m'.1) = true /\ notified m'.1 /\
  m'.2 = [CallLocalIntr (-1) 0; CallIoapicPulse 0] /\ cascade_request m'.1 = true.
Proof.
  split; [reflexivity|]. split; [reflexivity|].
  destruct (reachable_notified [] booted (EIrqstate 10 IRQSTATE_PULSE) booted_reachable
              (or_introl eq_refl) (or_introl eq_refl)) as (Hn & Hs & Hc).
  split; [reflexivity|]. split; [reflexivity|]. split; [exact Hn|]. split; [exact Hs|].
  apply Hc; reflexivity.
Defined.

(** What the code does not do: [vatpic_icw1] on the master drops the cascade
    request and leaves the slave's [intr_raised] set, so once the master is
    initialised again the slave's pending interrupt, and every later one, stays
    unseen: here IRQ 10 before and IRQ 9 after the new initialisation. *)
Example reinit_loses_slave :
  let m := run_entries (EIrqstate 10 IRQSTATE_PULSE :: take 4 boot_entries ++ [EIrqstate 9 IRQSTATE_PULSE]) booted in
  ready (atpic0 m.1) = true /\ eligible (atpic1 m.1) = true /\ eligible (atpic0 m.1) = false /\
  cascade_request m.1 = false /\ m.2 = [CallLocalIntr (-1) 0; CallIoapicPulse 0].
Proof. vm_compute. done. Qed.

(** A level-triggered line that is taken back while the controller is being
    initialised stays counted: [vatpic_set_irqstate] returns before the count
    when the controller is not ready. *)
Example reinit_sticks_line :
  let m := run_entries ([ETrigger 10 LEVEL_TRIGGER; EIrqstate 10 IRQSTATE_ASSERT] ++ drop 4 boot_entries) booted in
  let held := run_entries [ESlave false 0xa0 1 0x11; EIrqstate 10 IRQSTATE_DEASSERT;
                           ESlave false 0xa1 1 0x28; ESlave false 0xa1 1 0x02; ESlave false 0xa1 1 0x01] m in
  get_acnt 2 (atpic1 m.1) = 1 /\ get_acnt 2 (atpic1 held.1) = 1 /\ ready (atpic1 held.1) = true.
Proof. vm_compute. done. Qed.
