(* ===== verification/Bintime.v ===== *)
(** * Binary time (src/include/xhyve/vmm/vmm_callout.h and the conversions of
    src/src/vmm/vmm_callout.c)

    A [bintime] is a 64.64 fixed-point number of seconds in two unsigned words
    and an [sbintime_t] its signed 32.32 truncation.  The arithmetic is the
    word-level code, wrap-around included; the theorems relate it to the
    128-bit number [bt_val] it represents.  The Mach time base
    ([mach_timebase_info]) and [mach_absolute_time] are outside the sources and
    are arguments. *)

From S2P Require Import Prelude.

Record bintime : Type := mk_bintime { sec : Z; frac : Z }.

#[export] Instance eta_bintime : Eta bintime := fun b => mk_bintime (sec b) (frac b).

Record wf_bintime (b : bintime) : Prop := { wf_sec : sec b in_u 64; wf_frac : frac b in_u 64 }.

Definition bttosbt (bt : bintime) : Z :=
  i64 (u64 (u64 (Z.shiftl (sec bt) 32) + Z.shiftr (frac bt) 32)).

Definition bintime_mul (bt : bintime) (x : Z) : bintime :=
  let p1 := u64 (Z.land (frac bt) 0xffffffff * x) in
  let p2 := u64 (u64 (Z.shiftr (frac bt) 32 * x) + Z.shiftr p1 32) in
  let s := u64 (sec bt * x) in
  {| sec := u64 (s + Z.shiftr p2 32);
     frac := Z.lor (u64 (Z.shiftl p2 32)) (Z.land p1 0xffffffff) |}.

Definition bintime_add (bt bt2 : bintime) : bintime :=
  let u := frac bt in
  let f := u64 (frac bt + frac bt2) in
  let s := if f <? u then u64 (sec bt + 1) else sec bt in
  {| sec := u64 (s + sec bt2); frac := f |}.

Definition bintime_sub (bt bt2 : bintime) : bintime :=
  let u := frac bt in
  let f := u64 (frac bt - frac bt2) in
  let s := if u <? f then u64 (sec bt - 1) else sec bt in
  {| sec := u64 (s - sec bt2); frac := f |}.

(** [bintime_cmp(a, b, <)]. *)
Definition bintime_lt (a b : bintime) : bool :=
  if sec a =? sec b then frac a <? frac b else sec a <? sec b.

(** [FREQ2BT]: the period of a frequency. *)
Definition FREQ2BT (freq : Z) : bintime :=
  {| sec := 0; frac := u64 (Z.shiftl (0x8000000000000000 / freq) 1) |}.

(** ** The conversions of vmm_callout.c *)
Section Mach.
(** [timebase_info.numer], [timebase_info.denom]. *)
Variables numer denom : Z.

Definition nanos_to_abs (nanos : Z) : Z := u64 (nanos * denom) / numer.
Definition abs_to_nanos (abs : Z) : Z := u64 (abs * numer) / denom.

Definition sbt2mat (sbt : Z) : Z :=
  let s := Z.shiftr (u64 sbt) 32 in
  let ns := Z.shiftr (u64 (1000000000 * u32 sbt)) 32 in
  nanos_to_abs (u64 (u64 (s * 1000000000) + ns)).

(** [mat_to_ts]: seconds and nanoseconds. *)
Definition mat_to_ts (mat : Z) : Z * Z :=
  let ns := abs_to_nanos mat in (ns / 1000000000, ns mod 1000000000).

Definition binuptime (mach_absolute_time : Z) : bintime :=
  let ns := abs_to_nanos mach_absolute_time in
  {| sec := ns / 1000000000;
     frac := u64 ((ns mod 1000000000) * (Z.shiftl 1 63 / 500000000)) |}.

Definition sbinuptime (mach_absolute_time : Z) : Z := bttosbt (binuptime mach_absolute_time).

(** [getmicrotime]: [tv_sec] and [tv_usec]. *)
Definition getmicrotime (mach_absolute_time : Z) : Z * Z :=
  let ns := abs_to_nanos mach_absolute_time in
  let sns := ns / 1000000000 in
  (i64 sns, i32 (u64 (ns - sns) / 1000)).
End Mach.

(** ** Theorems *)

(** The number of 2^-64 seconds. *)
Definition bt_val (b : bintime) : Z := sec b * 2 ^ 64 + frac b.

Lemma mod_word x : x mod 2 ^ 64 = x - 2 ^ 64 * (x / 2 ^ 64).
Proof. rewrite Z.mod_eq; [done|by compute]. Qed.

(** A value is determined modulo 2^128 by its two words. *)
Lemma val_mod128 s f k : f in_u 64 ->
  k mod 2 ^ 128 = (s * 2 ^ 64 + f) mod 2 ^ 128 ->
  u64 s * 2 ^ 64 + f = k mod 2 ^ 128.
Proof.
  intros Hf ->. unfold u64.
  change (2 ^ 128) with (2 ^ 64 * 2 ^ 64).
  rewrite Z.rem_mul_r by done. rewrite Z.div_add_l, (Z.div_small f), Z.add_0_r by done.
  assert ((s * 2 ^ 64 + f) mod 2 ^ 64 = f) as ->; [|lia].
  rewrite Z.add_comm, Z.mod_add by done. by apply Z.mod_small.
Qed.

Lemma eq_mod128 a b q : a = b + q * 2 ^ 128 -> a mod 2 ^ 128 = b mod 2 ^ 128.
Proof. intros ->. by apply Z.mod_add. Qed.

(** [bintime_add] is addition modulo 2^128 of the times it represents:
    the carry out of the fraction is detected from the wrapped sum. *)
Theorem bintime_add_val (a b : bintime) :
  wf_bintime a -> wf_bintime b ->
  wf_bintime (bintime_add a b) /\
  bt_val (bintime_add a b) = (bt_val a + bt_val b) mod 2 ^ 128.
Proof.
  intros [Ha1 Ha2] [Hb1 Hb2]. unfold bintime_add, bt_val. cbv zeta. cbn [sec frac].
  split; [constructor; cbn; range|].
  pose proof (u64_in_u (frac a + frac b)) as Hf.
  apply val_mod128; [done|]. set (f := u64 (frac a + frac b)) in *.
  assert (Hc : frac a + frac b = f \/ frac a + frac b = f + 2 ^ 64).
  { unfold f, u64. rewrite mod_word. pose proof (Z.div_mod (frac a + frac b) (2 ^ 64) ltac:(done)).
    pose proof (Z.mod_pos_bound (frac a + frac b) (2 ^ 64) ltac:(done)). nia. }
  destruct (Z.ltb_spec f (frac a)) as [Hlt|Hge].
  - unfold u64. rewrite mod_word. apply eq_mod128 with ((sec a + 1) / 2 ^ 64).
    change (2 ^ 128) with (2 ^ 64 * 2 ^ 64). lia.
  - apply eq_mod128 with 0. lia.
Qed.

Lemma bintime_add_val_witness :
  bt_val (bintime_add (mk_bintime 1 (2 ^ 63)) (mk_bintime 2 (2 ^ 63))) = 4 * 2 ^ 64.
Proof.
  refine (proj2 (bintime_add_val (mk_bintime 1 (2 ^ 63)) (mk_bintime 2 (2 ^ 63)) _ _));
    constructor; cbn; lia.
Defined.

(** [bintime_sub] is subtraction modulo 2^128. *)
Theorem bintime_sub_val (a b : bintime) :
  wf_bintime a -> wf_bintime b ->
  wf_bintime (bintime_sub a b) /\
  bt_val (bintime_sub a b) = (bt_val a - bt_val b) mod 2 ^ 128.
Proof.
  intros [Ha1 Ha2] [Hb1 Hb2]. unfold bintime_sub, bt_val. cbv zeta. cbn [sec frac].
  split; [constructor; cbn; range|].
  pose proof (u64_in_u (frac a - frac b)) as Hf.
  apply val_mod128; [done|]. set (f := u64 (frac a - frac b)) in *.
  assert (Hc : frac a - frac b = f \/ frac a - frac b = f - 2 ^ 64).
  { unfold f, u64. rewrite mod_word. pose proof (Z.div_mod (frac a - frac b) (2 ^ 64) ltac:(done)).
    pose proof (Z.mod_pos_bound (frac a - frac b) (2 ^ 64) ltac:(done)). nia. }
  destruct (Z.ltb_spec (frac a) f) as [Hlt|Hge].
  - unfold u64. rewrite mod_word. apply eq_mod128 with ((sec a - 1) / 2 ^ 64).
    change (2 ^ 128) with (2 ^ 64 * 2 ^ 64). lia.
  - apply eq_mod128 with 0. lia.
Qed.

Lemma bintime_sub_val_witness :
  bt_val (bintime_sub (mk_bintime 1 0) (mk_bintime 0 1)) = 2 ^ 64 - 1.
Proof.
  refine (proj2 (bintime_sub_val (mk_bintime 1 0) (mk_bintime 0 1) _ _)); constructor; cbn; lia.
Defined.

(** *** Multiplication *)

Lemma land_low32 x : Z.land x 0xffffffff = x mod 2 ^ 32.
Proof. change 0xffffffff with (Z.ones 32). by rewrite Z.land_ones by lia. Qed.

Lemma lor_high_low hi lo : lo in_u 32 -> Z.lor (Z.shiftl hi 32) lo = hi * 2 ^ 32 + lo.
Proof.
  intros Hl. rewrite <- (Z.shiftl_mul_pow2 hi 32) by lia.
  assert (D : Z.land (Z.shiftl hi 32) lo = 0).
  { apply Z.bits_inj'. intros i Hi. rewrite Z.land_spec, Z.shiftl_spec, Z.testbit_0_l by lia.
    destruct (Z.lt_ge_cases i 32); [by rewrite Z.testbit_neg_r by lia|].
    rewrite (proj2 (proj1 (in_u_bits 32 lo ltac:(lia)) Hl) i) by lia. apply andb_false_r. }
  rewrite <- Z.lxor_lor by done. symmetry. by apply Z.add_nocarry_lxor.
Qed.

(** [bintime_mul] by a 32-bit factor is multiplication modulo 2^128. *)
Theorem bintime_mul_val (a : bintime) (x : Z) :
  wf_bintime a -> x in_u 32 ->
  wf_bintime (bintime_mul a x) /\ bt_val (bintime_mul a x) = (bt_val a * x) mod 2 ^ 128.
Proof.
  intros [Ha1 Ha2] Hx. unfold bintime_mul, bt_val. cbv zeta. cbn [sec frac].
  rewrite !land_low32, !Z.shiftr_div_pow2 by lia.
  set (lo := frac a mod 2 ^ 32). set (hi := frac a / 2 ^ 32).
  assert (Hlo : lo in_u 32) by (by apply mod_in_u).
  pose proof (Z.div_mod (frac a) (2 ^ 32) ltac:(done)) as Efr. fold lo hi in Efr.
  assert (Hhi : hi in_u 32).
  { split; [apply Z.div_pos; lia|]. apply Z.div_lt_upper_bound; lia. }
  rewrite (u64_id (lo * x)) by nia. rewrite (u64_id (hi * x)) by nia.
  set (p1 := lo * x). pose proof (Z.div_mod p1 (2 ^ 32) ltac:(done)) as Ep1.
  pose proof (Z.mod_pos_bound p1 (2 ^ 32) ltac:(done)) as Bp1.
  assert (Hq1 : 0 <= p1 / 2 ^ 32 < 2 ^ 32).
  { split; [apply Z.div_pos; nia|]. apply Z.div_lt_upper_bound; nia. }
  rewrite (u64_id (hi * x + _)) by nia.
  set (p2 := hi * x + p1 / 2 ^ 32). pose proof (Z.div_mod p2 (2 ^ 32) ltac:(done)) as Ep2.
  pose proof (Z.mod_pos_bound p2 (2 ^ 32) ltac:(done)) as Bp2.
  assert (Hsh : u64 (Z.shiftl p2 32) = Z.shiftl (p2 mod 2 ^ 32) 32).
  { rewrite !Z.shiftl_mul_pow2 by lia. unfold u64. change (2 ^ 64) with (2 ^ 32 * 2 ^ 32).
    by rewrite Z.mul_mod_distr_r by done. }
  rewrite Hsh, lor_high_low by done.
  assert (Hf : p2 mod 2 ^ 32 * 2 ^ 32 + p1 mod 2 ^ 32 in_u 64) by lia.
  split; [constructor; cbn [sec frac]; [apply u64_in_u|done]|].
  apply val_mod128; [done|]. unfold u64. rewrite mod_word.
  apply eq_mod128 with (sec a * x / 2 ^ 64). change (2 ^ 128) with (2 ^ 64 * 2 ^ 64).
  rewrite Efr. unfold p2, p1 in *. nia.
Qed.

Lemma bintime_mul_val_witness :
  bt_val (bintime_mul (mk_bintime 0 (2 ^ 63)) 5) = 5 * 2 ^ 63.
Proof.
  refine (proj2 (bintime_mul_val (mk_bintime 0 (2 ^ 63)) 5 _ _)); [constructor; cbn; lia|lia].
Defined.

Lemma bintime_lt_val a b : wf_bintime a -> wf_bintime b ->
  bintime_lt a b = (bt_val a <? bt_val b).
Proof.
  intros [Ha1 Ha2] [Hb1 Hb2]. unfold bintime_lt, bt_val.
  destruct (Z.eqb_spec (sec a) (sec b)) as [E|E]; apply eq_true_iff_eq; rewrite !Z.ltb_lt; nia.
Qed.

(** *** The clock *)

Definition NS : Z := 1000000000.

(** [binuptime]'s multiplier is the largest that keeps the fraction in a word. *)
Lemma binuptime_frac numer denom t :
  let ns := abs_to_nanos numer denom t in
  frac (binuptime numer denom t) = (ns mod NS) * 18446744073.
Proof.
  cbv zeta. unfold binuptime. cbn [frac].
  change (Z.shiftl 1 63 / 500000000) with 18446744073. apply u64_id.
  pose proof (Z.mod_pos_bound (abs_to_nanos numer denom t) 1000000000 ltac:(done)).
  unfold NS in *. lia.
Qed.

Lemma i64_small x : 0 <= x < 2 ^ 63 -> i64 x = x.
Proof.
  intros Hx. unfold i64, to_signed. change (64 - 1) with 63. cbv zeta.
  rewrite Z.mod_small by lia. destruct (Z.ltb_spec x (2 ^ 63)); lia.
Qed.

(** The signed 32.32 uptime as a function of the nanoseconds. *)
Lemma sbinuptime_eq numer denom t :
  let ns := abs_to_nanos numer denom t in
  0 <= ns < 2 ^ 31 * NS ->
  sbinuptime numer denom t = ns / NS * 2 ^ 32 + (ns mod NS) * 18446744073 / 2 ^ 32.
Proof.
  cbv zeta. intros Hns. unfold sbinuptime, bttosbt. rewrite binuptime_frac.
  unfold binuptime. cbn [sec]. set (ns := abs_to_nanos numer denom t) in *.
  rewrite Z.shiftr_div_pow2, Z.shiftl_mul_pow2 by lia. fold NS.
  assert (0 <= ns / NS < 2 ^ 31).
  { split; [apply Z.div_pos; unfold NS in *; lia|]. apply Z.div_lt_upper_bound; unfold NS in *; lia. }
  pose proof (Z.mod_pos_bound ns NS ltac:(done)) as Hm. unfold NS in Hm.
  assert (0 <= ns mod NS * 18446744073 / 2 ^ 32 < 2 ^ 32).
  { split; [apply Z.div_pos; unfold NS; lia|]. apply Z.div_lt_upper_bound; unfold NS; lia. }
  rewrite (u64_id (_ * _)) by lia. rewrite u64_id by lia. apply i64_small. lia.
Qed.

(** the uptime clock is monotonic: for any Mach time base and any two
    readings of the absolute time that do not overflow the conversion (and
    less than 2^31 seconds after boot), a later reading gives an [sbintime]
    that is not smaller. *)
Theorem sbinuptime_monotone (numer denom t1 t2 : Z) :
  0 < numer -> 0 < denom -> 0 <= t1 <= t2 -> t2 * numer < 2 ^ 64 ->
  abs_to_nanos numer denom t2 < 2 ^ 31 * NS ->
  sbinuptime numer denom t1 <= sbinuptime numer denom t2.
Proof.
  intros Hn Hd Ht Ho Hs.
  assert (Hm : 0 <= abs_to_nanos numer denom t1 <= abs_to_nanos numer denom t2).
  { assert (0 <= t1 * numer <= t2 * numer)
      by (split; [apply Z.mul_nonneg_nonneg|apply Z.mul_le_mono_nonneg_r]; lia).
    unfold abs_to_nanos. rewrite !u64_id by lia.
    split; [apply Z.div_pos; lia|apply Z.div_le_mono; lia]. }
  rewrite !sbinuptime_eq by lia.
  set (n1 := abs_to_nanos numer denom t1) in *. set (n2 := abs_to_nanos numer denom t2) in *.
  pose proof (Z.div_mod n1 NS ltac:(done)) as E1. pose proof (Z.div_mod n2 NS ltac:(done)) as E2.
  pose proof (Z.mod_pos_bound n1 NS ltac:(done)) as B1.
  pose proof (Z.mod_pos_bound n2 NS ltac:(done)) as B2.
  destruct (Z.eq_dec (n1 / NS) (n2 / NS)) as [Eq|Hne].
  - rewrite Eq in *. apply Z.add_le_mono_l, Z.div_le_mono; [done|]. unfold NS in *. lia.
  - assert (n1 / NS < n2 / NS) by (pose proof (Z.div_le_mono n1 n2 NS); unfold NS in *; lia).
    assert (n1 mod NS * 18446744073 / 2 ^ 32 < 2 ^ 32)
      by (apply Z.div_lt_upper_bound; unfold NS in *; lia).
    assert (0 <= n2 mod NS * 18446744073 / 2 ^ 32) by (apply Z.div_pos; unfold NS in *; lia). lia.
Qed.

Lemma sbinuptime_monotone_witness : sbinuptime 125 3 24 <= sbinuptime 125 3 24000000.
Proof. apply (sbinuptime_monotone 125 3 24 24000000); try lia. vm_compute. reflexivity. Defined.

(** converting an uptime back to Mach time loses less than 2 ns: with the
    1:1 time base of Intel machines, a deadline set for the instant a reading
    was taken falls on that instant or one tick before it, never after. *)
Theorem sbt2mat_sbinuptime (t : Z) :
  0 <= t < 2 ^ 31 * NS ->
  t - 1 <= sbt2mat 1 1 (sbinuptime 1 1 t) <= t.
Proof.
  intros Ht.
  assert (Ea : abs_to_nanos 1 1 t = t).
  { unfold abs_to_nanos. rewrite Z.mul_1_r, Z.div_1_r. apply u64_id. unfold NS in *. lia. }
  rewrite sbinuptime_eq, Ea by (by rewrite Ea). unfold sbt2mat, nanos_to_abs.
  pose proof (Z.div_mod t NS ltac:(done)) as E. pose proof (Z.mod_pos_bound t NS ltac:(done)) as B.
  assert (Hq : 0 <= t / NS < 2 ^ 31).
  { split; [apply Z.div_pos; unfold NS in *; lia|]. apply Z.div_lt_upper_bound; unfold NS in *; lia. }
  set (q := t / NS) in *. set (r := t mod NS) in *. clearbody q r. unfold NS in *. subst t.
  set (f := r * 18446744073 / 2 ^ 32).
  pose proof (Z.div_mod (r * 18446744073) (2 ^ 32) ltac:(done)) as Ef. fold f in Ef.
  pose proof (Z.mod_pos_bound (r * 18446744073) (2 ^ 32) ltac:(done)) as Bf.
  assert (Hf : 0 <= f < 2 ^ 32) by lia.
  assert (Hu : u32 (q * 2 ^ 32 + f) = f).
  { unfold u32. rewrite Z.add_comm, Z.mod_add by done. by apply Z.mod_small. }
  assert (Hs : Z.shiftr (u64 (q * 2 ^ 32 + f)) 32 = q).
  { rewrite u64_id by lia. rewrite Z.shiftr_div_pow2, Z.div_add_l by lia.
    rewrite Z.div_small by lia. lia. }
  rewrite Hu, Hs, Z.shiftr_div_pow2, (u64_id (1000000000 * f)) by lia.
  pose proof (Z.div_mod (1000000000 * f) (2 ^ 32) ltac:(done)) as En.
  pose proof (Z.mod_pos_bound (1000000000 * f) (2 ^ 32) ltac:(done)) as Bn.
  set (n := 1000000000 * f / 2 ^ 32) in *. assert (Hn : 0 <= n < 1000000000) by lia.
  rewrite (u64_id (q * _)), (u64_id (_ + n)) by lia. rewrite Z.mul_1_r, Z.div_1_r, u64_id by lia. lia.
Qed.

Lemma sbt2mat_sbinuptime_witness :
  1234567890 - 1 <= sbt2mat 1 1 (sbinuptime 1 1 1234567890) <= 1234567890.
Proof. apply (sbt2mat_sbinuptime 1234567890). unfold NS. lia. Defined.

(** [getmicrotime] subtracts the number of seconds, not the nanoseconds they
    stand for: two seconds after boot it reports 1999999 microseconds next to
    2 seconds, outside the range of a [timeval]. *)
Lemma getmicrotime_out_of_range : getmicrotime 1 1 (2 * NS) = (2, 1999999).
Proof. vm_compute. reflexivity. Qed.
