(* ===== verification/Callout.v ===== *)
(** * The timer queue (src/src/vmm/vmm_callout.c)

    The pending timeouts are a doubly linked list threaded through the
    [struct callout]s that the devices own.  A pointer is a key of [heap];
    every dereference is a lookup, so an operation returns [None] exactly when
    the C code would follow a bad pointer.  [callout_mtx] makes the operations
    atomic.  [repr] says which list of callouts a state represents; the
    theorems are that each operation is safe and implements its list
    counterpart, which keeps the queue sorted by deadline. *)

From Stdlib Require Import Sorted.
From stdpp Require Import gmap.
From S2P Require Import Prelude Interface Bintime.

Record callout : Type := mk_callout {
  c_prev : option Z;
  c_next : option Z;
  c_timeout : Z;
  c_argument : Z;
  c_callout : Z;
  c_flags : Z;
  c_queued : bool;
}.

#[export] Instance eta_callout : Eta callout := fun c =>
  mk_callout (c_prev c) (c_next c) (c_timeout c) (c_argument c) (c_callout c) (c_flags c) (c_queued c).

(** The globals of the file, and the callouts reachable through pointers. *)
Record cstate : Type := mk_cstate {
  heap : gmap Z callout;
  callout_queue : option Z;
  work : bool;
}.

#[export] Instance eta_cstate : Eta cstate := fun s =>
  mk_cstate (heap s) (callout_queue s) (work s).

Definition C_ABSOLUTE : Z := 0x0200.
Definition CALLOUT_ACTIVE : Z := 0x0002.
Definition CALLOUT_PENDING : Z := 0x0004.
Definition CALLOUT_COMPLETED : Z := 0x0020.
Definition CALLOUT_WAITING : Z := 0x0040.

Definition callout_active (c : callout) : bool := tst (c_flags c) CALLOUT_ACTIVE.
Definition callout_pending (c : callout) : bool := tst (c_flags c) CALLOUT_PENDING.
Definition callout_completed (c : callout) : bool := tst (c_flags c) CALLOUT_COMPLETED.
Definition callout_deactivate (c : callout) : callout :=
  c <| c_flags ::= fun f => clr f CALLOUT_ACTIVE |>.

Definition callout_cmp (a b : callout) : bool := c_timeout a <? c_timeout b.

(** [callout_init]: the zeroed structure. *)
Definition callout_init : callout := mk_callout None None 0 0 0 0 false.

(** [p->field = v]: a store through a pointer. *)
Definition modify (p : Z) (f : callout -> callout) (h : gmap Z callout) : option (gmap Z callout) :=
  n ← h !! p; Some (<[p := f n]> h).

(** The loop of [callout_insert], from [node] on; [fuel] bounds the walk. *)
Fixpoint insert_walk (fuel : nat) (c node : Z) (h : gmap Z callout) : option (gmap Z callout) :=
  match fuel with
  | O => None
  | S fuel' =>
      nd ← h !! node;
      match c_next nd with
      | Some nx =>
          cc ← h !! c;
          nn ← h !! nx;
          if callout_cmp cc nn then
            h ← modify c (fun n => n <| c_prev := Some node |>) h;
            h ← modify c (fun n => n <| c_next := Some nx |>) h;
            h ← modify nx (fun n => n <| c_prev := Some c |>) h;
            h ← modify node (fun n => n <| c_next := Some c |>) h;
            modify c (fun n => n <| c_queued := true |>) h
          else insert_walk fuel' c nx h
      | None =>
          h ← modify c (fun n => n <| c_prev := Some node |>) h;
          h ← modify c (fun n => n <| c_next := None |>) h;
          h ← modify node (fun n => n <| c_next := Some c |>) h;
          modify c (fun n => n <| c_queued := true |>) h
      end
  end.

Definition callout_insert (c : Z) (s : cstate) : option cstate :=
  match callout_queue s with
  | None =>
      h ← modify c (fun n => n <| c_prev := None |> <| c_next := None |> <| c_queued := true |>) (heap s);
      Some (s <| heap := h |> <| callout_queue := Some c |>)
  | Some node =>
      cc ← heap s !! c;
      nn ← heap s !! node;
      if callout_cmp cc nn then
        h ← modify node (fun n => n <| c_prev := Some c |>) (heap s);
        h ← modify c (fun n => n <| c_prev := None |> <| c_next := Some node |> <| c_queued := true |>) h;
        Some (s <| heap := h |> <| callout_queue := Some c |>)
      else
        h ← insert_walk (size (heap s)) c node (heap s);
        Some (s <| heap := h |>)
  end.

Definition callout_remove (c : Z) (s : cstate) : option cstate :=
  cc ← heap s !! c;
  if negb (c_queued cc) then Some s
  else
    s ← match c_prev cc with
        | Some p => h ← modify p (fun n => n <| c_next := c_next cc |>) (heap s); Some (s <| heap := h |>)
        | None => Some (s <| callout_queue := c_next cc |>)
        end;
    h ← match c_next cc with
        | Some x => modify x (fun n => n <| c_prev := c_prev cc |>) (heap s)
        | None => Some (heap s)
        end;
    h ← modify c (fun n => n <| c_prev := None |> <| c_next := None |> <| c_queued := false |>) h;
    Some (s <| heap := h |>).

(** The flags [callout_stop_safe_locked] clears at its end. *)
Definition stop_flags : Z :=
  Z.lor (Z.lor CALLOUT_ACTIVE CALLOUT_PENDING) (Z.lor CALLOUT_COMPLETED CALLOUT_WAITING).

(** [callout_stop_safe_locked(c, 0)], and the part of a drain after the wait. *)
Definition callout_stop_locked (c : Z) (s : cstate) : option cstate :=
  s ← callout_remove c s;
  h ← modify c (fun n => n <| c_flags ::= fun f => clr f stop_flags |>) (heap s);
  Some (s <| heap := h |>).

(** [callout_stop_safe_locked]: a drain from another thread ([self] false) of a
    callout that is pending, or running and not completed, waits on its
    condition variable; a second drain of the same callout aborts. *)
Inductive stop_outcome : Type :=
| Stopped (s : cstate)
| Waiting (s : cstate)
| Aborted.

Definition callout_stop_safe_locked (drain self : bool) (c : Z) (s : cstate) : option stop_outcome :=
  cc ← heap s !! c;
  if drain && negb self &&
     (callout_pending cc || (callout_active cc && negb (callout_completed cc))) then
    if tst (c_flags cc) CALLOUT_WAITING then Some Aborted
    else
      h ← modify c (fun n => n <| c_flags ::= fun f => Z.lor f CALLOUT_WAITING |>) (heap s);
      Some (Waiting (s <| heap := h |> <| work := true |>))
  else s ← callout_stop_locked c s; Some (Stopped s).

(** The waiter of a drain, once woken up: it waits again unless the callout
    thread has completed the callout. *)
Definition callout_drain_resume (c : Z) (s : cstate) : option stop_outcome :=
  cc ← heap s !! c;
  if callout_completed cc then
    h ← modify c (fun n => n <| c_flags ::= fun f => clr f CALLOUT_WAITING |>) (heap s);
    s ← callout_stop_locked c (s <| heap := h |>); Some (Stopped s)
  else Some (Waiting s).

(** [callout_reset_sbt]: [mat] is [sbt2mat(sbt)], plus the current time when
    the deadline is relative. *)
Definition callout_reset (c mat ftn arg : Z) (s : cstate) : option cstate :=
  h ← modify c (fun n => n <| c_timeout := mat |>) (heap s);
  s ← callout_stop_locked c (s <| heap := h |>);
  h ← modify c (fun n => n <| c_callout := ftn |> <| c_argument := arg |>
                           <| c_flags ::= fun f => Z.lor f (Z.lor CALLOUT_PENDING CALLOUT_ACTIVE) |>)
        (heap s);
  s ← callout_insert c (s <| heap := h |>);
  Some (if bool_decide (Some c = callout_queue s) then s <| work := true |> else s).

Definition callout_reset_sbt (numer denom : Z) (c sbt ftn arg flags now : Z) (s : cstate)
    : option cstate :=
  let mat := sbt2mat numer denom sbt in
  let mat := if negb (flags =? C_ABSOLUTE) then u64 (mat + now) else mat in
  callout_reset c mat ftn arg s.

(** [callout_thread_func] between two places where it lets go of the mutex: at
    the top of its loop, in the timed wait for the callout [c], and in the
    handler of [c].  It keeps the pointer [c] while others run. *)
Inductive tstate : Type := TIdle | TSleep (c : Z) | TRun (c : Z).

(** What a stretch of it does; [None] is a bad pointer. *)
Inductive tresult : Type := TNext (t : tstate) (s : cstate) | TAbort.

(** After the wait loop: dispatch [c] if the wait timed out and it is queued. *)
Definition thread_dispatch (c : Z) (timedout : bool) (s : cstate) : option tresult :=
  let s := s <| work := false |> in
  if negb timedout then Some (TNext TIdle s)
  else
    cc ← heap s !! c;
    if negb (c_queued cc) then Some (TNext TIdle s)
    else
      h ← modify c (fun n => n <| c_flags ::= fun f => clr f CALLOUT_PENDING |>) (heap s);
      Some (TNext (TRun c) (s <| heap := h |>)).

(** The test of the wait loop; [timedout] is [ret == ETIMEDOUT], [now] the time
    it reads. *)
Definition thread_wait (c : Z) (timedout : bool) (now : Z) (s : cstate) : option tresult :=
  if timedout || work s then thread_dispatch c timedout s
  else
    cc ← heap s !! c;
    if c_timeout cc <=? now then thread_dispatch c true s else Some (TNext (TSleep c) s).

(** From the top of the loop; with an empty queue it waits on. *)
Definition thread_pick (now : Z) (s : cstate) : option tresult :=
  match callout_queue s with
  | None => Some (TNext TIdle s)
  | Some c =>
      cc ← heap s !! c;
      if negb (tst (c_flags cc) (Z.lor CALLOUT_ACTIVE CALLOUT_PENDING)) then Some TAbort
      else thread_wait c false now s
  end.

(** The bookkeeping after the handler has returned. *)
Definition thread_finish (c : Z) (s : cstate) : option cstate :=
  cc ← heap s !! c;
  if c_queued cc then
    if negb (tst (c_flags cc) CALLOUT_PENDING) || tst (c_flags cc) CALLOUT_WAITING then
      h ← modify c (fun n => n <| c_flags ::= fun f => Z.lor f CALLOUT_COMPLETED |>) (heap s);
      callout_remove c (s <| heap := h |>)
    else Some s
  else Some s.

Definition thread_step (t : tstate) (timedout : bool) (now : Z) (s : cstate) : option tresult :=
  match t with
  | TIdle => thread_pick now s
  | TSleep c => thread_wait c timedout now s
  | TRun c => s ← thread_finish c s; Some (TNext TIdle s)
  end.

(** ** The list a state represents *)

(** [dseg h p l q]: the nodes [l] are chained in both directions, the first
    one's [prev] is [p] and the last one's [next] is [q]. *)
Fixpoint dseg (h : gmap Z callout) (p : option Z) (l : list Z) (q : option Z) : Prop :=
  match l with
  | [] => True
  | x :: l' => exists n, h !! x = Some n /\ c_prev n = p /\
      c_next n = (match l' with [] => q | y :: _ => Some y end) /\ c_queued n = true /\
      dseg h (Some x) l' q
  end.

Record repr (s : cstate) (l : list Z) : Prop := {
  repr_seg : dseg (heap s) None l None;
  repr_head : callout_queue s = head l;
  repr_nodup : NoDup l;
  repr_out : forall x n, heap s !! x = Some n -> x ∉ l -> c_queued n = false;
}.

(** What the list operations must not touch. *)
Definition payload (n : callout) : Z * Z * Z * Z :=
  (c_timeout n, c_argument n, c_callout n, c_flags n).

Definition same_payload (h h' : gmap Z callout) : Prop :=
  forall x, payload <$> h' !! x = payload <$> h !! x.

#[export] Instance same_payload_preorder : PreOrder same_payload.
Proof. split; [by intros h x|]. intros h1 h2 h3 H1 H2 x. by rewrite H2, H1. Qed.

(** The deadline of a callout. *)
Definition deadline (h : gmap Z callout) (x : Z) : Z :=
  match h !! x with Some n => c_timeout n | None => 0 end.

Lemma deadline_payload h h' x : same_payload h h' -> deadline h' x = deadline h x.
Proof.
  intros H. specialize (H x). unfold deadline.
  destruct (h !! x), (h' !! x); cbn in H; simplify_eq; congruence.
Qed.

(** The reference: insert after the elements whose deadline is not later. *)
Fixpoint q_insert (t : Z -> Z) (c : Z) (l : list Z) : list Z :=
  match l with
  | [] => [c]
  | x :: l' => if t c <? t x then c :: l else x :: q_insert t c l'
  end.

Lemma elem_of_q_insert t c l x : x ∈ q_insert t c l <-> x = c \/ x ∈ l.
Proof.
  induction l as [|y l IH]; cbn; [by rewrite list_elem_of_singleton, elem_of_nil; tauto|].
  destruct (t c <? t y); rewrite !elem_of_cons, ?IH; tauto.
Qed.

Lemma NoDup_q_insert t c l : c ∉ l -> NoDup l -> NoDup (q_insert t c l).
Proof.
  induction l as [|y l IH]; intros Hc Hn; cbn; [apply NoDup_singleton|].
  apply not_elem_of_cons in Hc as [Hcy Hc]. inversion_clear Hn as [|? ? Hy Hl].
  destruct (t c <? t y); constructor; try (constructor; done).
  - rewrite elem_of_cons. tauto.
  - rewrite elem_of_q_insert. by intros [->|].
  - by apply IH.
Qed.

Definition by_deadline (t : Z -> Z) : list Z -> Prop := Sorted (fun x y => t x <= t y).

Lemma sorted_q_insert t c l : by_deadline t l -> by_deadline t (q_insert t c l).
Proof.
  unfold by_deadline. induction 1 as [|y l Hs IH Hh]; cbn; [repeat constructor|].
  destruct (Z.ltb_spec (t c) (t y)).
  - constructor; [by constructor|]. constructor. lia.
  - constructor; [done|]. destruct Hh as [|z l Hz]; cbn; [by constructor|].
    destruct (t c <? t z); by constructor.
Qed.

Lemma q_insert_ext t t' c l :
  t c = t' c -> (forall x, x ∈ l -> t x = t' x) -> q_insert t c l = q_insert t' c l.
Proof.
  intros Hc. induction l as [|y l IH]; intros H; [done|]. cbn.
  rewrite Hc, (H y) by (by left). destruct (t' c <? t' y); [done|].
  f_equal. apply IH. intros x Hx. apply H. by right.
Qed.

(** *** Segments *)

Lemma dseg_frame h p l q x n : x ∉ l -> dseg h p l q -> dseg (<[x := n]> h) p l q.
Proof.
  revert p. induction l as [|y l IH]; intros p Hx; [done|].
  apply not_elem_of_cons in Hx as [Hxy Hx]. intros (m & Hm & ? & ? & ? & ?).
  exists m. rewrite lookup_insert_ne by done. split_and!; auto.
Qed.

(** The pieces of a segment that is split anywhere. *)
Lemma dseg_app h p l1 l2 q :
  dseg h p (l1 ++ l2) q <->
  dseg h p l1 (match l2 with [] => q | y :: _ => Some y end) /\
  dseg h (match last l1 with Some y => Some y | None => p end) l2 q.
Proof.
  revert p. induction l1 as [|x l1 IH]; intros p; [cbn; tauto|].
  cbn [app dseg]. split.
  - intros (n & Hn & Hp & Hx & Hq & Hs). apply IH in Hs as [H1 H2]. split.
    + exists n. split_and!; try done. by destruct l1.
    + rewrite last_cons. by destruct (last l1).
  - intros [(n & Hn & Hp & Hx & Hq & Hs) H2]. exists n. split_and!; try done.
    + by destruct l1.
    + apply IH. split; [done|]. rewrite last_cons in H2. by destruct (last l1).
Qed.

Lemma dseg_in_heap h p l q x : dseg h p l q -> x ∈ l -> is_Some (h !! x).
Proof.
  revert p. induction l as [|y l IH]; intros p; [by intros _ ?%elem_of_nil|].
  intros (n & Hn & _ & _ & _ & Hs) [->|Hx]%elem_of_cons; eauto.
Qed.

Lemma modify_eq h x n f : h !! x = Some n -> modify x f h = Some (<[x := f n]> h).
Proof. intros H. unfold modify. by rewrite H. Qed.

Lemma same_payload_insert h h' x n n' :
  same_payload h h' -> h' !! x = Some n -> payload n' = payload n -> same_payload h (<[x := n']> h').
Proof.
  intros H Hx Hp y. rewrite <- (H y), lookup_insert. case_decide as E; [|done].
  subst. rewrite Hx. cbn. by f_equal.
Qed.

Ltac heap_step :=
  first
    [ rewrite (modify_eq _ _ _ _ ltac:(eassumption))
    | erewrite modify_eq by (simplify_map_eq; reflexivity) ];
  cbn [mbind option_bind].

Ltac payload_solve :=
  repeat (eapply same_payload_insert; [|simplify_map_eq; reflexivity|reflexivity]); reflexivity.

(** The walk inserts after the prefix that is due no later. *)
Lemma insert_walk_spec fuel h p x l c cc :
  dseg h p (x :: l) None -> NoDup (x :: l) -> c ∉ x :: l -> h !! c = Some cc ->
  (length l < fuel)%nat ->
  exists h', insert_walk fuel c x h = Some h' /\ same_payload h h' /\
    dseg h' p (x :: q_insert (deadline h) c l) None /\
    (forall y, y <> c -> y ∉ x :: l -> h' !! y = h !! y).
Proof.
  revert h p x l. induction fuel as [|fuel IH]; intros h p x l Hs Hn Hc Hcc Hf; [lia|].
  destruct Hs as (n & Hx & Hp & Hnx & Hq & Hs).
  apply not_elem_of_cons in Hc as [Hcx Hc]. inversion_clear Hn as [|? ? Hxl Hl].
  cbn [insert_walk]. rewrite Hx. cbn [mbind option_bind]. rewrite Hnx.
  destruct l as [|y l].
  - repeat heap_step. eexists. split; [reflexivity|]. split_and!; [payload_solve| |].
    + cbn. eexists. simplify_map_eq. split_and!; try done. eexists. by simplify_map_eq.
    + intros z Hz Hz'. apply not_elem_of_cons in Hz' as [? _]. by simplify_map_eq.
  - destruct Hs as (m & Hy & Hpy & Hny & Hqy & Hs).
    apply not_elem_of_cons in Hc as [Hcy Hc]. apply not_elem_of_cons in Hxl as [Hxy Hxl].
    inversion_clear Hl as [|? ? Hyl Hl'].
    rewrite Hcc, Hy. cbn [mbind option_bind].
    assert (E : callout_cmp cc m = (deadline h c <? deadline h y))
      by (unfold callout_cmp, deadline; by rewrite Hcc, Hy).
    cbn [q_insert]. rewrite E. destruct (deadline h c <? deadline h y) eqn:El.
    + repeat heap_step. eexists. split; [reflexivity|]. split_and!; [payload_solve| |].
      * cbn. eexists. simplify_map_eq. split_and!; try done.
        eexists. simplify_map_eq. split_and!; try done.
        eexists. simplify_map_eq. split_and!; try done. repeat apply dseg_frame; done.
      * intros z Hz Hz'. rewrite !not_elem_of_cons in Hz'. destruct Hz' as (? & ? & ?). by simplify_map_eq.
    + destruct (IH h (Some x) y l) as (h' & -> & Hpl & Hd & Hfr); try done.
      * cbn. eauto 10.
      * by constructor.
      * by apply not_elem_of_cons.
      * cbn in Hf. lia.
      * exists h'. split_and!; try done.
        -- exists n. rewrite Hfr; [|done|by apply not_elem_of_cons]. split_and!; done.
        -- intros z Hz Hz'. apply not_elem_of_cons in Hz' as [? ?]. by apply Hfr.
Qed.

(** *** The operations implement the list *)

(** Every queued callout is in the heap, so the queue is no longer than it. *)
Lemma repr_length s l c cc : repr s l -> c ∉ l -> heap s !! c = Some cc ->
  (length l < size (heap s))%nat.
Proof.
  intros [Hs _ Hn _] Hc Hcc.
  assert (Hsub : list_to_set (c :: l) ⊆ dom (heap s)).
  { intros x. rewrite elem_of_list_to_set, elem_of_cons, elem_of_dom.
    intros [->|Hx]; [by eexists|by eapply dseg_in_heap]. }
  apply subseteq_size in Hsub. rewrite size_dom, size_list_to_set in Hsub by (by constructor).
  cbn in Hsub. lia.
Qed.

Lemma insert_refines s l c cc :
  repr s l -> c ∉ l -> heap s !! c = Some cc ->
  exists s', callout_insert c s = Some s' /\ work s' = work s /\
    same_payload (heap s) (heap s') /\ repr s' (q_insert (deadline (heap s)) c l).
Proof.
  intros R Hc Hcc. pose proof (repr_length _ _ _ _ R Hc Hcc) as Hlen.
  destruct R as [Hs Hh Hn Ho]. unfold callout_insert. rewrite Hh. destruct l as [|x l]; cbn [head].
  - heap_step. eexists. split_and!; [reflexivity|done|cbn; payload_solve|].
    constructor; cbn; [|done|apply NoDup_singleton|].
    + eexists. by simplify_map_eq.
    + intros y n Hy Hny. rewrite list_elem_of_singleton in Hny. simplify_map_eq. by eapply Ho, not_elem_of_nil.
  - rewrite Hcc. cbn [mbind option_bind]. pose proof Hs as (n & Hx & Hp & Hnx & Hq & Hs').
    rewrite Hx. cbn [mbind option_bind].
    assert (E : callout_cmp cc n = (deadline (heap s) c <? deadline (heap s) x))
      by (unfold callout_cmp, deadline; by rewrite Hcc, Hx).
    apply not_elem_of_cons in Hc as Hc'. destruct Hc' as [Hcx Hcl]. inversion Hn as [|? ? Hxl Hl]; subst.
    cbn [q_insert]. rewrite E. destruct (deadline (heap s) c <? deadline (heap s) x) eqn:El.
    + repeat heap_step. eexists. split_and!; [reflexivity|done|cbn; payload_solve|].
      constructor; cbn; [|done|by constructor|].
      * eexists. simplify_map_eq. split_and!; try done.
        eexists. simplify_map_eq. split_and!; try done. repeat apply dseg_frame; done.
      * intros y m Hy Hny. rewrite !not_elem_of_cons in Hny. destruct Hny as (? & ? & ?).
        simplify_map_eq. eapply Ho; [done|]. by apply not_elem_of_cons.
    + destruct (insert_walk_spec (size (heap s)) (heap s) None x l c cc) as (h' & -> & Hpl & Hd & Hfr);
        try done; [cbn in Hlen; lia|]. cbn [mbind option_bind].
      eexists. split_and!; [reflexivity|done|done|]. constructor; cbn; [done|done| |].
      * constructor; [rewrite elem_of_q_insert; by intros [->|]|]. by apply NoDup_q_insert.
      * intros y m Hy Hny. rewrite elem_of_cons, elem_of_q_insert in Hny.
        rewrite Hfr in Hy by (rewrite ?elem_of_cons; tauto).
        eapply Ho; [done|]. rewrite elem_of_cons. tauto.
Qed.

(** Changing the [next] of the last node, or the [prev] of the first. *)
Lemma dseg_set_next h p l x q q' n : dseg h p (l ++ [x]) q -> x ∉ l -> h !! x = Some n ->
  dseg (<[x := n <| c_next := q' |>]> h) p (l ++ [x]) q'.
Proof.
  rewrite !dseg_app. intros [H1 (m & Hm & Hp & _ & Hq & _)] Hx Hn. split; [by apply dseg_frame|].
  simplify_eq. eexists. rewrite lookup_insert_eq. by split_and!.
Qed.

Lemma dseg_set_prev h p p' x l q n : dseg h p (x :: l) q -> x ∉ l -> h !! x = Some n ->
  dseg (<[x := n <| c_prev := p' |>]> h) p' (x :: l) q.
Proof.
  intros (m & Hm & _ & Hnx & Hq & Hs) Hx Hn. simplify_eq. eexists. rewrite lookup_insert_eq.
  split_and!; try done. by apply dseg_frame.
Qed.

(** The queue without [c]. *)
Definition q_remove (c : Z) (l : list Z) : list Z := filter (fun x => x <> c) l.

Lemma q_remove_id c l : c ∉ l -> q_remove c l = l.
Proof.
  unfold q_remove. induction l as [|x l IH]; [done|]. intros [Hx Hl]%not_elem_of_cons.
  rewrite filter_cons_True by done. by rewrite IH.
Qed.

Lemma q_remove_split c l1 l2 : c ∉ l1 -> c ∉ l2 -> q_remove c (l1 ++ c :: l2) = l1 ++ l2.
Proof.
  intros H1 H2. unfold q_remove. rewrite filter_app, filter_cons_False by tauto.
  f_equal; by apply q_remove_id.
Qed.

Lemma elem_of_q_remove c l x : x ∈ q_remove c l <-> x ∈ l /\ x <> c.
Proof. unfold q_remove. rewrite list_elem_of_filter. tauto. Qed.

Lemma sorted_q_remove t c l : by_deadline t l -> by_deadline t (q_remove c l).
Proof.
  unfold by_deadline, q_remove. intros H.
  apply Sorted_StronglySorted in H; [|intros x y z; lia].
  apply StronglySorted_Sorted. induction H as [|y l H IH Hy]; [constructor|].
  rewrite filter_cons. case_decide; [|done]. constructor; [done|].
  apply Forall_forall. intros x [_ Hx]%list_elem_of_filter.
  by apply (proj1 (Forall_forall _ _) Hy).
Qed.

Lemma NoDup_middle (l1 l2 : list Z) c : NoDup (l1 ++ c :: l2) ->
  (c ∉ l1) /\ (c ∉ l2) /\ NoDup (l1 ++ l2) /\ (forall x, x ∈ l1 -> x ∉ l2).
Proof.
  intros H. apply NoDup_app in H as (H1 & H2 & H3). inversion_clear H3 as [|? ? Hc Hl].
  split_and!; [|done| |].
  - intros Hin. apply (H2 c Hin). by left.
  - apply NoDup_app. split_and!; [done| |done]. intros x Hx Hx'. apply (H2 x Hx). by right.
  - intros x Hx Hx'. apply (H2 x Hx). by right.
Qed.

(** Unlinking the node [c] between [l1] and [l2]. *)
Lemma remove_unlink s l1 c l2 :
  repr s (l1 ++ c :: l2) ->
  exists s', callout_remove c s = Some s' /\ work s' = work s /\
    same_payload (heap s) (heap s') /\ repr s' (l1 ++ l2).
Proof.
  intros [Hs Hh Hn Ho]. destruct (NoDup_middle _ _ _ Hn) as (Hc1 & Hc2 & Hn' & Hdis).
  apply dseg_app in Hs as [D1 (cc & Hcc & Hp & Hx & Hq & D3)].
  unfold callout_remove. rewrite Hcc. cbn [mbind option_bind]. rewrite Hq, Hp, Hx. cbn [negb].
  assert (Hout : forall h' : gmap Z callout, (forall y, y ∉ l1 ++ c :: l2 -> h' !! y = heap s !! y) ->
    (forall n, h' !! c = Some n -> c_queued n = false) ->
    forall y n, h' !! y = Some n -> y ∉ l1 ++ l2 -> c_queued n = false).
  { intros h' Hf Hcq y n Hy Hny. destruct (decide (y = c)) as [->|Hne]; [eauto|].
    assert (Hny' : y ∉ l1 ++ c :: l2) by (rewrite elem_of_app, elem_of_cons in *; tauto).
    rewrite Hf in Hy by done. eauto. }
  destruct l1 as [|p l1 _] using rev_ind; [|clear Hp].
  - cbn in *. destruct l2 as [|x l2]; cbn.
    + heap_step. eexists. split_and!; [reflexivity|done|cbn; payload_solve|].
      constructor; cbn; [done|done|constructor|].
      apply Hout; [|intros n ?; by simplify_map_eq].
      intros y Hy. rewrite elem_of_cons in Hy. by rewrite lookup_insert_ne by (intros ->; apply Hy; auto 8).
    + pose proof D3 as (n & Hxn & _). apply not_elem_of_cons in Hc2 as [Hcx Hc2].
      inversion_clear Hn' as [|? ? Hxl Hl].
      repeat heap_step. eexists. split_and!; [reflexivity|done|cbn; payload_solve|].
      constructor; cbn [heap callout_queue upd]; [|done|by constructor|].
      * apply dseg_frame; [by apply not_elem_of_cons|]. by eapply dseg_set_prev.
      * apply Hout; [|intros m ?; by simplify_map_eq].
        intros y Hy. rewrite !elem_of_cons in Hy. by rewrite !lookup_insert_ne by (intros ->; apply Hy; auto 8).
  - rewrite last_snoc. cbn [mbind option_bind].
    pose proof D1 as D1'. apply dseg_app in D1' as [_ (np & Hnp & _)].
    apply not_elem_of_app in Hc1 as [Hc1 Hcp]. rewrite list_elem_of_singleton in Hcp.
    assert (Hpl : p ∉ l1).
    { apply NoDup_app in Hn' as [[_ [H _]]%NoDup_app _]. intros Hin. by apply (H p Hin), list_elem_of_singleton. }
    assert (Hp2 : p ∉ l2) by (apply Hdis; rewrite elem_of_app, list_elem_of_singleton; by right).
    rewrite (modify_eq _ _ _ _ Hnp). cbn [mbind option_bind heap upd]. destruct l2 as [|x l2].
    + cbn. heap_step. eexists. split_and!; [reflexivity|done|cbn; payload_solve|].
      rewrite app_nil_r in *. constructor; cbn [heap callout_queue upd]; [|by destruct l1|done|].
      * apply dseg_frame; [rewrite elem_of_app, list_elem_of_singleton; tauto|]. by eapply dseg_set_next.
      * apply Hout; [|intros m ?; by simplify_map_eq].
        intros y Hy. rewrite !elem_of_app, !elem_of_cons in Hy. by rewrite !lookup_insert_ne by (intros ->; apply Hy; auto 8).
    + pose proof D3 as (n & Hxn & _). apply not_elem_of_cons in Hc2 as [Hcx Hc2].
      apply not_elem_of_cons in Hp2 as [Hpx Hp2].
      assert (Hx1 : x ∉ l1 ++ [p]) by (intros Hin; by apply (Hdis x Hin); left).
      assert (Hxl : x ∉ l2) by (apply NoDup_app in Hn' as (_ & _ & Hd); by inversion Hd).
      cbn. repeat heap_step. eexists. split_and!; [reflexivity|done|cbn; payload_solve|].
      constructor; cbn [heap callout_queue upd]; [|by destruct l1|done|].
      * apply dseg_app. rewrite last_snoc. split.
        -- do 2 (apply dseg_frame; [rewrite ?elem_of_app, ?list_elem_of_singleton in *; tauto|]).
           by eapply dseg_set_next.
        -- apply dseg_frame; [by apply not_elem_of_cons|].
           rewrite insert_insert_ne by done. apply dseg_frame; [by apply not_elem_of_cons|].
           by eapply dseg_set_prev.
      * apply Hout; [|intros m ?; by simplify_map_eq].
        intros y Hy. rewrite !elem_of_app, !elem_of_cons in Hy. by rewrite !lookup_insert_ne by (intros ->; apply Hy; auto 8).
Qed.

Lemma remove_refines s l c cc :
  repr s l -> heap s !! c = Some cc ->
  exists s', callout_remove c s = Some s' /\ work s' = work s /\
    same_payload (heap s) (heap s') /\ repr s' (q_remove c l).
Proof.
  intros R Hcc. destruct (decide (c ∈ l)) as [Hin|Hout].
  - apply list_elem_of_split in Hin as (l1 & l2 & ->).
    pose proof (repr_nodup _ _ R) as Hn. destruct (NoDup_middle _ _ _ Hn) as (H1 & H2 & _).
    rewrite q_remove_split by done. by apply remove_unlink.
  - rewrite q_remove_id by done. exists s. unfold callout_remove. rewrite Hcc. cbn [mbind option_bind].
    rewrite (repr_out _ _ R _ _ Hcc Hout). done.
Qed.

(** The operations that only touch the payload of one callout. *)
Lemma repr_payload s l c n n' : repr s l -> heap s !! c = Some n ->
  c_prev n' = c_prev n -> c_next n' = c_next n -> c_queued n' = c_queued n ->
  repr (s <| heap ::= <[c := n']> |>) l.
Proof.
  intros [Hs Hh Hn Ho] Hc H1 H2 H3. constructor; cbn; [|done|done|].
  - clear - Hs Hc H1 H2 H3. revert Hs. generalize (None : option Z) at 1 3 as p.
    induction l as [|x l IH]; intros p; [done|]. intros (m & Hm & ? & ? & ? & ?).
    cbn. rewrite lookup_insert. case_decide as E.
    + subst. simplify_eq. exists n'. rewrite H1, H2, H3. split_and!; auto.
    + exists m. split_and!; auto.
  - intros x m. rewrite lookup_insert. case_decide as E; [|apply Ho].
    intros [= <-] Hx. subst. rewrite H3. by eapply Ho.
Qed.

(** *** The public operations *)

(** The queue invariant: the state represents a list in deadline order. *)
Definition queue_inv (s : cstate) (l : list Z) : Prop :=
  repr s l /\ by_deadline (deadline (heap s)) l.

Lemma by_deadline_ext t t' l :
  (forall x, x ∈ l -> t x = t' x) -> by_deadline t l -> by_deadline t' l.
Proof.
  intros Hx H. unfold by_deadline in *. induction H as [|y l Hs IH Hh]; [constructor|].
  constructor; [apply IH; intros; apply Hx; by right|].
  destruct Hh as [|z l Hz]; constructor.
  rewrite <- !Hx; [done|right; by left|by left].
Qed.

Lemma same_payload_flags h h' x n n' : same_payload h h' -> h !! x = Some n -> h' !! x = Some n' ->
  payload n' = payload n.
Proof. intros H Hn Hn'. specialize (H x). rewrite Hn, Hn' in H. cbn in H. congruence. Qed.

Lemma same_payload_some h h' x n : same_payload h h' -> h !! x = Some n ->
  exists n', h' !! x = Some n' /\ payload n' = payload n.
Proof.
  intros H Hn. pose proof (H x) as E. rewrite Hn in E. destruct (h' !! x) as [n'|]; [|done].
  exists n'. cbn in E. split; congruence.
Qed.

(** [callout_stop_safe_locked] without a drain. *)
Lemma stop_refines s l c cc :
  repr s l -> heap s !! c = Some cc ->
  exists s' cc', callout_stop_locked c s = Some s' /\ repr s' (q_remove c l) /\
    heap s' !! c = Some cc' /\
    payload cc' = (c_timeout cc, c_argument cc, c_callout cc, clr (c_flags cc) stop_flags) /\
    (forall x, x <> c -> payload <$> heap s' !! x = payload <$> heap s !! x).
Proof.
  intros R Hcc. unfold callout_stop_locked.
  destruct (remove_refines s l c cc R Hcc) as (s1 & -> & _ & Hp & R1). cbn [mbind option_bind].
  destruct (same_payload_some _ _ _ _ Hp Hcc) as (n1 & Hn1 & Hpl).
  rewrite (modify_eq _ _ _ _ Hn1). cbn [mbind option_bind]. eexists _, _. split; [reflexivity|].
  split; [|split; [|split]].
  - eapply (repr_payload s1 _ c n1); done.
  - cbn. apply lookup_insert_eq.
  - unfold payload in *. cbn. congruence.
  - intros x Hx. cbn. by rewrite lookup_insert_ne, Hp.
Qed.

Lemma reset_refines s l c cc mat ftn arg :
  repr s l -> heap s !! c = Some cc ->
  let t' := fun x => if decide (x = c) then mat else deadline (heap s) x in
  exists s' cc', callout_reset c mat ftn arg s = Some s' /\
    repr s' (q_insert t' c (q_remove c l)) /\
    heap s' !! c = Some cc' /\
    payload cc' = (mat, arg, ftn,
      Z.lor (clr (c_flags cc) stop_flags) (Z.lor CALLOUT_PENDING CALLOUT_ACTIVE)) /\
    (forall x, x <> c -> payload <$> heap s' !! x = payload <$> heap s !! x) /\
    (head (q_insert t' c (q_remove c l)) = Some c -> work s' = true).
Proof.
  intros R Hcc t'. unfold callout_reset. rewrite (modify_eq _ _ _ _ Hcc). cbn [mbind option_bind].
  set (s0 := s <| heap := _ |>).
  assert (R0 : repr s0 l) by (by eapply (repr_payload s l c cc)).
  assert (H0 : heap s0 !! c = Some (cc <| c_timeout := mat |>)) by apply lookup_insert_eq.
  destruct (stop_refines s0 l c _ R0 H0) as (s1 & n1 & -> & R1 & Hn1 & Hp1 & Ho1).
  cbn [mbind option_bind]. rewrite (modify_eq _ _ _ _ Hn1). cbn [mbind option_bind].
  set (n2 := n1 <| c_callout := ftn |> <| c_argument := arg |> <| c_flags ::= _ |>).
  set (s2 := s1 <| heap := <[c := n2]> (heap s1) |>).
  assert (R2 : repr s2 (q_remove c l)) by (by eapply (repr_payload s1 _ c n1)).
  assert (H2 : heap s2 !! c = Some n2) by apply lookup_insert_eq.
  destruct (insert_refines s2 _ c _ R2 ltac:(rewrite elem_of_q_remove; tauto) H2)
    as (s3 & -> & _ & Hp3 & R3). cbn [mbind option_bind].
  assert (Et : q_insert (deadline (heap s2)) c (q_remove c l) = q_insert t' c (q_remove c l)).
  { apply q_insert_ext; unfold t', deadline.
    - rewrite H2, decide_True by done. unfold n2. cbn. unfold payload in Hp1. cbn in Hp1. congruence.
    - intros x [_ Hx]%elem_of_q_remove. rewrite decide_False by done. cbn.
      rewrite lookup_insert_ne by done. specialize (Ho1 x Hx). cbn in Ho1.
      rewrite lookup_insert_ne in Ho1 by done.
      destruct (heap s1 !! x), (heap s !! x); cbn in Ho1; simplify_eq; unfold payload in *; congruence. }
  rewrite Et in R3. destruct (same_payload_some _ _ _ _ Hp3 H2) as (n3 & Hn3 & Hpl3).
  pose proof (repr_head _ _ R3) as Hh.
  assert (Ho : forall x, x <> c -> payload <$> heap s3 !! x = payload <$> heap s !! x).
  { intros x Hx. rewrite Hp3. cbn. rewrite lookup_insert_ne, Ho1 by done. cbn. by rewrite lookup_insert_ne. }
  assert (Hpay : payload n3 = (mat, arg, ftn,
      Z.lor (clr (c_flags cc) stop_flags) (Z.lor CALLOUT_PENDING CALLOUT_ACTIVE))).
  { rewrite Hpl3. unfold payload in *. cbn in *. congruence. }
  eexists _, n3. split; [reflexivity|]. case_bool_decide as Ehd.
  - split_and!; try done. destruct R3. by constructor.
  - split_and!; try done. intros E. by rewrite <- Hh in E.
Qed.

(** C16: (re)arming a callout never follows a bad pointer and implements the
    list specification: whatever the state of the callout before, afterwards it
    is in the queue exactly once, after the callouts that are due no later and
    before the later ones, pending and active with the new deadline and
    handler; the others keep their data, and the queue is in deadline order. *)
Theorem callout_reset_sorted (numer denom c sbt ftn arg flags now : Z) (s : cstate) (l : list Z)
    (cc : callout) :
  queue_inv s l -> heap s !! c = Some cc ->
  exists s' cc', callout_reset_sbt numer denom c sbt ftn arg flags now s = Some s' /\
    let t' := deadline (heap s') in
    queue_inv s' (q_insert t' c (q_remove c l)) /\
    t' c = (if negb (flags =? C_ABSOLUTE) then u64 (sbt2mat numer denom sbt + now)
            else sbt2mat numer denom sbt) /\
    heap s' !! c = Some cc' /\ c_callout cc' = ftn /\ c_argument cc' = arg /\
    callout_pending cc' = true /\ callout_active cc' = true /\
    (forall x, x <> c -> payload <$> heap s' !! x = payload <$> heap s !! x).
Proof.
  intros [R Hs] Hcc. unfold callout_reset_sbt. cbv zeta.
  set (mat := if negb (flags =? C_ABSOLUTE) then _ else _).
  destruct (reset_refines s l c cc mat ftn arg R Hcc) as (s' & cc' & -> & R' & Hcc' & Hp & Ho & _).
  exists s', cc'. split; [reflexivity|].
  set (t' := fun x => if decide (x = c) then mat else deadline (heap s) x) in *.
  assert (Ht : forall x, t' x = deadline (heap s') x).
  { intros x. unfold t', deadline. case_decide as E.
    - subst. rewrite Hcc'. unfold payload in Hp. congruence.
    - specialize (Ho x E). destruct (heap s' !! x), (heap s !! x); cbn in Ho; simplify_eq;
        unfold payload in *; congruence. }
  rewrite <- (q_insert_ext t' (deadline (heap s')) c (q_remove c l)) by auto.
  assert (Hc : deadline (heap s') c = mat) by (rewrite <- (Ht c); unfold t'; by rewrite decide_True).
  assert (Hfl : c_flags cc' = Z.lor (clr (c_flags cc) stop_flags) (Z.lor CALLOUT_PENDING CALLOUT_ACTIVE))
    by (unfold payload in Hp; congruence).
  assert (Hb : Z.testbit (c_flags cc') 1 = true /\ Z.testbit (c_flags cc') 2 = true).
  { rewrite Hfl, !Z.lor_spec. split; by rewrite orb_true_r. }
  split_and!; try done; try (unfold payload in Hp; congruence).
  - split; [done|]. apply (by_deadline_ext t'); [auto|].
    apply sorted_q_insert. apply (by_deadline_ext (deadline (heap s))); [|by apply sorted_q_remove].
    intros x [_ Hx]%elem_of_q_remove. unfold t'. by rewrite decide_False.
  - unfold callout_pending. change CALLOUT_PENDING with (bit 2). rewrite tst_bit by lia. tauto.
  - unfold callout_active. change CALLOUT_ACTIVE with (bit 1). rewrite tst_bit by lia. tauto.
Qed.

(** A queue with callout 1 due at 100 and callout 2 due at 300; 3 is idle. *)
Definition queue_example : cstate :=
  mk_cstate
    (<[1 := mk_callout None (Some 2) 100 0 0 6 true]>
      (<[2 := mk_callout (Some 1) None 300 0 0 6 true]> (<[3 := callout_init]> ∅)))
    (Some 1) false.

Lemma queue_example_inv : queue_inv queue_example [1; 2].
Proof.
  split.
  - constructor; cbn.
    + eexists. split; [reflexivity|]. cbn. split_and!; try done. eexists. by split.
    + done.
    + repeat constructor; rewrite ?elem_of_cons, ?elem_of_nil; lia.
    + intros x n Hx Hn. rewrite !elem_of_cons in Hn.
      apply lookup_insert_Some in Hx as [[<- _]|[_ Hx]]; [tauto|].
      apply lookup_insert_Some in Hx as [[<- _]|[_ Hx]]; [tauto|].
      apply lookup_insert_Some in Hx as [[<- <-]|[_ Hx]]; [done|by rewrite lookup_empty in Hx].
  - repeat constructor. vm_compute. discriminate.
Qed.

Lemma callout_reset_sorted_witness :
  exists s' cc', callout_reset_sbt 1 1 3 0 7 8 0 200 queue_example = Some s' /\
    let t' := deadline (heap s') in
    queue_inv s' (q_insert t' 3 (q_remove 3 [1; 2])) /\
    t' 3 = (if negb (0 =? C_ABSOLUTE) then u64 (sbt2mat 1 1 0 + 200) else sbt2mat 1 1 0) /\
    heap s' !! 3 = Some cc' /\ c_callout cc' = 7 /\ c_argument cc' = 8 /\
    callout_pending cc' = true /\ callout_active cc' = true /\
    (forall x, x <> 3 -> payload <$> heap s' !! x = payload <$> heap queue_example !! x).
Proof.
  apply (callout_reset_sorted 1 1 3 0 7 8 0 200 queue_example [1; 2] callout_init queue_example_inv).
  reflexivity.
Defined.

(** *** The callout thread *)

(** Any thread may register a callout, arm, stop or drain one, or clear its
    active flag. *)
Inductive cstep : cstate -> cstate -> Prop :=
| cstep_init c s : heap s !! c = None -> cstep s (s <| heap ::= <[c := callout_init]> |>)
| cstep_reset c mat ftn arg s s' : callout_reset c mat ftn arg s = Some s' -> cstep s s'
| cstep_stop drain self c s s' : callout_stop_safe_locked drain self c s = Some (Stopped s') -> cstep s s'
| cstep_wait drain self c s s' : callout_stop_safe_locked drain self c s = Some (Waiting s') -> cstep s s'
| cstep_resume c s s' : callout_drain_resume c s = Some (Stopped s') -> cstep s s'
| cstep_deactivate c s h : modify c callout_deactivate (heap s) = Some h -> cstep s (s <| heap := h |>).

(** All threads: the callout thread goes on whenever it holds the mutex, its
    wait ending as it may. *)
Inductive tstep : tstate * cstate -> tstate * cstate -> Prop :=
| tstep_other t s s' : cstep s s' -> tstep (t, s) (t, s')
| tstep_thread timedout now t t' s s' : thread_step t timedout now s = Some (TNext t' s') -> tstep (t, s) (t', s').

Definition good (s : cstate) : Prop := exists l, queue_inv s l.

Lemma good_payload s l c n n' : queue_inv s l -> heap s !! c = Some n ->
  c_prev n' = c_prev n -> c_next n' = c_next n -> c_queued n' = c_queued n ->
  c_timeout n' = c_timeout n -> queue_inv (s <| heap ::= <[c := n']> |>) l.
Proof.
  intros [R Hs] Hc ? ? ? Ht. split; [by eapply repr_payload|].
  apply (by_deadline_ext (deadline (heap s))); [|done]. intros x _. unfold deadline. cbn.
  rewrite lookup_insert. case_decide as E; [|done]. subst. by rewrite Hc, Ht.
Qed.

Lemma good_reset c mat ftn arg s s' : good s -> callout_reset c mat ftn arg s = Some s' -> good s'.
Proof.
  intros [l [R Hs]] H. assert (Hcc : is_Some (heap s !! c)).
  { unfold callout_reset, modify in H. destruct (heap s !! c); [by eexists|done]. }
  destruct Hcc as [cc Hcc].
  destruct (reset_refines s l c cc mat ftn arg R Hcc) as (s1 & cc' & E & R' & Hcc' & Hp & Ho & _).
  rewrite E in H. injection H as <-. eexists. split; [exact R'|].
  eapply by_deadline_ext, sorted_q_insert; [|apply (by_deadline_ext (deadline (heap s))); [|by apply sorted_q_remove with (c := c)]].
  - intros x _. cbn beta. case_decide as Ex; unfold deadline.
    + subst. rewrite Hcc'. unfold payload in Hp. congruence.
    + specialize (Ho x Ex). destruct (heap s1 !! x), (heap s !! x); cbn in Ho; simplify_eq;
        unfold payload in *; congruence.
  - intros x [_ Hx]%elem_of_q_remove. by rewrite decide_False.
Qed.

Lemma good_remove c s s' : good s -> callout_remove c s = Some s' -> good s'.
Proof.
  intros [l [R Hs]] H. assert (Hcc : is_Some (heap s !! c)).
  { unfold callout_remove in H. destruct (heap s !! c); [by eexists|done]. }
  destruct Hcc as [cc Hcc]. destruct (remove_refines s l c cc R Hcc) as (s1 & E & _ & Hp & R').
  rewrite E in H. injection H as <-. eexists. split; [exact R'|].
  apply (by_deadline_ext (deadline (heap s))); [|by apply sorted_q_remove].
  intros x _. symmetry. by apply deadline_payload.
Qed.

Lemma good_modify c f s h : good s -> modify c f (heap s) = Some h ->
  (forall n, c_prev (f n) = c_prev n /\ c_next (f n) = c_next n /\ c_queued (f n) = c_queued n /\
             c_timeout (f n) = c_timeout n) ->
  good (s <| heap := h |>).
Proof.
  intros [l H] Hm Hf. unfold modify in Hm. destruct (heap s !! c) as [n|] eqn:Hn; [|done].
  injection Hm as <-. exists l. destruct (Hf n) as (? & ? & ? & ?). by eapply (good_payload s l c n).
Qed.

Lemma good_stop c s s' : good s -> callout_stop_locked c s = Some s' -> good s'.
Proof.
  intros G H. unfold callout_stop_locked in H. destruct (callout_remove c s) as [s1|] eqn:E; [|done].
  apply good_remove in E; [|done]. cbn in H.
  destruct (modify _ _ _) as [h|] eqn:Em; [|done]. injection H as <-. by eapply good_modify.
Qed.

Lemma good_work b s : good s -> good (s <| work := b |>).
Proof. intros [l [[? ? ? ?] ?]]. exists l. split; [by constructor|done]. Qed.

Lemma good_stop_safe drain self c s o : good s -> callout_stop_safe_locked drain self c s = Some o ->
  match o with Stopped s' | Waiting s' => good s' | Aborted => True end.
Proof.
  intros G H. unfold callout_stop_safe_locked in H. destruct (heap s !! c) as [n|]; [|done]. cbn in H.
  destruct (_ && _); [destruct (tst _ _); [by simplify_eq|]|].
  - destruct (modify _ _ _) as [h|] eqn:Em; [|done]. cbn in H. simplify_eq.
    by eapply good_work, good_modify.
  - destruct (callout_stop_locked c s) eqn:E; [|done]. cbn in H. simplify_eq. by eapply good_stop.
Qed.

Lemma good_step s s' : cstep s s' -> good s -> good s'.
Proof.
  destruct 1 as [c s Hn|c mat ftn arg s s' H|drain self c s s' H|drain self c s s' H|c s s' H|c s h H]; intros G.
  - destruct G as [l [[Hs Hh Hd Ho] Hso]]. exists l.
    assert (Hc : c ∉ l) by (intros Hin; destruct (dseg_in_heap _ _ _ _ _ Hs Hin); congruence).
    split; [constructor; cbn; [by apply dseg_frame|done..|]|].
    + intros x n. rewrite lookup_insert. case_decide; [|apply Ho]. intros [= <-] _. done.
    + apply (by_deadline_ext (deadline (heap s))); [|done]. intros x Hx. unfold deadline. cbn.
      rewrite lookup_insert_ne by (intros ->; done). done.
  - by eapply good_reset.
  - by apply (good_stop_safe _ _ _ _ _ G) in H.
  - by apply (good_stop_safe _ _ _ _ _ G) in H.
  - unfold callout_drain_resume in H. destruct (heap s !! c) as [n|]; [|done]. cbn in H.
    destruct (callout_completed n); [|done].
    destruct (modify _ _ _) as [h|] eqn:Em; [|done]. cbn in H.
    destruct (callout_stop_locked c _) as [s1|] eqn:E; [|done]. cbn in H. simplify_eq.
    eapply good_stop, E. by eapply good_modify.
  - by eapply good_modify.
Qed.

(** *** What the thread relies on

    A queued callout waits for its deadline, unless its handler is running. *)
Definition pending_ok (t : tstate) (s : cstate) : Prop :=
  forall x n, heap s !! x = Some n -> c_queued n = true -> callout_pending n = true \/ t = TRun x.

(** The pointer the thread holds. *)
Definition holds (t : tstate) (s : cstate) : Prop :=
  match t with TIdle => True | TSleep c | TRun c => is_Some (heap s !! c) end.

Lemma pending_frame t c s s' l :
  (forall x n, x <> c -> heap s !! x = Some n -> c_queued n = true -> callout_pending n = true \/ t = TRun x) -> repr s' l -> (forall x, x ∈ l -> x <> c -> exists n, heap s !! x = Some n /\ c_queued n = true) ->
  (forall x, x <> c -> payload <$> heap s' !! x = payload <$> heap s !! x) ->
  (forall n, heap s' !! c = Some n -> c_queued n = true -> callout_pending n = true \/ t = TRun c) -> pending_ok t s'.
Proof.
  intros Hp R Hl Ho Hc x n Hx Hq. destruct (decide (x = c)) as [->|Hne]; [by apply Hc|].
  assert (Hin : x ∈ l) by (destruct (decide (x ∈ l)) as [|Hout]; [done|]; rewrite (repr_out _ _ R x n Hx Hout) in Hq; done).
  destruct (Hl x Hin Hne) as (m & Hm & Hmq). specialize (Ho x Hne). rewrite Hx, Hm in Ho. cbn in Ho.
  destruct (Hp x m Hne Hm Hmq) as [Hpm|]; [left|by right]. unfold callout_pending, payload in *. by injection Ho as _ _ _ ->.
Qed.

Lemma queued_in s l x : repr s l -> x ∈ l -> exists n, heap s !! x = Some n /\ c_queued n = true.
Proof.
  intros R Hin. pose proof (repr_seg _ _ R) as Hs. revert Hin Hs. generalize (None : option Z) at 1. clear R.
  induction l as [|y l IH]; intros p Hin Hs; [by apply elem_of_nil in Hin|]. destruct Hs as (n & Hn & _ & _ & Hq & Hs).
  apply elem_of_cons in Hin as [->|Hin]; [by exists n|]. by apply (IH (Some y)).
Qed.

Lemma stop_clear s l c cc s' : repr s l -> heap s !! c = Some cc -> callout_stop_locked c s = Some s' ->
  forall t, pending_ok t s -> pending_ok t s' /\ forall x, is_Some (heap s !! x) -> is_Some (heap s' !! x).
Proof.
  intros R Hc E t Hp. destruct (stop_refines s l c cc R Hc) as (s1 & cc' & E' & R' & Hcc' & _ & Ho). rewrite E in E'. injection E' as <-.
  split.
  - apply (pending_frame t c s s' _ (fun x n _ => Hp x n) R'); [|done|].
    + intros x [Hx _]%elem_of_q_remove _. by apply (queued_in s l).
    + intros n Hn Hq. exfalso. assert (Hout : c ∉ q_remove c l) by (rewrite elem_of_q_remove; tauto).
      by rewrite (repr_out _ _ R' c n Hn Hout) in Hq.
  - intros x [n Hn]. destruct (decide (x = c)) as [->|Hne]; [by eexists|]. specialize (Ho x Hne). rewrite Hn in Ho.
    destruct (heap s' !! x); [by eexists|done].
Qed.

Lemma pending_modify t c f s h : pending_ok t s -> modify c f (heap s) = Some h ->
  (forall n, c_queued (f n) = c_queued n /\ callout_pending (f n) = callout_pending n) ->
  pending_ok t (s <| heap := h |>) /\ forall x, is_Some (heap s !! x) -> is_Some (h !! x).
Proof.
  intros Hp Hm Hf. unfold modify in Hm. destruct (heap s !! c) as [m|] eqn:Hc; [|done]. injection Hm as <-. split.
  - intros x n. cbn. rewrite lookup_insert. case_decide as E; [|apply Hp]. subst x. intros [= <-] Hq.
    destruct (Hf m) as [E1 E2]. rewrite E2. rewrite E1 in Hq. by apply (Hp c m).
  - intros x Hx. rewrite lookup_insert. case_decide; [by eexists|done].
Qed.

Lemma flag_waiting f : tst (Z.lor f CALLOUT_WAITING) CALLOUT_PENDING = tst f CALLOUT_PENDING /\
  tst (clr f CALLOUT_WAITING) CALLOUT_PENDING = tst f CALLOUT_PENDING /\ tst (Z.lor f CALLOUT_COMPLETED) CALLOUT_PENDING = tst f CALLOUT_PENDING.
Proof.
  change CALLOUT_WAITING with (bit 6). change CALLOUT_PENDING with (bit 2). change CALLOUT_COMPLETED with (bit 5).
  rewrite !tst_bit, !clr_testbit, !Z.lor_spec, !bit_testbit by lia. cbn. by rewrite !orb_false_r, andb_true_r.
Qed.

Lemma tst_clr_active f : tst (clr f CALLOUT_ACTIVE) CALLOUT_ACTIVE = false /\
  tst (clr f CALLOUT_ACTIVE) CALLOUT_PENDING = tst f CALLOUT_PENDING.
Proof.
  change CALLOUT_ACTIVE with (bit 1). change CALLOUT_PENDING with (bit 2).
  rewrite !tst_bit, !clr_testbit, !bit_testbit by lia. cbn.
  by rewrite andb_false_r, andb_true_r.
Qed.

(** The operations of the other threads keep this. *)
Lemma pending_step t s s' : cstep s s' -> good s -> pending_ok t s ->
  pending_ok t s' /\ forall x, is_Some (heap s !! x) -> is_Some (heap s' !! x).
Proof.
  destruct 1 as [c s Hn|c mat ftn arg s s' H|drain self c s s' H|drain self c s s' H|c s s' H|c s h H]; intros [l [R _]] Hp.
  - split.
    + intros x n. cbn. rewrite lookup_insert. case_decide; [by intros [= <-]|apply Hp].
    + intros x Hx. cbn. rewrite lookup_insert. case_decide; [by eexists|done].
  - assert (Hcc : is_Some (heap s !! c)) by (unfold callout_reset, modify in H; destruct (heap s !! c); [by eexists|done]).
    destruct Hcc as [cc Hcc]. destruct (reset_refines s l c cc mat ftn arg R Hcc) as (s1 & cc' & E & R' & Hcc' & Hpay & Ho & _).
    rewrite E in H. injection H as <-. split.
    + apply (pending_frame t c s s1 _ (fun x n _ => Hp x n) R'); [|done|].
      * intros x [->|[Hx _]%elem_of_q_remove]%elem_of_q_insert Hne; [done|]. by apply (queued_in s l).
      * intros n Hn _. left. rewrite Hcc' in Hn. injection Hn as <-. unfold payload in Hpay. injection Hpay as _ _ _ Hf.
        unfold callout_pending. rewrite Hf. change CALLOUT_PENDING with (bit 2). rewrite tst_bit, !Z.lor_spec by lia. cbn. apply orb_true_r.
    + intros x [n Hn]. destruct (decide (x = c)) as [->|Hne]; [by eexists|]. specialize (Ho x Hne). rewrite Hn in Ho.
      destruct (heap s1 !! x); [by eexists|done].
  - unfold callout_stop_safe_locked in H. destruct (heap s !! c) as [n|] eqn:Hc; [|done]. cbn in H.
    destruct (_ && _); [destruct (tst _ _); [done|]; by destruct (modify _ _ _)|].
    destruct (callout_stop_locked c s) eqn:E; [|done]. cbn in H. simplify_eq. by apply (stop_clear s l c n).
  - unfold callout_stop_safe_locked in H. destruct (heap s !! c) as [n|] eqn:Hc; [|done]. cbn in H.
    destruct (_ && _); [destruct (tst _ _); [done|]|by destruct (callout_stop_locked c s)].
    destruct (modify _ _ _) as [h|] eqn:Em; [|done]. cbn in H. simplify_eq.
    apply (pending_modify t c _ s h Hp Em). intros m. split; [done|apply flag_waiting].
  - unfold callout_drain_resume in H. destruct (heap s !! c) as [n|] eqn:Hc; [|done]. cbn in H.
    destruct (callout_completed n); [|done]. destruct (modify _ _ _) as [h|] eqn:Em; [|done]. cbn in H.
    destruct (callout_stop_locked c _) as [s1|] eqn:E; [|done]. cbn in H. simplify_eq.
    destruct (pending_modify t c _ s h Hp Em) as [Hp1 Hd1]; [intros m; split; [done|apply flag_waiting]|].
    unfold modify in Em. rewrite Hc in Em. injection Em as Eh. destruct (Hd1 c ltac:(by eexists)) as [n1 Hn1].
    assert (R1 : repr (s <| heap := h |>) l) by (rewrite <- Eh; by eapply (repr_payload s l c n)).
    destruct (stop_clear _ l c n1 s' R1 Hn1 E t Hp1) as [Hp2 Hd2].
    split; [done|]. intros x Hx. by apply Hd2, Hd1.
  - apply (pending_modify t c _ s h Hp H). intros m. split; [done|apply tst_clr_active].
Qed.

(** The callout [c] was dispatched: it was queued, and lost its pending flag. *)
Definition dispatched (c : Z) (s s' : cstate) : Prop := exists n, heap s !! c = Some n /\ c_queued n = true /\
  s' = s <| heap := <[c := n <| c_flags ::= fun f => clr f CALLOUT_PENDING |>]> (heap s) |> <| work := false |>.

(** A stretch of the callout thread, from a state that is fine. *)
Definition thread_fine (t : tstate) (s : cstate) (t' : tstate) (s' : cstate) : Prop :=
  good s' /\ pending_ok t' s' /\ holds t' s' /\ (forall c, t' = TRun c -> dispatched c s s').

Lemma pending_idle t s : (forall c, t <> TRun c) -> pending_ok t s -> pending_ok TIdle s.
Proof. intros Ht Hp x n Hx Hq. destruct (Hp x n Hx Hq) as [|E]; [by left|]. by destruct (Ht x). Qed.

Lemma dispatch_fine c timedout s : good s -> pending_ok TIdle s -> is_Some (heap s !! c) ->
  exists t' s', thread_dispatch c timedout s = Some (TNext t' s') /\ thread_fine TIdle s t' s'.
Proof.
  intros G Hp [n Hc]. unfold thread_dispatch. destruct timedout; cbn [negb].
  2: { eexists _, _. split; [reflexivity|]. split; [by apply good_work|]. by split_and!. }
  change (heap (s <| work := false |>)) with (heap s). rewrite Hc. cbn [mbind option_bind]. destruct (c_queued n) eqn:Eq; cbn [negb].
  2: { eexists _, _. split; [reflexivity|]. split; [by apply good_work|]. by split_and!. }
  rewrite (modify_eq _ _ _ _ Hc). cbn [mbind option_bind]. eexists _, _. split; [reflexivity|]. split; [|split; [|split]].
  - eapply (good_modify c _ (s <| work := false |>)); [by apply good_work|apply (modify_eq _ _ _ _ Hc)|done].
  - intros x m. cbn. rewrite lookup_insert. case_decide as E; [subst; by right|]. intros Hx Hq. left. by destruct (Hp x m Hx Hq).
  - cbn. rewrite lookup_insert_eq. by eexists.
  - intros x [= <-]. exists n. by rewrite Hc, Eq.
Qed.

Lemma wait_fine c timedout now s : good s -> pending_ok TIdle s -> is_Some (heap s !! c) ->
  exists t' s', thread_wait c timedout now s = Some (TNext t' s') /\ thread_fine TIdle s t' s'.
Proof.
  intros G Hp [n Hc]. unfold thread_wait. destruct (timedout || work s); [by apply dispatch_fine|].
  rewrite Hc. cbn [mbind option_bind]. destruct (c_timeout n <=? now); [by apply dispatch_fine|].
  eexists _, _. split; [reflexivity|]. split; [done|]. split; [|by split; [eexists|]].
  intros x m Hx Hq. left. by destruct (Hp x m Hx Hq).
Qed.

Lemma finish_fine c s : good s -> pending_ok (TRun c) s -> is_Some (heap s !! c) ->
  exists s', thread_finish c s = Some s' /\ good s' /\ pending_ok TIdle s'.
Proof.
  intros G Hp [n Hc]. pose proof G as [l [R Hs]]. unfold thread_finish. rewrite Hc. cbn [mbind option_bind].
  assert (Hother : forall x m, x <> c -> heap s !! x = Some m -> c_queued m = true -> callout_pending m = true).
  { intros x m Hne Hx Hq. destruct (Hp x m Hx Hq) as [|[= <-]]; done. }
  destruct (c_queued n) eqn:Eq.
  2: { exists s. split; [done|]. split; [done|]. intros x m Hx Hq. left. apply (Hother x m); try done. intros ->. congruence. }
  destruct (negb _ || _) eqn:Ew.
  2: { exists s. split; [done|]. split; [done|]. intros x m Hx Hq. left. destruct (decide (x = c)) as [->|Hne]; [|by apply (Hother x m)].
       rewrite Hc in Hx. injection Hx as <-. apply orb_false_iff in Ew as [Ew _]. by apply negb_false_iff in Ew. }
  rewrite (modify_eq _ _ _ _ Hc). cbn [mbind option_bind]. set (s1 := s <| heap := _ |>).
  assert (R1 : repr s1 l) by (by eapply (repr_payload s l c n)).
  assert (Hc1 : heap s1 !! c = Some (n <| c_flags ::= fun f => Z.lor f CALLOUT_COMPLETED |>)) by apply lookup_insert_eq.
  destruct (remove_refines s1 l c _ R1 Hc1) as (s2 & E & _ & Hpay & R2). exists s2. split; [done|]. split.
  - eapply good_remove; [|exact E]. eapply (good_modify c _ s); [done|apply (modify_eq _ _ _ _ Hc)|done].
  - apply (pending_frame TIdle c s s2 (q_remove c l)); [|done|..].
    + intros x m Hne Hx Hq. left. by apply (Hother x m).
    + intros x [Hx _]%elem_of_q_remove _. by apply (queued_in s l).
    + intros x Hne. rewrite (Hpay x). cbn. by rewrite lookup_insert_ne.
    + intros m Hm Hq. exfalso. assert (Hout : c ∉ q_remove c l) by (rewrite elem_of_q_remove; tauto).
      by rewrite (repr_out _ _ R2 c m Hm Hout) in Hq.
Qed.

Definition thread_ok (t : tstate) (s : cstate) : Prop := good s /\ pending_ok t s /\ holds t s.

Lemma thread_runs t timedout now s : thread_ok t s ->
  exists t' s', thread_step t timedout now s = Some (TNext t' s') /\ thread_ok t' s' /\ (forall c, t' = TRun c -> dispatched c s s').
Proof.
  intros (G & Hp & Hh). destruct t as [|c|c]; cbn [thread_step holds] in *.
  - pose proof G as [l [R _]]. unfold thread_pick. rewrite (repr_head _ _ R). destruct l as [|c l]; cbn [head].
    { eexists _, _. split; [reflexivity|]. by repeat split. }
    destruct (queued_in s (c :: l) c R ltac:(by left)) as (n & Hc & Hq). rewrite Hc. cbn [mbind option_bind].
    assert (Ha : tst (c_flags n) (Z.lor CALLOUT_ACTIVE CALLOUT_PENDING) = true).
    { destruct (Hp c n Hc Hq) as [Hpd|]; [|done]. destruct (tst (c_flags n) _) eqn:E; [done|]. unfold callout_pending in Hpd.
      change CALLOUT_PENDING with (bit 2) in Hpd. by rewrite (tst_sub _ (Z.lor CALLOUT_ACTIVE CALLOUT_PENDING) 2 ltac:(lia) eq_refl E) in Hpd. }
    rewrite Ha. cbn [negb]. destruct (wait_fine c false now s G Hp ltac:(by eexists)) as (t' & s' & E & H1 & H2 & H3 & H4).
    exists t', s'. by repeat split.
  - assert (Hp' : pending_ok TIdle s) by (by apply (pending_idle (TSleep c))).
    destruct (wait_fine c timedout now s G Hp' Hh) as (t' & s' & E & H1 & H2 & H3 & H4). exists t', s'. by repeat split.
  - destruct (finish_fine c s G Hp Hh) as (s' & E & G' & Hp'). rewrite E. exists TIdle, s'. by repeat split.
Qed.

Lemma thread_reachable w t s : rtc tstep (TIdle, mk_cstate ∅ None w) (t, s) -> thread_ok t s.
Proof.
  intros R. change (thread_ok (t, s).1 (t, s).2). revert R. generalize (t, s). clear t s. intros ts R.
  assert (H0 : thread_ok (TIdle, mk_cstate ∅ None w).1 (TIdle, mk_cstate ∅ None w).2).
  { split; [|split; [|done]].
    - exists []. split; [|constructor]. constructor; cbn; [done|done|constructor|]. intros x n Hx. by rewrite lookup_empty in Hx.
    - intros x n Hx. cbn in Hx. by rewrite lookup_empty in Hx. }
  revert H0. induction R as [|x y z Hs _ IH]; [done|]. intros H. apply IH. clear IH z. destruct Hs as [t s s' Hs|timedout now t t' s s' E]; cbn in *.
  - destruct H as (G & Hp & Hh). destruct (pending_step t s s' Hs G Hp) as [Hp' Hd]. split; [by apply (good_step s)|].
    split; [done|]. destruct t; cbn in *; auto.
  - destruct (thread_runs t timedout now s H) as (t1 & s1 & E1 & H1 & _). rewrite E in E1. by injection E1 as <- <-.
Qed.

(** C37: under any interleaving of the threads that arm, stop, drain and
    deactivate callouts with the callout thread, which keeps a pointer to a
    callout while it sleeps and while the handler runs.  At every reachable
    state the linked list is intact (both directions agree, no callout is in it
    twice, exactly the queued ones are in it) and in deadline order, and every
    queued callout is pending except one whose handler is running.  Whatever
    happens next, the callout thread follows no bad pointer and does not
    abort, and it only dispatches a callout that is queued at that moment. *)
Theorem reachable_queue_inv (w : bool) (t : tstate) (s : cstate) : rtc tstep (TIdle, mk_cstate ∅ None w) (t, s) ->
  (exists l, queue_inv s l) /\
  (forall x n, heap s !! x = Some n -> c_queued n = true -> callout_pending n = true \/ t = TRun x) /\
  (forall timedout now, exists t' s', thread_step t timedout now s = Some (TNext t' s') /\
     forall c, t' = TRun c -> dispatched c s s').
Proof.
  intros R. pose proof (thread_reachable w t s R) as H. split; [apply H|]. split; [apply H|]. intros timedout now.
  destruct (thread_runs t timedout now s H) as (t' & s' & E & _ & Hd). by exists t', s'.
Qed.

(** *** An execution *)

Definition armed_one (c mat : Z) (s : cstate) : cstate := default s (callout_reset c mat 7 8 s).
Definition registered_two : cstate :=
  mk_cstate ∅ None false <| heap ::= <[1 := callout_init]> |> <| heap ::= <[2 := callout_init]> |>.
Definition both_armed : cstate := armed_one 2 200 (armed_one 1 100 registered_two).

(** The thread takes note of the work, then sleeps for callout 1, due first. *)
Definition thread_at (t : tstate) (timedout : bool) (now : Z) (s : cstate) : tstate * cstate :=
  match thread_step t timedout now s with Some (TNext t' s') => (t', s') | _ => (t, s) end.
Definition sleeping : tstate * cstate := thread_at TIdle false 50 (thread_at TIdle false 50 both_armed).2.

Lemma armed_step c mat s : is_Some (callout_reset c mat 7 8 s) -> cstep s (armed_one c mat s).
Proof. intros [s' E]. apply (cstep_reset c mat 7 8). unfold armed_one. by rewrite E. Qed.

Lemma thread_at_step t timedout now s : (exists t' s', thread_step t timedout now s = Some (TNext t' s')) ->
  tstep (t, s) (thread_at t timedout now s).
Proof. intros (t' & s' & E). unfold thread_at. rewrite E. by eapply tstep_thread. Qed.

Lemma sleeping_reachable : rtc tstep (TIdle, mk_cstate ∅ None false) sleeping.
Proof.
  eapply rtc_l; [apply tstep_other, (cstep_init 1); reflexivity|].
  eapply rtc_l; [apply tstep_other, (cstep_init 2); reflexivity|].
  eapply rtc_l; [apply tstep_other, (armed_step 1 100); by eexists; vm_compute|].
  eapply rtc_l; [apply tstep_other, (armed_step 2 200); by eexists; vm_compute|].
  eapply rtc_l; [apply (thread_at_step TIdle false 50); by eexists _, _; vm_compute|].
  eapply rtc_l; [apply (thread_at_step TIdle false 50); by eexists _, _; vm_compute|].
  apply rtc_refl.
Qed.

Lemma reachable_queue_inv_witness : sleeping.1 = TSleep 1 /\ exists t' s', thread_step (TSleep 1) true 100 sleeping.2 = Some (TNext t' s') /\
  t' = TRun 1 /\ dispatched 1 sleeping.2 s'.
Proof.
  split; [reflexivity|].
  destruct (reachable_queue_inv false (TSleep 1) sleeping.2 sleeping_reachable) as (_ & _ & H).
  destruct (H true 100) as (t' & s' & E & Hd). exists t', s'. split; [exact E|].
  assert (Et : t' = TRun 1) by (vm_compute in E; congruence). split; [exact Et|exact (Hd 1 Et)].
Defined.

(** While the thread sleeps for callout 1, due at 100, the callout is armed
    again for 300.  Callout 2, due at 200, is now the first, so the thread is
    not woken; when its wait for the old deadline ends at 100 it dispatches
    callout 1, 200 early, and the deadline at 300 is lost. *)
Example rearmed_fires_early :
  let s := armed_one 1 300 sleeping.2 in
  let '(t', s') := thread_at (TSleep 1) true 100 s in
  let '(t'', s'') := thread_at t' false 100 s' in
  callout_queue s = Some 2 /\ work s = false /\ deadline (heap s) 1 = 300 /\ t' = TRun 1 /\
  t'' = TIdle /\ c_queued <$> heap s'' !! 1 = Some false.
Proof. vm_compute. done. Qed.

(** ** The timer interface *)

Section Instance.
Variables numer denom : Z.

(** A device's view of the queue: absolute deadlines, its own callouts. *)
#[export] Instance cstate_callouts : CalloutOps cstate := {
  co_reset c sbt s := default s (callout_reset_sbt numer denom c sbt c c C_ABSOLUTE 0 s);
  co_reset_in c sbt now s := default s (callout_reset_sbt numer denom c sbt c c 0 now s);
  co_stop c s := default s (callout_stop_locked c s);
  co_pending c s := from_option callout_pending false (heap s !! c);
  co_active c s := from_option callout_active false (heap s !! c);
  co_deactivate c s := s <| heap ::= alter callout_deactivate c |>;
  co_ok c s := good s /\ is_Some (heap s !! c);
}.

Lemma reset_armed c sbt flags now s : good s -> is_Some (heap s !! c) ->
  exists s' cc', callout_reset_sbt numer denom c sbt c c flags now s = Some s' /\ good s' /\
    heap s' !! c = Some cc' /\ callout_pending cc' = true /\ callout_active cc' = true /\
    (forall x, x <> c -> payload <$> heap s' !! x = payload <$> heap s !! x).
Proof.
  intros G [cc Hcc]. pose proof G as [l [R Hs]]. unfold callout_reset_sbt. cbv zeta.
  set (mat := if negb (flags =? C_ABSOLUTE) then _ else _).
  destruct (reset_refines s l c cc mat c c R Hcc) as (s' & cc' & E & _ & Hcc' & Hp & Ho & _).
  exists s', cc'. rewrite E. split; [done|]. split; [by eapply good_reset|].
  assert (Hf : c_flags cc' = Z.lor (clr (c_flags cc) stop_flags) (Z.lor CALLOUT_PENDING CALLOUT_ACTIVE))
    by (unfold payload in Hp; congruence).
  unfold callout_pending, callout_active. rewrite Hf.
  change CALLOUT_ACTIVE with (bit 1). change CALLOUT_PENDING with (bit 2).
  rewrite !tst_bit, !Z.lor_spec, !bit_testbit by lia. cbn. by rewrite !orb_true_r.
Qed.

Lemma stop_idle c s : good s -> is_Some (heap s !! c) ->
  exists s' cc', callout_stop_locked c s = Some s' /\ good s' /\
    heap s' !! c = Some cc' /\ callout_pending cc' = false /\ callout_active cc' = false /\
    (forall x, x <> c -> payload <$> heap s' !! x = payload <$> heap s !! x).
Proof.
  intros G [cc Hcc]. pose proof G as [l [R Hs]].
  destruct (stop_refines s l c cc R Hcc) as (s' & cc' & E & _ & Hcc' & Hp & Ho).
  exists s', cc'. split; [done|]. split; [by eapply good_stop|].
  assert (Hf : c_flags cc' = clr (c_flags cc) stop_flags) by (unfold payload in Hp; congruence).
  unfold callout_pending, callout_active. rewrite Hf.
  change CALLOUT_ACTIVE with (bit 1). change CALLOUT_PENDING with (bit 2).
  rewrite !tst_bit, !clr_testbit by lia. cbn. by rewrite !andb_false_r.
Qed.

(** An operation on [c] keeps the other timers registered. *)
Lemma registered_frame c c' s s' : is_Some (heap s' !! c) ->
  (forall x, x <> c -> payload <$> heap s' !! x = payload <$> heap s !! x) ->
  is_Some (heap s !! c') -> is_Some (heap s' !! c').
Proof.
  intros Hc Ho [n Hn]. destruct (decide (c' = c)) as [->|Hne]; [done|].
  specialize (Ho c' Hne). rewrite Hn in Ho. destruct (heap s' !! c'); [by eexists|done].
Qed.

(** ... and their flags. *)
Lemma active_frame c c' s s' : c' <> c ->
  (forall x, x <> c -> payload <$> heap s' !! x = payload <$> heap s !! x) ->
  from_option callout_active false (heap s' !! c') = from_option callout_active false (heap s !! c').
Proof.
  intros Hne Ho. specialize (Ho c' Hne). unfold payload in Ho.
  destruct (heap s' !! c') as [n'|], (heap s !! c') as [n|]; try done.
  cbn in *. unfold callout_active. by injection Ho as _ _ _ ->.
Qed.

Lemma queue_inv_heap s s' l : heap s' = heap s -> callout_queue s' = callout_queue s ->
  queue_inv s l -> queue_inv s' l.
Proof.
  intros Eh Eq [[? ? ? ?] ?]. split; [|by rewrite Eh]. constructor; rewrite ?Eh, ?Eq; done.
Qed.

(** the timer queue provides what the devices rely on: arming a
    registered timer leaves it pending and active, stopping one leaves it idle, both keep every timer
    registered in a consistent queue; deactivating one clears its active flag
    only. *)
Theorem cstate_callouts_laws : CalloutLaws cstate.
Proof.
  split; cbn.
  - intros c c' sbt t [G Hc] [_ Hc'].
    destruct (reset_armed c sbt C_ABSOLUTE 0 t G Hc) as (s' & cc' & -> & G' & Hcc' & _ & _ & Ho).
    split; [done|]. by eapply (registered_frame c); eauto.
  - intros c c' sbt now t [G Hc] [_ Hc'].
    destruct (reset_armed c sbt 0 now t G Hc) as (s' & cc' & -> & G' & Hcc' & _ & _ & Ho).
    split; [done|]. by eapply (registered_frame c); eauto.
  - intros c c' t [G Hc] [_ Hc'].
    destruct (stop_idle c t G Hc) as (s' & cc' & -> & G' & Hcc' & _ & _ & Ho).
    split; [done|]. by eapply (registered_frame c); eauto.
  - intros c sbt now t [G Hc]. destruct (reset_armed c sbt 0 now t G Hc) as (s' & cc' & -> & _ & Hcc' & Hp & _).
    cbn. by rewrite Hcc'.
  - intros c sbt now t [G Hc]. destruct (reset_armed c sbt 0 now t G Hc) as (s' & cc' & -> & _ & Hcc' & _ & Ha & _).
    cbn. by rewrite Hcc'.
  - intros c t [G Hc]. destruct (stop_idle c t G Hc) as (s' & cc' & -> & _ & Hcc' & Hp & _).
    cbn. by rewrite Hcc'.
  - intros c t [G Hc]. destruct (stop_idle c t G Hc) as (s' & cc' & -> & _ & Hcc' & _ & Ha & _).
    cbn. by rewrite Hcc'.
  - intros c c' t [[l Hl] [n Hn]]. rewrite lookup_alter. split.
    + exists l. destruct (heap t !! c) as [m|] eqn:Hm.
      * apply (good_payload t l c m (callout_deactivate m)) in Hl; [|done..].
        eapply queue_inv_heap, Hl; [|done..]. cbn.
        apply map_eq. intros x. rewrite lookup_insert, lookup_alter. case_decide; [by subst; rewrite Hm|done].
      * eapply queue_inv_heap, Hl; [|done..]. cbn.
        apply map_eq. intros x. rewrite lookup_alter. case_decide; [by subst; rewrite Hm|done].
    + case_decide; subst; rewrite Hn; by eexists.
  - intros c sbt t [G Hc]. destruct (reset_armed c sbt C_ABSOLUTE 0 t G Hc) as (s' & cc' & -> & _ & Hcc' & Hp & _).
    cbn. by rewrite Hcc'.
  - intros c sbt t [G Hc]. destruct (reset_armed c sbt C_ABSOLUTE 0 t G Hc) as (s' & cc' & -> & _ & Hcc' & _ & Ha & _).
    cbn. by rewrite Hcc'.
  - intros c t. rewrite lookup_alter_eq. destruct (heap t !! c) as [n|]; [|done].
    cbn. apply tst_clr_active.
  - intros c t. rewrite lookup_alter_eq. destruct (heap t !! c) as [n|]; [|done].
    cbn. apply tst_clr_active.
  - intros c c' sbt now t [G Hc] Hne.
    destruct (reset_armed c sbt 0 now t G Hc) as (s' & cc' & -> & _ & _ & _ & _ & Ho). by eapply active_frame.
  - intros c c' t [G Hc] Hne.
    destruct (stop_idle c t G Hc) as (s' & cc' & -> & _ & _ & _ & _ & Ho). by eapply active_frame.
  - intros c c' t Hne. by rewrite lookup_alter_ne by done.
Qed.
End Instance.
