(* ===== verification/Vatpit.v ===== *)
(** * The 8254 programmable interval timer (src/src/vmm/io/vatpit.c)

    Three counters that are never decremented: a counter's value is computed
    from the time it was loaded.  Each call of [sbinuptime()] in an operation
    is a reading [clk 0], [clk 1], ... in program order.  Counter 0 arms timer
    0 of the callout system [T] and its handler pulses the interrupt
    controllers [V].  [VATPIT_LOCK] makes the entry points atomic. *)

From S2P Require Import Prelude Interface Bintime.

Record channel : Type := mk_channel {
  mode : Z;
  initial : Z;
  now_sbt : Z;
  cr : list Z;
  ol : list Z;
  slatched : bool;
  status : Z;
  crbyte : Z;
  olbyte : Z;
  frbyte : Z;
  callout_sbt : Z;
}.

#[export] Instance eta_channel : Eta channel := fun c =>
  mk_channel (mode c) (initial c) (now_sbt c) (cr c) (ol c) (slatched c) (status c)
    (crbyte c) (olbyte c) (frbyte c) (callout_sbt c).

Record vatpit : Type := mk_vatpit {
  freq_sbt : Z;
  channel0 : channel;
  channel1 : channel;
  channel2 : channel;
}.

#[export] Instance eta_vatpit : Eta vatpit := fun v =>
  mk_vatpit (freq_sbt v) (channel0 v) (channel1 v) (channel2 v).

Definition get_channel (i : Z) (v : vatpit) : channel :=
  if i =? 0 then channel0 v else if i =? 1 then channel1 v else channel2 v.

Definition set_channel (i : Z) (c : channel) (v : vatpit) : vatpit :=
  if i =? 0 then v <| channel0 := c |> else if i =? 1 then v <| channel1 := c |>
  else v <| channel2 := c |>.

Definition TIMER_SEL_MASK : Z := 0xc0.
Definition TIMER_RW_MASK : Z := 0x30.
Definition TIMER_MODE_MASK : Z := 0x0f.
Definition TIMER_SEL_READBACK : Z := 0xc0.
Definition TIMER_STS_OUT : Z := 0x80.
Definition TIMER_STS_NULLCNT : Z := 0x40.
Definition TIMER_RB_LCTR : Z := 0x20.
Definition TIMER_RB_LSTATUS : Z := 0x10.
Definition TIMER_RB_CTR_2 : Z := 0x08.
Definition TIMER_RB_CTR_1 : Z := 0x04.
Definition TIMER_RB_CTR_0 : Z := 0x02.
Definition TMR2_OUT_STS : Z := 0x20.
Definition PIT_8254_FREQ : Z := 1193182.
Definition TIMER_DIV (freq hz : Z) : Z := (freq + hz / 2) / hz.
Definition TIMER_CNTR0 : Z := 0x40.
Definition TIMER_MODE : Z := 0x43.
Definition TIMER_INTTC : Z := 0x00.
Definition TIMER_RATEGEN : Z := 0x04.
Definition TIMER_SQWAVE : Z := 0x06.
Definition TIMER_SWSTROBE : Z := 0x08.
Definition TIMER_LATCH : Z := 0x00.
Definition TIMER_16BIT : Z := 0x30.

(** ** Reading a counter *)

Definition vatpit_get_out (freq now : Z) (c : channel) : bool :=
  if mode c =? TIMER_INTTC then initial c - Z.quot (now - now_sbt c) freq <=? 0 else false.

(** [pit_update_counter]: the new channel and the returned value. *)
Definition pit_update_counter (freq : Z) (clk : nat -> Z) (c : channel) (latch : bool) : channel * Z :=
  if latch && negb (olbyte c =? 0) then (c, 0)
  else
    let c := if initial c =? 0
             then c <| initial := u16 (TIMER_DIV PIT_8254_FREQ 100) |> <| now_sbt := clk 0%nat |>
                    <| status ::= fun s => clr s TIMER_STS_NULLCNT |>
             else c in
    let delta_ticks := Z.quot (clk 1%nat - now_sbt c) freq in
    let lval := u16 (initial c - Z.rem delta_ticks (initial c)) in
    let c := if latch then c <| olbyte := 2 |> <| ol := [u8 (Z.shiftr lval 8); u8 lval] |> else c in
    (c, lval).

Definition pit_readback1 (freq : Z) (clk : nat -> Z) (c : channel) (cmd : Z) : channel :=
  let c := if negb (tst cmd TIMER_RB_LCTR) && (olbyte c =? 0)
           then (pit_update_counter freq clk c true).1 else c in
  if negb (tst cmd TIMER_RB_LSTATUS) && negb (slatched c) then
    let c := c <| slatched := true |> in
    if (mode c =? TIMER_INTTC) && vatpit_get_out freq (clk 2%nat) c
    then c <| status ::= fun s => Z.lor s TIMER_STS_OUT |>
    else c <| status ::= fun s => clr s TIMER_STS_OUT |>
  else c.

(** Readings [3*i ..] are those of channel [i]. *)
Definition pit_readback (clk : nat -> Z) (cmd : Z) (v : vatpit) : vatpit :=
  let f := freq_sbt v in
  let v := if tst cmd TIMER_RB_CTR_0
           then v <| channel0 ::= fun c => pit_readback1 f clk c cmd |> else v in
  let v := if tst cmd TIMER_RB_CTR_1
           then v <| channel1 ::= fun c => pit_readback1 f (fun k => clk (3 + k)%nat) c cmd |> else v in
  if tst cmd TIMER_RB_CTR_2
  then v <| channel2 ::= fun c => pit_readback1 f (fun k => clk (6 + k)%nat) c cmd |> else v.

Definition vatpit_update_mode (clk : nat -> Z) (val : Z) (v : vatpit) : result vatpit :=
  let sel := Z.land val TIMER_SEL_MASK in
  let rw := Z.land val TIMER_RW_MASK in
  let md := Z.land val TIMER_MODE_MASK in
  if sel =? TIMER_SEL_READBACK then (0, pit_readback clk val v)
  else if negb (rw =? TIMER_LATCH) && negb (rw =? TIMER_16BIT) then (-1, v)
  else if negb (rw =? TIMER_LATCH) &&
          (negb (md =? TIMER_INTTC) && negb (md =? TIMER_RATEGEN) &&
           negb (md =? TIMER_SQWAVE) && negb (md =? TIMER_SWSTROBE)) then (-1, v)
  else
    let i := Z.shiftr sel 6 in
    let c := get_channel i v in
    let c := if rw =? TIMER_LATCH then (pit_update_counter (freq_sbt v) clk c true).1
             else c <| mode := md |> <| olbyte := 0 |>
                    <| status ::= fun s => Z.lor s TIMER_STS_NULLCNT |> in
    (0, set_channel i c v).

(** ** Operations on the machine *)
Section Machine.
Context {T V : Type} `{!CalloutOps T, !PulseFabric V}.

Record pmachine : Type := mk_pmachine { pit : vatpit; timer : T; fabric : V }.

#[export] Instance eta_pmachine : Eta pmachine := fun m => mk_pmachine (pit m) (timer m) (fabric m).

(** [now] is the reading taken here. *)
Definition pit_timer_start_cntr0 (now : Z) (m : pmachine) : pmachine :=
  let c := channel0 (pit m) in
  if negb (initial c =? 0) then
    let delta := initial c * freq_sbt (pit m) in
    let c := c <| callout_sbt ::= fun x => x + delta |> in
    let c := if callout_sbt c <? now then c <| callout_sbt := now + delta |> else c in
    m <| pit ::= fun v => v <| channel0 := c |> |> <| timer ::= co_reset 0 (callout_sbt c) |>
  else m.

(** The timeout handler of channel [i]. *)
Definition vatpit_callout_handler (i now : Z) (m : pmachine) : pmachine :=
  if co_pending i (timer m) then m
  else if negb (co_active i (timer m)) then m
  else
    let m := m <| timer ::= co_deactivate i |> in
    let m := if mode (get_channel i (pit m)) =? TIMER_RATEGEN
             then pit_timer_start_cntr0 now m else m in
    m <| fabric ::= fun w => pulse_ioapic 2 (pulse_atpic 0 w) |>.

(** The counter ports: error code, machine, [*eax].  [port] is in range by the
    handler's registration. *)
Definition counter_read (freq : Z) (clk : nat -> Z) (c : channel) : channel * Z :=
  if slatched c then (c <| slatched := false |> <| status := 0 |>, status c)
  else if olbyte c =? 0 then
    let '(c, tmp) := pit_update_counter freq clk c false in
    let tmp := if negb (frbyte c =? 0) then Z.shiftr tmp 8 else tmp in
    (c <| frbyte ::= fun x => Z.lxor x 1 |>, Z.land tmp 0xff)
  else
    let c := c <| olbyte ::= fun x => x - 1 |> in
    (c, nth (Z.to_nat (olbyte c)) (ol c) 0).

Definition counter_write (clk : nat -> Z) (i eax : Z) (m : pmachine) : pmachine :=
  let c := get_channel i (pit m) in
  let c := c <| cr ::= <[Z.to_nat (crbyte c) := u8 eax]> |> <| crbyte ::= Z.add 1 |> in
  if crbyte c =? 2 then
    let c := c <| status ::= fun s => clr s TIMER_STS_NULLCNT |> <| frbyte := 0 |> <| crbyte := 0 |>
               <| initial := Z.lor (nth 0 (cr c) 0) (Z.shiftl (nth 1 (cr c) 0) 8) |>
               <| now_sbt := clk 0%nat |> in
    let m := m <| pit ::= set_channel i c |> in
    let m := if i =? 0
             then pit_timer_start_cntr0 (clk 1%nat)
                    (m <| pit ::= fun v => v <| channel0 ::= fun c => c <| callout_sbt := now_sbt c |> |> |>)
             else m in
    if initial (get_channel i (pit m)) =? 0
    then m <| pit ::= fun v => set_channel i (get_channel i v <| initial := 0xffff |>) v |>
    else m
  else m <| pit ::= set_channel i c |>.

Definition vatpit_handler (clk : nat -> Z) (inp : bool) (port bytes eax : Z) (m : pmachine)
    : Z * pmachine * Z :=
  if negb (bytes =? 1) then (-1, m, eax)
  else if port =? TIMER_MODE then
    if inp then (-1, m, eax)
    else let '(error, v) := vatpit_update_mode clk (u8 eax) (pit m) in (error, m <| pit := v |>, eax)
  else
    let i := port - TIMER_CNTR0 in
    if inp then
      let '(c, x) := counter_read (freq_sbt (pit m)) clk (get_channel i (pit m)) in
      (0, m <| pit ::= set_channel i c |>, x)
    else (0, counter_write clk i eax m, eax).

Definition vatpit_nmisc_handler (clk : nat -> Z) (inp : bool) (eax : Z) (m : pmachine)
    : Z * pmachine * Z :=
  if inp then
    (0, m, if vatpit_get_out (freq_sbt (pit m)) (clk 0%nat) (channel2 (pit m)) then TMR2_OUT_STS else 0)
  else (0, m, eax).
End Machine.

Arguments pmachine : clear implicits.

(** [vatpit_init]. *)
Definition channel_zero : channel := mk_channel 0 0 0 [0; 0] [0; 0] false 0 0 0 0 0.

Definition vatpit_init : vatpit :=
  mk_vatpit (bttosbt (FREQ2BT PIT_8254_FREQ)) channel_zero channel_zero channel_zero.

(** ** Invariant *)

Definition byte2 (l : list Z) : Prop := exists a b, l = [a; b] /\ a in_u 8 /\ b in_u 8.

Record wf_channel (c : channel) : Prop := {
  wf_mode : mode c ∈ [TIMER_INTTC; TIMER_RATEGEN; TIMER_SQWAVE; TIMER_SWSTROBE];
  wf_initial : initial c in_u 16;
  wf_cr : byte2 (cr c);
  wf_ol : byte2 (ol c);
  wf_status : status c in_u 8;
  wf_crbyte : 0 <= crbyte c < 2;
  wf_olbyte : 0 <= olbyte c <= 2;
  wf_frbyte : 0 <= frbyte c < 2;
}.

Record wf_vatpit (v : vatpit) : Prop := {
  wf_freq : freq_sbt v = 3599;
  wf_channel0 : wf_channel (channel0 v);
  wf_channel1 : wf_channel (channel1 v);
  wf_channel2 : wf_channel (channel2 v);
}.

Ltac wf_chan :=
  match goal with H : wf_channel ?c |- wf_channel ?g =>
    match g with context [c] => destruct H, c end end;
  cbn in *; constructor; cbn in *; try done; try lia; try range.

Lemma byte2_intro a b : a in_u 8 -> b in_u 8 -> byte2 [a; b].
Proof. intros. exists a, b. done. Qed.

Lemma wf_update_counter freq clk c latch :
  wf_channel c -> wf_channel (pit_update_counter freq clk c latch).1.
Proof.
  intros H. unfold pit_update_counter. destruct (latch && _); [done|]. cbv zeta.
  set (c1 := if initial c =? 0 then _ else _).
  assert (H1 : wf_channel c1) by (unfold c1; destruct (initial c =? 0); [|done]; wf_chan).
  clearbody c1. cbn [fst]. destruct latch; [|done].
  set (x := u16 _). clearbody x. wf_chan. apply byte2_intro; range.
Qed.

Lemma wf_readback1 freq clk c cmd : wf_channel c -> wf_channel (pit_readback1 freq clk c cmd).
Proof.
  intros H. unfold pit_readback1. cbv zeta.
  set (c1 := if negb (tst cmd TIMER_RB_LCTR) && _ then _ else _).
  assert (H1 : wf_channel c1) by (unfold c1; split_if; [by apply wf_update_counter|done]).
  clearbody c1. repeat split_if; wf_chan.
Qed.

Lemma wf_set_channel i c v : wf_channel c -> wf_vatpit v -> wf_vatpit (set_channel i c v).
Proof. intros ? [? ? ? ?]. unfold set_channel. repeat split_if; by constructor. Qed.

Lemma wf_get_channel i v : wf_vatpit v -> wf_channel (get_channel i v).
Proof. intros [? ? ? ?]. unfold get_channel. by repeat split_if. Qed.

Lemma wf_readback clk cmd v : wf_vatpit v -> wf_vatpit (pit_readback clk cmd v).
Proof.
  intros [? ? ? ?]. unfold pit_readback. cbv zeta.
  repeat split_if; constructor; cbn; auto using wf_readback1.
Qed.

Lemma wf_update_mode clk val v : wf_vatpit v -> wf_vatpit (vatpit_update_mode clk val v).2.
Proof.
  intros H. unfold vatpit_update_mode. cbv zeta. split_if; [by apply wf_readback|].
  split_if; [done|]. split_if; [done|]. cbn [snd]. apply wf_set_channel; [|done].
  pose proof (wf_get_channel (Z.shiftr (Z.land val TIMER_SEL_MASK) 6) v H) as Hc.
  set (md := Z.land val TIMER_MODE_MASK) in *. clearbody md.
  destruct (_ =? TIMER_LATCH); [by apply wf_update_counter|]. cbn [negb andb] in E1.
  set (c := get_channel _ _) in *. clearbody c.
  assert (md ∈ [TIMER_INTTC; TIMER_RATEGEN; TIMER_SQWAVE; TIMER_SWSTROBE]).
  { rewrite !elem_of_cons.
    destruct (Z.eqb_spec md TIMER_INTTC), (Z.eqb_spec md TIMER_RATEGEN),
      (Z.eqb_spec md TIMER_SQWAVE), (Z.eqb_spec md TIMER_SWSTROBE); cbn in E1; tauto || discriminate. }
  wf_chan.
Qed.

Lemma wf_counter_read freq clk c : wf_channel c -> wf_channel (counter_read freq clk c).1.
Proof.
  intros H. unfold counter_read. destruct (slatched c); [wf_chan|].
  destruct (olbyte c =? 0) eqn:E; bools; [|wf_chan].
  pose proof (wf_update_counter freq clk c false H) as Hu.
  destruct (pit_update_counter _ _ _ _) as [c1 x]. cbn [fst] in *. clear H E c. wf_chan.
  apply (lxor_in_u 1); lia.
Qed.

Section Steps.
Context {T V : Type} `{!CalloutOps T, !PulseFabric V}.
Implicit Types m : pmachine T V.

Lemma wf_timer_start now m : wf_vatpit (pit m) -> wf_vatpit (pit (pit_timer_start_cntr0 now m)).
Proof.
  intros [? H ? ?]. unfold pit_timer_start_cntr0. split_if; [|done].
  constructor; cbn; try done.
  generalize dependent (channel0 (pit m)). intros c Hc W. split_if; wf_chan.
Qed.

Lemma wf_callout_handler i now m : wf_vatpit (pit m) -> wf_vatpit (pit (vatpit_callout_handler i now m)).
Proof.
  intros H. unfold vatpit_callout_handler. split_if; [done|]. split_if; [done|]. cbn.
  split_if; [|done]. by apply wf_timer_start.
Qed.

Lemma byte2_insert l i x : byte2 l -> 0 <= i < 2 -> x in_u 8 -> byte2 (<[Z.to_nat i := x]> l).
Proof.
  intros (a & b & -> & ? & ?) Hi Hx. assert (i = 0 \/ i = 1) as [->| ->] by lia; by apply byte2_intro.
Qed.

Lemma word_bytes lo hi : lo in_u 8 -> hi in_u 8 -> Z.lor lo (Z.shiftl hi 8) in_u 16.
Proof.
  intros Hl Hh. apply lor_in_u; [lia|by apply (in_u_le 8 16)|]. rewrite Z.shiftl_mul_pow2 by lia. lia.
Qed.

Lemma wf_counter_write clk i eax m : wf_vatpit (pit m) -> wf_vatpit (pit (counter_write clk i eax m)).
Proof.
  intros H. unfold counter_write. cbv zeta. pose proof (wf_get_channel i _ H) as Hc.
  set (c := get_channel i (pit m)) in *. clearbody c.
  assert (Hcr : byte2 (<[Z.to_nat (crbyte c) := u8 eax]> (cr c)))
    by (destruct Hc; apply byte2_insert; done || range).
  cbn [crbyte cr upd]. split_if; bools.
  - set (c1 := c <| cr ::= _ |> <| crbyte ::= _ |> <| status ::= _ |> <| frbyte := _ |> <| crbyte := _ |>
      <| initial := _ |> <| now_sbt := _ |>).
    assert (H1 : wf_channel c1).
    { destruct Hcr as (a & b & Eab & Ha & Hb). subst c1. destruct Hc, c; cbn in *. rewrite Eab.
      constructor; cbn -[Z.lor Z.shiftl]; try done; try lia; try range.
      - by apply word_bytes.
      - rewrite Eab. by apply byte2_intro. }
    clearbody c1.
    set (m1 := if i =? 0 then _ else _).
    assert (Hm1 : wf_vatpit (pit m1)).
    { unfold m1. split_if; [apply wf_timer_start|cbn; by apply wf_set_channel].
      cbn. pose proof (wf_set_channel i c1 _ H1 H) as [? W ? ?]. constructor; cbn; try done.
      generalize dependent (channel0 (set_channel i c1 (pit m))). intros d W. wf_chan. }
    clearbody m1. split_if; [|done]. cbn. apply wf_set_channel; [|done].
    pose proof (wf_get_channel i _ Hm1) as W. generalize dependent (get_channel i (pit m1)).
    intros d Ed W. wf_chan.
  - cbn. apply wf_set_channel; [|done]. destruct Hc, c; cbn in *. constructor; cbn in *; try done; lia.
Qed.

Lemma pit_wf_handler clk inp port bytes eax m :
  wf_vatpit (pit m) -> wf_vatpit (pit (vatpit_handler clk inp port bytes eax m).1.2).
Proof.
  intros H. unfold vatpit_handler. split_if; [done|]. split_if.
  - destruct inp; [done|]. pose proof (wf_update_mode clk (u8 eax) (pit m) H) as W.
    by destruct (vatpit_update_mode _ _ _).
  - destruct inp; [|by apply wf_counter_write].
    pose proof (wf_counter_read (freq_sbt (pit m)) clk _ (wf_get_channel (port - TIMER_CNTR0) _ H)) as W.
    destruct (counter_read _ _ _). cbn. by apply wf_set_channel.
Qed.

(** The entry points: the port handler, the timeout handler (after the callout
    system cleared [CALLOUT_PENDING]), and anything the environment does to the
    timers and the interrupt controllers. *)
Inductive step : pmachine T V -> pmachine T V -> Prop :=
| step_handler clk inp port bytes eax m : step m (vatpit_handler clk inp port bytes eax m).1.2
| step_callout i now m : step m (vatpit_callout_handler i now m)
| step_environment v t t' w w' : step (mk_pmachine v t w) (mk_pmachine v t' w').

Lemma pit_wf_step m m' : step m m' -> wf_vatpit (pit m) -> wf_vatpit (pit m').
Proof. destruct 1; auto using pit_wf_handler, wf_callout_handler. Qed.

Lemma pit_wf_init : wf_vatpit vatpit_init.
Proof.
  assert (wf_channel channel_zero).
  { constructor; cbn; try lia; try (by apply byte2_intro). by left. }
  constructor; cbn; [vm_compute; reflexivity|done..].
Qed.

(** at every reachable state of the timer the byte selectors stay inside
    the two-byte registers they index (so [cr[crbyte++]] and [ol[--olbyte]]
    never leave the arrays), the counts are 16-bit and the mode is one of the
    four that are supported. *)
Theorem reachable_wf_pit (t : T) (w : V) m :
  rtc step (mk_pmachine vatpit_init t w) m -> wf_vatpit (pit m).
Proof.
  intros R. assert (H : wf_vatpit (pit (mk_pmachine vatpit_init t w))) by apply pit_wf_init.
  revert H. induction R; eauto using pit_wf_step.
Qed.
End Steps.

Definition no_timers : timers := fun _ => (None, false).

Lemma reachable_wf_pit_witness :
  let m := mk_pmachine vatpit_init no_timers ([] : list pulse_call) in
  let m' := (vatpit_handler (fun _ => 5) false 0x43 1 0x34 m).1.2 in
  mode (channel0 (pit m')) = TIMER_RATEGEN /\ wf_vatpit (pit m').
Proof.
  cbv zeta. split; [vm_compute; reflexivity|].
  apply (reachable_wf_pit no_timers ([] : list pulse_call)).
  eapply rtc_l; [apply step_handler|apply rtc_refl].
Defined.

(** ** The counter value *)

(** The count of a loaded counter after [ticks] periods. *)
Lemma counter_value freq clk c : wf_channel c -> initial c <> 0 ->
  let ticks := Z.quot (clk 1%nat - now_sbt c) freq in 0 <= ticks ->
  (pit_update_counter freq clk c false).2 = initial c - ticks mod initial c /\
  1 <= (pit_update_counter freq clk c false).2 <= initial c.
Proof.
  intros H Hn ticks Ht. unfold pit_update_counter. cbn [andb].
  apply Z.eqb_neq in Hn as Hb. rewrite Hb. cbv zeta. fold ticks. cbn [snd].
  destruct (wf_initial _ H). rewrite Z.rem_mod_nonneg by lia.
  pose proof (Z.mod_pos_bound ticks (initial c) ltac:(lia)). rewrite u16_id by lia. lia.
Qed.

(** a running counter reads as the 8254 does: [n] ticks after the counter
    was loaded with [N] it holds [N - n mod N], which lies between 1 and [N];
    in particular it never reads 0 and never underflows. *)
Theorem counter_in_range (freq : Z) (clk : nat -> Z) (c : channel) :
  wf_channel c -> initial c <> 0 -> 0 < freq -> now_sbt c <= clk 1%nat ->
  let r := pit_update_counter freq clk c false in
  r.2 = initial c - ((clk 1%nat - now_sbt c) / freq) mod initial c /\
  1 <= r.2 <= initial c /\ r.1 = c.
Proof.
  intros H Hn Hf Hc. cbv zeta.
  assert (E : Z.quot (clk 1%nat - now_sbt c) freq = (clk 1%nat - now_sbt c) / freq)
    by (apply Z.quot_div_nonneg; lia).
  destruct (counter_value freq clk c H Hn) as [E1 E2];
    [rewrite E; apply Z.div_pos; lia|]. rewrite E in E1. split; [done|]. split; [done|].
  unfold pit_update_counter. apply Z.eqb_neq in Hn. by rewrite Hn.
Qed.

Definition running_example : channel := channel_zero <| initial := 1000 |> <| now_sbt := 10 |>.

Lemma running_example_wf : wf_channel running_example.
Proof. constructor; cbn; try lia; try (by apply byte2_intro). by left. Qed.

Lemma counter_in_range_witness :
  let r := pit_update_counter 3599 (fun _ => 10 + 3599 * 1001) running_example false in
  r.2 = 1000 - ((10 + 3599 * 1001 - 10) / 3599) mod 1000 /\ 1 <= r.2 <= 1000 /\
  r.1 = running_example.
Proof.
  apply (counter_in_range 3599 (fun _ => 10 + 3599 * 1001) running_example);
    [exact running_example_wf|discriminate|lia|cbn; lia].
Defined.

Lemma latch_eq freq clk c : olbyte c = 0 ->
  let c1 := (pit_update_counter freq clk c false).1 in
  let lval := (pit_update_counter freq clk c false).2 in
  pit_update_counter freq clk c true =
    (c1 <| olbyte := 2 |> <| ol := [u8 (Z.shiftr lval 8); u8 lval] |>, lval) /\
  slatched c1 = slatched c /\ lval in_u 16.
Proof.
  intros Ho. unfold pit_update_counter. rewrite Ho. cbn [Z.eqb negb andb fst snd].
  split; [done|]. split; [by destruct (initial c =? 0)|apply u16_in_u].
Qed.

(** Reading a latched byte does not look at the clock. *)
Lemma counter_read_latched freq clk c : slatched c = false -> olbyte c <> 0 ->
  counter_read freq clk c =
  (c <| olbyte ::= fun x => x - 1 |>, nth (Z.to_nat (olbyte c - 1)) (ol c) 0).
Proof. intros Hs Ho. unfold counter_read. apply Z.eqb_neq in Ho. by rewrite Hs, Ho. Qed.

Lemma split_word x : x in_u 16 -> u8 x + 256 * u8 (Z.shiftr x 8) = x.
Proof.
  intros Hx. unfold u8. rewrite Z.shiftr_div_pow2 by lia. change (2 ^ 8) with 256.
  rewrite (Z.mod_small (x / 256)).
  - pose proof (Z.div_mod x 256 ltac:(lia)). lia.
  - split; [apply Z.div_pos; lia|]. apply Z.div_lt_upper_bound; lia.
Qed.

(** latching and reading back.  After a counter-latch command, two byte
    reads return the low and the high byte of the count at the instant of the
    latch, however much later they happen, and the channel then follows the
    counter again. *)
Theorem latch_read_roundtrip (freq : Z) (clk clk1 clk2 : nat -> Z) (c : channel) :
  wf_channel c -> olbyte c = 0 -> slatched c = false ->
  let lval := (pit_update_counter freq clk c false).2 in
  let r0 := pit_update_counter freq clk c true in
  let r1 := counter_read freq clk1 r0.1 in
  let r2 := counter_read freq clk2 r1.1 in
  r0.2 = lval /\ r1.2 + 256 * r2.2 = lval /\ 0 <= r1.2 < 256 /\ olbyte r2.1 = 0.
Proof.
  intros H Ho Hs. cbv zeta. destruct (latch_eq freq clk c Ho) as (-> & Hs1 & Hl).
  destruct (pit_update_counter freq clk c false) as [c1 lval]. cbn [fst snd] in *.
  rewrite Hs in Hs1. rewrite (counter_read_latched freq clk1) by done. cbn [fst snd].
  rewrite (counter_read_latched freq clk2) by done. cbn -[u8 Z.shiftr Z.mul].
  pose proof (u8_in_u lval). split; [done|]. split; [by apply split_word|]. split; [exact H0|done].
Qed.

Lemma latch_read_roundtrip_witness :
  let lval := (pit_update_counter 3599 (fun _ => 10 + 3599 * 300) running_example false).2 in
  let r0 := pit_update_counter 3599 (fun _ => 10 + 3599 * 300) running_example true in
  let r1 := counter_read 3599 (fun _ => 5000000) r0.1 in
  let r2 := counter_read 3599 (fun _ => 6000000) r1.1 in
  r0.2 = lval /\ r1.2 + 256 * r2.2 = lval /\ 0 <= r1.2 < 256 /\ olbyte r2.1 = 0.
Proof.
  apply (latch_read_roundtrip 3599 (fun _ => 10 + 3599 * 300) (fun _ => 5000000) (fun _ => 6000000)
           running_example running_example_wf); reflexivity.
Defined.

(** ** Programming a counter *)

Section Program.
Context {T V : Type} `{!CalloutOps T, !CalloutLaws T, !PulseFabric V}.
Implicit Types m : pmachine T V.

Lemma get_set_channel i c v : get_channel i (set_channel i c v) = c.
Proof. unfold get_channel, set_channel. by destruct (i =? 0), (i =? 1). Qed.

Lemma set_set_channel i c d v : set_channel i c (set_channel i d v) = set_channel i c v.
Proof. unfold set_channel. by destruct (i =? 0), (i =? 1). Qed.

(** The first byte is only stored. *)
Lemma counter_write_first clk i lo m : crbyte (get_channel i (pit m)) = 0 ->
  counter_write clk i lo m =
  m <| pit ::= set_channel i (get_channel i (pit m) <| cr ::= <[0%nat := u8 lo]> |> <| crbyte := 1 |>) |>.
Proof.
  intros H. unfold counter_write. cbv zeta. destruct (get_channel i (pit m)). cbn in H. by subst.
Qed.

(** A channel loaded with the count [n] at time [t]. *)
Definition loaded (c : channel) (lo hi t : Z) : channel :=
  c <| cr := [u8 lo; u8 hi] |> <| status ::= fun s => clr s TIMER_STS_NULLCNT |> <| frbyte := 0 |>
    <| crbyte := 0 |> <| initial := u8 lo + 256 * u8 hi |> <| now_sbt := t |>.

Lemma lor_shift8 lo hi : lo in_u 8 -> Z.lor lo (Z.shiftl hi 8) = lo + 256 * hi.
Proof.
  intros Hl. assert (D : Z.land lo (Z.shiftl hi 8) = 0).
  { apply Z.bits_inj'. intros i Hi. rewrite Z.land_spec, Z.shiftl_spec, Z.testbit_0_l by lia.
    destruct (Z.lt_ge_cases i 8); [rewrite (Z.testbit_neg_r hi) by lia; apply andb_false_r|].
    by rewrite (proj2 (proj1 (in_u_bits 8 lo ltac:(lia)) Hl) i) by lia. }
  rewrite <- Z.lxor_lor, <- Z.add_nocarry_lxor by done. rewrite Z.shiftl_mul_pow2 by lia. lia.
Qed.

Lemma pit_set_set i A B m :
  m <| pit ::= set_channel i A |> <| pit ::= set_channel i B |> = m <| pit ::= set_channel i B |>.
Proof. destruct m. unfold upd. cbn. by rewrite set_set_channel. Qed.

(** Both bytes: the channel before timer 0 is started. *)
Lemma counter_write_both clk clk' i lo hi m :
  crbyte (get_channel i (pit m)) = 0 -> byte2 (cr (get_channel i (pit m))) ->
  counter_write clk' i hi (counter_write clk i lo m) =
  let c := loaded (get_channel i (pit m)) lo hi (clk' 0%nat) in
  let m := m <| pit ::= set_channel i c |> in
  let m := if i =? 0
           then pit_timer_start_cntr0 (clk' 1%nat)
                  (m <| pit ::= fun v => v <| channel0 ::= fun c => c <| callout_sbt := now_sbt c |> |> |>)
           else m in
  if initial (get_channel i (pit m)) =? 0
  then m <| pit ::= fun v => set_channel i (get_channel i v <| initial := 0xffff |>) v |>
  else m.
Proof.
  intros Hb (a & b & Ecr & _). rewrite (counter_write_first clk i lo m) by done. cbv zeta.
  unfold counter_write. cbv zeta.
  change (pit (m <| pit ::= ?f |>)) with (f (pit m)). cbv beta. rewrite get_set_channel, !pit_set_set.
  cbn [crbyte cr upd]. rewrite Ecr. change (1 + 1 =? 2) with true. cbv iota.
  change (<[Z.to_nat 1 := u8 hi]> (<[0%nat := u8 lo]> [a; b])) with [u8 lo; u8 hi].
  cbn [nth]. rewrite lor_shift8 by apply u8_in_u.
  match goal with |- context [set_channel i ?B] =>
    replace B with (loaded (get_channel i (pit m)) lo hi (clk' 0%nat))
      by (unfold loaded; destruct (get_channel i (pit m)); cbn in *; by subst)
  end. reflexivity.
Qed.

(** Starting timer 0 only moves the target time of the channel. *)
Lemma timer_start_channel now m :
  exists x, channel0 (pit (pit_timer_start_cntr0 now m)) = channel0 (pit m) <| callout_sbt := x |>.
Proof.
  exists (callout_sbt (channel0 (pit (pit_timer_start_cntr0 now m)))).
  unfold pit_timer_start_cntr0. repeat split_if; cbn; by destruct (channel0 (pit m)).
Qed.

(** writing a 16-bit count.  Two byte writes to a counter port, low byte
    first, load the counter with that count (a zero count is replaced by
    0xffff), note the time of the second write, and clear the null-count
    status; this holds on all three channels. *)
Theorem counter_load (clk clk' : nat -> Z) (i lo hi : Z) m :
  0 <= i <= 2 -> wf_vatpit (pit m) -> crbyte (get_channel i (pit m)) = 0 ->
  let n := u8 lo + 256 * u8 hi in
  let m' := counter_write clk' i hi (counter_write clk i lo m) in
  let c' := get_channel i (pit m') in
  initial c' = (if n =? 0 then 0xffff else n) /\ now_sbt c' = clk' 0%nat /\ crbyte c' = 0 /\
  Z.testbit (status c') 6 = false.
Proof.
  intros Hi Hwf Hb. cbv zeta. destruct (wf_get_channel i _ Hwf) as [_ _ Hcr _ _ _ _ _].
  rewrite counter_write_both by done. cbv zeta. destruct m as [v t w]. cbn [pit upd timer fabric] in *.
  set (c := loaded (get_channel i v) lo hi (clk' 0%nat)).
  assert (Hc : now_sbt c = clk' 0%nat /\ crbyte c = 0 /\ Z.testbit (status c) 6 = false /\
               initial c = u8 lo + 256 * u8 hi).
  { unfold c, loaded. cbn -[clr Z.mul Z.testbit]. split_and!; try done.
    rewrite clr_testbit by lia. apply andb_false_r. }
  destruct Hc as (H1 & H2 & H3 & H4). clearbody c. rewrite <- H4.
  destruct (i =? 0) eqn:Ei0; [apply Z.eqb_eq in Ei0; subst i|].
  - cbn [pit upd set_channel get_channel Z.eqb].
    match goal with |- context [pit_timer_start_cntr0 ?n ?m0] =>
      destruct (timer_start_channel n m0) as (x & E); cbn [pit channel0 upd] in E end.
    rewrite E. cbn [initial upd]. destruct (initial c =? 0) eqn:En; cbn [pit upd channel0 set_channel get_channel Z.eqb];
      change (initial (c <| callout_sbt := now_sbt c |> <| callout_sbt := x |>)) with (initial c);
      rewrite ?En; cbn [pit upd channel0]; rewrite ?E; split_and!; done.
  - cbn [pit upd]. rewrite get_set_channel. destruct (initial c =? 0) eqn:En; cbn [pit upd];
      rewrite ?get_set_channel; done.
Qed.
(** What starting timer 0 does to the timers. *)
Lemma timer_start_timer now m :
  let c := channel0 (pit m) in
  let m' := pit_timer_start_cntr0 now m in
  if initial c =? 0 then m' = m
  else
    let delta := initial c * freq_sbt (pit m) in
    let d := if callout_sbt c + delta <? now then now + delta else callout_sbt c + delta in
    timer m' = co_reset 0 d (timer m) /\ callout_sbt (channel0 (pit m')) = d /\ fabric m' = fabric m.
Proof.
  cbv zeta. unfold pit_timer_start_cntr0. destruct (initial (channel0 (pit m)) =? 0); [done|].
  cbn [negb]. cbv zeta. cbn [callout_sbt upd]. split_if; done.
Qed.

(** loading counter 0 arms the interrupt timer: for a non-zero count [n]
    written at time [t0] the timer is pending and active, due [n] clock periods
    after [t0] (or after the later time [t1] at which it is armed, if that
    deadline has already passed); a zero count, which the counter treats as
    0xffff, arms nothing. *)
Theorem counter0_arms (clk clk' : nat -> Z) (lo hi : Z) m :
  wf_vatpit (pit m) -> co_ok 0 (timer m) -> crbyte (channel0 (pit m)) = 0 ->
  let n := u8 lo + 256 * u8 hi in
  let t0 := clk' 0%nat in let t1 := clk' 1%nat in
  let d := if t0 + n * 3599 <? t1 then t1 + n * 3599 else t0 + n * 3599 in
  let m' := counter_write clk' 0 hi (counter_write clk 0 lo m) in
  if n =? 0 then timer m' = timer m
  else timer m' = co_reset 0 d (timer m) /\ co_pending 0 (timer m') = true /\
       co_active 0 (timer m') = true /\ co_ok 0 (timer m').
Proof.
  intros Hwf Hok Hb. cbv zeta. destruct (wf_channel0 _ Hwf) as [_ _ Hcr _ _ _ _ _].
  rewrite counter_write_both by done. cbv zeta. cbn [Z.eqb].
  match goal with |- context [pit_timer_start_cntr0 ?t ?m0] => set (m1 := m0); set (t1 := t) end.
  pose proof (timer_start_timer t1 m1) as Ht. cbv zeta in Ht.
  change (initial (channel0 (pit m1))) with (u8 lo + 256 * u8 hi) in Ht.
  change (callout_sbt (channel0 (pit m1))) with (clk' 0%nat) in Ht.
  change (freq_sbt (pit m1)) with (freq_sbt (pit m)) in Ht. rewrite (wf_freq _ Hwf) in Ht.
  change (timer m1) with (timer m) in Ht. change (clk' 1%nat) with t1.
  assert (Hcase : forall (b : bool) f, timer (if b then pit_timer_start_cntr0 t1 m1 <| pit ::= f |>
    else pit_timer_start_cntr0 t1 m1) = timer (pit_timer_start_cntr0 t1 m1)) by (intros []; done).
  rewrite Hcase. destruct (u8 lo + 256 * u8 hi =? 0).
  - rewrite Ht. done.
  - destruct Ht as (-> & _). auto using reset_pending, reset_active, reset_ok.
Qed.

(** the periodic interrupt does not drift: when the timeout of a
    rate-generator counter 0 is served before a further period has passed, the
    interrupt line is pulsed at both controllers and the next timeout is
    exactly one period after the previous target, not after the current time. *)
Theorem rategen_no_drift (now : Z) m :
  let c := channel0 (pit m) in
  let delta := initial c * freq_sbt (pit m) in
  let m' := vatpit_callout_handler 0 now m in
  co_pending 0 (timer m) = false -> co_active 0 (timer m) = true ->
  mode c = TIMER_RATEGEN -> initial c <> 0 -> now <= callout_sbt c + delta ->
  timer m' = co_reset 0 (callout_sbt c + delta) (co_deactivate 0 (timer m)) /\
  callout_sbt (channel0 (pit m')) = callout_sbt c + delta /\
  fabric m' = pulse_ioapic 2 (pulse_atpic 0 (fabric m)).
Proof.
  cbv zeta. intros Hp Ha Hm Hn Hnow. unfold vatpit_callout_handler. rewrite Hp, Ha. cbn [negb].
  cbv zeta. cbn [pit upd]. change (get_channel 0 (pit m)) with (channel0 (pit m)). rewrite Hm.
  cbn [Z.eqb TIMER_RATEGEN Pos.eqb].
  pose proof (timer_start_timer now (m <| timer ::= co_deactivate 0 |>)) as Ht. cbv zeta in Ht.
  cbn [pit timer upd] in Ht. apply Z.eqb_neq in Hn. rewrite Hn in Ht.
  destruct (Z.ltb_spec (callout_sbt (channel0 (pit m)) + initial (channel0 (pit m)) * freq_sbt (pit m)) now);
    [lia|]. destruct Ht as (E1 & E2 & E3). cbn [timer pit fabric upd]. rewrite E1, E2, E3. done.
Qed.
End Program.

Definition idle_machine : pmachine timers (list pulse_call) := mk_pmachine vatpit_init no_timers [].

Lemma counter_load_witness :
  let n := u8 0x9c + 256 * u8 0x2e in
  let m' := counter_write (fun _ => 7) 2 0x2e (counter_write (fun _ => 5) 2 0x9c idle_machine) in
  let c' := get_channel 2 (pit m') in
  initial c' = (if n =? 0 then 0xffff else n) /\ now_sbt c' = 7 /\ crbyte c' = 0 /\
  Z.testbit (status c') 6 = false.
Proof.
  apply (counter_load (fun _ => 5) (fun _ => 7) 2 0x9c 0x2e idle_machine);
    [lia|exact pit_wf_init|reflexivity].
Defined.

Lemma counter0_arms_witness :
  let m' := counter_write (fun _ => 7) 0 0x2e (counter_write (fun _ => 5) 0 0x9c idle_machine) in
  co_pending 0 (timer m') = true.
Proof.
  pose proof (counter0_arms (fun _ => 5) (fun _ => 7) 0x9c 0x2e idle_machine pit_wf_init I eq_refl) as H.
  exact (proj1 (proj2 H)).
Defined.

(** Counter 0 in mode 2, its timeout being served. *)
Definition firing_machine : pmachine timers (list pulse_call) :=
  mk_pmachine
    (vatpit_init <| channel0 ::= fun c => c <| mode := TIMER_RATEGEN |> <| initial := 100 |> <| callout_sbt := 1000 |> |>)
    (fun _ => (None, true)) [].

Lemma rategen_no_drift_witness :
  let m' := vatpit_callout_handler 0 1200 firing_machine in
  callout_sbt (channel0 (pit m')) = 1000 + 100 * 3599 /\
  fabric m' = [PulseAtpic 0; PulseIoapic 2].
Proof.
  cbv zeta. destruct (rategen_no_drift 1200 firing_machine) as (_ & H2 & H3);
    [reflexivity|reflexivity|reflexivity|discriminate|vm_compute; discriminate|].
  split; [rewrite H2; vm_compute; reflexivity|rewrite H3; reflexivity].
Defined.
