(* ===== verification/Vioapic.v ===== *)
(** * The I/O APIC (src/src/vmm/io/vioapic.c)

    Twenty-four redirection entries, each with the assertion count of its pin.
    Interrupt messages go to the local APICs through the interface [MsgFabric],
    as does the rendezvous that recomputes the trigger-mode registers.
    [VIOAPIC_LOCK] makes the entry points atomic, except [vioapic_write], which
    drops the lock around the rendezvous: it is two steps of the relation
    [step], and other entry points may run in between. *)

From S2P Require Import Prelude Interface.

Record rtbl_entry : Type := mk_entry { reg : Z; acnt : Z }.
#[export] Instance eta_entry : Eta rtbl_entry := fun e => mk_entry (reg e) (acnt e).

Record vioapic : Type := mk_vioapic { id : Z; ioregsel : Z; rtbl : list rtbl_entry }.
#[export] Instance eta_vioapic : Eta vioapic := fun v => mk_vioapic (id v) (ioregsel v) (rtbl v).

Definition REDIR_ENTRIES : Z := 24.
Definition IOART_INTMASK : Z := 0x00010000.
Definition IOART_TRGRLVL : Z := 0x00008000.
Definition IOART_REM_IRR : Z := 0x00004000.
Definition IOART_INTPOL : Z := 0x00002000.
Definition IOART_DELIVS : Z := 0x00001000.
Definition IOART_DESTMOD : Z := 0x00000800.
Definition IOART_DELMOD : Z := 0x00000700.
Definition IOART_INTVEC : Z := 0x000000ff.
Definition RTBL_RO_BITS : Z := Z.lor IOART_REM_IRR IOART_DELIVS.
Definition APIC_ID_MASK : Z := 0xff000000.
Definition APIC_ID_SHIFT : Z := 24.
Definition MAXREDIRSHIFT : Z := 16.
Definition IOAPIC_ID : Z := 0x00.
Definition IOAPIC_VER : Z := 0x01.
Definition IOAPIC_ARB : Z := 0x02.
Definition IOAPIC_REDTBL : Z := 0x10.
Definition VIOAPIC_BASE : Z := 0xfec00000.
Definition IOREGSEL : Z := 0x00.
Definition IOWIN : Z := 0x10.

(** A decoded redirection entry: what goes on the bus. *)
Record intr_msg : Type := mk_msg {
  m_level : bool; m_dest : Z; m_phys : bool; m_delmode : Z; m_vector : Z }.

#[export] Instance intr_msg_eq_dec : EqDecision intr_msg.
Proof. solve_decision. Defined.

(** What the I/O APIC needs of the local APICs: [vlapic_deliver_intr], and the
    rendezvous of all vcpus on [vioapic_update_tmr], which resets each
    trigger-mode register and then offers it every level-triggered entry. *)
Class MsgFabric (V : Type) := {
  vlapic_deliver_intr : intr_msg -> V -> V;
  smp_rendezvous_tmr : list intr_msg -> V -> V;
}.

Definition entry_zero : rtbl_entry := mk_entry 0 0.
Definition get_pin (pin : Z) (v : vioapic) : rtbl_entry := nth (Z.to_nat pin) (rtbl v) entry_zero.
Definition set_pin (pin : Z) (e : rtbl_entry) (v : vioapic) : vioapic :=
  v <| rtbl ::= <[Z.to_nat pin := e]> |>.

(** The fields [vioapic_send_intr] and [vioapic_update_tmr] decode. *)
Definition decode (r : Z) : intr_msg :=
  let low := u32 r in
  let high := u32 (Z.shiftr r 32) in
  {| m_level := tst low IOART_TRGRLVL;
     m_dest := Z.shiftr high APIC_ID_SHIFT;
     m_phys := Z.land low IOART_DESTMOD =? 0;
     m_delmode := Z.land low IOART_DELMOD;
     m_vector := Z.land low IOART_INTVEC |}.

Definition vioapic_update_tmr (v : vioapic) : list intr_msg :=
  filter (fun m => m_level m = true) ((fun e => decode (reg e)) <$> rtbl v).

Definition vioapic_read (v : vioapic) (addr : Z) : Z :=
  let regnum := Z.land addr 0xff in
  if regnum =? IOAPIC_ID then id v
  else if regnum =? IOAPIC_VER then Z.lor (Z.shiftl (REDIR_ENTRIES - 1) MAXREDIRSHIFT) 0x11
  else if regnum =? IOAPIC_ARB then id v
  else if (IOAPIC_REDTBL <=? regnum) && (regnum <? IOAPIC_REDTBL + REDIR_ENTRIES * 2) then
    let pin := (regnum - IOAPIC_REDTBL) / 2 in
    let rshift := if negb ((regnum - IOAPIC_REDTBL) mod 2 =? 0) then 32 else 0 in
    u32 (Z.shiftr (reg (get_pin pin v)) rshift)
  else 0.

(** The update of one half of a redirection entry by a guest write. *)
Definition write_reg (r : Z) (lshift data : Z) : Z :=
  let data64 := u64 (Z.shiftl data lshift) in
  let mask64 := u64 (Z.shiftl 0xffffffff lshift) in
  Z.lor (Z.land r (Z.lor (u64 (Z.lnot mask64)) RTBL_RO_BITS))
        (Z.land data64 (u64 (Z.lnot RTBL_RO_BITS))).

(** The pin a register number selects, and which half of its entry. *)
Definition redir_pin (regnum : Z) : option (Z * Z) :=
  if (IOAPIC_REDTBL <=? regnum) && (regnum <? IOAPIC_REDTBL + REDIR_ENTRIES * 2) then
    Some ((regnum - IOAPIC_REDTBL) / 2,
          if negb ((regnum - IOAPIC_REDTBL) mod 2 =? 0) then 32 else 0)
  else None.

Section Machine.
Context {V : Type} `{!MsgFabric V}.
Definition imachine : Type := vioapic * V.

Definition vioapic_send_intr (pin : Z) (m : imachine) : imachine :=
  let '(v, w) := m in
  let r := reg (get_pin pin v) in
  if tst (u32 r) IOART_INTMASK then (v, w)
  else
    let msg := decode r in
    let v := if m_level msg
             then set_pin pin (get_pin pin v <| reg ::= fun x => Z.lor x IOART_REM_IRR |>) v
             else v in
    (v, vlapic_deliver_intr msg w).

Definition vioapic_set_pinstate (pin : Z) (newstate : bool) (m : imachine) : imachine :=
  let '(v, w) := m in
  let oldcnt := acnt (get_pin pin v) in
  let newcnt := if newstate then oldcnt + 1 else oldcnt - 1 in
  let v := set_pin pin (get_pin pin v <| acnt := newcnt |>) v in
  if (oldcnt =? 0) && (newcnt =? 1) then vioapic_send_intr pin (v, w) else (v, w).

Inductive irqstate : Type := IRQSTATE_ASSERT | IRQSTATE_DEASSERT | IRQSTATE_PULSE.

Definition vioapic_set_irqstate (irq : Z) (s : irqstate) (m : imachine) : result imachine :=
  if (irq <? 0) || (REDIR_ENTRIES <=? irq) then (EINVAL, m)
  else (0, match s with
           | IRQSTATE_ASSERT => vioapic_set_pinstate irq true m
           | IRQSTATE_DEASSERT => vioapic_set_pinstate irq false m
           | IRQSTATE_PULSE => vioapic_set_pinstate irq false (vioapic_set_pinstate irq true m)
           end).

Definition vioapic_assert_irq (irq : Z) := vioapic_set_irqstate irq IRQSTATE_ASSERT.
Definition vioapic_deassert_irq (irq : Z) := vioapic_set_irqstate irq IRQSTATE_DEASSERT.
Definition vioapic_pulse_irq (irq : Z) := vioapic_set_irqstate irq IRQSTATE_PULSE.

(** [vioapic_write] up to the point where it drops the lock: the new state and
    whether the trigger-mode registers must be recomputed. *)
Definition write_begin (addr data : Z) (v : vioapic) : vioapic * bool :=
  let regnum := Z.land addr 0xff in
  let v := if regnum =? IOAPIC_ID then v <| id := Z.land data APIC_ID_MASK |> else v in
  match redir_pin regnum with
  | Some (pin, lshift) =>
      let last := reg (get_pin pin v) in
      let v := set_pin pin (get_pin pin v <| reg ::= fun r => write_reg r lshift data |>) v in
      let changed := Z.lxor last (reg (get_pin pin v)) in
      (v, tst changed (u64 (Z.lnot (Z.lor IOART_INTMASK IOART_INTPOL))))
  | None => (v, false)
  end.

(** The rest of it, with the lock held again. *)
Definition write_end (addr : Z) (m : imachine) : imachine :=
  match redir_pin (Z.land addr 0xff) with
  | Some (pin, _) =>
      let e := get_pin pin m.1 in
      if negb (tst (reg e) IOART_INTMASK) && negb (tst (reg e) IOART_REM_IRR) && (0 <? acnt e)
      then vioapic_send_intr pin m else m
  | None => m
  end.

(** A write with no other entry point in the window. *)
Definition vioapic_write (addr data : Z) (m : imachine) : imachine :=
  let '(v, rendezvous) := write_begin addr data m.1 in
  let w := if rendezvous then smp_rendezvous_tmr (vioapic_update_tmr v) m.2 else m.2 in
  write_end addr (v, w).

(** [vioapic_mmio_rw]: the machine and [*data]; it always returns 0. *)
Definition vioapic_mmio_rw (gpa data size : Z) (doread : bool) (m : imachine) : imachine * Z :=
  let offset := u64 (gpa - VIOAPIC_BASE) in
  if negb (size =? 4) || (negb (offset =? IOREGSEL) && negb (offset =? IOWIN))
  then (m, if doread then 0 else data)
  else if offset =? IOREGSEL then
    if doread then (m, ioregsel m.1) else ((m.1 <| ioregsel := u32 data |>, m.2), data)
  else
    if doread then (m, vioapic_read m.1 (ioregsel m.1))
    else (vioapic_write (ioregsel m.1) (u32 data) m, data).

Definition vioapic_mmio_read (gpa size : Z) (m : imachine) : imachine * Z :=
  vioapic_mmio_rw gpa 0 size true m.
Definition vioapic_mmio_write (gpa wval size : Z) (m : imachine) : imachine * Z :=
  vioapic_mmio_rw gpa wval size false m.

(** One iteration of the loop of [vioapic_process_eoi]. *)
Definition eoi_pin (vector pin : Z) (m : imachine) : imachine :=
  let e := get_pin pin m.1 in
  if negb (tst (reg e) IOART_REM_IRR) then m
  else if negb (Z.land (reg e) IOART_INTVEC =? vector) then m
  else
    let v := set_pin pin (e <| reg ::= fun r => Z.land r (u64 (Z.lnot IOART_REM_IRR)) |>) m.1 in
    if 0 <? acnt e then vioapic_send_intr pin (v, m.2) else (v, m.2).

Definition vioapic_process_eoi (vector : Z) (m : imachine) : imachine :=
  foldl (fun m pin => eoi_pin vector pin m) m (seqZ 0 REDIR_ENTRIES).
End Machine.

Arguments imachine : clear implicits.

Definition vioapic_init : vioapic :=
  mk_vioapic 0 0 (replicate (Z.to_nat REDIR_ENTRIES) (mk_entry 0x0001000000010000 0)).

Definition vioapic_pincount : Z := REDIR_ENTRIES.

(** ** Well-formedness *)

Definition is_pin (pin : Z) : Prop := 0 <= pin < 24.

Record wf_vioapic (v : vioapic) : Prop := {
  wf_length : length (rtbl v) = 24%nat;
  wf_regs : Forall (fun e => reg e in_u 64) (rtbl v);
  wf_id : id v in_u 32;
}.

Lemma get_set_pin v pin e : wf_vioapic v -> is_pin pin -> get_pin pin (set_pin pin e v) = e.
Proof.
  intros [Hl _ _] [? ?]. unfold get_pin, set_pin. cbn.
  apply nth_lookup_Some, list_lookup_insert_eq. lia.
Qed.

Lemma get_set_pin_ne v pin pin' e : is_pin pin -> is_pin pin' -> pin' <> pin ->
  get_pin pin' (set_pin pin e v) = get_pin pin' v.
Proof.
  intros [? ?] [? ?] Hne. unfold get_pin, set_pin. cbn.
  rewrite !nth_lookup, list_lookup_insert_ne by lia. done.
Qed.

Lemma wf_get_pin v pin : wf_vioapic v -> reg (get_pin pin v) in_u 64.
Proof.
  intros [_ Hr _]. unfold get_pin. rewrite nth_lookup.
  destruct (rtbl v !! Z.to_nat pin) as [e|] eqn:E; cbn; [|lia].
  by eapply Forall_lookup_1 in Hr.
Qed.

Lemma wf_set_pin v pin e : wf_vioapic v -> reg e in_u 64 -> wf_vioapic (set_pin pin e v).
Proof.
  intros [Hl Hr Hi] He. constructor; cbn; [by rewrite length_insert|by apply Forall_insert|done].
Qed.

(** *** Bits of a redirection entry *)

Definition masked (r : Z) : bool := Z.testbit r 16.
Definition level (r : Z) : bool := Z.testbit r 15.
Definition rem_irr (r : Z) : bool := Z.testbit r 14.

Lemma tst_mask r : tst r IOART_INTMASK = masked r.
Proof. change IOART_INTMASK with (bit 16). by apply tst_bit. Qed.
Lemma tst_irr r : tst r IOART_REM_IRR = rem_irr r.
Proof. change IOART_REM_IRR with (bit 14). by apply tst_bit. Qed.

Lemma u32_testbit r i : 0 <= i < 32 -> Z.testbit (u32 r) i = Z.testbit r i.
Proof. intros. unfold u32. apply Z.mod_pow2_bits_low. lia. Qed.

Lemma tst_mask32 r : tst (u32 r) IOART_INTMASK = masked r.
Proof. rewrite tst_mask. unfold masked. by apply u32_testbit. Qed.

Lemma decode_level r : m_level (decode r) = level r.
Proof.
  unfold decode, level. cbn. change IOART_TRGRLVL with (bit 15).
  rewrite tst_bit by lia. by apply u32_testbit.
Qed.

Lemma set_irr_bits r i : 0 <= i -> Z.testbit (Z.lor r IOART_REM_IRR) i = Z.testbit r i || (14 =? i).
Proof. intros. change IOART_REM_IRR with (bit 14). by rewrite Z.lor_spec, bit_testbit. Qed.

(** ** Level-triggered interrupts are not lost *)

(** An unmasked level-triggered entry whose line is asserted has an interrupt
    outstanding: it waits for the EOI. *)
Definition level_ok (e : rtbl_entry) : Prop :=
  masked (reg e) = false -> level (reg e) = true -> 0 < acnt e -> rem_irr (reg e) = true.

Section Level.
Context {V : Type} `{!MsgFabric V}.
Implicit Types (v : vioapic) (m : imachine V).

Lemma send_intr_other pin pin' m : is_pin pin -> is_pin pin' -> pin' <> pin ->
  get_pin pin' (vioapic_send_intr pin m).1 = get_pin pin' m.1.
Proof.
  intros. destruct m as [v w]. unfold vioapic_send_intr. split_if; [done|].
  cbn [fst]. split_if; [|done]. by apply get_set_pin_ne.
Qed.

(** Sending raises the remote IRR of an unmasked level entry and changes
    nothing else in it. *)
Lemma send_intr_entry pin m : wf_vioapic m.1 -> is_pin pin ->
  let e := get_pin pin m.1 in
  get_pin pin (vioapic_send_intr pin m).1 =
  if negb (masked (reg e)) && level (reg e) then e <| reg ::= fun r => Z.lor r IOART_REM_IRR |> else e.
Proof.
  intros Hwf Hp. destruct m as [v w]. cbv zeta. unfold vioapic_send_intr. cbn [fst] in *.
  rewrite tst_mask32, decode_level. destruct (masked _); [done|]. cbn [negb andb].
  destruct (level _); [by apply get_set_pin|done].
Qed.

Lemma send_intr_ok pin m : wf_vioapic m.1 -> is_pin pin ->
  level_ok (get_pin pin (vioapic_send_intr pin m).1).
Proof.
  intros Hwf Hp. rewrite send_intr_entry by done.
  destruct (masked (reg (get_pin pin m.1))) eqn:Em; cbn [negb andb].
  - intros ?. congruence.
  - destruct (level (reg (get_pin pin m.1))) eqn:El; cbn [negb andb].
    + intros _ _ _. unfold rem_irr. cbn [reg upd]. rewrite set_irr_bits by lia. apply orb_true_r.
    + intros _ ?. congruence.
Qed.

Lemma wf_send_intr pin m : wf_vioapic m.1 -> wf_vioapic (vioapic_send_intr pin m).1.
Proof.
  intros H. destruct m as [v w]. unfold vioapic_send_intr. split_if; [done|]. cbn [fst].
  split_if; [|done]. apply wf_set_pin; [done|]. cbn [reg upd].
  apply lor_in_u; [lia|by apply wf_get_pin|vm_compute; split; [discriminate|reflexivity]].
Qed.

Definition level_inv (busy : list Z) v : Prop :=
  wf_vioapic v /\ forall pin, is_pin pin -> pin ∉ busy -> level_ok (get_pin pin v).

(** An operation on [pin] alone that re-establishes [level_ok] there. *)
Lemma level_inv_update busy v v' pin :
  level_inv busy v -> wf_vioapic v' ->
  (forall pin', is_pin pin' -> pin' <> pin -> get_pin pin' v' = get_pin pin' v) ->
  level_ok (get_pin pin v') -> level_inv busy v'.
Proof.
  intros [_ H] Hwf Ho Hp. split; [done|]. intros pin' Hpin' Hb.
  destruct (decide (pin' = pin)) as [->|Hne]; [done|]. rewrite Ho by done. by apply H.
Qed.

Lemma set_pinstate_inv busy pin b m : is_pin pin -> level_inv busy m.1 ->
  level_inv busy (vioapic_set_pinstate pin b m).1.
Proof.
  intros Hp Hinv. pose proof Hinv as [Hwf Hl]. destruct m as [v w]. unfold vioapic_set_pinstate.
  cbn [fst] in *. set (e := get_pin pin v). set (c := if b then acnt e + 1 else acnt e - 1).
  set (v1 := set_pin pin (e <| acnt := c |>) v).
  assert (Hwf1 : wf_vioapic v1) by (apply wf_set_pin; [done|cbn; by apply wf_get_pin]).
  assert (Ho : forall pin', is_pin pin' -> pin' <> pin -> get_pin pin' v1 = get_pin pin' v)
    by (intros; by apply get_set_pin_ne).
  destruct ((acnt e =? 0) && (c =? 1)) eqn:E.
  - eapply (level_inv_update busy v _ pin Hinv); [by apply wf_send_intr| |by apply send_intr_ok].
    intros pin' ? ?. rewrite send_intr_other by done. by apply Ho.
  - split; [done|]. intros pin' Hp' Hb. destruct (decide (pin' = pin)) as [->|Hne];
      [|rewrite Ho by done; by apply Hl].
    cbn [fst]. unfold v1. rewrite get_set_pin by done. specialize (Hl pin Hp Hb). fold e in Hl.
    intros Hm Hlv Hc. cbn [reg acnt upd] in *. apply Hl; try done.
    apply andb_false_iff in E. unfold c in *. destruct b, E; bools; lia.
Qed.

Lemma set_irqstate_inv busy irq s m : level_inv busy m.1 ->
  level_inv busy (vioapic_set_irqstate irq s m).2.1.
Proof.
  intros H. unfold vioapic_set_irqstate. destruct (_ || _) eqn:E; [done|]. bools.
  assert (is_pin irq) by (unfold is_pin, REDIR_ENTRIES in *; lia).
  destruct s; cbn [snd]; repeat apply set_pinstate_inv; done.
Qed.

Lemma eoi_pin_inv busy vector pin m : is_pin pin -> level_inv busy m.1 ->
  level_inv busy (eoi_pin vector pin m).1.
Proof.
  intros Hp Hinv. pose proof Hinv as [Hwf Hl]. unfold eoi_pin. split_if; [done|]. split_if; [done|].
  cbv zeta. set (e := get_pin pin m.1).
  set (e' := e <| reg ::= fun r => Z.land r (u64 (Z.lnot IOART_REM_IRR)) |>).
  assert (Hwf1 : wf_vioapic (set_pin pin e' m.1)).
  { apply wf_set_pin; [done|]. unfold e'. cbn [reg upd]. apply land_in_u_l; [lia|by apply wf_get_pin]. }
  assert (Ho : forall pin', is_pin pin' -> pin' <> pin -> get_pin pin' (set_pin pin e' m.1) = get_pin pin' m.1)
    by (intros; by apply get_set_pin_ne).
  destruct (0 <? acnt e) eqn:Ec; bools.
  - eapply (level_inv_update busy m.1 _ pin Hinv); [by apply wf_send_intr| |by apply send_intr_ok].
    intros pin' ? ?. rewrite send_intr_other by done. by apply Ho.
  - eapply (level_inv_update busy m.1 _ pin Hinv); [done|done|]. cbn [fst].
    rewrite get_set_pin by done. intros _ _ Hc. unfold e' in Hc. cbn in Hc. lia.
Qed.

Lemma process_eoi_inv busy vector m : level_inv busy m.1 ->
  level_inv busy (vioapic_process_eoi vector m).1.
Proof.
  unfold vioapic_process_eoi. intros H.
  assert (Hf : forall pins m, (forall p, p ∈ pins -> is_pin p) -> level_inv busy m.1 ->
    level_inv busy (foldl (fun m pin => eoi_pin vector pin m) m pins).1).
  { intros pins. induction pins as [|p pins IH]; intros m0 Hp Hm; [done|]. cbn. apply IH.
    - intros q Hq. apply Hp. by right.
    - apply eoi_pin_inv; [|done]. apply Hp. by left. }
  apply Hf; [|done]. intros p Hp. apply elem_of_seqZ in Hp. unfold is_pin, REDIR_ENTRIES in *. lia.
Qed.

Lemma redir_pin_range regnum pin sh : redir_pin regnum = Some (pin, sh) -> is_pin pin /\ (sh = 0 \/ sh = 32).
Proof.
  unfold redir_pin. destruct (_ && _) eqn:E; [|done]. bools. intros [= <- <-]. split.
  - unfold is_pin, IOAPIC_REDTBL, REDIR_ENTRIES in *. split; [apply Z.div_pos; lia|].
    apply Z.div_lt_upper_bound; lia.
  - destruct (negb _); auto.
Qed.

Lemma write_reg_in_u r sh data : r in_u 64 -> write_reg r sh data in_u 64.
Proof.
  intros Hr. unfold write_reg. apply lor_in_u; [lia| |].
  - by apply land_in_u_l.
  - apply land_in_u_l; [lia|apply u64_in_u].
Qed.

(** The pins a write to [addr] has in its window. *)
Definition write_window (addr : Z) : list Z :=
  match redir_pin (Z.land addr 0xff) with Some (pin, _) => [pin] | None => [] end.

Lemma write_begin_inv busy addr data v : level_inv busy v ->
  level_inv (write_window addr ++ busy) (write_begin addr data v).1.
Proof.
  intros [Hwf Hl]. unfold write_begin, write_window. cbv zeta.
  set (v1 := if Z.land addr 0xff =? IOAPIC_ID then _ else v).
  assert (H1 : wf_vioapic v1 /\ forall pin, get_pin pin v1 = get_pin pin v).
  { unfold v1. split_if; [|done]. split; [|done]. destruct Hwf. constructor; cbn; try done.
    apply land_in_u_r; [lia|vm_compute; split; [discriminate|reflexivity]]. }
  destruct H1 as [Hwf1 Hg]. clearbody v1. destruct (redir_pin _) as [[pin sh]|] eqn:E; cbn [fst app].
  - apply redir_pin_range in E as [Hp _]. split.
    + apply wf_set_pin; [done|]. cbn [reg upd]. apply write_reg_in_u. by apply wf_get_pin.
    + intros pin' Hp' [Hne Hb]%not_elem_of_cons. rewrite get_set_pin_ne, Hg by done. by apply Hl.
  - split; [done|]. intros pin Hp Hb. rewrite Hg. by apply Hl.
Qed.

Lemma write_end_inv busy addr m :
  level_inv (write_window addr ++ busy) m.1 -> level_inv busy (write_end addr m).1.
Proof.
  intros [Hwf Hl]. unfold write_end, write_window in *. destruct (redir_pin _) as [[pin sh]|] eqn:E; [|done].
  apply redir_pin_range in E as [Hp _]. cbv zeta. rewrite tst_mask, tst_irr.
  assert (Hside : forall v', wf_vioapic v' ->
    (forall pin', is_pin pin' -> pin' <> pin -> get_pin pin' v' = get_pin pin' m.1) ->
    level_ok (get_pin pin v') -> level_inv busy v').
  { intros v' Hwf' Ho Hok. split; [done|]. intros pin' Hp' Hb.
    destruct (decide (pin' = pin)) as [->|Hne]; [done|]. rewrite Ho by done.
    apply Hl; [done|]. by apply not_elem_of_cons. }
  destruct (negb _ && _ && _) eqn:Ec; bools.
  - apply Hside; [by apply wf_send_intr| |by apply send_intr_ok].
    intros. by apply send_intr_other.
  - apply Hside; [done|done|]. intros Hm _ Ha. rewrite Hm in Ec. cbn in Ec.
    apply andb_false_iff in Ec as [Ec|Ec]; bools; [done|lia].
Qed.

(** The configurations of the relation: the machine and the pins whose entry a
    write has changed but not yet re-evaluated. *)
Inductive step : imachine V * list Z -> imachine V * list Z -> Prop :=
| step_irqstate irq s m busy : step (m, busy) ((vioapic_set_irqstate irq s m).2, busy)
| step_eoi vector m busy : step (m, busy) (vioapic_process_eoi vector m, busy)
| step_select data m busy : step (m, busy) ((m.1 <| ioregsel := u32 data |>, m.2), busy)
| step_write_begin addr data v w w' busy :
    step ((v, w), busy) (((write_begin addr data v).1, w'), write_window addr ++ busy)
| step_write_end addr m busy1 busy2 :
    step (m, busy1 ++ write_window addr ++ busy2) (write_end addr m, busy1 ++ busy2)
| step_environment v w w' busy : step ((v, w), busy) ((v, w'), busy).

Lemma level_inv_incl busy busy' v : (forall p, p ∈ busy -> p ∈ busy') ->
  level_inv busy v -> level_inv busy' v.
Proof. intros Hi [Hwf Hl]. split; [done|]. intros pin Hp Hb. apply Hl; auto. Qed.

Lemma step_inv c c' : step c c' -> level_inv c.2 c.1.1 -> level_inv c'.2 c'.1.1.
Proof.
  destruct 1 as [irq s m busy|vector m busy|data m busy|addr data v w w' busy|addr m b1 b2|v w w' busy];
    cbn [fst snd]; intros H.
  - by apply set_irqstate_inv.
  - by apply process_eoi_inv.
  - destruct H as [[? ? ?] Hl]. split; [by constructor|exact Hl].
  - by apply write_begin_inv.
  - apply write_end_inv. eapply level_inv_incl, H. intros p. rewrite !elem_of_app. tauto.
  - done.
Qed.

Lemma init_inv : level_inv [] vioapic_init.
Proof.
  split.
  - constructor; cbn; [done| |lia]. repeat constructor; vm_compute; done.
  - intros pin [? ?] _. unfold get_pin, vioapic_init. cbn [rtbl]. rewrite nth_lookup.
    rewrite lookup_replicate_2 by (unfold REDIR_ENTRIES; lia). cbn. intros Hm. vm_compute in Hm. done.
Qed.

(** C35: no level-triggered interrupt is lost, under any interleaving of line
    changes, EOIs and register writes, including the window in which a write
    has dropped the lock: at every reachable state an unmasked level-triggered
    entry whose line is asserted has its interrupt outstanding (remote IRR
    set, to be re-evaluated at the EOI), unless a write to that very entry is
    still in its window, in which case the end of the write re-evaluates it. *)
Theorem reachable_level_ok (w : V) (m : imachine V) (busy : list Z) :
  rtc step ((vioapic_init, w), []) (m, busy) ->
  forall pin, is_pin pin -> pin ∉ busy -> level_ok (get_pin pin m.1).
Proof.
  intros R. assert (G : level_inv [] vioapic_init) by apply init_inv.
  assert (H : forall c c', rtc step c c' -> level_inv c.2 c.1.1 -> level_inv c'.2 c'.1.1)
    by (induction 1; eauto using step_inv).
  apply (H _ _ R G).
Qed.
End Level.

(** The messages as a log. *)
Inductive msg_call : Type := Deliver (m : intr_msg) | Rendezvous (l : list intr_msg).

#[export] Instance log_msgs : MsgFabric (list msg_call) := {
  vlapic_deliver_intr m log := log ++ [Deliver m];
  smp_rendezvous_tmr l log := log ++ [Rendezvous l];
}.

(** Pin 5 programmed as level triggered, vector 0x35, then asserted. *)
Lemma reachable_level_ok_witness :
  exists m : imachine (list msg_call),
    rtc step ((vioapic_init, []), []) (m, []) /\ acnt (get_pin 5 m.1) = 1 /\
    level_ok (get_pin 5 m.1).
Proof.
  set (v1 := (write_begin 0x1a 0x8035 vioapic_init).1).
  set (m2 := write_end 0x1a ((v1, []) : imachine (list msg_call))).
  set (m3 := (vioapic_set_irqstate 5 IRQSTATE_ASSERT m2).2).
  assert (R : rtc step ((vioapic_init, [] : list msg_call), []) (m3, [])).
  { eapply rtc_l; [apply (step_write_begin 0x1a 0x8035)|].
    eapply rtc_l; [apply (step_write_end 0x1a _ [] [])|].
    eapply rtc_l; [apply (step_irqstate 5 IRQSTATE_ASSERT)|apply rtc_refl]. }
  exists m3. split; [exact R|]. split; [vm_compute; reflexivity|].
  apply (reachable_level_ok [] m3 [] R 5); [unfold is_pin; lia|apply not_elem_of_nil].
Defined.

(** ** Registers *)

Lemma write_reg_testbit r sh data i : sh = 0 \/ sh = 32 -> data in_u 32 -> 0 <= i < 64 ->
  Z.testbit (write_reg r sh data) i =
  if (i =? 12) || (i =? 14) then Z.testbit r i
  else if (sh <=? i) && (i <? sh + 32) then Z.testbit data (i - sh) else Z.testbit r i.
Proof.
  intros Hsh Hd Hi. unfold write_reg. cbv zeta.
  assert (Hro : Z.testbit RTBL_RO_BITS i = (i =? 12) || (i =? 14)).
  { change RTBL_RO_BITS with (Z.lor (bit 12) (bit 14)). rewrite Z.lor_spec, !bit_testbit by lia.
    by rewrite (Z.eqb_sym 12), (Z.eqb_sym 14). }
  assert (Hw : forall x, Z.testbit (u64 x) i = Z.testbit x i) by (intros; apply Z.mod_pow2_bits_low; lia).
  assert (Hm : Z.testbit (Z.shiftl 0xffffffff sh) i = (sh <=? i) && (i <? sh + 32)).
  { rewrite Z.shiftl_spec by lia. destruct (Z.leb_spec sh i); cbn [andb].
    - change 0xffffffff with (Z.ones 32). destruct (Z.ltb_spec i (sh + 32)).
      + apply Z.ones_spec_low. lia.
      + apply Z.ones_spec_high. lia.
    - apply Z.testbit_neg_r. lia. }
  rewrite Z.lor_spec, !Z.land_spec, Z.lor_spec, !Hw, !Z.lnot_spec, !Hw, Hm, Hro, Z.shiftl_spec by lia.
  assert (Hz : (sh <=? i) && (i <? sh + 32) = false -> Z.testbit data (i - sh) = false).
  { intros [Hlt|Hge]%andb_false_iff; bools; [by apply Z.testbit_neg_r; lia|].
    apply (proj1 (in_u_bits 32 data ltac:(lia)) Hd). lia. }
  destruct ((sh <=? i) && (i <? sh + 32)); [|rewrite Hz by done];
    destruct ((i =? 12) || (i =? 14)), (Z.testbit r i); cbn; try done.
  all: by destruct (Z.testbit data (i - sh)).
Qed.

Lemma read_redir v addr pin sh : redir_pin (Z.land addr 0xff) = Some (pin, sh) ->
  vioapic_read v addr = u32 (Z.shiftr (reg (get_pin pin v)) sh).
Proof.
  intros H. unfold redir_pin in H. unfold vioapic_read. destruct (_ && _) eqn:E; [|done].
  injection H as <- <-. bools. unfold IOAPIC_REDTBL in *.
  repeat match goal with |- context [?a =? ?b] =>
    first [replace (a =? b) with false by (symmetry; apply Z.eqb_neq; unfold IOAPIC_ID, IOAPIC_VER, IOAPIC_ARB in *; lia) | fail 1] end.
  done.
Qed.

Lemma read_testbit v addr pin sh i : redir_pin (Z.land addr 0xff) = Some (pin, sh) -> 0 <= i < 32 ->
  Z.testbit (vioapic_read v addr) i = Z.testbit (reg (get_pin pin v)) (i + sh).
Proof. intros H Hi. rewrite (read_redir _ _ _ _ H), u32_testbit, Z.shiftr_spec by lia. done. Qed.

Lemma write_begin_entry v addr data pin sh : wf_vioapic v ->
  redir_pin (Z.land addr 0xff) = Some (pin, sh) ->
  forall pin', is_pin pin' ->
  get_pin pin' (write_begin addr data v).1 =
  if pin' =? pin then get_pin pin v <| reg ::= fun r => write_reg r sh data |> else get_pin pin' v.
Proof.
  intros Hwf H pin' Hp'. unfold write_begin. cbv zeta. rewrite H.
  pose proof (redir_pin_range _ _ _ H) as [Hp _].
  replace (Z.land addr 0xff =? IOAPIC_ID) with false; cycle 1.
  { symmetry. apply Z.eqb_neq. unfold redir_pin in H. destruct (_ && _) eqn:E; [|done]. bools.
    unfold IOAPIC_REDTBL, IOAPIC_ID in *. lia. }
  cbn [fst]. destruct (Z.eqb_spec pin' pin) as [->|Hne]; [by apply get_set_pin|by apply get_set_pin_ne].
Qed.

(** the redirection registers behave as registers with two read-only
    bits.  After a guest writes [data] to one 32-bit half of an entry, every
    half of every entry reads as before, except that the written half reads as
    [data] in all bits other than remote IRR (14) and delivery status (12),
    which a write never changes. *)
Theorem redir_write_read (v : vioapic) (addr addr' data pin sh pin' sh' i : Z) :
  wf_vioapic v -> data in_u 32 -> 0 <= i < 32 ->
  redir_pin (Z.land addr 0xff) = Some (pin, sh) ->
  redir_pin (Z.land addr' 0xff) = Some (pin', sh') ->
  let v' := (write_begin addr data v).1 in
  Z.testbit (vioapic_read v' addr') i =
  if (pin' =? pin) && (sh' =? sh) && negb ((sh =? 0) && ((i =? 12) || (i =? 14)))
  then Z.testbit data i else Z.testbit (vioapic_read v addr') i.
Proof.
  intros Hwf Hd Hi H H'. cbv zeta.
  pose proof (redir_pin_range _ _ _ H) as [Hp Hsh]. pose proof (redir_pin_range _ _ _ H') as [Hp' Hsh'].
  rewrite !(read_testbit _ _ _ _ _ H') by done. rewrite (write_begin_entry v addr data pin sh) by done.
  destruct (Z.eqb_spec pin' pin) as [->|Hne]; [|done]. cbn [reg upd andb].
  rewrite write_reg_testbit by (done || lia).
  destruct Hsh as [->| ->], Hsh' as [->| ->]; cbn [Z.eqb andb Pos.eqb negb].
  - rewrite Z.add_0_r, Z.sub_0_r. replace ((0 <=? i) && (i <? 0 + 32)) with true by (symmetry; lia).
    by destruct ((i =? 12) || (i =? 14)).
  - replace ((0 <=? i + 32) && (i + 32 <? 0 + 32)) with false by (symmetry; lia). by split_if.
  - rewrite Z.add_0_r. replace ((32 <=? i) && (i <? 32 + 32)) with false by (symmetry; lia). by split_if.
  - replace ((i + 32 =? 12) || (i + 32 =? 14)) with false by (symmetry; lia).
    replace ((32 <=? i + 32) && (i + 32 <? 32 + 32)) with true by (symmetry; lia).
    f_equal. lia.
Qed.

Lemma redir_write_read_witness :
  Z.testbit (vioapic_read (write_begin 0x1a 0x8035 vioapic_init).1 0x1a) 15 = true.
Proof.
  refine (redir_write_read vioapic_init 0x1a 0x1a 0x8035 5 0 5 0 15 _ _ _ _ _).
  - exact (proj1 init_inv).
  - lia.
  - lia.
  - reflexivity.
  - reflexivity.
Defined.

(** ** Delivery *)
Section Delivery.
Context {V : Type} `{!MsgFabric V}.

Lemma wf_write_end addr (m : imachine V) : wf_vioapic m.1 -> wf_vioapic (write_end addr m).1.
Proof.
  intros H. unfold write_end. destruct (redir_pin _) as [[pin sh]|]; [|done]. split_if; [|done]. by apply wf_send_intr.
Qed.

Lemma wf_write_begin addr data v : wf_vioapic v -> data in_u 32 -> wf_vioapic (write_begin addr data v).1.
Proof.
  intros H Hd. unfold write_begin.
  set (v1 := if _ =? IOAPIC_ID then _ else v).
  assert (H1 : wf_vioapic v1).
  { unfold v1. split_if; [|done]. destruct H. split; cbn; try done. apply land_in_u_l; [lia|done]. }
  clearbody v1. destruct (redir_pin _) as [[pin sh]|] eqn:E; [|done]. cbn. apply wf_set_pin; [done|].
  cbn. apply write_reg_in_u. by apply wf_get_pin.
Qed.

(** What the I/O APIC's operations preserve of the machine around it. *)
Definition around (J : V -> Prop) (m : imachine V) : Prop := wf_vioapic m.1 /\ J m.2.

Section Around.
Context (J : V -> Prop) (Hdeliver : forall r w, r in_u 64 -> J w -> J (vlapic_deliver_intr (decode r) w)).
Context (Hrendezvous : forall v w, wf_vioapic v -> J w -> J (smp_rendezvous_tmr (vioapic_update_tmr v) w)).
Implicit Types m : imachine V.

Lemma around_send pin m : around J m -> around J (vioapic_send_intr pin m).
Proof.
  intros [Hw HJ]. split; [by apply wf_send_intr|]. destruct m as [v w]. unfold vioapic_send_intr.
  split_if; [done|]. cbn. apply Hdeliver; [by apply wf_get_pin|done].
Qed.

Lemma around_pinstate pin b m : around J m -> around J (vioapic_set_pinstate pin b m).
Proof.
  intros [Hw HJ]. unfold vioapic_set_pinstate. destruct m as [v w].
  set (v1 := set_pin _ _ v). assert (H1 : around J (v1, w)) by (split; [apply wf_set_pin; [done|by apply wf_get_pin]|done]).
  split_if; [by apply around_send|done].
Qed.

Lemma around_irqstate irq st m : around J m -> around J (vioapic_set_irqstate irq st m).2.
Proof. intros H. unfold vioapic_set_irqstate. split_if; [done|]. destruct st; cbn; repeat apply around_pinstate; done. Qed.

Lemma around_eoi_pin vector pin m : around J m -> around J (eoi_pin vector pin m).
Proof.
  intros [Hw HJ]. unfold eoi_pin. split_if; [done|]. split_if; [done|]. cbv zeta.
  set (v1 := set_pin _ _ _). assert (H1 : around J (v1, m.2)).
  { split; [|done]. apply wf_set_pin; [done|]. cbn. apply land_in_u_l; [lia|]. by apply wf_get_pin. }
  split_if; [by apply around_send|done].
Qed.

Lemma around_eoi vector m : around J m -> around J (vioapic_process_eoi vector m).
Proof.
  unfold vioapic_process_eoi. generalize (seqZ 0 REDIR_ENTRIES). intros l. revert m.
  induction l as [|pin l IH]; intros m H; [done|]. cbn. by apply IH, around_eoi_pin.
Qed.

Lemma around_write addr data m : data in_u 32 -> around J m -> around J (vioapic_write addr data m).
Proof.
  intros Hd [Hw HJ]. unfold vioapic_write. pose proof (wf_write_begin addr data m.1 Hw Hd) as H1.
  destruct (write_begin addr data m.1) as [v r]. cbn in H1. cbv zeta.
  set (w := if r then _ else _). assert (Hw' : J w) by (unfold w; destruct r; [by apply Hrendezvous|done]).
  unfold write_end. destruct (redir_pin _) as [[pin sh]|]; [|by split]. split_if; [by apply around_send|by split].
Qed.
End Around.

Lemma send_intr_fabric pin v (w : V) :
  (vioapic_send_intr pin (v, w)).2 =
  if masked (reg (get_pin pin v)) then w else vlapic_deliver_intr (decode (reg (get_pin pin v))) w.
Proof. unfold vioapic_send_intr. rewrite tst_mask32. by split_if. Qed.

Lemma send_intr_acnt pin v (w : V) : wf_vioapic v -> is_pin pin ->
  acnt (get_pin pin (vioapic_send_intr pin (v, w)).1) = acnt (get_pin pin v).
Proof. intros. rewrite send_intr_entry by done. cbv zeta. cbn [fst]. by split_if. Qed.

(** a pulse on an idle line delivers exactly one message, the one its
    redirection entry describes, and none if the entry is masked; the line is
    idle again afterwards.  An out-of-range line is refused without effect. *)
Theorem pulse_delivers (v : vioapic) (w : V) (irq : Z) :
  wf_vioapic v ->
  (is_pin irq -> acnt (get_pin irq v) = 0 ->
   let r := vioapic_pulse_irq irq (v, w) in
   let e := get_pin irq v in
   r.1 = 0 /\ acnt (get_pin irq r.2.1) = 0 /\
   r.2.2 = if masked (reg e) then w else vlapic_deliver_intr (decode (reg e)) w) /\
  (~ is_pin irq -> vioapic_pulse_irq irq (v, w) = (EINVAL, (v, w))).
Proof.
  intros Hwf. split.
  - intros Hp Ha. cbv zeta. unfold vioapic_pulse_irq, vioapic_set_irqstate.
    replace ((irq <? 0) || (REDIR_ENTRIES <=? irq)) with false
      by (symmetry; unfold is_pin, REDIR_ENTRIES in *; lia).
    cbn [fst snd]. split; [done|]. set (e := get_pin irq v).
    assert (E1 : vioapic_set_pinstate irq true (v, w) =
      vioapic_send_intr irq (set_pin irq (e <| acnt := 1 |>) v, w)).
    { unfold vioapic_set_pinstate. by rewrite Ha. }
    set (v1 := set_pin irq (e <| acnt := 1 |>) v) in *.
    assert (Hwf1 : wf_vioapic v1) by (apply wf_set_pin; [done|cbn; by apply wf_get_pin]).
    assert (Eg : get_pin irq v1 = e <| acnt := 1 |>) by (by apply get_set_pin).
    pose proof (send_intr_acnt irq v1 w Hwf1 Hp) as Hc. rewrite Eg in Hc. cbn [acnt upd] in Hc.
    pose proof (send_intr_fabric irq v1 w) as Hf. rewrite Eg in Hf. cbn [reg upd] in Hf.
    pose proof (wf_send_intr irq (v1, w) Hwf1) as Hwf2. rewrite E1.
    destruct (vioapic_send_intr irq (v1, w)) as [v2 w2]. cbn [fst snd] in *.
    unfold vioapic_set_pinstate. rewrite Hc. cbn [Z.eqb andb fst snd].
    rewrite get_set_pin by done. split; [done|exact Hf].
  - intros Hn. unfold vioapic_pulse_irq, vioapic_set_irqstate.
    replace ((irq <? 0) || (REDIR_ENTRIES <=? irq)) with true; [done|].
    symmetry. unfold is_pin, REDIR_ENTRIES in *. lia.
Qed.
End Delivery.

Lemma pulse_delivers_witness :
  let v := (write_begin 0x14 0x0930 vioapic_init).1 in
  (vioapic_pulse_irq 2 (v, [] : list msg_call)).2.2 = [Deliver (mk_msg false 0 false 0x100 0x30)].
Proof.
  cbv zeta.
  destruct (pulse_delivers (write_begin 0x14 0x0930 vioapic_init).1 ([] : list msg_call) 2) as [H _].
  - exact (proj1 (write_begin_inv [] 0x14 0x0930 vioapic_init init_inv)).
  - destruct H as (_ & _ & H); [unfold is_pin; lia|vm_compute; reflexivity|].
    rewrite H. vm_compute. reflexivity.
Defined.
