(* ===== verification/Calendar.v ===== *)
(** * Calendar time (vrtc.c, the clock conversions)

    [clock_ct_to_ts] and [clock_ts_to_ct] convert between seconds since the
    epoch and calendar fields.  Both walk over the years and the months; the
    two kinds of walk are the combinators [add_upto] and [sub_while].  The
    fuel of [sub_while] bounds the number of iterations; [sub_while_spec] and
    [sub_while_eq] show that it is never exhausted where it is used. *)

From S2P Require Import Prelude.

Record clocktime : Type := mk_clocktime {
  year : Z; mon : Z; day : Z; hour : Z; min : Z; sec : Z; dow : Z; nsec : Z;
}.
#[export] Instance eta_clocktime : Eta clocktime := fun c =>
  mk_clocktime (year c) (mon c) (day c) (hour c) (min c) (sec c) (dow c) (nsec c).

Record timespec : Type := mk_timespec { tv_sec : Z; tv_nsec : Z }.
#[export] Instance eta_timespec : Eta timespec := fun t => mk_timespec (tv_sec t) (tv_nsec t).

Definition POSIX_BASE_YEAR : Z := 1970.
Definition SECDAY : Z := 24 * 60 * 60.

Definition month_days : list Z := [31; 28; 31; 30; 31; 30; 31; 31; 30; 31; 30; 31].

Definition leapyear (y : Z) : Z :=
  if Z.land y 3 =? 0 then
    if Z.rem y 100 =? 0 then if Z.rem y 400 =? 0 then 1 else 0 else 1
  else 0.

Definition days_in_year (y : Z) : Z := if negb (leapyear y =? 0) then 366 else 365.
Definition days_in_month (y m : Z) : Z :=
  default 0 (month_days !! Z.to_nat (m - 1)) + (if m =? 2 then leapyear y else 0).
Definition day_of_week (days : Z) : Z := Z.rem (days + 4) 7.

(** [for (; n > 0; i++) days += f(i);] *)
Fixpoint add_upto (f : Z -> Z) (n : nat) (i days : Z) : Z :=
  match n with
  | O => days
  | S n' => add_upto f n' (i + 1) (days + f i)
  end.

(** [for (; days >= f(i); i++) days -= f(i);] *)
Fixpoint sub_while (f : Z -> Z) (fuel : nat) (i days : Z) : Z * Z :=
  match fuel with
  | O => (i, days)
  | S fuel' => if f i <=? days then sub_while f fuel' (i + 1) (days - f i) else (i, days)
  end.

(** [None] is [EINVAL]. *)
Definition clock_ct_to_ts (ct : clocktime) : option timespec :=
  let y := year ct in
  if (mon ct <? 1) || (12 <? mon ct) || (day ct <? 1) || (days_in_month y (mon ct) <? day ct) ||
     (23 <? hour ct) || (59 <? min ct) || (59 <? sec ct) then None
  else
    let days := add_upto days_in_year (Z.to_nat (y - POSIX_BASE_YEAR)) POSIX_BASE_YEAR 0 in
    let days := add_upto (days_in_month y) (Z.to_nat (mon ct - 1)) 1 days in
    let days := days + (day ct - 1) in
    Some (mk_timespec (((days * 24 + hour ct) * 60 + min ct) * 60 + sec ct) (nsec ct)).

Definition clock_ts_to_ct (ts : timespec) : clocktime :=
  let secs := tv_sec ts in
  let days := i32 (Z.quot secs SECDAY) in
  let rsec := Z.rem secs SECDAY in
  let wday := day_of_week days in
  let '(y, days) := sub_while days_in_year (S (Z.to_nat days)) POSIX_BASE_YEAR days in
  let '(m, days) := sub_while (days_in_month y) 12 1 days in
  mk_clocktime y m (days + 1) (Z.quot rsec 3600) (Z.quot (Z.rem rsec 3600) 60)
    (Z.rem (Z.rem rsec 3600) 60) wday (tv_nsec ts).

(** ** Walking over consecutive spans *)

(** The total length of the [n] spans from [i] on. *)
Fixpoint spans (f : Z -> Z) (n : nat) (i : Z) : Z :=
  match n with O => 0 | S n' => f i + spans f n' (i + 1) end.

Lemma add_upto_spans f n i d : add_upto f n i d = d + spans f n i.
Proof. revert i d. induction n as [|n IH]; intros i d; cbn; [lia|]. rewrite IH. lia. Qed.

Lemma spans_snoc f n i : spans f (S n) i = spans f n i + f (i + Z.of_nat n).
Proof.
  revert i. induction n as [|n IH]; intros i; [cbn; rewrite !Z.add_0_r; lia|].
  change (spans f (S (S n)) i) with (f i + spans f (S n) (i + 1)). rewrite IH. cbn [spans].
  replace (i + 1 + Z.of_nat n) with (i + Z.of_nat (S n)) by lia. lia.
Qed.

Lemma spans_app f a b i : spans f (a + b) i = spans f a i + spans f b (i + Z.of_nat a).
Proof.
  revert i. induction a as [|a IH]; intros i; cbn [spans Nat.add]; [by rewrite Z.add_0_r|].
  rewrite IH. replace (i + 1 + Z.of_nat a) with (i + Z.of_nat (S a)) by lia. lia.
Qed.

Lemma spans_nonneg f n i :
  (forall j, i <= j < i + Z.of_nat n -> 0 <= f j) -> 0 <= spans f n i.
Proof.
  revert i. induction n as [|n IH]; intros i Hf; cbn [spans]; [lia|].
  assert (0 <= spans f n (i + 1)) by (apply IH; intros j Hj; apply Hf; lia).
  specialize (Hf i ltac:(lia)). lia.
Qed.

Lemma sub_while_eq f fuel n i d :
  (n < fuel)%nat -> 0 <= d < f (i + Z.of_nat n) ->
  (forall j, i <= j < i + Z.of_nat n -> 0 <= f j) ->
  sub_while f fuel i (spans f n i + d) = (i + Z.of_nat n, d).
Proof.
  revert n i. induction fuel as [|fuel IH]; intros n i Hn Hd Hf; [lia|].
  destruct n as [|n]; cbn [sub_while spans].
  - rewrite Z.add_0_r in *. rewrite Z.add_0_l. destruct (Z.leb_spec (f i) d); [lia|done].
  - assert (0 <= spans f n (i + 1)) by (apply spans_nonneg; intros j Hj; apply Hf; lia).
    destruct (Z.leb_spec (f i) (f i + spans f n (i + 1) + d)); [|lia].
    replace (f i + spans f n (i + 1) + d - f i) with (spans f n (i + 1) + d) by lia.
    replace (i + Z.of_nat (S n)) with (i + 1 + Z.of_nat n) in * by lia.
    apply IH; [lia|done|]. intros j Hj. apply Hf. lia.
Qed.

Lemma sub_while_spec f fuel i d :
  0 <= d < spans f fuel i ->
  exists n, (n < fuel)%nat /\ sub_while f fuel i d = (i + Z.of_nat n, d - spans f n i) /\
    0 <= d - spans f n i < f (i + Z.of_nat n).
Proof.
  revert i d. induction fuel as [|fuel IH]; intros i d Hd; cbn [sub_while spans] in *; [lia|].
  destruct (Z.leb_spec (f i) d) as [Hle|Hlt].
  - destruct (IH (i + 1) (d - f i) ltac:(lia)) as (n & Hn & E & Hr). exists (S n).
    rewrite E. cbn [spans]. replace (i + Z.of_nat (S n)) with (i + 1 + Z.of_nat n) by lia.
    split; [lia|]. split; [f_equal; lia|lia].
  - exists O. cbn. rewrite Z.add_0_r. split; [lia|]. split; [f_equal; lia|lia].
Qed.

(** ** Years and months *)

Lemma leapyear_mod y : 0 <= y ->
  leapyear y = if (y mod 4 =? 0) && (negb (y mod 100 =? 0) || (y mod 400 =? 0)) then 1 else 0.
Proof.
  intros Hy. unfold leapyear. rewrite !Z.rem_mod_nonneg by lia.
  change 3 with (Z.ones 2). rewrite Z.land_ones by lia. change (2 ^ 2) with 4.
  by destruct (y mod 4 =? 0), (y mod 100 =? 0), (y mod 400 =? 0).
Qed.

Lemma leapyear_01 y : leapyear y = 0 \/ leapyear y = 1.
Proof. unfold leapyear. repeat split_if; auto. Qed.

Lemma days_in_year_range y : 365 <= days_in_year y <= 366.
Proof. unfold days_in_year. split_if; lia. Qed.

Lemma month_cases m : 1 <= m <= 12 -> m ∈ [1; 2; 3; 4; 5; 6; 7; 8; 9; 10; 11; 12].
Proof. intros H. rewrite !elem_of_cons. lia. Qed.

Lemma days_in_month_range y m : 1 <= m <= 12 -> 28 <= days_in_month y m <= 31.
Proof.
  intros H%month_cases. unfold days_in_month. rewrite !elem_of_cons in H.
  destruct (leapyear_01 y) as [-> | ->];
    repeat (destruct H as [-> |H]; [vm_compute; split; discriminate|]); by apply elem_of_nil in H.
Qed.

(** The twelve months fill the year. *)
Lemma months_fill_year y : spans (days_in_month y) 12 1 = days_in_year y.
Proof.
  unfold days_in_month, days_in_year. cbn -[leapyear].
  destruct (leapyear_01 y) as [-> | ->]; reflexivity.
Qed.

(** A day of a month lies inside its year. *)
Lemma month_offset y m d : 1 <= m <= 12 -> 1 <= d <= days_in_month y m ->
  0 <= spans (days_in_month y) (Z.to_nat (m - 1)) 1 + (d - 1) < days_in_year y.
Proof.
  intros Hm Hd. rewrite <- (months_fill_year y).
  assert (Hpos : forall a i, 1 <= i -> i + Z.of_nat a <= 13 -> 0 <= spans (days_in_month y) a i).
  { intros a i ? ?. apply spans_nonneg. intros j Hj. pose proof (days_in_month_range y j ltac:(lia)). lia. }
  replace 12%nat with (Z.to_nat (m - 1) + S (Z.to_nat (12 - m)))%nat by lia.
  rewrite spans_app. cbn [spans]. replace (1 + Z.of_nat (Z.to_nat (m - 1))) with m by lia.
  pose proof (Hpos (Z.to_nat (m - 1)) 1 ltac:(lia) ltac:(lia)).
  pose proof (Hpos (Z.to_nat (12 - m)) (m + 1) ltac:(lia) ltac:(lia)). lia.
Qed.

Lemma years_small n y : spans days_in_year n y <= 366 * Z.of_nat n.
Proof.
  revert y. induction n as [|n IH]; intros y; cbn [spans]; [lia|].
  pose proof (days_in_year_range y). specialize (IH (y + 1)). lia.
Qed.

Lemma years_large n y : 365 * Z.of_nat n <= spans days_in_year n y.
Proof.
  revert y. induction n as [|n IH]; intros y; cbn [spans]; [lia|].
  pose proof (days_in_year_range y). specialize (IH (y + 1)). lia.
Qed.

(** the year walk counts days as the Gregorian calendar does: before the
    first of January of year [y] lie 365 days for each year since 1970, plus
    one for each multiple of 4, less one for each multiple of 100, plus one
    for each multiple of 400 in between. *)
Theorem years_gregorian y : POSIX_BASE_YEAR <= y ->
  add_upto days_in_year (Z.to_nat (y - POSIX_BASE_YEAR)) POSIX_BASE_YEAR 0 =
  365 * (y - 1970) + (y - 1969) / 4 - (y - 1901) / 100 + (y - 1601) / 400.
Proof.
  unfold POSIX_BASE_YEAR. intros Hy. rewrite add_upto_spans.
  replace y with (1970 + Z.of_nat (Z.to_nat (y - 1970))) at 2 3 4 5 by lia.
  generalize (Z.to_nat (y - 1970)). clear. intros n. induction n as [|n IH]; [done|].
  rewrite spans_snoc, Z.add_assoc, IH. unfold days_in_year. rewrite leapyear_mod by lia.
  set (a := 1970 + Z.of_nat n). replace (1970 + Z.of_nat (S n)) with (a + 1) by lia.
  assert (1970 <= a) by lia. clearbody a. clear IH n.
  destruct (Z.eqb_spec (a mod 4) 0), (Z.eqb_spec (a mod 100) 0), (Z.eqb_spec (a mod 400) 0);
    cbn [andb orb negb Z.eqb]; Z.to_euclidean_division_equations; lia.
Qed.

Lemma years_gregorian_witness :
  add_upto days_in_year (Z.to_nat (2024 - POSIX_BASE_YEAR)) POSIX_BASE_YEAR 0 =
  365 * (2024 - 1970) + (2024 - 1969) / 4 - (2024 - 1901) / 100 + (2024 - 1601) / 400.
Proof. apply years_gregorian. discriminate. Defined.

(** ** Round trips *)

Definition valid_ct (c : clocktime) : Prop :=
  1 <= mon c <= 12 /\ 1 <= day c <= days_in_month (year c) (mon c) /\
  0 <= hour c <= 23 /\ 0 <= min c <= 59 /\ 0 <= sec c <= 59.

Lemma valid_ct_checks c : valid_ct c ->
  (mon c <? 1) || (12 <? mon c) || (day c <? 1) || (days_in_month (year c) (mon c) <? day c) ||
  (23 <? hour c) || (59 <? min c) || (59 <? sec c) = false.
Proof.
  intros (? & ? & ? & ? & ?).
  rewrite !orb_false_iff, !Z.ltb_ge. lia.
Qed.

Lemma hms_split h mi se : 0 <= h <= 23 -> 0 <= mi <= 59 -> 0 <= se <= 59 ->
  let r := (h * 60 + mi) * 60 + se in
  Z.quot r 3600 = h /\ Z.quot (Z.rem r 3600) 60 = mi /\ Z.rem (Z.rem r 3600) 60 = se.
Proof.
  intros Hh Hm Hs r. rewrite !Z.quot_div_nonneg, !Z.rem_mod_nonneg by (try apply Z.mod_pos_bound; lia).
  subst r. Z.to_euclidean_division_equations; lia.
Qed.

(** The fields [clock_ts_to_ct] computes. *)
Lemma ts_to_ct_split ts : 0 <= tv_sec ts < 2 ^ 31 * SECDAY ->
  let ct := clock_ts_to_ct ts in
  exists ny nm : nat, year ct = POSIX_BASE_YEAR + Z.of_nat ny /\ mon ct = 1 + Z.of_nat nm /\
    tv_sec ts / SECDAY = spans days_in_year ny POSIX_BASE_YEAR +
      (spans (days_in_month (year ct)) nm 1 + (day ct - 1)) /\
    valid_ct ct /\ 365 * Z.of_nat ny <= tv_sec ts / SECDAY /\
    tv_sec ts mod SECDAY = (hour ct * 60 + min ct) * 60 + sec ct /\
    nsec ct = tv_nsec ts /\ 0 <= dow ct <= 6.
Proof.
  intros Hs. unfold clock_ts_to_ct. cbv zeta.
  assert (HD : SECDAY = 86400) by done.
  rewrite Z.quot_div_nonneg, Z.rem_mod_nonneg by lia.
  pose proof (Z.mod_pos_bound (tv_sec ts) SECDAY ltac:(lia)) as Hr.
  set (D := tv_sec ts / SECDAY). set (r := tv_sec ts mod SECDAY) in *.
  assert (HDb : 0 <= D < 2 ^ 31).
  { split; [apply Z.div_pos; lia|apply Z.div_lt_upper_bound; lia]. }
  rewrite i32_small by done. clearbody D r.
  destruct (sub_while_spec days_in_year (S (Z.to_nat D)) POSIX_BASE_YEAR D) as (ny & _ & -> & Hy).
  { pose proof (years_large (S (Z.to_nat D)) POSIX_BASE_YEAR). lia. }
  set (y := POSIX_BASE_YEAR + Z.of_nat ny) in *.
  destruct (sub_while_spec (days_in_month y) 12 1 (D - spans days_in_year ny POSIX_BASE_YEAR))
    as (nm & Hnm & -> & Hm); [by rewrite months_fill_year|].
  exists ny, nm. cbn. pose proof (years_large ny POSIX_BASE_YEAR).
  unfold day_of_week. rewrite !Z.quot_div_nonneg, !Z.rem_mod_nonneg by (try apply Z.mod_pos_bound; lia).
  split; [done|]. split; [done|]. split; [lia|]. split.
  { unfold valid_ct. cbn.
    split; [lia|]. split; [lia|]. Z.to_euclidean_division_equations; lia. }
  split; [lia|]. split; [|split; [done|]]; Z.to_euclidean_division_equations; lia.
Qed.

Lemma ts_ct_inverse ts : 0 <= tv_sec ts < 2 ^ 31 * SECDAY ->
  clock_ct_to_ts (clock_ts_to_ct ts) = Some ts.
Proof.
  intros Hs. destruct (ts_to_ct_split ts Hs) as (ny & nm & Ey & Em & Ed & V & _ & Er & En & _).
  set (ct := clock_ts_to_ct ts) in *. clearbody ct.
  unfold clock_ct_to_ts. cbv zeta. rewrite valid_ct_checks by done.
  rewrite !add_upto_spans, Ey, Em, Z.add_simpl_l, Z.add_simpl_l, !Nat2Z.id, <- Ey.
  destruct ts as [s ns]. cbn [tv_sec tv_nsec] in *. rewrite <- En. do 2 f_equal.
  pose proof (Z.div_mod s SECDAY ltac:(done)). change SECDAY with 86400 in *. lia.
Qed.

(** converting seconds to calendar fields and back is the identity, for
    every time whose day number fits an [int]. *)
Theorem ts_ct_roundtrip ts : 0 <= tv_sec ts < 2 ^ 31 * SECDAY ->
  clock_ct_to_ts (clock_ts_to_ct ts) = Some ts.
Proof. apply ts_ct_inverse. Qed.

Lemma ts_ct_roundtrip_witness :
  clock_ct_to_ts (clock_ts_to_ct (mk_timespec 1709210096 5)) = Some (mk_timespec 1709210096 5).
Proof. apply ts_ct_roundtrip. vm_compute. split; [discriminate|reflexivity]. Defined.

(** a valid date from 1970 on converts to seconds and back to the same
    fields; only the day of the week, which the first conversion ignores, is
    recomputed. *)
Theorem ct_ts_roundtrip ct : valid_ct ct -> 1970 <= year ct <= 5000000 ->
  exists ts, clock_ct_to_ts ct = Some ts /\ 0 <= tv_sec ts /\
    clock_ts_to_ct ts = ct <| dow := (tv_sec ts / SECDAY + 4) mod 7 |>.
Proof.
  intros V Hy. unfold clock_ct_to_ts. cbv zeta. rewrite valid_ct_checks by done.
  eexists. split; [reflexivity|]. cbn [tv_sec].
  destruct V as (Hm & Hd & Hh & Hmi & Hse). rewrite !add_upto_spans, Z.add_0_l.
  pose proof (month_offset _ _ _ Hm Hd) as HB.
  set (ny := Z.to_nat (year ct - POSIX_BASE_YEAR)). set (nm := Z.to_nat (mon ct - 1)) in *.
  set (A := spans days_in_year ny POSIX_BASE_YEAR). set (B := spans (days_in_month (year ct)) nm 1) in *.
  assert (Ey : POSIX_BASE_YEAR + Z.of_nat ny = year ct) by (subst ny; unfold POSIX_BASE_YEAR; lia).
  assert (Em : 1 + Z.of_nat nm = mon ct) by lia.
  pose proof (years_small ny POSIX_BASE_YEAR : A <= _). pose proof (years_large ny POSIX_BASE_YEAR : _ <= A).
  set (D := A + B + (day ct - 1)).
  set (s := ((D * 24 + hour ct) * 60 + min ct) * 60 + sec ct).
  assert (s / SECDAY = D /\ s mod SECDAY = (hour ct * 60 + min ct) * 60 + sec ct) as [Eq Er].
  { change SECDAY with 86400. subst s. clearbody D. clear -Hh Hmi Hse. Z.to_euclidean_division_equations; lia. }
  assert (HD : 0 <= D < 2 ^ 31).
  { pose proof (days_in_year_range (year ct)). unfold POSIX_BASE_YEAR in Ey. subst D. lia. }
  split; [subst s; lia|]. unfold clock_ts_to_ct. cbn [tv_sec tv_nsec]. cbv zeta.
  rewrite Z.quot_div_nonneg, Z.rem_mod_nonneg by (unfold SECDAY; subst s; lia).
  rewrite Eq, Er, i32_small by done.
  unfold day_of_week. rewrite (Z.rem_mod_nonneg (D + 4)) by lia.
  replace (sub_while days_in_year _ _ _) with (year ct, B + (day ct - 1)).
  2: { replace D with (A + (B + (day ct - 1))) at 2 by lia. rewrite <- Ey at 1. symmetry. apply sub_while_eq.
       - unfold A in *. lia.
       - by rewrite Ey.
       - intros j _. pose proof (days_in_year_range j). lia. }
  replace (sub_while _ _ _ _) with (mon ct, day ct - 1).
  2: { rewrite <- Em at 1. symmetry. apply sub_while_eq; [lia|rewrite Em; lia|].
       intros j Hj. pose proof (days_in_month_range (year ct) j ltac:(lia)). lia. }
  destruct (hms_split _ _ _ Hh Hmi Hse) as (-> & -> & ->).
  destruct ct. cbn. rewrite Z.sub_add. reflexivity.
Qed.

Lemma ct_ts_roundtrip_witness :
  exists ts, clock_ct_to_ts (mk_clocktime 2024 2 29 23 59 58 0 7) = Some ts /\ 0 <= tv_sec ts /\
    clock_ts_to_ct ts =
      mk_clocktime 2024 2 29 23 59 58 0 7 <| dow := (tv_sec ts / SECDAY + 4) mod 7 |>.
Proof. apply ct_ts_roundtrip; vm_compute; repeat split; discriminate. Defined.
