(* ===== verification/Vrtc.v ===== *)
(** * The real-time clock (vrtc.c)

    The MC146818 RTC.  [struct rtcdev] is a packed structure of 128 bytes that
    the code accesses both by field and by byte offset, so it is the list of
    its bytes here and a field is its offset.  Every entry point takes the
    device lock and is one command; a command reads the host clocks through a
    counter of readings, so two readings inside one call are two values.
    [time_t] and [sbintime_t] values are unbounded integers: they count
    seconds and fractions of seconds of uptime, far from the limits of 64
    bits. *)

From S2P Require Import Prelude Effects Interface Calendar.
Local Open Scope cmd_scope.

Definition bin2bcd_data : list Z := [
  0x00; 0x01; 0x02; 0x03; 0x04; 0x05; 0x06; 0x07; 0x08; 0x09;
  0x10; 0x11; 0x12; 0x13; 0x14; 0x15; 0x16; 0x17; 0x18; 0x19;
  0x20; 0x21; 0x22; 0x23; 0x24; 0x25; 0x26; 0x27; 0x28; 0x29;
  0x30; 0x31; 0x32; 0x33; 0x34; 0x35; 0x36; 0x37; 0x38; 0x39;
  0x40; 0x41; 0x42; 0x43; 0x44; 0x45; 0x46; 0x47; 0x48; 0x49;
  0x50; 0x51; 0x52; 0x53; 0x54; 0x55; 0x56; 0x57; 0x58; 0x59;
  0x60; 0x61; 0x62; 0x63; 0x64; 0x65; 0x66; 0x67; 0x68; 0x69;
  0x70; 0x71; 0x72; 0x73; 0x74; 0x75; 0x76; 0x77; 0x78; 0x79;
  0x80; 0x81; 0x82; 0x83; 0x84; 0x85; 0x86; 0x87; 0x88; 0x89;
  0x90; 0x91; 0x92; 0x93; 0x94; 0x95; 0x96; 0x97; 0x98; 0x99].

(** Offsets of the fields of [struct rtcdev]. *)
Definition SEC : Z := 0.
Definition ALARM_SEC : Z := 1.
Definition MIN : Z := 2.
Definition ALARM_MIN : Z := 3.
Definition HOUR : Z := 4.
Definition ALARM_HOUR : Z := 5.
Definition DAY_OF_WEEK : Z := 6.
Definition DAY_OF_MONTH : Z := 7.
Definition MONTH : Z := 8.
Definition YEAR : Z := 9.
Definition REG_A : Z := 10.
Definition REG_B : Z := 11.
Definition REG_C : Z := 12.
Definition REG_D : Z := 13.
Definition NVRAM : Z := 14.
Definition RTC_CENTURY : Z := 0x32.
Definition SIZEOF_RTCDEV : Z := 128.

Record vrtc : Type := mk_vrtc {
  addr : Z;
  base_uptime : Z;
  base_rtctime : Z;
  rtcdev : list Z;
}.
#[export] Instance eta_vrtc : Eta vrtc := fun v =>
  mk_vrtc (addr v) (base_uptime v) (base_rtctime v) (rtcdev v).

Definition rd (off : Z) (v : vrtc) : Z := default 0 (rtcdev v !! Z.to_nat off).
Definition wr (off x : Z) (v : vrtc) : vrtc := v <| rtcdev ::= <[Z.to_nat off := x]> |>.

Definition VRTC_BROKEN_TIME : Z := -1.
Definition RTC_IRQ : Z := 8.
Definition RTCSA_TUP : Z := 0x80.
Definition RTCSB_24HR : Z := 0x02.
Definition RTCSB_BIN : Z := 0x04.
Definition RTCSB_SQWE : Z := 0x08.
Definition RTCSB_UINTR : Z := 0x10.
Definition RTCSB_AINTR : Z := 0x20.
Definition RTCSB_PINTR : Z := 0x40.
Definition RTCSB_HALT : Z := 0x80.
Definition RTCSB_ALL_INTRS : Z := Z.lor (Z.lor RTCSB_UINTR RTCSB_AINTR) RTCSB_PINTR.
Definition RTCIR_UPDATE : Z := 0x10.
Definition RTCIR_ALARM : Z := 0x20.
Definition RTCIR_PERIOD : Z := 0x40.
Definition RTCIR_INT : Z := 0x80.
Definition RTCSD_PWR : Z := 0x80.
Definition RTC_STATUSD : Z := 0x0d.
Definition SBT_1S : Z := Z.shiftl 1 32.
Definition EBUSY : Z := 16.
Definition rtc_flag_broken_time : bool := true.

Definition rtc_halted (v : vrtc) : bool := tst (rd REG_B v) RTCSB_HALT.
Definition aintr_enabled (v : vrtc) : bool := tst (rd REG_B v) RTCSB_AINTR.
Definition pintr_enabled (v : vrtc) : bool := tst (rd REG_B v) RTCSB_PINTR.
Definition uintr_enabled (v : vrtc) : bool := tst (rd REG_B v) RTCSB_UINTR.

Definition divider_enabled (reg_a : Z) : bool := Z.land reg_a 0x70 =? 0x20.

Definition update_enabled (v : vrtc) : bool :=
  if negb (divider_enabled (rd REG_A v)) then false
  else if rtc_halted v then false
  else if base_rtctime v =? VRTC_BROKEN_TIME then false
  else true.

Definition pf : list Z := [0;
  SBT_1S / 256; SBT_1S / 128; SBT_1S / 8192; SBT_1S / 4096; SBT_1S / 2048;
  SBT_1S / 1024; SBT_1S / 512; SBT_1S / 256; SBT_1S / 128; SBT_1S / 64;
  SBT_1S / 32; SBT_1S / 16; SBT_1S / 8; SBT_1S / 4; SBT_1S / 2].

Definition vrtc_freq (v : vrtc) : Z :=
  if pintr_enabled v && divider_enabled (rd REG_A v) then
    default 0 (pf !! Z.to_nat (Z.land (rd REG_A v) 0xf))
  else if aintr_enabled v && update_enabled v then SBT_1S
  else if uintr_enabled v && update_enabled v then SBT_1S
  else 0.

(** [rtcget]: [None] is the error return. *)
Definition rtcget (v : vrtc) (val : Z) : option Z :=
  if tst (rd REG_B v) RTCSB_BIN then Some val
  else
    let lower := Z.land val 0xf in
    let upper := Z.land (Z.shiftr val 4) 0xf in
    if (9 <? lower) || (9 <? upper) then None else Some (upper * 10 + lower).

(** A field of [rtc_to_secs]: decoded and checked against its bounds. *)
Definition rtc_field (v : vrtc) (off lo hi : Z) : option Z :=
  x ← rtcget v (rd off v); if (x <? lo) || (hi <? x) then None else Some x.

(** The hour, in either format; an undecodable 12-hour value leaves [ct.hour]
    at the zero [bzero] put there. *)
Definition rtc_hour (v : vrtc) : option Z :=
  let h := rd HOUR v in
  let h24 := tst (rd REG_B v) RTCSB_24HR in
  let pm := negb h24 && tst h 0x80 in
  let h := if pm then clr h 0x80 else h in
  let r := rtcget v h in
  let ct_hour := default 0 r in
  ct_hour ← (if h24 then Some ct_hour
             else if (1 <=? ct_hour) && (ct_hour <=? 12) then
               let x := if ct_hour =? 12 then 0 else ct_hour in
               Some (if pm then x + 12 else x)
             else None);
  _ ← r;
  if (ct_hour <? 0) || (23 <? ct_hour) then None else Some ct_hour.

Definition rtc_to_secs (v : vrtc) : Z :=
  default VRTC_BROKEN_TIME (
    s ← rtc_field v SEC 0 59;
    mi ← rtc_field v MIN 0 59;
    h ← rtc_hour v;
    d ← rtc_field v DAY_OF_MONTH 1 31;
    mo ← rtc_field v MONTH 1 12;
    y ← rtc_field v YEAR 0 99;
    c ← rtcget v (rd RTC_CENTURY v);
    let yr := c * 100 + y in
    if yr <? 1900 then None
    else
      ts ← clock_ct_to_ts (mk_clocktime yr mo d h mi s (-1) 0);
      if tv_sec ts <? 0 then None else Some (tv_sec ts)).

(** ** The device and the host it runs on *)

Record rmachine (T V : Type) : Type := mk_rmachine {
  dev : vrtc;
  timer : T;
  fabric : V;
  ticks : nat;
}.
Arguments mk_rmachine {T V}.
Arguments dev {T V}.
Arguments timer {T V}.
Arguments fabric {T V}.
Arguments ticks {T V}.
#[export] Instance eta_rmachine T V : Eta (rmachine T V) := fun m =>
  mk_rmachine (dev m) (timer m) (fabric m) (ticks m).

Section Device.
Context {T V : Type} `{!CalloutOps T, !PulseFabric V}.

(** The [n]-th clock reading: [sbinuptime()], the seconds of
    [clock_get_time(mach_clock)] and [mach_absolute_time()]; the device's own
    callout. *)
Variables (uptime wall hosttime : nat -> Z) (me : Z).

Local Abbreviation M := (cmd (rmachine T V)).

Definition clock {A} (read : nat -> A) : M A := fun m => Return (read (ticks m), m <| ticks ::= S |>).
Definition set_dev (f : vrtc -> vrtc) : M unit := update (fun m => m <| dev ::= f |>).

Definition vrtc_curtime : M (Z * Z) :=
  v <- gets dev ;;
  if update_enabled v then
    now <- clock uptime ;;
    let delta := now - base_uptime v in
    KASSERT (0 <=? delta) ;;;
    let secs := Z.quot delta SBT_1S in
    ret (base_rtctime v + secs, base_uptime v + secs * SBT_1S)
  else ret (base_rtctime v, base_uptime v).

Definition rtcset (val : Z) : M Z :=
  KASSERT ((0 <=? val) && (val <? 100)) ;;;
  v <- gets dev ;;
  ret (u8 (if tst (rd REG_B v) RTCSB_BIN then val else default 0 (bin2bcd_data !! Z.to_nat val))).

(** [rtc->field = rtcset(rtc, val)] *)
Definition set_field (off val : Z) : M unit := x <- rtcset val ;; set_dev (wr off x).

Definition secs_to_rtc (rtctime : Z) (force_update : bool) : M unit :=
  if rtctime <? 0 then KASSERT (rtctime =? VRTC_BROKEN_TIME)
  else
    v <- gets dev ;;
    if rtc_halted v && negb force_update then skip
    else
      s <- clock wall ;;
      let ct := clock_ts_to_ct (mk_timespec s 0) in
      KASSERT ((0 <=? sec ct) && (sec ct <=? 59)) ;;;
      KASSERT ((0 <=? min ct) && (min ct <=? 59)) ;;;
      KASSERT ((0 <=? hour ct) && (hour ct <=? 23)) ;;;
      KASSERT ((0 <=? dow ct) && (dow ct <=? 6)) ;;;
      KASSERT ((1 <=? day ct) && (day ct <=? 31)) ;;;
      KASSERT ((1 <=? mon ct) && (mon ct <=? 12)) ;;;
      KASSERT (1900 <=? year ct) ;;;
      set_field SEC (sec ct) ;;;
      set_field MIN (min ct) ;;;
      v <- gets dev ;;
      let h24 := tst (rd REG_B v) RTCSB_24HR in
      let h := if h24 then hour ct
               else if (hour ct =? 0) || (hour ct =? 12) then 12
               else Z.rem (hour ct) 12 in
      set_field HOUR h ;;;
      when (negb h24 && (12 <=? hour ct)) (set_dev (fun v => wr HOUR (Z.lor (rd HOUR v) 0x80) v)) ;;;
      set_field DAY_OF_WEEK (dow ct + 1) ;;;
      set_field DAY_OF_MONTH (day ct) ;;;
      set_field MONTH (mon ct) ;;;
      set_field YEAR (Z.rem (year ct) 100) ;;;
      set_field RTC_CENTURY (Z.quot (year ct) 100).

Definition vrtc_set_reg_c (newval : Z) : M unit :=
  v <- gets dev ;;
  let newval := Z.land newval (Z.lor (Z.lor RTCIR_ALARM RTCIR_PERIOD) RTCIR_UPDATE) in
  let oldirqf := tst (rd REG_C v) RTCIR_INT in
  let newirqf := (aintr_enabled v && tst newval RTCIR_ALARM) ||
                 (pintr_enabled v && tst newval RTCIR_PERIOD) ||
                 (uintr_enabled v && tst newval RTCIR_UPDATE) in
  set_dev (wr REG_C (Z.lor (if newirqf then RTCIR_INT else 0) newval)) ;;;
  when (negb oldirqf && newirqf) (
    update (fun m => m <| fabric ::= pulse_atpic RTC_IRQ |>) ;;;
    update (fun m => m <| fabric ::= pulse_ioapic RTC_IRQ |>)).

(** The body of the loop of [vrtc_time_update], and the loop. *)
Definition alarm_matches (a_sec a_min a_hour : Z) (v : vrtc) : bool :=
  ((0xC0 <=? a_sec) || (a_sec =? rd SEC v)) &&
  ((0xC0 <=? a_min) || (a_min =? rd MIN v)) &&
  ((0xC0 <=? a_hour) || (a_hour =? rd HOUR v)).

Definition time_tick (oldtime newtime a_sec a_min a_hour : Z) : M unit :=
  v <- gets dev ;;
  set_dev (fun v => v <| base_rtctime :=
    if aintr_enabled v && negb (oldtime =? VRTC_BROKEN_TIME) then base_rtctime v + 1 else newtime |>) ;;;
  when (aintr_enabled v) (
    t <- gets (fun m => base_rtctime (dev m)) ;;
    secs_to_rtc t false ;;;
    v <- gets dev ;;
    when (alarm_matches a_sec a_min a_hour v)
      (vrtc_set_reg_c (Z.lor (rd REG_C v) RTCIR_ALARM))).

Fixpoint time_loop (fuel : nat) (oldtime newtime a_sec a_min a_hour : Z) : M unit :=
  match fuel with
  | O => fun _ => Hang
  | S fuel' =>
      time_tick oldtime newtime a_sec a_min a_hour ;;;
      t <- gets (fun m => base_rtctime (dev m)) ;;
      if t =? newtime then skip else time_loop fuel' oldtime newtime a_sec a_min a_hour
  end.

Definition vrtc_time_update (newtime newbase : Z) : M Z :=
  v <- gets dev ;;
  let oldtime := base_rtctime v in
  set_dev (fun v => v <| base_uptime := newbase |>) ;;;
  if newtime =? oldtime then ret 0
  else if newtime =? VRTC_BROKEN_TIME then
    set_dev (fun v => v <| base_rtctime := VRTC_BROKEN_TIME |>) ;;;
    ret 0
  else if rtc_halted v then ret EBUSY
  else
    time_loop (S (Z.to_nat (newtime - oldtime))) oldtime newtime
      (rd ALARM_SEC v) (rd ALARM_MIN v) (rd ALARM_HOUR v) ;;;
    v <- gets dev ;;
    when (uintr_enabled v) (vrtc_set_reg_c (Z.lor (rd REG_C v) RTCIR_UPDATE)) ;;;
    ret 0.

Definition vrtc_callout_reset (freqsbt : Z) : M unit :=
  if freqsbt =? 0 then
    t <- gets timer ;;
    when (co_active me t) (update (fun m => m <| timer ::= co_stop me |>))
  else
    now <- clock hosttime ;;
    update (fun m => m <| timer ::= co_reset_in me freqsbt now |>).

Definition vrtc_callout_check (freq : Z) : M unit :=
  t <- gets timer ;;
  KASSERT ((freq =? 0) && negb (co_active me t) || negb (freq =? 0) && co_active me t).

Definition vrtc_callout_handler : M unit :=
  t <- gets timer ;;
  if co_pending me t then skip
  else if negb (co_active me t) then skip
  else
    update (fun m => m <| timer ::= co_deactivate me |>) ;;;
    v <- gets dev ;;
    KASSERT (tst (rd REG_B v) RTCSB_ALL_INTRS) ;;;
    when (pintr_enabled v) (vrtc_set_reg_c (Z.lor (rd REG_C v) RTCIR_PERIOD)) ;;;
    v <- gets dev ;;
    when (aintr_enabled v || uintr_enabled v) (
      tb <- vrtc_curtime ;;
      error <- vrtc_time_update tb.1 tb.2 ;;
      KASSERT (error =? 0)) ;;;
    v <- gets dev ;;
    let freqsbt := vrtc_freq v in
    KASSERT (negb (freqsbt =? 0)) ;;;
    vrtc_callout_reset freqsbt.

(** The end of [vrtc_set_reg_a] and [vrtc_set_reg_b]: the callout follows the
    frequency. *)
Definition follow_freq (oldfreq : Z) : M unit :=
  v <- gets dev ;;
  let newfreq := vrtc_freq v in
  if negb (newfreq =? oldfreq) then vrtc_callout_reset newfreq else vrtc_callout_check newfreq.

(** The side effect of a change of RTCSB_HALT; [false] is the early return
    with an error. *)
Definition halt_change (newval : Z) : M bool :=
  if negb (tst newval RTCSB_HALT) then
    v <- gets dev ;;
    let rtctime := rtc_to_secs v in
    basetime <- clock uptime ;;
    if (rtctime =? VRTC_BROKEN_TIME) && rtc_flag_broken_time then ret false
    else
      error <- vrtc_time_update rtctime basetime ;;
      KASSERT (error =? 0) ;;;
      ret true
  else
    tb <- vrtc_curtime ;;
    v <- gets dev ;;
    KASSERT (tb.1 =? base_rtctime v) ;;;
    secs_to_rtc tb.1 true ;;;
    set_dev (fun v => wr REG_B (clr (rd REG_B v) RTCSB_UINTR) v) ;;;
    error <- vrtc_time_update VRTC_BROKEN_TIME tb.2 ;;
    KASSERT (error =? 0) ;;;
    ret true.

Definition vrtc_set_reg_b (newval : Z) : M Z :=
  v <- gets dev ;;
  let oldval := rd REG_B v in
  let oldfreq := vrtc_freq v in
  set_dev (wr REG_B newval) ;;;
  let changed := Z.lxor oldval newval in
  ok <- (if tst changed RTCSB_HALT then halt_change newval else ret true) ;;
  if negb ok then ret (-1)
  else
    when (tst changed RTCSB_ALL_INTRS)
      (v <- gets dev ;; vrtc_set_reg_c (rd REG_C v)) ;;;
    follow_freq oldfreq ;;;
    ret 0.

Definition vrtc_set_reg_a (newval : Z) : M unit :=
  let newval := clr newval RTCSA_TUP in
  v <- gets dev ;;
  let oldval := rd REG_A v in
  let oldfreq := vrtc_freq v in
  (if divider_enabled oldval && negb (divider_enabled newval) then skip
   else if negb (divider_enabled oldval) && divider_enabled newval then
     now <- clock uptime ;;
     set_dev (fun v => v <| base_uptime := now |>)
   else skip) ;;;
  set_dev (wr REG_A newval) ;;;
  follow_freq oldfreq.

Definition vrtc_set_time (secs : Z) : M Z :=
  now <- clock uptime ;;
  vrtc_time_update secs now.

Definition vrtc_get_time : M Z :=
  tb <- vrtc_curtime ;;
  ret tb.1.

Definition vrtc_nvram_write (offset value : Z) : M Z :=
  if (u64 offset <? NVRAM) || (offset =? RTC_CENTURY) || (SIZEOF_RTCDEV <=? u64 offset) then ret EINVAL
  else set_dev (wr offset value) ;;; ret 0.

(** The result and [*retval]. *)
Definition vrtc_nvram_read (offset : Z) : M (Z * Z) :=
  if (offset <? 0) || (SIZEOF_RTCDEV <=? u64 offset) then ret (EINVAL, 0)
  else
    when ((offset <? 10) || (offset =? RTC_CENTURY)) (
      tb <- vrtc_curtime ;;
      secs_to_rtc tb.1 false) ;;;
    v <- gets dev ;;
    ret (0, rd offset v).

(** The port handlers return the error and [*val]. *)
Definition vrtc_addr_handler (inp : bool) (bytes val : Z) : M (Z * Z) :=
  if negb (bytes =? 1) then ret (-1, val)
  else if inp then ret (0, 0xff)
  else
    set_dev (fun v => v <| addr := Z.land val 0x7f |>) ;;;
    ret (0, val).

(** A read of the data port. *)
Definition data_in (offset : Z) : M Z :=
  v <- gets dev ;;
  if offset =? 12 then
    vrtc_set_reg_c 0 ;;;
    ret (rd REG_C v)
  else ret (rd offset v).

(** A write to the data port: the switch on the offset, then the century. *)
Definition data_out (offset val : Z) : M (Z * Z) :=
  ev <- (if offset =? 10 then vrtc_set_reg_a (u8 val) ;;; ret (0, val)
         else if offset =? 11 then error <- vrtc_set_reg_b (u8 val) ;; ret (error, val)
         else if (offset =? 12) || (offset =? 13) then ret (0, val)
         else
           let val := if offset =? 0 then Z.land val 0x7f else val in
           set_dev (wr offset (u8 val)) ;;;
           ret (0, val)) ;;
  v <- gets dev ;;
  if (offset =? RTC_CENTURY) && negb (rtc_halted v) then
    let curtime := rtc_to_secs v in
    now <- clock uptime ;;
    error <- vrtc_time_update curtime now ;;
    KASSERT (error =? 0) ;;;
    ret (if (curtime =? VRTC_BROKEN_TIME) && rtc_flag_broken_time then -1 else error, ev.2)
  else ret ev.

Definition vrtc_data_handler (inp : bool) (bytes val : Z) : M (Z * Z) :=
  if negb (bytes =? 1) then ret (-1, val)
  else
    v <- gets dev ;;
    let offset := addr v in
    if SIZEOF_RTCDEV <=? u64 offset then ret (-1, val)
    else
      tb <- vrtc_curtime ;;
      _ <- vrtc_time_update tb.1 tb.2 ;;
      when ((offset <? 10) || (offset =? RTC_CENTURY)) (secs_to_rtc tb.1 false) ;;;
      if inp then x <- data_in offset ;; ret (0, x)
      else data_out offset val.

Definition vrtc_reset : M unit :=
  v <- gets dev ;;
  vrtc_set_reg_b (clr (rd REG_B v) (Z.lor RTCSB_ALL_INTRS RTCSB_SQWE)) ;;;
  vrtc_set_reg_c 0 ;;;
  t <- gets timer ;;
  KASSERT (negb (co_active me t)).

(** [vrtc_init], on a callout that [callout_init] has just cleared. *)
Definition vrtc_zero : vrtc := mk_vrtc 0 0 0 (replicate 128 0).

Definition vrtc_init : M unit :=
  set_dev (fun _ => vrtc_zero) ;;;
  set_dev (wr REG_A 0x20) ;;;
  set_dev (wr REG_B RTCSB_24HR) ;;;
  set_dev (wr REG_C 0) ;;;
  set_dev (wr REG_D RTCSD_PWR) ;;;
  set_dev (fun v => v <| addr := RTC_STATUSD |>) ;;;
  set_dev (fun v => v <| base_rtctime := VRTC_BROKEN_TIME |>) ;;;
  now <- clock uptime ;;
  vrtc_time_update 0 now ;;;
  secs_to_rtc 0 false.

End Device.

(** ** Bytes of the device *)

Definition well_formed (v : vrtc) : Prop :=
  length (rtcdev v) = 128%nat /\ Forall (fun x => x in_u 8) (rtcdev v).

Lemma rd_wr off off' x v : length (rtcdev v) = 128%nat -> 0 <= off < 128 -> 0 <= off' ->
  rd off' (wr off x v) = if off' =? off then x else rd off' v.
Proof.
  intros Hl Ho Ho'. unfold rd, wr. cbn. destruct (Z.eqb_spec off' off) as [->|Hne].
  - by rewrite list_lookup_insert_eq by lia.
  - by rewrite list_lookup_insert_ne by lia.
Qed.

Lemma length_wr off x v : length (rtcdev (wr off x v)) = length (rtcdev v).
Proof. apply length_insert. Qed.

Lemma wr_wr off x y v : wr off x (wr off y v) = wr off x v.
Proof. destruct v. unfold wr, upd. cbn -[insert]. by rewrite list_insert_insert_eq. Qed.

Lemma well_formed_wr off x v : x in_u 8 -> well_formed v -> well_formed (wr off x v).
Proof. intros ? [? ?]. split; [by rewrite length_wr|]. by apply Forall_insert. Qed.

Lemma rd_range off v : well_formed v -> rd off v in_u 8.
Proof.
  intros [Hl Hb]. unfold rd. destruct (rtcdev v !! Z.to_nat off) as [x|] eqn:E; cbn; [|range].
  exact (Forall_lookup_1 _ _ _ _ Hb E).
Qed.

(** The constant offsets of the code; [rw_wr] reads through writes to them. *)
Create HintDb rtc.
#[export] Hint Extern 1 (0 <= _ < 128) => (vm_compute; split; [discriminate|reflexivity]) : rtc.
#[export] Hint Extern 1 (0 <= _) => (vm_compute; discriminate) : rtc.
#[export] Hint Resolve well_formed_wr : rtc.

Ltac eval_eqb := repeat match goal with
  | |- context [?a =? ?b] =>
      is_const a; is_const b;
      lazymatch (eval vm_compute in (a =? b)) with
      | true => change (a =? b) with true
      | false => change (a =? b) with false
      end; cbv iota
  end.

Ltac rw_wr := repeat (rewrite rd_wr by (rewrite ?length_wr; auto with rtc)); eval_eqb.

(** ** Encoding of the date fields *)

Definition enc (reg_b x : Z) : Z :=
  u8 (if tst reg_b RTCSB_BIN then x else default 0 (bin2bcd_data !! Z.to_nat x)).

Definition hour_byte (reg_b h : Z) : Z :=
  let h24 := tst reg_b RTCSB_24HR in
  let x := enc reg_b (if h24 then h else if (h =? 0) || (h =? 12) then 12 else Z.rem h 12) in
  if negb h24 && (12 <=? h) then Z.lor x 0x80 else x.

(** What [secs_to_rtc] stores for the date [ct]. *)
Definition put_date (ct : clocktime) (v : vrtc) : vrtc :=
  let e := enc (rd REG_B v) in
  let v := wr HOUR (hour_byte (rd REG_B v) (hour ct)) (wr MIN (e (min ct)) (wr SEC (e (sec ct)) v)) in
  wr RTC_CENTURY (e (Z.quot (year ct) 100)) (wr YEAR (e (Z.rem (year ct) 100))
    (wr MONTH (e (mon ct)) (wr DAY_OF_MONTH (e (day ct)) (wr DAY_OF_WEEK (e (dow ct + 1)) v)))).

Definition date_offsets : list Z :=
  [SEC; MIN; HOUR; DAY_OF_WEEK; DAY_OF_MONTH; MONTH; YEAR; RTC_CENTURY].

Definition is_date (off : Z) : bool := existsb (Z.eqb off) date_offsets.

Lemma enc_range b x : enc b x in_u 8.
Proof. apply u8_in_u. Qed.

Lemma hour_byte_range b h : hour_byte b h in_u 8.
Proof. unfold hour_byte. cbv zeta. destruct (negb _ && _); [apply lor_in_u|]; unfold enc; range. Qed.

Lemma put_date_wf ct v : well_formed v -> well_formed (put_date ct v).
Proof. intros H. unfold put_date. cbv zeta. repeat apply well_formed_wr; auto using enc_range, hour_byte_range. Qed.

Lemma put_date_other ct v off : well_formed v -> 0 <= off -> is_date off = false ->
  rd off (put_date ct v) = rd off v.
Proof.
  intros [Hl _] Ho Hd. unfold put_date. cbv zeta.
  rewrite !rd_wr by (rewrite ?length_wr; auto with rtc).
  cbn [is_date date_offsets existsb] in Hd. rewrite !orb_false_iff in Hd.
  destruct Hd as (-> & -> & -> & -> & -> & -> & -> & -> & _). done.
Qed.

(** The host's calendar clock is a 32-bit count of seconds. *)
Lemma wall_date s : s in_u 32 ->
  let ct := clock_ts_to_ct (mk_timespec s 0) in
  valid_ct ct /\ 1970 <= year ct < 10000 /\ 0 <= dow ct <= 6.
Proof.
  intros Hs ct. destruct (ts_to_ct_split (mk_timespec s 0)) as (ny & nm & Ey & Em & Ed & Hv & Hy & _ & _ & Hw).
  { cbn [tv_sec]. change SECDAY with 86400. lia. }
  fold ct in Ey, Em, Ed, Hv, Hy, Hw. split; [done|]. split; [|done].
  cbn [tv_sec] in Hy. change SECDAY with 86400 in Hy. unfold POSIX_BASE_YEAR in Ey.
  assert (s / 86400 <= 49711) by (apply Z.div_le_upper_bound; lia). lia.
Qed.

(** Decoding inverts the BCD table, checked on the hundred entries. *)
Definition bcd_ok (x : Z) : bool :=
  let val := u8 (default 0 (bin2bcd_data !! Z.to_nat x)) in
  let lower := Z.land val 0xf in
  let upper := Z.land (Z.shiftr val 4) 0xf in
  negb ((9 <? lower) || (9 <? upper)) && (upper * 10 + lower =? x).

Lemma rtcget_enc v b x : tst (rd REG_B v) RTCSB_BIN = tst b RTCSB_BIN -> 0 <= x < 100 ->
  rtcget v (enc b x) = Some x.
Proof.
  intros Hb Hx. unfold rtcget, enc. rewrite Hb. destruct (tst b RTCSB_BIN).
  - f_equal. apply u8_id. lia.
  - pose proof (forall_below bcd_ok 100 x eq_refl Hx) as H. unfold bcd_ok in H. cbv zeta in *.
    apply andb_true_iff in H as [H1 H2]. apply negb_true_iff in H1. rewrite H1.
    f_equal. by apply Z.eqb_eq.
Qed.

(** The hour decodes in the four formats, checked on the 24 hours: [b] is a
    value of register B. *)
Definition hour_ok (b h : Z) : bool :=
  let v := wr REG_B b (wr HOUR (hour_byte b h) vrtc_zero) in
  match rtc_hour v with Some x => x =? h | None => false end.

Lemma rtc_hour_format v v' : rd HOUR v = rd HOUR v' ->
  tst (rd REG_B v) RTCSB_BIN = tst (rd REG_B v') RTCSB_BIN ->
  tst (rd REG_B v) RTCSB_24HR = tst (rd REG_B v') RTCSB_24HR -> rtc_hour v = rtc_hour v'.
Proof. intros Hh Hb Ht. unfold rtc_hour, rtcget. by rewrite Hh, Hb, Ht. Qed.

Lemma hour_byte_format b b' h : tst b RTCSB_BIN = tst b' RTCSB_BIN ->
  tst b RTCSB_24HR = tst b' RTCSB_24HR -> hour_byte b h = hour_byte b' h.
Proof. intros Hb Ht. unfold hour_byte, enc. by rewrite Hb, Ht. Qed.

Lemma rtc_hour_enc v h : 0 <= h < 24 -> rd HOUR v = hour_byte (rd REG_B v) h -> rtc_hour v = Some h.
Proof.
  intros Hh E.
  set (b := Z.lor (if tst (rd REG_B v) RTCSB_BIN then RTCSB_BIN else 0)
                  (if tst (rd REG_B v) RTCSB_24HR then RTCSB_24HR else 0)).
  assert (Hb : tst (rd REG_B v) RTCSB_BIN = tst b RTCSB_BIN)
    by (unfold b; by destruct (tst _ RTCSB_BIN), (tst _ RTCSB_24HR)).
  assert (Ht : tst (rd REG_B v) RTCSB_24HR = tst b RTCSB_24HR)
    by (unfold b; by destruct (tst _ RTCSB_BIN), (tst _ RTCSB_24HR)).
  assert (Hok : hour_ok b h = true).
  { unfold b. destruct (tst _ RTCSB_BIN), (tst _ RTCSB_24HR);
      refine (forall_below (hour_ok _) 24 h _ Hh); vm_compute; reflexivity. }
  rewrite (rtc_hour_format v (wr REG_B b (wr HOUR (hour_byte b h) vrtc_zero))).
  - unfold hour_ok in Hok. cbv zeta in Hok. destruct (rtc_hour _); [|done]. f_equal. by apply Z.eqb_eq.
  - rewrite E, (hour_byte_format _ b) by done. by rw_wr.
  - by rw_wr.
  - by rw_wr.
Qed.

Lemma rtc_field_enc v b off x lo hi : tst (rd REG_B v) RTCSB_BIN = tst b RTCSB_BIN ->
  rd off v = enc b x -> 0 <= x < 100 -> lo <= x <= hi -> rtc_field v off lo hi = Some x.
Proof.
  intros Hb E Hx Hr. unfold rtc_field. rewrite E, (rtcget_enc v b) by done. cbn.
  destruct (Z.ltb_spec x lo), (Z.ltb_spec hi x); lia || done.
Qed.

Ltac put_field := solve [done
  | repeat match goal with x := put_date _ _ |- _ => subst x end; unfold put_date; cbv zeta; rw_wr; reflexivity].

Lemma wall_back s : s in_u 32 ->
  let ct := clock_ts_to_ct (mk_timespec s 0) in
  clock_ct_to_ts (mk_clocktime (year ct) (mon ct) (day ct) (hour ct) (min ct) (sec ct) (-1) 0) =
  Some (mk_timespec s 0).
Proof.
  intros Hs ct. assert (Hr : 0 <= tv_sec (mk_timespec s 0) < 2 ^ 31 * SECDAY)
    by (cbn [tv_sec]; change SECDAY with 86400; lia).
  rewrite <- (ts_ct_inverse _ Hr). fold ct.
  destruct (ts_to_ct_split _ Hr) as (_ & _ & _ & _ & _ & _ & _ & _ & En & _). fold ct in En.
  cbn [tv_nsec] in En. destruct ct. cbn in En |- *. by rewrite En.
Qed.

(** Decoding inverts [put_date], in all four formats. *)
Lemma date_inverse v s : well_formed v -> s in_u 32 ->
  rtc_to_secs (put_date (clock_ts_to_ct (mk_timespec s 0)) v) = s.
Proof.
  intros W Hs. destruct (wall_date s Hs) as (Hv & Hy & Hw). pose proof W as [Hl _].
  pose proof (wall_back s Hs) as Hr. cbv zeta in Hr.
  set (ct := clock_ts_to_ct _) in *. clearbody ct. set (b := rd REG_B v).
  destruct Hv as (Hm & Hd & Hh & Hmi & Hse). pose proof (days_in_month_range (year ct) (mon ct) Hm).
  set (v' := put_date ct v).
  assert (HB : rd REG_B v' = b) by (by apply put_date_other).
  assert (HBb : tst (rd REG_B v') RTCSB_BIN = tst b RTCSB_BIN) by by rewrite HB.
  assert (0 <= Z.rem (year ct) 100 < 100 /\ 0 <= Z.quot (year ct) 100 < 100 /\
          Z.quot (year ct) 100 * 100 + Z.rem (year ct) 100 = year ct) as (Hy1 & Hy2 & Hy3).
  { rewrite Z.quot_div_nonneg, Z.rem_mod_nonneg by lia. clear -Hy. Z.to_euclidean_division_equations; lia. }
  unfold rtc_to_secs.
  rewrite (rtc_field_enc v' b SEC (sec ct)) by (put_field || lia).
  rewrite (rtc_field_enc v' b MIN (min ct)) by (put_field || lia).
  rewrite (rtc_hour_enc v' (hour ct)) by (rewrite ?HB; put_field || lia).
  rewrite (rtc_field_enc v' b DAY_OF_MONTH (day ct)) by (put_field || lia).
  rewrite (rtc_field_enc v' b MONTH (mon ct)) by (put_field || lia).
  rewrite (rtc_field_enc v' b YEAR (Z.rem (year ct) 100)) by (put_field || lia).
  replace (rd RTC_CENTURY v') with (enc b (Z.quot (year ct) 100)) by put_field.
  rewrite rtcget_enc by done. cbn [mbind option_bind]. cbv zeta. rewrite Hy3, Hr.
  destruct (Z.ltb_spec (year ct) 1900); [lia|]. cbn [mbind option_bind tv_sec].
  destruct (Z.ltb_spec s 0); [lia|done].
Qed.

(** ** Running the commands *)

(** An enabled interrupt cause that is pending has the interrupt flag set. *)
Definition irq_ok (v : vrtc) : Prop :=
  (aintr_enabled v && tst (rd REG_C v) RTCIR_ALARM) ||
  (pintr_enabled v && tst (rd REG_C v) RTCIR_PERIOD) ||
  (uintr_enabled v && tst (rd REG_C v) RTCIR_UPDATE) = true ->
  tst (rd REG_C v) RTCIR_INT = true.

(** Offsets that neither the date fields nor register C occupy. *)
Definition is_static (off : Z) : bool := negb (is_date off) && negb (off =? REG_C).

Section Proofs.
Context {T V : Type} `{!CalloutOps T, !CalloutLaws T, !PulseFabric V}.
Variables (uptime wall hosttime : nat -> Z) (me : Z).
Hypothesis uptime_mono : forall i j, (i <= j)%nat -> uptime i <= uptime j.
Hypothesis wall_range : forall n, wall n in_u 32.
Implicit Types m : rmachine T V.

(** What the time-keeping commands change: the date fields, register C, the
    two time bases and the number of clock readings. *)
Record keeps (m m' : rmachine T V) : Prop := {
  k_wf : well_formed (dev m) -> well_formed (dev m');
  k_addr : addr (dev m') = addr (dev m);
  k_static off : well_formed (dev m) -> 0 <= off -> is_static off = true -> rd off (dev m') = rd off (dev m);
  k_timer : timer m' = timer m;
  k_ticks : (ticks m <= ticks m')%nat;
  k_irq : well_formed (dev m) -> irq_ok (dev m) -> irq_ok (dev m');
}.

#[export] Instance keeps_preorder : PreOrder keeps.
Proof.
  split.
  - intros m. by constructor.
  - intros m1 m2 m3 [] []. constructor; intros; try congruence; try lia; auto.
    rewrite k_static1, k_static0; auto.
Qed.

Definition same_base (m m' : rmachine T V) : Prop :=
  base_uptime (dev m') = base_uptime (dev m) /\ base_rtctime (dev m') = base_rtctime (dev m).

Lemma set_field_run off val m : 0 <= val < 100 ->
  set_field off val m = Return (tt, m <| dev ::= wr off (enc (rd REG_B (dev m)) val) |>).
Proof.
  intros Hv. unfold set_field, rtcset, KASSERT, bind.
  destruct (Z.leb_spec 0 val), (Z.ltb_spec val 100); try lia. reflexivity.
Qed.

Lemma set_field_then b off x (k : unit -> cmd (rmachine T V) unit) v tm fb tk :
  0 <= x < 100 -> rd REG_B v = b ->
  bind (set_field off x) k (mk_rmachine v tm fb tk) = k tt (mk_rmachine (wr off (enc b x) v) tm fb tk).
Proof. intros Hx <-. by rewrite (bind_return _ _ _ _ _ (set_field_run off x _ Hx)). Qed.

Lemma secs_to_rtc_run t force m : well_formed (dev m) -> 0 <= t ->
  rtc_halted (dev m) && negb force = false ->
  secs_to_rtc wall t force m = Return (tt,
    m <| dev ::= put_date (clock_ts_to_ct (mk_timespec (wall (ticks m)) 0)) |> <| ticks ::= S |>).
Proof.
  intros W Ht Hh. destruct (wall_date _ (wall_range (ticks m))) as (Hv & Hy & Hw). pose proof W as [Hl _].
  unfold secs_to_rtc. destruct (Z.ltb_spec t 0); [lia|].
  erewrite bind_return by reflexivity. rewrite Hh.
  erewrite bind_return by reflexivity. cbv zeta.
  set (ct := clock_ts_to_ct _) in *. clearbody ct.
  destruct Hv as (Hm & Hd & Hhr & Hmi & Hse). pose proof (days_in_month_range (year ct) (mon ct) Hm).
  do 6 rewrite KASSERT_true by (rewrite andb_true_iff, !Z.leb_le; lia).
  rewrite KASSERT_true by (rewrite Z.leb_le; lia).
  assert (0 <= Z.rem (year ct) 100 < 100 /\ 0 <= Z.quot (year ct) 100 < 100) as [Hy1 Hy2].
  { rewrite Z.quot_div_nonneg, Z.rem_mod_nonneg by lia. clear -Hy. Z.to_euclidean_division_equations; lia. }
  destruct m as [v tm fb tk]. cbn [dev ticks upd] in *.
  unfold upd. cbn [dev timer fabric ticks]. unfold put_date. cbv zeta. set (b := rd REG_B v).
  do 2 rewrite (set_field_then b) by (lia || by rw_wr).
  erewrite bind_return by reflexivity. cbn [dev].
  replace (rd REG_B (wr MIN _ _)) with b by (by rw_wr). unfold hour_byte. cbv zeta.
  set (h := if tst b RTCSB_24HR then _ else _).
  assert (Hh' : 0 <= h < 100).
  { unfold h. repeat split_if; try lia. rewrite Z.rem_mod_nonneg by lia.
    pose proof (Z.mod_pos_bound (hour ct) 12 ltac:(lia)). lia. }
  clearbody h. rewrite (set_field_then b) by (lia || by rw_wr).
  destruct (negb (tst b RTCSB_24HR) && (12 <=? hour ct)); cbn [when];
    (erewrite bind_return by reflexivity); unfold upd; cbn [dev timer fabric ticks].
  - rewrite (rd_wr HOUR HOUR), Z.eqb_refl, wr_wr by (rewrite ?length_wr; auto with rtc).
    do 4 rewrite (set_field_then b) by (lia || by rw_wr).
    rewrite set_field_run by lia. cbn [dev]. do 4 f_equal. by rw_wr.
  - do 4 rewrite (set_field_then b) by (lia || by rw_wr).
    rewrite set_field_run by lia. cbn [dev]. do 4 f_equal. by rw_wr.
Qed.

(** C39: the date fields [secs_to_rtc] stores decode to the second the host's
    calendar clock showed, in all four formats (binary or BCD, 12 or 24
    hours), whatever time [t] it was asked to store. *)
Theorem date_roundtrip t force m : well_formed (dev m) -> 0 <= t ->
  rtc_halted (dev m) && negb force = false ->
  exists m', secs_to_rtc wall t force m = Return (tt, m') /\ rtc_to_secs (dev m') = wall (ticks m).
Proof.
  intros W Ht Hh. eexists. split; [by apply secs_to_rtc_run|]. by apply date_inverse.
Qed.

Lemma put_date_irq ct v : well_formed v -> irq_ok v -> irq_ok (put_date ct v).
Proof.
  intros W H. unfold irq_ok, aintr_enabled, pintr_enabled, uintr_enabled.
  by rewrite !put_date_other by done.
Qed.

Lemma keeps_put ct m : keeps m (m <| dev ::= put_date ct |> <| ticks ::= S |>).
Proof.
  constructor; cbn; auto using put_date_wf, put_date_irq.
  intros off W Ho Hs. unfold is_static in Hs. bools. by apply put_date_other.
Qed.

Lemma wp_secs_to_rtc t force m : well_formed (dev m) -> -1 <= t ->
  wp (secs_to_rtc wall t force) (fun _ m' => keeps m m' /\ same_base m m') m.
Proof.
  intros W Ht. destruct (decide (0 <= t)).
  - destruct (rtc_halted (dev m) && negb force) eqn:E.
    + unfold secs_to_rtc. destruct (Z.ltb_spec t 0); [lia|]. wp_go. rewrite E. by wp_go.
    + unfold wp. rewrite secs_to_rtc_run by done. by split; [apply keeps_put|].
  - assert (t = -1) as -> by lia. by apply wp_KASSERT.
Qed.

(** Register C holds flags of the three causes and the interrupt flag. *)
Lemma reg_c_irq v x : length (rtcdev v) = 128%nat ->
  let n := Z.land x (Z.lor (Z.lor RTCIR_ALARM RTCIR_PERIOD) RTCIR_UPDATE) in
  let q := (aintr_enabled v && tst n RTCIR_ALARM) || (pintr_enabled v && tst n RTCIR_PERIOD) ||
           (uintr_enabled v && tst n RTCIR_UPDATE) in
  irq_ok (wr REG_C (Z.lor (if q then RTCIR_INT else 0) n) v).
Proof.
  intros Hl n q. unfold irq_ok, aintr_enabled, pintr_enabled, uintr_enabled. rw_wr.
  fold (aintr_enabled v) (pintr_enabled v) (uintr_enabled v).
  assert (Hf : forall k, 0 <= k -> k <> 7 ->
    tst (Z.lor (if q then RTCIR_INT else 0) n) (bit k) = tst n (bit k)).
  { intros k Hk Hk7. change RTCIR_INT with (bit 7). rewrite !tst_bit, Z.lor_spec by done.
    destruct q; rewrite ?bit_testbit, ?Z.testbit_0_l by lia; [|done].
    by rewrite (proj2 (Z.eqb_neq 7 k)) by lia. }
  change RTCIR_ALARM with (bit 5) in *. change RTCIR_PERIOD with (bit 6) in *.
  change RTCIR_UPDATE with (bit 4) in *. rewrite !Hf by lia. fold q. intros ->.
  change RTCIR_INT with (bit 7). rewrite tst_bit, Z.lor_spec, bit_testbit by lia. done.
Qed.

Lemma wp_set_reg_c x m : well_formed (dev m) ->
  wp (vrtc_set_reg_c x) (fun _ m' => keeps m m' /\ same_base m m' /\ irq_ok (dev m') /\
    rd REG_C (dev m') = Z.lor (if tst (rd REG_C (dev m')) RTCIR_INT then RTCIR_INT else 0)
      (Z.land x 0x70)) m.
Proof.
  intros W. pose proof W as [Hl _]. unfold vrtc_set_reg_c. wp_go. cbv zeta. wp_go. cbn [set_dev].
  pose proof (reg_c_irq (dev m) x Hl) as Hi. cbv zeta in Hi.
  set (q := _ || _) in *. set (n := Z.land x _) in *.
  assert (Hn : Z.lor (if q then RTCIR_INT else 0) n in_u 8).
  { apply lor_in_u; [lia|destruct q; range|]. unfold n. range. }
  assert (K : forall f, let m' := m <| dev ::= wr REG_C (Z.lor (if q then RTCIR_INT else 0) n) |> <| fabric := f |> in
    keeps m m' /\ same_base m m' /\ irq_ok (dev m') /\
    rd REG_C (dev m') = Z.lor (if tst (rd REG_C (dev m')) RTCIR_INT then RTCIR_INT else 0) (Z.land x 0x70)).
  { intros f m'. split; [|split; [done|split; [exact Hi|]]].
    - constructor; cbn; try done; auto using well_formed_wr.
      intros off _ Ho Hs. unfold is_static in Hs. bools. rewrite rd_wr by (auto with rtc).
      destruct (Z.eqb_spec off REG_C); [done|done].
    - subst m'. cbn [dev upd]. rw_wr.
      assert (Ht : tst (Z.lor (if q then RTCIR_INT else 0) n) RTCIR_INT = q).
      { change RTCIR_INT with (bit 7). rewrite tst_bit, Z.lor_spec by lia.
        unfold n. rewrite Z.land_spec, (eq_refl : Z.testbit (Z.lor (Z.lor RTCIR_ALARM RTCIR_PERIOD) RTCIR_UPDATE) 7 = false).
        rewrite andb_false_r, orb_false_r. by destruct q. }
      by rewrite Ht. }
  clearbody q. unfold set_dev. wp_go.
  apply wp_when; intros _; wp_go; [|exact (K (fabric m))].
  exact (K (pulse_ioapic RTC_IRQ (pulse_atpic RTC_IRQ (fabric m)))).
Qed.

Lemma keeps_wf m m' : keeps m m' -> well_formed (dev m) -> well_formed (dev m').
Proof. apply k_wf. Qed.

Lemma keeps_bases f g m :
  keeps m (m <| dev ::= fun v => v <| base_uptime ::= f |> <| base_rtctime ::= g |> |>).
Proof. by constructor. Qed.

Lemma keeps_reg_b m m' : keeps m m' -> well_formed (dev m) -> rd REG_B (dev m') = rd REG_B (dev m).
Proof. intros K W. by apply (k_static _ _ K). Qed.

Lemma keeps_reg_a m m' : keeps m m' -> well_formed (dev m) -> rd REG_A (dev m') = rd REG_A (dev m).
Proof. intros K W. by apply (k_static _ _ K). Qed.

Lemma wp_time_tick old new a b c m : well_formed (dev m) ->
  let t' := if aintr_enabled (dev m) && negb (old =? VRTC_BROKEN_TIME)
            then base_rtctime (dev m) + 1 else new in
  -1 <= t' ->
  wp (time_tick wall old new a b c) (fun _ m' => keeps m m' /\
    base_uptime (dev m') = base_uptime (dev m) /\ base_rtctime (dev m') = t') m.
Proof.
  intros W t' Ht. unfold time_tick, set_dev. wp_go. fold t'.
  pose proof (keeps_bases id (fun _ => t') m) as K1.
  change (m <| dev ::= _ |>) with (m <| dev ::= fun v => v <| base_uptime ::= id |> <| base_rtctime ::= fun _ => t' |> |>).
  set (m1 := m <| dev ::= _ |>) in *.
  assert (E1 : base_uptime (dev m1) = base_uptime (dev m) /\ base_rtctime (dev m1) = t') by done.
  clearbody m1 t'. pose proof (keeps_wf _ _ K1 W) as W1. destruct E1 as [E1 E2].
  apply wp_when; intros _; [|done]. wp_go. rewrite E2.
  eapply wp_conseq; [by apply wp_secs_to_rtc|]. intros _ m2 [K2 [E3 E4]]. cbv beta. wp_go.
  apply wp_when; intros _; [|split; [by etrans|split; congruence]].
  pose proof (keeps_wf _ _ K2 W1) as W2.
  eapply wp_conseq; [by apply wp_set_reg_c|]. intros _ m3 (K3 & [E5 E6] & _). cbv beta.
  split; [by repeat (etrans; [eassumption|])|split; congruence].
Qed.

Definition visits (m : rmachine T V) (old : Z) : bool :=
  aintr_enabled (dev m) && negb (old =? VRTC_BROKEN_TIME).

(** The loop ends at [newtime]: in one iteration, or one per second when the
    alarm is enabled and time moves forward. *)
Lemma wp_time_loop fuel old new a b c m : well_formed (dev m) -> -1 <= new ->
  -1 <= base_rtctime (dev m) ->
  (if visits m old then base_rtctime (dev m) < new <= base_rtctime (dev m) + Z.of_nat fuel
   else fuel <> O) ->
  wp (time_loop wall fuel old new a b c) (fun _ m' => keeps m m' /\
    base_uptime (dev m') = base_uptime (dev m) /\ base_rtctime (dev m') = new) m.
Proof.
  revert m. induction fuel as [|fuel IH]; intros m W Hnew Hb Hf.
  - unfold visits in Hf. destruct (_ && _); [lia|done].
  - cbn [time_loop]. wp_go. unfold visits in Hf.
    eapply wp_conseq.
    { apply wp_time_tick; [done|]. destruct (_ && _); lia. }
    intros _ m1 (K & Eu & Et). cbv beta. wp_go.
    destruct (Z.eqb_spec (base_rtctime (dev m1)) new) as [E|E]; [by apply wp_skip|].
    pose proof (keeps_wf _ _ K W) as W1.
    assert (Ea : aintr_enabled (dev m1) = aintr_enabled (dev m)) by (unfold aintr_enabled; by rewrite (keeps_reg_b _ _ K W)).
    destruct (_ && _) eqn:Ev in Hf, Et; [|lia].
    eapply wp_conseq; [apply IH; [done|done|lia|]|].
    + unfold visits. rewrite Ea, Ev. lia.
    + intros _ m2 (K2 & Eu2 & Et2). split; [by etrans|split; congruence].
Qed.

(** With the alarm enabled, moving the clock backwards never ends. *)
Lemma time_loop_backwards fuel old new a b c m : well_formed (dev m) ->
  -1 <= base_rtctime (dev m) -> visits m old = true -> new <= base_rtctime (dev m) ->
  time_loop wall fuel old new a b c m = Hang.
Proof.
  revert m. induction fuel as [|fuel IH]; intros m W Hb Hv Hn; [done|].
  cbn [time_loop].
  destruct (wp_elim _ _ _ (wp_time_tick old new a b c m W ltac:(unfold visits in Hv; rewrite Hv; lia)))
    as (u & m1 & E & K & _ & Et).
  erewrite bind_return by exact E. erewrite bind_return by reflexivity. cbv beta.
  unfold visits in Hv. rewrite Hv in Et.
  destruct (Z.eqb_spec (base_rtctime (dev m1)) new); [lia|].
  apply IH; [by eapply keeps_wf|lia| |lia].
  unfold visits, aintr_enabled. by rewrite (keeps_reg_b _ _ K W).
Qed.

Lemma wp_time_update new nb m : well_formed (dev m) -> -1 <= new -> -1 <= base_rtctime (dev m) ->
  (visits m (base_rtctime (dev m)) = true -> new <> VRTC_BROKEN_TIME -> rtc_halted (dev m) = false ->
   base_rtctime (dev m) <= new) ->
  wp (vrtc_time_update wall new nb) (fun e m' => keeps m m' /\ base_uptime (dev m') = nb /\
    if negb (new =? base_rtctime (dev m)) && negb (new =? VRTC_BROKEN_TIME) && rtc_halted (dev m)
    then e = EBUSY /\ base_rtctime (dev m') = base_rtctime (dev m)
    else e = 0 /\ base_rtctime (dev m') = new) m.
Proof.
  intros W Hnew Hb Hv. unfold vrtc_time_update, set_dev. wp_go. cbv zeta. wp_go.
  set (v := dev m) in *.
  pose proof (keeps_bases (fun _ => nb) id m) as K1.
  destruct (Z.eqb_spec new (base_rtctime v)) as [E|E]; [by wp_go|].
  destruct (Z.eqb_spec new VRTC_BROKEN_TIME) as [E'|E'].
  { wp_go. cbn [negb andb]. split; [|done]. exact (keeps_bases (fun _ => nb) (fun _ => _) m). }
  cbn [negb andb]. destruct (rtc_halted v) eqn:Eh; [by wp_go|]. wp_go.
  change (m <| dev ::= _ |>) with (m <| dev ::= fun v => v <| base_uptime ::= fun _ => nb |> <| base_rtctime ::= id |> |>).
  set (m1 := m <| dev ::= _ |>) in *.
  assert (Eb : base_rtctime (dev m1) = base_rtctime v /\ base_uptime (dev m1) = nb /\
    visits m1 (base_rtctime v) = visits m (base_rtctime v)) by done. clearbody m1.
  destruct Eb as (Eb & Eu & Evis).
  pose proof (keeps_wf _ _ K1 W) as W1.
  eapply wp_conseq; [apply wp_time_loop; [done|done|lia|]|].
  { rewrite Evis. destruct (visits m (base_rtctime v)); [|lia]. specialize (Hv eq_refl E' eq_refl). lia. }
  intros _ m2 (K2 & Eu2 & Et2). cbv beta. wp_go. pose proof (keeps_wf _ _ K2 W1) as W2.
  apply wp_when; intros _; wp_go.
  - eapply wp_conseq; [by apply wp_set_reg_c|]. intros _ m3 (K3 & [E5 E6] & _). cbv beta. wp_go.
    split; [by repeat (etrans; [eassumption|])|split; [congruence|split; congruence]].
  - split; [by etrans|split; [congruence|split; congruence]].
Qed.

(** *** The invariant *)

Record rtc_inv (m : rmachine T V) : Prop := {
  i_wf : well_formed (dev m);
  i_addr : 0 <= addr (dev m) < 128;
  i_up : base_uptime (dev m) <= uptime (ticks m);
  i_time : -1 <= base_rtctime (dev m);
  i_halt : rtc_halted (dev m) = (base_rtctime (dev m) =? VRTC_BROKEN_TIME);
  i_irq : irq_ok (dev m);
  i_ok : co_ok me (timer m);
  i_active : co_active me (timer m) = negb (vrtc_freq (dev m) =? 0);
}.

Lemma keeps_freq m m' : keeps m m' -> well_formed (dev m) ->
  (base_rtctime (dev m') =? VRTC_BROKEN_TIME) = (base_rtctime (dev m) =? VRTC_BROKEN_TIME) ->
  vrtc_freq (dev m') = vrtc_freq (dev m).
Proof.
  intros K W E. unfold vrtc_freq, pintr_enabled, aintr_enabled, uintr_enabled, update_enabled, rtc_halted.
  by rewrite E, (keeps_reg_a _ _ K W), (keeps_reg_b _ _ K W).
Qed.

Lemma inv_keeps m m' : rtc_inv m -> keeps m m' ->
  base_uptime (dev m') <= uptime (ticks m') -> -1 <= base_rtctime (dev m') ->
  (base_rtctime (dev m') =? VRTC_BROKEN_TIME) = (base_rtctime (dev m) =? VRTC_BROKEN_TIME) ->
  rtc_inv m'.
Proof.
  intros [] K Hu Ht Hb. pose proof (keeps_freq _ _ K i_wf0 Hb) as Hf.
  pose proof (keeps_reg_b _ _ K i_wf0) as HB. destruct K. constructor; auto; try congruence.
  unfold rtc_halted in *. congruence.
Qed.

Lemma wp_curtime m : well_formed (dev m) -> base_uptime (dev m) <= uptime (ticks m) ->
  wp (vrtc_curtime uptime) (fun tb m' => keeps m m' /\ dev m' = dev m /\
    base_rtctime (dev m) <= tb.1 /\ tb.2 <= uptime (ticks m') /\
    (base_rtctime (dev m) = VRTC_BROKEN_TIME -> tb.1 = VRTC_BROKEN_TIME) /\
    (rtc_halted (dev m) = true -> tb = (base_rtctime (dev m), base_uptime (dev m)))) m.
Proof.
  intros W Hu. unfold vrtc_curtime. wp_go.
  destruct (update_enabled (dev m)) eqn:E; wp_go.
  2: { split; [reflexivity|]. split; [done|]. split; [done|]. split; [done|]. done. }
  unfold clock. cbv zeta. unfold wp, bind. cbn [ticks upd].
  set (d := uptime (ticks m) - base_uptime (dev m)).
  assert (Hd : 0 <= d /\ d = uptime (ticks m) - base_uptime (dev m)) by (unfold d; lia). clearbody d.
  unfold KASSERT. destruct (Z.leb_spec 0 d); [|lia]. cbn [fst snd ret dev upd].
  assert (Hq : 0 <= Z.quot d SBT_1S /\ Z.quot d SBT_1S * SBT_1S <= d).
  { rewrite Z.quot_div_nonneg by (done || lia). split; [by apply Z.div_pos|].
    rewrite Z.mul_comm. by apply Z.mul_div_le. }
  pose proof (uptime_mono (ticks m) (S (ticks m)) ltac:(lia)).
  split; [constructor; cbn; auto; lia|]. split; [done|]. split; [lia|]. split.
  { cbn [ticks upd]. lia. }
  unfold update_enabled in E. destruct (negb _); [done|]. destruct (rtc_halted _); [done|].
  destruct (Z.eqb_spec (base_rtctime (dev m)) VRTC_BROKEN_TIME); [done|]. done.
Qed.

Lemma curtime_run m : update_enabled (dev m) = true -> base_uptime (dev m) <= uptime (ticks m) ->
  let q := Z.quot (uptime (ticks m) - base_uptime (dev m)) SBT_1S in
  vrtc_curtime uptime m =
    Return (base_rtctime (dev m) + q, base_uptime (dev m) + q * SBT_1S, m <| ticks ::= S |>).
Proof.
  intros Hu Hle q. unfold vrtc_curtime. erewrite bind_return by reflexivity. rewrite Hu.
  erewrite bind_return by reflexivity. cbv zeta. rewrite KASSERT_true by (apply Z.leb_le; lia). done.
Qed.

Lemma update_enabled_split v : update_enabled v = true ->
  divider_enabled (rd REG_A v) = true /\ rtc_halted v = false /\ base_rtctime v <> VRTC_BROKEN_TIME.
Proof.
  unfold update_enabled. destruct (divider_enabled _), (rtc_halted _); try done. cbn [negb].
  by destruct (Z.eqb_spec (base_rtctime v) VRTC_BROKEN_TIME).
Qed.

(** Reading the clock and storing the result, the first thing a data access
    does. *)
Definition moves_on (m m' : rmachine T V) : Prop :=
  keeps m m' /\ base_uptime (dev m') <= uptime (ticks m') /\ -1 <= base_rtctime (dev m') /\
  (base_rtctime (dev m') =? VRTC_BROKEN_TIME) = (base_rtctime (dev m) =? VRTC_BROKEN_TIME).

Lemma inv_moves_on m m' : rtc_inv m -> moves_on m m' -> rtc_inv m'.
Proof. intros I (K & ? & ? & ?). by apply (inv_keeps m). Qed.

Lemma wp_sync m : well_formed (dev m) -> base_uptime (dev m) <= uptime (ticks m) ->
  -1 <= base_rtctime (dev m) ->
  wp (vrtc_curtime uptime) (fun tb m1 => -1 <= tb.1 /\
    wp (vrtc_time_update wall tb.1 tb.2) (fun e m' => e = 0 /\ moves_on m m') m1) m.
Proof.
  intros W Hup Ht0.
  eapply wp_conseq; [by apply wp_curtime|]. intros tb m1 (K1 & Ed & Ht & Hu & Hbr & Hh). cbv beta.
  split; [lia|].
  eapply wp_conseq; [apply wp_time_update; rewrite ?Ed; [done|lia|lia|intros _ _ _; lia]|].
  intros e m2 (K2 & Eu & Eb). rewrite Ed in Eb. cbv beta.
  assert (Hcase : e = 0 /\ base_rtctime (dev m2) = tb.1).
  { destruct (rtc_halted (dev m)) eqn:Eh; [|by rewrite andb_false_r in Eb].
    rewrite (Hh eq_refl) in Eb |- *. cbn [fst] in Eb |- *. by rewrite Z.eqb_refl in Eb. }
  destruct Hcase as [-> Eb2]. split; [done|]. split; [by etrans|].
  split; [rewrite Eu; etrans; [exact Hu|]; apply uptime_mono, K2|]. split; [lia|].
  rewrite Eb2. destruct (Z.eqb_spec (base_rtctime (dev m)) VRTC_BROKEN_TIME) as [E|E].
  - by rewrite (Hbr E).
  - apply Z.eqb_neq. unfold VRTC_BROKEN_TIME in *. lia.
Qed.

Lemma wp_callout_reset f m : co_ok me (timer m) ->
  wp (vrtc_callout_reset hosttime me f) (fun _ m' => dev m' = dev m /\ (ticks m <= ticks m')%nat /\
    co_ok me (timer m') /\ co_active me (timer m') = negb (f =? 0)) m.
Proof.
  intros Hok. unfold vrtc_callout_reset. destruct (Z.eqb_spec f 0) as [->|Hf].
  - wp_go. apply wp_when; intros E; wp_go; cbn.
    + split; [done|]. split; [lia|]. split; [by apply stop_ok|by apply stop_active].
    + done.
  - unfold clock. unfold wp, bind. cbn.
    split; [done|]. split; [lia|]. split; [by apply reset_in_ok|by apply reset_in_active].
Qed.

Lemma wp_follow_freq old m : co_ok me (timer m) ->
  (vrtc_freq (dev m) = old -> co_active me (timer m) = negb (old =? 0)) ->
  wp (follow_freq hosttime me old) (fun _ m' => dev m' = dev m /\ (ticks m <= ticks m')%nat /\
    co_ok me (timer m') /\ co_active me (timer m') = negb (vrtc_freq (dev m) =? 0)) m.
Proof.
  intros Hok Ha. unfold follow_freq. wp_go. cbv zeta.
  destruct (Z.eqb_spec (vrtc_freq (dev m)) old) as [E|E]; cbn [negb].
  - unfold vrtc_callout_check. wp_go. rewrite (Ha E), E.
    apply wp_KASSERT; [|rewrite ?E, (Ha E); done]. by destruct (old =? 0).
  - eapply wp_conseq; [by apply wp_callout_reset|]. intros ? m' H. done.
Qed.

(** *** The control registers *)

(** The part of [keeps] that survives a change of register B. *)
Record near (m m' : rmachine T V) : Prop := {
  n_wf : well_formed (dev m) -> well_formed (dev m');
  n_addr : addr (dev m') = addr (dev m);
  n_timer : timer m' = timer m;
  n_ticks : (ticks m <= ticks m')%nat;
  n_irq : well_formed (dev m) -> irq_ok (dev m) -> irq_ok (dev m');
}.

#[export] Instance near_preorder : PreOrder near.
Proof.
  split.
  - intros m. by constructor.
  - intros m1 m2 m3 [] []. constructor; intros; try congruence; try lia; auto.
Qed.

Lemma keeps_near m m' : keeps m m' -> near m m'.
Proof. intros []. by constructor. Qed.

Lemma near_clear_uintr m :
  near m (m <| dev ::= fun v => wr REG_B (clr (rd REG_B v) RTCSB_UINTR) v |>).
Proof.
  constructor; cbn; auto with rtc.
  - intros W. apply well_formed_wr; [|done]. apply clr_in_u; [lia|by apply rd_range].
  - intros [Hl _] H. unfold irq_ok, aintr_enabled, pintr_enabled, uintr_enabled in *. rw_wr.
    change RTCSB_UINTR with (bit 4) in *. change RTCSB_AINTR with (bit 5) in *.
    change RTCSB_PINTR with (bit 6) in *.
    rewrite !tst_bit, !clr_testbit, !bit_testbit in * by lia. cbn [negb Z.eqb Pos.eqb].
    rewrite !andb_true_r, andb_false_r, orb_false_r. intros E. apply H. by rewrite E.
Qed.

Lemma rtc_to_secs_range v : -1 <= rtc_to_secs v.
Proof.
  unfold rtc_to_secs. repeat match goal with
  | |- context [default _ (?o ≫= _)] => destruct o; cbn [mbind option_bind default]; [|done]
  | |- context [if ?b then _ else _] => destruct b eqn:?; cbn [mbind option_bind default]; [done|]
  end. cbn. bools. lia.
Qed.

Lemma wp_clock {A} (read : nat -> A) (Q : A -> rmachine T V -> Prop) m :
  Q (read (ticks m)) (m <| ticks ::= S |>) -> wp (clock read) Q m.
Proof. done. Qed.

Lemma keeps_tick m : keeps m (m <| ticks ::= S |>).
Proof. constructor; cbn; auto. Qed.

Definition halt_post (m : rmachine T V) (ok : bool) (m' : rmachine T V) : Prop :=
  ok = true -> near m m' /\
    base_uptime (dev m') <= uptime (ticks m') /\ -1 <= base_rtctime (dev m') /\
    rtc_halted (dev m') = (base_rtctime (dev m') =? VRTC_BROKEN_TIME).

Lemma clear_uintr_halted m : well_formed (dev m) -> rtc_halted (dev m) = true ->
  rtc_halted (dev (m <| dev ::= fun v => wr REG_B (clr (rd REG_B v) RTCSB_UINTR) v |>)) = true.
Proof.
  intros [Hl _] Hh. unfold rtc_halted in *. cbn [dev upd]. rw_wr.
  change RTCSB_HALT with (bit 7) in *. change RTCSB_UINTR with (bit 4).
  rewrite tst_bit, clr_testbit, bit_testbit in * by lia. cbn. by rewrite andb_true_r.
Qed.

Lemma wp_halt_set nv m : well_formed (dev m) -> -1 <= base_rtctime (dev m) ->
  base_uptime (dev m) <= uptime (ticks m) ->
  rtc_halted (dev m) = true -> tst nv RTCSB_HALT = true ->
  wp (halt_change uptime wall nv) (halt_post m) m.
Proof.
  intros W Hb Hu Hh Env. unfold halt_change. rewrite Env. cbn [negb].
  wp_go. eapply wp_conseq; [by apply wp_curtime|].
  intros tb m1 (K1 & Ed & _ & Hu1 & _ & Htb). specialize (Htb Hh). subst tb. cbn [fst snd] in *. wp_go.
  rewrite Ed. apply wp_KASSERT; [apply Z.eqb_refl|]. wp_go.
  pose proof (keeps_wf _ _ K1 W) as W1.
  eapply wp_conseq; [by apply wp_secs_to_rtc|]. intros _ m2 [K2 [E3 E4]]. cbv beta. unfold set_dev. wp_go.
  pose proof (keeps_wf _ _ K2 W1) as W2. pose proof (near_clear_uintr m2) as K3.
  assert (Hh2 : rtc_halted (dev m2) = true)
    by (unfold rtc_halted in *; by rewrite (keeps_reg_b _ _ K2 W1), (keeps_reg_b _ _ K1 W)).
  pose proof (clear_uintr_halted m2 W2 Hh2) as Hh3.
  set (m3 := m2 <| dev ::= _ |>) in *.
  assert (E5 : base_rtctime (dev m3) = base_rtctime (dev m)) by (cbn; congruence). clearbody m3.
  pose proof (n_wf _ _ K3 W2) as W3.
  eapply wp_conseq; [apply wp_time_update; [done|done|lia|done]|].
  intros e m4 (K4 & Eu & Eb). cbv beta in *.
  rewrite Z.eqb_refl in Eb. cbn [negb] in Eb. rewrite andb_false_r in Eb. destruct Eb as [-> Eb].
  wp_go. apply wp_KASSERT; [done|]. wp_go. intros _.
  split; [repeat (etrans; [by eauto using keeps_near|]); by apply keeps_near|].
  pose proof (k_ticks _ _ K2); pose proof (n_ticks _ _ K3); pose proof (k_ticks _ _ K4).
  split; [rewrite Eu; etrans; [exact Hu1|apply uptime_mono; lia]|]. split; [rewrite Eb; done|].
  rewrite Eb, Z.eqb_refl. unfold rtc_halted in *. by rewrite (keeps_reg_b _ _ K4 W3).
Qed.

Lemma wp_halt_clear nv m : well_formed (dev m) ->
  rtc_halted (dev m) = false -> tst nv RTCSB_HALT = false ->
  base_rtctime (dev m) = VRTC_BROKEN_TIME ->
  wp (halt_change uptime wall nv) (halt_post m) m.
Proof.
  intros W Hh Env Hbr. unfold halt_change. rewrite Env. cbn [negb].
  wp_go. cbv zeta. wp_go. apply wp_clock. cbn [rtc_flag_broken_time]. rewrite andb_true_r.
  pose proof (rtc_to_secs_range (dev m)) as Hr. set (t := rtc_to_secs (dev m)) in *. clearbody t.
  destruct (Z.eqb_spec t VRTC_BROKEN_TIME) as [E|E]; [by wp_go|].
  pose proof (keeps_tick m) as K1. set (m1 := m <| ticks ::= S |>) in *.
  assert (E1 : dev m1 = dev m) by done. clearbody m1. wp_go.
  eapply wp_conseq.
  { apply wp_time_update; rewrite ?E1, ?Hbr; [done|lia|done|]. unfold visits. by rewrite andb_false_r. }
  intros e m2 (K & Eu & Eb). cbv beta. rewrite E1, Hh, andb_false_r in Eb. destruct Eb as [-> Eb].
  wp_go. apply wp_KASSERT; [done|]. wp_go. intros _.
  pose proof (k_ticks _ _ K). pose proof (k_ticks _ _ K1).
  split; [|split; [rewrite Eu; apply uptime_mono; lia|split; [lia|]]].
  - by etrans; apply keeps_near.
  - rewrite Eb, (proj2 (Z.eqb_neq _ _) E). unfold rtc_halted in *.
    rewrite (keeps_reg_b _ _ K), E1; [done|by rewrite E1].
Qed.

(** Without a change of the enable bits the interrupt flag stays right. *)
Lemma irq_same_enables v nv : well_formed v -> irq_ok v ->
  tst (Z.lxor (rd REG_B v) nv) RTCSB_ALL_INTRS = false -> irq_ok (wr REG_B nv v).
Proof.
  intros [Hl _] H Hc. unfold irq_ok, aintr_enabled, pintr_enabled, uintr_enabled in *. rw_wr.
  change RTCSB_UINTR with (bit 4) in *. change RTCSB_AINTR with (bit 5) in *.
  change RTCSB_PINTR with (bit 6) in *.
  rewrite <- !(tst_lxor_false (rd REG_B v) nv) by (try lia; by eapply tst_sub; [lia| |exact Hc]). done.
Qed.

Lemma wp_set_reg_b nv m : rtc_inv m -> nv in_u 8 ->
  wp (vrtc_set_reg_b uptime wall hosttime me nv) (fun e m' => (e <> -1 -> rtc_inv m') /\
    (tst (Z.lxor (rd REG_B (dev m)) nv) RTCSB_HALT = false -> e = 0 /\ rd REG_B (dev m') = nv)) m.
Proof.
  intros I Hnv. pose proof I as []. unfold vrtc_set_reg_b, set_dev. wp_go. cbv zeta. wp_go.
  set (chg := Z.lxor (rd REG_B (dev m)) nv).
  set (m1 := m <| dev ::= wr REG_B nv |>).
  assert (W1 : well_formed (dev m1)) by (cbn; by apply well_formed_wr).
  assert (Hh1 : rtc_halted (dev m1) = tst nv RTCSB_HALT).
  { unfold rtc_halted. cbn. destruct i_wf0. by rw_wr. }
  apply (wp_conseq _ (fun ok m2 => halt_post m1 ok m2 /\ (tst chg RTCSB_HALT = false -> ok = true /\ m2 = m1))).
  { destruct (tst chg RTCSB_HALT) eqn:Ec.
    - apply (tst_lxor_true _ _ 7 ltac:(lia)) in Ec. change (bit 7) with RTCSB_HALT in Ec.
      fold (rtc_halted (dev m)) in Ec. rewrite Ec in Hh1.
      apply (wp_conseq _ (halt_post m1)); [|by intros ok m2 H; split].
      destruct (rtc_halted (dev m)) eqn:Eh.
      + apply wp_halt_clear; try done. symmetry in i_halt0. by apply Z.eqb_eq in i_halt0.
      + by apply wp_halt_set.
    - apply (tst_lxor_false _ _ 7 ltac:(lia)) in Ec. change (bit 7) with RTCSB_HALT in Ec.
      wp_go. split; [|done]. intros _. split; [reflexivity|]. split; [done|]. split; [done|].
      rewrite Hh1, <- Ec. exact i_halt0. }
  intros ok m2 [Hp Hsame]. destruct ok; cbn [negb].
  2: { wp_go. split; [done|]. intros Ec. by destruct (Hsame Ec). }
  destruct (Hp eq_refl) as (N & Hu & Hb & Hhb).
  wp_go. pose proof (n_wf _ _ N W1) as W2.
  apply (wp_conseq _ (fun _ m3 => keeps m2 m3 /\ same_base m2 m3 /\ irq_ok (dev m3))).
  { apply wp_when; intros Ec.
    - wp_go. eapply wp_conseq; [by apply wp_set_reg_c|]. intros ? m3 (? & ? & ? & _). done.
    - split; [reflexivity|]. split; [done|]. apply (n_irq _ _ N); [done|].
      by apply irq_same_enables. }
  intros _ m3 (K3 & [Eu3 Eb3] & Hi3). wp_go. pose proof (keeps_wf _ _ K3 W2) as W3.
  assert (Et : timer m3 = timer m) by (rewrite (k_timer _ _ K3), (n_timer _ _ N); done).
  eapply wp_conseq.
  { apply wp_follow_freq; rewrite Et; [done|]. by intros _. }
  intros _ m4 (Ed & Htk & Hok & Hact). cbv beta. wp_go. split.
  2: { intros Ec. destruct (Hsame Ec) as [_ ->]. split; [done|].
       rewrite Ed, (keeps_reg_b _ _ K3 W2). cbn. destruct i_wf0. by rw_wr. }
  intros _. constructor; rewrite ?Ed; try done.
  - rewrite (k_addr _ _ K3), (n_addr _ _ N). done.
  - rewrite Eu3. etrans; [exact Hu|]. apply uptime_mono. pose proof (k_ticks _ _ K3). lia.
  - by rewrite Eb3.
  - rewrite Eb3, <- Hhb. unfold rtc_halted. by rewrite (keeps_reg_b _ _ K3 W2).
Qed.

Lemma wp_set_reg_a nv m : rtc_inv m -> nv in_u 8 ->
  wp (vrtc_set_reg_a uptime hosttime me nv) (fun _ m' => rtc_inv m') m.
Proof.
  intros I Hnv. pose proof I as []. unfold vrtc_set_reg_a, set_dev. cbv zeta. wp_go.
  set (nv' := clr nv RTCSA_TUP). assert (Hnv' : nv' in_u 8) by (by apply clr_in_u).
  clearbody nv'.
  apply (wp_conseq _ (fun _ m1 => keeps m m1 /\ base_uptime (dev m1) <= uptime (ticks m1) /\
    base_rtctime (dev m1) = base_rtctime (dev m))).
  { split_if; [by wp_go|]. split_if; wp_go; [|done]. apply wp_clock. wp_go.
    split; [|split; [cbn; apply uptime_mono; lia|done]]. constructor; cbn; auto. }
  intros _ m1 (K1 & Hu1 & Eb1). wp_go. pose proof (keeps_wf _ _ K1 i_wf0) as W1. pose proof W1 as [Hl1 _].
  eapply wp_conseq.
  { apply wp_follow_freq; cbn [timer upd]; rewrite (k_timer _ _ K1); [done|]. by intros _. }
  intros _ m2 (Ed & Htk & Hok & Hact). cbv beta. cbn in Htk.
  assert (HB : rd REG_B (wr REG_A nv' (dev m1)) = rd REG_B (dev m)).
  { rw_wr. by apply keeps_reg_b. }
  constructor; rewrite ?Ed; cbn [dev upd]; auto.
  - by apply well_formed_wr.
  - change (0 <= addr (dev m1) < 128). by rewrite (k_addr _ _ K1).
  - etrans; [exact Hu1|]. apply uptime_mono. lia.
  - change (-1 <= base_rtctime (dev m1)). by rewrite Eb1.
  - change (base_rtctime (wr REG_A nv' (dev m1))) with (base_rtctime (dev m1)). rewrite Eb1, <- i_halt0.
    unfold rtc_halted. by rewrite HB.
  - pose proof (k_irq _ _ K1 i_wf0 i_irq0) as Hi.
    unfold irq_ok, aintr_enabled, pintr_enabled, uintr_enabled in *. by rw_wr.
Qed.

(** *** The entry points *)

Lemma wp_keeps {A} (c : cmd (rmachine T V) A) m : rtc_inv m ->
  wp c (fun _ m' => keeps m m' /\ same_base m m') m -> wp c (fun _ m' => rtc_inv m' /\ keeps m m') m.
Proof.
  intros I H. pose proof I as []. eapply wp_conseq; [exact H|]. intros a m' [K [Eu Eb]].
  split; [|done]. apply (inv_keeps m); try done; rewrite ?Eu, ?Eb; try done.
  etrans; [exact i_up0|]. apply uptime_mono, K.
Qed.

Lemma wp_refresh t force m : rtc_inv m -> -1 <= t ->
  wp (secs_to_rtc wall t force) (fun _ m' => rtc_inv m' /\ rd REG_B (dev m') = rd REG_B (dev m)) m.
Proof.
  intros I Ht. eapply wp_conseq; [apply (wp_keeps _ m I)|].
  { apply wp_secs_to_rtc; [apply I|done]. }
  intros a m' [I' K]. split; [done|]. apply keeps_reg_b; [done|apply I].
Qed.

Lemma inv_wr off x m : rtc_inv m -> x in_u 8 -> 0 <= off < 128 ->
  off <> REG_A -> off <> REG_B -> off <> REG_C -> rtc_inv (m <| dev ::= wr off x |>).
Proof.
  intros [] Hx Ho Ha Hb Hc.
  assert (Hr : forall r, 0 <= r -> off <> r -> rd r (wr off x (dev m)) = rd r (dev m)).
  { intros r Hr0 Hr. rewrite rd_wr by (apply i_wf0 || done). by rewrite (proj2 (Z.eqb_neq r off)) by done. }
  pose proof (Hr REG_A ltac:(done) Ha) as EA. pose proof (Hr REG_B ltac:(done) Hb) as EB.
  pose proof (Hr REG_C ltac:(done) Hc) as EC.
  constructor; cbn [dev timer ticks upd]; auto using well_formed_wr.
  - unfold rtc_halted in *. by rewrite EB.
  - unfold irq_ok, aintr_enabled, pintr_enabled, uintr_enabled in *. by rewrite EB, EC.
  - rewrite i_active0. unfold vrtc_freq, update_enabled, rtc_halted, aintr_enabled, pintr_enabled, uintr_enabled.
    by rewrite EA, EB.
Qed.

Lemma wp_data_in off m : rtc_inv m -> wp (data_in off) (fun _ m' => rtc_inv m') m.
Proof.
  intros I. pose proof I as []. unfold data_in. wp_go. split_if; wp_go; [|done].
  eapply wp_conseq; [apply (wp_keeps (vrtc_set_reg_c 0) m I)|by intros ? m' [H _]; wp_go].
  eapply wp_conseq; [by apply wp_set_reg_c|]. intros ? m' (? & ? & _). done.
Qed.

Lemma wp_century m : rtc_inv m -> rtc_halted (dev m) = false -> aintr_enabled (dev m) = false ->
  wp (now <- clock uptime ;; vrtc_time_update wall (rtc_to_secs (dev m)) now)%cmd
    (fun e m' => e = 0 /\ (rtc_to_secs (dev m) <> VRTC_BROKEN_TIME -> rtc_inv m')) m.
Proof.
  intros I Hh Ha. pose proof I as []. wp_go. apply wp_clock.
  pose proof (rtc_to_secs_range (dev m)) as Hr. set (t := rtc_to_secs (dev m)) in *. clearbody t.
  pose proof (keeps_tick m) as K1. set (m1 := m <| ticks ::= S |>) in *.
  assert (E1 : dev m1 = dev m /\ ticks m1 = S (ticks m)) by done. clearbody m1. destruct E1 as [E1 E1'].
  eapply wp_conseq; [apply wp_time_update; rewrite ?E1; try done|].
  { unfold visits. by rewrite E1, Ha. }
  intros e m2 (K2 & Eu & Eb). rewrite E1, Hh, andb_false_r in Eb. destruct Eb as [-> Eb]. split; [done|].
  intros Hbr. rewrite Hh in i_halt0. pose proof (k_ticks _ _ K2).
  apply (inv_keeps m); [done|by etrans|rewrite Eu; apply uptime_mono; lia|lia|].
  rewrite Eb, <- i_halt0. by apply Z.eqb_neq.
Qed.

Lemma wp_data_out off val m : rtc_inv m -> 0 <= off < 128 ->
  (off <> RTC_CENTURY \/ aintr_enabled (dev m) = false) ->
  wp (data_out uptime wall hosttime me off val) (fun ev m' => ev.1 <> -1 -> rtc_inv m') m.
Proof.
  intros I Ho Hg. unfold data_out. apply wp_bind.
  apply (wp_conseq _ (fun ev m' => (ev.1 <> -1 -> rtc_inv m') /\
    (off = RTC_CENTURY -> rd REG_B (dev m') = rd REG_B (dev m) /\ ev.1 = 0))).
  - destruct (Z.eqb_spec off 10) as [->|E10].
    { wp_go. eapply wp_conseq; [apply wp_set_reg_a; [done|range]|]. intros ? m' H. cbv beta. by wp_go. }
    destruct (Z.eqb_spec off 11) as [->|E11].
    { wp_go. eapply wp_conseq; [apply wp_set_reg_b; [done|range]|]. intros e m' [H _]. cbv beta. by wp_go. }
    split_if; wp_go.
    { split; [done|]. by intros ->. }
    apply orb_false_iff in E as [E12 E13]. bools. unfold set_dev. cbv zeta. wp_go.
    split; [intros _; apply inv_wr; try done; range|]. intros ->. cbn [dev upd]. destruct I as [[Hl _]].
    by rw_wr.
  - intros ev m1 [H HB]. wp_go. split_if; [|wp_go; intros He; by apply H].
    apply andb_true_iff in E as [Ec Eh]. apply Z.eqb_eq in Ec. apply negb_true_iff in Eh. cbv zeta.
    destruct (HB Ec) as [HB1 Hev].
    assert (Ha : aintr_enabled (dev m1) = false).
    { unfold aintr_enabled in *. rewrite HB1. destruct Hg; done. }
    eapply wp_prefix; [apply wp_century; [apply H; lia|done|done]|].
    intros e m2 [-> Hi]. wp_go. apply wp_KASSERT; [done|]. wp_go. cbn [fst rtc_flag_broken_time].
    rewrite andb_true_r. destruct (Z.eqb_spec (rtc_to_secs (dev m1)) VRTC_BROKEN_TIME); auto.
Qed.

Lemma wp_data_handler inp bytes val m : rtc_inv m ->
  (inp = true \/ addr (dev m) <> RTC_CENTURY \/ aintr_enabled (dev m) = false) ->
  wp (vrtc_data_handler uptime wall hosttime me inp bytes val) (fun ev m' => ev.1 <> -1 -> rtc_inv m') m.
Proof.
  intros I Hg. pose proof I as []. unfold vrtc_data_handler. split_if; [by wp_go|]. wp_go. cbv zeta.
  set (off := addr (dev m)) in *. split_if; [by wp_go|].
  wp_go. eapply wp_conseq; [by apply wp_sync|]. intros tb m0 [Htb H]. cbv beta. wp_go.
  eapply wp_conseq; [exact H|]. clear H. intros e m1 [_ Mo]. cbv beta.
  pose proof (inv_moves_on _ _ I Mo) as I1. destruct Mo as [K _]. wp_go.
  apply (wp_conseq _ (fun _ m2 => rtc_inv m2 /\ rd REG_B (dev m2) = rd REG_B (dev m1))).
  { apply wp_when; intros _; [|done]. by apply wp_refresh. }
  intros _ m2 [I2 HB]. destruct inp.
  - wp_go. eapply wp_conseq; [by apply wp_data_in|]. intros x m3 I3. cbv beta. by wp_go.
  - apply wp_data_out; [done|done|]. unfold aintr_enabled in *. rewrite HB, (keeps_reg_b _ _ K i_wf0).
    destruct Hg as [?|?]; done.
Qed.

Lemma freq_needs_intr v : vrtc_freq v <> 0 -> tst (rd REG_B v) RTCSB_ALL_INTRS = true.
Proof.
  intros H. destruct (tst (rd REG_B v) RTCSB_ALL_INTRS) eqn:E; [done|]. exfalso. apply H.
  unfold vrtc_freq, pintr_enabled, aintr_enabled, uintr_enabled.
  change RTCSB_PINTR with (bit 6). change RTCSB_AINTR with (bit 5). change RTCSB_UINTR with (bit 4).
  by rewrite (tst_sub _ RTCSB_ALL_INTRS 6 ltac:(lia) eq_refl E), (tst_sub _ RTCSB_ALL_INTRS 5 ltac:(lia) eq_refl E),
    (tst_sub _ RTCSB_ALL_INTRS 4 ltac:(lia) eq_refl E).
Qed.

Lemma wp_callout_handler m : rtc_inv m ->
  wp (vrtc_callout_handler uptime wall hosttime me) (fun _ m' => rtc_inv m') m.
Proof.
  intros I. pose proof I as []. unfold vrtc_callout_handler. wp_go. split_if; [by wp_go|].
  split_if; [by wp_go|]. apply negb_false_iff in E0. rewrite i_active0 in E0.
  apply negb_true_iff, Z.eqb_neq in E0. wp_go.
  apply wp_KASSERT; [by apply freq_needs_intr|]. wp_go.
  set (m0 := m <| timer ::= co_deactivate me |>).
  apply (wp_conseq _ (fun _ m1 => moves_on m0 m1)).
  { apply wp_when; intros _; [|done].
    eapply wp_conseq; [by apply wp_set_reg_c|]. intros ? m1 (K & [Eu Eb] & _). split; [done|].
    rewrite Eu, Eb. split; [etrans; [exact i_up0|]; apply uptime_mono, K|done]. }
  intros _ m1 (K1 & Hu1 & Ht1 & Hb1). wp_go. pose proof (keeps_wf _ _ K1 i_wf0) as W1.
  apply (wp_conseq _ (fun _ m2 => moves_on m0 m2)).
  { apply wp_when; intros _; [|done]. wp_go.
    eapply wp_conseq; [by apply wp_sync|]. intros tb m2 [_ H]. cbv beta. wp_go.
    eapply wp_conseq; [exact H|]. intros e m3 [-> (K3 & ? & ? & ?)]. apply wp_KASSERT; [done|].
    split; [by etrans|]. split; [done|]. split; [done|congruence]. }
  intros _ m2 (K2 & Hu2 & Ht2 & Hb2). wp_go. cbv zeta.
  pose proof (keeps_freq _ _ K2 i_wf0 Hb2) as Hf. change (dev m0) with (dev m) in *.
  rewrite Hf. wp_go. apply wp_KASSERT; [by apply negb_true_iff, Z.eqb_neq|].
  eapply wp_conseq.
  { apply wp_callout_reset. rewrite (k_timer _ _ K2). by apply deactivate_ok. }
  intros _ m3 (Ed & Htk & Hok & Hact).
  assert (HB : rd REG_B (dev m2) = rd REG_B (dev m)) by (by apply (keeps_reg_b m0)).
  constructor; rewrite ?Ed; try done.
  - by apply K2.
  - rewrite (k_addr _ _ K2). done.
  - etrans; [exact Hu2|]. by apply uptime_mono.
  - unfold rtc_halted in *. by rewrite HB, Hb2.
  - by apply K2.
  - by rewrite Hf.
Qed.

Lemma wp_set_time secs m : rtc_inv m -> 0 <= secs ->
  (aintr_enabled (dev m) = true -> base_rtctime (dev m) <= secs) ->
  wp (vrtc_set_time uptime wall secs) (fun _ m' => rtc_inv m') m.
Proof.
  intros I Hs Ha. pose proof I as []. unfold vrtc_set_time. wp_go. apply wp_clock.
  pose proof (keeps_tick m) as K1. set (m1 := m <| ticks ::= S |>) in *.
  assert (E1 : dev m1 = dev m /\ ticks m1 = S (ticks m)) by done. clearbody m1. destruct E1 as [E1 E1'].
  eapply wp_conseq; [apply wp_time_update; rewrite ?E1; [done|lia|done|]|].
  { unfold visits. rewrite E1. intros Hv _ _. apply andb_true_iff in Hv as [Hv _]. auto. }
  intros e m2 (K2 & Eu & Eb). rewrite E1 in Eb. pose proof (k_ticks _ _ K2).
  assert (Hne : secs <> VRTC_BROKEN_TIME) by (unfold VRTC_BROKEN_TIME; lia).
  apply Z.eqb_neq in Hne as Hne'. rewrite Hne', andb_true_r in Eb.
  apply (inv_keeps m); [done|by etrans|rewrite Eu; apply uptime_mono; lia| |].
  - destruct (_ && _); lia.
  - destruct (rtc_halted (dev m)) eqn:Eh.
    + rewrite andb_true_r in Eb. destruct (Z.eqb_spec secs (base_rtctime (dev m))); [|by destruct Eb as [_ ->]].
      destruct Eb as [_ ->]. congruence.
    + rewrite andb_false_r in Eb. destruct Eb as [_ ->]. congruence.
Qed.

Lemma wp_reset m : rtc_inv m ->
  wp (vrtc_reset uptime wall hosttime me) (fun _ m' => rtc_inv m') m.
Proof.
  intros I. pose proof I as []. unfold vrtc_reset. wp_go.
  set (nv := clr _ _). assert (Hnv : nv in_u 8) by (apply clr_in_u; [lia|by apply rd_range]).
  assert (Hb : forall k, 0 <= k -> tst nv (bit k) = tst (rd REG_B (dev m)) (bit k) &&
    negb (tst (Z.lor RTCSB_ALL_INTRS RTCSB_SQWE) (bit k))).
  { intros k Hk. unfold nv. by rewrite !tst_bit, clr_testbit by done. }
  eapply wp_conseq; [by apply wp_set_reg_b|]. cbv beta. intros e m1 [H1 H2]. wp_go.
  destruct H2 as [-> HB1].
  { change RTCSB_HALT with (bit 7). specialize (Hb 7 ltac:(lia)).
    rewrite !tst_bit, Z.lxor_spec in * by lia. rewrite Hb. cbn. rewrite andb_true_r. apply xorb_nilpotent. }
  specialize (H1 ltac:(lia)).
  eapply wp_conseq; [apply (wp_keeps _ m1 H1)|].
  { eapply wp_conseq; [apply wp_set_reg_c, H1|]. intros ? m' (? & ? & _). done. }
  cbv beta. intros _ m2 [I2 K2]. wp_go. apply wp_KASSERT; [|done].
  rewrite (i_active _ I2), negb_involutive. apply Z.eqb_eq.
  destruct (decide (vrtc_freq (dev m2) = 0)) as [|Hf]; [done|]. apply freq_needs_intr in Hf.
  rewrite (keeps_reg_b _ _ K2 (i_wf _ H1)), HB1 in Hf. exfalso. revert Hf.
  unfold tst. rewrite negb_true_iff, Z.eqb_neq. intros Hf. apply Hf. apply Z.bits_inj'. intros k Hk.
  rewrite Z.land_spec, Z.testbit_0_l. specialize (Hb k Hk). rewrite !tst_bit in Hb by done. rewrite Hb.
  rewrite Z.lor_spec. by destruct (Z.testbit RTCSB_ALL_INTRS k); cbn; rewrite ?andb_false_r.
Qed.

Lemma wp_init m : co_ok me (timer m) -> co_active me (timer m) = false ->
  wp (vrtc_init uptime wall) (fun _ m' => rtc_inv m') m.
Proof.
  intros Hok Hact. unfold vrtc_init, set_dev. wp_go. apply wp_clock.
  set (d0 := wr REG_D RTCSD_PWR (wr REG_C 0 (wr REG_B RTCSB_24HR (wr REG_A 0x20 vrtc_zero)))
    <| addr := RTC_STATUSD |> <| base_rtctime := VRTC_BROKEN_TIME |>).
  set (m1 := _ <| ticks ::= S |>). wp_go.
  assert (E1 : dev m1 = d0 /\ timer m1 = timer m) by (split; reflexivity).
  assert (W0 : well_formed d0).
  { split; [reflexivity|]. vm_compute. repeat constructor; discriminate. }
  assert (Hu : uptime (ticks (m <| dev := d0 |>)) <= uptime (ticks m1)) by (apply uptime_mono; cbn; lia).
  match goal with |- wp (vrtc_time_update _ _ ?u) _ _ => set (now := u) in * end.
  assert (Hn : now <= uptime (ticks m1)) by exact Hu.
  clearbody m1 now. destruct E1 as [E1 E2].
  eapply wp_conseq; [apply wp_time_update; rewrite ?E1; done|]. intros e m2 (K2 & Eu2 & Eb2). cbv beta. wp_go.
  rewrite E1 in Eb2. change (rtc_halted d0) with false in Eb2. rewrite andb_false_r in Eb2.
  destruct Eb2 as [_ Eb2]. assert (W2 : well_formed (dev m2)) by (apply K2; by rewrite E1).
  eapply wp_conseq; [by apply wp_secs_to_rtc|]. intros _ m3 [K3 [Eu3 Eb3]]. cbv beta.
  assert (K : keeps m1 m3) by (by etrans). pose proof (k_ticks _ _ K). pose proof (k_ticks _ _ K2).
  rewrite <- E1 in W0. pose proof (keeps_reg_b _ _ K W0) as HB. rewrite E1 in HB.
  constructor.
  - by apply K.
  - rewrite (k_addr _ _ K), E1. vm_compute. split; [discriminate|reflexivity].
  - rewrite Eu3, Eu2. etrans; [exact Hn|]. apply uptime_mono. lia.
  - rewrite Eb3, Eb2. lia.
  - rewrite Eb3, Eb2. unfold rtc_halted. by rewrite HB.
  - apply K; [done|]. rewrite E1. done.
  - rewrite (k_timer _ _ K), E2. done.
  - rewrite (k_timer _ _ K), E2, Hact. symmetry. unfold vrtc_freq, pintr_enabled, aintr_enabled, uintr_enabled.
    by rewrite HB.
Qed.

(** *** Every operation *)

Inductive rtc_op : Type :=
| OpAddr (inp : bool) (bytes val : Z)
| OpData (inp : bool) (bytes val : Z)
| OpCallout
| OpNvramWrite (offset value : Z)
| OpNvramRead (offset : Z)
| OpSetTime (secs : Z)
| OpGetTime
| OpReset.

(** The operation and the [int] it returns (0 when it returns nothing). *)
Definition run_op (o : rtc_op) : cmd (rmachine T V) Z :=
  match o with
  | OpAddr inp bytes val => ev <- vrtc_addr_handler inp bytes val ;; ret ev.1
  | OpData inp bytes val => ev <- vrtc_data_handler uptime wall hosttime me inp bytes val ;; ret ev.1
  | OpCallout => vrtc_callout_handler uptime wall hosttime me ;;; ret 0
  | OpNvramWrite offset value => vrtc_nvram_write offset value
  | OpNvramRead offset => ev <- vrtc_nvram_read uptime wall offset ;; ret ev.1
  | OpSetTime secs => vrtc_set_time uptime wall secs
  | OpGetTime => vrtc_get_time uptime ;;; ret 0
  | OpReset => vrtc_reset uptime wall hosttime me ;;; ret 0
  end%cmd.

(** Time is not moved backwards while the alarm is enabled; the arguments are
    values of their C types. *)
Definition allowed (o : rtc_op) (m : rmachine T V) : Prop :=
  match o with
  | OpData inp _ _ => inp = true \/ addr (dev m) <> RTC_CENTURY \/ aintr_enabled (dev m) = false
  | OpNvramWrite offset value => -2 ^ 31 <= offset < 2 ^ 31 /\ value in_u 8
  | OpNvramRead offset => -2 ^ 31 <= offset < 2 ^ 31
  | OpSetTime secs => 0 <= secs /\ (aintr_enabled (dev m) = true -> base_rtctime (dev m) <= secs)
  | _ => True
  end.

Lemma inv_addr x m : rtc_inv m -> 0 <= x < 128 -> rtc_inv (m <| dev ::= fun v => v <| addr := x |> |>).
Proof. intros [] Hx. by constructor. Qed.

Lemma u64_int x : -2 ^ 31 <= x < 2 ^ 31 -> u64 x = if x <? 0 then x + 2 ^ 64 else x.
Proof.
  intros Hx. unfold u64. destruct (Z.ltb_spec x 0); [|by rewrite Z.mod_small by lia].
  rewrite <- (Z_mod_plus_full x 1), Z.mul_1_l. by rewrite Z.mod_small by lia.
Qed.

Lemma wp_curtime_inv m : rtc_inv m -> wp (vrtc_curtime uptime) (fun tb m' => rtc_inv m' /\ -1 <= tb.1) m.
Proof.
  intros I. pose proof I as []. eapply wp_conseq; [by apply wp_curtime|].
  intros tb m' (K & Ed & Ht & _). split; [|lia]. apply (inv_keeps m); rewrite ?Ed; try done.
  etrans; [exact i_up0|]. apply uptime_mono, K.
Qed.

Lemma wp_op o m : rtc_inv m -> allowed o m -> wp (run_op o) (fun e m' => e <> -1 -> rtc_inv m') m.
Proof.
  intros I Ha. destruct o as [inp bytes val|inp bytes val| |off x|off|secs| |]; cbn [run_op allowed] in *.
  - unfold vrtc_addr_handler, set_dev. wp_go. do 2 (split_if; [by wp_go|]). wp_go. intros _.
    apply inv_addr; [done|]. apply (land_in_u_r 7); done.
  - wp_go. eapply wp_conseq; [by apply wp_data_handler|]. intros ev m' H. by wp_go.
  - wp_go. eapply wp_conseq; [by apply wp_callout_handler|]. intros ev m' H. by wp_go.
  - unfold vrtc_nvram_write, set_dev. split_if; wp_go; [done|]. intros _. destruct Ha as [Ho Hx].
    rewrite u64_int in E by done. apply orb_false_iff in E as [E1 E3].
    apply orb_false_iff in E1 as [E1 E2]. bools. unfold NVRAM, SIZEOF_RTCDEV in *.
    destruct (Z.ltb_spec off 0); [lia|]. apply inv_wr; unfold REG_A, REG_B, REG_C; done || lia.
  - unfold vrtc_nvram_read. wp_go. split_if; wp_go; [done|].
    apply (wp_conseq _ (fun _ m1 => rtc_inv m1)).
    + apply wp_when; intros _; [|done]. wp_go. eapply wp_conseq; [by apply wp_curtime_inv|].
      intros tb m1 [I1 Ht]. cbv beta. eapply wp_conseq; [by apply wp_refresh|]. intros ? ? H. apply H.
    + intros ? m1 I1. by wp_go.
  - eapply wp_conseq; [apply wp_set_time; [done|apply Ha|apply Ha]|]. done.
  - unfold vrtc_get_time. wp_go. eapply wp_conseq; [by apply wp_curtime_inv|]. intros tb m' [H _]. by wp_go.
  - wp_go. eapply wp_conseq; [by apply wp_reset|]. intros ev m' H. by wp_go.
Qed.

(** Steps: an operation that does not fail, and what the rest of the system
    does in between (the callout thread, other devices, time passing).  A port
    access that fails with -1 is the last one: [emulate_inout_port] turns it
    into [EIO], [vm_run] returns that, and [vcpu_thread] leaves its loop and
    exits the process. *)
Inductive rtc_step : rmachine T V -> rmachine T V -> Prop :=
| step_op o e m m' : allowed o m -> run_op o m = Return (e, m') -> e <> -1 -> rtc_step m m'
| step_host t f n m : co_ok me t -> co_active me t = co_active me (timer m) -> (ticks m <= n)%nat ->
    rtc_step m (mk_rmachine (dev m) t f n).

Lemma rtc_step_inv m m' : rtc_step m m' -> rtc_inv m -> rtc_inv m'.
Proof.
  intros [o e n n' Ha E He|t f k n Hok Hact Hk] I.
  - exact (wp_run _ _ _ _ _ (wp_op o n I Ha) E He).
  - destruct I. constructor; cbn; try done; [|congruence].
    etrans; [exact i_up0|by apply uptime_mono].
Qed.

Definition rtc_reachable (m0 m : rmachine T V) : Prop :=
  exists m1, co_ok me (timer m0) /\ co_active me (timer m0) = false /\
    vrtc_init uptime wall m0 = Return (tt, m1) /\ rtc rtc_step m1 m.

Lemma reachable_inv m0 m : rtc_reachable m0 m -> rtc_inv m.
Proof.
  intros (m1 & Hok & Hact & E & R).
  assert (I : rtc_inv m1) by exact (wp_run _ _ _ _ _ (wp_init m0 Hok Hact) E).
  clear E. revert I. induction R; eauto using rtc_step_inv.
Qed.

(** at every reachable state the RTC registers are bytes, updates are
    halted exactly when the time base is broken, a pending enabled interrupt
    has its flag set, and the callout runs exactly when an interrupt needs
    it. *)
Theorem rtc_reachable_inv m0 m : rtc_reachable m0 m ->
  well_formed (dev m) /\ 0 <= addr (dev m) < 128 /\
  rtc_halted (dev m) = (base_rtctime (dev m) =? VRTC_BROKEN_TIME) /\ irq_ok (dev m) /\
  co_active me (timer m) = negb (vrtc_freq (dev m) =? 0).
Proof. intros R. by destruct (reachable_inv _ _ R). Qed.

(** as long as no operation has failed, from the initial state on, the
    next operation returns: no [KASSERT] fails and no loop runs for ever,
    whatever the clocks read.  If it does not fail, the registers are bytes,
    updates are halted exactly when the time base is broken, a pending enabled
    interrupt has its flag set, and the callout is armed exactly when an
    interrupt needs it.  Excluded are, while the alarm interrupt is enabled,
    writes to the century register and setting the clock back. *)
Theorem rtc_op_returns m0 m o : rtc_reachable m0 m -> allowed o m ->
  exists e m', run_op o m = Return (e, m') /\
    (e <> -1 -> well_formed (dev m') /\ 0 <= addr (dev m') < 128 /\
       rtc_halted (dev m') = (base_rtctime (dev m') =? VRTC_BROKEN_TIME) /\ irq_ok (dev m') /\
       co_active me (timer m') = negb (vrtc_freq (dev m') =? 0)).
Proof.
  intros R Ha. destruct (wp_elim _ _ _ (wp_op o m (reachable_inv _ _ R) Ha)) as (e & m' & E & Hi). exists e, m'.
  split; [done|]. intros He. by destruct (Hi He).
Qed.

(** C40: with the alarm enabled, setting the clock back makes the loop of
    [vrtc_time_update] step away from its end: no number of iterations is
    enough. *)
Theorem rtc_set_back_hangs fuel new a b c m : well_formed (dev m) ->
  0 <= base_rtctime (dev m) -> aintr_enabled (dev m) = true -> new <= base_rtctime (dev m) ->
  time_loop wall fuel (base_rtctime (dev m)) new a b c m = Hang.
Proof.
  intros W Hb Ha Hn. apply time_loop_backwards; [done|lia| |done]. unfold visits. rewrite Ha.
  apply negb_true_iff, Z.eqb_neq. unfold VRTC_BROKEN_TIME. lia.
Qed.

(** the time of day does not drift: storing the current time (as every
    access to the data port does) and reading it later gives the base time
    plus the whole seconds elapsed since the base was taken. *)
Theorem rtc_no_drift m tb m1 e m2 t m3 : rtc_inv m -> update_enabled (dev m) = true ->
  vrtc_curtime uptime m = Return (tb, m1) ->
  vrtc_time_update wall tb.1 tb.2 m1 = Return (e, m2) ->
  vrtc_get_time uptime m2 = Return (t, m3) ->
  t = base_rtctime (dev m) + (uptime (ticks m2) - base_uptime (dev m)) / SBT_1S.
Proof.
  intros I Hu E1 E2 E3. pose proof I as [].
  destruct (wp_run _ _ _ _ _ (wp_curtime m i_wf0 i_up0) E1) as (K1 & Ed & Ht & Hub & _).
  rewrite (curtime_run m Hu i_up0) in E1. injection E1 as Etb _.
  pose proof (keeps_wf _ _ K1 i_wf0) as W1.
  destruct (update_enabled_split _ Hu) as (Hdiv & Hh & Hb0). unfold VRTC_BROKEN_TIME in Hb0.
  pose proof (wp_time_update tb.1 tb.2 m1 W1 ltac:(lia) ltac:(rewrite Ed; lia)
    ltac:(intros _ _ _; rewrite Ed; lia)) as H.
  apply (wp_run _ _ _ _ _ H) in E2 as (K2 & Eu & Eb). clear H.
  rewrite Ed, Hh, andb_false_r in Eb. destruct Eb as [_ Eb].
  assert (Hu2 : update_enabled (dev m2) = true).
  { unfold update_enabled, rtc_halted in *.
    rewrite (keeps_reg_a _ _ K2 W1), (keeps_reg_b _ _ K2 W1), Ed, Hdiv, Hh, Eb. cbn [negb].
    by rewrite (proj2 (Z.eqb_neq _ _)) by (unfold VRTC_BROKEN_TIME; lia). }
  assert (Hup2 : base_uptime (dev m2) <= uptime (ticks m2)).
  { rewrite Eu. etrans; [exact Hub|]. apply uptime_mono, K2. }
  unfold vrtc_get_time in E3. erewrite bind_return in E3 by (by apply curtime_run).
  unfold ret in E3. injection E3 as <- _. cbn [fst]. rewrite Eu in Hup2.
  rewrite Eb, Eu. subst tb. cbn [fst snd] in *.
  rewrite (Z.quot_div_nonneg (uptime (ticks m) - _)) in * by (done || lia).
  set (q := (uptime (ticks m) - base_uptime (dev m)) / SBT_1S) in *.
  rewrite Z.quot_div_nonneg by (done || lia).
  replace (uptime (ticks m2) - (base_uptime (dev m) + q * SBT_1S))
    with (uptime (ticks m2) - base_uptime (dev m) + (- q) * SBT_1S) by lia.
  rewrite Z.div_add by done. lia.
Qed.

(** *** The alarm *)

(** Does the alarm of [v] go off at second [s] of the host's clock? *)
Definition alarm_at (v : vrtc) (a b c s : Z) : bool :=
  alarm_matches a b c (put_date (clock_ts_to_ct (mk_timespec s 0)) v).

Lemma alarm_at_reg_b v v' a b c s : well_formed v -> well_formed v' -> rd REG_B v' = rd REG_B v ->
  alarm_at v' a b c s = alarm_at v a b c s.
Proof.
  intros [Hl _] [Hl' _] HB. unfold alarm_at, alarm_matches, put_date. cbv zeta. rewrite HB. by rw_wr.
Qed.

Lemma set_reg_c_alarm x m m' : well_formed (dev m) -> vrtc_set_reg_c x m = Return (tt, m') ->
  keeps m m' /\ same_base m m' /\ ticks m' = ticks m /\
  tst (rd REG_C (dev m')) RTCIR_ALARM = tst x RTCIR_ALARM.
Proof.
  intros W E. destruct (wp_run _ _ _ _ _ (wp_set_reg_c x m W) E) as (K & B & _ & EC).
  split; [done|]. split; [done|]. split.
  - unfold vrtc_set_reg_c, bind, gets, set_dev, update, when, skip in E. cbv zeta in E.
    destruct (_ && _) in E; by injection E as <-.
  - change RTCIR_ALARM with (bit 5). rewrite EC, !tst_bit, Z.lor_spec, Z.land_spec by lia.
    rewrite (eq_refl : Z.testbit 0x70 5 = true), andb_true_r. by destruct (tst _ RTCIR_INT).
Qed.

Lemma time_tick_alarm old new a b c m : well_formed (dev m) -> visits m old = true ->
  0 <= base_rtctime (dev m) -> rtc_halted (dev m) = false ->
  exists m', time_tick wall old new a b c m = Return (tt, m') /\ keeps m m' /\
    base_rtctime (dev m') = base_rtctime (dev m) + 1 /\ ticks m' = S (ticks m) /\
    tst (rd REG_C (dev m')) RTCIR_ALARM =
      tst (rd REG_C (dev m)) RTCIR_ALARM || alarm_at (dev m) a b c (wall (ticks m)).
Proof.
  intros W Hv Hb Hh. pose proof Hv as Hv'. unfold visits in Hv'. apply andb_true_iff in Hv' as [Ha Ho].
  unfold time_tick, set_dev. erewrite bind_return by reflexivity.
  erewrite bind_return by reflexivity. rewrite Ha. cbn [when]. erewrite bind_return by reflexivity.
  set (m1 := m <| dev ::= _ |>).
  assert (E1 : base_rtctime (dev m1) = base_rtctime (dev m) + 1).
  { cbn. by rewrite Ha, Ho. }
  assert (K1 : keeps m m1) by (by constructor).
  assert (T1 : ticks m1 = ticks m) by done.
  assert (R1 : forall off, rd off (dev m1) = rd off (dev m)) by done. clearbody m1.
  pose proof (keeps_wf _ _ K1 W) as W1.
  assert (Hh1 : rtc_halted (dev m1) = false) by (unfold rtc_halted in *; by rewrite R1).
  rewrite E1, (bind_return _ _ _ _ _ (secs_to_rtc_run (base_rtctime (dev m) + 1) false m1 W1 ltac:(lia) ltac:(by rewrite Hh1))).
  erewrite bind_return by reflexivity. cbn [dev upd].
  set (v2 := put_date _ (dev m1)).
  assert (Eal : alarm_matches a b c v2 = alarm_at (dev m) a b c (wall (ticks m))).
  { unfold v2. rewrite T1. fold (alarm_at (dev m1) a b c (wall (ticks m))). by apply alarm_at_reg_b. }
  assert (W2 : well_formed v2) by (by apply put_date_wf).
  assert (C2 : rd REG_C v2 = rd REG_C (dev m)) by (rewrite <- R1; by apply put_date_other).
  pose proof (keeps_put (clock_ts_to_ct (mk_timespec (wall (ticks m1)) 0)) m1) as K2.
  set (m2 := m1 <| dev ::= _ |> <| ticks ::= S |>) in *.
  assert (E2 : dev m2 = v2 /\ ticks m2 = S (ticks m) /\ same_base m1 m2) by (by rewrite <- T1).
  clearbody m2. destruct E2 as (Ed2 & T2 & [_ B2]).
  rewrite Eal, C2. destruct (alarm_at _ _ _ _ _) eqn:Em; cbn [when].
  - destruct (wp_elim _ _ _ (wp_set_reg_c (Z.lor (rd REG_C (dev m)) RTCIR_ALARM) m2 ltac:(by rewrite Ed2)))
      as ([] & m3 & E3 & _).
    exists m3. split; [done|]. destruct (set_reg_c_alarm _ _ _ ltac:(by rewrite Ed2) E3) as (K3 & [_ B3] & T3 & Al).
    split; [by repeat (etrans; [eassumption|])|]. split; [congruence|]. split; [congruence|].
    rewrite Al, orb_true_r. change RTCIR_ALARM with (bit 5).
    rewrite tst_bit, Z.lor_spec, bit_testbit by lia. apply orb_true_r.
  - exists m2. split; [done|]. split; [by etrans|]. split; [congruence|]. split; [done|].
    by rewrite Ed2, C2, orb_false_r.
Qed.

Lemma time_loop_alarm n fuel old new a b c m : well_formed (dev m) -> visits m old = true ->
  0 <= base_rtctime (dev m) -> rtc_halted (dev m) = false ->
  new = base_rtctime (dev m) + Z.of_nat (S n) -> (n < fuel)%nat ->
  exists m', time_loop wall fuel old new a b c m = Return (tt, m') /\ keeps m m' /\
    tst (rd REG_C (dev m')) RTCIR_ALARM = tst (rd REG_C (dev m)) RTCIR_ALARM ||
      existsb (fun k => alarm_at (dev m) a b c (wall (ticks m + k))) (seq 0 (S n)).
Proof.
  revert fuel m. induction n as [|n IH]; intros fuel m W Hv Hb Hh Hn Hf; (destruct fuel as [|fuel]; [lia|]);
    cbn [time_loop];
    destruct (time_tick_alarm old new a b c m W Hv Hb Hh) as (m1 & E & K & Eb & Et & Al);
    rewrite (bind_return _ _ _ _ _ E); erewrite bind_return by reflexivity; cbv beta; rewrite Eb.
  - destruct (Z.eqb_spec (base_rtctime (dev m) + 1) new) as [_|?]; [|lia].
    exists m1. split; [done|]. split; [done|]. rewrite Al. cbn [seq existsb].
    by rewrite Nat.add_0_r, orb_false_r.
  - destruct (Z.eqb_spec (base_rtctime (dev m) + 1) new) as [?|_]; [lia|].
    pose proof (keeps_wf _ _ K W) as W1. pose proof (keeps_reg_b _ _ K W) as HB.
    destruct (IH fuel m1) as (m2 & E2 & K2 & Al2); [done| |lia| |lia|lia|].
    { unfold visits, aintr_enabled in *. by rewrite HB. }
    { unfold rtc_halted in *. by rewrite HB. }
    exists m2. split; [done|]. split; [by etrans|]. rewrite Al2, Al, <- orb_assoc. f_equal.
    change (seq 0 (S (S n))) with (O :: seq 1 (S n)). cbn [existsb]. rewrite Nat.add_0_r. f_equal.
    symmetry. apply existsb_shift. intros k.
    rewrite (alarm_at_reg_b (dev m) (dev m1)) by done. by rewrite Et, Nat.add_succ_r.
Qed.

(** with the alarm enabled, advancing the clock by [n] seconds raises the
    alarm flag exactly if it was raised before or the alarm matches the date
    fields at one of the [n] refreshes of the loop, each of which reads the
    host's calendar clock. *)
Theorem rtc_alarm_flag new nb m : rtc_inv m -> aintr_enabled (dev m) = true ->
  rtc_halted (dev m) = false -> base_rtctime (dev m) < new ->
  exists m', vrtc_time_update wall new nb m = Return (0, m') /\
    tst (rd REG_C (dev m')) RTCIR_ALARM = tst (rd REG_C (dev m)) RTCIR_ALARM ||
      existsb (fun k => alarm_at (dev m) (rd ALARM_SEC (dev m)) (rd ALARM_MIN (dev m)) (rd ALARM_HOUR (dev m))
                          (wall (ticks m + k)))
        (seq 0 (Z.to_nat (new - base_rtctime (dev m)))).
Proof.
  intros I Ha Hh Hn. pose proof I as []. rewrite Hh in i_halt0. symmetry in i_halt0.
  apply Z.eqb_neq in i_halt0. unfold VRTC_BROKEN_TIME in i_halt0.
  unfold vrtc_time_update, set_dev. erewrite bind_return by reflexivity. cbv zeta.
  erewrite bind_return by reflexivity.
  destruct (Z.eqb_spec new (base_rtctime (dev m))); [lia|].
  destruct (Z.eqb_spec new VRTC_BROKEN_TIME); [unfold VRTC_BROKEN_TIME in *; lia|]. rewrite Hh.
  set (m1 := m <| dev ::= _ |>).
  assert (Hv : visits m1 (base_rtctime (dev m)) = true).
  { unfold visits. change (aintr_enabled (dev m1)) with (aintr_enabled (dev m)). rewrite Ha.
    by apply negb_true_iff, Z.eqb_neq. }
  destruct (time_loop_alarm (pred (Z.to_nat (new - base_rtctime (dev m))))
    (S (Z.to_nat (new - base_rtctime (dev m)))) (base_rtctime (dev m)) new
    (rd ALARM_SEC (dev m)) (rd ALARM_MIN (dev m)) (rd ALARM_HOUR (dev m)) m1) as (m2 & E2 & K2 & Al2);
    [done|done|cbn; lia|done|cbn; lia|lia|].
  rewrite (bind_return _ _ _ _ _ E2). erewrite bind_return by reflexivity.
  replace (S (pred _)) with (Z.to_nat (new - base_rtctime (dev m))) in Al2 by lia.
  change (dev m1) with (dev m <| base_uptime := nb |>) in Al2.
  assert (W2 : well_formed (dev m2)) by (by apply K2).
  destruct (uintr_enabled (dev m2)); cbn [when].
  - destruct (wp_elim _ _ _ (wp_set_reg_c (Z.lor (rd REG_C (dev m2)) RTCIR_UPDATE) m2 W2)) as ([] & m3 & E3 & _).
    rewrite (bind_return _ _ _ _ _ E3). exists m3. split; [done|].
    destruct (set_reg_c_alarm _ _ _ W2 E3) as (_ & _ & _ & ->). etrans; [|exact Al2].
    change RTCIR_ALARM with (bit 5). rewrite !tst_bit, Z.lor_spec by lia.
    by rewrite (eq_refl : Z.testbit RTCIR_UPDATE 5 = false), orb_false_r.
  - erewrite bind_return by reflexivity. exists m2. split; [done|]. exact Al2.
Qed.
End Proofs.

(** ** Examples *)

Module RtcExample.
Definition up (n : nat) : Z := Z.of_nat n * 2 ^ 31.
Definition cal (n : nat) : Z := (1709210096 + Z.of_nat n) mod 2 ^ 32.
Definition host (n : nat) : Z := Z.of_nat n.

Lemma up_mono i j : (i <= j)%nat -> up i <= up j.
Proof. unfold up. lia. Qed.

Lemma cal_range n : cal n in_u 32.
Proof. apply mod_in_u. lia. Qed.

Abbreviation machine := (rmachine timers (list pulse_call)).

(** The state after a command that returns. *)
Definition after {A} (c : cmd machine A) (m : machine) : machine :=
  match c m with Return (_, m') => m' | _ => m end.

Definition off_state : machine := mk_rmachine vrtc_zero (fun _ => (None, false)) [] O.
Definition m_init : machine := after (vrtc_init up cal) off_state.
(** Then the guest selects register B and enables the alarm. *)
Definition op (o : rtc_op) : cmd machine Z := run_op up cal host 1 o.
Definition m_alarm : machine := after (op (OpData false 1 0x22)) (after (op (OpAddr false 1 11)) m_init).

Lemma init_reachable : rtc_reachable up cal host 1 off_state m_init.
Proof.
  exists m_init. split; [exact I|]. split; [reflexivity|]. split; [|apply rtc_refl].
  vm_compute. reflexivity.
Qed.

Lemma rtc_init_inv : rtc_inv up 1 m_init.
Proof. exact (reachable_inv up cal host 1 up_mono cal_range _ _ init_reachable). Qed.
Definition succeeds (o : rtc_op) (m : machine) : bool :=
  match op o m with Return (e, _) => negb (e =? -1) | _ => false end.

Lemma after_inv o m : rtc_inv up 1 m -> allowed o m -> succeeds o m = true -> rtc_inv up 1 (after (op o) m).
Proof.
  intros Hm Ha Hs. unfold succeeds in Hs. unfold after. destruct (op o m) as [[e m']| |] eqn:E; [|done|done].
  apply negb_true_iff, Z.eqb_neq in Hs.
  exact (wp_run _ _ _ _ _ (wp_op up cal host 1 up_mono cal_range o m Hm Ha) E Hs).
Qed.

Lemma alarm_inv : rtc_inv up 1 m_alarm.
Proof.
  apply after_inv; [apply after_inv; [apply rtc_init_inv|exact I|vm_compute; reflexivity]| |vm_compute; reflexivity].
  right. left. vm_compute. discriminate.
Qed.
End RtcExample.

Import RtcExample.

Lemma date_roundtrip_witness :
  exists m', secs_to_rtc cal 5 false m_init = Return (tt, m') /\ rtc_to_secs (dev m') = cal (ticks m_init).
Proof. apply (date_roundtrip cal cal_range); [apply rtc_init_inv|discriminate|vm_compute; reflexivity]. Defined.

Lemma rtc_reachable_inv_witness :
  well_formed (dev m_init) /\ 0 <= addr (dev m_init) < 128 /\
  rtc_halted (dev m_init) = (base_rtctime (dev m_init) =? VRTC_BROKEN_TIME) /\ irq_ok (dev m_init) /\
  co_active 1 (timer m_init) = negb (vrtc_freq (dev m_init) =? 0).
Proof. exact (rtc_reachable_inv up cal host 1 up_mono cal_range off_state m_init init_reachable). Defined.

Lemma rtc_op_returns_witness :
  exists e m', run_op up cal host 1 (OpData false 1 0x20) m_init = Return (e, m') /\
    (e <> -1 -> well_formed (dev m') /\ 0 <= addr (dev m') < 128 /\
       rtc_halted (dev m') = (base_rtctime (dev m') =? VRTC_BROKEN_TIME) /\ irq_ok (dev m') /\
       co_active 1 (timer m') = negb (vrtc_freq (dev m') =? 0)).
Proof.
  apply (rtc_op_returns up cal host 1 up_mono cal_range off_state m_init (OpData false 1 0x20) init_reachable).
  right. left. vm_compute. discriminate.
Defined.

(** After a failure the next access may fail an assertion: with the updates
    halted and no valid month, enabling the periodic interrupt while letting
    the updates go fails, but register B keeps the new value; a second CPU that
    writes it again before the process exits finds the callout not armed. *)
Definition outputs (l : list (Z * Z)) (m : machine) : machine :=
  fold_left (fun m '(reg, v) => after (op (OpData false 1 v)) (after (op (OpAddr false 1 reg)) m)) l m.

Example failed_write_aborts :
  let m := after (op (OpAddr false 1 11)) (outputs [(10, 0x26); (11, 0x82); (8, 0x55)] m_init) in
  match op (OpData false 1 0x42) m with
  | Return (e, m') => e = -1 /\ op (OpData false 1 0x42) m' = Panic
  | _ => False
  end.
Proof. vm_compute. done. Qed.

Lemma rtc_set_back_hangs_witness :
  time_loop cal 100 (base_rtctime (dev m_alarm)) 0 1 2 3 m_alarm = Hang.
Proof.
  apply (rtc_set_back_hangs cal cal_range); [apply alarm_inv|vm_compute; discriminate|vm_compute; reflexivity|].
  vm_compute. discriminate.
Defined.

Lemma rtc_no_drift_witness :
  let m1 := after (vrtc_curtime up) m_init in
  let m2 := after (vrtc_time_update cal 1 (2 ^ 32)) m1 in
  1 = base_rtctime (dev m_init) + (up (ticks m2) - base_uptime (dev m_init)) / SBT_1S.
Proof.
  intros m1 m2.
  apply (rtc_no_drift up cal 1 up_mono cal_range m_init (1, 2 ^ 32) m1 0 m2 1 (after (vrtc_get_time up) m2) rtc_init_inv);
    vm_compute; reflexivity.
Defined.

Lemma rtc_alarm_flag_witness :
  exists m', vrtc_time_update cal 3 0 m_alarm = Return (0, m') /\
    tst (rd REG_C (dev m')) RTCIR_ALARM = tst (rd REG_C (dev m_alarm)) RTCIR_ALARM ||
      existsb (fun k => alarm_at (dev m_alarm) (rd ALARM_SEC (dev m_alarm)) (rd ALARM_MIN (dev m_alarm))
                          (rd ALARM_HOUR (dev m_alarm)) (cal (ticks m_alarm + k)))
        (seq 0 (Z.to_nat (3 - base_rtctime (dev m_alarm)))).
Proof.
  apply (rtc_alarm_flag up cal 1 cal_range 3 0 m_alarm alarm_inv); vm_compute; reflexivity.
Defined.
