(* ===== verification/Uart.v ===== *)
(** * The 16550 serial port (uart_emul.c)

    Receive FIFO, registers, interrupt pin and terminal back end.  The
    terminal is what the code sees of it through [read] and [write] on a
    non-blocking descriptor: the bytes waiting to be read and the bytes
    written.  The event loop appears as the flag that [mevent_enable] and
    [mevent_disable] set; both are taken to succeed, as the code asserts.
    Every entry point holds the lock of the device. *)

From stdpp Require Import strings.
From S2P Require Import Prelude Interface.

Definition FIFOSZ : Z := 16.

Record fifo : Type := mk_fifo {
  buf : list Z;
  rindex : Z;
  windex : Z;
  num : Z;
  fsize : Z;
}.
#[export] Instance eta_fifo : Eta fifo := fun f =>
  mk_fifo (buf f) (rindex f) (windex f) (num f) (fsize f).

Record ttyfd : Type := mk_ttyfd {
  opened : bool;
  fd : Z;
  pending : list Z;   (* bytes read() would return *)
  written : list Z;   (* bytes given to write() *)
  mev_enabled : bool; (* the read event is enabled *)
}.
#[export] Instance eta_ttyfd : Eta ttyfd := fun t =>
  mk_ttyfd (opened t) (fd t) (pending t) (written t) (mev_enabled t).

Record uart_softc (V : Type) : Type := mk_uart {
  ier : Z; lcr : Z; mcr : Z; lsr : Z; msr : Z; fcr : Z; scr : Z; dll : Z; dlh : Z;
  rxfifo : fifo;
  tty : ttyfd;
  thre_int_pending : bool;
  pin : V;            (* the other end of intr_assert and intr_deassert *)
}.
Arguments mk_uart {V}.
Arguments ier {V}. Arguments lcr {V}. Arguments mcr {V}. Arguments lsr {V}. Arguments msr {V}.
Arguments fcr {V}. Arguments scr {V}. Arguments dll {V}. Arguments dlh {V}.
Arguments rxfifo {V}. Arguments tty {V}. Arguments thre_int_pending {V}. Arguments pin {V}.
#[export] Instance eta_uart V : Eta (uart_softc V) := fun s =>
  mk_uart (ier s) (lcr s) (mcr s) (lsr s) (msr s) (fcr s) (scr s) (dll s) (dlh s)
    (rxfifo s) (tty s) (thre_int_pending s) (pin s).

(** The interrupt callbacks [uart_init] is given. *)
Class IntrPin (V : Type) := { intr_assert : V -> V; intr_deassert : V -> V }.

(** A wire that remembers its level. *)
#[export] Instance wire : IntrPin bool := {
  intr_assert _ := true;
  intr_deassert _ := false;
}.

Definition REG_DATA : Z := 0.
Definition REG_IER : Z := 1.
Definition REG_IIR : Z := 2.
Definition REG_FCR : Z := 2.
Definition REG_LCR : Z := 3.
Definition REG_MCR : Z := 4.
Definition REG_LSR : Z := 5.
Definition REG_MSR : Z := 6.
Definition REG_SCR : Z := 7.
Definition REG_DLL : Z := 0.
Definition REG_DLH : Z := 1.
Definition IER_ERXRDY : Z := 0x1.
Definition IER_ETXRDY : Z := 0x2.
Definition IER_ERLS : Z := 0x4.
Definition IER_EMSC : Z := 0x8.
Definition IIR_RXTOUT : Z := 0xc.
Definition IIR_RLS : Z := 0x6.
Definition IIR_TXRDY : Z := 0x2.
Definition IIR_NOPEND : Z := 0x1.
Definition IIR_MLSC : Z := 0x0.
Definition IIR_FIFO_MASK : Z := 0xc0.
Definition LCR_DLAB : Z := 0x80.
Definition MCR_LOOPBACK : Z := 0x10.
Definition MCR_RTS : Z := 0x02.
Definition MCR_DTR : Z := 0x01.
Definition MCR_OUT1 : Z := 0x04.
Definition MCR_OUT2 : Z := 0x08.
Definition LSR_TEMT : Z := 0x40.
Definition LSR_THRE : Z := 0x20.
Definition LSR_OE : Z := 0x02.
Definition LSR_RXRDY : Z := 0x01.
Definition MSR_DCD : Z := 0x80.
Definition MSR_RI : Z := 0x40.
Definition MSR_DSR : Z := 0x20.
Definition MSR_CTS : Z := 0x10.
Definition MSR_DDCD : Z := 0x08.
Definition MSR_TERI : Z := 0x04.
Definition MSR_DDSR : Z := 0x02.
Definition MSR_DCTS : Z := 0x01.
Definition MSR_DELTA_MASK : Z := 0x0f.
Definition FCR_ENABLE : Z := 0x01.
Definition FCR_RCV_RST : Z := 0x02.
Definition FCR_DMA : Z := 0x08.
Definition FCR_RX_MASK : Z := 0xC0.
Definition DEFAULT_RCLK : Z := 1843200.
Definition DEFAULT_BAUD : Z := 9600.

(** [ttyread], [ttywrite]: one byte, [-1] when there is none. *)
Definition ttyread (t : ttyfd) : Z * ttyfd :=
  match pending t with
  | [] => (-1, t)
  | c :: l => (c, t <| pending := l |>)
  end.

Definition ttywrite (wb : Z) (t : ttyfd) : ttyfd := t <| written ::= fun l => l ++ [wb] |>.

(** The flush loop of [rxfifo_reset]: reads of 32 bytes until a short one. *)
Fixpoint flush (fuel : nat) (input : list Z) : list Z :=
  match fuel with
  | O => input
  | S fuel' =>
      let chunk := take 32 input in
      let rest := drop 32 input in
      if negb (Z.of_nat (length chunk) =? 32) then rest else flush fuel' rest
  end.

Section Device.
Context {V : Type} `{!IntrPin V}.
Implicit Types sc : uart_softc V.

Definition rxfifo_reset (sz : Z) sc : uart_softc V :=
  let sc := sc <| rxfifo := mk_fifo (replicate 16 0) 0 0 0 sz |> in
  if opened (tty sc) then
    sc <| tty ::= fun t => t <| pending := flush (S (length (pending t))) (pending t) |>
                            <| mev_enabled := true |> |>
  else sc.

Definition rxfifo_available sc : bool := num (rxfifo sc) <? fsize (rxfifo sc).

Definition rxfifo_putchar (ch : Z) sc : Z * uart_softc V :=
  if num (rxfifo sc) <? fsize (rxfifo sc) then
    let sc := sc <| rxfifo ::= fun f => f <| buf ::= <[Z.to_nat (windex f) := ch]> |>
                                          <| windex := Z.rem (windex f + 1) (fsize f) |>
                                          <| num ::= fun n => n + 1 |> |> in
    let sc := if negb (rxfifo_available sc) && opened (tty sc)
              then sc <| tty ::= fun t => t <| mev_enabled := false |> |> else sc in
    (0, sc)
  else (-1, sc).

Definition rxfifo_getchar sc : Z * uart_softc V :=
  let f := rxfifo sc in
  if 0 <? num f then
    let wasfull := negb (rxfifo_available sc) in
    let c := default 0 (buf f !! Z.to_nat (rindex f)) in
    let sc := sc <| rxfifo ::= fun f => f <| rindex := Z.rem (rindex f + 1) (fsize f) |>
                                          <| num ::= fun n => n - 1 |> |> in
    let sc := if wasfull && opened (tty sc)
              then sc <| tty ::= fun t => t <| mev_enabled := true |> |> else sc in
    (c, sc)
  else (-1, sc).

Definition rxfifo_numchars sc : Z := num (rxfifo sc).

Definition uart_opentty sc : uart_softc V := sc <| tty ::= fun t => t <| mev_enabled := true |> |>.

Definition uart_intr_reason sc : Z :=
  if tst (lsr sc) LSR_OE && tst (ier sc) IER_ERLS then IIR_RLS
  else if (0 <? rxfifo_numchars sc) && tst (ier sc) IER_ERXRDY then IIR_RXTOUT
  else if thre_int_pending sc && tst (ier sc) IER_ETXRDY then IIR_TXRDY
  else if tst (msr sc) MSR_DELTA_MASK && tst (ier sc) IER_EMSC then IIR_MLSC
  else IIR_NOPEND.

Definition uart_reset sc : uart_softc V :=
  let divisor := u16 (DEFAULT_RCLK / DEFAULT_BAUD / 16) in
  let sc := sc <| dll := u8 divisor |> <| dlh := u8 (Z.shiftr divisor 16) |> in
  rxfifo_reset 1 sc.

Definition uart_toggle_intr sc : uart_softc V :=
  if u8 (uart_intr_reason sc) =? IIR_NOPEND then sc <| pin ::= intr_deassert |>
  else sc <| pin ::= intr_assert |>.

(** The loop of [uart_drain], along the bytes the terminal holds. *)
Fixpoint drain_loop (input : list Z) sc : uart_softc V :=
  if rxfifo_available sc then
    match input with
    | [] => sc
    | ch :: l =>
        let sc := sc <| tty ::= fun t => (ttyread t).2 |> in
        drain_loop l (rxfifo_putchar (u8 ch) sc).2
    end
  else sc.

Definition uart_drain sc : uart_softc V :=
  if tst (mcr sc) MCR_LOOPBACK then sc <| tty ::= fun t => (ttyread t).2 |>
  else uart_toggle_intr (drain_loop (pending (tty sc)) sc).

(** The FCR and MCR cases of [uart_write]. *)
Definition write_fcr (value : Z) sc : uart_softc V :=
  let sc := if negb (Z.lxor (Z.land (fcr sc) FCR_ENABLE) (Z.land value FCR_ENABLE) =? 0)
            then rxfifo_reset (if tst value FCR_ENABLE then FIFOSZ else 1) sc else sc in
  if Z.land value FCR_ENABLE =? 0 then sc <| fcr := 0 |>
  else
    let sc := if tst value FCR_RCV_RST then rxfifo_reset FIFOSZ sc else sc in
    sc <| fcr := Z.land value (Z.lor (Z.lor FCR_ENABLE FCR_DMA) FCR_RX_MASK) |>.

Definition loopback_msr (m : Z) : Z :=
  if tst m MCR_LOOPBACK then
    let msr := 0 in
    let msr := if tst m MCR_RTS then Z.lor msr MSR_CTS else msr in
    let msr := if tst m MCR_DTR then Z.lor msr MSR_DSR else msr in
    let msr := if tst m MCR_OUT1 then Z.lor msr MSR_RI else msr in
    if tst m MCR_OUT2 then Z.lor msr MSR_DCD else msr
  else 0.

(** The new MSR: status bits [new], delta bits kept and added. *)
Definition update_msr (new old : Z) : Z :=
  let changed x mask := negb (Z.lxor (Z.land new mask) (Z.land x mask) =? 0) in
  let x := old in
  let x := if changed x MSR_CTS then Z.lor x MSR_DCTS else x in
  let x := if changed x MSR_DSR then Z.lor x MSR_DDSR else x in
  let x := if changed x MSR_DCD then Z.lor x MSR_DDCD else x in
  let x := if tst x MSR_RI && (Z.land new MSR_RI =? 0) then Z.lor x MSR_TERI else x in
  Z.lor (Z.land x MSR_DELTA_MASK) new.

Definition write_mcr (value : Z) sc : uart_softc V :=
  let sc := sc <| mcr := Z.land value 0x1F |> in
  sc <| msr ::= update_msr (loopback_msr (mcr sc)) |>.

Definition write_data (value : Z) sc : uart_softc V :=
  let sc := if tst (mcr sc) MCR_LOOPBACK then
              let '(r, sc) := rxfifo_putchar value sc in
              if negb (r =? 0) then sc <| lsr ::= fun x => Z.lor x LSR_OE |> else sc
            else if opened (tty sc) then sc <| tty ::= ttywrite value |>
            else sc in
  sc <| thre_int_pending := true |>.

Definition write_reg (offset value : Z) sc : uart_softc V :=
  if tst (lcr sc) LCR_DLAB && (offset =? REG_DLL) then sc <| dll := value |>
  else if tst (lcr sc) LCR_DLAB && (offset =? REG_DLH) then sc <| dlh := value |>
  else if offset =? REG_DATA then write_data value sc
  else if offset =? REG_IER then sc <| ier := Z.land value 0x0F |>
  else if offset =? REG_FCR then write_fcr value sc
  else if offset =? REG_LCR then sc <| lcr := value |>
  else if offset =? REG_MCR then write_mcr value sc
  else if offset =? REG_LSR then sc
  else if offset =? REG_MSR then sc
  else if offset =? REG_SCR then sc <| scr := value |>
  else sc.

Definition uart_write (offset value : Z) sc : uart_softc V := uart_toggle_intr (write_reg offset value sc).

Definition read_iir sc : Z * uart_softc V :=
  let iir := if tst (fcr sc) FCR_ENABLE then IIR_FIFO_MASK else 0 in
  let reason := u8 (uart_intr_reason sc) in
  let sc := if reason =? IIR_TXRDY then sc <| thre_int_pending := false |> else sc in
  (Z.lor iir reason, sc).

Definition read_lsr sc : Z * uart_softc V :=
  let sc := sc <| lsr ::= fun x => Z.lor x (Z.lor LSR_TEMT LSR_THRE) |> in
  let sc := if 0 <? rxfifo_numchars sc then sc <| lsr ::= fun x => Z.lor x LSR_RXRDY |>
            else sc <| lsr ::= fun x => clr x LSR_RXRDY |> in
  (lsr sc, sc <| lsr ::= fun x => clr x LSR_OE |>).

Definition read_reg (offset : Z) sc : Z * uart_softc V :=
  if tst (lcr sc) LCR_DLAB && (offset =? REG_DLL) then (dll sc, sc)
  else if tst (lcr sc) LCR_DLAB && (offset =? REG_DLH) then (dlh sc, sc)
  else if offset =? REG_DATA then let '(c, sc) := rxfifo_getchar sc in (u8 c, sc)
  else if offset =? REG_IER then (ier sc, sc)
  else if offset =? REG_IIR then read_iir sc
  else if offset =? REG_LCR then (lcr sc, sc)
  else if offset =? REG_MCR then (mcr sc, sc)
  else if offset =? REG_LSR then read_lsr sc
  else if offset =? REG_MSR then (msr sc, sc <| msr ::= fun x => clr x MSR_DELTA_MASK |>)
  else if offset =? REG_SCR then (scr sc, sc)
  else (0xFF, sc).

Definition uart_read (offset : Z) sc : Z * uart_softc V :=
  let '(reg, sc) := read_reg offset sc in (reg, uart_toggle_intr sc).

(** [calloc] zeroes the structure; [p] is the wire behind the callbacks. *)
Definition uart_init (p : V) : uart_softc V :=
  uart_reset (mk_uart 0 0 0 0 0 0 0 0 0 (mk_fifo (replicate 16 0) 0 0 0 0)
                (mk_ttyfd false 0 [] [] false) false p).

(** What the host answers to the calls of [uart_set_backend]. *)
Record host_tty : Type := mk_host_tty {
  h_fcntl : Z;      (* fcntl(F_SETFL, O_NONBLOCK) on standard input *)
  h_ptmx : Z;       (* open("/dev/ptmx"), -1 on failure *)
  h_ptsname : bool; (* ptsname() found the name *)
  h_grantpt : Z;
  h_unlockpt : Z;
  h_open : Z;       (* open(backend) *)
  h_isatty : bool;
}.

(** The terminal [t] behind descriptor [f] is attached. *)
Definition attach (f : Z) sc : uart_softc V := sc <| tty ::= fun t => t <| fd := f |> <| opened := true |> |>.

Definition uart_tty_backend (h : host_tty) sc : Z * uart_softc V :=
  if (0 <? h_open h) && h_isatty h then (0, attach (h_open h) sc) else (-1, sc).

(** [uart_set_backend]: the result, the new value of the global [uart_stdio]
    and the device. *)
Definition uart_set_backend (h : host_tty) (backend : option string) (uart_stdio : bool) sc
    : Z * bool * uart_softc V :=
  match backend with
  | None => (0, uart_stdio, sc)
  | Some name =>
      let finish '(retval, stdio, sc) :=
        (retval, stdio, if retval =? 0 then uart_opentty sc else sc) in
      if bool_decide (name = "stdio"%string) && negb uart_stdio then
        finish (h_fcntl h, true, attach 0 sc)
      else if bool_decide (name = "autopty"%string) then
        if h_ptmx h =? -1 then (-1, uart_stdio, sc)
        else if negb (h_ptsname h) then (-1, uart_stdio, sc)
        else if h_grantpt h =? -1 then (h_grantpt h, uart_stdio, sc)
        else if h_unlockpt h =? -1 then (h_unlockpt h, uart_stdio, sc)
        else finish (0, uart_stdio, attach (h_ptmx h) sc)
      else
        let '(r, sc) := uart_tty_backend h sc in
        finish (if r =? 0 then 0 else -1, uart_stdio, sc)
  end.
End Device.

(** The two legacy ports. *)
Record lres : Type := mk_lres { baseaddr : Z; irq : Z; inuse : bool }.
#[export] Instance eta_lres : Eta lres := fun l => mk_lres (baseaddr l) (irq l) (inuse l).

Definition uart_lres : list lres := [mk_lres 0x3F8 4 false; mk_lres 0x2F8 3 false].

(** [uart_legacy_alloc]: [None] is the error return. *)
Definition uart_legacy_alloc (which : Z) (l : list lres) : option (Z * Z * list lres) :=
  if which <? 0 then None
  else
    r ← l !! Z.to_nat which;
    if inuse r then None
    else Some (baseaddr r, irq r, <[Z.to_nat which := r <| inuse := true |>]> l).

(** ** The FIFO as a queue *)

Record wf_fifo (f : fifo) : Prop := {
  f_len : length (buf f) = 16%nat;
  f_size : fsize f = 1 \/ fsize f = FIFOSZ;
  f_rindex : 0 <= rindex f < fsize f;
  f_num : 0 <= num f <= fsize f;
  f_windex : windex f = (rindex f + num f) mod fsize f;
}.

Definition slot (f : fifo) (k : nat) : Z :=
  default 0 (buf f !! Z.to_nat ((rindex f + Z.of_nat k) mod fsize f)).

(** The characters in the FIFO, oldest first. *)
Definition contents (f : fifo) : list Z := map (slot f) (seq 0 (Z.to_nat (num f))).

Lemma length_contents f : length (contents f) = Z.to_nat (num f).
Proof. unfold contents. by rewrite length_map, length_seq. Qed.

Lemma wf_reset k : k = 1 \/ k = FIFOSZ -> wf_fifo (mk_fifo (replicate 16 0) 0 0 0 k).
Proof. intros [-> | ->]; constructor; cbn; auto; unfold FIFOSZ; lia. Qed.

Definition put (ch : Z) (f : fifo) : fifo :=
  f <| buf ::= <[Z.to_nat (windex f) := ch]> |>
    <| windex := Z.rem (windex f + 1) (fsize f) |> <| num ::= fun n => n + 1 |>.

Definition get (f : fifo) : fifo :=
  f <| rindex := Z.rem (rindex f + 1) (fsize f) |> <| num ::= fun n => n - 1 |>.

Lemma size_bounds f : wf_fifo f -> 1 <= fsize f <= 16.
Proof. intros []. unfold FIFOSZ in *. lia. Qed.

Lemma put_wf ch f : wf_fifo f -> num f < fsize f -> wf_fifo (put ch f).
Proof.
  intros W Hn. pose proof (size_bounds f W). destruct W. unfold put.
  constructor; cbn; auto; [by rewrite length_insert|lia|].
  pose proof (Z.mod_pos_bound (rindex f + num f) (fsize f) ltac:(lia)).
  rewrite Z.rem_mod_nonneg by lia. rewrite f_windex0, Z.add_mod_idemp_l by lia. f_equal. lia.
Qed.

Lemma get_wf f : wf_fifo f -> 0 < num f -> wf_fifo (get f).
Proof.
  intros W Hn. pose proof (size_bounds f W). destruct W. unfold get.
  rewrite Z.rem_mod_nonneg by lia. pose proof (Z.mod_pos_bound (rindex f + 1) (fsize f) ltac:(lia)).
  constructor; cbn; auto; [lia|].
  rewrite Z.add_mod_idemp_l, f_windex0 by lia. f_equal. lia.
Qed.

(** Two positions less than a turn apart are different slots. *)
Lemma slots_distinct r k n m : 0 < m -> 0 <= k < n -> n < m + k -> (r + k) mod m <> (r + n) mod m.
Proof.
  intros Hm Hk Hn E. assert (D : (n - k) mod m = 0).
  { replace (n - k) with (r + n - (r + k)) by lia. rewrite Zminus_mod, E, Z.sub_diag. apply Zmod_0_l. }
  rewrite Z.mod_small in D by lia. lia.
Qed.

Lemma put_contents ch f : wf_fifo f -> num f < fsize f -> contents (put ch f) = contents f ++ [ch].
Proof.
  intros W Hn. pose proof (size_bounds f W). destruct W. unfold contents. cbn [num put upd].
  replace (Z.to_nat (num f + 1)) with (S (Z.to_nat (num f))) by lia.
  rewrite seq_S, map_app. cbn [map]. f_equal.
  - apply map_ext_in. intros k Hk%in_seq. unfold slot. cbn [buf rindex fsize put upd].
    rewrite list_lookup_insert_ne; [done|]. rewrite f_windex0. intros E.
    pose proof (Z.mod_pos_bound (rindex f + num f) (fsize f) ltac:(lia)).
    pose proof (Z.mod_pos_bound (rindex f + Z.of_nat k) (fsize f) ltac:(lia)).
    apply Z2Nat.inj in E; [|lia..]. symmetry in E. revert E. apply slots_distinct; lia.
  - unfold slot. cbn [buf rindex fsize put upd]. rewrite Nat.add_0_l, Z2Nat.id, <- f_windex0 by lia.
    pose proof (Z.mod_pos_bound (rindex f + num f) (fsize f) ltac:(lia)).
    by rewrite list_lookup_insert_eq by lia.
Qed.

Lemma get_contents f : wf_fifo f -> 0 < num f ->
  contents f = default 0 (buf f !! Z.to_nat (rindex f)) :: contents (get f).
Proof.
  intros W Hn. pose proof (size_bounds f W). destruct W. unfold contents. cbn [num get upd].
  replace (Z.to_nat (num f)) with (S (Z.to_nat (num f - 1))) by lia. cbn [seq map]. f_equal.
  - unfold slot. by rewrite Z.add_0_r, Z.mod_small by lia.
  - rewrite <- seq_shift, map_map. apply map_ext. intros k. unfold slot. cbn [buf rindex fsize get upd].
    rewrite Z.rem_mod_nonneg, Z.add_mod_idemp_l by lia.
    by replace (rindex f + 1 + Z.of_nat k) with (rindex f + Z.of_nat (S k)) by lia.
Qed.

Lemma contents_empty f : num f = 0 -> contents f = [].
Proof. intros E. unfold contents. by rewrite E. Qed.

Section Proofs.
Context {V : Type} `{!IntrPin V}.
Implicit Types sc : uart_softc V.

(** The characters waiting in the device. *)
Definition rx sc : list Z := contents (rxfifo sc).

Lemma putchar_queue ch sc : wf_fifo (rxfifo sc) ->
  let '(r, sc') := rxfifo_putchar ch sc in
  wf_fifo (rxfifo sc') /\ fsize (rxfifo sc') = fsize (rxfifo sc) /\
  if rxfifo_available sc then r = 0 /\ rx sc' = rx sc ++ [ch] else r = -1 /\ sc' = sc.
Proof.
  intros W. unfold rxfifo_putchar, rxfifo_available, rx. destruct (Z.ltb_spec (num (rxfifo sc)) (fsize (rxfifo sc))); [|done].
  assert (E : forall b : bool, rxfifo (if b then sc <| rxfifo ::= put ch |> <| tty ::= fun t => t <| mev_enabled := false |> |>
    else sc <| rxfifo ::= put ch |>) = put ch (rxfifo sc)) by (by intros []).
  fold (put ch). rewrite E. split; [by apply put_wf|]. split; [done|]. split; [done|]. by apply put_contents.
Qed.

Lemma getchar_queue sc : wf_fifo (rxfifo sc) ->
  let '(c, sc') := rxfifo_getchar sc in
  wf_fifo (rxfifo sc') /\ fsize (rxfifo sc') = fsize (rxfifo sc) /\
  match rx sc with [] => c = -1 /\ sc' = sc | x :: l => c = x /\ rx sc' = l end.
Proof.
  intros W. unfold rxfifo_getchar, rx. cbv zeta.
  destruct (Z.ltb_spec 0 (num (rxfifo sc))).
  - rewrite get_contents by done.
    assert (E : forall b : bool, rxfifo (if b then sc <| rxfifo ::= get |> <| tty ::= fun t => t <| mev_enabled := true |> |>
      else sc <| rxfifo ::= get |>) = get (rxfifo sc)) by (by intros []).
    fold get. rewrite E. split; [by apply get_wf|done].
  - rewrite contents_empty; [done|]. destruct W. lia.
Qed.

(** C36: the ring buffer is a bounded queue: [rxfifo_putchar] appends unless
    the FIFO is full and [rxfifo_getchar] removes the oldest character; each
    fails exactly on a full or empty queue, and then changes nothing. *)
Theorem rxfifo_refines_queue ch sc : wf_fifo (rxfifo sc) ->
  (let '(r, sc') := rxfifo_putchar ch sc in
   wf_fifo (rxfifo sc') /\
   if Z.of_nat (length (rx sc)) <? fsize (rxfifo sc) then r = 0 /\ rx sc' = rx sc ++ [ch]
   else r = -1 /\ sc' = sc) /\
  (let '(c, sc') := rxfifo_getchar sc in
   wf_fifo (rxfifo sc') /\
   match rx sc with [] => c = -1 /\ sc' = sc | x :: l => c = x /\ rx sc' = l end).
Proof.
  intros W. split.
  - pose proof (putchar_queue ch sc W) as H. destruct (rxfifo_putchar ch sc) as [r sc'].
    destruct H as (? & _ & H). split; [done|]. unfold rx at 1. rewrite length_contents, Z2Nat.id by apply W. exact H.
  - pose proof (getchar_queue sc W) as H. destruct (rxfifo_getchar sc) as [c sc'].
    destruct H as (? & _ & H). done.
Qed.

(** *** Invariant of the registers *)

Record uart_core sc : Prop := {
  u_fifo : wf_fifo (rxfifo sc);
  u_size : fsize (rxfifo sc) = if tst (fcr sc) FCR_ENABLE then FIFOSZ else 1;
  u_bytes : Forall (fun x => x in_u 8) (buf (rxfifo sc));
  u_mev : opened (tty sc) = true -> mev_enabled (tty sc) = rxfifo_available sc;
  u_ier : ier sc in_u 4;
  u_lcr : lcr sc in_u 8;
  u_mcr : mcr sc in_u 5;
  u_lsr : lsr sc in_u 8;
  u_msr : msr sc in_u 8;
  u_fcr : fcr sc in_u 8;
  u_scr : scr sc in_u 8;
  u_dll : dll sc in_u 8;
  u_dlh : dlh sc in_u 8;
}.

Lemma flush_all fuel input : (length input < fuel)%nat -> flush fuel input = [].
Proof.
  revert input. induction fuel as [|fuel IH]; intros input Hl; [lia|]. cbn [flush].
  rewrite length_take. destruct (Z.eqb_spec (Z.of_nat (32 `min` length input)) 32) as [E|E]; cbn [negb].
  - apply IH. rewrite length_drop. lia.
  - apply drop_ge. lia.
Qed.

Ltac core H := destruct H; constructor; cbn in *; try done; try range.

Lemma core_reset k sc : uart_core sc -> k = 1 \/ k = FIFOSZ ->
  forall c, c in_u 8 -> k = (if tst c FCR_ENABLE then FIFOSZ else 1) ->
  uart_core ((rxfifo_reset k sc) <| fcr := c |>).
Proof.
  intros H Hk c Hc Ek.
  assert (Hb : Forall (fun x => x in_u 8) (replicate 16 0)) by (repeat constructor; discriminate).
  pose proof (wf_reset k Hk) as Wk.
  assert ((0 <? k) = true) by (destruct Hk as [-> | ->]; reflexivity).
  unfold rxfifo_reset. cbn [opened tty upd]. destruct (opened (tty sc)) eqn:E; core H.
  congruence.
Qed.

(** Changing the FIFO and the terminal only. *)
Lemma core_fifo f t sc : uart_core sc -> wf_fifo f -> fsize f = fsize (rxfifo sc) ->
  Forall (fun x => x in_u 8) (buf f) ->
  (opened t = true -> mev_enabled t = (num f <? fsize f)) ->
  uart_core (sc <| rxfifo := f |> <| tty := t |>).
Proof. intros [] ? Hs ? ?. constructor; cbn; try done. congruence. Qed.

Lemma core_putchar ch sc : uart_core sc -> ch in_u 8 -> uart_core (rxfifo_putchar ch sc).2.
Proof.
  intros H Hch. unfold rxfifo_putchar.
  destruct (Z.ltb_spec (num (rxfifo sc)) (fsize (rxfifo sc))) as [Hlt|]; [|done]. cbv zeta. cbn [snd].
  fold (put ch). set (f := put ch (rxfifo sc)).
  assert (Wf : wf_fifo f) by (by apply put_wf; [apply H|]).
  assert (Ff : Forall (fun x => x in_u 8) (buf f)) by (apply Forall_insert; [apply H|done]).
  pose proof (u_mev _ H) as Hm. unfold rxfifo_available in *. cbn [rxfifo tty upd opened] in *. fold f.
  destruct (negb (num f <? fsize f) && opened (tty sc)) eqn:E.
  - apply andb_true_iff in E as [E _]. apply negb_true_iff in E.
    apply (core_fifo f ((tty sc) <| mev_enabled := false |>) sc H Wf eq_refl Ff). done.
  - apply (core_fifo f (tty sc) sc H Wf eq_refl Ff). intros Ho. rewrite Ho, andb_true_r in E.
    apply negb_false_iff in E. rewrite E, (Hm Ho). by apply Z.ltb_lt.
Qed.

Lemma core_getchar sc : uart_core sc -> uart_core (rxfifo_getchar sc).2.
Proof.
  intros H. unfold rxfifo_getchar. cbv zeta.
  destruct (Z.ltb_spec 0 (num (rxfifo sc))) as [Hlt|]; [|done]. cbn [snd].
  fold get. set (f := get (rxfifo sc)).
  assert (Wf : wf_fifo f) by (by apply get_wf; [apply H|]).
  assert (Ff : Forall (fun x => x in_u 8) (buf f)) by apply H.
  assert (Av : (num f <? fsize f) = true).
  { apply Z.ltb_lt. destruct (u_fifo _ H). cbn. lia. }
  pose proof (u_mev _ H) as Hm. unfold rxfifo_available in *. cbn [rxfifo tty upd opened] in *.
  destruct (_ && _) eqn:E.
  - by apply (core_fifo f ((tty sc) <| mev_enabled := true |>) sc H Wf eq_refl Ff).
  - apply (core_fifo f (tty sc) sc H Wf eq_refl Ff). intros Ho. rewrite Ho, andb_true_r in E.
    apply negb_false_iff in E. by rewrite Av, (Hm Ho).
Qed.

Lemma core_pop sc : uart_core sc -> uart_core (sc <| tty ::= fun t => (ttyread t).2 |>).
Proof.
  intros H. assert (E : forall t, opened (ttyread t).2 = opened t /\ mev_enabled (ttyread t).2 = mev_enabled t)
    by (intros t; unfold ttyread; by destruct (pending t)).
  destruct H; constructor; cbn; try done. by destruct (E (tty sc)) as [-> ->].
Qed.

Lemma core_drain_loop input sc : uart_core sc -> uart_core (drain_loop input sc).
Proof.
  revert sc. induction input as [|c l IH]; intros sc H; cbn [drain_loop]; split_if; try done.
  apply IH, core_putchar; [by apply core_pop|range].
Qed.

Lemma reset_fcr k a c sc :
  (rxfifo_reset k (sc <| fcr := a |>)) <| fcr := c |> = (rxfifo_reset k sc) <| fcr := c |>.
Proof. unfold rxfifo_reset. cbn [opened tty upd]. by destruct (opened (tty sc)). Qed.

Lemma core_write_fcr v sc : uart_core sc -> v in_u 8 -> uart_core (write_fcr v sc).
Proof.
  intros H Hv. unfold write_fcr. cbv zeta.
  assert (Ht : forall x, tst x FCR_ENABLE = negb (Z.land x FCR_ENABLE =? 0)) by done.
  assert (Hb : forall x, Z.land x FCR_ENABLE = if tst x FCR_ENABLE then FCR_ENABLE else 0).
  { intros x. change FCR_ENABLE with (bit 0). rewrite tst_bit, land_bit by lia. done. }
  assert (Hm : tst (Z.land v (Z.lor (Z.lor FCR_ENABLE FCR_DMA) FCR_RX_MASK)) FCR_ENABLE = tst v FCR_ENABLE).
  { change FCR_ENABLE with (bit 0) at 2 3. rewrite !tst_bit, Z.land_spec by lia. apply andb_true_r. }
  rewrite !Hb. destruct (tst v FCR_ENABLE) eqn:Ev, (tst (fcr sc) FCR_ENABLE) eqn:Ef;
    try change (Z.lxor FCR_ENABLE FCR_ENABLE) with 0; try change (Z.lxor 0 FCR_ENABLE) with 1;
    try change (Z.lxor FCR_ENABLE 0) with 1; try change (Z.lxor 0 0) with 0; change (FCR_ENABLE =? 0) with false; cbn [Z.eqb negb].
  - destruct (tst v FCR_RCV_RST).
    + apply core_reset; auto; [range|by rewrite Hm].
    + destruct H; constructor; cbn; try done; [|range].
      rewrite u_size0, Ef, Hm. done.
  - destruct (tst v FCR_RCV_RST).
    + rewrite <- (reset_fcr FIFOSZ 1).
      apply (core_reset FIFOSZ ((rxfifo_reset FIFOSZ sc) <| fcr := 1 |>)); auto; [|range|by rewrite Hm].
      apply core_reset; auto. range.
    + apply core_reset; auto; [range|by rewrite Hm].
  - by apply core_reset; auto; range.
  - destruct H; constructor; cbn; try done. by rewrite u_size0, Ef.
Qed.

Lemma loopback_msr_range m : loopback_msr m in_u 8.
Proof. unfold loopback_msr. cbv zeta. repeat split_if; range. Qed.

Lemma update_msr_range new old : new in_u 8 -> update_msr new old in_u 8.
Proof.
  intros Hn. unfold update_msr. cbv zeta. apply lor_in_u; [lia| |done].
  apply land_in_u_r; [lia|]. range.
Qed.

Lemma core_write_reg off v sc : uart_core sc -> v in_u 8 -> uart_core (write_reg off v sc).
Proof.
  intros H Hv. unfold write_reg.
  repeat match goal with |- uart_core (if ?b then _ else _) => destruct b end; try done.
  - core H.
  - core H.
  - unfold write_data. cbv zeta.
    enough (H' : forall s', uart_core s' -> uart_core (s' <| thre_int_pending := true |>)).
    { apply H'. split_if; [|split_if; [core H|done]].
      pose proof (core_putchar v sc H Hv) as Hp. destruct (rxfifo_putchar v sc) as [r s']. cbn [snd] in Hp.
      split_if; [core Hp|done]. }
    intros s' H'. core H'.
  - core H.
  - by apply core_write_fcr.
  - core H.
  - unfold write_mcr. cbv zeta. cbn [mcr upd].
    assert (Hm : Z.land v 0x1F in_u 5) by (apply (land_in_u_r 5); [lia|range]).
    pose proof (fun x => update_msr_range _ x (loopback_msr_range (Z.land v 0x1F))) as Hu.
    generalize dependent (update_msr (loopback_msr (Z.land v 0x1F))). generalize dependent (Z.land v 0x1F).
    intros x Hx g Hg. destruct H; constructor; cbn; done.
  - core H.
Qed.

Lemma core_read_reg off sc : uart_core sc -> uart_core (read_reg off sc).2.
Proof.
  intros H. unfold read_reg.
  repeat match goal with |- uart_core (snd (if ?b then _ else _)) => destruct b end; try done.
  - pose proof (core_getchar sc H) as Hg. by destruct (rxfifo_getchar sc).
  - unfold read_iir. cbn [snd]. split_if; [core H|done].
  - unfold read_lsr. cbv zeta. cbn [snd]. split_if; core H.
  - cbn [snd]. core H.
Qed.

Lemma core_pin f sc : uart_core sc -> uart_core (sc <| pin ::= f |>).
Proof. intros H. core H. Qed.

Lemma core_toggle sc : uart_core sc -> uart_core (uart_toggle_intr sc).
Proof. intros H. unfold uart_toggle_intr. split_if; by apply core_pin. Qed.

Lemma core_init p : uart_core (uart_init p).
Proof.
  apply (core_reset 1 (mk_uart 0 0 0 0 0 0 0 12 0 (mk_fifo (replicate 16 0) 0 0 0 1)
    (mk_ttyfd false 0 [] [] false) false p)) with (c := 0); auto; [|range].
  constructor; cbn; try done; try range; [apply wf_reset; auto|repeat constructor; discriminate].
Qed.

(** *** Data through the FIFO *)

(** What [rxfifo_putchar] and [rxfifo_getchar] leave alone. *)
Definition same_regs sc sc' : Prop :=
  lcr sc' = lcr sc /\ mcr sc' = mcr sc /\ fsize (rxfifo sc') = fsize (rxfifo sc).

Lemma putchar_regs ch sc : same_regs sc (rxfifo_putchar ch sc).2.
Proof. unfold rxfifo_putchar. split_if; [cbv zeta; cbn [snd]; split_if|]; done. Qed.

Lemma getchar_regs sc : same_regs sc (rxfifo_getchar sc).2.
Proof. unfold rxfifo_getchar. cbv zeta. split_if; [cbn [snd]; split_if|]; done. Qed.

Lemma toggle_regs sc : same_regs sc (uart_toggle_intr sc) /\ rxfifo (uart_toggle_intr sc) = rxfifo sc /\
  tty (uart_toggle_intr sc) = tty sc.
Proof. unfold uart_toggle_intr. split_if; done. Qed.

Lemma loopback_write v sc : tst (lcr sc) LCR_DLAB = false -> tst (mcr sc) MCR_LOOPBACK = true ->
  wf_fifo (rxfifo sc) -> Z.of_nat (length (rx sc)) < fsize (rxfifo sc) ->
  let sc' := uart_write REG_DATA v sc in
  same_regs sc sc' /\ wf_fifo (rxfifo sc') /\ rx sc' = rx sc ++ [v].
Proof.
  intros Hd Hl W Hn. unfold uart_write, write_reg. rewrite Hd. cbn [andb].
  change (REG_DATA =? REG_DATA) with true. cbv iota. unfold write_data. rewrite Hl. cbv zeta.
  pose proof (putchar_queue v sc W) as HP. pose proof (putchar_regs v sc) as HR.
  destruct (rxfifo_putchar v sc) as [r s1]. cbn [snd] in HR. destruct HP as (W1 & _ & HP).
  unfold rxfifo_available in HP. unfold rx in Hn. rewrite length_contents, Z2Nat.id in Hn by apply W.
  apply Z.ltb_lt in Hn. rewrite Hn in HP. destruct HP as [-> Hx]. cbn [negb Z.eqb].
  destruct (toggle_regs (s1 <| thre_int_pending := true |>)) as ((T1 & T2 & T3) & Tf & _).
  unfold same_regs, rx in *. rewrite T1, T2, T3, Tf. done.
Qed.

Lemma data_read sc c l : tst (lcr sc) LCR_DLAB = false -> wf_fifo (rxfifo sc) -> rx sc = c :: l ->
  let '(x, sc') := uart_read REG_DATA sc in
  x = u8 c /\ same_regs sc sc' /\ wf_fifo (rxfifo sc') /\ rx sc' = l.
Proof.
  intros Hd W Hx. unfold uart_read, read_reg. rewrite Hd. cbn [andb].
  change (REG_DATA =? REG_DATA) with true. cbv iota.
  pose proof (getchar_queue sc W) as HG. pose proof (getchar_regs sc) as HR.
  destruct (rxfifo_getchar sc) as [c' s1]. cbn [snd] in HR. destruct HG as (W1 & _ & HG).
  rewrite Hx in HG. destruct HG as [-> Hl].
  destruct (toggle_regs s1) as ((T1 & T2 & T3) & Tf & _).
  unfold same_regs, rx in *. rewrite T1, T2, T3, Tf. done.
Qed.

Definition write_all (l : list Z) sc : uart_softc V := foldl (fun s v => uart_write REG_DATA v s) sc l.
Fixpoint read_n (n : nat) sc : list Z :=
  match n with O => [] | S n' => let '(c, sc') := uart_read REG_DATA sc in c :: read_n n' sc' end.

Lemma write_all_rx l sc : tst (lcr sc) LCR_DLAB = false -> tst (mcr sc) MCR_LOOPBACK = true ->
  wf_fifo (rxfifo sc) -> Z.of_nat (length (rx sc) + length l) <= fsize (rxfifo sc) ->
  let sc' := write_all l sc in
  same_regs sc sc' /\ wf_fifo (rxfifo sc') /\ rx sc' = rx sc ++ l.
Proof.
  revert sc. induction l as [|v l IH]; intros sc Hd Hl W Hn; cbn [write_all foldl length] in *.
  - by rewrite app_nil_r.
  - destruct (loopback_write v sc Hd Hl W ltac:(lia)) as ((R1 & R2 & R3) & W1 & Hx).
    destruct (IH (uart_write REG_DATA v sc)) as ((Q1 & Q2 & Q3) & W2 & Hx2);
      [by rewrite R1|by rewrite R2|done|rewrite Hx, R3, length_app; cbn; lia|].
    unfold write_all in *. split; [unfold same_regs; split; [congruence|split; congruence]|].
    split; [done|]. by rewrite Hx2, Hx, <- app_assoc.
Qed.

Lemma read_n_rx sc : tst (lcr sc) LCR_DLAB = false -> wf_fifo (rxfifo sc) ->
  read_n (length (rx sc)) sc = map u8 (rx sc).
Proof.
  remember (rx sc) as l eqn:E. revert sc E. induction l as [|c l IH]; intros sc E Hd W; cbn [length read_n map]; [done|].
  pose proof (data_read sc c l Hd W (eq_sym E)) as H. destruct (uart_read REG_DATA sc) as [x s'].
  destruct H as (-> & (R1 & _) & W' & Hl). f_equal. apply IH; [done|by rewrite R1|done].
Qed.

Lemma putchar_pending ch sc : pending (tty (rxfifo_putchar ch sc).2) = pending (tty sc).
Proof. unfold rxfifo_putchar. split_if; [cbv zeta; cbn [snd]; split_if|]; done. Qed.

Lemma drain_loop_moves input sc : wf_fifo (rxfifo sc) -> pending (tty sc) = input ->
  let n := (Z.to_nat (fsize (rxfifo sc)) - length (rx sc))%nat in
  rx (drain_loop input sc) = rx sc ++ map u8 (take n input) /\
  pending (tty (drain_loop input sc)) = drop n input.
Proof.
  revert sc. induction input as [|c l IH]; intros sc W Hp n; cbn [drain_loop].
  { destruct (rxfifo_available sc); by rewrite take_nil, drop_nil, app_nil_r. }
  assert (Ha : rxfifo_available sc = (length (rx sc) <? Z.to_nat (fsize (rxfifo sc)))%nat).
  { unfold rxfifo_available, rx. rewrite length_contents. destruct W.
    destruct (Z.ltb_spec (num (rxfifo sc)) (fsize (rxfifo sc))); symmetry; [apply Nat.ltb_lt|apply Nat.ltb_ge]; lia. }
  rewrite Ha. destruct (Nat.ltb_spec (length (rx sc)) (Z.to_nat (fsize (rxfifo sc)))) as [Hlt|Hge].
  - set (s1 := sc <| tty ::= _ |>).
    assert (E1 : rxfifo s1 = rxfifo sc /\ pending (tty s1) = l).
    { split; [done|]. cbn. unfold ttyread. by rewrite Hp. }
    destruct E1 as [Ef Ep]. pose proof (putchar_queue (u8 c) s1 ltac:(by rewrite Ef)) as HP.
    pose proof (putchar_pending (u8 c) s1) as Hpp.
    destruct (rxfifo_putchar (u8 c) s1) as [r s2]. cbn [snd] in *. destruct HP as (W2 & Es & HP).
    assert (Ha1 : rxfifo_available s1 = true).
    { unfold rxfifo_available in *. by rewrite Ef, Ha. }
    rewrite Ha1 in HP. destruct HP as [_ Hx]. unfold rx in Hx at 2. rewrite Ef in Hx. fold (rx sc) in Hx.
    destruct (IH s2 W2 ltac:(by rewrite Hpp)) as [I1 I2]. rewrite Es, Ef, Hx, length_app in I1, I2. cbn [length] in I1, I2.
    replace n with (S (Z.to_nat (fsize (rxfifo sc)) - (length (rx sc) + 1))) by lia.
    cbn [take drop map]. rewrite I1, I2, <- app_assoc. done.
  - replace n with O by lia. cbn [take drop map]. by rewrite app_nil_r.
Qed.

(** in loopback mode the characters written to the data register are read
    back in order, after the ones already waiting, as many as the FIFO
    holds. *)
Theorem loopback_roundtrip l sc : uart_core sc ->
  tst (lcr sc) LCR_DLAB = false -> tst (mcr sc) MCR_LOOPBACK = true ->
  Forall (fun x => x in_u 8) l -> Z.of_nat (length (rx sc) + length l) <= fsize (rxfifo sc) ->
  read_n (length (rx sc) + length l) (write_all l sc) = map u8 (rx sc) ++ l.
Proof.
  intros H Hd Hl Hb Hn. destruct (write_all_rx l sc Hd Hl (u_fifo _ H) Hn) as ((R1 & _) & W & Hx).
  rewrite <- length_app, <- Hx, read_n_rx by (by rewrite ?R1). rewrite Hx, map_app. f_equal.
  rewrite <- (map_id l) at 2. apply map_ext_in. intros x Hin. apply u8_id.
  rewrite Forall_forall in Hb. apply Hb. by apply list_elem_of_In.
Qed.

(** draining the terminal moves as many waiting bytes as fit to the end of
    the receive queue, in order, and leaves the rest in the terminal. *)
Theorem drain_moves sc : uart_core sc -> tst (mcr sc) MCR_LOOPBACK = false ->
  let n := (Z.to_nat (fsize (rxfifo sc)) - length (rx sc))%nat in
  rx (uart_drain sc) = rx sc ++ map u8 (take n (pending (tty sc))) /\
  pending (tty (uart_drain sc)) = drop n (pending (tty sc)).
Proof.
  intros H Hl n. unfold uart_drain. rewrite Hl.
  destruct (toggle_regs (drain_loop (pending (tty sc)) sc)) as (_ & Tf & Tt). unfold rx at 1. rewrite Tf, Tt.
  fold (rx (drain_loop (pending (tty sc)) sc)). apply drain_loop_moves; [by apply H|done].
Qed.
End Proofs.

(** ** The interrupt pin *)

Section Wire.
Implicit Types sc : uart_softc bool.

(** Accesses of the guest, the event loop, and bytes arriving at the
    terminal. *)
Inductive uart_step : uart_softc bool -> uart_softc bool -> Prop :=
| us_write off v sc : v in_u 8 -> uart_step sc (uart_write off v sc)
| us_read off sc : uart_step sc (uart_read off sc).2
| us_drain sc : uart_step sc (uart_drain sc)
| us_input l sc : uart_step sc (sc <| tty ::= fun t => t <| pending ::= fun p => p ++ l |> |>).

(** A port after start-up, and what it becomes. *)
Definition uart_reachable sc : Prop :=
  exists h backend stdio stdio' sc0,
    uart_set_backend h backend stdio (uart_init false) = (0, stdio', sc0) /\ rtc uart_step sc0 sc.

Definition pin_ok sc : Prop := pin sc = negb (uart_intr_reason sc =? IIR_NOPEND).

Lemma reason_u8 sc : u8 (uart_intr_reason sc) = uart_intr_reason sc.
Proof. unfold uart_intr_reason. repeat split_if; reflexivity. Qed.

Lemma pin_toggle sc : pin_ok (uart_toggle_intr sc).
Proof.
  unfold pin_ok, uart_toggle_intr. rewrite reason_u8.
  destruct (uart_intr_reason sc =? IIR_NOPEND) eqn:E;
    change (uart_intr_reason (sc <| pin ::= _ |>)) with (uart_intr_reason sc); by rewrite E.
Qed.

Lemma step_ok sc sc' : uart_step sc sc' -> uart_core sc /\ pin_ok sc -> uart_core sc' /\ pin_ok sc'.
Proof.
  intros [off v s Hv|off s|s|l s] [C P].
  - split; [by apply core_toggle, core_write_reg|apply pin_toggle].
  - unfold uart_read. pose proof (core_read_reg off s C) as Hc. destruct (read_reg off s) as [x s'].
    split; [by apply core_toggle|apply pin_toggle].
  - unfold uart_drain. split_if.
    + split; [by apply core_pop|exact P].
    + split; [by apply core_toggle, core_drain_loop|apply pin_toggle].
  - split; [|exact P]. destruct C; by constructor.
Qed.

Lemma core_attach f sc : uart_core sc -> rxfifo_available sc = true ->
  uart_core (uart_opentty (attach f sc)).
Proof. intros [] Ha. by constructor. Qed.

Lemma backend_ok h backend stdio stdio' sc :
  uart_set_backend h backend stdio (uart_init false) = (0, stdio', sc) -> uart_core sc /\ pin_ok sc.
Proof.
  intros E. pose proof (core_init false) as C.
  assert (A : forall f, uart_core (uart_opentty (attach f (uart_init false))) /\
                        pin_ok (uart_opentty (attach f (uart_init false))))
    by (intros f; split; [by apply core_attach|reflexivity]).
  unfold uart_set_backend, uart_tty_backend in E. destruct backend as [name|]; [|by injection E as <- <-].
  destruct (_ && negb stdio); [destruct (Z.eqb_spec (h_fcntl h) 0); by simplify_eq|].
  destruct (bool_decide _); [repeat split_if_in E; simplify_eq/=; auto; lia|].
  destruct (_ && _) in E; by simplify_eq/=.
Qed.

Lemma uart_reachable_ok sc : uart_reachable sc -> uart_core sc /\ pin_ok sc.
Proof.
  intros (h & b & s & s' & sc0 & E & R). apply backend_ok in E. induction R; eauto using step_ok.
Qed.

(** C38: at every reachable state the interrupt pin is asserted exactly when
    the port has an interrupt to report, the FIFO has the size its control
    register selects, and an attached terminal is watched exactly while the
    FIFO has room. *)
Theorem uart_reachable_pin sc : uart_reachable sc ->
  pin sc = negb (uart_intr_reason sc =? IIR_NOPEND) /\
  wf_fifo (rxfifo sc) /\ fsize (rxfifo sc) = (if tst (fcr sc) FCR_ENABLE then FIFOSZ else 1) /\
  (opened (tty sc) = true -> mev_enabled (tty sc) = rxfifo_available sc).
Proof. intros R. by destruct (uart_reachable_ok sc R) as [[] P]. Qed.
End Wire.

(** ** Examples *)

Definition stdio_host : host_tty := mk_host_tty 0 (-1) false 0 0 (-1) false.
Definition com1 : uart_softc bool := (uart_set_backend stdio_host (Some "stdio"%string) false (uart_init false)).2.
(** FIFO and loopback on, receive interrupts enabled. *)
Definition com1_loop : uart_softc bool :=
  uart_write REG_MCR 0x10 (uart_write REG_IER 1 (uart_write REG_FCR 1 com1)).

Lemma com1_loop_reachable : uart_reachable com1_loop.
Proof.
  exists stdio_host, (Some "stdio"%string), false, true, com1. split; [reflexivity|].
  repeat (eapply rtc_r; [|apply us_write; split; [discriminate|reflexivity]]). apply rtc_refl.
Qed.

Lemma uart_reachable_pin_witness :
  pin com1_loop = negb (uart_intr_reason com1_loop =? IIR_NOPEND) /\
  wf_fifo (rxfifo com1_loop) /\
  fsize (rxfifo com1_loop) = (if tst (fcr com1_loop) FCR_ENABLE then FIFOSZ else 1) /\
  (opened (tty com1_loop) = true -> mev_enabled (tty com1_loop) = rxfifo_available com1_loop).
Proof. exact (uart_reachable_pin com1_loop com1_loop_reachable). Defined.

Lemma rxfifo_refines_queue_witness :
  (let '(r, sc') := rxfifo_putchar 65 com1_loop in
   wf_fifo (rxfifo sc') /\
   if Z.of_nat (length (rx com1_loop)) <? fsize (rxfifo com1_loop)
   then r = 0 /\ rx sc' = rx com1_loop ++ [65] else r = -1 /\ sc' = com1_loop) /\
  (let '(c, sc') := rxfifo_getchar com1_loop in
   wf_fifo (rxfifo sc') /\
   match rx com1_loop with [] => c = -1 /\ sc' = com1_loop | x :: l => c = x /\ rx sc' = l end).
Proof. apply rxfifo_refines_queue, uart_reachable_ok, com1_loop_reachable. Defined.

Lemma loopback_roundtrip_witness :
  read_n (length (rx com1_loop) + 3) (write_all [72; 105; 33] com1_loop) = map u8 (rx com1_loop) ++ [72; 105; 33].
Proof.
  apply (loopback_roundtrip [72; 105; 33] com1_loop); [apply uart_reachable_ok, com1_loop_reachable|reflexivity..| |].
  - repeat constructor; discriminate.
  - vm_compute. discriminate.
Defined.

Lemma drain_moves_witness :
  let sc := com1 <| tty ::= fun t => t <| pending := [65; 66] |> |> in
  let n := (Z.to_nat (fsize (rxfifo sc)) - length (rx sc))%nat in
  rx (uart_drain sc) = rx sc ++ map u8 (take n (pending (tty sc))) /\
  pending (tty (uart_drain sc)) = drop n (pending (tty sc)).
Proof.
  intros sc. apply (drain_moves sc); [|reflexivity].
  apply (step_ok com1 sc); [exact (us_input [65; 66] com1)|].
  by apply (backend_ok stdio_host (Some "stdio"%string) false true).
Defined.
