(* ===== verification/Vhpet.v ===== *)
(** * The HPET (src/src/vmm/io/vhpet.c)

    A 32-bit main counter that runs at 10 MHz while enabled and eight timers
    that compare with it, each with a callout of its own.  The state is
    [struct vhpet]; a machine adds the timers' callouts, the interrupt
    controllers and the number of readings of the uptime clock taken so far.
    Every entry point holds the device's lock, so each is one command; the
    callout thread runs [vhpet_handler] between them. *)

From S2P Require Import Prelude Effects Interface Bintime.
Local Open Scope cmd_scope.

Definition HPET_FREQ : Z := 10000000.
Definition FS_PER_S : Z := 1000000000000000.
Definition VHPET_NUM_TIMERS : Z := 8.
Definition VHPET_BASE : Z := 0xfed00000.

Definition HPET_CAPABILITIES : Z := 0x0.
Definition HPET_CAP_COUNT_SIZE : Z := 0x2000.
Definition HPET_CONFIG : Z := 0x10.
Definition HPET_CNF_LEG_RT : Z := 0x2.
Definition HPET_CNF_ENABLE : Z := 0x1.
Definition HPET_ISR : Z := 0x20.
Definition HPET_MAIN_COUNTER : Z := 0xf0.
Definition HPET_TIMER_CAP_CNF (x : Z) : Z := x * 0x20 + 0x100.
Definition HPET_TIMER_COMPARATOR (x : Z) : Z := x * 0x20 + 0x108.
Definition HPET_TIMER_FSB_VAL (x : Z) : Z := x * 0x20 + 0x110.
Definition HPET_TIMER_FSB_ADDR (x : Z) : Z := x * 0x20 + 0x114.
Definition HPET_TCAP_INT_ROUTE : Z := 0xffffffff00000000.
Definition HPET_TCAP_FSB_INT_DEL : Z := 0x8000.
Definition HPET_TCNF_FSB_EN : Z := 0x4000.
Definition HPET_TCNF_INT_ROUTE : Z := 0x3e00.
Definition HPET_TCNF_32MODE : Z := 0x100.
Definition HPET_TCNF_VAL_SET : Z := 0x40.
Definition HPET_TCAP_SIZE : Z := 0x20.
Definition HPET_TCAP_PER_INT : Z := 0x10.
Definition HPET_TCNF_TYPE : Z := 0x8.
Definition HPET_TCNF_INT_ENB : Z := 0x4.
Definition HPET_TCNF_INT_TYPE : Z := 0x2.
Definition HPET_TCAP_RO_MASK : Z :=
  Z.lor (Z.lor (Z.lor HPET_TCAP_INT_ROUTE HPET_TCAP_FSB_INT_DEL) HPET_TCAP_SIZE) HPET_TCAP_PER_INT.

Record htimer : Type := mk_htimer {
  cap_config : Z;
  msireg : Z;
  compval : Z;
  comprate : Z;
  hcallout_sbt : Z;
}.
#[export] Instance eta_htimer : Eta htimer := fun t =>
  mk_htimer (cap_config t) (msireg t) (compval t) (comprate t) (hcallout_sbt t).

Record vhpet : Type := mk_vhpet {
  hfreq_sbt : Z;
  config : Z;
  hisr : Z;
  countbase : Z;
  countbase_sbt : Z;
  htimers : list htimer;
}.
#[export] Instance eta_vhpet : Eta vhpet := fun v =>
  mk_vhpet (hfreq_sbt v) (config v) (hisr v) (countbase v) (countbase_sbt v) (htimers v).

(** What the HPET asks of the interrupt controllers: [lapic_intr_msi],
    [vioapic_pulse_irq], [vioapic_assert_irq] and [vioapic_deassert_irq].
    [hp_level pin] observes how often a line is asserted. *)
Class HpetOut (V : Type) := {
  hp_msi : Z -> Z -> V -> V;
  hp_pulse : Z -> V -> V;
  hp_assert : Z -> V -> V;
  hp_deassert : Z -> V -> V;
  hp_level : Z -> V -> Z;
}.

(** The lines the HPET can drive are 20 to 23. *)
Definition hpet_line (pin : Z) : Prop := 20 <= pin <= 23.

Class HpetOutLaws (V : Type) `{!HpetOut V} := {
  level_msi addr msg p w : hp_level p (hp_msi addr msg w) = hp_level p w;
  level_pulse q p w : hpet_line q -> hp_level p (hp_pulse q w) = hp_level p w;
  level_assert q p w : hpet_line q -> hp_level p (hp_assert q w) = hp_level p w + b2z (q =? p);
  level_deassert q p w : hpet_line q -> hp_level p (hp_deassert q w) = hp_level p w - b2z (q =? p);
}.

Inductive hpet_call : Type :=
| HpMsi (addr msg : Z) | HpPulse (pin : Z) | HpAssert (pin : Z) | HpDeassert (pin : Z).
#[export] Instance hpet_call_eq_dec : EqDecision hpet_call.
Proof. solve_decision. Defined.

Definition call_level (p : Z) (c : hpet_call) : Z :=
  match c with HpAssert q => b2z (q =? p) | HpDeassert q => - b2z (q =? p) | _ => 0 end.

#[export] Instance log_hpet : HpetOut (list hpet_call) := {
  hp_msi addr msg l := HpMsi addr msg :: l;
  hp_pulse pin l := HpPulse pin :: l;
  hp_assert pin l := HpAssert pin :: l;
  hp_deassert pin l := HpDeassert pin :: l;
  hp_level p l := foldr Z.add 0 (call_level p <$> l);
}.

#[export] Instance log_hpet_laws : HpetOutLaws (list hpet_call).
Proof. split; intros; cbn; lia. Qed.

(** ** The registers *)

Definition vhpet_capabilities : Z :=
  let cap := Z.lor (Z.lor (Z.shiftl 0x8086 16) (Z.shiftl (VHPET_NUM_TIMERS - 1) 8)) 1 in
  let cap := Z.land (clr cap HPET_CAP_COUNT_SIZE) 0xffffffff in
  Z.lor cap (u64 (Z.shiftl (FS_PER_S / HPET_FREQ) 32)).

Definition vhpet_counter_enabled (v : vhpet) : bool := tst (config v) HPET_CNF_ENABLE.

Definition htimer_none : htimer := mk_htimer 0 0 0 0 0.
Definition get_timer (n : Z) (v : vhpet) : htimer := default htimer_none (htimers v !! Z.to_nat n).
Definition set_timer (n : Z) (f : htimer -> htimer) (v : vhpet) : vhpet :=
  v <| htimers ::= alter f (Z.to_nat n) |>.

Definition vhpet_timer_msi_enabled (t : htimer) : bool :=
  let msi_enable := Z.lor HPET_TCAP_FSB_INT_DEL HPET_TCNF_FSB_EN in
  Z.land (cap_config t) msi_enable =? msi_enable.

Definition vhpet_timer_ioapic_pin (t : htimer) : Z :=
  if vhpet_timer_msi_enabled t then 0 else Z.shiftr (Z.land (cap_config t) HPET_TCNF_INT_ROUTE) 9.

Definition vhpet_periodic_timer (t : htimer) : bool := tst (cap_config t) HPET_TCNF_TYPE.
Definition vhpet_timer_interrupt_enabled (t : htimer) : bool := tst (cap_config t) HPET_TCNF_INT_ENB.

Definition update_register (reg data mask : Z) : Z := Z.lor (clr reg mask) (Z.land data mask).

Record hmachine (T V : Type) : Type := mk_hmachine {
  hpet : vhpet;
  hcallouts : T;
  hout : V;
  hreadings : nat;
}.
Arguments mk_hmachine {T V}.
Arguments hpet {T V}.
Arguments hcallouts {T V}.
Arguments hout {T V}.
Arguments hreadings {T V}.
#[export] Instance eta_hmachine T V : Eta (hmachine T V) := fun s =>
  mk_hmachine (hpet s) (hcallouts s) (hout s) (hreadings s).

(** ** Operations *)
Section Hpet.
Context {T V : Type} `{!CalloutOps T, !HpetOut V}.
(** The [n]-th reading of [sbinuptime()]; the callout of a timer. *)
Variables (uptime : nat -> Z) (callout_of : Z -> Z).
Local Abbreviation S := (hmachine T V).
Local Abbreviation M := (cmd S).

Definition on_hpet (f : vhpet -> vhpet) : M unit := update (fun s => s <| hpet ::= f |>).
Definition on_timer (n : Z) (f : htimer -> htimer) : M unit := on_hpet (set_timer n f).
Definition on_hcallouts (f : T -> T) : M unit := update (fun s => s <| hcallouts ::= f |>).
Definition emit (f : V -> V) : M unit := update (fun s => s <| hout ::= f |>).
Definition timer_of (n : Z) : M htimer := gets (fun s => get_timer n (hpet s)).
Definition read_uptime : M Z := fun s => Return (uptime (hreadings s), s <| hreadings ::= Datatypes.S |>).

(** The counter, and [*nowptr]; [want] says that [nowptr] is not null. *)
Definition vhpet_counter (want : bool) : M (Z * Z) :=
  v <- gets hpet ;;
  if vhpet_counter_enabled v then
    now <- read_uptime ;;
    let delta := now - countbase_sbt v in
    KASSERT (0 <=? delta) ;;;
    ret (u32 (countbase v + Z.quot delta (hfreq_sbt v)), now)
  else
    KASSERT (negb want) ;;; ret (countbase v, 0).

Definition isr_set (n : Z) : M bool := gets (fun s => tst (hisr (hpet s)) (bit n)).

Definition vhpet_timer_clear_isr (n : Z) : M unit :=
  set <- isr_set n ;;
  when set (
    t <- timer_of n ;;
    let pin := vhpet_timer_ioapic_pin t in
    KASSERT (negb (pin =? 0)) ;;;
    emit (hp_deassert pin) ;;;
    on_hpet (fun v => v <| hisr ::= fun i => clr i (bit n) |>)).

Definition vhpet_timer_edge_trig (n : Z) : M bool :=
  t <- timer_of n ;;
  KASSERT (negb (vhpet_timer_msi_enabled t)) ;;;
  ret (Z.land (cap_config t) HPET_TCNF_INT_TYPE =? 0).

Definition vhpet_timer_interrupt (n : Z) : M unit :=
  t <- timer_of n ;;
  if negb (vhpet_timer_interrupt_enabled t) then skip else
  set <- isr_set n ;;
  if set then skip
  else if vhpet_timer_msi_enabled t then
    emit (hp_msi (Z.shiftr (msireg t) 32) (Z.land (msireg t) 0xffffffff))
  else
    let pin := vhpet_timer_ioapic_pin t in
    if pin =? 0 then skip
    else
      edge <- vhpet_timer_edge_trig n ;;
      if edge then emit (hp_pulse pin)
      else on_hpet (fun v => v <| hisr ::= fun i => Z.lor i (bit n) |>) ;;; emit (hp_assert pin).

(** The next value of the comparator of a periodic timer. *)
Definition next_compval (compval comprate counter : Z) : Z :=
  u32 (compval + u32 ((u32 (counter - compval) / comprate + 1) * comprate)).

Definition vhpet_adjust_compval (n counter : Z) : M unit :=
  t <- timer_of n ;;
  KASSERT (negb (comprate t =? 0)) ;;;
  on_timer n (fun t => t <| compval := next_compval (compval t) (comprate t) counter |>).

Definition vhpet_start_timer (n counter now : Z) : M unit :=
  t <- timer_of n ;;
  when (negb (comprate t =? 0)) (vhpet_adjust_compval n counter) ;;;
  t <- timer_of n ;;
  f <- gets (fun s => hfreq_sbt (hpet s)) ;;
  let delta := u32 (compval t - counter) * f in
  on_timer n (fun t => t <| hcallout_sbt := now + delta |>) ;;;
  on_hcallouts (co_reset (callout_of n) (now + delta)).

Definition vhpet_handler (n : Z) : M unit :=
  pending <- gets (fun s => co_pending (callout_of n) (hcallouts s)) ;;
  if pending then skip else
  active <- gets (fun s => co_active (callout_of n) (hcallouts s)) ;;
  if negb active then skip else
  on_hcallouts (co_deactivate (callout_of n)) ;;;
  enabled <- gets (fun s => vhpet_counter_enabled (hpet s)) ;;
  KASSERT enabled ;;;
  c <- vhpet_counter true ;;
  vhpet_start_timer n c.1 c.2 ;;;
  vhpet_timer_interrupt n.

Definition vhpet_stop_timer (now n : Z) : M unit :=
  on_hcallouts (co_stop (callout_of n)) ;;;
  t <- timer_of n ;;
  when (hcallout_sbt t <? now) (vhpet_timer_interrupt n).

Fixpoint each_timer (f : Z -> M unit) (ns : list Z) : M unit :=
  match ns with [] => skip | n :: ns' => f n ;;; each_timer f ns' end.
Definition all_timers : list Z := seqZ 0 VHPET_NUM_TIMERS.

Definition vhpet_start_counting : M unit :=
  now <- read_uptime ;;
  on_hpet (fun v => v <| countbase_sbt := now |>) ;;;
  each_timer (fun i =>
    v <- gets hpet ;; vhpet_start_timer i (countbase v) (countbase_sbt v)) all_timers.

Definition vhpet_stop_counting (counter now : Z) : M unit :=
  on_hpet (fun v => v <| countbase := counter |>) ;;;
  each_timer (vhpet_stop_timer now) all_timers.

(** The new value of [cap_config], before the routing is validated. *)
Definition new_config (old data mask : Z) : Z :=
  Z.lor (clr (update_register old data mask) (Z.lor HPET_TCAP_RO_MASK HPET_TCNF_32MODE))
        (Z.land old HPET_TCAP_RO_MASK).

Definition bad_route (t : htimer) : bool :=
  let allowed_irqs := u32 (Z.shiftr (cap_config t) 32) in
  let new_pin := vhpet_timer_ioapic_pin t in
  negb (new_pin =? 0) && (Z.land allowed_irqs (bit new_pin) =? 0).

Definition vhpet_timer_update_config (n data mask : Z) : M unit :=
  t <- timer_of n ;;
  unrouted <- (if vhpet_timer_msi_enabled t then ret true else vhpet_timer_edge_trig n) ;;
  set <- isr_set n ;;
  when unrouted (KASSERT (negb set)) ;;;
  let old_pin := vhpet_timer_ioapic_pin t in
  let oldval := cap_config t in
  let newval := new_config oldval data mask in
  if newval =? oldval then skip else
  on_timer n (fun t => t <| cap_config := newval |>) ;;;
  t <- timer_of n ;;
  when (bad_route t) (on_timer n (fun t => t <| cap_config ::= fun c => clr c HPET_TCNF_INT_ROUTE |>)) ;;;
  t <- timer_of n ;;
  when (negb (vhpet_periodic_timer t)) (on_timer n (fun t => t <| comprate := 0 |>)) ;;;
  set <- isr_set n ;;
  when set (
    KASSERT (negb (old_pin =? 0)) ;;;
    clear_isr <-
      (if negb (vhpet_timer_interrupt_enabled t) then ret true
       else if vhpet_timer_msi_enabled t then ret true
       else edge <- vhpet_timer_edge_trig n ;;
            if edge then ret true else ret (negb (vhpet_timer_ioapic_pin t =? old_pin))) ;;
    when clear_isr (
      emit (hp_deassert old_pin) ;;;
      on_hpet (fun v => v <| hisr ::= fun i => clr i (bit n) |>))).

(** The comparator registers after a write, [HPET_TCNF_VAL_SET] included. *)
Definition write_comparator (n data mask : Z) : M unit :=
  t <- timer_of n ;;
  (if vhpet_periodic_timer t then
     let val64 := update_register (comprate t) data mask in
     on_timer n (fun t => t <| comprate := u32 val64 |>) ;;;
     when (tst (cap_config t) HPET_TCNF_VAL_SET) (on_timer n (fun t => t <| compval := u32 val64 |>))
   else
     KASSERT (comprate t =? 0) ;;;
     on_timer n (fun t => t <| compval := u32 (update_register (compval t) data mask) |>)) ;;;
  on_timer n (fun t => t <| cap_config ::= fun c => clr c HPET_TCNF_VAL_SET |>) ;;;
  t' <- timer_of n ;;
  enabled <- gets (fun s => vhpet_counter_enabled (hpet s)) ;;
  when ((negb (compval t' =? compval t) || negb (comprate t' =? comprate t)) && enabled) (
    c <- vhpet_counter true ;; vhpet_start_timer n c.1 c.2).

(** The registers of timer [i]; the loop stops at the first that matches. *)
Fixpoint write_timers (offset data mask : Z) (ns : list Z) : M unit :=
  match ns with
  | [] => skip
  | i :: ns' =>
      if (offset =? HPET_TIMER_CAP_CNF i) || (offset =? HPET_TIMER_CAP_CNF i + 4)
      then vhpet_timer_update_config i data mask
      else if (offset =? HPET_TIMER_COMPARATOR i) || (offset =? HPET_TIMER_COMPARATOR i + 4)
      then write_comparator i data mask
      else if (offset =? HPET_TIMER_FSB_VAL i) || (offset =? HPET_TIMER_FSB_ADDR i)
      then on_timer i (fun t => t <| msireg ::= fun r => update_register r data mask |>)
      else write_timers offset data mask ns'
  end.

(** The data and the mask of an access of 4 or 8 bytes. *)
Definition access_mask (offset val size : Z) : option (Z * Z) :=
  if size =? 8 then Some (val, 0xffffffffffffffff)
  else if size =? 4 then
    Some (if negb (Z.land offset 4 =? 0) then (u64 (Z.shiftl val 32), u64 (Z.shiftl 0xffffffff 32))
          else (val, 0xffffffff))
  else None.

Definition write_config (data mask : Z) : M unit :=
  enabled <- gets (fun s => vhpet_counter_enabled (hpet s)) ;;
  c <- vhpet_counter enabled ;;
  oldval <- gets (fun s => config (hpet s)) ;;
  on_hpet (fun v => v <| config ::= fun r => clr (update_register r data mask) HPET_CNF_LEG_RT |>) ;;;
  v <- gets hpet ;;
  when (tst (Z.lxor oldval (config v)) HPET_CNF_ENABLE)
    (if vhpet_counter_enabled v then vhpet_start_counting else vhpet_stop_counting c.1 c.2).

Definition write_main_counter (data mask : Z) : M unit :=
  c <- vhpet_counter false ;;
  on_hpet (fun v => v <| countbase := u32 (update_register c.1 data mask) |>) ;;;
  enabled <- gets (fun s => vhpet_counter_enabled (hpet s)) ;;
  when enabled vhpet_start_counting.

Definition write_isr (data : Z) : M unit :=
  isr_clear_mask <- gets (fun s => u32 (Z.land (hisr (hpet s)) data)) ;;
  each_timer (fun i => when (tst isr_clear_mask (bit i)) (vhpet_timer_clear_isr i)) all_timers.

Definition hpet_offset (gpa : Z) : Z := i32 (u64 (gpa - VHPET_BASE)).

Definition vhpet_mmio_write (gpa val size : Z) : M Z :=
  let offset := hpet_offset gpa in
  match access_mask offset val size with
  | None => ret 0
  | Some (data, mask) =>
      if negb (Z.land offset (size - 1) =? 0) then ret 0
      else
        (if (offset =? HPET_CONFIG) || (offset =? HPET_CONFIG + 4) then write_config data mask
         else if (offset =? HPET_ISR) || (offset =? HPET_ISR + 4) then write_isr data
         else if (offset =? HPET_MAIN_COUNTER) || (offset =? HPET_MAIN_COUNTER + 4)
         then write_main_counter data mask
         else write_timers offset data mask all_timers) ;;;
        ret 0
  end.

Fixpoint read_timers (offset : Z) (ns : list Z) (v : vhpet) : Z :=
  match ns with
  | [] => 0
  | i :: ns' =>
      if (offset =? HPET_TIMER_CAP_CNF i) || (offset =? HPET_TIMER_CAP_CNF i + 4)
      then cap_config (get_timer i v)
      else if (offset =? HPET_TIMER_COMPARATOR i) || (offset =? HPET_TIMER_COMPARATOR i + 4)
      then compval (get_timer i v)
      else if (offset =? HPET_TIMER_FSB_VAL i) || (offset =? HPET_TIMER_FSB_ADDR i)
      then msireg (get_timer i v)
      else read_timers offset ns' v
  end.

(** [*rval]; the result is always 0. *)
Definition vhpet_mmio_read (gpa size : Z) : M Z :=
  let offset := hpet_offset gpa in
  data <-
    (if negb (size =? 4) && negb (size =? 8) then ret 0
     else if negb (Z.land offset (size - 1) =? 0) then ret 0
     else if (offset =? HPET_CAPABILITIES) || (offset =? HPET_CAPABILITIES + 4) then ret vhpet_capabilities
     else if (offset =? HPET_CONFIG) || (offset =? HPET_CONFIG + 4) then gets (fun s => config (hpet s))
     else if (offset =? HPET_ISR) || (offset =? HPET_ISR + 4) then gets (fun s => hisr (hpet s))
     else if (offset =? HPET_MAIN_COUNTER) || (offset =? HPET_MAIN_COUNTER + 4)
     then c <- vhpet_counter false ;; ret c.1
     else gets (fun s => read_timers offset all_timers (hpet s))) ;;
  ret (if (size =? 4) && negb (Z.land offset 4 =? 0) then Z.shiftr data 32 else data).

(** [pincount] is [vioapic_pincount(vm)]. *)
Definition vhpet_init (pincount : Z) : vhpet :=
  let allowed_irqs := if 24 <=? pincount then 0x00f00000 else 0 in
  let cap := Z.lor (Z.lor (u64 (Z.shiftl allowed_irqs 32)) HPET_TCAP_PER_INT) HPET_TCAP_FSB_INT_DEL in
  mk_vhpet (bttosbt (FREQ2BT HPET_FREQ)) 0 0 0 0
    (replicate (Z.to_nat VHPET_NUM_TIMERS) (mk_htimer cap 0 0xffffffff 0 0)).

Definition vhpet_getcap : Z := u32 vhpet_capabilities.
End Hpet.

(** ** Reachable states *)

Definition is_timer (n : Z) : Prop := 0 <= n < VHPET_NUM_TIMERS.

(** What the code keeps true of one timer; [set] is its interrupt status bit. *)
Record timer_ok (set : bool) (t : htimer) : Prop := {
  t_cap : cap_config t in_u 64;
  t_ro : Z.land (cap_config t) HPET_TCAP_RO_MASK = 0x00f0000000008010;
  t_pin : vhpet_timer_ioapic_pin t = 0 \/ hpet_line (vhpet_timer_ioapic_pin t);
  t_compval : compval t in_u 32;
  t_comprate : comprate t in_u 32;
  t_rate : comprate t <> 0 -> vhpet_periodic_timer t = true;
  t_set : set = true -> vhpet_timer_interrupt_enabled t = true /\ vhpet_timer_msi_enabled t = false /\
    Z.land (cap_config t) HPET_TCNF_INT_TYPE <> 0 /\ vhpet_timer_ioapic_pin t <> 0;
}.

(** How often the timers hold the line [p] asserted, by the status register. *)
Definition drives (p : Z) (v : vhpet) (n : Z) : Z :=
  b2z (tst (hisr v) (bit n) && (vhpet_timer_ioapic_pin (get_timer n v) =? p)).
Definition asserted (p : Z) (v : vhpet) : Z := foldr (fun n a => drives p v n + a) 0 all_timers.

Inductive hpet_op : Type := HWrite (gpa val size : Z) | HRead (gpa size : Z) | HFire (n : Z).

Definition hop_allowed (o : hpet_op) : Prop :=
  match o with HWrite _ val _ => val in_u 64 | HRead _ _ => True | HFire n => is_timer n end.

Section Reach.
Context {T V : Type} `{!CalloutOps T, !HpetOut V}.
Variables (uptime : nat -> Z) (callout_of : Z -> Z).
Local Abbreviation S := (hmachine T V).

Definition run_hpet (o : hpet_op) : cmd S Z :=
  match o with
  | HWrite gpa val size => vhpet_mmio_write uptime callout_of gpa val size
  | HRead gpa size => vhpet_mmio_read uptime gpa size
  | HFire n => vhpet_handler uptime callout_of n ;;; ret 0
  end.

(** The guest's accesses, the callout thread, and the effect of other devices
    on the timers: they neither start nor stop those of the HPET. *)
Inductive hpet_step : S -> S -> Prop :=
| hs_op o s r s' : hop_allowed o -> run_hpet o s = Return (r, s') -> hpet_step s s'
| hs_timers t s : (forall c, co_ok c (hcallouts s) -> co_ok c t) ->
    (forall c, co_active c t = co_active c (hcallouts s)) -> hpet_step s (s <| hcallouts := t |>).

Definition hpet_start (t : T) (w : V) : S := mk_hmachine (vhpet_init 24) t w 0.
End Reach.

(** ** One timer *)

Lemma sum_update (f g : Z -> Z) n l : NoDup l -> n ∈ l -> (forall m, m ∈ l -> m <> n -> g m = f m) ->
  foldr (fun m a => g m + a) 0 l = foldr (fun m a => f m + a) 0 l + g n - f n.
Proof.
  intros Hd. induction Hd as [|m l Hm Hd IH]; intros Hn He; [by apply elem_of_nil in Hn|]. cbn.
  apply elem_of_cons in Hn as [-> |Hn].
  - assert (E : foldr (fun m a => g m + a) 0 l = foldr (fun m a => f m + a) 0 l); [|lia].
    assert (Hg : Forall (fun x => g x = f x) l).
    { apply Forall_forall. intros x Hx. apply He; [by right|]. by intros ->. }
    clear - Hg. by induction Hg as [|x l E _ IH]; [|cbn; rewrite IH, E].
  - rewrite (He m); [|by left|by intros ->]. rewrite IH; [lia|done|]. intros y Hy. apply He. by right.
Qed.

Lemma asserted_update p v v' n : is_timer n ->
  (forall m, is_timer m -> m <> n -> drives p v' m = drives p v m) ->
  asserted p v' = asserted p v + drives p v' n - drives p v n.
Proof.
  intros Hn H. unfold asserted. apply (sum_update (drives p v) (drives p v') n).
  - apply NoDup_seqZ.
  - apply elem_of_seqZ. unfold is_timer in Hn. lia.
  - intros m Hm. apply H. apply elem_of_seqZ in Hm. unfold is_timer. lia.
Qed.

Lemma get_set_timer n m f v : length (htimers v) = 8%nat -> is_timer n -> is_timer m ->
  get_timer m (set_timer n f v) = if m =? n then f (get_timer n v) else get_timer m v.
Proof.
  intros Hl [Hn Hn'] [Hm Hm']. unfold get_timer, set_timer, VHPET_NUM_TIMERS in *. cbn.
  destruct (Z.eqb_spec m n) as [-> |Hne].
  - destruct (lookup_lt_is_Some_2 (htimers v) (Z.to_nat n)) as [t Ht]; [lia|].
    rewrite list_lookup_alter_eq, Ht. done.
  - rewrite list_lookup_alter_ne by lia. done.
Qed.

Lemma ro_bits c i : Z.land c HPET_TCAP_RO_MASK = 0x00f0000000008010 ->
  Z.testbit HPET_TCAP_RO_MASK i = true -> Z.testbit c i = Z.testbit 0x00f0000000008010 i.
Proof. intros H Hi. rewrite <- H, Z.land_spec, Hi. by rewrite andb_true_r. Qed.

Lemma land_clr_apart x a m : Z.land a m = 0 -> Z.land (clr x a) m = Z.land x m.
Proof.
  intros H. apply Z.bits_inj'. intros i Hi. rewrite !Z.land_spec, clr_testbit by done.
  assert (E : Z.testbit (Z.land a m) i = false) by (by rewrite H, Z.testbit_0_l).
  rewrite Z.land_spec in E. destruct (Z.testbit a i), (Z.testbit m i); cbn in *; rewrite ?andb_true_r, ?andb_false_r; done.
Qed.

Lemma new_config_ro old data mask : Z.land (new_config old data mask) HPET_TCAP_RO_MASK = Z.land old HPET_TCAP_RO_MASK.
Proof.
  apply Z.bits_inj'. intros i Hi. unfold new_config. rewrite !Z.land_spec, Z.lor_spec, clr_testbit, Z.lor_spec, Z.land_spec by done.
  destruct (Z.testbit HPET_TCAP_RO_MASK i); cbn; rewrite ?andb_false_r, ?andb_true_r; done.
Qed.

Lemma update_register_in_u w r data mask : 0 <= w -> r in_u w -> mask in_u w -> update_register r data mask in_u w.
Proof. intros. unfold update_register. apply lor_in_u; [done|by apply clr_in_u|by apply land_in_u_r]. Qed.

Lemma new_config_in_u old data mask : old in_u 64 -> mask in_u 64 -> new_config old data mask in_u 64.
Proof.
  intros Ho Hm. unfold new_config. apply lor_in_u; [lia| |apply land_in_u_l; [lia|done]].
  apply clr_in_u; [lia|]. by apply update_register_in_u; [lia|..].
Qed.

(** Only the lines 20 to 23 pass the check of the routing. *)
Lemma good_route t : Z.land (cap_config t) HPET_TCAP_RO_MASK = 0x00f0000000008010 -> cap_config t in_u 64 ->
  bad_route t = false -> vhpet_timer_ioapic_pin t = 0 \/ hpet_line (vhpet_timer_ioapic_pin t).
Proof.
  intros Hro Hc. unfold bad_route. set (pin := vhpet_timer_ioapic_pin t).
  destruct (Z.eqb_spec pin 0) as [|Hp]; [by left|]. cbn [negb andb]. intros Hb. right.
  assert (Hpin : pin in_u 5).
  { subst pin. unfold vhpet_timer_ioapic_pin in *. destruct (vhpet_timer_msi_enabled t); [done|].
    rewrite Z.shiftr_div_pow2 by lia.
    assert (Z.land (cap_config t) HPET_TCNF_INT_ROUTE in_u 14) by (apply land_in_u_r; [lia|done]).
    split; [apply Z.div_pos; lia|apply Z.div_lt_upper_bound; lia]. }
  assert (E : u32 (Z.shiftr (cap_config t) 32) = 0x00f00000).
  { apply Z.bits_inj'. intros i Hi. unfold u32. destruct (Z.ltb_spec i 32).
    - rewrite Z.mod_pow2_bits_low, Z.shiftr_spec by lia. rewrite (ro_bits _ _ Hro).
      + change 0x00f0000000008010 with (Z.lor (Z.shiftl 0x00f00000 32) 0x8010).
        rewrite Z.lor_spec, Z.shiftl_spec by lia. replace (i + 32 - 32) with i by lia.
        rewrite (Z.bits_above_log2 0x8010) by (cbn; lia). by rewrite orb_false_r.
      + unfold HPET_TCAP_RO_MASK, HPET_TCAP_INT_ROUTE. rewrite !Z.lor_spec.
        change 0xffffffff00000000 with (Z.shiftl (Z.ones 32) 32). rewrite Z.shiftl_spec by lia.
        rewrite Z.ones_spec_low by lia. done.
    - rewrite Z.mod_pow2_bits_high by lia. rewrite Z.bits_above_log2; [done|lia|cbn; lia]. }
  rewrite E in Hb. unfold hpet_line.
  pose proof (forall_below (fun x => (Z.land 0x00f00000 (bit x) =? 0) || ((20 <=? x) && (x <=? 23))) 32 pin eq_refl Hpin) as K.
  cbn beta in K. rewrite Hb in K. cbn [orb] in K. lia.
Qed.

Lemma pin_cap t t' : Z.land (cap_config t') (Z.lor HPET_TCAP_FSB_INT_DEL (Z.lor HPET_TCNF_FSB_EN HPET_TCNF_INT_ROUTE)) =
  Z.land (cap_config t) (Z.lor HPET_TCAP_FSB_INT_DEL (Z.lor HPET_TCNF_FSB_EN HPET_TCNF_INT_ROUTE)) ->
  vhpet_timer_msi_enabled t' = vhpet_timer_msi_enabled t /\ vhpet_timer_ioapic_pin t' = vhpet_timer_ioapic_pin t.
Proof.
  intros H. assert (E : forall m, Z.land (Z.lor HPET_TCAP_FSB_INT_DEL (Z.lor HPET_TCNF_FSB_EN HPET_TCNF_INT_ROUTE)) m = m ->
    Z.land (cap_config t') m = Z.land (cap_config t) m).
  { intros m Hm. rewrite <- Hm, !Z.land_assoc. by rewrite H. }
  unfold vhpet_timer_ioapic_pin, vhpet_timer_msi_enabled. rewrite !E by done. done.
Qed.

Lemma clr_val_set_ok set t : timer_ok set t -> timer_ok set (t <| cap_config ::= fun c => clr c HPET_TCNF_VAL_SET |>) /\
  vhpet_timer_ioapic_pin (t <| cap_config ::= fun c => clr c HPET_TCNF_VAL_SET |>) = vhpet_timer_ioapic_pin t.
Proof.
  intros []. destruct (pin_cap t (t <| cap_config ::= fun c => clr c HPET_TCNF_VAL_SET |>)) as [Em Ep].
  { cbn. by rewrite land_clr_apart. }
  split; [|done]. split; cbn; try done; rewrite ?Ep, ?Em.
  - by apply clr_in_u.
  - by rewrite land_clr_apart.
  - done.
  - unfold vhpet_periodic_timer, tst. cbn. by rewrite land_clr_apart.
  - unfold vhpet_timer_interrupt_enabled, tst. cbn. by rewrite !land_clr_apart.
Qed.

(** Clearing the route of an interrupt that is not an MSI disconnects it. *)
Lemma clr_route_pin t : vhpet_timer_ioapic_pin (t <| cap_config ::= fun c => clr c HPET_TCNF_INT_ROUTE |>) = 0 /\
  vhpet_timer_msi_enabled (t <| cap_config ::= fun c => clr c HPET_TCNF_INT_ROUTE |>) = vhpet_timer_msi_enabled t.
Proof.
  assert (E : vhpet_timer_msi_enabled (t <| cap_config ::= fun c => clr c HPET_TCNF_INT_ROUTE |>) = vhpet_timer_msi_enabled t).
  { unfold vhpet_timer_msi_enabled. cbn -[Z.land Z.lor]. by rewrite land_clr_apart. }
  split; [|done]. unfold vhpet_timer_ioapic_pin. rewrite E. destruct (vhpet_timer_msi_enabled t); [done|]. cbn -[Z.land].
  replace (Z.land (clr (cap_config t) HPET_TCNF_INT_ROUTE) HPET_TCNF_INT_ROUTE) with 0; [done|].
  apply Z.bits_inj'. intros i Hi. rewrite Z.land_spec, clr_testbit, Z.testbit_0_l by done.
  by destruct (Z.testbit HPET_TCNF_INT_ROUTE i); rewrite ?andb_false_r.
Qed.

(** ** The invariant *)
Section Safety.
Context {T V : Type} `{!CalloutOps T, !CalloutLaws T, !HpetOut V, !HpetOutLaws V}.
Variables (uptime : nat -> Z) (callout_of : Z -> Z).
Hypothesis uptime_mono : forall n m, (n <= m)%nat -> uptime n <= uptime m.
(** The level of each line but for the HPET. *)
Variable others : Z -> Z.
Local Abbreviation S := (hmachine T V).
Implicit Types s : S.

Record core_ok s : Prop := {
  c_length : length (htimers (hpet s)) = 8%nat;
  c_freq : hfreq_sbt (hpet s) = 429;
  c_timers n : is_timer n -> timer_ok (tst (hisr (hpet s)) (bit n)) (get_timer n (hpet s));
  c_isr : hisr (hpet s) in_u 8;
  c_base : countbase (hpet s) in_u 32;
  c_ok n : is_timer n -> co_ok (callout_of n) (hcallouts s);
  c_level p : hp_level p (hout s) = others p + asserted p (hpet s);
}.

(** While the counter runs its base is not in the future; while it does not,
    no timer is armed. *)
Record hpet_ok s : Prop := {
  h_core : core_ok s;
  h_clock : vhpet_counter_enabled (hpet s) = true -> countbase_sbt (hpet s) <= uptime (hreadings s);
  h_idle n : vhpet_counter_enabled (hpet s) = false -> is_timer n -> co_active (callout_of n) (hcallouts s) = false;
}.

(** What a command leaves alone. *)
Record kept s s' : Prop := {
  k_config : config (hpet s') = config (hpet s);
  k_base : countbase (hpet s') = countbase (hpet s);
  k_sbt : countbase_sbt (hpet s') = countbase_sbt (hpet s);
  k_readings : (hreadings s <= hreadings s')%nat;
  k_active n : vhpet_counter_enabled (hpet s) = false -> is_timer n ->
    co_active (callout_of n) (hcallouts s) = false -> co_active (callout_of n) (hcallouts s') = false;
}.

Lemma kept_reflexive s : kept s s.
Proof. by split. Qed.

Lemma kept_transitive s1 s2 s3 : kept s1 s2 -> kept s2 s3 -> kept s1 s3.
Proof.
  intros [E1 B1 C1 R1 A1] [E2 B2 C2 R2 A2]. split; try congruence; [lia|].
  intros n Hd Hn Ha. apply A2; [|done|by apply A1]. unfold vhpet_counter_enabled in *. by rewrite E1.
Qed.

Lemma kept_ok s s' : hpet_ok s -> core_ok s' -> kept s s' -> hpet_ok s'.
Proof.
  intros [_ Hc Hi] Hs [E B C R A]. split; [done|..]; unfold vhpet_counter_enabled in *; rewrite E.
  - intros He. rewrite C. etrans; [by apply Hc|]. by apply uptime_mono.
  - intros n Hd Hn. by apply A, Hi.
Qed.

Lemma drives_frame p v n f : length (htimers v) = 8%nat -> is_timer n ->
  vhpet_timer_ioapic_pin (f (get_timer n v)) = vhpet_timer_ioapic_pin (get_timer n v) \/ tst (hisr v) (bit n) = false ->
  forall m, is_timer m -> drives p (set_timer n f v) m = drives p v m.
Proof.
  intros Hl Hn Hp m Hm. unfold drives. change (hisr (set_timer n f v)) with (hisr v).
  rewrite get_set_timer by done. destruct (Z.eqb_spec m n) as [-> |]; [|done].
  destruct Hp as [-> | ->]; done.
Qed.

Lemma core_set_timer s n f : core_ok s -> is_timer n ->
  timer_ok (tst (hisr (hpet s)) (bit n)) (f (get_timer n (hpet s))) ->
  vhpet_timer_ioapic_pin (f (get_timer n (hpet s))) = vhpet_timer_ioapic_pin (get_timer n (hpet s)) \/
    tst (hisr (hpet s)) (bit n) = false ->
  core_ok (s <| hpet ::= set_timer n f |>) /\ kept s (s <| hpet ::= set_timer n f |>).
Proof.
  intros [] Hn Ht Hp. split; [|by split]. split; cbn; try done.
  - by rewrite length_alter.
  - intros m Hm. rewrite get_set_timer by done. destruct (Z.eqb_spec m n) as [-> |]; auto.
  - intros p. rewrite c_level0. f_equal. rewrite (asserted_update p (hpet s) (set_timer n f (hpet s)) n) by
      (try done; intros; by apply drives_frame).
    rewrite (drives_frame p (hpet s) n f) by done. lia.
Qed.

Lemma core_callouts s f : core_ok s -> (forall n, is_timer n -> co_ok (callout_of n) (f (hcallouts s))) ->
  core_ok (s <| hcallouts ::= f |>).
Proof. intros [] H. by split. Qed.

(** Setting and clearing the status bit of a timer with the line it drives. *)
Lemma core_raise s n pin : core_ok s -> is_timer n -> tst (hisr (hpet s)) (bit n) = false ->
  pin = vhpet_timer_ioapic_pin (get_timer n (hpet s)) ->
  timer_ok true (get_timer n (hpet s)) ->
  core_ok (s <| hpet ::= fun v => v <| hisr ::= fun i => Z.lor i (bit n) |> |> <| hout ::= hp_assert pin |>).
Proof.
  intros K Hn Hs -> Ht. pose proof K as []. split; cbn; try done.
  - intros m Hm. specialize (c_timers0 m Hm). cbn in *. unfold get_timer in *. cbn.
    unfold is_timer in *. rewrite tst_bit in * by lia. rewrite Z.lor_spec, bit_testbit by lia.
    destruct (Z.eqb_spec n m) as [-> |]; [by rewrite orb_true_r|]. by rewrite orb_false_r.
  - apply lor_in_u; [lia|done|]. apply bit_in_u. unfold is_timer, VHPET_NUM_TIMERS in Hn. lia.
  - intros p. rewrite level_assert, c_level0.
    2: { destruct Ht as [_ _ Hpin _ _ _ Hset]. destruct (Hset eq_refl) as (_ & _ & _ & Hne). by destruct Hpin. }
    set (v' := hpet s <| hisr ::= fun i => Z.lor i (bit n) |>).
    rewrite (asserted_update p (hpet s) v' n); [|done|].
    + unfold drives. rewrite Hs. change (hisr v') with (Z.lor (hisr (hpet s)) (bit n)). unfold is_timer in Hn.
      rewrite (tst_bit (Z.lor _ _)), Z.lor_spec, bit_testbit, Z.eqb_refl, orb_true_r by lia. cbn [andb b2z].
      change (get_timer n v') with (get_timer n (hpet s)). lia.
    + intros m Hm Hne. unfold drives. change (hisr v') with (Z.lor (hisr (hpet s)) (bit n)).
      change (get_timer m v') with (get_timer m (hpet s)). unfold is_timer in *. rewrite !tst_bit, Z.lor_spec, bit_testbit by lia.
      by rewrite (proj2 (Z.eqb_neq n m)), orb_false_r by done.
Qed.

Lemma core_lower s n pin : core_ok s -> is_timer n -> tst (hisr (hpet s)) (bit n) = true ->
  pin = vhpet_timer_ioapic_pin (get_timer n (hpet s)) ->
  core_ok (s <| hout ::= hp_deassert pin |> <| hpet ::= fun v => v <| hisr ::= fun i => clr i (bit n) |> |>).
Proof.
  intros K Hn Hs ->. pose proof K as []. pose proof (c_timers0 n Hn) as Ht. rewrite Hs in Ht. split; cbn; try done.
  - intros m Hm. specialize (c_timers0 m Hm). cbn in *. unfold get_timer in *. cbn.
    unfold is_timer in *. rewrite tst_bit in * by lia. rewrite clr_testbit, bit_testbit by lia.
    destruct (Z.eqb_spec n m) as [-> |]; cbn; rewrite ?andb_false_r, ?andb_true_r; [|done].
    destruct c_timers0. by split.
  - by apply clr_in_u.
  - intros p. rewrite level_deassert, c_level0.
    2: { destruct Ht as [_ _ Hpin _ _ _ Hset]. destruct (Hset eq_refl) as (_ & _ & _ & Hne). by destruct Hpin. }
    set (v' := hpet s <| hisr ::= fun i => clr i (bit n) |>).
    rewrite (asserted_update p (hpet s) v' n); [|done|].
    + unfold drives. rewrite Hs. change (hisr v') with (clr (hisr (hpet s)) (bit n)). unfold is_timer in Hn.
      rewrite (tst_bit (clr _ _)), clr_testbit, bit_testbit, Z.eqb_refl, andb_false_r by lia. cbn [andb b2z]. lia.
    + intros m Hm Hne. unfold drives. change (hisr v') with (clr (hisr (hpet s)) (bit n)).
      change (get_timer m v') with (get_timer m (hpet s)). unfold is_timer in *. rewrite !tst_bit, clr_testbit, bit_testbit by lia.
      by rewrite (proj2 (Z.eqb_neq n m)), andb_true_r by done.
Qed.

Local Abbreviation good s := (fun s' => core_ok s' /\ kept s s').

Lemma wp_counter want s (Q : Z * Z -> S -> Prop) : hpet_ok s -> (want = true -> vhpet_counter_enabled (hpet s) = true) ->
  (forall c s', hpet_ok s' -> kept s s' -> hpet s' = hpet s -> hcallouts s' = hcallouts s -> hout s' = hout s -> c.1 in_u 32 ->
     (if vhpet_counter_enabled (hpet s)
      then c.2 = uptime (hreadings s) /\
           c.1 = u32 (countbase (hpet s) + (c.2 - countbase_sbt (hpet s)) / hfreq_sbt (hpet s))
      else c = (countbase (hpet s), 0)) -> Q c s') ->
  wp (vhpet_counter uptime want) Q s.
Proof.
  intros H Hw K. pose proof H as [C Hc Hi]. unfold vhpet_counter. wp_go. apply wp_if; intros He.
  - rewrite He in K. specialize (Hc He). wp_go. unfold wp, read_uptime, bind. cbn -[u32].
    rewrite (proj2 (Z.leb_le 0 _)) by lia. cbn -[u32].
    rewrite Z.quot_div_nonneg by (rewrite ?(c_freq s C); lia).
    assert (kept s (s <| hreadings ::= Datatypes.S |>)) by (split; cbn; try done; lia).
    apply K; [|done..|apply u32_in_u|done].
    eapply kept_ok; [done| |done]. destruct C. by split.
  - rewrite He in K. apply wp_bind, wp_KASSERT.
    { destruct want; [|done]. rewrite Hw in He by done. done. }
    wp_go. apply K; try done. apply C.
Qed.

Lemma wp_edge_trig n s (Q : bool -> S -> Prop) : vhpet_timer_msi_enabled (get_timer n (hpet s)) = false ->
  Q (Z.land (cap_config (get_timer n (hpet s))) HPET_TCNF_INT_TYPE =? 0) s -> wp (vhpet_timer_edge_trig n) Q s.
Proof. intros Hm HQ. unfold vhpet_timer_edge_trig, timer_of. wp_go. apply wp_KASSERT; [by rewrite Hm|]. by wp_go. Qed.

Lemma kept_out s f : core_ok s -> (forall p, hp_level p (f (hout s)) = hp_level p (hout s)) ->
  core_ok (s <| hout ::= f |>) /\ kept s (s <| hout ::= f |>).
Proof. intros [] H. split; [|by split]. split; cbn; try done. intros p. by rewrite H. Qed.

Lemma wp_interrupt n s : core_ok s -> is_timer n -> wp (vhpet_timer_interrupt n) (fun _ => good s) s.
Proof.
  intros C Hn. pose proof (c_timers s C n Hn) as Ht. unfold vhpet_timer_interrupt, timer_of, isr_set. wp_go.
  set (t := get_timer n (hpet s)) in *.
  apply wp_if; intros He; [by wp_go; split; [|apply kept_reflexive]|]. wp_go.
  apply wp_if; intros Hs; [by wp_go; split; [|apply kept_reflexive]|].
  apply wp_if; intros Hm.
  { unfold emit. wp_go. apply kept_out; [done|]. intros p. apply level_msi. }
  apply wp_if; intros Hp; [by wp_go; split; [|apply kept_reflexive]|].
  wp_go. apply wp_edge_trig; [done|]. fold t. apply Z.eqb_neq in Hp.
  assert (Hl : hpet_line (vhpet_timer_ioapic_pin t)) by (by destruct (t_pin _ _ Ht)).
  apply wp_if; intros Hed.
  - unfold emit. wp_go. apply kept_out; [done|]. intros p. by apply level_pulse.
  - unfold on_hpet, emit. wp_go. split; [|by split]. apply core_raise; try done.
    destruct Ht. split; try done. intros _. apply Z.eqb_neq in Hed. apply negb_false_iff in He. done.
Qed.

Lemma next_compval_in_u a b c : next_compval a b c in_u 32.
Proof. apply u32_in_u. Qed.

Lemma wp_start_timer n counter now s : core_ok s -> vhpet_counter_enabled (hpet s) = true -> is_timer n ->
  wp (vhpet_start_timer callout_of n counter now) (fun _ => good s) s.
Proof.
  intros C He Hn. unfold vhpet_start_timer, timer_of. wp_go.
  eapply (wp_conseq _ (fun _ => good s)).
  { apply wp_when; intros Hr; [|by split; [|apply kept_reflexive]].
    unfold vhpet_adjust_compval, timer_of, on_timer, on_hpet. wp_go. apply wp_KASSERT; [done|]. wp_go.
    apply core_set_timer; [done|done| |by left].
    destruct (c_timers s C n Hn). split; try done. cbn. apply next_compval_in_u. }
  intros _ s1 [C1 K1]. unfold on_timer, on_hpet, on_hcallouts. wp_go. cbn [hpet].
  destruct (core_set_timer s1 n (fun t => t <| hcallout_sbt := now + u32 (compval (get_timer n (hpet s1)) - counter) * hfreq_sbt (hpet s1) |>) C1 Hn)
    as [C2 K2]; [|by left|].
  { destruct (c_timers s1 C1 n Hn). by split. }
  split.
  - apply (core_callouts _ _ C2). intros m Hm. apply reset_ok; by apply (c_ok s1 C1).
  - eapply kept_transitive; [exact K1|]. destruct K2. split; try done. cbn. intros m Hd.
    unfold vhpet_counter_enabled in *. by rewrite (k_config _ _ K1), He in Hd.
Qed.

Lemma wp_each (f : Z -> cmd S unit) (P : S -> Prop) ns s : (forall n s', n ∈ ns -> core_ok s' -> kept s s' -> P s' ->
    wp (f n) (fun _ s'' => core_ok s'' /\ kept s' s'' /\ P s'') s') ->
  core_ok s -> P s -> wp (each_timer f ns) (fun _ s' => core_ok s' /\ kept s s' /\ P s') s.
Proof.
  revert s. induction ns as [|n ns IH]; intros s Hf C HP; cbn; [wp_go; split; [done|]; split; [apply kept_reflexive|done]|].
  wp_go. eapply wp_conseq; [apply Hf; [by left|done|apply kept_reflexive|done]|]. intros _ s1 (C1 & K1 & P1).
  eapply wp_conseq; [apply IH; [|done|done]|].
  - intros m s' Hm C' K' P'. apply Hf; [by right|done|by eapply kept_transitive|done].
  - intros _ s2 (C2 & K2 & P2). split; [done|]. split; [by eapply kept_transitive|done].
Qed.

Lemma all_timers_in n : n ∈ all_timers <-> is_timer n.
Proof. unfold all_timers, is_timer. rewrite elem_of_seqZ. lia. Qed.

Lemma wp_start_counting s : core_ok s -> vhpet_counter_enabled (hpet s) = true ->
  wp (vhpet_start_counting uptime callout_of) (fun _ => hpet_ok) s.
Proof.
  intros C He. unfold vhpet_start_counting. wp_go. unfold wp at 1, read_uptime. cbn beta iota.
  unfold on_hpet. wp_go. set (s1 := s <| hreadings ::= Datatypes.S |> <| hpet ::= _ |>).
  assert (C1 : core_ok s1) by (destruct C; by split).
  eapply wp_conseq; [apply (wp_each _ (fun _ => True)); [|done|done]|].
  - intros n s' Hn C' K' _. wp_go. eapply wp_conseq; [apply wp_start_timer|].
    + done.
    + unfold vhpet_counter_enabled in *. by rewrite (k_config _ _ K').
    + by apply all_timers_in.
    + cbv beta. by intros _ s'' [? ?].
  - intros _ s' (C' & K' & _). split; [done|..]; unfold vhpet_counter_enabled in *; rewrite (k_config _ _ K').
    + intros _. rewrite (k_sbt _ _ K'). apply uptime_mono. etrans; [|apply (k_readings _ _ K')]. cbn. lia.
    + intros n Hd. change (config (hpet s1)) with (config (hpet s)) in Hd. by rewrite He in Hd.
Qed.

Lemma wp_stop_timer now n s : core_ok s -> is_timer n ->
  wp (vhpet_stop_timer callout_of now n) (fun _ s' => core_ok s' /\ kept s s' /\
    (vhpet_counter_enabled (hpet s) = false -> co_active (callout_of n) (hcallouts s') = false)) s.
Proof.
  intros C Hn. unfold vhpet_stop_timer, on_hcallouts, timer_of. wp_go.
  set (s1 := s <| hcallouts ::= _ |>).
  assert (C1 : core_ok s1).
  { apply core_callouts; [done|]. intros m Hm. apply stop_ok; by apply (c_ok s C). }
  assert (K1 : kept s s1).
  { split; try done. cbn. intros m _ Hm Ha. destruct (decide (callout_of m = callout_of n)) as [-> |Hne].
    - by apply stop_active, (c_ok s C).
    - by rewrite stop_frame; [|apply (c_ok s C)|]. }
  assert (A1 : co_active (callout_of n) (hcallouts s1) = false) by (by apply stop_active, (c_ok s C)).
  apply wp_when; intros _; [|done].
  eapply wp_conseq; [by apply wp_interrupt|]. intros _ s2 [C2 K2].
  split; [done|]. split; [by eapply kept_transitive|]. intros Hd. by apply (k_active _ _ K2).
Qed.

Lemma wp_stop_all now ns s : core_ok s -> vhpet_counter_enabled (hpet s) = false -> Forall is_timer ns ->
  wp (each_timer (vhpet_stop_timer callout_of now) ns) (fun _ s' => core_ok s' /\ kept s s' /\
    forall n, n ∈ ns -> co_active (callout_of n) (hcallouts s') = false) s.
Proof.
  intros C Hd Hns. revert s C Hd. induction Hns as [|n ns Hn Hns IH]; intros s C Hd; cbn.
  { wp_go. split; [done|]. split; [apply kept_reflexive|]. intros n Hn. by apply elem_of_nil in Hn. }
  wp_go. eapply wp_conseq; [by apply wp_stop_timer|]. intros _ s1 (C1 & K1 & A1).
  assert (Hd1 : vhpet_counter_enabled (hpet s1) = false).
  { unfold vhpet_counter_enabled in *. by rewrite (k_config _ _ K1). }
  eapply wp_conseq; [by apply IH|]. intros _ s2 (C2 & K2 & A2). split; [done|]. split; [by eapply kept_transitive|].
  intros m [-> |Hm]%elem_of_cons; [|by apply A2]. apply (k_active _ _ K2); auto.
Qed.

Lemma wp_stop_counting counter now s : core_ok s -> vhpet_counter_enabled (hpet s) = false -> counter in_u 32 ->
  wp (vhpet_stop_counting callout_of counter now) (fun _ => hpet_ok) s.
Proof.
  intros C Hd Hc. unfold vhpet_stop_counting, on_hpet. wp_go. set (s1 := s <| hpet ::= _ |>).
  assert (C1 : core_ok s1) by (destruct C; by split).
  eapply wp_conseq; [apply (wp_stop_all now all_timers s1 C1 Hd)|].
  - apply Forall_forall. intros n. apply all_timers_in.
  - intros _ s' (C' & K' & A). split; [done|..]; unfold vhpet_counter_enabled in *; rewrite (k_config _ _ K').
    + intros He. change (config (hpet s1)) with (config (hpet s)) in He. by rewrite Hd in He.
    + intros n _ Hn. by apply A, all_timers_in.
Qed.

Lemma wp_clear_isr n s : core_ok s -> is_timer n -> wp (vhpet_timer_clear_isr n) (fun _ => good s) s.
Proof.
  intros C Hn. unfold vhpet_timer_clear_isr, isr_set, timer_of. wp_go.
  apply wp_when; intros Hs; [|by split; [|apply kept_reflexive]]. wp_go.
  pose proof (c_timers s C n Hn) as Ht. rewrite Hs in Ht. destruct (t_set _ _ Ht eq_refl) as (_ & _ & _ & Hp).
  apply wp_KASSERT; [by apply negb_true_iff, Z.eqb_neq|]. unfold emit, on_hpet. wp_go.
  split; [by apply core_lower|by split].
Qed.

(** The timer after its configuration register was written. *)
Definition configured (t : htimer) (data mask : Z) : htimer :=
  let t := t <| cap_config := new_config (cap_config t) data mask |> in
  let t := if bad_route t then t <| cap_config ::= fun c => clr c HPET_TCNF_INT_ROUTE |> else t in
  if negb (vhpet_periodic_timer t) then t <| comprate := 0 |> else t.

Lemma configured_ok set t data mask : mask in_u 64 -> timer_ok set t -> timer_ok false (configured t data mask).
Proof.
  intros Hm []. unfold configured. set (t1 := t <| cap_config := _ |>).
  assert (R1 : Z.land (cap_config t1) HPET_TCAP_RO_MASK = 0x00f0000000008010) by (cbn -[Z.land]; by rewrite new_config_ro).
  assert (I1 : cap_config t1 in_u 64) by (by apply new_config_in_u).
  set (t2 := if bad_route t1 then _ else t1).
  assert (R2 : Z.land (cap_config t2) HPET_TCAP_RO_MASK = 0x00f0000000008010).
  { subst t2. destruct (bad_route t1); [|done]. cbn -[Z.land]. by rewrite land_clr_apart. }
  assert (I2 : cap_config t2 in_u 64).
  { subst t2. destruct (bad_route t1); [|done]. cbn -[Z.land]. by apply clr_in_u. }
  assert (P2 : vhpet_timer_ioapic_pin t2 = 0 \/ hpet_line (vhpet_timer_ioapic_pin t2)).
  { subst t2. destruct (bad_route t1) eqn:E; [left; apply clr_route_pin|by apply good_route]. }
  assert (E2 : compval t2 = compval t /\ comprate t2 = comprate t) by (subst t2; by destruct (bad_route t1)).
  destruct E2 as [E2 E2']. clearbody t2.
  destruct (vhpet_periodic_timer t2) eqn:Hp; cbn [negb]; (split; cbn -[Z.land]; try done; try congruence).
Qed.

(** The machine with timer [n] replaced. *)
Definition put (n : Z) (t : htimer) (s : S) : S := s <| hpet ::= set_timer n (fun _ => t) |>.

Lemma put_set n f s : core_ok s -> is_timer n -> s <| hpet ::= set_timer n f |> = put n (f (get_timer n (hpet s))) s.
Proof.
  intros C Hn.
  assert (E : alter f (Z.to_nat n) (htimers (hpet s)) =
              alter (fun _ => f (get_timer n (hpet s))) (Z.to_nat n) (htimers (hpet s))).
  { apply list_eq. intros i. rewrite !list_lookup_alter. case_decide as E; [|done]. subst i.
    unfold get_timer. destruct (lookup_lt_is_Some_2 (htimers (hpet s)) (Z.to_nat n)) as [x Hx].
    { rewrite (c_length s C). unfold is_timer, VHPET_NUM_TIMERS in Hn. lia. }
    by rewrite Hx. }
  change (s <| hpet ::= fun v => v <| htimers := alter f (Z.to_nat n) (htimers (hpet s)) |> |> =
          put n (f (get_timer n (hpet s))) s). by rewrite E.
Qed.

Lemma put_put n f t s : put n t s <| hpet ::= set_timer n f |> = put n (f t) s.
Proof.
  change (s <| hpet ::= fun v => v <| htimers := alter f (Z.to_nat n) (alter (fun _ => t) (Z.to_nat n) (htimers (hpet s))) |> |> =
          put n (f t) s). by rewrite list_alter_alter_eq.
Qed.

Lemma get_put n t s : core_ok s -> is_timer n -> get_timer n (hpet (put n t s)) = t.
Proof. intros C Hn. cbn. rewrite get_set_timer by (try done; apply C). by rewrite Z.eqb_refl. Qed.

(** The three assignments to the timer in [vhpet_timer_update_config]. *)
Lemma wp_configure {A} n data mask s (k : htimer -> cmd S A) Q : core_ok s -> is_timer n ->
  let t := get_timer n (hpet s) in
  (forall t2, cap_config t2 = cap_config (configured t data mask) -> wp (k t2) Q (put n (configured t data mask) s)) ->
  wp (on_timer n (fun t' => t' <| cap_config := new_config (cap_config t) data mask |>) ;;;
      t1 <- timer_of n ;;
      when (bad_route t1) (on_timer n (fun t => t <| cap_config ::= fun c => clr c HPET_TCNF_INT_ROUTE |>)) ;;;
      t2 <- timer_of n ;;
      when (negb (vhpet_periodic_timer t2)) (on_timer n (fun t => t <| comprate := 0 |>)) ;;;
      k t2) Q s.
Proof.
  intros C Hn t K. unfold on_timer, on_hpet, timer_of. wp_go. rewrite put_set by done. cbv beta. fold t.
  rewrite get_put by done. unfold configured in K. cbv zeta in K.
  set (t1 := t <| cap_config := _ |>) in *.
  set (t2 := if bad_route t1 then t1 <| cap_config ::= fun c => clr c HPET_TCNF_INT_ROUTE |> else t1) in *.
  eapply (wp_conseq _ (fun _ s' => s' = put n t2 s)).
  { subst t2. apply wp_when; intros E; rewrite E; [|done]. wp_go. by rewrite put_put. }
  intros _ ? ->. wp_go. rewrite get_put by done. clearbody t2.
  eapply (wp_conseq _ (fun _ s' => s' = put n (if negb (vhpet_periodic_timer t2) then t2 <| comprate := 0 |> else t2) s)).
  { apply wp_when; intros E; rewrite E; [|done]. wp_go. by rewrite put_put. }
  intros _ ? ->. apply K. by destruct (vhpet_periodic_timer t2).
Qed.

Lemma wp_update_config n data mask s : core_ok s -> is_timer n -> mask in_u 64 ->
  wp (vhpet_timer_update_config n data mask) (fun _ => good s) s.
Proof.
  intros C Hn Hm. pose proof (c_timers s C n Hn) as Ht. set (t := get_timer n (hpet s)) in *.
  unfold vhpet_timer_update_config. apply wp_bind, wp_gets, wp_bind. fold t.
  eapply (wp_conseq _ (fun unrouted s' => s' = s /\ (unrouted = true -> tst (hisr (hpet s)) (bit n) = false))).
  { apply wp_if; intros Hmsi; wp_go.
    - split; [done|]. intros _. destruct (tst (hisr (hpet s)) (bit n)); [|done].
      destruct (t_set _ _ Ht eq_refl) as (_ & E & _). by rewrite Hmsi in E.
    - apply wp_edge_trig; [done|]. split; [done|]. intros E%Z.eqb_eq. destruct (tst (hisr (hpet s)) (bit n)); [|done].
      by destruct (t_set _ _ Ht eq_refl) as (_ & _ & H & _). }
  intros unrouted ? [-> Hu]. apply wp_bind, wp_gets, wp_bind.
  eapply (wp_conseq _ (fun _ s' => s' = s)).
  { apply wp_when; [|done]. intros Eu. rewrite Hu by done. by apply wp_KASSERT. }
  intros _ ? ->. cbv zeta. apply wp_if; intros Hnew; [by wp_go; split; [|apply kept_reflexive]|].
  apply wp_configure; [done|done|]. fold t. intros t2 E2.
  pose proof (configured_ok _ _ data mask Hm Ht) as Ht'. set (t3 := configured t data mask) in *.
  unfold isr_set. apply wp_bind, wp_gets. change (hisr (hpet (put n t3 s))) with (hisr (hpet s)).
  apply wp_when; intros Hs.
  2: { apply core_set_timer; [done|done| |by right]. by rewrite Hs. }
  rewrite Hs in Ht. destruct (t_set _ _ Ht eq_refl) as (_ & _ & _ & Hp).
  apply wp_bind, wp_KASSERT; [by apply negb_true_iff, Z.eqb_neq|]. apply wp_bind.
  eapply (wp_conseq _ (fun clear s' => s' = put n t3 s /\ (clear = false -> timer_ok true t3 /\ vhpet_timer_ioapic_pin t3 = vhpet_timer_ioapic_pin t))).
  { assert (Eq : vhpet_timer_interrupt_enabled t2 = vhpet_timer_interrupt_enabled t3 /\
       vhpet_timer_msi_enabled t2 = vhpet_timer_msi_enabled t3 /\ vhpet_timer_ioapic_pin t2 = vhpet_timer_ioapic_pin t3).
    { unfold vhpet_timer_interrupt_enabled, vhpet_timer_ioapic_pin, vhpet_timer_msi_enabled. by rewrite E2. }
    destruct Eq as (-> & -> & ->). apply wp_if; intros Hen; [by apply wp_ret|]. apply wp_if; intros Hmsi; [by apply wp_ret|].
    apply wp_bind, wp_edge_trig; rewrite get_put by done; [done|]. apply wp_if; intros Hed; [by apply wp_ret|].
    apply wp_ret. split; [done|]. intros E%negb_false_iff%Z.eqb_eq. split; [|done].
    destruct Ht'. split; try done. intros _. apply negb_false_iff in Hen. apply Z.eqb_neq in Hed. by rewrite E. }
  intros clear ? [-> Hc]. apply wp_when; intros Ec.
  - unfold emit, on_hpet. wp_go. split; [|by split].
    destruct (core_set_timer _ n (fun _ => t3) (core_lower s n _ C Hn Hs eq_refl) Hn) as [K _]; [| |exact K]; cbn.
    + unfold is_timer in Hn. rewrite tst_bit, clr_testbit, bit_testbit, Z.eqb_refl, andb_false_r by lia. done.
    + right. unfold is_timer in Hn. rewrite tst_bit, clr_testbit, bit_testbit, Z.eqb_refl, andb_false_r by lia. done.
  - destruct (Hc Ec) as [Hok Hpin]. apply core_set_timer; [done|done| |by left]. by rewrite Hs.
Qed.

Lemma wp_good {A} (c : cmd S A) s : hpet_ok s -> wp c (fun _ => good s) s -> wp c (fun _ => hpet_ok) s.
Proof. intros H W. eapply wp_conseq; [exact W|]. intros _ s' [C K]. by eapply kept_ok. Qed.

(** The new comparator registers of a timer. *)
Definition compared (t : htimer) (data mask : Z) : htimer :=
  let t' :=
    if vhpet_periodic_timer t then
      let val64 := update_register (comprate t) data mask in
      let t := t <| comprate := u32 val64 |> in
      if tst (cap_config t) HPET_TCNF_VAL_SET then t <| compval := u32 val64 |> else t
    else t <| compval := u32 (update_register (compval t) data mask) |> in
  t' <| cap_config ::= fun c => clr c HPET_TCNF_VAL_SET |>.

Lemma compared_ok set t data mask : timer_ok set t -> timer_ok set (compared t data mask) /\
  vhpet_timer_ioapic_pin (compared t data mask) = vhpet_timer_ioapic_pin t.
Proof.
  intros Ht. unfold compared. set (t' := if vhpet_periodic_timer t then _ else _).
  assert (E : timer_ok set t' /\ vhpet_timer_ioapic_pin t' = vhpet_timer_ioapic_pin t).
  { subst t'. destruct Ht. destruct (vhpet_periodic_timer t) eqn:Hp; [destruct (tst _ _)|];
      (split; [split; try done; first [exact (fun _ => Hp)|by cbn; apply u32_in_u|by intros Hr; specialize (t_rate0 Hr)]|done]). }
  destruct E as [E1 E2]. rewrite <- E2. by apply clr_val_set_ok.
Qed.

Lemma wp_comparator n data mask s : hpet_ok s -> is_timer n ->
  wp (write_comparator uptime callout_of n data mask) (fun _ => hpet_ok) s.
Proof.
  intros H Hn. pose proof (h_core s H) as C. pose proof (c_timers s C n Hn) as Ht.
  unfold write_comparator, timer_of, on_timer, on_hpet. wp_go. set (t := get_timer n (hpet s)) in *.
  eapply (wp_conseq _ (fun _ s' => s' <| hpet ::= set_timer n (fun t => t <| cap_config ::= fun c => clr c HPET_TCNF_VAL_SET |>) |> =
    put n (compared t data mask) s)).
  { unfold compared. apply wp_if; intros Hp; rewrite Hp.
    - wp_go. rewrite put_set by done. fold t. cbv zeta.
      apply wp_when; intros Hv; [wp_go|]; change (cap_config (t <| comprate := _ |>)) with (cap_config t); rewrite Hv;
        by rewrite ?put_put.
    - wp_go. apply wp_KASSERT; [|wp_go; rewrite (put_set n _ s) by done; fold t; by rewrite put_put].
      apply Z.eqb_eq. destruct (Z.eq_dec (comprate t) 0) as [|Hr]; [done|]. by rewrite (t_rate _ _ Ht Hr) in Hp. }
  intros _ s1 E1. wp_go. rewrite E1. destruct (compared_ok _ _ data mask Ht) as [Hok Hpin].
  destruct (core_set_timer s n (fun _ => compared t data mask) C Hn) as [C1 K1]; [done|by left|].
  change (s <| hpet ::= set_timer n (fun _ => compared t data mask) |>) with (put n (compared t data mask) s) in *.
  assert (H1 : hpet_ok (put n (compared t data mask) s)) by (by eapply kept_ok).
  apply wp_when; [|done]. intros [_ He]%andb_prop. wp_go. apply wp_counter; [done|done|].
  intros c s2 H2 K2 Ev _ _ _ _. apply wp_good; [done|]. apply wp_start_timer; [apply H2| |done]. by rewrite Ev.
Qed.

Lemma wp_write_timers offset data mask ns s : hpet_ok s -> mask in_u 64 -> Forall is_timer ns ->
  wp (write_timers uptime callout_of offset data mask ns) (fun _ => hpet_ok) s.
Proof.
  intros H Hm Hns. induction Hns as [|n ns Hn _ IH]; cbn; [by wp_go|].
  apply wp_if; intros _; [apply wp_good; [done|]; apply wp_update_config; [apply H|done|done]|].
  apply wp_if; intros _; [by apply wp_comparator|]. apply wp_if; intros _; [|done].
  apply wp_good; [done|]. unfold on_timer, on_hpet. wp_go.
  pose proof (h_core s H) as C. apply core_set_timer; [done|done| |by left]. destruct (c_timers s C n Hn). by split.
Qed.

Lemma wp_write_config data mask s : hpet_ok s -> wp (write_config uptime callout_of data mask) (fun _ => hpet_ok) s.
Proof.
  intros H. unfold write_config. wp_go. apply wp_counter; [done|done|]. intros c s1 H1 K1 Ev _ _ Hc Hval. unfold on_hpet. wp_go.
  set (s2 := s1 <| hpet ::= _ |>). assert (C2 : core_ok s2) by (destruct (h_core s1 H1); by split).
  apply wp_when; intros Hx.
  - apply wp_if; intros He; [by apply wp_start_counting|]. by apply wp_stop_counting.
  - assert (He : vhpet_counter_enabled (hpet s2) = vhpet_counter_enabled (hpet s1)).
    { unfold vhpet_counter_enabled. symmetry. change HPET_CNF_ENABLE with (bit 0). apply tst_lxor_false; [done|].
      rewrite Ev in *. exact Hx. }
    destruct H1. split; [done|..]; rewrite He; done.
Qed.

Lemma wp_main_counter data mask s : hpet_ok s -> wp (write_main_counter uptime callout_of data mask) (fun _ => hpet_ok) s.
Proof.
  intros H. unfold write_main_counter. wp_go. apply wp_counter; [done|done|]. intros c s1 H1 K1 Ev _ _ Hc _. unfold on_hpet. wp_go.
  set (s2 := s1 <| hpet ::= _ |>).
  assert (C2 : core_ok s2) by (destruct (h_core s1 H1); split; try done; cbn; apply u32_in_u).
  apply wp_when; intros He; [by apply wp_start_counting|]. destruct H1. by split.
Qed.

Lemma wp_write_isr data s : hpet_ok s -> wp (write_isr data) (fun _ => hpet_ok) s.
Proof.
  intros H. apply wp_good; [done|]. unfold write_isr. wp_go.
  eapply wp_conseq; [apply (wp_each _ (fun _ => True)); [|apply H|done]|by intros _ s' (? & ? & _)].
  intros n s' Hn%all_timers_in C' _ _. apply wp_when; intros _; [|by split; [|split; [apply kept_reflexive|]]].
  eapply wp_conseq; [by apply wp_clear_isr|]. by intros _ s'' [? ?].
Qed.

Lemma access_mask_in_u offset val size data mask : access_mask offset val size = Some (data, mask) -> mask in_u 64.
Proof.
  unfold access_mask. destruct (size =? 8); [by intros [= <- <-]|]. destruct (size =? 4); [|done].
  destruct (negb (Z.land offset 4 =? 0)); by intros [= <- <-].
Qed.

Lemma wp_handler n s : hpet_ok s -> is_timer n -> wp (vhpet_handler uptime callout_of n) (fun _ => hpet_ok) s.
Proof.
  intros H Hn. unfold vhpet_handler, on_hcallouts. wp_go. apply wp_if; intros _; [by wp_go|]. wp_go.
  apply wp_if; intros Ha; [by wp_go|]. apply negb_false_iff in Ha. wp_go. set (s1 := s <| hcallouts ::= _ |>).
  destruct (vhpet_counter_enabled (hpet s)) eqn:He; [|by rewrite (h_idle s H n He Hn) in Ha].
  assert (H1 : hpet_ok s1).
  { destruct H as [C Hc Hi]. split; [|done|].
    - apply core_callouts; [done|]. intros m Hm. by apply deactivate_ok, (c_ok s C).
    - intros m E. change (hpet s1) with (hpet s) in E. by rewrite He in E. }
  apply wp_KASSERT; [done|]. wp_go. apply wp_counter; [done|done|]. intros c s2 H2 K2 Ev _ _ _ _. wp_go.
  eapply wp_conseq; [apply wp_good; [exact H2|]; apply wp_start_timer; [apply H2|by rewrite Ev|done]|].
  intros [] s3 H3; cbv beta in H3. apply wp_good; [done|]. apply wp_interrupt; [apply H3|done].
Qed.

Lemma wp_run_hpet o s : hpet_ok s -> hop_allowed o -> wp (run_hpet uptime callout_of o) (fun _ => hpet_ok) s.
Proof.
  intros H Ha. destruct o as [gpa val size|gpa size|n]; cbn [run_hpet].
  - unfold vhpet_mmio_write. cbv zeta. destruct (access_mask _ _ _) as [[data mask]|] eqn:E; [|by wp_go].
    apply wp_if; intros _; [by wp_go|]. wp_go. eapply (wp_conseq _ (fun _ => hpet_ok)); [|intros [] s' H'; wp_go; exact H'].
    apply wp_if; intros _; [by apply wp_write_config|]. apply wp_if; intros _; [by apply wp_write_isr|].
    apply wp_if; intros _; [by apply wp_main_counter|].
    apply wp_write_timers; [done|by eapply access_mask_in_u|]. apply Forall_forall. intros n. apply all_timers_in.
  - unfold vhpet_mmio_read. cbv zeta. wp_go. eapply (wp_conseq _ (fun _ => hpet_ok)); [|intros a s' H'; wp_go; exact H'].
    do 5 (apply wp_if; intros _; [by wp_go|]). apply wp_if; intros _; [|by wp_go]. wp_go.
    apply wp_counter; [done|done|]. intros. by wp_go.
  - wp_go. eapply wp_conseq; [by apply wp_handler|]. intros. by wp_go.
Qed.

Lemma hpet_reachable_ok t w s : (forall n, is_timer n -> co_ok (callout_of n) t /\ co_active (callout_of n) t = false) ->
  (forall p, others p = hp_level p w) ->
  rtc (hpet_step uptime callout_of) (hpet_start t w) s -> hpet_ok s.
Proof.
  intros Ht Hw R. assert (H : hpet_ok (hpet_start t w)).
  { split; [split|done|]; cbn -[asserted get_timer]; try done.
    - intros n Hn. assert (E : get_timer n (vhpet_init 24) = mk_htimer 0x00f0000000008010 0 0xffffffff 0 0).
      { unfold is_timer, VHPET_NUM_TIMERS in Hn. unfold get_timer, vhpet_init. cbn [htimers].
        rewrite lookup_replicate_2 by (unfold VHPET_NUM_TIMERS; lia). done. }
      rewrite E, tst_0_l. split; try done. by left.
    - intros n Hn. by apply Ht.
    - intros p. rewrite Hw. assert (asserted p (vhpet_init 24) = 0) by done. lia.
    - intros n _ Hn. by apply Ht. }
  revert H. induction R as [|x y z [o s0 r s1 Ha E|t' s0 Ho Ha] _ IH]; intros H; [done|apply IH..].
  - exact (wp_run _ _ _ _ _ (wp_run_hpet o s0 H Ha) E).
  - destruct H as [[] Hc Hi]. split; [split|..]; cbn; try done.
    + intros n Hn. auto.
    + intros n Hd Hn. rewrite Ha. by apply Hi.
Qed.
End Safety.

(** *** The device *)
Section Device.
Context {T V : Type} `{!CalloutOps T, !CalloutLaws T, !HpetOut V, !HpetOutLaws V}.
Variables (uptime : nat -> Z) (callout_of : Z -> Z).
Hypothesis uptime_mono : forall n m, (n <= m)%nat -> uptime n <= uptime m.
Local Abbreviation S := (hmachine T V).
Implicit Types s : S.
Definition timers_free (t : T) : Prop :=
  forall n, is_timer n -> co_ok (callout_of n) t /\ co_active (callout_of n) t = false.

(** C30: whatever the guest writes to the HPET and whenever its timers expire, no
    assertion of it fails: every access and every run of the timer handler
    returns. *)
Theorem hpet_never_aborts t w s o : timers_free t -> rtc (hpet_step uptime callout_of) (hpet_start t w) s ->
  hop_allowed o -> exists r s', run_hpet uptime callout_of o s = Return (r, s').
Proof.
  intros Ht R Ha.
  pose proof (hpet_reachable_ok uptime callout_of uptime_mono (fun p => hp_level p w) t w s Ht (fun _ => eq_refl) R) as H.
  destruct (wp_elim _ _ _ (wp_run_hpet uptime callout_of uptime_mono _ o s H Ha)) as (r & s' & E & _). eauto.
Qed.

(** C31: at every reachable state the HPET holds each line of the I/O APIC asserted
    exactly as often as there are timers with their interrupt status bit set
    that are routed to it; such a timer is enabled, level-triggered and routed
    to one of the lines 20 to 23, so no line stays asserted by a timer whose
    status the guest cannot clear. *)
Theorem hpet_lines_balanced t w s : timers_free t -> rtc (hpet_step uptime callout_of) (hpet_start t w) s ->
  (forall p, hp_level p (hout s) = hp_level p w + asserted p (hpet s)) /\
  forall n, is_timer n -> tst (hisr (hpet s)) (bit n) = true ->
    let tm := get_timer n (hpet s) in
    vhpet_timer_interrupt_enabled tm = true /\ vhpet_timer_msi_enabled tm = false /\
    Z.land (cap_config tm) HPET_TCNF_INT_TYPE <> 0 /\ hpet_line (vhpet_timer_ioapic_pin tm).
Proof.
  intros Ht R.
  pose proof (hpet_reachable_ok uptime callout_of uptime_mono (fun p => hp_level p w) t w s Ht (fun _ => eq_refl) R) as [C _ _].
  split; [apply C|]. intros n Hn Hs tm. destruct (c_timers _ _ _ C n Hn) as [_ _ Hp _ _ _ Hset].
  destruct (Hset Hs) as (? & ? & ? & Hne). by destruct Hp.
Qed.

(** The timer once it is armed: a periodic one moves its comparator on. *)
Definition started (t : htimer) (counter now f : Z) : htimer :=
  let t := if negb (comprate t =? 0) then t <| compval := next_compval (compval t) (comprate t) counter |> else t in
  t <| hcallout_sbt := now + u32 (compval t - counter) * f |>.

Lemma start_timer_run others n counter now s : core_ok callout_of others s -> is_timer n ->
  let t' := started (get_timer n (hpet s)) counter now (hfreq_sbt (hpet s)) in
  vhpet_start_timer callout_of n counter now s =
    Return (tt, put n t' s <| hcallouts ::= co_reset (callout_of n) (hcallout_sbt t') |>).
Proof.
  intros C Hn t'. unfold vhpet_start_timer, timer_of, on_timer, on_hpet, on_hcallouts.
  rewrite (bind_return _ _ s _ s eq_refl). subst t'. unfold started. set (t := get_timer n (hpet s)).
  set (t1 := if negb (comprate t =? 0) then _ else t).
  rewrite (bind_return _ _ s tt (put n t1 s)).
  - erewrite !bind_return by reflexivity. rewrite (get_put _ _ _ _ _ C Hn).
    change (hfreq_sbt (hpet (put n t1 s))) with (hfreq_sbt (hpet s)). rewrite put_put. done.
  - subst t1. destruct (comprate t =? 0) eqn:E; cbn [negb when].
    + assert (E0 := put_set _ _ n (fun t => t) s C Hn). fold t in E0. rewrite <- E0. unfold skip. do 2 f_equal.
      assert (El : alter (fun t => t) (Z.to_nat n) (htimers (hpet s)) = htimers (hpet s)) by (by apply list_alter_id).
      change (s = s <| hpet ::= fun v => v <| htimers := alter (fun t => t) (Z.to_nat n) (htimers (hpet s)) |> |>).
      rewrite El. by destruct s as [[] ? ? ?].
    + unfold vhpet_adjust_compval, timer_of, on_timer, on_hpet.
      rewrite (bind_return _ _ s _ s eq_refl). fold t. rewrite KASSERT_true by (by rewrite E).
      unfold update. do 2 f_equal. by rewrite (put_set _ _ n _ s C Hn).
Qed.

(** What the interrupt of a timer does to the interrupt controllers. *)
Definition raised (t : htimer) (set : bool) : V -> V :=
  if negb (vhpet_timer_interrupt_enabled t) || set then id
  else if vhpet_timer_msi_enabled t then hp_msi (Z.shiftr (msireg t) 32) (Z.land (msireg t) 0xffffffff)
  else let pin := vhpet_timer_ioapic_pin t in
    if pin =? 0 then id
    else if Z.land (cap_config t) HPET_TCNF_INT_TYPE =? 0 then hp_pulse pin else hp_assert pin.

Lemma interrupt_run n s : exists i, vhpet_timer_interrupt n s =
  Return (tt, s <| hpet ::= fun v => v <| hisr := i |> |>
                <| hout ::= raised (get_timer n (hpet s)) (tst (hisr (hpet s)) (bit n)) |>).
Proof.
  unfold vhpet_timer_interrupt, timer_of, isr_set, raised, emit, on_hpet.
  rewrite (bind_return _ _ s _ s eq_refl). set (t := get_timer n (hpet s)).
  assert (Id : s = s <| hpet ::= fun v => v <| hisr := hisr (hpet s) |> |> <| hout ::= id |>) by (by destruct s as [[] ? ? ?]).
  destruct (vhpet_timer_interrupt_enabled t); cbn [negb orb]; [|exists (hisr (hpet s)); by rewrite <- Id].
  rewrite (bind_return _ _ s _ s eq_refl).
  destruct (tst (hisr (hpet s)) (bit n)); [exists (hisr (hpet s)); by rewrite <- Id|].
  destruct (vhpet_timer_msi_enabled t) eqn:Em; [exists (hisr (hpet s)); by destruct s as [[] ? ? ?]|].
  cbv zeta. destruct (vhpet_timer_ioapic_pin t =? 0); [exists (hisr (hpet s)); by rewrite <- Id|].
  assert (Ee : vhpet_timer_edge_trig n s = Return (Z.land (cap_config t) HPET_TCNF_INT_TYPE =? 0, s)).
  { unfold vhpet_timer_edge_trig, timer_of. rewrite (bind_return _ _ s _ s eq_refl). fold t.
    by rewrite KASSERT_true by (by rewrite Em). }
  rewrite (bind_return _ _ s _ s Ee).
  destruct (Z.land (cap_config t) HPET_TCNF_INT_TYPE =? 0); [exists (hisr (hpet s)); by destruct s as [[] ? ? ?]|].
  exists (Z.lor (hisr (hpet s)) (bit n)). done.
Qed.

(** The counter the guest reads at the uptime [t]. *)
Definition counter_at (v : vhpet) (t : Z) : Z := u32 (countbase v + (t - countbase_sbt v) / hfreq_sbt v).

Lemma next_ahead a c k : a in_u 32 -> 0 < c < 2 ^ 32 -> k in_u 32 ->
  (exists j, 1 <= j /\ next_compval a c k = u32 (a + j * c)) /\ 1 <= u32 (next_compval a c k - k) <= c.
Proof.
  intros Ha Hc Hk. set (d := u32 (k - a)). set (j := d / c + 1).
  assert (Hd : d in_u 32) by apply u32_in_u.
  assert (E : next_compval a c k = u32 (a + j * c)).
  { unfold next_compval. fold d. fold j. unfold u32. by rewrite Zplus_mod_idemp_r. }
  pose proof (Z.div_mod d c ltac:(lia)) as Hdiv. pose proof (Z.mod_pos_bound d c ltac:(lia)) as Hr.
  pose proof (Z.div_pos d c ltac:(lia) ltac:(lia)) as Hq.
  split; [exists j; split; [lia|done]|]. rewrite E.
  assert (Eu : u32 (u32 (a + j * c) - k) = j * c - d); [|lia].
  unfold u32 in *. rewrite Zminus_mod_idemp_l. subst d.
  replace (a + j * c - k) with (j * c - (k - a)) by lia. rewrite <- Zminus_mod_idemp_r.
  rewrite Z.mod_small; lia.
Qed.

Lemma deadline_spec v now x : 0 < hfreq_sbt v -> countbase_sbt v <= now -> x in_u 32 ->
  let D := now + u32 (x - counter_at v now) * hfreq_sbt v in
  counter_at v D = x /\ forall t, now <= t -> t + hfreq_sbt v <= D -> counter_at v t <> x.
Proof.
  intros Hf Hb Hx D. set (f := hfreq_sbt v) in *. set (m := u32 (x - counter_at v now)) in *.
  assert (Hm : m in_u 32) by apply u32_in_u. set (k := (now - countbase_sbt v) / f).
  assert (Ex : x = u32 (countbase v + k + m)).
  { unfold u32. subst m. unfold counter_at, u32. fold f k. rewrite Zplus_mod_idemp_r, Z.add_sub_assoc, Zminus_mod_idemp_r.
    replace (countbase v + k + x - (countbase v + k)) with x by lia. by rewrite Z.mod_small. }
  split.
  - unfold counter_at. subst D. fold f. replace (now + m * f - countbase_sbt v) with (now - countbase_sbt v + m * f) by lia.
    rewrite Z.div_add by lia. fold k. rewrite Z.add_assoc. done.
  - intros t Ht HD. unfold counter_at. fold f. set (kt := (t - countbase_sbt v) / f).
    assert (Hkt : k <= kt <= k + m - 1).
    { split; [apply Z.div_le_mono; lia|]. assert (kt < k + m); [|lia]. apply Z.div_lt_upper_bound; [lia|].
      pose proof (Z.div_mod (now - countbase_sbt v) f ltac:(lia)). pose proof (Z.mod_pos_bound (now - countbase_sbt v) f Hf).
      fold k in H. subst D. nia. }
    rewrite Ex. unfold u32. intros E.
    assert (E0 : (countbase v + k + m - (countbase v + kt)) mod 2 ^ 32 = 0) by (rewrite Zminus_mod, E, Z.sub_diag; done).
    rewrite Z.mod_small in E0 by lia. lia.
Qed.

(** when a timer's callout expires, the handler reads the counter and arms the
    callout again for the tick in which the counter will reach the
    comparator, not more than one tick late; a periodic timer first moves its
    comparator on by whole periods, to at most one period ahead of the
    counter; and the interrupt goes where the timer is configured to send
    it, unless it is disabled or still asserted. *)
Theorem hpet_fires t w s n : timers_free t -> rtc (hpet_step uptime callout_of) (hpet_start t w) s -> is_timer n ->
  co_pending (callout_of n) (hcallouts s) = false -> co_active (callout_of n) (hcallouts s) = true ->
  let tm := get_timer n (hpet s) in
  let now := uptime (hreadings s) in
  let c := counter_at (hpet s) now in
  exists s', vhpet_handler uptime callout_of n s = Return (tt, s') /\
    let tm' := get_timer n (hpet s') in
    let deadline := hcallout_sbt tm' in
    (if comprate tm =? 0 then compval tm' = compval tm
     else (exists j, 1 <= j /\ compval tm' = u32 (compval tm + j * comprate tm)) /\
          1 <= u32 (compval tm' - c) <= comprate tm) /\
    counter_at (hpet s') deadline = compval tm' /\
    (forall x, now <= x -> x + hfreq_sbt (hpet s') <= deadline -> counter_at (hpet s') x <> compval tm') /\
    hcallouts s' = co_reset (callout_of n) deadline (co_deactivate (callout_of n) (hcallouts s)) /\
    hout s' = raised tm (tst (hisr (hpet s)) (bit n)) (hout s).
Proof.
  intros Ht R Hn Hp Ha tm now c.
  pose proof (hpet_reachable_ok uptime callout_of uptime_mono (fun p => hp_level p w) t w s Ht (fun _ => eq_refl) R) as H.
  destruct (vhpet_counter_enabled (hpet s)) eqn:He; [|by rewrite (h_idle _ _ _ _ H n He Hn) in Ha].
  pose proof (h_clock _ _ _ _ H He) as Hc. pose proof (h_core _ _ _ _ H) as C. fold now in Hc.
  pose proof (c_freq _ _ _ C) as Hf. pose proof (c_timers _ _ _ C n Hn) as Htm. fold tm in Htm.
  set (s1 := s <| hcallouts ::= co_deactivate (callout_of n) |> <| hreadings ::= Datatypes.S |>).
  assert (C1 : core_ok callout_of (fun p => hp_level p w) s1).
  { destruct C. split; try done. cbn. intros m Hm. by apply deactivate_ok, c_ok0. }
  set (tm' := started tm c now (hfreq_sbt (hpet s))).
  set (s2 := put n tm' s1 <| hcallouts ::= co_reset (callout_of n) (hcallout_sbt tm') |>).
  destruct (interrupt_run n s2) as [i Ei]. eexists. split.
  - unfold vhpet_handler, on_hcallouts. rewrite (bind_return _ _ s _ s eq_refl), Hp. rewrite (bind_return _ _ s _ s eq_refl), Ha.
    cbn [negb]. erewrite bind_return by reflexivity. erewrite bind_return by reflexivity.
    rewrite KASSERT_true by exact He. erewrite (bind_return _ _ _ (c, now) s1).
    + rewrite (bind_return _ _ _ tt s2 (start_timer_run _ n c now s1 C1 Hn)). exact Ei.
    + unfold vhpet_counter. erewrite bind_return by reflexivity. cbn [hpet]. change (hpet (s <| hcallouts ::= _ |>)) with (hpet s).
      rewrite He. unfold read_uptime. erewrite bind_return by reflexivity.
      change (uptime (hreadings (s <| hcallouts ::= _ |>))) with now. cbv zeta.
      rewrite KASSERT_true by (apply Z.leb_le; lia). rewrite Z.quot_div_nonneg by lia. done.
  - cbv zeta. assert (Eg : get_timer n (hpet (s2 <| hpet ::= fun v => v <| hisr := i |> |>)) = tm').
    { change (get_timer n (hpet (put n tm' s1)) = tm'). exact (get_put _ _ n tm' s1 C1 Hn). }
    assert (Er : get_timer n (hpet s2) = tm') by exact Eg.
    change (get_timer n (hpet (_ <| hout ::= _ |>))) with (get_timer n (hpet (s2 <| hpet ::= fun v => v <| hisr := i |> |>))).
    rewrite Eg. clear Eg.
    assert (Hcomp : compval tm' in_u 32).
    { subst tm'. unfold started. destruct (comprate tm =? 0); cbn; [apply Htm|apply next_compval_in_u]. }
    assert (ED : hcallout_sbt tm' = now + u32 (compval tm' - counter_at (hpet s) now) * hfreq_sbt (hpet s)).
    { subst tm'. unfold started. by destruct (comprate tm =? 0). }
    destruct (deadline_spec (hpet s) now (compval tm') ltac:(lia) Hc Hcomp) as [D1 D2].
    rewrite <- ED in D1, D2. split; [|split; [exact D1|split; [exact D2|split; [done|]]]].
    + clear - Htm. subst tm'. unfold started. destruct (Z.eqb_spec (comprate tm) 0) as [|Hr]; [done|]. cbn [negb].
      pose proof (t_comprate _ _ Htm). apply next_ahead; [apply Htm|lia|apply u32_in_u].
    + change (raised (get_timer n (hpet s2)) (tst (hisr (hpet s)) (bit n)) (hout s) =
              raised tm (tst (hisr (hpet s)) (bit n)) (hout s)). rewrite Er. unfold raised, tm', started. by destruct (comprate tm =? 0).
Qed.
End Device.

(** ** Examples *)
Module HpetExample.

(** A clock that advances 1000 ticks of the HPET between readings. *)
Definition uptime (n : nat) : Z := 429000 * Z.of_nat n.
Local Abbreviation machine := (hmachine timers (list hpet_call)).
Definition callout_of (n : Z) : Z := n.
Definition idle : timers := fun _ => (None, false).
Local Abbreviation start := (hpet_start idle [] : machine).

Fixpoint run (ops : list hpet_op) (s : machine) : machine :=
  match ops with
  | [] => s
  | o :: ops' => match run_hpet uptime callout_of o s with Return (_, s') => run ops' s' | _ => s end
  end.

Lemma run_hops_reachable ops s : Forall hop_allowed ops -> rtc (hpet_step uptime callout_of) s (run ops s).
Proof.
  intros H. revert s. induction H as [|o ops Ho _ IH]; intros s; cbn; [done|].
  destruct (run_hpet uptime callout_of o s) as [[r s']| |] eqn:E; [|done..].
  eapply rtc_l; [by eapply hs_op|apply IH].
Qed.

Lemma uptime_grows n m : (n <= m)%nat -> uptime n <= uptime m.
Proof. unfold uptime. lia. Qed.

Lemma idle_free : timers_free callout_of idle.
Proof. done. Qed.

(** Timer 0 periodic every 5000 ticks, level-triggered on line 20; timer 1
    one-shot at tick 3000, edge-triggered on line 21; the counter enabled. *)
Definition setup : list hpet_op :=
  [ HWrite (VHPET_BASE + 0x100) 0x284e 4; HWrite (VHPET_BASE + 0x108) 5000 4;
    HWrite (VHPET_BASE + 0x120) 0x2a04 8; HWrite (VHPET_BASE + 0x128) 3000 4;
    HWrite (VHPET_BASE + 0x10) 1 4 ].
Local Abbreviation armed := (run setup start).

(** The callout thread takes the expired callouts off its queue. *)
Definition expired (s : machine) : machine :=
  s <| hcallouts := fun x => (None, co_active x (hcallouts s)) |>.

Lemma setup_allowed : Forall hop_allowed setup.
Proof. by repeat constructor. Qed.

Lemma expired_reachable ops s : Forall hop_allowed ops -> rtc (hpet_step uptime callout_of) s (expired (run ops s)).
Proof. intros H. eapply rtc_r; [by apply run_hops_reachable|]. by apply hs_timers. Qed.

(** The periodic timer raises its line once; clearing the status lowers it. *)
Lemma line_held :
  let s := run [HFire 0; HFire 1] (expired armed) in
  hout s = [HpPulse 21; HpAssert 20] /\ asserted 20 (hpet s) = 1 /\
  hout (run [HWrite (VHPET_BASE + 0x20) 1 4] s) = [HpDeassert 20; HpPulse 21; HpAssert 20].
Proof. vm_compute. done. Qed.

(** A one-shot timer whose handler runs within the tick of its comparator is
    armed again for the same moment. *)
Lemma one_shot_armed_again :
  let s := run [HFire 1] (expired (run [HRead (VHPET_BASE + 0xf0) 4; HRead (VHPET_BASE + 0xf0) 4] armed)) in
  compval (get_timer 1 (hpet s)) = counter_at (hpet s) (uptime 3) /\ hcallout_sbt (get_timer 1 (hpet s)) = uptime 3 /\
  hout s = [HpPulse 21].
Proof. vm_compute. done. Qed.

(** Starting the counter moves a comparator that is ahead of it: the first
    interrupt of the periodic timer comes after 2704 ticks, not 5000. *)
Lemma first_period_short : compval (get_timer 0 (hpet armed)) = 2704 /\ comprate (get_timer 0 (hpet armed)) = 5000.
Proof. vm_compute. done. Qed.

Lemma hpet_never_aborts_witness : exists r s', run_hpet uptime callout_of (HFire 0) (expired armed) = Return (r, s').
Proof.
  apply (hpet_never_aborts uptime callout_of uptime_grows idle [] (expired armed) (HFire 0) idle_free);
    [apply expired_reachable, setup_allowed|done].
Defined.

Lemma hpet_lines_balanced_witness :
  hp_level 20 (hout (run [HFire 0] (expired armed))) = 0 + 1.
Proof.
  assert (R : rtc (hpet_step uptime callout_of) start (run [HFire 0] (expired armed))).
  { etrans; [apply expired_reachable, setup_allowed|]. apply run_hops_reachable. by repeat constructor. }
  rewrite (proj1 (hpet_lines_balanced uptime callout_of uptime_grows idle [] _ idle_free R) 20). reflexivity.
Defined.

Lemma hpet_fires_witness : exists s', vhpet_handler uptime callout_of 0 (expired armed) = Return (tt, s') /\
  counter_at (hpet s') (hcallout_sbt (get_timer 0 (hpet s'))) = compval (get_timer 0 (hpet s')).
Proof.
  destruct (hpet_fires uptime callout_of uptime_grows idle [] (expired armed) 0 idle_free) as (s' & E & _ & D & _);
    [apply expired_reachable, setup_allowed|done|reflexivity|reflexivity|].
  exists s'. split; [exact E|exact D].
Defined.
End HpetExample.
