(* ===== verification/PciIrq.v ===== *)
(** * PCI interrupts (src/src/pci_irq.c, src/src/ioapic.c and the INTx part of
      src/src/pci_emul.c)

    A PCI device asks for an interrupt on one of four pins of its slot; the pin
    is wired to one of eight PIRQ links, which the guest routes to an interrupt
    of the 8259 pair, and to a pin of the I/O APIC.  Several devices can share a
    link.  [intx] is the router, the slots' pins, and the INTx state of the
    devices ([pi_lintr] of [struct pci_devinst], with what
    [pci_lintr_permitted] computes from the device's registers in
    [l_permitted]).  Each entry point runs under the device's or the link's
    lock and is one command; a failing [assert] is [Panic]. *)

From S2P Require Import Prelude Effects Interface.
Local Open Scope cmd_scope.

Definition PIRQ_DIS : Z := 0x80.
Definition PIRQ_IRQ : Z := 0x0f.
Definition PERMITTED_IRQS : Z := 0xdef8.
Definition IRQ_PERMITTED (irq : Z) : bool := negb (Z.land (bit irq) PERMITTED_IRQS =? 0).
Definition IRQ_DISABLED : Z := 0xff.

Record pirq : Type := mk_pirq { preg : Z; use_count : Z; active_count : Z }.
#[export] Instance eta_pirq : Eta pirq := fun p => mk_pirq (preg p) (use_count p) (active_count p).

Inductive lintr_stat : Type := IDLE | ASSERTED | PENDING.
#[export] Instance lintr_stat_eq_dec : EqDecision lintr_stat.
Proof. solve_decision. Defined.

Record lintr : Type := mk_lintr {
  l_pin : Z;
  l_state : lintr_stat;
  l_pirq_pin : Z;
  l_ioapic_irq : Z;
  l_permitted : bool;
}.
#[export] Instance eta_lintr : Eta lintr := fun l =>
  mk_lintr (l_pin l) (l_state l) (l_pirq_pin l) (l_ioapic_irq l) (l_permitted l).

(** What the router asks of the two interrupt controllers: [xh_vm_isa_assert_irq],
    [xh_vm_isa_deassert_irq], [xh_vm_isa_set_irq_trigger], [xh_vm_ioapic_assert_irq]
    and [xh_vm_ioapic_deassert_irq].  What a controller does with a call is its
    own affair: the 8259 ignores calls while it is being initialised. *)
Class IntxOut (V : Type) := {
  isa_assert : Z -> Z -> V -> V;
  isa_deassert : Z -> Z -> V -> V;
  isa_trigger : Z -> vm_intr_trigger -> V -> V;
  ioapic_assert : Z -> V -> V;
  ioapic_deassert : Z -> V -> V;
}.

(** The calls as data, the last one first. *)
Inductive intx_call : Type :=
| IsaAssert (atpic ioapic : Z) | IsaDeassert (atpic ioapic : Z) | IsaTrigger (irq : Z) (t : vm_intr_trigger)
| IoapicAssert (irq : Z) | IoapicDeassert (irq : Z).

#[export] Instance log_intx : IntxOut (list intx_call) := {
  isa_assert a i l := IsaAssert a i :: l;
  isa_deassert a i l := IsaDeassert a i :: l;
  isa_trigger a t l := IsaTrigger a t :: l;
  ioapic_assert i l := IoapicAssert i :: l;
  ioapic_deassert i l := IoapicDeassert i :: l;
}.

Section Calls.
Context {V : Type} `{!IntxOut V}.

Definition make_call (c : intx_call) : V -> V :=
  match c with
  | IsaAssert a i => isa_assert a i
  | IsaDeassert a i => isa_deassert a i
  | IsaTrigger a t => isa_trigger a t
  | IoapicAssert i => ioapic_assert i
  | IoapicDeassert i => ioapic_deassert i
  end.

Definition make_calls (log : list intx_call) (w : V) : V := foldr make_call w log.

Lemma make_calls_app l1 l2 w : make_calls (l1 ++ l2) w = make_calls l1 (make_calls l2 w).
Proof. apply foldr_app. Qed.
End Calls.

(** Asserts minus deasserts that were called for an interrupt of the 8259 pair
    and for a pin of the I/O APIC; [xh_vm_isa_assert_irq] leaves the second
    alone when it is -1. *)
Definition both (ioapic_irq pin : Z) : Z := b2z (negb (ioapic_irq =? -1) && (ioapic_irq =? pin)).

Definition pic_delta (q : Z) (c : intx_call) : Z :=
  match c with IsaAssert a _ => b2z (a =? q) | IsaDeassert a _ => - b2z (a =? q) | _ => 0 end.
Definition io_delta (q : Z) (c : intx_call) : Z :=
  match c with
  | IsaAssert _ i => both i q | IsaDeassert _ i => - both i q
  | IoapicAssert i => b2z (i =? q) | IoapicDeassert i => - b2z (i =? q)
  | IsaTrigger _ _ => 0
  end.
Definition pic_calls (q : Z) (log : list intx_call) : Z := foldr Z.add 0 (pic_delta q <$> log).
Definition io_calls (q : Z) (log : list intx_call) : Z := foldr Z.add 0 (io_delta q <$> log).

Record intx (V : Type) : Type := mk_intx {
  pirqs : list pirq;
  irq_counts : list Z;
  pirq_cold : bool;
  pci_pins : Z;
  last_pin : Z;
  devs : list lintr;
  xout : V;
}.
Arguments mk_intx {V}.
Arguments pirqs {V}.
Arguments irq_counts {V}.
Arguments pirq_cold {V}.
Arguments pci_pins {V}.
Arguments last_pin {V}.
Arguments devs {V}.
Arguments xout {V}.
#[export] Instance eta_intx V : Eta (intx V) := fun s =>
  mk_intx (pirqs s) (irq_counts s) (pirq_cold s) (pci_pins s) (last_pin s) (devs s) (xout s).

Definition pirq_valid_irq (reg : Z) : bool :=
  if negb (Z.land reg PIRQ_DIS =? 0) then false else IRQ_PERMITTED (Z.land reg PIRQ_IRQ).

Definition NPIRQS : Z := 8.
Definition pirq_none : pirq := mk_pirq 0 0 0.
Definition lintr_none : lintr := mk_lintr 0 IDLE 0 0 false.

Section Router.
Context {V : Type} `{!IntxOut V}.
Local Abbreviation S := (intx V).
Local Abbreviation M := (cmd S).

(** [pirqs[i]]. *)
Definition get_pirq (i : Z) (s : S) : pirq := default pirq_none (pirqs s !! Z.to_nat i).
Definition on_pirq (i : Z) (f : pirq -> pirq) : M unit := update (fun s => s <| pirqs ::= alter f (Z.to_nat i) |>).
Definition xemit (f : V -> V) : M unit := update (fun s => s <| xout ::= f |>).
Definition get_dev (d : Z) (s : S) : lintr := default lintr_none (devs s !! Z.to_nat d).
Definition on_dev (d : Z) (f : lintr -> lintr) : M unit := update (fun s => s <| devs ::= alter f (Z.to_nat d) |>).

Definition pirq_pin_ok (pin : Z) : bool := (0 <? pin) && (pin <=? NPIRQS).

Definition pirq_read (pin : Z) : M Z :=
  KASSERT (pirq_pin_ok pin) ;;; gets (fun s => preg (get_pirq (pin - 1) s)).

Definition pirq_write (pin val : Z) : M unit :=
  KASSERT (pirq_pin_ok pin) ;;;
  p <- gets (get_pirq (pin - 1)) ;;
  let new := Z.land val (Z.lor PIRQ_DIS PIRQ_IRQ) in
  when (negb (preg p =? new)) (
    when (negb (active_count p =? 0) && pirq_valid_irq (preg p))
      (xemit (isa_deassert (Z.land (preg p) PIRQ_IRQ) (-1))) ;;;
    on_pirq (pin - 1) (fun p => p <| preg := new |>) ;;;
    when (negb (active_count p =? 0) && pirq_valid_irq new)
      (xemit (isa_assert (Z.land new PIRQ_IRQ) (-1)))).

Definition get_count (irq : Z) (s : S) : Z := default 0 (irq_counts s !! Z.to_nat irq).
Definition set_count (irq n : Z) : M unit := update (fun s => s <| irq_counts ::= <[Z.to_nat irq := n]> |>).

Definition pci_irq_reserve (irq : Z) : M unit :=
  KASSERT ((0 <=? irq) && (irq <? 16)) ;;;
  cold <- gets pirq_cold ;;
  KASSERT cold ;;;
  n <- gets (get_count irq) ;;
  KASSERT ((n =? 0) || (n =? IRQ_DISABLED)) ;;;
  set_count irq IRQ_DISABLED.

Definition pci_irq_use (irq : Z) : M unit :=
  KASSERT ((0 <=? irq) && (irq <? 16)) ;;;
  cold <- gets pirq_cold ;;
  KASSERT cold ;;;
  n <- gets (get_count irq) ;;
  KASSERT (negb (n =? IRQ_DISABLED)) ;;;
  set_count irq (u8 (n + 1)).

Definition pci_irq_init : M unit := update (fun s =>
  s <| pirqs := replicate (Z.to_nat NPIRQS) (mk_pirq PIRQ_DIS 0 0) |>
    <| irq_counts := (fun i => if IRQ_PERMITTED i then 0 else IRQ_DISABLED) <$> seqZ 0 16 |>).

Definition pci_irq_assert (d : Z) : M unit :=
  l <- gets (get_dev d) ;;
  if 0 <? l_pirq_pin l then
    KASSERT (l_pirq_pin l <=? NPIRQS) ;;;
    let i := l_pirq_pin l - 1 in
    on_pirq i (fun p => p <| active_count ::= fun n => n + 1 |>) ;;;
    p <- gets (get_pirq i) ;;
    if (active_count p =? 1) && pirq_valid_irq (preg p)
    then xemit (isa_assert (Z.land (preg p) PIRQ_IRQ) (l_ioapic_irq l))
    else xemit (ioapic_assert (l_ioapic_irq l))
  else xemit (ioapic_assert (l_ioapic_irq l)).

Definition pci_irq_deassert (d : Z) : M unit :=
  l <- gets (get_dev d) ;;
  if 0 <? l_pirq_pin l then
    KASSERT (l_pirq_pin l <=? NPIRQS) ;;;
    let i := l_pirq_pin l - 1 in
    on_pirq i (fun p => p <| active_count ::= fun n => n - 1 |>) ;;;
    p <- gets (get_pirq i) ;;
    if (active_count p =? 0) && pirq_valid_irq (preg p)
    then xemit (isa_deassert (Z.land (preg p) PIRQ_IRQ) (l_ioapic_irq l))
    else xemit (ioapic_deassert (l_ioapic_irq l))
  else xemit (ioapic_deassert (l_ioapic_irq l)).

(** The least-used pin: the first of those with the smallest count. *)
Fixpoint least_used (ps : list pirq) (pin best_pin best_count : Z) : Z :=
  match ps with
  | [] => best_pin
  | p :: ps' =>
      if use_count p <? best_count then least_used ps' (pin + 1) pin (use_count p)
      else least_used ps' (pin + 1) best_pin best_count
  end.

Fixpoint best_irq (counts : list Z) (irq best best_count : Z) : Z :=
  match counts with
  | [] => best
  | n :: counts' =>
      if n =? IRQ_DISABLED then best_irq counts' (irq + 1) best best_count
      else if (best =? -1) || (n <? best_count) then best_irq counts' (irq + 1) irq n
      else best_irq counts' (irq + 1) best best_count
  end.

Definition pirq_alloc_pin : M Z :=
  update (fun s => s <| pirq_cold := false |>) ;;;
  best_pin <- gets (fun s => least_used (tail (pirqs s)) 1 0 (use_count (get_pirq 0 s))) ;;
  on_pirq best_pin (fun p => p <| use_count ::= fun n => n + 1 |>) ;;;
  p <- gets (get_pirq best_pin) ;;
  when (preg p =? PIRQ_DIS) (
    irq <- gets (fun s => best_irq (irq_counts s) 0 (-1) 0) ;;
    KASSERT (0 <=? irq) ;;;
    n <- gets (get_count irq) ;;
    set_count irq (u8 (n + 1)) ;;;
    on_pirq best_pin (fun p => p <| preg := u8 irq |>) ;;;
    xemit (isa_trigger irq LEVEL_TRIGGER)) ;;;
  ret (best_pin + 1).

Definition pirq_irq (pin : Z) : M Z :=
  KASSERT (pirq_pin_ok pin) ;;; gets (fun s => Z.land (preg (get_pirq (pin - 1) s)) PIRQ_IRQ).

(** ** ioapic.c *)

(** [pincount] is [xh_vm_ioapic_pincount()]. *)
Definition ioapic_init (pincount : Z) : M unit :=
  update (fun s => s <| pci_pins := if pincount <=? 16 then 0 else pincount - 16 |>).

Definition ioapic_pci_alloc_irq : M Z :=
  n <- gets pci_pins ;;
  if n =? 0 then ret (-1)
  else
    k <- gets last_pin ;;
    update (fun s => s <| last_pin := k + 1 |>) ;;;
    ret (16 + Z.rem k n).

(** ** The INTx state of a device (pci_emul.c) *)

Definition pci_lintr_assert (d : Z) : M unit :=
  l <- gets (get_dev d) ;;
  KASSERT (0 <? l_pin l) ;;;
  when (bool_decide (l_state l = IDLE))
    (if l_permitted l then on_dev d (fun l => l <| l_state := ASSERTED |>) ;;; pci_irq_assert d
     else on_dev d (fun l => l <| l_state := PENDING |>)).

Definition pci_lintr_deassert (d : Z) : M unit :=
  l <- gets (get_dev d) ;;
  KASSERT (0 <? l_pin l) ;;;
  if bool_decide (l_state l = ASSERTED) then
    on_dev d (fun l => l <| l_state := IDLE |>) ;;; pci_irq_deassert d
  else when (bool_decide (l_state l = PENDING)) (on_dev d (fun l => l <| l_state := IDLE |>)).

Definition pci_lintr_update (d : Z) : M unit :=
  l <- gets (get_dev d) ;;
  if bool_decide (l_state l = ASSERTED) && negb (l_permitted l) then
    pci_irq_deassert d ;;; on_dev d (fun l => l <| l_state := PENDING |>)
  else when (bool_decide (l_state l = PENDING) && l_permitted l)
    (on_dev d (fun l => l <| l_state := ASSERTED |>) ;;; pci_irq_assert d).
End Router.

(** ** Balance *)

Definition total {A} (f : A -> Z) (l : list A) : Z := foldr (fun x a => f x + a) 0 l.

Lemma total_alter {A} (f : A -> Z) (g : A -> A) l i x : l !! i = Some x ->
  total f (alter g i l) = total f l + f (g x) - f x.
Proof.
  revert i. induction l as [|y l IH]; intros [|i] H; try done.
  - injection H as ->. change (f (g x) + total f l = f x + total f l + f (g x) - f x). lia.
  - change (f y + total f (alter g i l) = f y + total f l + f (g x) - f x). rewrite (IH i H). lia.
Qed.

Lemma total_nonneg {A} (f : A -> Z) l : (forall x, 0 <= f x) -> 0 <= total f l.
Proof. intros H. induction l as [|x l IH]; cbn; [done|]. specialize (H x). unfold total in IH. lia. Qed.

(** What one device contributes to the count of a link and to a pin of the I/O
    APIC, and what one link contributes to an interrupt of the 8259 pair. *)
Definition on_link (pin : Z) (l : lintr) : Z := b2z (bool_decide (l_state l = ASSERTED) && (l_pirq_pin l =? pin)).
Definition on_ioapic_pin (q : Z) (l : lintr) : Z := b2z (bool_decide (l_state l = ASSERTED) && (l_ioapic_irq l =? q)).
Definition on_pic (q : Z) (p : pirq) : Z :=
  b2z (negb (active_count p =? 0) && (pirq_valid_irq (preg p) && (Z.land (preg p) PIRQ_IRQ =? q))).

(** A device that has been routed. *)
Definition routed (l : lintr) : Prop := 0 < l_pin l /\ 0 <= l_pirq_pin l <= NPIRQS /\ 0 <= l_ioapic_irq l.

Inductive intx_op : Type :=
| XAssert (d : Z) | XDeassert (d : Z) | XUpdate (d : Z) | XPermit (d : Z) (b : bool) | XRoute (pin val : Z).

Section Balance.
Context {V : Type} `{!IntxOut V}.
Local Abbreviation S := (intx V).
Implicit Types s : S.

(** The devices' requests, the guest's writes to their interrupt disable bits
    (first the register, then the update), and its writes to the routers. *)
Definition run_intx (o : intx_op) : cmd S unit :=
  match o with
  | XAssert d => pci_lintr_assert d
  | XDeassert d => pci_lintr_deassert d
  | XUpdate d => pci_lintr_update d
  | XPermit d b => on_dev d (fun l => l <| l_permitted := b |>)
  | XRoute pin val => pirq_write pin val
  end.
Definition intx_allowed (o : intx_op) (s : S) : Prop :=
  match o with
  | XAssert d | XDeassert d | XUpdate d | XPermit d _ => 0 <= d < Z.of_nat (length (devs s))
  | XRoute pin _ => 1 <= pin <= NPIRQS
  end.
Inductive intx_step : S -> S -> Prop :=
| xs_op o s s' : intx_allowed o s -> run_intx o s = Return (tt, s') -> intx_step s s'.

(** The state after set-up: no interrupt asserted. *)
Record intx_fresh (s : S) : Prop := {
  fr_pirqs : length (pirqs s) = 8%nat;
  fr_active i : 0 <= i < NPIRQS -> active_count (get_pirq i s) = 0;
  fr_devs l : l ∈ devs s -> routed l /\ l_state l = IDLE;
}.

(** The controllers at set-up. *)
Variable w0 : V.

(** [log] are the calls made since. *)
Record called (log : list intx_call) (ds : list lintr) (s : S) : Prop := {
  c_out : xout s = make_calls log w0;
  c_pic q : pic_calls q log = total (on_pic q) (pirqs s);
  c_io q : io_calls q log = total (on_ioapic_pin q) ds;
}.

(** [ds] are the devices as the links and the controllers see them. *)
Record balanced (ds : list lintr) (s : S) : Prop := {
  b_length : length (pirqs s) = 8%nat;
  b_active i : 0 <= i < NPIRQS -> active_count (get_pirq i s) = total (on_link (i + 1)) ds;
  b_calls : exists log, called log ds s;
}.

Lemma pirq_lookup i s : length (pirqs s) = 8%nat -> 0 <= i < NPIRQS -> pirqs s !! Z.to_nat i = Some (get_pirq i s).
Proof.
  intros Hl Hi. unfold get_pirq, NPIRQS in *. destruct (lookup_lt_is_Some_2 (pirqs s) (Z.to_nat i)) as [p Hp]; [lia|].
  by rewrite Hp.
Qed.

Lemma get_pirq_alter i j f s : length (pirqs s) = 8%nat -> 0 <= i < NPIRQS -> 0 <= j < NPIRQS ->
  get_pirq j (s <| pirqs ::= alter f (Z.to_nat i) |>) = if j =? i then f (get_pirq i s) else get_pirq j s.
Proof.
  intros Hl Hi Hj. unfold get_pirq at 1. cbn. destruct (Z.eqb_spec j i) as [-> |Hne].
  - by rewrite list_lookup_alter_eq, (pirq_lookup i s Hl Hi).
  - rewrite list_lookup_alter_ne by lia. done.
Qed.

Lemma irq_range reg : 0 <= Z.land reg PIRQ_IRQ < 16.
Proof. change 16 with (2 ^ 4). apply land_in_u_r; [lia|done]. Qed.

(** Moving device [k] into or out of the asserted state, with the link's count
    and the two controllers following. *)
Lemma balanced_move ds s k d st c : balanced ds s -> ds !! k = Some d -> routed d ->
  let move := b2z (bool_decide (st = ASSERTED)) - b2z (bool_decide (l_state d = ASSERTED)) in
  let i := l_pirq_pin d - 1 in
  let p := get_pirq i s in
  let p' := p <| active_count ::= fun n => n + move |> in
  (forall q, io_delta q c = move * b2z (l_ioapic_irq d =? q)) ->
  (forall q, pic_delta q c = if 0 <? l_pirq_pin d then on_pic q p' - on_pic q p else 0) ->
  balanced (alter (fun l => l <| l_state := st |>) k ds)
    ((if 0 <? l_pirq_pin d then s <| pirqs ::= alter (fun p => p <| active_count ::= fun n => n + move |>) (Z.to_nat i) |> else s)
       <| xout := make_call c (xout s) |>).
Proof.
  intros [Hl Ha (log & [Hout Hpic Hioa])] Hk (_ & Hp & Hi) move i p p' Hw Hwp.
  assert (Hlink : forall pin, total (on_link pin) (alter (fun l => l <| l_state := st |>) k ds) =
    total (on_link pin) ds + move * b2z (l_pirq_pin d =? pin)).
  { intros pin. rewrite (total_alter _ _ _ _ _ Hk). unfold on_link, move. cbn.
    destruct (bool_decide (st = ASSERTED)), (bool_decide (l_state d = ASSERTED)), (l_pirq_pin d =? pin); cbn; lia. }
  assert (Hio : forall q, total (on_ioapic_pin q) (alter (fun l => l <| l_state := st |>) k ds) =
    total (on_ioapic_pin q) ds + move * b2z (l_ioapic_irq d =? q)).
  { intros pin. rewrite (total_alter _ _ _ _ _ Hk). unfold on_ioapic_pin, move. cbn.
    destruct (bool_decide (st = ASSERTED)), (bool_decide (l_state d = ASSERTED)), (l_ioapic_irq d =? pin); cbn; lia. }
  assert (Hc : forall ps, (forall q, pic_delta q c + total (on_pic q) (pirqs s) = total (on_pic q) ps) ->
    forall s', pirqs s' = ps -> xout s' = make_call c (xout s) ->
    called (c :: log) (alter (fun l => l <| l_state := st |>) k ds) s').
  { intros ps Hps s' Es Ew. split.
    - by rewrite Ew, Hout.
    - intros q. rewrite Es, <- Hps, <- Hpic. done.
    - intros q. rewrite Hio, <- Hioa, Z.add_comm, <- Hw. done. }
  destruct (Z.ltb_spec 0 (l_pirq_pin d)) as [Hpos|Hz].
  - assert (Hi' : 0 <= i < NPIRQS) by (unfold i; lia). split.
    + cbn. by rewrite length_alter.
    + intros j Hj. change (get_pirq j (_ <| xout := _ |>)) with (get_pirq j (s <| pirqs ::= alter (fun p => p <| active_count ::= fun n => n + move |>) (Z.to_nat i) |>)).
      rewrite get_pirq_alter, Hlink by done. destruct (Z.eqb_spec j i) as [-> |Hne].
      * rewrite (proj2 (Z.eqb_eq (l_pirq_pin d) (i + 1))) by (unfold i; lia). rewrite <- (Ha i Hi'). cbn. lia.
      * rewrite (proj2 (Z.eqb_neq (l_pirq_pin d) (j + 1))) by (unfold i in Hne; lia). rewrite (Ha j Hj). cbn. lia.
    + exists (c :: log). apply (Hc (alter (fun p => p <| active_count ::= fun n => n + move |>) (Z.to_nat i) (pirqs s))); [|done..]. intros q.
      rewrite (total_alter _ _ _ _ _ (pirq_lookup i s Hl Hi')), Hwp. fold p. fold p'. lia.
  - split; [done|..].
    + intros j Hj. change (active_count (get_pirq j s) = total (on_link (j + 1)) (alter (fun l => l <| l_state := st |>) k ds)).
      rewrite (Ha j Hj), Hlink, (proj2 (Z.eqb_neq (l_pirq_pin d) (j + 1))) by lia. cbn. lia.
    + exists (c :: log). apply (Hc (pirqs s)); [|done..]. intros q. rewrite Hwp. lia.
Qed.

Lemma active_nonneg ds s i : balanced ds s -> 0 <= i < NPIRQS -> 0 <= active_count (get_pirq i s).
Proof.
  intros B Hi. rewrite (b_active _ _ B i Hi). apply total_nonneg. intros l. unfold on_link. by destruct (_ && _).
Qed.

Lemma both_pin i q : 0 <= i -> both i q = b2z (i =? q).
Proof. intros Hi. unfold both. by rewrite (proj2 (Z.eqb_neq i (-1))) by lia. Qed.

Lemma pic_raise q p : 0 <= active_count p ->
  on_pic q (p <| active_count ::= fun n => n + 1 |>) - on_pic q p =
  if (active_count p + 1 =? 1) && pirq_valid_irq (preg p) then b2z (Z.land (preg p) PIRQ_IRQ =? q) else 0.
Proof.
  intros H. unfold on_pic. cbn.
  destruct (Z.eqb_spec (active_count p + 1) 0), (Z.eqb_spec (active_count p) 0), (Z.eqb_spec (active_count p + 1) 1),
    (pirq_valid_irq (preg p)), (Z.land (preg p) PIRQ_IRQ =? q); cbn; lia.
Qed.

Lemma pic_lower q p : 0 < active_count p ->
  on_pic q (p <| active_count ::= fun n => n + -1 |>) - on_pic q p =
  if (active_count p + -1 =? 0) && pirq_valid_irq (preg p) then - b2z (Z.land (preg p) PIRQ_IRQ =? q) else 0.
Proof.
  intros H. unfold on_pic. cbn.
  destruct (Z.eqb_spec (active_count p + -1) 0), (Z.eqb_spec (active_count p) 0),
    (pirq_valid_irq (preg p)), (Z.land (preg p) PIRQ_IRQ =? q); cbn; lia.
Qed.

Local Abbreviation moved k st ds := (alter (fun l => l <| l_state := st |>) k ds).

Lemma wp_irq_assert d k s ds : balanced ds s -> ds !! k = Some d -> routed d -> l_state d <> ASSERTED ->
  l_pirq_pin (get_dev (Z.of_nat k) s) = l_pirq_pin d -> l_ioapic_irq (get_dev (Z.of_nat k) s) = l_ioapic_irq d ->
  wp (pci_irq_assert (Z.of_nat k)) (fun _ s' => balanced (moved k ASSERTED ds) s' /\ devs s' = devs s) s.
Proof.
  intros B Hk Hr Hst Ep Ei. pose proof Hr as (_ & Hp & Hi).
  pose proof (balanced_move ds s k d ASSERTED) as Hm. cbv zeta in Hm.
  rewrite (bool_decide_eq_true_2 (ASSERTED = ASSERTED)), (bool_decide_eq_false_2 (l_state d = ASSERTED)) in Hm by done.
  change (b2z true - b2z false) with 1 in Hm. unfold pci_irq_assert, on_pirq, xemit. wp_go. rewrite Ep, Ei.
  apply wp_if; intros Hpos; rewrite Hpos in Hm; wp_go.
  2: { split; [|done]. apply (Hm (IoapicAssert (l_ioapic_irq d)) B Hk Hr); intros q; cbn; lia. }
  apply Z.ltb_lt in Hpos. apply wp_KASSERT; [apply Z.leb_le; lia|]. wp_go.
  assert (Hi' : 0 <= l_pirq_pin d - 1 < NPIRQS) by lia. pose proof (active_nonneg ds s _ B Hi') as Hn.
  rewrite get_pirq_alter, Z.eqb_refl by (try done; apply B). set (p := get_pirq (l_pirq_pin d - 1) s) in *.
  change (preg (p <| active_count ::= _ |>)) with (preg p).
  change (active_count (p <| active_count ::= _ |>)) with (active_count p + 1).
  apply wp_if; intros Hc; wp_go; (split; [|done]).
  - apply (Hm (IsaAssert (Z.land (preg p) PIRQ_IRQ) (l_ioapic_irq d)) B Hk Hr); intros q; rewrite ?pic_raise, ?Hc by done.
    + cbn. rewrite both_pin by lia. lia.
    + done.
  - apply (Hm (IoapicAssert (l_ioapic_irq d)) B Hk Hr); intros q; rewrite ?pic_raise, ?Hc by done; cbn; lia.
Qed.

Lemma wp_irq_deassert d k s ds st : balanced ds s -> ds !! k = Some d -> routed d -> l_state d = ASSERTED -> st <> ASSERTED ->
  l_pirq_pin (get_dev (Z.of_nat k) s) = l_pirq_pin d -> l_ioapic_irq (get_dev (Z.of_nat k) s) = l_ioapic_irq d ->
  wp (pci_irq_deassert (Z.of_nat k)) (fun _ s' => balanced (moved k st ds) s' /\ devs s' = devs s) s.
Proof.
  intros B Hk Hr Hst Hne Ep Ei. pose proof Hr as (_ & Hp & Hi).
  pose proof (balanced_move ds s k d st) as Hm. cbv zeta in Hm.
  rewrite (bool_decide_eq_false_2 (st = ASSERTED)), (bool_decide_eq_true_2 (l_state d = ASSERTED)) in Hm by done.
  change (b2z false - b2z true) with (-1) in Hm. unfold pci_irq_deassert, on_pirq, xemit. wp_go. rewrite Ep, Ei.
  apply wp_if; intros Hpos; rewrite Hpos in Hm; wp_go.
  2: { split; [|done]. apply (Hm (IoapicDeassert (l_ioapic_irq d)) B Hk Hr); intros q; cbn; lia. }
  apply Z.ltb_lt in Hpos. apply wp_KASSERT; [apply Z.leb_le; lia|]. wp_go.
  assert (Hi' : 0 <= l_pirq_pin d - 1 < NPIRQS) by lia.
  assert (Hn : 0 < active_count (get_pirq (l_pirq_pin d - 1) s)).
  { rewrite (b_active _ _ B _ Hi').
    assert (Hz := total_alter (on_link (l_pirq_pin d - 1 + 1)) (fun l => l <| l_state := IDLE |>) ds k d Hk). cbv beta in Hz.
    assert (on_link (l_pirq_pin d - 1 + 1) d = 1).
    { unfold on_link. rewrite bool_decide_eq_true_2 by done. rewrite (proj2 (Z.eqb_eq _ _)) by lia. done. }
    assert (on_link (l_pirq_pin d - 1 + 1) (d <| l_state := IDLE |>) = 0) by done.
    assert (0 <= total (on_link (l_pirq_pin d - 1 + 1)) (alter (fun l => l <| l_state := IDLE |>) k ds)).
    { apply total_nonneg. intros l. unfold on_link. by destruct (_ && _). }
    lia. }
  rewrite get_pirq_alter, Z.eqb_refl by (try done; apply B). set (p := get_pirq (l_pirq_pin d - 1) s) in *.
  change (preg (p <| active_count ::= _ |>)) with (preg p).
  change (active_count (p <| active_count ::= _ |>)) with (active_count p + -1).
  apply wp_if; intros Hc; wp_go; (split; [|done]).
  - apply (Hm (IsaDeassert (Z.land (preg p) PIRQ_IRQ) (l_ioapic_irq d)) B Hk Hr); intros q; rewrite ?pic_lower, ?Hc by done.
    + cbn. rewrite both_pin by lia. lia.
    + done.
  - apply (Hm (IoapicDeassert (l_ioapic_irq d)) B Hk Hr); intros q; rewrite ?pic_lower, ?Hc by done; cbn; lia.
Qed.

(** The whole state: the devices are the ones the links count. *)
Record intx_ok s : Prop := {
  x_bal : balanced (devs s) s;
  x_devs l : l ∈ devs s -> routed l;
}.

Lemma dev_lookup d s : 0 <= d < Z.of_nat (length (devs s)) -> devs s !! Z.to_nat d = Some (get_dev d s).
Proof.
  intros Hd. unfold get_dev. destruct (lookup_lt_is_Some_2 (devs s) (Z.to_nat d)) as [l Hl]; [lia|]. by rewrite Hl.
Qed.

Lemma balanced_devs ds ds' s : balanced ds s -> balanced ds (s <| devs := ds' |>).
Proof. intros [? ? (log & [])]. split; [done..|]. by exists log. Qed.

Lemma routed_alter f k s : (forall l, l ∈ devs s -> routed l) -> (forall l, routed l -> routed (f l)) ->
  forall l, l ∈ alter f k (devs s) -> routed l.
Proof.
  intros H Hf l [i Hi]%list_elem_of_lookup. rewrite list_lookup_alter in Hi. case_decide.
  - destruct (devs s !! k) as [x|] eqn:E; [|done]. injection Hi as <-. apply Hf, H. by eapply list_elem_of_lookup_2.
  - apply H. by eapply list_elem_of_lookup_2.
Qed.

(** A change of a device that the links do not see. *)
Lemma ok_same_link d f s : intx_ok s -> 0 <= d < Z.of_nat (length (devs s)) ->
  (forall l, routed l -> routed (f l)) ->
  (forall q, on_link q (f (get_dev d s)) = on_link q (get_dev d s)) ->
  (forall q, on_ioapic_pin q (f (get_dev d s)) = on_ioapic_pin q (get_dev d s)) ->
  intx_ok (s <| devs ::= alter f (Z.to_nat d) |>).
Proof.
  intros [[Hl Ha (log & [Ho Hp Hi])] Hd] Hr Hf El Ei. pose proof (dev_lookup d s Hr) as Hk. split; [split; [done|..]|].
  - intros i Hi'. change (active_count (get_pirq i s) = total (on_link (i + 1)) (alter f (Z.to_nat d) (devs s))).
    rewrite (total_alter _ _ _ _ _ Hk), El, (Ha i Hi'). lia.
  - exists log. split; [done..|]. intros q.
    change (io_calls q log = total (on_ioapic_pin q) (alter f (Z.to_nat d) (devs s))).
    rewrite (total_alter _ _ _ _ _ Hk), Ei, Hi. lia.
  - by apply (routed_alter f).
Qed.

Lemma get_dev_alter d f s : 0 <= d < Z.of_nat (length (devs s)) ->
  get_dev d (s <| devs ::= alter f (Z.to_nat d) |>) = f (get_dev d s).
Proof. intros Hd. unfold get_dev at 1. cbn. by rewrite list_lookup_alter_eq, (dev_lookup d s Hd). Qed.

(** A device that starts or stops asserting. *)
Lemma wp_lintr_raise d s : intx_ok s -> 0 <= d < Z.of_nat (length (devs s)) -> l_state (get_dev d s) <> ASSERTED ->
  wp (on_dev d (fun l => l <| l_state := ASSERTED |>) ;;; pci_irq_assert d) (fun _ => intx_ok) s.
Proof.
  intros [B Hr] Hd Hst. pose proof (dev_lookup d s Hd) as Hk. unfold on_dev. wp_go.
  set (s1 := s <| devs ::= _ |>). pose proof (get_dev_alter d (fun l => l <| l_state := ASSERTED |>) s Hd) as E. fold s1 in E.
  rewrite <- (Z2Nat.id d) at 1 by lia. eapply wp_conseq; [apply (wp_irq_assert (get_dev d s) _ s1 (devs s))|].
  - by apply balanced_devs.
  - done.
  - apply Hr. by eapply list_elem_of_lookup_2.
  - done.
  - rewrite Z2Nat.id, E by lia. done.
  - rewrite Z2Nat.id, E by lia. done.
  - intros _ s' [B' E']. split; rewrite E'; [done|]. by apply routed_alter.
Qed.

Lemma wp_lintr_lower d s st : intx_ok s -> 0 <= d < Z.of_nat (length (devs s)) -> l_state (get_dev d s) = ASSERTED -> st <> ASSERTED ->
  wp (pci_irq_deassert d) (fun _ s' => intx_ok (s' <| devs ::= alter (fun l => l <| l_state := st |>) (Z.to_nat d) |>) /\ devs s' = devs s) s.
Proof.
  intros [B Hr] Hd Hst Hne. pose proof (dev_lookup d s Hd) as Hk. rewrite <- (Z2Nat.id d) at 1 by lia.
  eapply wp_conseq; [apply (wp_irq_deassert (get_dev d s) _ s (devs s) st)|]; try done.
  - apply Hr. by eapply list_elem_of_lookup_2.
  - by rewrite Z2Nat.id by lia.
  - by rewrite Z2Nat.id by lia.
  - intros _ s' [B' E']. split; [|done]. split; cbn; rewrite E'; [|by apply routed_alter].
    destruct B' as [? ? (log & [])]. split; [done..|]. by exists log.
Qed.

Lemma wp_lintr_drop d s : intx_ok s -> 0 <= d < Z.of_nat (length (devs s)) -> l_state (get_dev d s) = ASSERTED ->
  wp (pci_irq_deassert d) (fun _ => intx_ok) (s <| devs ::= alter (fun l => l <| l_state := IDLE |>) (Z.to_nat d) |>).
Proof.
  intros [B Hr] Hd Hst. pose proof (dev_lookup d s Hd) as Hk.
  set (s1 := s <| devs ::= _ |>). pose proof (get_dev_alter d (fun l => l <| l_state := IDLE |>) s Hd) as E. fold s1 in E.
  rewrite <- (Z2Nat.id d) at 1 by lia. eapply wp_conseq; [apply (wp_irq_deassert (get_dev d s) _ s1 (devs s) IDLE)|]; try done.
  - by apply balanced_devs.
  - apply Hr. by eapply list_elem_of_lookup_2.
  - rewrite Z2Nat.id, E by lia. done.
  - rewrite Z2Nat.id, E by lia. done.
  - intros _ s' [B' E']. split; rewrite E'; [done|]. by apply routed_alter.
Qed.

(** The calls a link makes when it is rerouted. *)
Definition reroute (p : pirq) (new : Z) : list intx_call :=
  (if negb (active_count p =? 0) && pirq_valid_irq new then [IsaAssert (Z.land new PIRQ_IRQ) (-1)] else []) ++
  (if negb (active_count p =? 0) && pirq_valid_irq (preg p) then [IsaDeassert (Z.land (preg p) PIRQ_IRQ) (-1)] else []).

Lemma reroute_io p new q log : io_calls q (reroute p new ++ log) = io_calls q log.
Proof. unfold reroute, io_calls. by destruct (_ && _), (_ && _). Qed.

Lemma reroute_pic p new q log :
  pic_calls q (reroute p new ++ log) = pic_calls q log + on_pic q (p <| preg := new |>) - on_pic q p.
Proof.
  unfold reroute, pic_calls, on_pic. cbn.
  destruct (negb (active_count p =? 0)), (pirq_valid_irq (preg p)), (pirq_valid_irq new); cbn; lia.
Qed.

Lemma wp_pirq_write pin val s : intx_ok s -> 1 <= pin <= NPIRQS -> wp (pirq_write pin val) (fun _ => intx_ok) s.
Proof.
  intros [[Hl Ha (log & [Ho Hp Hi])] Hr] Hpin. unfold pirq_write, on_pirq, xemit. wp_go.
  apply wp_KASSERT; [unfold pirq_pin_ok; lia|]. wp_go. set (i := pin - 1). set (p := get_pirq i s).
  assert (Hi' : 0 <= i < NPIRQS) by (unfold i; lia). set (new := Z.land val _).
  apply wp_when; intros Hnew; [|by split; [split; [done..|by exists log]|]]. wp_go.
  set (s2 := s <| xout := make_calls (reroute p new) (xout s) |> <| pirqs ::= alter (fun p => p <| preg := new |>) (Z.to_nat i) |>).
  eapply (wp_conseq _ (fun _ s' => s' = s <| xout := make_calls (drop (if negb (active_count p =? 0) && pirq_valid_irq new then 1 else 0) (reroute p new)) (xout s) |>)).
  { unfold reroute. apply wp_when; intros E; rewrite E; destruct (_ && pirq_valid_irq new); [by wp_go..|by destruct s|by destruct s]. }
  intros _ ? ->. wp_go. eapply (wp_conseq _ (fun _ s' => s' = s2)).
  { subst s2. unfold reroute. apply wp_when; intros E; rewrite E; [by wp_go|]. by destruct s. }
  intros _ ? ->. split; [|done]. split.
  - cbn. by rewrite length_alter.
  - intros j Hj. change (get_pirq j s2) with (get_pirq j (s <| pirqs ::= alter (fun p => p <| preg := new |>) (Z.to_nat i) |>)).
    rewrite get_pirq_alter by done. destruct (Z.eqb_spec j i) as [-> |]; by apply Ha.
  - exists (reroute p new ++ log). split.
    + by rewrite make_calls_app, <- Ho.
    + intros q. change (pirqs s2) with (alter (fun p => p <| preg := new |>) (Z.to_nat i) (pirqs s)).
      rewrite (total_alter _ _ _ _ _ (pirq_lookup i s Hl Hi')), reroute_pic, Hp. done.
    + intros q. by rewrite reroute_io, Hi.
Qed.

Lemma wp_run_intx o s : intx_ok s -> intx_allowed o s -> wp (run_intx o) (fun _ => intx_ok) s.
Proof.
  intros H Ha. destruct o as [d|d|d|d b|pin val]; cbn [run_intx intx_allowed] in *.
  5: { by apply wp_pirq_write. }
  4: { unfold on_dev. wp_go. by apply ok_same_link. }
  all: assert (Hr : routed (get_dev d s)) by (apply (x_devs s H); eapply list_elem_of_lookup_2, (dev_lookup d s Ha)).
  - unfold pci_lintr_assert. wp_go. apply wp_KASSERT; [apply Z.ltb_lt, Hr|]. apply wp_when; [|done].
    intros E%bool_decide_eq_true. apply wp_if; intros Hp; [apply wp_lintr_raise; congruence|].
    unfold on_dev. wp_go. apply ok_same_link; try done; intros q; unfold on_link, on_ioapic_pin; by rewrite E.
  - unfold pci_lintr_deassert. wp_go. apply wp_KASSERT; [apply Z.ltb_lt, Hr|]. apply wp_if.
    + intros E%bool_decide_eq_true. unfold on_dev. wp_go. by apply wp_lintr_drop.
    + intros E. apply wp_when; [|done]. intros E'%bool_decide_eq_true. unfold on_dev. wp_go.
      apply ok_same_link; try done; intros q; unfold on_link, on_ioapic_pin; by rewrite E'.
  - unfold pci_lintr_update. wp_go. apply wp_if.
    + intros [E%bool_decide_eq_true _]%andb_prop. wp_go.
      eapply wp_conseq; [by apply (wp_lintr_lower d s PENDING)|]. intros _ s' [H' _]. unfold on_dev. by wp_go.
    + intros _. apply wp_when; [|done]. intros [E%bool_decide_eq_true _]%andb_prop. apply wp_lintr_raise; congruence.
Qed.
End Balance.

Section Intx.
Context {V : Type} `{!IntxOut V}.
Local Abbreviation S := (intx V).
Implicit Types s : S.

Lemma fresh_ok s : intx_fresh s -> intx_ok (xout s) s.
Proof.
  intros [Hl Ha Hd].
  assert (Hz : forall {A} (f : A -> Z) l, (forall x, x ∈ l -> f x = 0) -> total f l = 0).
  { intros A f l H. induction l as [|x l IH]; [done|]. change (f x + total f l = 0). rewrite IH, H; [done|by left|].
    intros y Hy. apply H. by right. }
  split; [split; [done|..]|].
  - intros i Hi. rewrite (Ha i Hi), Hz; [done|]. intros l Hl'. unfold on_link. by rewrite (proj2 (Hd l Hl')).
  - exists []. split; [done|..].
    + intros q. rewrite Hz; [done|]. intros p [i Hp]%list_elem_of_lookup. unfold on_pic.
      pose proof (lookup_lt_Some _ _ _ Hp) as Hlt. rewrite Hl in Hlt.
      pose proof (Ha (Z.of_nat i) ltac:(unfold NPIRQS; lia)) as E. unfold get_pirq in E. rewrite Nat2Z.id, Hp in E.
      cbn in E. by rewrite E.
    + intros q. rewrite Hz; [done|]. intros l Hl'. unfold on_ioapic_pin. by rewrite (proj2 (Hd l Hl')).
  - intros l Hl'. by apply Hd.
Qed.

Lemma intx_reachable s0 s : intx_fresh s0 -> rtc intx_step s0 s -> intx_ok (xout s0) s.
Proof.
  intros H0 R. pose proof (fresh_ok s0 H0) as H. clear H0. revert H. generalize (xout s0). intros w0.
  induction R as [|x y z [o s1 s2 Ha E] _ IH]; intros H; [done|]. apply IH.
  exact (wp_run _ _ _ _ _ (wp_run_intx w0 o s1 H Ha) E).
Qed.

(** C24: however devices raise and lower their INTx interrupts, the guest masks
    them and reroutes the PIRQ links, no operation aborts; each link counts
    the devices that assert it; and the calls made to the interrupt
    controllers since set-up balance: for an interrupt of the 8259 pair there
    is one assert not yet taken back for every link routed to it that has an
    asserting device, and for a pin of the I/O APIC one for every asserting
    device wired to it. *)
Theorem intx_balanced s0 s o : intx_fresh s0 -> rtc intx_step s0 s -> intx_allowed o s ->
  (exists s', run_intx o s = Return (tt, s')) /\
  (forall i, 0 <= i < NPIRQS -> active_count (get_pirq i s) = total (on_link (i + 1)) (devs s)) /\
  exists log, xout s = make_calls log (xout s0) /\
    (forall q, pic_calls q log = total (on_pic q) (pirqs s)) /\
    (forall q, io_calls q log = total (on_ioapic_pin q) (devs s)).
Proof.
  intros H0 R Ha. pose proof (intx_reachable s0 s H0 R) as H. split.
  { destruct (wp_elim _ _ _ (wp_run_intx _ o s H Ha)) as ([] & s' & E & _). eauto. }
  destruct H as [[_ Hact (log & [])] _]. split; [done|]. by exists log.
Qed.
End Intx.

(** ** Allocation of links *)

Lemma least_used_spec pre ps bp bc : bp < Z.of_nat (length pre) -> 0 <= bp ->
  use_count (default pirq_none (pre !! Z.to_nat bp)) = bc -> Forall (fun p => bc <= use_count p) pre ->
  let r := least_used ps (Z.of_nat (length pre)) bp bc in
  0 <= r < Z.of_nat (length (pre ++ ps)) /\
  Forall (fun p => use_count (default pirq_none ((pre ++ ps) !! Z.to_nat r)) <= use_count p) (pre ++ ps).
Proof.
  revert pre bp bc. induction ps as [|p ps IH]; intros pre bp bc Hlt H0 Hbc Hall; cbn.
  - rewrite app_nil_r. split; [lia|]. rewrite Hbc. done.
  - replace (pre ++ p :: ps) with ((pre ++ [p]) ++ ps) by (by rewrite <- app_assoc).
    replace (Z.of_nat (length pre) + 1) with (Z.of_nat (length (pre ++ [p]))) by (rewrite length_app; cbn; lia).
    destruct (Z.ltb_spec (use_count p) bc) as [Hless|Hge]; apply IH.
    + rewrite length_app. cbn. lia.
    + lia.
    + rewrite Nat2Z.id, lookup_app_r, Nat.sub_diag by lia. done.
    + apply Forall_app. split; [|by repeat constructor]. eapply Forall_impl; [exact Hall|]. intros x. cbn. lia.
    + rewrite length_app. cbn. lia.
    + done.
    + by rewrite lookup_app_l by lia.
    + apply Forall_app. split; [done|]. by repeat constructor.
Qed.

Lemma best_irq_spec counts irq best bc : -1 <= best < irq ->
  (best <> -1 \/ exists n, n ∈ counts /\ n <> IRQ_DISABLED) ->
  let r := best_irq counts irq best bc in
  (r = best /\ best <> -1) \/ (irq <= r < irq + Z.of_nat (length counts) /\ default IRQ_DISABLED (counts !! Z.to_nat (r - irq)) <> IRQ_DISABLED).
Proof.
  revert irq best bc. induction counts as [|n counts IH]; intros irq best bc Hb Hex; cbn.
  { destruct Hex as [|(n & [] %elem_of_nil & _)]. by left. }
  assert (Hshift : forall b c, (-1 <= b < irq + 1) -> (b <> -1 \/ exists n, n ∈ counts /\ n <> IRQ_DISABLED) -> (b = best \/ b = irq) ->
     (b = irq -> n <> IRQ_DISABLED) ->
     let r := best_irq counts (irq + 1) b c in
     (r = best /\ best <> -1) \/ (irq <= r < irq + Z.of_nat (S (length counts)) /\
       default IRQ_DISABLED ((n :: counts) !! Z.to_nat (r - irq)) <> IRQ_DISABLED)).
  { intros b c Hb' Hex' Hcase Hn r. destruct (IH (irq + 1) b c Hb' Hex') as [[Hr Hne]|[Hr Hd]].
    - destruct Hcase as [-> | ->]; [by left|]. right. fold r in Hr. rewrite Hr, Z.sub_diag. split; [lia|]. by apply Hn.
    - right. fold r in Hr, Hd. split; [lia|]. replace (Z.to_nat (r - irq)) with (S (Z.to_nat (r - (irq + 1)))) by lia. done. }
  destruct (Z.eqb_spec n IRQ_DISABLED) as [E|E].
  - apply Hshift; [lia| |by left|lia]. destruct Hex as [|(m & [-> |Hm]%elem_of_cons & Hne)]; [by left|done|right; eauto].
  - destruct ((best =? -1) || (n <? bc)) eqn:Ec; [apply Hshift; [lia|left; lia|by right|done]|].
    apply Hshift; [lia|left; lia|by left|lia].
Qed.

Section Alloc.
Context {V : Type} `{!IntxOut V}.
Local Abbreviation S := (intx V).
Implicit Types s : S.

Definition is_link (i : Z) : Prop := 0 <= i < NPIRQS.
Definition unrouted (s : S) : Z := total (fun p => b2z (preg p =? PIRQ_DIS)) (pirqs s).

(** Set-up: the links are used evenly, those in use have a permitted interrupt,
    and the counts of the interrupts that are not reserved leave room. *)
Record alloc_ok s : Prop := {
  a_pirqs : length (pirqs s) = 8%nat;
  a_counts : length (irq_counts s) = 16%nat;
  a_even i j : is_link i -> is_link j -> use_count (get_pirq i s) <= use_count (get_pirq j s) + 1;
  a_used i : is_link i -> 0 <= use_count (get_pirq i s) /\
    (0 < use_count (get_pirq i s) -> pirq_valid_irq (preg (get_pirq i s)) = true);
  a_reg i : is_link i -> preg (get_pirq i s) = PIRQ_DIS \/ pirq_valid_irq (preg (get_pirq i s)) = true;
  a_irq q : 0 <= q < 16 -> get_count q s = IRQ_DISABLED \/
    (IRQ_PERMITTED q = true /\ 0 <= get_count q s /\ get_count q s + unrouted s < IRQ_DISABLED);
  a_free : exists q, 0 <= q < 16 /\ get_count q s <> IRQ_DISABLED;
}.

(** The link [pirq_alloc_pin] picks. *)
Definition picked (s : S) : Z := least_used (tail (pirqs s)) 1 0 (use_count (get_pirq 0 s)).

Lemma picked_least s : length (pirqs s) = 8%nat ->
  is_link (picked s) /\ forall j, is_link j -> use_count (get_pirq (picked s) s) <= use_count (get_pirq j s).
Proof.
  intros Hl. destruct (pirqs s) as [|p0 ps] eqn:Eps; [done|].
  pose proof (least_used_spec [p0] ps 0 (use_count p0) ltac:(done) ltac:(done) eq_refl ltac:(by repeat constructor)) as [Hr Hm].
  assert (Eb : picked s = least_used ps (Z.of_nat (length [p0])) 0 (use_count p0)).
  { unfold picked, get_pirq. rewrite Eps. done. }
  rewrite <- Eb in Hr, Hm. cbn [app] in Hr, Hm. rewrite Hl in Hr. split; [unfold is_link, NPIRQS; lia|].
  intros j Hj. unfold get_pirq. rewrite Eps. rewrite Forall_lookup in Hm.
  destruct (lookup_lt_is_Some_2 (p0 :: ps) (Z.to_nat j)) as [x Hx]; [rewrite Hl; unfold is_link, NPIRQS in Hj; lia|].
  rewrite Hx. exact (Hm _ _ Hx).
Qed.

(** One more user of the least used link. *)
Lemma even_picked s b (use : Z -> Z) : alloc_ok s -> (forall j, is_link j -> use_count (get_pirq b s) <= use_count (get_pirq j s)) ->
  (forall j, is_link j -> use j = use_count (get_pirq j s) + b2z (j =? b)) ->
  forall i j, is_link i -> is_link j -> use i <= use j + 1.
Proof.
  intros A Hmin H i j Hi Hj. rewrite !H by done. pose proof (Hmin j Hj). pose proof (a_even s A i j Hi Hj).
  destruct (Z.eqb_spec i b) as [-> |], (Z.eqb_spec j b) as [-> |]; cbn; lia.
Qed.

(** The interrupt a new link is routed to. *)
Lemma routed_irq s : alloc_ok s -> let irq := best_irq (irq_counts s) 0 (-1) 0 in
  0 <= irq < 16 /\ IRQ_PERMITTED irq = true /\ 0 <= get_count irq s /\ get_count irq s + unrouted s < IRQ_DISABLED.
Proof.
  intros A irq. pose proof (a_free s A) as (q0 & Hq0 & Hne).
  destruct (best_irq_spec (irq_counts s) 0 (-1) 0) as [[_ []]|[Hr Hd]]; [lia| |done|].
  - right. exists (get_count q0 s). split; [|done]. unfold get_count.
    destruct (lookup_lt_is_Some_2 (irq_counts s) (Z.to_nat q0)) as [n Hn]; [rewrite (a_counts s A); lia|].
    rewrite Hn. by eapply list_elem_of_lookup_2.
  - fold irq in Hr, Hd. rewrite (a_counts s A) in Hr. rewrite Z.sub_0_r in Hd. split; [lia|].
    destruct (a_irq s A irq ltac:(lia)) as [E|E]; [|done]. destruct Hd. unfold get_count in E.
    destruct (lookup_lt_is_Some_2 (irq_counts s) (Z.to_nat irq)) as [n Hn]; [rewrite (a_counts s A); lia|].
    by rewrite Hn in *.
Qed.

Lemma permitted_valid irq : 0 <= irq < 16 -> IRQ_PERMITTED irq = true -> pirq_valid_irq irq = true.
Proof.
  intros Hi. pose proof (forall_below (fun i => implb (IRQ_PERMITTED i) (pirq_valid_irq i)) 16 irq eq_refl Hi) as H.
  cbn beta in H. intros E. by rewrite E in H.
Qed.

Lemma valid_not_dis reg : pirq_valid_irq reg = true -> reg <> PIRQ_DIS.
Proof. intros H ->. done. Qed.

(** allocating a PIRQ link for a device's interrupt pin takes one of the least
    used links and routes it, the first time, to a permitted interrupt that is
    not reserved and sets that to level-triggered; so the devices are spread
    evenly over the links and every link in use has a valid route. *)
Theorem pirq_alloc_even s : alloc_ok s -> exists pin s', pirq_alloc_pin s = Return (pin, s') /\
  is_link (pin - 1) /\ (forall j, is_link j -> use_count (get_pirq (pin - 1) s) <= use_count (get_pirq j s)) /\
  pirq_valid_irq (preg (get_pirq (pin - 1) s')) = true /\ alloc_ok s'.
Proof.
  intros A. pose proof A as [Hl Hc He Hu Hreg Hq Hf]. destruct (picked_least s Hl) as [Hb Hmin]. set (b := picked s) in *.
  set (s1 := s <| pirq_cold := false |> <| pirqs ::= alter (fun p => p <| use_count ::= fun n => n + 1 |>) (Z.to_nat b) |>).
  assert (G1 : forall j, is_link j -> get_pirq j s1 = if j =? b then get_pirq b s <| use_count ::= fun n => n + 1 |> else get_pirq j s).
  { intros j Hj. unfold s1. by rewrite (get_pirq_alter b j _ (s <| pirq_cold := false |>)). }
  assert (L1 : length (pirqs s1) = 8%nat) by (cbn; by rewrite length_alter).
  assert (U1 : unrouted s1 = unrouted s).
  { unfold unrouted. change (pirqs s1) with (alter (fun p => p <| use_count ::= fun n => n + 1 |>) (Z.to_nat b) (pirqs s)).
    rewrite (total_alter _ _ _ _ _ (pirq_lookup b s Hl Hb)). cbn. lia. }
  unfold pirq_alloc_pin, on_pirq, set_count, xemit. erewrite bind_return by reflexivity.
  rewrite (bind_return _ _ _ b (s <| pirq_cold := false |>)) by done. rewrite (bind_return _ _ _ tt s1) by done.
  rewrite (bind_return _ _ s1 (get_pirq b s1) s1) by done.
  assert (Ep : preg (get_pirq b s1) = preg (get_pirq b s)) by (rewrite G1, Z.eqb_refl; done).
  exists (b + 1). replace (b + 1 - 1) with b by lia. rewrite Ep.
  destruct (Z.eqb_spec (preg (get_pirq b s)) PIRQ_DIS) as [Edis|Edis]; cbn [when].
  - pose proof (routed_irq s A) as (Hirq & Hperm & Hcnt & Hroom). set (irq := best_irq (irq_counts s) 0 (-1) 0) in *.
    set (s2 := s1 <| irq_counts ::= <[Z.to_nat irq := get_count irq s + 1]> |>
                  <| pirqs ::= alter (fun p => p <| preg := irq |>) (Z.to_nat b) |> <| xout ::= isa_trigger irq LEVEL_TRIGGER |>).
    assert (Hdis : 0 <= unrouted s) by (apply total_nonneg; intros p; by destruct (_ =? _)).
    exists s2. split.
    { rewrite (bind_return _ _ s1 tt s2); [done|]. rewrite (bind_return _ _ s1 irq s1) by done.
      rewrite KASSERT_true by lia. rewrite (bind_return _ _ s1 (get_count irq s) s1) by done.
      unfold u8. rewrite !Z.mod_small by (unfold IRQ_DISABLED in Hroom; lia). done. }
    assert (G2 : forall j, is_link j -> get_pirq j s2 = if j =? b then get_pirq b s1 <| preg := irq |> else get_pirq j s1).
    { intros j Hj. by rewrite <- (get_pirq_alter b j (fun p => p <| preg := irq |>) s1). }
    pose proof (permitted_valid irq Hirq Hperm) as Hval.
    assert (U2 : unrouted s2 = unrouted s - 1).
    { unfold unrouted at 1. change (pirqs s2) with (alter (fun p => p <| preg := irq |>) (Z.to_nat b) (pirqs s1)).
      rewrite (total_alter _ _ _ _ _ (pirq_lookup b s1 L1 Hb)). fold (unrouted s1). rewrite U1, Ep, Edis. cbn [preg].
      change (preg (_ <| preg := irq |>)) with irq. rewrite (proj2 (Z.eqb_neq irq PIRQ_DIS)) by (by apply valid_not_dis). rewrite Z.eqb_refl. cbn [b2z]. lia. }
    assert (Hdis2 : 0 <= unrouted s2) by (apply total_nonneg; intros p; by destruct (_ =? _)).
    split; [done|]. split; [done|]. split; [by rewrite G2, Z.eqb_refl|]. split.
    + cbn. by rewrite !length_alter.
    + cbn. by rewrite length_insert.
    + apply (even_picked s b (fun j => use_count (get_pirq j s2)) A Hmin). intros j Hj. rewrite G2, !G1 by done.
      destruct (Z.eqb_spec j b) as [-> |]; rewrite ?Z.eqb_refl; cbn; lia.
    + intros j Hj. rewrite G2, !G1 by done. specialize (Hu j Hj). rewrite Z.eqb_refl. destruct (Z.eqb_spec j b) as [-> |]; [|done].
      cbn. split; [lia|done].
    + intros j Hj. rewrite G2, !G1 by done. rewrite Z.eqb_refl. destruct (Z.eqb_spec j b) as [-> |]; [by right|by apply Hreg].
    + intros q Hq'. rewrite U2. unfold get_count. change (irq_counts s2) with (<[Z.to_nat irq := get_count irq s + 1]> (irq_counts s)).
      destruct (Z.eq_dec q irq) as [-> |Hne].
      * rewrite list_lookup_insert_eq by (rewrite Hc; lia). right. split; [done|]. cbn [default from_option id]. lia.
      * rewrite list_lookup_insert_ne by lia. destruct (Hq q Hq') as [E|(E1 & E2 & E3)]; [by left|right].
        unfold get_count in E2, E3. split; [done|]. lia.
    + exists irq. split; [done|]. unfold get_count. change (irq_counts s2) with (<[Z.to_nat irq := get_count irq s + 1]> (irq_counts s)).
      rewrite list_lookup_insert_eq by (rewrite Hc; lia). cbn. unfold IRQ_DISABLED in *. lia.
  - exists s1. split; [done|]. split; [done|]. split; [done|].
    assert (Hv : pirq_valid_irq (preg (get_pirq b s)) = true) by (by destruct (Hreg b Hb)).
    rewrite Ep. split; [done|]. split; try done.
    + apply (even_picked s b (fun j => use_count (get_pirq j s1)) A Hmin). intros j Hj. rewrite G1 by done.
      destruct (Z.eqb_spec j b) as [-> |]; cbn; lia.
    + intros j Hj. rewrite G1 by done. specialize (Hu j Hj). destruct (Z.eqb_spec j b) as [-> |]; [|done]. cbn. split; [lia|done].
    + intros j Hj. rewrite G1 by done. destruct (Z.eqb_spec j b) as [-> |]; [by right|by apply Hreg].
    + intros q Hq'. rewrite U1. by apply Hq.
Qed.
End Alloc.

(** ** Examples *)
Module IntxExample.
Local Abbreviation machine := (intx (list intx_call)).

(** Two devices on link 1, routed to interrupt 5, and one on link 2. *)
Definition shared : machine :=
  mk_intx ([mk_pirq 5 2 0; mk_pirq 6 1 0] ++ replicate 6 (mk_pirq PIRQ_DIS 0 0)) (replicate 16 0) false 8 3
    [mk_lintr 1 IDLE 1 16 true; mk_lintr 1 IDLE 1 17 true; mk_lintr 1 IDLE 2 18 false] [].

Definition run_one (o : intx_op) (s : machine) : machine :=
  match run_intx o s with Return (_, s') => s' | _ => s end.

Lemma shared_fresh : intx_fresh shared.
Proof.
  split; [done|..].
  - intros i Hi. unfold NPIRQS in Hi. assert (H : i ∈ seqZ 0 8) by (apply elem_of_seqZ; lia).
    cbn in H. repeat (apply elem_of_cons in H as [-> |H]; [done|]). by apply elem_of_nil in H.
  - intros l H. cbn in H. repeat (apply elem_of_cons in H as [-> |H]; [done|]). by apply elem_of_nil in H.
Qed.

Local Abbreviation both_up := (run_one (XAssert 1) (run_one (XAssert 0) shared)).

Lemma both_up_reachable : rtc intx_step shared both_up.
Proof.
  eapply rtc_l; [apply (xs_op (XAssert 0) shared (run_one (XAssert 0) shared)); [by split|by vm_compute]|].
  eapply rtc_l; [apply (xs_op (XAssert 1) _ both_up); [by split|by vm_compute]|done].
Qed.

(** The second device only adds its I/O APIC pin; rerouting the link moves the
    interrupt; lowering both takes it away. *)
Lemma shared_link :
  xout both_up = [IoapicAssert 17; IsaAssert 5 16] /\
  xout (run_one (XRoute 1 11) both_up) = [IsaAssert 11 (-1); IsaDeassert 5 (-1); IoapicAssert 17; IsaAssert 5 16] /\
  pic_calls 5 (xout (run_one (XDeassert 0) (run_one (XDeassert 1) both_up))) = 0.
Proof. vm_compute. done. Qed.

(** The log instance starts empty, so its final value is the calls made. *)
Lemma log_calls log : make_calls log [] = log.
Proof.
  induction log as [|c log IH]; [done|]. change (make_call c (make_calls log []) = c :: log). rewrite IH. by destruct c.
Qed.

Lemma intx_balanced_witness : pic_calls 5 (xout both_up) = 1 /\ io_calls 17 (xout both_up) = 1.
Proof.
  destruct (intx_balanced shared both_up (XDeassert 0) shared_fresh both_up_reachable) as (_ & _ & log & Hx & Hp & Hi); [done|].
  pose proof (log_calls log) as E. change (xout both_up = make_calls log []) in Hx. rewrite E in Hx. rewrite Hx.
  split; [exact (Hp 5)|exact (Hi 17)].
Defined.

Definition cold : machine := match pci_irq_init (mk_intx [] [] true 8 0 [] []) with Return (_, s) => s | _ => shared end.

Lemma cold_alloc : alloc_ok cold.
Proof.
  assert (E : forall i, is_link i -> get_pirq i cold = mk_pirq PIRQ_DIS 0 0).
  { intros i Hi. unfold is_link, NPIRQS in Hi. change (default pirq_none (replicate 8 (mk_pirq PIRQ_DIS 0 0) !! Z.to_nat i) = mk_pirq PIRQ_DIS 0 0).
    by rewrite lookup_replicate_2 by lia. }
  split; try done.
  - intros i j Hi Hj. by rewrite !E.
  - intros i Hi. by rewrite E.
  - intros i Hi. rewrite E by done. by left.
  - intros q Hq. assert (H : q ∈ seqZ 0 16) by (apply elem_of_seqZ; lia). cbn in H.
    repeat (apply elem_of_cons in H as [-> |H]; [first [by left|right; by vm_compute]|]). by apply elem_of_nil in H.
  - exists 3. done.
Qed.

Lemma pirq_alloc_even_witness : exists pin s', pirq_alloc_pin cold = Return (pin, s') /\
  pirq_valid_irq (preg (get_pirq (pin - 1) s')) = true.
Proof. destruct (pirq_alloc_even cold cold_alloc) as (pin & s' & E & _ & _ & Hv & _). exists pin, s'. split; [exact E|exact Hv]. Defined.
End IntxExample.
