(* ===== verification/VmmCommon.v ===== *)
(** * Types shared by the virtual machine monitor (src/include/xhyve/vmm/vmm_common.h)

    The enumerations, segment descriptors and the decoded instruction
    [struct vie].  One-bit fields are [bool]; the wider ones are [Z] and the
    assignments to them truncate where they can. *)

From S2P Require Import Prelude.

Definition VM_MAXCPU : Z := 16.
Definition XHYVE_PAGE_SIZE : Z := 0x1000.
Definition XHYVE_PAGE_MASK : Z := XHYVE_PAGE_SIZE - 1.
Definition XHYVE_PAGE_SHIFT : Z := 12.
Definition DEFAULT_APIC_BASE : Z := 0xfee00000.

Inductive vm_cpu_mode : Type :=
| CPU_MODE_REAL | CPU_MODE_PROTECTED | CPU_MODE_COMPATIBILITY | CPU_MODE_64BIT.

#[export] Instance vm_cpu_mode_eq_dec : EqDecision vm_cpu_mode.
Proof. solve_decision. Defined.

Inductive vm_paging_mode : Type :=
| PAGING_MODE_FLAT | PAGING_MODE_32 | PAGING_MODE_PAE | PAGING_MODE_64.

#[export] Instance vm_paging_mode_eq_dec : EqDecision vm_paging_mode.
Proof. solve_decision. Defined.

Inductive vm_suspend_how : Type :=
| VM_SUSPEND_NONE | VM_SUSPEND_RESET | VM_SUSPEND_POWEROFF | VM_SUSPEND_HALT
| VM_SUSPEND_TRIPLEFAULT | VM_SUSPEND_LAST.

#[export] Instance vm_suspend_how_eq_dec : EqDecision vm_suspend_how.
Proof. solve_decision. Defined.

Inductive vm_reg_name : Type :=
| VM_REG_GUEST_RAX | VM_REG_GUEST_RBX | VM_REG_GUEST_RCX | VM_REG_GUEST_RDX | VM_REG_GUEST_RSI
| VM_REG_GUEST_RDI | VM_REG_GUEST_RBP | VM_REG_GUEST_R8 | VM_REG_GUEST_R9 | VM_REG_GUEST_R10
| VM_REG_GUEST_R11 | VM_REG_GUEST_R12 | VM_REG_GUEST_R13 | VM_REG_GUEST_R14 | VM_REG_GUEST_R15
| VM_REG_GUEST_CR0 | VM_REG_GUEST_CR3 | VM_REG_GUEST_CR4 | VM_REG_GUEST_DR7 | VM_REG_GUEST_RSP
| VM_REG_GUEST_RIP | VM_REG_GUEST_RFLAGS | VM_REG_GUEST_ES | VM_REG_GUEST_CS | VM_REG_GUEST_SS
| VM_REG_GUEST_DS | VM_REG_GUEST_FS | VM_REG_GUEST_GS | VM_REG_GUEST_LDTR | VM_REG_GUEST_TR
| VM_REG_GUEST_IDTR | VM_REG_GUEST_GDTR | VM_REG_GUEST_EFER | VM_REG_GUEST_CR2
| VM_REG_GUEST_PDPTE0 | VM_REG_GUEST_PDPTE1 | VM_REG_GUEST_PDPTE2 | VM_REG_GUEST_PDPTE3
| VM_REG_GUEST_INTR_SHADOW | VM_REG_LAST.

(** The value of the enumerator. *)
Definition reg_index (r : vm_reg_name) : Z :=
  match r with
  | VM_REG_GUEST_RAX => 0 | VM_REG_GUEST_RBX => 1 | VM_REG_GUEST_RCX => 2 | VM_REG_GUEST_RDX => 3
  | VM_REG_GUEST_RSI => 4 | VM_REG_GUEST_RDI => 5 | VM_REG_GUEST_RBP => 6 | VM_REG_GUEST_R8 => 7
  | VM_REG_GUEST_R9 => 8 | VM_REG_GUEST_R10 => 9 | VM_REG_GUEST_R11 => 10
  | VM_REG_GUEST_R12 => 11 | VM_REG_GUEST_R13 => 12 | VM_REG_GUEST_R14 => 13
  | VM_REG_GUEST_R15 => 14 | VM_REG_GUEST_CR0 => 15 | VM_REG_GUEST_CR3 => 16
  | VM_REG_GUEST_CR4 => 17 | VM_REG_GUEST_DR7 => 18 | VM_REG_GUEST_RSP => 19
  | VM_REG_GUEST_RIP => 20 | VM_REG_GUEST_RFLAGS => 21 | VM_REG_GUEST_ES => 22
  | VM_REG_GUEST_CS => 23 | VM_REG_GUEST_SS => 24 | VM_REG_GUEST_DS => 25 | VM_REG_GUEST_FS => 26
  | VM_REG_GUEST_GS => 27 | VM_REG_GUEST_LDTR => 28 | VM_REG_GUEST_TR => 29
  | VM_REG_GUEST_IDTR => 30 | VM_REG_GUEST_GDTR => 31 | VM_REG_GUEST_EFER => 32
  | VM_REG_GUEST_CR2 => 33 | VM_REG_GUEST_PDPTE0 => 34 | VM_REG_GUEST_PDPTE1 => 35
  | VM_REG_GUEST_PDPTE2 => 36 | VM_REG_GUEST_PDPTE3 => 37 | VM_REG_GUEST_INTR_SHADOW => 38
  | VM_REG_LAST => 39
  end.

#[export] Instance vm_reg_name_eq_dec : EqDecision vm_reg_name.
Proof. solve_decision. Defined.

Record seg_desc : Type := mk_seg_desc { base : Z; limit : Z; access : Z }.

Definition SEG_DESC_TYPE (a : Z) : Z := Z.land a 0x001f.
Definition SEG_DESC_PRESENT (a : Z) : bool := tst a 0x0080.
Definition SEG_DESC_DEF32 (a : Z) : bool := tst a 0x4000.
Definition SEG_DESC_UNUSABLE (a : Z) : bool := tst a 0x10000.

Record vm_guest_paging : Type := mk_paging {
  cr3 : Z;
  cpl : Z;
  cpu_mode : vm_cpu_mode;
  paging_mode : vm_paging_mode;
}.

(** [struct vie_op.op_type] of vmm_instruction_emul.c. *)
Inductive vie_op_type : Type :=
| VIE_OP_TYPE_NONE | VIE_OP_TYPE_MOV | VIE_OP_TYPE_MOVSX | VIE_OP_TYPE_MOVZX | VIE_OP_TYPE_AND
| VIE_OP_TYPE_OR | VIE_OP_TYPE_SUB | VIE_OP_TYPE_TWO_BYTE | VIE_OP_TYPE_PUSH | VIE_OP_TYPE_CMP
| VIE_OP_TYPE_POP | VIE_OP_TYPE_MOVS | VIE_OP_TYPE_GROUP1 | VIE_OP_TYPE_STOS | VIE_OP_TYPE_BITTEST.

#[export] Instance vie_op_type_eq_dec : EqDecision vie_op_type.
Proof. solve_decision. Defined.

Record vie_op : Type := mk_op { op_byte : Z; op_type : vie_op_type; op_flags : Z }.

Definition VIE_INST_SIZE : Z := 15.

Record vie : Type := mk_vie {
  inst : list Z;
  num_valid : Z;
  num_processed : Z;
  addrsize : Z;
  opsize : Z;
  rex_w : bool;
  rex_r : bool;
  rex_x : bool;
  rex_b : bool;
  rex_present : bool;
  repz_present : bool;
  repnz_present : bool;
  opsize_override : bool;
  addrsize_override : bool;
  seg_override : bool;
  mod_ : Z;
  reg : Z;
  rm : Z;
  ss : Z;
  index : Z;
  vbase : Z;
  disp_bytes : Z;
  imm_bytes : Z;
  scale : Z;
  base_register : vm_reg_name;
  index_register : vm_reg_name;
  segment_register : vm_reg_name;
  displacement : Z;
  immediate : Z;
  decoded : bool;
  op : vie_op;
}.

#[export] Instance eta_vie : Eta vie := fun v =>
  mk_vie (inst v) (num_valid v) (num_processed v) (addrsize v) (opsize v) (rex_w v) (rex_r v)
    (rex_x v) (rex_b v) (rex_present v) (repz_present v) (repnz_present v) (opsize_override v)
    (addrsize_override v) (seg_override v) (mod_ v) (reg v) (rm v) (ss v) (index v) (vbase v)
    (disp_bytes v) (imm_bytes v) (scale v) (base_register v) (index_register v)
    (segment_register v) (displacement v) (immediate v) (decoded v) (op v).
