(* ===== verification/MemRange.v ===== *)
(** * Memory-mapped ranges (src/src/mem.c)

    Devices register ranges of guest-physical memory; an access that is not
    backed by memory is looked up in a tree of disjoint ranges, with one cached
    range per vCPU, and then in a second tree of fallback ranges.  The trees
    are the search trees of support/tree.h: [RB_FIND] and the descent of
    [RB_INSERT] are modelled on them as they are written, with the colours left
    out; the rotations of [RB_INSERT_COLOR] and the removal [RB_REMOVE] are
    parameters that keep the order of the elements.

    A range is a heap object: [mr_id] stands for its address, and a cached
    pointer to a range that was freed is a hint that is not in the tree. *)

From stdpp Require Import sorting.
From S2P Require Import Prelude Effects VmmCommon.
Local Open Scope cmd_scope.

Definition ENOENT : Z := 2.
Definition ESRCH : Z := 3.
Definition EEXIST : Z := 17.
Definition MEM_F_READ : Z := 1.
Definition MEM_F_WRITE : Z := 2.
Definition MEM_F_RW : Z := 3.
Definition MEM_F_IMMUTABLE : Z := 4.

(** [H] is the type of the handler with its two arguments; a name is the address
    of a string. *)
Record mem_range (H : Type) : Type := mk_mem_range {
  m_name : Z;
  m_flags : Z;
  m_handler : H;
  m_base : Z;
  m_size : Z;
}.
Arguments mk_mem_range {H}.
Arguments m_name {H}.
Arguments m_flags {H}.
Arguments m_handler {H}.
Arguments m_base {H}.
Arguments m_size {H}.

Record mmio_rb_range (H : Type) : Type := mk_range {
  mr_id : Z;
  mr_param : mem_range H;
  mr_base : Z;
  mr_end : Z;
}.
Arguments mk_range {H}.
Arguments mr_id {H}.
Arguments mr_param {H}.
Arguments mr_base {H}.
Arguments mr_end {H}.

(** ** Search trees *)
Section Tree.
Context {H : Type}.
Local Abbreviation range := (mmio_rb_range H).
Implicit Types (a b k x : range).

Inductive mmio_rb_tree : Type := Leaf | Node (l : mmio_rb_tree) (x : range) (r : mmio_rb_tree).
Implicit Types t : mmio_rb_tree.

Fixpoint inorder t : list range :=
  match t with Leaf => [] | Node l x r => inorder l ++ x :: inorder r end.

Definition mmio_rb_range_compare a b : Z :=
  if mr_end a <? mr_base b then -1 else if mr_end b <? mr_base a then 1 else 0.

Fixpoint RB_FIND k t : option range :=
  match t with
  | Leaf => None
  | Node l x r =>
      let comp := mmio_rb_range_compare k x in
      if comp <? 0 then RB_FIND k l else if 0 <? comp then RB_FIND k r else Some x
  end.

(** The descent of [RB_INSERT]: the element that compares equal, or the tree with
    the new leaf. *)
Fixpoint rb_link k t : range + mmio_rb_tree :=
  match t with
  | Leaf => inr (Node Leaf k Leaf)
  | Node l x r =>
      let comp := mmio_rb_range_compare k x in
      if comp <? 0 then match rb_link k l with inl y => inl y | inr l' => inr (Node l' x r) end
      else if 0 <? comp then match rb_link k r with inl y => inl y | inr r' => inr (Node l x r') end
      else inl x
  end.

(** Disjoint ranges in ascending order. *)
Definition before a b : Prop := mr_end a < mr_base b.
Definition proper x : Prop := mr_base x <= mr_end x.
Definition ordered (l : list range) : Prop := StronglySorted before l /\ Forall proper l.
Definition overlaps a b : Prop := mr_base a <= mr_end b /\ mr_base b <= mr_end a.

Lemma compare_cases a b : proper a -> proper b ->
  (mmio_rb_range_compare a b < 0 /\ before a b) \/ (0 < mmio_rb_range_compare a b /\ before b a) \/
  (mmio_rb_range_compare a b = 0 /\ overlaps a b).
Proof.
  unfold mmio_rb_range_compare, before, overlaps, proper. intros.
  destruct (Z.ltb_spec (mr_end a) (mr_base b)); [left; lia|].
  destruct (Z.ltb_spec (mr_end b) (mr_base a)); [right; left; lia|right; right; lia].
Qed.

Lemma before_not_overlaps a b : before a b -> ~ overlaps a b /\ ~ overlaps b a.
Proof. unfold before, overlaps. lia. Qed.

Lemma ordered_node l x r : ordered (inorder l ++ x :: inorder r) -> proper x /\ ordered (inorder l) /\ ordered (inorder r) /\
  Forall (fun y => before y x) (inorder l) /\ Forall (before x) (inorder r).
Proof.
  intros [Hs Hp]. apply StronglySorted_app in Hs as (Hc & Hl & Hr). apply Forall_app in Hp as [Hpl [Hx Hpr]%Forall_cons].
  apply StronglySorted_inv in Hr as [Hr Hxr]. split; [done|]. split; [done|]. split; [done|]. split; [|done].
  apply Forall_forall. intros y Hy. apply Hc; [done|by left].
Qed.

Lemma find_spec k t : proper k -> ordered (inorder t) ->
  match RB_FIND k t with
  | Some x => x ∈ inorder t /\ overlaps k x
  | None => forall x, x ∈ inorder t -> ~ overlaps k x
  end.
Proof.
  intros Hk. induction t as [|l IHl x r IHr]; intros Ho; cbn [RB_FIND inorder]; [intros x Hx; by apply elem_of_nil in Hx|].
  destruct (ordered_node _ _ _ Ho) as (Hx & Hl & Hr & Hlx & Hxr). rewrite Forall_forall in Hlx, Hxr.
  destruct (compare_cases k x Hk Hx) as [[Hc Hb]|[[Hc Hb]|[Hc Hb]]].
  - rewrite (proj2 (Z.ltb_lt _ _)) by done. specialize (IHl Hl). destruct (RB_FIND k l) as [y|].
    { destruct IHl. split; [apply elem_of_app; by left|done]. }
    intros y Hy. apply elem_of_app in Hy as [Hy|[-> |Hy]%elem_of_cons]; [by apply IHl|exact (proj1 (before_not_overlaps _ _ Hb))|].
    specialize (Hxr y Hy). unfold before, overlaps, proper in *. lia.
  - rewrite (proj2 (Z.ltb_ge _ _)), (proj2 (Z.ltb_lt 0 _)) by lia. specialize (IHr Hr). destruct (RB_FIND k r) as [y|].
    { destruct IHr. split; [apply elem_of_app; right; by right|done]. }
    intros y Hy. apply elem_of_app in Hy as [Hy|[-> |Hy]%elem_of_cons]; [|exact (proj2 (before_not_overlaps _ _ Hb))|by apply IHr].
    specialize (Hlx y Hy). unfold before, overlaps, proper in *. lia.
  - rewrite Hc. cbn. split; [apply elem_of_app; right; by left|done].
Qed.

Lemma link_spec k t : proper k -> ordered (inorder t) ->
  match rb_link k t with
  | inl x => x ∈ inorder t /\ overlaps k x
  | inr t' => (forall x, x ∈ inorder t -> ~ overlaps k x) /\ inorder t' ≡ₚ k :: inorder t /\ ordered (inorder t')
  end.
Proof.
  intros Hk. induction t as [|l IHl x r IHr]; intros Ho; cbn [rb_link inorder].
  { split; [intros x Hx; by apply elem_of_nil in Hx|]. split; [done|]. by repeat constructor. }
  destruct (ordered_node _ _ _ Ho) as (Hx & Hl & Hr & Hlx & Hxr). rewrite Forall_forall in Hlx, Hxr.
  destruct Ho as [Hs Hp]. apply StronglySorted_app in Hs as (Hlr & Hsl & Hsr).
  destruct (compare_cases k x Hk Hx) as [[Hc Hb]|[[Hc Hb]|[Hc Hb]]].
  - rewrite (proj2 (Z.ltb_lt _ _)) by done. specialize (IHl Hl). destruct (rb_link k l) as [y|l'].
    { destruct IHl. split; [apply elem_of_app; by left|done]. }
    destruct IHl as (Hn & Hperm & Ho'). cbn [inorder]. split; [|split].
    + intros y Hy. apply elem_of_app in Hy as [Hy|[-> |Hy]%elem_of_cons]; [by apply Hn|exact (proj1 (before_not_overlaps _ _ Hb))|].
      specialize (Hxr y Hy). unfold before, overlaps, proper in *. lia.
    + by rewrite Hperm.
    + split.
      * apply StronglySorted_app. split; [|split; [apply Ho'|done]]. intros a b Ha Hb'. rewrite Hperm in Ha.
        apply elem_of_cons in Ha as [-> |Ha]; [|by apply Hlr]. apply elem_of_cons in Hb' as [-> |Hb']; [done|].
        specialize (Hxr b Hb'). unfold before, proper in *. lia.
      * apply Forall_app in Hp as [_ Hp]. apply Forall_app. split; [apply Ho'|done].
  - rewrite (proj2 (Z.ltb_ge _ _)), (proj2 (Z.ltb_lt 0 _)) by lia. specialize (IHr Hr). destruct (rb_link k r) as [y|r'].
    { destruct IHr. split; [apply elem_of_app; right; by right|done]. }
    destruct IHr as (Hn & Hperm & Ho'). cbn [inorder]. split; [|split].
    + intros y Hy. apply elem_of_app in Hy as [Hy|[-> |Hy]%elem_of_cons]; [|exact (proj2 (before_not_overlaps _ _ Hb))|by apply Hn].
      specialize (Hlx y Hy). unfold before, overlaps, proper in *. lia.
    + rewrite Hperm, (Permutation_swap k x), Permutation_middle. done.
    + split.
      * apply StronglySorted_app. split; [|split; [done|]].
        -- intros a b Ha Hb'. specialize (Hlx a Ha). apply elem_of_cons in Hb' as [-> |Hb']; [done|]. rewrite Hperm in Hb'.
           apply elem_of_cons in Hb' as [-> |Hb']; [unfold before, proper in *; lia|]. apply Hlr; [done|by right].
        -- constructor; [apply Ho'|]. apply Forall_forall. intros b Hb'. rewrite Hperm in Hb'.
           apply elem_of_cons in Hb' as [-> |Hb']; [done|by apply Hxr].
      * apply Forall_app in Hp as [Hp _]. apply Forall_app. split; [done|]. constructor; [done|apply Ho'].
  - rewrite Hc. cbn. split; [apply elem_of_app; right; by left|done].
Qed.

Lemma ordered_disjoint l a b : ordered l -> a ∈ l -> b ∈ l -> overlaps a b -> a = b.
Proof.
  intros [Hs Hp] Ha Hb Ho. induction Hs as [|x l Hs IH Hx]; [by apply elem_of_nil in Ha|].
  apply Forall_cons in Hp as [Hpx Hp]. rewrite Forall_forall in Hx.
  apply elem_of_cons in Ha as [-> |Ha]; apply elem_of_cons in Hb as [-> |Hb]; auto.
  - by destruct (before_not_overlaps _ _ (Hx b Hb)).
  - by destruct (before_not_overlaps _ _ (Hx a Ha)).
Qed.

Lemma ordered_remove pre x post : ordered (pre ++ x :: post) -> ordered (pre ++ post).
Proof.
  intros [Hs Hp]. apply StronglySorted_app in Hs as (Hc & Hl & Hr). apply StronglySorted_inv in Hr as [Hr _].
  apply Forall_app in Hp as [Hpl [_ Hpr]%Forall_cons]. split; [|by apply Forall_app].
  apply StronglySorted_app. split; [|done]. intros a b Ha Hb. apply Hc; [done|by right].
Qed.

Lemma ordered_once pre x post : ordered (pre ++ x :: post) -> x ∉ pre ++ post.
Proof.
  intros [Hs Hp] Hx. apply StronglySorted_app in Hs as (Hc & _ & Hr). apply StronglySorted_inv in Hr as [_ Hr].
  apply Forall_app in Hp as [_ [Hpx _]%Forall_cons]. assert (before x x); [|unfold before, proper in *; lia].
  apply elem_of_app in Hx as [Hx|Hx]; [apply Hc; [done|by left]|]. rewrite Forall_forall in Hr. by apply Hr.
Qed.

Lemma filter_all (f : range -> bool) l : (forall x, x ∈ l -> f x = true) -> List.filter f l = l.
Proof.
  induction l as [|x l IH]; intros Hf; [done|]. cbn. rewrite (Hf x) by (by left). f_equal. apply IH.
  intros y Hy. apply Hf. by right.
Qed.
End Tree.
Arguments mmio_rb_tree : clear implicits.

(** ** Operations *)

Record memmap (H : Type) : Type := mk_memmap {
  mmio_rb_root : mmio_rb_tree H;
  mmio_rb_fallback : mmio_rb_tree H;
  mmio_hint : list (option (mmio_rb_range H));
  mallocs : Z;
}.
Arguments mk_memmap {H}.
Arguments mmio_rb_root {H}.
Arguments mmio_rb_fallback {H}.
Arguments mmio_hint {H}.
Arguments mallocs {H}.
#[export] Instance eta_memmap H : Eta (memmap H) := fun s =>
  mk_memmap (mmio_rb_root s) (mmio_rb_fallback s) (mmio_hint s) (mallocs s).

Section Mem.
Context {H : Type}.
Local Abbreviation range := (mmio_rb_range H).
Local Abbreviation tree := (mmio_rb_tree H).
Local Abbreviation S := (memmap H).
Local Abbreviation M := (cmd S).
Variables (RB_INSERT_COLOR : tree -> tree) (RB_REMOVE : range -> tree -> tree).

(** The key [find] of a lookup. *)
Definition point (p : mem_range H) (addr : Z) : range := mk_range (-1) p addr addr.

Definition mmio_rb_lookup (p : mem_range H) (t : tree) (addr : Z) : option range := RB_FIND (point p addr) t.

Definition RB_INSERT (x : range) (t : tree) : option range * tree :=
  match rb_link x t with inl y => (Some y, t) | inr t' => (None, RB_INSERT_COLOR t') end.

Definition mmio_rb_add (t : tree) (new : range) : Z * tree :=
  match RB_INSERT new t with (Some _, _) => (EEXIST, t) | (None, t') => (0, t') end.

Definition in_range (addr : Z) (e : range) : bool := (mr_base e <=? addr) && (addr <=? mr_end e).

(** The lookup of [emulate_mem]: the range that serves the access. *)
Definition emulate_lookup (p : mem_range H) (vcpu paddr : Z) : M (option range) :=
  s <- gets id ;;
  let cached :=
    match default None (mmio_hint s !! Z.to_nat vcpu) with
    | Some e => if in_range paddr e then Some e else None
    | None => None
    end in
  match cached with
  | Some e => ret (Some e)
  | None =>
      match mmio_rb_lookup p (mmio_rb_root s) paddr with
      | Some e => update (fun s => s <| mmio_hint ::= <[Z.to_nat vcpu := Some e]> |>) ;;; ret (Some e)
      | None => ret (mmio_rb_lookup p (mmio_rb_fallback s) paddr)
      end
  end.

(** [emulate] is [xh_vm_emulate_instruction] with the handlers of the range. *)
Definition emulate_mem (p : mem_range H) (vcpu paddr : Z) (emulate : range -> M Z) : M Z :=
  e <- emulate_lookup p vcpu paddr ;;
  match e with None => ret ESRCH | Some entry => emulate entry end.

Definition get_tree (fallback : bool) (s : S) : tree := if fallback then mmio_rb_fallback s else mmio_rb_root s.
Definition set_tree (fallback : bool) (t : tree) (s : S) : S :=
  if fallback then s <| mmio_rb_fallback := t |> else s <| mmio_rb_root := t |>.

Definition register_mem_int (fallback : bool) (memp : mem_range H) : M Z :=
  i <- gets mallocs ;;
  update (fun s => s <| mallocs := i + 1 |>) ;;;
  let mrp := mk_range i memp (m_base memp) (u64 (m_base memp + m_size memp - 1)) in
  t <- gets (get_tree fallback) ;;
  match mmio_rb_lookup memp t (m_base memp) with
  | Some _ => ret 0
  | None => let '(err, t') := mmio_rb_add t mrp in update (set_tree fallback t') ;;; ret err
  end.
Definition register_mem := register_mem_int false.
Definition register_mem_fallback := register_mem_int true.

Definition unregister_mem (memp : mem_range H) : M Z :=
  t <- gets mmio_rb_root ;;
  match mmio_rb_lookup memp t (m_base memp) with
  | None => ret ENOENT
  | Some entry =>
      let mr := mr_param entry in
      KASSERT (m_name mr =? m_name memp) ;;;
      KASSERT ((m_base mr =? m_base memp) && (m_size mr =? m_size memp)) ;;;
      KASSERT (Z.land (m_flags mr) MEM_F_IMMUTABLE =? 0) ;;;
      update (fun s => s <| mmio_rb_root := RB_REMOVE entry t |>) ;;;
      update (fun s => s <| mmio_hint ::= fmap (fun h =>
        match h with Some e => if mr_id e =? mr_id entry then None else h | None => None end) |>) ;;;
      ret 0
  end.

Definition init_mem : S := mk_memmap Leaf Leaf (replicate (Z.to_nat VM_MAXCPU) None) 0.

(** ** Specification: two sets of ranges *)

(** The range an access is for. *)
Definition serves (root fallback : list range) (addr : Z) : option range :=
  match List.find (in_range addr) root with Some e => Some e | None => List.find (in_range addr) fallback end.

Inductive mem_op : Type :=
| MRegister (fallback : bool) (memp : mem_range H)
| MUnregister (memp : mem_range H)
| MAccess (p : mem_range H) (vcpu paddr : Z).

Definition fits (p : mem_range H) : Prop := 0 <= m_base p /\ 0 < m_size p /\ m_base p + m_size p <= 2 ^ 64.

(** A device unregisters what it registered. *)
Definition mem_allowed (o : mem_op) (s : S) : Prop :=
  match o with
  | MRegister _ p => fits p
  | MUnregister p => forall e, e ∈ inorder (mmio_rb_root s) -> in_range (m_base p) e = true ->
      m_name (mr_param e) = m_name p /\ m_base (mr_param e) = m_base p /\ m_size (mr_param e) = m_size p /\
      Z.land (m_flags (mr_param e)) MEM_F_IMMUTABLE = 0
  | MAccess _ vcpu _ => 0 <= vcpu < VM_MAXCPU
  end.

Definition run_mem (o : mem_op) : M (Z + option range) :=
  match o with
  | MRegister fallback p => err <- register_mem_int fallback p ;; ret (inl err)
  | MUnregister p => err <- unregister_mem p ;; ret (inl err)
  | MAccess p vcpu paddr => e <- emulate_lookup p vcpu paddr ;; ret (inr e)
  end.

Inductive mem_step : S -> S -> Prop :=
| ms_op o s r s' : mem_allowed o s -> run_mem o s = Return (r, s') -> mem_step s s'.

Hypothesis color_inorder : forall t, inorder (RB_INSERT_COLOR t) = inorder t.
Hypothesis remove_inorder : forall t x pre post, ordered (inorder t) -> inorder t = pre ++ x :: post ->
  inorder (RB_REMOVE x t) = pre ++ post.

(** Both trees are ordered, objects are distinct, and every cached range is in
    the tree. *)
Record mem_ok (s : S) : Prop := {
  m_root : ordered (inorder (mmio_rb_root s));
  m_fallback : ordered (inorder (mmio_rb_fallback s));
  m_ids : forall e, e ∈ inorder (mmio_rb_root s) -> mr_id e < mallocs s;
  m_unique : forall a b, a ∈ inorder (mmio_rb_root s) -> b ∈ inorder (mmio_rb_root s) -> mr_id a = mr_id b -> a = b;
  m_hints : length (mmio_hint s) = Z.to_nat VM_MAXCPU;
  m_live : forall i e, mmio_hint s !! i = Some (Some e) -> e ∈ inorder (mmio_rb_root s);
}.

Lemma overlaps_point p addr (e : range) : overlaps (point p addr) e <-> in_range addr e = true.
Proof. unfold overlaps, point, in_range. cbn. lia. Qed.

(** A lookup finds the only range of the set that contains the address. *)
Lemma lookup_find p t addr : ordered (inorder t) -> mmio_rb_lookup p t addr = List.find (in_range addr) (inorder t).
Proof.
  intros Ho. pose proof (find_spec (point p addr) t ltac:(unfold proper, point; cbn; lia) Ho) as Hf. unfold mmio_rb_lookup.
  destruct (RB_FIND (point p addr) t) as [x|].
  - destruct Hf as [Hx Hin%overlaps_point]. destruct (List.find (in_range addr) (inorder t)) as [y|] eqn:E.
    + apply find_some in E as [Hy Hiny]. f_equal. apply (ordered_disjoint (inorder t)); [done|done|by apply list_elem_of_In|].
      unfold in_range, overlaps in *. lia.
    + pose proof (find_none _ _ E x (proj1 (list_elem_of_In _ _) Hx)) as Hn. by rewrite Hin in Hn.
  - destruct (List.find (in_range addr) (inorder t)) as [y|] eqn:E; [|done].
    apply find_some in E as [Hy%list_elem_of_In Hiny]. destruct (Hf y Hy). by apply overlaps_point.
Qed.

Lemma find_in_range l addr e : ordered l -> e ∈ l -> in_range addr e = true -> List.find (in_range addr) l = Some e.
Proof.
  intros Ho He Hin. destruct (List.find (in_range addr) l) as [y|] eqn:E.
  - apply find_some in E as [Hy%list_elem_of_In Hiny]. f_equal. apply (ordered_disjoint l); try done.
    unfold in_range, overlaps in *. lia.
  - pose proof (find_none _ _ E e (proj1 (list_elem_of_In _ _) He)) as Hn. by rewrite Hin in Hn.
Qed.

Lemma lookup_run p vcpu paddr s : mem_ok s -> 0 <= vcpu < VM_MAXCPU ->
  exists s', emulate_lookup p vcpu paddr s = Return (serves (inorder (mmio_rb_root s)) (inorder (mmio_rb_fallback s)) paddr, s') /\
    mmio_rb_root s' = mmio_rb_root s /\ mmio_rb_fallback s' = mmio_rb_fallback s /\ mem_ok s'.
Proof.
  intros Ho Hv. pose proof Ho as [Hr Hf Hi Hu Hh Hl]. unfold emulate_lookup. rewrite (bind_return _ _ s s s) by done. cbv zeta.
  set (cached := match default None _ with Some e => _ | None => None end).
  assert (Hc : forall e, cached = Some e -> e ∈ inorder (mmio_rb_root s) /\ in_range paddr e = true).
  { subst cached. destruct (mmio_hint s !! Z.to_nat vcpu) as [[e0|]|] eqn:E; cbn; try done.
    destruct (in_range paddr e0) eqn:Er; [|done]. intros e [= <-]. split; [by eapply Hl|done]. }
  clearbody cached. unfold serves. destruct cached as [e|].
  - destruct (Hc e eq_refl) as [He Hin]. exists s. by rewrite (find_in_range _ _ _ Hr He Hin).
  - clear Hc. rewrite !lookup_find by done. destruct (List.find (in_range paddr) (inorder (mmio_rb_root s))) as [e|] eqn:E.
    + eexists. split; [reflexivity|]. split; [done|]. split; [done|]. split; try done; cbn; [by rewrite length_insert|].
      intros i x. rewrite list_lookup_insert. case_decide as Hd.
      * intros [= <-]. apply find_some in E as [He _]. by apply list_elem_of_In.
      * apply Hl.
    + exists s. done.
Qed.

#[export] Instance overlaps_dec (a b : range) : Decision (overlaps a b).
Proof. unfold overlaps. apply _. Defined.

(** The effect of a registration on the ranges of one tree. *)
Definition registered (l l' : list range) (p : mem_range H) (i err : Z) : Prop :=
  let new := mk_range i p (m_base p) (m_base p + m_size p - 1) in
  if existsb (in_range (m_base p)) l then err = 0 /\ l' = l
  else if bool_decide (Exists (overlaps new) l) then err = EEXIST /\ l' = l
  else err = 0 /\ l' ≡ₚ new :: l.

Lemma fits_end p : fits p -> u64 (m_base p + m_size p - 1) = m_base p + m_size p - 1.
Proof. intros (? & ? & ?). apply u64_id. lia. Qed.

Lemma existsb_find (f : range -> bool) l : existsb f l = match List.find f l with Some _ => true | None => false end.
Proof. induction l as [|x l IH]; [done|]. cbn. rewrite IH. by destruct (f x). Qed.

Lemma ok_tree fb t s : mem_ok s -> ordered (inorder t) ->
  (fb = false -> (forall e, e ∈ inorder t -> mr_id e < mallocs s) /\
     (forall a b, a ∈ inorder t -> b ∈ inorder t -> mr_id a = mr_id b -> a = b) /\
     (forall i e, mmio_hint s !! i = Some (Some e) -> e ∈ inorder t)) -> mem_ok (set_tree fb t s).
Proof. intros [] Ho Hf. destruct fb; cbn; [by split|]. destruct (Hf eq_refl) as (? & ? & ?). by split. Qed.

Lemma register_run fb p s : mem_ok s -> fits p -> exists err s', register_mem_int fb p s = Return (err, s') /\
  registered (inorder (get_tree fb s)) (inorder (get_tree fb s')) p (mallocs s) err /\
  get_tree (negb fb) s' = get_tree (negb fb) s /\ mmio_hint s' = mmio_hint s /\ mem_ok s'.
Proof.
  intros Ho Hfit. pose proof Ho as [Hr Hf Hi Hu Hh Hl].
  set (s1 := s <| mallocs := mallocs s + 1 |>).
  assert (Ho1 : mem_ok s1) by (split; try done; cbn; intros e He; specialize (Hi e He); lia).
  assert (Ht : ordered (inorder (get_tree fb s))) by (by destruct fb).
  unfold register_mem_int. rewrite (bind_return _ _ s (mallocs s) s) by done. rewrite (bind_return _ _ s tt s1) by done. cbv zeta.
  rewrite (bind_return _ _ s1 (get_tree fb s) s1) by (by destruct fb). rewrite fits_end by done.
  set (new := mk_range (mallocs s) p (m_base p) (m_base p + m_size p - 1)).
  rewrite lookup_find by done. unfold registered. cbv zeta. fold new. rewrite existsb_find.
  destruct (List.find (in_range (m_base p)) (inorder (get_tree fb s))) as [x|] eqn:Ef.
  { exists 0, s1. destruct fb; done. }
  destruct Hfit as (Hb & Hs & He). assert (Hp : proper new) by (unfold proper, new; cbn; lia).
  pose proof (link_spec new (get_tree fb s) Hp Ht) as Hk. unfold mmio_rb_add, RB_INSERT.
  destruct (rb_link new (get_tree fb s)) as [y|t'].
  - exists EEXIST, s1. destruct Hk as [Hy Hoy]. rewrite bool_decide_eq_true_2 by (apply Exists_exists; eauto).
    split; [by destruct fb, s|]. split; [by destruct fb|]. split; [by destruct fb|]. done.
  - destruct Hk as (Hn & Hperm & Ho'). exists 0, (set_tree fb (RB_INSERT_COLOR t') s1).
    rewrite bool_decide_eq_false_2 by (intros (y & Hy & Hoy)%Exists_exists; by apply (Hn y Hy)).
    assert (Et : inorder (get_tree fb (set_tree fb (RB_INSERT_COLOR t') s1)) = inorder t') by (destruct fb; cbn; apply color_inorder).
    split; [done|]. split; [by rewrite Et|]. split; [by destruct fb|]. split; [by destruct fb|].
    apply ok_tree; [done|by rewrite color_inorder|]. intros ->. rewrite color_inorder. cbn [get_tree] in *.
    split; [|split].
    + intros e Hin. rewrite Hperm in Hin. cbn. apply elem_of_cons in Hin as [-> |Hin]; [cbn; lia|]. specialize (Hi e Hin). lia.
    + intros a b Ha Hb'. rewrite Hperm in Ha, Hb'.
      apply elem_of_cons in Ha as [-> |Ha]; apply elem_of_cons in Hb' as [-> |Hb']; [done|..|by apply Hu].
      * specialize (Hi b Hb'). cbn. lia.
      * specialize (Hi a Ha). cbn. lia.
    + intros i e Hhint. rewrite Hperm. right. by eapply Hl.
Qed.

Lemma unregister_run p s : mem_ok s -> mem_allowed (MUnregister p) s ->
  exists s', unregister_mem p s =
      Return (if existsb (in_range (m_base p)) (inorder (mmio_rb_root s)) then 0 else ENOENT, s') /\
    inorder (mmio_rb_root s') = List.filter (fun e => negb (in_range (m_base p) e)) (inorder (mmio_rb_root s)) /\
    mmio_rb_fallback s' = mmio_rb_fallback s /\ mem_ok s'.
Proof.
  intros Ho Ha. pose proof Ho as [Hr Hf Hi Hu Hh Hl]. unfold unregister_mem.
  rewrite (bind_return _ _ s (mmio_rb_root s) s) by done. rewrite lookup_find, existsb_find by done.
  destruct (List.find (in_range (m_base p)) (inorder (mmio_rb_root s))) as [x|] eqn:Ef.
  2: { exists s. split; [done|]. split; [|done]. symmetry. apply filter_all.
       intros y Hy%list_elem_of_In. by rewrite (find_none _ _ Ef y Hy). }
  apply find_some in Ef as [Hx%list_elem_of_In Hin]. destruct (Ha x Hx Hin) as (E1 & E2 & E3 & E4). cbv zeta.
  rewrite !KASSERT_true by (rewrite ?E1, ?E2, ?E3, ?E4, ?Z.eqb_refl; done).
  destruct (list_elem_of_split _ _ Hx) as (pre & post & Esplit).
  assert (Er : inorder (RB_REMOVE x (mmio_rb_root s)) = pre ++ post) by (by apply remove_inorder).
  assert (Hother : forall y, y ∈ pre ++ post -> y ∈ inorder (mmio_rb_root s) /\ y <> x).
  { intros y Hy. split; [rewrite Esplit; apply elem_of_app in Hy as [Hy|Hy]; apply elem_of_app; [by left|right; by right]|].
    intros ->. rewrite Esplit in Hr. by eapply ordered_once. }
  eexists. split; [reflexivity|]. split; [|split; [done|]].
  - cbn. rewrite Er, Esplit, List.filter_app. cbn. rewrite Hin. cbn. rewrite <- List.filter_app. symmetry. apply filter_all.
    intros y Hy. destruct (Hother y Hy) as [Hy' Hne]. apply negb_true_iff, not_true_is_false. intros Hiny.
    destruct Hne. apply (ordered_disjoint (inorder (mmio_rb_root s))); try done. unfold in_range, overlaps in *. lia.
  - split; cbn; try done; rewrite ?Er.
    + rewrite Esplit in Hr. by eapply ordered_remove.
    + intros e He. apply Hi, Hother, He.
    + intros a b Ha' Hb'. by apply Hu; apply Hother.
    + by rewrite length_fmap.
    + intros i e He. rewrite list_lookup_fmap in He. destruct (mmio_hint s !! i) as [[h|]|] eqn:Eh; try done. cbn in He.
      destruct (Z.eqb_spec (mr_id h) (mr_id x)) as [|Hne]; [done|]. injection He as <-.
      pose proof (Hl i h Eh) as Hin'. rewrite Esplit in Hin'.
      apply elem_of_app in Hin' as [?|[-> |?]%elem_of_cons]; [apply elem_of_app; by left|done|apply elem_of_app; by right].
Qed.

Lemma mem_reachable s : rtc mem_step init_mem s -> mem_ok s.
Proof.
  intros R. assert (Ho : mem_ok init_mem).
  { split; cbn; try done; try (by repeat constructor); try (intros ? H0; by apply elem_of_nil in H0).
    - intros a b H0. by apply elem_of_nil in H0.
    - intros i e. rewrite lookup_replicate. by intros [? _]. }
  induction R as [|x y z [o s0 r s1 Ha E] _ IH]; [done|]. apply IH. clear IH. destruct o as [fb p|p|p vcpu paddr]; cbn [run_mem] in E.
  - destruct (register_run fb p _ Ho Ha) as (err & s' & Er & _ & _ & _ & Ho'). rewrite (bind_return _ _ _ _ _ Er) in E. by injection E as <- <-.
  - destruct (unregister_run p _ Ho Ha) as (s' & Er & _ & _ & Ho'). rewrite (bind_return _ _ _ _ _ Er) in E. by injection E as <- <-.
  - destruct (lookup_run p vcpu paddr _ Ho Ha) as (s' & Er & _ & _ & Ho'). rewrite (bind_return _ _ _ _ _ Er) in E. by injection E as <- <-.
Qed.

(** C27: however ranges were registered and unregistered and whatever each vCPU has
    cached, an access is served by the range that contains its address: the
    registered one if there is one, else the fallback one, else it fails with
    [ESRCH].  The cached ranges are all registered ones, so no freed range is
    used. *)
Theorem mem_dispatch p vcpu paddr emulate s : rtc mem_step init_mem s -> 0 <= vcpu < VM_MAXCPU ->
  exists s', mmio_rb_root s' = mmio_rb_root s /\ mmio_rb_fallback s' = mmio_rb_fallback s /\ mem_ok s' /\
    emulate_mem p vcpu paddr emulate s =
    match serves (inorder (mmio_rb_root s)) (inorder (mmio_rb_fallback s)) paddr with
    | Some e => emulate e s'
    | None => Return (ESRCH, s')
    end.
Proof.
  intros R Hv. destruct (lookup_run p vcpu paddr s (mem_reachable s R) Hv) as (s' & E & Er & Ef & Ho).
  exists s'. split; [done|]. split; [done|]. split; [done|]. unfold emulate_mem. rewrite (bind_return _ _ _ _ _ E).
  by destruct (serves _ _ _).
Qed.

(** registering a range adds it when it is apart from the others of its tree,
    reports [EEXIST] when it overlaps one but begins outside, and does nothing
    but report success when it begins inside one; unregistering removes the
    range that contains the base address, and no other. *)
Theorem mem_registration s : rtc mem_step init_mem s ->
  (forall fb p, fits p -> exists err s', register_mem_int fb p s = Return (err, s') /\
     registered (inorder (get_tree fb s)) (inorder (get_tree fb s')) p (mallocs s) err /\
     get_tree (negb fb) s' = get_tree (negb fb) s) /\
  (forall p, mem_allowed (MUnregister p) s -> exists s', unregister_mem p s =
      Return (if existsb (in_range (m_base p)) (inorder (mmio_rb_root s)) then 0 else ENOENT, s') /\
    inorder (mmio_rb_root s') = List.filter (fun e => negb (in_range (m_base p) e)) (inorder (mmio_rb_root s)) /\
    mmio_rb_fallback s' = mmio_rb_fallback s).
Proof.
  intros R. pose proof (mem_reachable s R) as Ho. split.
  - intros fb p Hp. destruct (register_run fb p s Ho Hp) as (err & s' & ? & ? & ? & _). eauto.
  - intros p Ha. destruct (unregister_run p s Ho Ha) as (s' & ? & ? & ? & _). eauto.
Qed.
End Mem.

(** ** Examples *)
Module MemExample.
Local Abbreviation range := (mmio_rb_range Z).
Local Abbreviation state := (memmap Z).

(** A removal that rebuilds the tree. *)
Definition of_list {H} (l : list (mmio_rb_range H)) : mmio_rb_tree H := foldr (fun x t => Node Leaf x t) Leaf l.
Definition color {H} (t : mmio_rb_tree H) : mmio_rb_tree H := t.
Definition remove {H} (x : mmio_rb_range H) (t : mmio_rb_tree H) : mmio_rb_tree H :=
  of_list (List.filter (fun y => negb (mr_base y =? mr_base x)) (inorder t)).

Lemma of_list_inorder {H} (l : list (mmio_rb_range H)) : inorder (of_list l) = l.
Proof. induction l as [|x l IH]; [done|]. change (x :: inorder (of_list l) = x :: l). by rewrite IH. Qed.

Lemma color_keeps {H} (t : mmio_rb_tree H) : inorder (color t) = inorder t.
Proof. done. Qed.

Lemma remove_keeps {H} (t : mmio_rb_tree H) x pre post : ordered (inorder t) -> inorder t = pre ++ x :: post -> inorder (remove x t) = pre ++ post.
Proof.
  intros Ho E. unfold remove. rewrite of_list_inorder, E, List.filter_app. cbn. rewrite Z.eqb_refl. cbn.
  rewrite <- List.filter_app. apply filter_all. intros y Hy. rewrite E in Ho. apply negb_true_iff, Z.eqb_neq. intros Eb.
  assert (y = x); [|subst; by apply (ordered_once _ _ _ Ho)]. apply (ordered_disjoint _ _ _ Ho).
  - apply elem_of_app in Hy as [?|?]; apply elem_of_app; [by left|right; by right].
  - apply elem_of_app. right. by left.
  - destruct Ho as [_ Hp]. rewrite Forall_app, Forall_cons, !Forall_forall in Hp. destruct Hp as (H1 & Hx & H2).
    apply elem_of_app in Hy as [Hy|Hy]; [specialize (H1 y Hy)|specialize (H2 y Hy)]; unfold proper, overlaps in *; lia.
Qed.

Definition bar (name base size : Z) : mem_range Z := mk_mem_range name MEM_F_RW name base size.

Fixpoint run (ops : list mem_op) (s : state) : state :=
  match ops with
  | [] => s
  | o :: ops' => match run_mem color remove o s with Return (_, s') => run ops' s' | _ => s end
  end.

Definition three : list mem_op :=
  [ MRegister false (bar 1 0x3000 0x1000); MRegister false (bar 2 0x1000 0x1000); MRegister true (bar 3 0 0x10000) ].
Local Abbreviation mapped := (run three init_mem).

Lemma mapped_reachable : rtc (mem_step color remove) init_mem mapped.
Proof.
  eapply rtc_l; [eapply (ms_op _ _ (MRegister false (bar 1 0x3000 0x1000))); [by vm_compute|by vm_compute]|].
  eapply rtc_l; [eapply (ms_op _ _ (MRegister false (bar 2 0x1000 0x1000))); [by vm_compute|by vm_compute]|].
  eapply rtc_l; [eapply (ms_op _ _ (MRegister true (bar 3 0 0x10000))); [by vm_compute|by vm_compute]|]. done.
Qed.

(** An access to a device, to the fallback, and to nothing. *)
Lemma served : map (fun a => m_name ∘ mr_param <$> serves (inorder (mmio_rb_root mapped)) (inorder (mmio_rb_fallback mapped)) a)
  [0x1fff; 0x2000; 0x3000; 0x10000] = [Some 2; Some 3; Some 1; None].
Proof. by vm_compute. Qed.

(** A range that begins inside another one is not registered, and its device
    then aborts when it unregisters: the range found has another name. *)
Lemma inside_ignored :
  let p := bar 4 0x1800 0x800 in
  (exists s', register_mem_int color false p mapped = Return (0, s') /\ inorder (mmio_rb_root s') = inorder (mmio_rb_root mapped)) /\
  unregister_mem remove p mapped = Panic.
Proof. split; [eexists; by vm_compute|by vm_compute]. Qed.

Lemma mem_dispatch_witness : exists s' : state,
  emulate_mem (bar 0 0 1) 0 0x1abc (fun e => ret (m_name (mr_param e))) mapped = Return (2, s').
Proof.
  destruct (mem_dispatch color remove color_keeps remove_keeps (bar 0 0 1) 0 0x1abc (fun e => ret (m_name (mr_param e))) mapped mapped_reachable)
    as (s' & _ & _ & _ & E); [by split|]. exists s'. exact E.
Defined.

Lemma mem_registration_witness : exists s' : state, unregister_mem remove (bar 2 0x1000 0x1000) mapped = Return (0, s') /\
  map (fun e => m_name (mr_param e)) (inorder (mmio_rb_root s')) = [1].
Proof.
  destruct (proj2 (mem_registration color remove color_keeps remove_keeps mapped mapped_reachable) (bar 2 0x1000 0x1000))
    as (s' & E & Ei & _).
  - intros e He. vm_compute in He. repeat (apply elem_of_cons in He as [-> |He]; [by vm_compute|]). by apply elem_of_nil in He.
  - exists s'. split; [exact E|]. rewrite Ei. reflexivity.
Defined.
End MemExample.
