(* ===== verification/Lapic.v ===== *)
(** * The local APICs of a machine (src/src/vmm/io/vlapic.c, src/src/vmm/vmm_lapic.c)

    File Vlapic models one local APIC's requests, service and priorities; this
    file adds the rest of it -- identity and destination registers, the local
    vector table, the timer, the interrupt command register and the register
    window -- and puts the sixteen local APICs, the I/O APIC and the timers of
    a machine side by side, so that an inter-processor interrupt, an I/O APIC
    message or an end of interrupt acts on the local APICs it addresses.

    The signals a local APIC operation sends to its vCPU and to the I/O APIC
    are collected by file Vlapic in order and carried out when it returns;
    [vlapic_process_eoi] notifies the I/O APIC as its last action, so this is
    the order of the code.  [Panic] stands for [xhyve_abort], a failing
    [KASSERT], a shift by a count past the width of the word (undefined in C) and
    a division by zero. *)

From S2P Require Import Prelude Effects Interface VmmCommon Bintime Vlapic Vioapic.
Local Open Scope cmd_scope.

Definition VLAPIC_VERSION : Z := 16.
Definition VLAPIC_MAXLVT_INDEX : Z := APIC_LVT_CMCI.
Definition VLAPIC_BUS_FREQ : Z := 128 * 1024 * 1024.
Definition MAXLVTSHIFT : Z := 16.
Definition MSR_APICBASE : Z := 0x1b.
Definition APICBASE_BSP : Z := 0x100.
Definition APICBASE_X2APIC : Z := 0x400.
(** [sizeof(struct LAPIC)]: 64 registers of 16 bytes. *)
Definition LAPIC_SIZE : Z := 0x400.

Definition APIC_LDR_RESERVED : Z := 0x00ffffff.
Definition APIC_DFR_RESERVED : Z := 0x0fffffff.
Definition APIC_DFR_MODEL_MASK : Z := 0xf0000000.
Definition APIC_DFR_MODEL_FLAT : Z := 0xf0000000.
Definition APIC_DFR_MODEL_CLUSTER : Z := 0.
Definition APIC_SVR_VECTOR : Z := 0xff.
Definition APIC_LVT_DS : Z := 0x1000.
Definition APIC_LVT_IIPP : Z := 0x2000.
Definition APIC_LVT_RIRR : Z := 0x4000.
Definition APIC_LVT_TM : Z := 0x8000.
Definition APIC_LVTT_TM : Z := 0x20000.
Definition APIC_LVTT_TM_PERIODIC : Z := 0x20000.
Definition APIC_VECTOR_MASK : Z := 0xff.
Definition APIC_DELMODE_MASK : Z := 0x700.
Definition APIC_DELMODE_FIXED : Z := 0.
Definition APIC_DELMODE_LOWPRIO : Z := 0x100.
Definition APIC_DELMODE_NMI : Z := 0x400.
Definition APIC_DELMODE_INIT : Z := 0x500.
Definition APIC_DELMODE_STARTUP : Z := 0x600.
Definition APIC_DESTMODE_LOG : Z := 0x800.
Definition APIC_DELSTAT_PEND : Z := 0x1000.
Definition APIC_LEVEL_MASK : Z := 0x4000.
Definition APIC_LEVEL_DEASSERT : Z := 0.
Definition APIC_DEST_MASK : Z := 0xc0000.
Definition APIC_DEST_DESTFLD : Z := 0.
Definition APIC_DEST_SELF : Z := 0x40000.
Definition APIC_DEST_ALLISELF : Z := 0x80000.
Definition APIC_DEST_ALLESELF : Z := 0xc0000.
Definition IOART_DELFIXED : Z := 0.
Definition IOART_DELLOPRI : Z := 0x100.
Definition IOART_DELEXINT : Z := 0x700.
Definition MSI_X86_ADDR_MASK : Z := 0xfff00000.
Definition MSI_X86_ADDR_BASE : Z := 0xfee00000.
Definition MSI_X86_ADDR_RH : Z := 0x8.
Definition MSI_X86_ADDR_LOG : Z := 0x4.

Definition APIC_OFFSET_CMCI_LVT : Z := 0x2f0.
Definition APIC_OFFSET_TIMER_LVT : Z := 0x320.
Definition APIC_OFFSET_THERM_LVT : Z := 0x330.
Definition APIC_OFFSET_PERF_LVT : Z := 0x340.
Definition APIC_OFFSET_LINT0_LVT : Z := 0x350.
Definition APIC_OFFSET_LINT1_LVT : Z := 0x360.
Definition APIC_OFFSET_ERROR_LVT : Z := 0x370.

Inductive boot_state : Type := BS_INIT | BS_SIPI | BS_RUNNING.
#[export] Instance boot_state_eq_dec : EqDecision boot_state.
Proof. solve_decision. Defined.

(** One local APIC: [core] is the part file Vlapic models (the registers TPR,
    PPR, SVR, ESR, IRR, ISR and TMR of the page among it), then the rest of
    the page and of [struct vlapic].  [lvts] are the page's entries [lvt_cmci],
    [lvt_timer], [lvt_thermal], [lvt_pcint], [lvt_lint0], [lvt_lint1] and
    [lvt_error]. *)
Record lcpu : Type := mk_lcpu {
  vcpuid : Z;
  core : vlapic;
  apic_id : Z;
  version : Z;
  apr : Z;
  eoi : Z;
  ldr : Z;
  dfr : Z;
  icr_lo : Z;
  icr_hi : Z;
  lvts : list Z;
  icr_timer : Z;
  dcr_timer : Z;
  svr_last : Z;
  boot : boot_state;
  timer_fire_bt : bintime;
  timer_freq_bt : bintime;
  timer_period_bt : bintime;
}.
#[export] Instance eta_lcpu : Eta lcpu := fun c =>
  mk_lcpu (vcpuid c) (core c) (apic_id c) (version c) (apr c) (eoi c) (ldr c) (dfr c) (icr_lo c)
    (icr_hi c) (lvts c) (icr_timer c) (dcr_timer c) (svr_last c) (boot c) (timer_fire_bt c)
    (timer_freq_bt c) (timer_period_bt c).

(** What the local APICs ask of the vCPUs. *)
Class VcpuOut (V : Type) := {
  out_notify : Z -> V -> V;
  out_nmi : Z -> V -> V;
  out_extint : Z -> V -> V;
  out_gp : Z -> V -> V;
  out_spinup : Z -> Z -> Z -> V -> V;
}.

Inductive vcpu_call : Type :=
| OutNotify (vcpu : Z) | OutNmi (vcpu : Z) | OutExtint (vcpu : Z) | OutGp (vcpu : Z)
| OutSpinup (vcpu ap rip : Z).
#[export] Instance vcpu_call_eq_dec : EqDecision vcpu_call.
Proof. solve_decision. Defined.

#[export] Instance log_vcpu : VcpuOut (list vcpu_call) := {
  out_notify c l := l ++ [OutNotify c];
  out_nmi c l := l ++ [OutNmi c];
  out_extint c l := l ++ [OutExtint c];
  out_gp c l := l ++ [OutGp c];
  out_spinup c ap rip l := l ++ [OutSpinup c ap rip];
}.

Record chip (T V : Type) : Type := mk_chip {
  cpus : list lcpu;
  active_cpus : Z;
  ioapic : vioapic;
  callouts : T;
  outs : V;
  readings : nat;
}.
Arguments mk_chip {T V}.
Arguments cpus {T V}.
Arguments active_cpus {T V}.
Arguments ioapic {T V}.
Arguments callouts {T V}.
Arguments outs {T V}.
Arguments readings {T V}.
#[export] Instance eta_chip T V : Eta (chip T V) := fun s =>
  mk_chip (cpus s) (active_cpus s) (ioapic s) (callouts s) (outs s) (readings s).

(** ** Sets of vCPUs (cpuset.h): one word *)
Definition CPU_SET (n p : Z) : Z := Z.lor p (bit n).
Definition CPU_CLR (n p : Z) : Z := clr p (bit n).
Definition CPU_ISSET (n p : Z) : bool := tst p (bit n).
Definition CPU_SETOF (n : Z) : Z := bit n.
Definition CPU_FFS (p : Z) : Z :=
  match List.find (fun i => Z.testbit p i) (seqZ 0 64) with Some i => i + 1 | None => 0 end.

(** [while ((cpu = CPU_FFS(&set)) != 0) { cpu--; CPU_CLR(cpu, &set); ... }]: the
    values of [cpu]. A word has 64 bits, so 64 rounds are enough. *)
Fixpoint set_cpus (fuel : nat) (p : Z) : list Z :=
  match fuel with
  | O => []
  | S fuel' =>
      let n := CPU_FFS p in
      if n =? 0 then [] else (n - 1) :: set_cpus fuel' (CPU_CLR (n - 1) p)
  end.
Definition cpus_in (p : Z) : list Z := set_cpus 64 p.

(** ** One local APIC's registers *)

Definition x2apic (c : lcpu) : bool := tst (msr_apicbase (core c)) APICBASE_X2APIC.

Definition vlapic_get_id (c : lcpu) : Z :=
  if x2apic c then u32 (vcpuid c) else u32 (Z.shiftl (vcpuid c) 24).

Definition x2apic_ldr (c : lcpu) : Z :=
  let apicid := i32 (vlapic_get_id c) in
  Z.lor (Z.shiftl 1 (Z.land apicid 0xf)) (u32 (Z.shiftl (Z.land apicid 0xffff0) 12)).

Definition vlapic_dfr_write_handler (c : lcpu) : lcpu :=
  if x2apic c then c <| dfr := 0 |>
  else c <| dfr ::= fun d => Z.lor (Z.land d APIC_DFR_MODEL_MASK) APIC_DFR_RESERVED |>.

Definition vlapic_ldr_write_handler (c : lcpu) : lcpu :=
  if x2apic c then c <| ldr := x2apic_ldr c |>
  else c <| ldr ::= fun l => clr l APIC_LDR_RESERVED |>.

Definition vlapic_id_write_handler (c : lcpu) : lcpu := c <| apic_id := vlapic_get_id c |>.

Definition BT2FREQ (bt : bintime) : Z :=
  (0x8000000000000000 + Z.shiftr (frac bt) 2) / Z.shiftr (frac bt) 1.

(** The index in [lvts] of the register [vlapic_get_lvtptr] points to; a
    register takes four words of the page. *)
Definition vlapic_get_lvtptr (offset : Z) : option Z :=
  if offset =? APIC_OFFSET_CMCI_LVT then Some 0
  else if (offset =? APIC_OFFSET_TIMER_LVT) || (offset =? APIC_OFFSET_THERM_LVT) ||
          (offset =? APIC_OFFSET_PERF_LVT) || (offset =? APIC_OFFSET_LINT0_LVT) ||
          (offset =? APIC_OFFSET_LINT1_LVT) || (offset =? APIC_OFFSET_ERROR_LVT)
  then let i := Z.shiftr (offset - APIC_OFFSET_TIMER_LVT) 2 in Some (1 + i / 4)
  else None.

Definition lvt_off_to_idx (offset : Z) : Z :=
  if offset =? APIC_OFFSET_CMCI_LVT then APIC_LVT_CMCI
  else if offset =? APIC_OFFSET_TIMER_LVT then APIC_LVT_TIMER
  else if offset =? APIC_OFFSET_THERM_LVT then APIC_LVT_THERMAL
  else if offset =? APIC_OFFSET_PERF_LVT then APIC_LVT_PMC
  else if offset =? APIC_OFFSET_LINT0_LVT then APIC_LVT_LINT0
  else if offset =? APIC_OFFSET_LINT1_LVT then APIC_LVT_LINT1
  else if offset =? APIC_OFFSET_ERROR_LVT then APIC_LVT_ERROR
  else -1.

Definition lvt_mask (offset : Z) : Z :=
  let mask := Z.lor (Z.lor APIC_LVT_M APIC_LVT_DS) APIC_LVT_VECTOR in
  if offset =? APIC_OFFSET_TIMER_LVT then Z.lor mask APIC_LVTT_TM
  else if offset =? APIC_OFFSET_ERROR_LVT then mask
  else if (offset =? APIC_OFFSET_LINT0_LVT) || (offset =? APIC_OFFSET_LINT1_LVT)
  then Z.lor (Z.lor mask (Z.lor (Z.lor APIC_LVT_TM APIC_LVT_RIRR) APIC_LVT_IIPP)) APIC_LVT_DM
  else Z.lor mask APIC_LVT_DM.

Definition vlapic_periodic_timer (c : lcpu) : bool :=
  negb (Z.land (vlapic_get_lvt APIC_LVT_TIMER (core c)) APIC_LVTT_TM_PERIODIC =? 0).

(** The [switch] of [vlapic_timer_divisor]. *)
Definition vlapic_timer_divisor (dcr : Z) : option Z :=
  match Z.land dcr 0xb with
  | 0xb => Some 1 | 0x0 => Some 2 | 0x1 => Some 4 | 0x2 => Some 8
  | 0x3 => Some 16 | 0x8 => Some 32 | 0x9 => Some 64 | 0xa => Some 128
  | _ => None
  end.

(** The number of the word of a 256-bit register at [base] that the offset
    addresses. *)
Definition window256 (base offset : Z) : option Z :=
  if (base <=? offset) && (offset <=? base + 0x70) && (offset mod 0x10 =? 0)
  then Some ((offset - base) / 0x10) else None.

Definition lcpu_none : lcpu :=
  mk_lcpu (-1) vlapic_zero 0 0 0 0 0 0 0 0 [] 0 0 0 BS_INIT (mk_bintime 0 0) (mk_bintime 0 0) (mk_bintime 0 0).

(** ** Operations *)
Section Chip.
Context {T V : Type} `{!CalloutOps T, !VcpuOut V}.
(** The [n]-th reading of [binuptime()] and of [mach_absolute_time()]; the
    callout of a vCPU's timer. *)
Variables (uptime : nat -> bintime) (hosttime : nat -> Z) (callout_of : Z -> Z).
Local Abbreviation S := (chip T V).
Local Abbreviation M := (cmd S).

Definition vm_lapic (cpu : Z) (s : S) : lcpu := default lcpu_none (cpus s !! Z.to_nat cpu).
Definition set_cpu (cpu : Z) (f : lcpu -> lcpu) (s : S) : S := s <| cpus ::= alter f (Z.to_nat cpu) |>.
Definition on_cpu (cpu : Z) (f : lcpu -> lcpu) : M unit := update (set_cpu cpu f).
Definition on_callouts (f : T -> T) : M unit := update (fun s => s <| callouts ::= f |>).
Definition tell (f : V -> V) : M unit := update (fun s => s <| outs ::= f |>).
Definition read_clock {A} (clk : nat -> A) : M A := fun s => Return (clk (readings s), s <| readings ::= Datatypes.S |>).
Definition callout_reset_in (cpu sbt : Z) : M unit :=
  now <- read_clock hosttime ;; on_callouts (co_reset_in (callout_of cpu) sbt now).

(** An operation of file Vlapic on the local APIC of [cpu]; [perform] carries
    out its signals. *)
Definition on_core_with (perform : lapic_call -> S -> S) {A} (cpu : Z)
    (c : cmd (lmachine (list lapic_call)) A) : M A := fun s =>
  match c (mk_lmachine (core (vm_lapic cpu s)) []) with
  | Return (a, m) => Return (a, foldl (fun s call => perform call s)
                                 (set_cpu cpu (fun l => l <| core := lapic m |>) s) (out m))
  | Panic => Panic
  | Hang => Hang
  end.

(** The signals to the vCPU; no request raises an end of interrupt. *)
Definition signal (cpu : Z) (call : lapic_call) (s : S) : S :=
  match call with
  | CallNotify => s <| outs ::= out_notify cpu |>
  | CallNmi => s <| outs ::= out_nmi cpu |>
  | CallExtint => s <| outs ::= out_extint cpu |>
  | CallGp => s <| outs ::= out_gp cpu |>
  | CallEoi _ => s
  end.

(** *** Delivery (vmm_lapic.c, [vlapic_calcdest], [vlapic_deliver_intr]) *)

Definition lapic_set_intr (cpu vector : Z) : M Z :=
  if (cpu <? 0) || (VM_MAXCPU <=? cpu) then ret EINVAL
  else if (vector <? 16) || (255 <? vector) then ret EINVAL
  else
    r <- on_core_with (signal cpu) cpu (vlapic_set_intr_ready vector) ;;
    when (negb (r =? 0)) (tell (out_notify cpu)) ;;;
    ret 0.

(** The destination a logical address selects in one local APIC: [Some] of its
    own identity and of the bits of the address to compare with it. *)
Definition logical_bits (dest : Z) (x2apic_dest : bool) (c : lcpu) : option (Z * Z) :=
  let mda_flat_ldest := Z.land dest 0xff in
  let '(mda_cluster_id, mda_cluster_ldest) :=
    if x2apic_dest then (Z.shiftr dest 16, Z.land dest 0xffff)
    else (Z.land (Z.shiftr dest 4) 0xf, Z.land dest 0xf) in
  if Z.land (dfr c) APIC_DFR_MODEL_MASK =? APIC_DFR_MODEL_FLAT
  then Some (Z.shiftr (ldr c) 24, mda_flat_ldest)
  else if Z.land (dfr c) APIC_DFR_MODEL_MASK =? APIC_DFR_MODEL_CLUSTER then
    let '(cluster, ldest) :=
      if x2apic c then (Z.shiftr (ldr c) 16, Z.land (ldr c) 0xffff)
      else (Z.shiftr (ldr c) 28, Z.land (Z.shiftr (ldr c) 24) 0xf) in
    if negb (cluster =? mda_cluster_id) then None else Some (ldest, mda_cluster_ldest)
  else None.

Fixpoint logical_dest (dest : Z) (lowprio x2apic_dest : bool) (s : S) (vcpus : list Z) (dmask : Z) : Z :=
  match vcpus with
  | [] => dmask
  | v :: vcpus' =>
      match logical_bits dest x2apic_dest (vm_lapic v s) with
      | None => logical_dest dest lowprio x2apic_dest s vcpus' dmask
      | Some (ldest, mda_ldest) =>
          if negb (Z.land mda_ldest ldest =? 0) then
            let dmask := CPU_SET v dmask in
            if lowprio then dmask else logical_dest dest lowprio x2apic_dest s vcpus' dmask
          else logical_dest dest lowprio x2apic_dest s vcpus' dmask
      end
  end.

(** [vm_apicid2vcpuid] is the identity. *)
Definition vlapic_calcdest (dest : Z) (phys lowprio x2apic_dest : bool) : M Z :=
  if (x2apic_dest && (dest =? 0xffffffff)) || (negb x2apic_dest && (dest =? 0xff)) then gets active_cpus
  else if phys then
    let vcpuid := i32 dest in
    if vcpuid <? VM_MAXCPU then KASSERT (0 <=? vcpuid) ;;; ret (CPU_SET vcpuid 0) else ret 0
  else gets (fun s => logical_dest dest lowprio x2apic_dest s (cpus_in (active_cpus s)) 0).

Fixpoint each_cpu (f : Z -> M unit) (vcpus : list Z) : M unit :=
  match vcpus with [] => skip | v :: vcpus' => f v ;;; each_cpu f vcpus' end.

Definition deliver_intr (level : bool) (dest : Z) (phys : bool) (delmode vec : Z) : M unit :=
  if negb (delmode =? IOART_DELFIXED) && negb (delmode =? IOART_DELLOPRI) && negb (delmode =? IOART_DELEXINT)
  then skip
  else
    dmask <- vlapic_calcdest dest phys (delmode =? IOART_DELLOPRI) false ;;
    each_cpu (fun v => if delmode =? IOART_DELEXINT then tell (out_extint v)
                       else lapic_set_intr v vec ;;; skip) (cpus_in dmask).

Definition vlapic_set_tmr_level (cpu dest : Z) (phys : bool) (delmode vector : Z) : M unit :=
  KASSERT ((0 <=? vector) && (vector <=? 255)) ;;;
  if negb (delmode =? APIC_DELMODE_FIXED) && negb (delmode =? APIC_DELMODE_LOWPRIO) then skip
  else
    dmask <- vlapic_calcdest dest phys (delmode =? APIC_DELMODE_LOWPRIO) false ;;
    if negb (CPU_ISSET cpu dmask) then skip
    else on_cpu cpu (fun c => c <| core ::= vlapic_set_tmr vector true |>).

(** The rendezvous of the active vCPUs on [vioapic_update_tmr] (vioapic.c);
    [msgs] are the level-triggered entries. *)
Definition update_tmr (msgs : list intr_msg) (cpu : Z) : M unit :=
  on_cpu cpu (fun c => c <| core ::= vlapic_reset_tmr |>) ;;;
  (fix go msgs := match msgs with
    | [] => skip
    | m :: msgs' => vlapic_set_tmr_level cpu (m_dest m) (m_phys m) (m_delmode m) (m_vector m) ;;; go msgs'
    end) msgs.
Definition rendezvous_tmr (msgs : list intr_msg) : M unit :=
  vs <- gets (fun s => cpus_in (active_cpus s)) ;; each_cpu (update_tmr msgs) vs.

(** The I/O APIC's view.  Its messages carry 8-bit destinations and vectors, for
    which the two commands return (lemma [deliver_returns] and
    [rendezvous_returns]). *)
Definition run_or (c : M unit) (s : S) : S := match c s with Return (_, s') => s' | _ => s end.

#[export] Instance chip_fabric : MsgFabric S := {
  vlapic_deliver_intr m s :=
    run_or (deliver_intr (m_level m) (m_dest m) (m_phys m) (m_delmode m) (m_vector m)) s;
  smp_rendezvous_tmr msgs s := run_or (rendezvous_tmr msgs) s;
}.

(** An operation of the I/O APIC on the machine it is part of. *)
Definition on_ioapic (f : imachine S -> imachine S) (s : S) : S :=
  let '(io, s') := f (ioapic s, s) in s' <| ioapic := io |>.

Definition perform (cpu : Z) (call : lapic_call) (s : S) : S :=
  match call with
  | CallEoi vector => on_ioapic (vioapic_process_eoi vector) s
  | _ => signal cpu call s
  end.

Definition on_core {A} (cpu : Z) (c : cmd (lmachine (list lapic_call)) A) : M A :=
  on_core_with (perform cpu) cpu c.

(** *** Local interrupts and messages (vmm_lapic.c) *)

Fixpoint trigger_lvts (vector : Z) (vcpus : list Z) : M Z :=
  match vcpus with
  | [] => ret 0
  | v :: vcpus' =>
      error <- on_core v (vlapic_trigger_lvt vector) ;;
      if negb (error =? 0) then ret error else trigger_lvts vector vcpus'
  end.

Definition lapic_set_local_intr (cpu vector : Z) : M Z :=
  if (cpu <? -1) || (VM_MAXCPU <=? cpu) then ret EINVAL
  else
    dmask <- (if cpu =? -1 then gets active_cpus else ret (CPU_SETOF cpu)) ;;
    trigger_lvts vector (cpus_in dmask).

Definition lapic_intr_msi (addr msg : Z) : M Z :=
  if negb (Z.land addr MSI_X86_ADDR_MASK =? MSI_X86_ADDR_BASE) then ret (-1)
  else
    let dest := Z.land (Z.shiftr addr 12) 0xff in
    let phys := negb (Z.land addr (Z.lor MSI_X86_ADDR_RH MSI_X86_ADDR_LOG) =?
                      Z.lor MSI_X86_ADDR_RH MSI_X86_ADDR_LOG) in
    let delmode := Z.land msg APIC_DELMODE_MASK in
    let vec := Z.land msg 0xff in
    deliver_intr false dest phys delmode vec ;;; ret 0.

(** *** The local vector table *)

Definition vlapic_lvt_write_handler (cpu offset : Z) : M unit :=
  match vlapic_get_lvtptr offset with
  | None => fun _ => Panic
  | Some p =>
      c <- gets (vm_lapic cpu) ;;
      let val := default 0 (lvts c !! Z.to_nat p) in
      let idx := lvt_off_to_idx offset in
      KASSERT ((0 <=? idx) && (idx <=? VLAPIC_MAXLVT_INDEX)) ;;;
      let val := if negb (tst (svr (core c)) APIC_SVR_ENABLE) then Z.lor val APIC_LVT_M else val in
      let val := Z.land val (lvt_mask offset) in
      on_cpu cpu (fun c => c <| lvts ::= <[Z.to_nat p := val]> |>
                             <| core ::= fun l => l <| lvt_last ::= <[Z.to_nat idx := val]> |> |>)
  end.

(** [*vlapic_get_lvtptr(offset) = f( * )] *)
Definition update_lvt (cpu offset : Z) (f : Z -> Z) : M unit :=
  match vlapic_get_lvtptr offset with
  | None => fun _ => Panic
  | Some p => on_cpu cpu (fun c => c <| lvts ::= alter f (Z.to_nat p) |>)
  end.

Definition mask_lvt (cpu offset : Z) : M unit :=
  update_lvt cpu offset (fun x => Z.lor x APIC_LVT_M) ;;; vlapic_lvt_write_handler cpu offset.

Definition vlapic_mask_lvts (cpu : Z) : M unit :=
  mask_lvt cpu APIC_OFFSET_CMCI_LVT ;;;
  mask_lvt cpu APIC_OFFSET_TIMER_LVT ;;;
  mask_lvt cpu APIC_OFFSET_THERM_LVT ;;;
  mask_lvt cpu APIC_OFFSET_PERF_LVT ;;;
  mask_lvt cpu APIC_OFFSET_LINT0_LVT ;;;
  mask_lvt cpu APIC_OFFSET_LINT1_LVT ;;;
  mask_lvt cpu APIC_OFFSET_ERROR_LVT.

(** *** The timer *)

Definition vlapic_get_ccr (cpu : Z) : M Z :=
  c <- gets (vm_lapic cpu) ;;
  active <- gets (fun s => co_active (callout_of cpu) (callouts s)) ;;
  ccr <-
    (if active then
       bt_now <- read_clock uptime ;;
       if bintime_lt bt_now (timer_fire_bt c) then
         let bt_rem := bintime_sub (timer_fire_bt c) bt_now in
         KASSERT (negb (Z.shiftr (frac (timer_freq_bt c)) 1 =? 0)) ;;;
         let ccr := u32 (u64 (sec bt_rem * BT2FREQ (timer_freq_bt c))) in
         ret (u32 (u64 (ccr + frac bt_rem / frac (timer_freq_bt c))))
       else ret 0
     else ret 0) ;;
  KASSERT (ccr <=? icr_timer c) ;;;
  ret ccr.

Definition vlapic_dcr_write_handler (cpu : Z) : M unit :=
  c <- gets (vm_lapic cpu) ;;
  match vlapic_timer_divisor (dcr_timer c) with
  | None => fun _ => Panic
  | Some divisor =>
      let freq_bt := FREQ2BT (u32 (VLAPIC_BUS_FREQ / divisor)) in
      on_cpu cpu (fun c => c <| timer_freq_bt := freq_bt |>
                             <| timer_period_bt := bintime_mul freq_bt (icr_timer c) |>)
  end.

Definition vlapic_icrtmr_write_handler (cpu : Z) : M unit :=
  on_cpu cpu (fun c => c <| timer_period_bt := bintime_mul (timer_freq_bt c) (icr_timer c) |>) ;;;
  c <- gets (vm_lapic cpu) ;;
  if negb (icr_timer c =? 0) then
    now <- read_clock uptime ;;
    on_cpu cpu (fun c => c <| timer_fire_bt := bintime_add now (timer_period_bt c) |>) ;;;
    callout_reset_in cpu (bttosbt (timer_period_bt c))
  else on_callouts (co_stop (callout_of cpu)).

(** The periodic part of [vlapic_callout_handler]: the next deadline and the
    time until it. *)
Definition next_period (btnow : bintime) (c : lcpu) : bintime * Z :=
  let bt := bintime_sub btnow (timer_fire_bt c) in
  let rem_sbt := bttosbt (timer_period_bt c) in
  let '(fire, rem_sbt) :=
    if bintime_lt bt (timer_period_bt c) then (timer_fire_bt c, rem_sbt - bttosbt bt)
    else (btnow, rem_sbt) in
  (bintime_add fire (timer_period_bt c), rem_sbt).

Definition vlapic_callout_handler (cpu : Z) : M unit :=
  pending <- gets (fun s => co_pending (callout_of cpu) (callouts s)) ;;
  if pending then skip else
  active <- gets (fun s => co_active (callout_of cpu) (callouts s)) ;;
  if negb active then skip else
  on_callouts (co_deactivate (callout_of cpu)) ;;;
  on_core cpu vlapic_fire_timer ;;;
  c <- gets (vm_lapic cpu) ;;
  when (vlapic_periodic_timer c) (
    btnow <- read_clock uptime ;;
    let '(fire, rem_sbt) := next_period btnow c in
    on_cpu cpu (fun c => c <| timer_fire_bt := fire |>) ;;;
    callout_reset_in cpu rem_sbt).

(** *** Inter-processor interrupts *)

Definition ipi_targets (cpu dest icrval : Z) : M Z :=
  let field := Z.land icrval APIC_DEST_MASK in
  c <- gets (vm_lapic cpu) ;;
  if field =? APIC_DEST_DESTFLD then
    vlapic_calcdest dest (Z.land icrval APIC_DESTMODE_LOG =? 0) false (x2apic c)
  else if field =? APIC_DEST_SELF then ret (CPU_SETOF cpu)
  else if field =? APIC_DEST_ALLISELF then gets active_cpus
  else if field =? APIC_DEST_ALLESELF then gets (fun s => CPU_CLR cpu (active_cpus s))
  else ret 0.

(** The result and [*retu]. *)
Definition vlapic_icrlo_write_handler (cpu : Z) : M (Z * bool) :=
  on_cpu cpu (fun c => c <| icr_lo ::= fun x => clr x APIC_DELSTAT_PEND |>) ;;;
  c <- gets (vm_lapic cpu) ;;
  let icrval := Z.lor (Z.shiftl (icr_hi c) 32) (icr_lo c) in
  let dest := if x2apic c then u32 (Z.shiftr icrval 32) else u32 (Z.shiftr icrval (32 + 24)) in
  let vec := Z.land icrval APIC_VECTOR_MASK in
  let mode := Z.land icrval APIC_DELMODE_MASK in
  if (mode =? APIC_DELMODE_FIXED) && (vec <? 16) then
    on_core cpu (vlapic_set_error APIC_ESR_SEND_ILLEGAL_VECTOR) ;;; ret (0, false)
  else if (mode =? APIC_DELMODE_FIXED) || (mode =? APIC_DELMODE_NMI) then
    dmask <- ipi_targets cpu dest icrval ;;
    each_cpu (fun i => if mode =? APIC_DELMODE_FIXED then lapic_set_intr i vec ;;; skip
                       else tell (out_nmi i)) (cpus_in dmask) ;;;
    ret (0, false)
  else if (mode =? APIC_DELMODE_INIT) && (Z.land icrval APIC_LEVEL_MASK =? APIC_LEVEL_DEASSERT) then
    ret (0, false)
  else if (mode =? APIC_DELMODE_INIT) && ((cpu =? 0) && negb (dest =? 0) && (dest <? VM_MAXCPU)) then
    c2 <- gets (vm_lapic dest) ;;
    when (bool_decide (boot c2 = BS_INIT)) (on_cpu dest (fun c => c <| boot := BS_SIPI |>)) ;;;
    ret (0, false)
  else if (mode =? APIC_DELMODE_STARTUP) && ((cpu =? 0) && negb (dest =? 0) && (dest <? VM_MAXCPU)) then
    c2 <- gets (vm_lapic dest) ;;
    if negb (bool_decide (boot c2 = BS_SIPI)) then ret (0, false)
    else
      on_cpu dest (fun c => c <| boot := BS_RUNNING |>) ;;;
      tell (out_spinup cpu dest (u32 (Z.shiftl vec XHYVE_PAGE_SHIFT))) ;;;
      ret (0, true)
  else ret (1, false).

Definition vlapic_self_ipi_handler (cpu val : Z) : M unit :=
  c <- gets (vm_lapic cpu) ;;
  KASSERT (x2apic c) ;;;
  lapic_set_intr cpu (Z.land val 0xff) ;;;
  skip.

Definition vlapic_svr_write_handler (cpu : Z) : M unit :=
  c <- gets (vm_lapic cpu) ;;
  let new := svr (core c) in
  let old := svr_last c in
  on_cpu cpu (fun c => c <| svr_last := new |>) ;;;
  let changed := Z.lxor old new in
  if negb (tst changed APIC_SVR_ENABLE) then skip
  else if negb (tst new APIC_SVR_ENABLE) then
    on_callouts (co_stop (callout_of cpu)) ;;; vlapic_mask_lvts cpu
  else when (vlapic_periodic_timer c) (vlapic_icrtmr_write_handler cpu).

(** *** The register window *)

Definition vlapic_read (cpu : Z) (mmio_access : bool) (offset : Z) : M Z :=
  c <- gets (vm_lapic cpu) ;;
  if x2apic c && mmio_access then ret 0
  else if negb (x2apic c) && negb mmio_access then ret 0
  else if LAPIC_SIZE <? offset then ret 0
  else
    let offset := clr offset 3 in
    match offset with
    | 0x020 => ret (apic_id c)
    | 0x030 => ret (version c)
    | 0x080 => ret (vlapic_get_tpr (core c))
    | 0x090 => ret (apr c)
    | 0x0a0 => ret (ppr (core c))
    | 0x0b0 => ret (eoi c)
    | 0x0d0 => ret (ldr c)
    | 0x0e0 => ret (dfr c)
    | 0x0f0 => ret (svr (core c))
    | 0x280 => ret (esr (core c))
    | 0x300 => ret (if x2apic c then Z.lor (icr_lo c) (Z.shiftl (icr_hi c) 32) else icr_lo c)
    | 0x310 => ret (icr_hi c)
    | 0x2f0 | 0x320 | 0x330 | 0x340 | 0x350 | 0x360 | 0x370 =>
        ret (vlapic_get_lvt (lvt_off_to_idx offset) (core c))
    | 0x380 => ret (icr_timer c)
    | 0x390 => vlapic_get_ccr cpu
    | 0x3e0 => ret (dcr_timer c)
    | _ =>
        match window256 0x100 offset, window256 0x180 offset, window256 0x200 offset with
        | Some i, _, _ => ret (word (isr (core c)) i)
        | _, Some i, _ => ret (word (tmr (core c)) i)
        | _, _, Some i => ret (word (irr (core c)) i)
        | _, _, _ => ret 0
        end
    end.

(** The result and [*retu]. *)
Definition vlapic_write (cpu : Z) (mmio_access : bool) (offset data : Z) : M (Z * bool) :=
  KASSERT ((Z.land offset 0xf =? 0) && (offset <? XHYVE_PAGE_SIZE)) ;;;
  if LAPIC_SIZE <? offset then ret (0, false) else
  c <- gets (vm_lapic cpu) ;;
  if x2apic c && mmio_access then ret (0, false)
  else if negb (x2apic c) && negb mmio_access then ret (0, false)
  else
    let set (f : lcpu -> lcpu) : M unit := on_cpu cpu f in
    let done (m : M unit) : M (Z * bool) := m ;;; ret (0, false) in
    match offset with
    | 0x020 => done (set (fun c => vlapic_id_write_handler (c <| apic_id := u32 data |>)))
    | 0x080 => done (on_core cpu (vlapic_set_tpr (Z.land data 0xff)))
    | 0x0b0 => done (on_core cpu vlapic_process_eoi)
    | 0x0d0 => done (set (fun c => vlapic_ldr_write_handler (c <| ldr := u32 data |>)))
    | 0x0e0 => done (set (fun c => vlapic_dfr_write_handler (c <| dfr := u32 data |>)))
    | 0x0f0 => done (set (fun c => c <| core ::= fun l => l <| svr := u32 data |> |>) ;;;
                     vlapic_svr_write_handler cpu)
    | 0x300 =>
        set (fun c => c <| icr_lo := u32 data |>) ;;;
        when (x2apic c) (set (fun c => c <| icr_hi := u32 (Z.shiftr data 32) |>)) ;;;
        vlapic_icrlo_write_handler cpu
    | 0x310 => done (set (fun c => c <| icr_hi := u32 data |>))
    | 0x2f0 | 0x320 | 0x330 | 0x340 | 0x350 | 0x360 | 0x370 =>
        done (update_lvt cpu offset (fun _ => u32 data) ;;; vlapic_lvt_write_handler cpu offset)
    | 0x380 => done (set (fun c => c <| icr_timer := u32 data |>) ;;; vlapic_icrtmr_write_handler cpu)
    | 0x3e0 => done (set (fun c => c <| dcr_timer := u32 data |>) ;;; vlapic_dcr_write_handler cpu)
    | 0x280 => done (on_core cpu vlapic_esr_write_handler)
    | 0x3f0 => done (when (x2apic c) (vlapic_self_ipi_handler cpu data))
    | _ => ret (0, false)
    end.

(** *** Set-up *)

Definition vlapic_reset (cpu : Z) : M unit :=
  on_cpu cpu (fun c =>
    c <| core ::= fun l => l <| tpr := 0 |> <| ppr := 0 |> <| svr := APIC_SVR_VECTOR |> <| esr := 0 |>
                             <| irr := replicate 8 0 |> <| isr := replicate 8 0 |> <| tmr := replicate 8 0 |> |>
      <| apic_id := vlapic_get_id c |>
      <| version := Z.lor VLAPIC_VERSION (Z.shiftl VLAPIC_MAXLVT_INDEX MAXLVTSHIFT) |>
      <| apr := 0 |> <| eoi := 0 |> <| ldr := 0 |> <| dfr := 0xffffffff |> <| icr_lo := 0 |> <| icr_hi := 0 |>
      <| lvts := replicate 7 0 |> <| icr_timer := 0 |> <| dcr_timer := 0 |>) ;;;
  vlapic_mask_lvts cpu ;;;
  on_cpu cpu (fun c => c <| core ::= vlapic_reset_tmr |> <| dcr_timer := 0 |>) ;;;
  vlapic_dcr_write_handler cpu ;;;
  on_cpu cpu (fun c => c <| boot := if cpu =? 0 then BS_RUNNING else BS_INIT |>
                         <| svr_last := svr (core c) |>).

Definition vlapic_init (cpu : Z) : M unit :=
  KASSERT ((0 <=? cpu) && (cpu <? VM_MAXCPU)) ;;;
  let base := Z.lor DEFAULT_APIC_BASE APICBASE_ENABLED in
  on_cpu cpu (fun c => c <| core ::= fun l =>
    l <| msr_apicbase := if cpu =? 0 then Z.lor base APICBASE_BSP else base |> |>) ;;;
  vlapic_reset cpu.

Inductive x2apic_state : Type := X2APIC_DISABLED | X2APIC_ENABLED.

Definition vlapic_set_x2apic_state (cpu : Z) (state : x2apic_state) : M unit :=
  on_cpu cpu (fun c => c <| core ::= fun l => l <| msr_apicbase ::= fun b =>
    match state with
    | X2APIC_DISABLED => clr b APICBASE_X2APIC
    | X2APIC_ENABLED => Z.lor b APICBASE_X2APIC
    end |> |>) ;;;
  on_cpu cpu (fun c =>
    let c := c <| apic_id := vlapic_get_id c |> in
    if x2apic c then c <| ldr := x2apic_ldr c |> <| dfr := 0 |>
    else c <| ldr := 0 |> <| dfr := 0xffffffff |>).

Definition vlapic_get_apicbase (c : lcpu) : Z := msr_apicbase (core c).

Definition vlapic_set_apicbase (cpu new : Z) : M Z :=
  c <- gets (vm_lapic cpu) ;;
  ret (if negb (msr_apicbase (core c) =? new) then -1 else 0).

(** *** Accesses of the guest (vmm_lapic.c) *)

Definition x2apic_msr (msr : Z) : bool := (0x800 <=? msr) && (msr <=? 0xbff).
Definition x2apic_msr_to_regoff (msr : Z) : Z := u32 (Z.shiftl (u32 (msr - 0x800)) 4).
Definition lapic_msr (msr : Z) : bool := x2apic_msr msr || (msr =? MSR_APICBASE).

(** The error and the value. *)
Definition lapic_rdmsr (cpu msr : Z) : M (Z * Z) :=
  if msr =? MSR_APICBASE then c <- gets (vm_lapic cpu) ;; ret (0, vlapic_get_apicbase c)
  else v <- vlapic_read cpu false (x2apic_msr_to_regoff msr) ;; ret (0, v).

Definition lapic_wrmsr (cpu msr val : Z) : M (Z * bool) :=
  if msr =? MSR_APICBASE then e <- vlapic_set_apicbase cpu val ;; ret (e, false)
  else vlapic_write cpu false (x2apic_msr_to_regoff msr) val.

Definition lapic_mmio_write (cpu gpa wval size : Z) : M (Z * bool) :=
  let off := u64 (gpa - DEFAULT_APIC_BASE) in
  if negb (size =? 4) || negb (Z.land off 0xf =? 0) then ret (EINVAL, false)
  else vlapic_write cpu true off wval.

Definition lapic_mmio_read (cpu gpa : Z) : M (Z * Z) :=
  let off := clr (u64 (gpa - DEFAULT_APIC_BASE)) 3 in
  if negb (Z.land off 0xf =? 0) then ret (EINVAL, 0)
  else v <- vlapic_read cpu true off ;; ret (0, v).
End Chip.
