(* ===== verification/LapicSafe.v ===== *)
(** * The local APICs together: safety

    An invariant of the whole set of local APICs, I/O APIC and timers of file
    Lapic, that every operation preserves and under which every operation
    returns: none of the assertions of vlapic.c fails, whatever the guest
    writes to the registers, whichever interrupts arrive and whenever the
    timers expire.  The exceptions are the three guest actions named by
    [chip_allowed], for which the examples show that the code does abort. *)

From S2P Require Import Prelude Effects Interface VmmCommon Bintime Vlapic Vioapic Lapic.
Local Open Scope cmd_scope.

(** ** What the operations of one local APIC leave alone *)

Definition kept (l l' : vlapic) : Prop :=
  svr l' = svr l /\ lvt_last l' = lvt_last l /\ msr_apicbase l' = msr_apicbase l.

Lemma kept_refl l : kept l l.
Proof. done. Qed.

Lemma kept_trans l1 l2 l3 : kept l1 l2 -> kept l2 l3 -> kept l1 l3.
Proof. unfold kept. intuition congruence. Qed.

Section Keeps.
Context {V : Type} `{!LapicOut V}.

Definition keeps {A} (c : cmd (lmachine V) A) : Prop :=
  forall m a m', c m = Return (a, m') -> kept (lapic m) (lapic m').

Lemma keeps_bind {A B} (c : cmd (lmachine V) A) (k : A -> cmd (lmachine V) B) :
  keeps c -> (forall a, keeps (k a)) -> keeps (bind c k).
Proof.
  intros Hc Hk m b m' H. unfold bind in H. destruct (c m) as [[a m1]| |] eqn:E; try done.
  eapply kept_trans; [exact (Hc _ _ _ E)|exact (Hk _ _ _ _ H)].
Qed.

Lemma keeps_ret {A} (a : A) : keeps (ret a).
Proof. intros m b m' H. by injection H as _ <-. Qed.
Lemma keeps_gets {A} (f : lmachine V -> A) : keeps (gets f).
Proof. intros m b m' H. by injection H as _ <-. Qed.
Lemma keeps_skip : keeps skip.
Proof. intros m b m' H. by injection H as _ <-. Qed.
Lemma keeps_emit f : keeps (emit f).
Proof. intros m b m' H. by injection H as _ <-. Qed.
Lemma keeps_KASSERT b : keeps (KASSERT b).
Proof. intros m a m' H. unfold KASSERT in H. destruct b; [|done]. by injection H as _ <-. Qed.
Lemma keeps_set f : (forall l, kept l (f l)) -> keeps (set_lapic f).
Proof. intros Hf m a m' H. injection H as _ <-. apply Hf. Qed.
Lemma keeps_when b c : keeps c -> keeps (when b c).
Proof. destruct b; [done|]. intros _. apply keeps_skip. Qed.
Lemma keeps_hang {A} : keeps (A := A) (fun _ => Hang).
Proof. done. Qed.
End Keeps.

Create HintDb keeps.
#[export] Hint Resolve keeps_ret keeps_gets keeps_skip keeps_emit keeps_KASSERT keeps_hang : keeps.

(** [keeps] of a command, by its syntax. *)
Ltac keeps :=
  repeat lazymatch goal with
  | |- keeps (bind _ _) => apply keeps_bind; [|intro]
  | |- keeps (when _ _) => apply keeps_when
  | |- keeps (set_lapic _) => apply keeps_set; intro; done
  | |- keeps (if ?b then _ else _) => destruct b
  | |- keeps (match ?o with Some _ => _ | None => _ end) => destruct o as [[? ?]|]
  | |- keeps (let _ := _ in _) => cbv zeta
  | |- keeps _ => first [progress eauto with keeps | progress cbv beta]
  end.

Section KeepsOps.
Context {V : Type} `{!LapicOut V}.

Lemma keeps_update_ppr : keeps (V := V) vlapic_update_ppr.
Proof. unfold vlapic_update_ppr. keeps. Qed.

Lemma keeps_intr_ready_with se v : (forall mask, keeps (V := V) (se mask)) -> keeps (set_intr_ready_with se v).
Proof. intros H. unfold set_intr_ready_with. keeps. Qed.

Lemma keeps_fire_with se lvt : (forall mask, keeps (V := V) (se mask)) -> keeps (fire_lvt_with se lvt).
Proof. intros H. pose proof (keeps_intr_ready_with se). unfold fire_lvt_with. keeps. Qed.

Lemma keeps_error_fuel n mask : keeps (V := V) (set_error_fuel n mask).
Proof.
  revert mask. induction n as [|n IH]; intros mask; cbn [set_error_fuel]; [keeps|].
  pose proof (fun lvt => keeps_fire_with _ lvt IH). keeps.
Qed.

Lemma keeps_set_error mask : keeps (V := V) (vlapic_set_error mask).
Proof. apply keeps_error_fuel. Qed.
Lemma keeps_set_intr_ready v : keeps (V := V) (vlapic_set_intr_ready v).
Proof. apply keeps_intr_ready_with, keeps_set_error. Qed.
Lemma keeps_fire_lvt lvt : keeps (V := V) (vlapic_fire_lvt lvt).
Proof. apply keeps_fire_with, keeps_set_error. Qed.
End KeepsOps.
#[export] Hint Resolve keeps_update_ppr keeps_set_error keeps_set_intr_ready keeps_fire_lvt : keeps.

Lemma keeps_lapic {V} `{!LapicOut V} o : keeps (V := V) (run_lapic o).
Proof.
  destruct o; cbn [run_lapic]; unfold vlapic_intr_accepted, vlapic_process_eoi, vlapic_set_cr8, vlapic_set_tpr,
    vlapic_trigger_lvt, vlapic_fire_timer, vlapic_fire_cmci, vlapic_esr_write_handler; keeps.
Qed.

(** A command of file Vlapic, from a consistent local APIC: it returns, keeps it
    consistent and leaves the registers it does not own. *)
Definition core_safe {A} (c : cmd (lmachine (list lapic_call)) A) (l : vlapic) : Prop :=
  lapic_ok l -> wp c (fun _ m' => lapic_ok (lapic m') /\ kept l (lapic m')) (mk_lmachine l []).

Lemma core_safe_intro {A} (c : cmd (lmachine (list lapic_call)) A) l :
  (lapic_ok l -> wp c (fun _ m' => lapic_ok (lapic m')) (mk_lmachine l [])) -> keeps c -> core_safe c l.
Proof.
  intros H K Hl. specialize (H Hl). unfold wp in *. destruct (c _) as [[a m']| |] eqn:E; try done.
  split; [done|]. exact (K _ _ _ E).
Qed.

Lemma core_safe_op o l : lapic_allowed o l -> core_safe (run_lapic o) l.
Proof. intros Ha. apply core_safe_intro; [|apply keeps_lapic]. intros Hl. by apply wp_lapic. Qed.

Lemma wp_drop {S A} (c : cmd S A) (P : S -> Prop) s :
  wp (c ;;; skip) (fun _ => P) s -> wp c (fun _ => P) s.
Proof. unfold wp, bind. by destruct (c s) as [[a s']| |]. Qed.

Lemma core_safe_drop {A} (c : cmd (lmachine (list lapic_call)) A) l :
  core_safe (c ;;; skip) l -> core_safe c l.
Proof. intros H Hl. apply (wp_drop c (fun m => lapic_ok (lapic m) /\ kept l (lapic m))), H, Hl. Qed.

Lemma core_safe_ready v l : is_vector v -> core_safe (vlapic_set_intr_ready v) l.
Proof. intros Hv. apply core_safe_drop, (core_safe_op (LSetIntr v)). done. Qed.

Lemma core_safe_trigger idx l : core_safe (vlapic_trigger_lvt idx) l.
Proof. apply core_safe_drop, (core_safe_op (LTrigger idx)). done. Qed.

Lemma core_safe_error mask l : core_safe (vlapic_set_error mask) l.
Proof.
  apply core_safe_intro; [|auto with keeps]. intros [I F].
  eapply wp_conseq; [by apply set_error_spec|]. intros ? m' H. exact H.
Qed.

(** ** The invariant *)

(** The length of a tick of the timer: a bus clock of 2^27 Hz divided by a power of
    two. *)
Definition is_tick (bt : bintime) : Prop := exists e, 37 <= e <= 44 /\ bt = mk_bintime 0 (2 ^ e).

(** The offset of each entry of the local vector table, in the order of the
    page, and the index of its snapshot. *)
Definition lvt_offsets : list Z := [0x2f0; 0x320; 0x330; 0x340; 0x350; 0x360; 0x370].
Definition lvt_slots : list Z := [6; 2; 5; 4; 0; 1; 3].

(** The snapshots [lvt_last] are the entries of the page. *)
Definition lvt_synced (c : lcpu) : Prop :=
  forall p i, lvt_slots !! p = Some i -> lvt_last (core c) !! Z.to_nat i = lvts c !! p.

(** The 32-bit registers that select destinations. *)
Record regs_ok (c : lcpu) : Prop := {
  ok_icr_hi : icr_hi c in_u 32;
  ok_icr_lo : icr_lo c in_u 32;
  ok_ldr : ldr c in_u 32;
  ok_dfr : dfr c in_u 32;
}.

(** The fields of an invariant on the record of a local APIC, the unchanged ones
    closed. *)
Ltac cpu_split :=
  split; cbn [callouts readings upd vcpuid core lvts icr_timer timer_freq_bt timer_fire_bt timer_period_bt lvt_last];
  try done; try (match goal with H : regs_ok _ |- regs_ok _ => by destruct H end).

Section Invariant.
Context {T V : Type} `{!CalloutOps T, !CalloutLaws T, !VcpuOut V}.
Variables (uptime : nat -> bintime) (hosttime : nat -> Z) (callout_of : Z -> Z).
Local Abbreviation S := (chip T V).
Local Abbreviation M := (cmd S).
Implicit Types s : S.

(** One local APIC, at the [n]-th clock reading.  While its timer is running
    the deadline is no further away than the initial count. *)
Record cpu_ok (t : T) (n : nat) (i : nat) (c : lcpu) : Prop := {
  ok_vcpuid : vcpuid c = Z.of_nat i;
  ok_core : lapic_ok (core c);
  ok_lvts : length (lvts c) = 7%nat;
  ok_last : length (lvt_last (core c)) = 7%nat;
  ok_synced : lvt_synced c;
  ok_regs : regs_ok c;
  ok_icr_timer : icr_timer c in_u 32;
  ok_tick : is_tick (timer_freq_bt c);
  ok_fire : wf_bintime (timer_fire_bt c) /\ bt_val (timer_fire_bt c) < 2 ^ 127 + 2 ^ 76;
  ok_period : bt_val (timer_period_bt c) = icr_timer c * frac (timer_freq_bt c) /\ wf_bintime (timer_period_bt c);
  ok_callout : co_ok (callout_of (Z.of_nat i)) t;
  ok_running : co_active (callout_of (Z.of_nat i)) t = true ->
    bt_val (timer_fire_bt c) <= bt_val (uptime n) + icr_timer c * frac (timer_freq_bt c);
}.

Record chip_ok (s : S) : Prop := {
  ok_len : length (cpus s) = 16%nat;
  ok_cpus : forall i c, cpus s !! i = Some c -> cpu_ok (callouts s) (readings s) i c;
  ok_active : active_cpus s in_u 16;
  ok_ioapic : wf_vioapic (ioapic s);
}.

Definition is_cpu (cpu : Z) : Prop := 0 <= cpu < VM_MAXCPU.

Lemma vm_lapic_lookup cpu s : chip_ok s -> is_cpu cpu -> cpus s !! Z.to_nat cpu = Some (vm_lapic cpu s).
Proof.
  intros H Hc. unfold vm_lapic. destruct (lookup_lt_is_Some_2 (cpus s) (Z.to_nat cpu)) as [c E]; [|by rewrite E].
  rewrite (ok_len _ H). unfold is_cpu, VM_MAXCPU in Hc. lia.
Qed.

Lemma cpu_ok_at cpu s : chip_ok s -> is_cpu cpu -> cpu_ok (callouts s) (readings s) (Z.to_nat cpu) (vm_lapic cpu s).
Proof. intros H Hc. apply H. by apply vm_lapic_lookup. Qed.

Lemma length_set_cpu cpu f s : length (cpus (set_cpu cpu f s)) = length (cpus s).
Proof. apply length_alter. Qed.

Lemma vm_lapic_set cpu f s : length (cpus s) = 16%nat -> is_cpu cpu ->
  vm_lapic cpu (set_cpu cpu f s) = f (vm_lapic cpu s).
Proof.
  intros H Hc. unfold vm_lapic, set_cpu. cbn [cpus upd]. rewrite list_lookup_alter_eq.
  destruct (lookup_lt_is_Some_2 (cpus s) (Z.to_nat cpu)) as [c ->]; [|done].
  rewrite H. unfold is_cpu, VM_MAXCPU in Hc. lia.
Qed.

Lemma vm_lapic_set_ne cpu i f s : is_cpu cpu -> is_cpu i -> i <> cpu -> vm_lapic i (set_cpu cpu f s) = vm_lapic i s.
Proof.
  intros Hc Hi Hne. unfold vm_lapic, set_cpu. cbn [cpus upd]. rewrite list_lookup_alter_ne; [done|].
  unfold is_cpu in *. lia.
Qed.

(** A change of one local APIC. *)
Lemma chip_ok_set cpu f s : chip_ok s ->
  (cpu_ok (callouts s) (readings s) (Z.to_nat cpu) (vm_lapic cpu s) ->
   cpu_ok (callouts s) (readings s) (Z.to_nat cpu) (f (vm_lapic cpu s))) ->
  chip_ok (set_cpu cpu f s).
Proof.
  intros H Hf. destruct H as [Hl Hc Ha Hio]. split; unfold set_cpu; cbn [cpus callouts readings active_cpus ioapic upd]; try done.
  - by rewrite length_alter.
  - intros i c E. destruct (decide (i = Z.to_nat cpu)) as [->|Hne].
    + rewrite list_lookup_alter_eq in E. destruct (cpus s !! Z.to_nat cpu) as [c0|] eqn:E0; [|done].
      injection E as <-. unfold vm_lapic in Hf. rewrite E0 in Hf. apply Hf. by apply Hc.
    + rewrite list_lookup_alter_ne in E by done. by apply Hc.
Qed.

(** A change of its core that keeps it consistent. *)
Lemma cpu_ok_core t n i c l : cpu_ok t n i c -> lapic_ok l -> kept (core c) l -> cpu_ok t n i (c <| core := l |>).
Proof.
  intros [] Hl (E1 & E2 & E3). cpu_split.
  - by rewrite E2.
  - intros p j Hp. cbn. rewrite E2. by apply ok_synced0.
Qed.

Lemma chip_ok_outs f s : chip_ok s -> chip_ok (s <| outs ::= f |>).
Proof. intros []. by split. Qed.

Lemma chip_ok_signal cpu call s : chip_ok s -> chip_ok (signal cpu call s).
Proof. destruct call; cbn; try apply chip_ok_outs; done. Qed.

Lemma wp_on_core_with perform {A} cpu (c : cmd _ A) s :
  chip_ok s -> is_cpu cpu -> (forall call s, chip_ok s -> chip_ok (perform call s)) ->
  core_safe c (core (vm_lapic cpu s)) ->
  wp (on_core_with perform cpu c) (fun _ s' => chip_ok s') s.
Proof.
  intros H Hcpu Hp Hc. pose proof (cpu_ok_at cpu s H Hcpu) as Hok. specialize (Hc (ok_core _ _ _ _ Hok)).
  unfold wp in *. unfold on_core_with. destruct (c _) as [[a m]| |]; try done. destruct Hc as [Hl Hk].
  assert (H0 : chip_ok (set_cpu cpu (fun l => l <| core := lapic m |>) s)).
  { apply chip_ok_set; [done|]. intros _. by apply cpu_ok_core. }
  revert H0. generalize (set_cpu cpu (fun l => l <| core := lapic m |>) s). induction (out m) as [|call log IH]; intros s0 H0; [done|].
  cbn. apply IH. by apply Hp.
Qed.

(** ** Commands that keep the invariant *)

Definition safe {A} (c : M A) : Prop := forall s, chip_ok s -> wp c (fun _ s' => chip_ok s') s.

Lemma safe_bind {A B} (c : M A) (k : A -> M B) : safe c -> (forall a, safe (k a)) -> safe (bind c k).
Proof.
  intros Hc Hk s H. apply wp_bind. eapply wp_conseq; [by apply Hc|]. intros a s' H'. by apply Hk.
Qed.
Lemma safe_ret {A} (a : A) : safe (ret a).
Proof. by intros s H. Qed.
Lemma safe_gets {A} (f : S -> A) : safe (gets f).
Proof. by intros s H. Qed.
Lemma safe_skip : safe skip.
Proof. by intros s H. Qed.
Lemma safe_when b c : safe c -> safe (when b c).
Proof. intros H. destruct b; [exact H|apply safe_skip]. Qed.
Lemma safe_tell f : safe (tell f).
Proof. intros s H. by apply chip_ok_outs. Qed.
Lemma safe_KASSERT b : b = true -> safe (KASSERT b).
Proof. by intros -> s H. Qed.

Lemma safe_on_cpu cpu f : (forall t n i c, cpu_ok t n i c -> cpu_ok t n i (f c)) -> safe (on_cpu cpu f).
Proof. intros Hf s H. apply chip_ok_set; [done|]. apply Hf. Qed.

Lemma safe_each f vs : (forall v, v ∈ vs -> safe (f v)) -> safe (each_cpu f vs).
Proof.
  induction vs as [|v vs IH]; intros H; [apply safe_skip|]. cbn. apply safe_bind.
  - apply H. apply elem_of_cons. by left.
  - intros _. apply IH. intros w Hw. apply H. apply elem_of_cons. by right.
Qed.
End Invariant.

Create HintDb chip.
#[export] Hint Resolve safe_ret safe_gets safe_skip safe_tell : chip.

Ltac safe :=
  repeat lazymatch goal with
  | |- safe _ _ (bind _ _) => apply safe_bind; [|intro]
  | |- safe _ _ (when _ _) => apply safe_when
  | |- safe _ _ (if ?b then _ else _) => let E := fresh "E" in destruct b eqn:E
  | |- safe _ _ (let _ := _ in _) => cbv zeta
  | |- safe _ _ _ => first [progress eauto with chip | progress cbv beta]
  end.

(** ** Sets of vCPUs *)

Lemma find_filter (P : Z -> bool) l : NoDup l ->
  List.filter P l = match List.find P l with
                    | Some x => x :: List.filter (fun y => P y && negb (y =? x)) l
                    | None => []
                    end.
Proof.
  induction 1 as [|x l Hx _ IH]; [done|]. cbn. destruct (P x) eqn:E.
  - rewrite Z.eqb_refl. cbn. f_equal. apply filter_same. intros y Hy.
    rewrite (proj2 (Z.eqb_neq y x)); [by rewrite andb_true_r|]. by intros ->.
  - cbn. rewrite IH. destruct (List.find P l) as [y|]; done.
Qed.

Lemma set_cpus_filter n p : (length (List.filter (Z.testbit p) (seqZ 0 64)) <= n)%nat ->
  set_cpus n p = List.filter (Z.testbit p) (seqZ 0 64).
Proof.
  revert p. induction n as [|n IH]; intros p Hn.
  { cbn. destruct (List.filter _ _); [done|cbn in Hn; lia]. }
  cbn [set_cpus]. unfold CPU_FFS. pose proof (find_filter (Z.testbit p) (seqZ 0 64) (NoDup_seqZ 0 64)) as E.
  destruct (List.find _ _) as [x|] eqn:Ef; [|by rewrite E].
  apply List.find_some in Ef as [Hx Hb]. apply list_elem_of_In, elem_of_seqZ in Hx.
  cbv zeta. rewrite (proj2 (Z.eqb_neq (x + 1) 0)) by lia. replace (x + 1 - 1) with x by lia. rewrite E. f_equal.
  assert (Ec : List.filter (Z.testbit (CPU_CLR x p)) (seqZ 0 64) =
               List.filter (fun y => Z.testbit p y && negb (y =? x)) (seqZ 0 64)).
  { apply filter_same. intros y Hy%elem_of_seqZ. unfold CPU_CLR. rewrite clr_testbit, bit_testbit by lia.
    by rewrite Z.eqb_sym. }
  rewrite IH; [done|]. rewrite Ec. rewrite E in Hn. cbn in Hn. lia.
Qed.

(** The loop visits the members of the set, in increasing order. *)
Lemma cpus_in_filter p : cpus_in p = List.filter (Z.testbit p) (seqZ 0 64).
Proof. apply set_cpus_filter. etrans; [apply List.filter_length_le|]. by rewrite length_seqZ. Qed.

Lemma elem_cpus_in p v : v ∈ cpus_in p <-> 0 <= v < 64 /\ Z.testbit p v = true.
Proof.
  rewrite cpus_in_filter, list_elem_of_In, List.filter_In, <- list_elem_of_In, elem_of_seqZ. split; intros [? ?]; split; try done; lia.
Qed.

Lemma cpus_in_range p v : p in_u 16 -> v ∈ cpus_in p -> is_cpu v.
Proof.
  intros Hp Hv. apply elem_cpus_in in Hv as [Hv Ht]. unfold is_cpu, VM_MAXCPU.
  destruct (Z.lt_ge_cases v 16); [lia|]. by rewrite (proj2 (proj1 (in_u_bits 16 p ltac:(lia)) Hp)) in Ht by lia.
Qed.


(** ** Delivery *)
Section Delivery.
Context {T V : Type} `{!CalloutOps T, !CalloutLaws T, !VcpuOut V}.
Variables (uptime : nat -> bintime) (hosttime : nat -> Z) (callout_of : Z -> Z).
Local Abbreviation S := (chip T V).
Local Abbreviation safe := (safe (T := T) (V := V) uptime callout_of).
Local Abbreviation chip_ok := (chip_ok (T := T) (V := V) uptime callout_of).
Implicit Types s : S.

Lemma safe_on_core_with perform {A} cpu (c : cmd _ A) : is_cpu cpu ->
  (forall call s, chip_ok s -> chip_ok (perform call s)) -> (forall l, core_safe c l) ->
  safe (on_core_with perform cpu c).
Proof. intros Hc Hp Hs s H. by apply wp_on_core_with. Qed.

Lemma safe_set_intr cpu vector : safe (lapic_set_intr cpu vector).
Proof.
  unfold lapic_set_intr. safe. bools. apply safe_on_core_with.
  - unfold is_cpu, VM_MAXCPU in *. lia.
  - intros call s Hs. by apply chip_ok_signal.
  - intros l. apply core_safe_ready. unfold is_vector. lia.
Qed.
Hint Resolve safe_set_intr : chip.

Lemma logical_dest_range dest lowprio x2 s vs d :
  (forall v, v ∈ vs -> is_cpu v) -> d in_u 16 -> logical_dest dest lowprio x2 s vs d in_u 16.
Proof.
  revert d. induction vs as [|v vs IH]; intros d Hv Hd; [done|]. cbn [logical_dest].
  assert (Hv' : forall w, w ∈ vs -> is_cpu w) by (intros w Hw; apply Hv, elem_of_cons; by right).
  assert (Hs : CPU_SET v d in_u 16).
  { apply lor_in_u; [lia|done|]. apply bit_in_u. apply Hv, elem_of_cons. by left. }
  destruct (logical_bits _ _ _) as [[a b]|]; [|by apply IH]. cbv zeta. repeat split_if; try done; by apply IH.
Qed.

(** A destination that the shift of [CPU_SET] can represent, or a broadcast. *)
Definition dest_ok (phys x2 : bool) (dest : Z) : Prop :=
  phys = true -> 0 <= i32 dest \/ (x2 = true /\ dest = 0xffffffff).

Lemma wp_calcdest dest phys lowprio x2 s : dest_ok phys x2 dest -> chip_ok s ->
  wp (vlapic_calcdest dest phys lowprio x2) (fun m s' => s' = s /\ m in_u 16) s.
Proof.
  intros Hd H. unfold vlapic_calcdest. split_if; [by wp_go; split; [|apply H]|]. destruct phys.
  - assert (Hp : 0 <= i32 dest) by (destruct (Hd eq_refl) as [|[-> ->]]; done). cbv zeta. split_if.
    + wp_go. apply wp_KASSERT; [by apply Z.leb_le|]. wp_go. split; [done|]. apply lor_in_u; [lia|done|].
      apply bit_in_u. bools. unfold VM_MAXCPU in *. lia.
    + by wp_go.
  - wp_go. split; [done|]. apply logical_dest_range; [|done]. intros v Hv. eapply cpus_in_range; [apply H|done].
Qed.

(** A set of destinations, then an action on each. *)
Lemma safe_targets {A} (c : cmd S Z) (k : Z -> cmd S A) :
  (forall s, chip_ok s -> wp c (fun m s' => s' = s /\ m in_u 16) s) ->
  (forall m, m in_u 16 -> safe (k m)) -> safe (bind c k).
Proof.
  intros Hc Hk s H. apply wp_bind. eapply wp_conseq; [by apply Hc|]. intros m s' [-> Hm]. by apply Hk.
Qed.

Lemma safe_deliver level dest phys delmode vec : 0 <= i32 dest -> safe (deliver_intr level dest phys delmode vec).
Proof.
  intros Hd. unfold deliver_intr. split_if; [apply safe_skip|]. apply safe_targets.
  - intros s H. apply wp_calcdest; [by left|done].
  - intros m Hm. apply safe_each. intros v Hv. safe.
Qed.
Hint Resolve safe_deliver : chip.

Lemma tmr_set_ok vector (b : bool) l : is_vector vector -> lapic_ok l -> lapic_ok (vlapic_set_tmr vector b l).
Proof.
  intros Hv Hl. pose proof (wp_lapic (V := list lapic_call) (LTmr vector b) (mk_lmachine l []) Hl Hv) as H. exact H.
Qed.

Lemma tmr_reset_ok l : lapic_ok l -> lapic_ok (vlapic_reset_tmr l).
Proof.
  intros Hl. unfold vlapic_reset_tmr. assert (Hv : Forall is_vector (seqZ 0 256)).
  { apply Forall_forall. intros x Hx%elem_of_seqZ. unfold is_vector. lia. }
  revert l Hl. induction Hv as [|v vs Hv _ IH]; intros l Hl; [done|]. cbn. by apply IH, tmr_set_ok.
Qed.

Lemma reset_tmr_kept l : kept l (vlapic_reset_tmr l).
Proof.
  unfold vlapic_reset_tmr. generalize (seqZ 0 256). intros vs. revert l.
  induction vs as [|v vs IH]; intros l; [done|]. cbn. exact (kept_trans _ _ _ (conj eq_refl (conj eq_refl eq_refl)) (IH _)).
Qed.

Lemma safe_core_upd cpu f : (forall l, lapic_ok l -> lapic_ok (f l) /\ kept l (f l)) ->
  safe (on_cpu cpu (fun c => c <| core ::= f |>)).
Proof.
  intros Hf. apply safe_on_cpu. intros t n i c H. destruct (Hf _ (ok_core _ _ _ _ _ _ H)) as [H1 H2].
  exact (cpu_ok_core _ _ _ _ _ _ _ H H1 H2).
Qed.

Lemma safe_set_tmr_level cpu dest phys delmode vector : 0 <= i32 dest -> is_vector vector ->
  safe (vlapic_set_tmr_level cpu dest phys delmode vector).
Proof.
  intros Hd Hv. unfold vlapic_set_tmr_level. apply safe_bind.
  - apply safe_KASSERT. unfold is_vector in Hv. apply andb_true_iff. split; apply Z.leb_le; lia.
  - intros _. split_if; [apply safe_skip|]. apply safe_targets; [intros s H; apply wp_calcdest; [by left|done]|].
    intros m _. split_if; [apply safe_skip|]. apply safe_core_upd. intros l Hl.
    split; [by apply tmr_set_ok|done].
Qed.

(** The messages of an I/O APIC have 8-bit fields. *)
Definition msg_ok (m : intr_msg) : Prop := 0 <= i32 (m_dest m) /\ is_vector (m_vector m).

Lemma decode_ok r : r in_u 64 -> msg_ok (decode r).
Proof.
  intros Hr. unfold decode. cbv zeta. split; cbn [m_dest m_vector].
  - unfold i32, to_signed. cbv zeta. pose proof (u32_in_u (Z.shiftr r 32)) as Hh.
    assert (H8 : 0 <= Z.shiftr (u32 (Z.shiftr r 32)) APIC_ID_SHIFT < 256).
    { unfold APIC_ID_SHIFT. rewrite (Z.shiftr_div_pow2 (u32 _)) by lia. split; [apply Z.div_pos; lia|].
      apply Z.div_lt_upper_bound; lia. }
    rewrite Z.mod_small by lia. split_if; bools; [lia|]. lia.
  - change (Z.land (u32 r) IOART_INTVEC in_u 8). apply land_in_u_r; [lia|]. range.
Qed.

Lemma update_tmr_ok v : wf_vioapic v -> Forall msg_ok (vioapic_update_tmr v).
Proof.
  intros [Hl Hr]. unfold vioapic_update_tmr. apply Forall_forall. intros m Hm.
  apply list_elem_of_filter in Hm as [_ Hm]. apply list_elem_of_fmap in Hm as (e & -> & He).
  apply decode_ok. by eapply Forall_forall in Hr.
Qed.

Lemma safe_rendezvous msgs : Forall msg_ok msgs -> safe (rendezvous_tmr msgs).
Proof.
  intros Hm. unfold rendezvous_tmr. apply safe_bind; [apply safe_gets|]. intros vs. apply safe_each.
  intros v _. unfold update_tmr. apply safe_bind.
  - apply safe_core_upd. intros l Hl. split; [by apply tmr_reset_ok|apply reset_tmr_kept].
  - intros _. induction Hm as [|m msgs [Hd Hv] _ IH]; [apply safe_skip|]. apply safe_bind; [by apply safe_set_tmr_level|].
    intros _. exact IH.
Qed.

Lemma run_or_ok (c : cmd S unit) s : safe c -> chip_ok s -> chip_ok (run_or c s) /\ c s = Return (tt, run_or c s).
Proof.
  intros Hc H. specialize (Hc s H). unfold wp, run_or in *. by destruct (c s) as [[[] s']| |].
Qed.

(** The view of the I/O APIC is the code: its messages are delivered and its
    rendezvous return. *)
Lemma deliver_returns r s : r in_u 64 -> chip_ok s ->
  let m := decode r in
  deliver_intr (m_level m) (m_dest m) (m_phys m) (m_delmode m) (m_vector m) s =
    Return (tt, vlapic_deliver_intr m s).
Proof. intros Hr H. cbv zeta. apply run_or_ok; [|done]. apply safe_deliver, decode_ok, Hr. Qed.

Lemma rendezvous_returns v s : wf_vioapic v -> chip_ok s ->
  rendezvous_tmr (vioapic_update_tmr v) s = Return (tt, smp_rendezvous_tmr (vioapic_update_tmr v) s).
Proof. intros Hv H. apply run_or_ok; [|done]. by apply safe_rendezvous, update_tmr_ok. Qed.

Lemma chip_ok_ioapic f s : (forall m : imachine S, around chip_ok m -> around chip_ok (f m)) ->
  chip_ok s -> chip_ok (on_ioapic f s).
Proof.
  intros Hf H. unfold on_ioapic. pose proof (Hf (ioapic s, s) (conj (ok_ioapic _ _ _ H) H)) as [Hw Hc].
  destruct (f (ioapic s, s)) as [io s']. destruct Hc. by split.
Qed.

Lemma fabric_deliver r w : r in_u 64 -> chip_ok w -> chip_ok (vlapic_deliver_intr (decode r) w).
Proof. intros Hr H. apply run_or_ok; [|done]. by apply safe_deliver, decode_ok. Qed.

Lemma fabric_rendezvous v w : wf_vioapic v -> chip_ok w -> chip_ok (smp_rendezvous_tmr (vioapic_update_tmr v) w).
Proof. intros Hv H. apply run_or_ok; [|done]. by apply safe_rendezvous, update_tmr_ok. Qed.

Lemma chip_ok_perform cpu call s : chip_ok s -> chip_ok (perform cpu call s).
Proof.
  intros H. destruct call; try by apply chip_ok_signal. cbn. apply chip_ok_ioapic; [|done]. intros m.
  apply around_eoi, fabric_deliver.
Qed.

Lemma safe_on_core {A} cpu (c : cmd _ A) : is_cpu cpu -> (forall l, core_safe c l) -> safe (on_core cpu c).
Proof. intros Hc Hs. apply safe_on_core_with; [done| |done]. intros call s. apply chip_ok_perform. Qed.
End Delivery.

(** Two updates of one element. *)
Lemma alter_alter {A} (f g : A -> A) i (l : list A) : alter f i (alter g i l) = alter (fun x => f (g x)) i l.
Proof. revert i. induction l as [|x l IH]; intros [|i]; cbn; [done..|]. f_equal. apply IH. Qed.

(** ** The timer *)

Lemma tick_pos bt : is_tick bt -> 0 < frac bt <= 2 ^ 44 /\ wf_bintime bt /\ bt_val bt = frac bt.
Proof.
  intros (e & He & ->). cbn [frac sec]. unfold bt_val. cbn [frac sec].
  pose proof (Z.pow_pos_nonneg 2 e ltac:(lia) ltac:(lia)). pose proof (Z.pow_le_mono_r 2 e 44 ltac:(lia) ltac:(lia)).
  split; [lia|]. split; [split; cbn; lia|lia].
Qed.

Lemma divisor_cases d : exists k, 0 <= k <= 7 /\ vlapic_timer_divisor d = Some (2 ^ k).
Proof.
  assert (H : forallb (fun x => existsb (fun k => bool_decide (vlapic_timer_divisor x = Some (2 ^ k))) (seqZ 0 8))
                (seqZ 0 16) = true) by (vm_compute; reflexivity).
  assert (Hl : Z.land d 0xb in_u 4) by (apply land_in_u_r; [lia|range]).
  assert (E : vlapic_timer_divisor d = vlapic_timer_divisor (Z.land d 0xb)).
  { unfold vlapic_timer_divisor. by rewrite <- Z.land_assoc. }
  rewrite E. pose proof (forall_below _ 16 (Z.land d 0xb) H Hl) as Hx. cbv beta in Hx.
  apply existsb_exists in Hx as (k & Hk & Hb). apply list_elem_of_In, elem_of_seqZ in Hk.
  apply bool_decide_eq_true in Hb. exists k. split; [lia|done].
Qed.

(** The tick of each divisor. *)
Lemma divisor_tick d : exists div, vlapic_timer_divisor d = Some div /\
  is_tick (FREQ2BT (u32 (VLAPIC_BUS_FREQ / div))).
Proof.
  destruct (divisor_cases d) as (k & Hk & E). exists (2 ^ k). split; [done|].
  assert (H : forallb (fun k => frac (FREQ2BT (u32 (VLAPIC_BUS_FREQ / 2 ^ k))) =? 2 ^ (37 + k)) (seqZ 0 8) = true)
    by (vm_compute; reflexivity).
  pose proof (forall_below _ 8 k H ltac:(lia)) as Hx. cbv beta in Hx. apply Z.eqb_eq in Hx.
  exists (37 + k). split; [lia|]. unfold FREQ2BT in *. cbn [frac] in Hx. by rewrite Hx.
Qed.

Lemma period_val freq n : is_tick freq -> n in_u 32 ->
  wf_bintime (bintime_mul freq n) /\ bt_val (bintime_mul freq n) = n * frac freq /\ n * frac freq < 2 ^ 76.
Proof.
  intros Ht Hn. destruct (tick_pos freq Ht) as (Hf & Hw & Hv). destruct (bintime_mul_val freq n Hw Hn) as [H1 H2].
  assert (n * frac freq < 2 ^ 76) by (change (2 ^ 76) with (2 ^ 32 * 2 ^ 44); nia).
  split; [done|]. split; [|done]. rewrite H2, Hv, Z.mod_small; [lia|]. split; [nia|]. change (2 ^ 128) with (2 ^ 76 * 2 ^ 52). lia.
Qed.

(** The current count is the number of whole ticks that remain. *)
Lemma ccr_ticks freq rem : is_tick freq -> wf_bintime rem -> bt_val rem / frac freq < 2 ^ 32 ->
  u32 (u64 (u32 (u64 (sec rem * BT2FREQ freq)) + frac rem / frac freq)) = bt_val rem / frac freq.
Proof.
  intros (e & He & ->) [Hs Hf] Hb. cbn [frac] in *.
  assert (Ep : 2 ^ 64 = 2 ^ (64 - e) * 2 ^ e) by (rewrite <- Z.pow_add_r by lia; f_equal; lia).
  pose proof (Z.pow_pos_nonneg 2 e ltac:(lia) ltac:(lia)). pose proof (Z.pow_pos_nonneg 2 (64 - e) ltac:(lia) ltac:(lia)).
  assert (Eb : BT2FREQ (mk_bintime 0 (2 ^ e)) = 2 ^ (64 - e)).
  { unfold BT2FREQ. cbn [frac]. rewrite !Z.shiftr_div_pow2 by lia.
    replace (2 ^ e / 2 ^ 2) with (2 ^ (e - 2)) by (rewrite <- Z.pow_sub_r by lia; done).
    replace (2 ^ e / 2 ^ 1) with (2 ^ (e - 1)) by (rewrite <- Z.pow_sub_r by lia; done).
    change 0x8000000000000000 with (2 ^ 63). replace (2 ^ 63) with (2 ^ (64 - e) * 2 ^ (e - 1)) by (rewrite <- Z.pow_add_r by lia; f_equal; lia).
    rewrite Z.div_add_l by (apply Z.pow_nonzero; lia). rewrite (Z.div_small (2 ^ (e - 2))); [lia|].
    split; [apply Z.pow_nonneg; lia|apply Z.pow_lt_mono_r; lia]. }
  rewrite Eb. assert (Ev : bt_val rem / 2 ^ e = sec rem * 2 ^ (64 - e) + frac rem / 2 ^ e).
  { unfold bt_val. rewrite Ep. replace (sec rem * (2 ^ (64 - e) * 2 ^ e) + frac rem) with (sec rem * 2 ^ (64 - e) * 2 ^ e + frac rem) by lia.
    by rewrite Z.div_add_l by lia. }
  rewrite Ev in *. assert (0 <= sec rem * 2 ^ (64 - e)) by nia. assert (0 <= frac rem / 2 ^ e) by (apply Z.div_pos; lia).
  rewrite (u64_id (_ * _)) by lia. rewrite (u32_id (_ * _)) by lia. rewrite u64_id, u32_id by lia. done.
Qed.

Section Timer.
Context {T V : Type} `{!CalloutOps T, !CalloutLaws T, !VcpuOut V}.
Variables (uptime : nat -> bintime) (hosttime : nat -> Z) (callout_of : Z -> Z).
Local Abbreviation S := (chip T V).
Local Abbreviation safe := (safe (T := T) (V := V) uptime callout_of).
Local Abbreviation chip_ok := (chip_ok (T := T) (V := V) uptime callout_of).
Local Abbreviation cpu_ok := (cpu_ok (T := T) uptime callout_of).
Implicit Types s : S.

(** The host clock is monotonic and has not run for 2^63 seconds; the vCPUs
    have timers of their own. *)
Record clock_ok : Prop := {
  clk_wf : forall n, wf_bintime (uptime n);
  clk_mono : forall n m, (n <= m)%nat -> bt_val (uptime n) <= bt_val (uptime m);
  clk_bound : forall n, bt_val (uptime n) < 2 ^ 127;
  clk_inj : forall i j, callout_of i = callout_of j -> i = j;
}.
Context (CLK : clock_ok).

Lemma cpu_ok_later t n m i c : (n <= m)%nat -> cpu_ok t n i c -> cpu_ok t m i c.
Proof. intros Hn []. split; try done. intros Ha. pose proof (clk_mono CLK n m Hn). specialize (ok_running0 Ha). lia. Qed.

Lemma cpu_ok_frame t t' n i c : co_ok (callout_of (Z.of_nat i)) t' ->
  co_active (callout_of (Z.of_nat i)) t' = co_active (callout_of (Z.of_nat i)) t -> cpu_ok t n i c -> cpu_ok t' n i c.
Proof. intros Ho Ha []. split; try done. by rewrite Ha. Qed.

(** A change of one local APIC together with its timer. *)
Lemma chip_ok_change cpu f s s' : chip_ok s -> is_cpu cpu ->
  cpus s' = alter f (Z.to_nat cpu) (cpus s) -> active_cpus s' = active_cpus s -> ioapic s' = ioapic s ->
  (readings s <= readings s')%nat ->
  (forall c, co_ok c (callouts s) -> co_ok c (callouts s')) ->
  (forall c, c <> callout_of cpu -> co_active c (callouts s') = co_active c (callouts s)) ->
  (cpu_ok (callouts s) (readings s) (Z.to_nat cpu) (vm_lapic cpu s) ->
   cpu_ok (callouts s') (readings s') (Z.to_nat cpu) (f (vm_lapic cpu s))) ->
  chip_ok s'.
Proof.
  intros H Hcpu Ec Ea Ei Hr Ho Hact Hf. pose proof (vm_lapic_lookup _ _ _ _ H Hcpu) as El. destruct H as [Hl Hc Ha Hio].
  split; [by rewrite Ec, length_alter| |by rewrite Ea|by rewrite Ei].
  intros i c E. rewrite Ec in E. destruct (decide (i = Z.to_nat cpu)) as [->|Hne].
  - rewrite list_lookup_alter_eq, El in E. injection E as <-. apply Hf. by apply Hc.
  - rewrite list_lookup_alter_ne in E by done. specialize (Hc i c E). eapply cpu_ok_later; [exact Hr|].
    eapply cpu_ok_frame; [apply Ho, Hc| |exact Hc]. apply Hact. intros Heq%(clk_inj CLK).
    unfold is_cpu in Hcpu. lia.
Qed.

Lemma wp_read_clock {A} (clk : nat -> A) (Q : A -> S -> Prop) s :
  Q (clk (readings s)) (s <| readings ::= Datatypes.S |>) -> wp (read_clock clk) Q s.
Proof. done. Qed.

Lemma safe_read_clock {A} (clk : nat -> A) : safe (read_clock clk).
Proof.
  intros s H. unfold read_clock, wp. destruct H as [Hl Hc Ha Hio]. split; cbn; try done.
  intros i c E. eapply cpu_ok_later; [|by apply Hc]. lia.
Qed.

Lemma safe_stop cpu : is_cpu cpu -> safe (on_callouts (co_stop (callout_of cpu))).
Proof.
  intros Hc s H. assert (Hco : co_ok (callout_of cpu) (callouts s)).
  { pose proof (cpu_ok_at _ _ _ _ H Hc) as []. by rewrite Z2Nat.id in ok_callout0 by apply Hc. }
  unfold on_callouts. wp_go. apply (chip_ok_change cpu (fun c => c) s); try done.
  - cbn. by rewrite list_alter_id.
  - intros c Ho. by apply stop_ok.
  - intros c Hne. by apply stop_frame.
  - intros []. split; try done; cbn [callouts upd]; rewrite Z2Nat.id in * by apply Hc.
    + by apply stop_ok.
    + by rewrite stop_active.
Qed.

Lemma safe_deactivate cpu : is_cpu cpu -> safe (on_callouts (co_deactivate (callout_of cpu))).
Proof.
  intros Hc s H. unfold on_callouts. wp_go. apply (chip_ok_change cpu (fun c => c) s); try done.
  - cbn. by rewrite list_alter_id.
  - intros c Ho. by apply deactivate_ok.
  - intros c Hne. by apply deactivate_frame.
  - intros []. split; try done; cbn [callouts upd]; rewrite Z2Nat.id in * by apply Hc.
    + by apply deactivate_ok.
    + by rewrite deactivate_active.
Qed.


Lemma callout_ok cpu s : chip_ok s -> is_cpu cpu -> co_ok (callout_of cpu) (callouts s).
Proof. intros H Hc. pose proof (cpu_ok_at _ _ _ _ H Hc) as []. by rewrite Z2Nat.id in ok_callout0 by apply Hc. Qed.

(** A deadline one period after [from] is representable. *)
Lemma deadline from per : wf_bintime from -> bt_val from < 2 ^ 127 -> wf_bintime per -> bt_val per < 2 ^ 76 ->
  wf_bintime (bintime_add from per) /\ bt_val (bintime_add from per) = bt_val from + bt_val per /\
  bt_val (bintime_add from per) < 2 ^ 127 + 2 ^ 76.
Proof.
  intros Hw Hb Hpw Hp. destruct (bintime_add_val from _ Hw Hpw) as [H1 H2]. pose proof Hw as [? ?]. pose proof Hpw as [? ?].
  assert (0 <= bt_val from) by (unfold bt_val; lia). assert (0 <= bt_val per) by (unfold bt_val; lia).
  rewrite Z.mod_small in H2 by lia. split; [done|]. lia.
Qed.

(** The initial count [n] was written in state [s]. *)
Record armed (cpu n : Z) (s s' : S) : Prop := {
  armed_cpu : vm_lapic cpu s' =
    let c := (vm_lapic cpu s) <| icr_timer := n |> <| timer_period_bt := bintime_mul (timer_freq_bt (vm_lapic cpu s)) n |> in
    if n =? 0 then c
    else c <| timer_fire_bt := bintime_add (uptime (readings s)) (bintime_mul (timer_freq_bt (vm_lapic cpu s)) n) |>;
  armed_active : co_active (callout_of cpu) (callouts s') = negb (n =? 0);
}.

(** A write of the initial count restarts or stops the timer. *)
Lemma wp_icrtmr cpu n s : chip_ok s -> is_cpu cpu -> n in_u 32 ->
  wp (vlapic_icrtmr_write_handler uptime hosttime callout_of cpu) (fun _ s' => chip_ok s' /\ armed cpu n s s')
     (set_cpu cpu (fun c => c <| icr_timer := n |>) s).
Proof.
  intros H Hc Hn. pose proof (callout_ok cpu s H Hc) as Hco. pose proof (cpu_ok_at _ _ _ _ H Hc) as Hk.
  assert (E : vm_lapic cpu (set_cpu cpu (fun c => c <| timer_period_bt := bintime_mul (timer_freq_bt c) (icr_timer c) |>)
              (set_cpu cpu (fun c => c <| icr_timer := n |>) s)) =
            (vm_lapic cpu s) <| icr_timer := n |> <| timer_period_bt := bintime_mul (timer_freq_bt (vm_lapic cpu s)) n |>)
    by (by rewrite !vm_lapic_set by (rewrite ?length_set_cpu; apply H || done)).
  unfold vlapic_icrtmr_write_handler, on_cpu. wp_go. rewrite E. cbn [icr_timer timer_period_bt upd].
  destruct (period_val _ n (ok_tick _ _ _ _ _ _ Hk) Hn) as (Hpw & Hpv & Hpb).
  destruct (Z.eqb_spec n 0) as [->|Hnz]; cbn [negb].
  - unfold on_callouts. wp_go. split.
    2: { split; [exact E|]. cbn. by apply stop_active. }
    eapply (chip_ok_change cpu (fun c => c <| icr_timer := 0 |>
      <| timer_period_bt := bintime_mul (timer_freq_bt c) 0 |>) s); try done.
    + cbn. by rewrite alter_alter.
    + intros c Ho. by apply stop_ok.
    + intros c Hne. by apply stop_frame.
    + intros []. cpu_split;
        rewrite Z2Nat.id in * by apply Hc; [by apply stop_ok|by rewrite stop_active].
  - unfold callout_reset_in, on_callouts. wp_go. apply wp_read_clock. wp_go. apply wp_read_clock. wp_go. split.
    2: { split; [|cbn; rewrite reset_in_active by done; by apply Z.eqb_neq in Hnz as ->].
         rewrite (proj2 (Z.eqb_neq n 0)) by done. transitivity
           (vm_lapic cpu (set_cpu cpu (fun c => c <| timer_fire_bt := bintime_add (uptime (readings s)) (timer_period_bt c) |>)
             (set_cpu cpu (fun c => c <| timer_period_bt := bintime_mul (timer_freq_bt c) (icr_timer c) |>)
              (set_cpu cpu (fun c => c <| icr_timer := n |>) s)))); [reflexivity|].
         rewrite vm_lapic_set, E by (rewrite ?length_set_cpu; apply H || done). done. }
    eapply (chip_ok_change cpu (fun c => c <| icr_timer := n |>
      <| timer_period_bt := bintime_mul (timer_freq_bt c) n |>
      <| timer_fire_bt := bintime_add (uptime (readings s)) (bintime_mul (timer_freq_bt c) n) |>) s); try done.
    + cbn. by rewrite !alter_alter.
    + cbn. lia.
    + intros c Ho. by apply reset_in_ok.
    + intros c Hne. by apply reset_in_frame.
    + destruct (deadline (uptime (readings s)) _ (clk_wf CLK _) (clk_bound CLK _) Hpw ltac:(lia)) as (Hd1 & Hd2 & Hd3).
      intros []. cpu_split;
        rewrite ?Z2Nat.id in * by apply Hc; [by apply reset_in_ok|].
      intros _. rewrite Hd2, Hpv. pose proof (clk_mono CLK (readings s) (Datatypes.S (Datatypes.S (readings s))) ltac:(lia)). cbn in *; lia.
Qed.

(** The tick that a divide configuration selects. *)
Definition dcr_tick (d : Z) : bintime :=
  match vlapic_timer_divisor d with
  | Some div => FREQ2BT (u32 (VLAPIC_BUS_FREQ / div))
  | None => mk_bintime 0 0
  end.

Lemma dcr_tick_ok d : is_tick (dcr_tick d).
Proof. unfold dcr_tick. destruct (divisor_tick d) as (div & -> & H). done. Qed.

(** A write of the divide configuration that does not change the tick of a
    running timer. *)
Lemma wp_dcr cpu d s : chip_ok s -> is_cpu cpu ->
  (co_active (callout_of cpu) (callouts s) = true -> dcr_tick d = timer_freq_bt (vm_lapic cpu s)) ->
  wp (vlapic_dcr_write_handler cpu) (fun _ s' => chip_ok s') (set_cpu cpu (fun c => c <| dcr_timer := d |>) s).
Proof.
  intros H Hc Hd. pose proof (cpu_ok_at _ _ _ _ H Hc) as Hk.
  unfold vlapic_dcr_write_handler, on_cpu. wp_go. rewrite vm_lapic_set by (apply H || done). cbn [dcr_timer upd].
  pose proof (dcr_tick_ok d) as Ht. unfold dcr_tick in Ht, Hd. destruct (divisor_tick d) as (div & E & _). rewrite E in *.
  wp_go. set (fr := FREQ2BT _) in *.
  eapply (chip_ok_change cpu (fun c => c <| dcr_timer := d |> <| timer_freq_bt := fr |>
    <| timer_period_bt := bintime_mul fr (icr_timer c) |>) s); try done.
  - cbn. by rewrite alter_alter.
  - destruct (period_val fr (icr_timer (vm_lapic cpu s)) Ht (ok_icr_timer _ _ _ _ _ _ Hk)) as (Hpw & Hpv & _).
    intros []. cpu_split.
    rewrite Z2Nat.id in * by apply Hc. intros Ha. rewrite (Hd Ha). by apply ok_running0.
Qed.

(** The current count never exceeds the initial count. *)
Lemma wp_get_ccr cpu s : chip_ok s -> is_cpu cpu ->
  wp (vlapic_get_ccr uptime callout_of cpu) (fun r s' => chip_ok s' /\
    r = if co_active (callout_of cpu) (callouts s) then
          let c := vm_lapic cpu s in
          Z.max 0 ((bt_val (timer_fire_bt c) - bt_val (uptime (readings s))) / frac (timer_freq_bt c))
        else 0) s.
Proof.
  intros H Hc. pose proof (cpu_ok_at _ _ _ _ H Hc) as Hk. pose proof Hk as [].
  rewrite Z2Nat.id in * by apply Hc. unfold vlapic_get_ccr. wp_go. destruct (co_active (callout_of cpu) _) eqn:Ea.
  2: { wp_go. apply wp_KASSERT; [apply Z.leb_le; lia|]. by wp_go. }
  specialize (ok_running0 eq_refl). set (c := vm_lapic cpu s) in *.
  pose proof (tick_pos _ ok_tick0) as (Htp & _). pose proof (clk_wf CLK (readings s)) as Hnow.
  wp_go. apply wp_read_clock. pose proof (safe_read_clock uptime s H) as Hs. unfold wp, read_clock in Hs.
  set (s1 := s <| readings ::= Datatypes.S |>) in *. rewrite bintime_lt_val by (done || apply ok_fire0).
  destruct (Z.ltb_spec (bt_val (uptime (readings s))) (bt_val (timer_fire_bt c))) as [Hlt|Hge].
  - destruct (bintime_sub_val (timer_fire_bt c) (uptime (readings s)) ltac:(apply ok_fire0) Hnow) as [Hsw Hsv].
    assert (0 <= bt_val (uptime (readings s))) by (destruct Hnow; unfold bt_val; lia).
    rewrite Z.mod_small in Hsv by (destruct ok_fire0 as [? ?]; lia).
    assert (Hq : bt_val (bintime_sub (timer_fire_bt c) (uptime (readings s))) / frac (timer_freq_bt c) <= icr_timer c)
      by (rewrite Hsv; apply Z.div_le_upper_bound; lia).
    wp_go. apply wp_KASSERT.
    { destruct ok_tick0 as (e & He & ->). cbn [frac]. rewrite Z.shiftr_div_pow2 by lia.
      rewrite <- Z.pow_sub_r by lia. apply negb_true_iff, Z.eqb_neq. apply Z.pow_nonzero; lia. }
    wp_go. rewrite ccr_ticks by (done || lia). apply wp_KASSERT; [by apply Z.leb_le|].
    wp_go. split; [exact Hs|]. rewrite Hsv. symmetry. apply Z.max_r. apply Z.div_pos; lia.
  - wp_go. apply wp_KASSERT; [apply Z.leb_le; lia|]. wp_go. split; [exact Hs|]. symmetry. apply Z.max_l.
    apply Z.div_le_upper_bound; lia.
Qed.


(** The next deadline of a periodic timer is at most one period away. *)
Lemma next_period_ok t n i c now : cpu_ok t n i c -> wf_bintime now -> bt_val now < 2 ^ 127 ->
  let fire := (next_period now c).1 in
  wf_bintime fire /\ bt_val fire < 2 ^ 127 + 2 ^ 76 /\
  bt_val fire <= bt_val now + icr_timer c * frac (timer_freq_bt c).
Proof.
  intros [] Hn Hb. destruct (period_val _ _ ok_tick0 ok_icr_timer0) as (_ & _ & Hp).
  destruct ok_period0 as [Hpv Hpw]. destruct ok_fire0 as [Hfw Hfb]. unfold next_period. cbv zeta.
  destruct (bintime_sub_val now _ Hn Hfw) as [Hsw Hsv]. rewrite bintime_lt_val by done.
  pose proof Hn as [? ?]. assert (Hn0 : 0 <= bt_val now) by (unfold bt_val; lia).
  pose proof Hfw as [? ?]. assert (Hf0 : 0 <= bt_val (timer_fire_bt c)) by (unfold bt_val; lia).
  destruct (Z.ltb_spec (bt_val (bintime_sub now (timer_fire_bt c))) (bt_val (timer_period_bt c))) as [Hlt|Hge]; cbn [fst].
  - assert (Hle : bt_val (timer_fire_bt c) <= bt_val now).
    { destruct (Z.le_gt_cases (bt_val (timer_fire_bt c)) (bt_val now)) as [|Hgt]; [done|]. exfalso.
      rewrite Hsv, <- (Z.mod_add _ 1), Z.mod_small in Hlt by lia. lia. }
    destruct (deadline (timer_fire_bt c) (timer_period_bt c) Hfw ltac:(lia) Hpw ltac:(lia)) as (H1 & H2 & H3).
    split; [done|]. lia.
  - destruct (deadline now (timer_period_bt c) Hn Hb Hpw ltac:(lia)) as (H1 & H2 & H3). split; [done|]. lia.
Qed.

Lemma safe_callout_handler cpu : is_cpu cpu -> safe (vlapic_callout_handler uptime hosttime callout_of cpu).
Proof.
  intros Hc. unfold vlapic_callout_handler.
  apply safe_bind; [apply safe_gets|intros pending]. destruct pending; [apply safe_skip|].
  apply safe_bind; [apply safe_gets|intros active]. destruct (negb active); [apply safe_skip|].
  apply safe_bind; [by apply safe_deactivate|intros _]. apply safe_bind; [|intros _].
  - apply safe_on_core; [done|]. intros l. by apply (core_safe_op LTimer).
  - intros s H. wp_go. apply wp_when; [|done]. intros _. wp_go. apply wp_read_clock.
    pose proof (cpu_ok_at _ _ _ _ H Hc) as Hk. pose proof (callout_ok cpu s H Hc) as Hco.
    destruct (next_period_ok _ _ _ _ (uptime (readings s)) Hk (clk_wf CLK _) (clk_bound CLK _)) as (H1 & H2 & H3).
    destruct (next_period _ _) as [fire rem]. cbn [fst] in *. unfold on_cpu, callout_reset_in, on_callouts. wp_go.
    apply wp_read_clock. wp_go. eapply (chip_ok_change cpu (fun c => c <| timer_fire_bt := fire |>) s); try done.
    + cbn. lia.
    + intros c Ho. by apply reset_in_ok.
    + intros c Hne. by apply reset_in_frame.
    + intros []. cpu_split;
        rewrite ?Z2Nat.id in * by apply Hc; [by apply reset_in_ok|].
      intros _. pose proof (clk_mono CLK (readings s) (Datatypes.S (Datatypes.S (readings s))) ltac:(lia)). cbn in *; lia.
Qed.
End Timer.

(** ** The registers *)

(** The entry of the local vector table at an offset: its place in the page and
    the index of its snapshot. *)
Lemma lvt_slot off : off ∈ lvt_offsets -> exists p,
  vlapic_get_lvtptr off = Some (Z.of_nat p) /\ (p < 7)%nat /\ lvt_slots !! p = Some (lvt_off_to_idx off) /\
  0 <= lvt_off_to_idx off <= 6.
Proof.
  intros H. unfold lvt_offsets in H. rewrite !elem_of_cons, elem_of_nil in H.
  destruct H as [->|[->|[->|[->|[->|[->|[->|[]]]]]]]];
    [exists 0%nat|exists 1%nat|exists 2%nat|exists 3%nat|exists 4%nat|exists 5%nat|exists 6%nat]; vm_compute;
    repeat split; (reflexivity || discriminate || lia).
Qed.

Lemma slots_inj p q i : lvt_slots !! p = Some i -> lvt_slots !! q = Some i -> p = q.
Proof.
  assert (ND : NoDup lvt_slots) by (apply (bool_decide_unpack (NoDup lvt_slots)); vm_compute; exact I).
  intros Hp Hq. exact (proj1 (NoDup_alt _) ND p q i Hp Hq).
Qed.

Lemma slots_range p i : lvt_slots !! p = Some i -> 0 <= i.
Proof.
  intros H. assert (F : Forall (fun i => 0 <= i) lvt_slots) by (repeat constructor; lia).
  exact (Forall_lookup_1 _ _ _ _ F H).
Qed.

Section Registers.
Context {T V : Type} `{!CalloutOps T, !CalloutLaws T, !VcpuOut V}.
Variables (uptime : nat -> bintime) (hosttime : nat -> Z) (callout_of : Z -> Z).
Context (CLK : clock_ok uptime callout_of).
Local Abbreviation S := (chip T V).
Local Abbreviation safe := (safe (T := T) (V := V) uptime callout_of).
Local Abbreviation chip_ok := (chip_ok (T := T) (V := V) uptime callout_of).
Local Abbreviation cpu_ok := (cpu_ok (T := T) uptime callout_of).
Implicit Types s : S.

(** A change of registers that the invariant does not speak of. *)
Lemma cpu_ok_plain t n i c c' : cpu_ok t n i c ->
  vcpuid c' = vcpuid c -> lapic_ok (core c') -> lvt_last (core c') = lvt_last (core c) -> lvts c' = lvts c ->
  regs_ok c' -> icr_timer c' = icr_timer c -> timer_freq_bt c' = timer_freq_bt c ->
  timer_fire_bt c' = timer_fire_bt c -> timer_period_bt c' = timer_period_bt c -> cpu_ok t n i c'.
Proof.
  intros [] E1 E2 E3 E4 E5 E7 E8 E9 E10. split; rewrite ?E1, ?E3, ?E4, ?E7, ?E8, ?E9, ?E10; try done.
  intros p j Hp. rewrite E3, E4. by apply ok_synced0.
Qed.

Lemma safe_plain cpu f :
  (forall c, vcpuid (f c) = vcpuid c /\ core (f c) = core c /\ lvts (f c) = lvts c /\ icr_timer (f c) = icr_timer c /\
     timer_freq_bt (f c) = timer_freq_bt c /\ timer_fire_bt (f c) = timer_fire_bt c /\
     timer_period_bt (f c) = timer_period_bt c) ->
  (forall c, regs_ok c -> regs_ok (f c)) ->
  safe (on_cpu cpu f).
Proof.
  intros Hf Hi. apply safe_on_cpu. intros t n i c H. destruct (Hf c) as (E1 & E2 & E3 & E4 & E5 & E6 & E7).
  pose proof H as []. specialize (Hi c ok_regs0).
  apply (cpu_ok_plain _ _ _ c); try done; rewrite E2; done.
Qed.

(** A write of an entry of the local vector table. *)
Lemma safe_lvt_write cpu off g : is_cpu cpu -> off ∈ lvt_offsets ->
  safe (update_lvt cpu off g ;;; vlapic_lvt_write_handler cpu off).
Proof.
  intros Hc Ho s H. destruct (lvt_slot off Ho) as (p & Ep & Hp & Es & Hi).
  unfold update_lvt, vlapic_lvt_write_handler. rewrite Ep. unfold on_cpu. wp_go. rewrite vm_lapic_set by (apply H || done).
  apply wp_KASSERT; [apply andb_true_iff; split; apply Z.leb_le; unfold VLAPIC_MAXLVT_INDEX, APIC_LVT_CMCI; lia|].
  wp_go. set (val := Z.land _ _). clearbody val. set (i := lvt_off_to_idx off) in *.
  apply (chip_ok_change uptime callout_of CLK cpu (fun c => c <| lvts ::= fun l => <[p := val]> (alter g p l) |>
    <| core ::= fun l => l <| lvt_last ::= <[Z.to_nat i := val]> |> |>) s); try done.
  { cbn. rewrite alter_alter, Nat2Z.id. done. }
  intros K. pose proof K as []. cpu_split.
  - destruct ok_core0 as [I F]. split; [|done]. eapply inv_frame; [exact I|..]; try done. apply I.
  - by rewrite length_insert, length_alter.
  - by rewrite length_insert.
  - intros q j Hq. cbn [core lvts lvt_last upd]. destruct (decide (q = p)) as [->|Hne].
    + assert (j = i) as -> by congruence. rewrite !list_lookup_insert_eq by (rewrite ?length_alter; lia). done.
    + assert (j <> i) by (intros ->; apply Hne; by eapply slots_inj). pose proof (slots_range _ _ Hq).
      rewrite !list_lookup_insert_ne, list_lookup_alter_ne by lia. by apply ok_synced0.
Qed.

Lemma safe_mask_lvts cpu : is_cpu cpu -> safe (vlapic_mask_lvts cpu).
Proof.
  intros Hc. unfold vlapic_mask_lvts, mask_lvt.
  repeat (apply safe_bind; [apply safe_lvt_write; [done|by repeat (apply elem_of_cons; (by left) || right)]|intros _]).
  apply safe_lvt_write; [done|]. by repeat (apply elem_of_cons; (by left) || right).
Qed.

Lemma set_cpu_id cpu f s : f (vm_lapic cpu s) = vm_lapic cpu s -> set_cpu cpu f s = s.
Proof.
  intros E. unfold set_cpu, upd. destruct s as [l a io t w n]. cbn. f_equal.
  apply list_eq. intros j. destruct (decide (j = Z.to_nat cpu)) as [->|Hne]; [|by rewrite list_lookup_alter_ne].
  rewrite list_lookup_alter_eq. unfold vm_lapic in E. cbn in E. destruct (l !! Z.to_nat cpu); [|done]. cbn in *. by rewrite E.
Qed.

Lemma safe_icrtmr cpu : is_cpu cpu -> safe (vlapic_icrtmr_write_handler uptime hosttime callout_of cpu).
Proof.
  intros Hc s H. set (n := icr_timer (vm_lapic cpu s)).
  rewrite <- (set_cpu_id cpu (fun c => c <| icr_timer := n |>) s) by (unfold n; by destruct (vm_lapic cpu s)).
  eapply wp_conseq; [apply wp_icrtmr; [done..|]; apply (cpu_ok_at _ _ _ _ H Hc)|]. by intros ? s' [? _].
Qed.

Lemma safe_svr cpu : is_cpu cpu -> safe (vlapic_svr_write_handler uptime hosttime callout_of cpu).
Proof.
  intros Hc. unfold vlapic_svr_write_handler. apply safe_bind; [apply safe_gets|intros c0]. cbv zeta.
  apply safe_bind; [by apply safe_plain; [|intros ? []]|intros _]. split_if; [apply safe_skip|]. split_if.
  - apply safe_bind; [by apply safe_stop|intros _]. by apply safe_mask_lvts.
  - apply safe_when. by apply safe_icrtmr.
Qed.

Lemma safe_set_svr cpu v : safe (on_cpu cpu (fun c => c <| core ::= fun l => l <| svr := v |> |>)).
Proof.
  apply safe_on_cpu. intros t n i c K. pose proof K as []. apply (cpu_ok_plain _ _ _ c); try done; [|by destruct ok_regs0].
  destruct ok_core0 as [I F]. split; [|done]. eapply inv_frame; [exact I|..]; try done. apply I.
Qed.

(** *** The interrupt command register *)

Lemma icr_dest c : icr_hi c in_u 32 -> icr_lo c in_u 32 ->
  let icrval := Z.lor (Z.shiftl (icr_hi c) 32) (icr_lo c) in
  u32 (Z.shiftr icrval 32) = icr_hi c /\ u32 (Z.shiftr icrval (32 + 24)) = Z.shiftr (icr_hi c) 24 /\
  Z.shiftr (icr_hi c) 24 in_u 8.
Proof.
  intros Hh Hl. cbv zeta. rewrite lor_high_low by done.
  assert (E : Z.shiftr (icr_hi c * 2 ^ 32 + icr_lo c) 32 = icr_hi c).
  { rewrite Z.shiftr_div_pow2, Z.div_add_l by lia. rewrite Z.div_small by done. lia. }
  rewrite <- Z.shiftr_shiftr, E by lia.
  assert (H8 : Z.shiftr (icr_hi c) 24 in_u 8).
  { rewrite Z.shiftr_div_pow2 by lia. split; [apply Z.div_pos; lia|]. apply Z.div_lt_upper_bound; lia. }
  split; [by apply u32_id|]. split; [|done]. apply u32_id. lia.
Qed.

(** Not a physical x2APIC destination with the sign bit set. *)
Definition icr_ok (c : lcpu) : Prop := x2apic c = true -> icr_hi c < 2 ^ 31 \/ icr_hi c = 0xffffffff.

Lemma wp_ipi_targets cpu dest icrval s : chip_ok s -> is_cpu cpu ->
  dest_ok true (x2apic (vm_lapic cpu s)) dest ->
  wp (ipi_targets cpu dest icrval) (fun m s' => s' = s /\ m in_u 16) s.
Proof.
  intros H Hc Hd. unfold ipi_targets. wp_go. cbv zeta. repeat split_if; wp_go.
  - apply (wp_calcdest uptime callout_of); [|done]. intros _. by apply Hd.
  - split; [done|]. apply bit_in_u. exact Hc.
  - split; [done|]. apply H.
  - split; [done|]. apply clr_in_u; [lia|]. apply H.
  - done.
Qed.

Lemma safe_boot cpu b : safe (on_cpu cpu (fun c => c <| boot := b |>)).
Proof. by apply safe_plain; [|intros ? []]. Qed.

Lemma wp_icrlo cpu s : chip_ok s -> is_cpu cpu -> icr_ok (vm_lapic cpu s) ->
  wp (vlapic_icrlo_write_handler cpu) (fun _ s' => chip_ok s') s.
Proof.
  intros H Hc Hi. unfold vlapic_icrlo_write_handler.
  assert (H1 : safe (on_cpu cpu (fun c => c <| icr_lo ::= fun x => clr x APIC_DELSTAT_PEND |>))).
  { apply safe_plain; [done|]. intros c []. split; cbn; try done. by apply clr_in_u. }
  specialize (H1 s H). unfold on_cpu at 1. wp_go. unfold on_cpu, wp, update in H1. rewrite vm_lapic_set by (apply H || done).
  set (s1 := set_cpu _ _ s) in *. pose proof (cpu_ok_at _ _ _ _ H1 Hc) as Hk1. set (c := _ <| icr_lo ::= _ |>).
  assert (Ec : vm_lapic cpu s1 = c) by (unfold s1; by rewrite vm_lapic_set by (apply H || done)). rewrite Ec in Hk1.
  destruct (icr_dest c (ok_icr_hi _ (ok_regs _ _ _ _ _ _ Hk1)) (ok_icr_lo _ (ok_regs _ _ _ _ _ _ Hk1))) as (Ed1 & Ed2 & H8). cbv zeta in *.
  rewrite Ed1, Ed2. set (icrval := Z.lor _ _). clearbody icrval.
  set (dest := if x2apic c then icr_hi c else Z.shiftr (icr_hi c) 24).
  assert (Hd : dest_ok true (x2apic c) dest).
  { intros _. unfold dest. destruct (x2apic c) eqn:Ex.
    - destruct (Hi Ex) as [Hlt|Heq]; [left|by right]. pose proof (ok_icr_hi _ (ok_regs _ _ _ _ _ _ Hk1)).
      change (icr_hi (vm_lapic cpu s)) with (icr_hi c) in Hlt. rewrite i32_small by lia. lia.
    - left. rewrite i32_small by lia. lia. }
  assert (Hd0 : 0 <= dest) by (unfold dest; pose proof (ok_icr_hi _ (ok_regs _ _ _ _ _ _ Hk1)); destruct (x2apic c); lia).
  clearbody dest. revert s1 H1 Hk1 Ec Hd. generalize c. clear - Hc Hd0 CLK. intros c s1 H1 Hk1 Ec Hd.
  apply wp_if; intros _; [|apply wp_if; intros _; [|apply wp_if; intros _;
    [|apply wp_if; intros _; [|apply wp_if; intros _; [wp_go; apply wp_if; intros _|]]]]].
  - wp_go. eapply wp_conseq; [|intros ? s' H'; wp_go; exact H'].
    apply (safe_on_core _ _ _ _ Hc (fun l => core_safe_error _ l)). done.
  - wp_go. eapply wp_conseq; [apply wp_ipi_targets; [done|done|by rewrite Ec]|]. intros m s' [-> Hm]. cbv beta.
    wp_go. eapply wp_conseq; [|intros ? s' H'; wp_go; exact H']. apply safe_each; [|done]. intros v Hv. cbv beta.
    split_if; [|apply safe_tell]. apply safe_bind; [apply safe_set_intr|intros _; apply safe_skip].
  - by wp_go.
  - wp_go. eapply wp_conseq; [apply (safe_when _ _ (bool_decide (boot (vm_lapic dest s1) = BS_INIT)) _ (safe_boot dest BS_SIPI) s1 H1)|].
    intros ? s' H'. by wp_go.
  - by wp_go.
  - wp_go. eapply wp_conseq; [apply (safe_boot dest BS_RUNNING s1 H1)|]. intros ? s' H'. wp_go.
    eapply wp_conseq; [exact (safe_tell _ _ _ s' H')|]. intros ? s'' H''. by wp_go.
  - by wp_go.
Qed.

(** *** The register window *)

(** What a guest must not write: a divide configuration that changes the tick
    of a running timer, and the command register with a negative destination. *)
Definition write_ok (cpu offset data : Z) s : Prop :=
  let c := vm_lapic cpu s in
  (offset = 0x3e0 -> co_active (callout_of cpu) (callouts s) = true -> dcr_tick (u32 data) = timer_freq_bt c) /\
  (offset = 0x300 -> x2apic c = true -> u32 (Z.shiftr data 32) < 2 ^ 31 \/ u32 (Z.shiftr data 32) = 0xffffffff).

Lemma wp_icr_write cpu data s : chip_ok s -> is_cpu cpu -> write_ok cpu 0x300 data s ->
  wp (on_cpu cpu (fun c => c <| icr_lo := u32 data |>) ;;;
      when (x2apic (vm_lapic cpu s)) (on_cpu cpu (fun c => c <| icr_hi := u32 (Z.shiftr data 32) |>)) ;;;
      vlapic_icrlo_write_handler cpu) (fun _ s' => chip_ok s') s.
Proof.
  intros H Hc [_ Hw]. specialize (Hw eq_refl).
  assert (H1 : chip_ok (set_cpu cpu (fun c => c <| icr_lo := u32 data |>) s)).
  { apply (safe_plain cpu (fun c => c <| icr_lo := u32 data |>)); [done| |done]. intros c []. split; cbn; try done. apply u32_in_u. }
  assert (Hlen : length (cpus s) = 16%nat) by apply H.
  unfold on_cpu at 1. wp_go. destruct (x2apic (vm_lapic cpu s)) eqn:Ex; cbn [when].
  - unfold on_cpu. wp_go. apply wp_icrlo; [|done|].
    + apply (safe_plain cpu (fun c => c <| icr_hi := u32 (Z.shiftr data 32) |>)); [done| |done].
      intros c []. split; cbn; try done. apply u32_in_u.
    + rewrite !vm_lapic_set by (rewrite ?length_set_cpu; done). intros _. by apply Hw.
  - wp_go. apply wp_icrlo; [done..|]. rewrite vm_lapic_set by done. intros Hx. unfold x2apic in *. cbn in *. congruence.
Qed.

Lemma safe_self_ipi cpu data s : chip_ok s -> x2apic (vm_lapic cpu s) = true ->
  wp (vlapic_self_ipi_handler cpu data) (fun _ s' => chip_ok s') s.
Proof.
  intros H Hx. unfold vlapic_self_ipi_handler. wp_go. apply wp_KASSERT; [done|]. wp_go.
  eapply wp_conseq; [exact (safe_set_intr _ _ _ _ s H)|]. intros ? s' H'. by wp_go.
Qed.

Lemma wp_done (c : cmd S unit) s : wp c (fun _ s' => chip_ok s') s -> wp (c ;;; ret (0, false)) (fun _ s' => chip_ok s') s.
Proof. intros H. wp_go. eapply wp_conseq; [exact H|]. intros ? s' H'. by wp_go. Qed.

Lemma x2apic_ldr_range c : x2apic_ldr c in_u 32.
Proof.
  unfold x2apic_ldr. cbv zeta. apply lor_in_u; [lia| |apply u32_in_u]. apply bit_in_u.
  assert (Z.land (i32 (vlapic_get_id c)) 0xf in_u 4) by (apply land_in_u_r; [lia|range]). lia.
Qed.

Lemma regs_ldr c data : regs_ok c -> regs_ok (vlapic_ldr_write_handler (c <| ldr := u32 data |>)).
Proof.
  intros []. unfold vlapic_ldr_write_handler. split_if; split; cbn; try done; [apply x2apic_ldr_range|].
  apply clr_in_u; [lia|apply u32_in_u].
Qed.

Lemma regs_dfr c data : regs_ok c -> regs_ok (vlapic_dfr_write_handler (c <| dfr := u32 data |>)).
Proof. intros []. unfold vlapic_dfr_write_handler. split_if; split; cbn; try done. apply lor_in_u; range. Qed.

(** An aligned offset in the page is one of 65. *)
Lemma window_cases (P : Z -> Prop) offset : Z.land offset 0xf = 0 -> 0 <= offset <= LAPIC_SIZE ->
  Forall P (Z.mul 16 <$> seqZ 0 65) -> P offset.
Proof.
  intros Ha Hr HF. change 0xf with (Z.ones 4) in Ha. rewrite Z.land_ones in Ha by lia. change (2 ^ 4) with 16 in Ha.
  eapply Forall_forall; [exact HF|]. apply list_elem_of_fmap. exists (offset / 16).
  pose proof (Z.div_mod offset 16 ltac:(lia)). unfold LAPIC_SIZE in Hr. split; [lia|]. apply elem_of_seqZ.
  Z.to_euclidean_division_equations; lia.
Qed.

Lemma wp_write cpu mmio offset data s : chip_ok s -> is_cpu cpu -> 0 <= offset ->
  Z.land offset 0xf = 0 -> offset < XHYVE_PAGE_SIZE -> write_ok cpu offset data s ->
  wp (vlapic_write uptime hosttime callout_of cpu mmio offset data) (fun _ s' => chip_ok s') s.
Proof.
  intros H Hc H0 Ha Hb Hw. unfold vlapic_write. wp_go. apply wp_KASSERT.
  { rewrite Ha. by apply Z.ltb_lt. }
  apply wp_if; intros E; [by wp_go|]. wp_go. apply wp_if; intros _; [by wp_go|]. apply wp_if; intros _; [by wp_go|].
  apply Z.ltb_ge in E. cbv zeta. revert Hw.
  pose proof (fun f Hf Hi => safe_plain cpu f Hf Hi s H) as HP.
  assert (HC : forall o, (forall l, lapic_allowed o l) -> wp (on_core cpu (run_lapic o)) (fun _ s' => chip_ok s') s).
  { intros o Ho. apply (safe_on_core _ _ _ _ Hc (fun l => core_safe_op o l (Ho l))). done. }
  assert (HL : forall off, off ∈ lvt_offsets -> wp (update_lvt cpu off (fun _ => u32 data) ;;; vlapic_lvt_write_handler cpu off)
                 (fun _ s' => chip_ok s') s) by (intros off Ho; by apply safe_lvt_write).
  assert (Hlvt : forall off, bool_decide (off ∈ lvt_offsets) = true -> off ∈ lvt_offsets)
    by (intros off; apply bool_decide_eq_true_1).
  apply (window_cases (fun offset => write_ok cpu offset data s -> _) offset Ha ltac:(lia)).
  cbn [fmap list_fmap seqZ seq]. 
  let l := eval vm_compute in (Z.mul 16 <$> seqZ 0 65) in change (Z.mul 16 <$> seqZ 0 65) with l.
  repeat apply Forall_cons_2; [..|by apply Forall_nil_2]; intros Hw; try (by wp_go);
    first [apply wp_done; first [apply HP; [done|by intros c []] | apply HL, Hlvt; vm_compute; reflexivity] | idtac].
  - apply wp_done, (HC (LTpr (Z.land data 0xff))). intros l. change (Z.land data 0xff in_u 8). apply land_in_u_r; [lia|range].
  - by apply wp_done, (HC LEoi).
  - apply wp_done, HP; intros c; [unfold vlapic_ldr_write_handler; by split_if|]. apply regs_ldr.
  - apply wp_done, HP; intros c; [unfold vlapic_dfr_write_handler; by split_if|]. apply regs_dfr.
  - apply wp_done. wp_go. eapply wp_conseq; [exact (safe_set_svr cpu _ s H)|]. intros ? s' H'. by apply safe_svr.
  - by apply wp_done, (HC LEsr).
  - by apply wp_icr_write.
  - apply wp_done, HP; [done|]. intros c []. split; cbn; try done. apply u32_in_u.
  - apply wp_done. unfold on_cpu. wp_go. eapply wp_conseq; [apply wp_icrtmr; [done..|apply u32_in_u]|]. by intros ? s' [? _].
  - apply wp_done. unfold on_cpu. wp_go. apply wp_dcr; [done..|]. by apply Hw.
  - apply wp_done. apply wp_when; [|done]. intros Hx. by apply safe_self_ipi.
Qed.

Lemma wp_read cpu mmio offset s : chip_ok s -> is_cpu cpu ->
  wp (vlapic_read uptime callout_of cpu mmio offset) (fun _ s' => chip_ok s') s.
Proof.
  intros H Hc. unfold vlapic_read. wp_go. apply wp_if; intros _; [by wp_go|]. apply wp_if; intros _; [by wp_go|].
  apply wp_if; intros _; [by wp_go|]. cbv zeta.
  assert (Hccr : wp (vlapic_get_ccr uptime callout_of cpu) (fun _ s' => chip_ok s') s).
  { eapply wp_conseq; [by apply wp_get_ccr|]. by intros ? s' [? _]. }
  set (c := vm_lapic cpu s). set (off := clr offset 3).
  set (dflt := match window256 0x100 off, window256 0x180 off, window256 0x200 off with
    | Some i, _, _ => ret (word (isr (core c)) i)
    | _, Some i, _ => ret (word (tmr (core c)) i)
    | _, _, Some i => ret (word (irr (core c)) i)
    | _, _, _ => ret 0
    end).
  assert (Hd : wp dflt (fun _ s' => chip_ok s') s)
    by (unfold dflt; destruct (window256 0x100 off), (window256 0x180 off), (window256 0x200 off); by wp_go).
  clearbody dflt off. destruct off as [|q|q]; [exact Hd| |exact Hd].
  do 10 (try (destruct q as [q|q|]; try exact Hd)); try exact Hccr; by wp_go.
Qed.
End Registers.

(** ** Every operation *)

Inductive chip_op : Type :=
| OMmioRead (cpu gpa : Z)
| OMmioWrite (cpu gpa wval size : Z)
| ORdmsr (cpu msr : Z)
| OWrmsr (cpu msr val : Z)
| OCr8 (cpu val : Z)
| OAccept (cpu vector : Z)
| OTimer (cpu : Z)
| OLocalIntr (cpu vector : Z)
| OMsi (addr msg : Z)
| OPin (irq : Z) (st : irqstate)
| OIoapicWrite (addr data : Z)
| OX2apic (cpu : Z) (st : x2apic_state)
| OActivate (cpu : Z).

(** The vCPUs after [vm_init]: allocated, zeroed and initialised. *)
Definition fresh_cpu (cpu : Z) : lcpu := lcpu_none <| vcpuid := cpu |> <| lvts := replicate 7 0 |>.

Section Machine.
Context {T V : Type} `{!CalloutOps T, !VcpuOut V}.
Variables (uptime : nat -> bintime) (hosttime : nat -> Z) (callout_of : Z -> Z).
Local Abbreviation S := (chip T V).

Definition run_chip (o : chip_op) : cmd S unit :=
  match o with
  | OMmioRead cpu gpa => lapic_mmio_read uptime callout_of cpu gpa ;;; skip
  | OMmioWrite cpu gpa v size => lapic_mmio_write uptime hosttime callout_of cpu gpa v size ;;; skip
  | ORdmsr cpu msr => lapic_rdmsr uptime callout_of cpu msr ;;; skip
  | OWrmsr cpu msr v => lapic_wrmsr uptime hosttime callout_of cpu msr v ;;; skip
  | OCr8 cpu v => on_core cpu (vlapic_set_cr8 v)
  | OAccept cpu v => on_core cpu (vlapic_intr_accepted v)
  | OTimer cpu => vlapic_callout_handler uptime hosttime callout_of cpu
  | OLocalIntr cpu v => lapic_set_local_intr cpu v ;;; skip
  | OMsi addr msg => lapic_intr_msi addr msg ;;; skip
  | OPin irq st => update (on_ioapic (fun m => (vioapic_set_irqstate irq st m).2))
  | OIoapicWrite addr data => update (on_ioapic (vioapic_write addr data))
  | OX2apic cpu st => vlapic_set_x2apic_state cpu st
  | OActivate cpu => update (fun s => s <| active_cpus ::= CPU_SET cpu |>)
  end.

(** The local APIC of each vCPU is set up by [vcpu_init]. *)
Definition chip_boot : cmd S unit :=
  each_cpu (fun cpu => vlapic_init cpu ;;; vlapic_set_x2apic_state cpu X2APIC_DISABLED) (seqZ 0 VM_MAXCPU).
Definition chip_fresh (t : T) (w : V) : S := mk_chip (fresh_cpu <$> seqZ 0 VM_MAXCPU) 0 vioapic_init t w 0.

(** What the callers guarantee: vCPUs that exist, accesses inside the page and
    vectors that [vlapic_pending_intr] reported; and what no theorem can
    remove: a guest must not write MSRs 0x900 to 0xbff, nor make the two
    writes [write_ok] excludes. *)
Definition chip_allowed (o : chip_op) (s : S) : Prop :=
  match o with
  | OMmioRead cpu _ | ORdmsr cpu _ | OCr8 cpu _ | OTimer cpu | OX2apic cpu _ | OActivate cpu => is_cpu cpu
  | OMmioWrite cpu gpa v _ =>
      is_cpu cpu /\ 0 <= gpa - DEFAULT_APIC_BASE < XHYVE_PAGE_SIZE /\
      write_ok callout_of cpu (gpa - DEFAULT_APIC_BASE) v s
  | OWrmsr cpu msr v =>
      is_cpu cpu /\ (msr = MSR_APICBASE \/ 0x800 <= msr < 0x900 /\ write_ok callout_of cpu ((msr - 0x800) * 16) v s)
  | OAccept cpu v => is_cpu cpu /\ vlapic_pending_intr (core (vm_lapic cpu s)) = Some v
  | OIoapicWrite _ data => data in_u 32
  | OLocalIntr _ _ | OMsi _ _ | OPin _ _ => True
  end.

(** Steps: an operation, or a change of the callout system that starts and
    stops no timer of a vCPU: other devices, and the callout thread, which
    clears the pending flag of a timer that expires. *)
Inductive chip_step : S -> S -> Prop :=
| cs_op o s s' : chip_allowed o s -> run_chip o s = Return (tt, s') -> chip_step s s'
| cs_timers t s : (forall c, co_ok c (callouts s) -> co_ok c t) ->
    (forall c, co_active c t = co_active c (callouts s)) -> chip_step s (s <| callouts := t |>)
| cs_outs w s : chip_step s (s <| outs := w |>).
End Machine.

Section Safety.
Context {T V : Type} `{!CalloutOps T, !CalloutLaws T, !VcpuOut V}.
Variables (uptime : nat -> bintime) (hosttime : nat -> Z) (callout_of : Z -> Z).
Context (CLK : clock_ok uptime callout_of).
Local Abbreviation S := (chip T V).
Local Abbreviation safe := (safe (T := T) (V := V) uptime callout_of).
Local Abbreviation chip_ok := (chip_ok (T := T) (V := V) uptime callout_of).
Implicit Types s : S.

Lemma safe_trigger vector vs : Forall is_cpu vs -> safe (trigger_lvts vector vs).
Proof.
  induction 1 as [|v vs Hv _ IH]; [apply safe_ret|]. cbn. apply safe_bind.
  - apply safe_on_core; [done|]. intros l. apply core_safe_trigger.
  - intros e. split_if; [apply safe_ret|exact IH].
Qed.

Lemma safe_local_intr cpu vector : safe (lapic_set_local_intr cpu vector).
Proof.
  unfold lapic_set_local_intr. split_if; [apply safe_ret|]. bools. apply (safe_targets uptime callout_of).
  - intros s Hs. split_if; wp_go; (split; [done|]); [apply Hs|]. bools. apply bit_in_u. unfold VM_MAXCPU in *. lia.
  - intros m Hm. apply safe_trigger. apply Forall_forall. intros v Hv. by eapply cpus_in_range.
Qed.

Lemma safe_msi addr msg : safe (lapic_intr_msi addr msg).
Proof.
  unfold lapic_intr_msi. split_if; [apply safe_ret|]. cbv zeta. apply safe_bind; [|intros _; apply safe_ret].
  apply safe_deliver. assert (Hd : Z.land (Z.shiftr addr 12) 0xff in_u 8) by (apply land_in_u_r; [lia|range]).
  rewrite i32_small by lia. lia.
Qed.

Lemma safe_x2apic cpu st : safe (vlapic_set_x2apic_state cpu st).
Proof.
  unfold vlapic_set_x2apic_state. apply safe_bind.
  - apply safe_on_cpu. intros t n i c K. pose proof K as []. apply (cpu_ok_plain _ _ _ _ _ c); try done; [|by destruct ok_regs0].
    destruct ok_core0 as [I F]. split; [|done]. eapply inv_frame; [exact I|..]; try done. apply I.
  - intros _. apply safe_plain; intros c; cbv zeta; [by split_if|]. intros []. split_if; split; cbn; try done. apply x2apic_ldr_range.
Qed.

Lemma safe_ioapic f : (forall m : imachine S, around chip_ok m -> around chip_ok (f m)) -> safe (update (on_ioapic f)).
Proof. intros Hf s H. by apply chip_ok_ioapic. Qed.

(** An access inside the page. *)
Lemma mmio_offset gpa : 0 <= gpa - DEFAULT_APIC_BASE < XHYVE_PAGE_SIZE ->
  u64 (gpa - DEFAULT_APIC_BASE) = gpa - DEFAULT_APIC_BASE.
Proof. intros H. apply u64_id. unfold XHYVE_PAGE_SIZE in H. lia. Qed.

Lemma msr_offset msr : 0x800 <= msr < 0x900 -> x2apic_msr_to_regoff msr = (msr - 0x800) * 16.
Proof.
  intros H. unfold x2apic_msr_to_regoff. rewrite (u32_id (msr - 0x800)) by lia. rewrite Z.shiftl_mul_pow2 by lia.
  change (2 ^ 4) with 16. apply u32_id. lia.
Qed.

Lemma aligned_16 x : Z.land (x * 16) 0xf = 0.
Proof. change 0xf with (Z.ones 4). rewrite Z.land_ones by lia. change (2 ^ 4) with 16. by rewrite Z.mod_mul. Qed.

Lemma wp_run_chip o s : chip_ok s -> chip_allowed callout_of o s ->
  wp (run_chip uptime hosttime callout_of o) (fun _ s' => chip_ok s') s.
Proof.
  intros H Ha. assert (D : forall A (c : cmd S A), wp c (fun _ s' => chip_ok s') s -> wp (c ;;; skip) (fun _ s' => chip_ok s') s).
  { intros A c Hc. wp_go. eapply wp_conseq; [exact Hc|]. intros ? s' H'. by wp_go. }
  destruct o; cbn [run_chip chip_allowed] in *.
  - apply D. unfold lapic_mmio_read. cbv zeta. apply wp_if; intros _; [by wp_go|]. wp_go.
    eapply wp_conseq; [by apply wp_read|]. intros ? s' H'. by wp_go.
  - destruct Ha as (Hc & Hr & Hw). apply D. unfold lapic_mmio_write. cbv zeta. rewrite mmio_offset by done.
    apply wp_if; intros E; [by wp_go|]. apply orb_false_iff in E as [_ E]. bools. apply wp_write; try done; lia.
  - apply D. unfold lapic_rdmsr. apply wp_if; intros _; [by wp_go|]. wp_go.
    eapply wp_conseq; [by apply wp_read|]. intros ? s' H'. by wp_go.
  - destruct Ha as (Hc & Hm). apply D. unfold lapic_wrmsr, vlapic_set_apicbase. apply wp_if; intros E; [by wp_go|].
    bools. destruct Hm as [?|[Hr Hw]]; [done|]. rewrite msr_offset by done.
    apply wp_write; try done; [lia|apply aligned_16|unfold XHYVE_PAGE_SIZE; lia].
  - apply (safe_on_core _ _ _ _ Ha (fun l => core_safe_op (LCr8 val) l I)). done.
  - destruct Ha as [Hc Hp]. apply wp_on_core_with; [done|done|intros call s0; apply chip_ok_perform|].
    destruct (ok_core _ _ _ _ _ _ (cpu_ok_at _ _ _ _ H Hc)) as [I F].
    destruct (pending_vector _ _ I Hp) as [Hv Hpr]. apply (core_safe_op (LAccept vector)). split; [unfold is_vector; lia|].
    split; [|done]. unfold vlapic_pending_intr in Hp. pose proof (top_bit_spec _ (v_irr _ (proj1 I))) as Ht.
    destruct (top_bit _ _) as [[i b]|]; [|done]. cbv zeta in Hp. split_if_in Hp; [|done]. injection Hp as <-. apply Ht.
  - by apply safe_callout_handler.
  - apply D. by apply safe_local_intr.
  - apply D. by apply safe_msi.
  - apply safe_ioapic; [|done]. intros m Hm. by apply around_irqstate; [apply fabric_deliver|].
  - apply safe_ioapic; [|done]. intros m Hm. by apply around_write; [apply fabric_deliver|apply fabric_rendezvous|..].
  - by apply safe_x2apic.
  - wp_go. destruct H as [Hl Hc Hact Hio]. split; cbn; try done. apply lor_in_u; [lia|done|]. by apply bit_in_u.
Qed.

(** *** Set-up *)

(** A local APIC as [vcpu_init] leaves it. *)
Definition booted_cpu (cpu : Z) : lcpu :=
  mk_lcpu cpu (vlapic_zero <| msr_apicbase := if cpu =? 0 then 0xfee00900 else 0xfee00800 |>)
    (Z.shiftl cpu 24) 0x60010 0 0 0 0xffffffff 0 0 (replicate 7 APIC_LVT_M) 0 0 0xff
    (if cpu =? 0 then BS_RUNNING else BS_INIT) (mk_bintime 0 0) (mk_bintime 0 (2 ^ 38)) (mk_bintime 0 0).

Lemma boot_run (t : T) (w : V) :
  chip_boot (chip_fresh t w) = Return (tt, mk_chip (booted_cpu <$> seqZ 0 VM_MAXCPU) 0 vioapic_init t w 0).
Proof. vm_compute. reflexivity. Qed.

(** The timers of the vCPUs are registered and stopped. *)
Definition timers_idle (t : T) : Prop :=
  forall cpu, is_cpu cpu -> co_ok (callout_of cpu) t /\ co_active (callout_of cpu) t = false.

Lemma booted_ok t i : timers_idle t -> (i < 16)%nat -> cpu_ok uptime callout_of t 0 i (booted_cpu (Z.of_nat i)).
Proof.
  intros Ht Hi. destruct (Ht (Z.of_nat i)) as [Ho Ha]; [unfold is_cpu, VM_MAXCPU; lia|].
  unfold booted_cpu. cpu_split.
  - destruct zero_ok as [I F]. split; [|done]. eapply inv_frame; [exact I|..]; try done. apply I.
  - intros p j Hp. cbn [booted_cpu core lvts lvt_last upd vlapic_zero].
    assert (Hj : (Z.to_nat j < 7)%nat /\ (p < 7)%nat).
    { split; [|by apply lookup_lt_Some in Hp]. assert (F : Forall (fun i => (Z.to_nat i < 7)%nat) lvt_slots) by (repeat constructor; lia).
      exact (Forall_lookup_1 _ _ _ _ F Hp). }
    by rewrite !lookup_replicate_2 by lia.
  - exists 38. split; [lia|done].
  - rewrite Ha. done.
Qed.

Lemma boot_ok t w : timers_idle t -> chip_ok (run_or chip_boot (chip_fresh t w)).
Proof.
  intros Ht. unfold run_or. rewrite boot_run. split; cbn [cpus active_cpus ioapic callouts readings]; try done.
  - intros i c E. apply list_lookup_fmap_Some in E as (x & -> & E). apply lookup_seqZ in E as [-> Hi].
    rewrite Z.add_0_l. apply booted_ok; [done|]. unfold VM_MAXCPU in Hi. lia.
  - apply init_inv.
Qed.

Lemma chip_reachable_ok t w s : timers_idle t ->
  rtc (chip_step uptime hosttime callout_of) (run_or chip_boot (chip_fresh t w)) s -> chip_ok s.
Proof.
  intros Ht R. pose proof (boot_ok t w Ht) as H. revert H. induction R as [|x y z [o s0 s1 Ha E|t' s0 Ho Ha|w' s0] _ IH]; intros H; [done|apply IH..].
  - exact (wp_run _ _ _ _ _ (wp_run_chip o s0 H Ha) E).
  - destruct H as [Hl Hc Hact Hio]. split; cbn; try done. intros i c E. specialize (Hc i c E).
    eapply cpu_ok_frame; [apply Ho, Hc|apply Ha|exact Hc].
  - by apply chip_ok_outs.
Qed.

(** C5: from the set-up of a virtual machine on, whatever interrupts arrive, the
    guest's vCPUs write to their local APICs and to the I/O APIC and whenever
    timers expire, no operation of the local APICs aborts; and in each of them
    the snapshots of the local vector table are the registers, the stack of
    injected vectors is the in-service register and the current count is at
    most the initial count. *)
Theorem lapics_never_abort t w s o : timers_idle t ->
  rtc (chip_step uptime hosttime callout_of) (run_or chip_boot (chip_fresh t w)) s ->
  chip_allowed callout_of o s ->
  (exists s', run_chip uptime hosttime callout_of o s = Return (tt, s')) /\
  forall cpu, is_cpu cpu -> let c := vm_lapic cpu s in
    lvt_synced c /\ injected (core c) = members (isr (core c)) /\
    exists ccr s', vlapic_get_ccr uptime callout_of cpu s = Return (ccr, s') /\ 0 <= ccr <= icr_timer c.
Proof.
  intros Ht R Ha. pose proof (chip_reachable_ok t w s Ht R) as H. split.
  { destruct (wp_elim _ _ _ (wp_run_chip o s H Ha)) as ([] & s' & E & _). eauto. }
  intros cpu Hc. pose proof (cpu_ok_at _ _ _ _ H Hc) as K. pose proof K as [].
  split; [done|]. split; [apply ok_core0|].
  destruct (wp_elim _ _ _ (wp_get_ccr uptime callout_of CLK cpu s H Hc)) as (ccr & s' & E & _ & Er).
  exists ccr, s'. split; [done|]. rewrite Z2Nat.id in * by apply Hc. rewrite Er.
  destruct (co_active _ _); [|lia]. cbv zeta. pose proof (tick_pos _ ok_tick0). specialize (ok_running0 eq_refl).
  assert (bt_val (timer_fire_bt (vm_lapic cpu s)) - bt_val (uptime (readings s)) <= icr_timer (vm_lapic cpu s) * frac (timer_freq_bt (vm_lapic cpu s))) by lia.
  pose proof (Z.div_le_mono _ _ (frac (timer_freq_bt (vm_lapic cpu s))) ltac:(lia) H1) as Hd. rewrite Z.div_mul in Hd by lia. lia.
Qed.

(** the timer counts down: after a write of the initial count [n], a read of
    the current count at a later reading of the host clock returns [n] less
    the ticks that have begun since (2^27 Hz over the divisor), and 0 from the
    deadline on. *)
Theorem ccr_counts_down cpu n s : chip_ok s -> is_cpu cpu -> x2apic (vm_lapic cpu s) = false -> 0 < n < 2 ^ 32 ->
  exists s1, lapic_mmio_write uptime hosttime callout_of cpu (DEFAULT_APIC_BASE + 0x380) n 4 s = Return ((0, false), s1) /\
    forall k, (readings s1 <= k)%nat ->
    exists s2, lapic_mmio_read uptime callout_of cpu (DEFAULT_APIC_BASE + 0x390) (s1 <| readings := k |>) =
      Return ((0, Z.max 0 (n + (bt_val (uptime (readings s)) - bt_val (uptime k)) / frac (timer_freq_bt (vm_lapic cpu s)))), s2).
Proof.
  intros H Hc Hx Hn. pose proof (cpu_ok_at _ _ _ _ H Hc) as K.
  pose proof (wp_icrtmr uptime hosttime callout_of CLK cpu (u32 n) s H Hc (u32_in_u n)) as W. rewrite u32_id in W by lia.
  apply wp_elim in W as ([] & s1 & E1 & H1 & [Ec Ea]). exists s1.
  rewrite (proj2 (Z.eqb_neq n 0)) in Ec, Ea by lia. cbv zeta in Ec. split.
  { unfold lapic_mmio_write. cbv zeta. rewrite mmio_offset by (unfold XHYVE_PAGE_SIZE; lia). rewrite Z.add_simpl_l.
    change (negb (4 =? 4) || negb (Z.land 0x380 0xf =? 0)) with false. cbv iota. unfold vlapic_write.
    rewrite KASSERT_true by reflexivity. change (LAPIC_SIZE <? 0x380) with false. cbv iota.
    erewrite bind_return by reflexivity. rewrite Hx. cbn [andb negb]. cbv iota zeta beta.
    rewrite u32_id by lia. erewrite bind_return; [|erewrite bind_return by reflexivity; exact E1]. done. }
  intros k Hk. set (s2 := s1 <| readings := k |>).
  assert (H2 : chip_ok s2).
  { destruct H1 as [Hl Hcs Hact Hio]. split; try done. intros i c E. eapply cpu_ok_later; [done|exact Hk|]. by apply Hcs. }
  destruct (wp_elim _ _ _ (wp_get_ccr uptime callout_of CLK cpu s2 H2 Hc)) as (ccr & s3 & E3 & _ & Er).
  exists s3. change (callouts s2) with (callouts s1) in Er. rewrite Ea in Er. cbn [negb] in Er. cbv zeta in Er.
  change (vm_lapic cpu s2) with (vm_lapic cpu s1) in Er. rewrite Ec in Er. cbn [timer_fire_bt timer_freq_bt upd] in Er.
  destruct (period_val _ n (ok_tick _ _ _ _ _ _ K) ltac:(lia)) as (Hpw & Hpv & Hpb).
  destruct (deadline (uptime (readings s)) _ (clk_wf _ _ CLK _) (clk_bound _ _ CLK _) Hpw ltac:(lia)) as (_ & Hd & _).
  pose proof (tick_pos _ (ok_tick _ _ _ _ _ _ K)) as (Ht & _). rewrite Hd, Hpv in Er. change (readings s2) with k in Er.
  replace (bt_val (uptime (readings s)) + n * frac (timer_freq_bt (vm_lapic cpu s)) - bt_val (uptime k))
    with (n * frac (timer_freq_bt (vm_lapic cpu s)) + (bt_val (uptime (readings s)) - bt_val (uptime k))) in Er by lia.
  rewrite Z.div_add_l in Er by lia. rewrite <- Er.
  assert (Hx2 : x2apic (vm_lapic cpu s2) = false) by (change (vm_lapic cpu s2) with (vm_lapic cpu s1); by rewrite Ec).
  unfold lapic_mmio_read. cbv zeta. rewrite mmio_offset by (unfold XHYVE_PAGE_SIZE; lia). rewrite Z.add_simpl_l.
  change (negb (Z.land (clr 0x390 3) 0xf =? 0)) with false. cbv iota. change (clr 0x390 3) with 0x390.
  erewrite bind_return; [reflexivity|]. unfold vlapic_read. erewrite bind_return by reflexivity. rewrite Hx2.
  cbn [andb negb]. change (LAPIC_SIZE <? 0x390) with false. change (clr 0x390 3) with 0x390. cbv iota zeta. exact E3.
Qed.
End Safety.

(** ** Examples *)
Module ChipExample.
Definition uptime (n : nat) : bintime := mk_bintime (100 + Z.of_nat (Nat.min n 1000)) 0.
Definition hosttime (n : nat) : Z := Z.of_nat n.
Definition callout_of (cpu : Z) : Z := cpu + 1.
Abbreviation S := (chip timers (list vcpu_call)).
Definition idle : timers := fun _ => (None, false).
Abbreviation booted := (run_or chip_boot (chip_fresh (V := list vcpu_call) idle [])).
Definition run (ops : list chip_op) (s : S) : S :=
  foldl (fun s o => run_or (run_chip uptime hosttime callout_of o) s) s ops.

Lemma clocks : clock_ok uptime callout_of.
Proof.
  assert (H : forall n, bt_val (uptime n) = (100 + Z.of_nat (Nat.min n 1000)) * 2 ^ 64) by (intros n; unfold bt_val; cbn [sec frac uptime]; lia).
  split.
  - intros n. split; cbn [sec frac uptime]; lia.
  - intros n m Hn. rewrite !H. nia.
  - intros n. rewrite H. change (2 ^ 127) with (2 ^ 63 * 2 ^ 64). nia.
  - intros i j. unfold callout_of. lia.
Qed.

Lemma idle_ok : timers_idle callout_of idle.
Proof. done. Qed.

Fixpoint all_allowed (ops : list chip_op) (s : S) : Prop :=
  match ops with
  | [] => True
  | o :: ops => chip_allowed callout_of o s /\
      match run_chip uptime hosttime callout_of o s with Return _ => True | _ => False end /\
      all_allowed ops (run_or (run_chip uptime hosttime callout_of o) s)
  end.

Lemma run_reachable ops s : all_allowed ops s -> rtc (chip_step uptime hosttime callout_of) s (run ops s).
Proof.
  revert s. induction ops as [|o ops IH]; intros s H; [done|]. destruct H as (Ha & Hr & H).
  eapply rtc_l; [|exact (IH _ H)]. apply (cs_op _ _ _ o); [done|].
  unfold run_or. by destruct (run_chip _ _ _ o s) as [[[] s']| |].
Qed.

(** The guest enables its local APIC, selects the slowest clock and starts the
    timer. *)
Definition enable : chip_op := OMmioWrite 0 (DEFAULT_APIC_BASE + 0xf0) 0x1ff 4.
Definition divide_128 : chip_op := OMmioWrite 0 (DEFAULT_APIC_BASE + 0x3e0) 0xa 4.
Definition start : chip_op := OMmioWrite 0 (DEFAULT_APIC_BASE + 0x380) 100000000 4.
Definition running : S := run [enable; divide_128; start] booted.

(** A write inside the page that [write_ok] allows because the timer is
    stopped and the destination is not in x2APIC form. *)
Ltac allowed_write :=
  split; [unfold is_cpu, VM_MAXCPU; lia|];
  split; [vm_compute; split; [discriminate|reflexivity]|];
  split; [intros E H; vm_compute in E, H; discriminate|intros E H; vm_compute in E, H; discriminate].

Lemma running_reachable : rtc (chip_step uptime hosttime callout_of) booted running.
Proof.
  apply run_reachable. split; [allowed_write|]. split; [vm_compute; exact I|].
  split; [allowed_write|]. split; [vm_compute; exact I|].
  split; [allowed_write|]. split; [vm_compute; exact I|]. exact I.
Qed.

Definition aborts {A} (o : outcome A) : bool := match o with Panic => true | _ => false end.
Definition divide_1 : chip_op := OMmioWrite 0 (DEFAULT_APIC_BASE + 0x3e0) 0xb 4.
Definition ipi_to (dest : Z) : chip_op := OWrmsr 0 0x830 (Z.shiftl dest 32 + 0x41).
End ChipExample.

Import ChipExample.

Lemma lapics_never_abort_witness :
  exists s', run_chip uptime hosttime callout_of (OMmioRead 0 (DEFAULT_APIC_BASE + 0x390)) running = Return (tt, s').
Proof.
  refine (proj1 (lapics_never_abort uptime hosttime callout_of clocks idle [] running
    (OMmioRead 0 (DEFAULT_APIC_BASE + 0x390)) idle_ok running_reachable _)).
  unfold chip_allowed, is_cpu, VM_MAXCPU. lia.
Defined.

Lemma ccr_counts_down_witness :
  exists s1, lapic_mmio_write uptime hosttime callout_of 0 (DEFAULT_APIC_BASE + 0x380) 1000 4 running = Return ((0, false), s1) /\
    forall k, (readings s1 <= k)%nat ->
    exists s2, lapic_mmio_read uptime callout_of 0 (DEFAULT_APIC_BASE + 0x390) (s1 <| readings := k |>) =
      Return ((0, Z.max 0 (1000 + (bt_val (uptime (readings running)) - bt_val (uptime k)) / frac (timer_freq_bt (vm_lapic 0 running)))), s2).
Proof.
  apply (ccr_counts_down uptime hosttime callout_of clocks 0 1000 running).
  - exact (chip_reachable_ok uptime hosttime callout_of clocks idle [] running idle_ok running_reachable).
  - unfold is_cpu, VM_MAXCPU. lia.
  - vm_compute. reflexivity.
  - lia.
Defined.

(** Each of the three exclusions is needed: a guest can abort the hypervisor
    by a write to MSR 0x900 and by a read of the current count after it made
    the clock of a running timer faster, and in x2APIC mode it reaches an
    undefined shift by an interprocessor interrupt to a physical destination
    from 2^31 on. *)
Example guest_aborts :
  aborts (run_chip uptime hosttime callout_of (OWrmsr 0 0x900 0) booted) = true /\
  aborts (run_chip uptime hosttime callout_of (OMmioRead 0 (DEFAULT_APIC_BASE + 0x390)) (run [divide_1] running)) = true /\
  aborts (run_chip uptime hosttime callout_of (ipi_to 0x80000001) (run [OX2apic 0 X2APIC_ENABLED] booted)) = true.
Proof. vm_compute. done. Qed.
