(* ===== verification/LapicDeliver.v ===== *)
(** * Interrupts reach the local APICs they address

    The destinations [vlapic_calcdest] computes, against a specification of the
    four addressing modes by the bits of the address and of the logical
    destination registers; and the path of an interrupt from a pin of the I/O
    APIC, or from another vCPU's command register, to the request registers
    of its destinations.  Last, the start of the application processors. *)

From S2P Require Import Prelude Effects Interface VmmCommon Bintime Vlapic Vioapic Lapic LapicSafe.
Local Open Scope cmd_scope.

(** ** Destinations *)

(** Some bit [k] below [n] of the address selects bit [base + k] of the logical
    destination register. *)
Definition selects (dest ldr base : Z) (n : Z) : bool :=
  existsb (fun k => Z.testbit dest k && Z.testbit ldr (base + k)) (seqZ 0 n).

(** The logical address [dest], in xAPIC or x2APIC form, selects [c]: the flat
    model compares eight bits, the cluster models compare the cluster number
    and then the bits of the members of a cluster. *)
Definition accepts (dest : Z) (x2apic_dest : bool) (c : lcpu) : bool :=
  let model := Z.shiftr (dfr c) 28 in
  let cluster := if x2apic_dest then Z.shiftr dest 16 else Z.shiftr dest 4 mod 16 in
  let members := if x2apic_dest then 16 else 4 in
  if model =? 0xf then selects dest (ldr c) 24 8
  else if model =? 0 then
    if x2apic c then (Z.shiftr (ldr c) 16 =? cluster) && selects dest (ldr c) 0 members
    else (Z.shiftr (ldr c) 28 =? cluster) && selects dest (ldr c) 24 (Z.min members 4)
  else false.

Lemma land_nonzero a b n : b in_u n -> 0 <= n ->
  negb (Z.land a b =? 0) = existsb (fun k => Z.testbit a k && Z.testbit b k) (seqZ 0 n).
Proof.
  intros Hb Hn. apply eq_true_iff_eq. rewrite negb_true_iff, Z.eqb_neq, existsb_exists. split.
  - intros Hne. destruct (decide (Exists (fun k => Z.testbit (Z.land a b) k = true) (seqZ 0 n))) as [He|He].
    + apply Exists_exists in He as (k & Hk & Hb'). exists k. split; [by apply list_elem_of_In|]. by rewrite Z.land_spec in Hb'.
    + exfalso. apply Hne, Z.bits_inj'. intros k Hk. rewrite Z.testbit_0_l. apply not_true_is_false. intros Ht. apply He.
      apply Exists_exists. exists k. split; [|done]. apply elem_of_seqZ. split; [done|].
      destruct (Z.lt_ge_cases k n) as [|Hge]; [lia|]. rewrite Z.land_spec, (proj2 (proj1 (in_u_bits n b Hn) Hb) k Hge), andb_false_r in Ht. done.
  - intros (k & Hk & Ht) E. apply list_elem_of_In, elem_of_seqZ in Hk. rewrite <- Z.land_spec, E, Z.testbit_0_l in Ht. done.
Qed.

Lemma existsb_same (f g : Z -> bool) l : (forall k, k ∈ l -> f k = g k) -> existsb f l = existsb g l.
Proof.
  induction l as [|x l IH]; intros H; [done|]. cbn. rewrite H by (apply elem_of_cons; by left). f_equal. apply IH.
  intros k Hk. apply H, elem_of_cons. by right.
Qed.

(** The comparison of the code is the specification. *)
Lemma selects_land dest r base n m : 0 <= base -> 0 <= n <= m -> Z.shiftr r base in_u m ->
  negb (Z.land (Z.land dest (Z.ones n)) (Z.shiftr r base) =? 0) = selects dest r base n.
Proof.
  intros Hb Hn Hr. assert (Hl : Z.land dest (Z.ones n) in_u n) by (rewrite Z.land_ones by lia; apply mod_in_u; lia).
  rewrite Z.land_comm, (land_nonzero _ _ n) by (done || lia). apply existsb_same. intros k Hk%elem_of_seqZ.
  rewrite Z.shiftr_spec, Z.land_spec, Z.ones_spec_low by lia. rewrite andb_true_r, andb_comm. f_equal; f_equal; lia.
Qed.

(** Of two fields compared bit by bit, the shorter one counts. *)
Lemma selects_fields dest r base n m : 0 <= base -> 0 <= n -> 0 <= m ->
  negb (Z.land (Z.land dest (Z.ones n)) (Z.land (Z.shiftr r base) (Z.ones m)) =? 0) = selects dest r base (Z.min n m).
Proof.
  intros Hb Hn Hm. rewrite <- Z.land_assoc, (Z.land_comm (Z.ones n)), <- Z.land_assoc.
  assert (E : Z.land (Z.ones m) (Z.ones n) = Z.ones (Z.min n m)).
  { apply Z.bits_inj'. intros k Hk. rewrite Z.land_spec, !Z.testbit_ones_nonneg by lia.
    destruct (Z.ltb_spec k m), (Z.ltb_spec k n), (Z.ltb_spec k (Z.min n m)); done || lia. }
  rewrite E, (land_nonzero _ _ (Z.min n m)); [|rewrite Z.land_ones by lia; apply mod_in_u; lia|lia].
  apply existsb_same. intros k Hk%elem_of_seqZ. rewrite Z.land_spec, Z.shiftr_spec, Z.ones_spec_low by lia.
  rewrite andb_true_r. f_equal. f_equal. lia.
Qed.

Lemma model_field d m : d in_u 32 -> 0 <= m < 16 ->
  (Z.land d APIC_DFR_MODEL_MASK =? Z.shiftl m 28) = (Z.shiftr d 28 =? m).
Proof.
  intros Hd Hm. assert (E : Z.land d APIC_DFR_MODEL_MASK = Z.shiftl (Z.shiftr d 28) 28).
  { apply Z.bits_inj'. intros k Hk. rewrite Z.land_spec, Z.shiftl_spec by lia. change APIC_DFR_MODEL_MASK with (Z.shiftl (Z.ones 4) 28).
    rewrite Z.shiftl_spec by lia. destruct (Z.lt_ge_cases k 28) as [Hlt|Hge].
    - rewrite !(Z.testbit_neg_r _ (k - 28)) by lia. apply andb_false_r.
    - rewrite Z.shiftr_spec by lia. replace (k - 28 + 28) with k by lia. rewrite Z.testbit_ones_nonneg by lia.
      destruct (Z.ltb_spec (k - 28) 4); [apply andb_true_r|]. rewrite andb_false_r. symmetry.
      apply (proj1 (in_u_bits 32 d ltac:(lia)) Hd). lia. }
  rewrite E, !Z.shiftl_mul_pow2 by lia. destruct (Z.eqb_spec (Z.shiftr d 28) m) as [->|Hne]; [apply Z.eqb_refl|].
  apply Z.eqb_neq. nia.
Qed.

Lemma logical_accepts dest x2 c : dfr c in_u 32 -> ldr c in_u 32 -> dest in_u 32 ->
  match logical_bits dest x2 c with
  | Some (ldest, mda) => negb (Z.land mda ldest =? 0)
  | None => false
  end = accepts dest x2 c.
Proof.
  intros Hd Hl Hde. unfold logical_bits, accepts. cbv zeta. change APIC_DFR_MODEL_FLAT with (Z.shiftl 0xf 28).
  change APIC_DFR_MODEL_CLUSTER with (Z.shiftl 0 28). rewrite !model_field by (done || lia).
  assert (H24 : Z.shiftr (ldr c) 24 in_u 8).
  { rewrite Z.shiftr_div_pow2 by lia. split; [apply Z.div_pos; lia|apply Z.div_lt_upper_bound; lia]. }
  change 0xff with (Z.ones 8). change 0xffff with (Z.ones 16). change 0xf with (Z.ones 4).
  assert (Ef : negb (Z.land (Z.land dest (Z.ones 8)) (Z.shiftr (ldr c) 24) =? 0) = selects dest (ldr c) 24 8)
    by (apply (selects_land _ _ _ _ 8); [lia|lia|done]).
  assert (E0 : Z.land (ldr c) (Z.ones 16) = Z.land (Z.shiftr (ldr c) 0) (Z.ones 16)) by (by rewrite Z.shiftr_0_r).
  rewrite E0. rewrite !(Z.land_ones (Z.shiftr dest 4)) by lia. change (2 ^ 4) with 16.
  destruct (Z.shiftr (dfr c) 28 =? Z.ones 4); [destruct x2; exact Ef|].
  destruct (Z.shiftr (dfr c) 28 =? 0); [|by destruct x2].
  destruct x2, (x2apic c); cbv iota; cbn [Z.min];
    match goal with |- context [negb (?a =? ?b)] => destruct (Z.eqb_spec a b) end; cbn [negb andb];
    rewrite ?selects_fields by lia; done.
Qed.

(** ** The set of destinations *)
Section Dest.
Context {T V : Type} `{!CalloutOps T, !CalloutLaws T, !VcpuOut V}.
Variables (uptime : nat -> bintime) (callout_of : Z -> Z).
Local Abbreviation S := (chip T V).
Local Abbreviation chip_ok := (chip_ok (T := T) (V := V) uptime callout_of).
Implicit Types s : S.

(** vCPU [i] is addressed: by a broadcast if it is active, by a physical address
    if it is its number, by a logical address if it is active and accepts it;
    with lowest-priority arbitration only the first of these is. *)
Definition matches (dest : Z) (x2apic_dest : bool) s (i : Z) : bool :=
  Z.testbit (active_cpus s) i && accepts dest x2apic_dest (vm_lapic i s).

Definition targeted (dest : Z) (phys lowprio x2apic_dest : bool) s (i : Z) : bool :=
  if dest =? (if x2apic_dest then 0xffffffff else 0xff) then Z.testbit (active_cpus s) i
  else if phys then dest =? i
  else matches dest x2apic_dest s i &&
       (negb lowprio || forallb (fun j => negb (matches dest x2apic_dest s j)) (seqZ 0 i)).

Lemma logical_dest_all dest x2 s vs d i : chip_ok s -> dest in_u 32 -> Forall is_cpu vs -> is_cpu i ->
  Z.testbit (logical_dest dest false x2 s vs d) i =
    Z.testbit d i || (bool_decide (i ∈ vs) && accepts dest x2 (vm_lapic i s)).
Proof.
  intros H Hd Hv Hi. revert d. induction Hv as [|v vs Hv _ IH]; intros d; cbn [logical_dest].
  { rewrite bool_decide_eq_false_2 by (apply not_elem_of_nil). by rewrite orb_false_r. }
  pose proof (ok_regs _ _ _ _ _ _ (cpu_ok_at _ _ _ _ H Hv)) as [].
  pose proof (logical_accepts dest x2 (vm_lapic v s) ok_dfr ok_ldr Hd) as E.
  set (a := accepts dest x2 (vm_lapic v s)) in *.
  assert (Es : Z.testbit (if a then CPU_SET v d else d) i ||
               bool_decide (i ∈ vs) && accepts dest x2 (vm_lapic i s) =
             Z.testbit d i || bool_decide (i ∈ v :: vs) && accepts dest x2 (vm_lapic i s)).
  { unfold a. destruct (decide (i = v)) as [->|Hne].
    - rewrite (bool_decide_eq_true_2 (v ∈ v :: vs)) by (apply elem_of_cons; by left).
      destruct (accepts dest x2 (vm_lapic v s)); [|by rewrite !andb_false_r].
      unfold CPU_SET. rewrite Z.lor_spec, bit_testbit, Z.eqb_refl by apply Hv. by rewrite !orb_true_r.
    - assert (Eb : bool_decide (i ∈ v :: vs) = bool_decide (i ∈ vs)).
      { apply bool_decide_ext. rewrite elem_of_cons. split; [by intros [?|?]|by right]. }
      rewrite Eb. f_equal. destruct (accepts dest x2 (vm_lapic v s)); [|done]. unfold CPU_SET.
      rewrite Z.lor_spec, bit_testbit by apply Hv. rewrite (proj2 (Z.eqb_neq v i)) by congruence. apply orb_false_r. }
  rewrite <- Es. destruct (logical_bits _ _ _) as [[l m]|].
  - rewrite E. cbv zeta. destruct a; apply IH.
  - rewrite <- E. apply IH.
Qed.

(** The first member of a list that has a property. *)
Lemma logical_dest_first dest x2 s vs d : chip_ok s -> dest in_u 32 -> Forall is_cpu vs ->
  logical_dest dest true x2 s vs d =
    match List.find (fun v => accepts dest x2 (vm_lapic v s)) vs with Some v => CPU_SET v d | None => d end.
Proof.
  intros H Hd Hv. induction Hv as [|v vs Hv _ IH]; cbn [logical_dest List.find]; [done|].
  pose proof (ok_regs _ _ _ _ _ _ (cpu_ok_at _ _ _ _ H Hv)) as [].
  pose proof (logical_accepts dest x2 (vm_lapic v s) ok_dfr ok_ldr Hd) as E.
  destruct (logical_bits _ _ _) as [[l m]|].
  - rewrite E. cbv zeta. by destruct (accepts dest x2 (vm_lapic v s)).
  - by rewrite <- E.
Qed.

(** The first member of a filtered range that has a property. *)
Lemma find_filter_least (P Q : Z -> bool) n i : 0 <= i < n ->
  bool_decide (List.find Q (List.filter P (seqZ 0 (n))) = Some i) =
    P i && Q i && forallb (fun j => negb (P j && Q j)) (seqZ 0 i).
Proof.
  intros Hi. assert (Ef : List.find Q (List.filter P (seqZ 0 (n))) =
    List.find (fun j => P j && Q j) (seqZ 0 (n))).
  { induction (seqZ 0 (n)) as [|x l IH]; [done|]. cbn. destruct (P x); [cbn; by rewrite IH|done]. }
  rewrite Ef. clear Ef. set (R := fun j => P j && Q j). change (P i && Q i) with (R i).
  replace (n) with (i + (n - i)) by lia. rewrite seqZ_app, (seqZ_cons (0 + i)) by lia. rewrite Z.add_0_l.
  assert (E : forall l l', List.find R (l ++ i :: l') = if forallb (fun j => negb (R j)) l then List.find R (i :: l') else List.find R l).
  { induction l as [|x l IH]; intros l'; [done|]. cbn. destruct (R x) eqn:Ex; [done|]. cbn. by rewrite IH. }
  rewrite E. destruct (forallb _ _) eqn:Eb.
  - cbn. rewrite andb_true_r. destruct (R i) eqn:Er; [by apply bool_decide_eq_true_2|].
    apply bool_decide_eq_false_2. intros Hf. apply List.find_some in Hf as [Hin _]. apply list_elem_of_In, elem_of_seqZ in Hin. lia.
  - rewrite andb_false_r. apply bool_decide_eq_false_2. intros Hf. apply List.find_some in Hf as [Hin _].
    apply list_elem_of_In, elem_of_seqZ in Hin. lia.
Qed.

Lemma active_cpus_in s i : chip_ok s -> is_cpu i -> bool_decide (i ∈ cpus_in (active_cpus s)) = Z.testbit (active_cpus s) i.
Proof.
  intros H Hi. destruct (Z.testbit (active_cpus s) i) eqn:E.
  - apply bool_decide_eq_true_2, elem_cpus_in. unfold is_cpu, VM_MAXCPU in Hi. split; [lia|done].
  - apply bool_decide_eq_false_2. intros [_ Hb]%elem_cpus_in. congruence.
Qed.

Lemma active_are_cpus s : chip_ok s -> Forall is_cpu (cpus_in (active_cpus s)).
Proof. intros H. apply Forall_forall. intros v Hv. eapply cpus_in_range; [apply H|done]. Qed.

Lemma first_target (P Q : Z -> bool) n i : 0 <= i < n ->
  Z.testbit match List.find Q (List.filter P (seqZ 0 n)) with Some v => CPU_SET v 0 | None => 0 end i =
    P i && Q i && forallb (fun j => negb (P j && Q j)) (seqZ 0 i).
Proof.
  intros Hi. rewrite <- (find_filter_least _ _ n i) by done.
  destruct (List.find _ _) as [v|] eqn:Ef; [|by rewrite Z.testbit_0_l].
  apply List.find_some in Ef as [Hv _]. apply List.filter_In in Hv as [Hv _]. apply list_elem_of_In, elem_of_seqZ in Hv.
  unfold CPU_SET. rewrite Z.lor_spec, Z.testbit_0_l, bit_testbit by lia. cbn.
  destruct (Z.eqb_spec v i) as [->|Hne]; [by rewrite bool_decide_eq_true_2|].
  rewrite bool_decide_eq_false_2; [done|congruence].
Qed.

(** [vlapic_calcdest] computes the set of the addressed vCPUs. *)
Lemma calcdest_targets dest phys lowprio x2 s : chip_ok s -> dest in_u 32 -> dest_ok phys x2 dest ->
  exists m, vlapic_calcdest dest phys lowprio x2 s = Return (m, s) /\ m in_u 16 /\
    forall i, is_cpu i -> Z.testbit m i = targeted dest phys lowprio x2 s i.
Proof.
  intros H Hd Ho. unfold vlapic_calcdest, targeted.
  assert (Eb : ((x2 && (dest =? 0xffffffff)) || (negb x2 && (dest =? 0xff))) = (dest =? (if x2 then 0xffffffff else 0xff)))
    by (destruct x2; cbn; [by rewrite orb_false_r|done]).
  rewrite Eb. clear Eb. destruct (dest =? _) eqn:Ed.
  { exists (active_cpus s). split; [reflexivity|]. split; [apply H|done]. }
  destruct phys.
  - cbv zeta. destruct (Ho eq_refl) as [Hp|[-> ->]]; [|done].
    assert (Ei : i32 dest = dest).
    { unfold i32, to_signed in *. cbv zeta in *. rewrite Z.mod_small in * by done. destruct (dest <? _); [done|lia]. }
    rewrite Ei. unfold is_cpu, VM_MAXCPU in *. destruct (Z.ltb_spec dest 16) as [Hlt|Hge].
    + exists (CPU_SET dest 0). rewrite KASSERT_true by (apply Z.leb_le; lia). split; [done|]. unfold CPU_SET.
      split; [apply lor_in_u; [lia|done|]; apply bit_in_u; lia|]. intros i Hi.
      rewrite Z.lor_spec, Z.testbit_0_l, bit_testbit by lia. done.
    + exists 0. split; [done|]. split; [done|]. intros i Hi. rewrite Z.testbit_0_l. symmetry. apply Z.eqb_neq. lia.
  - exists (logical_dest dest lowprio x2 s (cpus_in (active_cpus s)) 0). split; [done|].
    pose proof (active_are_cpus s H) as Ha. split.
    { apply logical_dest_range; [|done]. intros v Hv. by eapply Forall_forall in Ha. }
    intros i Hi. unfold matches. destruct lowprio; cbn [negb orb].
    + rewrite logical_dest_first by done. rewrite cpus_in_filter. apply first_target. unfold is_cpu, VM_MAXCPU in *; lia.
    + rewrite logical_dest_all, Z.testbit_0_l, active_cpus_in, andb_true_r by done. done.
Qed.

(** ** Requests *)

(** The local APIC [c] after vector [vec] was requested: nothing happens while
    it is disabled by software. *)
Definition request (vec : Z) (c : lcpu) : lcpu :=
  if tst (svr (core c)) APIC_SVR_ENABLE then c <| core ::= fun l => l <| irr ::= fun r => vset r vec |> |> else c.

Lemma set_intr_run v vec s : is_cpu v -> 16 <= vec < 256 ->
  lapic_set_intr v vec s =
    Return (0, let s1 := set_cpu v (fun c => c <| core ::= fun _ => core (request vec (vm_lapic v s)) |>) s in
               if tst (svr (core (vm_lapic v s))) APIC_SVR_ENABLE then s1 <| outs ::= out_notify v |> else s1).
Proof.
  intros Hv Hvec. unfold lapic_set_intr. unfold is_cpu, VM_MAXCPU in Hv.
  rewrite (proj2 (Z.ltb_ge v 0)), (proj2 (Z.leb_gt VM_MAXCPU v)) by (unfold VM_MAXCPU; lia).
  rewrite (proj2 (Z.ltb_ge vec 16)), (proj2 (Z.ltb_ge 255 vec)) by lia. cbn [orb].
  unfold request, bind, on_core_with, vlapic_set_intr_ready, set_intr_ready_with. unfold bind at 2.
  unfold KASSERT. rewrite (proj2 (Z.leb_le 0 vec)), (proj2 (Z.ltb_lt vec 256)) by lia. cbn [andb]. cbn -[tst].
  destruct (tst (svr (core (vm_lapic v s))) APIC_SVR_ENABLE) eqn:E; cbn -[tst].
  - rewrite (proj2 (Z.ltb_ge vec 16)) by lia. reflexivity.
  - reflexivity.
Qed.

(** The parts of the machine that a request leaves alone. *)
Record rest_same s s' : Prop := {
  same_len : length (cpus s') = length (cpus s);
  same_active : active_cpus s' = active_cpus s;
  same_ioapic : ioapic s' = ioapic s;
  same_callouts : callouts s' = callouts s;
  same_readings : readings s' = readings s;
}.

Lemma set_intr_effect v vec s : length (cpus s) = 16%nat -> is_cpu v -> 16 <= vec < 256 ->
  exists s', lapic_set_intr v vec s = Return (0, s') /\ rest_same s s' /\
    forall i, is_cpu i -> vm_lapic i s' = if i =? v then request vec (vm_lapic v s) else vm_lapic i s.
Proof.
  intros Hl Hv Hvec. rewrite set_intr_run by done. eexists. split; [reflexivity|]. cbv zeta.
  set (s1 := set_cpu _ _ s).
  assert (E : vm_lapic v s1 = request vec (vm_lapic v s)).
  { unfold s1. rewrite vm_lapic_set by done. unfold request. split_if; [done|]. by destruct (vm_lapic v s). }
  assert (En : forall i, is_cpu i -> i <> v -> vm_lapic i s1 = vm_lapic i s) by (intros i Hi Hne; by apply vm_lapic_set_ne).
  assert (Er : rest_same s s1) by (split; try done; apply length_set_cpu).
  assert (Ev : forall i, is_cpu i -> vm_lapic i s1 = if i =? v then request vec (vm_lapic v s) else vm_lapic i s).
  { intros i Hi. destruct (Z.eqb_spec i v) as [->|Hne]; [done|by apply En]. }
  split_if; [|done]. split; [by destruct Er|exact Ev].
Qed.

(** A request at each member of a set. *)
Lemma each_intr_effect vs vec s : length (cpus s) = 16%nat -> NoDup vs -> Forall is_cpu vs -> 16 <= vec < 256 ->
  exists s', each_cpu (fun v => lapic_set_intr v vec ;;; skip) vs s = Return (tt, s') /\ rest_same s s' /\
    forall i, is_cpu i -> vm_lapic i s' = if bool_decide (i ∈ vs) then request vec (vm_lapic i s) else vm_lapic i s.
Proof.
  intros Hl Hnd Hc Hvec. revert s Hl. induction Hnd as [|v vs Hv _ IH]; intros s Hl.
  { exists s. split; [done|]. split; [done|]. intros i _. by rewrite bool_decide_eq_false_2 by apply not_elem_of_nil. }
  apply Forall_cons_1 in Hc as [Hcv Hc]. destruct (set_intr_effect v vec s Hl Hcv Hvec) as (s1 & E1 & R1 & H1).
  destruct (IH Hc s1 ltac:(by rewrite (same_len _ _ R1))) as (s2 & E2 & R2 & H2).
  exists s2. split; [|split].
  - cbn [each_cpu]. erewrite bind_return; [exact E2|]. by erewrite bind_return by exact E1.
  - destruct R1, R2. split; congruence.
  - intros i Hi. rewrite H2, H1 by done. destruct (Z.eqb_spec i v) as [->|Hne].
    + rewrite bool_decide_eq_false_2 by done. by rewrite bool_decide_eq_true_2 by (apply elem_of_cons; by left).
    + assert (Eb : bool_decide (i ∈ v :: vs) = bool_decide (i ∈ vs)).
      { apply bool_decide_ext. rewrite elem_of_cons. split; [by intros [?|?]|by right]. }
      by rewrite Eb.
Qed.

Lemma cpus_in_nodup m : NoDup (cpus_in m).
Proof. rewrite cpus_in_filter. apply NoDup_ListNoDup, List.NoDup_filter, NoDup_ListNoDup, NoDup_seqZ. Qed.

Lemma in_mask m i : is_cpu i -> bool_decide (i ∈ cpus_in m) = Z.testbit m i.
Proof.
  intros Hi. destruct (Z.testbit m i) eqn:E.
  - apply bool_decide_eq_true_2, elem_cpus_in. unfold is_cpu, VM_MAXCPU in Hi. split; [lia|done].
  - apply bool_decide_eq_false_2. intros [_ Hb]%elem_cpus_in. congruence.
Qed.

Lemma mask_are_cpus m : m in_u 16 -> Forall is_cpu (cpus_in m).
Proof. intros Hm. apply Forall_forall. intros v Hv. by eapply cpus_in_range. Qed.

(** An interrupt message requests its vector at the addressed local APICs. *)
Lemma deliver_effect level dest phys delmode vec s : chip_ok s -> 0 <= dest < 256 -> 16 <= vec < 256 ->
  delmode = IOART_DELFIXED \/ delmode = IOART_DELLOPRI ->
  exists s', deliver_intr level dest phys delmode vec s = Return (tt, s') /\ rest_same s s' /\
    forall i, is_cpu i -> vm_lapic i s' =
      if targeted dest phys (delmode =? IOART_DELLOPRI) false s i then request vec (vm_lapic i s) else vm_lapic i s.
Proof.
  intros H Hd Hv Hm. assert (Ho : dest_ok phys false dest) by (intros _; left; rewrite i32_small by lia; lia).
  destruct (calcdest_targets dest phys (delmode =? IOART_DELLOPRI) false s H ltac:(lia) Ho) as (m & E & Hm16 & Ht).
  destruct (each_intr_effect (cpus_in m) vec s (ok_len _ _ _ H) (cpus_in_nodup m) (mask_are_cpus m Hm16) Hv) as (s' & E' & R & Hs).
  exists s'. split; [|split; [done|]].
  - unfold deliver_intr. assert (Eg : negb (delmode =? IOART_DELFIXED) && negb (delmode =? IOART_DELLOPRI) && negb (delmode =? IOART_DELEXINT) = false)
      by (by destruct Hm as [-> | ->]).
    rewrite Eg. erewrite bind_return by exact E. by destruct Hm as [-> | ->].
  - intros i Hi. rewrite Hs, in_mask, Ht by done. done.
Qed.
End Dest.

(** ** From a source to the request registers *)
Section Delivered.
Context {T V : Type} `{!CalloutOps T, !CalloutLaws T, !VcpuOut V}.
Variables (uptime : nat -> bintime) (hosttime : nat -> Z) (callout_of : Z -> Z).
Context (CLK : clock_ok uptime callout_of).
Local Abbreviation S := (chip T V).
Local Abbreviation chip_ok := (chip_ok (T := T) (V := V) uptime callout_of).
Implicit Types s : S.

(** C7: asserting an idle, unmasked pin of the I/O APIC whose redirection entry has
    the delivery mode fixed or lowest priority and a vector of at least 16
    requests this vector at exactly the local APICs the entry addresses and
    that are enabled, and changes no local APIC otherwise. *)
Theorem pin_reaches_lapics irq s : chip_ok s -> is_pin irq ->
  let e := get_pin irq (ioapic s) in
  let m := decode (reg e) in
  acnt e = 0 -> masked (reg e) = false -> 16 <= m_vector m ->
  m_delmode m = IOART_DELFIXED \/ m_delmode m = IOART_DELLOPRI ->
  exists s', run_chip uptime hosttime callout_of (OPin irq IRQSTATE_ASSERT) s = Return (tt, s') /\
    forall i, is_cpu i -> vm_lapic i s' =
      if targeted (m_dest m) (m_phys m) (m_delmode m =? IOART_DELLOPRI) false s i
      then request (m_vector m) (vm_lapic i s) else vm_lapic i s.
Proof.
  intros H Hirq e m Ha Hmask Hvec Hdm. pose proof (ok_ioapic _ _ _ H) as Hw.
  assert (Hr : reg e in_u 64) by (by apply wf_get_pin). destruct (decode_ok _ Hr) as [_ Hv]. fold m in Hv.
  assert (Hd : 0 <= m_dest m < 256).
  { unfold m, decode. cbn [m_dest]. pose proof (u32_in_u (Z.shiftr (reg e) 32)). unfold APIC_ID_SHIFT.
    rewrite (Z.shiftr_div_pow2 (u32 _)) by lia. split; [apply Z.div_pos; lia|apply Z.div_lt_upper_bound; lia]. }
  destruct (deliver_effect uptime callout_of (m_level m) (m_dest m) (m_phys m) (m_delmode m) (m_vector m) s H Hd
    ltac:(unfold is_vector in Hv; lia) Hdm) as (s1 & E & _ & Hs).
  cbn [run_chip]. eexists. split; [reflexivity|]. unfold on_ioapic, vioapic_set_irqstate.
  unfold is_pin in Hirq. rewrite (proj2 (Z.ltb_ge irq 0)), (proj2 (Z.leb_gt REDIR_ENTRIES irq)) by (unfold REDIR_ENTRIES; lia).
  cbn [orb snd]. unfold vioapic_set_pinstate. fold e. rewrite Ha. cbn [Z.eqb andb Z.add].
  set (v1 := set_pin _ _ _). assert (Eg : get_pin irq v1 = e <| acnt := 1 |>) by (by apply get_set_pin).
  unfold vioapic_send_intr. rewrite Eg. cbn [reg upd]. rewrite tst_mask32, Hmask. cbn beta zeta iota. fold m.
  intros i Hi. rewrite <- Hs by done. unfold vlapic_deliver_intr, chip_fabric, run_or. rewrite E. done.
Qed.

(** The vCPUs an interprocessor interrupt of [cpu] addresses: the destination
    field of the command register, itself, all active ones, or all others. *)
Definition ipi_targeted (cpu dest icr : Z) s (i : Z) : bool :=
  let field := Z.land icr APIC_DEST_MASK in
  if field =? APIC_DEST_DESTFLD then
    targeted dest (Z.land icr APIC_DESTMODE_LOG =? 0) false (x2apic (vm_lapic cpu s)) s i
  else if field =? APIC_DEST_SELF then i =? cpu
  else if field =? APIC_DEST_ALLISELF then Z.testbit (active_cpus s) i
  else Z.testbit (active_cpus s) i && negb (i =? cpu).

Lemma dest_field icr : let f := Z.land icr APIC_DEST_MASK in
  f = APIC_DEST_DESTFLD \/ f = APIC_DEST_SELF \/ f = APIC_DEST_ALLISELF \/ f = APIC_DEST_ALLESELF.
Proof.
  cbv zeta. assert (E : Z.land icr APIC_DEST_MASK = Z.shiftl (Z.land (Z.shiftr icr 18) 3) 18).
  { change APIC_DEST_MASK with (Z.shiftl 3 18). apply Z.bits_inj'. intros k Hk. rewrite Z.land_spec, !Z.shiftl_spec, Z.land_spec by lia.
    destruct (Z.lt_ge_cases k 18); [rewrite !(Z.testbit_neg_r _ (k - 18)) by lia; apply andb_false_r|].
    rewrite Z.shiftr_spec by lia. by replace (k - 18 + 18) with k by lia. }
  assert (H : Z.land (Z.shiftr icr 18) 3 in_u 2) by (apply land_in_u_r; [lia|range]). rewrite E.
  assert (D : Z.land (Z.shiftr icr 18) 3 = 0 \/ Z.land (Z.shiftr icr 18) 3 = 1 \/ Z.land (Z.shiftr icr 18) 3 = 2 \/ Z.land (Z.shiftr icr 18) 3 = 3) by lia.
  destruct D as [->|[->|[-> | ->]]]; auto.
Qed.

Lemma ipi_targets_spec cpu dest icr s : chip_ok s -> is_cpu cpu -> dest in_u 32 ->
  dest_ok true (x2apic (vm_lapic cpu s)) dest ->
  exists m, ipi_targets cpu dest icr s = Return (m, s) /\ m in_u 16 /\
    forall i, is_cpu i -> Z.testbit m i = ipi_targeted cpu dest icr s i.
Proof.
  intros H Hc Hd Ho. unfold ipi_targets, ipi_targeted. erewrite bind_return by reflexivity.
  pose proof (dest_field icr) as Hf. cbv zeta in Hf.
  destruct Hf as [->|[->|[-> | ->]]]; cbn [Z.eqb Pos.eqb APIC_DEST_DESTFLD APIC_DEST_SELF APIC_DEST_ALLISELF APIC_DEST_ALLESELF].
  - apply (calcdest_targets uptime callout_of); [done|done|]. intros _. by apply Ho.
  - exists (CPU_SETOF cpu). split; [done|]. split; [apply bit_in_u; exact Hc|]. intros i Hi. unfold CPU_SETOF.
    rewrite bit_testbit by apply Hc. apply Z.eqb_sym.
  - exists (active_cpus s). split; [done|]. split; [apply H|done].
  - exists (CPU_CLR cpu (active_cpus s)). split; [done|]. split; [apply clr_in_u; [lia|apply H]|]. intros i Hi.
    unfold CPU_CLR. rewrite clr_testbit, bit_testbit by (apply Hc || apply Hi). by rewrite (Z.eqb_sym cpu).
Qed.

(** The fields of the command register. *)
Lemma icr_mask hi data m : hi in_u 32 -> data in_u 32 -> m in_u 32 -> Z.land m APIC_DELSTAT_PEND = 0 ->
  Z.land (Z.lor (Z.shiftl hi 32) (clr data APIC_DELSTAT_PEND)) m = Z.land data m.
Proof.
  intros Hh Hd Hm Hp. apply Z.bits_inj'. intros k Hk. rewrite !Z.land_spec, Z.lor_spec, Z.shiftl_spec, clr_testbit by lia.
  assert (Hpk : Z.testbit m k && Z.testbit APIC_DELSTAT_PEND k = false) by (rewrite <- Z.land_spec, Hp; apply Z.testbit_0_l).
  destruct (Z.lt_ge_cases k 32) as [Hlt|Hge].
  - rewrite (Z.testbit_neg_r hi) by lia. cbn [orb]. destruct (Z.testbit m k); [|by rewrite !andb_false_r].
    cbn in Hpk. rewrite Hpk. by rewrite andb_true_r.
  - rewrite (proj2 (proj1 (in_u_bits 32 m ltac:(lia)) Hm) k Hge). by rewrite !andb_false_r.
Qed.

Lemma set_cpu_set cpu f g s : set_cpu cpu f (set_cpu cpu g s) = set_cpu cpu (fun c => f (g c)) s.
Proof. unfold set_cpu, upd. cbn. by rewrite alter_alter. Qed.

(** The command register of [cpu] after a write of [data]. *)
Definition commanded (cpu data : Z) s : S := set_cpu cpu (fun c => c <| icr_lo := clr data APIC_DELSTAT_PEND |>) s.

Lemma commanded_ok cpu data s : chip_ok s -> data in_u 32 -> chip_ok (commanded cpu data s).
Proof.
  intros H Hd. apply (safe_plain uptime callout_of cpu (fun c => c <| icr_lo := clr data APIC_DELSTAT_PEND |>)); [done| |done].
  intros c []. split; cbn; try done. by apply clr_in_u.
Qed.

Lemma icr_write_run cpu data s : chip_ok s -> is_cpu cpu -> x2apic (vm_lapic cpu s) = false -> data in_u 32 ->
  lapic_mmio_write uptime hosttime callout_of cpu (DEFAULT_APIC_BASE + 0x300) data 4 s =
  vlapic_icrlo_write_handler cpu (set_cpu cpu (fun c => c <| icr_lo := data |>) s).
Proof.
  intros H Hc Hx Hd. unfold lapic_mmio_write. cbv zeta. rewrite mmio_offset by (unfold XHYVE_PAGE_SIZE; lia).
  rewrite Z.add_simpl_l. change (negb (4 =? 4) || negb (Z.land 0x300 0xf =? 0)) with false. cbv iota. unfold vlapic_write.
  rewrite KASSERT_true by reflexivity. change (LAPIC_SIZE <? 0x300) with false. cbv iota.
  erewrite bind_return by reflexivity. rewrite Hx. cbn [andb negb]. cbv iota zeta beta.
  rewrite u32_id by lia. do 2 erewrite bind_return by reflexivity. done.
Qed.

(** in xAPIC mode a write of the command register with the fixed delivery mode
    requests the vector at exactly the local APICs it addresses, by the
    destination field or by one of the three shorthands, and that are
    enabled; no other local APIC changes. *)
Theorem ipi_delivered cpu data s : chip_ok s -> is_cpu cpu -> x2apic (vm_lapic cpu s) = false -> data in_u 32 ->
  Z.land data APIC_DELMODE_MASK = APIC_DELMODE_FIXED -> 16 <= Z.land data APIC_VECTOR_MASK ->
  let s0 := commanded cpu data s in
  exists s', lapic_mmio_write uptime hosttime callout_of cpu (DEFAULT_APIC_BASE + 0x300) data 4 s = Return ((0, false), s') /\
    forall i, is_cpu i -> vm_lapic i s' =
      if ipi_targeted cpu (Z.shiftr (icr_hi (vm_lapic cpu s)) 24) data s0 i
      then request (Z.land data APIC_VECTOR_MASK) (vm_lapic i s0) else vm_lapic i s0.
Proof.
  intros H Hc Hx Hdat Hfix Hvec s0. pose proof (commanded_ok cpu data s H Hdat) as H0. fold s0 in H0.
  rewrite icr_write_run by done. unfold vlapic_icrlo_write_handler. erewrite bind_return by reflexivity. rewrite set_cpu_set.
  change (set_cpu cpu _ s) with s0. erewrite bind_return by reflexivity.
  assert (Ec : vm_lapic cpu s0 = (vm_lapic cpu s) <| icr_lo := clr data APIC_DELSTAT_PEND |>)
    by (apply vm_lapic_set; [apply H|done]).
  pose proof (ok_regs _ _ _ _ _ _ (cpu_ok_at _ _ _ _ H0 Hc)) as Hr. destruct Hr as [Hhi Hlo _ _].
  destruct (icr_dest _ Hhi Hlo) as (_ & Ed & H8). cbv zeta in Ed |- *. rewrite Ed.
  assert (Hx0 : x2apic (vm_lapic cpu s0) = false) by (by rewrite Ec). rewrite Hx0.
  assert (Ehi : icr_hi (vm_lapic cpu s0) = icr_hi (vm_lapic cpu s)) by (by rewrite Ec). rewrite <- Ehi.
  set (dest := Z.shiftr (icr_hi (vm_lapic cpu s0)) 24) in *.
  assert (Em : forall m, m in_u 32 -> Z.land m APIC_DELSTAT_PEND = 0 ->
    Z.land (Z.lor (Z.shiftl (icr_hi (vm_lapic cpu s0)) 32) (icr_lo (vm_lapic cpu s0))) m = Z.land data m).
  { intros m Hm Hp. rewrite Ec at 2. by apply icr_mask. }
  rewrite !Em by (done || reflexivity). rewrite Hfix, (proj2 (Z.ltb_ge _ 16)) by done. cbn [andb orb Z.eqb APIC_DELMODE_FIXED].
  set (icr := Z.lor _ _) in *.
  destruct (ipi_targets_spec cpu dest icr s0 H0 Hc ltac:(lia)) as (m & E & Hm & Ht).
  { intros _. left. rewrite i32_small by lia. lia. }
  assert (Hv : Z.land data APIC_VECTOR_MASK in_u 8) by (apply land_in_u_r; [lia|range]).
  destruct (each_intr_effect (cpus_in m) (Z.land data APIC_VECTOR_MASK) s0 (ok_len _ _ _ H0) (cpus_in_nodup m)
    (mask_are_cpus m Hm) ltac:(lia)) as (s' & E' & _ & Hs).
  exists s'. split; [erewrite bind_return by exact E; erewrite bind_return by exact E'; done|].
  intros i Hi. rewrite Hs, in_mask, Ht by done. unfold ipi_targeted. rewrite !Em by (done || reflexivity). done.
Qed.
End Delivered.

(** ** Examples *)
Module DeliverExample.
Import ChipExample.
(** Processor 0 is active and enabled; pin 2 of the I/O APIC sends vector 0x41 to it. *)
Definition wired : S := run [OActivate 0; enable; OIoapicWrite 0x15 0; OIoapicWrite 0x14 0x41] booted.

Lemma wired_ok : chip_ok uptime callout_of wired.
Proof.
  apply (chip_reachable_ok uptime hosttime callout_of clocks idle [] wired idle_ok). apply run_reachable.
  split; [unfold chip_allowed, is_cpu, VM_MAXCPU; lia|]. split; [exact I|].
  split; [allowed_write|]. split; [vm_compute; exact I|].
  split; [unfold chip_allowed; lia|]. split; [exact I|]. split; [unfold chip_allowed; lia|]. split; [exact I|]. exact I.
Qed.
End DeliverExample.

Import ChipExample DeliverExample.

Lemma pin_reaches_lapics_witness :
  exists s', run_chip uptime hosttime callout_of (OPin 2 IRQSTATE_ASSERT) wired = Return (tt, s') /\
    vm_lapic 0 s' = request 0x41 (vm_lapic 0 wired) /\ vm_lapic 1 s' = vm_lapic 1 wired.
Proof.
  destruct (pin_reaches_lapics uptime hosttime callout_of 2 wired wired_ok) as (s' & E & H).
  - unfold is_pin. lia.
  - vm_compute. reflexivity.
  - vm_compute. reflexivity.
  - vm_compute. discriminate.
  - left. vm_compute. reflexivity.
  - exists s'. split; [exact E|]. split; (etrans; [apply H; unfold is_cpu, VM_MAXCPU; lia|]); vm_compute; reflexivity.
Defined.

Lemma ipi_delivered_witness :
  exists s', lapic_mmio_write uptime hosttime callout_of 0 (DEFAULT_APIC_BASE + 0x300) 0x40041 4 wired = Return ((0, false), s') /\
    vm_lapic 0 s' = request 0x41 (vm_lapic 0 (commanded 0 0x40041 wired)).
Proof.
  destruct (ipi_delivered uptime hosttime callout_of 0 0x40041 wired wired_ok) as (s' & E & H).
  - unfold is_cpu, VM_MAXCPU. lia.
  - vm_compute. reflexivity.
  - lia.
  - reflexivity.
  - vm_compute. discriminate.
  - exists s'. split; [exact E|]. etrans; [apply H; unfold is_cpu, VM_MAXCPU; lia|]. vm_compute. reflexivity.
Defined.
