(* ===== verification/LapicBoot.v ===== *)
(** * The start of the application processors

    The boot processor starts the others with the INIT and start-up
    interprocessor interrupts; [vlapic_icrlo_write_handler] keeps the state of
    each in [boot_state] and asks the caller to start the processor
    ([VM_EXITCODE_SPINUP_AP], here [OutSpinup]).  Whatever the guest does,
    each processor is started at most once. *)

From S2P Require Import Prelude Effects Interface VmmCommon Bintime Vlapic Vioapic Lapic LapicSafe LapicDeliver.
Local Open Scope cmd_scope.

Definition is_spinup (ap : Z) (c : vcpu_call) : bool :=
  match c with OutSpinup _ a _ => a =? ap | _ => false end.
Definition spinups (ap : Z) (log : list vcpu_call) : nat := length (List.filter (is_spinup ap) log).

Lemma spinups_snoc ap log c : spinups ap (log ++ [c]) = (spinups ap log + if is_spinup ap c then 1 else 0)%nat.
Proof. unfold spinups. rewrite List.filter_app, length_app. cbn. by destruct (is_spinup ap c). Qed.

Section Boot.
Context {T : Type} `{!CalloutOps T}.
Variables (uptime : nat -> bintime) (hosttime : nat -> Z) (callout_of : Z -> Z).
Local Abbreviation S := (chip T (list vcpu_call)).
Implicit Types s : S.

(** The requests to start a processor, against its state. *)
Definition started s : Prop :=
  length (cpus s) = 16%nat /\
  forall ap, is_cpu ap ->
    spinups ap (outs s) = if bool_decide (boot (vm_lapic ap s) = BS_RUNNING) && negb (ap =? 0) then 1%nat else 0%nat.

Definition boot_inv s : Prop := wf_vioapic (ioapic s) /\ started s.

(** Commands that keep it, if they return. *)
Definition boots {A} (c : cmd S A) : Prop := forall s a s', boot_inv s -> c s = Return (a, s') -> boot_inv s'.

Lemma boots_bind {A B} (c : cmd S A) (k : A -> cmd S B) : boots c -> (forall a, boots (k a)) -> boots (bind c k).
Proof.
  intros Hc Hk s b s' H E. unfold bind in E. destruct (c s) as [[a s1]| |] eqn:E1; try done.
  exact (Hk a s1 b s' (Hc s a s1 H E1) E).
Qed.
Lemma boots_ret {A} (a : A) : boots (ret a).
Proof. intros s b s' H E. by injection E as _ <-. Qed.
Lemma boots_gets {A} (f : S -> A) : boots (gets f).
Proof. intros s b s' H E. by injection E as _ <-. Qed.
Lemma boots_skip : boots skip.
Proof. intros s b s' H E. by injection E as _ <-. Qed.
Lemma boots_panic {A} : boots (A := A) (fun _ => Panic).
Proof. done. Qed.
Lemma boots_KASSERT b : boots (KASSERT b).
Proof. intros s a s' H E. destruct b; [by injection E as _ <-|done]. Qed.
Lemma boots_when b c : boots c -> boots (when b c).
Proof. intros H. destruct b; [exact H|apply boots_skip]. Qed.
Lemma boots_callouts f : boots (on_callouts f).
Proof. intros s a s' H E. by injection E as _ <-. Qed.
Lemma boots_clock {A} (clk : nat -> A) : boots (read_clock clk).
Proof. intros s a s' H E. by injection E as _ <-. Qed.

Lemma started_outs f s : (forall ap log, spinups ap (f log) = spinups ap log) -> started s -> started (s <| outs ::= f |>).
Proof. intros Hf [Hl Hs]. split; [done|]. intros ap Hap. cbn [outs upd]. rewrite Hf. by apply Hs. Qed.

Lemma boots_tell f : (forall ap log, spinups ap (f log) = spinups ap log) -> boots (tell f).
Proof. intros Hf s a s' [Hw H] E. injection E as _ <-. split; [done|by apply started_outs]. Qed.

Lemma started_set cpu f s : (forall c, boot (f c) = boot c) -> started s -> started (set_cpu cpu f s).
Proof.
  intros Hf [Hl Hs]. split; [by rewrite length_set_cpu|]. intros ap Hap. cbn [outs set_cpu upd]. rewrite Hs by done.
  enough (E : boot (vm_lapic ap (set_cpu cpu f s)) = boot (vm_lapic ap s)) by (by rewrite E).
  unfold vm_lapic, set_cpu. cbn [cpus upd]. rewrite list_lookup_alter. case_decide as Hd; [|done].
  rewrite Hd. destruct (cpus s !! Z.to_nat ap) as [c|]; cbn; [apply Hf|done].
Qed.

Lemma boots_on_cpu cpu f : (forall c, boot (f c) = boot c) -> boots (on_cpu cpu f).
Proof. intros Hf s a s' [Hw H] E. injection E as _ <-. split; [done|by apply started_set]. Qed.

Lemma boots_each f vs : (forall v, boots (f v)) -> boots (each_cpu f vs).
Proof. intros H. induction vs as [|v vs IH]; [apply boots_skip|]. cbn. by apply boots_bind. Qed.

Lemma boots_core_with perform {A} cpu (c : cmd _ A) :
  (forall call s, boot_inv s -> boot_inv (perform call s)) -> boots (on_core_with perform cpu c).
Proof.
  intros Hp s a s' H E. unfold on_core_with in E. destruct (c _) as [[b m]| |]; try done. injection E as _ <-.
  assert (H0 : boot_inv (set_cpu cpu (fun l => l <| core := lapic m |>) s)) by (destruct H; split; [done|by apply started_set]).
  revert H0. generalize (set_cpu cpu (fun l => l <| core := lapic m |>) s).
  induction (out m) as [|call log IH]; intros s0 H0; [done|]. cbn. by apply IH, Hp.
Qed.

Lemma boot_signal cpu call s : boot_inv s -> boot_inv (signal cpu call s).
Proof.
  intros [Hw H]. destruct call; cbn; try done; (split; [done|]); apply started_outs; try done;
    intros ap log; (etrans; [apply spinups_snoc|cbn; lia]).
Qed.
End Boot.

Create HintDb boots.
#[export] Hint Resolve boots_ret boots_gets boots_skip boots_panic boots_KASSERT boots_callouts boots_clock : boots.

Ltac boots :=
  repeat lazymatch goal with
  | |- boots (bind _ _) => apply boots_bind; [|intro]
  | |- boots (when _ _) => apply boots_when
  | |- boots (tell _) => apply boots_tell; intros ap log; etrans; [apply spinups_snoc|cbn; lia]
  | |- boots (on_cpu _ _) => apply boots_on_cpu; intro; try done
  | |- boots (each_cpu _ _) => apply boots_each; intro
  | |- boots (if ?b then _ else _) => destruct b
  | |- boots (let _ := _ in _) => cbv zeta
  | |- boots (match ?o with Some _ => _ | None => _ end) => destruct o
  | |- boots (match ?p with pair _ _ => _ end) => destruct p
  | |- boots _ => first [progress eauto with boots | progress cbv beta]
  end.

Section BootOps.
Context {T : Type} `{!CalloutOps T}.
Variables (uptime : nat -> bintime) (hosttime : nat -> Z) (callout_of : Z -> Z).
Local Abbreviation S := (chip T (list vcpu_call)).
Local Abbreviation boots := (boots (T := T)).
Implicit Types s : S.

Lemma boots_set_intr cpu vector : boots (lapic_set_intr cpu vector).
Proof. unfold lapic_set_intr. boots. apply boots_core_with. intros call s. apply boot_signal. Qed.
Hint Resolve boots_set_intr : boots.

Lemma boots_calcdest dest phys lowprio x2 : boots (vlapic_calcdest dest phys lowprio x2).
Proof. unfold vlapic_calcdest. boots. Qed.
Hint Resolve boots_calcdest : boots.

Lemma boots_deliver level dest phys delmode vec : boots (deliver_intr level dest phys delmode vec).
Proof. unfold deliver_intr. boots. Qed.
Hint Resolve boots_deliver : boots.

Lemma boots_rendezvous msgs : boots (rendezvous_tmr msgs).
Proof.
  unfold rendezvous_tmr, update_tmr, vlapic_set_tmr_level. boots. induction msgs as [|m msgs IH]; boots.
Qed.

Lemma run_or_boot (c : cmd S unit) s : boots c -> boot_inv s -> boot_inv (run_or c s).
Proof. intros Hc H. unfold run_or. destruct (c s) as [[[] s']| |] eqn:E; [exact (Hc _ _ _ H E)|done|done]. Qed.

Lemma boot_ioapic f s : (forall m : imachine S, around boot_inv m -> around boot_inv (f m)) ->
  boot_inv s -> boot_inv (on_ioapic f s).
Proof.
  intros Hf H. unfold on_ioapic. pose proof (Hf (ioapic s, s) (conj (proj1 H) H)) as [Hw [_ Hs]].
  destruct (f (ioapic s, s)) as [io s']. by split.
Qed.

Lemma boot_fabric r (w : S) : r in_u 64 -> boot_inv w -> boot_inv (vlapic_deliver_intr (decode r) w).
Proof. intros _ H. apply run_or_boot; [apply boots_deliver|done]. Qed.
Lemma boot_fabric_tmr v (w : S) : wf_vioapic v -> boot_inv w -> boot_inv (smp_rendezvous_tmr (vioapic_update_tmr v) w).
Proof. intros _ H. apply run_or_boot; [apply boots_rendezvous|done]. Qed.

Lemma boots_core {A} cpu (c : cmd _ A) : boots (on_core cpu c).
Proof.
  apply boots_core_with. intros call s H. destruct call; try by apply boot_signal.
  cbn. apply boot_ioapic; [|done]. intros m. apply around_eoi, boot_fabric.
Qed.
Hint Resolve boots_core : boots.

Lemma boots_trigger vector vs : boots (trigger_lvts vector vs).
Proof. induction vs as [|v vs IH]; cbn; boots. Qed.
Hint Resolve boots_trigger : boots.

Lemma boots_lvt cpu off : boots (vlapic_lvt_write_handler cpu off).
Proof. unfold vlapic_lvt_write_handler. boots. Qed.
Hint Resolve boots_lvt : boots.
Lemma boots_update_lvt cpu off f : boots (update_lvt cpu off f).
Proof. unfold update_lvt. boots. Qed.
Hint Resolve boots_update_lvt : boots.
Lemma boots_icrtmr cpu : boots (vlapic_icrtmr_write_handler uptime hosttime callout_of cpu).
Proof. unfold vlapic_icrtmr_write_handler, callout_reset_in. boots. Qed.
Hint Resolve boots_icrtmr : boots.
Lemma boots_dcr cpu : boots (vlapic_dcr_write_handler cpu).
Proof. unfold vlapic_dcr_write_handler. boots. Qed.
Hint Resolve boots_dcr : boots.
Lemma boots_svr cpu : boots (vlapic_svr_write_handler uptime hosttime callout_of cpu).
Proof. unfold vlapic_svr_write_handler, vlapic_mask_lvts, mask_lvt. boots. Qed.
Hint Resolve boots_svr : boots.
Lemma boots_ccr cpu : boots (vlapic_get_ccr uptime callout_of cpu).
Proof. unfold vlapic_get_ccr. boots. Qed.
Hint Resolve boots_ccr : boots.
Lemma boots_callout cpu : boots (vlapic_callout_handler uptime hosttime callout_of cpu).
Proof. unfold vlapic_callout_handler, callout_reset_in. boots. Qed.
Lemma boots_self_ipi cpu v : boots (vlapic_self_ipi_handler cpu v).
Proof. unfold vlapic_self_ipi_handler. boots. Qed.
Hint Resolve boots_self_ipi : boots.
Lemma boots_targets cpu dest icr : boots (ipi_targets cpu dest icr).
Proof. unfold ipi_targets. boots. Qed.
Hint Resolve boots_targets : boots.

(** INIT moves a processor that waits for it to the next state. *)
Lemma boots_init dest : is_cpu dest ->
  boots (c2 <- gets (vm_lapic dest) ;;
         when (bool_decide (boot c2 = BS_INIT)) (on_cpu dest (fun c => c <| boot := BS_SIPI |>)) ;;; ret (0, false)).
Proof.
  intros Hd s a s' [Hw [Hl Hs]] E. unfold bind, gets, when in E.
  destruct (decide (boot (vm_lapic dest s) = BS_INIT)) as [Hb|Hb].
  2: { rewrite bool_decide_eq_false_2 in E by done. by injection E as _ <-. }
  rewrite bool_decide_eq_true_2 in E by done. injection E as _ <-. split; [done|]. split; [by rewrite length_set_cpu|].
  intros ap Hap. cbn [outs set_cpu upd]. rewrite Hs by done. destruct (decide (ap = dest)) as [->|Hne].
  - rewrite vm_lapic_set by done. rewrite Hb. done.
  - by rewrite vm_lapic_set_ne.
Qed.

(** The start-up interrupt starts a processor that waits for it. *)
Lemma boots_startup cpu dest rip : is_cpu dest -> dest <> 0 ->
  boots (c2 <- gets (vm_lapic dest) ;;
         if negb (bool_decide (boot c2 = BS_SIPI)) then ret (0, false)
         else on_cpu dest (fun c => c <| boot := BS_RUNNING |>) ;;; tell (out_spinup cpu dest rip) ;;; ret (0, true)).
Proof.
  intros Hd Hnz s a s' [Hw [Hl Hs]] E. unfold bind, gets in E.
  destruct (decide (boot (vm_lapic dest s) = BS_SIPI)) as [Hb|Hb].
  2: { rewrite bool_decide_eq_false_2 in E by done. by injection E as _ <-. }
  rewrite bool_decide_eq_true_2 in E by done. injection E as _ <-. split; [done|]. split; [exact (eq_trans (length_set_cpu _ _ _) Hl)|].
  intros ap Hap. cbn [outs set_cpu upd out_spinup log_vcpu]. rewrite spinups_snoc, Hs by done. cbn [is_spinup].
  match goal with |- _ = (if bool_decide (boot (vm_lapic ap ?x) = _) && _ then _ else _) =>
    change (vm_lapic ap x) with (vm_lapic ap (set_cpu dest (fun c => c <| boot := BS_RUNNING |>) s)) end.
  destruct (Z.eqb_spec dest ap) as [<-|Hne].
  - rewrite vm_lapic_set by done. rewrite Hb. cbn. by rewrite (proj2 (Z.eqb_neq dest 0)).
  - rewrite vm_lapic_set_ne by done. lia.
Qed.

Lemma boots_icrlo cpu : boots (vlapic_icrlo_write_handler cpu).
Proof.
  unfold vlapic_icrlo_write_handler. apply boots_bind; [by apply boots_on_cpu|]. intros _.
  apply boots_bind; [apply boots_gets|]. intros c. cbv zeta.
  set (dest := if x2apic c then _ else _).
  assert (Hd0 : 0 <= dest) by (unfold dest; destruct (x2apic c); apply u32_in_u).
  assert (Hd : (cpu =? 0) && negb (dest =? 0) && (dest <? VM_MAXCPU) = true -> is_cpu dest /\ dest <> 0)
    by (intros H; bools; unfold is_cpu; lia).
  clearbody dest. split_if; [boots|]. split_if; [boots|]. split_if; [boots|]. split_if; [|split_if; [|boots]].
  - apply andb_true_iff in E2 as [_ E2]. by apply boots_init, Hd.
  - apply andb_true_iff in E3 as [_ E3]. by apply boots_startup; apply Hd.
Qed.
Hint Resolve boots_icrlo : boots.

Lemma boots_write cpu mmio offset data : boots (vlapic_write uptime hosttime callout_of cpu mmio offset data).
Proof.
  unfold vlapic_write. apply boots_bind; [apply boots_KASSERT|]. intros _. destruct (LAPIC_SIZE <? offset); [boots|].
  apply boots_bind; [apply boots_gets|]. intros c. destruct (_ && _); [boots|]. destruct (_ && _); [boots|]. cbv zeta.
  assert (Hd : boots (ret (0, false))) by boots.
  destruct offset as [|q|q]; [exact Hd| |exact Hd]. do 10 (try (destruct q as [q|q|]; try exact Hd)).
  all: boots.
  all: unfold vlapic_ldr_write_handler, vlapic_dfr_write_handler; by split_if.
Qed.

Lemma boots_read cpu mmio offset : boots (vlapic_read uptime callout_of cpu mmio offset).
Proof.
  unfold vlapic_read. apply boots_bind; [apply boots_gets|]. intros c. destruct (_ && _); [boots|]. destruct (_ && _); [boots|].
  destruct (LAPIC_SIZE <? offset); [boots|]. cbv zeta. set (off := clr offset 3).
  set (dflt := match window256 0x100 off, window256 0x180 off, window256 0x200 off with
    | Some i, _, _ => ret (word (isr (core c)) i)
    | _, Some i, _ => ret (word (tmr (core c)) i)
    | _, _, Some i => ret (word (irr (core c)) i)
    | _, _, _ => ret 0
    end).
  assert (Hd : boots dflt) by (unfold dflt; boots).
  clearbody dflt off. destruct off as [|q|q]; [exact Hd| |exact Hd].
  do 10 (try (destruct q as [q|q|]; try exact Hd)); boots.
Qed.
Hint Resolve boots_write boots_read : boots.

Lemma boots_update f : (forall s, boot_inv s -> boot_inv (f s)) -> boots (update f).
Proof. intros Hf s a s' H E. injection E as _ <-. by apply Hf. Qed.

Lemma boots_chip o : (match o with OIoapicWrite _ data => data in_u 32 | _ => True end) ->
  boots (run_chip uptime hosttime callout_of o).
Proof.
  intros Hd. destruct o; cbn [run_chip].
  - unfold lapic_mmio_read. boots.
  - unfold lapic_mmio_write. boots.
  - unfold lapic_rdmsr. boots.
  - unfold lapic_wrmsr, vlapic_set_apicbase. boots.
  - boots.
  - boots.
  - apply boots_callout.
  - unfold lapic_set_local_intr. boots.
  - unfold lapic_intr_msi. boots.
  - apply boots_update. intros s H. apply boot_ioapic; [|done]. intros m Hm. by apply around_irqstate; [apply boot_fabric|].
  - apply boots_update. intros s H. apply boot_ioapic; [|done]. intros m Hm.
    by apply around_write; [apply boot_fabric|apply boot_fabric_tmr|..].
  - unfold vlapic_set_x2apic_state. boots. by split_if.
  - by apply boots_update.
Qed.

(** Operations of the machine, with the requests to the vCPUs logged. *)
Inductive logged_step : S -> S -> Prop :=
| ls_do o s s' : chip_allowed callout_of o s -> run_chip uptime hosttime callout_of o s = Return (tt, s') -> logged_step s s'
| ls_callouts t s : logged_step s (s <| callouts := t |>).

Lemma boot_init (t : T) : boot_inv (run_or chip_boot (chip_fresh t [])).
Proof.
  unfold run_or. rewrite boot_run. split; [apply init_inv|]. split; [done|]. intros ap Hap.
  assert (E : vm_lapic ap (mk_chip (booted_cpu <$> seqZ 0 VM_MAXCPU) 0 vioapic_init t [] 0 : S) = booted_cpu ap).
  { unfold vm_lapic. cbn [cpus]. rewrite list_lookup_fmap, lookup_seqZ_lt by (unfold is_cpu in Hap; lia). cbn.
    f_equal. unfold is_cpu in Hap. lia. }
  rewrite E. unfold booted_cpu. cbn [boot outs]. destruct (ap =? 0); done.
Qed.

(** C18: whatever the guest writes and whichever interrupts arrive, an application
    processor is started at most once, and exactly when its local APIC has
    passed from waiting for the start-up interrupt to running; the boot
    processor is never started. *)
Theorem ap_started_once (t : T) s ap : rtc logged_step (run_or chip_boot (chip_fresh t [])) s -> is_cpu ap ->
  (spinups ap (outs s) <= 1)%nat /\
  (spinups ap (outs s) = 1%nat <-> ap <> 0 /\ boot (vm_lapic ap s) = BS_RUNNING).
Proof.
  intros R Hap. assert (H : boot_inv s).
  { pose proof (boot_init t) as H. revert H. induction R as [|x y z [o s0 s1 Ha E|t' s0] _ IH]; intros H; [done|apply IH..].
    - eapply (boots_chip o); [|exact H|exact E]. by destruct o.
    - destruct H as [? [? ?]]. by split. }
  destruct H as [_ [_ H]]. rewrite H by done. destruct (Z.eqb_spec ap 0) as [->|Hne]; cbn [negb].
  - rewrite andb_false_r. split; [lia|]. split; [lia|]. by intros [? _].
  - rewrite andb_true_r. case_bool_decide as Hb; (split; [lia|]); (split; [try done; intros; lia|]); [done|]. by intros [_ ?].
Qed.
End BootOps.

(** The boot processor sends INIT and the start-up interrupt to processor 3. *)
Module BootExample.
Import ChipExample.
Definition write (offset v : Z) : chip_op := OMmioWrite 0 (DEFAULT_APIC_BASE + offset) v 4.
Definition start_ap : list chip_op :=
  [write 0x310 0x3000000; write 0x300 0x4500; write 0x300 0x0608; write 0x300 0x0608].

Lemma start_reachable : rtc (logged_step uptime hosttime callout_of) booted (run start_ap booted).
Proof.
  assert (H : all_allowed start_ap booted).
  { repeat (split; [allowed_write|]; split; [vm_compute; exact I|]). exact I. }
  revert H. generalize start_ap. intros ops. set (s := booted). clearbody s. revert s.
  induction ops as [|o ops IH]; intros s H; [done|]. destruct H as (Ha & Hr & H).
  eapply rtc_l; [|exact (IH _ H)]. apply (ls_do _ _ _ o); [done|].
  unfold run_or. by destruct (run_chip _ _ _ o s) as [[[] s']| |].
Qed.
End BootExample.

Lemma ap_started_once_witness :
  spinups 3 (outs (ChipExample.run BootExample.start_ap ChipExample.booted)) = 1%nat /\
  (spinups 3 (outs (ChipExample.run BootExample.start_ap ChipExample.booted)) <= 1)%nat.
Proof.
  split; [vm_compute; reflexivity|].
  refine (proj1 (ap_started_once ChipExample.uptime ChipExample.hosttime ChipExample.callout_of ChipExample.idle _ 3
    BootExample.start_reachable _)).
  unfold is_cpu, VM_MAXCPU. lia.
Defined.
