(* ===== verification/VieDecode.v ===== *)
(** * Instruction decoding (src/src/vmm/vmm_instruction_emul.c)

    The decoder of the instructions that access emulated devices: prefixes,
    opcode tables, ModRM and SIB bytes, displacement, immediate and memory
    offset, and the check of the decoded address against the one the hardware
    reported.  A function that returns [int] is a computation on [struct vie]
    with that result; [xhyve_abort] and failing assertions are [Panic].  The
    registers of the virtual CPU are read through [get], which stands for
    [vm_get_register(vm, cpuid, ...)]. *)

From S2P Require Import Prelude Effects VmmCommon.

Local Open Scope cmd_scope.

Definition VIE_OP_F_IMM : Z := bit 0.
Definition VIE_OP_F_IMM8 : Z := bit 1.
Definition VIE_OP_F_MOFFSET : Z := bit 2.
Definition VIE_OP_F_NO_MODRM : Z := bit 3.
Definition VIE_OP_F_NO_GLA_VERIFICATION : Z := bit 4.

Definition two_byte_opcodes (x : Z) : vie_op :=
  match x with
  | 0xB6 => mk_op 0xB6 VIE_OP_TYPE_MOVZX 0
  | 0xB7 => mk_op 0xB7 VIE_OP_TYPE_MOVZX 0
  | 0xBA => mk_op 0xBA VIE_OP_TYPE_BITTEST VIE_OP_F_IMM8
  | 0xBE => mk_op 0xBE VIE_OP_TYPE_MOVSX 0
  | _ => mk_op 0 VIE_OP_TYPE_NONE 0
  end.

Definition one_byte_opcodes (x : Z) : vie_op :=
  match x with
  | 0x0F => mk_op 0x0F VIE_OP_TYPE_TWO_BYTE 0
  | 0x2B => mk_op 0x2B VIE_OP_TYPE_SUB 0
  | 0x3B => mk_op 0x3B VIE_OP_TYPE_CMP 0
  | 0x88 => mk_op 0x88 VIE_OP_TYPE_MOV 0
  | 0x89 => mk_op 0x89 VIE_OP_TYPE_MOV 0
  | 0x8A => mk_op 0x8A VIE_OP_TYPE_MOV 0
  | 0x8B => mk_op 0x8B VIE_OP_TYPE_MOV 0
  | 0xA1 => mk_op 0xA1 VIE_OP_TYPE_MOV (Z.lor VIE_OP_F_MOFFSET VIE_OP_F_NO_MODRM)
  | 0xA3 => mk_op 0xA3 VIE_OP_TYPE_MOV (Z.lor VIE_OP_F_MOFFSET VIE_OP_F_NO_MODRM)
  | 0xA4 => mk_op 0xA4 VIE_OP_TYPE_MOVS (Z.lor VIE_OP_F_NO_MODRM VIE_OP_F_NO_GLA_VERIFICATION)
  | 0xA5 => mk_op 0xA5 VIE_OP_TYPE_MOVS (Z.lor VIE_OP_F_NO_MODRM VIE_OP_F_NO_GLA_VERIFICATION)
  | 0xAA => mk_op 0xAA VIE_OP_TYPE_STOS (Z.lor VIE_OP_F_NO_MODRM VIE_OP_F_NO_GLA_VERIFICATION)
  | 0xAB => mk_op 0xAB VIE_OP_TYPE_STOS (Z.lor VIE_OP_F_NO_MODRM VIE_OP_F_NO_GLA_VERIFICATION)
  | 0xC6 => mk_op 0xC6 VIE_OP_TYPE_MOV VIE_OP_F_IMM8
  | 0xC7 => mk_op 0xC7 VIE_OP_TYPE_MOV VIE_OP_F_IMM
  | 0x23 => mk_op 0x23 VIE_OP_TYPE_AND 0
  | 0x80 => mk_op 0x80 VIE_OP_TYPE_GROUP1 VIE_OP_F_IMM8
  | 0x81 => mk_op 0x81 VIE_OP_TYPE_GROUP1 VIE_OP_F_IMM
  | 0x83 => mk_op 0x83 VIE_OP_TYPE_GROUP1 VIE_OP_F_IMM8
  | 0x8F => mk_op 0x8F VIE_OP_TYPE_POP 0
  | 0xFF => mk_op 0xFF VIE_OP_TYPE_PUSH 0
  | _ => mk_op 0 VIE_OP_TYPE_NONE 0
  end.

Definition VIE_MOD_INDIRECT : Z := 0.
Definition VIE_MOD_INDIRECT_DISP8 : Z := 1.
Definition VIE_MOD_INDIRECT_DISP32 : Z := 2.
Definition VIE_MOD_DIRECT : Z := 3.
Definition VIE_RM_SIB : Z := 4.
Definition VIE_RM_DISP32 : Z := 5.

Definition gpr_table : list vm_reg_name :=
  [VM_REG_GUEST_RAX; VM_REG_GUEST_RCX; VM_REG_GUEST_RDX; VM_REG_GUEST_RBX;
   VM_REG_GUEST_RSP; VM_REG_GUEST_RBP; VM_REG_GUEST_RSI; VM_REG_GUEST_RDI;
   VM_REG_GUEST_R8; VM_REG_GUEST_R9; VM_REG_GUEST_R10; VM_REG_GUEST_R11;
   VM_REG_GUEST_R12; VM_REG_GUEST_R13; VM_REG_GUEST_R14; VM_REG_GUEST_R15].

(** [gpr_map[i]]; the fields that index it have four bits. *)
Definition gpr_map (i : Z) : vm_reg_name := nth (Z.to_nat i) gpr_table VM_REG_LAST.
#[global] Arguments gpr_map : simpl never.
#[global] Arguments gpr_table : simpl never.

(** [size2mask[size]]: the entries not named in the initializer are zero. *)
Definition size2mask (size : Z) : Z :=
  match size with
  | 1 => 0xff | 2 => 0xffff | 4 => 0xffffffff | 8 => 0xffffffffffffffff
  | _ => 0
  end.

(** [vie_init]: [bzero] and the instruction bytes, if any. *)
Definition no_op : vie_op := mk_op 0 VIE_OP_TYPE_NONE 0.

Definition vie_zero : vie :=
  mk_vie (replicate 15 0) 0 0 0 0 false false false false false false false false false false
    0 0 0 0 0 0 0 0 0 VM_REG_GUEST_RAX VM_REG_GUEST_RAX VM_REG_GUEST_RAX 0 0 false no_op.

Definition vie_init (inst_bytes : list Z) (inst_length : Z) : cmd vie unit :=
  KASSERT ((0 <=? inst_length) && (inst_length <=? VIE_INST_SIZE)) ;;;
  update (fun _ => vie_zero <| base_register := VM_REG_LAST |> <| index_register := VM_REG_LAST |>
                            <| segment_register := VM_REG_LAST |>) ;;;
  when (negb (inst_length =? 0))
    (update (fun v =>
      v <| inst ::= fun b => take (Z.to_nat inst_length) inst_bytes ++ drop (Z.to_nat inst_length) b |>
        <| num_valid := u8 inst_length |>)).

(** ** The byte cursor *)

Definition vie_peek : cmd vie (option Z) :=
  gets (fun v => if num_processed v <? num_valid v
                 then Some (nth (Z.to_nat (num_processed v)) (inst v) 0) else None).

Definition vie_advance : cmd vie unit := update (fun v => v <| num_processed ::= fun n => u8 (n + 1) |>).

(** [if (f(vie)) return (-1);] *)
Definition or_fail (c : cmd vie Z) (k : cmd vie Z) : cmd vie Z :=
  e <- c ;; if e =? 0 then k else ret (-1).

(** [if (vie_peek(vie, &x)) return (-1);] *)
Definition peek_or_fail (k : Z -> cmd vie Z) : cmd vie Z :=
  x <- vie_peek ;; match x with Some b => k b | None => ret (-1) end.

(** [for (i = 0; i < n; i++) { if (vie_peek(vie, &x)) return (-1); ... vie_advance(vie); }] *)
Fixpoint read_bytes (n : nat) (k : list Z -> cmd vie Z) : cmd vie Z :=
  match n with
  | O => k []
  | S n => peek_or_fail (fun b => vie_advance ;;; read_bytes n (fun l => k (b :: l)))
  end.

(** ** Prefixes *)

Definition segment_override (x : Z) : option vm_reg_name :=
  match x with
  | 0x2E => Some VM_REG_GUEST_CS
  | 0x36 => Some VM_REG_GUEST_SS
  | 0x3E => Some VM_REG_GUEST_DS
  | 0x26 => Some VM_REG_GUEST_ES
  | 0x64 => Some VM_REG_GUEST_FS
  | 0x65 => Some VM_REG_GUEST_GS
  | _ => None
  end.

(** The prefix byte [x] recorded in [vie], if it is one. *)
Definition prefix_byte (x : Z) : option (vie -> vie) :=
  if x =? 0x66 then Some (fun v => v <| opsize_override := true |>)
  else if x =? 0x67 then Some (fun v => v <| addrsize_override := true |>)
  else if x =? 0xF3 then Some (fun v => v <| repz_present := true |>)
  else if x =? 0xF2 then Some (fun v => v <| repnz_present := true |>)
  else match segment_override x with
       | Some seg => Some (fun v => v <| segment_register := seg |> <| seg_override := true |>)
       | None => None
       end.

(** The loop over the prefixes ends at the first other byte. *)
Fixpoint prefix_loop (fuel : nat) (k : Z -> cmd vie Z) : cmd vie Z :=
  match fuel with
  | O => fun _ => Hang
  | S fuel =>
      peek_or_fail (fun x =>
        match prefix_byte x with
        | Some f => update f ;;; vie_advance ;;; prefix_loop fuel k
        | None => k x
        end)
  end.

Definition decode_rex (cpu_mode : vm_cpu_mode) (x : Z) : cmd vie unit :=
  when (bool_decide (cpu_mode = CPU_MODE_64BIT) && (0x40 <=? x) && (x <=? 0x4F))
    (update (fun v => v <| rex_present := true |> <| rex_w := tst x 0x8 |> <| rex_r := tst x 0x4 |>
                        <| rex_x := tst x 0x2 |> <| rex_b := tst x 0x1 |>) ;;;
     vie_advance).

Definition operand_sizes (cpu_mode : vm_cpu_mode) (cs_d : bool) (v : vie) : vie :=
  if bool_decide (cpu_mode = CPU_MODE_64BIT) then
    v <| addrsize := if addrsize_override v then 4 else 8 |>
      <| opsize := if rex_w v then 8 else if opsize_override v then 2 else 4 |>
  else if cs_d then
    v <| addrsize := if addrsize_override v then 2 else 4 |>
      <| opsize := if opsize_override v then 2 else 4 |>
  else
    v <| addrsize := if addrsize_override v then 4 else 2 |>
      <| opsize := if opsize_override v then 4 else 2 |>.

Definition decode_prefixes (cpu_mode : vm_cpu_mode) (cs_d : bool) : cmd vie Z :=
  fuel <- gets (fun v => S (Z.to_nat (num_valid v - num_processed v))) ;;
  prefix_loop fuel (fun x =>
    decode_rex cpu_mode x ;;; update (operand_sizes cpu_mode cs_d) ;;; ret 0).

(** ** Opcode, ModRM, SIB *)

Definition decode_two_byte_opcode : cmd vie Z :=
  peek_or_fail (fun x =>
    update (fun v => v <| op := two_byte_opcodes x |>) ;;;
    t <- gets (fun v => op_type (op v)) ;;
    if bool_decide (t = VIE_OP_TYPE_NONE) then ret (-1) else vie_advance ;;; ret 0).

Definition decode_opcode : cmd vie Z :=
  peek_or_fail (fun x =>
    update (fun v => v <| op := one_byte_opcodes x |>) ;;;
    t <- gets (fun v => op_type (op v)) ;;
    if bool_decide (t = VIE_OP_TYPE_NONE) then ret (-1) else
    vie_advance ;;;
    if bool_decide (t = VIE_OP_TYPE_TWO_BYTE) then decode_two_byte_opcode else ret 0).

(** The register and displacement the mod and r/m fields name. *)
Definition modrm_base (cpu_mode : vm_cpu_mode) (v : vie) : vie :=
  let v := v <| base_register := gpr_map (rm v) |> in
  if mod_ v =? VIE_MOD_INDIRECT_DISP8 then v <| disp_bytes := 1 |>
  else if mod_ v =? VIE_MOD_INDIRECT_DISP32 then v <| disp_bytes := 4 |>
  else if (mod_ v =? VIE_MOD_INDIRECT) && (rm v =? VIE_RM_DISP32) then
    v <| disp_bytes := 4 |>
      <| base_register := if bool_decide (cpu_mode = CPU_MODE_64BIT)
                          then VM_REG_GUEST_RIP else VM_REG_LAST |>
  else v.

Definition modrm_fields (x : Z) (v : vie) : vie :=
  v <| mod_ := Z.land (Z.shiftr x 6) 3 |> <| rm := Z.land (Z.shiftr x 0) 7 |>
    <| reg := Z.land (Z.shiftr x 3) 7 |>.

Definition modrm_rex (v : vie) : vie :=
  let v := if ((mod_ v =? VIE_MOD_INDIRECT) && (rm v =? VIE_RM_DISP32)) ||
              (negb (mod_ v =? VIE_MOD_DIRECT) && (rm v =? VIE_RM_SIB)) then v
           else v <| rm ::= fun r => Z.lor r (Z.shiftl (b2z (rex_b v)) 3) |> in
  v <| reg ::= fun r => Z.lor r (Z.shiftl (b2z (rex_r v)) 3) |>.

Definition decode_modrm (cpu_mode : vm_cpu_mode) : cmd vie Z :=
  flags <- gets (fun v => op_flags (op v)) ;;
  if tst flags VIE_OP_F_NO_MODRM then ret 0 else
  if bool_decide (cpu_mode = CPU_MODE_REAL) then ret (-1) else
  peek_or_fail (fun x =>
    update (modrm_fields x) ;;;
    m <- gets mod_ ;;
    if m =? VIE_MOD_DIRECT then ret (-1) else
    update modrm_rex ;;;
    sib <- gets (fun v => negb (mod_ v =? VIE_MOD_DIRECT) && (rm v =? VIE_RM_SIB)) ;;
    when (negb sib) (update (modrm_base cpu_mode)) ;;;
    vie_advance ;;; ret 0).

Definition sib_fields (x : Z) (v : vie) : vie :=
  v <| ss := Z.land (Z.shiftr x 6) 3 |>
    <| index := Z.lor (Z.land (Z.shiftr x 3) 7) (Z.shiftl (b2z (rex_x v)) 3) |>
    <| vbase := Z.lor (Z.land (Z.shiftr x 0) 7) (Z.shiftl (b2z (rex_b v)) 3) |>.

Definition sib_disp (v : vie) : vie :=
  if mod_ v =? VIE_MOD_INDIRECT_DISP8 then v <| disp_bytes := 1 |>
  else if mod_ v =? VIE_MOD_INDIRECT_DISP32 then v <| disp_bytes := 4 |> else v.

Definition sib_base (v : vie) : vie :=
  if (mod_ v =? VIE_MOD_INDIRECT) && ((vbase v =? 5) || (vbase v =? 13))
  then v <| disp_bytes := 4 |> else v <| base_register := gpr_map (vbase v) |>.

Definition sib_index (v : vie) : vie :=
  let v := if negb (index v =? 4) then v <| index_register := gpr_map (index v) |> else v in
  if reg_index (index_register v) <? reg_index VM_REG_LAST
  then v <| scale := u8 (Z.shiftl 1 (ss v)) |> else v.

Definition decode_sib : cmd vie Z :=
  absent <- gets (fun v => (mod_ v =? VIE_MOD_DIRECT) || negb (rm v =? VIE_RM_SIB)) ;;
  if absent then ret 0 else
  peek_or_fail (fun x =>
    update (sib_fields x) ;;; update sib_disp ;;; update sib_base ;;; update sib_index ;;;
    vie_advance ;;; ret 0).

(** ** Displacement, immediate, memory offset *)

Definition decode_displacement : cmd vie Z :=
  n <- gets disp_bytes ;;
  if n =? 0 then ret 0 else
  KASSERT ((n =? 1) || (n =? 4)) ;;;
  read_bytes (Z.to_nat n) (fun u =>
    update (fun v => v <| displacement := to_signed (8 * n) (le_combine u) |>) ;;; ret 0).

Definition immediate_size (v : vie) : vie :=
  if tst (op_flags (op v)) VIE_OP_F_IMM then
    v <| imm_bytes := if (opsize v =? 4) || (opsize v =? 8) then 4 else 2 |>
  else if tst (op_flags (op v)) VIE_OP_F_IMM8 then v <| imm_bytes := 1 |> else v.

Definition decode_immediate : cmd vie Z :=
  update immediate_size ;;;
  n <- gets imm_bytes ;;
  if n =? 0 then ret 0 else
  KASSERT ((n =? 1) || (n =? 2) || (n =? 4)) ;;;
  read_bytes (Z.to_nat n) (fun u =>
    update (fun v => v <| immediate := to_signed (8 * n) (le_combine u) |>) ;;; ret 0).

Definition decode_moffset : cmd vie Z :=
  flags <- gets (fun v => op_flags (op v)) ;;
  if negb (tst flags VIE_OP_F_MOFFSET) then ret 0 else
  n <- gets addrsize ;;
  KASSERT ((n =? 2) || (n =? 4) || (n =? 8)) ;;;
  read_bytes (Z.to_nat n) (fun u =>
    update (fun v => v <| displacement := i64 (le_combine u) |>) ;;; ret 0).

Definition verify_inst_length : cmd vie Z :=
  gets (fun v => if negb (num_processed v =? 0) then 0 else -1).

(** ** The linear address *)

Definition VIE_INVALID_GLA : Z := Z.shiftl 1 63.

Section Registers.
Context (get : vm_reg_name -> Z * Z).

Definition verify_base (v : vie) : option Z :=
  if bool_decide (base_register v = VM_REG_LAST) then Some 0
  else let '(error, b) := get (base_register v) in
       if negb (error =? 0) then None
       else Some (if bool_decide (base_register v = VM_REG_GUEST_RIP)
                  then u64 (b + num_valid v) else b).

Definition verify_index (v : vie) : option Z :=
  if bool_decide (index_register v = VM_REG_LAST) then Some 0
  else let '(error, i) := get (index_register v) in
       if negb (error =? 0) then None else Some i.

Definition verify_gla (gla : Z) (v : vie) : Z :=
  if gla =? VIE_INVALID_GLA then 0 else
  match verify_base v, verify_index v with
  | Some b, Some i =>
      let gla2 := u64 (b + scale v * i + u64 (displacement v)) in
      let gla2 := Z.land gla2 (size2mask (addrsize v)) in
      if negb (gla =? gla2) then -1 else 0
  | _, _ => -1
  end.

Definition vmm_decode_instruction (gla : Z) (cpu_mode : vm_cpu_mode) (cs_d : bool) : cmd vie Z :=
  or_fail (decode_prefixes cpu_mode cs_d)
 (or_fail decode_opcode
 (or_fail (decode_modrm cpu_mode)
 (or_fail decode_sib
 (or_fail decode_displacement
 (or_fail decode_immediate
 (or_fail decode_moffset
 (or_fail verify_inst_length
 (flags <- gets (fun v => op_flags (op v)) ;;
  e <- gets (fun v => if negb (tst flags VIE_OP_F_NO_GLA_VERIFICATION) then verify_gla gla v else 0) ;;
  if negb (e =? 0) then ret (-1) else
  update (fun v => v <| decoded := true |>) ;;; ret 0)))))))).
End Registers.

(** ** What a decoded instruction looks like *)

Definition size_in (l : list Z) (x : Z) : Prop := x ∈ l.

Definition known_op (o : vie_op) : Prop :=
  (exists x, o = one_byte_opcodes x) \/ (exists x, o = two_byte_opcodes x).

(** The segments an operand can be in. *)
Definition data_seg (seg : vm_reg_name) : Prop :=
  seg ∈ [VM_REG_GUEST_ES; VM_REG_GUEST_CS; VM_REG_GUEST_SS; VM_REG_GUEST_DS; VM_REG_GUEST_FS; VM_REG_GUEST_GS].

(** The invariant of the decoder: the cursor stays within the valid bytes and
    every field within the width it has in [struct vie]. *)
Record vie_ok (v : vie) : Prop := {
  ok_length : length (inst v) = 15%nat;
  ok_bytes : Forall (fun b => b in_u 8) (inst v);
  ok_valid : 0 <= num_valid v <= 15;
  ok_cursor : 0 <= num_processed v <= num_valid v;
  ok_mod : mod_ v in_u 2;
  ok_rm : rm v in_u 4;
  ok_reg : reg v in_u 4;
  ok_disp_bytes : size_in [0; 1; 4] (disp_bytes v);
  ok_imm_bytes : size_in [0; 1; 2; 4] (imm_bytes v);
  ok_scale : size_in [0; 1; 2; 4; 8] (scale v);
  ok_base : base_register v ∈ VM_REG_LAST :: VM_REG_GUEST_RIP :: gpr_table;
  ok_index : index_register v ∈ VM_REG_LAST :: gpr_table;
  ok_displacement : - 2 ^ 63 <= displacement v < 2 ^ 63;
  ok_immediate : - 2 ^ 31 <= immediate v < 2 ^ 31;
  ok_op : known_op (op v);
  ok_rex : rex_present v = false -> rex_r v = false /\ reg v < 8;
  ok_seg : seg_override v = true -> data_seg (segment_register v);
}.

(** The address and operand sizes after the prefixes. *)
Definition sizes_ok (m : vm_cpu_mode) (v : vie) : Prop :=
  if bool_decide (m = CPU_MODE_64BIT)
  then size_in [4; 8] (addrsize v) /\ size_in [2; 4; 8] (opsize v)
  else size_in [2; 4] (addrsize v) /\ size_in [2; 4] (opsize v).

Ltac member := repeat first [apply list_elem_of_here | apply list_elem_of_further].

Ltac cases_in H :=
  unfold size_in in H; repeat (apply elem_of_cons in H as [H|H]); [..|by apply elem_of_nil in H].

Lemma to_signed_range w x : 0 < w -> - 2 ^ (w - 1) <= to_signed w x < 2 ^ (w - 1).
Proof.
  intros Hw. unfold to_signed. pose proof (Z.mod_pos_bound x (2 ^ w) ltac:(lia)).
  assert (2 ^ w = 2 * 2 ^ (w - 1)) by (rewrite <- Z.pow_succ_r by lia; f_equal; lia).
  destruct (Z.ltb_spec (x mod 2 ^ w) (2 ^ (w - 1))); lia.
Qed.

Lemma to_signed_within w k x : 0 < w <= k -> - 2 ^ (k - 1) <= to_signed w x < 2 ^ (k - 1).
Proof.
  intros Hw. pose proof (to_signed_range w x ltac:(lia)).
  pose proof (Z.pow_le_mono_r 2 (w - 1) (k - 1) ltac:(lia) ltac:(lia)). lia.
Qed.

Lemma gpr_map_in i : i in_u 4 -> gpr_map i ∈ gpr_table.
Proof.
  intros Hi. unfold gpr_map. apply list_elem_of_In, nth_In. change (length gpr_table) with 16%nat. lia.
Qed.

Lemma bytes_nth v i : vie_ok v -> (i < 15)%nat -> nth i (inst v) 0 in_u 8.
Proof.
  intros [Hl Hb] Hi. rewrite List.Forall_forall in Hb. apply Hb, nth_In. lia.
Qed.

(** The state after reading one byte. *)
Definition advance (v : vie) : vie := v <| num_processed ::= fun n => u8 (n + 1) |>.

Lemma advance_ok v : vie_ok v -> num_processed v < num_valid v -> vie_ok (advance v).
Proof.
  intros H Hlt. destruct H. unfold advance. split; cbn; try done.
  rewrite u8_id; lia.
Qed.

Lemma wp_peek_or_fail k Q v : vie_ok v ->
  (forall b, b in_u 8 -> num_processed v < num_valid v -> wp (k b) Q v) ->
  Q (-1) v -> wp (peek_or_fail k) Q v.
Proof.
  intros Hok Hk HQ. unfold peek_or_fail, vie_peek. wp_go.
  destruct (Z.ltb_spec (num_processed v) (num_valid v)) as [Hlt|]; [|by apply wp_ret].
  apply Hk; [|done]. apply bytes_nth; [done|]. destruct Hok. lia.
Qed.

(** Each stage preserves the invariant and returns 0 or -1; [P] is what the
    later stages need of the earlier ones. *)
Definition stage (P Q : vie -> Prop) (c : cmd vie Z) : Prop :=
  forall v, vie_ok v -> P v ->
    wp c (fun e v' => vie_ok v' /\ num_valid v' = num_valid v /\ decoded v' = decoded v /\
                      (e = 0 /\ Q v' \/ e = -1)) v.

(** Predicates the cursor does not disturb. *)
Definition cursor_free (P : vie -> Prop) : Prop := forall v, P v -> P (advance v).

Lemma wp_read_bytes n P (k : list Z -> cmd vie Z) (Q : Z -> vie -> Prop) v0 :
  cursor_free P ->
  (forall l v, vie_ok v -> P v -> num_valid v = num_valid v0 -> decoded v = decoded v0 ->
     length l = n -> Forall (fun b => b in_u 8) l -> wp (k l) Q v) ->
  (forall v, vie_ok v -> num_valid v = num_valid v0 -> decoded v = decoded v0 -> Q (-1) v) ->
  forall v, vie_ok v -> P v -> num_valid v = num_valid v0 -> decoded v = decoded v0 ->
  wp (read_bytes n k) Q v.
Proof.
  intros HP. revert k. induction n as [|n IH]; intros k Hk Hf v Hok HPv Hn Hd; cbn [read_bytes].
  - by apply Hk.
  - apply wp_peek_or_fail; [done| |by apply Hf]. intros b Hb Hlt. unfold vie_advance. wp_go.
    fold (advance v). apply IH; try done; [|by apply advance_ok|by apply HP].
    intros l w Hw HPw Hnw Hdw Hl Hfl. apply Hk; try done; [by rewrite <- Hl|by constructor].
Qed.

Ltac ok_fields H := destruct H; split; cbn; try done.

Lemma prefix_byte_ok x f v : prefix_byte x = Some f -> vie_ok v ->
  vie_ok (f v) /\ num_valid (f v) = num_valid v /\ num_processed (f v) = num_processed v /\
  decoded (f v) = decoded v.
Proof.
  unfold prefix_byte. intros E H.
  repeat (case_match; simplify_eq/=; [split; [by ok_fields H|done]|]).
  destruct (segment_override x) as [seg|] eqn:Es; simplify_eq/=. split; [|done].
  assert (data_seg seg) by (unfold segment_override in Es; unfold data_seg; repeat case_match; simplify_eq; member).
  by ok_fields H.
Qed.

Lemma wp_prefix_loop k Q v0 :
  (forall x v, vie_ok v -> num_valid v = num_valid v0 -> decoded v = decoded v0 -> x in_u 8 ->
     num_processed v < num_valid v -> wp (k x) Q v) ->
  (forall v, vie_ok v -> num_valid v = num_valid v0 -> decoded v = decoded v0 -> Q (-1) v) ->
  forall fuel v, vie_ok v -> num_valid v = num_valid v0 -> decoded v = decoded v0 ->
  num_valid v - num_processed v < Z.of_nat fuel -> wp (prefix_loop fuel k) Q v.
Proof.
  intros Hk Hf. induction fuel as [|fuel IH]; intros v Hok Hn Hd Hfuel.
  { destruct Hok. lia. }
  cbn [prefix_loop]. apply wp_peek_or_fail; [done| |by apply Hf]. intros b Hb Hlt.
  destruct (prefix_byte b) as [f|] eqn:E; [|by apply Hk].
  destruct (prefix_byte_ok _ _ v E Hok) as (Hok' & Hn' & Hp' & Hd').
  unfold vie_advance. wp_go. fold (advance (f v)).
  assert (Ha : vie_ok (advance (f v))) by (apply advance_ok; [done|lia]).
  apply IH; [done|cbn; congruence|cbn; congruence|]. destruct Hok'. cbn. rewrite u8_id; lia.
Qed.

Lemma operand_sizes_ok m d v : sizes_ok m (operand_sizes m d v).
Proof.
  unfold sizes_ok, operand_sizes, size_in. case_bool_decide; [|destruct d]; cbn;
    repeat case_match; split; member.
Qed.

Lemma decode_prefixes_stage m d : stage (fun _ => True) (sizes_ok m) (decode_prefixes m d).
Proof.
  intros v Hok _. unfold decode_prefixes. wp_go.
  apply (wp_prefix_loop _ _ v); try done; [|by auto|lia].
  intros x w Hw Hn Hd Hx Hlt. unfold decode_rex, vie_advance.
  assert (Hs : forall u, vie_ok u -> num_valid u = num_valid v -> decoded u = decoded v ->
    wp (update (operand_sizes m d);;; ret 0)
      (fun e v' => vie_ok v' /\ num_valid v' = num_valid v /\ decoded v' = decoded v /\
                   (e = 0 /\ sizes_ok m v' \/ e = -1)) u).
  { intros u Hu Hnu Hdu. wp_go. pose proof (operand_sizes_ok m d u) as Hz.
    assert (Hk : vie_ok (operand_sizes m d u) /\ num_valid (operand_sizes m d u) = num_valid u /\
                 decoded (operand_sizes m d u) = decoded u).
    { unfold operand_sizes. repeat split_if; (split; [by ok_fields Hu|done]). }
    destruct Hk as (? & -> & ->). auto 10. }
  apply wp_bind, wp_when; intros _; [|by apply Hs]. apply wp_bind, wp_update, wp_update.
  match goal with |- wp _ _ ?u => assert (Hu : vie_ok u) end.
  { destruct Hw. split; cbn; try done. rewrite u8_id; lia. }
  by apply Hs.
Qed.

Definition modrm_ok (m : vm_cpu_mode) (v : vie) : Prop :=
  sizes_ok m v /\ (m = CPU_MODE_REAL -> tst (op_flags (op v)) VIE_OP_F_NO_MODRM = true).

Lemma decode_opcode_stage m : stage (sizes_ok m) (sizes_ok m) decode_opcode.
Proof.
  assert (Hset : forall v o, vie_ok v -> known_op o -> vie_ok (v <| op := o |>)).
  { intros v o H Ho. by ok_fields H. }
  intros v Hok Hs. unfold decode_opcode. apply wp_peek_or_fail; [done| |by auto].
  intros b Hb Hlt. wp_go. specialize (Hset v (one_byte_opcodes b) Hok (or_introl (ex_intro _ b eq_refl))) as Hv.
  case_bool_decide; [wp_go; by auto|]. unfold vie_advance. wp_go.
  match goal with |- wp _ _ ?u => set (w := u) end.
  assert (Hw : vie_ok w) by (apply advance_ok; done).
  case_bool_decide; [|wp_go; by auto 10].
  unfold decode_two_byte_opcode. apply wp_peek_or_fail; [done| |by auto].
  intros c Hc Hlt'. wp_go. specialize (Hset w (two_byte_opcodes c) Hw (or_intror (ex_intro _ c eq_refl))) as Hv'.
  case_bool_decide; [wp_go; by auto|]. unfold vie_advance. wp_go.
  assert (Hw' : vie_ok (advance (w <| op := two_byte_opcodes c |>))) by (by apply advance_ok).
  by auto 10.
Qed.

Lemma b2z_shift_in_u c : Z.shiftl (b2z c) 3 in_u 4.
Proof. destruct c; done. Qed.

Lemma modrm_fields_ok x v : vie_ok v -> vie_ok (modrm_fields x v).
Proof.
  intros H. destruct H. unfold modrm_fields. split; cbn; try done.
  - apply land_in_u_r; [lia|done].
  - apply (in_u_le 3); [lia|]. apply land_in_u_r; [lia|done].
  - apply (in_u_le 3); [lia|]. apply land_in_u_r; [lia|done].
  - intros Hr. split; [by apply ok_rex0|]. by apply (land_in_u_r 3).
Qed.

Lemma modrm_rex_ok v : vie_ok v -> vie_ok (modrm_rex v).
Proof.
  intros H. destruct H. unfold modrm_rex.
  assert (Hrex : rex_present v = false -> rex_r v = false /\ Z.lor (reg v) (Z.shiftl (b2z (rex_r v)) 3) < 8).
  { intros Hr. destruct (ok_rex0 Hr) as [-> Hlt]. by rewrite Z.lor_0_r. }
  split_if; split; cbn; try done; apply lor_in_u; try done; apply b2z_shift_in_u.
Qed.

Lemma modrm_base_ok m v : vie_ok v -> vie_ok (modrm_base m v).
Proof.
  intros H. pose proof (gpr_map_in (rm v) (ok_rm v H)) as Hg. destruct H. unfold modrm_base.
  repeat split_if; split; cbn; try done; unfold size_in; try (case_bool_decide);
    first [by do 2 apply list_elem_of_further | member].
Qed.

(** What the operand bytes leave alone. *)
Record frame (v w : vie) : Prop := {
  fr_valid : num_valid w = num_valid v;
  fr_processed : num_processed w = num_processed v;
  fr_decoded : decoded w = decoded v;
  fr_addrsize : addrsize w = addrsize v;
  fr_opsize : opsize w = opsize v;
  fr_op : op w = op v;
}.

Lemma frame_trans u v w : frame u v -> frame v w -> frame u w.
Proof. intros [] []. split; congruence. Qed.

Lemma modrm_fields_frame x v : frame v (modrm_fields x v).
Proof. done. Qed.
Lemma modrm_rex_frame v : frame v (modrm_rex v).
Proof. unfold modrm_rex. by split_if. Qed.
Lemma modrm_base_frame m v : frame v (modrm_base m v).
Proof. unfold modrm_base. by repeat split_if. Qed.
Lemma sib_fields_frame x v : frame v (sib_fields x v).
Proof. done. Qed.
Lemma sib_disp_frame v : frame v (sib_disp v).
Proof. unfold sib_disp. by repeat split_if. Qed.
Lemma sib_base_frame v : frame v (sib_base v).
Proof. unfold sib_base. by split_if. Qed.
Lemma sib_index_frame v : frame v (sib_index v).
Proof. unfold sib_index. by repeat split_if. Qed.

Lemma modrm_ok_frame m v w : frame v w -> modrm_ok m v -> modrm_ok m w.
Proof. intros [] [H1 H2]. unfold modrm_ok, sizes_ok in *. rewrite fr_addrsize0, fr_opsize0, fr_op0. done. Qed.

Lemma modrm_ok_advance m v : modrm_ok m v -> modrm_ok m (advance v).
Proof. done. Qed.

(** A stage that reads one byte and updates the operand fields. *)
Lemma stage_byte m (v : vie) (w : vie) :
  vie_ok w -> frame v w -> num_processed v < num_valid v -> modrm_ok m v ->
  vie_ok (advance w) /\ num_valid (advance w) = num_valid v /\
  decoded (advance w) = decoded v /\ (0 = 0 /\ modrm_ok m (advance w) \/ 0 = -1).
Proof.
  intros Hw Hf Hlt Hm. split; [apply advance_ok; [done|]; destruct Hf; lia|].
  split; [by destruct Hf|]. split; [by destruct Hf|]. left. split; [done|].
  apply modrm_ok_advance. by apply (modrm_ok_frame m v).
Qed.

Lemma decode_modrm_stage m : stage (sizes_ok m) (modrm_ok m) (decode_modrm m).
Proof.
  intros v Hok Hs. unfold decode_modrm. wp_go.
  apply wp_if; intros Ef; [wp_go; unfold modrm_ok; by auto 10|].
  case_bool_decide as Em; [wp_go; by auto|].
  apply wp_peek_or_fail; [done| |by auto]. intros b Hb Hlt. wp_go.
  pose proof (modrm_fields_ok b v Hok) as H1. pose proof (modrm_fields_frame b v) as F1.
  destruct (mod_ (modrm_fields b v) =? VIE_MOD_DIRECT); [wp_go; by destruct F1; auto|].
  wp_go. pose proof (modrm_rex_ok _ H1) as H2.
  pose proof (frame_trans _ _ _ F1 (modrm_rex_frame _)) as F2.
  assert (Hm : modrm_ok m v) by done.
  unfold vie_advance. apply wp_when; intros _; wp_go; apply (stage_byte m v); try done.
  - by apply modrm_base_ok.
  - by apply (frame_trans _ _ _ F2), modrm_base_frame.
Qed.

(** The SIB fields, which only live between these steps. *)
Definition sib_range (v : vie) : Prop := ss v in_u 2 /\ index v in_u 4 /\ vbase v in_u 4.

Lemma sib_fields_ok x v : vie_ok v -> vie_ok (sib_fields x v) /\ sib_range (sib_fields x v).
Proof.
  intros H. split; [by ok_fields H|]. unfold sib_range, sib_fields; cbn.
  assert (Hl : forall a b, Z.lor (Z.land a 7) (Z.shiftl (b2z b) 3) in_u 4).
  { intros a b. apply lor_in_u; [done| |apply b2z_shift_in_u].
    apply (in_u_le 3); [lia|]. apply land_in_u_r; [lia|done]. }
  split; [apply land_in_u_r; [lia|done]|by split].
Qed.

Lemma sib_disp_ok v : vie_ok v -> sib_range v -> vie_ok (sib_disp v) /\ sib_range (sib_disp v).
Proof.
  intros H Hr. unfold sib_disp. repeat split_if; (split; [|done]); try done;
    ok_fields H; unfold size_in; member.
Qed.

Lemma sib_base_ok v : vie_ok v -> sib_range v -> vie_ok (sib_base v) /\ sib_range (sib_base v).
Proof.
  intros H Hr. pose proof (gpr_map_in (vbase v) ltac:(apply Hr)) as Hg.
  unfold sib_base. split_if; (split; [|done]); ok_fields H; unfold size_in;
    first [by do 2 apply list_elem_of_further | member].
Qed.

Lemma sib_index_ok v : vie_ok v -> sib_range v -> vie_ok (sib_index v).
Proof.
  intros H [Hss [Hi _]]. pose proof (gpr_map_in (index v) Hi) as Hg.
  assert (Hsc : forall w, vie_ok w -> ss w = ss v -> vie_ok
            (if reg_index (index_register w) <? reg_index VM_REG_LAST
             then w <| scale := u8 (Z.shiftl 1 (ss w)) |> else w)).
  { intros w Hw Ess. split_if; [|done]. ok_fields Hw. rewrite Ess. unfold size_in.
    assert (Hc : ss v = 0 \/ ss v = 1 \/ ss v = 2 \/ ss v = 3) by lia.
    destruct Hc as [->|[->|[->| ->]]]; cbn; member. }
  unfold sib_index. destruct (negb (index v =? 4)); apply Hsc; try done.
  ok_fields H. by apply list_elem_of_further.
Qed.

Lemma decode_sib_stage m : stage (modrm_ok m) (modrm_ok m) decode_sib.
Proof.
  intros v Hok Hm. unfold decode_sib. wp_go. apply wp_if; intros _; [wp_go; by auto 10|].
  apply wp_peek_or_fail; [done| |by auto]. intros b Hb Hlt.
  destruct (sib_fields_ok b v Hok) as [H1 R1]. destruct (sib_disp_ok _ H1 R1) as [H2 R2].
  destruct (sib_base_ok _ H2 R2) as [H3 R3]. pose proof (sib_index_ok _ H3 R3) as H4.
  unfold vie_advance. wp_go. apply (stage_byte m v); try done.
  eapply frame_trans; [eapply frame_trans; [eapply frame_trans|]|];
    [apply sib_fields_frame|apply sib_disp_frame|apply sib_base_frame|apply sib_index_frame].
Qed.

(** A stage that reads [n] bytes and stores a number. *)
Lemma stage_bytes m n (f : list Z -> vie -> vie) v :
  vie_ok v -> modrm_ok m v ->
  (forall l w, vie_ok w -> vie_ok (f l w) /\ frame w (f l w)) ->
  wp (read_bytes n (fun u => update (f u) ;;; ret 0))
     (fun e v' => vie_ok v' /\ num_valid v' = num_valid v /\ decoded v' = decoded v /\
                  (e = 0 /\ modrm_ok m v' \/ e = -1)) v.
Proof.
  intros Hok Hm Hf.
  apply (wp_read_bytes n (modrm_ok m) _ _ v); try done; [intros w; apply modrm_ok_advance| |by auto 10].
  intros l w Hw Hmw Hn Hd _ _. destruct (Hf l w Hw) as [H1 F1]. wp_go. split; [done|].
  pose proof (modrm_ok_frame m _ _ F1 Hmw). destruct F1. split; [congruence|]. split; [congruence|].
  by auto.
Qed.

Lemma decode_displacement_stage m : stage (modrm_ok m) (modrm_ok m) decode_displacement.
Proof.
  intros v Hok Hm. unfold decode_displacement. wp_go. apply wp_if; intros E0; [wp_go; by auto 10|].
  assert (Hn : disp_bytes v = 1 \/ disp_bytes v = 4).
  { pose proof (ok_disp_bytes v Hok) as Hd. cases_in Hd; bools; auto; congruence. }
  apply wp_bind, wp_KASSERT; [destruct Hn as [->| ->]; done|].
  apply stage_bytes; try done. intros l w Hw. split; [|done]. ok_fields Hw.
  apply (to_signed_within _ 64). lia.
Qed.

Lemma decode_immediate_stage m : stage (modrm_ok m) (modrm_ok m) decode_immediate.
Proof.
  intros v Hok Hm. unfold decode_immediate. apply wp_bind, wp_update, wp_bind, wp_gets.
  assert (H : vie_ok (immediate_size v) /\ frame v (immediate_size v)).
  { unfold immediate_size. repeat split_if; (split; [|done]); ok_fields Hok; unfold size_in;
      try split_if; member. }
  destruct H as [H1 F1]. pose proof (modrm_ok_frame m _ _ F1 Hm) as Hm1.
  destruct F1 as [F1 F2 F3 _ _ _]. rewrite <- F1, <- F3.
  remember (immediate_size v) as w eqn:Ew. clear Ew. apply wp_if; intros E0; [wp_go; by auto 10|].
  assert (Hn : imm_bytes w = 1 \/ imm_bytes w = 2 \/ imm_bytes w = 4).
  { pose proof (ok_imm_bytes w H1) as Hd. cases_in Hd; bools; auto; congruence. }
  apply wp_bind, wp_KASSERT; [destruct Hn as [->|[->| ->]]; done|].
  apply stage_bytes; try done. intros l u Hu. split; [|done]. ok_fields Hu.
  apply (to_signed_within _ 32). lia.
Qed.

Lemma decode_moffset_stage m : stage (modrm_ok m) (modrm_ok m) decode_moffset.
Proof.
  intros v Hok Hm. unfold decode_moffset. wp_go. apply wp_if; intros E0; [wp_go; by auto 10|].
  wp_go. apply wp_KASSERT.
  { destruct Hm as [Hs _]. unfold sizes_ok in Hs.
    case_bool_decide; destruct Hs as [Hs _]; cases_in Hs; by rewrite Hs. }
  apply stage_bytes; try done. intros l u Hu. split; [|done]. ok_fields Hu.
  by apply (to_signed_within 64 64).
Qed.

(** Running the stages one after the other. *)
Lemma wp_or_fail P Q c k (R : Z -> vie -> Prop) v0 :
  stage P Q c -> 
  (forall v, vie_ok v -> Q v -> num_valid v = num_valid v0 -> decoded v = decoded v0 -> wp k R v) ->
  (forall v, vie_ok v -> num_valid v = num_valid v0 -> decoded v = decoded v0 -> R (-1) v) ->
  forall v, vie_ok v -> P v -> num_valid v = num_valid v0 -> decoded v = decoded v0 ->
  wp (or_fail c k) R v.
Proof.
  intros Hc Hk HR v Hok HP Hn Hd. unfold or_fail. apply wp_bind.
  eapply wp_conseq; [by apply Hc|]. intros e v' (Hok' & Hn' & Hd' & He).
  destruct He as [[-> HQ]| ->]; cbn.
  - apply Hk; try done; congruence.
  - wp_go. apply HR; try done; congruence.
Qed.

(** The result of a successful decoding. *)
Record well_decoded (m : vm_cpu_mode) (v : vie) : Prop := {
  wd_fields : vie_ok v;
  wd_sizes : sizes_ok m v;
  wd_real : m = CPU_MODE_REAL -> tst (op_flags (op v)) VIE_OP_F_NO_MODRM = true;
  wd_consumed : 1 <= num_processed v <= num_valid v;
  wd_decoded : decoded v = true;
}.

Lemma decode_from_ok get gla m d v : vie_ok v -> decoded v = false ->
  wp (vmm_decode_instruction get gla m d)
     (fun e v' => num_valid v' = num_valid v /\
        (e = 0 /\ well_decoded m v' \/ e = -1 /\ decoded v' = false)) v.
Proof.
  intros Hok Hd. unfold vmm_decode_instruction.
  assert (Hfail : forall w, vie_ok w -> num_valid w = num_valid v -> decoded w = decoded v ->
    num_valid w = num_valid v /\ (-1 = 0 /\ well_decoded m w \/ -1 = -1 /\ decoded w = false)).
  { intros w _ Hn Hd'. split; [done|]. right. by rewrite Hd'. }
  apply (wp_or_fail _ _ _ _ _ v (decode_prefixes_stage m d)); try done. clear Hd. intros v1 H1 P1 N1 D1.
  apply (wp_or_fail _ _ _ _ _ v (decode_opcode_stage m)); try done. intros v2 H2 P2 N2 D2.
  apply (wp_or_fail _ _ _ _ _ v (decode_modrm_stage m)); try done. intros v3 H3 P3 N3 D3.
  apply (wp_or_fail _ _ _ _ _ v (decode_sib_stage m)); try done. intros v4 H4 P4 N4 D4.
  apply (wp_or_fail _ _ _ _ _ v (decode_displacement_stage m)); try done. intros v5 H5 P5 N5 D5.
  apply (wp_or_fail _ _ _ _ _ v (decode_immediate_stage m)); try done. intros v6 H6 P6 N6 D6.
  apply (wp_or_fail _ _ _ _ _ v (decode_moffset_stage m)); try done. intros v7 H7 P7 N7 D7.
  unfold or_fail, verify_inst_length. wp_go.
  destruct (Z.eqb_spec (num_processed v7) 0) as [E|E]; cbn; [wp_go; by apply Hfail|]. wp_go.
  apply wp_if; intros Eg; wp_go; [by apply Hfail|]. split; [done|]. left. split; [done|].
  destruct P7 as [Hs Hr]. split; [by ok_fields H7|done|done| |done]. destruct H7. cbn. lia.
Qed.

Lemma vie_init_ok bytes n v0 : 0 <= n <= 15 -> Z.of_nat (length bytes) = n ->
  Forall (fun b => b in_u 8) bytes ->
  wp (vie_init bytes n)
     (fun _ v => vie_ok v /\ decoded v = false /\ num_valid v = n /\ num_processed v = 0 /\
                 take (Z.to_nat n) (inst v) = bytes) v0.
Proof.
  intros Hn Hl Hb. unfold vie_init. apply wp_bind, wp_KASSERT.
  { apply andb_true_iff. split; apply Z.leb_le; unfold VIE_INST_SIZE; lia. }
  apply wp_bind, wp_update. rewrite <- Hl. rewrite Nat2Z.id, firstn_all.
  assert (Hop : known_op no_op) by (left; by exists 0).
  apply wp_when; intros E; bools.
  - apply wp_update. rewrite u8_id by (change (2 ^ 8) with 256; lia).
    split; [|cbn -[drop app]; repeat split; try lia; by rewrite take_app_length].
    split; cbn -[drop app replicate]; try done; try lia; try (unfold size_in; member).
    + rewrite length_app, length_drop, length_replicate. lia.
    + apply Forall_app. split; [done|]. apply Forall_drop. by repeat constructor.
  - assert (bytes = []) as -> by (apply nil_length_inv; lia).
    split; [|done]. split; cbn; try done; try (unfold size_in; member). by repeat constructor.
Qed.

(** C17: Whatever the (at most 15) instruction bytes, the CPU mode and the
    registers, decoding returns: no assertion fails, no loop runs on, and no
    byte past the valid ones is read.  It returns -1 with [decoded] still
    clear, or 0 with every field in range: address and operand sizes legal for
    the mode, registers in the 16-entry table, scale a power of two, signed
    displacement and immediate in their widths, and in real mode only
    instructions without a ModRM byte. *)
Theorem decode_well_typed get gla m d bytes n v0
    (Hn : 0 <= n <= 15) (Hl : Z.of_nat (length bytes) = n)
    (Hb : Forall (fun b => b in_u 8) bytes) :
  exists e v', (vie_init bytes n ;;; vmm_decode_instruction get gla m d) v0 = Return (e, v') /\
    num_valid v' = n /\ (e = 0 /\ well_decoded m v' \/ e = -1 /\ decoded v' = false).
Proof.
  apply wp_elim, wp_bind. eapply wp_conseq; [by apply vie_init_ok|].
  intros _ v (Hok & Hd & Hnv & _). eapply wp_conseq; [by apply decode_from_ok|].
  cbn. intros e v' [Hv He]. by rewrite Hv.
Qed.

(** The bytes of [mov %eax, (%rcx)]. *)
Lemma decode_well_typed_witness :
  exists e v', (vie_init [0x89; 0x01] 2 ;;;
     vmm_decode_instruction (fun _ => (0, 0)) VIE_INVALID_GLA CPU_MODE_64BIT false) vie_zero
      = Return (e, v') /\
    num_valid v' = 2 /\ (e = 0 /\ well_decoded CPU_MODE_64BIT v' \/ e = -1 /\ decoded v' = false).
Proof.
  apply (decode_well_typed (fun _ => (0, 0)) VIE_INVALID_GLA CPU_MODE_64BIT false [0x89; 0x01] 2 vie_zero);
    [lia|reflexivity|repeat constructor; lia].
Defined.
