(* ===== verification/VieEncode.v ===== *)
(** * A reference assembler for the decoder

    The encoding of the instructions with a memory operand in 64-bit mode, as
    the Intel manual gives it (prefixes, REX, opcode, ModRM, SIB,
    displacement, immediate), for every opcode of the tables of
    vmm_instruction_emul.c that has a ModRM byte.  The theorem says that the
    decoder inverts it and accepts exactly the address the instruction
    accesses. *)

From S2P Require Import Prelude Effects VmmCommon VieDecode.

Local Open Scope cmd_scope.

(** ** Instructions *)

Inductive opcode : Type := OneByte (x : Z) | TwoByte (x : Z).

Inductive disp : Type := NoDisp | Disp8 (d : Z) | Disp32 (d : Z).

(** [Mem b d]: no SIB byte; [MemSib b i s d]: base and index optional, index
    scaled by [2 ^ s]; [MemRip d]: relative to the next instruction. *)
Inductive mem_operand : Type :=
| Mem (b : Z) (d : disp)
| MemSib (b : option Z) (i : option Z) (s : Z) (d : disp)
| MemRip (d : Z).

Record insn : Type := mk_insn {
  i_data16 : bool;
  i_addr32 : bool;
  i_seg : option Z;
  i_rex : bool;
  i_wide : bool;
  i_code : opcode;
  i_reg : Z;
  i_mem : mem_operand;
  i_imm : Z;
}.

Definition op_of (c : opcode) : vie_op :=
  match c with OneByte x => one_byte_opcodes x | TwoByte x => two_byte_opcodes x end.

Definition code_bytes (c : opcode) : list Z :=
  match c with OneByte x => [x] | TwoByte x => [0x0F; x] end.

(** ** Encoding *)

Definition base_num (m : mem_operand) : Z :=
  match m with Mem b _ => b | MemSib (Some b) _ _ _ => b | _ => 0 end.

Definition index_num (m : mem_operand) : Z :=
  match m with MemSib _ (Some i) _ _ => i | _ => 0 end.

Definition disp_bytes_of (d : disp) : list Z :=
  match d with NoDisp => [] | Disp8 z => le_split 1 z | Disp32 z => le_split 4 z end.

Definition mod_of (d : disp) : Z :=
  match d with NoDisp => 0 | Disp8 _ => 1 | Disp32 _ => 2 end.

Definition modrm (md rg rmf : Z) : Z := md * 64 + (rg mod 8) * 8 + rmf.

Definition sib (s ix bs : Z) : Z := s * 64 + (ix mod 8) * 8 + bs mod 8.

(** ModRM byte, SIB byte and displacement. *)
Definition mem_bytes (rg : Z) (m : mem_operand) : list Z :=
  match m with
  | Mem b d => modrm (mod_of d) rg (b mod 8) :: disp_bytes_of d
  | MemSib (Some b) i s d =>
      modrm (mod_of d) rg 4 :: sib s (default 4 i) b :: disp_bytes_of d
  | MemSib None i s d => modrm 0 rg 4 :: sib s (default 4 i) 5 :: disp_bytes_of d
  | MemRip z => modrm 0 rg 5 :: le_split 4 z
  end.

Definition rex_byte (i : insn) : Z :=
  0x40 + 8 * b2z (i_wide i) + 4 * (i_reg i / 8) + 2 * (index_num (i_mem i) / 8) + base_num (i_mem i) / 8.

Definition rex_bytes (i : insn) : list Z :=
  if i_rex i || (0x40 <? rex_byte i) then [rex_byte i] else [].

Definition imm_size (i : insn) : nat :=
  if tst (op_flags (op_of (i_code i))) VIE_OP_F_IMM
  then if i_data16 i && negb (i_wide i) then 2 else 4
  else if tst (op_flags (op_of (i_code i))) VIE_OP_F_IMM8 then 1 else 0.

Definition prefixes (i : insn) : list Z :=
  (if i_data16 i then [0x66] else []) ++ (if i_addr32 i then [0x67] else []) ++
  (match i_seg i with Some s => [s] | None => [] end).

Definition encode (i : insn) : list Z :=
  prefixes i ++ rex_bytes i ++ code_bytes (i_code i) ++ mem_bytes (i_reg i) (i_mem i) ++
  le_split (imm_size i) (i_imm i).

(** ** Encodable instructions *)

Definition signed (w z : Z) : Prop := - 2 ^ (w - 1) <= z < 2 ^ (w - 1).

Definition ok_disp (d : disp) : Prop :=
  match d with NoDisp => True | Disp8 z => signed 8 z | Disp32 z => signed 32 z end.

Definition ok_mem (m : mem_operand) : Prop :=
  match m with
  | Mem b d => b in_u 4 /\ b mod 8 <> 4 /\ (d = NoDisp -> b mod 8 <> 5) /\ ok_disp d
  | MemSib b i s d =>
      s in_u 2 /\ ok_disp d /\ (forall x, i = Some x -> x in_u 4 /\ x <> 4) /\
      match b with
      | Some b => b in_u 4 /\ (d = NoDisp -> b mod 8 <> 5)
      | None => exists z, d = Disp32 z
      end
  | MemRip z => signed 32 z
  end.

Definition ok_code (c : opcode) : Prop :=
  match c with OneByte x => x in_u 8 | TwoByte x => x in_u 8 end /\
  op_type (op_of c) <> VIE_OP_TYPE_NONE /\ op_type (op_of c) <> VIE_OP_TYPE_TWO_BYTE /\
  tst (op_flags (op_of c)) VIE_OP_F_NO_MODRM = false.

Record encodable (i : insn) : Prop := {
  en_code : ok_code (i_code i);
  en_reg : i_reg i in_u 4;
  en_mem : ok_mem (i_mem i);
  en_imm : if (imm_size i =? 0)%nat then i_imm i = 0 else signed (8 * Z.of_nat (imm_size i)) (i_imm i);
  en_seg : forall s, i_seg i = Some s -> s ∈ [0x2E; 0x36; 0x3E; 0x26; 0x64; 0x65];
}.

(** ** What the instruction accesses *)

Definition i_opsize (i : insn) : Z := if i_wide i then 8 else if i_data16 i then 2 else 4.
Definition i_addrsize (i : insn) : Z := if i_addr32 i then 4 else 8.

Definition i_base (m : mem_operand) : vm_reg_name :=
  match m with
  | Mem b _ | MemSib (Some b) _ _ _ => gpr_map b
  | MemSib None _ _ _ => VM_REG_LAST
  | MemRip _ => VM_REG_GUEST_RIP
  end.

Definition i_index (m : mem_operand) : vm_reg_name :=
  match m with MemSib _ (Some x) _ _ => gpr_map x | _ => VM_REG_LAST end.

Definition i_scale (m : mem_operand) : Z :=
  match m with MemSib _ (Some _) s _ => 2 ^ s | _ => 0 end.

Definition disp_value (d : disp) : Z := match d with NoDisp => 0 | Disp8 z | Disp32 z => z end.

Definition i_disp (m : mem_operand) : Z :=
  match m with Mem _ d | MemSib _ _ _ d => disp_value d | MemRip z => z end.

(** The effective address, from the values of the registers and of the
    address of the next instruction. *)
Definition effective (value : vm_reg_name -> Z) (i : insn) : Z :=
  let b := match i_mem i with
           | Mem b _ | MemSib (Some b) _ _ _ => value (gpr_map b)
           | MemSib None _ _ _ => 0
           | MemRip _ => value VM_REG_GUEST_RIP + Z.of_nat (length (encode i))
           end in
  let x := match i_mem i with MemSib _ (Some x) s _ => 2 ^ s * value (gpr_map x) | _ => 0 end in
  (b + x + i_disp (i_mem i)) mod 2 ^ (8 * i_addrsize i).

(** ** Arithmetic of the fields *)

Lemma land_ones_mod x n m : m = Z.ones n -> 0 <= n -> Z.land x m = x mod 2 ^ n.
Proof. intros -> Hn. by apply Z.land_ones. Qed.

Lemma modrm_split md rg f : 0 <= md < 4 -> 0 <= f < 8 ->
  Z.land (Z.shiftr (modrm md rg f) 6) 3 = md /\ Z.land (Z.shiftr (modrm md rg f) 3) 7 = rg mod 8 /\
  Z.land (Z.shiftr (modrm md rg f) 0) 7 = f.
Proof.
  intros Hm Hf. unfold modrm. rewrite !(land_ones_mod _ 3 7), !(land_ones_mod _ 2 3) by done.
  rewrite !Z.shiftr_div_pow2 by done. cbn [Z.pow Z.pow_pos Pos.iter]. change (2 ^ 6) with 64.
  change (2 ^ 3) with 8. change (2 ^ 2) with 4. change (2 ^ 0) with 1.
  Z.to_euclidean_division_equations. lia.
Qed.

Lemma modrm_in_u md rg f : 0 <= md < 4 -> 0 <= f < 8 -> modrm md rg f in_u 8.
Proof.
  intros Hm Hf. unfold modrm. pose proof (Z.mod_pos_bound rg 8 ltac:(lia)).
  change (2 ^ 8) with 256. lia.
Qed.

Lemma sib_modrm s ix bs : sib s ix bs = modrm s ix (bs mod 8).
Proof. done. Qed.

Lemma mod8_bound z : 0 <= z mod 8 < 8.
Proof. apply Z.mod_pos_bound. lia. Qed.

Lemma reg_join r : r in_u 4 -> Z.lor (r mod 8) (Z.shiftl (b2z (r / 8 =? 1)) 3) = r.
Proof.
  intros Hr. apply Z.eqb_eq.
  apply (forall_below (fun r => Z.lor (r mod 8) (Z.shiftl (b2z (r / 8 =? 1)) 3) =? r) 16); done.
Qed.

Lemma high_bit r : r in_u 4 -> r / 8 = b2z (r / 8 =? 1).
Proof.
  intros Hr. change (2 ^ 4) with 16 in Hr. assert (r / 8 = 0 \/ r / 8 = 1) as [-> | ->]; [|done..].
  Z.to_euclidean_division_equations. lia.
Qed.

Lemma rex_bits w r x b :
  let y := 0x40 + 8 * b2z w + 4 * b2z r + 2 * b2z x + b2z b in
  tst y 8 = w /\ tst y 4 = r /\ tst y 2 = x /\ tst y 1 = b /\ 0x40 <= y <= 0x4F.
Proof. destruct w, r, x, b; cbn; done. Qed.

Lemma to_signed_mod w z : 0 < w -> signed w z -> to_signed w (z mod 2 ^ w) = z.
Proof.
  intros Hw [H1 H2]. unfold to_signed.
  assert (Hp : 2 ^ w = 2 * 2 ^ (w - 1)) by (rewrite <- Z.pow_succ_r by lia; f_equal; lia).
  rewrite Z.mod_mod by lia. destruct (Z.le_gt_cases 0 z).
  - rewrite Z.mod_small by lia. destruct (Z.ltb_spec z (2 ^ (w - 1))); lia.
  - replace (z mod 2 ^ w) with (z + 2 ^ w).
    + destruct (Z.ltb_spec (z + 2 ^ w) (2 ^ (w - 1))); lia.
    + apply (Z.mod_unique _ _ (-1)); lia.
Qed.

Lemma signed_roundtrip n z : (0 < n)%nat -> signed (8 * Z.of_nat n) z ->
  to_signed (8 * Z.of_nat n) (le_combine (le_split n z)) = z.
Proof. intros Hn Hz. rewrite le_combine_split. apply to_signed_mod; [lia|done]. Qed.

(** ** Running the decoder on known bytes *)

(** The bytes still to read. *)
Definition todo (v : vie) : list Z :=
  take (Z.to_nat (num_valid v - num_processed v)) (drop (Z.to_nat (num_processed v)) (inst v)).

Lemma todo_cons v b l : vie_ok v -> todo v = b :: l ->
  num_processed v < num_valid v /\ nth (Z.to_nat (num_processed v)) (inst v) 0 = b /\
  todo (advance v) = l.
Proof.
  intros H Ht. unfold todo in *. destruct H. cbn in *. rewrite u8_id by (change (2 ^ 8) with 256; lia).
  assert (Hlt : num_processed v < num_valid v).
  { destruct (Z.lt_ge_cases (num_processed v) (num_valid v)); [done|].
    replace (Z.to_nat (num_valid v - num_processed v)) with 0%nat in Ht by lia. done. }
  split; [done|]. remember (Z.to_nat (num_processed v)) as p eqn:Ep.
  replace (Z.to_nat (num_processed v + 1)) with (S p) by lia.
  replace (Z.to_nat (num_valid v - num_processed v)) with
    (S (Z.to_nat (num_valid v - (num_processed v + 1)))) in Ht by lia.
  destruct (drop p (inst v)) as [|c d] eqn:Ed; [done|]. cbn in Ht. injection Ht as -> Ht.
  split.
  - rewrite <- (take_drop p (inst v)), Ed, app_nth2; rewrite length_take; [|lia].
    replace (p - (p `min` length (inst v)))%nat with 0%nat; [done|]. lia.
  - rewrite <- Ht. f_equal.
    replace (drop (S p) (inst v)) with (drop 1 (drop p (inst v))) by apply skipn_skipn. by rewrite Ed.
Qed.

Lemma length_todo v : vie_ok v -> length (todo v) = Z.to_nat (num_valid v - num_processed v).
Proof. intros []. unfold todo. rewrite length_take, length_drop. lia. Qed.

Lemma wp_peek_run k Q v b l : vie_ok v -> todo v = b :: l -> wp (k b) Q v -> wp (peek_or_fail k) Q v.
Proof.
  intros H Ht Hk. destruct (todo_cons v b l H Ht) as (Hlt & Hn & _).
  unfold peek_or_fail, vie_peek. wp_go. apply Z.ltb_lt in Hlt. by rewrite Hlt, Hn.
Qed.

Lemma wp_read_run n k Q v l t : vie_ok v -> todo v = l ++ t -> length l = n ->
  (forall p, vie_ok (v <| num_processed := p |>) -> todo (v <| num_processed := p |>) = t ->
     wp (k l) Q (v <| num_processed := p |>)) ->
  wp (read_bytes n k) Q v.
Proof.
  revert k v l. induction n as [|n IH]; intros k v l Hok Ht Hl Hk; destruct l as [|b l]; try done.
  - cbn in *. specialize (Hk (num_processed v)). destruct v. by apply Hk.
  - cbn [read_bytes]. apply (wp_peek_run _ _ v b (l ++ t)); try done.
    destruct (todo_cons v b (l ++ t) Hok Ht) as (Hlt & _ & Ha).
    unfold vie_advance. wp_go. fold (advance v).
    apply (IH _ _ l); [by apply advance_ok|done|by injection Hl|].
    intros p Hp Htp. by apply Hk.
Qed.

(** Everything known about [vie] at a point of the decoding of [i]: the bytes
    left [t] and the values the stages so far have stored. *)
Record decoding (i : insn) (t : list Z) (o : vie_op) (md rmv rg : Z) (br ir : vm_reg_name)
    (sc db dv iv : Z) (v : vie) : Prop := {
  dg_ok : vie_ok v;
  dg_todo : todo v = t;
  dg_valid : num_valid v = Z.of_nat (length (encode i));
  dg_sizes : addrsize v = i_addrsize i /\ opsize v = i_opsize i;
  dg_rex : rex_r v = (i_reg i / 8 =? 1) /\ rex_x v = (index_num (i_mem i) / 8 =? 1) /\
           rex_b v = (base_num (i_mem i) / 8 =? 1);
  dg_seg : segment_register v = match i_seg i with
             Some s => default VM_REG_LAST (segment_override s) | None => VM_REG_LAST end;
  dg_op : op v = o;
  dg_mod : mod_ v = md;
  dg_rm : rm v = rmv;
  dg_reg : reg v = rg;
  dg_base : base_register v = br;
  dg_index : index_register v = ir;
  dg_scale : scale v = sc;
  dg_disp : disp_bytes v = db;
  dg_imm : imm_bytes v = 0;
  dg_displacement : displacement v = dv;
  dg_immediate : immediate v = iv;
}.

Ltac known H := destruct H; split; cbn; try done.

(** Before the opcode: the prefixes seen so far. *)
Record prefixed (n : Z) (t : list Z) (a b : bool) (sg : vm_reg_name) (v : vie) : Prop := {
  pf_ok : vie_ok v;
  pf_todo : todo v = t;
  pf_valid : num_valid v = n;
  pf_data : opsize_override v = a;
  pf_addr : addrsize_override v = b;
  pf_seg : segment_register v = sg;
  pf_rex : rex_w v = false /\ rex_r v = false /\ rex_x v = false /\ rex_b v = false;
  pf_op : op v = no_op;
  pf_modrm : mod_ v = 0 /\ rm v = 0 /\ reg v = 0;
  pf_base : base_register v = VM_REG_LAST /\ index_register v = VM_REG_LAST;
  pf_zero : scale v = 0 /\ disp_bytes v = 0 /\ imm_bytes v = 0 /\ displacement v = 0 /\ immediate v = 0;
}.

Lemma prefixed_advance n p t a b sg f a' b' sg' v :
  prefixed n (p :: t) a b sg v -> prefix_byte p = Some f ->
  opsize_override (f v) = a' -> addrsize_override (f v) = b' -> segment_register (f v) = sg' ->
  prefixed n t a' b' sg' (advance (f v)).
Proof.
  intros H Hf Ha Hb Hs.
  pose proof (pf_ok _ _ _ _ _ _ H) as Hok. pose proof (pf_todo _ _ _ _ _ _ H) as Ht.
  destruct (prefix_byte_ok p f v Hf Hok) as (Hok' & Hn & Hp & Hd).
  assert (Hi : inst (f v) = inst v /\ rex_w (f v) = rex_w v /\ rex_r (f v) = rex_r v /\
    rex_x (f v) = rex_x v /\ rex_b (f v) = rex_b v /\ op (f v) = op v /\ mod_ (f v) = mod_ v /\
    rm (f v) = rm v /\ reg (f v) = reg v /\ base_register (f v) = base_register v /\
    index_register (f v) = index_register v /\ scale (f v) = scale v /\
    disp_bytes (f v) = disp_bytes v /\ imm_bytes (f v) = imm_bytes v /\
    displacement (f v) = displacement v /\ immediate (f v) = immediate v).
  { unfold prefix_byte in Hf. by repeat (case_match; simplify_eq/=). }
  destruct Hi as (Hi & ? & ? & ? & ? & ? & ? & ? & ? & ? & ? & ? & ? & ? & ? & ?).
  assert (Ht' : todo (f v) = p :: t) by (unfold todo in *; by rewrite Hn, Hp, Hi).
  destruct (todo_cons (f v) p t Hok' Ht') as (Hlt & _ & Hta). destruct H.
  split; cbn; try done; try congruence; [by apply advance_ok|naive_solver congruence..].
Qed.

Lemma wp_prefix_step n p t a b sg f a' b' sg' fuel k Q v :
  prefixed n (p :: t) a b sg v -> prefix_byte p = Some f ->
  opsize_override (f v) = a' -> addrsize_override (f v) = b' -> segment_register (f v) = sg' ->
  (forall w, prefixed n t a' b' sg' w -> wp (prefix_loop fuel k) Q w) ->
  wp (prefix_loop (S fuel) k) Q v.
Proof.
  intros H Hf Ha Hb Hs Hk. cbn [prefix_loop].
  apply (wp_peek_run _ _ v p t); [by destruct H|by destruct H|]. rewrite Hf.
  unfold vie_advance. wp_go. apply Hk. by eapply prefixed_advance.
Qed.

Definition seg_of (i : insn) : vm_reg_name :=
  match i_seg i with Some s => default VM_REG_LAST (segment_override s) | None => VM_REG_LAST end.

(** The effect of one prefix on the three facts [prefixed] records. *)
Definition prefix_fact (c : bool * bool * vm_reg_name) (p : Z) : bool * bool * vm_reg_name :=
  if p =? 0x66 then (true, c.1.2, c.2) else if p =? 0x67 then (c.1.1, true, c.2)
  else (c.1, default c.2 (segment_override p)).

Lemma wp_prefix_list n b rest k Q ps : Forall (fun p => p ∈ [0x66; 0x67; 0x2E; 0x36; 0x3E; 0x26; 0x64; 0x65]) ps ->
  prefix_byte b = None ->
  forall fuel c v, prefixed n (ps ++ b :: rest) c.1.1 c.1.2 c.2 v -> (length ps < fuel)%nat ->
  (forall w, let c' := fold_left prefix_fact ps c in
     prefixed n (b :: rest) c'.1.1 c'.1.2 c'.2 w -> wp (k b) Q w) ->
  wp (prefix_loop fuel k) Q v.
Proof.
  intros Hps Hb. induction Hps as [|p ps Hp _ IH]; intros fuel c v H Hf Hk;
    (destruct fuel as [|fuel]; [cbn in Hf; lia|]).
  - cbn [prefix_loop]. apply (wp_peek_run _ _ v b rest); [by destruct H|by destruct H|].
    rewrite Hb. by apply Hk.
  - cbn in Hf. apply Nat.succ_lt_mono in Hf.
    assert (Hx : exists f, prefix_byte p = Some f /\ opsize_override (f v) = (prefix_fact c p).1.1 /\
      addrsize_override (f v) = (prefix_fact c p).1.2 /\ segment_register (f v) = (prefix_fact c p).2).
    { destruct H. cases_in Hp; subst p; eexists; (split; [reflexivity|]); cbn; auto. }
    destruct Hx as (f & Hpf & H1 & H2 & H3).
    eapply wp_prefix_step; [exact H|done|done|done|done|].
    intros w Hw. by apply (IH fuel (prefix_fact c p) w).
Qed.

Lemma prefixes_known i : encodable i ->
  Forall (fun p => p ∈ [0x66; 0x67; 0x2E; 0x36; 0x3E; 0x26; 0x64; 0x65]) (prefixes i) /\
  fold_left prefix_fact (prefixes i) (false, false, VM_REG_LAST) = (i_data16 i, i_addr32 i, seg_of i).
Proof.
  intros He. unfold prefixes, seg_of. pose proof (en_seg i He) as Hs. split.
  - apply Forall_app_2; [|apply Forall_app_2].
    { destruct (i_data16 i); constructor; [member|done]. }
    { destruct (i_addr32 i); constructor; [member|done]. }
    destruct (i_seg i) as [s|]; [|done]. constructor; [|done].
    specialize (Hs s eq_refl). do 2 apply list_elem_of_further. done.
  - rewrite !fold_left_app. destruct (i_seg i) as [s|];
      [specialize (Hs s eq_refl); cases_in Hs; subst s|]; by destruct (i_data16 i), (i_addr32 i).
Qed.

(** The byte after the prefixes is no prefix. *)
Definition opcode_or_prefix (x : Z) : bool :=
  bool_decide (op_type (one_byte_opcodes x) = VIE_OP_TYPE_NONE) ||
  (match prefix_byte x with None => true | _ => false end && ((x <? 0x40) || (0x4F <? x))).

Lemma code_no_prefix c : ok_code c -> exists x l, code_bytes c = x :: l /\
  prefix_byte x = None /\ (x < 0x40 \/ 0x4F < x).
Proof.
  intros (Hx & Hn & Ht & _). destruct c as [x|x]; cbn in *.
  - exists x, []. split; [done|].
    pose proof (forall_below opcode_or_prefix 256 x ltac:(vm_compute; reflexivity) Hx) as Hall.
    unfold opcode_or_prefix in Hall.
    rewrite bool_decide_eq_false_2 in Hall by done. cbn in Hall. apply andb_true_iff in Hall as [H1 H2].
    destruct (prefix_byte x); [done|]. split; [done|]. apply orb_true_iff in H2 as [H2|H2]; bools; lia.
  - exists 0x0F, [x]. split; [done|]. split; [done|lia].
Qed.

Lemma mem_nums m : ok_mem m -> base_num m in_u 4 /\ index_num m in_u 4.
Proof.
  destruct m as [b d|b i s d|z]; cbn [ok_mem base_num index_num]; [by intros [? _]| |done].
  intros (_ & _ & Hi & Hb). split.
  - destruct b as [b|]; [by destruct Hb|done].
  - destruct i as [x|]; [by apply Hi|done].
Qed.

Lemma rex_byte_bits i : encodable i ->
  rex_byte i = 0x40 + 8 * b2z (i_wide i) + 4 * b2z (i_reg i / 8 =? 1) +
    2 * b2z (index_num (i_mem i) / 8 =? 1) + b2z (base_num (i_mem i) / 8 =? 1).
Proof.
  intros He. destruct (mem_nums _ (en_mem i He)) as [Hb Hi]. unfold rex_byte.
  by rewrite <- !high_bit by (try done; by apply He).
Qed.

Lemma rex_no_prefix y : 0x40 <= y <= 0x4F -> prefix_byte y = None.
Proof.
  intros Hy. unfold prefix_byte, segment_override.
  repeat match goal with |- context [?a =? ?b] => destruct (Z.eqb_spec a b); [lia|] end.
  destruct y as [|p|p]; [done| |done]. by repeat (destruct p as [p|p|]; try done; try lia).
Qed.

(** After the sizes are set, [prefixed] becomes [decoding]. *)
Lemma sizes_decoding i t w d :
  vie_ok w -> todo w = t -> num_valid w = Z.of_nat (length (encode i)) ->
  opsize_override w = i_data16 i -> addrsize_override w = i_addr32 i -> segment_register w = seg_of i ->
  rex_w w = i_wide i -> rex_r w = (i_reg i / 8 =? 1) -> rex_x w = (index_num (i_mem i) / 8 =? 1) ->
  rex_b w = (base_num (i_mem i) / 8 =? 1) -> op w = no_op -> mod_ w = 0 /\ rm w = 0 /\ reg w = 0 ->
  base_register w = VM_REG_LAST /\ index_register w = VM_REG_LAST ->
  scale w = 0 /\ disp_bytes w = 0 /\ imm_bytes w = 0 /\ displacement w = 0 /\ immediate w = 0 ->
  decoding i t no_op 0 0 0 VM_REG_LAST VM_REG_LAST 0 0 0 0 (operand_sizes CPU_MODE_64BIT d w).
Proof.
  intros Hok Ht Hn Ho Ha Hs Hw Hr Hx Hb Hop (? & ? & ?) (? & ?) (? & ? & ? & ? & ?).
  unfold operand_sizes. rewrite bool_decide_eq_true_2 by done.
  split; cbn; try done; [by ok_fields Hok|]. unfold i_addrsize, i_opsize. by rewrite Ho, Ha, Hw.
Qed.

Lemma run_prefixes i d v : encodable i ->
  prefixed (Z.of_nat (length (encode i))) (encode i) false false VM_REG_LAST v ->
  wp (decode_prefixes CPU_MODE_64BIT d)
    (fun e v' => e = 0 /\ decoding i (code_bytes (i_code i) ++ mem_bytes (i_reg i) (i_mem i) ++
        le_split (imm_size i) (i_imm i)) no_op 0 0 0 VM_REG_LAST VM_REG_LAST 0 0 0 0 v') v.
Proof.
  intros He H. destruct (prefixes_known i He) as [Hps Hfold].
  destruct (code_no_prefix _ (en_code i He)) as (x & l & Hx & Hxp & Hxr).
  pose proof (rex_byte_bits i He) as Hrex.
  pose proof (rex_bits (i_wide i) (i_reg i / 8 =? 1) (index_num (i_mem i) / 8 =? 1)
    (base_num (i_mem i) / 8 =? 1)) as Hbits. cbv zeta in Hbits. rewrite <- Hrex in Hbits.
  destruct Hbits as (Bw & Br & Bx & Bb & Brange).
  set (rest := mem_bytes (i_reg i) (i_mem i) ++ le_split (imm_size i) (i_imm i)) in *.
  unfold decode_prefixes. wp_go.
  assert (Hlen : (length (prefixes i) < S (Z.to_nat (num_valid v - num_processed v)))%nat).
  { rewrite <- length_todo by (by destruct H). rewrite (pf_todo _ _ _ _ _ _ H). unfold encode.
    rewrite length_app. lia. }
  unfold encode in H at 2. unfold rex_bytes in H.
  destruct (i_rex i || (0x40 <? rex_byte i)) eqn:Eemit.
  - cbn [app] in H. eapply (wp_prefix_list _ _ _ _ _ _ Hps (rex_no_prefix _ Brange) _ (false, false, VM_REG_LAST));
      [exact H|done|]. cbv zeta. rewrite Hfold. cbn [fst snd]. intros w Hw.
    unfold decode_rex, vie_advance. apply wp_bind, wp_when; intros Hc.
    2: { rewrite bool_decide_eq_true_2 in Hc by done. bools. destruct Brange.
         apply andb_false_iff in Hc as [Hc|Hc]; bools; lia. }
    destruct Hw as [Hok Ht Hn Hd Ha Hs _ Hop Hm Hbs Hz].
    destruct (todo_cons w _ _ Hok Ht) as (Hlt & _ & Hta).
    apply wp_bind, wp_update, wp_update, wp_bind, wp_update, wp_ret. split; [done|].
    apply sizes_decoding; try done. destruct Hok. split; cbn; try done. rewrite u8_id; lia.
  - apply orb_false_iff in Eemit as [_ Eemit]. bools. cbn [app] in H. rewrite Hx in H.
    change ((x :: l) ++ ?r) with (x :: (l ++ r)) in H.
    eapply (wp_prefix_list _ _ _ _ _ _ Hps Hxp _ (false, false, VM_REG_LAST)); [exact H|done|].
    cbv zeta. rewrite Hfold. cbn [fst snd]. intros w Hw. unfold decode_rex, vie_advance.
    apply wp_bind, wp_when; intros Hc; [bools; lia|].
    destruct Hw as [Hok Ht Hn Hd Ha Hs (R1 & R2 & R3 & R4) Hop Hm Hbs Hz].
    apply wp_bind, wp_update, wp_ret. split; [done|]. rewrite Hx.
    destruct (i_wide i) eqn:E1, (i_reg i / 8 =? 1) eqn:E2, (index_num (i_mem i) / 8 =? 1) eqn:E3,
      (base_num (i_mem i) / 8 =? 1) eqn:E4; cbn in Hrex; try lia.
    apply sizes_decoding; try done; congruence.
Qed.

Section Stages.
Context (i : insn) (He : encodable i).

Lemma decoding_advance b t o md rmv rg br ir sc db dv iv v :
  decoding i (b :: t) o md rmv rg br ir sc db dv iv v ->
  decoding i t o md rmv rg br ir sc db dv iv (advance v).
Proof.
  intros H. destruct (todo_cons v b t (dg_ok _ _ _ _ _ _ _ _ _ _ _ _ _ H) (dg_todo _ _ _ _ _ _ _ _ _ _ _ _ _ H))
    as (Hlt & _ & Ht).
  destruct H. split; try done. by apply advance_ok.
Qed.

Lemma run_opcode t v :
  decoding i (code_bytes (i_code i) ++ t) no_op 0 0 0 VM_REG_LAST VM_REG_LAST 0 0 0 0 v ->
  wp decode_opcode (fun e v' => e = 0 /\
    decoding i t (op_of (i_code i)) 0 0 0 VM_REG_LAST VM_REG_LAST 0 0 0 0 v') v.
Proof.
  assert (Hset : forall o o' t v, known_op o' ->
    decoding i t o 0 0 0 VM_REG_LAST VM_REG_LAST 0 0 0 0 v ->
    decoding i t o' 0 0 0 VM_REG_LAST VM_REG_LAST 0 0 0 0 (v <| op := o' |>)).
  { intros o o' t' w Ho H. destruct H. split; try done. by ok_fields dg_ok0. }
  intros H. destruct (en_code i He) as (Hx & Hn & Ht & _). unfold decode_opcode.
  destruct (i_code i) as [x|x] eqn:Ec; cbn [code_bytes app op_of] in *.
  - apply (wp_peek_run _ _ v x t); [by destruct H|by destruct H|]. wp_go. cbn [op].
    rewrite !bool_decide_eq_false_2 by done. unfold vie_advance. wp_go. split; [done|].
    apply (decoding_advance x). apply (Hset no_op); [left; by exists x|done].
  - apply (wp_peek_run _ _ v 0x0F (x :: t)); [by destruct H|by destruct H|]. wp_go.
    change (op_type (op (v <| op := one_byte_opcodes 15 |>))) with VIE_OP_TYPE_TWO_BYTE.
    rewrite bool_decide_eq_false_2, bool_decide_eq_true_2 by done. unfold vie_advance. wp_go.
    assert (H1 : decoding i (x :: t) (one_byte_opcodes 15) 0 0 0 VM_REG_LAST VM_REG_LAST 0 0 0 0
      (advance (v <| op := one_byte_opcodes 15 |>))).
    { apply (decoding_advance 0x0F). apply (Hset no_op); [left; by exists 0x0F|done]. }
    fold (advance (v <| op := one_byte_opcodes 15 |>)).
    remember (advance (v <| op := one_byte_opcodes 15 |>)) as w eqn:Ew. clear Ew.
    unfold decode_two_byte_opcode. apply (wp_peek_run _ _ w x t); [by destruct H1|by destruct H1|].
    wp_go. change (op_type (op (w <| op := two_byte_opcodes x |>))) with (op_type (two_byte_opcodes x)).
    rewrite bool_decide_eq_false_2 by done. unfold vie_advance. wp_go. split; [done|].
    apply (decoding_advance x). apply (Hset (one_byte_opcodes 15)); [right; by exists x|done].
Qed.

(** The ModRM byte of the operand: its mod and r/m fields (with REX.B), the
    base register and the displacement size it gives without a SIB byte. *)
Definition md_of (m : mem_operand) : Z :=
  match m with Mem _ d | MemSib (Some _) _ _ d => mod_of d | _ => 0 end.

Definition rm_of (m : mem_operand) : Z := match m with Mem b _ => b | MemSib _ _ _ _ => 4 | MemRip _ => 5 end.

Definition db_of (m : mem_operand) : Z :=
  match m with
  | Mem _ d | MemSib (Some _) _ _ d => match d with NoDisp => 0 | Disp8 _ => 1 | Disp32 _ => 4 end
  | _ => 4
  end.

(** The bytes after the ModRM byte. *)
Definition after_modrm (m : mem_operand) : list Z := tail (mem_bytes (i_reg i) m).

Definition rm_field (m : mem_operand) : Z :=
  match m with Mem b _ => b mod 8 | MemSib _ _ _ _ => 4 | MemRip _ => 5 end.

Lemma mem_bytes_modrm m : mem_bytes (i_reg i) m = modrm (md_of m) (i_reg i) (rm_field m) :: after_modrm m.
Proof. by destruct m as [b d|[b|] ix s d|z]. Qed.

Lemma mod_of_bound d : 0 <= mod_of d < 3.
Proof. destruct d; cbn; lia. Qed.

Lemma md_of_bound m : 0 <= md_of m < 3.
Proof. destruct m as [b d|[b|] ix s d|z]; cbn [md_of]; try lia; apply mod_of_bound. Qed.

Lemma rm_field_bound m : 0 <= rm_field m < 8.
Proof. destruct m; cbn [rm_field]; try lia. apply mod8_bound. Qed.

Lemma run_modrm_fields t o v m :
  decoding i t o 0 0 0 VM_REG_LAST VM_REG_LAST 0 0 0 0 v ->
  decoding i t o (md_of m) (rm_field m) (i_reg i mod 8) VM_REG_LAST VM_REG_LAST 0 0 0 0
    (modrm_fields (modrm (md_of m) (i_reg i) (rm_field m)) v).
Proof.
  intros H. destruct (modrm_split (md_of m) (i_reg i) (rm_field m)) as (E1 & E2 & E3);
    [pose proof (md_of_bound m); lia|apply rm_field_bound|].
  destruct H. split; try done; [by apply modrm_fields_ok|..]; unfold modrm_fields; cbn [mod_ rm reg]; done.
Qed.

Lemma run_modrm_rex t o v :
  decoding i t o (md_of (i_mem i)) (rm_field (i_mem i)) (i_reg i mod 8) VM_REG_LAST VM_REG_LAST 0 0 0 0 v ->
  decoding i t o (md_of (i_mem i)) (rm_of (i_mem i)) (i_reg i) VM_REG_LAST VM_REG_LAST 0 0 0 0 (modrm_rex v).
Proof.
  intros H. pose proof (modrm_rex_ok v (dg_ok _ _ _ _ _ _ _ _ _ _ _ _ _ H)) as Hok.
  pose proof (reg_join _ (en_reg i He)) as Hr. pose proof (md_of_bound (i_mem i)) as Hm.
  pose proof (en_mem i He) as Hmem.
  destruct H as [_ Ht Hn Hs Hrx Hsg Ho Hmd Hrm Hrg Hb Hi Hsc Hd Him Hdv Hiv].
  pose proof Hrx as (R1 & R2 & R3).
  revert Hok. unfold modrm_rex. rewrite Hmd, Hrm. unfold VIE_MOD_INDIRECT, VIE_RM_DISP32, VIE_MOD_DIRECT, VIE_RM_SIB.
  destruct (i_mem i) as [b d|b ix s d|z] eqn:Em; cbn [rm_field rm_of base_num] in *.
  - destruct Hmem as (Hb4 & Hn4 & Hn5 & _). cbn [md_of] in *.
    rewrite (proj2 (Z.eqb_neq (b mod 8) 4)) by done. rewrite andb_false_r, orb_false_r.
    replace ((mod_of d =? 0) && (b mod 8 =? 5)) with false.
    2: { destruct d; cbn; try done. symmetry. apply Z.eqb_neq. by apply Hn5. }
    intros Hok. split; cbn; try done; [by rewrite Em| |by rewrite R1, Hrg].
    rewrite Hrm, R3. by apply reg_join.
  - rewrite Z.eqb_refl. replace (negb (md_of (MemSib b ix s d) =? 3)) with true.
    2: { symmetry. apply negb_true_iff, Z.eqb_neq. lia. }
    rewrite orb_true_r. intros Hok. split; cbn; try done; [by rewrite Em|by rewrite R1, Hrg].
  - cbn. intros Hok. split; cbn; try done; [by rewrite Em|by rewrite R1, Hrg].
Qed.

(** Base register and displacement size known before the SIB byte. *)
Definition has_sib (m : mem_operand) : bool := match m with MemSib _ _ _ _ => true | _ => false end.
Definition br_of (m : mem_operand) : vm_reg_name := if has_sib m then VM_REG_LAST else i_base m.
Definition db0_of (m : mem_operand) : Z := if has_sib m then 0 else db_of m.

Lemma run_modrm_base t o v : has_sib (i_mem i) = false ->
  decoding i t o (md_of (i_mem i)) (rm_of (i_mem i)) (i_reg i) VM_REG_LAST VM_REG_LAST 0 0 0 0 v ->
  decoding i t o (md_of (i_mem i)) (rm_of (i_mem i)) (i_reg i) (i_base (i_mem i)) VM_REG_LAST 0
    (db_of (i_mem i)) 0 0 (modrm_base CPU_MODE_64BIT v).
Proof.
  intros Hsib H. pose proof (modrm_base_ok CPU_MODE_64BIT v (dg_ok _ _ _ _ _ _ _ _ _ _ _ _ _ H)) as Hok.
  pose proof (en_mem i He) as Hmem.
  destruct H as [_ Ht Hn Hs Hrx Hsg Ho Hmd Hrm Hrg Hb Hi Hsc Hd Him Hdv Hiv].
  revert Hok. unfold modrm_base. change (mod_ (v <| base_register := gpr_map (rm v) |>)) with (mod_ v).
  change (rm (v <| base_register := gpr_map (rm v) |>)) with (rm v).
  rewrite bool_decide_eq_true_2 by done. rewrite Hmd, Hrm.
  destruct (i_mem i) as [b d|b ix s d|z] eqn:Em; try done; cbn [md_of rm_of i_base db_of] in *.
  - destruct Hmem as (Hb4 & Hn4 & Hn5 & _). destruct d; cbn [mod_of] in *.
    + assert ((b =? VIE_RM_DISP32) = false) as ->.
      { apply Z.eqb_neq. intros ->. by apply Hn5. }
      cbn. intros Hok. split; try done; by rewrite Em.
    + intros Hok. split; try done; by rewrite Em.
    + intros Hok. split; try done; by rewrite Em.
  - intros Hok. split; try done; by rewrite Em.
Qed.

Lemma run_modrm t o v : tst (op_flags o) VIE_OP_F_NO_MODRM = false ->
  decoding i (mem_bytes (i_reg i) (i_mem i) ++ t) o 0 0 0 VM_REG_LAST VM_REG_LAST 0 0 0 0 v ->
  wp (decode_modrm CPU_MODE_64BIT) (fun e v' => e = 0 /\
    decoding i (after_modrm (i_mem i) ++ t) o (md_of (i_mem i)) (rm_of (i_mem i)) (i_reg i)
      (br_of (i_mem i)) VM_REG_LAST 0 (db0_of (i_mem i)) 0 0 v') v.
Proof.
  intros Hf H. rewrite mem_bytes_modrm in H. cbn [app] in H. unfold decode_modrm.
  apply wp_bind, wp_gets. rewrite (dg_op _ _ _ _ _ _ _ _ _ _ _ _ _ H), Hf.
  rewrite bool_decide_eq_false_2 by done.
  eapply wp_peek_run; [by destruct H|by destruct H|]. apply wp_bind, wp_update.
  pose proof (run_modrm_fields _ _ _ (i_mem i) H) as H1. apply wp_bind, wp_gets.
  rewrite (dg_mod _ _ _ _ _ _ _ _ _ _ _ _ _ H1).
  replace (md_of (i_mem i) =? VIE_MOD_DIRECT) with false.
  2: { symmetry. apply Z.eqb_neq. pose proof (md_of_bound (i_mem i)). unfold VIE_MOD_DIRECT. lia. }
  apply wp_bind, wp_update. pose proof (run_modrm_rex _ _ _ H1) as H2. apply wp_bind, wp_gets.
  rewrite (dg_mod _ _ _ _ _ _ _ _ _ _ _ _ _ H2), (dg_rm _ _ _ _ _ _ _ _ _ _ _ _ _ H2).
  assert (Es : negb (md_of (i_mem i) =? VIE_MOD_DIRECT) && (rm_of (i_mem i) =? VIE_RM_SIB) = has_sib (i_mem i)).
  { assert (negb (md_of (i_mem i) =? VIE_MOD_DIRECT) = true) as ->.
    { apply negb_true_iff, Z.eqb_neq. pose proof (md_of_bound (i_mem i)). unfold VIE_MOD_DIRECT. lia. }
    pose proof (en_mem i He) as Hmem. destruct (i_mem i) as [b d|b ix s d|z]; try done. cbn.
    apply Z.eqb_neq. intros ->. by destruct Hmem as (_ & Hx & _). }
  rewrite Es. unfold br_of, db0_of, vie_advance. apply wp_bind, wp_when; intros Hsib.
  - apply negb_true_iff in Hsib. apply wp_update, wp_bind, wp_update, wp_ret. split; [done|].
    rewrite Hsib. eapply decoding_advance, run_modrm_base; done.
  - apply negb_false_iff in Hsib. apply wp_bind, wp_update, wp_ret. split; [done|].
    rewrite Hsib. by eapply decoding_advance.
Qed.

(** The three numbers of the SIB byte, with the REX bits. *)
Definition sib_numbers (s ix bs : Z) (v : vie) : Prop := ss v = s /\ index v = ix /\ vbase v = bs.

Lemma gpr_map_index x : x in_u 4 -> (reg_index (gpr_map x) <? reg_index VM_REG_LAST) = true.
Proof. apply (forall_below (fun x => reg_index (gpr_map x) <? reg_index VM_REG_LAST) 16). reflexivity. Qed.

Lemma scale_value s : s in_u 2 -> u8 (Z.shiftl 1 s) = 2 ^ s.
Proof.
  intros Hs. change (2 ^ 2) with 4 in Hs. rewrite Z.shiftl_1_l, u8_id; [done|].
  assert (s = 0 \/ s = 1 \/ s = 2 \/ s = 3) as [-> |[-> |[-> | ->]]] by lia; done.
Qed.

Lemma run_sib_fields t o b ix s d v : i_mem i = MemSib b ix s d ->
  decoding i t o (md_of (i_mem i)) 4 (i_reg i) VM_REG_LAST VM_REG_LAST 0 0 0 0 v ->
  let w := sib_fields (sib s (default 4 ix) (default 5 b)) v in
  decoding i t o (md_of (i_mem i)) 4 (i_reg i) VM_REG_LAST VM_REG_LAST 0 0 0 0 w /\
  sib_numbers s (default 4 ix) (default 5 b) w.
Proof.
  intros Em H w. pose proof (en_mem i He) as Hmem. rewrite Em in Hmem.
  destruct Hmem as (Hs & _ & Hix & Hb). change (2 ^ 2) with 4 in Hs.
  destruct (modrm_split s (default 4 ix) (default 5 b mod 8) Hs (mod8_bound _)) as (E1 & E2 & E3).
  rewrite <- sib_modrm in E1, E2, E3. destruct H as [Hok Ht Hn Hsz (R1 & R2 & R3)].
  destruct (sib_fields_ok (sib s (default 4 ix) (default 5 b)) v Hok) as [Hok' _].
  split; [split; try done|]. unfold sib_numbers, w, sib_fields. cbn [ss index vbase].
  cbn -[Z.land Z.shiftr Z.lor Z.shiftl]. rewrite E1, E2, E3, R2, R3, Em. split; [done|]. split.
  - destruct ix as [x|]; [|by destruct b]. exact (reg_join x (proj1 (Hix x eq_refl))).
  - destruct b as [b|]; [|by destruct ix]. exact (reg_join b (proj1 Hb)).
Qed.

Lemma run_sib_disp t o b ix s d v : i_mem i = MemSib b ix s d ->
  decoding i t o (md_of (i_mem i)) 4 (i_reg i) VM_REG_LAST VM_REG_LAST 0 0 0 0 v ->
  sib_numbers s (default 4 ix) (default 5 b) v ->
  decoding i t o (md_of (i_mem i)) 4 (i_reg i) (i_base (i_mem i)) VM_REG_LAST 0 (db_of (i_mem i)) 0 0
    (sib_base (sib_disp v)) /\ sib_numbers s (default 4 ix) (default 5 b) (sib_base (sib_disp v)).
Proof.
  intros Em H (N1 & N2 & N3). pose proof (en_mem i He) as Hmem. rewrite Em in Hmem.
  destruct Hmem as (Hs & Hd & Hix & Hb).
  destruct H as [Hok Ht Hn Hsz Hrx Hsg Ho Hmd Hrm Hrg Hbr Hi Hsc Hdb Him Hdv Hiv].
  assert (Hr : sib_range v).
  { unfold sib_range. rewrite N1, N2, N3. split; [done|].
    split; [|by destruct b as [b|]; [apply Hb|]]. destruct ix as [x|]; [by apply Hix|done]. }
  destruct (sib_disp_ok v Hok Hr) as [Hok1 Hr1]. destruct (sib_base_ok _ Hok1 Hr1) as [Hok2 _].
  rewrite Em in Hmd. assert (Hbase : forall w, mod_ w = md_of (MemSib b ix s d) -> vbase w = default 5 b ->
    sib_base w = match b with Some b => w <| base_register := gpr_map b |>
                 | None => w <| disp_bytes := 4 |> end).
  { intros w Hw Hvb. unfold sib_base. rewrite Hw, Hvb. destruct b as [b|]; [|done].
    destruct d; cbn [md_of mod_of default from_option id]; [|done..].
    replace ((b =? 5) || (b =? 13)) with false; [done|].
    symmetry. apply orb_false_iff. destruct Hb as [_ H5]. specialize (H5 eq_refl).
    split; apply Z.eqb_neq; intros ->; by apply H5. }
  assert (Hdisp : sib_disp v = match db_of (MemSib b ix s d), b with
                               | 1, _ => v <| disp_bytes := 1 |> | 4, Some _ => v <| disp_bytes := 4 |>
                               | _, _ => v end).
  { unfold sib_disp. rewrite Hmd. destruct b; [|done]. by destruct d. }
  rewrite Em in *. revert Hok2. rewrite Hdisp. destruct b as [b|].
  - destruct d; cbn [db_of md_of mod_of] in *; rewrite Hbase by done; intros Hok2;
      (split; [split; try done; by rewrite Em|done]).
  - cbn [db_of md_of mod_of] in *. rewrite Hbase by done. intros Hok2.
    split; [split; try done; by rewrite Em|done].
Qed.

Lemma run_sib_index t o b ix s d v : i_mem i = MemSib b ix s d ->
  decoding i t o (md_of (i_mem i)) 4 (i_reg i) (i_base (i_mem i)) VM_REG_LAST 0 (db_of (i_mem i)) 0 0 v ->
  sib_numbers s (default 4 ix) (default 5 b) v ->
  decoding i t o (md_of (i_mem i)) 4 (i_reg i) (i_base (i_mem i)) (i_index (i_mem i)) (i_scale (i_mem i))
    (db_of (i_mem i)) 0 0 (sib_index v).
Proof.
  intros Em H (N1 & N2 & N3). pose proof (en_mem i He) as Hmem. rewrite Em in Hmem.
  destruct Hmem as (Hs & _ & Hix & _).
  destruct H as [Hok Ht Hn Hsz Hrx Hsg Ho Hmd Hrm Hrg Hbr Hi Hsc Hdb Him Hdv Hiv].
  assert (Hidx : sib_index v = match ix with
    | Some x => v <| index_register := gpr_map x |> <| scale := 2 ^ s |> | None => v end).
  { unfold sib_index. rewrite N2. destruct ix as [x|]; cbn [default from_option id].
    - destruct (Hix x eq_refl) as [Hx H4]. apply Z.eqb_neq in H4. cbn in H4. rewrite H4. cbn [negb].
      change (index_register (v <| index_register := gpr_map x |>)) with (gpr_map x). rewrite gpr_map_index by done.
      change (ss (v <| index_register := gpr_map x |>)) with (ss v). by rewrite N1, scale_value.
    - cbn [Z.eqb Pos.eqb negb]. by rewrite Hi. }
  rewrite Em in Hmd, Hbr, Hdb. rewrite Hidx, Em. destruct ix as [x|]; [|by split].
  destruct (Hix x eq_refl) as [Hx _]. split; try done.
  destruct Hok. split; try done; [|by apply list_elem_of_further, gpr_map_in]. unfold size_in.
  change (scale (v <| index_register := gpr_map x |> <| scale := 2 ^ s |>)) with (2 ^ s).
  change (2 ^ 2) with 4 in Hs.
  assert (s = 0 \/ s = 1 \/ s = 2 \/ s = 3) as [-> |[-> |[-> | ->]]] by lia; cbn; member.
Qed.

(** The SIB byte: number fields, then displacement, base, index. *)
Lemma run_sib t o v :
  decoding i (after_modrm (i_mem i) ++ t) o (md_of (i_mem i)) (rm_of (i_mem i)) (i_reg i)
    (br_of (i_mem i)) VM_REG_LAST 0 (db0_of (i_mem i)) 0 0 v ->
  wp decode_sib (fun e v' => e = 0 /\
    decoding i (match i_mem i with Mem _ d | MemSib _ _ _ d => disp_bytes_of d
                | MemRip z => le_split 4 z end ++ t) o (md_of (i_mem i)) (rm_of (i_mem i)) (i_reg i)
      (i_base (i_mem i)) (i_index (i_mem i)) (i_scale (i_mem i)) (db_of (i_mem i)) 0 0 v') v.
Proof.
  intros H. unfold decode_sib. apply wp_bind, wp_gets.
  rewrite (dg_mod _ _ _ _ _ _ _ _ _ _ _ _ _ H), (dg_rm _ _ _ _ _ _ _ _ _ _ _ _ _ H).
  assert (Es : (md_of (i_mem i) =? VIE_MOD_DIRECT) || negb (rm_of (i_mem i) =? VIE_RM_SIB) = negb (has_sib (i_mem i))).
  { assert ((md_of (i_mem i) =? VIE_MOD_DIRECT) = false) as ->.
    { apply Z.eqb_neq. pose proof (md_of_bound (i_mem i)). unfold VIE_MOD_DIRECT. lia. }
    pose proof (en_mem i He) as Hmem. destruct (i_mem i) as [b d|b ix s d|z]; try done. cbn.
    apply negb_true_iff, Z.eqb_neq. intros ->. by destruct Hmem as (_ & Hx & _). }
  rewrite Es. pose proof (en_mem i He) as Hmem.
  destruct (i_mem i) as [b d|b ix s d|z] eqn:Em; cbn [has_sib negb]; [by apply wp_ret| |by apply wp_ret].
  unfold br_of, db0_of, after_modrm in H. cbn [has_sib] in H.
  assert (Hsplit : tail (mem_bytes (i_reg i) (MemSib b ix s d)) =
    sib s (default 4 ix) (default 5 b) :: disp_bytes_of d).
  { by destruct b. }
  rewrite Hsplit in H. cbn [app] in H.
  eapply wp_peek_run; [by destruct H|by destruct H|].
  apply wp_bind, wp_update, wp_bind, wp_update, wp_bind, wp_update, wp_bind, wp_update.
  rewrite <- Em in H. replace (rm_of (i_mem i)) with 4 in H by (by rewrite Em).
  destruct (run_sib_fields _ _ _ _ _ _ _ Em H) as [H1 N1].
  destruct (run_sib_disp _ _ _ _ _ _ _ Em H1 N1) as [H2 N2].
  unfold vie_advance. apply wp_bind, wp_update, wp_ret. split; [done|].
  change (rm_of (MemSib b ix s d)) with 4. rewrite <- Em.
  eapply decoding_advance. by apply (run_sib_index _ _ b ix s d).
Qed.

Definition disp_list (m : mem_operand) : list Z :=
  match m with Mem _ d | MemSib _ _ _ d => disp_bytes_of d | MemRip z => le_split 4 z end.

(** The displacement bytes are those of the displacement the sizes name. *)
Lemma disp_list_spec m : ok_mem m ->
  (db_of m = 0 /\ disp_list m = [] /\ i_disp m = 0) \/
  exists n, (0 < n)%nat /\ db_of m = Z.of_nat n /\ disp_list m = le_split n (i_disp m) /\
    signed (8 * Z.of_nat n) (i_disp m) /\ (n = 1 \/ n = 4)%nat.
Proof.
  assert (Hd : forall d, ok_disp d -> d = NoDisp \/ (exists n, (0 < n)%nat /\
    match d with NoDisp => 0 | Disp8 _ => 1 | Disp32 _ => 4 end = Z.of_nat n /\
    disp_bytes_of d = le_split n (disp_value d) /\ signed (8 * Z.of_nat n) (disp_value d) /\
    (n = 1 \/ n = 4)%nat)).
  { intros [|z|z] Hz; [by left|right; exists 1%nat|right; exists 4%nat]; cbn in *; auto 10 with lia. }
  destruct m as [b d|[b|] ix s d|z]; cbn [ok_mem db_of disp_list i_disp].
  - intros (_ & _ & _ & Hz). destruct (Hd d Hz) as [->|H]; [by left|by right].
  - intros (_ & Hz & _). destruct (Hd d Hz) as [->|H]; [by left|by right].
  - intros (_ & Hz & _ & [z ->]). right. exists 4%nat. cbn in *. auto 10 with lia.
  - intros Hz. right. exists 4%nat. auto 10 with lia.
Qed.

Lemma run_displacement t o md rmv rg br ir sc v :
  decoding i (disp_list (i_mem i) ++ t) o md rmv rg br ir sc (db_of (i_mem i)) 0 0 v ->
  wp decode_displacement (fun e v' => e = 0 /\
    decoding i t o md rmv rg br ir sc (db_of (i_mem i)) (i_disp (i_mem i)) 0 v') v.
Proof.
  intros H. unfold decode_displacement. apply wp_bind, wp_gets.
  rewrite (dg_disp _ _ _ _ _ _ _ _ _ _ _ _ _ H).
  destruct (disp_list_spec _ (en_mem i He)) as [(E & El & Ed)|(n & Hn & E & El & Hs & Hn14)];
    rewrite ?E in *; rewrite El in H.
  - rewrite Ed. by apply wp_ret.
  - replace (Z.of_nat n =? 0) with false by (symmetry; apply Z.eqb_neq; lia).
    apply wp_bind, wp_KASSERT; [destruct Hn14 as [->| ->]; done|]. rewrite Nat2Z.id.
    destruct H. eapply wp_read_run; [done|done|by apply length_le_split|].
    intros p Hok Ht. rewrite (signed_roundtrip n) by done.
    apply wp_bind, wp_update, wp_ret. split; [done|]. split; try done.
    destruct Hok. split; try done. change (- 2 ^ 63 <= i_disp (i_mem i) < 2 ^ 63).
    unfold signed in Hs. pose proof (Z.pow_le_mono_r 2 (8 * Z.of_nat n - 1) 63 ltac:(lia) ltac:(lia)). lia.
Qed.

(** What a correct decoding of [i] leaves in [vie]. *)
Record decoded_as (v : vie) : Prop := {
  da_op : op v = op_of (i_code i);
  da_length : num_processed v = Z.of_nat (length (encode i));
  da_opsize : opsize v = i_opsize i;
  da_addrsize : addrsize v = i_addrsize i;
  da_reg : reg v = i_reg i;
  da_base : base_register v = i_base (i_mem i);
  da_index : index_register v = i_index (i_mem i);
  da_scale : scale v = i_scale (i_mem i);
  da_displacement : displacement v = i_disp (i_mem i);
  da_immediate : immediate v = i_imm i;
  da_segment : segment_register v = seg_of i;
}.

Lemma imm_bytes_value v : op v = op_of (i_code i) -> opsize v = i_opsize i -> imm_bytes v = 0 ->
  imm_bytes (immediate_size v) = Z.of_nat (imm_size i).
Proof.
  intros Ho Hz Hi. unfold immediate_size, imm_size. rewrite Ho, Hz. unfold i_opsize.
  destruct (tst _ VIE_OP_F_IMM); [by destruct (i_wide i), (i_data16 i)|].
  by destruct (tst _ VIE_OP_F_IMM8).
Qed.

Lemma imm_size_cases : (imm_size i = 0 \/ imm_size i = 1 \/ imm_size i = 2 \/ imm_size i = 4)%nat.
Proof. unfold imm_size. repeat case_match; auto. Qed.

Lemma run_immediate v :
  decoding i (le_split (imm_size i) (i_imm i)) (op_of (i_code i)) (md_of (i_mem i)) (rm_of (i_mem i))
    (i_reg i) (i_base (i_mem i)) (i_index (i_mem i)) (i_scale (i_mem i)) (db_of (i_mem i))
    (i_disp (i_mem i)) 0 v ->
  wp decode_immediate (fun e v' => e = 0 /\ decoded_as v' /\ num_valid v' = Z.of_nat (length (encode i))) v.
Proof.
  intros H. unfold decode_immediate. apply wp_bind, wp_update, wp_bind, wp_gets.
  destruct H as [Hok Ht Hn (Hs1 & Hs2) Hrx Hsg Ho Hmd Hrm Hrg Hbr Hi Hsc Hdb Him Hdv Hiv].
  pose proof (imm_bytes_value v Ho Hs2 Him) as Hib.
  assert (Hsame : exists k, immediate_size v = v <| imm_bytes := k |> /\ size_in [0; 1; 2; 4] k).
  { unfold immediate_size, size_in. destruct v; cbn. repeat split_if; eexists; (split; [reflexivity|]);
      cbn in *; subst; member. }
  destruct Hsame as (k & Hsame & Hk). rewrite Hsame in *. change (k = Z.of_nat (imm_size i)) in Hib.
  subst k. change (imm_bytes (v <| imm_bytes := Z.of_nat (imm_size i) |>)) with (Z.of_nat (imm_size i)).
  pose proof (en_imm i He) as Hv. clear Hsame.
  assert (Hok1 : vie_ok (v <| imm_bytes := Z.of_nat (imm_size i) |>)) by (destruct Hok; by split).
  assert (Hfin : forall w iv, vie_ok w -> todo w = [] -> num_valid w = num_valid v -> iv = i_imm i ->
    (exists p, w = v <| imm_bytes := Z.of_nat (imm_size i) |> <| num_processed := p |>) ->
    0 = 0 /\ decoded_as (w <| immediate := iv |>) /\
    num_valid (w <| immediate := iv |>) = Z.of_nat (length (encode i))).
  { intros w iv Hw Htw Hnw Hiw [p Ew]. pose proof (length_todo w Hw) as Hl. rewrite Htw in Hl. cbn in Hl.
    split; [done|]. destruct Hw. split; [|cbn; congruence].
    subst w. split; try done. change (num_processed (v <| imm_bytes := Z.of_nat (imm_size i) |>
      <| num_processed := p |>) = Z.of_nat (length (encode i))). lia. }
  destruct (Nat.eqb_spec (imm_size i) 0) as [E|E].
  - rewrite E in *. cbn [Z.of_nat Z.eqb]. apply wp_ret.
    specialize (Hfin (v <| imm_bytes := 0 |>) 0 Hok1 Ht eq_refl (eq_sym Hv)
      (ex_intro _ (num_processed v) eq_refl)).
    destruct Hfin as (_ & Hd & Hnv). split; [done|]. split; [|done]. destruct Hd.
    split; try done. change (immediate v = i_imm i). by rewrite Hiv, Hv.
  - replace (Z.of_nat (imm_size i) =? 0) with false by (symmetry; apply Z.eqb_neq; lia).
    apply wp_bind, wp_KASSERT; [by destruct imm_size_cases as [?|[->|[->| ->]]]|].
    rewrite Nat2Z.id.
    eapply (wp_read_run _ _ _ _ _ []); [done|by rewrite app_nil_r|by apply length_le_split|].
    intros p Hokp Htp. rewrite (signed_roundtrip (imm_size i)) by (try done; lia).
    apply wp_bind, wp_update, wp_ret. apply Hfin; try done. by exists p.
Qed.
End Stages.

(** ** The linear address *)

Lemma u64_mod_pow k x : 0 <= k <= 64 -> u64 x mod 2 ^ k = x mod 2 ^ k.
Proof.
  intros Hk. unfold u64. apply Z.mod_mod_divide.
  exists (2 ^ (64 - k)). rewrite <- Z.pow_add_r by lia. f_equal. lia.
Qed.

Lemma address_mod k x y d : 0 <= k <= 64 ->
  u64 (u64 x + y + u64 d) mod 2 ^ k = (x + y + d) mod 2 ^ k.
Proof.
  intros Hk. rewrite u64_mod_pow by done.
  rewrite Z.add_mod, (Z.add_mod (u64 x) y) by (apply Z.pow_nonzero; lia).
  rewrite !u64_mod_pow by done. rewrite <- (Z.add_mod x y), <- Z.add_mod by (apply Z.pow_nonzero; lia). done.
Qed.

Lemma gpr_map_real b : b in_u 4 -> gpr_map b <> VM_REG_LAST /\ gpr_map b <> VM_REG_GUEST_RIP.
Proof.
  intros Hb. pose proof (gpr_map_in b Hb) as H.
  split; intros E; rewrite E in H; unfold gpr_table in H; by cases_in H.
Qed.

Lemma verify_gla_effective value i v gla : encodable i -> (forall r, value r in_u 64) ->
  decoded_as i v -> num_valid v = Z.of_nat (length (encode i)) ->
  verify_gla (fun r => (0, value r)) gla v =
    if (gla =? VIE_INVALID_GLA) || (gla =? effective value i) then 0 else -1.
Proof.
  intros He Hval Hd Hn. unfold verify_gla. destruct (gla =? VIE_INVALID_GLA) eqn:Eg; [done|]. cbn [orb].
  pose proof (en_mem i He) as Hmem.
  assert (Hb : exists x, verify_base (fun r => (0, value r)) v = Some (u64 x) /\
    x = match i_mem i with
        | Mem b _ | MemSib (Some b) _ _ _ => value (gpr_map b)
        | MemSib None _ _ _ => 0
        | MemRip _ => value VM_REG_GUEST_RIP + Z.of_nat (length (encode i)) end).
  { unfold verify_base. rewrite (da_base _ _ Hd), Hn. eexists. split; [|reflexivity].
    destruct (i_mem i) as [b d|[b|] ix s d|z]; cbn [i_base ok_mem] in *.
    - destruct (gpr_map_real b) as [H1 H2]; [by apply Hmem|].
      rewrite !bool_decide_eq_false_2 by done. cbn. by rewrite u64_id.
    - destruct (gpr_map_real b) as [H1 H2]; [by destruct Hmem as (_ & _ & _ & ? & _)|].
      rewrite !bool_decide_eq_false_2 by done. cbn. by rewrite u64_id.
    - done.
    - done. }
  destruct Hb as (x & Hb & Hx). rewrite Hb. clear Hb.
  assert (Hi : exists y, verify_index (fun r => (0, value r)) v = Some y /\ scale v * y =
    match i_mem i with MemSib _ (Some x) s _ => 2 ^ s * value (gpr_map x) | _ => 0 end).
  { unfold verify_index. rewrite (da_index _ _ Hd), (da_scale _ _ Hd).
    destruct (i_mem i) as [b d|b [ix|] s d|z]; cbn [i_index i_scale ok_mem] in *;
      try (exists 0; by rewrite bool_decide_eq_true_2).
    destruct Hmem as (_ & _ & Hix & _). destruct (gpr_map_real ix) as [H1 H2]; [by apply Hix|].
    rewrite bool_decide_eq_false_2 by done. cbn. by eexists. }
  destruct Hi as (y & Hi & Hy). rewrite Hi, Hy, (da_displacement _ _ Hd), (da_addrsize _ _ Hd).
  assert (Hmask : forall z, Z.land z (size2mask (i_addrsize i)) = z mod 2 ^ (8 * i_addrsize i)).
  { intros z. unfold i_addrsize. destruct (i_addr32 i); by rewrite <- Z.land_ones. }
  rewrite Hmask, address_mod by (unfold i_addrsize; destruct (i_addr32 i); lia).
  unfold effective. cbv zeta. rewrite <- Hx.
  by match goal with |- (if negb ?a then _ else _) = _ => destruct a end.
Qed.

(** ** The round trip *)

Lemma code_facts c : ok_code c -> tst (op_flags (op_of c)) VIE_OP_F_MOFFSET = false /\
  tst (op_flags (op_of c)) VIE_OP_F_NO_GLA_VERIFICATION = false /\
  match c with OneByte _ => True | TwoByte _ => tst (op_flags (op_of c)) VIE_OP_F_IMM = false end.
Proof.
  intros (Hx & Hn & Ht & Hm).
  destruct c as [x|x]; cbn [op_of] in *; [unfold one_byte_opcodes in *|unfold two_byte_opcodes in *];
    destruct x as [|p|p]; try done; repeat (destruct p as [p|p|]; try done).
Qed.

Lemma encode_fits i : encodable i -> (1 <= length (encode i) <= 15)%nat.
Proof.
  intros He. unfold encode. rewrite !length_app, length_le_split.
  assert (H1 : (length (prefixes i) <= 3)%nat).
  { unfold prefixes. rewrite !length_app. destruct (i_data16 i), (i_addr32 i), (i_seg i); cbn; lia. }
  assert (H2 : (length (rex_bytes i) <= 1)%nat) by (unfold rex_bytes; split_if; cbn; lia).
  assert (H3 : (length (mem_bytes (i_reg i) (i_mem i)) <= 6)%nat).
  { assert (Hd : forall d, (length (disp_bytes_of d) <= 4)%nat) by (intros []; cbn; lia).
    destruct (i_mem i) as [b d|[b|] ix s d|z]; cbn; try pose proof (Hd d); lia. }
  destruct (code_facts _ (en_code i He)) as (_ & _ & Hc).
  assert (H4 : (1 <= length (code_bytes (i_code i)) /\ length (code_bytes (i_code i)) + imm_size i <= 5)%nat).
  { unfold imm_size. destruct (i_code i); cbn [code_bytes length]; [|rewrite Hc]; repeat split_if; lia. }
  lia.
Qed.

Lemma encode_bytes i : encodable i -> Forall (fun b => b in_u 8) (encode i).
Proof.
  intros He. unfold encode. pose proof (mem_nums _ (en_mem i He)) as [Hb Hi].
  apply Forall_app_2; [|apply Forall_app_2; [|apply Forall_app_2; [|apply Forall_app_2]]].
  - apply (Forall_impl (fun p => p ∈ [0x66; 0x67; 0x2E; 0x36; 0x3E; 0x26; 0x64; 0x65])); [by apply prefixes_known|].
    intros p Hp. by cases_in Hp; subst p.
  - unfold rex_bytes. split_if; [|done]. constructor; [|done]. rewrite rex_byte_bits by done.
    destruct (i_wide i), (i_reg i / 8 =? 1), (index_num (i_mem i) / 8 =? 1), (base_num (i_mem i) / 8 =? 1); done.
  - destruct (en_code i He) as [Hc _]. 
    destruct (i_code i); cbn; apply Forall_cons; (split; [done|]); [done|by apply Forall_singleton].
  - assert (Hd : forall d, Forall (fun b => b in_u 8) (disp_bytes_of d)).
    { intros []; cbn; [done|apply (le_split_bytes 1)|apply (le_split_bytes 4)]. }
    rewrite mem_bytes_modrm. constructor.
    { apply modrm_in_u; [pose proof (md_of_bound (i_mem i)); lia|apply rm_field_bound]. }
    unfold after_modrm. pose proof (en_mem i He) as Hm.
    destruct (i_mem i) as [b d|[b|] ix s d|z]; cbn [mem_bytes tail]; try apply Hd; [| |apply (le_split_bytes 4)].
    + constructor; [|by apply Hd]. apply modrm_in_u; [by destruct Hm|apply mod8_bound].
    + constructor; [|by apply Hd]. apply modrm_in_u; [by destruct Hm|apply mod8_bound].
  - apply le_split_bytes.
Qed.

Lemma init_prefixed i v0 : encodable i ->
  wp (vie_init (encode i) (Z.of_nat (length (encode i))))
     (fun _ v => prefixed (Z.of_nat (length (encode i))) (encode i) false false VM_REG_LAST v) v0.
Proof.
  intros He. pose proof (encode_fits i He) as Hl.
  pose proof (vie_init_ok (encode i) (Z.of_nat (length (encode i))) v0 ltac:(lia) eq_refl (encode_bytes i He)) as H.
  destruct (wp_elim _ _ _ H) as (u & v & Hrun & Hok & _ & Hn & Hp & Ht). unfold wp. rewrite Hrun.
  revert Hrun. unfold vie_init, bind, KASSERT, update, when.
  replace (Z.of_nat (length (encode i)) =? 0) with false by (symmetry; apply Z.eqb_neq; lia).
  destruct (_ && _); [|done]. cbn [negb]. intros E. injection E as _ E.
  assert (Htodo : todo v = encode i) by (unfold todo; by rewrite Hn, Hp, Z.sub_0_r).
  rewrite <- E in *. by split.
Qed.

(** C9: Assembling an instruction and decoding it gives the instruction back:
    for every opcode, register, addressing form (base, scaled index, 8 or 32
    bit displacement, RIP-relative), prefix and immediate, in 64-bit mode, the
    decoder consumes exactly the encoded bytes and recovers operand and
    address size, registers, scale, displacement and immediate.  It accepts
    the instruction exactly when the linear address reported by the hardware
    is the address the instruction accesses (or none was reported). *)
Theorem decode_encode i d gla value v0 (He : encodable i) (Hval : forall r, value r in_u 64) :
  exists e v', (vie_init (encode i) (Z.of_nat (length (encode i))) ;;;
      vmm_decode_instruction (fun r => (0, value r)) gla CPU_MODE_64BIT d) v0 = Return (e, v') /\
    decoded_as i v' /\
    e = if (gla =? VIE_INVALID_GLA) || (gla =? effective value i) then 0 else -1.
Proof.
  apply wp_elim, wp_bind. eapply wp_conseq; [by apply init_prefixed|]. cbn beta. intros _ v H.
  pose proof (encode_fits i He) as Hl. destruct (code_facts _ (en_code i He)) as (Hmo & Hng & _).
  unfold vmm_decode_instruction, or_fail.
  apply wp_bind. eapply wp_conseq; [by apply run_prefixes|]. cbn beta. intros e1 v1 [-> H1]. cbn [Z.eqb].
  apply wp_bind. eapply wp_conseq; [by apply run_opcode|]. cbn beta. intros e2 v2 [-> H2]. cbn [Z.eqb].
  apply wp_bind. eapply wp_conseq; [apply run_modrm; [done|apply (en_code i He)|exact H2]|].
  cbn beta. intros e3 v3 [-> H3]. cbn [Z.eqb].
  apply wp_bind. eapply wp_conseq; [by apply run_sib|]. cbn beta. intros e4 v4 [-> H4]. cbn [Z.eqb].
  apply wp_bind. eapply wp_conseq; [by apply run_displacement|]. cbn beta. intros e5 v5 [-> H5]. cbn [Z.eqb].
  apply wp_bind. eapply wp_conseq; [by apply run_immediate|]. cbn beta. intros e6 v6 (-> & H6 & Hn6). cbn [Z.eqb].
  apply wp_bind. unfold decode_moffset. apply wp_bind, wp_gets. rewrite (da_op _ _ H6), Hmo. apply wp_ret.
  cbn [Z.eqb]. apply wp_bind. unfold verify_inst_length. apply wp_gets. rewrite (da_length _ _ H6).
  replace (Z.of_nat (length (encode i)) =? 0) with false by (symmetry; apply Z.eqb_neq; lia).
  cbn [negb Z.eqb]. apply wp_bind, wp_gets. rewrite (da_op _ _ H6), Hng. apply wp_bind, wp_gets. cbn [negb].
  rewrite (verify_gla_effective value i v6 gla He Hval H6 Hn6).
  destruct ((gla =? VIE_INVALID_GLA) || (gla =? effective value i)); cbn [Z.eqb negb].
  - apply wp_bind, wp_update, wp_ret. split; [|done]. destruct H6. by split.
  - by apply wp_ret.
Qed.

(** [movzbl -4(%r13,%rbx,4), %r9d] with the address-size prefix. *)
Definition example_insn : insn :=
  mk_insn false true None false false (TwoByte 0xB6) 9 (MemSib (Some 13) (Some 3) 2 (Disp8 (-4))) 0.

Example example_bytes : encode example_insn = [0x67; 0x45; 0x0F; 0xB6; 0x4C; 0x9D; 0xFC].
Proof. reflexivity. Qed.

Lemma decode_encode_witness : exists e v',
  (vie_init (encode example_insn) (Z.of_nat (length (encode example_insn))) ;;;
   vmm_decode_instruction (fun r => (0, 0x1000)) 0x4FFC CPU_MODE_64BIT false) vie_zero = Return (e, v') /\
  decoded_as example_insn v' /\ e = 0.
Proof.
  apply (decode_encode example_insn false 0x4FFC (fun _ => 0x1000) vie_zero); [|lia].
  assert (Hu : forall x w, ((0 <=? x) && (x <? 2 ^ w)) = true -> x in_u w) by (intros; bools; lia).
  split; [|by apply Hu| |reflexivity|discriminate].
  - split; [by apply Hu|]. split; [discriminate|]. split; [discriminate|reflexivity].
  - split; [by apply Hu|]. split; [unfold ok_disp, signed; lia|].
    split; [intros x [= <-]; split; [by apply Hu|lia]|]. split; [by apply Hu|discriminate].
Defined.
