(* ===== verification/Vmm.v ===== *)
(** * The virtual machine monitor core (src/src/vmm/vmm.c)

    [struct vm] with its virtual CPUs and memory segments, register access,
    the state machine of a virtual CPU, suspension, and the injection of
    exceptions, non-maskable and external interrupts.  The processor back end
    ([struct vmm_ops]) is the class [VmmOps] on the type [X] of its per-machine
    data ([vm->cookie]); [D] is the state of the devices, which this part only
    carries.  A host pointer into guest memory is an allocation and an offset.
    Calls that wake or interrupt a virtual CPU are recorded in [notices]. *)

From S2P Require Import Prelude Effects VmmCommon.

Local Open Scope cmd_scope.

Definition EBUSY : Z := 16.
Definition E2BIG : Z := 7.
Definition ENOMEM : Z := 12.
Definition EFAULT : Z := 14.
Definition EALREADY : Z := 37.

Definition VM_MAX_MEMORY_SEGMENTS : Z := 2.

Definition VM_INTINFO_DEL_ERRCODE : Z := 0x800.
Definition VM_INTINFO_RSVD : Z := 0x7ffff000.
Definition VM_INTINFO_VALID : Z := 0x80000000.
Definition VM_INTINFO_TYPE : Z := 0x700.
Definition VM_INTINFO_HWINTR : Z := Z.shiftl 0 8.
Definition VM_INTINFO_NMI : Z := Z.shiftl 2 8.
Definition VM_INTINFO_HWEXCEPTION : Z := Z.shiftl 3 8.
Definition VM_INTINFO_SWINTR : Z := Z.shiftl 4 8.

Definition IDT_DE : Z := 0.
Definition IDT_NMI : Z := 2.
Definition IDT_UD : Z := 6.
Definition IDT_DF : Z := 8.
Definition IDT_TS : Z := 10.
Definition IDT_NP : Z := 11.
Definition IDT_SS : Z := 12.
Definition IDT_GP : Z := 13.
Definition IDT_PF : Z := 14.
Definition IDT_AC : Z := 17.
Definition IDT_VE : Z := 20.

Inductive vcpu_state : Type := VCPU_IDLE | VCPU_FROZEN | VCPU_RUNNING | VCPU_SLEEPING.

#[export] Instance vcpu_state_eq_dec : EqDecision vcpu_state.
Proof. solve_decision. Defined.

Record vcpu : Type := mk_vcpu {
  state : vcpu_state;
  exitintinfo : Z;
  nmi_pending : bool;
  extint_pending : bool;
  exception_pending : bool;
  exc_vector : Z;
  exc_errcode_valid : bool;
  exc_errcode : Z;
  exit_rip : Z;
  inst_length : Z;
  nextrip : Z;
}.

#[export] Instance eta_vcpu : Eta vcpu := fun v =>
  mk_vcpu (state v) (exitintinfo v) (nmi_pending v) (extint_pending v) (exception_pending v)
    (exc_vector v) (exc_errcode_valid v) (exc_errcode v) (exit_rip v) (inst_length v) (nextrip v).

Definition vcpu0 : vcpu := mk_vcpu VCPU_IDLE 0 false false false 0 false 0 0 0 0.

(** [object] is [None] for a null pointer, else the number of the allocation. *)
Record mem_seg : Type := mk_seg { seg_gpa : Z; seg_len : Z; seg_object : option Z }.

(** A host address: allocation and offset (an offset may be out of range). *)
Definition hva : Type := Z * Z.

Inductive notice : Type := Interrupted (vcpu : Z) | Woken (vcpu : Z).

Record vm (X D : Type) : Type := mk_vm {
  cookie : X;
  devices : D;
  active_cpus : Z;
  suspend : vm_suspend_how;
  suspended_cpus : Z;
  mem_segs : list mem_seg;
  next_object : Z;
  host_mem : hva -> Z;
  vcpus : list vcpu;
  notices : list notice;
}.
Arguments mk_vm {X D}.
Arguments cookie {X D}.
Arguments devices {X D}.
Arguments active_cpus {X D}.
Arguments suspend {X D}.
Arguments suspended_cpus {X D}.
Arguments mem_segs {X D}.
Arguments next_object {X D}.
Arguments host_mem {X D}.
Arguments vcpus {X D}.
Arguments notices {X D}.

#[export] Instance eta_vm {X D} : Eta (vm X D) := fun s =>
  mk_vm (cookie s) (devices s) (active_cpus s) (suspend s) (suspended_cpus s) (mem_segs s)
    (next_object s) (host_mem s) (vcpus s) (notices s).

(** [struct vmm_ops], the operations used here. *)
Class VmmOps (X : Type) := {
  vmgetreg : Z -> vm_reg_name -> X -> Z * Z;
  vmsetreg : Z -> vm_reg_name -> Z -> X -> Z * X;
  vmgetdesc : Z -> vm_reg_name -> X -> Z * seg_desc;
  vmsetdesc : Z -> vm_reg_name -> seg_desc -> X -> Z * X;
}.

(** The registers that are plain storage: what is written is read back. *)
Definition plain_reg (r : vm_reg_name) : bool :=
  match r with
  | VM_REG_GUEST_RAX | VM_REG_GUEST_RBX | VM_REG_GUEST_RCX | VM_REG_GUEST_RDX | VM_REG_GUEST_RSI
  | VM_REG_GUEST_RDI | VM_REG_GUEST_RBP | VM_REG_GUEST_R8 | VM_REG_GUEST_R9 | VM_REG_GUEST_R10
  | VM_REG_GUEST_R11 | VM_REG_GUEST_R12 | VM_REG_GUEST_R13 | VM_REG_GUEST_R14 | VM_REG_GUEST_R15
  | VM_REG_GUEST_RSP | VM_REG_GUEST_RIP | VM_REG_GUEST_RFLAGS | VM_REG_GUEST_CR2 => true
  | _ => false
  end.

Definition is_vcpu (i : Z) : Prop := 0 <= i < VM_MAXCPU.

(** What the monitor relies on: on a virtual CPU of the machine a register can
    be read, a plain register and the interrupt shadow can be set, setting one
    register changes no other, and segment descriptors are independent of
    registers. *)
Class VmmLaws (X : Type) `{!VmmOps X} := {
  getreg_ok i r x : is_vcpu i -> r <> VM_REG_LAST -> (vmgetreg i r x).1 = 0;
  getreg_range i r x : (vmgetreg i r x).2 in_u 64;
  setreg_ok i r v x : is_vcpu i -> plain_reg r = true -> (vmsetreg i r v x).1 = 0;
  set_shadow_ok i x : is_vcpu i -> (vmsetreg i VM_REG_GUEST_INTR_SHADOW 0 x).1 = 0;
  get_set i r v x : is_vcpu i -> plain_reg r = true -> v in_u 64 ->
    (vmgetreg i r (vmsetreg i r v x).2).2 = v;
  get_set_ne i j r q v x : is_vcpu i -> is_vcpu j -> (i, r) <> (j, q) ->
    vmgetreg j q (vmsetreg i r v x).2 = vmgetreg j q x;
  getdesc_ok i r x : is_vcpu i -> (vmgetdesc i r x).1 = 0;
  desc_set i j r q v x : vmgetdesc j q (vmsetreg i r v x).2 = vmgetdesc j q x;
}.

(** ** Operations *)
Section Operations.
Context {X D : Type} `{!VmmOps X}.
Local Abbreviation M := (vm X D).

Definition get_vcpu (i : Z) (s : M) : vcpu := nth (Z.to_nat i) (vcpus s) vcpu0.
Definition on_vcpu (i : Z) (f : vcpu -> vcpu) : cmd M unit :=
  update (fun s => s <| vcpus ::= alter f (Z.to_nat i) |>).

Definition bad_vcpuid (i : Z) : bool := (i <? 0) || (VM_MAXCPU <=? i).

(** *** Guest memory *)

Definition vm_mem_allocated (gpa : Z) (s : M) : bool :=
  existsb (fun seg => (seg_gpa seg <=? gpa) && (gpa <? u64 (seg_gpa seg + seg_len seg))) (mem_segs s).

(** The loop [while (g < gpa + len)] counts allocated and available pages. *)
Fixpoint count_pages (fuel : nat) (g limit : Z) (s : M) (allocated available : Z) : option (Z * Z) :=
  match fuel with
  | O => None
  | S fuel =>
      if g <? limit then
        if vm_mem_allocated g s then count_pages fuel (u64 (g + XHYVE_PAGE_SIZE)) limit s (allocated + 1) available
        else count_pages fuel (u64 (g + XHYVE_PAGE_SIZE)) limit s allocated (available + 1)
      else Some (allocated, available)
  end.

(** [mapped] is the success of [valloc] and [hv_vm_map] in [vmm_mem_alloc]. *)
Definition vmm_mem_alloc (mapped : bool) : cmd M Z :=
  KASSERT mapped ;;; o <- gets next_object ;; update (fun s => s <| next_object := o + 1 |>) ;;; ret o.

Definition vm_malloc (mapped : bool) (gpa len : Z) : cmd M Z :=
  if tst gpa XHYVE_PAGE_MASK || tst len XHYVE_PAGE_MASK || (len =? 0) then ret EINVAL else
  c <- gets (fun s => count_pages (S (Z.to_nat (len / XHYVE_PAGE_SIZE))) gpa (u64 (gpa + len)) s 0 0) ;;
  match c with
  | None => fun _ => Hang
  | Some (allocated, available) =>
      if negb (allocated =? 0) && negb (available =? 0) then ret EINVAL
      else if negb (allocated =? 0) && (available =? 0) then ret 0
      else
        n <- gets (fun s => Z.of_nat (length (mem_segs s))) ;;
        if VM_MAX_MEMORY_SEGMENTS <=? n then ret E2BIG
        else
          o <- vmm_mem_alloc mapped ;;
          update (fun s => s <| mem_segs ::= fun l => l ++ [mk_seg gpa len (Some o)] |>) ;;; ret 0
  end.

(** The first segment that has an object and contains the range. *)
Definition vm_get_memobj (gpa len : Z) (s : M) : option hva :=
  match List.find (fun seg => match seg_object seg with
           | None => false
           | Some _ => (seg_gpa seg <=? gpa) && (u64 (gpa + len) <=? u64 (seg_gpa seg + seg_len seg))
           end) (mem_segs s) with
  | Some seg => match seg_object seg with Some o => Some (o, u64 (gpa - seg_gpa seg)) | None => None end
  | None => None
  end.

Definition vm_gpa2hva (gpa len : Z) (s : M) : option hva := vm_get_memobj gpa len s.

Definition vm_gpabase2memseg (gpabase : Z) (s : M) : option (Z * Z) :=
  match List.find (fun seg => gpabase =? seg_gpa seg) (mem_segs s) with
  | Some seg => Some (seg_gpa seg, seg_len seg)
  | None => None
  end.

(** *** Registers *)

Definition vm_get_register (vcpuid : Z) (reg : vm_reg_name) : cmd M (Z * Z) :=
  if bad_vcpuid vcpuid then ret (EINVAL, 0) else
  if reg_index VM_REG_LAST <=? reg_index reg then ret (EINVAL, 0) else
  gets (fun s => vmgetreg vcpuid reg (cookie s)).

Definition vm_set_register (vcpuid : Z) (reg : vm_reg_name) (val : Z) : cmd M Z :=
  if bad_vcpuid vcpuid then ret EINVAL else
  if reg_index VM_REG_LAST <=? reg_index reg then ret EINVAL else
  r <- gets (fun s => vmsetreg vcpuid reg val (cookie s)) ;;
  update (fun s => s <| cookie := r.2 |>) ;;;
  if negb (r.1 =? 0) || negb (bool_decide (reg = VM_REG_GUEST_RIP)) then ret r.1 else
  on_vcpu vcpuid (fun v => v <| nextrip := val |>) ;;; ret 0.

Definition is_descriptor_table (reg : vm_reg_name) : bool :=
  match reg with VM_REG_GUEST_IDTR | VM_REG_GUEST_GDTR => true | _ => false end.

Definition is_segment_register (reg : vm_reg_name) : bool :=
  match reg with
  | VM_REG_GUEST_ES | VM_REG_GUEST_CS | VM_REG_GUEST_SS | VM_REG_GUEST_DS | VM_REG_GUEST_FS
  | VM_REG_GUEST_GS | VM_REG_GUEST_TR | VM_REG_GUEST_LDTR => true
  | _ => false
  end.

Definition no_desc : seg_desc := mk_seg_desc 0 0 0.

Definition vm_get_seg_desc (vcpuid : Z) (reg : vm_reg_name) : cmd M (Z * seg_desc) :=
  if bad_vcpuid vcpuid then ret (EINVAL, no_desc) else
  if negb (is_segment_register reg) && negb (is_descriptor_table reg) then ret (EINVAL, no_desc) else
  gets (fun s => vmgetdesc vcpuid reg (cookie s)).

Definition vm_set_seg_desc (vcpuid : Z) (reg : vm_reg_name) (desc : seg_desc) : cmd M Z :=
  if bad_vcpuid vcpuid then ret EINVAL else
  if negb (is_segment_register reg) && negb (is_descriptor_table reg) then ret EINVAL else
  r <- gets (fun s => vmsetdesc vcpuid reg desc (cookie s)) ;;
  update (fun s => s <| cookie := r.2 |>) ;;; ret r.1.

Definition vm_segment_name (seg : Z) : cmd M vm_reg_name :=
  KASSERT ((0 <=? seg) && (seg <? 6)) ;;;
  ret (nth (Z.to_nat seg) [VM_REG_GUEST_ES; VM_REG_GUEST_CS; VM_REG_GUEST_SS; VM_REG_GUEST_DS;
                           VM_REG_GUEST_FS; VM_REG_GUEST_GS] VM_REG_LAST).

(** *** The state of a virtual CPU *)

(** The body of [vcpu_set_state_locked] once the wait for [VCPU_IDLE], if any,
    is over. *)
Definition allowed_transition (old new : vcpu_state) : bool :=
  match old with
  | VCPU_IDLE | VCPU_RUNNING | VCPU_SLEEPING => bool_decide (new = VCPU_FROZEN)
  | VCPU_FROZEN => negb (bool_decide (new = VCPU_FROZEN))
  end.

(** With [from_idle] the caller sleeps until the CPU is idle: the step is
    enabled only then, which the outcome [Hang] stands for. *)
Definition vcpu_set_state_locked (i : Z) (new : vcpu_state) (from_idle : bool) : cmd M Z :=
  old <- gets (fun s => state (get_vcpu i s)) ;;
  (if from_idle then (if bool_decide (old = VCPU_IDLE) then skip else fun _ => Hang)
   else KASSERT (negb (bool_decide (old = VCPU_IDLE)))) ;;;
  if allowed_transition old new then on_vcpu i (fun v => v <| state := new |>) ;;; ret 0
  else ret EBUSY.

Definition vcpu_set_state (i : Z) (new : vcpu_state) (from_idle : bool) : cmd M Z :=
  KASSERT (negb (bad_vcpuid i)) ;;; vcpu_set_state_locked i new from_idle.

Definition vcpu_require_state (i : Z) (new : vcpu_state) : cmd M unit :=
  e <- vcpu_set_state i new false ;; KASSERT (e =? 0).

Definition vcpu_get_state (i : Z) : cmd M vcpu_state :=
  KASSERT (negb (bad_vcpuid i)) ;;; gets (fun s => state (get_vcpu i s)).

Definition vcpu_notify_event (i : Z) : cmd M unit :=
  st <- gets (fun s => state (get_vcpu i s)) ;;
  match st with
  | VCPU_RUNNING => update (fun s => s <| notices ::= fun l => l ++ [Interrupted i] |>)
  | VCPU_SLEEPING => update (fun s => s <| notices ::= fun l => l ++ [Woken i] |>)
  | _ => skip
  end.

(** *** Suspending the machine *)

Fixpoint notify_cpus (l : list Z) (set : M -> Z) : cmd M unit :=
  match l with
  | [] => skip
  | i :: l => b <- gets (fun s => tst (set s) (bit i)) ;;
              when b (vcpu_notify_event i) ;;; notify_cpus l set
  end.

Definition vm_suspend (how : vm_suspend_how) : cmd M Z :=
  if bool_decide (how = VM_SUSPEND_NONE) || bool_decide (how = VM_SUSPEND_LAST) then ret EINVAL else
  old <- gets suspend ;;
  if negb (bool_decide (old = VM_SUSPEND_NONE)) then ret EALREADY else
  update (fun s => s <| suspend := how |>) ;;;
  notify_cpus (seqZ 0 VM_MAXCPU) active_cpus ;;; ret 0.

Definition vm_activate_cpu (i : Z) : cmd M Z :=
  if bad_vcpuid i then ret EINVAL else
  b <- gets (fun s => tst (active_cpus s) (bit i)) ;;
  if b then ret EBUSY else
  update (fun s => s <| active_cpus ::= fun c => Z.lor c (bit i) |>) ;;; ret 0.

(** *** Restarting an instruction *)

Definition vm_restart_instruction (i : Z) : cmd M Z :=
  if bad_vcpuid i then ret EINVAL else
  st <- vcpu_get_state i ;;
  match st with
  | VCPU_RUNNING => on_vcpu i (fun v => v <| inst_length := 0 |>) ;;; ret 0
  | VCPU_FROZEN =>
      r <- vm_get_register i VM_REG_GUEST_RIP ;;
      KASSERT (r.1 =? 0) ;;;
      on_vcpu i (fun v => v <| nextrip := r.2 |>) ;;; ret 0
  | _ => fun _ => Panic
  end.

(** *** Exceptions *)

Definition vm_exit_intinfo (i info : Z) : cmd M Z :=
  if bad_vcpuid i then ret EINVAL else
  if tst info VM_INTINFO_VALID then
    let type := Z.land info VM_INTINFO_TYPE in
    let vector := Z.land info 0xff in
    if (type =? VM_INTINFO_NMI) && negb (vector =? IDT_NMI) then ret EINVAL
    else if (type =? VM_INTINFO_HWEXCEPTION) && (32 <=? vector) then ret EINVAL
    else if tst info VM_INTINFO_RSVD then ret EINVAL
    else on_vcpu i (fun v => v <| exitintinfo := info |>) ;;; ret 0
  else on_vcpu i (fun v => v <| exitintinfo := 0 |>) ;;; ret 0.

Inductive exc_class : Type := EXC_BENIGN | EXC_CONTRIBUTORY | EXC_PAGEFAULT.

#[export] Instance exc_class_eq_dec : EqDecision exc_class.
Proof. solve_decision. Defined.

Definition exception_class (info : Z) : cmd M exc_class :=
  KASSERT (tst info VM_INTINFO_VALID) ;;;
  let type := Z.land info VM_INTINFO_TYPE in
  let vector := Z.land info 0xff in
  ret (if (type =? VM_INTINFO_HWINTR) || (type =? VM_INTINFO_SWINTR) || (type =? VM_INTINFO_NMI)
       then EXC_BENIGN
       else if (vector =? IDT_PF) || (vector =? IDT_VE) then EXC_PAGEFAULT
       else if (vector =? IDT_DE) || (vector =? IDT_TS) || (vector =? IDT_NP) || (vector =? IDT_SS) ||
               (vector =? IDT_GP) then EXC_CONTRIBUTORY
       else EXC_BENIGN).

(** The result is whether there is an event to inject, and the event. *)
Definition nested_fault (info1 info2 : Z) : cmd M (bool * Z) :=
  KASSERT (tst info1 VM_INTINFO_VALID) ;;; KASSERT (tst info2 VM_INTINFO_VALID) ;;;
  let type1 := Z.land info1 VM_INTINFO_TYPE in
  let vector1 := Z.land info1 0xff in
  if (type1 =? VM_INTINFO_HWEXCEPTION) && (vector1 =? IDT_DF) then
    vm_suspend VM_SUSPEND_TRIPLEFAULT ;;; ret (false, 0)
  else
    exc1 <- exception_class info1 ;;
    exc2 <- exception_class info2 ;;
    if (bool_decide (exc1 = EXC_CONTRIBUTORY) && bool_decide (exc2 = EXC_CONTRIBUTORY)) ||
       (bool_decide (exc1 = EXC_PAGEFAULT) && negb (bool_decide (exc2 = EXC_BENIGN)))
    then ret (true, Z.lor (Z.lor IDT_DF (Z.lor VM_INTINFO_VALID VM_INTINFO_HWEXCEPTION))
                          VM_INTINFO_DEL_ERRCODE)
    else ret (true, info2).

Definition vcpu_exception_intinfo (v : vcpu) : Z :=
  if exception_pending v then
    let info := Z.lor (Z.land (exc_vector v) 0xff) (Z.lor VM_INTINFO_VALID VM_INTINFO_HWEXCEPTION) in
    if exc_errcode_valid v
    then Z.lor (Z.lor info VM_INTINFO_DEL_ERRCODE) (Z.shiftl (exc_errcode v) 32) else info
  else 0.

Definition vm_entry_intinfo (i : Z) : cmd M (bool * Z) :=
  KASSERT (negb (bad_vcpuid i)) ;;;
  info1 <- gets (fun s => exitintinfo (get_vcpu i s)) ;;
  on_vcpu i (fun v => v <| exitintinfo := 0 |>) ;;;
  pending <- gets (fun s => exception_pending (get_vcpu i s)) ;;
  info2 <- gets (fun s => if pending then vcpu_exception_intinfo (get_vcpu i s) else 0) ;;
  when pending (on_vcpu i (fun v => v <| exception_pending := false |>)) ;;;
  if tst info1 VM_INTINFO_VALID && tst info2 VM_INTINFO_VALID then nested_fault info1 info2
  else if tst info1 VM_INTINFO_VALID then ret (true, info1)
  else if tst info2 VM_INTINFO_VALID then ret (true, info2)
  else ret (false, 0).

Definition vm_get_intinfo (i : Z) : cmd M (Z * (Z * Z)) :=
  if bad_vcpuid i then ret (EINVAL, (0, 0)) else
  gets (fun s => (0, (exitintinfo (get_vcpu i s), vcpu_exception_intinfo (get_vcpu i s)))).

Definition vm_inject_exception (i vector : Z) (errcode_valid : bool) (errcode : Z) (restart : bool) : cmd M Z :=
  if bad_vcpuid i then ret EINVAL else
  if (vector <? 0) || (32 <=? vector) then ret EINVAL else
  if vector =? IDT_DF then ret EINVAL else
  pending <- gets (fun s => exception_pending (get_vcpu i s)) ;;
  if pending then ret EBUSY else
  error <- vm_set_register i VM_REG_GUEST_INTR_SHADOW 0 ;;
  KASSERT (error =? 0) ;;;
  when restart (vm_restart_instruction i ;;; skip) ;;;
  on_vcpu i (fun v => v <| exception_pending := true |> <| exc_vector := vector |>
                        <| exc_errcode := u32 errcode |> <| exc_errcode_valid := errcode_valid |>) ;;;
  ret 0.

Definition vm_inject_fault (i vector : Z) (errcode_valid : bool) (errcode : Z) : cmd M unit :=
  error <- vm_inject_exception i vector errcode_valid (u32 errcode) true ;;
  KASSERT (error =? 0).

Definition vm_inject_ud (i : Z) : cmd M unit := vm_inject_fault i IDT_UD false 0.
Definition vm_inject_gp (i : Z) : cmd M unit := vm_inject_fault i IDT_GP true 0.
Definition vm_inject_ac (i errcode : Z) : cmd M unit := vm_inject_fault i IDT_AC true errcode.
Definition vm_inject_ss (i errcode : Z) : cmd M unit := vm_inject_fault i IDT_SS true errcode.

Definition vm_inject_pf (i error_code cr2 : Z) : cmd M unit :=
  error <- vm_set_register i VM_REG_GUEST_CR2 cr2 ;;
  KASSERT (error =? 0) ;;;
  vm_inject_fault i IDT_PF true error_code.

(** *** Interrupts *)

Definition vm_inject_nmi (i : Z) : cmd M Z :=
  if bad_vcpuid i then ret EINVAL else
  on_vcpu i (fun v => v <| nmi_pending := true |>) ;;; vcpu_notify_event i ;;; ret 0.

Definition vm_nmi_pending (i : Z) : cmd M bool :=
  KASSERT (negb (bad_vcpuid i)) ;;; gets (fun s => nmi_pending (get_vcpu i s)).

Definition vm_nmi_clear (i : Z) : cmd M unit :=
  KASSERT (negb (bad_vcpuid i)) ;;;
  p <- gets (fun s => nmi_pending (get_vcpu i s)) ;; KASSERT p ;;;
  on_vcpu i (fun v => v <| nmi_pending := false |>).

Definition vm_inject_extint (i : Z) : cmd M Z :=
  if bad_vcpuid i then ret EINVAL else
  on_vcpu i (fun v => v <| extint_pending := true |>) ;;; vcpu_notify_event i ;;; ret 0.

Definition vm_extint_pending (i : Z) : cmd M bool :=
  KASSERT (negb (bad_vcpuid i)) ;;; gets (fun s => extint_pending (get_vcpu i s)).

Definition vm_extint_clear (i : Z) : cmd M unit :=
  KASSERT (negb (bad_vcpuid i)) ;;;
  p <- gets (fun s => extint_pending (get_vcpu i s)) ;; KASSERT p ;;;
  on_vcpu i (fun v => v <| extint_pending := false |>).
End Operations.

(** ** Basic facts *)
Section Facts.
Context {X D : Type} `{!VmmOps X, !VmmLaws X}.
Local Abbreviation M := (vm X D).
Implicit Types s : M.

(** The machine has its sixteen virtual CPUs. *)
Definition has_vcpus s : Prop := length (vcpus s) = 16%nat.

Lemma get_vcpu_alter i f s : is_vcpu i -> has_vcpus s ->
  get_vcpu i (s <| vcpus ::= alter f (Z.to_nat i) |>) = f (get_vcpu i s).
Proof.
  intros Hi Hs. unfold get_vcpu, has_vcpus, is_vcpu, VM_MAXCPU in *. cbn.
  rewrite !nth_lookup. rewrite list_lookup_alter.
  destruct (lookup_lt_is_Some_2 (vcpus s) (Z.to_nat i) ltac:(lia)) as [v ->]. 
  by rewrite decide_True.
Qed.

Lemma get_vcpu_alter_ne i j f s : is_vcpu i -> is_vcpu j -> i <> j ->
  get_vcpu j (s <| vcpus ::= alter f (Z.to_nat i) |>) = get_vcpu j s.
Proof.
  intros Hi Hj Hne. unfold get_vcpu, is_vcpu in *. cbn.
  rewrite !nth_lookup, list_lookup_alter_ne by lia. done.
Qed.

Lemma has_vcpus_alter i f s : has_vcpus s -> has_vcpus (s <| vcpus ::= alter f i |>).
Proof. unfold has_vcpus. cbn. by rewrite length_alter. Qed.

Lemma bad_vcpuid_false i : is_vcpu i -> bad_vcpuid i = false.
Proof.
  unfold is_vcpu, bad_vcpuid. intros. apply orb_false_iff.
  split; [apply Z.ltb_ge|apply Z.leb_gt]; lia.
Qed.

Lemma reg_index_real r : r <> VM_REG_LAST -> (reg_index VM_REG_LAST <=? reg_index r) = false.
Proof. by destruct r. Qed.

Lemma wp_get_register i r (Q : Z * Z -> M -> Prop) s : is_vcpu i -> r <> VM_REG_LAST ->
  Q (0, (vmgetreg i r (cookie s)).2) s -> wp (vm_get_register i r) Q s.
Proof.
  intros Hi Hr HQ. unfold vm_get_register. rewrite bad_vcpuid_false, reg_index_real by done.
  apply wp_gets. rewrite <- (getreg_ok i r (cookie s)) in HQ by done. by rewrite <- surjective_pairing in HQ.
Qed.

(** Setting a plain register other than the instruction pointer. *)
Lemma wp_set_register i r v (Q : Z -> M -> Prop) s :
  is_vcpu i -> (plain_reg r = true \/ r = VM_REG_GUEST_INTR_SHADOW /\ v = 0) -> r <> VM_REG_GUEST_RIP ->
  Q 0 (s <| cookie := (vmsetreg i r v (cookie s)).2 |>) -> wp (vm_set_register i r v) Q s.
Proof.
  intros Hi Hr Hn HQ. unfold vm_set_register. rewrite bad_vcpuid_false by done.
  rewrite reg_index_real by (destruct Hr as [Hr|[-> _]]; [by intros ->|done]).
  wp_go. rewrite (bool_decide_eq_false_2 _ Hn), orb_true_r. wp_go.
  assert ((vmsetreg i r v (cookie s)).1 = 0) as ->; [|done].
  destruct Hr as [Hr|[-> ->]]; [by apply setreg_ok|by apply set_shadow_ok].
Qed.

(** ** Injection of exceptions *)

(** The CPU can take a new exception. *)
Definition can_inject i s : Prop :=
  exception_pending (get_vcpu i s) = false /\
  (state (get_vcpu i s) = VCPU_RUNNING \/ state (get_vcpu i s) = VCPU_FROZEN).

(** The effect of an injected fault on the CPU. *)
Definition faulted i vector (valid : bool) code s (s' : M) : Prop :=
  get_vcpu i s' =
    (let v := get_vcpu i s in
     let v := match state v with
              | VCPU_RUNNING => v <| inst_length := 0 |>
              | _ => v <| nextrip := (vmgetreg i VM_REG_GUEST_RIP (cookie s)).2 |> end in
     v <| exception_pending := true |> <| exc_vector := vector |> <| exc_errcode := code |>
       <| exc_errcode_valid := valid |>).

(** What an injection leaves alone. *)
Definition same_machine s (s' : M) : Prop :=
  mem_segs s' = mem_segs s /\ host_mem s' = host_mem s /\ devices s' = devices s /\
  active_cpus s' = active_cpus s /\ suspend s' = suspend s /\ notices s' = notices s /\
  has_vcpus s'.

Lemma inject_fault_spec i vector valid code s :
  is_vcpu i -> has_vcpus s -> 0 <= vector < 32 -> vector <> IDT_DF -> code in_u 32 -> can_inject i s ->
  wp (vm_inject_fault i vector valid code)
     (fun _ s' => faulted i vector valid code s s' /\ same_machine s s' /\
        (forall j, is_vcpu j -> j <> i -> get_vcpu j s' = get_vcpu j s) /\
        cookie s' = (vmsetreg i VM_REG_GUEST_INTR_SHADOW 0 (cookie s)).2) s.
Proof.
  intros Hi Hs Hv Hdf Hc [Hp Hst]. unfold vm_inject_fault, vm_inject_exception.
  rewrite bad_vcpuid_false by done.
  replace ((vector <? 0) || (32 <=? vector)) with false.
  2: { symmetry. apply orb_false_iff. split; [apply Z.ltb_ge|apply Z.leb_gt]; lia. }
  rewrite (proj2 (Z.eqb_neq vector IDT_DF) Hdf). wp_go. rewrite Hp. wp_go.
  apply wp_set_register; [done|by right|done|]. cbv beta.
  apply wp_bind, wp_KASSERT; [done|]. apply wp_bind. unfold when, vm_restart_instruction.
  rewrite bad_vcpuid_false by done. apply wp_bind. unfold vcpu_get_state. rewrite bad_vcpuid_false by done.
  apply wp_bind, wp_bind, wp_KASSERT; [done|]. apply wp_gets. unfold on_vcpu.
  rewrite !u32_id by (try apply u32_in_u; done).
  change (state (get_vcpu i (s <| cookie := (vmsetreg i VM_REG_GUEST_INTR_SHADOW 0 (cookie s)).2 |>)))
    with (state (get_vcpu i s)).
  assert (Hfin : forall f, (forall v, state (f v) = state v) ->
    forall s1, s1 = (s <| cookie := (vmsetreg i VM_REG_GUEST_INTR_SHADOW 0 (cookie s)).2 |>
                       <| vcpus ::= alter f (Z.to_nat i) |>) ->
    (match state (get_vcpu i s) with
     | VCPU_RUNNING => f = (fun v => v <| inst_length := 0 |>)
     | _ => f = (fun v => v <| nextrip := (vmgetreg i VM_REG_GUEST_RIP (cookie s)).2 |>) end) ->
    let s' := s1 <| vcpus ::= alter (fun v => v <| exception_pending := true |> <| exc_vector := vector |>
               <| exc_errcode := code |> <| exc_errcode_valid := valid |>) (Z.to_nat i) |> in
    faulted i vector valid code s s' /\ same_machine s s' /\
    (forall j, is_vcpu j -> j <> i -> get_vcpu j s' = get_vcpu j s) /\
    cookie s' = (vmsetreg i VM_REG_GUEST_INTR_SHADOW 0 (cookie s)).2).
  { intros f _ s1 -> Hf s'. split; [|split; [|split]].
    - unfold faulted, s'. rewrite get_vcpu_alter by (try done; by apply has_vcpus_alter).
      rewrite get_vcpu_alter by done.
      change (get_vcpu i (s <| cookie := _ |>)) with (get_vcpu i s).
      destruct (state (get_vcpu i s)); by rewrite Hf.
    - repeat split. unfold s'. by do 2 apply has_vcpus_alter.
    - intros j Hj Hji. unfold s'. by rewrite !get_vcpu_alter_ne.
    - done. }
  destruct Hst as [Hst|Hst]; rewrite Hst in *; wp_go.
  - apply wp_KASSERT; [done|]. by apply (Hfin (fun v => v <| inst_length := 0 |>)).
  - apply wp_get_register; [done|done|]. cbv beta.
    apply wp_KASSERT; [done|]. wp_go. cbn [fst snd].
    apply (Hfin (fun v => v <| nextrip := (vmgetreg i VM_REG_GUEST_RIP
      (vmsetreg i VM_REG_GUEST_INTR_SHADOW 0 (cookie s)).2).2 |>)); [done..|].
    by rewrite get_set_ne.
Qed.

Lemma inject_pf_spec i code cr2 s :
  is_vcpu i -> has_vcpus s -> code in_u 32 -> cr2 in_u 64 -> can_inject i s ->
  wp (vm_inject_pf i code cr2)
     (fun _ s' => faulted i IDT_PF true code s s' /\ same_machine s s' /\
        (forall j, is_vcpu j -> j <> i -> get_vcpu j s' = get_vcpu j s) /\
        cookie s' = (vmsetreg i VM_REG_GUEST_INTR_SHADOW 0 (vmsetreg i VM_REG_GUEST_CR2 cr2 (cookie s)).2).2) s.
Proof.
  intros Hi Hs Hc Hr Hinj. unfold vm_inject_pf. wp_go.
  apply wp_set_register; [done|by left|done|]. cbv beta. wp_go. apply wp_KASSERT; [done|].
  eapply wp_conseq; [apply inject_fault_spec; done|]. cbv beta.
  intros _ s' (Hf & Hm & Ho & Hck). split; [|split; [done|split; [done|]]].
  - unfold faulted in *. rewrite Hf. cbn [cookie]. cbn. rewrite get_set_ne by done. done.
  - by rewrite Hck.
Qed.

(** *** Events at VM entry *)

(** Intel SDM volume 3, tables 6-4 and 6-5: the class of an event and the
    pairs that make a double fault. *)
Definition benign_types : list Z := [VM_INTINFO_HWINTR; VM_INTINFO_SWINTR; VM_INTINFO_NMI].
Definition contributory_vectors : list Z := [0; 10; 11; 12; 13].
Definition pagefault_vectors : list Z := [14; 20].

Definition event_class (info : Z) : exc_class :=
  if existsb (Z.eqb (Z.land info VM_INTINFO_TYPE)) benign_types then EXC_BENIGN
  else if existsb (Z.eqb (Z.land info 0xff)) contributory_vectors then EXC_CONTRIBUTORY
  else if existsb (Z.eqb (Z.land info 0xff)) pagefault_vectors then EXC_PAGEFAULT else EXC_BENIGN.

Definition double_fault (c1 c2 : exc_class) : bool :=
  match c1, c2 with
  | EXC_BENIGN, _ => false
  | EXC_CONTRIBUTORY, EXC_CONTRIBUTORY => true
  | EXC_CONTRIBUTORY, _ => false
  | EXC_PAGEFAULT, EXC_BENIGN => false
  | EXC_PAGEFAULT, _ => true
  end.

(** A double-fault exception with an error code of zero. *)
Definition DF_EVENT : Z := 0x80000b08.

Definition is_df (info : Z) : bool :=
  (Z.land info VM_INTINFO_TYPE =? VM_INTINFO_HWEXCEPTION) && (Z.land info 0xff =? IDT_DF).

(** The event to inject when [info1] was being delivered and [info2] arises;
    [None] is the shutdown of the machine. *)
Definition serialize (info1 info2 : Z) : option Z :=
  if is_df info1 then None
  else if double_fault (event_class info1) (event_class info2) then Some DF_EVENT else Some info2.

Lemma exception_class_spec info (Q : exc_class -> M -> Prop) s :
  tst info VM_INTINFO_VALID = true -> Q (event_class info) s -> wp (exception_class info) Q s.
Proof.
  intros Hv HQ. unfold exception_class. apply wp_bind, wp_KASSERT; [done|]. apply wp_ret.
  unfold event_class, benign_types, contributory_vectors, pagefault_vectors in HQ. cbn [existsb] in HQ.
  revert HQ. generalize (Z.land info VM_INTINFO_TYPE) as t. generalize (Z.land info 0xff) as v. intros v t.
  rewrite !orb_false_r, !orb_assoc. destruct (_ || _ || _); [done|].
  unfold IDT_PF, IDT_VE, IDT_DE, IDT_TS, IDT_NP, IDT_SS, IDT_GP.
  destruct (Z.eqb_spec v 14) as [->|]; [done|]. destruct (Z.eqb_spec v 20) as [->|]; [done|]. done.
Qed.

(** Notifications only add notices. *)
Lemma notify_event_spec i s :
  wp (vcpu_notify_event i) (fun _ s' => s' = s <| notices := notices s' |>) s.
Proof. unfold vcpu_notify_event. wp_go. by destruct s; case_match. Qed.

Lemma notify_cpus_spec l set s :
  wp (notify_cpus l set) (fun _ s' => s' = s <| notices := notices s' |>) s.
Proof.
  revert s. induction l as [|i l IH]; intros s; cbn [notify_cpus]; [by destruct s|].
  wp_go. apply wp_when; intros _.
  - eapply wp_conseq; [apply notify_event_spec|]. cbv beta. intros _ s1 E1.
    eapply wp_conseq; [apply IH|]. cbv beta. intros _ s2 E2. rewrite E2, E1. by destruct s.
  - apply IH.
Qed.

Lemma suspend_spec how s : suspend s = VM_SUSPEND_NONE -> how <> VM_SUSPEND_NONE -> how <> VM_SUSPEND_LAST ->
  wp (vm_suspend how) (fun e s' => e = 0 /\ s' = s <| suspend := how |> <| notices := notices s' |>) s.
Proof.
  intros Hs H1 H2. unfold vm_suspend. rewrite !bool_decide_eq_false_2 by done. cbn [orb]. wp_go.
  rewrite Hs, bool_decide_eq_true_2 by done. cbn [negb]. wp_go.
  eapply wp_conseq; [apply notify_cpus_spec|]. cbv beta. intros _ s' E. wp_go. split; [done|].
  rewrite E. by destruct s.
Qed.

(** The result and the final state of a VM entry. *)
Definition entry_result i s (r : bool * Z) (s' : M) : Prop :=
  let info1 := exitintinfo (get_vcpu i s) in
  let info2 := vcpu_exception_intinfo (get_vcpu i s) in
  exitintinfo (get_vcpu i s') = 0 /\ exception_pending (get_vcpu i s') = false /\
    r = (if tst info1 VM_INTINFO_VALID then
           if tst info2 VM_INTINFO_VALID then
             match serialize info1 info2 with Some e => (true, e) | None => (false, 0) end
           else (true, info1)
         else if tst info2 VM_INTINFO_VALID then (true, info2) else (false, 0)) /\
    suspend s' = (if tst info1 VM_INTINFO_VALID && tst info2 VM_INTINFO_VALID && is_df info1
                  then VM_SUSPEND_TRIPLEFAULT else VM_SUSPEND_NONE).

Lemma entry_intinfo_wp i s : is_vcpu i -> has_vcpus s -> suspend s = VM_SUSPEND_NONE ->
  wp (vm_entry_intinfo i) (fun r s' => entry_result i s r s' /\ has_vcpus s') s.
Proof.
  intros Hi Hs Ha. unfold entry_result. cbv zeta. unfold vm_entry_intinfo. rewrite bad_vcpuid_false by done.
  apply wp_bind, wp_KASSERT; [done|]. apply wp_bind, wp_gets, wp_bind, wp_update.
  set (s1 := s <| vcpus ::= _ |>). apply wp_bind, wp_gets, wp_bind, wp_gets.
  assert (Hs1 : has_vcpus s1) by (by apply has_vcpus_alter).
  assert (G1 : get_vcpu i s1 = get_vcpu i s <| exitintinfo := 0 |>) by (by apply get_vcpu_alter).
  rewrite G1. change (exception_pending (get_vcpu i s <| exitintinfo := 0 |>)) with (exception_pending (get_vcpu i s)).
  replace (if exception_pending (get_vcpu i s) then vcpu_exception_intinfo (get_vcpu i s <| exitintinfo := 0 |>) else 0)
    with (vcpu_exception_intinfo (get_vcpu i s)) by (unfold vcpu_exception_intinfo; by destruct (get_vcpu i s) as [? ? ? ? [] ? [] ? ? ? ?]).
  set (info1 := exitintinfo (get_vcpu i s)). set (info2 := vcpu_exception_intinfo (get_vcpu i s)).
  apply wp_bind. apply (wp_conseq _ (fun _ s2 => has_vcpus s2 /\ suspend s2 = VM_SUSPEND_NONE /\
     exitintinfo (get_vcpu i s2) = 0 /\ exception_pending (get_vcpu i s2) = false)).
  { apply wp_when; intros Hp; [apply wp_update|]; (split; [|split; [done|]]); try done.
    - by apply has_vcpus_alter.
    - rewrite get_vcpu_alter, G1 by done. done.
    - rewrite G1. done. }
  intros _ s2 (Hs2 & Hu2 & He2 & Hp2).
  destruct (tst info1 VM_INTINFO_VALID) eqn:V1, (tst info2 VM_INTINFO_VALID) eqn:V2; cbn [andb];
    try (apply wp_ret; by repeat split).
  unfold nested_fault, serialize. apply wp_bind, wp_KASSERT; [done|]. apply wp_bind, wp_KASSERT; [done|].
  fold (is_df info1). destruct (is_df info1).
  - apply wp_bind. eapply wp_conseq; [by apply suspend_spec|]. cbv beta. intros e s3 [-> E3].
    apply wp_ret. unfold get_vcpu, has_vcpus in *. rewrite E3. by repeat split.
  - apply wp_bind, exception_class_spec; [done|]. apply wp_bind, exception_class_spec; [done|].
    destruct (event_class info1), (event_class info2); cbn; apply wp_ret; by repeat split.
Qed.


(** C20: Delivering events at VM entry follows the architecture.  With an event
    interrupted by the exit and an exception pending, the pair is serialized
    by the double-fault table, and an exception during the delivery of a
    double fault shuts the machine down (triple fault).  A single event is
    delivered as it is.  Nothing stays pending. *)
Theorem entry_intinfo_spec i s (Hi : is_vcpu i) (Hs : has_vcpus s)
    (Ha : suspend s = VM_SUSPEND_NONE) :
  exists r s', vm_entry_intinfo i s = Return (r, s') /\ entry_result i s r s'.
Proof.
  destruct (wp_elim _ _ _ (entry_intinfo_wp i s Hi Hs Ha)) as (r & s' & Hr & H & _). eauto.
Qed.

(** The event an exception becomes. *)
Definition exception_event (vector : Z) (valid : bool) (code : Z) : Z :=
  Z.lor (Z.lor (Z.lor vector (Z.lor VM_INTINFO_VALID VM_INTINFO_HWEXCEPTION))
               (if valid then VM_INTINFO_DEL_ERRCODE else 0))
        (if valid then Z.shiftl code 32 else 0).

Lemma land_shiftl_low c m : m in_u 32 -> Z.land (Z.shiftl c 32) m = 0.
Proof.
  intros Hm. apply in_u_bits in Hm as [_ Hm]; [|lia]. apply Z.bits_inj'. intros k Hk.
  rewrite Z.land_spec, Z.shiftl_spec, Z.testbit_0_l by done.
  destruct (Z.lt_ge_cases k 32); [|by rewrite Hm, andb_false_r].
  by rewrite Z.testbit_neg_r by lia.
Qed.

(** The fields of the event are those of the exception. *)
Lemma exception_event_fields vector valid code : 0 <= vector < 32 -> code in_u 32 ->
  let e := exception_event vector valid code in
  Z.land e 0xff = vector /\ Z.land e VM_INTINFO_TYPE = VM_INTINFO_HWEXCEPTION /\
  tst e VM_INTINFO_VALID = true /\ tst e VM_INTINFO_DEL_ERRCODE = valid /\
  (valid = true -> Z.shiftr e 32 = code).
Proof.
  intros Hv Hc e. unfold e, exception_event, tst. rewrite !Z.land_lor_distr_l.
  assert (Hlow : forall m, m in_u 32 -> Z.land (if valid then Z.shiftl code 32 else 0) m = 0).
  { intros m Hm. destruct valid; [by apply land_shiftl_low|done]. }
  rewrite !Hlow by done. rewrite !Z.lor_0_r.
  assert (Hall : forall P : Z -> Prop, (forall k, (k < 32)%nat -> P (Z.of_nat k)) -> P vector).
  { intros P HP. specialize (HP (Z.to_nat vector) ltac:(lia)). by rewrite Z2Nat.id in HP by lia. }
  split; [|split; [|split; [|split]]].
  1-4: apply (Hall (fun vector => _ = _)); intros k Hk;
       do 32 (destruct k as [|k]; [by destruct valid|]); lia.
  intros ->. rewrite !Z.shiftr_lor, Z.shiftr_shiftl_l, Z.sub_diag, Z.shiftl_0_r by lia.
  replace (Z.shiftr vector 32) with 0; [done|].
  rewrite Z.shiftr_div_pow2 by lia. symmetry. apply Z.div_small. lia.
Qed.

(** An exception injected into a CPU with nothing else pending is what the
    next VM entry delivers: same vector, type, error code.  It is delivered
    once, and until then a second injection is refused with [EBUSY]. *)
Theorem inject_entry_roundtrip i vector valid code s
    (Hi : is_vcpu i) (Hs : has_vcpus s) (Hv : 0 <= vector < 32) (Hdf : vector <> IDT_DF)
    (Hc : code in_u 32) (Hinj : can_inject i s) (He : exitintinfo (get_vcpu i s) = 0)
    (Ha : suspend s = VM_SUSPEND_NONE) :
  exists s1 s2, vm_inject_fault i vector valid code s = Return (tt, s1) /\
    (forall w b c r, 0 <= w < 32 -> w <> IDT_DF -> vm_inject_exception i w b c r s1 = Return (EBUSY, s1)) /\
    vm_entry_intinfo i s1 = Return ((true, exception_event vector valid code), s2) /\
    exists s3, vm_entry_intinfo i s2 = Return ((false, 0), s3).
Proof.
  pose proof (inject_fault_spec i vector valid code s Hi Hs Hv Hdf Hc Hinj) as H.
  destruct (wp_elim _ _ _ H) as ([] & s1 & Hrun & Hf & Hm & _ & _). clear H.
  destruct Hm as (_ & _ & _ & _ & Hu & _ & Hs1). rewrite Ha in Hu.
  assert (Hp1 : exception_pending (get_vcpu i s1) = true) by (by rewrite Hf).
  assert (He1 : exitintinfo (get_vcpu i s1) = 0).
  { rewrite Hf. cbn. by destruct (state (get_vcpu i s)). }
  assert (Hi2 : vcpu_exception_intinfo (get_vcpu i s1) = exception_event vector valid code).
  { unfold vcpu_exception_intinfo. rewrite Hp1, Hf. unfold exception_event.
    assert (Hl : Z.land vector 255 = vector).
    { change 255 with (Z.ones 8). rewrite Z.land_ones by lia. apply Z.mod_small. change (2 ^ 8) with 256. lia. }
    destruct (state (get_vcpu i s)), valid; cbn -[Z.lor Z.land Z.shiftl]; by rewrite Hl, ?Z.lor_0_r. }
  destruct (exception_event_fields vector valid code Hv Hc) as (_ & _ & Hval & _).
  destruct (wp_elim _ _ _ (entry_intinfo_wp i s1 Hi Hs1 Hu)) as (r & s2 & Hr & (H1 & H2 & H3 & H4) & Hs2).
  rewrite He1, Hi2, Hval in *. cbn in H3, H4. subst r.
  destruct (wp_elim _ _ _ (entry_intinfo_wp i s2 Hi Hs2 H4)) as (r & s3 & Hr3 & (_ & _ & H5 & _) & _).
  exists s1, s2. split; [done|]. split; [|split; [done|]].
  - intros w b c q Hw Hwdf. unfold vm_inject_exception. rewrite bad_vcpuid_false by done.
    replace ((w <? 0) || (32 <=? w)) with false.
    2: { symmetry. apply orb_false_iff. split; [apply Z.ltb_ge|apply Z.leb_gt]; lia. }
    rewrite (proj2 (Z.eqb_neq w IDT_DF) Hwdf). unfold bind, gets. by rewrite Hp1.
  - exists s3. rewrite Hr3, H5, H1. unfold vcpu_exception_intinfo. by rewrite H2.
Qed.
End Facts.

(** ** A back end for the examples: the registers as a function *)
Definition regs : Type := Z -> vm_reg_name -> Z.

Definition flat_desc : seg_desc := mk_seg_desc 0 0xffffffff 0xc093.

#[export] Instance regs_ops : VmmOps regs := {
  vmgetreg i r x := (0, u64 (x i r));
  vmsetreg i r v x := (0, fun j q => if (j =? i) && bool_decide (q = r) then v else x j q);
  vmgetdesc _ _ _ := (0, flat_desc);
  vmsetdesc _ _ _ x := (0, x);
}.

#[export] Instance regs_laws : VmmLaws regs.
Proof.
  split; try done; cbn.
  - intros. apply u64_in_u.
  - intros i r v x _ _ Hv. rewrite Z.eqb_refl, bool_decide_eq_true_2 by done. by apply u64_id.
  - intros i j r q v x _ _ Hne. destruct (Z.eqb_spec j i) as [->|]; [|done].
    rewrite bool_decide_eq_false_2 by congruence. done.
Qed.

(** A machine with CPU 0 frozen, 64 KiB of memory at 0 and its registers zero. *)
Definition machine (v0 : vcpu) : vm regs unit :=
  mk_vm (fun _ _ => 0) tt 1 VM_SUSPEND_NONE 0 [mk_seg 0 0x10000 (Some 1)] 2 (fun _ => 0)
    (v0 :: replicate 15 vcpu0) [].

Definition frozen : vcpu := vcpu0 <| state := VCPU_FROZEN |>.

(** A page fault was being delivered when a general protection fault arises. *)
Lemma entry_intinfo_spec_witness :
  let s := machine (frozen <| exitintinfo := 0x80000b0e |> <| exception_pending := true |>
             <| exc_vector := IDT_GP |> <| exc_errcode_valid := true |>) in
  exists r s', vm_entry_intinfo 0 s = Return (r, s') /\ entry_result 0 s r s'.
Proof.
  apply (entry_intinfo_spec 0 (machine (frozen <| exitintinfo := 0x80000b0e |> <| exception_pending := true |>
             <| exc_vector := IDT_GP |> <| exc_errcode_valid := true |>))); [|reflexivity|reflexivity].
  unfold is_vcpu, VM_MAXCPU. lia.
Defined.

Example entry_double_fault :
  match vm_entry_intinfo 0 (machine (frozen <| exitintinfo := 0x80000b0e |> <| exception_pending := true |>
             <| exc_vector := IDT_GP |> <| exc_errcode_valid := true |>)) with
  | Return (r, _) => r = (true, DF_EVENT) | _ => False end.
Proof. vm_compute. reflexivity. Qed.

Lemma inject_entry_roundtrip_witness :
  exists s1 s2, vm_inject_fault 0 IDT_PF true 6 (machine frozen) = Return (tt, s1) /\
    (forall w b c r, 0 <= w < 32 -> w <> IDT_DF -> vm_inject_exception 0 w b c r s1 = Return (EBUSY, s1)) /\
    vm_entry_intinfo 0 s1 = Return ((true, exception_event IDT_PF true 6), s2) /\
    exists s3, vm_entry_intinfo 0 s2 = Return ((false, 0), s3).
Proof.
  apply (inject_entry_roundtrip 0 IDT_PF true 6 (machine frozen)); try reflexivity.
  - unfold is_vcpu, VM_MAXCPU. lia.
  - unfold IDT_PF. lia.
  - unfold IDT_PF, IDT_DF. lia.
  - lia.
  - split; [reflexivity|right; reflexivity].
Defined.

(** ** Guest memory segments *)
Section Memory.
Context {X D : Type}.
Local Abbreviation M := (vm X D).
Implicit Types s : M.

Definition aligned (x : Z) : Prop := x mod XHYVE_PAGE_SIZE = 0.

Record seg_ok (next : Z) (g : mem_seg) : Prop := {
  so_gpa : 0 <= seg_gpa g /\ aligned (seg_gpa g);
  so_len : 0 < seg_len g /\ aligned (seg_len g);
  so_top : seg_gpa g + seg_len g < 2 ^ 64;
  so_object : exists o, seg_object g = Some o /\ o < next;
}.

(** Different segments share neither guest addresses nor host memory. *)
Definition apart (g h : mem_seg) : Prop :=
  (seg_gpa g + seg_len g <= seg_gpa h \/ seg_gpa h + seg_len h <= seg_gpa g) /\
  seg_object g <> seg_object h.

Record segs_ok s : Prop := {
  sg_each : Forall (seg_ok (next_object s)) (mem_segs s);
  sg_apart : ForallOrdPairs apart (mem_segs s);
  sg_count : (length (mem_segs s) <= 2)%nat;
}.

Lemma tst_page_mask x : tst x XHYVE_PAGE_MASK = false -> aligned x.
Proof.
  unfold tst, aligned. intros H. bools.
  change XHYVE_PAGE_MASK with (Z.ones 12) in H. rewrite Z.land_ones in H by lia. exact H.
Qed.

(** The page count: when nothing is allocated, no page of the range is. *)
Lemma aligned_step a b : aligned a -> aligned b -> a < b -> a + XHYVE_PAGE_SIZE <= b.
Proof. unfold aligned, XHYVE_PAGE_SIZE. intros. Z.to_euclidean_division_equations. lia. Qed.

Lemma aligned_add a b : aligned a -> aligned b -> aligned (a + b).
Proof. unfold aligned, XHYVE_PAGE_SIZE. intros. Z.to_euclidean_division_equations. lia. Qed.

Lemma count_pages_spec s limit fuel : aligned limit -> limit < 2 ^ 64 ->
  forall g a v, 0 <= g <= limit -> aligned g -> limit - g + XHYVE_PAGE_SIZE <= Z.of_nat fuel * XHYVE_PAGE_SIZE ->
  exists a' v', count_pages fuel g limit s a v = Some (a', v') /\ a <= a' /\
    (a' = a -> forall p, g <= p < limit -> aligned p -> vm_mem_allocated p s = false).
Proof.
  intros Hl Hlt. induction fuel as [|fuel IH]; intros g a v Hg Hga Hf.
  { unfold XHYVE_PAGE_SIZE in Hf. lia. }
  cbn [count_pages]. destruct (Z.ltb_spec g limit) as [Hgl|Hgl].
  2: { exists a, v. split; [done|]. split; [lia|]. intros _ p Hp. lia. }
  pose proof (aligned_step g limit Hga Hl Hgl) as Hst.
  assert (Hu : u64 (g + XHYVE_PAGE_SIZE) = g + XHYVE_PAGE_SIZE) by (apply u64_id; unfold XHYVE_PAGE_SIZE in *; lia).
  rewrite Hu.
  assert (Hnext : forall p, g <= p < limit -> aligned p -> p = g \/ g + XHYVE_PAGE_SIZE <= p < limit).
  { intros p Hp Hpa. destruct (Z.eq_dec p g); [by left|right]. split; [|lia].
    apply aligned_step; [done|done|lia]. }
  assert (Hpos : forall k, 0 <= g + k -> 0 <= g) by lia.
  destruct (vm_mem_allocated g s) eqn:E.
  - destruct (IH (g + XHYVE_PAGE_SIZE) (a + 1) v) as (a' & v' & H1 & H2 & H3);
      [unfold XHYVE_PAGE_SIZE in *; lia|by apply aligned_add|lia|].
    exists a', v'. split; [done|]. split; [lia|]. lia.
  - destruct (IH (g + XHYVE_PAGE_SIZE) a (v + 1)) as (a' & v' & H1 & H2 & H3);
      [unfold XHYVE_PAGE_SIZE in *; lia|by apply aligned_add|lia|].
    exists a', v'. split; [done|]. split; [lia|]. intros Ea p Hp Hpa.
    destruct (Hnext p Hp Hpa) as [->|Hp']; [done|]. by apply H3.
Qed.

(** A range none of whose pages is allocated is apart from every segment. *)
Lemma unallocated_apart s gpa len o : segs_ok s -> 0 <= gpa -> 0 < len -> aligned gpa -> aligned len ->
  gpa + len < 2 ^ 64 -> next_object s <= o ->
  (forall p, gpa <= p < gpa + len -> aligned p -> vm_mem_allocated p s = false) ->
  Forall (fun g => apart g (mk_seg gpa len (Some o))) (mem_segs s).
Proof.
  intros Hs Hg Hl Hga Hla Htop Ho Hfree. apply List.Forall_forall. intros g Hin.
  pose proof (proj1 (List.Forall_forall _ _) (sg_each s Hs) g Hin) as [[Hg0 Hg1] [Hl0 Hl1] Ht [o' [Hob Ho']]].
  split; [|rewrite Hob; cbn; intros [= ->]; lia]. cbn.
  destruct (Z.le_gt_cases (seg_gpa g + seg_len g) gpa); [by left|].
  destruct (Z.le_gt_cases (gpa + len) (seg_gpa g)); [by right|]. exfalso.
  specialize (Hfree (Z.max gpa (seg_gpa g)) ltac:(lia)).
  assert (Hal : aligned (Z.max gpa (seg_gpa g))) by (by destruct (Z.max_spec gpa (seg_gpa g)) as [[_ ->]|[_ ->]]).
  specialize (Hfree Hal). unfold vm_mem_allocated in Hfree.
  apply not_true_iff_false in Hfree. apply Hfree. apply existsb_exists. exists g. split; [done|].
  rewrite u64_id by lia. apply andb_true_iff. split; [apply Z.leb_le|apply Z.ltb_lt]; lia.
Qed.

(** Allocation keeps the segments consistent. *)
Lemma malloc_segs_ok mapped gpa len s e s' : segs_ok s -> 0 <= gpa -> 0 <= len -> gpa + len < 2 ^ 64 ->
  vm_malloc mapped gpa len s = Return (e, s') -> segs_ok s'.
Proof.
  intros Hs Hg Hl Htop. unfold vm_malloc. destruct (_ || _) eqn:Ealign; [by intros [= <- <-]|].
  apply orb_false_iff in Ealign as [Ealign El0]. apply orb_false_iff in Ealign as [Eg El].
  apply tst_page_mask in Eg, El. bools. unfold bind at 1, gets at 1. rewrite u64_id by lia.
  destruct (count_pages_spec s (gpa + len) (S (Z.to_nat (len / XHYVE_PAGE_SIZE)))
    ltac:(by apply aligned_add) Htop gpa 0 0 ltac:(lia) Eg) as (a & v & -> & Ha & Hfree).
  { unfold aligned, XHYVE_PAGE_SIZE in *. rewrite Nat2Z.inj_succ, Z2Nat.id by (apply Z.div_pos; lia).
    Z.to_euclidean_division_equations. lia. }
  destruct (negb (a =? 0) && negb (v =? 0)) eqn:E1; [by intros [= <- <-]|].
  destruct (negb (a =? 0) && (v =? 0)) eqn:E2; [by intros [= <- <-]|].
  assert (a = 0) as ->.
  { destruct (Z.eqb_spec a 0); [done|]. cbn in E1, E2. by destruct (v =? 0). }
  specialize (Hfree eq_refl). unfold bind at 1, gets at 1.
  destruct (VM_MAX_MEMORY_SEGMENTS <=? Z.of_nat (length (mem_segs s))) eqn:Ec; [by intros [= <- <-]|].
  bools. unfold VM_MAX_MEMORY_SEGMENTS in Ec. unfold bind, vmm_mem_alloc, KASSERT, gets, update, ret.
  destruct mapped; [|done]. intros [= <- <-].
  pose proof (unallocated_apart s gpa len (next_object s) Hs Hg ltac:(lia) Eg El Htop ltac:(lia) Hfree) as Hap.
  destruct Hs as [He Hp Hn]. split; cbn.
  - apply Forall_app_2.
    + eapply Forall_impl; [exact He|]. intros g [? ? ? (o & ? & ?)]. split; try done. exists o. split; [done|]. cbn. lia.
    + constructor; [|done]. split; cbn; try done; [by split; [lia|]|]. exists (next_object s). split; [done|lia].
  - clear -Hp Hap. induction Hp as [|g l Hg Hp IH]; cbn; [by repeat constructor|].
    apply Forall_cons in Hap as [Hga Hap]. constructor; [|by apply IH].
    apply Forall_app_2; [done|by constructor].
  - rewrite length_app. cbn. lia.
Qed.

(** The machines that allocation can build. *)
Inductive mem_reach : M -> Prop :=
| mr_init s : mem_segs s = [] -> mem_reach s
| mr_malloc s mapped gpa len e s' : mem_reach s -> 0 <= gpa -> 0 <= len -> gpa + len < 2 ^ 64 ->
    vm_malloc mapped gpa len s = Return (e, s') -> mem_reach s'
| mr_other s s' : mem_reach s -> mem_segs s' = mem_segs s -> next_object s' = next_object s -> mem_reach s'.

Lemma mem_reach_ok s : mem_reach s -> segs_ok s.
Proof.
  induction 1 as [s E|s mapped gpa len e s' _ IH Hg Hl Ht Hr|s s' _ IH E1 E2].
  - split; rewrite E; [done|constructor|cbn; lia].
  - by apply (malloc_segs_ok mapped gpa len s e).
  - destruct IH. split; rewrite E1, ?E2; done.
Qed.

Lemma memobj_in_bounds s gpa len h : segs_ok s -> 0 <= gpa -> 0 <= len -> gpa + len < 2 ^ 64 ->
  vm_gpa2hva gpa len s = Some h ->
  exists g o, In g (mem_segs s) /\ seg_object g = Some o /\ h = (o, gpa - seg_gpa g) /\
    0 <= gpa - seg_gpa g /\ gpa - seg_gpa g + len <= seg_len g.
Proof.
  intros Hs Hg Hl Ht. unfold vm_gpa2hva, vm_get_memobj.
  destruct (List.find _ _) as [g|] eqn:Ef; [|done]. apply List.find_some in Ef as [Hin Hc].
  destruct (seg_object g) as [o|] eqn:Eo; [|done]. intros [= <-].
  pose proof (proj1 (List.Forall_forall _ _) (sg_each s Hs) g Hin) as [[Hg0 _] [Hl0 _] Htop _].
  rewrite !u64_id in Hc by lia. bools. exists g, o. rewrite u64_id by lia.
  split; [done|]. split; [done|]. split; [done|]. lia.
Qed.

Lemma apart_in s g h : segs_ok s -> In g (mem_segs s) -> In h (mem_segs s) ->
  seg_object g = seg_object h -> g = h.
Proof.
  intros [_ Hp _]. induction Hp as [|x l Hx Hp IH]; [done|]. rewrite List.Forall_forall in Hx.
  intros [->|Hg] [->|Hh] E; [done|..]; [| |by apply IH].
  - destruct (Hx h Hh) as [_ H]. congruence.
  - destruct (Hx g Hg) as [_ H]. congruence.
Qed.

(** C21: However memory was allocated, a guest physical range that ends below
    2^64 and translates to host memory lies inside one allocation, and two such
    ranges never translate to the same host address.  Nothing is said of a
    range that wraps around the address space, which [vm_gpa2hva] does not
    refuse, see [gpa2hva_wraps]. *)
Theorem guest_memory_safe s gpa len h (Hr : mem_reach s) (Hg : 0 <= gpa) (Hl : 0 <= len)
    (Htop : gpa + len < 2 ^ 64) (Hh : vm_gpa2hva gpa len s = Some h) :
  (exists g o, In g (mem_segs s) /\ seg_object g = Some o /\ h = (o, gpa - seg_gpa g) /\
     0 <= gpa - seg_gpa g /\ gpa - seg_gpa g + len <= seg_len g) /\
  (forall gpa' len', 0 <= gpa' -> 0 <= len' -> gpa' + len' < 2 ^ 64 ->
     vm_gpa2hva gpa' len' s = Some h -> gpa' = gpa).
Proof.
  pose proof (mem_reach_ok s Hr) as Hs. split; [by apply memobj_in_bounds|].
  intros gpa' len' Hg' Hl' Ht' Hh'.
  destruct (memobj_in_bounds s gpa len h Hs Hg Hl Htop Hh) as (g & o & Hin & Ho & -> & _).
  destruct (memobj_in_bounds s gpa' len' _ Hs Hg' Hl' Ht' Hh') as (g' & o' & Hin' & Ho' & E & _).
  injection E as <- E. assert (g = g') as -> by (apply (apart_in s); congruence). lia.
Qed.
End Memory.

(** Two segments, as the command line sets them up: low memory and memory
    above 4 GiB. *)
Definition low_memory : vm regs unit :=
  machine frozen <| mem_segs := [mk_seg 0 0x10000 (Some 2)] |> <| next_object := 3 |>.
Definition two_segments : vm regs unit :=
  low_memory <| mem_segs ::= fun l => l ++ [mk_seg 0x100000000 0x20000 (Some 3)] |> <| next_object := 4 |>.

Lemma guest_memory_safe_witness : mem_reach two_segments /\
  (exists g o, In g (mem_segs two_segments) /\ seg_object g = Some o /\
     (3, 0xff8) = (o, 0x100000ff8 - seg_gpa g) /\
     0 <= 0x100000ff8 - seg_gpa g /\ 0x100000ff8 - seg_gpa g + 8 <= seg_len g).
Proof.
  assert (H : mem_reach two_segments).
  { apply (mr_malloc low_memory true 0x100000000 0x20000 0); try lia; [|reflexivity].
    apply (mr_malloc (machine frozen <| mem_segs := [] |>) true 0 0x10000 0); try lia; [|reflexivity].
    apply mr_init. reflexivity. }
  split; [exact H|].
  apply (guest_memory_safe two_segments 0x100000ff8 8 (3, 0xff8)); try lia; [exact H|reflexivity].
Defined.

(** A range that ends exactly at [2 ^ 64] passes the bound check of
    [vm_get_memobj], whose sum wraps to 0, and translates to an offset far
    outside the allocation. *)
Example gpa2hva_wraps : vm_gpa2hva (2 ^ 64 - 8) 8 (machine frozen) = Some (1, 2 ^ 64 - 8).
Proof. vm_compute. reflexivity. Qed.
