(* ===== verification/Paging.v ===== *)
(** * Guest page tables (src/src/vmm/vmm_instruction_emul.c, src/src/vmm/vmm.c)

    [vm_gla2gpa] walks the guest's page tables in guest memory, checks
    permissions, sets the accessed and dirty bits with compare-and-set and
    starts again when another CPU changed an entry in between.  [others a k] is
    what the other CPUs do to the machine just before the [k]-th
    compare-and-set of attempt [a]; the number of attempts is bounded by
    [fuel] (running out of it is the outcome [Hang]).  On top of it,
    [vm_copy_setup], [vm_copyin] and [vm_copyout] access guest memory by
    linear address. *)

From S2P Require Import Prelude Effects VmmCommon VieDecode Vmm.

Local Open Scope cmd_scope.

Definition PG_V : Z := 0x001.
Definition PG_RW : Z := 0x002.
Definition PG_U : Z := 0x004.
Definition PG_A : Z := 0x020.
Definition PG_M : Z := 0x040.
Definition PG_PS : Z := 0x080.
Definition PGEX_P : Z := 0x01.
Definition PGEX_W : Z := 0x02.
Definition PGEX_U : Z := 0x04.
Definition PGEX_RSV : Z := 0x08.
Definition PGEX_I : Z := 0x10.
Definition GB : Z := 1024 * 1024 * 1024.

Definition XHYVE_PROT_READ : Z := 1.
Definition XHYVE_PROT_WRITE : Z := 2.
Definition XHYVE_PROT_EXECUTE : Z := 4.

Definition CR0_AM : Z := 0x00040000.
Definition PSL_AC : Z := 0x00040000.

(** ** Host memory *)

Definition hva_add (h : hva) (n : Z) : hva := (h.1, h.2 + n).

(** The [n] bytes at [h]. *)
Definition read_bytes_at (n : nat) (h : hva) (m : hva -> Z) : list Z :=
  map (fun k => m (hva_add h (Z.of_nat k))) (seq 0 n).

Definition write_bytes_at (h : hva) (l : list Z) (m : hva -> Z) : hva -> Z := fun a =>
  if (a.1 =? h.1) && (h.2 <=? a.2) && (a.2 <? h.2 + Z.of_nat (length l))
  then nth (Z.to_nat (a.2 - h.2)) l 0 else m a.

(** A little-endian integer of [n] bytes. *)
Definition load (n : nat) (h : hva) (m : hva -> Z) : Z := le_combine (read_bytes_at n h m).
Definition store (n : nat) (h : hva) (v : Z) (m : hva -> Z) : hva -> Z := write_bytes_at h (le_split n v) m.

(** ** Checks on linear addresses *)

Definition is_size (n : Z) : bool := (n =? 1) || (n =? 2) || (n =? 4) || (n =? 8).

Definition vie_size2mask {S} (size : Z) : cmd S Z := KASSERT (is_size size) ;;; ret (size2mask size).

Definition vie_alignment_check {S} (cpl size cr0 rf gla : Z) : cmd S bool :=
  KASSERT (is_size size) ;;;
  KASSERT ((0 <=? cpl) && (cpl <=? 3)) ;;;
  ret (if negb (cpl =? 3) || negb (tst cr0 CR0_AM) || negb (tst rf PSL_AC) then false
       else tst gla (u64 (size - 1))).

Definition vie_canonical_check (cpu_mode : vm_cpu_mode) (gla : Z) : bool :=
  if negb (bool_decide (cpu_mode = CPU_MODE_64BIT)) then false
  else
    let mask := u64 (Z.lnot (Z.shiftl 1 48 - 1)) in
    if tst gla (Z.shiftl 1 47) then negb (Z.land gla mask =? mask) else negb (Z.land gla mask =? 0).

(** [pf_error_code]: [rsvd] and [usermode] are flags. *)
Definition pf_error_code (usermode : bool) (prot : Z) (rsvd : bool) (pte : Z) : Z :=
  let c := if tst pte PG_V then PGEX_P else 0 in
  let c := if tst prot XHYVE_PROT_WRITE then Z.lor c PGEX_W else c in
  let c := if usermode then Z.lor c PGEX_U else c in
  let c := if rsvd then Z.lor c PGEX_RSV else c in
  if tst prot XHYVE_PROT_EXECUTE then Z.lor c PGEX_I else c.

(** How one attempt of the walk ends: at the entry [w_pte] stored at [w_at]
    with [ptpshift], with a fault injected, at an address that is not memory,
    or with a failed compare-and-set. *)
Inductive walk : Type :=
| WLeaf (w_at : hva) (w_pte ptpshift : Z)
| WFault
| WError
| WRestart.

Section Walk.
Context {X D : Type} `{!VmmOps X}.
Local Abbreviation M := (vm X D).
Context (others : nat -> nat -> M -> M).
Context (vcpuid : Z).

(** [atomic_cmpset_32/64(p, old, new)] by the number of bytes. *)
Definition atomic_cmpset (attempt k n : nat) (p : hva) (old new : Z) : cmd M bool :=
  update (others attempt k) ;;;
  cur <- gets (fun s => load n p (host_mem s)) ;;
  if cur =? old then update (fun s => s <| host_mem ::= store n p new |>) ;;; ret true
  else ret false.

Section Params.
Context (paging : vm_guest_paging) (gla prot : Z).

Definition usermode : bool := cpl paging =? 3.
Definition writable : bool := tst prot XHYVE_PROT_WRITE.

(** The checks on an entry, at either width. *)
Definition entry_denied (pte : Z) : bool :=
  negb (tst pte PG_V) || (usermode && negb (tst pte PG_U)) || (writable && negb (tst pte PG_RW)).

Definition deny (rsvd : bool) (pte : Z) : cmd M walk :=
  vm_inject_pf vcpuid (pf_error_code usermode prot rsvd pte) gla ;;; ret WFault.

(** Setting the accessed bit; [k] continues unless the entry changed. *)
Definition set_accessed (attempt lvl n : nat) (at_ : hva) (pte : Z) (k : cmd M walk) : cmd M walk :=
  if negb (tst pte PG_A) then
    ok <- atomic_cmpset attempt lvl n at_ pte (Z.lor pte PG_A) ;;
    if ok then k else ret WRestart
  else k.

(** The loop of [PAGING_MODE_32]; the argument is [nlevels + 1] at the head. *)
Fixpoint walk32 (attempt levels : nat) (ptpphys : Z) (last : walk) : cmd M walk :=
  match levels with
  | O => ret last
  | S nlevels =>
      let ptpphys := clr ptpphys 0xfff in
      base <- gets (vm_gpa2hva ptpphys XHYVE_PAGE_SIZE) ;;
      match base with
      | None => ret WError
      | Some base =>
          let ptpshift := XHYVE_PAGE_SHIFT + Z.of_nat nlevels * 10 in
          let ptpindex := Z.land (Z.shiftr gla ptpshift) 0x3FF in
          let at_ := hva_add base (4 * ptpindex) in
          pte <- gets (fun s => load 4 at_ (host_mem s)) ;;
          if entry_denied pte then deny false pte
          else
            set_accessed attempt nlevels 4 at_ pte
              (let leaf := WLeaf at_ pte ptpshift in
               if negb (Nat.eqb nlevels 0) && tst pte PG_PS then ret leaf
               else walk32 attempt nlevels pte leaf)
      end
  end.

(** The loop of the 64-bit formats. *)
Fixpoint walk64 (attempt levels : nat) (ptpphys : Z) (last : walk) : cmd M walk :=
  match levels with
  | O => ret last
  | S nlevels =>
      let ptpphys := Z.shiftr (u64 (Z.shiftl (Z.shiftr ptpphys 12) 24)) 12 in
      base <- gets (vm_gpa2hva ptpphys XHYVE_PAGE_SIZE) ;;
      match base with
      | None => ret WError
      | Some base =>
          let ptpshift := XHYVE_PAGE_SHIFT + Z.of_nat nlevels * 9 in
          let ptpindex := Z.land (Z.shiftr gla ptpshift) 0x1FF in
          let at_ := hva_add base (8 * ptpindex) in
          pte <- gets (fun s => load 8 at_ (host_mem s)) ;;
          if entry_denied pte then deny false pte
          else
            set_accessed attempt nlevels 8 at_ pte
              (let leaf := WLeaf at_ pte ptpshift in
               if negb (Nat.eqb nlevels 0) && tst pte PG_PS then
                 (if GB <? Z.shiftl 1 ptpshift then deny true pte else ret leaf)
               else walk64 attempt nlevels pte leaf)
      end
  end.

(** The root of the 64-bit formats: in PAE mode through one of four pointers. *)
Definition walk_pae (attempt : nat) : cmd M walk :=
  let ptpphys := Z.land (cr3 paging) 0xffffffe0 in
  base <- gets (vm_gpa2hva ptpphys (8 * 4)) ;;
  match base with
  | None => ret WError
  | Some base =>
      let ptpindex := Z.land (Z.shiftr gla 30) 0x3 in
      pte <- gets (fun s => load 8 (hva_add base (8 * ptpindex)) (host_mem s)) ;;
      if negb (tst pte PG_V) then deny false pte
      else walk64 attempt 2 pte WError
  end.

(** Setting the dirty bit of the last entry. *)
Definition set_dirty (attempt n : nat) (w : walk) : cmd M walk :=
  match w with
  | WLeaf at_ pte ptpshift =>
      if writable && negb (tst pte PG_M) then
        ok <- atomic_cmpset attempt 9 n at_ pte (Z.lor pte PG_M) ;;
        if ok then ret w else ret WRestart
      else ret w
  | _ => ret w
  end.

(** The guest physical address an entry gives. *)
Definition leaf32 (pte ptpshift : Z) : Z :=
  Z.lor (u32 (Z.shiftl (Z.shiftr pte ptpshift) ptpshift)) (Z.land gla (Z.shiftl 1 ptpshift - 1)).

Definition leaf64 (pte ptpshift : Z) : Z :=
  Z.lor (Z.shiftr (u64 (Z.shiftl (Z.shiftr pte ptpshift) (ptpshift + 12))) 12)
        (Z.land gla (Z.shiftl 1 ptpshift - 1)).

(** One attempt: the walk, and on success the address. *)
Definition attempt_walk (attempt : nat) : cmd M (walk * Z) :=
  match paging_mode paging with
  | PAGING_MODE_FLAT => ret (WLeaf (0, 0) 0 0, gla)
  | PAGING_MODE_32 =>
      w <- walk32 attempt 2 (cr3 paging) WError ;;
      w <- set_dirty attempt 4 w ;;
      ret (w, match w with WLeaf _ pte sh => leaf32 pte sh | _ => 0 end)
  | PAGING_MODE_PAE | PAGING_MODE_64 =>
      w <- match paging_mode paging with
           | PAGING_MODE_PAE => walk_pae attempt
           | _ => walk64 attempt 4 (cr3 paging) WError
           end ;;
      w <- set_dirty attempt 8 w ;;
      ret (w, match w with WLeaf _ pte sh => leaf64 pte sh | _ => 0 end)
  end.

(** Result: [retval], [*guest_fault], [*gpa]. *)
Fixpoint gla2gpa_loop (fuel attempt : nat) : cmd M (Z * bool * Z) :=
  match fuel with
  | O => fun _ => Hang
  | S fuel =>
      if vie_canonical_check (cpu_mode paging) gla then
        vm_inject_gp vcpuid ;;; ret (0, true, 0)
      else
        r <- attempt_walk attempt ;;
        match r.1 with
        | WLeaf _ _ _ => ret (0, false, r.2)
        | WFault => ret (0, true, 0)
        | WError => ret (EFAULT, false, 0)
        | WRestart => gla2gpa_loop fuel (S attempt)
        end
  end.

Definition vm_gla2gpa (fuel : nat) : cmd M (Z * bool * Z) := gla2gpa_loop fuel 0.
End Params.

(** ** Copying by linear address *)

Record vm_copyinfo : Type := mk_copyinfo { ci_hva : hva; ci_len : Z }.

(** The first loop of [vm_copy_setup]; [slots] is [num_copyinfo - nused]. *)
Fixpoint setup_pages (fuel slots : nat) (paging : vm_guest_paging) (prot gla remaining : Z)
    (k : Z -> bool -> list (Z * Z) -> cmd M (Z * bool * list vm_copyinfo)) :
    cmd M (Z * bool * list vm_copyinfo) :=
  if 0 <? remaining then
    match slots with
    | O => fun _ => Panic
    | S slots =>
        r <- vm_gla2gpa paging gla prot fuel ;;
        let '(error, fault, gpa) := r in
        if negb (error =? 0) || fault then ret (error, fault, [])
        else
          let off := Z.land gpa XHYVE_PAGE_MASK in
          let n := Z.min remaining (XHYVE_PAGE_SIZE - off) in
          setup_pages fuel slots paging prot (u64 (gla + n)) (remaining - n)
            (fun e f l => k e f ((gpa, n) :: l))
    end
  else k 0 false [].

(** The second loop: the host address of each page, or none. *)
Fixpoint setup_hva (l : list (Z * Z)) (s : M) : option (list vm_copyinfo) :=
  match l with
  | [] => Some []
  | (gpa, n) :: l =>
      match vm_gpa2hva gpa n s with
      | None => None
      | Some h => match setup_hva l s with Some r => Some (mk_copyinfo h n :: r) | None => None end
      end
  end.

(** Result: return value, [*fault] and [copyinfo[]]. *)
Definition vm_copy_setup (fuel : nat) (paging : vm_guest_paging) (gla len prot : Z) (num_copyinfo : nat) :
    cmd M (Z * bool * list vm_copyinfo) :=
  setup_pages fuel num_copyinfo paging prot gla len (fun _ _ pages =>
    r <- gets (setup_hva pages) ;;
    match r with
    | None => ret (EFAULT, false, [])
    | Some l => ret (0, false, l)
    end).

Fixpoint copyin_loop (l : list vm_copyinfo) (len : Z) (m : hva -> Z) : list Z :=
  match l with
  | [] => []
  | c :: l => if 0 <? len then read_bytes_at (Z.to_nat (ci_len c)) (ci_hva c) m ++ copyin_loop l (len - ci_len c) m
              else []
  end.

Definition vm_copyin (l : list vm_copyinfo) (len : Z) : cmd M (list Z) :=
  gets (fun s => copyin_loop l len (host_mem s)).

Fixpoint copyout_loop (src : list Z) (l : list vm_copyinfo) (len : Z) (m : hva -> Z) : hva -> Z :=
  match l with
  | [] => m
  | c :: l => if 0 <? len
              then copyout_loop (drop (Z.to_nat (ci_len c)) src) l (len - ci_len c)
                     (write_bytes_at (ci_hva c) (take (Z.to_nat (ci_len c)) src) m)
              else m
  end.

Definition vm_copyout (src : list Z) (l : list vm_copyinfo) (len : Z) : cmd M unit :=
  update (fun s => s <| host_mem ::= copyout_loop src l len |>).
End Walk.

(** ** Bytes of memory *)

Definition bytes_ok (m : hva -> Z) : Prop := forall a, m a in_u 8.

Lemma read_bytes_S n h m : read_bytes_at (S n) h m = m h :: read_bytes_at n (hva_add h 1) m.
Proof.
  unfold read_bytes_at, hva_add. cbn [seq map]. f_equal.
  - destruct h as [b o]. cbn [fst snd]. by rewrite Z.add_0_r.
  - rewrite <- seq_shift, map_map. apply map_ext. intros k. f_equal. cbn. f_equal. lia.
Qed.

Lemma length_read_bytes n h m : length (read_bytes_at n h m) = n.
Proof. unfold read_bytes_at. by rewrite length_map, length_seq. Qed.

Lemma read_bytes_range n h m : bytes_ok m -> Forall (fun b => b in_u 8) (read_bytes_at n h m).
Proof. intros Hm. apply List.Forall_forall. intros b Hb. apply in_map_iff in Hb as (k & <- & _). apply Hm. Qed.

Lemma nth_read_bytes n h m k : (k < n)%nat -> nth k (read_bytes_at n h m) 0 = m (hva_add h (Z.of_nat k)).
Proof.
  intros Hk. unfold read_bytes_at.
  rewrite (nth_indep _ 0 (m (hva_add h (Z.of_nat 0)))) by (by rewrite length_map, length_seq).
  rewrite map_nth with (f := fun k => m (hva_add h (Z.of_nat k))). by rewrite seq_nth.
Qed.

Lemma read_write_same h l m : read_bytes_at (length l) h (write_bytes_at h l m) = l.
Proof.
  apply (nth_ext _ _ 0 0); [by rewrite length_read_bytes|]. intros k Hk. rewrite length_read_bytes in Hk.
  rewrite nth_read_bytes by done. unfold write_bytes_at, hva_add. cbn [fst snd].
  rewrite Z.eqb_refl. rewrite (proj2 (Z.leb_le _ _)) by lia. rewrite (proj2 (Z.ltb_lt _ _)) by lia.
  cbn [andb]. f_equal. lia.
Qed.

Lemma load_store n h v m : load n h (store n h v m) = v mod 2 ^ (8 * Z.of_nat n).
Proof.
  unfold load, store. rewrite <- (length_le_split n v) at 1. by rewrite read_write_same, le_combine_split.
Qed.

Lemma load_range n h m : bytes_ok m -> load n h m in_u (8 * Z.of_nat n).
Proof.
  intros Hm. pose proof (le_combine_range _ (read_bytes_range n h m Hm)) as H.
  by rewrite length_read_bytes in H.
Qed.

(** *** Setting accessed and dirty bits *)

(** Memory after some accessed and dirty bits of page table entries of [n]
    bytes have been set. *)
Definition ad_bits : list Z := [0; PG_A; PG_M; Z.lor PG_A PG_M].

Definition grows (n : nat) (m m' : hva -> Z) : Prop := forall a,
  if a.2 mod Z.of_nat n =? 0 then exists x, x ∈ ad_bits /\ m' a = Z.lor (m a) x else m' a = m a.

Lemma ad_lor x y : x ∈ ad_bits -> y ∈ ad_bits -> Z.lor x y ∈ ad_bits.
Proof. unfold ad_bits. intros Hx Hy. cases_in Hx; cases_in Hy; subst; cbn; member. Qed.

Lemma grows_refl n m : grows n m m.
Proof. intros a. split_if; [|done]. exists 0. split; [unfold ad_bits; member|by rewrite Z.lor_0_r]. Qed.

Lemma grows_trans n m1 m2 m3 : grows n m1 m2 -> grows n m2 m3 -> grows n m1 m3.
Proof.
  intros H1 H2 a. specialize (H1 a). specialize (H2 a). split_if; [|congruence].
  destruct H1 as (x & Hx & E1). destruct H2 as (y & Hy & E2). exists (Z.lor x y).
  split; [by apply ad_lor|]. by rewrite E2, E1, Z.lor_assoc.
Qed.

Lemma ad_range x : x ∈ ad_bits -> x in_u 8.
Proof. unfold ad_bits. intros Hx. by cases_in Hx; subst. Qed.

Lemma grows_bytes n m m' : grows n m m' -> bytes_ok m -> bytes_ok m'.
Proof.
  intros H Hm a. specialize (H a). split_if_in H; [|by rewrite H].
  destruct H as (x & Hx & ->). apply lor_in_u; [lia|apply Hm|by apply ad_range].
Qed.

Lemma lor_low8 b r x : b in_u 8 -> x in_u 8 -> Z.lor (b + 256 * r) x = Z.lor b x + 256 * r.
Proof.
  intros Hb Hx. assert (Hlx : Z.lor b x in_u 8) by (by apply lor_in_u).
  change 256 with (2 ^ 8). rewrite !add_lor_high by done. rewrite <- !Z.lor_assoc. f_equal. apply Z.lor_comm.
Qed.

Lemma le_split_lor n e x : x in_u 8 -> (0 < n)%nat ->
  le_split n (Z.lor e x) = Z.lor (e mod 256) x :: tail (le_split n e).
Proof.
  intros Hx Hn. destruct n as [|n]; [lia|]. cbn [le_split tail].
  rewrite (Z.div_mod e 256) at 1 2 by lia. rewrite (Z.add_comm (256 * _)).
  assert (Hm : e mod 256 in_u 8) by (by apply (mod_in_u 8)).
  rewrite lor_low8 by done. assert (Hl : Z.lor (e mod 256) x in_u 8) by (by apply lor_in_u).
  change (2 ^ 8) with 256 in Hl. rewrite (Z.mul_comm 256), Z.mod_add, Z.div_add by lia.
  rewrite Z.mod_small, Z.div_small by done. by rewrite Z.add_0_l.
Qed.

(** Storing an entry with more of these bits. *)
Lemma grows_store n h e x m : (0 < n)%nat -> bytes_ok m -> h.2 mod Z.of_nat n = 0 -> load n h m = e ->
  x ∈ ad_bits -> grows n m (store n h (Z.lor e x) m).
Proof.
  intros Hn Hm Hal He Hx a. pose proof (ad_range x Hx) as Hxr.
  assert (Hsplit : le_split n e = read_bytes_at n h m).
  { rewrite <- He. unfold load. rewrite <- (length_read_bytes n h m) at 1.
    by apply le_split_combine, read_bytes_range. }
  unfold store, write_bytes_at. rewrite length_le_split, le_split_lor, Hsplit by done.
  destruct (Z.eqb_spec a.1 h.1) as [E1|E1]; cbn [andb]; [|apply (grows_refl n m a)].
  destruct (Z.leb_spec h.2 a.2) as [E2|E2]; cbn [andb]; [|apply (grows_refl n m a)].
  destruct (Z.ltb_spec a.2 (h.2 + Z.of_nat n)) as [E3|E3]; cbn [andb]; [|apply (grows_refl n m a)].
  assert (Hmod : a.2 mod Z.of_nat n = a.2 - h.2).
  { replace a.2 with (h.2 + (a.2 - h.2)) at 1 by lia.
    rewrite Z.add_mod, Hal, Z.add_0_l, Z.mod_mod by lia. apply Z.mod_small. lia. }
  rewrite Hmod. remember (Z.to_nat (a.2 - h.2)) as k eqn:Ek.
  destruct (Z.eqb_spec (a.2 - h.2) 0) as [E0|E0].
  - assert (k = 0%nat) as -> by lia. cbn [nth]. exists x. split; [done|]. f_equal.
    assert (a = h) as -> by (destruct a, h; cbn in *; f_equal; lia).
    destruct n as [|n]; [lia|]. rewrite read_bytes_S in Hsplit. cbn [le_split] in Hsplit. by injection Hsplit.
  - destruct k as [|k]; [lia|]. cbn [nth]. destruct n as [|n]; [lia|].
    rewrite read_bytes_S. cbn [tail]. rewrite nth_read_bytes by lia. f_equal.
    unfold hva_add. destruct a, h; cbn in *; f_equal; lia.
Qed.

(** Reading an entry after some of these bits were set. *)
Lemma grows_load n h m m' : (0 < n)%nat -> bytes_ok m -> h.2 mod Z.of_nat n = 0 -> grows n m m' ->
  exists x, x ∈ ad_bits /\ load n h m' = Z.lor (load n h m) x.
Proof.
  intros Hn Hm Hal Hg. destruct n as [|n]; [lia|]. pose proof (Hg h) as H0. rewrite Hal in H0. cbn in H0.
  destruct H0 as (x & Hx & E0). exists x. split; [done|]. unfold load. rewrite !read_bytes_S. cbn [le_combine].
  rewrite lor_low8 by (try apply Hm; by apply ad_range). rewrite E0. f_equal. f_equal. f_equal.
  apply (nth_ext _ _ 0 0); [by rewrite !length_read_bytes|]. intros k Hk. rewrite length_read_bytes in Hk.
  rewrite !nth_read_bytes by done. specialize (Hg (hva_add (hva_add h 1) (Z.of_nat k))). cbn [snd hva_add] in Hg.
  replace ((h.2 + 1 + Z.of_nat k) mod Z.of_nat (S n)) with (1 + Z.of_nat k) in Hg.
  { by rewrite (proj2 (Z.eqb_neq _ 0)) in Hg by lia. }
  rewrite <- Z.add_assoc, Z.add_mod, Hal, Z.add_0_l, Z.mod_mod by lia. symmetry. apply Z.mod_small. lia.
Qed.

(** *** These bits do not affect a translation *)

Lemma ad_tst e x m : x ∈ ad_bits -> Z.land m (Z.lor PG_A PG_M) = 0 -> tst (Z.lor e x) m = tst e m.
Proof.
  intros Hx Hm. unfold tst. rewrite Z.land_lor_distr_l.
  assert (Z.land x m = 0) as ->; [|by rewrite Z.lor_0_r].
  assert (x = Z.land x (Z.lor PG_A PG_M)) as ->.
  { unfold ad_bits in Hx. by cases_in Hx; subst. }
  by rewrite <- Z.land_assoc, (Z.land_comm _ m), Hm, Z.land_0_r.
Qed.

Lemma ad_shiftr e x k : x ∈ ad_bits -> 12 <= k -> Z.shiftr (Z.lor e x) k = Z.shiftr e k.
Proof.
  intros Hx Hk. rewrite Z.shiftr_lor. assert (Z.shiftr x k = 0) as ->; [|by rewrite Z.lor_0_r].
  pose proof (ad_range x Hx). rewrite Z.shiftr_div_pow2 by lia. apply Z.div_small.
  pose proof (Z.pow_le_mono_r 2 8 k ltac:(lia) ltac:(lia)). lia.
Qed.

Lemma clr_page x : 0 <= x -> clr x 0xfff = x / 4096 * 4096.
Proof.
  intros Hx. unfold clr. change 0xfff with (Z.ones 12). rewrite <- Z.ldiff_land, Z.ldiff_ones_r by lia.
  rewrite Z.shiftl_mul_pow2, Z.shiftr_div_pow2 by lia. done.
Qed.

Lemma clip_page x : 0 <= x -> Z.shiftr (u64 (Z.shiftl (Z.shiftr x 12) 24)) 12 = (x / 4096) mod 2 ^ 40 * 4096.
Proof.
  intros Hx. unfold u64. rewrite Z.shiftl_mul_pow2, !Z.shiftr_div_pow2 by lia.
  change (2 ^ 64) with (2 ^ 40 * 2 ^ 24). rewrite Z.mul_mod_distr_r by lia.
  change (2 ^ 24) with (4096 * 2 ^ 12). rewrite Z.mul_assoc, Z.div_mul by lia. done.
Qed.

Lemma index_mod g sh k m : 0 <= sh -> 0 <= k -> m = Z.ones k -> Z.land (Z.shiftr g sh) m = (g / 2 ^ sh) mod 2 ^ k.
Proof. intros H1 H2 ->. by rewrite Z.land_ones, Z.shiftr_div_pow2 by done. Qed.

(** ** The translation the page tables describe *)

Inductive translation : Type :=
| Gpa (gpa : Z)
| PageFault (code : Z)
| GeneralProtection
| NotMemory.

(** Where a walk ends in the page tables. *)
Inductive ref_end : Type :=
| RLeaf (at_ : hva) (pte sh : Z)
| RFault (rsvd : bool) (pte : Z)
| RBad.

Section Reference.
Context {X D : Type}.
Local Abbreviation M := (vm X D).
Context (s : M) (paging : vm_guest_paging) (gla prot : Z).

Definition offset_in (sh : Z) : Z := gla mod 2 ^ sh.

(** The tables of 1024 four-byte entries; [sh] is 22, then 12. *)
Fixpoint ref32 (shifts : list Z) (table : Z) : ref_end :=
  match shifts with
  | [] => RBad
  | sh :: rest =>
      match vm_gpa2hva (table / 4096 * 4096) 4096 s with
      | None => RBad
      | Some h =>
          let at_ := hva_add h (4 * ((gla / 2 ^ sh) mod 1024)) in
          let e := load 4 at_ (host_mem s) in
          if entry_denied paging prot e then RFault false e
          else if (12 <? sh) && negb (tst e PG_PS) then ref32 rest e
          else RLeaf at_ e sh
      end
  end.

(** The tables of 512 eight-byte entries; [sh] is 39, 30, 21, 12.  A page of
    512 GB is a reserved encoding. *)
Fixpoint ref64 (shifts : list Z) (table : Z) : ref_end :=
  match shifts with
  | [] => RBad
  | sh :: rest =>
      match vm_gpa2hva ((table / 4096) mod 2 ^ 40 * 4096) 4096 s with
      | None => RBad
      | Some h =>
          let at_ := hva_add h (8 * ((gla / 2 ^ sh) mod 512)) in
          let e := load 8 at_ (host_mem s) in
          if entry_denied paging prot e then RFault false e
          else if (12 <? sh) && negb (tst e PG_PS) then ref64 rest e
          else if sh =? 39 then RFault true e
          else RLeaf at_ e sh
      end
  end.

Definition ref_pae : ref_end :=
  match vm_gpa2hva (Z.land (cr3 paging) 0xffffffe0) 32 s with
  | None => RBad
  | Some h =>
      let e := load 8 (hva_add h (8 * ((gla / 2 ^ 30) mod 4))) (host_mem s) in
      if negb (tst e PG_V) then RFault false e else ref64 [21; 12] e
  end.

Definition non_canonical : bool :=
  bool_decide (cpu_mode paging = CPU_MODE_64BIT) && negb ((gla <? 2 ^ 47) || (2 ^ 64 - 2 ^ 47 <=? gla)).

Definition of_end (width : Z) (r : ref_end) : translation :=
  match r with
  | RLeaf _ e sh => Gpa ((e mod 2 ^ width) / 2 ^ sh * 2 ^ sh + offset_in sh)
  | RFault rsvd e => PageFault (pf_error_code (usermode paging) prot rsvd e)
  | RBad => NotMemory
  end.

Definition ref_translate : translation :=
  if non_canonical then GeneralProtection
  else match paging_mode paging with
       | PAGING_MODE_FLAT => Gpa gla
       | PAGING_MODE_32 => of_end 32 (ref32 [22; 12] (cr3 paging))
       | PAGING_MODE_PAE => of_end 52 ref_pae
       | PAGING_MODE_64 => of_end 52 (ref64 [39; 30; 21; 12] (cr3 paging))
       end.
End Reference.

(** ** The walk follows the tables *)
Section Correct.
Context {X D : Type} `{!VmmOps X, !VmmLaws X}.
Local Abbreviation M := (vm X D).
Context (others : nat -> nat -> M -> M) (vcpuid : Z) (Hi : is_vcpu vcpuid).
Context (paging : vm_guest_paging) (gla prot : Z) (Hgla : gla in_u 64).
Context (s0 : M) (Hsegs : segs_ok s0) (Hbytes : bytes_ok (host_mem s0)) (Hcpus : has_vcpus s0)
  (Hinj : can_inject vcpuid s0).

(** No other CPU interferes with this attempt. *)
Definition quiet (attempt : nat) : Prop := forall k s, others attempt k s = s.

(** Only accessed and dirty bits have changed since [s0]. *)
Definition like (n : nat) (s : M) : Prop :=
  s = s0 <| host_mem := host_mem s |> /\ grows n (host_mem s0) (host_mem s).

(** [s0] with a page fault injected. *)
Definition pf_raised (n : nat) (code : Z) (s' : M) : Prop :=
  faulted vcpuid IDT_PF true code s0 s' /\ grows n (host_mem s0) (host_mem s') /\
  mem_segs s' = mem_segs s0 /\ devices s' = devices s0 /\
  (vmgetreg vcpuid VM_REG_GUEST_CR2 (cookie s')).2 = gla.

Lemma like_gpa2hva n s a l : like n s -> vm_gpa2hva a l s = vm_gpa2hva a l s0.
Proof. intros [-> _]. done. Qed.

Lemma like_store n s h e x : (0 < n)%nat -> like n s -> h.2 mod Z.of_nat n = 0 ->
  load n h (host_mem s) = e -> x ∈ ad_bits -> like n (s <| host_mem ::= store n h (Z.lor e x) |>).
Proof.
  intros Hn [E Hg] Hal He Hx. split; [rewrite E; by destruct s|]. cbn.
  eapply grows_trans; [done|]. apply grows_store; try done. by apply (grows_bytes n (host_mem s0)).
Qed.

Lemma lor_range e x n : (0 < n)%nat -> e in_u (8 * Z.of_nat n) -> x ∈ ad_bits -> Z.lor e x in_u (8 * Z.of_nat n).
Proof.
  intros Hn He Hx. apply lor_in_u; [lia|done|]. apply (in_u_le 8); [lia|by apply ad_range].
Qed.

(** A compare-and-set that sets [x] in an entry just read succeeds. *)
Lemma wp_cmpset attempt k n h e x Q s : quiet attempt -> (0 < n)%nat -> like n s ->
  h.2 mod Z.of_nat n = 0 -> load n h (host_mem s) = e -> x ∈ ad_bits ->
  (forall s', like n s' -> grows n (host_mem s) (host_mem s') ->
     load n h (host_mem s') = Z.lor e x -> Q true s') ->
  wp (atomic_cmpset others attempt k n h e (Z.lor e x)) Q s.
Proof.
  intros Hq Hn Hl Hal He Hx HQ. unfold atomic_cmpset. apply wp_bind, wp_update. rewrite Hq.
  apply wp_bind, wp_gets. rewrite He, Z.eqb_refl. apply wp_bind, wp_update, wp_ret.
  assert (Hb : bytes_ok (host_mem s)) by (destruct Hl as [_ Hg]; by apply (grows_bytes n (host_mem s0))).
  apply HQ; [by apply like_store|by apply grows_store|]. cbn. rewrite load_store. apply Z.mod_small. apply lor_range; try done.
  rewrite <- He. by apply load_range.
Qed.

Lemma lor_same_bit e k : 0 <= k -> Z.testbit e k = true -> Z.lor e (bit k) = e.
Proof.
  intros Hk Ht. apply Z.bits_inj'. intros j Hj. rewrite Z.lor_spec, bit_testbit by done.
  destruct (Z.eqb_spec k j) as [->|]; [by rewrite Ht|by rewrite orb_false_r].
Qed.

Lemma wp_set_accessed attempt lvl n at_ e k Q s : quiet attempt -> (0 < n)%nat -> like n s ->
  at_.2 mod Z.of_nat n = 0 -> load n at_ (host_mem s) = e ->
  (forall s', like n s' -> grows n (host_mem s) (host_mem s') ->
     load n at_ (host_mem s') = Z.lor e PG_A -> wp k Q s') ->
  wp (set_accessed others attempt lvl n at_ e k) Q s.
Proof.
  intros Hq Hn Hl Hal He Hk. unfold set_accessed. destruct (tst e PG_A) eqn:Et; cbn [negb].
  - apply Hk; [done|apply grows_refl|]. rewrite He. change PG_A with (bit 5) in *. rewrite tst_bit in Et by lia.
    by rewrite lor_same_bit.
  - apply wp_bind. apply wp_cmpset; try done. unfold ad_bits. member.
Qed.

Lemma wp_deny n rsvd e x Q s : like n s -> x ∈ ad_bits ->
  (forall s', pf_raised n (pf_error_code (usermode paging) prot rsvd e) s' -> Q WFault s') ->
  wp (deny vcpuid paging gla prot rsvd (Z.lor e x)) Q s.
Proof.
  intros Hl Hx HQ. unfold deny.
  replace (pf_error_code (usermode paging) prot rsvd (Z.lor e x))
    with (pf_error_code (usermode paging) prot rsvd e) by (unfold pf_error_code; by rewrite ad_tst).
  apply wp_bind. destruct Hl as [El Hg]. eapply wp_conseq.
  - apply inject_pf_spec; try done.
    + by rewrite El.
    + unfold pf_error_code. repeat split_if; by vm_compute.
    + rewrite El. exact Hinj.
  - cbv beta. intros _ s' (Hf & (Hm & Hh & Hd & _) & _ & Hcr). apply wp_ret, HQ.
    unfold pf_raised, faulted in *. rewrite Hh, Hm, Hd, Hf, Hcr, El. cbn.
    rewrite get_set_ne, get_set by done. done.
Qed.

(** What a walk that starts with memory [m] yields, by where the tables end it. *)
Definition walk_result (n : nat) (m : hva -> Z) (r : ref_end) (w : walk) (s' : M) : Prop :=
  match r with
  | RLeaf at_ e sh => like n s' /\ at_.2 mod Z.of_nat n = 0 /\ 12 <= sh <= 39 /\
      exists x, x ∈ ad_bits /\ w = WLeaf at_ (Z.lor e x) sh /\
                load n at_ (host_mem s') = Z.lor (Z.lor e x) PG_A /\
                (tst (load n at_ m) PG_A = true -> tst (Z.lor e x) PG_A = true)
  | RFault rsvd e => w = WFault /\ pf_raised n (pf_error_code (usermode paging) prot rsvd e) s'
  | RBad => w = WError /\ like n s'
  end.

Lemma accessed_stays n h m m' : (0 < n)%nat -> bytes_ok m -> h.2 mod Z.of_nat n = 0 -> grows n m m' ->
  tst (load n h m) PG_A = true -> tst (load n h m') PG_A = true.
Proof.
  intros Hn Hm Hal Hg Ht. destruct (grows_load n h m m' Hn Hm Hal Hg) as (x & _ & ->).
  change PG_A with (bit 5) in *. rewrite !tst_bit in * by lia. by rewrite Z.lor_spec, Ht.
Qed.

Lemma walk_result_mono n m m' r w s : (0 < n)%nat -> bytes_ok m -> grows n m m' ->
  walk_result n m' r w s -> walk_result n m r w s.
Proof.
  intros Hn Hm Hg. destruct r; try done. intros (H1 & H2 & H3 & x & H4 & H5 & H6 & H7).
  split; [done|]. split; [done|]. split; [done|]. exists x. split; [done|]. split; [done|]. split; [done|].
  intros Ha. apply H7. by apply (accessed_stays n _ m).
Qed.

Lemma entry_denied_ad e x : x ∈ ad_bits -> entry_denied paging prot (Z.lor e x) = entry_denied paging prot e.
Proof. intros Hx. unfold entry_denied. by rewrite !ad_tst. Qed.

(** Entries are aligned in host memory. *)
Lemma table_aligned a l h k idx : 0 <= a -> 0 <= l -> a + l < 2 ^ 64 -> a mod k = 0 -> 0 < k -> 4096 mod k = 0 ->
  vm_gpa2hva a l s0 = Some h -> (hva_add h (k * idx)).2 mod k = 0.
Proof.
  intros Ha Hl Ht Hak Hk H4k Hh.
  destruct (memobj_in_bounds s0 a l h Hsegs Ha Hl Ht Hh) as (g & o & Hin & _ & -> & _). cbn.
  pose proof (proj1 (List.Forall_forall _ _) (sg_each s0 Hsegs) g Hin) as [[_ Hg] _ _ _].
  unfold aligned, XHYVE_PAGE_SIZE in Hg. rewrite Z.mul_comm, Z.mod_add by lia.
  assert (Hgk : seg_gpa g mod k = 0).
  { apply Z.mod_divide in Hg, H4k; try lia. apply Z.mod_divide; [lia|]. by etransitivity. }
  rewrite Zminus_mod, Hak, Hgk. apply Z.mod_0_l. lia.
Qed.

Fixpoint shifts64 (levels : nat) : list Z :=
  match levels with O => [] | S n => (12 + Z.of_nat n * 9) :: shifts64 n end.
Fixpoint shifts32 (levels : nat) : list Z :=
  match levels with O => [] | S n => (12 + Z.of_nat n * 10) :: shifts32 n end.

Lemma page_mult_aligned t k : 0 < k -> 4096 mod k = 0 -> (t * 4096) mod k = 0.
Proof. intros Hk H4. rewrite Z.mul_mod, H4, Z.mul_0_r by lia. apply Z.mod_0_l. lia. Qed.

Lemma walk64_correct attempt levels : quiet attempt -> (levels <= 4)%nat ->
  forall table x last s, 0 <= table -> x ∈ ad_bits -> like 8 s -> (levels = 0%nat -> last = WError) ->
  wp (walk64 others vcpuid paging gla prot attempt levels (Z.lor table x) last)
     (walk_result 8 (host_mem s) (ref64 s0 paging gla prot (shifts64 levels) table)) s.
Proof.
  intros Hq. induction levels as [|n IH]; intros Hlv table x last s Ht Hx Hl Hlast.
  { rewrite (Hlast eq_refl). cbn. by apply wp_ret. }
  cbn [walk64 shifts64 ref64]. apply wp_bind, wp_gets. rewrite ad_shiftr, clip_page by (try done; lia).
  rewrite (like_gpa2hva 8) by done. set (phys := (table / 4096) mod 2 ^ 40 * 4096).
  change XHYVE_PAGE_SIZE with 4096. change XHYVE_PAGE_SHIFT with 12.
  assert (Hp : 0 <= phys < 2 ^ 52).
  { unfold phys. pose proof (Z.mod_pos_bound (table / 4096) (2 ^ 40) ltac:(lia)). lia. }
  destruct (vm_gpa2hva phys 4096 s0) as [h|] eqn:Eh; [|by apply wp_ret].
  set (sh := 12 + Z.of_nat n * 9). rewrite (index_mod gla sh 9 0x1FF) by (unfold sh; lia || done).
  change (2 ^ 9) with 512. set (at_ := hva_add h (8 * ((gla / 2 ^ sh) mod 512))).
  assert (Hal : at_.2 mod Z.of_nat 8 = 0).
  { apply (table_aligned phys 4096); try lia; [by apply page_mult_aligned|done|done]. }
  apply wp_bind, wp_gets.
  destruct (grows_load 8 at_ (host_mem s0) (host_mem s) ltac:(lia) Hbytes Hal (proj2 Hl)) as (y & Hy & Ey).
  rewrite Ey. set (e := load 8 at_ (host_mem s0)). rewrite entry_denied_ad by done.
  destruct (entry_denied paging prot e) eqn:Ed; [apply (wp_deny 8); try done; by intros|].
  apply wp_set_accessed; try done; [lia|]. intros s1 Hl1 Hg1 Hload.
  assert (Hb : bytes_ok (host_mem s)) by (destruct Hl as [_ Hg]; by apply (grows_bytes 8 (host_mem s0))). rewrite ad_tst by done.
  assert (He : 0 <= e) by (apply load_range; done).
  destruct n as [|n].
  - cbn. apply wp_ret. split; [done|]. split; [done|]. split; [unfold sh; lia|]. exists y. by rewrite Ey.
  - cbn [Nat.eqb negb andb]. replace (12 <? sh) with true by (symmetry; apply Z.ltb_lt; unfold sh; lia).
    cbn [andb]. destruct (tst e PG_PS) eqn:Eps; cbn [negb].
    + assert (Esh : (GB <? Z.shiftl 1 sh) = (sh =? 39)).
      { unfold sh. assert (n = 0 \/ n = 1 \/ n = 2)%nat as [->|[->| ->]] by lia; done. }
      rewrite Esh. destruct (sh =? 39); [apply (wp_deny 8); try done; by intros|].
      apply wp_ret. split; [done|]. split; [done|]. split; [unfold sh; lia|]. exists y. by rewrite Ey.
    + eapply wp_conseq; [by apply IH; try done; lia|]. intros w s2.
      by apply (walk_result_mono 8 (host_mem s) (host_mem s1)); [lia|..].
Qed.

Lemma walk32_correct attempt levels : quiet attempt -> (levels <= 2)%nat ->
  forall table x last s, table in_u 52 -> x ∈ ad_bits -> like 4 s -> (levels = 0%nat -> last = WError) ->
  wp (walk32 others vcpuid paging gla prot attempt levels (Z.lor table x) last)
     (walk_result 4 (host_mem s) (ref32 s0 paging gla prot (shifts32 levels) table)) s.
Proof.
  intros Hq. induction levels as [|n IH]; intros Hlv table x last s Ht Hx Hl Hlast.
  { rewrite (Hlast eq_refl). cbn. by apply wp_ret. }
  cbn [walk32 shifts32 ref32]. apply wp_bind, wp_gets.
  assert (Hpage : clr (Z.lor table x) 0xfff = table / 4096 * 4096).
  { rewrite clr_page by (apply Z.lor_nonneg; split; [lia|by apply ad_range]).
    f_equal. pose proof (ad_shiftr table x 12 Hx ltac:(lia)) as H. by rewrite !Z.shiftr_div_pow2 in H by lia. }
  rewrite Hpage, (like_gpa2hva 4) by done. set (phys := table / 4096 * 4096).
  change XHYVE_PAGE_SIZE with 4096. change XHYVE_PAGE_SHIFT with 12.
  assert (Hp : 0 <= phys < 2 ^ 53).
  { unfold phys. pose proof (Z.div_mod table 4096 ltac:(lia)). pose proof (Z.mod_pos_bound table 4096 ltac:(lia)). lia. }
  destruct (vm_gpa2hva phys 4096 s0) as [h|] eqn:Eh; [|by apply wp_ret].
  set (sh := 12 + Z.of_nat n * 10). rewrite (index_mod gla sh 10 0x3FF) by (unfold sh; lia || done).
  change (2 ^ 10) with 1024. set (at_ := hva_add h (4 * ((gla / 2 ^ sh) mod 1024))).
  assert (Hal : at_.2 mod Z.of_nat 4 = 0).
  { apply (table_aligned phys 4096); try lia; [by apply page_mult_aligned|done|done]. }
  apply wp_bind, wp_gets.
  destruct (grows_load 4 at_ (host_mem s0) (host_mem s) ltac:(lia) Hbytes Hal (proj2 Hl)) as (y & Hy & Ey).
  rewrite Ey. set (e := load 4 at_ (host_mem s0)). rewrite entry_denied_ad by done.
  destruct (entry_denied paging prot e) eqn:Ed; [apply (wp_deny 4); try done; by intros|].
  apply wp_set_accessed; try done; [lia|]. intros s1 Hl1 Hg1 Hload.
  assert (Hb : bytes_ok (host_mem s)) by (destruct Hl as [_ Hg]; by apply (grows_bytes 4 (host_mem s0))).
  rewrite ad_tst by done.
  assert (He : e in_u 32) by (apply (load_range 4); done).
  destruct n as [|n].
  - cbn. apply wp_ret. split; [done|]. split; [done|]. split; [unfold sh; lia|]. exists y. by rewrite Ey.
  - cbn [Nat.eqb negb andb]. replace (12 <? sh) with true by (symmetry; apply Z.ltb_lt; unfold sh; lia).
    cbn [andb]. destruct (tst e PG_PS) eqn:Eps; cbn [negb].
    + apply wp_ret. split; [done|]. split; [done|]. split; [unfold sh; lia|]. exists y. by rewrite Ey.
    + eapply wp_conseq; [apply IH; try done; [lia|by apply (in_u_le 32)]|]. intros w s2.
      by apply (walk_result_mono 4 (host_mem s) (host_mem s1)); [lia|..].
Qed.

Lemma walk_pae_correct attempt s : quiet attempt -> like 8 s ->
  wp (walk_pae others vcpuid paging gla prot attempt)
     (walk_result 8 (host_mem s) (ref_pae s0 paging gla prot)) s.
Proof.
  intros Hq Hl. unfold walk_pae, ref_pae. apply wp_bind, wp_gets. rewrite (like_gpa2hva 8) by done.
  change (8 * 4) with 32. set (phys := Z.land (cr3 paging) 0xffffffe0).
  assert (Hp : phys in_u 32) by (apply land_in_u_r; [lia|done]).
  destruct (vm_gpa2hva phys 32 s0) as [h|] eqn:Eh; [|by apply wp_ret].
  rewrite (index_mod gla 30 2 0x3) by done. change (2 ^ 2) with 4.
  set (at_ := hva_add h (8 * ((gla / 2 ^ 30) mod 4))).
  assert (Hal : at_.2 mod Z.of_nat 8 = 0).
  { apply (table_aligned phys 32); try lia; [|done|done]. unfold phys.
    change (Z.of_nat 8) with (2 ^ 3). rewrite <- Z.land_ones, <- Z.land_assoc by lia.
    change (Z.land 0xffffffe0 (Z.ones 3)) with 0. apply Z.land_0_r. }
  apply wp_bind, wp_gets.
  destruct (grows_load 8 at_ (host_mem s0) (host_mem s) ltac:(lia) Hbytes Hal (proj2 Hl)) as (y & Hy & Ey).
  rewrite Ey. set (e := load 8 at_ (host_mem s0)). rewrite ad_tst by done.
  destruct (tst e PG_V); cbn [negb]; [|apply (wp_deny 8); try done; by intros].
  apply (walk64_correct attempt 2); try done; [lia|]. apply load_range; done.
Qed.

(** *** The address an entry gives *)

Lemma page_plus_offset a sh : 0 <= sh ->
  Z.lor (Z.shiftl a sh) (Z.land gla (Z.shiftl 1 sh - 1)) = a * 2 ^ sh + gla mod 2 ^ sh.
Proof.
  intros Hsh. rewrite Z.shiftl_1_l, Z.sub_1_r, <- Z.ones_equiv, Z.land_ones by done.
  rewrite Z.lor_comm, <- add_lor_high by (try done; by apply mod_in_u). lia.
Qed.

Lemma leaf32_value e x sh : e in_u 32 -> x ∈ ad_bits -> 12 <= sh ->
  leaf32 gla (Z.lor e x) sh = (e mod 2 ^ 32) / 2 ^ sh * 2 ^ sh + offset_in gla sh.
Proof.
  intros He Hx Hsh. unfold leaf32, offset_in. rewrite ad_shiftr by done.
  assert (H2 : 0 < 2 ^ sh) by (apply Z.pow_pos_nonneg; lia).
  rewrite u32_id.
  - rewrite (Z.mod_small e) by done. by rewrite page_plus_offset, Z.shiftr_div_pow2 by lia.
  - rewrite Z.shiftl_mul_pow2, Z.shiftr_div_pow2 by lia.
    pose proof (Z.mul_div_le e (2 ^ sh) H2). pose proof (Z.div_pos e (2 ^ sh) ltac:(lia) H2). nia.
Qed.

Lemma leaf64_value e x sh : 0 <= e -> x ∈ ad_bits -> 12 <= sh <= 39 ->
  leaf64 gla (Z.lor e x) sh = (e mod 2 ^ 52) / 2 ^ sh * 2 ^ sh + offset_in gla sh.
Proof.
  intros He Hx Hsh. unfold leaf64, offset_in. rewrite ad_shiftr by (try done; lia).
  assert (H2 : 0 < 2 ^ sh) by (apply Z.pow_pos_nonneg; lia).
  assert (H3 : 0 < 2 ^ (52 - sh)) by (apply Z.pow_pos_nonneg; lia).
  assert (E : Z.shiftr (u64 (Z.shiftl (Z.shiftr e sh) (sh + 12))) 12 = Z.shiftl ((e mod 2 ^ 52) / 2 ^ sh) sh).
  { unfold u64. rewrite !Z.shiftl_mul_pow2, !Z.shiftr_div_pow2 by lia.
    rewrite (Z.pow_add_r 2 sh 12) by lia.
    replace (2 ^ 64) with (2 ^ (52 - sh) * (2 ^ sh * 2 ^ 12)) by (rewrite <- !Z.pow_add_r by lia; f_equal; lia).
    rewrite Z.mul_mod_distr_r by lia. rewrite Z.mul_assoc, Z.div_mul by lia.
    replace (2 ^ 52) with (2 ^ sh * 2 ^ (52 - sh)) by (rewrite <- Z.pow_add_r by lia; f_equal; lia).
    rewrite Z.rem_mul_r by lia. rewrite (Z.add_comm (e mod 2 ^ sh)), (Z.mul_comm (2 ^ sh)), Z.div_add_l by lia.
    rewrite (Z.div_small (e mod 2 ^ sh)) by (apply Z.mod_pos_bound; lia). by rewrite Z.add_0_r. }
  rewrite E. apply page_plus_offset. lia.
Qed.

(** One attempt ends as the tables say, or it has only set the accessed bit of
    the last entry and must be repeated. *)
Definition attempt_result (n : nat) (width : Z) (m : hva -> Z) (re : ref_end) (r : walk * Z) (s' : M) : Prop :=
  match re with
  | RLeaf at_ e sh => like n s' /\
      ((exists a p, r = (WLeaf a p sh, (e mod 2 ^ width) / 2 ^ sh * 2 ^ sh + offset_in gla sh)) \/
       (r.1 = WRestart /\ tst (load n at_ m) PG_A = false /\ tst (load n at_ (host_mem s')) PG_A = true))
  | RFault rsvd e => r.1 = WFault /\ pf_raised n (pf_error_code (usermode paging) prot rsvd e) s'
  | RBad => r.1 = WError /\ like n s'
  end.

Lemma set_dirty_result attempt n width m re w s (leaf : Z -> Z -> Z) : quiet attempt -> (0 < n)%nat ->
  walk_result n m re w s ->
  (forall at_ e sh x, re = RLeaf at_ e sh -> x ∈ ad_bits -> 12 <= sh <= 39 ->
     leaf (Z.lor e x) sh = (e mod 2 ^ width) / 2 ^ sh * 2 ^ sh + offset_in gla sh) ->
  wp (w <- set_dirty others prot attempt n w ;;
      ret (w, match w with WLeaf _ pte sh => leaf pte sh | _ => 0 end))
     (attempt_result n width m re) s.
Proof.
  intros Hq Hn H Hleaf. destruct re as [at_ e sh|rsvd e|].
  - destruct H as (Hl & Hal & Hsh & x & Hx & -> & Hload & Hacc). cbn [set_dirty].
    specialize (Hleaf at_ e sh x eq_refl Hx Hsh).
    destruct (writable prot && negb (tst (Z.lor e x) PG_M)); apply wp_bind.
    + apply wp_bind. unfold atomic_cmpset. apply wp_bind, wp_update. rewrite Hq. apply wp_bind, wp_gets.
      rewrite Hload. destruct (Z.eqb_spec (Z.lor (Z.lor e x) PG_A) (Z.lor e x)) as [E|E].
      * apply wp_bind, wp_update, wp_ret, wp_ret, wp_ret. rewrite Hleaf.
        split; [|left; by eexists _, _]. apply like_store; try done; [by rewrite Hload, E|].
        unfold ad_bits. member.
      * apply wp_ret, wp_ret, wp_ret. split; [done|]. right. split; [done|]. rewrite Hload.
        change PG_A with (bit 5) in *. rewrite !tst_bit in * by lia. split.
        -- destruct (Z.testbit (load n at_ m) 5) eqn:Et; [|done]. exfalso. apply E.
           by rewrite lor_same_bit by (try lia; by apply Hacc).
        -- rewrite !Z.lor_spec, bit_testbit by lia. by rewrite !orb_true_r.
    + apply wp_ret, wp_ret. rewrite Hleaf. split; [done|]. left. by eexists _, _.
  - destruct H as [-> H]. by apply wp_bind, wp_ret, wp_ret.
  - destruct H as [-> H]. by apply wp_bind, wp_ret, wp_ret.
Qed.

Lemma land_shiftl g m k : 0 <= k -> Z.land g (Z.shiftl m k) = Z.shiftl (Z.land (Z.shiftr g k) m) k.
Proof.
  intros Hk. apply Z.bits_inj'. intros j Hj. rewrite Z.land_spec, !Z.shiftl_spec by done.
  destruct (Z.lt_ge_cases j k); [by rewrite !(Z.testbit_neg_r _ (j - k)), andb_false_r by lia|].
  rewrite Z.land_spec, Z.shiftr_spec by lia. by rewrite Z.sub_add.
Qed.

Lemma canonical_check_spec : vie_canonical_check (cpu_mode paging) gla = non_canonical paging gla.
Proof.
  unfold vie_canonical_check, non_canonical. case_bool_decide as Em; [|done]. cbn [negb andb].
  assert (Hmask : forall g, Z.land g (u64 (Z.lnot (Z.shiftl 1 48 - 1))) = Z.shiftl (Z.land (Z.shiftr g 48) (Z.ones 16)) 48).
  { intros g. rewrite <- land_shiftl by lia. done. }
  rewrite Hmask. change (Z.shiftl 1 47) with (bit 47). rewrite tst_bit by lia.
  change (u64 (Z.lnot (Z.shiftl 1 48 - 1))) with (65535 * 2 ^ 48).
  rewrite Z.land_ones, Z.shiftr_div_pow2, Z.shiftl_mul_pow2 by lia.
  assert (Hq : 0 <= gla / 2 ^ 48 < 2 ^ 16) by (Z.to_euclidean_division_equations; lia).
  rewrite Z.mod_small by done.
  pose proof (Z.testbit_spec' gla 47 ltac:(lia)) as Ht.
  destruct (Z.testbit gla 47); cbn [Z.b2z] in Ht.
  - destruct (Z.eqb_spec (gla / 2 ^ 48 * 2 ^ 48) (65535 * 2 ^ 48)) as [E|E]; cbn [negb]; symmetry.
    + apply negb_false_iff, orb_true_iff. right. apply Z.leb_le. Z.to_euclidean_division_equations; lia.
    + apply negb_true_iff, orb_false_iff. split; [apply Z.ltb_ge|apply Z.leb_gt];
        Z.to_euclidean_division_equations; lia.
  - destruct (Z.eqb_spec (gla / 2 ^ 48 * 2 ^ 48) 0) as [E|E]; cbn [negb]; symmetry.
    + apply negb_false_iff, orb_true_iff. left. apply Z.ltb_lt. Z.to_euclidean_division_equations; lia.
    + apply negb_true_iff, orb_false_iff. split; [apply Z.ltb_ge|apply Z.leb_gt];
        Z.to_euclidean_division_equations; lia.
Qed.

(** The entry size and the end of the walk in the paging modes that walk. *)
Definition esize : nat := match paging_mode paging with PAGING_MODE_32 => 4 | _ => 8 end.
Definition ewidth : Z := match paging_mode paging with PAGING_MODE_32 => 32 | _ => 52 end.

Definition mode_end : ref_end :=
  match paging_mode paging with
  | PAGING_MODE_FLAT => RBad
  | PAGING_MODE_32 => ref32 s0 paging gla prot [22; 12] (cr3 paging)
  | PAGING_MODE_PAE => ref_pae s0 paging gla prot
  | PAGING_MODE_64 => ref64 s0 paging gla prot [39; 30; 21; 12] (cr3 paging)
  end.

Lemma ref32_entry shifts table at_ e sh : ref32 s0 paging gla prot shifts table = RLeaf at_ e sh -> e in_u 32.
Proof.
  revert table. induction shifts as [|k l IH]; intros table; cbn; [done|].
  destruct (vm_gpa2hva _ _ _); [|done]. repeat split_if; try done; [apply IH|].
  intros [= <- <- <-]. by apply (load_range 4).
Qed.

Lemma ref64_entry shifts table at_ e sh : ref64 s0 paging gla prot shifts table = RLeaf at_ e sh -> 0 <= e.
Proof.
  revert table. induction shifts as [|k l IH]; intros table; cbn; [done|].
  destruct (vm_gpa2hva _ _ _); [|done]. repeat split_if; try done; [apply IH|].
  intros [= <- <- <-]. by apply (load_range 8).
Qed.

Lemma attempt_correct attempt s : cr3 paging in_u 52 -> paging_mode paging <> PAGING_MODE_FLAT ->
  quiet attempt -> like esize s ->
  wp (attempt_walk others vcpuid paging gla prot attempt)
     (attempt_result esize ewidth (host_mem s) mode_end) s.
Proof.
  intros Hcr Hmode Hq Hl. unfold attempt_walk, esize, ewidth, mode_end in *.
  assert (H0 : 0 ∈ ad_bits) by (unfold ad_bits; member).
  destruct (paging_mode paging) eqn:Em; [done|..]; apply wp_bind.
  - eapply wp_conseq.
    { pose proof (walk32_correct attempt 2 Hq ltac:(lia) (cr3 paging) 0 WError s Hcr H0 Hl ltac:(done)) as H.
      rewrite Z.lor_0_r in H. exact H. }
    intros w s1 H1. apply (set_dirty_result attempt 4 32); try done; [lia|].
    intros at_ e sh x Er Hx Hsh. apply leaf32_value; [by eapply ref32_entry|done|lia].
  - eapply wp_conseq; [by apply walk_pae_correct|].
    intros w s1 H1. apply (set_dirty_result attempt 8 52); try done; [lia|].
    intros at_ e sh x Er Hx Hsh. apply leaf64_value; [|done|done]. unfold ref_pae in Er.
    destruct (vm_gpa2hva _ _ _); [|done]. split_if_in Er; [done|]. by eapply ref64_entry.
  - eapply wp_conseq.
    { pose proof (walk64_correct attempt 4 Hq ltac:(lia) (cr3 paging) 0 WError s ltac:(lia) H0 Hl ltac:(done)) as H.
      rewrite Z.lor_0_r in H. exact H. }
    intros w s1 H1. apply (set_dirty_result attempt 8 52); try done; [lia|].
    intros at_ e sh x Er Hx Hsh. apply leaf64_value; [by eapply ref64_entry|done|done].
Qed.

(** What [vm_gla2gpa] returns, by what the tables of [s0] describe. *)
Definition translated (r : Z * bool * Z) (s' : M) : Prop :=
  match ref_translate s0 paging gla prot with
  | Gpa gpa => r = (0, false, gpa) /\ like esize s'
  | PageFault code => r = (0, true, 0) /\ pf_raised esize code s'
  | GeneralProtection => r = (0, true, 0) /\ faulted vcpuid IDT_GP true 0 s0 s' /\ host_mem s' = host_mem s0
  | NotMemory => r = (EFAULT, false, 0) /\ like esize s'
  end.

Lemma like_refl n : like n s0.
Proof. split; [by destruct s0|apply grows_refl]. Qed.

Lemma gla2gpa_two attempt fuel : cr3 paging in_u 52 -> quiet attempt -> quiet (S attempt) ->
  wp (gla2gpa_loop others vcpuid paging gla prot (S (S fuel)) attempt) translated s0.
Proof.
  intros Hcr Hq1 Hq2. cbn [gla2gpa_loop]. unfold translated, ref_translate.
  rewrite canonical_check_spec. destruct (non_canonical paging gla) eqn:Ec.
  { apply wp_bind. eapply wp_conseq; [apply inject_fault_spec; try done; unfold IDT_GP, IDT_DF; lia|].
    cbv beta. intros _ s' (Hf & (_ & Hh & _) & _). by apply wp_ret. }
  destruct (decide (paging_mode paging = PAGING_MODE_FLAT)) as [Ef|Ef].
  { unfold attempt_walk. rewrite Ef. apply wp_bind, wp_ret, wp_ret. split; [done|]. apply like_refl. }
  assert (Hof : match paging_mode paging with
       | PAGING_MODE_FLAT => Gpa gla
       | PAGING_MODE_32 => of_end paging gla prot 32 (ref32 s0 paging gla prot [22; 12] (cr3 paging))
       | PAGING_MODE_PAE => of_end paging gla prot 52 (ref_pae s0 paging gla prot)
       | PAGING_MODE_64 => of_end paging gla prot 52 (ref64 s0 paging gla prot [39; 30; 21; 12] (cr3 paging))
       end = of_end paging gla prot ewidth mode_end).
  { unfold ewidth, mode_end. by destruct (paging_mode paging). }
  rewrite Hof. apply wp_bind.
  eapply wp_conseq; [apply attempt_correct; try done; apply like_refl|]. intros r s1 H1.
  destruct mode_end as [at_ e sh|rsvd e|] eqn:Ee; cbn [attempt_result of_end] in *.
  - destruct H1 as (Hl1 & [(a & p & ->)|(Er & _ & Hacc)]); [by apply wp_ret|].
    rewrite Er. apply wp_bind. eapply wp_conseq; [by apply attempt_correct|]. rewrite Ee. cbn [attempt_result].
    intros r2 s2 (Hl2 & [(a & p & ->)|(_ & Hno & _)]); [by apply wp_ret|]. congruence.
  - destruct H1 as [Er H1]. rewrite Er. by apply wp_ret.
  - destruct H1 as [Er H1]. rewrite Er. by apply wp_ret.
Qed.
End Correct.

(** ** The walk ends once the other CPUs leave the tables alone *)
Section Interference.
Context {X D : Type} `{!VmmOps X, !VmmLaws X}.
Local Abbreviation M := (vm X D).
Context (others : nat -> nat -> M -> M) (vcpuid : Z) (Hi : is_vcpu vcpuid).
Context (paging : vm_guest_paging) (gla prot : Z) (Hgla : gla in_u 64) (Hcr : cr3 paging in_u 52).
Context (s0 : M) (Hsegs : segs_ok s0) (Hbytes : bytes_ok (host_mem s0)) (Hcpus : has_vcpus s0)
  (Hinj : can_inject vcpuid s0).

(** [s0] up to the contents of memory. *)
Definition shares (s : M) : Prop := s = s0 <| host_mem := host_mem s |> /\ bytes_ok (host_mem s).

(** The other CPUs only write guest memory. *)
Definition tame : Prop := forall attempt k s, shares s -> shares (others attempt k s).
Context (Htame : tame).

(** [s0] with a fault injected: nothing but the pending exception, the
    registers that go with it and guest memory differ. *)
Record raised (s' : M) : Prop := {
  ra_pending : exception_pending (get_vcpu vcpuid s') = true;
  ra_devices : devices s' = devices s0;
  ra_segs : mem_segs s' = mem_segs s0;
  ra_bytes : bytes_ok (host_mem s');
  ra_cpus : has_vcpus s';
  ra_regs r : r <> VM_REG_GUEST_CR2 -> r <> VM_REG_GUEST_INTR_SHADOW ->
    vmgetreg vcpuid r (cookie s') = vmgetreg vcpuid r (cookie s0);
  ra_state : state (get_vcpu vcpuid s') = state (get_vcpu vcpuid s0);
}.

Lemma faulted_raised vector code s s' : shares s -> faulted vcpuid vector true code s s' -> same_machine s s' ->
  (forall r, r <> VM_REG_GUEST_CR2 -> r <> VM_REG_GUEST_INTR_SHADOW ->
     vmgetreg vcpuid r (cookie s') = vmgetreg vcpuid r (cookie s)) -> raised s'.
Proof.
  intros [E Hb] Hf (Hm & Hh & Hd & _ & _ & _ & Hc) Hr. split; [|..|done| |].
  - rewrite Hf. by destruct (state (get_vcpu vcpuid s)).
  - by rewrite Hd, E.
  - by rewrite Hm, E.
  - by rewrite Hh.
  - intros r H1 H2. by rewrite Hr, E.
  - rewrite Hf. change (get_vcpu vcpuid s0) with (get_vcpu vcpuid (s0 <| host_mem := host_mem s |>)). rewrite <- E.
    cbv zeta. set (w := get_vcpu vcpuid s). destruct (state w) eqn:Es; exact Es.
Qed.

Lemma inject_fault_raised vector code Q s : shares s -> 0 <= vector < 32 -> vector <> IDT_DF -> code in_u 32 ->
  (forall s', raised s' -> Q tt s') -> wp (vm_inject_fault vcpuid vector true code) Q s.
Proof.
  intros Hs Hv Hdf Hc HQ. eapply wp_conseq.
  - destruct Hs as [E Hb]. apply inject_fault_spec; try done; by rewrite E.
  - cbv beta. intros [] s' (Hf & Hm & _ & Hck). apply HQ. eapply faulted_raised; try done.
    intros r H1 H2. rewrite Hck, get_set_ne by (try done; congruence). done.
Qed.

Lemma inject_pf_raised code cr2 Q s : shares s -> code in_u 32 -> cr2 in_u 64 ->
  (forall s', raised s' -> Q tt s') -> wp (vm_inject_pf vcpuid code cr2) Q s.
Proof.
  intros Hs Hc Hr HQ. eapply wp_conseq.
  - destruct Hs as [E Hb]. apply inject_pf_spec; try done; by rewrite E.
  - cbv beta. intros [] s' (Hf & Hm & _ & Hck). apply HQ. eapply faulted_raised; try done.
    intros r H1 H2. rewrite Hck, !get_set_ne by (try done; congruence). done.
Qed.

(** A step either has injected a fault or leaves the machine as it was up to
    memory; the entry it ends at maps at least a page. *)
Definition tame_result (w : walk) (s' : M) : Prop :=
  match w with
  | WFault => raised s'
  | WLeaf _ _ sh => shares s' /\ 12 <= sh
  | _ => shares s'
  end.

Lemma write_bytes_ok h l m : bytes_ok m -> Forall (fun b => b in_u 8) l -> bytes_ok (write_bytes_at h l m).
Proof.
  intros Hm Hl a. unfold write_bytes_at. split_if; [|apply Hm].
  destruct (nth_in_or_default (Z.to_nat (a.2 - h.2)) l 0) as [Hin| ->]; [|done].
  by apply (proj1 (List.Forall_forall _ _) Hl).
Qed.

Lemma tame_cmpset attempt k n h old new Q s : shares s -> (forall b s', shares s' -> Q b s') ->
  wp (atomic_cmpset others attempt k n h old new) Q s.
Proof.
  intros Hs HQ. unfold atomic_cmpset. apply wp_bind, wp_update, wp_bind, wp_gets.
  pose proof (Htame attempt k s Hs) as [E Hb]. split_if; [|apply wp_ret, HQ; by split].
  apply wp_bind, wp_update, wp_ret, HQ. split; [rewrite E; by destruct s0|].
  apply write_bytes_ok; [done|apply le_split_bytes].
Qed.

Lemma pf_error_code_range u rsvd pte : pf_error_code u prot rsvd pte in_u 32.
Proof. unfold pf_error_code. repeat split_if; by vm_compute. Qed.

Lemma tame_deny rsvd pte s : shares s -> wp (deny vcpuid paging gla prot rsvd pte) tame_result s.
Proof.
  intros Hs. unfold deny. apply wp_bind, inject_pf_raised; [done|apply pf_error_code_range|done|].
  intros s' Hr. by apply wp_ret.
Qed.

Lemma tame_accessed attempt lvl n at_ pte k s : shares s ->
  (forall s', shares s' -> wp k tame_result s') ->
  wp (set_accessed others attempt lvl n at_ pte k) tame_result s.
Proof.
  intros Hs Hk. unfold set_accessed. split_if; [|by apply Hk].
  apply wp_bind, tame_cmpset; [done|]. intros [] s' Hs'; [by apply Hk|by apply wp_ret].
Qed.

Definition leaf_page (w : walk) : Prop := match w with WFault => False | WLeaf _ _ sh => 12 <= sh | _ => True end.

Lemma tame_last w s : shares s -> leaf_page w -> tame_result w s.
Proof. by destruct w. Qed.

Ltac tame_step IH :=
  first [ apply wp_ret; done | apply tame_deny; done
        | apply wp_ret; split; [done|unfold XHYVE_PAGE_SHIFT; lia]
        | apply IH; [done|cbn; unfold XHYVE_PAGE_SHIFT; lia]
        | apply tame_accessed; [done|]; intros ? ? | apply wp_bind, wp_gets ].

Lemma tame_walk32 attempt levels : forall phys last s, shares s -> leaf_page last ->
  wp (walk32 others vcpuid paging gla prot attempt levels phys last) tame_result s.
Proof.
  induction levels as [|n IH]; intros phys last s Hs Hlast; cbn [walk32]; [by apply wp_ret, tame_last|].
  tame_step IH. destruct (vm_gpa2hva _ _ _); repeat (tame_step IH || split_if).
Qed.

Lemma tame_walk64 attempt levels : forall phys last s, shares s -> leaf_page last ->
  wp (walk64 others vcpuid paging gla prot attempt levels phys last) tame_result s.
Proof.
  induction levels as [|n IH]; intros phys last s Hs Hlast; cbn [walk64]; [by apply wp_ret, tame_last|].
  tame_step IH. destruct (vm_gpa2hva _ _ _); repeat (tame_step IH || split_if).
Qed.

Lemma tame_dirty attempt n w s : tame_result w s -> wp (set_dirty others prot attempt n w) tame_result s.
Proof.
  intros Hw. destruct w; try by apply wp_ret. destruct Hw as [Hs Hsh].
  cbn [set_dirty]. split_if; [|by apply wp_ret].
  apply wp_bind, tame_cmpset; [done|]. intros [] s' Hs'; by apply wp_ret.
Qed.

(** The offset in the page is that of the linear address. *)
Definition same_offset (gpa : Z) : Prop := gpa mod XHYVE_PAGE_SIZE = gla mod XHYVE_PAGE_SIZE.

Lemma leaf_offset a sh : 12 <= sh -> a mod 4096 = 0 ->
  same_offset (Z.lor a (Z.land gla (Z.shiftl 1 sh - 1))).
Proof.
  intros Hsh Ha. unfold same_offset. change XHYVE_PAGE_SIZE with (2 ^ 12). rewrite <- !Z.land_ones by lia.
  change 4096 with (2 ^ 12) in Ha. rewrite <- Z.land_ones in Ha by lia.
  rewrite Z.land_lor_distr_l, Ha, Z.lor_0_l, <- Z.land_assoc. f_equal.
  replace (Z.shiftl 1 sh - 1) with (Z.ones sh) by (rewrite Z.shiftl_1_l, Z.ones_equiv; lia).
  rewrite Z.land_comm, Z.land_ones by lia. apply Z.mod_small. rewrite !Z.ones_equiv.
  pose proof (Z.pow_le_mono_r 2 12 sh ltac:(lia) Hsh). lia.
Qed.
Lemma shiftl_page a k j : 0 <= j <= k -> Z.shiftl a k mod 2 ^ j = 0.
Proof.
  intros Hk. rewrite Z.shiftl_mul_pow2 by lia.
  replace (2 ^ k) with (2 ^ (k - j) * 2 ^ j) by (rewrite <- Z.pow_add_r by lia; f_equal; lia).
  rewrite Z.mul_assoc. apply Z.mod_mul. lia.
Qed.

Lemma mod_pow_mod x j w : 0 <= j <= w -> (x mod 2 ^ w) mod 2 ^ j = x mod 2 ^ j.
Proof.
  intros Hj. apply Z.mod_mod_divide.
  exists (2 ^ (w - j)). rewrite <- Z.pow_add_r by lia. f_equal. lia.
Qed.

Lemma leaf32_offset pte sh : 12 <= sh -> same_offset (leaf32 gla pte sh).
Proof.
  intros Hsh. apply leaf_offset; [done|]. unfold u32. change 4096 with (2 ^ 12).
  rewrite mod_pow_mod, shiftl_page by lia. done.
Qed.

Lemma leaf64_offset pte sh : 12 <= sh -> same_offset (leaf64 gla pte sh).
Proof.
  intros Hsh. apply leaf_offset; [done|]. rewrite Z.shiftr_div_pow2 by lia. unfold u64.
  assert (H : (Z.shiftl (Z.shiftr pte sh) (sh + 12) mod 2 ^ 64) mod 2 ^ 24 = 0).
  { rewrite mod_pow_mod, shiftl_page by lia. done. }
  set (y := _ mod 2 ^ 64) in *. clearbody y. change 4096 with (2 ^ 12).
  change (2 ^ 24) with (2 ^ 12 * 2 ^ 12) in H. rewrite Z.rem_mul_r in H by lia.
  pose proof (Z.mod_pos_bound y (2 ^ 12) ltac:(lia)).
  pose proof (Z.mod_pos_bound (y / 2 ^ 12) (2 ^ 12) ltac:(lia)). lia.
Qed.

(** An attempt that reaches an entry yields an address with that offset. *)
Definition attempt_tame (r : walk * Z) (s' : M) : Prop :=
  match r.1 with
  | WFault => raised s'
  | WLeaf _ _ _ => shares s' /\ same_offset r.2
  | _ => shares s'
  end.

Lemma tame_attempt attempt s : shares s ->
  wp (attempt_walk others vcpuid paging gla prot attempt) attempt_tame s.
Proof.
  intros Hs. unfold attempt_walk.
  destruct (paging_mode paging); [by apply wp_ret|..]; apply wp_bind;
    (apply (wp_conseq _ tame_result);
     [first [by apply tame_walk32|by apply tame_walk64|idtac]
     |intros w s1 Hw; apply wp_bind; eapply wp_conseq; [by apply tame_dirty|]; intros w2 s2 H2; apply wp_ret;
      destruct w2; try done; destruct H2; split; [done|by (apply leaf32_offset + apply leaf64_offset)]]).
  unfold walk_pae. apply wp_bind, wp_gets. destruct (vm_gpa2hva _ _ _); [|by apply wp_ret].
  apply wp_bind, wp_gets. split_if; [by apply tame_deny|by apply tame_walk64].
Qed.

(** How [vm_gla2gpa] returns: an address, a fault, or an error. *)
Definition settled (r : Z * bool * Z) (s' : M) : Prop :=
  (exists gpa, r = (0, false, gpa) /\ shares s' /\ same_offset gpa) \/
  (exists gpa, r = (0, true, gpa) /\ raised s') \/
  (exists gpa, r = (EFAULT, false, gpa) /\ shares s').

Lemma gla2gpa_settled n : forall attempt s r s', shares s ->
  gla2gpa_loop others vcpuid paging gla prot n attempt s = Return (r, s') -> settled r s'.
Proof.
  induction n as [|n IH]; intros attempt s r s' Hs; cbn [gla2gpa_loop]; [done|]. split_if.
  - intros Hrun. refine (wp_run _ (fun r s' => settled r s') s _ _ _ Hrun).
    apply wp_bind, inject_fault_raised; try done; try (unfold IDT_GP, IDT_DF; lia).
    intros s1 H1. apply wp_ret. right. left. eauto.
  - unfold bind. destruct (wp_elim _ _ _ (tame_attempt attempt s Hs)) as ([w g] & s1 & -> & Hw). cbn in *.
    destruct w; cbn in Hw; [intros [= <- <-]..|by apply IH].
    + left. destruct Hw. eauto.
    + right. left. eauto.
    + right. right. eauto.
Qed.

Lemma gla2gpa_returns N : forall attempt s, shares s -> (forall a, (attempt + N <= a)%nat -> quiet others a) ->
  wp (gla2gpa_loop others vcpuid paging gla prot (S (S N)) attempt) (fun _ _ => True) s.
Proof.
  induction N as [|N IH]; intros attempt s Hs Hq.
  - eapply wp_conseq; [|done]. destruct Hs as [E Hb].
    apply (gla2gpa_two _ _ Hi _ _ _ Hgla s); try done; try (rewrite E; done); try (apply Hq; lia).
    rewrite E. destruct Hsegs. by split.
  - remember (S (S N)) as fuel. cbn [gla2gpa_loop]. split_if.
    + apply wp_bind, inject_fault_raised; try done; unfold IDT_GP, IDT_DF; lia.
    + apply wp_bind. eapply wp_conseq; [by apply tame_attempt|]. intros [w g] s1 Hw. cbn [fst] in *.
      destruct w; try done. apply (IH (S attempt) s1 Hw). intros a Ha. apply Hq. lia.
Qed.

Lemma gla2gpa_settles N Q s : shares s -> (forall a, (N <= a)%nat -> quiet others a) ->
  (forall r s', settled r s' -> Q r s') ->
  wp (vm_gla2gpa others vcpuid paging gla prot (S (S N))) Q s.
Proof.
  intros Hs Hq HQ. destruct (wp_elim _ _ _ (gla2gpa_returns N 0 s Hs Hq)) as (r & s' & Hr & _).
  unfold wp, vm_gla2gpa. rewrite Hr. apply HQ. by eapply gla2gpa_settled.
Qed.
End Interference.

(** ** Copies *)
Section Copies.
Context {X D : Type} `{!VmmOps X, !VmmLaws X}.
Local Abbreviation M := (vm X D).
Context (others : nat -> nat -> M -> M) (vcpuid : Z) (Hi : is_vcpu vcpuid).
Context (paging : vm_guest_paging) (prot : Z) (Hcr : cr3 paging in_u 52).
Context (s0 : M) (Hsegs : segs_ok s0) (Hbytes : bytes_ok (host_mem s0)) (Hcpus : has_vcpus s0)
  (Hinj : can_inject vcpuid s0) (Htame : tame others s0).
Context (N : nat) (Hq : forall a, (N <= a)%nat -> quiet others a).

(** The pieces of an access: each within a page, together [len] bytes. *)
Definition page_piece (p : Z * Z) : Prop := 0 < p.2 /\ p.1 mod XHYVE_PAGE_SIZE + p.2 <= XHYVE_PAGE_SIZE.
Definition total (l : list (Z * Z)) : Z := foldr (fun p n => p.2 + n) 0 l.

Lemma setup_pages_wp slots : forall gla remaining k Q s, shares s0 s -> gla in_u 64 -> 0 <= remaining ->
  (0 < remaining -> gla mod XHYVE_PAGE_SIZE + remaining <= Z.of_nat slots * XHYVE_PAGE_SIZE) ->
  (forall pages s', shares s0 s' -> Forall page_piece pages -> total pages = remaining ->
     wp (k 0 false pages) Q s') ->
  (forall s', raised vcpuid s0 s' -> Q (0, true, []) s') ->
  (forall s', shares s0 s' -> Q (EFAULT, false, []) s') ->
  wp (setup_pages others vcpuid (S (S N)) slots paging prot gla remaining k) Q s.
Proof.
  induction slots as [|slots IH]; intros gla remaining k Q s Hs Hg H0 Hfit Hk Hr Hf; cbn [setup_pages];
    destruct (Z.ltb_spec 0 remaining) as [Hpos|Hpos]; try (apply Hk; [done|constructor|cbn; lia]).
  { specialize (Hfit Hpos). pose proof (Z.mod_pos_bound gla XHYVE_PAGE_SIZE ltac:(done)). lia. }
  specialize (Hfit Hpos). apply wp_bind, (gla2gpa_settles _ _ Hi _ _ _ Hg Hcr s0); try done.
  intros r s1 [(gpa & -> & H1 & Ho)|[(gpa & -> & H1)|(gpa & -> & H1)]]; cbn [Z.eqb negb orb].
  2: { by apply wp_ret, Hr. }
  2: { by apply wp_ret, Hf. }
  change XHYVE_PAGE_MASK with (Z.ones 12). rewrite Z.land_ones by lia. change (2 ^ 12) with XHYVE_PAGE_SIZE.
  unfold same_offset in Ho. rewrite Ho. set (off := gla mod XHYVE_PAGE_SIZE) in *.
  assert (Hoff : 0 <= off < XHYVE_PAGE_SIZE) by (by apply Z.mod_pos_bound).
  set (n := Z.min remaining (XHYVE_PAGE_SIZE - off)).
  apply IH; try done; [apply u64_in_u|lia|..].
  - intros Hrem. assert (n = XHYVE_PAGE_SIZE - off) as -> by lia.
    assert ((gla + (XHYVE_PAGE_SIZE - off)) mod XHYVE_PAGE_SIZE = 0) as Hal.
    { unfold off. rewrite Z.add_mod, Zminus_mod, Z.mod_mod, Z_mod_same_full, Z.sub_0_l by done.
      fold off. rewrite <- Z.add_mod_idemp_r by done. rewrite Z.mod_mod by done.
      rewrite Z.add_mod_idemp_r by done. unfold off. rewrite Z.add_opp_diag_r. done. }
    unfold u64. change XHYVE_PAGE_SIZE with (2 ^ 12) in *. rewrite mod_pow_mod, Hal by lia. lia.
  - intros pages s' Hs' Hp Ht. apply Hk; [done| |cbn [total foldr fst snd]; fold (total pages); lia]. constructor; [|done].
    split; cbn; [lia|]. rewrite Ho. lia.
Qed.

(** The regions of host memory a setup yields. *)
Definition backs (s : M) (p : Z * Z) (c : vm_copyinfo) : Prop :=
  vm_gpa2hva p.1 p.2 s = Some (ci_hva c) /\ ci_len c = p.2.

Lemma setup_hva_backs pages s l : setup_hva pages s = Some l -> Forall2 (backs s) pages l.
Proof.
  revert l. induction pages as [|[gpa n] pages IH]; intros l; cbn; [by intros [= <-]|].
  destruct (vm_gpa2hva gpa n s) eqn:E; [|done]. destruct (setup_hva pages s); [|done].
  intros [= <-]. constructor; [by split|by apply IH].
Qed.

(** How [vm_copy_setup] returns. *)
Definition copy_ready (len : Z) (r : Z * bool * list vm_copyinfo) (s' : M) : Prop :=
  (exists pages l, r = (0, false, l) /\ shares s0 s' /\ Forall page_piece pages /\ total pages = len /\
     Forall2 (backs s0) pages l) \/
  (r = (0, true, []) /\ raised vcpuid s0 s') \/
  (r = (EFAULT, false, []) /\ shares s0 s').

Lemma copy_setup_wp slots gla len s : shares s0 s -> gla in_u 64 -> 0 <= len ->
  gla mod XHYVE_PAGE_SIZE + len <= Z.of_nat slots * XHYVE_PAGE_SIZE ->
  wp (vm_copy_setup others vcpuid (S (S N)) paging gla len prot slots) (copy_ready len) s.
Proof.
  intros Hs Hg Hl Hfit. apply setup_pages_wp; try done.
  - intros pages s' Hs' Hp Ht. apply wp_bind, wp_gets.
    assert (Hh : setup_hva pages s' = setup_hva pages s0).
    { destruct Hs' as [-> _]. clear. induction pages as [|[gpa n] pages IH]; cbn; [done|]. by rewrite IH. }
    rewrite Hh. destruct (setup_hva pages s0) as [l|] eqn:E; apply wp_ret.
    + left. exists pages, l. by apply setup_hva_backs in E.
    + right. right. done.
  - intros s' Hs'. by right; left.
  - intros s' Hs'. by right; right.
Qed.
End Copies.

(** C4: [vm_gla2gpa] computes the translation the guest's page tables describe,
    in every paging mode: the guest physical address, the page fault with its
    error code and [CR2], the general protection fault for a non-canonical
    address, or an error for tables outside guest memory.  Memory only changes
    in accessed and dirty bits.  Two attempts suffice when no other CPU
    interferes: the second is needed for a write to a page not accessed yet,
    whose dirty bit is set by comparing with the entry before its accessed bit
    was set. *)
Theorem gla2gpa_correct {X D : Type} `{!VmmOps X, !VmmLaws X} (others : nat -> nat -> vm X D -> vm X D)
    vcpuid paging gla prot (s : vm X D) fuel
    (Hi : is_vcpu vcpuid) (Hgla : gla in_u 64) (Hcr : cr3 paging in_u 52)
    (Hsegs : segs_ok s) (Hbytes : bytes_ok (host_mem s)) (Hcpus : has_vcpus s) (Hinj : can_inject vcpuid s)
    (Hq1 : quiet others 0) (Hq2 : quiet others 1) :
  exists r s', vm_gla2gpa others vcpuid paging gla prot (S (S fuel)) s = Return (r, s') /\
    translated vcpuid paging gla prot s r s'.
Proof. by apply wp_elim, gla2gpa_two. Qed.

(** C22: Other CPUs that write guest memory at will can make [vm_gla2gpa] start
    again, but once they leave the tables alone it ends: if they interfere
    with [N] attempts, it returns after at most two more.  It then has given
    an address with the page offset of the linear address, or injected exactly
    one fault and changed neither devices nor other registers, or reported
    tables outside guest memory. *)
Theorem gla2gpa_terminates {X D : Type} `{!VmmOps X, !VmmLaws X} (others : nat -> nat -> vm X D -> vm X D)
    vcpuid paging gla prot (s : vm X D) N
    (Hi : is_vcpu vcpuid) (Hgla : gla in_u 64) (Hcr : cr3 paging in_u 52)
    (Hsegs : segs_ok s) (Hbytes : bytes_ok (host_mem s)) (Hcpus : has_vcpus s) (Hinj : can_inject vcpuid s)
    (Htame : tame others s) (Hq : forall a, (N <= a)%nat -> quiet others a) :
  exists r s', vm_gla2gpa others vcpuid paging gla prot (S (S N)) s = Return (r, s') /\
    settled vcpuid gla s r s'.
Proof.
  apply wp_elim. apply gla2gpa_settles with (s0 := s); try done. split; [by destruct s|done].
Qed.

(** A machine in 64-bit mode with four levels of tables in its first pages; the
    last maps linear page 5 to physical page 9, writable, not yet accessed. *)
Definition tables : Z -> Z := fun a =>
  if a =? 0 then 0x07 else if a =? 1 then 0x10 else if a =? 0x1000 then 0x07 else if a =? 0x1001 then 0x20
  else if a =? 0x2000 then 0x07 else if a =? 0x2001 then 0x30
  else if a =? 0x3028 then 0x07 else if a =? 0x3029 then 0x90 else 0.

Definition paged : vm regs unit := machine frozen <| host_mem := fun a => tables a.2 |>.
Definition paging64 : vm_guest_paging := mk_paging 0 0 CPU_MODE_64BIT PAGING_MODE_64.

Lemma paged_bytes : bytes_ok (host_mem paged).
Proof. intros [o a]. cbn. unfold tables. repeat split_if; by vm_compute. Qed.

Lemma paged_segs : segs_ok paged.
Proof.
  split; cbn.
  - constructor; [|constructor]. split; cbn; try done. by exists 1.
  - constructor; [constructor|constructor].
  - lia.
Qed.

Lemma gla2gpa_correct_witness : exists r s',
  vm_gla2gpa (fun _ _ s => s) 0 paging64 0x5123 2 2 paged = Return (r, s') /\
  translated 0 paging64 0x5123 2 paged r s'.
Proof.
  apply (gla2gpa_correct (fun _ _ s => s) 0 paging64 0x5123 2 paged 0); try reflexivity; try (by vm_compute).
  - exact paged_segs.
  - exact paged_bytes.
  - split; [reflexivity|by right].
Defined.

Example gla2gpa_write :
  match vm_gla2gpa (fun _ _ s => s) 0 paging64 0x5123 2 2 paged with
  | Return (r, s') => r = (0, false, 0x9123) /\ host_mem s' (1, 0x3028) = 0x67
  | _ => False end.
Proof. vm_compute. done. Qed.

(** One attempt is not enough for this write. *)
Example gla2gpa_write_restarts : vm_gla2gpa (fun _ _ s => s) 0 paging64 0x5123 2 1 paged = Hang.
Proof. vm_compute. reflexivity. Qed.

(** Another CPU clears the accessed bit of the last entry during the first
    three attempts. *)
Definition racing (attempt _ : nat) (s : vm regs unit) : vm regs unit :=
  if (attempt <? 3)%nat then s <| host_mem := fun a => if a.2 =? 0x3028 then 0x07 else host_mem s a |> else s.

Lemma gla2gpa_terminates_witness :
  exists r s', vm_gla2gpa racing 0 paging64 0x5123 2 5 paged = Return (r, s') /\
    settled 0 0x5123 paged r s'.
Proof.
  apply (gla2gpa_terminates racing 0 paging64 0x5123 2 paged 3); try reflexivity; try (by vm_compute).
  - exact paged_segs.
  - exact paged_bytes.
  - split; [reflexivity|by right].
  - intros attempt k s [E Hb]. unfold racing. destruct (attempt <? 3)%nat; [|by split].
    split; cbn; [rewrite E; reflexivity|]. intros a. cbn. destruct (a.2 =? 0x3028); [by vm_compute|apply Hb].
  - intros a Ha k s. unfold racing. destruct (Nat.ltb_spec a 3); [lia|reflexivity].
Defined.

(** Two [copyinfo] entries suffice for every access of up to a page, so the
    assertion of [vm_copy_setup] on their number cannot fail, whatever the
    page tables hold and the other CPUs do.  It yields pieces within a page
    each, [len] bytes together, backed by guest memory, or it has injected a
    fault, or the range is not guest memory. *)
Theorem copy_setup_fits {X D : Type} `{!VmmOps X, !VmmLaws X} (others : nat -> nat -> vm X D -> vm X D)
    vcpuid paging gla len prot (s : vm X D) N
    (Hi : is_vcpu vcpuid) (Hgla : gla in_u 64) (Hcr : cr3 paging in_u 52) (Hlen : 0 <= len <= XHYVE_PAGE_SIZE)
    (Hsegs : segs_ok s) (Hbytes : bytes_ok (host_mem s)) (Hcpus : has_vcpus s) (Hinj : can_inject vcpuid s)
    (Htame : tame others s) (Hq : forall a, (N <= a)%nat -> quiet others a) :
  exists r s', vm_copy_setup others vcpuid (S (S N)) paging gla len prot 2 s = Return (r, s') /\
    copy_ready vcpuid s len r s'.
Proof.
  apply wp_elim, copy_setup_wp; try done; [split; [by destruct s|done]|lia|].
  pose proof (Z.mod_pos_bound gla XHYVE_PAGE_SIZE ltac:(done)). lia.
Qed.

(** Eight bytes across a page boundary; the second page is not mapped. *)
Lemma copy_setup_fits_witness :
  exists r s', vm_copy_setup (fun _ _ s => s) 0 2 paging64 0x5ffc 8 1 2 paged = Return (r, s') /\
    copy_ready 0 paged 8 r s'.
Proof.
  apply (copy_setup_fits (fun _ _ s => s) 0 paging64 0x5ffc 8 1 paged 0); try reflexivity; try (by vm_compute).
  - exact paged_segs.
  - exact paged_bytes.
  - split; [reflexivity|by right].
Defined.

Example copy_setup_faults :
  match vm_copy_setup (fun _ _ s => s) 0 2 paging64 0x5ffc 8 1 2 paged with
  | Return (r, s') => r = (0, true, []) /\ exception_pending (get_vcpu 0 s') = true
  | _ => False end.
Proof. vm_compute. done. Qed.
