(* ===== verification/VieEmul.v ===== *)
(** * Emulation of decoded instructions (src/src/vmm/vmm_instruction_emul.c)

    [vmm_emulate_instruction] and the routine of each instruction: moves,
    logical and arithmetic operations with their flags, bit test, string
    instructions and stack instructions with an MMIO operand.  The handlers
    [memread] and [memwrite] of the MMIO region are parameters, as they are in
    the code; [others] and [fuel] are those of the page walk. *)

From S2P Require Import Prelude Effects VmmCommon VieDecode Vmm Paging.

Local Open Scope cmd_scope.

Definition PSL_C : Z := 0x1.
Definition PSL_PF : Z := 0x4.
Definition PSL_AF : Z := 0x10.
Definition PSL_Z : Z := 0x40.
Definition PSL_N : Z := 0x80.
Definition PSL_D : Z := 0x400.
Definition PSL_V : Z := 0x800.

Definition RFLAGS_STATUS_BITS : Z :=
  Z.lor PSL_C (Z.lor PSL_PF (Z.lor PSL_AF (Z.lor PSL_Z (Z.lor PSL_N PSL_V)))).

(** ** The flags of a subtraction *)

(** The bits of the low byte are even in number. *)
Definition parity (x : Z) : bool :=
  negb (fold_right xorb false (map (fun k => Z.testbit x (Z.of_nat k)) (seq 0 8))).

(** The [sub] instruction on [w]-bit operands: carry is a borrow, overflow a
    signed result out of range, auxiliary carry a borrow out of bit 3. *)
Definition sub_flags (w x y : Z) : Z :=
  let r := (x - y) mod 2 ^ w in
  Z.lor (if x <? y then PSL_C else 0)
  (Z.lor (if parity r then PSL_PF else 0)
  (Z.lor (if x mod 16 <? y mod 16 then PSL_AF else 0)
  (Z.lor (if r =? 0 then PSL_Z else 0)
  (Z.lor (if Z.testbit r (w - 1) then PSL_N else 0)
         (if to_signed w r =? to_signed w x - to_signed w y then 0 else PSL_V))))).

(** ** Segmentation *)

(** The loop over the bytes of the access. *)
Fixpoint bytes_in_limits {S} (length : nat) (addrsize low_limit high_limit offset : Z) : cmd S bool :=
  match length with
  | O => ret true
  | S length =>
      mask <- vie_size2mask addrsize ;;
      let offset := Z.land offset mask in
      if (offset <? low_limit) || (high_limit <? offset) then ret false
      else bytes_in_limits length addrsize low_limit high_limit (u64 (offset + 1))
  end.

(** The checks outside 64-bit mode. *)
Definition segment_checks {S} (desc : seg_desc) (offset length addrsize prot : Z) : cmd S bool :=
  if SEG_DESC_UNUSABLE (access desc) then ret false else
  KASSERT (SEG_DESC_PRESENT (access desc)) ;;;
  let type := SEG_DESC_TYPE (access desc) in
  KASSERT ((16 <=? type) && (type <=? 31)) ;;;
  if tst prot XHYVE_PROT_READ && (Z.land type 0xA =? 0x8) then ret false else
  if tst prot XHYVE_PROT_WRITE && tst type 0x8 then ret false else
  if tst prot XHYVE_PROT_WRITE && (Z.land type 0xA =? 0) then ret false else
  let '(low_limit, high_limit) :=
    if Z.land type 0xC =? 0x4
    then (u32 (limit desc + 1), if SEG_DESC_DEF32 (access desc) then 0xffffffff else 0xffff)
    else (0, limit desc) in
  bytes_in_limits (Z.to_nat length) addrsize low_limit high_limit offset.

(** The linear address, or none where the code returns -1. *)
Definition vie_calculate_gla {S} (cpu_mode : vm_cpu_mode) (seg : vm_reg_name) (desc : seg_desc)
    (offset length addrsize prot : Z) : cmd S (option Z) :=
  KASSERT ((reg_index VM_REG_GUEST_ES <=? reg_index seg) && (reg_index seg <=? reg_index VM_REG_GUEST_GS)) ;;;
  KASSERT (is_size length) ;;;
  KASSERT (clr prot (Z.lor XHYVE_PROT_READ XHYVE_PROT_WRITE) =? 0) ;;;
  let long := bool_decide (cpu_mode = CPU_MODE_64BIT) in
  ok <- (if long then KASSERT ((addrsize =? 4) || (addrsize =? 8)) ;;; ret true
         else KASSERT ((addrsize =? 2) || (addrsize =? 4)) ;;;
              segment_checks desc offset length addrsize prot) ;;
  if negb ok then ret None else
  let segbase := if long && negb (bool_decide (seg = VM_REG_GUEST_FS)) && negb (bool_decide (seg = VM_REG_GUEST_GS))
                 then 0 else base desc in
  mask <- vie_size2mask addrsize ;;
  glamask <- vie_size2mask (if long then 8 else 4) ;;
  ret (Some (Z.land (u64 (segbase + Z.land offset mask)) glamask)).

(** ** Instructions *)
Section Emulation.
Context {X D : Type} `{!VmmOps X}.
Local Abbreviation M := (vm X D).
Context (others : nat -> nat -> M -> M) (fuel : nat).
(** The flags of the host other than the status flags. *)
Context (host_flags : Z).
(** The contents of the uninitialized local [ss_desc]. *)
Context (uninit_desc : seg_desc).
(** [memread(vm, vcpuid, gpa, &val, size, arg)] gives the error and [val]. *)
Context (memread : Z -> Z -> cmd M (Z * Z)) (memwrite : Z -> Z -> Z -> cmd M Z).
Context (vcpuid : Z).

(** [error = f(); if (error) return (error);] *)
Definition checked (c : cmd M (Z * Z)) (k : Z -> cmd M Z) : cmd M Z :=
  r <- c ;; if r.1 =? 0 then k r.2 else ret r.1.
Definition checked_ (c : cmd M Z) (k : cmd M Z) : cmd M Z := e <- c ;; if e =? 0 then k else ret e.

(** [error = f(); KASSERT(error == 0, ...);] *)
Definition assured (c : cmd M (Z * Z)) : cmd M Z := r <- c ;; KASSERT (r.1 =? 0) ;;; ret r.2.
Definition assured_ (c : cmd M Z) : cmd M unit := e <- c ;; KASSERT (e =? 0).

Definition vie_read_register (reg : vm_reg_name) : cmd M (Z * Z) := vm_get_register vcpuid reg.

(** The register of a byte operand and whether its second byte is meant. *)
Definition vie_calc_bytereg (v : vie) : vm_reg_name * bool :=
  if negb (rex_present v) && tst (reg v) 0x4 then (gpr_map (Z.land (reg v) 0x3), true)
  else (gpr_map (reg v), false).

Definition vie_read_bytereg (v : vie) : cmd M (Z * Z) :=
  let '(reg, lhbr) := vie_calc_bytereg v in
  r <- vm_get_register vcpuid reg ;;
  ret (r.1, if lhbr then u8 (Z.shiftr r.2 8) else u8 r.2).

Definition vie_write_bytereg (v : vie) (byte : Z) : cmd M Z :=
  let '(reg, lhbr) := vie_calc_bytereg v in
  checked (vm_get_register vcpuid reg) (fun origval =>
    let val := if lhbr then Z.shiftl byte 8 else byte in
    let mask := if lhbr then Z.shiftl 0xff 8 else 0xff in
    vm_set_register vcpuid reg (Z.lor val (clr origval mask))).

Definition vie_update_register (reg : vm_reg_name) (val size : Z) : cmd M Z :=
  if (size =? 1) || (size =? 2) then
    checked (vie_read_register reg) (fun origval =>
      vm_set_register vcpuid reg (Z.lor (Z.land val (size2mask size)) (clr origval (size2mask size))))
  else if size =? 4 then vm_set_register vcpuid reg (Z.land val 0xffffffff)
  else if size =? 8 then vm_set_register vcpuid reg val
  else ret EINVAL.

Definition getcc (opsize x y : Z) : cmd M Z :=
  KASSERT (is_size opsize) ;;;
  let w := 8 * opsize in
  ret (Z.lor (clr host_flags RFLAGS_STATUS_BITS) (sub_flags w (x mod 2 ^ w) (y mod 2 ^ w))).

Definition emulate_mov (gpa : Z) (v : vie) : cmd M Z :=
  let size := opsize v in
  match op_byte (op v) with
  | 0x88 => checked (vie_read_bytereg v) (fun byte => memwrite gpa byte 1)
  | 0x89 => checked (vie_read_register (gpr_map (reg v))) (fun val =>
              memwrite gpa (Z.land val (size2mask size)) size)
  | 0x8A => checked (memread gpa 1) (fun val => vie_write_bytereg v (u8 val))
  | 0x8B => checked (memread gpa size) (fun val => vie_update_register (gpr_map (reg v)) val size)
  | 0xA1 => checked (memread gpa size) (fun val => vie_update_register VM_REG_GUEST_RAX val size)
  | 0xA3 => checked (vie_read_register VM_REG_GUEST_RAX) (fun val =>
              memwrite gpa (Z.land val (size2mask size)) size)
  | 0xC6 => memwrite gpa (u64 (immediate v)) 1
  | 0xC7 => memwrite gpa (Z.land (u64 (immediate v)) (size2mask size)) size
  | _ => ret EINVAL
  end.

Definition emulate_movx (gpa : Z) (v : vie) : cmd M Z :=
  let size := opsize v in
  match op_byte (op v) with
  | 0xB6 => checked (memread gpa 1) (fun val => vie_update_register (gpr_map (reg v)) (u8 val) size)
  | 0xB7 => checked (memread gpa 2) (fun val => vie_update_register (gpr_map (reg v)) (u16 val) size)
  | 0xBE => checked (memread gpa 1) (fun val =>
              vie_update_register (gpr_map (reg v)) (u64 (to_signed 8 val)) size)
  | _ => ret EINVAL
  end.

(** The linear address of an access, or none after a fault was injected. *)
Definition get_gla (paging : vm_guest_paging) (opsize addrsize prot : Z) (seg gpr : vm_reg_name) :
    cmd M (option Z) :=
  cr0 <- assured (vie_read_register VM_REG_GUEST_CR0) ;;
  rflags <- assured (vie_read_register VM_REG_GUEST_RFLAGS) ;;
  desc <- vm_get_seg_desc vcpuid seg ;;
  KASSERT (desc.1 =? 0) ;;;
  val <- assured (vie_read_register gpr) ;;
  let inject := if bool_decide (seg = VM_REG_GUEST_SS) then vm_inject_ss vcpuid 0 else vm_inject_gp vcpuid in
  gla <- vie_calculate_gla (cpu_mode paging) seg desc.2 val opsize addrsize prot ;;
  match gla with
  | None => inject ;;; ret None
  | Some gla =>
      if vie_canonical_check (cpu_mode paging) gla then inject ;;; ret None
      else
        bad <- vie_alignment_check (cpl paging) opsize cr0 rflags gla ;;
        if bad then vm_inject_ac vcpuid 0 ;;; ret None
        else ret (Some gla)
  end.

(** Is the count register, by the address size, zero? *)
Definition count_done (v : vie) (rcx : Z) : cmd M bool :=
  mask <- vie_size2mask (addrsize v) ;; ret (Z.land rcx mask =? 0).

(** The index register of a string instruction moves by the operand size. *)
Definition step_index (rflags opsize r : Z) : Z :=
  if tst rflags PSL_D then u64 (r - opsize) else u64 (r + opsize).

(** The end of an iteration: count down and run the instruction again unless
    the count is zero. *)
Definition string_repeat (v : vie) (rcx : Z) : cmd M unit :=
  let rcx := u64 (rcx - 1) in
  assured_ (vie_update_register VM_REG_GUEST_RCX rcx (addrsize v)) ;;;
  z <- count_done v rcx ;;
  when (negb z) (vm_restart_instruction vcpuid ;;; skip).

Definition repeats (v : vie) : bool := repz_present v || repnz_present v.

(** Case (3) and (4) of [emulate_movs]: the source is MMIO. *)
Definition movs_from_mmio (gpa srcaddr opsize : Z) (v : vie) (paging : vm_guest_paging) (k : cmd M Z) : cmd M Z :=
  dst <- get_gla paging opsize (addrsize v) XHYVE_PROT_WRITE VM_REG_GUEST_ES VM_REG_GUEST_RDI ;;
  match dst with
  | None => ret 0
  | Some dstaddr =>
      r <- vm_copy_setup others vcpuid fuel paging dstaddr opsize XHYVE_PROT_WRITE 2 ;;
      let '(error, fault, copyinfo) := r in
      if error =? 0 then
        if fault : bool then ret 0
        else
          checked (memread gpa opsize) (fun val =>
            vm_copyout (le_split (Z.to_nat opsize) val) copyinfo opsize ;;; k)
      else
        a <- vm_gla2gpa others vcpuid paging srcaddr XHYVE_PROT_READ fuel ;;
        let '(error, fault, srcgpa) := a in
        if negb (error =? 0) || fault then ret error
        else
          b <- vm_gla2gpa others vcpuid paging dstaddr XHYVE_PROT_WRITE fuel ;;
          let '(error, fault, dstgpa) := b in
          if negb (error =? 0) || fault then ret error
          else
            checked (memread srcgpa opsize) (fun val => checked_ (memwrite dstgpa val opsize) k)
  end.

(** The part of [emulate_movs] before the index registers are updated. *)
Definition movs_transfer (gpa opsize : Z) (v : vie) (paging : vm_guest_paging) (k : cmd M Z) : cmd M Z :=
  let seg := if seg_override v then segment_register v else VM_REG_GUEST_DS in
  src <- get_gla paging opsize (addrsize v) XHYVE_PROT_READ seg VM_REG_GUEST_RSI ;;
  match src with
  | None => ret 0
  | Some srcaddr =>
      r <- vm_copy_setup others vcpuid fuel paging srcaddr opsize XHYVE_PROT_READ 2 ;;
      let '(error, fault, copyinfo) := r in
      if error =? 0 then
        if fault : bool then ret 0
        else
          bytes <- vm_copyin copyinfo opsize ;;
          checked_ (memwrite gpa (le_combine bytes) opsize) k
      else movs_from_mmio gpa srcaddr opsize v paging k
  end.

(** The update of the registers. *)
Definition movs_advance (opsize rcx : Z) (v : vie) : cmd M Z :=
  rsi <- assured (vie_read_register VM_REG_GUEST_RSI) ;;
  rdi <- assured (vie_read_register VM_REG_GUEST_RDI) ;;
  rflags <- assured (vie_read_register VM_REG_GUEST_RFLAGS) ;;
  assured_ (vie_update_register VM_REG_GUEST_RSI (step_index rflags opsize rsi) (addrsize v)) ;;;
  assured_ (vie_update_register VM_REG_GUEST_RDI (step_index rflags opsize rdi) (addrsize v)) ;;;
  when (repeats v) (string_repeat v rcx) ;;; ret 0.

Definition emulate_movs (gpa : Z) (v : vie) (paging : vm_guest_paging) : cmd M Z :=
  let opsize := if op_byte (op v) =? 0xA4 then 1 else opsize v in
  rcx <- (if repeats v then assured (vie_read_register VM_REG_GUEST_RCX) else ret 0) ;;
  stop <- (if repeats v then count_done v rcx else ret false) ;;
  error <- (if stop : bool then ret 0 else movs_transfer gpa opsize v paging (movs_advance opsize rcx v)) ;;
  KASSERT ((error =? 0) || (error =? EFAULT)) ;;; ret error.

Definition emulate_stos (gpa : Z) (v : vie) : cmd M Z :=
  let opsize := if op_byte (op v) =? 0xAA then 1 else opsize v in
  rcx <- (if repeats v then assured (vie_read_register VM_REG_GUEST_RCX) else ret 0) ;;
  stop <- (if repeats v then count_done v rcx else ret false) ;;
  if stop : bool then ret 0 else
  val <- assured (vie_read_register VM_REG_GUEST_RAX) ;;
  checked_ (memwrite gpa val opsize) (
    rdi <- assured (vie_read_register VM_REG_GUEST_RDI) ;;
    rflags <- assured (vie_read_register VM_REG_GUEST_RFLAGS) ;;
    assured_ (vie_update_register VM_REG_GUEST_RDI (step_index rflags opsize rdi) (addrsize v)) ;;;
    when (repeats v) (string_repeat v rcx) ;;; ret 0).

(** The end of the logical instructions: OF and CF cleared, SF, ZF and PF by
    the result. *)
Definition logic_flags (size result : Z) : cmd M Z :=
  checked (vie_read_register VM_REG_GUEST_RFLAGS) (fun rflags =>
    rflags2 <- getcc size result 0 ;;
    vie_update_register VM_REG_GUEST_RFLAGS
      (Z.lor (clr rflags RFLAGS_STATUS_BITS) (Z.land rflags2 (Z.lor PSL_PF (Z.lor PSL_Z PSL_N)))) 8).

(** The end of the arithmetic instructions. *)
Definition arith_flags (rflags2 : Z) : cmd M Z :=
  checked (vie_read_register VM_REG_GUEST_RFLAGS) (fun rflags =>
    vie_update_register VM_REG_GUEST_RFLAGS
      (Z.lor (clr rflags RFLAGS_STATUS_BITS) (Z.land rflags2 RFLAGS_STATUS_BITS)) 8).

Definition emulate_and (gpa : Z) (v : vie) : cmd M Z :=
  let size := opsize v in
  match op_byte (op v) with
  | 0x23 =>
      checked (vie_read_register (gpr_map (reg v))) (fun val1 =>
        checked (memread gpa size) (fun val2 =>
          let result := Z.land val1 val2 in
          checked_ (vie_update_register (gpr_map (reg v)) result size) (logic_flags size result)))
  | 0x81 | 0x83 =>
      checked (memread gpa size) (fun val1 =>
        let result := Z.land val1 (u64 (immediate v)) in
        checked_ (memwrite gpa result size) (logic_flags size result))
  | _ => ret EINVAL
  end.

Definition emulate_or (gpa : Z) (v : vie) : cmd M Z :=
  let size := opsize v in
  match op_byte (op v) with
  | 0x81 | 0x83 =>
      checked (memread gpa size) (fun val1 =>
        let result := Z.lor val1 (u64 (immediate v)) in
        checked_ (memwrite gpa result size) (logic_flags size result))
  | _ => ret EINVAL
  end.

Definition emulate_cmp (gpa : Z) (v : vie) : cmd M Z :=
  match op_byte (op v) with
  | 0x3B =>
      let size := opsize v in
      checked (vie_read_register (gpr_map (reg v))) (fun op1 =>
        checked (memread gpa size) (fun op2 =>
          rflags2 <- getcc size op1 op2 ;; arith_flags rflags2))
  | 0x80 | 0x81 | 0x83 =>
      let size := if op_byte (op v) =? 0x80 then 1 else opsize v in
      checked (memread gpa size) (fun op1 =>
        rflags2 <- getcc size op1 (u64 (immediate v)) ;; arith_flags rflags2)
  | _ => ret EINVAL
  end.

Definition emulate_sub (gpa : Z) (v : vie) : cmd M Z :=
  let size := opsize v in
  match op_byte (op v) with
  | 0x2B =>
      checked (vie_read_register (gpr_map (reg v))) (fun val1 =>
        checked (memread gpa size) (fun val2 =>
          checked_ (vie_update_register (gpr_map (reg v)) (u64 (val1 - val2)) size) (
            rflags2 <- getcc size val1 val2 ;; arith_flags rflags2)))
  | _ => ret EINVAL
  end.

(** The size of the stack pointer, of the operand, and [ss_desc]. *)
Definition stack_sizes (v : vie) (paging : vm_guest_paging) : cmd M (Z * Z * seg_desc) :=
  match cpu_mode paging with
  | CPU_MODE_REAL => ret (2, opsize v, uninit_desc)
  | CPU_MODE_64BIT => ret (8, if opsize_override v then 2 else 8, uninit_desc)
  | _ => desc <- vm_get_seg_desc vcpuid VM_REG_GUEST_SS ;;
         KASSERT (desc.1 =? 0) ;;;
         ret (if SEG_DESC_DEF32 (access desc.2) then 4 else 2, opsize v, desc.2)
  end.

Definition emulate_stack_op (mmio_gpa : Z) (v : vie) (paging : vm_guest_paging) : cmd M Z :=
  let pushop := bool_decide (op_type (op v) = VIE_OP_TYPE_PUSH) in
  sizes <- stack_sizes v paging ;;
  let '(stackaddrsize, size, ss_desc) := sizes in
  cr0 <- assured (vie_read_register VM_REG_GUEST_CR0) ;;
  rflags <- assured (vie_read_register VM_REG_GUEST_RFLAGS) ;;
  rsp <- assured (vie_read_register VM_REG_GUEST_RSP) ;;
  let rsp := if pushop then u64 (rsp - size) else rsp in
  let prot := if pushop then XHYVE_PROT_WRITE else XHYVE_PROT_READ in
  gla <- vie_calculate_gla (cpu_mode paging) VM_REG_GUEST_SS ss_desc rsp size stackaddrsize prot ;;
  match gla with
  | None => vm_inject_ss vcpuid 0 ;;; ret 0
  | Some stack_gla =>
      if vie_canonical_check (cpu_mode paging) stack_gla then vm_inject_ss vcpuid 0 ;;; ret 0 else
      bad <- vie_alignment_check (cpl paging) size cr0 rflags stack_gla ;;
      if bad : bool then vm_inject_ac vcpuid 0 ;;; ret 0 else
      r <- vm_copy_setup others vcpuid fuel paging stack_gla size prot 2 ;;
      let '(error, fault, copyinfo) := r in
      if negb (error =? 0) || fault then ret error else
      if pushop then
        checked (memread mmio_gpa size) (fun val =>
          vm_copyout (le_split (Z.to_nat size) val) copyinfo size ;;;
          assured_ (vie_update_register VM_REG_GUEST_RSP rsp stackaddrsize) ;;; ret 0)
      else
        bytes <- vm_copyin copyinfo size ;;
        checked_ (memwrite mmio_gpa (le_combine bytes) size) (
          assured_ (vie_update_register VM_REG_GUEST_RSP (u64 (rsp + size)) stackaddrsize) ;;; ret 0)
  end.

Definition emulate_push (mmio_gpa : Z) (v : vie) (paging : vm_guest_paging) : cmd M Z :=
  if negb (Z.land (reg v) 7 =? 6) then ret EINVAL else emulate_stack_op mmio_gpa v paging.

Definition emulate_pop (mmio_gpa : Z) (v : vie) (paging : vm_guest_paging) : cmd M Z :=
  if negb (Z.land (reg v) 7 =? 0) then ret EINVAL else emulate_stack_op mmio_gpa v paging.

Definition emulate_group1 (gpa : Z) (v : vie) : cmd M Z :=
  match Z.land (reg v) 7 with
  | 0x1 => emulate_or gpa v
  | 0x4 => emulate_and gpa v
  | 0x7 => emulate_cmp gpa v
  | _ => ret EINVAL
  end.

Definition emulate_bittest (gpa : Z) (v : vie) : cmd M Z :=
  if negb (Z.land (reg v) 7 =? 4) then ret EINVAL else
  rflags <- assured (vie_read_register VM_REG_GUEST_RFLAGS) ;;
  checked (memread gpa (opsize v)) (fun val =>
    let bitmask := opsize v * 8 - 1 in
    let bitoff := Z.land (immediate v) bitmask in
    let rflags := if tst val (bit bitoff) then Z.lor rflags PSL_C else clr rflags PSL_C in
    assured_ (vie_update_register VM_REG_GUEST_RFLAGS rflags 8) ;;; ret 0).

Definition vmm_emulate_instruction (gpa : Z) (v : vie) (paging : vm_guest_paging) : cmd M Z :=
  if negb (decoded v) then ret EINVAL else
  match op_type (op v) with
  | VIE_OP_TYPE_GROUP1 => emulate_group1 gpa v
  | VIE_OP_TYPE_POP => emulate_pop gpa v paging
  | VIE_OP_TYPE_PUSH => emulate_push gpa v paging
  | VIE_OP_TYPE_CMP => emulate_cmp gpa v
  | VIE_OP_TYPE_MOV => emulate_mov gpa v
  | VIE_OP_TYPE_MOVSX | VIE_OP_TYPE_MOVZX => emulate_movx gpa v
  | VIE_OP_TYPE_MOVS => emulate_movs gpa v paging
  | VIE_OP_TYPE_STOS => emulate_stos gpa v
  | VIE_OP_TYPE_AND => emulate_and gpa v
  | VIE_OP_TYPE_OR => emulate_or gpa v
  | VIE_OP_TYPE_SUB => emulate_sub gpa v
  | VIE_OP_TYPE_BITTEST => emulate_bittest gpa v
  | _ => ret EINVAL
  end.
End Emulation.

(** ** Segmentation follows the architecture *)

(** Intel SDM volume 3, sections 5.3 and 3.4.5.1. *)
Definition expand_down (desc : seg_desc) : bool :=
  negb (Z.testbit (access desc) 3) && Z.testbit (access desc) 2.

Definition offset_valid (desc : seg_desc) (o : Z) : bool :=
  if expand_down desc then (limit desc <? o) && (o <? 2 ^ (if Z.testbit (access desc) 14 then 32 else 16))
  else o <=? limit desc.

(** A code segment can be read if it is marked readable and never written; a
    data segment can be read and, if it is marked writable, written. *)
Definition access_permitted (desc : seg_desc) (prot : Z) : bool :=
  let code := Z.testbit (access desc) 3 in
  let rw := Z.testbit (access desc) 1 in
  implb (Z.testbit prot 0) (implb code rw) && implb (Z.testbit prot 1) (negb code && rw).

Definition ref_gla (m : vm_cpu_mode) (seg : vm_reg_name) (desc : seg_desc) (offset length addrsize prot : Z) :
    option Z :=
  let ea k := (offset + Z.of_nat k) mod 2 ^ (8 * addrsize) in
  match m with
  | CPU_MODE_64BIT =>
      Some (((match seg with VM_REG_GUEST_FS | VM_REG_GUEST_GS => base desc | _ => 0 end) + ea 0%nat) mod 2 ^ 64)
  | _ =>
      if negb (Z.testbit (access desc) 16) && access_permitted desc prot &&
         forallb (fun k => offset_valid desc (ea k)) (seq 0 (Z.to_nat length))
      then Some ((base desc + ea 0%nat) mod 2 ^ 32) else None
  end.

(** What VM entry guarantees of a loaded segment register. *)
Definition desc_ok (desc : seg_desc) : Prop :=
  base desc in_u 64 /\ limit desc in_u 32 /\
  (SEG_DESC_UNUSABLE (access desc) = false ->
   SEG_DESC_PRESENT (access desc) = true /\ 16 <= SEG_DESC_TYPE (access desc) <= 31).

Definition addrsize_ok (m : vm_cpu_mode) (addrsize : Z) : Prop :=
  match m with CPU_MODE_64BIT => addrsize = 4 \/ addrsize = 8 | _ => addrsize = 2 \/ addrsize = 4 end.

Lemma forallb_seq_S f n : forallb f (seq 1 n) = forallb (fun k => f (S k)) (seq 0 n).
Proof. rewrite <- seq_shift. induction (seq 0 n) as [|k l IH]; cbn; [done|]. by rewrite IH. Qed.

Lemma forallb_same {A} (f g : A -> bool) l : (forall x, f x = g x) -> forallb f l = forallb g l.
Proof. intros H. induction l as [|x l IH]; cbn; [done|]. by rewrite H, IH. Qed.

Section Segments.
Context {S : Type}.
Implicit Types s : S.

Lemma size_mask a x : is_size a = true -> Z.land x (size2mask a) = x mod 2 ^ (8 * a).
Proof.
  unfold is_size. intros H.
  assert (a = 1 \/ a = 2 \/ a = 4 \/ a = 8) as [->|[->|[->| ->]]] by (bools; lia);
    match goal with |- Z.land x (size2mask ?k) = _ => change (size2mask k) with (Z.ones (8 * k)) end;
    by rewrite Z.land_ones.
Qed.

Lemma bytes_in_limits_spec n a low high offset s : a = 2 \/ a = 4 -> 0 <= offset ->
  bytes_in_limits n a low high offset s =
  Return (forallb (fun k => (low <=? (offset + Z.of_nat k) mod 2 ^ (8 * a)) &&
                            ((offset + Z.of_nat k) mod 2 ^ (8 * a) <=? high)) (seq 0 n), s).
Proof.
  intros Ha. revert offset. induction n as [|n IH]; intros offset Ho; [done|]. cbn [bytes_in_limits seq forallb].
  assert (Hsz : is_size a = true) by (by destruct Ha as [-> | ->]).
  unfold vie_size2mask, bind at 1 2, KASSERT. rewrite Hsz. cbn [ret]. rewrite size_mask by done.
  replace (offset + Z.of_nat 0) with offset by lia. set (o := offset mod 2 ^ (8 * a)).
  assert (Hr : 0 <= o < 2 ^ 32).
  { assert (0 <= o < 2 ^ (8 * a)) by (apply Z.mod_pos_bound; destruct Ha as [-> | ->]; done).
    destruct Ha as [-> | ->]; lia. }
  rewrite Z.ltb_antisym, (Z.ltb_antisym o high). destruct (low <=? o), (o <=? high); cbn [negb orb andb]; try done.
  rewrite u64_id, IH by lia. f_equal. f_equal. rewrite forallb_seq_S.
  apply forallb_same. intros k.
  assert (Hk : (o + 1 + Z.of_nat k) mod 2 ^ (8 * a) = (offset + Z.of_nat (Datatypes.S k)) mod 2 ^ (8 * a)).
  { unfold o. rewrite <- Z.add_assoc, Z.add_mod_idemp_l by (destruct Ha as [-> | ->]; done). f_equal. lia. }
  by rewrite Hk.
Qed.

Lemma size2mask_ret {A} a (k : Z -> cmd S A) s : is_size a = true ->
  bind (vie_size2mask a) k s = k (size2mask a) s.
Proof. intros H. unfold vie_size2mask, bind, KASSERT. by rewrite H. Qed.

(** The type field by its bits. *)
Lemma type_bits acc : let type := SEG_DESC_TYPE acc in
  16 <= type <= 31 ->
  (Z.land type 0xA =? 0x8) = Z.testbit acc 3 && negb (Z.testbit acc 1) /\
  tst type 0x8 = Z.testbit acc 3 /\
  (Z.land type 0xA =? 0) = negb (Z.testbit acc 3) && negb (Z.testbit acc 1) /\
  (Z.land type 0xC =? 0x4) = negb (Z.testbit acc 3) && Z.testbit acc 2.
Proof.
  intros type Ht.
  assert (Hb : forall k, 0 <= k < 5 -> Z.testbit acc k = Z.testbit type k).
  { intros k Hk. unfold type, SEG_DESC_TYPE. change 0x1f with (Z.ones 5).
    by rewrite Z.land_spec, Z.ones_spec_low, andb_true_r by lia. }
  rewrite !Hb by lia. clearbody type.
  assert (Hall : In type (map (fun k => 16 + Z.of_nat k) (seq 0 16))).
  { apply in_map_iff. exists (Z.to_nat (type - 16)). rewrite in_seq. lia. }
  cbn in Hall. repeat destruct Hall as [<- | Hall]; by vm_compute.
Qed.

Definition limits_pass (desc : seg_desc) (o : Z) : bool :=
  if expand_down desc
  then (u32 (limit desc + 1) <=? o) && (o <=? if SEG_DESC_DEF32 (access desc) then 0xffffffff else 0xffff)
  else (0 <=? o) && (o <=? limit desc).

Lemma segment_checks_spec desc offset length a prot s :
  a = 2 \/ a = 4 -> 0 <= offset -> 0 <= prot <= 3 -> desc_ok desc ->
  segment_checks desc offset length a prot s =
  Return (negb (Z.testbit (access desc) 16) && access_permitted desc prot &&
          forallb (fun k => limits_pass desc ((offset + Z.of_nat k) mod 2 ^ (8 * a))) (seq 0 (Z.to_nat length)), s).
Proof.
  intros Ha Ho Hp (_ & _ & Hd). unfold segment_checks.
  assert (Hun : SEG_DESC_UNUSABLE (access desc) = Z.testbit (access desc) 16).
  { unfold SEG_DESC_UNUSABLE. change 0x10000 with (bit 16). by rewrite tst_bit. }
  rewrite <- Hun. destruct (SEG_DESC_UNUSABLE (access desc)); [done|]. destruct (Hd eq_refl) as [Hpr Hty].
  rewrite !KASSERT_true by (done || (apply andb_true_iff; split; apply Z.leb_le; lia)).
  destruct (type_bits (access desc) Hty) as (-> & -> & -> & ->). unfold access_permitted, limits_pass, expand_down.
  assert (Ht1 : tst prot XHYVE_PROT_READ = Z.testbit prot 0) by (apply (tst_bit prot 0); lia).
  assert (Ht2 : tst prot XHYVE_PROT_WRITE = Z.testbit prot 1) by (apply (tst_bit prot 1); lia).
  rewrite Ht1, Ht2. clear Ht1 Ht2.
  destruct (Z.testbit prot 0), (Z.testbit prot 1), (Z.testbit (access desc) 3), (Z.testbit (access desc) 1);
    cbn [implb negb andb]; try done; destruct (Z.testbit (access desc) 2); cbn [negb andb];
    by rewrite bytes_in_limits_spec.
Qed.

Definition gla_of (m : vm_cpu_mode) (seg : vm_reg_name) (desc : seg_desc) (offset a : Z) : Z :=
  match m with
  | CPU_MODE_64BIT =>
      ((match seg with VM_REG_GUEST_FS | VM_REG_GUEST_GS => base desc | _ => 0 end) + offset mod 2 ^ (8 * a)) mod 2 ^ 64
  | _ => (base desc + offset mod 2 ^ (8 * a)) mod 2 ^ 32
  end.

(** The routine, with the limits it checks. *)
Lemma calculate_gla_returns m seg desc offset length a prot s :
  data_seg seg -> is_size length = true -> 0 <= prot <= 3 -> addrsize_ok m a -> 0 <= offset ->
  (m <> CPU_MODE_64BIT -> desc_ok desc) ->
  vie_calculate_gla m seg desc offset length a prot s =
  Return (if bool_decide (m = CPU_MODE_64BIT) ||
             negb (Z.testbit (access desc) 16) && access_permitted desc prot &&
             forallb (fun k => limits_pass desc ((offset + Z.of_nat k) mod 2 ^ (8 * a))) (seq 0 (Z.to_nat length))
          then Some (gla_of m seg desc offset a) else None, s).
Proof.
  intros Hseg Hlen Hp Ha Ho Hd. unfold vie_calculate_gla.
  rewrite !KASSERT_true; [|..|done|]; cycle 1.
  { assert (prot = 0 \/ prot = 1 \/ prot = 2 \/ prot = 3) as [->|[->|[->| ->]]] by lia; done. }
  { unfold data_seg in Hseg. by cases_in Hseg; subst. }
  assert (Hsz : is_size a = true).
  { unfold addrsize_ok in Ha. by destruct m; destruct Ha as [-> | ->]. }
  assert (Hfin : forall x, Z.land (u64 x) (size2mask (if bool_decide (m = CPU_MODE_64BIT) then 8 else 4)) =
                 x mod 2 ^ (if bool_decide (m = CPU_MODE_64BIT) then 64 else 32)).
  { intros x. rewrite size_mask by (by case_bool_decide). unfold u64. case_bool_decide.
    - change (8 * 8) with 64. apply Z.mod_mod. lia.
    - apply (mod_pow_mod x 32 64). lia. }
  destruct (bool_decide (m = CPU_MODE_64BIT)) eqn:Em; cbn [orb].
  - apply bool_decide_eq_true in Em as ->. cbn [addrsize_ok] in Ha.
    unfold bind at 1. rewrite KASSERT_true by (by destruct Ha as [-> | ->]). cbn [ret negb andb].
    rewrite !size2mask_ret by done. cbn [ret]. rewrite (size_mask a), Hfin by done. unfold gla_of.
    unfold data_seg in Hseg. by cases_in Hseg; subst.
  - apply bool_decide_eq_false in Em.
    assert (Ha' : a = 2 \/ a = 4) by (by destruct m). unfold bind at 1.
    rewrite KASSERT_true by (by destruct Ha' as [-> | ->]). rewrite segment_checks_spec by (try done; by apply Hd).
    destruct (_ && _); cbn [negb andb]; [|done]. rewrite !size2mask_ret by done. cbn [ret andb].
    rewrite (size_mask a), Hfin by done. unfold gla_of. by destruct m.
Qed.
End Segments.

(** C23: [vie_calculate_gla] computes the linear address the architecture
    prescribes, or refuses the access.  Outside 64-bit mode the segment must
    be usable and allow the access, and every byte of the operand, whose
    offset wraps at the address size, must lie inside the limit, for segments
    that expand down above it; in 64-bit mode only FS and GS have a base.
    Excluded is an expand-down segment with the limit 2^32 - 1, which admits no
    offset and where the code admits all, see [expand_down_wraps]. *)
Theorem calculate_gla_correct {S : Type} m seg desc offset length a prot (s : S)
    (Hseg : data_seg seg) (Hlen : is_size length = true) (Hp : 0 <= prot <= 3) (Ha : addrsize_ok m a)
    (Ho : 0 <= offset) (Hd : desc_ok desc) (Hx : expand_down desc = true -> limit desc < 2 ^ 32 - 1) :
  vie_calculate_gla m seg desc offset length a prot s = Return (ref_gla m seg desc offset length a prot, s).
Proof.
  rewrite calculate_gla_returns by done. f_equal. f_equal. unfold ref_gla, gla_of.
  replace (offset + Z.of_nat 0) with offset by lia.
  assert (Hpass : forall o, 0 <= o -> limits_pass desc o = offset_valid desc o).
  { intros o Hoo. unfold limits_pass, offset_valid. destruct Hd as (_ & Hl & _).
    destruct (expand_down desc); [|by rewrite (proj2 (Z.leb_le 0 o))]. specialize (Hx eq_refl).
    rewrite u32_id by lia. unfold SEG_DESC_DEF32. change 0x4000 with (bit 14). rewrite tst_bit by lia.
    f_equal; [|destruct (Z.testbit (access desc) 14)]; apply eq_true_iff_eq;
      rewrite ?Z.leb_le, ?Z.ltb_lt; lia. }
  assert (Hall : forall l, forallb (fun k => limits_pass desc ((offset + Z.of_nat k) mod 2 ^ (8 * a))) l =
    forallb (fun k => offset_valid desc ((offset + Z.of_nat k) mod 2 ^ (8 * a))) l).
  { intros l. apply forallb_same. intros k. apply Hpass. apply Z.mod_pos_bound.
    unfold addrsize_ok in Ha. by destruct m; destruct Ha as [-> | ->]. }
  rewrite Hall. by destruct m.
Qed.

(** A word at the end of a 64 KiB data segment with 32-bit offsets wraps past
    the limit. *)
Lemma calculate_gla_correct_witness :
  vie_calculate_gla CPU_MODE_PROTECTED VM_REG_GUEST_DS (mk_seg_desc 0x1000 0xffff 0x93) 0xffff 2 4 1 tt =
  Return (ref_gla CPU_MODE_PROTECTED VM_REG_GUEST_DS (mk_seg_desc 0x1000 0xffff 0x93) 0xffff 2 4 1, tt).
Proof.
  apply (calculate_gla_correct CPU_MODE_PROTECTED VM_REG_GUEST_DS (mk_seg_desc 0x1000 0xffff 0x93) 0xffff 2 4 1 tt).
  - unfold data_seg. member.
  - reflexivity.
  - lia.
  - by right.
  - lia.
  - repeat split; by vm_compute.
  - discriminate.
Defined.

Example gla_limit : ref_gla CPU_MODE_PROTECTED VM_REG_GUEST_DS (mk_seg_desc 0x1000 0xffff 0x93) 0xffff 2 4 1 = None.
Proof. reflexivity. Qed.

(** The lower limit of an expand-down segment is computed in 32 bits, so the
    greatest limit, which leaves no valid offset, admits every offset. *)
Example expand_down_wraps :
  vie_calculate_gla CPU_MODE_PROTECTED VM_REG_GUEST_DS (mk_seg_desc 0 0xffffffff 0x4097) 0x10 4 4 1 tt = Return (Some 0x10, tt) /\
  ref_gla CPU_MODE_PROTECTED VM_REG_GUEST_DS (mk_seg_desc 0 0xffffffff 0x4097) 0x10 4 4 1 = None.
Proof. split; reflexivity. Qed.
