(* ===== verification/VieRefine.v ===== *)
(** * Instructions with a memory operand against a reference semantics

    [x86_effect] states what the moves, the logical and arithmetic
    instructions and the bit test do with a memory operand: what is read, what
    is written, and the registers and flags afterwards, in arithmetic modulo
    the operand size.  [emulate_refines] shows that
    [vmm_emulate_instruction] (src/src/vmm/vmm_instruction_emul.c) does
    exactly that with the handlers of an MMIO region. *)

From S2P Require Import Prelude Effects VmmCommon VieDecode Vmm Paging VieEmul.

Local Open Scope cmd_scope.

(** ** Reference semantics *)

Definition rfile : Type := vm_reg_name -> Z.

Definition upd (r : vm_reg_name) (x : Z) (f : rfile) : rfile := fun q => if bool_decide (q = r) then x else f q.

(** The low [size] bytes. *)
Definition low (size x : Z) : Z := x mod 2 ^ (8 * size).

(** Writing an operand register: a 32-bit result clears the upper half, a
    16-bit or 8-bit result leaves the other bits alone. *)
Definition put_reg (size : Z) (r : vm_reg_name) (x : Z) (f : rfile) : rfile :=
  upd r (match size with
         | 4 | 8 => low size x
         | _ => low size x + 2 ^ (8 * size) * (f r / 2 ^ (8 * size))
         end) f.

(** A byte operand: without a REX prefix the numbers 4 to 7 name the second
    bytes of the first four registers. *)
Definition byte_operand (v : vie) : vm_reg_name * bool :=
  if rex_present v || (reg v <? 4) then (gpr_map (reg v), false) else (gpr_map (reg v - 4), true).

Definition get_byte (v : vie) (f : rfile) : Z :=
  let '(r, high) := byte_operand v in low 1 (if high : bool then f r / 256 else f r).

Definition put_byte (v : vie) (b : Z) (f : rfile) : rfile :=
  let '(r, high) := byte_operand v in
  if high : bool then upd r (f r mod 256 + 256 * (b + 256 * (f r / 65536))) f
  else put_reg 1 r b f.

(** Status flags: the others are kept. *)
Definition put_status (flags : Z) (f : rfile) : rfile :=
  upd VM_REG_GUEST_RFLAGS (Z.lor (clr (f VM_REG_GUEST_RFLAGS) RFLAGS_STATUS_BITS) flags) f.

(** AND and OR clear carry and overflow (and here the auxiliary carry, which
    the architecture leaves undefined). *)
Definition logic_status (size x : Z) : Z :=
  Z.lor (if parity (low size x) then PSL_PF else 0)
  (Z.lor (if low size x =? 0 then PSL_Z else 0)
         (if Z.testbit (low size x) (8 * size - 1) then PSL_N else 0)).

Definition put_carry (c : bool) (f : rfile) : rfile :=
  upd VM_REG_GUEST_RFLAGS (Z.lor (clr (f VM_REG_GUEST_RFLAGS) PSL_C) (if c then PSL_C else 0)) f.

(** An instruction: the size of its read, if any, and from the value read its
    write, if any, and the new registers. *)
Record effect : Type := mk_effect {
  ef_read : option Z;
  ef_apply : Z -> rfile -> option (Z * Z) * rfile;
}.

Definition store_op (n : Z) (x : rfile -> Z) : option effect :=
  Some (mk_effect None (fun _ f => (Some (n, low n (x f)), f))).
Definition load_op (n : Z) (g : Z -> rfile -> rfile) : option effect :=
  Some (mk_effect (Some n) (fun m f => (None, g (low n m) f))).

Definition mov_effect (v : vie) : option effect :=
  let n := opsize v in
  match op_byte (op v) with
  | 0x88 => store_op 1 (get_byte v)
  | 0x89 => store_op n (fun f => f (gpr_map (reg v)))
  | 0x8A => load_op 1 (put_byte v)
  | 0x8B => load_op n (put_reg n (gpr_map (reg v)))
  | 0xA1 => load_op n (put_reg n VM_REG_GUEST_RAX)
  | 0xA3 => store_op n (fun f => f VM_REG_GUEST_RAX)
  | 0xC6 => store_op 1 (fun _ => immediate v)
  | 0xC7 => store_op n (fun _ => immediate v)
  | _ => None
  end.

Definition movx_effect (v : vie) : option effect :=
  let n := opsize v in
  let r := gpr_map (reg v) in
  match op_byte (op v) with
  | 0xB6 => load_op 1 (put_reg n r)
  | 0xB7 => load_op 2 (put_reg n r)
  | 0xBE => load_op 1 (fun m => put_reg n r (to_signed 8 m))
  | _ => None
  end.

(** Read, combine with the immediate, write back. *)
Definition modify_op (n : Z) (g : Z -> Z) : option effect :=
  Some (mk_effect (Some n) (fun m f => (Some (n, low n (g m)), put_status (logic_status n (g m)) f))).

Definition and_effect (v : vie) : option effect :=
  let n := opsize v in
  let r := gpr_map (reg v) in
  match op_byte (op v) with
  | 0x23 => load_op n (fun m f => put_status (logic_status n (Z.land (f r) m)) (put_reg n r (Z.land (f r) m) f))
  | 0x81 | 0x83 => modify_op n (fun m => Z.land m (immediate v))
  | _ => None
  end.

Definition or_effect (v : vie) : option effect :=
  match op_byte (op v) with
  | 0x81 | 0x83 => modify_op (opsize v) (fun m => Z.lor m (immediate v))
  | _ => None
  end.

Definition compare (n a b : Z) : Z := sub_flags (8 * n) (low n a) (low n b).

Definition cmp_effect (v : vie) : option effect :=
  let n := opsize v in
  match op_byte (op v) with
  | 0x3B => load_op n (fun m f => put_status (compare n (f (gpr_map (reg v))) m) f)
  | 0x80 => load_op 1 (fun m => put_status (compare 1 m (immediate v)))
  | 0x81 | 0x83 => load_op n (fun m => put_status (compare n m (immediate v)))
  | _ => None
  end.

Definition sub_effect (v : vie) : option effect :=
  let n := opsize v in
  let r := gpr_map (reg v) in
  match op_byte (op v) with
  | 0x2B => load_op n (fun m f => put_status (compare n (f r) m) (put_reg n r (f r - m) f))
  | _ => None
  end.

Definition bit_effect (v : vie) : option effect :=
  let n := opsize v in
  load_op n (fun m => put_carry (Z.testbit m (immediate v mod (8 * n)))).

(** The instructions with a single memory operand; none for an encoding that
    is not supported. *)
Definition x86_effect (v : vie) : option effect :=
  if negb (decoded v) then None else
  let ext := reg v mod 8 in
  match op_type (op v) with
  | VIE_OP_TYPE_MOV => mov_effect v
  | VIE_OP_TYPE_MOVSX | VIE_OP_TYPE_MOVZX => movx_effect v
  | VIE_OP_TYPE_AND => and_effect v
  | VIE_OP_TYPE_OR => or_effect v
  | VIE_OP_TYPE_CMP => cmp_effect v
  | VIE_OP_TYPE_SUB => sub_effect v
  | VIE_OP_TYPE_GROUP1 =>
      if ext =? 1 then or_effect v else if ext =? 4 then and_effect v
      else if ext =? 7 then cmp_effect v else None
  | VIE_OP_TYPE_BITTEST => if ext =? 4 then bit_effect v else None
  | _ => None
  end.

(** String and stack instructions have effects of their own. *)
Definition simple_op (t : vie_op_type) : bool :=
  match t with
  | VIE_OP_TYPE_MOVS | VIE_OP_TYPE_STOS | VIE_OP_TYPE_PUSH | VIE_OP_TYPE_POP => false
  | _ => true
  end.

(** ** The handlers of an MMIO region *)

(** What a handler changes: the devices and what they tell the CPUs. *)
Definition device_step {X D} (s s' : vm X D) : Prop :=
  s' = s <| devices := devices s' |> <| notices := notices s' |>.

(** A handler returns, keeps to the devices, reads 64-bit values and looks at
    the bytes of a write that its size names. *)
Class MmioLaws {X D : Type} (memread : Z -> Z -> cmd (vm X D) (Z * Z))
    (memwrite : Z -> Z -> Z -> cmd (vm X D) Z) : Prop := {
  mread_returns gpa n s : exists e x s', memread gpa n s = Return ((e, x), s') /\ x in_u 64 /\ device_step s s';
  mwrite_returns gpa x n s : exists e s', memwrite gpa x n s = Return (e, s') /\ device_step s s';
  mwrite_low gpa x n s : memwrite gpa x n s = memwrite gpa (low n x) n s;
}.

(** The reference semantics with these handlers: the error and the registers. *)
Definition run_effect {X D : Type} (memread : Z -> Z -> cmd (vm X D) (Z * Z))
    (memwrite : Z -> Z -> Z -> cmd (vm X D) Z) (gpa : Z) (f : rfile) (e : option effect) : cmd (vm X D) (Z * rfile) :=
  match e with
  | None => ret (EINVAL, f)
  | Some e =>
      r <- match ef_read e with None => ret (0, 0) | Some n => memread gpa n end ;;
      if negb (r.1 =? 0) then ret (r.1, f) else
      let '(w, f') := ef_apply e r.2 f in
      err <- match w with None => ret 0 | Some (n, x) => memwrite gpa x n end ;;
      ret (err, if err =? 0 then f' else f)
  end.

(** ** Arithmetic of the operands *)

Definition operand_size (n : Z) : Prop := n = 1 \/ n = 2 \/ n = 4 \/ n = 8.

Lemma operand_size_is n : operand_size n -> is_size n = true.
Proof. by intros [->|[->|[->| ->]]]. Qed.

Lemma operand_pos n : operand_size n -> 0 < 2 ^ (8 * n).
Proof. by intros [->|[->|[->| ->]]]. Qed.

Lemma low_range n x : operand_size n -> low n x in_u (8 * n).
Proof. intros H. by apply Z.mod_pos_bound, operand_pos. Qed.

Lemma low_range64 n x : operand_size n -> low n x in_u 64.
Proof.
  intros H. pose proof (low_range n x H). destruct H as [->|[->|[->| ->]]]; lia.
Qed.

Lemma low_low n x : operand_size n -> low n (low n x) = low n x.
Proof. intros H. apply Z.mod_mod. pose proof (operand_pos n H). lia. Qed.

Lemma low_u64 n x : operand_size n -> low n (u64 x) = low n x.
Proof. intros H. unfold low, u64. apply mod_pow_mod. destruct H as [->|[->|[->| ->]]]; lia. Qed.

Lemma size2mask_ones n : operand_size n -> size2mask n = Z.ones (8 * n).
Proof. by intros [->|[->|[->| ->]]]. Qed.

Lemma land_mask n x : operand_size n -> Z.land x (size2mask n) = low n x.
Proof. intros H. by apply size_mask, operand_size_is. Qed.

Lemma low_land n x y : operand_size n -> low n (Z.land x (low n y)) = low n (Z.land x y).
Proof.
  intros H. rewrite <- !land_mask by done. apply Z.bits_inj'. intros k Hk. rewrite !Z.land_spec.
  by destruct (Z.testbit x k), (Z.testbit y k), (Z.testbit (size2mask n) k).
Qed.

Lemma low_lor n x y : operand_size n -> low n (Z.lor x (u64 y)) = low n (Z.lor x y).
Proof.
  intros H. rewrite <- !land_mask, !Z.land_lor_distr_l, !land_mask by done. by rewrite low_u64.
Qed.

Lemma low_land_u64 n x y : operand_size n -> low n (Z.land x (u64 y)) = low n (Z.land x y).
Proof. intros H. rewrite <- low_land, low_u64, low_land by done. done. Qed.

Lemma low_sub n x y : operand_size n -> low n (u64 (x - y)) = low n (x - low n y).
Proof. intros H. rewrite low_u64 by done. unfold low. by rewrite Zminus_mod_idemp_r. Qed.

(** Replacing the low bytes of a register. *)
Lemma merge_low n x o : operand_size n ->
  Z.lor (Z.land x (size2mask n)) (clr o (size2mask n)) = low n x + 2 ^ (8 * n) * (o / 2 ^ (8 * n)).
Proof.
  intros H. assert (Hw : 0 <= 8 * n) by (destruct H as [->|[->|[->| ->]]]; lia).
  rewrite add_lor_high by (try done; by apply low_range). rewrite land_mask by done. f_equal.
  unfold clr. rewrite size2mask_ones, <- Z.ldiff_land, Z.ldiff_ones_r by done. f_equal.
  by rewrite Z.shiftr_div_pow2.
Qed.

Lemma merge_range n x o : n = 1 \/ n = 2 -> o in_u 64 -> low n x + 2 ^ (8 * n) * (o / 2 ^ (8 * n)) in_u 64.
Proof.
  intros H Ho. unfold low. destruct H as [-> | ->]; Z.to_euclidean_division_equations; lia.
Qed.

(** Replacing the second byte. *)
Lemma merge_high b o : b in_u 8 ->
  Z.lor (Z.shiftl b 8) (clr o (Z.shiftl 0xff 8)) = o mod 256 + 256 * (b + 256 * (o / 65536)).
Proof.
  intros Hb. change 256 with (2 ^ 8) at 1 2. rewrite add_lor_high by (try lia; by apply (mod_in_u 8)).
  change 256 with (2 ^ 8). rewrite add_lor_high by (done || lia).
  change 65536 with (2 ^ 16). rewrite <- Z.land_ones, <- Z.shiftr_div_pow2 by lia.
  apply Z.bits_inj'. intros k Hk. unfold clr.
  rewrite !Z.lor_spec, Z.land_spec, Z.lnot_spec, Z.land_spec by done.
  change (Z.shiftl 0xff 8) with (Z.shiftl (Z.ones 8) 8).
  rewrite !Z.shiftl_spec, Z.lor_spec by lia.
  destruct (Z.lt_ge_cases k 8) as [H8|H8].
  { rewrite !(Z.testbit_neg_r _ (k - 8)), Z.ones_spec_low by lia. cbn. by rewrite orb_false_r. }
  rewrite (Z.ones_spec_high 8 k), andb_false_r by lia. cbn [orb]. rewrite Z.shiftl_spec by lia.
  destruct (Z.lt_ge_cases k 16) as [H16|H16].
  - rewrite (Z.testbit_neg_r _ (k - 8 - 8)), Z.ones_spec_low by lia. cbn. by rewrite andb_false_r.
  - rewrite Z.ones_spec_high, Z.shiftr_spec by lia. cbn. rewrite andb_true_r. f_equal. f_equal. lia.
Qed.

Lemma merge_high_range b o : b in_u 8 -> o in_u 64 -> o mod 256 + 256 * (b + 256 * (o / 65536)) in_u 64.
Proof. intros Hb Ho. Z.to_euclidean_division_equations. lia. Qed.

(** *** Flags *)

Lemma lor_if_land (b : bool) x m : Z.land (if b then x else 0) m = if b then Z.land x m else 0.
Proof. by destruct b. Qed.

Lemma sub_flags_status w x y : Z.land (sub_flags w x y) RFLAGS_STATUS_BITS = sub_flags w x y.
Proof.
  unfold sub_flags. rewrite !Z.land_lor_distr_l.
  repeat match goal with |- context [Z.land (if ?b then _ else _) _] => destruct b end; reflexivity.
Qed.

Lemma clr_land_disjoint x m k : Z.land k m = k -> Z.land (clr x m) k = 0.
Proof.
  intros <-. unfold clr. rewrite <- Z.land_assoc, (Z.land_comm k m), (Z.land_assoc (Z.lnot m)).
  by rewrite (Z.land_comm _ m), Z.land_lnot_diag, Z.land_0_l, Z.land_0_r.
Qed.

Lemma arith_flags_value h w x y :
  Z.land (Z.lor (clr h RFLAGS_STATUS_BITS) (sub_flags w x y)) RFLAGS_STATUS_BITS = sub_flags w x y.
Proof. by rewrite Z.land_lor_distr_l, clr_land_disjoint, sub_flags_status. Qed.

(** Subtracting zero gives the flags of the result. *)
Lemma logic_flags_value h n x : operand_size n ->
  Z.land (Z.lor (clr h RFLAGS_STATUS_BITS) (sub_flags (8 * n) (low n x) (low n 0)))
         (Z.lor PSL_PF (Z.lor PSL_Z PSL_N)) = logic_status n x.
Proof.
  intros H. rewrite Z.land_lor_distr_l, clr_land_disjoint by done. rewrite Z.lor_0_l.
  assert (low n 0 = 0) as -> by (apply Z.mod_0_l; pose proof (operand_pos n H); lia).
  unfold sub_flags, logic_status.
  rewrite Z.sub_0_r. fold (low n (low n x)). rewrite low_low by done.
  rewrite !Z.land_lor_distr_l.
  destruct (low n x <? 0), (parity (low n x)), (low n x mod 16 <? 0 mod 16), (low n x =? 0),
    (Z.testbit (low n x) (8 * n - 1)), (to_signed (8 * n) (low n x) =? to_signed (8 * n) (low n x) - to_signed (8 * n) 0);
    reflexivity.
Qed.

Lemma sub_flags_range w x y : sub_flags w x y in_u 64.
Proof. unfold sub_flags. repeat split_if; by vm_compute. Qed.

Lemma logic_status_range n x : logic_status n x in_u 64.
Proof. unfold logic_status. repeat split_if; by vm_compute. Qed.

Lemma put_status_range fl x : fl in_u 64 -> x in_u 64 -> Z.lor (clr x RFLAGS_STATUS_BITS) fl in_u 64.
Proof. intros Hf Hx. apply lor_in_u; [lia|by apply clr_in_u|done]. Qed.

Lemma put_carry_value (c : bool) x :
  (if c then Z.lor x PSL_C else clr x PSL_C) = Z.lor (clr x PSL_C) (if c then PSL_C else 0).
Proof.
  destruct c; [|by rewrite Z.lor_0_r]. unfold clr. change PSL_C with (bit 0). apply Z.bits_inj'. intros k Hk.
  rewrite !Z.lor_spec, Z.land_spec, Z.lnot_spec by done. by destruct (Z.testbit x k), (Z.testbit (bit 0) k).
Qed.

(** ** Registers of the machine *)
Section Registers.
Context {X D : Type} `{!VmmOps X, !VmmLaws X}.
Local Abbreviation M := (vm X D).
Implicit Types s : M.
Context (vcpuid : Z) (Hi : is_vcpu vcpuid).

(** The registers of the CPU. *)
Definition view s : rfile := fun r => (vmgetreg vcpuid r (cookie s)).2.

Definition setr (r : vm_reg_name) (x : Z) s : M := s <| cookie := (vmsetreg vcpuid r x (cookie s)).2 |>.

(** A register an instruction writes. *)
Definition operand_reg (r : vm_reg_name) : Prop := plain_reg r = true /\ r <> VM_REG_GUEST_RIP.

Lemma view_range s r : view s r in_u 64.
Proof. apply getreg_range. Qed.

Lemma view_setr r x s q : operand_reg r -> x in_u 64 -> view (setr r x s) q = upd r x (view s) q.
Proof.
  intros [Hr _] Hx. unfold view, upd, setr. cbn. case_bool_decide as E; [subst; by rewrite get_set|].
  rewrite get_set_ne by (try done; congruence). done.
Qed.

Lemma gpr_operand i : i in_u 4 -> operand_reg (gpr_map i).
Proof.
  intros H. pose proof (gpr_map_in i H) as Hin. unfold gpr_table in Hin. by cases_in Hin; rewrite Hin.
Qed.

Lemma operand_real r : operand_reg r -> r <> VM_REG_LAST.
Proof. by intros [H _] ->. Qed.

Lemma read_eq r s : r <> VM_REG_LAST -> vie_read_register vcpuid r s = Return ((0, view s r), s).
Proof.
  intros Hr. destruct (wp_elim _ _ _ (wp_get_register vcpuid r (fun a s' => a = (0, view s r) /\ s' = s) s Hi Hr
    ltac:(done))) as (a & s' & E & -> & ->). exact E.
Qed.

Lemma set_eq r x s : operand_reg r -> vm_set_register vcpuid r x s = Return (0, setr r x s).
Proof.
  intros [Hr Hn]. destruct (wp_elim _ _ _ (wp_set_register vcpuid r x (fun a s' => a = 0 /\ s' = setr r x s) s Hi
    ltac:(by left) Hn ltac:(done))) as (a & s' & E & -> & ->). exact E.
Qed.

Lemma checked_read r k s : r <> VM_REG_LAST -> checked (vie_read_register vcpuid r) k s = k (view s r) s.
Proof. intros Hr. unfold checked, bind. by rewrite read_eq. Qed.

Lemma assured_read {A} r (k : Z -> cmd M A) s : r <> VM_REG_LAST ->
  bind (assured (vie_read_register vcpuid r)) k s = k (view s r) s.
Proof. intros Hr. unfold assured, bind. by rewrite read_eq. Qed.

(** The new value of a register is that of the reference. *)
Lemma update_eq r x n s : operand_reg r -> operand_size n -> x in_u 64 \/ n <> 8 ->
  vie_update_register vcpuid r x n s = Return (0, setr r (put_reg n r x (view s) r) s).
Proof.
  intros Hr Hn Hx. unfold vie_update_register, put_reg, upd. rewrite bool_decide_eq_true_2 by done.
  destruct Hn as [->|[->|[->| ->]]]; cbn [Z.eqb orb Pos.eqb].
  - rewrite checked_read, merge_low, set_eq by (try done; try (by left); by apply operand_real). done.
  - rewrite checked_read, merge_low, set_eq by (try done; try (by right; left); by apply operand_real). done.
  - rewrite set_eq by done. change 0xffffffff with (size2mask 4). rewrite land_mask by (by right; right; left). done.
  - rewrite set_eq by done. unfold low. rewrite Z.mod_small; [done|]. by destruct Hx.
Qed.

Lemma put_reg_range n r x s : operand_size n -> put_reg n r x (view s) r in_u 64.
Proof.
  intros Hn. pose proof (view_range s r). unfold put_reg, upd. rewrite bool_decide_eq_true_2 by done.
  destruct Hn as [->|[->|[->| ->]]].
  - apply merge_range; [by left|done].
  - apply merge_range; [by right|done].
  - apply low_range64. by right; right; left.
  - apply low_range64. by right; right; right.
Qed.

Lemma put_reg_value n r x f q : put_reg n r x f q = upd r (put_reg n r x f r) f q.
Proof. unfold put_reg, upd. rewrite (bool_decide_eq_true_2 (r = r)) by done. by case_bool_decide. Qed.
End Registers.

(** ** The simulation *)
Section Simulation.
Context {X D : Type} `{!VmmOps X, !VmmLaws X}.
Local Abbreviation M := (vm X D).
Implicit Types s : M.
Context (memread : Z -> Z -> cmd M (Z * Z)) (memwrite : Z -> Z -> Z -> cmd M Z) `{!MmioLaws memread memwrite}.
Context (vcpuid : Z) (Hi : is_vcpu vcpuid) (host_flags gpa : Z).

(** [s'] is [s1] with the registers [f] in this CPU. *)
Record agrees (s1 : M) (f : rfile) (s' : M) : Prop := {
  ag_machine : s' = s1 <| cookie := cookie s' |>;
  ag_regs r : view vcpuid s' r = f r;
  ag_others j r : is_vcpu j -> j <> vcpuid -> vmgetreg j r (cookie s') = vmgetreg j r (cookie s1);
  ag_descs j r : vmgetdesc j r (cookie s') = vmgetdesc j r (cookie s1);
}.

Lemma agrees_refl s f : (forall r, view vcpuid s r = f r) -> agrees s f s.
Proof. intros H. split; try done. by destruct s. Qed.

Lemma agrees_setr s1 f s' r x g : agrees s1 f s' -> operand_reg r -> x in_u 64 ->
  (forall q, g q = upd r x f q) -> agrees s1 g (setr vcpuid r x s').
Proof.
  intros [E Hr Ho Hd] Hop Hx Hg. split; cbn.
  - rewrite E. done.
  - intros q. rewrite view_setr, Hg by done. unfold upd. by rewrite Hr.
  - intros j q Hj Hne. rewrite get_set_ne by (try done; congruence). by apply Ho.
  - intros j q. by rewrite desc_set.
Qed.

(** [c] does what the effect [e] describes. *)
Definition refines (c : cmd M Z) (e : option effect) s : Prop :=
  exists err f s1 s', c s = Return (err, s') /\
    run_effect memread memwrite gpa (view vcpuid s) e s = Return ((err, f), s1) /\ agrees s1 f s'.

Lemma device_view s s1 r : device_step s s1 -> view vcpuid s1 r = view vcpuid s r.
Proof. intros ->. done. Qed.

Lemma refines_none s : refines (ret EINVAL) None s.
Proof. eexists _, _, _, _. split; [done|]. split; [done|]. by apply agrees_refl. Qed.

Lemma refines_store n x y c s : c s = memwrite gpa y n s -> operand_size n ->
  low n y = low n (x (view vcpuid s)) -> refines c (store_op n x) s.
Proof.
  intros Hc Hn Hy. destruct (mwrite_returns gpa y n s) as (e & s1 & E & Hd).
  rewrite mwrite_low, Hy in E. rewrite mwrite_low, Hy in Hc.
  eexists e, _, s1, s1. split; [by rewrite Hc|]. cbn [run_effect store_op ef_read ef_apply].
  unfold bind, ret. cbn. rewrite E. split; [done|]. apply agrees_refl. intros r.
  rewrite (device_view s s1) by done. by destruct (e =? 0).
Qed.

Lemma refines_load n g k c s : c s = checked (memread gpa n) k s ->
  (forall m s1, m in_u 64 -> device_step s s1 ->
     exists s', k m s1 = Return (0, s') /\ agrees s1 (g (low n m) (view vcpuid s)) s') ->
  refines c (load_op n g) s.
Proof.
  intros Hc Hk. destruct (mread_returns gpa n s) as (e & m & s1 & E & Hm & Hd).
  unfold checked, bind in Hc. rewrite E in Hc. cbn [fst snd] in Hc.
  unfold refines, run_effect, load_op, bind. cbn [ef_read ef_apply]. rewrite E. cbn [fst snd].
  destruct (Z.eqb_spec e 0) as [->|He]; cbn [negb].
  - destruct (Hk m s1 Hm Hd) as (s' & Es' & Ha). eexists 0, _, s1, s'. by rewrite Hc, Es'.
  - eexists e, _, s1, s1. split; [by rewrite Hc|]. split; [done|]. apply agrees_refl.
    intros r. by apply device_view.
Qed.

Lemma getcc_ret {A} n a b (k : Z -> cmd M A) s : operand_size n ->
  bind (getcc host_flags n a b) k s =
  k (Z.lor (clr host_flags RFLAGS_STATUS_BITS) (sub_flags (8 * n) (low n a) (low n b))) s.
Proof. intros Hn. unfold getcc, bind, KASSERT. by rewrite operand_size_is. Qed.

(** Writing the flags register. *)
Lemma update_flags_eq x g s1 f s' : agrees s1 f s' -> x in_u 64 ->
  (forall q, g q = upd VM_REG_GUEST_RFLAGS x f q) ->
  exists s2, vie_update_register vcpuid VM_REG_GUEST_RFLAGS x 8 s' = Return (0, s2) /\ agrees s1 g s2.
Proof.
  intros Ha Hx Hg. rewrite update_eq by first [done|by right; right; right|by left]. eexists. split; [done|].
  eapply agrees_setr; [done|done|by apply put_reg_range; right; right; right|]. intros q. rewrite Hg.
  unfold upd, put_reg, upd. rewrite (bool_decide_eq_true_2 (VM_REG_GUEST_RFLAGS = _)) by done.
  unfold low. by rewrite Z.mod_small.
Qed.

Lemma put_status_eq fl s1 f s' : fl in_u 64 -> agrees s1 f s' ->
  exists s2, vie_update_register vcpuid VM_REG_GUEST_RFLAGS
      (Z.lor (clr (view vcpuid s' VM_REG_GUEST_RFLAGS) RFLAGS_STATUS_BITS) fl) 8 s' = Return (0, s2) /\
    agrees s1 (put_status fl f) s2.
Proof.
  intros Hf Ha. eapply update_flags_eq; [done|apply put_status_range; [done|apply view_range]|].
  intros q. unfold put_status. by rewrite <- (ag_regs _ _ _ Ha).
Qed.

Lemma logic_flags_eq n x s1 f s' : operand_size n -> agrees s1 f s' ->
  exists s2, logic_flags host_flags vcpuid n x s' = Return (0, s2) /\ agrees s1 (put_status (logic_status n x) f) s2.
Proof.
  intros Hn Ha. unfold logic_flags. rewrite checked_read, getcc_ret by done.
  rewrite logic_flags_value by done. apply put_status_eq; [apply logic_status_range|done].
Qed.

Lemma arith_flags_eq n a b s1 f s' : operand_size n -> agrees s1 f s' ->
  exists s2, (rflags2 <- getcc host_flags n a b ;; arith_flags vcpuid rflags2) s' = Return (0, s2) /\
    agrees s1 (put_status (compare n a b) f) s2.
Proof.
  intros Hn Ha. rewrite getcc_ret by done. unfold arith_flags. rewrite checked_read, arith_flags_value by done.
  apply put_status_eq; [apply sub_flags_range|done].
Qed.

Lemma logic_status_low n x : operand_size n -> logic_status n (low n x) = logic_status n x.
Proof. intros Hn. unfold logic_status. by rewrite low_low. Qed.

(** Read, combine with an immediate, write back and set the flags. *)
Lemma refines_modify n g h s : operand_size n -> (forall m, low n (h m) = low n (g m)) ->
  refines (checked (memread gpa n) (fun m => checked_ (memwrite gpa (h m) n) (logic_flags host_flags vcpuid n (h m))))
    (modify_op n g) s.
Proof.
  intros Hn Hg. destruct (mread_returns gpa n s) as (e & m & s1 & E & Hm & Hd).
  unfold refines, run_effect, modify_op, checked, bind. cbn [ef_read ef_apply]. rewrite E. cbn [fst snd].
  destruct (Z.eqb_spec e 0) as [->|He]; cbn [negb].
  2: { eexists e, _, s1, s1. split; [done|]. split; [done|]. apply agrees_refl. intros r. by apply device_view. }
  destruct (mwrite_returns gpa (h m) n s1) as (e2 & s2 & E2 & Hd2). unfold checked_, bind. rewrite E2.
  rewrite mwrite_low, Hg in E2. rewrite E2.
  assert (Hv : forall r, view vcpuid s2 r = view vcpuid s r).
  { intros r. by rewrite (device_view s1 s2), (device_view s s1). }
  destruct (Z.eqb_spec e2 0) as [->|He2].
  - destruct (logic_flags_eq n (h m) s2 (view vcpuid s) s2 Hn ltac:(by apply agrees_refl)) as (s3 & E3 & A3).
    eexists 0, _, s2, s3. split; [done|]. split; [done|]. cbn [Z.eqb].
    rewrite <- (logic_status_low n (g m)), <- Hg, logic_status_low by done. exact A3.
  - eexists e2, _, s2, s2. split; [done|]. split; [done|]. by apply agrees_refl.
Qed.

(** *** Each instruction *)

Context (v : vie) (Hreg : reg v in_u 4) (Hsize : opsize v ∈ [2; 4; 8]).
Context (Hrex : rex_present v = false -> reg v < 8).

Lemma opsize_operand : operand_size (opsize v).
Proof. cases_in Hsize; rewrite Hsize; unfold operand_size; lia. Qed.
Local Hint Resolve opsize_operand : core.

Lemma one_operand : operand_size 1.
Proof. by left. Qed.
Local Hint Resolve one_operand : core.

Lemma update_agrees r x y n s1 s s' f : operand_reg r -> operand_size n -> x in_u 64 \/ n <> 8 ->
  agrees s1 f s' -> low n x = low n y -> (forall q, f q = view vcpuid s q) ->
  exists s2, vie_update_register vcpuid r x n s' = Return (0, s2) /\
    agrees s1 (put_reg n r y (view vcpuid s)) s2.
Proof.
  intros Hr Hn Hx Ha Hy Hf. rewrite update_eq by done. eexists. split; [done|].
  eapply agrees_setr; [done|done|by apply put_reg_range|]. intros q. rewrite put_reg_value. unfold upd at 1 2.
  case_bool_decide; [|by rewrite Hf]. unfold put_reg, upd. rewrite !bool_decide_eq_true_2 by done.
  by rewrite Hy, (ag_regs _ _ _ Ha), Hf.
Qed.

(** A load whose value goes to a register. *)
Lemma refines_load_reg c n size r (conv : Z -> Z) (ref : Z -> Z) s : operand_size n -> operand_size size ->
  operand_reg r ->
  c s = checked (memread gpa n) (fun val => vie_update_register vcpuid r (conv val) size) s ->
  (forall m, m in_u 64 -> conv m in_u 64 /\ low size (conv m) = low size (ref (low n m))) ->
  refines c (load_op n (fun m => put_reg size r (ref m))) s.
Proof.
  intros Hn Hs Hr Hc Hv. eapply refines_load; [exact Hc|]. intros m s1 Hm Hd. cbv beta.
  destruct (Hv m Hm) as [H1 H2]. eapply update_agrees; try done; [by left|].
  apply agrees_refl. intros q. by apply device_view.
Qed.

Lemma byte_operand_eq : vie_calc_bytereg v = byte_operand v.
Proof.
  unfold vie_calc_bytereg, byte_operand. destruct (rex_present v); cbn [negb andb orb]; [done|].
  specialize (Hrex eq_refl). assert (Hin : In (reg v) (map Z.of_nat (seq 0 8))).
  { apply in_map_iff. exists (Z.to_nat (reg v)). rewrite in_seq. lia. }
  cbn in Hin. repeat destruct Hin as [<-|Hin]; try done.
Qed.

Lemma byte_operand_reg : operand_reg (byte_operand v).1.
Proof.
  unfold byte_operand. destruct (rex_present v) eqn:Er; cbn [orb]; [by apply gpr_operand|].
  specialize (Hrex eq_refl). destruct (Z.ltb_spec (reg v) 4); apply gpr_operand; [done|].
  change (2 ^ 4) with 16. lia.
Qed.

Lemma get_byte_eq s : vie_read_bytereg vcpuid v s = Return ((0, get_byte v (view vcpuid s)), s).
Proof.
  unfold vie_read_bytereg, get_byte. rewrite byte_operand_eq. pose proof byte_operand_reg as Hr.
  destruct (byte_operand v) as [r high]. cbn [fst] in Hr. unfold bind. fold (vie_read_register (X := X) (D := D) vcpuid r).
  rewrite read_eq by (try done; by apply operand_real). cbn [ret fst snd]. unfold low, u8.
  destruct high; [|done]. by rewrite Z.shiftr_div_pow2.
Qed.

Lemma put_byte_agrees s s1 m : device_step s s1 ->
  exists s', vie_write_bytereg vcpuid v (u8 m) s1 = Return (0, s') /\
    agrees s1 (put_byte v (low 1 m) (view vcpuid s)) s'.
Proof.
  intros Hd. unfold vie_write_bytereg, put_byte. rewrite byte_operand_eq. pose proof byte_operand_reg as Hr.
  destruct (byte_operand v) as [r high]. cbn [fst] in Hr. fold (vie_read_register (X := X) (D := D) vcpuid r).
  rewrite checked_read by (try done; by apply operand_real). pose proof (view_range vcpuid s1 r) as Hv.
  assert (Hb : u8 m in_u 8) by apply u8_in_u. change (low 1 m) with (u8 m).
  assert (Ha : agrees s1 (view vcpuid s) s1) by (apply agrees_refl; intros q; by apply device_view).
  destruct high; rewrite set_eq by done; eexists; (split; [done|]).
  - rewrite merge_high by done. eapply agrees_setr; [done|done|by apply merge_high_range|].
    intros q. by rewrite (device_view s s1).
  - pose proof (merge_low 1 (u8 m) (view vcpuid s1 r) one_operand) as Hm. rewrite land_mask in Hm by done.
    assert (low 1 (u8 m) = u8 m) as Hl by (by apply u8_id). rewrite Hl in Hm at 1. change (size2mask 1) with 0xff in Hm.
    rewrite Hm. eapply agrees_setr; [done|done|apply merge_range; [by left|done]|].
    intros q. by rewrite (device_view s s1).
Qed.

Lemma low_byte_mono n m : operand_size n -> n <= 8 -> forall k, operand_size k -> k <= n -> low k (low n m) = low k m.
Proof. intros Hn _ k Hk Hle. unfold low. apply mod_pow_mod. destruct Hk as [->|[->|[->| ->]]]; lia. Qed.

Lemma rax_operand : operand_reg VM_REG_GUEST_RAX.
Proof. done. Qed.

Lemma mov_refines s : refines (emulate_mov memread memwrite vcpuid gpa v) (mov_effect v) s.
Proof.
  pose proof (gpr_operand (reg v) Hreg) as Hg. pose proof (operand_real _ Hg) as Hgr.
  unfold emulate_mov, mov_effect.
  assert (Hld : forall m, m in_u 64 -> m in_u 64 /\ low (opsize v) m = low (opsize v) (low (opsize v) m)).
  { intros m Hm. by rewrite low_low. }
  repeat case_match; first
    [ apply refines_none
    | eapply refines_store; [unfold checked, bind; by rewrite get_byte_eq|done|reflexivity]
    | eapply refines_store; [rewrite checked_read by done; by rewrite land_mask|done|by rewrite low_low]
    | eapply refines_load; [reflexivity|]; intros m s1 Hm Hd; by apply put_byte_agrees
    | eapply (refines_load_reg _ (opsize v) (opsize v) _ (fun x => x) (fun x => x)); done
    | eapply refines_store; [by rewrite land_mask|done|by rewrite low_low, low_u64]
    | eapply refines_store; [reflexivity|done|by rewrite low_u64] ].
Qed.

Lemma to_signed_low m : to_signed 8 (low 1 m) = to_signed 8 m.
Proof. unfold to_signed, low. change (8 * 1) with 8. by rewrite Z.mod_mod. Qed.

Lemma movx_refines s : refines (emulate_movx memread vcpuid gpa v) (movx_effect v) s.
Proof.
  pose proof (gpr_operand (reg v) Hreg) as Hg. unfold emulate_movx, movx_effect.
  repeat case_match; first
    [ apply refines_none
    | eapply (refines_load_reg _ 1 (opsize v) _ u8 (fun x => x)); try done; intros m Hm;
      split; [apply (in_u_le 8); [lia|apply u8_in_u]|done]
    | eapply (refines_load_reg _ 2 (opsize v) _ u16 (fun x => x)); try done; [by right; left|]; intros m Hm;
      split; [apply (in_u_le 16); [lia|apply u16_in_u]|done]
    | eapply (refines_load_reg _ 1 (opsize v) _ (fun x => u64 (to_signed 8 x)) (to_signed 8)); try done ].
  intros m Hm. split; [apply u64_in_u|]. rewrite low_u64, to_signed_low by done. done.
Qed.

(** A load that sets a register and the flags, or the flags only. *)
Lemma and_refines s : refines (emulate_and host_flags memread memwrite vcpuid gpa v) (and_effect v) s.
Proof.
  pose proof (gpr_operand (reg v) Hreg) as Hg. pose proof (operand_real _ Hg) as Hgr.
  unfold emulate_and, and_effect.
  repeat case_match; first [apply refines_none|apply refines_modify; intros; try done; by rewrite low_land_u64|idtac].
  eapply refines_load; [by rewrite checked_read|]. intros m s1 Hm Hd. cbv beta.
  set (n := opsize v). set (r := gpr_map (reg v)).
  destruct (update_agrees r (Z.land (view vcpuid s r) m) (Z.land (view vcpuid s r) (low n m)) n s1 s s1 (view vcpuid s))
    as (s2 & E2 & A2); try done.
  { left. apply land_in_u_r; [lia|done]. }
  { apply agrees_refl. intros q. by apply device_view. }
  { by rewrite low_land. }
  unfold checked_, bind. rewrite E2. cbn [Z.eqb].
  destruct (logic_flags_eq n (Z.land (view vcpuid s r) m) s1 _ s2 ltac:(done) A2) as (s3 & E3 & A3).
  exists s3. split; [exact E3|]. rewrite <- (logic_status_low n (Z.land _ (low n m))), low_land, logic_status_low by done.
  exact A3.
Qed.

Lemma or_refines s : refines (emulate_or host_flags memread memwrite vcpuid gpa v) (or_effect v) s.
Proof.
  unfold emulate_or, or_effect.
  repeat case_match; first [apply refines_none|apply refines_modify; intros; try done; by rewrite low_lor].
Qed.

Lemma compare_low n a b : operand_size n ->
  compare n (low n a) b = compare n a b /\ compare n a (low n b) = compare n a b /\ compare n a (u64 b) = compare n a b.
Proof. intros Hn. unfold compare. by rewrite !low_low, low_u64. Qed.

(** A comparison of the value read. *)
Lemma refines_compare n (a b : Z -> Z) c g s : operand_size n ->
  c s = checked (memread gpa n) (fun m => rflags2 <- getcc host_flags n (a m) (b m) ;; arith_flags vcpuid rflags2) s ->
  (forall m f, (forall r, f r = view vcpuid s r) -> g (low n m) f = put_status (compare n (a m) (b m)) f) ->
  refines c (load_op n g) s.
Proof.
  intros Hn Hc Hg. eapply refines_load; [exact Hc|]. intros m s1 Hm Hd. cbv beta. rewrite Hg by done.
  apply arith_flags_eq; [done|]. apply agrees_refl. intros r. by apply device_view.
Qed.

Lemma cmp_refines s : refines (emulate_cmp host_flags memread vcpuid gpa v) (cmp_effect v) s.
Proof.
  pose proof (gpr_operand (reg v) Hreg) as Hg. pose proof (operand_real _ Hg) as Hgr.
  unfold emulate_cmp, cmp_effect. destruct (op_byte (op v)) eqn:Eb; try apply refines_none.
  repeat case_match; first
    [ apply refines_none
    | eapply (refines_compare 1 (fun m => m) (fun _ => u64 (immediate v))); [done|by subst|]; intros m f _;
      by destruct (compare_low 1 m (immediate v) one_operand) as (-> & _ & ->)
    | eapply (refines_compare (opsize v) (fun m => m) (fun _ => u64 (immediate v))); [done|by subst|]; intros m f _;
      by destruct (compare_low (opsize v) m (immediate v) opsize_operand) as (-> & _ & ->)
    | eapply (refines_compare (opsize v) (fun _ => view vcpuid s (gpr_map (reg v))) (fun m => m));
      [done|by rewrite checked_read|]; intros m f Hf; rewrite Hf;
      by destruct (compare_low (opsize v) (view vcpuid s (gpr_map (reg v))) m opsize_operand) as (_ & -> & _) ].
Qed.

Lemma sub_refines s : refines (emulate_sub host_flags memread vcpuid gpa v) (sub_effect v) s.
Proof.
  pose proof (gpr_operand (reg v) Hreg) as Hg. pose proof (operand_real _ Hg) as Hgr.
  unfold emulate_sub, sub_effect. repeat case_match; try apply refines_none.
  eapply refines_load; [by rewrite checked_read|]. intros m s1 Hm Hd. cbv beta.
  set (n := opsize v). set (r := gpr_map (reg v)).
  destruct (update_agrees r (u64 (view vcpuid s r - m)) (view vcpuid s r - low n m) n s1 s s1 (view vcpuid s))
    as (s2 & E2 & A2); try done.
  { left. apply u64_in_u. }
  { apply agrees_refl. intros q. by apply device_view. }
  { by rewrite low_sub. }
  unfold checked_, bind at 1. rewrite E2. cbn [Z.eqb].
  destruct (arith_flags_eq n (view vcpuid s r) m s1 _ s2 ltac:(done) A2) as (s3 & E3 & A3).
  exists s3. split; [exact E3|]. by destruct (compare_low n (view vcpuid s r) m ltac:(done)) as (_ & -> & _).
Qed.

Lemma bit_offset : Z.land (immediate v) (opsize v * 8 - 1) = immediate v mod (8 * opsize v).
Proof.
  cases_in Hsize; rewrite Hsize.
  - by apply (Z.land_ones _ 4).
  - by apply (Z.land_ones _ 5).
  - by apply (Z.land_ones _ 6).
Qed.

Lemma bit_refines s : reg v mod 8 = 4 -> refines (emulate_bittest memread vcpuid gpa v) (bit_effect v) s.
Proof.
  intros Hext. unfold emulate_bittest, bit_effect.
  assert (Z.land (reg v) 7 = 4) as -> by (rewrite <- Hext; by apply (Z.land_ones _ 3)). cbn [Z.eqb negb Pos.eqb].
  eapply refines_load; [by rewrite assured_read|]. intros m s1 Hm Hd. cbv beta zeta. rewrite bit_offset.
  pose proof (opsize_operand) as Hn.
  assert (Hoff : 0 <= immediate v mod (8 * opsize v) < 8 * opsize v).
  { apply Z.mod_pos_bound. destruct Hn as [->|[->|[->| ->]]]; lia. }
  rewrite tst_bit by lia. unfold low. rewrite (Z.mod_pow2_bits_low m) by lia.
  set (c := Z.testbit m _). rewrite put_carry_value.
  set (x := Z.lor (clr (view vcpuid s VM_REG_GUEST_RFLAGS) PSL_C) (if c then PSL_C else 0)).
  assert (Hx : x in_u 64).
  { apply lor_in_u; [lia|apply clr_in_u; [lia|apply view_range]|by destruct c]. }
  destruct (update_flags_eq x (put_carry c (view vcpuid s)) s1 (view vcpuid s) s1) as (s2 & E2 & A2); try done.
  { apply agrees_refl. intros q. by apply device_view. }
  exists s2. split; [|done]. unfold assured_, bind. by rewrite E2.
Qed.
End Simulation.

(** The instructions with a single memory operand. *)
Lemma emulate_simple {X D : Type} `{!VmmOps X, !VmmLaws X}
    (memread : Z -> Z -> cmd (vm X D) (Z * Z)) (memwrite : Z -> Z -> Z -> cmd (vm X D) Z)
    (Hmmio : MmioLaws memread memwrite) others fuel host_flags uninit vcpuid gpa v paging (s : vm X D) m
    (Hi : is_vcpu vcpuid) (Hok : vie_ok v) (Hsizes : sizes_ok m v) (Hsimple : simple_op (op_type (op v)) = true) :
  refines memread memwrite vcpuid gpa
    (vmm_emulate_instruction others fuel host_flags uninit memread memwrite vcpuid gpa v paging)
    (x86_effect v) s.
Proof.
  pose proof (ok_reg v Hok) as Hreg.
  assert (Hrex : rex_present v = false -> reg v < 8) by (intros H; by apply (ok_rex v Hok)).
  assert (Hsz : opsize v ∈ [2; 4; 8]).
  { unfold sizes_ok in Hsizes. case_bool_decide; destruct Hsizes as [_ Hs]; [done|]. unfold size_in in Hs.
    cases_in Hs; rewrite Hs; member. }
  assert (Hext : Z.land (reg v) 7 = reg v mod 8) by (by apply (Z.land_ones _ 3)).
  unfold vmm_emulate_instruction, x86_effect. destruct (decoded v); cbn [negb]; [|apply refines_none].
  destruct (op_type (op v)); try done; try apply refines_none.
  - by apply mov_refines.
  - by apply movx_refines.
  - by apply movx_refines.
  - by apply and_refines.
  - by apply or_refines.
  - by apply sub_refines.
  - by apply cmp_refines.
  - unfold emulate_group1. rewrite Hext.
    assert (Hin : In (reg v mod 8) (map Z.of_nat (seq 0 8))).
    { apply in_map_iff. exists (Z.to_nat (reg v mod 8)). rewrite in_seq.
      pose proof (Z.mod_pos_bound (reg v) 8 ltac:(lia)). lia. }
    cbn in Hin. repeat destruct Hin as [<-|Hin]; try done; try apply refines_none;
      [by apply or_refines|by apply and_refines|by apply cmp_refines].
  - destruct (Z.eqb_spec (reg v mod 8) 4) as [E|E]; [by apply bit_refines|].
    unfold emulate_bittest. rewrite Hext, (proj2 (Z.eqb_neq _ 4)) by done. apply refines_none.
Qed.

(** C2: Emulating a move, logical or arithmetic instruction, comparison or bit
    test with an MMIO operand has exactly the effect of the instruction: one
    read of the operand's size, one write of the low bytes of the result, the
    destination register merged by the rules for its width, the status flags,
    and nothing else.  An error of a handler is returned and leaves the
    registers alone; an encoding that is not supported gives [EINVAL] and
    changes nothing. *)
Theorem emulate_refines {X D : Type} `{!VmmOps X, !VmmLaws X}
    (memread : Z -> Z -> cmd (vm X D) (Z * Z)) (memwrite : Z -> Z -> Z -> cmd (vm X D) Z)
    (Hmmio : MmioLaws memread memwrite) others fuel host_flags uninit vcpuid gpa v paging (s : vm X D) m
    (Hi : is_vcpu vcpuid) (Hok : vie_ok v) (Hsizes : sizes_ok m v) (Hsimple : simple_op (op_type (op v)) = true) :
  refines memread memwrite vcpuid gpa
    (vmm_emulate_instruction others fuel host_flags uninit memread memwrite vcpuid gpa v paging)
    (x86_effect v) s.
Proof. by apply (emulate_simple _ _ _ others fuel host_flags uninit vcpuid gpa v paging s m). Qed.

(** A device with one register. *)
Definition one_reg_read (_ n : Z) : cmd (vm regs Z) (Z * Z) := gets (fun s => (0, low n (u64 (devices s)))).
Definition one_reg_write (_ x n : Z) : cmd (vm regs Z) Z := update (fun s => s <| devices := low n x |>) ;;; ret 0.

Lemma low_bound n x : 0 <= x -> 0 <= low n x <= x.
Proof.
  intros Hx. unfold low. destruct (Z.lt_ge_cases (8 * n) 0).
  - rewrite Z.pow_neg_r by done. rewrite Z.mod_0_r. lia.
  - assert (0 < 2 ^ (8 * n)) by (by apply Z.pow_pos_nonneg).
    pose proof (Z.mod_pos_bound x (2 ^ (8 * n)) ltac:(done)). pose proof (Z.mod_le x (2 ^ (8 * n)) Hx ltac:(done)). lia.
Qed.

#[export] Instance one_reg_laws : MmioLaws one_reg_read one_reg_write.
Proof.
  split.
  - intros gpa n s. eexists 0, _, s. split; [reflexivity|]. split; [|by destruct s].
    pose proof (u64_in_u (devices s)). pose proof (low_bound n (u64 (devices s)) ltac:(lia)). lia.
  - intros gpa x n s. eexists 0, _. split; [reflexivity|]. by destruct s.
  - intros gpa x n s. unfold one_reg_write, bind, update, ret. do 3 f_equal. unfold low.
    destruct (Z.eq_dec (2 ^ (8 * n)) 0) as [->|H]; [by rewrite !Z.mod_0_r|]. by rewrite Z.mod_mod.
Qed.

Definition one_reg_machine (x : Z) : vm regs Z :=
  let s := machine frozen in
  mk_vm (fun _ r => match r with VM_REG_GUEST_RCX => 0x100000005 | VM_REG_GUEST_RFLAGS => 0x2 | _ => 0 end)
    x (active_cpus s) (suspend s) (suspended_cpus s) (mem_segs s) (next_object s) (host_mem s) (vcpus s) (notices s).

(** [sub (mem), %cx] as the decoder leaves it. *)
Definition sub_cx : vie := vie_zero <| decoded := true |> <| op := one_byte_opcodes 0x2B |>
  <| opsize := 2 |> <| addrsize := 8 |> <| reg := 1 |>.

Definition flat64 : vm_guest_paging := mk_paging 0 0 CPU_MODE_64BIT PAGING_MODE_64.

Lemma emulate_refines_witness :
  refines one_reg_read one_reg_write 0 0xfee00000
    (vmm_emulate_instruction (fun _ _ s => s) 2 0 no_desc one_reg_read one_reg_write 0 0xfee00000 sub_cx flat64)
    (x86_effect sub_cx) (one_reg_machine 7).
Proof.
  apply (emulate_refines one_reg_read one_reg_write one_reg_laws (fun _ _ s => s) 2 0 no_desc 0 0xfee00000 sub_cx
           flat64 (one_reg_machine 7) CPU_MODE_64BIT).
  - by vm_compute.
  - split; cbn; try done; try lia; try (unfold size_in; member); [by repeat constructor|]. left. by exists 0x2B.
  - split; unfold size_in; cbn; member.
  - reflexivity.
Defined.

(** The upper bits of RCX stay, and 5 - 7 borrows. *)
Example sub_cx_runs :
  match vmm_emulate_instruction (fun _ _ s => s) 2 0 no_desc one_reg_read one_reg_write 0 0xfee00000 sub_cx flat64
          (one_reg_machine 7) with
  | Return (e, s') => e = 0 /\ view 0 s' VM_REG_GUEST_RCX = 0x10000fffe /\
      view 0 s' VM_REG_GUEST_RFLAGS = Z.lor 0x2 (Z.lor PSL_C (Z.lor PSL_AF PSL_N)) /\ devices s' = 7
  | _ => False end.
Proof. vm_compute. done. Qed.
