(* ===== verification/VieString.v ===== *)
(** * String and stack instructions with an MMIO operand

    MOVS, STOS, PUSH and POP (src/src/vmm/vmm_instruction_emul.c) combine
    segmentation, the page walk, guest memory and the handlers of an MMIO
    region.  The theorems say what one execution does: it faults without
    touching a device or a register of the instruction, or fails, or transfers
    one operand and advances the registers.  [others] are the other CPUs
    during page walks; they write guest memory, and leave the tables of an
    attempt alone from attempt [N] on. *)

From S2P Require Import Prelude Effects VmmCommon VieDecode Vmm Paging VieEmul VieRefine.

Local Open Scope cmd_scope.

(** ** Reference: the registers of a string instruction *)

Definition string_index (n a : Z) (r : vm_reg_name) (f : rfile) : rfile :=
  put_reg a r (if tst (f VM_REG_GUEST_RFLAGS) PSL_D then f r - n else f r + n) f.

Definition string_count (a : Z) (f : rfile) : rfile := put_reg a VM_REG_GUEST_RCX (f VM_REG_GUEST_RCX - 1) f.

Definition stos_regs (v : vie) (n : Z) (f : rfile) : rfile :=
  let a := addrsize v in
  let g := string_index n a VM_REG_GUEST_RDI f in
  if repeats v then string_count a g else g.

Definition movs_regs (v : vie) (n : Z) (f : rfile) : rfile :=
  let a := addrsize v in
  let g := string_index n a VM_REG_GUEST_RDI (string_index n a VM_REG_GUEST_RSI f) in
  if repeats v then string_count a g else g.

(** The count that is left, by the address size. *)
Definition count_left (v : vie) (f : rfile) : bool := repeats v && negb (low (addrsize v) (f VM_REG_GUEST_RCX) =? 0).

(** The CPU executes the same instruction again. *)
Definition restart_vcpu (rip : Z) (w : vcpu) : vcpu :=
  match state w with VCPU_RUNNING => w <| inst_length := 0 |> | _ => w <| nextrip := rip |> end.

Section Strings.
Context {X D : Type} `{!VmmOps X, !VmmLaws X}.
Local Abbreviation M := (vm X D).
Implicit Types s : M.
Context (others : nat -> nat -> M -> M) (N : nat) (uninit : seg_desc).
Context (memread : Z -> Z -> cmd M (Z * Z)) (memwrite : Z -> Z -> Z -> cmd M Z) `{!MmioLaws memread memwrite}.
Context (vcpuid : Z) (Hi : is_vcpu vcpuid) (gpa : Z) (paging : vm_guest_paging).
Context (v : vie) (s0 : M).

(** The CPU can take an exception, its segment registers are loaded, its
    privilege level is one and the other CPUs keep to guest memory. *)
Record ready : Prop := {
  re_cr3 : cr3 paging in_u 52;
  re_cpl : 0 <= cpl paging <= 3;
  re_segs : segs_ok s0;
  re_bytes : bytes_ok (host_mem s0);
  re_cpus : has_vcpus s0;
  re_inject : can_inject vcpuid s0;
  re_descs seg : data_seg seg -> desc_ok (vmgetdesc vcpuid seg (cookie s0)).2;
  re_tame : tame others s0;
  re_quiet a : (N <= a)%nat -> quiet others a;
}.
Context (Hready : ready).

(** *** Steps that leave the CPU alone *)

(** The CPU and the memory map are those of [s0]. *)
Record kept s : Prop := {
  ke_cookie : cookie s = cookie s0;
  ke_cpus : vcpus s = vcpus s0;
  ke_segs : mem_segs s = mem_segs s0;
}.

Lemma shares_kept s : shares s0 s -> kept s.
Proof. intros [-> _]. done. Qed.

Lemma device_kept s s' : kept s -> device_step s s' -> kept s'.
Proof. intros [] ->. by split. Qed.

Lemma kept_view s : kept s -> view vcpuid s = view vcpuid s0.
Proof. intros H. unfold view. by rewrite (ke_cookie s H). Qed.

Lemma shares_refl : shares s0 s0.
Proof. split; [by destruct s0|apply (re_bytes Hready)]. Qed.

(** *** Addresses *)

Lemma get_desc_eq {A} seg (k : Z * seg_desc -> cmd M A) s : data_seg seg ->
  bind (vm_get_seg_desc vcpuid seg) k s = k (0, (vmgetdesc vcpuid seg (cookie s)).2) s.
Proof.
  intros Hs. unfold vm_get_seg_desc. rewrite bad_vcpuid_false by done.
  assert (is_segment_register seg = true) as -> by (unfold data_seg in Hs; by cases_in Hs; subst).
  unfold bind, gets. cbn [negb andb]. rewrite <- (getdesc_ok vcpuid seg (cookie s) Hi), <- surjective_pairing. done.
Qed.

Lemma gla_of_range m seg desc offset a : gla_of m seg desc offset a in_u 64.
Proof.
  unfold gla_of. destruct m; try apply (mod_in_u 64); try lia;
    (apply (in_u_le 32); [lia|apply (mod_in_u 32); lia]).
Qed.

Lemma alignment_ret {A} n cr0 rf g (k : bool -> cmd M A) s : is_size n = true -> 0 <= cpl paging <= 3 ->
  bind (vie_alignment_check (cpl paging) n cr0 rf g) k s =
  k (negb (negb (cpl paging =? 3) || negb (tst cr0 CR0_AM) || negb (tst rf PSL_AC)) && tst g (u64 (n - 1))) s.
Proof.
  intros Hn Hc. unfold vie_alignment_check, bind, KASSERT. rewrite Hn.
  rewrite (proj2 (Z.leb_le 0 (cpl paging))), (proj2 (Z.leb_le (cpl paging) 3)) by lia. cbn [andb ret].
  by destruct (_ || _).
Qed.

(** The linear address of an operand in segment [seg] at the offset in [gpr],
    with address size [a]; is an access of [n] bytes to it refused? *)
Definition operand_gla (a : Z) (seg gpr : vm_reg_name) : Z :=
  gla_of (cpu_mode paging) seg (vmgetdesc vcpuid seg (cookie s0)).2 (view vcpuid s0 gpr) a.
Definition refused (n a prot : Z) (seg gpr : vm_reg_name) : bool :=
  let desc := (vmgetdesc vcpuid seg (cookie s0)).2 in
  let g := operand_gla a seg gpr in
  negb (bool_decide (cpu_mode paging = CPU_MODE_64BIT) ||
        negb (Z.testbit (access desc) 16) && access_permitted desc prot &&
        forallb (fun k => limits_pass desc ((view vcpuid s0 gpr + Z.of_nat k) mod 2 ^ (8 * a))) (seq 0 (Z.to_nat n))) ||
  vie_canonical_check (cpu_mode paging) g ||
  (negb (negb (cpl paging =? 3) || negb (tst (view vcpuid s0 VM_REG_GUEST_CR0) CR0_AM) || negb (tst (view vcpuid s0 VM_REG_GUEST_RFLAGS) PSL_AC)) &&
   tst g (u64 (n - 1))).

(** [get_gla] yields the address, or it has injected a fault. *)
Lemma get_gla_wp n a prot seg gpr Q s : shares s0 s -> is_size n = true -> addrsize_ok (cpu_mode paging) a ->
  0 <= prot <= 3 -> data_seg seg -> gpr <> VM_REG_LAST ->
  (refused n a prot seg gpr = false -> operand_gla a seg gpr in_u 64 -> Q (Some (operand_gla a seg gpr)) s) ->
  (forall s', refused n a prot seg gpr = true -> raised vcpuid s0 s' -> Q None s') ->
  wp (get_gla vcpuid paging n a prot seg gpr) Q s.
Proof.
  intros Hs Hn Ha Hp Hseg Hg HQ Hr. unfold get_gla, wp.
  rewrite !assured_read, get_desc_eq by done. cbn [fst snd]. rewrite KASSERT_true, assured_read by done.
  assert (Ec : cookie s = cookie s0) by (destruct Hs as [-> _]; done). rewrite Ec.
  unfold bind at 1. rewrite calculate_gla_returns; try done; [|apply view_range|intros _; by apply (re_descs Hready)].
  rewrite (kept_view s (shares_kept s Hs)). fold (operand_gla a seg gpr).
  assert (Hinj : forall Q', (forall s', raised vcpuid s0 s' -> Q' tt s') ->
    wp (if bool_decide (seg = VM_REG_GUEST_SS) then vm_inject_ss vcpuid 0 else vm_inject_gp vcpuid) Q' s).
  { intros Q' HQ'. destruct Hready.
    case_bool_decide; eapply (inject_fault_raised vcpuid Hi s0); try done; unfold IDT_SS, IDT_GP, IDT_DF; lia. }
  unfold refused in HQ, Hr. cbv zeta in HQ, Hr.
  match goal with |- context [if ?b then Some _ else None] => destruct b end; cbn [negb orb] in HQ, Hr.
  2: { apply wp_bind, Hinj. intros s' H'. by apply Hr. }
  destruct (vie_canonical_check (cpu_mode paging) (operand_gla a seg gpr)); cbn [orb] in HQ, Hr; [apply wp_bind, Hinj; intros s' H'; by apply Hr|].
  rewrite alignment_ret by (done || apply (re_cpl Hready)). destruct (negb _ && tst _ _); [|by apply HQ; [|apply gla_of_range]].
  apply wp_bind. destruct Hready.
  eapply (inject_fault_raised vcpuid Hi s0); try done; try (unfold IDT_AC, IDT_DF; lia). intros s' H'. by apply Hr.
Qed.

(** *** Registers *)

(** Updating a register of a string instruction. *)
Lemma assured_update {A} r x y n (k : unit -> cmd M A) s : operand_reg r -> operand_size n -> x in_u 64 ->
  low n x = low n y ->
  bind (assured_ (vie_update_register vcpuid r x n)) k s = k tt (setr vcpuid r (put_reg n r y (view vcpuid s) r) s).
Proof.
  intros Hr Hn Hx Hy. unfold assured_. unfold bind at 1 2. rewrite update_eq by (done || by left).
  cbn [Z.eqb]. unfold KASSERT. do 2 f_equal. unfold put_reg, upd. rewrite !bool_decide_eq_true_2 by done. by rewrite Hy.
Qed.

(** [s'] has the registers [f] and is otherwise [s], up to a restart. *)
Record advanced (f : rfile) (again : bool) s s' : Prop := {
  ad_regs r : view vcpuid s' r = f r;
  ad_devices : devices s' = devices s;
  ad_memory : host_mem s' = host_mem s;
  ad_cpu : get_vcpu vcpuid s' =
    if again then restart_vcpu (view vcpuid s VM_REG_GUEST_RIP) (get_vcpu vcpuid s) else get_vcpu vcpuid s;
}.

Lemma string_index_eq n a r s f s' : operand_size a -> operand_reg r ->
  agrees vcpuid s f s' ->
  exists s2, (forall A (k : unit -> cmd M A), bind (assured_ (vie_update_register vcpuid r
      (step_index (view vcpuid s' VM_REG_GUEST_RFLAGS) n (view vcpuid s' r)) a)) k s' = k tt s2) /\
    agrees vcpuid s (string_index n a r f) s2.
Proof.
  intros Ha Hr Hw. unfold step_index. eexists. split.
  1: intros A k; apply (assured_update r _ (if tst (f VM_REG_GUEST_RFLAGS) PSL_D then f r - n else f r + n)); try done.
  3: { eapply (agrees_setr vcpuid Hi); [exact Hw|done|by apply put_reg_range|].
    intros q. unfold string_index. rewrite put_reg_value. unfold upd. case_bool_decide; [|done].
    unfold put_reg, upd. rewrite !bool_decide_eq_true_2 by done. by rewrite (ag_regs _ _ _ _ Hw). }
  - split_if; apply u64_in_u.
  - rewrite !(ag_regs _ _ _ _ Hw). split_if; by apply low_u64.
Qed.

Lemma count_done_eq {A} x (k : bool -> cmd M A) s : operand_size (addrsize v) ->
  bind (count_done v x) k s = k (low (addrsize v) x =? 0) s.
Proof.
  intros Ha. unfold count_done. unfold bind at 1. rewrite size2mask_ret by (by apply operand_size_is).
  cbn [ret]. by rewrite land_mask.
Qed.

Lemma restart_eq s : has_vcpus s -> can_inject vcpuid s \/ state (get_vcpu vcpuid s) = VCPU_FROZEN \/
    state (get_vcpu vcpuid s) = VCPU_RUNNING ->
  exists s2, vm_restart_instruction vcpuid s = Return (0, s2) /\ s2 = s <| vcpus := vcpus s2 |> /\
    get_vcpu vcpuid s2 = restart_vcpu (view vcpuid s VM_REG_GUEST_RIP) (get_vcpu vcpuid s).
Proof.
  intros Hc Hst. unfold vm_restart_instruction, vcpu_get_state. rewrite bad_vcpuid_false by done.
  unfold bind at 1. rewrite KASSERT_true by done. unfold gets at 1.
  assert (Hs : state (get_vcpu vcpuid s) = VCPU_RUNNING \/ state (get_vcpu vcpuid s) = VCPU_FROZEN).
  { destruct Hst as [[_ [H|H]]|[H|H]]; auto. }
  destruct Hs as [E|E]; rewrite E.
  - eexists. split; [reflexivity|]. split; [by destruct s|]. rewrite get_vcpu_alter by done.
    unfold restart_vcpu. by rewrite E.
  - fold (vie_read_register (X := X) (D := D) vcpuid VM_REG_GUEST_RIP). unfold bind at 1. rewrite read_eq by done.
    eexists. split; [reflexivity|]. split; [by destruct s|]. rewrite get_vcpu_alter by done.
    unfold restart_vcpu. by rewrite E.
Qed.

Lemma low_put_reg n r x f : operand_size n -> low n (put_reg n r x f r) = low n x.
Proof.
  intros Hn. unfold put_reg, upd. rewrite bool_decide_eq_true_2 by done.
  destruct Hn as [->|[->|[->| ->]]]; unfold low; rewrite ?(Z.mul_comm (2 ^ _)), ?Z.mod_add, ?Z.mod_mod by done; done.
Qed.

Lemma kept_cpu s : kept s -> has_vcpus s /\ get_vcpu vcpuid s = get_vcpu vcpuid s0.
Proof.
  intros [_ E _]. unfold has_vcpus, get_vcpu. rewrite E. split; [apply (re_cpus Hready)|done].
Qed.

(** The end of an iteration. *)
Lemma string_finish s f s' : kept s -> operand_size (addrsize v) -> agrees vcpuid s f s' ->
  f VM_REG_GUEST_RIP = view vcpuid s VM_REG_GUEST_RIP ->
  exists s2, (when (repeats v) (string_repeat vcpuid v (f VM_REG_GUEST_RCX)) ;;; ret 0) s' = Return (0, s2) /\
    let g := if repeats v then string_count (addrsize v) f else f in
    advanced g (count_left v g) s s2.
Proof.
  intros Hk Ha Hw Hrip. unfold count_left. destruct (repeats v); cbn [when andb].
  2: { exists s'. split; [done|]. destruct Hw as [E Hr _ _]. split; [done|by rewrite E..]. }
  unfold string_repeat. unfold bind at 1.
  rewrite (assured_update VM_REG_GUEST_RCX _ (f VM_REG_GUEST_RCX - 1)) by (try done; (apply u64_in_u || by apply low_u64)).
  rewrite count_done_eq, low_u64 by done.
  set (s3 := setr _ _ _ _).
  assert (Hw3 : agrees vcpuid s (string_count (addrsize v) f) s3).
  { eapply (agrees_setr vcpuid Hi); [exact Hw|done|by apply put_reg_range|].
    intros q. unfold string_count. rewrite put_reg_value. unfold upd. case_bool_decide; [|done].
    unfold put_reg, upd. rewrite !bool_decide_eq_true_2 by done. by rewrite (ag_regs _ _ _ _ Hw). }
  assert (Hl : low (addrsize v) (string_count (addrsize v) f VM_REG_GUEST_RCX) = low (addrsize v) (f VM_REG_GUEST_RCX - 1)).
  { by apply low_put_reg. }
  rewrite Hl. clearbody s3. destruct Hw3 as [E3 Hr3 _ _]. destruct (kept_cpu s Hk) as [Hc Hg].
  destruct (low _ _ =? 0); cbn [negb when].
  - exists s3. split; [done|]. split; [done|by rewrite E3..].
  - assert (Hst : can_inject vcpuid s3).
    { pose proof (re_inject Hready) as Hcan. unfold can_inject in *. rewrite E3.
      change (get_vcpu vcpuid (s <| cookie := cookie s3 |>)) with (get_vcpu vcpuid s). by rewrite Hg. }
    destruct (restart_eq s3 ltac:(by rewrite E3) ltac:(by left)) as (s4 & E4 & F4 & G4).
    exists s4. unfold bind. rewrite E4. split; [done|]. rewrite Hr3 in G4.
    assert (string_count (addrsize v) f VM_REG_GUEST_RIP = view vcpuid s VM_REG_GUEST_RIP) as Hrip'.
    { rewrite <- Hrip. done. }
    split; [|by rewrite F4, E3..|].
    + intros r. rewrite <- Hr3. rewrite F4. done.
    + rewrite G4, Hrip', E3. done.
Qed.

(** ** STOS *)

Definition stos_size : Z := if op_byte (op v) =? 0xAA then 1 else opsize v.

(** A repeated instruction whose count is zero does nothing. *)
Definition string_done (f : rfile) : bool := repeats v && (low (addrsize v) (f VM_REG_GUEST_RCX) =? 0).

Lemma count_read {A} (k : Z -> cmd M A) s :
  bind (if repeats v then assured (vie_read_register vcpuid VM_REG_GUEST_RCX) else ret 0) k s =
  k (if repeats v then view vcpuid s VM_REG_GUEST_RCX else 0) s.
Proof. destruct (repeats v); [by rewrite assured_read|done]. Qed.

Lemma stop_read {A} (k : bool -> cmd M A) s : operand_size (addrsize v) ->
  bind (if repeats v then count_done v (if repeats v then view vcpuid s VM_REG_GUEST_RCX else 0) else ret false) k s =
  k (string_done (view vcpuid s)) s.
Proof. intros Ha. unfold string_done. destruct (repeats v); [by rewrite count_done_eq|done]. Qed.

Definition stos_result (e : Z) s s' : Prop :=
  if string_done (view vcpuid s) then e = 0 /\ s' = s
  else exists s1, memwrite gpa (view vcpuid s VM_REG_GUEST_RAX) stos_size s = Return (e, s1) /\
    if e =? 0
    then let f := stos_regs v stos_size (view vcpuid s) in advanced f (count_left v f) s1 s'
    else s' = s1.

Lemma stos_spec : operand_size (addrsize v) ->
  exists e s', emulate_stos memwrite vcpuid gpa v s0 = Return (e, s') /\ stos_result e s0 s'.
Proof.
  intros Ha. unfold emulate_stos, stos_result. rewrite count_read, stop_read by done. fold stos_size.
  destruct (string_done (view vcpuid s0)); [by eauto|]. rewrite assured_read by done.
  destruct (mwrite_returns gpa (view vcpuid s0 VM_REG_GUEST_RAX) stos_size s0) as (e & s1 & E & Hd).
  unfold checked_. unfold bind at 1. rewrite E. destruct (Z.eqb_spec e 0) as [->|He].
  2: { exists e, s1. split; [done|]. exists s1. split; [done|]. by rewrite (proj2 (Z.eqb_neq e 0) He). }
  assert (Hk : kept s1) by (apply (device_kept s0); [by split|done]).
  rewrite !assured_read by done.
  destruct (string_index_eq stos_size (addrsize v) VM_REG_GUEST_RDI s1 (view vcpuid s1) s1 Ha ltac:(done)
    ltac:(by apply agrees_refl)) as (s2 & E2 & A2).
  rewrite E2. pose proof (string_finish s1 _ s2 Hk Ha A2 eq_refl) as (s3 & E3 & A3).
  exists 0, s3. split.
  - rewrite <- E3, <- (kept_view s1) by done. by destruct (repeats v).
  - exists s1. split; [done|]. cbn [Z.eqb]. rewrite (kept_view s1) in A3 by done. exact A3.
Qed.

(** ** MOVS *)

(** The host memory of an operand of [n] bytes. *)
Definition pieces (n : Z) (l : list vm_copyinfo) : Prop :=
  exists pages, Forall page_piece pages /\ total pages = n /\ Forall2 (backs s0) pages l.

(** From guest memory to the region, with the error of the handler. *)
Inductive store_out (n : Z) s : Z -> M -> Prop :=
| so_write l e s' : pieces n l ->
    memwrite gpa (le_combine (copyin_loop l n (host_mem s))) n s = Return (e, s') -> store_out n s e s'.

(** From the region to guest memory, unless the handler fails. *)
Inductive load_in (n : Z) s : Z -> M -> Prop :=
| li_failed e x s' : memread gpa n s = Return ((e, x), s') -> e <> 0 -> load_in n s e s'
| li_read l x s1 : pieces n l -> memread gpa n s = Return ((0, x), s1) ->
    load_in n s 0 (s1 <| host_mem ::= copyout_loop (le_split (Z.to_nat n) x) l n |>).

(** From one region to another: the value read is the value written. *)
Inductive move (n : Z) s : Z -> M -> Prop :=
| mo_failed src e x s' : memread src n s = Return ((e, x), s') -> e <> 0 -> move n s e s'
| mo_moved src dst x e s1 s' : memread src n s = Return ((0, x), s1) -> memwrite dst x n s1 = Return (e, s') ->
    move n s e s'.

Definition transfer (n : Z) s (e : Z) s' : Prop := store_out n s e s' \/ load_in n s e s' \/ move n s e s'.

Lemma transfer_kept n s e s' : kept s -> transfer n s e s' -> kept s'.
Proof.
  assert (Hr : forall a k q e x q', kept q -> memread a k q = Return ((e, x), q') -> kept q').
  { intros a k q e1 x q' Hq E. destruct (mread_returns a k q) as (? & ? & q1 & E1 & _ & Hd).
    rewrite E in E1. simplify_eq. by eapply device_kept. }
  assert (Hw : forall a x k q e q', kept q -> memwrite a x k q = Return (e, q') -> kept q').
  { intros a x k q e1 q' Hq E. destruct (mwrite_returns a x k q) as (? & q1 & E1 & Hd).
    rewrite E in E1. simplify_eq. by eapply device_kept. }
  intros Hk [[l e' s1 _ E]|[[e' x s1 E _|l x s1 _ E]|[src e' x s1 E _|src dst x e' s1 s2 E1 E2]]]; eauto.
  destruct (Hr _ _ _ _ _ _ Hk E). by split.
Qed.

(** The host memory of a linear range, and its guest physical address. *)
Definition set_up (g n prot : Z) : cmd M (Z * bool * list vm_copyinfo) := vm_copy_setup others vcpuid (S (S N)) paging g n prot 2.
Definition walk (g prot : Z) : cmd M (Z * bool * Z) := vm_gla2gpa others vcpuid paging g prot (S (S N)).

Lemma copy_setup_cont n prot g (k : Z * bool * list vm_copyinfo -> cmd M Z) Q s : shares s0 s -> g in_u 64 ->
  operand_size n ->
  (forall l s1, set_up g n prot s = Return ((0, false, l), s1) -> shares s0 s1 -> pieces n l -> wp (k (0, false, l)) Q s1) ->
  (forall s1, set_up g n prot s = Return ((0, true, []), s1) -> raised vcpuid s0 s1 -> wp (k (0, true, [])) Q s1) ->
  (forall s1, set_up g n prot s = Return ((EFAULT, false, []), s1) -> shares s0 s1 -> wp (k (EFAULT, false, [])) Q s1) ->
  wp (bind (vm_copy_setup others vcpuid (S (S N)) paging g n prot 2) k) Q s.
Proof.
  intros Hs Hg Hn Hok Hf He. destruct Hready. apply wp_bind. fold (set_up g n prot).
  assert (Hset : wp (set_up g n prot) (copy_ready vcpuid s0 n) s).
  { apply copy_setup_wp with (s0 := s0) (N := N); try done.
    - destruct Hn as [->|[->|[->| ->]]]; lia.
    - pose proof (Z.mod_pos_bound g XHYVE_PAGE_SIZE ltac:(done)). unfold XHYVE_PAGE_SIZE in *.
      destruct Hn as [->|[->|[->| ->]]]; lia. }
  destruct (wp_elim _ _ _ Hset) as (r & s1 & E & Hr). unfold wp. rewrite E.
  destruct Hr as [(pages & l & -> & H1 & H2 & H3 & H4)|[[-> H1]|[-> H1]]]; [|by apply Hf|by apply He].
  apply Hok; [done|done|]. by exists pages.
Qed.

Lemma gla2gpa_cont prot g (k : Z * bool * Z -> cmd M Z) Q s : shares s0 s -> g in_u 64 ->
  (forall a s1, walk g prot s = Return ((0, false, a), s1) -> shares s0 s1 -> wp (k (0, false, a)) Q s1) ->
  (forall a s1, walk g prot s = Return ((0, true, a), s1) -> raised vcpuid s0 s1 -> wp (k (0, true, a)) Q s1) ->
  (forall a s1, walk g prot s = Return ((EFAULT, false, a), s1) -> shares s0 s1 -> wp (k (EFAULT, false, a)) Q s1) ->
  wp (bind (vm_gla2gpa others vcpuid paging g prot (S (S N))) k) Q s.
Proof.
  intros Hs Hg Hok Hf He. destruct Hready. apply wp_bind. fold (walk g prot).
  assert (Hw : wp (walk g prot) (settled vcpuid g s0) s) by (apply gla2gpa_settles with (s0 := s0); done).
  destruct (wp_elim _ _ _ Hw) as (r & s1 & E & Hr). unfold wp. rewrite E.
  destruct Hr as [(a & -> & H1 & _)|[(a & -> & H1)|(a & -> & H1)]]; [by apply Hok|by apply Hf|by apply He].
Qed.

(** The operands of MOVS: the source is in the data segment, or the one of a
    prefix, at RSI, the destination in ES at RDI. *)
Definition movs_seg : vm_reg_name := if seg_override v then segment_register v else VM_REG_GUEST_DS.
Definition movs_src : Z := operand_gla (addrsize v) movs_seg VM_REG_GUEST_RSI.
Definition movs_dst : Z := operand_gla (addrsize v) VM_REG_GUEST_ES VM_REG_GUEST_RDI.
Definition src_refused (n : Z) : bool := refused n (addrsize v) XHYVE_PROT_READ movs_seg VM_REG_GUEST_RSI.
Definition dst_refused (n : Z) : bool := refused n (addrsize v) XHYVE_PROT_WRITE VM_REG_GUEST_ES VM_REG_GUEST_RDI.

(** The source is guest memory, found by [set_up]; or it is not, and [s1] is
    the state after the attempt. *)
Definition src_memory (n : Z) (l : list vm_copyinfo) s1 : Prop :=
  src_refused n = false /\ set_up movs_src n XHYVE_PROT_READ s0 = Return ((0, false, l), s1) /\ pieces n l.
Definition src_region (n : Z) s1 : Prop :=
  src_refused n = false /\ set_up movs_src n XHYVE_PROT_READ s0 = Return ((EFAULT, false, []), s1).
(** Then the destination is guest memory, or both are regions. *)
Definition dst_memory (n : Z) (l : list vm_copyinfo) s2 : Prop := exists s1, src_region n s1 /\ dst_refused n = false /\
  set_up movs_dst n XHYVE_PROT_WRITE s1 = Return ((0, false, l), s2) /\ pieces n l.
Definition both_regions (n : Z) s2 : Prop := exists s1, src_region n s1 /\ dst_refused n = false /\
  set_up movs_dst n XHYVE_PROT_WRITE s1 = Return ((EFAULT, false, []), s2).

(** The accesses of a MOVS with the error of the last one: from memory to the
    region, from the region to memory, or from one region to another. *)
Inductive exchange (n : Z) : Z -> M -> Prop :=
| ex_store l s1 e s' : src_memory n l s1 -> shares s0 s1 ->
    memwrite gpa (le_combine (copyin_loop l n (host_mem s1))) n s1 = Return (e, s') -> exchange n e s'
| ex_load l s2 e x s3 : dst_memory n l s2 -> shares s0 s2 -> memread gpa n s2 = Return ((e, x), s3) ->
    exchange n e (if e =? 0 then s3 <| host_mem ::= copyout_loop (le_split (Z.to_nat n) x) l n |> else s3)
| ex_failed s2 a s3 b s4 e x s' : both_regions n s2 -> walk movs_src XHYVE_PROT_READ s2 = Return ((0, false, a), s3) ->
    walk movs_dst XHYVE_PROT_WRITE s3 = Return ((0, false, b), s4) -> shares s0 s4 ->
    memread a n s4 = Return ((e, x), s') -> e <> 0 -> exchange n e s'
| ex_move s2 a s3 b s4 x s5 e s' : both_regions n s2 -> walk movs_src XHYVE_PROT_READ s2 = Return ((0, false, a), s3) ->
    walk movs_dst XHYVE_PROT_WRITE s3 = Return ((0, false, b), s4) -> shares s0 s4 ->
    memread a n s4 = Return ((0, x), s5) -> memwrite b x n s5 = Return (e, s') -> exchange n e s'.

(** The ends without an access: an operand is refused or has no translation. *)
Inductive movs_fault (n : Z) : M -> Prop :=
| fa_src s' : src_refused n = true -> movs_fault n s'
| fa_src_page s' : src_refused n = false -> set_up movs_src n XHYVE_PROT_READ s0 = Return ((0, true, []), s') -> movs_fault n s'
| fa_dst s1 s' : src_region n s1 -> dst_refused n = true -> movs_fault n s'
| fa_dst_page s1 s' : src_region n s1 -> dst_refused n = false ->
    set_up movs_dst n XHYVE_PROT_WRITE s1 = Return ((0, true, []), s') -> movs_fault n s'
| fa_walk s2 a s' : both_regions n s2 -> walk movs_src XHYVE_PROT_READ s2 = Return ((0, true, a), s') -> movs_fault n s'
| fa_walk_dst s2 a s3 b s' : both_regions n s2 -> walk movs_src XHYVE_PROT_READ s2 = Return ((0, false, a), s3) ->
    walk movs_dst XHYVE_PROT_WRITE s3 = Return ((0, true, b), s') -> movs_fault n s'.

Inductive movs_nomem (n : Z) : M -> Prop :=
| nm_src s2 a s' : both_regions n s2 -> walk movs_src XHYVE_PROT_READ s2 = Return ((EFAULT, false, a), s') -> movs_nomem n s'
| nm_dst s2 a s3 b s' : both_regions n s2 -> walk movs_src XHYVE_PROT_READ s2 = Return ((0, false, a), s3) ->
    walk movs_dst XHYVE_PROT_WRITE s3 = Return ((EFAULT, false, b), s') -> movs_nomem n s'.

(** An exchange is a transfer. *)
Lemma exchange_transfer n e s' : exchange n e s' -> exists s1, shares s0 s1 /\ transfer n s1 e s'.
Proof.
  intros [l s1 e' s2 (_ & _ & Hp) Hs E|l s2 e' x s3 (s1 & _ & _ & _ & Hp) Hs E|s2 a s3 b s4 e' x s5 _ _ _ Hs E Hne|s2 a s3 b s4 x s5 e' s6 _ _ _ Hs E1 E2].
  - exists s1. split; [done|]. left. by apply (so_write n s1 l).
  - exists s2. split; [done|]. right; left. destruct (Z.eqb_spec e' 0) as [->|Hne]; [by apply li_read|by eapply li_failed].
  - exists s4. split; [done|]. right; right. by eapply mo_failed.
  - exists s4. split; [done|]. right; right. by eapply mo_moved.
Qed.

(** How a transfer ends, before the registers are updated by [k]. *)
Record transferred (n : Z) (k : cmd M Z) (Q : Z -> M -> Prop) : Prop := {
  td_fault s1 : movs_fault n s1 -> raised vcpuid s0 s1 -> Q 0 s1;
  td_nomem s1 : movs_nomem n s1 -> shares s0 s1 -> Q EFAULT s1;
  td_failed e s2 : exchange n e s2 -> e <> 0 -> Q e s2;
  td_done s2 : exchange n 0 s2 -> wp k Q s2;
}.

Lemma wp_checked a n (k : Z -> cmd M Z) Q s :
  (forall e x s1, memread a n s = Return ((e, x), s1) -> e <> 0 -> Q e s1) ->
  (forall x s1, memread a n s = Return ((0, x), s1) -> wp (k x) Q s1) -> wp (checked (memread a n) k) Q s.
Proof.
  intros He Hk. destruct (mread_returns a n s) as (e & x & s1 & E & _). unfold wp, checked, bind. rewrite E.
  cbn [fst snd]. destruct (Z.eqb_spec e 0) as [->|Hne]; [by apply Hk|by eapply He].
Qed.

Lemma wp_checked_ a x n (k : cmd M Z) Q s :
  (forall e s1, memwrite a x n s = Return (e, s1) -> e <> 0 -> Q e s1) ->
  (forall s1, memwrite a x n s = Return (0, s1) -> wp k Q s1) -> wp (checked_ (memwrite a x n) k) Q s.
Proof.
  intros He Hk. destruct (mwrite_returns a x n s) as (e & s1 & E & _). unfold wp, checked_, bind. rewrite E.
  destruct (Z.eqb_spec e 0) as [->|Hne]; [by apply Hk|by eapply He].
Qed.

(** The decoder's guarantees that these instructions use. *)
Record string_ok : Prop := {
  st_fields : vie_ok v;
  st_sizes : sizes_ok (cpu_mode paging) v;
}.

Lemma st_addr : string_ok -> addrsize_ok (cpu_mode paging) (addrsize v) /\ operand_size (addrsize v).
Proof.
  intros [_ H]. unfold sizes_ok, size_in in H. unfold addrsize_ok, operand_size.
  case_bool_decide as E; destruct H as [H _].
  - rewrite E. cases_in H; rewrite H; lia.
  - destruct (cpu_mode paging); try done; cases_in H; rewrite H; lia.
Qed.

Lemma st_opsize : string_ok -> operand_size (opsize v).
Proof.
  intros [_ H]. unfold sizes_ok, size_in in H. unfold operand_size.
  case_bool_decide; destruct H as [_ H]; cases_in H; rewrite H; lia.
Qed.

Lemma movs_from_mmio_wp n k Q s : string_ok -> operand_size n -> movs_src in_u 64 -> transferred n k Q -> src_region n s ->
  shares s0 s -> wp (movs_from_mmio others (S (S N)) memread memwrite vcpuid gpa movs_src n v paging k) Q s.
Proof.
  intros Hst Hn Hsrc [Hf He Hx Hk] Hreg Hs. unfold movs_from_mmio. apply wp_bind.
  apply get_gla_wp; [done|by apply operand_size_is|by apply st_addr|done|unfold data_seg; member|done| |intros s' Hr H'; apply wp_ret, Hf; [by eapply fa_dst|done]].
  intros Hok Hdst. fold movs_dst in Hdst |- *. apply copy_setup_cont; try done.
  - intros l s1 E1 H1 Hp. cbn [Z.eqb]. assert (Hm : dst_memory n l s1) by (by exists s). apply wp_checked.
    + intros e x s2 E Hne. apply Hx; [|done]. pose proof (ex_load n l s1 e x s2 Hm H1 E) as Hex. by rewrite (proj2 (Z.eqb_neq e 0)) in Hex.
    + intros x s2 E. apply wp_bind, wp_update. by apply Hk, (ex_load n l s1 0 x s2).
  - intros s1 E1 H1. apply wp_ret, Hf; [by eapply fa_dst_page|done].
  - intros s1 E1 H1. cbn [Z.eqb Pos.eqb EFAULT]. assert (Hb : both_regions n s1) by (by exists s).
    apply gla2gpa_cont; [done|done| |intros a s2 E2 H2; apply wp_ret, Hf; [by eapply fa_walk|done]|intros a s2 E2 H2; apply wp_ret, He; [by eapply nm_src|done]].
    intros srcgpa s2 E2 H2. cbn [Z.eqb negb orb].
    apply gla2gpa_cont; [done|done| |intros a s3 E3 H3; apply wp_ret, Hf; [by eapply fa_walk_dst|done]|intros a s3 E3 H3; apply wp_ret, He; [by eapply nm_dst|done]].
    intros dstgpa s3 E3 H3. cbn [Z.eqb negb orb]. apply wp_checked.
    + intros e x s4 E Hne. apply Hx; [by eapply ex_failed|done].
    + intros x s4 E. apply wp_checked_.
      * intros e s5 E5 Hne. apply Hx; [by eapply ex_move|done].
      * intros s5 E5. apply Hk. by eapply ex_move.
Qed.

Lemma movs_transfer_wp n k Q : string_ok -> operand_size n -> transferred n k Q ->
  wp (movs_transfer others (S (S N)) memread memwrite vcpuid gpa n v paging k) Q s0.
Proof.
  intros Hst Hn Ht. pose proof Ht as [Hf He Hx Hk]. unfold movs_transfer. fold movs_seg. apply wp_bind. pose proof shares_refl as Hs.
  apply get_gla_wp; [done|by apply operand_size_is|by apply st_addr|done| |done| |intros s' Hr H'; apply wp_ret, Hf; [by apply fa_src|done]].
  { unfold movs_seg. destruct (seg_override v) eqn:Eo; [by apply (ok_seg v (st_fields Hst))|unfold data_seg; member]. }
  intros Hok Hsrc. fold movs_src in Hsrc |- *. apply copy_setup_cont; try done.
  - intros l s1 E1 H1 Hp. cbn [Z.eqb]. assert (Hm : src_memory n l s1) by done. apply wp_bind, wp_gets. apply wp_checked_.
    + intros e s2 E Hne. apply Hx; [by eapply ex_store|done].
    + intros s2 E. apply Hk. by eapply ex_store.
  - intros s1 E1 H1. apply wp_ret, Hf; [by apply fa_src_page|done].
  - intros s1 E1 H1. by apply movs_from_mmio_wp.
Qed.

Definition movs_size : Z := if op_byte (op v) =? 0xA4 then 1 else opsize v.

(** One execution of MOVS, up to the assertion at its end. *)
Inductive movs_result : Z -> M -> Prop :=
| mv_count_zero : string_done (view vcpuid s0) = true -> movs_result 0 s0
| mv_fault s' : string_done (view vcpuid s0) = false -> movs_fault movs_size s' -> raised vcpuid s0 s' -> movs_result 0 s'
| mv_nomem s' : string_done (view vcpuid s0) = false -> movs_nomem movs_size s' -> shares s0 s' -> movs_result EFAULT s'
| mv_failed e s' : string_done (view vcpuid s0) = false -> exchange movs_size e s' -> e <> 0 -> movs_result e s'
| mv_moved s2 s' : string_done (view vcpuid s0) = false -> exchange movs_size 0 s2 ->
    (let f := movs_regs v movs_size (view vcpuid s0) in advanced f (count_left v f) s2 s') -> movs_result 0 s'.

Lemma movs_advance_eq n s : kept s -> operand_size (addrsize v) ->
  exists s', movs_advance vcpuid n (if repeats v then view vcpuid s0 VM_REG_GUEST_RCX else 0) v s = Return (0, s') /\
    let f := movs_regs v n (view vcpuid s0) in advanced f (count_left v f) s s'.
Proof.
  intros Hk Ha. unfold movs_advance. rewrite !assured_read by done.
  destruct (string_index_eq n (addrsize v) VM_REG_GUEST_RSI s (view vcpuid s) s Ha ltac:(done)
    ltac:(by apply agrees_refl)) as (s1 & E1 & A1). rewrite E1. clear E1. cbv beta.
  assert (E2 : forall r, r <> VM_REG_GUEST_RSI -> view vcpuid s r = view vcpuid s1 r).
  { intros r Hr. rewrite (ag_regs _ _ _ _ A1). unfold string_index, put_reg, upd. by rewrite bool_decide_eq_false_2. }
  rewrite !E2 by done.
  destruct (string_index_eq n (addrsize v) VM_REG_GUEST_RDI s _ s1 Ha ltac:(done) A1) as (s2 & E3 & A2).
  rewrite E3. clear E3. cbv beta.
  destruct (string_finish s _ s2 Hk Ha A2 eq_refl) as (s3 & E3 & A3).
  exists s3. split.
  - rewrite <- E3, <- (kept_view s) by done. by destruct (repeats v).
  - rewrite (kept_view s) in A3 by done. exact A3.
Qed.

(** The assertion at the end of [emulate_movs] admits two errors. *)
Definition movs_asserted (e : Z) : bool := (e =? 0) || (e =? EFAULT).

Lemma movs_spec : string_ok -> exists e s', movs_result e s' /\
  emulate_movs others (S (S N)) memread memwrite vcpuid gpa v paging s0 = if movs_asserted e then Return (e, s') else Panic.
Proof.
  intros Hst. destruct (st_addr Hst) as [_ Ha]. unfold emulate_movs. fold movs_size.
  assert (Hn : operand_size movs_size) by (unfold movs_size; split_if; [by left|by apply st_opsize]).
  rewrite count_read, stop_read by done.
  match goal with |- context [bind (if ?b then ret 0 else ?c) _ _] => assert (Hw : wp (if b then ret 0 else c) movs_result s0) end.
  { destruct (string_done (view vcpuid s0)) eqn:Ed; [by apply wp_ret, mv_count_zero|].
    apply movs_transfer_wp; try done. split.
    - intros s1 Hf H1. by apply mv_fault.
    - intros s1 Hf H1. by apply mv_nomem.
    - intros e s2 Ht Hne. by apply mv_failed.
    - intros s2 Ht. destruct (exchange_transfer _ _ _ Ht) as (s1 & H1 & Ht').
      assert (Hk : kept s2) by (eapply transfer_kept; [by apply shares_kept|done]).
      destruct (movs_advance_eq movs_size s2 Hk Ha) as (s3 & E3 & A3). unfold wp. rewrite E3. by eapply mv_moved. }
  destruct (wp_elim _ _ _ Hw) as (e & s' & E & Hr). exists e, s'. split; [done|]. rewrite (bind_return _ _ _ _ _ E).
  unfold movs_asserted, bind, KASSERT. by destruct ((e =? 0) || (e =? EFAULT)).
Qed.

(** ** PUSH and POP *)

Definition pushes : bool := bool_decide (op_type (op v) = VIE_OP_TYPE_PUSH).

(** The width of the stack pointer and of the operand. *)
Definition stack_width : Z :=
  match cpu_mode paging with
  | CPU_MODE_64BIT => 8
  | _ => if SEG_DESC_DEF32 (access (vmgetdesc vcpuid VM_REG_GUEST_SS (cookie s0)).2) then 4 else 2
  end.
Definition stack_operand : Z :=
  match cpu_mode paging with CPU_MODE_64BIT => if opsize_override v then 2 else 8 | _ => opsize v end.

(** The stack pointer moves down before a push and up after a pop. *)
Definition stack_regs (f : rfile) : rfile :=
  put_reg stack_width VM_REG_GUEST_RSP
    (if pushes then f VM_REG_GUEST_RSP - stack_operand else f VM_REG_GUEST_RSP + stack_operand) f.

(** One execution of PUSH or POP. *)
Inductive stack_result : Z -> M -> Prop :=
| sk_fault s' : raised vcpuid s0 s' -> stack_result 0 s'
| sk_nomem s' : shares s0 s' -> stack_result EFAULT s'
| sk_failed e s1 s' : shares s0 s1 ->
    (if pushes then load_in stack_operand s1 e s' else store_out stack_operand s1 e s') -> e <> 0 -> stack_result e s'
| sk_moved s1 s2 s' : shares s0 s1 ->
    (if pushes then load_in stack_operand s1 0 s2 else store_out stack_operand s1 0 s2) ->
    advanced (stack_regs (view vcpuid s0)) false s2 s' -> stack_result 0 s'.

Lemma stack_operand_ok : string_ok -> operand_size stack_operand.
Proof.
  intros Hst. pose proof (st_opsize Hst). unfold stack_operand. destruct (cpu_mode paging); try done.
  unfold operand_size. split_if; lia.
Qed.

Lemma stack_width_ok : addrsize_ok (cpu_mode paging) stack_width /\ operand_size stack_width.
Proof.
  unfold stack_width, addrsize_ok, operand_size. destruct (cpu_mode paging); try (split_if; lia). lia.
Qed.

Lemma stack_sizes_eq : cpu_mode paging <> CPU_MODE_REAL ->
  exists desc, (cpu_mode paging <> CPU_MODE_64BIT -> desc_ok desc) /\
    stack_sizes uninit vcpuid v paging s0 = Return ((stack_width, stack_operand, desc), s0).
Proof.
  intros Hm. unfold stack_sizes, stack_width, stack_operand.
  assert (Hss : data_seg VM_REG_GUEST_SS) by (unfold data_seg; member).
  destruct (cpu_mode paging); try done; [| |by exists uninit];
    (exists (vmgetdesc vcpuid VM_REG_GUEST_SS (cookie s0)).2; split; [intros _; by apply (re_descs Hready)|];
     rewrite get_desc_eq by done; by rewrite KASSERT_true).
Qed.

(** The end: the stack pointer is updated. *)
Lemma stack_finish s x : kept s -> x in_u 64 ->
  low stack_width x = low stack_width (if pushes then view vcpuid s0 VM_REG_GUEST_RSP - stack_operand
                                       else view vcpuid s0 VM_REG_GUEST_RSP + stack_operand) ->
  exists s', (assured_ (vie_update_register vcpuid VM_REG_GUEST_RSP x stack_width) ;;; ret 0) s = Return (0, s') /\
    advanced (stack_regs (view vcpuid s0)) false s s'.
Proof.
  intros Hk Hx Hl. destruct stack_width_ok as [_ Hw].
  erewrite assured_update by done. eexists. split; [reflexivity|].
  split; [|done..]. intros r. rewrite view_setr by (try done; by apply put_reg_range).
  unfold stack_regs. rewrite put_reg_value, (kept_view s) by done. done.
Qed.

Lemma raise_wp vector Q s : shares s0 s -> 0 <= vector < 32 -> vector <> IDT_DF ->
  (forall s', raised vcpuid s0 s' -> Q 0 s') ->
  wp (vm_inject_fault vcpuid vector true 0 ;;; ret 0) Q s.
Proof.
  intros Hs Hv Hd HQ. apply wp_bind. destruct Hready.
  eapply (inject_fault_raised vcpuid Hi s0); try done. 
Qed.

Lemma stack_spec : string_ok -> cpu_mode paging <> CPU_MODE_REAL ->
  exists e s', emulate_stack_op others (S (S N)) uninit memread memwrite vcpuid gpa v paging s0 = Return (e, s') /\
    stack_result e s'.
Proof.
  intros Hst Hm. unfold emulate_stack_op. fold pushes.
  destruct (stack_sizes_eq Hm) as (desc & Hd & E). rewrite (bind_return _ _ _ _ _ E). clear E.
  destruct stack_width_ok as [Haw Hw]. pose proof (stack_operand_ok Hst) as Hn.
  pose proof (view_range vcpuid s0 VM_REG_GUEST_RSP) as Hrsp. pose proof shares_refl as Hs.
  rewrite !assured_read by done.
  set (rsp := if pushes then u64 (view vcpuid s0 VM_REG_GUEST_RSP - stack_operand) else view vcpuid s0 VM_REG_GUEST_RSP).
  set (prot := if pushes then XHYVE_PROT_WRITE else XHYVE_PROT_READ).
  assert (Hr : 0 <= rsp) by (unfold rsp; split_if; [apply u64_in_u|lia]).
  assert (Hp : 0 <= prot <= 3) by (unfold prot; by split_if).
  unfold bind at 1. rewrite calculate_gla_returns; try done; [|unfold data_seg; member|by apply operand_size_is].
  apply wp_elim. assert (Hss : forall Q, (forall s', raised vcpuid s0 s' -> Q 0 s') ->
    wp (vm_inject_ss vcpuid 0 ;;; ret 0) Q s0).
  { intros Q HQ. apply raise_wp; try done; unfold IDT_SS, IDT_DF; lia. }
  match goal with |- context [if ?b then Some _ else None] => destruct b end; [|by apply Hss, sk_fault].
  set (g := gla_of _ _ _ _ _). assert (Hg : g in_u 64) by apply gla_of_range. clearbody g.
  destruct (vie_canonical_check (cpu_mode paging) g); [by apply Hss, sk_fault|].
  unfold wp at 1. rewrite alignment_ret by (by apply operand_size_is || apply (re_cpl Hready)).
  split_if; [apply raise_wp; try done; try (unfold IDT_AC, IDT_DF; lia); by apply sk_fault|]. clear E.
  apply copy_setup_cont; try done.
  - intros l s1 _ H1 Hl. cbn [Z.eqb negb orb]. unfold rsp. destruct pushes eqn:Ep.
    + apply wp_checked.
      * intros e x s2 E2 He. eapply sk_failed; [done| |done]. rewrite Ep. by eapply li_failed.
      * intros x s2 E2. apply wp_bind, wp_update.
        assert (Ht : load_in stack_operand s1 0 (s2 <| host_mem ::= copyout_loop (le_split (Z.to_nat stack_operand) x) l stack_operand |>)).
        { by apply li_read. }
        set (s3 := s2 <| host_mem ::= _ |>) in *.
        assert (Hk : kept s3) by (eapply (transfer_kept _ s1); [by apply shares_kept|right; by left]).
        destruct (stack_finish s3 (u64 (view vcpuid s0 VM_REG_GUEST_RSP - stack_operand)) Hk) as (s4 & E4 & A4);
          [apply u64_in_u|rewrite Ep; by apply low_u64|].
        unfold wp. rewrite E4. eapply sk_moved; [done|rewrite Ep; exact Ht|done].
    + apply wp_bind, wp_gets, wp_checked_.
      * intros e s2 E2 He. eapply sk_failed; [done| |done]. rewrite Ep. by eapply so_write.
      * intros s2 E2. assert (Ht : store_out stack_operand s1 0 s2) by (by eapply so_write).
        assert (Hk : kept s2) by (eapply (transfer_kept _ s1); [by apply shares_kept|by left]).
        destruct (stack_finish s2 (u64 (view vcpuid s0 VM_REG_GUEST_RSP + stack_operand)) Hk) as (s4 & E4 & A4);
          [apply u64_in_u|rewrite Ep; by apply low_u64|].
        unfold wp. rewrite E4. eapply sk_moved; [done|rewrite Ep; exact Ht|done].
  - intros s1 _ H1. by apply sk_fault.
  - intros s1 _ H1. by apply sk_nomem.
Qed.
End Strings.

(** C19: One execution of MOVS with an MMIO operand.  A repeated instruction
    whose count, by the address size, is zero does nothing.  Otherwise the
    source is the operand at RSI in DS or the segment of a prefix, the
    destination the one at RDI in ES.  Either a segmentation, alignment or page
    fault on one of them is injected before any device is accessed and before
    any register changes; or an address has no translation, or a handler fails,
    and the registers are unchanged; or exactly one operand is transferred,
    from memory to the region, from the region to memory or between regions,
    RSI and RDI move by its size in the direction of the DF flag, the count
    goes down, and the instruction is executed again exactly if the count is
    not zero.  The assertion at the end fails exactly when a handler returned
    an error other than [EFAULT]; see [movs_einval_aborts].  The handlers of the
    region return. *)
Theorem movs_correct {X D : Type} `{!VmmOps X, !VmmLaws X} (others : nat -> nat -> vm X D -> vm X D) N
    (memread : Z -> Z -> cmd (vm X D) (Z * Z)) (memwrite : Z -> Z -> Z -> cmd (vm X D) Z)
    (Hmmio : MmioLaws memread memwrite) vcpuid gpa paging v (s : vm X D)
    (Hi : is_vcpu vcpuid) (Hready : ready others N vcpuid paging s) (Hv : string_ok paging v) :
  exists e s', movs_result others N memread memwrite vcpuid gpa paging v s e s' /\
    emulate_movs others (S (S N)) memread memwrite vcpuid gpa v paging s = if movs_asserted e then Return (e, s') else Panic.
Proof. by apply movs_spec. Qed.

(** One execution of STOS: nothing if the count is zero, else one write of
    the accumulator, then RDI moves, the count goes down and the instruction
    is executed again exactly if the count is not zero.  A failed write leaves
    the registers alone. *)
Theorem stos_correct {X D : Type} `{!VmmOps X, !VmmLaws X} (others : nat -> nat -> vm X D -> vm X D) N
    (memread : Z -> Z -> cmd (vm X D) (Z * Z)) (memwrite : Z -> Z -> Z -> cmd (vm X D) Z)
    (Hmmio : MmioLaws memread memwrite) vcpuid gpa paging v (s : vm X D)
    (Hi : is_vcpu vcpuid) (Hready : ready others N vcpuid paging s) (Hv : string_ok paging v) :
  exists e s', emulate_stos memwrite vcpuid gpa v s = Return (e, s') /\
    stos_result memwrite vcpuid gpa v e s s'.
Proof. eapply stos_spec; try done. by eapply st_addr. Qed.

(** One execution of PUSH or POP with an MMIO operand outside real mode: a
    fault without any device access, an error with the registers unchanged, or
    the operand moved between the region and the stack and the stack pointer
    adjusted at the width the mode and the stack segment give it. *)
Theorem stack_correct {X D : Type} `{!VmmOps X, !VmmLaws X} (others : nat -> nat -> vm X D -> vm X D) N uninit
    (memread : Z -> Z -> cmd (vm X D) (Z * Z)) (memwrite : Z -> Z -> Z -> cmd (vm X D) Z)
    (Hmmio : MmioLaws memread memwrite) vcpuid gpa paging v (s : vm X D)
    (Hi : is_vcpu vcpuid) (Hready : ready others N vcpuid paging s) (Hv : string_ok paging v)
    (Hmode : cpu_mode paging <> CPU_MODE_REAL) :
  exists e s', emulate_stack_op others (S (S N)) uninit memread memwrite vcpuid gpa v paging s = Return (e, s') /\
    stack_result memread memwrite vcpuid gpa paging v s e s'.
Proof. by apply stack_spec. Qed.

(** ** Examples *)

Definition idle_others : nat -> nat -> vm regs Z -> vm regs Z := fun _ _ s => s.

(** Linear page 5 is mapped; the stack is there too. *)
Definition string_machine : vm regs Z :=
  let s := paged in
  mk_vm (fun _ r => match r with
                    | VM_REG_GUEST_RCX => 2 | VM_REG_GUEST_RSI => 0x5100 | VM_REG_GUEST_RDI => 0xfee00000
                    | VM_REG_GUEST_RSP => 0x5800 | VM_REG_GUEST_RIP => 0x1000 | VM_REG_GUEST_RAX => 0x1234
                    | _ => 0 end)
    7 (active_cpus s) (suspend s) (suspended_cpus s) (mem_segs s) (next_object s) (host_mem s) (vcpus s) (notices s).

Definition rep_movsl : vie := vie_zero <| decoded := true |> <| op := one_byte_opcodes 0xA5 |>
  <| opsize := 4 |> <| addrsize := 8 |> <| repz_present := true |>.
Definition rep_stosb : vie := rep_movsl <| op := one_byte_opcodes 0xAA |>.
Definition push_mem : vie := rep_movsl <| op := one_byte_opcodes 0xFF |> <| reg := 6 |>.

Lemma string_machine_ready : ready idle_others 0 0 paging64 string_machine.
Proof.
  split; try done.
  - destruct paged_segs. by split.
  - exact paged_bytes.
  - split; [done|by right].
  - by intros attempt k s Hs.
Qed.

Lemma string_vie_ok o n r : known_op o -> n ∈ [2; 4; 8] -> r in_u 3 ->
  string_ok paging64 (rep_movsl <| op := o |> <| opsize := n |> <| reg := r |>).
Proof.
  intros Ho Hn Hr. split.
  - split; cbn; try done; try lia; try (unfold size_in; member); by repeat constructor.
  - split; unfold size_in; cbn; [member|done].
Qed.

Lemma movs_correct_witness :
  exists e s', movs_result idle_others 0 one_reg_read one_reg_write 0 0xfee00000 paging64 rep_movsl string_machine e s' /\
    emulate_movs idle_others 2 one_reg_read one_reg_write 0 0xfee00000 rep_movsl paging64 string_machine =
    if movs_asserted e then Return (e, s') else Panic.
Proof.
  apply (movs_correct idle_others 0 one_reg_read one_reg_write one_reg_laws 0 0xfee00000 paging64 rep_movsl string_machine).
  - by vm_compute.
  - exact string_machine_ready.
  - apply (string_vie_ok (one_byte_opcodes 0xA5) 4 0); [left; by exists 0xA5|member|by vm_compute].
Defined.

(** It moves four bytes from linear address 0x5100 to the register. *)
Example movs_moves :
  movs_src 0 paging64 rep_movsl string_machine = 0x5100 /\ movs_dst 0 paging64 rep_movsl string_machine = 0xfee00000 /\
  match emulate_movs idle_others 2 one_reg_read one_reg_write 0 0xfee00000 rep_movsl paging64 string_machine with
  | Return (e, s') => e = 0 /\ cookie s' 0 VM_REG_GUEST_RSI = 0x5104 /\ cookie s' 0 VM_REG_GUEST_RDI = 0xfee00004 /\ cookie s' 0 VM_REG_GUEST_RCX = 1
  | _ => False
  end.
Proof. by vm_compute. Qed.

Lemma stos_correct_witness :
  exists e s', emulate_stos one_reg_write 0 0xfee00000 rep_stosb string_machine = Return (e, s') /\
    stos_result one_reg_write 0 0xfee00000 rep_stosb e string_machine s'.
Proof.
  apply (stos_correct idle_others 0 one_reg_read one_reg_write one_reg_laws 0 0xfee00000 paging64 rep_stosb string_machine).
  - by vm_compute.
  - exact string_machine_ready.
  - apply (string_vie_ok (one_byte_opcodes 0xAA) 4 0); [left; by exists 0xAA|member|by vm_compute].
Defined.

Lemma stack_correct_witness :
  exists e s', emulate_stack_op idle_others 2 no_desc one_reg_read one_reg_write 0 0xfee00000 push_mem paging64 string_machine
      = Return (e, s') /\
    stack_result one_reg_read one_reg_write 0 0xfee00000 paging64 push_mem string_machine e s'.
Proof.
  apply (stack_correct idle_others 0 no_desc one_reg_read one_reg_write one_reg_laws 0 0xfee00000 paging64 push_mem string_machine).
  - by vm_compute.
  - exact string_machine_ready.
  - apply (string_vie_ok (one_byte_opcodes 0xFF) 4 6); [left; by exists 0xFF|member|by vm_compute].
  - discriminate.
Defined.

(** The first of two iterations, and a push of the device register. *)
Example rep_movsl_runs :
  match emulate_movs idle_others 2 one_reg_read one_reg_write 0 0xfee00000 rep_movsl paging64 string_machine with
  | Return (e, s') => e = 0 /\ view 0 s' VM_REG_GUEST_RCX = 1 /\ view 0 s' VM_REG_GUEST_RSI = 0x5104 /\
      nextrip (get_vcpu 0 s') = 0x1000 /\ devices s' = 0
  | _ => False end.
Proof. vm_compute. done. Qed.

Example push_mem_runs :
  match emulate_stack_op idle_others 2 no_desc one_reg_read one_reg_write 0 0xfee00000 push_mem paging64 string_machine with
  | Return (e, s') => e = 0 /\ view 0 s' VM_REG_GUEST_RSP = 0x57f8 /\ host_mem s' (1, 0x97f8) = 7
  | _ => False end.
Proof. vm_compute. done. Qed.

(** A handler that fails with [EINVAL], as [lapic_mmio_write] does for an access
    that is not four bytes wide, makes MOVS abort the monitor. *)
Example movs_einval_aborts :
  emulate_movs idle_others 2 one_reg_read (fun _ _ _ => ret EINVAL) 0 0xfee00000 rep_movsl paging64 string_machine = Panic.
Proof. vm_compute. reflexivity. Qed.
