(* ===== verification/InstEmul.v ===== *)
(** * Instruction emulation exits (src/src/vmm/vmm.c, src/src/vmm/vmm_instruction_emul.c)

    [vm_handle_inst_emul] handles a VM exit for an access to memory that is not
    mapped: it fetches the instruction at the guest's instruction pointer,
    decodes it, finds the device in the monitor that owns the address and
    emulates the instruction with the handlers of that device.  The handlers
    of the local APIC, the I/O APIC and the HPET are parameters; the contents
    of the guest's memory, and with them the instruction bytes, are
    arbitrary. *)

From S2P Require Import Prelude Effects VmmCommon VieDecode Vmm Paging VieEmul VieRefine VieString.

Local Open Scope cmd_scope.

Definition VIOAPIC_BASE : Z := 0xfec00000.
Definition VIOAPIC_SIZE : Z := 0x1000.
Definition VHPET_BASE : Z := 0xfed00000.
Definition VHPET_SIZE : Z := 0x400.

(** [vme->u.inst_emul]. *)
Record inst_emul : Type := mk_inst_emul {
  ie_gpa : Z;
  ie_gla : Z;
  ie_cs_base : Z;
  ie_cs_d : bool;
  ie_paging : vm_guest_paging;
  ie_vie : vie;
}.

(** The devices emulated in the monitor. *)
Inductive mmio_device : Type := LocalApic | IoApic | Hpet.

Definition mmio_owner (gpa : Z) : option mmio_device :=
  if (DEFAULT_APIC_BASE <=? gpa) && (gpa <? DEFAULT_APIC_BASE + XHYVE_PAGE_SIZE) then Some LocalApic
  else if (VIOAPIC_BASE <=? gpa) && (gpa <? VIOAPIC_BASE + VIOAPIC_SIZE) then Some IoApic
  else if (VHPET_BASE <=? gpa) && (gpa <? VHPET_BASE + VHPET_SIZE) then Some Hpet
  else None.

Section Exit.
Context {X D : Type} `{!VmmOps X}.
Local Abbreviation M := (vm X D).
Context (others : nat -> nat -> M -> M) (fuel : nat) (host_flags : Z) (uninit_desc : seg_desc).
Context (mread : mmio_device -> Z -> Z -> cmd M (Z * Z)) (mwrite : mmio_device -> Z -> Z -> Z -> cmd M Z).
(** Did a handler set [*retu]? *)
Context (asks_return : M -> bool).
Context (vcpuid : Z).

(** Error, fault and the instruction with the bytes fetched. *)
Definition vmm_fetch_instruction (paging : vm_guest_paging) (rip inst_length : Z) (v : vie) : cmd M (Z * bool * vie) :=
  if VIE_INST_SIZE <? inst_length then fun _ => Panic else
  r <- vm_copy_setup others vcpuid fuel paging rip inst_length (Z.lor XHYVE_PROT_READ XHYVE_PROT_EXECUTE) 2 ;;
  let '(error, fault, copyinfo) := r in
  if negb (error =? 0) || fault then ret (error, fault, v) else
  bytes <- vm_copyin copyinfo inst_length ;;
  ret (0, false, v <| inst ::= fun b => bytes ++ drop (length bytes) b |> <| num_valid := u8 inst_length |>).

(** [vmm_decode_instruction] on the instruction of the exit. *)
Definition decode_here (gla : Z) (m : vm_cpu_mode) (cs_d : bool) (v : vie) : cmd M (Z * vie) := fun s =>
  let get r := match vm_get_register (X := X) (D := D) vcpuid r s with Return (a, _) => a | _ => (EINVAL, 0) end in
  match vmm_decode_instruction get gla m cs_d v with
  | Return (e, v') => Return ((e, v'), s)
  | Panic => Panic
  | Hang => Hang
  end.

(** Result: return value, [*retu] and the instruction, which stays in the exit
    information for user space. *)
Definition vm_handle_inst_emul (x : inst_emul) : cmd M (Z * bool * vie) :=
  let paging := ie_paging x in
  let v := ie_vie x in
  fetched <-
    (if num_valid v =? 0 then
       len <- gets (fun s => inst_length (get_vcpu vcpuid s)) ;;
       rip <- gets (fun s => exit_rip (get_vcpu vcpuid s)) ;;
       vmm_fetch_instruction paging (u64 (rip + ie_cs_base x)) (if len =? 0 then VIE_INST_SIZE else len) v
     else ret (0, false, v)) ;;
  let '(error, fault, v) := fetched in
  if negb (error =? 0) || fault then ret (error, false, v) else
  d <- decode_here (ie_gla x) (cpu_mode paging) (ie_cs_d x) v ;;
  let '(error, v) := d in
  if negb (error =? 0) then ret (0, true, v) else
  len <- gets (fun s => inst_length (get_vcpu vcpuid s)) ;;
  when (len =? 0) (on_vcpu vcpuid (fun w => w <| inst_length := num_processed v |>
                                              <| nextrip ::= fun n => u64 (n + num_processed v) |>)) ;;;
  match mmio_owner (ie_gpa x) with
  | None => ret (0, true, v)
  | Some dev =>
      error <- vmm_emulate_instruction others fuel host_flags uninit_desc (mread dev) (mwrite dev)
                 vcpuid (ie_gpa x) v paging ;;
      retu <- gets asks_return ;;
      ret (error, retu, v)
  end.
End Exit.

(** ** Emulation ends *)
Section Total.
Context {X D : Type} `{!VmmOps X, !VmmLaws X}.
Local Abbreviation M := (vm X D).
Implicit Types s : M.
Context (others : nat -> nat -> M -> M) (N : nat) (host_flags : Z) (uninit : seg_desc).
Context (memread : Z -> Z -> cmd M (Z * Z)) (memwrite : Z -> Z -> Z -> cmd M Z) `{!MmioLaws memread memwrite}.
Context (vcpuid : Z) (Hi : is_vcpu vcpuid) (gpa : Z) (paging : vm_guest_paging) (v : vie).

Lemma refines_keeps c e s : refines memread memwrite vcpuid gpa c e s ->
  exists err s', c s = Return (err, s') /\ (err <> 0 -> forall r, view vcpuid s' r = view vcpuid s r).
Proof.
  intros (err & f & s1 & s' & Hc & Hr & Ha). exists err, s'. split; [done|]. intros Hne r.
  rewrite (ag_regs _ _ _ _ Ha). destruct e as [e|]; cbn [run_effect] in Hr; [|by injection Hr as <- <- <-].
  unfold bind, ret in Hr. repeat case_match; simplify_eq; try done; bools; done.
Qed.

(** The opcode tables mark no stack instruction as having no ModRM byte. *)
Lemma stack_has_modrm o : known_op o -> op_type o = VIE_OP_TYPE_PUSH \/ op_type o = VIE_OP_TYPE_POP ->
  tst (op_flags o) VIE_OP_F_NO_MODRM = false.
Proof.
  intros [[x ->]|[x ->]]; unfold one_byte_opcodes, two_byte_opcodes; repeat case_match; intros [H'|H']; done.
Qed.

(** A MOVS whose device answered with an error that its assertion rejects. *)
Definition movs_aborts s : Prop := op_type (op v) = VIE_OP_TYPE_MOVS /\
  exists e s', exchange others N memread memwrite vcpuid gpa paging v s (movs_size v) e s' /\ e <> 0 /\ e <> EFAULT.

(** How an emulation ends: with an error only under an unchanged CPU. *)
Definition ends (c : cmd M Z) s : Prop :=
  (exists e s', c s = Return (e, s') /\ (e <> 0 -> forall r, view vcpuid s' r = view vcpuid s r)) \/ (c s = Panic /\ movs_aborts s).

(** The devices and the memory change under an unchanged CPU. *)
Lemma movs_ends s : op_type (op v) = VIE_OP_TYPE_MOVS -> ready others N vcpuid paging s -> string_ok paging v ->
  ends (emulate_movs others (S (S N)) memread memwrite vcpuid gpa v paging) s.
Proof.
  intros Ht Hready Hst. destruct (movs_spec others N memread memwrite vcpuid Hi gpa paging v s Hready Hst) as (e & s' & Hres & E).
  destruct (movs_asserted e) eqn:Ea.
  - left. exists e, s'. split; [exact E|]. intros He r.
    destruct Hres as [_|s' _ _ _|s' _ _ Hs|e s' _ Hx _|s2 s' _ _ _]; try done.
    + by rewrite (kept_view vcpuid s s') by (by apply shares_kept).
    + destruct (exchange_transfer _ _ _ _ _ _ _ _ _ _ _ _ Hx) as (s1 & Hs & Hx'). rewrite (kept_view vcpuid s s'); [done|].
      eapply transfer_kept; [done|by apply shares_kept|exact Hx'].
  - right. split; [exact E|]. split; [exact Ht|]. unfold movs_asserted in Ea. rewrite orb_false_iff, !Z.eqb_neq in Ea.
    exists e, s'. destruct Hres; tauto.
Qed.

Lemma stos_keeps s : ready others N vcpuid paging s -> string_ok paging v ->
  exists e s', emulate_stos memwrite vcpuid gpa v s = Return (e, s') /\
    (e <> 0 -> forall r, view vcpuid s' r = view vcpuid s r).
Proof.
  intros Hready Hst. edestruct (stos_spec others N memread memwrite vcpuid Hi gpa paging v s Hready)
    as (e & s' & E & Hres); [by eapply st_addr|]. exists e, s'. split; [exact E|]. intros He r.
  unfold stos_result in Hres. split_if_in Hres; [by destruct Hres|].
  destruct Hres as (s1 & Ew & Hs'). rewrite (proj2 (Z.eqb_neq e 0) He) in Hs'. subst s'.
  destruct (mwrite_returns gpa (view vcpuid s VM_REG_GUEST_RAX) (stos_size v) s) as (e1 & q & E1 & Hd).
  rewrite Ew in E1. simplify_eq. by apply device_view.
Qed.

Lemma stack_keeps s : ready others N vcpuid paging s -> string_ok paging v -> cpu_mode paging <> CPU_MODE_REAL ->
  exists e s', emulate_stack_op others (S (S N)) uninit memread memwrite vcpuid gpa v paging s = Return (e, s') /\
    (e <> 0 -> forall r, view vcpuid s' r = view vcpuid s r).
Proof.
  intros Hready Hst Hm. destruct (stack_spec others N uninit memread memwrite vcpuid Hi gpa paging v s Hready Hst Hm)
    as (e & s' & E & Hres). exists e, s'. split; [exact E|]. intros He r.
  destruct Hres as [s' _|s' Hs|e s1 s' Hs Ht _|s1 s2 s' _ _ _]; try done.
  - by rewrite (kept_view vcpuid s s') by (by apply shares_kept).
  - rewrite (kept_view vcpuid s s'); [done|].
    assert (transfer memread memwrite gpa s (stack_operand paging v) s1 e s').
    { destruct (pushes v); [right; left; exact Ht|left; exact Ht]. }
    eapply transfer_kept; [done|by apply shares_kept|done].
Qed.

Lemma emulate_total m s : ready others N vcpuid paging s -> m = cpu_mode paging -> well_decoded m v ->
  ends (vmm_emulate_instruction others (S (S N)) host_flags uninit memread memwrite vcpuid gpa v paging) s.
Proof.
  intros Hready -> Hd. assert (Hst : string_ok paging v) by (split; apply Hd).
  unfold vmm_emulate_instruction. rewrite (wd_decoded _ _ Hd). cbn [negb].
  pose proof (wd_fields _ _ Hd) as Hok. pose proof (wd_sizes _ _ Hd) as Hsz.
  assert (Hsimple : simple_op (op_type (op v)) = true -> exists e s',
    vmm_emulate_instruction others (S (S N)) host_flags uninit memread memwrite vcpuid gpa v paging s =
      Return (e, s') /\ (e <> 0 -> forall r, view vcpuid s' r = view vcpuid s r)).
  { intros Hs. eapply refines_keeps. by eapply emulate_simple. }
  unfold vmm_emulate_instruction in Hsimple. rewrite (wd_decoded _ _ Hd) in Hsimple. cbn [negb] in Hsimple.
  assert (Hreject : exists e s', (ret EINVAL : cmd M Z) s = Return (e, s') /\
    (e <> 0 -> forall r, view vcpuid s' r = view vcpuid s r)) by (by exists EINVAL, s).
  assert (Hmodrm : op_type (op v) = VIE_OP_TYPE_PUSH \/ op_type (op v) = VIE_OP_TYPE_POP ->
    cpu_mode paging <> CPU_MODE_REAL).
  { intros Ht Hm. pose proof (wd_real _ _ Hd Hm). by rewrite stack_has_modrm in * by (try apply Hok; done). }
  unfold ends. destruct (op_type (op v)) eqn:Et; try (left; by apply Hsimple).
  - left. unfold emulate_push. split_if; [done|]. by apply stack_keeps; auto.
  - left. unfold emulate_pop. split_if; [done|]. by apply stack_keeps; auto.
  - by apply movs_ends.
  - left. by apply stos_keeps.
Qed.
End Total.

(** ** Code that may abort *)

(** [c] returns with [Q], or aborts for the reason [A]. *)
Definition wpa {S B} (c : cmd S B) (Q : B -> S -> Prop) (A : Prop) (s : S) : Prop :=
  match c s with Return (b, s') => Q b s' | Panic => A | Hang => False end.

Lemma wpa_wp {S B} (c : cmd S B) Q A s : wp c Q s -> wpa c Q A s.
Proof. unfold wp, wpa. by destruct (c s) as [[b s']| |]. Qed.

Lemma wpa_bind {S B C} (c : cmd S B) (k : B -> cmd S C) Q A s : wpa c (fun b s' => wpa (k b) Q A s') A s -> wpa (bind c k) Q A s.
Proof. unfold wpa, bind. by destruct (c s) as [[b s']| |]. Qed.

Lemma wpa_after {S B C} (c : cmd S B) (k : B -> cmd S C) Q A s : wp c (fun b s' => wpa (k b) Q A s') s -> wpa (bind c k) Q A s.
Proof. intros H. by apply wpa_bind, wpa_wp. Qed.

(** ** The exit handler ends *)
Section Handler.
Context {X D : Type} `{!VmmOps X, !VmmLaws X}.
Local Abbreviation M := (vm X D).
Implicit Types s : M.
Context (others : nat -> nat -> M -> M) (N : nat) (host_flags : Z) (uninit : seg_desc).
Context (mread : mmio_device -> Z -> Z -> cmd M (Z * Z)) (mwrite : mmio_device -> Z -> Z -> Z -> cmd M Z).
Context (Hlaws : forall dev, MmioLaws (mread dev) (mwrite dev)).
Context (asks_return : M -> bool) (vcpuid : Z) (Hi : is_vcpu vcpuid).

(** The other CPUs only write bytes to guest memory. *)
Definition memory_only : Prop := forall a k s,
  others a k s = s <| host_mem := host_mem (others a k s) |> /\
  (bytes_ok (host_mem s) -> bytes_ok (host_mem (others a k s))).
Context (Hmem : memory_only).

Lemma memory_only_tame s0 : tame others s0.
Proof.
  intros a k s [E Hb]. destruct (Hmem a k s) as [E' Hb']. split; [|by apply Hb'].
  rewrite E'. cbn. rewrite E. done.
Qed.

Lemma ready_shares paging s0 s : ready others N vcpuid paging s0 -> shares s0 s -> ready others N vcpuid paging s.
Proof.
  intros [H1 H2 [] H4 H5 H6 H7 H8 H9] [E Hb]. split; try done; by rewrite E.
Qed.

Lemma ready_vcpu paging s f : ready others N vcpuid paging s ->
  (forall w, exception_pending (f w) = exception_pending w /\ state (f w) = state w) ->
  ready others N vcpuid paging (s <| vcpus ::= alter f (Z.to_nat vcpuid) |>).
Proof.
  intros [H1 H2 [] H4 H5 H6 H7 H8 H9] Hf. split; try done.
  - by apply has_vcpus_alter.
  - unfold can_inject in *. rewrite get_vcpu_alter by done.
    destruct (Hf (get_vcpu vcpuid s)) as [-> ->]. done.
  - apply memory_only_tame.
Qed.

(** *** The bytes fetched *)

Lemma total_pos pages : Forall page_piece pages -> 0 <= total pages.
Proof. induction 1 as [|p l [Hp _] _ IH]; cbn; [lia|]. unfold total in IH. lia. Qed.

Lemma copyin_length s pages l m : Forall page_piece pages -> Forall2 (backs s) pages l ->
  length (copyin_loop l (total pages) m) = Z.to_nat (total pages).
Proof.
  intros Hp Hl. induction Hl as [|p c pages l [_ Hc] Hl IH]; [done|].
  apply Forall_cons in Hp as [[Hpos _] Hp]. pose proof (total_pos pages Hp) as Ht.
  assert (total (p :: pages) = p.2 + total pages) as -> by done.
  cbn [copyin_loop]. rewrite (proj2 (Z.ltb_lt _ _)) by lia. rewrite length_app, length_read_bytes.
  replace (p.2 + total pages - ci_len c) with (total pages) by lia. rewrite IH by done. lia.
Qed.

Lemma copyin_bytes l n m : bytes_ok m -> Forall (fun b => b in_u 8) (copyin_loop l n m).
Proof.
  intros Hm. revert n. induction l as [|c l IH]; intros n; cbn; [done|]. split_if; [|done].
  apply Forall_app_2; [by apply read_bytes_range|apply IH].
Qed.

(** The instruction after a fetch can be decoded. *)
Lemma fetched_ok v bytes n : vie_ok v -> num_valid v = 0 -> 0 <= n <= 15 -> length bytes = Z.to_nat n ->
  Forall (fun b => b in_u 8) bytes ->
  vie_ok (v <| inst ::= fun b => bytes ++ drop (length bytes) b |> <| num_valid := u8 n |>).
Proof.
  intros Hok Hv Hn Hl Hb. destruct Hok. rewrite u8_id by (change (2 ^ 8) with 256; lia).
  split; cbn; try done; try lia.
  - rewrite length_app, length_drop. lia.
  - apply Forall_app_2; [done|by apply Forall_drop].
Qed.

Lemma fetch_spec paging rip n v s : ready others N vcpuid paging s -> rip in_u 64 -> 0 <= n <= 15 ->
  vie_ok v -> num_valid v = 0 -> decoded v = false ->
  wp (vmm_fetch_instruction others (S (S N)) vcpuid paging rip n v)
     (fun r s' => let '(error, fault, v') := r in
        (error = 0 /\ fault = false /\ shares s s' /\ vie_ok v' /\ decoded v' = false) \/
        (fault = true /\ error = 0) \/ (error = EFAULT /\ fault = false /\ shares s s')) s.
Proof.
  intros Hready Hrip Hn Hok Hv Hd. unfold vmm_fetch_instruction.
  rewrite (proj2 (Z.ltb_ge _ _)) by (unfold VIE_INST_SIZE; lia). apply wp_bind. pose proof Hready as [].
  eapply wp_conseq.
  - apply copy_setup_wp with (s0 := s) (N := N); try done; [by eapply shares_refl|lia|].
    pose proof (Z.mod_pos_bound rip XHYVE_PAGE_SIZE ltac:(done)). unfold XHYVE_PAGE_SIZE in *. lia.
  - intros r s1 [(pages & l & -> & H1 & H2 & H3 & H4)|[[-> H1]|[-> H1]]]; cbn [Z.eqb negb orb];
      [|apply wp_ret; by auto..].
    apply wp_bind, wp_gets, wp_ret. left. split; [done|]. split; [done|]. split; [done|].
    split; [|done]. apply fetched_ok; try done.
    + rewrite <- H3. by eapply copyin_length.
    + apply copyin_bytes. by destruct H1.
Qed.

(** The fields of the exit are in range and the instruction is not decoded yet. *)
Record exit_ok (x : inst_emul) s : Prop := {
  eo_vie : vie_ok (ie_vie x);
  eo_fresh : decoded (ie_vie x) = false;
  eo_length : 0 <= inst_length (get_vcpu vcpuid s) <= 15;
}.

(** The instruction was a MOVS that a device of the monitor refused. *)
Definition exit_aborts (x : inst_emul) : Prop := exists dev v s, mmio_owner (ie_gpa x) = Some dev /\
  movs_aborts others N (mread dev) (mwrite dev) vcpuid (ie_gpa x) (ie_paging x) v s.

(** Decoding and emulation. *)
Lemma after_fetch x v s : ready others N vcpuid (ie_paging x) s -> vie_ok v -> decoded v = false ->
  wpa (d <- decode_here vcpuid (ie_gla x) (cpu_mode (ie_paging x)) (ie_cs_d x) v ;;
      let '(error, v) := d in
      if negb (error =? 0) then ret (0, true, v) else
      len <- gets (fun s => inst_length (get_vcpu vcpuid s)) ;;
      when (len =? 0) (on_vcpu vcpuid (fun w => w <| inst_length := num_processed v |>
                                                  <| nextrip ::= fun n => u64 (n + num_processed v) |>)) ;;;
      match mmio_owner (ie_gpa x) with
      | None => ret (0, true, v)
      | Some dev =>
          error <- vmm_emulate_instruction others (S (S N)) host_flags uninit (mread dev) (mwrite dev)
                     vcpuid (ie_gpa x) v (ie_paging x) ;;
          retu <- gets asks_return ;;
          ret (error, retu, v)
      end) (fun r s' => r.1.1 <> 0 -> forall q, view vcpuid s' q = view vcpuid s q) (exit_aborts x) s.
Proof.
  intros Hready Hv Hd.
  set (get := fun r => match vm_get_register (X := X) (D := D) vcpuid r s with Return (a, _) => a | _ => (EINVAL, 0) end).
  destruct (wp_elim _ _ _ (decode_from_ok get (ie_gla x) (cpu_mode (ie_paging x)) (ie_cs_d x) v Hv Hd))
    as (e & v' & Ed & _ & Hres).
  assert (Eh : decode_here vcpuid (ie_gla x) (cpu_mode (ie_paging x)) (ie_cs_d x) v s = Return ((e, v'), s)).
  { unfold decode_here. fold get. by rewrite Ed. }
  unfold wpa. rewrite (bind_return _ _ _ _ _ Eh). clear Eh Ed.
  destruct Hres as [[-> Hw]|[-> _]]; cbn [Z.eqb negb]; [|done].
  apply wpa_after, wp_gets, wpa_after. set (s1 := if inst_length (get_vcpu vcpuid s) =? 0 then
    s <| vcpus ::= alter (fun w => w <| inst_length := num_processed v' |>
                                    <| nextrip ::= fun n => u64 (n + num_processed v') |>) (Z.to_nat vcpuid) |> else s).
  assert (Hr1 : ready others N vcpuid (ie_paging x) s1) by (unfold s1; split_if; [by apply ready_vcpu|done]).
  assert (Hv1 : view vcpuid s1 = view vcpuid s) by (unfold s1; by split_if).
  match goal with |- wp _ ?Q _ => assert (HQ : Q tt s1) end.
  2: { apply wp_when; intros E; [apply wp_update|]; unfold s1 in HQ; by rewrite E in HQ. }
  cbv beta. destruct (mmio_owner (ie_gpa x)) as [dev|] eqn:Eo; [|by apply wpa_wp, wp_ret].
  destruct (emulate_total others N host_flags uninit (mread dev) (mwrite dev) vcpuid Hi (ie_gpa x)
    (ie_paging x) v' _ s1 Hr1 eq_refl Hw) as [(err & s2 & E2 & K2)|[E2 Ha]].
  - unfold wpa. rewrite (bind_return _ _ _ _ _ E2). cbn. rewrite <- Hv1. exact K2.
  - unfold wpa, bind. rewrite E2. by exists dev, v', s1.
Qed.

Lemma handle_spec x s : ready others N vcpuid (ie_paging x) s -> exit_ok x s ->
  wpa (vm_handle_inst_emul others (S (S N)) host_flags uninit mread mwrite asks_return vcpuid x)
     (fun r s' => r.1.1 <> 0 -> forall q, view vcpuid s' q = view vcpuid s q) (exit_aborts x) s.
Proof.
  intros Hready [Hok Hfresh Hlen]. unfold vm_handle_inst_emul. apply wpa_after.
  apply (wp_conseq _ (fun r s' => let '(error, fault, v') := r in
        (error = 0 /\ fault = false /\ shares s s' /\ vie_ok v' /\ decoded v' = false) \/
        (fault = true /\ error = 0) \/ (error = EFAULT /\ fault = false /\ shares s s'))).
  - destruct (Z.eqb_spec (num_valid (ie_vie x)) 0) as [E|E].
    + wp_go. apply fetch_spec; try done; [apply u64_in_u|]. split_if; unfold VIE_INST_SIZE; lia.
    + apply wp_ret. left. split; [done|]. split; [done|]. split; [by eapply shares_refl|]. done.
  - intros [[error fault] v] s1 [(-> & -> & Hs & Hv & Hd)|[[-> ->]|(-> & -> & Hs)]]; cbn [Z.eqb negb orb].
    + pose proof (ready_shares _ _ _ Hready Hs) as Hr1.
      rewrite <- (kept_view vcpuid s s1) by (by apply shares_kept). by apply after_fetch.
    + by apply wpa_wp, wp_ret.
    + apply wpa_wp, wp_ret. intros _ q. by rewrite (kept_view vcpuid s s1) by (by apply shares_kept).
Qed.
End Handler.

(** ** Devices that do not return *)

(** [c] is [c'], except that it may stop. *)
Definition may_stop {S A} (c c' : cmd S A) : Prop := forall s, c s = c' s \/ c s = Panic \/ c s = Hang.

Lemma may_stop_refl {S A} (c : cmd S A) : may_stop c c.
Proof. intros s. by left. Qed.
Lemma may_stop_bind {S A B} (c c' : cmd S A) (k k' : A -> cmd S B) : may_stop c c' -> (forall a, may_stop (k a) (k' a)) -> may_stop (bind c k) (bind c' k').
Proof.
  intros Hc Hk s. unfold bind. destruct (Hc s) as [E|[E|E]]; rewrite E; [|by auto..]. destruct (c' s) as [[a s1]| |]; [apply Hk|by auto..].
Qed.

Section Answering.
Context {X D : Type} `{!VmmOps X}.
Local Abbreviation M := (vm X D).
Context (memread : Z -> Z -> cmd M (Z * Z)) (memwrite : Z -> Z -> Z -> cmd M Z).

(** What is asked of handlers that may fail to return. *)
Record MmioFrame : Prop := {
  frame_read gpa n s e x s' : memread gpa n s = Return ((e, x), s') -> x in_u 64 /\ device_step s s';
  frame_write gpa x n s e s' : memwrite gpa x n s = Return (e, s') -> device_step s s';
  frame_low gpa x n s : memwrite gpa x n s = memwrite gpa (low n x) n s;
}.

(** The same handlers, but with [EFAULT] where they do not return. *)
Definition answer_read (gpa n : Z) : cmd M (Z * Z) := fun s => match memread gpa n s with Return r => Return r | _ => Return ((EFAULT, 0), s) end.
Definition answer_write (gpa x n : Z) : cmd M Z := fun s => match memwrite gpa x n s with Return r => Return r | _ => Return (EFAULT, s) end.

Lemma answer_laws : MmioFrame -> MmioLaws answer_read answer_write.
Proof.
  intros [Hr Hw Hl]. split.
  - intros gpa n s. unfold answer_read. destruct (memread gpa n s) as [[[e x] s']| |] eqn:E.
    1: { destruct (Hr _ _ _ _ _ _ E). by exists e, x, s'. }
    all: exists EFAULT, 0, s; (split; [done|]); (split; [lia|by destruct s]).
  - intros gpa x n s. unfold answer_write. destruct (memwrite gpa x n s) as [[e s']| |] eqn:E.
    1: { exists e, s'. split; [done|]. by apply (Hw _ _ _ _ _ _ E). }
    all: exists EFAULT, s; (split; [done|by destruct s]).
  - intros gpa x n s. unfold answer_write. by rewrite Hl.
Qed.

Lemma laws_frame : MmioLaws memread memwrite -> MmioFrame.
Proof.
  intros [Hr Hw Hl]. split; [| |done].
  - intros gpa n s e x s' E. destruct (Hr gpa n s) as (e1 & x1 & s1 & E1 & Hx). rewrite E in E1. by injection E1 as <- <- <-.
  - intros gpa x n s e s' E. destruct (Hw gpa x n s) as (e1 & s1 & E1 & Hx). rewrite E in E1. by injection E1 as <- <-.
Qed.

Lemma answer_read_inv gpa n s e x s' : answer_read gpa n s = Return ((e, x), s') -> e <> EFAULT -> memread gpa n s = Return ((e, x), s').
Proof. unfold answer_read. destruct (memread gpa n s); [done|by intros [= <- _ _]..]. Qed.
Lemma answer_write_inv gpa x n s e s' : answer_write gpa x n s = Return (e, s') -> e <> EFAULT -> memwrite gpa x n s = Return (e, s').
Proof. unfold answer_write. destruct (memwrite gpa x n s); [done|by intros [= <- _]..]. Qed.

(** An error that a device reported is the device's own. *)
Lemma answer_exchange others N vcpuid gpa paging v s n e s' :
  exchange others N answer_read answer_write vcpuid gpa paging v s n e s' -> e <> EFAULT ->
  exchange others N memread memwrite vcpuid gpa paging v s n e s'.
Proof.
  intros [l s1 e1 s1' H1 H2 E|l s2 e1 x s3 H1 H2 E|s2 a s3 b s4 e1 x s1' H1 H2 H3 H4 E He|s2 a s3 b s4 x s5 e1 s1' H1 H2 H3 H4 E1 E2] Hne.
  - apply answer_write_inv in E; [|done]. by eapply ex_store.
  - apply answer_read_inv in E; [|done]. by eapply ex_load.
  - apply answer_read_inv in E; [|done]. by eapply ex_failed.
  - apply answer_read_inv in E1; [|done]. apply answer_write_inv in E2; [|done]. by eapply ex_move.
Qed.

Lemma may_stop_read gpa n : may_stop (memread gpa n) (answer_read gpa n).
Proof. intros s. unfold answer_read. destruct (memread gpa n s); auto. Qed.
Lemma may_stop_write gpa x n : may_stop (memwrite gpa x n) (answer_write gpa x n).
Proof. intros s. unfold answer_write. destruct (memwrite gpa x n s); auto. Qed.

Lemma emulate_may_stop others fuel host_flags uninit vcpuid gpa v paging :
  may_stop (vmm_emulate_instruction others fuel host_flags uninit memread memwrite vcpuid gpa v paging)
           (vmm_emulate_instruction others fuel host_flags uninit answer_read answer_write vcpuid gpa v paging).
Proof.
  unfold vmm_emulate_instruction, emulate_group1, emulate_push, emulate_pop, emulate_cmp, emulate_mov, emulate_movx, emulate_movs, emulate_stos, emulate_and,
    emulate_or, emulate_sub, emulate_bittest, emulate_stack_op, movs_transfer, movs_from_mmio, checked, checked_. cbv zeta.
  repeat first
    [ apply may_stop_refl | apply may_stop_read | apply may_stop_write | apply may_stop_bind; [|intros ?]
    | match goal with |- may_stop (match ?x with _ => _ end) _ => destruct x end ].
Qed.
End Answering.

Lemma handle_may_stop {X D : Type} `{!VmmOps X} (others : nat -> nat -> vm X D -> vm X D) fuel host_flags uninit mread mwrite asks_return vcpuid x :
  may_stop (vm_handle_inst_emul others fuel host_flags uninit mread mwrite asks_return vcpuid x)
    (vm_handle_inst_emul others fuel host_flags uninit (fun dev => answer_read (mread dev)) (fun dev => answer_write (mwrite dev)) asks_return vcpuid x).
Proof.
  unfold vm_handle_inst_emul. cbv zeta. apply may_stop_bind; [apply may_stop_refl|]. intros [[e f] v]. destruct (_ || _); [apply may_stop_refl|].
  apply may_stop_bind; [apply may_stop_refl|]. intros [e' v']. destruct (negb _); [apply may_stop_refl|].
  do 2 (apply may_stop_bind; [apply may_stop_refl|]; intros ?). destruct (mmio_owner _) as [dev|]; [|apply may_stop_refl].
  apply may_stop_bind; [apply emulate_may_stop|intros ?; apply may_stop_refl].
Qed.


(** Errors of [vmm_emulate_instruction].  An instruction that was not
    decoded gives [EINVAL] and changes nothing; a decoded one, of whatever
    kind, gives an error only with all registers unchanged, or is a MOVS whose
    device answered with an error other than [EFAULT] and aborts. *)
Theorem emulate_errors {X D : Type} `{!VmmOps X, !VmmLaws X} (others : nat -> nat -> vm X D -> vm X D) N
    host_flags uninit (memread : Z -> Z -> cmd (vm X D) (Z * Z)) (memwrite : Z -> Z -> Z -> cmd (vm X D) Z)
    vcpuid gpa paging v (s : vm X D)
    (Hmmio : MmioLaws memread memwrite) (Hi : is_vcpu vcpuid)
    (Hready : ready others N vcpuid paging s)
    (Hv : decoded v = true -> well_decoded (cpu_mode paging) v)
    (run := vmm_emulate_instruction others (S (S N)) host_flags uninit memread memwrite vcpuid gpa v paging s) :
  (decoded v = false -> run = Return (EINVAL, s)) /\
  ((exists e s', run = Return (e, s') /\ (e <> 0 -> forall q, view vcpuid s' q = view vcpuid s q)) \/
   (run = Panic /\ movs_aborts others N memread memwrite vcpuid gpa paging v s)).
Proof.
  destruct (decoded v) eqn:Ed.
  - split; [done|]. exact (emulate_total others N host_flags uninit memread memwrite vcpuid Hi gpa paging v _ s Hready eq_refl (Hv eq_refl)).
  - assert (E : run = Return (EINVAL, s)) by (unfold run, vmm_emulate_instruction; by rewrite Ed).
    split; [done|]. left. by exists EINVAL, s.
Qed.

(** An exit for an address of the I/O APIC whose instruction is still to be
    fetched, from a page that holds zeros: an instruction that cannot be
    emulated. *)
Definition fetch_exit : inst_emul :=
  mk_inst_emul VIOAPIC_BASE VIE_INVALID_GLA 0x5000 false paging64
    (vie_zero <| base_register := VM_REG_LAST |> <| index_register := VM_REG_LAST |> <| segment_register := VM_REG_LAST |>).

Lemma idle_memory_only : memory_only idle_others.
Proof. intros a k s. split; [by destruct s|done]. Qed.

(** A device that refuses writes. *)
Definition refuse_write : Z -> Z -> Z -> cmd (vm regs Z) Z := fun _ _ _ => ret EINVAL.

Lemma refuse_laws : MmioLaws one_reg_read refuse_write.
Proof.
  split; [apply mread_returns| |done]. intros gpa x n s. exists EINVAL, s. split; [done|]. by destruct s.
Qed.

(** The bytes of an instruction of one or two bytes, not decoded yet. *)
Definition exit_with (gpa : Z) (bytes : list Z) : inst_emul :=
  mk_inst_emul gpa VIE_INVALID_GLA 0x5000 false paging64
    (vie_zero <| inst := bytes ++ replicate (15 - length bytes) 0 |> <| num_valid := Z.of_nat (length bytes) |>
       <| base_register := VM_REG_LAST |> <| index_register := VM_REG_LAST |> <| segment_register := VM_REG_LAST |>).


Example handle_decoded :
  match vm_handle_inst_emul idle_others 2 0 no_desc (fun _ => one_reg_read) (fun _ => refuse_write) (fun _ => false)
      0 (exit_with 0xfee00000 [0x89; 0x02]) string_machine with
  | Return ((error, _, v), _) => error = EINVAL /\ decoded v = true /\ op_byte (op v) = 0x89
  | _ => False end.
Proof. vm_compute. done. Qed.

(** MOVS to such a device aborts the monitor. *)
Example handle_movs_aborts :
  vm_handle_inst_emul idle_others 2 0 no_desc (fun _ => one_reg_read) (fun _ => refuse_write) (fun _ => false)
    0 (exit_with 0xfee00000 [0xA5]) string_machine = Panic.
Proof. by vm_compute. Qed.

Example handle_undecodable :
  match vm_handle_inst_emul idle_others 2 0 no_desc (fun _ => one_reg_read) (fun _ => one_reg_write) (fun _ => false)
      0 fetch_exit string_machine with
  | Return ((error, retu, v), _) => error = 0 /\ retu = true /\ num_valid v = 15 /\ decoded v = false
  | _ => False end.
Proof. vm_compute. done. Qed.

(** A decoded MOV to a device that refuses it. *)
Definition mov_store : vie := vie_zero <| decoded := true |> <| op := one_byte_opcodes 0x89 |> <| opsize := 4 |> <| addrsize := 8 |>
  <| num_valid := 2 |> <| num_processed := 2 |>.

Lemma emulate_errors_witness :
  exists e s', vmm_emulate_instruction idle_others 2 0 no_desc one_reg_read refuse_write 0 0xfee00000 mov_store paging64 string_machine =
    Return (e, s') /\ (e <> 0 -> forall q, view 0 s' q = view 0 string_machine q).
Proof.
  destruct (emulate_errors idle_others 0 0 no_desc one_reg_read refuse_write 0 0xfee00000 paging64 mov_store string_machine) as [_ [H|[E _]]].
  - exact refuse_laws.
  - by vm_compute.
  - exact string_machine_ready.
  - intros _. split; [|split; unfold size_in; cbn; member|done|cbn; lia|done].
    split; cbn; try done; try lia; try (unfold size_in; member); [by repeat constructor|]. left. by exists 0x89.
  - exact H.
  - vm_compute in E. discriminate E.
Defined.
