(* ===== verification/MmioDevices.v ===== *)
(** * The I/O APIC behind the instruction emulator

    The handlers [vioapic_mmio_read] and [vioapic_mmio_write]
    (src/src/vmm/io/vioapic.c, file Vioapic) as the MMIO handlers of the
    emulator: they satisfy [MmioLaws], so that the theorems on emulated
    instructions apply, and the two-instruction sequence by which a guest
    reads an I/O APIC register delivers that register. *)

From S2P Require Import Prelude Effects Vioapic VmmCommon VieDecode Vmm Paging VieEmul VieRefine VieString InstEmul.

Local Open Scope cmd_scope.

(** The I/O APIC with its registers in range. *)
Record ioapic_ok (v : vioapic) : Prop := { io_wf : wf_vioapic v; io_sel : ioregsel v in_u 32 }.

#[export] Instance ioapic_ok_dec (v : vioapic) : Decision (ioapic_ok v).
Proof.
  refine (cast_if (decide ((length (rtbl v) = 24%nat /\ Forall (fun e => Vioapic.reg e in_u 64) (rtbl v)) /\
                           Vioapic.id v in_u 32 /\ ioregsel v in_u 32))).
  - abstract (destruct a as ((? & ?) & ? & ?); by split).
  - abstract (intros [[] ?]; tauto).
Defined.

Section IoApic.
Context {V : Type} `{!MsgFabric V}.
Context {X : Type} `{!VmmOps X, !VmmLaws X}.

(** The state of the devices: an I/O APIC in a consistent state and the rest. *)
Definition ioapic_dev : Type := dsig (fun m : imachine V => ioapic_ok m.1).
Local Abbreviation M := (vm X ioapic_dev).

Lemma write_end_sel addr (m : imachine V) : ioregsel (write_end addr m).1 = ioregsel m.1.
Proof.
  unfold write_end. destruct (redir_pin _) as [[pin sh]|]; [|done]. split_if; [|done].
  unfold vioapic_send_intr. destruct m as [v w]. split_if; [done|]. cbn. by split_if.
Qed.

Lemma write_begin_sel addr data v : ioregsel (write_begin addr data v).1 = ioregsel v.
Proof. unfold write_begin. destruct (redir_pin _) as [[pin sh]|]; cbn; by split_if. Qed.

Lemma ok_mmio_write gpa x n (m : imachine V) : ioapic_ok m.1 -> ioapic_ok (vioapic_mmio_write gpa x n m).1.1.
Proof.
  intros [H Hs]. unfold vioapic_mmio_write, vioapic_mmio_rw. repeat split_if; try done.
  - cbn. split; [by destruct H|apply u32_in_u].
  - cbn [fst]. unfold vioapic_write.
    pose proof (wf_write_begin (ioregsel m.1) (u32 x) m.1 H (u32_in_u x)) as Hb.
    pose proof (write_begin_sel (ioregsel m.1) (u32 x) m.1) as Hsel.
    destruct (write_begin _ _ _) as [v b]. cbn [fst] in *. split; [by apply wf_write_end|].
    rewrite write_end_sel. cbn. by rewrite Hsel.
Qed.

Lemma read_range v addr : ioapic_ok v -> vioapic_read v addr in_u 64.
Proof.
  intros [[_ _ Hid] _]. unfold vioapic_read. repeat split_if; try done; try (apply (in_u_le 32); [lia|done]).
  all: apply (in_u_le 32); [lia|apply u32_in_u].
Qed.

(** [vioapic_mmio_read] and [vioapic_mmio_write] on the devices of the machine. *)
Definition ioapic_read (gpa n : Z) : cmd M (Z * Z) := gets (fun s => (0, (vioapic_mmio_read gpa n (proj1_sig (devices s))).2)).

Definition ioapic_after (gpa x n : Z) (d : ioapic_dev) : ioapic_dev :=
  dexist (vioapic_mmio_write gpa x n (proj1_sig d)).1 (ok_mmio_write gpa x n _ (proj2_dsig d)).

Definition ioapic_write (gpa x n : Z) : cmd M Z := update (fun s => s <| devices ::= ioapic_after gpa x n |>) ;;; ret 0.

#[export] Instance ioapic_laws : MmioLaws ioapic_read ioapic_write.
Proof.
  split.
  - intros gpa n s. eexists 0, _, s. split; [reflexivity|]. split; [|by destruct s].
    pose proof (proj2_dsig (devices s)) as Hok. unfold vioapic_mmio_read, vioapic_mmio_rw.
    repeat split_if; cbn; try done; [|by apply read_range]. apply (in_u_le 32); [lia|apply Hok].
  - intros gpa x n s. eexists 0, _. split; [reflexivity|]. by destruct s.
  - intros gpa x n s. unfold ioapic_write, bind, update, ret.
    assert (E : (vioapic_mmio_write gpa x n (proj1_sig (devices s))).1 =
                (vioapic_mmio_write gpa (low n x) n (proj1_sig (devices s))).1).
    { unfold vioapic_mmio_write, vioapic_mmio_rw. destruct (Z.eqb_spec n 4) as [->|]; [|done].
      assert (u32 (low 4 x) = u32 x) as -> by (apply Z.mod_mod; lia). by repeat split_if. }
    assert (Ed : ioapic_after gpa x n (devices s) = ioapic_after gpa (low n x) n (devices s)) by (apply dsig_eq; exact E).
    exact (f_equal (fun d => Return (0, s <| devices := d |>)) Ed).
Qed.

(** *** A guest driver's access *)

(** A decoded 32-bit move of register [r], to memory (0x89) or from it (0x8B). *)
Record mov32 (opcode r : Z) (m : vm_cpu_mode) (v : vie) : Prop := {
  m3_ok : well_decoded m v;
  m3_op : op v = one_byte_opcodes opcode;
  m3_size : opsize v = 4;
  m3_reg : VmmCommon.reg v = r;
}.

Lemma mov32_store vcpuid others fuel flags uninit gpa m paging v r (s : M) : is_vcpu vcpuid -> mov32 0x89 r m v ->
  exists s', vmm_emulate_instruction others fuel flags uninit ioapic_read ioapic_write vcpuid gpa v paging s = Return (0, s') /\
    devices s' = ioapic_after gpa (low 4 (view vcpuid s (gpr_map r))) 4 (devices s) /\
    forall q, view vcpuid s' q = view vcpuid s q.
Proof.
  intros Hi [Hok Hop Hsz Hr].
  destruct (emulate_simple ioapic_read ioapic_write _ others fuel flags uninit vcpuid gpa v paging s m Hi
    (wd_fields _ _ Hok) (wd_sizes _ _ Hok)) as (e & f & s1 & s' & Ec & Er & Ha); [by rewrite Hop|].
  unfold x86_effect in Er. rewrite (wd_decoded _ _ Hok), Hop in Er. cbn [negb op_type one_byte_opcodes] in Er.
  unfold mov_effect in Er. rewrite Hop, Hsz, Hr in Er. cbn in Er. injection Er as <- <- <-.
  exists s'. split; [exact Ec|]. split; [by rewrite (ag_machine _ _ _ _ Ha)|apply (ag_regs _ _ _ _ Ha)].
Qed.

Lemma mov32_load vcpuid others fuel flags uninit gpa m paging v r (s : M) : is_vcpu vcpuid -> mov32 0x8B r m v ->
  exists s', vmm_emulate_instruction others fuel flags uninit ioapic_read ioapic_write vcpuid gpa v paging s = Return (0, s') /\
    devices s' = devices s /\
    forall q, view vcpuid s' q =
      put_reg 4 (gpr_map r) (low 4 (vioapic_mmio_read gpa 4 (proj1_sig (devices s))).2) (view vcpuid s) q.
Proof.
  intros Hi [Hok Hop Hsz Hr].
  destruct (emulate_simple ioapic_read ioapic_write _ others fuel flags uninit vcpuid gpa v paging s m Hi
    (wd_fields _ _ Hok) (wd_sizes _ _ Hok)) as (e & f & s1 & s' & Ec & Er & Ha); [by rewrite Hop|].
  unfold x86_effect in Er. rewrite (wd_decoded _ _ Hok), Hop in Er. cbn [negb op_type one_byte_opcodes] in Er.
  unfold mov_effect in Er. rewrite Hop, Hsz, Hr in Er.
  unfold run_effect, load_op, bind, ioapic_read, gets, ret in Er. cbn [ef_read ef_apply fst snd Z.eqb negb] in Er.
  injection Er as <- <- <-.
  exists s'. split; [exact Ec|]. split; [by rewrite (ag_machine _ _ _ _ Ha)|apply (ag_regs _ _ _ _ Ha)].
Qed.
End IoApic.

(** A guest reads an I/O APIC register by moving its number to the select
    register and moving the window register to a CPU register.  Emulating
    these two instructions leaves in the destination, extended with zeros,
    the value [vioapic_read] gives for the number the guest selected, and
    leaves the other registers and the redirection table alone. *)
Theorem ioapic_guest_read {V X : Type} `{!MsgFabric V, !VmmOps X, !VmmLaws X} vcpuid others fuel flags uninit m paging
    v1 v2 r1 r2 (s : vm X (ioapic_dev (V := V)))
    (Hi : is_vcpu vcpuid) (H1 : mov32 0x89 r1 m v1) (H2 : mov32 0x8B r2 m v2) :
  let sel := low 4 (view vcpuid s (gpr_map r1)) in
  exists s1 s2,
    vmm_emulate_instruction others fuel flags uninit ioapic_read ioapic_write vcpuid (Vioapic.VIOAPIC_BASE + IOREGSEL) v1 paging s
      = Return (0, s1) /\
    vmm_emulate_instruction others fuel flags uninit ioapic_read ioapic_write vcpuid (Vioapic.VIOAPIC_BASE + IOWIN) v2 paging s1
      = Return (0, s2) /\
    view vcpuid s2 (gpr_map r2) = low 4 (vioapic_read (proj1_sig (devices s)).1 sel) /\
    (forall q, q <> gpr_map r2 -> view vcpuid s2 q = view vcpuid s q) /\
    proj1_sig (devices s2) = ((proj1_sig (devices s)).1 <| ioregsel := sel |>, (proj1_sig (devices s)).2).
Proof.
  intros sel.
  destruct (mov32_store vcpuid others fuel flags uninit (Vioapic.VIOAPIC_BASE + IOREGSEL) m paging v1 r1 s Hi H1)
    as (s1 & E1 & D1 & V1).
  destruct (mov32_load vcpuid others fuel flags uninit (Vioapic.VIOAPIC_BASE + IOWIN) m paging v2 r2 s1 Hi H2)
    as (s2 & E2 & D2 & V2).
  exists s1, s2. split; [done|]. split; [done|].
  assert (Hsel : u32 sel = sel) by (apply Z.mod_mod; lia).
  assert (Hdev : proj1_sig (devices s1) = ((proj1_sig (devices s)).1 <| ioregsel := sel |>, (proj1_sig (devices s)).2)).
  { rewrite D1. transitivity ((proj1_sig (devices s)).1 <| ioregsel := u32 sel |>, (proj1_sig (devices s)).2);
      [reflexivity|by rewrite Hsel]. }
  split; [|split; [|by rewrite D2]].
  - rewrite V2, Hdev. unfold put_reg, upd. rewrite bool_decide_eq_true_2 by done.
    rewrite low_low by (right; right; by left). cbn. done.
  - intros q Hq. rewrite V2. unfold put_reg, upd. by rewrite bool_decide_eq_false_2, V1.
Qed.

(** The version register through the emulator, with a freshly initialized
    device: RAX holds the register number. *)
Lemma ioapic_init_ok : ioapic_ok (vioapic_init, @nil msg_call).1.
Proof. split; [|done]. split; [done|by repeat constructor|done]. Qed.

Definition ioapic_machine : vm regs (ioapic_dev (V := list msg_call)) :=
  let s := machine frozen in
  mk_vm (fun _ r => match r with VM_REG_GUEST_RAX => IOAPIC_VER | _ => 0xffffffffffffffff end)
    (dexist (vioapic_init, []) ioapic_init_ok) (active_cpus s) (suspend s) (suspended_cpus s) (mem_segs s)
    (next_object s) (host_mem s) (vcpus s) (notices s).

(** [mov %eax, (mem)] and [mov (mem), %ecx] as the decoder leaves them. *)
Definition mov_eax_out : vie := sub_cx <| op := one_byte_opcodes 0x89 |> <| opsize := 4 |> <| VmmCommon.reg := 0 |>
  <| num_valid := 2 |> <| num_processed := 2 |>.
Definition mov_in_ecx : vie := mov_eax_out <| op := one_byte_opcodes 0x8B |> <| VmmCommon.reg := 1 |>.

Lemma mov32_ok opcode r v : r in_u 3 -> v = mov_eax_out <| op := one_byte_opcodes opcode |> <| VmmCommon.reg := r |> ->
  mov32 opcode r CPU_MODE_64BIT v.
Proof.
  intros Hr ->. split; try done. split; cbn; try done; try lia.
  - split; cbn; try done; try lia; try (unfold size_in; member); [by repeat constructor|]. left. by exists opcode.
  - split; unfold size_in; cbn; member.
Qed.

Lemma ioapic_guest_read_witness : exists s1 s2,
  vmm_emulate_instruction (fun _ _ s => s) 2 0 no_desc ioapic_read ioapic_write 0 (Vioapic.VIOAPIC_BASE + IOREGSEL)
    mov_eax_out flat64 ioapic_machine = Return (0, s1) /\
  vmm_emulate_instruction (fun _ _ s => s) 2 0 no_desc ioapic_read ioapic_write 0 (Vioapic.VIOAPIC_BASE + IOWIN)
    mov_in_ecx flat64 s1 = Return (0, s2) /\
  view 0 s2 VM_REG_GUEST_RCX = 0x00170011.
Proof.
  destruct (ioapic_guest_read 0 (fun _ _ s => s) 2 0 no_desc CPU_MODE_64BIT flat64 mov_eax_out mov_in_ecx 0 1 ioapic_machine)
    as (s1 & s2 & E1 & E2 & E3 & _).
  - by vm_compute.
  - by apply mov32_ok.
  - by apply mov32_ok.
  - exists s1, s2. split; [exact E1|]. split; [exact E2|]. exact E3.
Defined.
