(* ===== verification/VmApi.v ===== *)
(** * The machine API of the user level (src/src/vmm/vmm_api.c)

    The device models and the loop of a virtual CPU call the monitor through
    [xh_vm_*] functions.  Each freezes the CPU it works on, calls the monitor
    and makes the CPU idle again.  This file also models the set-up of guest
    memory and the map from guest physical to host addresses that the user
    level keeps for itself, and the copies to and from guest linear
    addresses.  [U] is the state of the user-level devices. *)

From S2P Require Import Prelude Effects VmmCommon VieDecode Vmm Paging VieEmul VieRefine VieString.

Local Open Scope cmd_scope.

Inductive vm_mmap_style : Type := VM_MMAP_NONE | VM_MMAP_ALL | VM_MMAP_SPARSE.
#[export] Instance vm_mmap_style_eq_dec : EqDecision vm_mmap_style.
Proof. solve_decision. Defined.

(** The static variables of the file; an address is [None] when null. *)
Record guest_map : Type := mk_guest_map {
  mmap_style : vm_mmap_style;
  lowmem_limit : Z;
  lowmem : Z;
  highmem : Z;
  lowmem_addr : option hva;
  highmem_addr : option hva;
}.
#[export] Instance eta_guest_map : Eta guest_map := fun g =>
  mk_guest_map (mmap_style g) (lowmem_limit g) (lowmem g) (highmem g) (lowmem_addr g) (highmem_addr g).

Record xhyve (X D U : Type) : Type := mk_xhyve { xvm : vm X D; gmem : guest_map; user : U }.
Arguments mk_xhyve {X D U}.
Arguments xvm {X D U}.
Arguments gmem {X D U}.
Arguments user {X D U}.
#[export] Instance eta_xhyve {X D U} : Eta (xhyve X D U) := fun s => mk_xhyve (xvm s) (gmem s) (user s).

Section Api.
Context {X D U : Type} `{!VmmOps X}.
Local Abbreviation S := (xhyve X D U).
Context (others : nat -> nat -> vm X D -> vm X D) (fuel : nat).

(** A call of the monitor. *)
Definition on_vm {A} (c : cmd (vm X D) A) : cmd S A := fun s =>
  match c (xvm s) with
  | Return (a, m) => Return (a, s <| xvm := m |>)
  | Panic => Panic
  | Hang => Hang
  end.

(** ** Freezing a CPU *)

Definition vcpu_freeze (vcpu : Z) (freeze : bool) : cmd S unit :=
  e <- on_vm (vcpu_set_state vcpu (if freeze then VCPU_FROZEN else VCPU_IDLE) freeze) ;;
  KASSERT (e =? 0).

Fixpoint freeze_each (l : list Z) (freeze : bool) : cmd S unit :=
  match l with
  | [] => skip
  | i :: l => vcpu_freeze i freeze ;;; freeze_each l freeze
  end.
Definition vcpu_freeze_all (freeze : bool) : cmd S unit := freeze_each (seqZ 0 VM_MAXCPU) freeze.

Definition frozen_call {A} (vcpu : Z) (c : cmd (vm X D) A) : cmd S A :=
  vcpu_freeze vcpu true ;;; r <- on_vm c ;; vcpu_freeze vcpu false ;;; ret r.

Definition xh_vm_get_register (vcpu : Z) (reg : vm_reg_name) : cmd S (Z * Z) := frozen_call vcpu (vm_get_register vcpu reg).
Definition xh_vm_set_register (vcpu : Z) (reg : vm_reg_name) (val : Z) : cmd S Z :=
  frozen_call vcpu (vm_set_register vcpu reg val).
Definition xh_vm_get_desc (vcpu : Z) (reg : vm_reg_name) : cmd S (Z * seg_desc) :=
  frozen_call vcpu (vm_get_seg_desc vcpu reg).
Definition xh_vm_set_desc (vcpu : Z) (reg : vm_reg_name) (base limit access : Z) : cmd S Z :=
  frozen_call vcpu (vm_set_seg_desc vcpu reg (mk_seg_desc base limit access)).
Definition xh_vm_gla2gpa (vcpu : Z) (paging : vm_guest_paging) (gla prot : Z) : cmd S (Z * bool * Z) :=
  frozen_call vcpu (vm_gla2gpa others vcpu paging gla prot fuel).
Definition xh_vm_inject_exception (vcpu vector : Z) (errcode_valid : bool) (errcode : Z) (restart : bool) : cmd S Z :=
  frozen_call vcpu (vm_inject_exception vcpu vector errcode_valid errcode restart).
Definition xh_vm_restart_instruction (vcpu : Z) : cmd S Z := frozen_call vcpu (vm_restart_instruction vcpu).
Definition xh_vm_activate_cpu (vcpu : Z) : cmd S Z := frozen_call vcpu (vm_activate_cpu vcpu).
Definition xh_vm_suspend (how : vm_suspend_how) : cmd S Z := on_vm (vm_suspend how).

Definition xh_vm_inject_fault (vcpu vector : Z) (errcode_valid : bool) (errcode : Z) : cmd S unit :=
  error <- xh_vm_inject_exception vcpu vector errcode_valid errcode true ;; KASSERT (error =? 0).

(** ** Guest memory *)

(** [addr] says which pointer is set; null when the caller passes no address. *)
Definition setup_memory_segment (mapped : bool) (gpa len : Z) (addr : option (hva -> guest_map -> guest_map)) : cmd S Z :=
  vcpu_freeze_all true ;;;
  error <- on_vm (vm_malloc mapped gpa len) ;;
  error <- (if error =? 0 then
              h <- on_vm (gets (vm_get_memobj gpa len)) ;;
              match h, addr with
              | Some h, Some f => update (fun s => s <| gmem ::= f h |>) ;;; ret 0
              | Some _, None => fun _ => Panic
              | None, _ => ret EINVAL
              end
            else ret error) ;;
  vcpu_freeze_all false ;;;
  ret error.

Definition xh_vm_setup_memory (mapped : bool) (len : Z) (vms : vm_mmap_style) : cmd S Z :=
  KASSERT (bool_decide (vms = VM_MMAP_NONE) || bool_decide (vms = VM_MMAP_ALL)) ;;;
  limit <- gets (fun s => lowmem_limit (gmem s)) ;;
  let low := if limit <? len then limit else len in
  let high := if limit <? len then len - low else 0 in
  update (fun s => s <| gmem ::= fun g => g <| mmap_style := vms |> <| lowmem := low |> <| highmem := high |> |>) ;;;
  let all := bool_decide (vms = VM_MMAP_ALL) in
  e <- (if 0 <? low then
          setup_memory_segment mapped 0 low (if all then Some (fun h g => g <| lowmem_addr := Some h |>) else None)
        else ret 0) ;;
  if negb (e =? 0) then ret e else
  if 0 <? high then
    setup_memory_segment mapped (4 * GB) high (if all then Some (fun h g => g <| highmem_addr := Some h |>) else None)
  else ret 0.

Definition map_gpa (gpa len : Z) (g : guest_map) : option hva :=
  if (gpa <? lowmem g) && (u64 (gpa + len) <=? lowmem g) then
    match lowmem_addr g with Some h => Some (hva_add h gpa) | None => None end
  else if 4 * GB <=? gpa then
    let gpa := gpa - 4 * GB in
    if (gpa <? highmem g) && (u64 (gpa + len) <=? highmem g) then
      match highmem_addr g with Some h => Some (hva_add h gpa) | None => None end
    else None
  else None.

Definition xh_vm_map_gpa (gpa len : Z) : cmd S (option hva) :=
  st <- gets (fun s => mmap_style (gmem s)) ;;
  KASSERT (bool_decide (st = VM_MMAP_ALL)) ;;;
  gets (fun s => map_gpa gpa len (gmem s)).

Definition xh_vm_get_lowmem_limit : cmd S Z := gets (fun s => lowmem_limit (gmem s)).
Definition xh_vm_set_lowmem_limit (limit : Z) : cmd S unit := update (fun s => s <| gmem ::= fun g => g <| lowmem_limit := u32 limit |> |>).
Definition xh_vm_get_lowmem_size : cmd S Z := gets (fun s => lowmem (gmem s)).
Definition xh_vm_get_highmem_size : cmd S Z := gets (fun s => highmem (gmem s)).

(** ** Copies *)

(** [iovcnt] entries of [iov] are left; the result is the return value,
    [*fault] and the entries filled in. *)
Fixpoint xh_vm_copy_setup (iovcnt : nat) (vcpu : Z) (pg : vm_guest_paging) (gla len prot : Z) :
    cmd S (Z * bool * list vm_copyinfo) :=
  if 0 <? len then
    match iovcnt with
    | O => fun _ => Panic
    | Datatypes.S iovcnt =>
        r <- xh_vm_gla2gpa vcpu pg gla prot ;;
        let '(error, fault, gpa) := r in
        if negb (error =? 0) || fault then ret (error, fault, [])
        else
          let n := Z.min len (XHYVE_PAGE_SIZE - Z.land gpa XHYVE_PAGE_MASK) in
          va <- xh_vm_map_gpa gpa n ;;
          match va with
          | None => ret (EFAULT, false, [])
          | Some va =>
              r <- xh_vm_copy_setup iovcnt vcpu pg (u64 (gla + n)) (len - n) prot ;;
              ret (r.1, mk_copyinfo va n :: r.2)
          end
    end
  else ret (0, false, []).

(** [bcopy] of one entry; past the last entry or at an empty one the assertion
    on its length fails. *)
Fixpoint copyin_iov (iov : list vm_copyinfo) (len : Z) (m : hva -> Z) : option (list Z) :=
  if 0 <? len then
    match iov with
    | [] => None
    | c :: iov =>
        if ci_len c =? 0 then None else
        let n := Z.min len (ci_len c) in
        match copyin_iov iov (len - n) m with
        | Some l => Some (read_bytes_at (Z.to_nat n) (ci_hva c) m ++ l)
        | None => None
        end
    end
  else Some [].

Definition xh_vm_copyin (iov : list vm_copyinfo) (len : Z) : cmd S (list Z) := fun s =>
  match copyin_iov iov len (host_mem (xvm s)) with Some l => Return (l, s) | None => Panic end.

Fixpoint copyout_iov (src : list Z) (iov : list vm_copyinfo) (len : Z) (m : hva -> Z) : option (hva -> Z) :=
  if 0 <? len then
    match iov with
    | [] => None
    | c :: iov =>
        if ci_len c =? 0 then None else
        let n := Z.min len (ci_len c) in
        copyout_iov (drop (Z.to_nat n) src) iov (len - n) (write_bytes_at (ci_hva c) (take (Z.to_nat n) src) m)
    end
  else Some m.

Definition xh_vm_copyout (src : list Z) (iov : list vm_copyinfo) (len : Z) : cmd S unit := fun s =>
  match copyout_iov src iov len (host_mem (xvm s)) with
  | Some m => Return (tt, s <| xvm ::= fun v => v <| host_mem := m |> |>)
  | None => Panic
  end.
End Api.

(** ** Frozen calls *)
Section Frozen.
Context {X D U : Type} `{!VmmOps X, !VmmLaws X}.
Local Abbreviation S := (xhyve X D U).
Implicit Types (m : vm X D) (s : S).

Definition idle i m : Prop := state (get_vcpu i m) = VCPU_IDLE.

Definition set_state (i : Z) (st : vcpu_state) m : vm X D :=
  m <| vcpus ::= alter (fun v => v <| state := st |>) (Z.to_nat i) |>.

Lemma wp_on_vm {A} (c : cmd (vm X D) A) (Q : A -> S -> Prop) s :
  wp c (fun a m => Q a (s <| xvm := m |>)) (xvm s) -> wp (on_vm c) Q s.
Proof. unfold wp, on_vm. by destruct (c (xvm s)) as [[a m]| |]. Qed.

Lemma get_set_state i st m : is_vcpu i -> has_vcpus m -> get_vcpu i (set_state i st m) = get_vcpu i m <| state := st |>.
Proof. intros Hi Hm. unfold set_state. by rewrite get_vcpu_alter. Qed.

Lemma wp_freeze i (Q : unit -> S -> Prop) s : is_vcpu i -> idle i (xvm s) ->
  Q tt (s <| xvm ::= set_state i VCPU_FROZEN |>) -> wp (vcpu_freeze i true) Q s.
Proof.
  intros Hi Hd HQ. unfold vcpu_freeze. apply wp_bind, wp_on_vm. unfold vcpu_set_state, vcpu_set_state_locked.
  apply wp_bind, wp_KASSERT; [by rewrite bad_vcpuid_false|]. apply wp_bind, wp_gets. rewrite Hd. exact HQ.
Qed.

Lemma wp_unfreeze i (Q : unit -> S -> Prop) s : is_vcpu i -> state (get_vcpu i (xvm s)) = VCPU_FROZEN ->
  Q tt (s <| xvm ::= set_state i VCPU_IDLE |>) -> wp (vcpu_freeze i false) Q s.
Proof.
  intros Hi Hf HQ. unfold vcpu_freeze. apply wp_bind, wp_on_vm. unfold vcpu_set_state, vcpu_set_state_locked.
  apply wp_bind, wp_KASSERT; [by rewrite bad_vcpuid_false|]. apply wp_bind, wp_gets. rewrite Hf. exact HQ.
Qed.

(** The monitor sees the CPU frozen; the caller finds it idle again. *)
Lemma wp_frozen {A} i (c : cmd (vm X D) A) (Q : A -> S -> Prop) s : is_vcpu i -> idle i (xvm s) ->
  wp c (fun a m => state (get_vcpu i m) = VCPU_FROZEN /\ Q a (s <| xvm := set_state i VCPU_IDLE m |>))
     (set_state i VCPU_FROZEN (xvm s)) ->
  wp (frozen_call i c) Q s.
Proof.
  intros Hi Hd Hc. unfold frozen_call. apply wp_bind, wp_freeze; [done|done|].
  apply wp_bind, wp_on_vm. eapply wp_conseq; [exact Hc|]. intros a m [Hf HQ].
  apply wp_bind, wp_unfreeze; done.
Qed.

Lemma frozen_state i m : is_vcpu i -> has_vcpus m -> state (get_vcpu i (set_state i VCPU_FROZEN m)) = VCPU_FROZEN.
Proof. intros. by rewrite get_set_state. Qed.

Lemma has_vcpus_set i st m : has_vcpus m -> has_vcpus (set_state i st m).
Proof. apply has_vcpus_alter. Qed.

(** Making the CPU idle undoes freezing it. *)
Lemma set_state_undo i m : is_vcpu i -> has_vcpus m -> idle i m ->
  set_state i VCPU_IDLE (set_state i VCPU_FROZEN m) = m.
Proof.
  intros Hi Hm Hd.
  assert (El : alter (fun v : vcpu => v <| state := VCPU_IDLE |>) (Z.to_nat i)
                 (alter (fun v : vcpu => v <| state := VCPU_FROZEN |>) (Z.to_nat i) (vcpus m)) = vcpus m).
  { rewrite list_alter_alter_eq. apply list_eq. intros j. destruct (decide (j = Z.to_nat i)) as [->|Hj];
      [|by rewrite list_lookup_alter_ne].
    rewrite list_lookup_alter_eq. destruct (vcpus m !! Z.to_nat i) as [v|] eqn:Hv; [|done].
    unfold idle, get_vcpu in Hd. rewrite nth_lookup, Hv in Hd. cbn in Hd. destruct v. cbn in *. by subst. }
  change (m <| vcpus := alter (fun v : vcpu => v <| state := VCPU_IDLE |>) (Z.to_nat i)
                 (alter (fun v : vcpu => v <| state := VCPU_FROZEN |>) (Z.to_nat i) (vcpus m)) |> = m).
  rewrite El. by destruct m.
Qed.

(** ** Freezing all CPUs *)

Definition all_state (st : vcpu_state) m : Prop := forall i, is_vcpu i -> state (get_vcpu i m) = st.

Lemma set_state_ne i j st m : is_vcpu i -> is_vcpu j -> i <> j -> get_vcpu j (set_state i st m) = get_vcpu j m.
Proof. intros. unfold set_state. by rewrite get_vcpu_alter_ne. Qed.

Definition set_all (st : vcpu_state) (l : list Z) m : vm X D := foldl (fun m i => set_state i st m) m l.

Lemma set_all_vcpus st l m : set_all st l m = m <| vcpus := vcpus (set_all st l m) |>.
Proof.
  revert m. induction l as [|i l IH]; intros m; cbn; [by destruct m|]. fold (set_all st l (set_state i st m)).
  rewrite IH. by destruct m.
Qed.

Lemma set_all_state st l m i : has_vcpus m -> is_vcpu i -> (forall j, j ∈ l -> is_vcpu j) ->
  state (get_vcpu i (set_all st l m)) = if bool_decide (i ∈ l) then st else state (get_vcpu i m).
Proof.
  intros Hm Hi. revert m Hm. induction l as [|j l IH]; intros m Hm Hl; [done|]. cbn [set_all foldl].
  fold (set_all st l (set_state j st m)). rewrite IH; [|by apply has_vcpus_set|intros k Hk; apply Hl; by right].
  assert (Hj : is_vcpu j) by (apply Hl; by left).
  destruct (decide (i = j)) as [->|Hne].
  - rewrite get_set_state by done. rewrite (bool_decide_eq_true_2 (j ∈ j :: l)) by (by left). by destruct (bool_decide _).
  - rewrite set_state_ne by done.
    rewrite (bool_decide_ext (i ∈ j :: l) (i ∈ l)); [done|]. rewrite elem_of_cons. split; [by intros [?|?]|by right].
Qed.

Lemma wp_freeze_each (b : bool) l (Q : unit -> S -> Prop) : forall s,
  has_vcpus (xvm s) -> NoDup l -> (forall j, j ∈ l -> is_vcpu j) ->
  (forall j, j ∈ l -> state (get_vcpu j (xvm s)) = if b then VCPU_IDLE else VCPU_FROZEN) ->
  Q tt (s <| xvm ::= set_all (if b then VCPU_FROZEN else VCPU_IDLE) l |>) -> wp (freeze_each l b) Q s.
Proof.
  induction l as [|i l IH]; intros s Hm Hn Hl Hst HQ; cbn [freeze_each]; [by destruct s|].
  apply NoDup_cons in Hn as [Hni Hn]. assert (Hi : is_vcpu i) by (apply Hl; by left).
  assert (Hi' := Hst i ltac:(by left)).
  assert (Hrest : forall st, forall j, j ∈ l -> state (get_vcpu j (set_state i st (xvm s))) = if b then VCPU_IDLE else VCPU_FROZEN).
  { intros st j Hj. rewrite set_state_ne; [apply Hst; by right|done|apply Hl; by right|by intros ->]. }
  apply wp_bind. destruct b; [apply wp_freeze; try done|apply wp_unfreeze; try done];
    (apply IH; [by apply has_vcpus_set|done|intros j Hj; apply Hl; by right|apply Hrest|exact HQ]).
Qed.

Lemma vcpu_in_seqZ i : i ∈ seqZ 0 VM_MAXCPU <-> is_vcpu i.
Proof. rewrite elem_of_seqZ. unfold is_vcpu. lia. Qed.

Lemma has_vcpus_all st l m : has_vcpus m -> has_vcpus (set_all st l m).
Proof. revert m. induction l as [|i l IH]; intros m Hm; [done|]. apply IH. by apply has_vcpus_set. Qed.

Lemma wp_freeze_all (b : bool) (Q : unit -> S -> Prop) s :
  has_vcpus (xvm s) -> all_state (if b then VCPU_IDLE else VCPU_FROZEN) (xvm s) ->
  (forall m, m = xvm s <| vcpus := vcpus m |> -> has_vcpus m -> all_state (if b then VCPU_FROZEN else VCPU_IDLE) m ->
     Q tt (s <| xvm := m |>)) -> wp (vcpu_freeze_all b) Q s.
Proof.
  intros Hc Hst HQ. unfold vcpu_freeze_all.
  assert (Hin : forall j, j ∈ seqZ 0 VM_MAXCPU <-> is_vcpu j) by apply vcpu_in_seqZ.
  pose proof (NoDup_seqZ 0 VM_MAXCPU) as Hnd. generalize dependent (seqZ 0 VM_MAXCPU). intros l Hin Hnd.
  apply wp_freeze_each; try done; [intros j; by apply Hin|intros j Hj; by apply Hst, Hin|].
  apply HQ; [apply set_all_vcpus|by apply has_vcpus_all|].
  intros i Hi. rewrite set_all_state by (done || intros j; by apply Hin).
  by rewrite bool_decide_eq_true_2 by (by apply Hin).
Qed.
End Frozen.

(** ** Setting up guest memory *)
Section Setup.
Context {X D U : Type} `{!VmmOps X, !VmmLaws X}.
Local Abbreviation S := (xhyve X D U).
Implicit Types (m : vm X D) (s : S).

(** No page from [gpa] on is allocated. *)
Definition free gpa len m : Prop := forall p, gpa <= p < gpa + len -> aligned p -> vm_mem_allocated p m = false.

Lemma count_pages_free m limit fuel : aligned limit -> limit < 2 ^ 64 ->
  forall g a v, 0 <= g <= limit -> aligned g -> limit - g + XHYVE_PAGE_SIZE <= Z.of_nat fuel * XHYVE_PAGE_SIZE ->
  (forall p, g <= p < limit -> aligned p -> vm_mem_allocated p m = false) ->
  exists v', count_pages fuel g limit m a v = Some (a, v').
Proof.
  intros Hl Hlt. induction fuel as [|fuel IH]; intros g a v Hg Hga Hf Hfree.
  { unfold XHYVE_PAGE_SIZE in Hf. lia. }
  cbn [count_pages]. destruct (Z.ltb_spec g limit) as [Hgl|Hgl]; [|by eauto].
  pose proof (aligned_step g limit Hga Hl Hgl) as Hst. rewrite Hfree by (done || lia).
  rewrite u64_id by (unfold XHYVE_PAGE_SIZE in *; lia).
  apply IH; [unfold XHYVE_PAGE_SIZE in *; lia|by apply aligned_add|lia|].
  intros p Hp. apply Hfree. unfold XHYVE_PAGE_SIZE in *. lia.
Qed.

Lemma tst_aligned x : aligned x -> tst x XHYVE_PAGE_MASK = false.
Proof.
  unfold tst, aligned. intros H. apply negb_false_iff, Z.eqb_eq.
  change XHYVE_PAGE_MASK with (Z.ones 12). by rewrite Z.land_ones by lia.
Qed.

Definition with_segment gpa len m : vm X D :=
  m <| next_object := next_object m + 1 |> <| mem_segs := mem_segs m ++ [mk_seg gpa len (Some (next_object m))] |>.

Lemma malloc_free gpa len m : 0 <= gpa -> aligned gpa -> 0 < len -> aligned len -> gpa + len < 2 ^ 64 ->
  (length (mem_segs m) < 2)%nat -> free gpa len m ->
  vm_malloc true gpa len m = Return (0, with_segment gpa len m).
Proof.
  intros Hg Hga Hl Hla Ht Hn Hfree. unfold vm_malloc. rewrite !tst_aligned by done.
  rewrite (proj2 (Z.eqb_neq len 0)) by lia. cbn [orb]. unfold bind at 1, gets at 1. rewrite u64_id by lia.
  destruct (count_pages_free m (gpa + len) (Datatypes.S (Z.to_nat (len / XHYVE_PAGE_SIZE)))
    ltac:(by apply aligned_add) Ht gpa 0 0 ltac:(lia) Hga) as (v & ->); [|exact Hfree|].
  { unfold aligned, XHYVE_PAGE_SIZE in *. rewrite Nat2Z.inj_succ, Z2Nat.id by (apply Z.div_pos; lia).
    Z.to_euclidean_division_equations. lia. }
  cbn [Z.eqb negb andb]. unfold bind at 1, gets at 1.
  rewrite (proj2 (Z.leb_gt VM_MAX_MEMORY_SEGMENTS _)) by (unfold VM_MAX_MEMORY_SEGMENTS; lia). done.
Qed.

Lemma find_app {A} (f : A -> bool) l k :
  List.find f (l ++ k) = match List.find f l with Some x => Some x | None => List.find f k end.
Proof. induction l as [|x l IH]; cbn; [done|]. by destruct (f x). Qed.

(** The new segment is where the range is found. *)
Lemma memobj_new gpa len m : Forall (seg_ok (next_object m)) (mem_segs m) -> 0 <= gpa -> aligned gpa -> 0 < len ->
  gpa + len < 2 ^ 64 -> free gpa len m ->
  vm_get_memobj gpa len (with_segment gpa len m) = Some (next_object m, 0).
Proof.
  intros Hs Hg Hga Hl Ht Hfree. unfold vm_get_memobj.
  change (mem_segs (with_segment gpa len m)) with (mem_segs m ++ [mk_seg gpa len (Some (next_object m))]).
  specialize (Hfree gpa ltac:(lia) Hga). unfold vm_mem_allocated in Hfree.
  rewrite find_app.
  destruct (List.find _ (mem_segs m)) as [g|] eqn:Ef.
  - apply List.find_some in Ef as [Hin Hc]. exfalso. apply not_true_iff_false in Hfree. apply Hfree.
    apply existsb_exists. exists g. split; [done|].
    pose proof (proj1 (List.Forall_forall _ _) Hs g Hin) as [[Hg0 _] _ Htop _].
    destruct (seg_object g); [|done]. rewrite !u64_id in * by lia. bools.
    apply andb_true_iff. rewrite Z.leb_le, Z.ltb_lt. lia.
  - cbn [List.find seg_object seg_gpa seg_len]. rewrite u64_id by lia. rewrite !Z.leb_refl. cbn [andb seg_object seg_gpa].
    by rewrite Z.sub_diag.
Qed.

Lemma setup_segment_wp gpa len f (Q : Z -> S -> Prop) s :
  has_vcpus (xvm s) -> all_state VCPU_IDLE (xvm s) -> Forall (seg_ok (next_object (xvm s))) (mem_segs (xvm s)) ->
  0 <= gpa -> aligned gpa -> 0 < len -> aligned len -> gpa + len < 2 ^ 64 ->
  (length (mem_segs (xvm s)) < 2)%nat -> free gpa len (xvm s) ->
  (forall s', xvm s' = with_segment gpa len (xvm s) <| vcpus := vcpus (xvm s') |> -> has_vcpus (xvm s') ->
     all_state VCPU_IDLE (xvm s') -> gmem s' = f (next_object (xvm s), 0) (gmem s) -> Q 0 s') ->
  wp (setup_memory_segment true gpa len (Some f)) Q s.
Proof.
  intros Hc Hd Hs Hg Hga Hl Hla Ht Hn Hfree HQ. unfold setup_memory_segment.
  apply wp_bind, wp_freeze_all; try done. intros m1 E1 Hc1 Hf1.
  assert (Hfree1 : free gpa len m1) by (intros p Hp Ha; rewrite E1; by apply Hfree).
  apply wp_bind, wp_on_vm. unfold wp at 1. change (xvm (s <| xvm := m1 |>)) with m1.
  rewrite malloc_free by (done || by rewrite E1).
  cbn [Z.eqb]. apply wp_bind, wp_bind, wp_on_vm, wp_gets.
  match goal with |- context [vm_get_memobj gpa len ?x] => change x with (with_segment gpa len m1) end.
  rewrite memobj_new by (done || by rewrite E1).
  apply wp_bind, wp_update, wp_ret, wp_bind, wp_freeze_all; [done|done|].
  intros m2 E2 Hc2 Hf2. apply wp_ret.
  assert (Eo : next_object m1 = next_object (xvm s)) by (by rewrite E1). rewrite Eo.
  apply HQ; [|done|done|done]. change (xvm _) with m2 at 1. rewrite E2. cbn [xvm]. rewrite E1. done.
Qed.

(** The segments that back low and high memory, and their addresses. *)
Record layout (g : guest_map) m (o o' : Z) : Prop := {
  la_segs : mem_segs m = (if 0 <? lowmem g then [mk_seg 0 (lowmem g) (Some o)] else []) ++
                         (if 0 <? highmem g then [mk_seg (4 * GB) (highmem g) (Some o')] else []);
  la_low : 0 < lowmem g -> lowmem_addr g = Some (o, 0);
  la_high : 0 < highmem g -> highmem_addr g = Some (o', 0);
  la_objects : o <> o' /\ o < next_object m /\ o' < next_object m;
  la_range : 0 <= lowmem g <= 4 * GB /\ 0 <= highmem g /\ 4 * GB + highmem g < 2 ^ 64;
  la_aligned : aligned (lowmem g) /\ aligned (highmem g);
}.

(** A range of guest memory: below the hole or above 4 GiB. *)
Definition in_guest_memory (g : guest_map) (gpa n : Z) : Prop :=
  gpa + n <= lowmem g \/ (4 * GB <= gpa /\ gpa + n <= 4 * GB + highmem g).

Lemma layout_segs_ok g m o o' : layout g m o o' -> segs_ok m.
Proof.
  intros [E _ _ (Ho & H1 & H2) (Hl & Hh & Ht) [Al Ah]]. split; rewrite E; clear E.
  - apply Forall_app_2; split_if; constructor; try done; bools.
    + split; cbn; [done|split; [lia|done]|unfold GB in *; lia|eauto].
    + split; cbn; [done|split; [lia|done]|lia|eauto].
  - repeat split_if; cbn [app];
      repeat first [apply FOP_nil | apply FOP_cons | apply List.Forall_nil | apply List.Forall_cons].
    split; cbn; [left; lia|congruence].
  - repeat split_if; cbn; lia.
Qed.

Lemma layout_agrees g m o o' gpa n : layout g m o o' -> 0 <= gpa -> 0 < n -> gpa + n < 2 ^ 64 ->
  map_gpa gpa n g = vm_gpa2hva gpa n m /\ (is_Some (map_gpa gpa n g) <-> in_guest_memory g gpa n).
Proof.
  intros [E El Eh _ (Hl & Hh & Ht) _] Hg Hn Htop. unfold map_gpa, vm_gpa2hva, vm_get_memobj. rewrite E, find_app. clear E.
  assert (Hfind : forall (b : bool) (f : mem_seg -> bool) x,
    List.find f (if b then [x] else []) = if b && f x then Some x else None).
  { intros [] f x; cbn; [by destruct (f x)|done]. }
  rewrite !Hfind. cbn [seg_object seg_gpa seg_len].
  assert (4 * GB < 2 ^ 64) by (unfold GB; lia).
  rewrite Z.add_0_l, !(u64_id (gpa + n)), !(u64_id (lowmem g)), !(u64_id (4 * GB + highmem g)) by lia.
  rewrite (proj2 (Z.leb_le 0 gpa)) by done. cbn [andb].
  destruct (Z.ltb_spec gpa (lowmem g)) as [H1|H1]; cbn [andb].
  - rewrite (proj2 (Z.ltb_lt 0 (lowmem g))) by lia. cbn [andb]. rewrite (proj2 (Z.leb_gt (4 * GB) gpa)) by lia.
    cbn [andb]. rewrite andb_false_r. unfold in_guest_memory.
    destruct (Z.leb_spec (gpa + n) (lowmem g)) as [H2|H2]; [|split; [done|split; [by intros []|lia]]].
    rewrite El by lia. unfold hva_add. cbn. rewrite Z.sub_0_r, u64_id by lia. split; [done|]. split; [by left|by eexists].
  - rewrite (proj2 (Z.leb_gt (gpa + n) (lowmem g))) by lia. rewrite andb_false_r.
    unfold in_guest_memory.
    destruct (Z.leb_spec (4 * GB) gpa) as [H3|H3]; cbn [andb];
      [|rewrite andb_false_r; split; [done|split; [by intros []|lia]]].
    rewrite u64_id by lia.
    destruct (Z.leb_spec (gpa - 4 * GB + n) (highmem g)) as [H4|H4].
    + rewrite (proj2 (Z.ltb_lt _ _)), (proj2 (Z.ltb_lt 0 (highmem g))), (proj2 (Z.leb_le _ _)), Eh by lia.
      cbn. rewrite u64_id by lia. split; [done|]. split; [right; lia|by eexists].
    + rewrite andb_false_r, (proj2 (Z.leb_gt (gpa + n) _)), andb_false_r by lia. split; [done|]. split; [by intros []|lia].
Qed.

Lemma setup_memory_layout len s : 0 <= len -> aligned len -> 4 * GB + len < 2 ^ 64 ->
  0 <= lowmem_limit (gmem s) < 4 * GB -> aligned (lowmem_limit (gmem s)) ->
  mem_segs (xvm s) = [] -> has_vcpus (xvm s) -> all_state VCPU_IDLE (xvm s) ->
  wp (xh_vm_setup_memory true len VM_MMAP_ALL) (fun e s' => e = 0 /\ all_state VCPU_IDLE (xvm s') /\
     has_vcpus (xvm s') /\ mmap_style (gmem s') = VM_MMAP_ALL /\ lowmem (gmem s') = Z.min len (lowmem_limit (gmem s)) /\
     lowmem (gmem s') + highmem (gmem s') = len /\ exists o o', layout (gmem s') (xvm s') o o') s.
Proof.
  intros Hlen Ha Ht Hlim Hal Hs Hc Hd. unfold xh_vm_setup_memory. apply wp_bind, wp_KASSERT; [done|].
  apply wp_bind, wp_gets. cbv zeta. apply wp_bind, wp_update.
  set (limit := lowmem_limit (gmem s)) in *. set (g0 := gmem s). 
  set (low := if limit <? len then limit else len). set (high := if limit <? len then len - low else 0).
  assert (Hlow : low = Z.min len limit /\ low + high = len /\ 0 <= high /\ aligned low /\ aligned high).
  { unfold low, high, low. destruct (Z.ltb_spec limit len); repeat split; try lia; try done.
    unfold aligned in *. rewrite Zminus_mod, Ha, Hal. done. }
  clearbody low high. destruct Hlow as (Elow & Esum & Hhigh & Alow & Ahigh).
  assert (Ag : aligned (4 * GB)) by done. assert (Hg0 : 0 <= 4 * GB) by done.
  set (s1 := s <| gmem ::= fun g => g <| mmap_style := VM_MMAP_ALL |> <| lowmem := low |> <| highmem := high |> |>).
  apply wp_bind, (wp_conseq _ (fun e s' => e = 0 /\ all_state VCPU_IDLE (xvm s') /\ has_vcpus (xvm s') /\
    mmap_style (gmem s') = VM_MMAP_ALL /\ lowmem (gmem s') = low /\ highmem (gmem s') = high /\
    next_object (xvm s) <= next_object (xvm s') /\ exists o, o < next_object (xvm s') /\
    (0 < low -> lowmem_addr (gmem s') = Some (o, 0)) /\
    mem_segs (xvm s') = if 0 <? low then [mk_seg 0 low (Some o)] else [])).
  - apply wp_if; intros Epos.
    + bools. apply setup_segment_wp; try done; [by change (mem_segs (xvm s1)) with (mem_segs (xvm s)); rewrite Hs|lia|
        by change (mem_segs (xvm s1)) with (mem_segs (xvm s)); rewrite Hs; cbn; lia|
        by intros p Hp Hpa; unfold vm_mem_allocated; change (mem_segs (xvm s1)) with (mem_segs (xvm s)); rewrite Hs|].
      intros s' E Hcm Hdm Eg. rewrite Eg, E, (proj2 (Z.ltb_lt 0 low)) by done. rewrite E in Hcm, Hdm.
      do 6 (split; [done|]). split; [cbn; lia|]. exists (next_object (xvm s)). split; [cbn; lia|]. split; [done|].
      change (mem_segs (xvm s) ++ [mk_seg 0 low (Some (next_object (xvm s)))] = [mk_seg 0 low (Some (next_object (xvm s)))]).
      by rewrite Hs.
    + apply wp_ret. split; [done|]. split; [done|]. split; [done|]. split; [done|]. split; [done|]. split; [done|].
      split; [cbn; lia|]. exists (next_object (xvm s) - 1). bools. split; [cbn; lia|]. split; [lia|].
      rewrite (proj2 (Z.ltb_ge 0 low)) by lia. exact Hs.
  - intros e s2 (-> & Hd2 & Hc2 & Hm2 & El2 & Eh2 & Hn2 & o & Ho & Elow2 & Es2). cbn [Z.eqb negb].
    assert (Hfit : 0 <= low <= 4 * GB /\ 0 <= high /\ 4 * GB + high < 2 ^ 64) by lia.
    apply wp_if; intros Epos; bools.
    + assert (Hseg : Forall (seg_ok (next_object (xvm s2))) (mem_segs (xvm s2))).
      { rewrite Es2. split_if; constructor; [|done]. bools. split; cbn; [done|split; [lia|done]|unfold GB in *; lia|eauto]. }
      apply setup_segment_wp; try done; [lia|by rewrite Es2; split_if; cbn; lia|..].
      { intros p Hp _. unfold vm_mem_allocated. rewrite Es2. split_if; [|done]. cbn [existsb seg_gpa seg_len].
        rewrite Z.add_0_l, u64_id, (proj2 (Z.ltb_ge p low)), andb_false_r by (unfold GB in *; lia). done. }
      intros s' E Hcm Hdm Eg. split; [done|]. split; [done|]. split; [done|]. rewrite Eg, E. split; [done|].
      split; [cbn; by rewrite El2|]. split; [cbn; lia|]. exists o, (next_object (xvm s2)). split; cbn.
      * rewrite Es2, El2, Eh2. rewrite (proj2 (Z.ltb_lt 0 high)) by done. done.
      * rewrite El2. done.
      * done.
      * lia.
      * rewrite El2, Eh2. lia.
      * rewrite El2, Eh2. done.
    + apply wp_ret. split; [done|]. split; [done|]. split; [done|]. split; [done|].
      split; [by rewrite El2|]. split; [lia|]. exists o, (o - 1). split.
      * rewrite Es2, El2, Eh2, (proj2 (Z.ltb_ge 0 high)) by lia. by rewrite app_nil_r.
      * by rewrite El2.
      * rewrite Eh2. lia.
      * lia.
      * rewrite El2, Eh2. lia.
      * rewrite El2, Eh2. done.
Qed.
End Setup.

(** C34: after [xh_vm_setup_memory] the user level and the monitor agree on guest
    memory: every non-empty guest physical range that ends below 2^64
    translates for both to the same host address, or to none, and it translates
    exactly if it lies in the low memory (at most the low-memory limit) or in
    the memory above 4 GiB that holds the rest.  (On a range that wraps around
    they differ, see [gpa2hva_wraps].)  All CPUs are idle again and the set-up succeeds for every
    page-aligned size and limit. *)
Theorem map_gpa_agrees {X D U : Type} `{!VmmOps X, !VmmLaws X} len (s : xhyve X D U)
    (Hlen : 0 <= len) (Ha : aligned len) (Ht : 4 * GB + len < 2 ^ 64)
    (Hlim : 0 <= lowmem_limit (gmem s) < 4 * GB) (Hal : aligned (lowmem_limit (gmem s)))
    (Hs : mem_segs (xvm s) = []) (Hc : has_vcpus (xvm s)) (Hd : all_state VCPU_IDLE (xvm s)) :
  exists s', xh_vm_setup_memory true len VM_MMAP_ALL s = Return (0, s') /\
    all_state VCPU_IDLE (xvm s') /\
    lowmem (gmem s') = Z.min len (lowmem_limit (gmem s)) /\ lowmem (gmem s') + highmem (gmem s') = len /\
    forall gpa n, 0 <= gpa -> 0 < n -> gpa + n < 2 ^ 64 ->
      xh_vm_map_gpa gpa n s' = Return (vm_gpa2hva gpa n (xvm s'), s') /\
      (is_Some (vm_gpa2hva gpa n (xvm s')) <-> in_guest_memory (gmem s') gpa n).
Proof.
  destruct (wp_elim _ _ _ (setup_memory_layout len s Hlen Ha Ht Hlim Hal Hs Hc Hd))
    as (e & s' & Hr & -> & Hd' & _ & Hm & Hlow & Hsum & o & o' & Hlay).
  exists s'. do 4 (split; [done|]). intros gpa n Hg Hn Htop.
  destruct (layout_agrees _ _ _ _ gpa n Hlay Hg Hn Htop) as [E Hin].
  unfold xh_vm_map_gpa, bind, gets, KASSERT. rewrite Hm, <- E. done.
Qed.

(** *** A machine with 4 GiB of memory and the usual 3 GiB limit *)
Module ApiExample.
Definition start : xhyve regs unit unit :=
  mk_xhyve (machine vcpu0 <| mem_segs := [] |>) (mk_guest_map VM_MMAP_NONE (3 * GB) 0 0 None None) tt.

Lemma start_idle : all_state VCPU_IDLE (xvm start).
Proof.
  intros i Hi. pose proof (forall_below (fun i => bool_decide (state (get_vcpu i (xvm start)) = VCPU_IDLE)) VM_MAXCPU i
    ltac:(by vm_compute) Hi) as H. by apply bool_decide_eq_true in H.
Qed.

Lemma map_gpa_agrees_witness :
  exists s', xh_vm_setup_memory true (4 * GB) VM_MMAP_ALL start = Return (0, s') /\
    all_state VCPU_IDLE (xvm s') /\
    lowmem (gmem s') = 3 * GB /\ lowmem (gmem s') + highmem (gmem s') = 4 * GB /\
    forall gpa n, 0 <= gpa -> 0 < n -> gpa + n < 2 ^ 64 ->
      xh_vm_map_gpa gpa n s' = Return (vm_gpa2hva gpa n (xvm s'), s') /\
      (is_Some (vm_gpa2hva gpa n (xvm s')) <-> in_guest_memory (gmem s') gpa n).
Proof.
  apply (map_gpa_agrees (4 * GB) start); try done. apply start_idle.
Defined.

(** With [VM_MMAP_NONE] the address is stored through a null pointer. *)
Example mmap_none_crashes : xh_vm_setup_memory true 0x1000 VM_MMAP_NONE start = Panic.
Proof. reflexivity. Qed.
End ApiExample.
