(* ===== verification/Inout.v ===== *)
(** * I/O ports (src/src/inout.c, src/src/vmm/vmm_ioport.c)

    The table of port handlers of the user level, the emulation of IN, OUT,
    INS and OUTS on it, and the fixed table of the handlers inside the monitor,
    which is tried first.  A handler is a value of [H] with the argument it was
    registered with; what it does is the parameter [run_handler]. *)

From S2P Require Import Prelude Effects VmmCommon VieDecode Vmm Paging VieEmul VieRefine VieString InstEmul VmApi.

Local Open Scope cmd_scope.

Definition MAX_IOPORTS : Z := 65536.
Definition IOPORT_F_IN : Z := 0x1.
Definition IOPORT_F_OUT : Z := 0x2.
Definition IOPORT_F_INOUT : Z := Z.lor IOPORT_F_IN IOPORT_F_OUT.
Definition IOPORT_F_DEFAULT : Z := 0x80000000.

(** ** The table *)
Section Table.
Context {H : Type}.

(** A handler of the table: none yet, [default_inout] or a device. *)
Inductive inout_func : Type := NullFunc | DefaultFunc | DeviceFunc (h : H).

(** Names are compared as pointers; 0 is the literal of [default_inout]. *)
Record ioentry : Type := mk_ioentry { io_name : Z; io_flags : Z; io_handler : inout_func }.

Record inout_port : Type := mk_iop { iop_name : Z; iop_port : Z; iop_size : Z; iop_flags : Z; iop_handler : inout_func }.

Local Abbreviation ports := (Z -> ioentry).

Definition VERIFY_IOPORT (port size : Z) : bool := (0 <=? port) && (0 <? size) && (port + size <=? MAX_IOPORTS).

Definition entry_of (iop : inout_port) : ioentry := mk_ioentry (iop_name iop) (iop_flags iop) (iop_handler iop).

Definition set_handler (i : Z) (e : ioentry) (t : ports) : ports := fun j => if j =? i then e else t j.

Definition is_default (e : ioentry) : bool := tst (io_flags e) IOPORT_F_DEFAULT.

(** The two loops over the ports of the range. *)
Fixpoint all_default (n : nat) (i : Z) (t : ports) : bool :=
  match n with O => true | S n => is_default (t i) && all_default n (i + 1) t end.

Fixpoint set_handlers (n : nat) (i : Z) (e : ioentry) (t : ports) : ports :=
  match n with O => t | S n => set_handlers n (i + 1) e (set_handler i e t) end.

Definition register_inout (iop : inout_port) : cmd ports Z :=
  KASSERT (VERIFY_IOPORT (iop_port iop) (iop_size iop)) ;;;
  t <- gets id ;;
  if negb (tst (iop_flags iop) IOPORT_F_DEFAULT) && negb (all_default (Z.to_nat (iop_size iop)) (iop_port iop) t)
  then ret (-1)
  else update (set_handlers (Z.to_nat (iop_size iop)) (iop_port iop) (entry_of iop)) ;;; ret 0.

Definition register_default_iohandler (start size : Z) : cmd ports unit :=
  KASSERT (VERIFY_IOPORT start size) ;;;
  register_inout (mk_iop 0 start size (Z.lor IOPORT_F_INOUT IOPORT_F_DEFAULT) DefaultFunc) ;;; skip.

Definition unregister_inout (iop : inout_port) : cmd ports Z :=
  KASSERT (VERIFY_IOPORT (iop_port iop) (iop_size iop)) ;;;
  e <- gets (fun t => t (iop_port iop)) ;;
  KASSERT (io_name e =? iop_name iop) ;;;
  register_default_iohandler (iop_port iop) (iop_size iop) ;;; ret 0.

(** The static set of ports, [INOUT_PORT]. *)
Fixpoint overwrite (l : list inout_port) : cmd ports unit :=
  match l with
  | [] => skip
  | iop :: l =>
      KASSERT (iop_port iop <? MAX_IOPORTS) ;;;
      update (set_handler (iop_port iop) (entry_of iop)) ;;; overwrite l
  end.

Definition init_inout (inout_port_set : list inout_port) : cmd ports unit :=
  register_default_iohandler 0 MAX_IOPORTS ;;; overwrite inout_port_set.

(** ** What the table stands for *)

Definition default_entry : ioentry := mk_ioentry 0 (Z.lor IOPORT_F_INOUT IOPORT_F_DEFAULT) DefaultFunc.

Definition covers (p : Z) (iop : inout_port) : bool := (iop_port iop <=? p) && (p <? iop_port iop + iop_size iop).

(** The handler of a port: that of the registration that covers it, else the
    static one, else the default. *)
Definition dispatch (static : list inout_port) (live : list inout_port) (p : Z) : ioentry :=
  match List.find (covers p) live with
  | Some iop => entry_of iop
  | None => match List.find (fun iop => iop_port iop =? p) static with
            | Some iop => entry_of iop
            | None => default_entry
            end
  end.

(** Ports a registration may take. *)
Definition unclaimed (static live : list inout_port) (p : Z) : bool :=
  negb (existsb (covers p) live) && negb (existsb (fun iop => iop_port iop =? p) static).

Definition can_register (static live : list inout_port) (iop : inout_port) : bool :=
  forallb (unclaimed static live) (seqZ (iop_port iop) (iop_size iop)).

Definition device_iop (iop : inout_port) : Prop :=
  VERIFY_IOPORT (iop_port iop) (iop_size iop) = true /\ tst (iop_flags iop) IOPORT_F_DEFAULT = false.

Record static_ok (static : list inout_port) : Prop := {
  st_distinct : NoDup (iop_port <$> static);
  st_iop iop : iop ∈ static -> device_iop iop;
}.

(** Two registrations share no port. *)
Definition separate (x y : inout_port) : Prop := forall p, covers p x = true -> covers p y = true -> False.

Record table_ok (static live : list inout_port) (t : ports) : Prop := {
  tb_dispatch p : 0 <= p < MAX_IOPORTS -> t p = dispatch static live p;
  tb_iop iop : iop ∈ live -> device_iop iop;
  tb_static iop p : iop ∈ live -> covers p iop = true -> existsb (fun x => iop_port x =? p) static = false;
  tb_apart : ForallOrdPairs separate live;
}.

Lemma in_range iop p : device_iop iop -> covers p iop = true -> 0 <= p < MAX_IOPORTS.
Proof. intros [Hv _] Hc. unfold VERIFY_IOPORT, covers in *. bools. lia. Qed.

Lemma set_handlers_spec n i e t j :
  set_handlers n i e t j = if (i <=? j) && (j <? i + Z.of_nat n) then e else t j.
Proof.
  revert i t. induction n as [|n IH]; intros i t; cbn [set_handlers].
  - destruct (Z.leb_spec i j), (Z.ltb_spec j (i + Z.of_nat 0)); cbn; done || lia.
  - rewrite IH. unfold set_handler.
    destruct (Z.eqb_spec j i), (Z.leb_spec (i + 1) j), (Z.ltb_spec j (i + 1 + Z.of_nat n)), (Z.leb_spec i j),
      (Z.ltb_spec j (i + Z.of_nat (S n))); cbn; done || lia.
Qed.

Lemma all_default_spec n i t : all_default n i t = forallb (fun p => is_default (t p)) (seqZ i (Z.of_nat n)).
Proof.
  revert i. induction n as [|n IH]; intros i; [done|]. cbn [all_default]. rewrite IH.
  rewrite (seqZ_cons i (Z.of_nat (S n))) by lia. cbn [forallb]. do 3 f_equal; lia.
Qed.

Lemma entry_not_default iop : device_iop iop -> is_default (entry_of iop) = false.
Proof. by intros [_ Hf]. Qed.

Lemma find_none {A} (f : A -> bool) l : existsb f l = false -> List.find f l = None.
Proof.
  induction l as [|x l IH]; cbn; [done|]. intros E. apply orb_false_iff in E as [-> E]. by apply IH.
Qed.

Lemma find_existsb {A} (f : A -> bool) l : existsb f l = match List.find f l with Some _ => true | None => false end.
Proof. induction l as [|x l IH]; cbn; [done|]. rewrite IH. by destruct (f x). Qed.

(** A port is free exactly if its entry is the default one. *)
Lemma default_unclaimed static live t p : static_ok static -> table_ok static live t -> 0 <= p < MAX_IOPORTS ->
  is_default (t p) = unclaimed static live p.
Proof.
  intros Hs Ht Hp. rewrite (tb_dispatch _ _ _ Ht) by done. unfold dispatch, unclaimed. rewrite !find_existsb.
  destruct (List.find _ live) as [iop|] eqn:E1.
  { apply List.find_some in E1 as [Hin _]. apply list_elem_of_In in Hin. by apply entry_not_default, (tb_iop _ _ _ Ht). }
  destruct (List.find _ static) as [iop|] eqn:E2; [|done].
  apply List.find_some in E2 as [Hin _]. apply list_elem_of_In in Hin. by apply entry_not_default, (st_iop _ Hs).
Qed.

Lemma fop_middle {A} (R : A -> A -> Prop) l1 x l2 : ForallOrdPairs R (l1 ++ x :: l2) ->
  ForallOrdPairs R (l1 ++ l2) /\ Forall (fun y => R y x) l1 /\ Forall (R x) l2.
Proof.
  induction l1 as [|y l1 IH]; cbn; intros Hf; inversion_clear Hf as [|? ? Hy Hl]; [done|].
  destruct (IH Hl) as (H1 & H2 & H3). apply Forall_app in Hy as [Hy1 Hy2]. inversion_clear Hy2.
  split; [constructor; [by apply Forall_app|done]|]. by split; [constructor|].
Qed.

Lemma existsb_separate p l (P : inout_port -> Prop) : Forall P l -> (forall x, P x -> covers p x = true -> False) ->
  existsb (covers p) l = false.
Proof.
  intros Hl HP. apply not_true_iff_false. intros (x & Hx & Hc)%existsb_exists.
  rewrite List.Forall_forall in Hl. by apply (HP x); [apply Hl|].
Qed.

Lemma can_register_spec static live iop : can_register static live iop = true <->
  forall p, covers p iop = true -> unclaimed static live p = true.
Proof.
  unfold can_register. rewrite forallb_forall. split; intros Hall p Hp; apply Hall.
  - apply list_elem_of_In, elem_of_seqZ. unfold covers in Hp. bools. lia.
  - apply list_elem_of_In, elem_of_seqZ in Hp. unfold covers. apply andb_true_iff. rewrite Z.leb_le, Z.ltb_lt. lia.
Qed.

Lemma register_ok static live t iop : static_ok static -> table_ok static live t -> device_iop iop ->
  exists t', register_inout iop t = Return (if can_register static live iop then 0 else -1, t') /\
    if can_register static live iop then table_ok static (iop :: live) t' else t' = t.
Proof.
  intros Hs Ht Hi. pose proof Hi as [Hv Hf]. unfold register_inout. rewrite KASSERT_true by done.
  unfold bind at 1, gets, id. rewrite Hf. cbn [negb andb].
  assert (Hsz : Z.of_nat (Z.to_nat (iop_size iop)) = iop_size iop) by (unfold VERIFY_IOPORT in Hv; bools; lia).
  assert (Eall : all_default (Z.to_nat (iop_size iop)) (iop_port iop) t = can_register static live iop).
  { rewrite all_default_spec, Hsz. unfold can_register. apply eq_true_iff_eq. rewrite !forallb_forall.
    split; intros Hall p Hp; specialize (Hall p Hp); rewrite <- Hall; [symmetry|];
      apply (default_unclaimed static live t); try done;
      apply list_elem_of_In, elem_of_seqZ in Hp; unfold VERIFY_IOPORT in Hv; bools; lia. }
  rewrite Eall. destruct (can_register static live iop) eqn:Ec; cbn [negb]; [|by eexists].
  eexists. split; [reflexivity|]. pose proof (proj1 (can_register_spec _ _ _) Ec) as Hfree. split.
  - intros p Hp. rewrite set_handlers_spec, Hsz. change ((iop_port iop <=? p) && (p <? iop_port iop + iop_size iop)) with (covers p iop).
    unfold dispatch. cbn [List.find]. destruct (covers p iop); [done|]. by apply (tb_dispatch _ _ _ Ht).
  - intros x [->|Hx]%elem_of_cons; [done|]. by apply (tb_iop _ _ _ Ht).
  - intros x p [->|Hx]%elem_of_cons Hp; [|by apply (tb_static _ _ _ Ht x)].
    specialize (Hfree p Hp). unfold unclaimed in Hfree. apply andb_true_iff in Hfree as [_ Hfree]. by apply negb_true_iff in Hfree.
  - constructor; [|apply (tb_apart _ _ _ Ht)]. apply List.Forall_forall. intros x Hx p H1 H2.
    specialize (Hfree p H1). unfold unclaimed in Hfree. apply andb_true_iff in Hfree as [Hfree _].
    apply negb_true_iff, not_true_iff_false in Hfree. apply Hfree, existsb_exists. by exists x.
Qed.

Lemma unregister_ok static l1 iop l2 t : static_ok static -> table_ok static (l1 ++ iop :: l2) t ->
  exists t', unregister_inout iop t = Return (0, t') /\ table_ok static (l1 ++ l2) t'.
Proof.
  intros Hs Ht. assert (Hi : device_iop iop) by (apply (tb_iop _ _ _ Ht); rewrite elem_of_app, elem_of_cons; auto).
  pose proof Hi as [Hv Hf].
  assert (Hsz : Z.of_nat (Z.to_nat (iop_size iop)) = iop_size iop) by (unfold VERIFY_IOPORT in Hv; bools; lia).
  destruct (fop_middle _ _ _ _ (tb_apart _ _ _ Ht)) as (H0 & H1 & H2).
  assert (Hown : forall p, covers p iop = true -> t p = entry_of iop /\ dispatch static (l1 ++ l2) p = default_entry).
  { intros p Hp. rewrite (tb_dispatch _ _ _ Ht) by (by apply (in_range iop)).
    unfold dispatch. rewrite !find_app, (find_none _ l1), (find_none _ l2).
    - cbn [List.find]. rewrite Hp. split; [done|].
      rewrite find_none; [done|]. apply (tb_static _ _ _ Ht iop); [|done]. rewrite elem_of_app, elem_of_cons. auto.
    - eapply existsb_separate; [exact H2|]. intros x Hx Hc. by apply (Hx p).
    - eapply existsb_separate; [exact H1|]. intros x Hx Hc. by apply (Hx p). }
  assert (Hfirst : covers (iop_port iop) iop = true).
  { unfold covers. unfold VERIFY_IOPORT in Hv. bools. apply andb_true_iff. rewrite Z.leb_le, Z.ltb_lt. lia. }
  unfold unregister_inout. rewrite KASSERT_true by done. unfold bind at 1, gets at 1.
  rewrite (proj1 (Hown _ Hfirst)). rewrite KASSERT_true by (by apply Z.eqb_refl).
  unfold register_default_iohandler, register_inout. unfold bind at 1. rewrite KASSERT_true by done. unfold bind at 1.
  rewrite KASSERT_true by done. eexists. split; [reflexivity|]. cbn [iop_size iop_port]. split.
  - intros p Hp. rewrite set_handlers_spec, Hsz. change ((iop_port iop <=? p) && (p <? iop_port iop + iop_size iop)) with (covers p iop).
    destruct (covers p iop) eqn:Ep; [by rewrite (proj2 (Hown _ Ep))|].
    rewrite (tb_dispatch _ _ _ Ht) by done. unfold dispatch. rewrite !find_app. cbn [List.find]. by rewrite Ep.
  - intros x Hx. apply (tb_iop _ _ _ Ht). rewrite elem_of_app, elem_of_cons. apply elem_of_app in Hx. tauto.
  - intros x p Hx. apply (tb_static _ _ _ Ht). rewrite elem_of_app, elem_of_cons. apply elem_of_app in Hx. tauto.
  - exact H0.
Qed.

Lemma overwrite_spec l t : NoDup (iop_port <$> l) -> (forall iop, iop ∈ l -> device_iop iop) ->
  exists t', overwrite l t = Return (tt, t') /\ forall p, t' p =
    match List.find (fun iop => iop_port iop =? p) l with Some iop => entry_of iop | None => t p end.
Proof.
  revert t. induction l as [|iop l IH]; intros t Hn Hd; [by exists t|].
  apply NoDup_cons in Hn as [Hni Hn]. destruct (Hd iop ltac:(by left)) as [Hv _].
  destruct (IH (set_handler (iop_port iop) (entry_of iop) t) Hn) as (t' & Ht' & Hp).
  { intros x Hx. apply Hd. by right. }
  exists t'. cbn [overwrite]. rewrite KASSERT_true.
  2: { unfold VERIFY_IOPORT in Hv. bools. apply Z.ltb_lt. lia. }
  split; [exact Ht'|]. intros p. rewrite Hp. cbn [List.find]. unfold set_handler. rewrite (Z.eqb_sym p).
  destruct (Z.eqb_spec (iop_port iop) p) as [<-|Hne]; [|done].
  destruct (List.find _ l) as [x|] eqn:E; [|done]. exfalso. apply List.find_some in E as [Hx Ex].
  apply Hni. apply list_elem_of_fmap. exists x. bools. by rewrite list_elem_of_In.
Qed.

Lemma init_ok static t0 : static_ok static -> exists t, init_inout static t0 = Return (tt, t) /\ table_ok static [] t.
Proof.
  intros [Hn Hd]. enough (Hwp : wp (init_inout static) (fun _ t => table_ok static [] t) t0).
  { destruct (wp_elim _ _ _ Hwp) as ([] & t & E & Hok). by exists t. }
  unfold init_inout, register_default_iohandler, register_inout.
  apply wp_bind, wp_bind, wp_KASSERT; [done|]. apply wp_bind, wp_bind, wp_KASSERT; [done|].
  apply wp_bind, wp_gets, wp_if; [done|]. intros _. apply wp_bind, wp_update, wp_ret, wp_skip.
  match goal with |- wp _ _ ?t => destruct (overwrite_spec static t Hn Hd) as (t' & Ht' & Hp) end.
  unfold wp. rewrite Ht'. split; [|by intros x ?%elem_of_nil|by intros x p ?%elem_of_nil|constructor].
  intros p Hr. rewrite Hp. unfold dispatch. cbn [List.find].
  destruct (List.find _ static); [done|]. rewrite set_handlers_spec. cbn [iop_port iop_size].
  rewrite Z2Nat.id by done. rewrite (proj2 (Z.leb_le 0 p)), (proj2 (Z.ltb_lt p _)) by lia. done.
Qed.

(** The tables that registrations build, with the registrations that are live. *)
Inductive port_reach (static : list inout_port) : list inout_port -> ports -> Prop :=
| pr_init t0 t : init_inout static t0 = Return (tt, t) -> port_reach static [] t
| pr_register iop live t e t' : port_reach static live t -> device_iop iop -> register_inout iop t = Return (e, t') ->
    port_reach static (if e =? 0 then iop :: live else live) t'
| pr_unregister l1 iop l2 t e t' : port_reach static (l1 ++ iop :: l2) t -> unregister_inout iop t = Return (e, t') ->
    port_reach static (l1 ++ l2) t'.

Lemma port_reach_ok static live t : static_ok static -> port_reach static live t -> table_ok static live t.
Proof.
  intros Hs. induction 1 as [t0 t Hi|iop live t e t' _ IH Hd Hr|l1 iop l2 t e t' _ IH Hr].
  - destruct (init_ok static t0 Hs) as (t1 & E & Hok). rewrite E in Hi. by injection Hi as <-.
  - destruct (register_ok static live t iop Hs IH Hd) as (t1 & E & Hok). rewrite E in Hr. injection Hr as <- <-.
    destruct (can_register static live iop); [done|]. by subst.
  - destruct (unregister_ok static l1 iop l2 t Hs IH) as (t1 & E & Hok). rewrite E in Hr. by injection Hr as _ <-.
Qed.
End Table.
Arguments inout_func : clear implicits.
Arguments ioentry : clear implicits.
Arguments inout_port : clear implicits.

(** C33: the port table implements the set of live registrations.  After any
    sequence of registrations and unregistrations each of the 65536 ports is
    handled by the registration that covers it, else by the static handler of
    that port, else by the default one; a new registration is accepted exactly
    if none of its ports is claimed, and refused without effect otherwise;
    a live registration can be undone. *)
Theorem ports_dispatch {H} (static live : list (inout_port H)) t (Hs : static_ok static) (Hr : port_reach static live t) :
  (forall p, 0 <= p < MAX_IOPORTS -> t p = dispatch static live p) /\
  (forall iop, device_iop iop -> exists t',
     register_inout iop t = Return (if can_register static live iop then 0 else -1, t') /\
     forall p, 0 <= p < MAX_IOPORTS ->
       t' p = dispatch static (if can_register static live iop then iop :: live else live) p) /\
  (forall l1 iop l2, live = l1 ++ iop :: l2 -> exists t', unregister_inout iop t = Return (0, t') /\
     forall p, 0 <= p < MAX_IOPORTS -> t' p = dispatch static (l1 ++ l2) p).
Proof.
  pose proof (port_reach_ok _ _ _ Hs Hr) as Ht. split; [by apply (tb_dispatch _ _ _ Ht)|]. split.
  - intros iop Hi. destruct (register_ok static live t iop Hs Ht Hi) as (t' & E & Hok). exists t'. split; [done|].
    destruct (can_register static live iop); [apply (tb_dispatch _ _ _ Hok)|subst; apply (tb_dispatch _ _ _ Ht)].
  - intros l1 iop l2 ->. destruct (unregister_ok static l1 iop l2 t Hs Ht) as (t' & E & Hok). exists t'.
    split; [done|]. apply (tb_dispatch _ _ _ Hok).
Qed.

(** ** IN, OUT, INS and OUTS *)

Record vm_inout : Type := mk_inout {
  ix_bytes : Z;
  ix_in : bool;
  ix_string : bool;
  ix_rep : bool;
  ix_port : Z;
  ix_eax : Z;
}.

Record vm_inout_str : Type := mk_inout_str {
  is_paging : vm_guest_paging;
  is_rflags : Z;
  is_cr0 : Z;
  is_index : Z;
  is_count : Z;
  is_addrsize : Z;
  is_seg_name : vm_reg_name;
  is_seg_desc : seg_desc;
}.

(** The user-level state: the port table and the rest of the devices. *)
Record iodevs (H V : Type) : Type := mk_iodevs { inout_handlers : Z -> ioentry H; iorest : V }.
Arguments mk_iodevs {H V}.
Arguments inout_handlers {H V}.
Arguments iorest {H V}.
#[export] Instance eta_iodevs {H V} : Eta (iodevs H V) := fun s => mk_iodevs (inout_handlers s) (iorest s).

Section Emulate.
Context {X D H V : Type} `{!VmmOps X}.
Local Abbreviation S := (xhyve X D (iodevs H V)).
Context (others : nat -> nat -> vm X D -> vm X D) (fuel : nat).
(** A device's handler: [handler(vcpu, in, port, bytes, &eax, arg)] gives its
    return value and [eax]. *)
Context (run_handler : H -> Z -> bool -> Z -> Z -> Z -> cmd S (Z * Z)).
Context (vcpu : Z).

Definition default_inout (input : bool) (bytes eax : Z) : Z :=
  if input then
    if bytes =? 4 then 0xffffffff else if bytes =? 2 then 0xffff else if bytes =? 1 then 0xff else eax
  else eax.

Definition call_handler (f : inout_func H) (input : bool) (port bytes eax : Z) : cmd S (Z * Z) :=
  match f with
  | NullFunc => fun _ => Panic
  | DefaultFunc => ret (0, default_inout input bytes eax)
  | DeviceFunc h => run_handler h vcpu input port bytes eax
  end.

Definition update_register (reg : vm_reg_name) (val size : Z) : cmd S Z :=
  if (size =? 1) || (size =? 2) then
    r <- xh_vm_get_register vcpu reg ;;
    if negb (r.1 =? 0) then ret r.1
    else xh_vm_set_register vcpu reg (Z.lor (Z.land val (size2mask size)) (clr r.2 (size2mask size)))
  else if size =? 4 then xh_vm_set_register vcpu reg (Z.land val 0xffffffff)
  else if size =? 8 then xh_vm_set_register vcpu reg val
  else ret EINVAL.

Section String.
Context (x : vm_inout) (vis : vm_inout_str) (f : inout_func H).
Local Abbreviation bytes := (ix_bytes x).
Local Abbreviation prot := (if ix_in x then XHYVE_PROT_WRITE else XHYVE_PROT_READ).

(** The loop; the result is [retval], [index] and [count]. *)
Fixpoint inout_loop (iterations : nat) (index count : Z) : cmd S (Z * Z * Z) :=
  match iterations with
  | O => ret (0, index, count)
  | Datatypes.S iterations =>
      g <- vie_calculate_gla (cpu_mode (is_paging vis)) (is_seg_name vis) (is_seg_desc vis) index bytes
             (is_addrsize vis) prot ;;
      match g with
      | None => xh_vm_inject_fault vcpu IDT_GP true 0 ;;; ret (0, index, count)
      | Some gla =>
          r <- xh_vm_copy_setup others fuel 2 vcpu (is_paging vis) gla bytes prot ;;
          let '(error, fault, iov) := r in
          if negb (error =? 0) then ret (-1, index, count)
          else if fault : bool then ret (0, index, count)
          else
            ac <- vie_alignment_check (cpl (is_paging vis)) bytes (is_cr0 vis) (is_rflags vis) gla ;;
            if ac : bool then xh_vm_inject_fault vcpu IDT_AC true 0 ;;; ret (0, index, count)
            else
              val <- (if ix_in x then ret 0 else b <- xh_vm_copyin iov bytes ;; ret (le_combine b)) ;;
              r <- call_handler f (ix_in x) (ix_port x) bytes val ;;
              if negb (r.1 =? 0) then ret (r.1, index, count)
              else
                when (ix_in x) (xh_vm_copyout (le_split (Z.to_nat bytes) r.2) iov bytes) ;;;
                inout_loop iterations (u64 (if tst (is_rflags vis) PSL_D then index - bytes else index + bytes))
                  (u64 (count - 1))
      end
  end.

Definition inout_string : cmd S Z :=
  let a := is_addrsize vis in
  KASSERT ((a =? 2) || (a =? 4) || (a =? 8)) ;;;
  let idxreg := if ix_in x then VM_REG_GUEST_RDI else VM_REG_GUEST_RSI in
  mask <- vie_size2mask a ;;
  let index := Z.land (is_index vis) mask in
  let count := Z.land (is_count vis) mask in
  r <- inout_loop (Z.to_nat (Z.min count 16)) index count ;;
  let '(retval, index, count) := r in
  error <- update_register idxreg index a ;;
  KASSERT (error =? 0) ;;;
  when (ix_rep x) (error <- update_register VM_REG_GUEST_RCX count a ;; KASSERT (error =? 0)) ;;;
  when ((retval =? 0) && negb (count =? 0)) (error <- xh_vm_restart_instruction vcpu ;; KASSERT (error =? 0)) ;;;
  ret retval.
End String.

Definition inout_plain (x : vm_inout) (f : inout_func H) : cmd S Z :=
  mask <- vie_size2mask (ix_bytes x) ;;
  r <- call_handler f (ix_in x) (ix_port x) (ix_bytes x) (Z.land (ix_eax x) mask) ;;
  when ((r.1 =? 0) && ix_in x) (
    error <- xh_vm_set_register vcpu VM_REG_GUEST_RAX (Z.lor (clr (ix_eax x) mask) (Z.land r.2 mask)) ;;
    KASSERT (error =? 0)) ;;;
  ret r.1.

Definition is_default_func (f : inout_func H) : bool := match f with DefaultFunc => true | _ => false end.

(** [vis] are the further fields of the exit of a string instruction. *)
Definition emulate_inout (x : vm_inout) (vis : vm_inout_str) (strict : bool) : cmd S Z :=
  KASSERT (ix_port x <? MAX_IOPORTS) ;;;
  KASSERT ((ix_bytes x =? 1) || (ix_bytes x =? 2) || (ix_bytes x =? 4)) ;;;
  e <- gets (fun s => inout_handlers (user s) (ix_port x)) ;;
  if strict && is_default_func (io_handler e) then ret (-1) else
  if negb (tst (io_flags e) (if ix_in x then IOPORT_F_IN else IOPORT_F_OUT)) then ret (-1) else
  if ix_string x then inout_string x vis (io_handler e) else inout_plain x (io_handler e).
End Emulate.

(** ** Commands that may stop

    [wpe c Q E s]: if [c] returns from [s], then with [Q]; if it does not, [E]. *)
Definition wpe {S A} (c : cmd S A) (Q : A -> S -> Prop) (E : Prop) (s : S) : Prop :=
  match c s with Return (a, s') => Q a s' | _ => E end.

Lemma wpe_wp {S A} (c : cmd S A) Q E s : wp c Q s -> wpe c Q E s.
Proof. unfold wp, wpe. by destruct (c s) as [[a s']| |]. Qed.
Lemma wpe_bind {S A B} (c : cmd S A) (k : A -> cmd S B) Q E s : wpe c (fun a s' => wpe (k a) Q E s') E s -> wpe (bind c k) Q E s.
Proof. unfold wpe, bind. by destruct (c s) as [[a s']| |]. Qed.
Lemma wpe_after {S A B} (c : cmd S A) (k : A -> cmd S B) Q E s : wp c (fun a s' => wpe (k a) Q E s') s -> wpe (bind c k) Q E s.
Proof. intros H. by apply wpe_bind, wpe_wp. Qed.
Lemma wpe_conseq {S A} (c : cmd S A) (P Q : A -> S -> Prop) E s : wpe c P E s -> (forall a s', P a s' -> Q a s') -> wpe c Q E s.
Proof. unfold wpe. destruct (c s) as [[a s']| |]; auto. Qed.
Lemma wpe_escape {S A} (c : cmd S A) Q (E E' : Prop) s : (E -> E') -> wpe c Q E s -> wpe c Q E' s.
Proof. unfold wpe. destruct (c s) as [[a s']| |]; auto. Qed.
Lemma wpe_if {S A} (b : bool) (c d : cmd S A) Q E s :
  (b = true -> wpe c Q E s) -> (b = false -> wpe d Q E s) -> wpe (if b then c else d) Q E s.
Proof. destruct b; auto. Qed.

(** ** What the emulation relies on *)
Section Correct.
Context {X D H V : Type} `{!VmmOps X, !VmmLaws X}.
Local Abbreviation S := (xhyve X D (iodevs H V)).
Implicit Types (m : vm X D) (s : S).
Context (others : nat -> nat -> vm X D -> vm X D) (N : nat).
Context (run_handler : H -> Z -> bool -> Z -> Z -> Z -> cmd S (Z * Z)).
Context (vcpu : Z) (Hi : is_vcpu vcpu).

(** The number of handler calls so far; an observation of the devices. *)
Context (calls : V -> nat).

Definition ncalls s : nat := calls (iorest (user s)).

(** A handler may change devices and guest memory, not this CPU. *)
Record handler_step s s' : Prop := {
  hs_cookie : cookie (xvm s') = cookie (xvm s);
  hs_vcpus : vcpus (xvm s') = vcpus (xvm s);
  hs_segs : mem_segs (xvm s') = mem_segs (xvm s) /\ next_object (xvm s') = next_object (xvm s);
  hs_bytes : bytes_ok (host_mem (xvm s)) -> bytes_ok (host_mem (xvm s'));
  hs_gmem : gmem s' = gmem s;
}.

(** A handler may also stop the program; if it returns, it has kept this CPU. *)
Definition handlers_frame : Prop := forall h input port bytes eax s r s',
  run_handler h vcpu input port bytes eax s = Return (r, s') -> handler_step s s' /\ ncalls s' = Datatypes.S (ncalls s).

(** The state in which the user level runs: the CPU is idle and has no pending
    exception, and guest memory is mapped. *)
Record io_ready s : Prop := {
  io_idle : idle vcpu (xvm s);
  io_pending : exception_pending (get_vcpu vcpu (xvm s)) = false;
  io_cpus : has_vcpus (xvm s);
  io_segs : segs_ok (xvm s);
  io_bytes : bytes_ok (host_mem (xvm s));
  io_mapped : mmap_style (gmem s) = VM_MMAP_ALL;
}.

(** *** Registers *)

Lemma undo_cookie m c : has_vcpus m -> idle vcpu m ->
  set_state vcpu VCPU_IDLE (set_state vcpu VCPU_FROZEN m <| cookie := c |>) = m <| cookie := c |>.
Proof.
  intros Hc Hd. change (set_state vcpu VCPU_IDLE (set_state vcpu VCPU_FROZEN m) <| cookie := c |> = m <| cookie := c |>).
  by rewrite set_state_undo.
Qed.

Lemma xget r s : has_vcpus (xvm s) -> idle vcpu (xvm s) -> r <> VM_REG_LAST ->
  xh_vm_get_register vcpu r s = Return ((0, view vcpu (xvm s) r), s).
Proof.
  intros Hc Hd Hr. destruct (wp_elim (xh_vm_get_register vcpu r) (fun a s' => a = (0, view vcpu (xvm s) r) /\ s' = s) s)
    as (a & s' & E & -> & ->); [|exact E].
  apply wp_frozen; [done|done|]. apply wp_get_register; [done|done|]. split; [by apply frozen_state|].
  split; [done|]. rewrite set_state_undo by done. by destruct s.
Qed.

Lemma xset r x s : has_vcpus (xvm s) -> idle vcpu (xvm s) -> operand_reg r ->
  xh_vm_set_register vcpu r x s = Return (0, s <| xvm ::= setr vcpu r x |>).
Proof.
  intros Hc Hd [Hr Hn].
  destruct (wp_elim (xh_vm_set_register vcpu r x) (fun a s' => a = 0 /\ s' = s <| xvm ::= setr vcpu r x |>) s)
    as (a & s' & E & -> & ->); [|exact E].
  apply wp_frozen; [done|done|]. apply wp_set_register; [done|by left|done|]. split; [by apply frozen_state|].
  split; [done|]. by rewrite undo_cookie.
Qed.

Lemma xupdate r x n s : has_vcpus (xvm s) -> idle vcpu (xvm s) -> operand_reg r -> operand_size n -> x in_u 64 ->
  update_register vcpu r x n s = Return (0, s <| xvm ::= setr vcpu r (put_reg n r x (view vcpu (xvm s)) r) |>).
Proof.
  intros Hc Hd Hr Hn Hx. unfold update_register, put_reg, upd. rewrite bool_decide_eq_true_2 by done.
  assert (Hl : r <> VM_REG_LAST) by (by apply operand_real).
  destruct Hn as [->|[->|[->| ->]]]; cbn [Z.eqb orb Pos.eqb].
  - unfold bind. rewrite xget by done. cbn [fst snd Z.eqb negb]. rewrite merge_low, xset by (try done; by left). done.
  - unfold bind. rewrite xget by done. cbn [fst snd Z.eqb negb]. rewrite merge_low, xset by (try done; by right; left). done.
  - rewrite xset by done. change 0xffffffff with (size2mask 4). rewrite land_mask by (by right; right; left). done.
  - rewrite xset by done. unfold low. rewrite Z.mod_small; [done|]. exact Hx.
Qed.

Lemma xrestart s : has_vcpus (xvm s) -> idle vcpu (xvm s) ->
  wp (xh_vm_restart_instruction vcpu) (fun e s' => e = 0 /\ s' = s <| xvm ::= fun m => m <| vcpus := vcpus (xvm s') |> |> /\
    has_vcpus (xvm s') /\
    get_vcpu vcpu (xvm s') = get_vcpu vcpu (xvm s) <| nextrip := view vcpu (xvm s) VM_REG_GUEST_RIP |>) s.
Proof.
  intros Hc Hd. apply wp_frozen; [done|done|]. set (m1 := set_state vcpu VCPU_FROZEN (xvm s)).
  assert (Hc1 : has_vcpus m1) by (by apply has_vcpus_set).
  assert (Hf : state (get_vcpu vcpu m1) = VCPU_FROZEN) by (by apply frozen_state).
  unfold vm_restart_instruction. rewrite bad_vcpuid_false by done. unfold vcpu_get_state. rewrite bad_vcpuid_false by done.
  apply wp_bind, wp_bind, wp_KASSERT; [done|]. apply wp_gets. rewrite Hf. apply wp_bind, wp_get_register; [done|done|].
  apply wp_bind, wp_KASSERT; [done|]. apply wp_bind, wp_update, wp_ret. cbn [fst snd].
  change (vmgetreg vcpu VM_REG_GUEST_RIP (cookie m1)).2 with (view vcpu (xvm s) VM_REG_GUEST_RIP).
  set (rip := view vcpu (xvm s) VM_REG_GUEST_RIP).
  set (m2 := m1 <| vcpus ::= alter (fun v => v <| nextrip := rip |>) (Z.to_nat vcpu) |>).
  assert (Hc2 : has_vcpus m2) by (by apply has_vcpus_alter).
  assert (Hg : get_vcpu vcpu m2 = get_vcpu vcpu m1 <| nextrip := rip |>) by (unfold m2; by rewrite get_vcpu_alter).
  assert (Hb : get_vcpu vcpu (set_state vcpu VCPU_IDLE m2) = get_vcpu vcpu (xvm s) <| nextrip := rip |>).
  { rewrite get_set_state, Hg by done. unfold m1. rewrite get_set_state by done. unfold idle in Hd.
    destruct (get_vcpu vcpu (xvm s)). cbn in *. by subst. }
  split; [by rewrite Hg|]. split; [done|]. split; [done|]. split; [by apply has_vcpus_set|]. exact Hb.
Qed.

(** *** Faults *)

(** [s] with a fault injected. *)
Record xraised s s' : Prop := {
  xr_pending : exception_pending (get_vcpu vcpu (xvm s')) = true;
  xr_idle : idle vcpu (xvm s');
  xr_cpus : has_vcpus (xvm s');
  xr_regs r : r <> VM_REG_GUEST_CR2 -> r <> VM_REG_GUEST_INTR_SHADOW -> view vcpu (xvm s') r = view vcpu (xvm s) r;
  xr_user : user s' = user s;
}.

(** [s] up to the contents of memory. *)
Record xshares s s' : Prop := {
  xs_vm : xvm s' = xvm s <| host_mem := host_mem (xvm s') |>;
  xs_bytes : bytes_ok (host_mem (xvm s'));
  xs_gmem : gmem s' = gmem s;
  xs_user : user s' = user s;
}.

Lemma xshares_refl s : io_ready s -> xshares s s.
Proof. intros []. split; try done. by destruct (xvm s). Qed.

Lemma xshares_trans s1 s2 s3 : xshares s1 s2 -> xshares s2 s3 -> xshares s1 s3.
Proof.
  intros [E1 _ G1 U1] [E2 B2 G2 U2]. split; [|done|congruence|congruence]. rewrite E2. cbn [host_mem]. rewrite E1. done.
Qed.

Lemma xshares_ready s s' : io_ready s -> xshares s s' -> io_ready s'.
Proof.
  intros [H1 H2 H3 [] H5 H6] [E B G _]. split; [by rewrite E|by rewrite E|by rewrite E|by rewrite E|done|by rewrite G].
Qed.

Lemma frozen_ready s : io_ready s -> let m := set_state vcpu VCPU_FROZEN (xvm s) in
  segs_ok m /\ bytes_ok (host_mem m) /\ has_vcpus m /\ can_inject vcpu m.
Proof.
  intros [H1 H2 H3 H4 H5 H6] m. split; [by destruct H4|]. split; [done|]. split; [by apply has_vcpus_set|].
  split; unfold m; rewrite get_set_state by done; [done|by right].
Qed.

(** A call of the monitor that leaves all but memory alone, or faults. *)
Lemma shares_back s m : io_ready s -> shares (set_state vcpu VCPU_FROZEN (xvm s)) m ->
  state (get_vcpu vcpu m) = VCPU_FROZEN /\ xshares s (s <| xvm := set_state vcpu VCPU_IDLE m |>).
Proof.
  intros [H1 H2 H3 H4 H5 H6] [E B]. split; [rewrite E; exact (frozen_state vcpu (xvm s) Hi H3)|].
  assert (Em : set_state vcpu VCPU_IDLE m = xvm s <| host_mem := host_mem m |>).
  { rewrite E. change (set_state vcpu VCPU_IDLE (set_state vcpu VCPU_FROZEN (xvm s)) <| host_mem := host_mem m |> =
      xvm s <| host_mem := host_mem m |>). by rewrite set_state_undo. }
  by split.
Qed.

Lemma raised_back s m : io_ready s -> raised vcpu (set_state vcpu VCPU_FROZEN (xvm s)) m ->
  state (get_vcpu vcpu m) = VCPU_FROZEN /\ xraised s (s <| xvm := set_state vcpu VCPU_IDLE m |>).
Proof.
  intros Hs [R1 R2 R3 R4 R5 R6 R7]. destruct Hs. split; [rewrite R7; by apply frozen_state|].
  split; try done.
  - change (exception_pending (get_vcpu vcpu (set_state vcpu VCPU_IDLE m)) = true). by rewrite get_set_state.
  - unfold idle. change (state (get_vcpu vcpu (set_state vcpu VCPU_IDLE m)) = VCPU_IDLE). by rewrite get_set_state.
  - by apply has_vcpus_set.
  - intros r N1 N2. exact (f_equal snd (R6 r N1 N2)).
Qed.

Lemma xraised_trans s1 s2 s3 : xshares s1 s2 -> xraised s2 s3 -> xraised s1 s3.
Proof.
  intros [E _ _ U] [R1 R2 R3 R4 R5]. split; try done; [|congruence]. intros r N1 N2. rewrite R4 by done. by rewrite E.
Qed.

Lemma inject_exception_of (c : cmd (vm X D) Z) (Q : unit -> vm X D -> Prop) m :
  wp (e <- c ;; KASSERT (e =? 0)) Q m -> wp c (fun e m' => e = 0 /\ Q tt m') m.
Proof.
  unfold wp, bind, KASSERT. destruct (c m) as [[e m']| |]; try done. destruct (Z.eqb_spec e 0); done.
Qed.

Lemma xinject vector s (Q : unit -> S -> Prop) : io_ready s -> 0 <= vector < 32 -> vector <> IDT_DF ->
  (forall s', xraised s s' -> Q tt s') -> wp (xh_vm_inject_fault vcpu vector true 0) Q s.
Proof.
  intros Hs Hv Hdf HQ. destruct (frozen_ready s Hs) as (F1 & F2 & F3 & F4).
  apply wp_bind, wp_frozen; [done|apply Hs|]. set (m1 := set_state vcpu VCPU_FROZEN (xvm s)) in *.
  eapply (wp_conseq _ (fun e m => e = 0 /\ raised vcpu m1 m)).
  - apply (inject_exception_of _ (fun _ m => raised vcpu m1 m)).
    change (wp (vm_inject_fault vcpu vector true 0) (fun _ m => raised vcpu m1 m) m1).
    by apply (inject_fault_raised vcpu Hi m1).
  - intros e m [-> Hr]. destruct (raised_back s m Hs Hr) as [Hf Hx]. split; [done|]. by apply HQ.
Qed.

(** *** Copies *)

Context (Hmem : memory_only others) (Hquiet : forall a, (N <= a)%nat -> quiet others a).

Lemma xgla2gpa paging gla prot s (Q : Z * bool * Z -> S -> Prop) : io_ready s -> cr3 paging in_u 52 -> gla in_u 64 ->
  (forall gpa s', xshares s s' -> same_offset gla gpa -> Q (0, false, gpa) s') ->
  (forall gpa s', xraised s s' -> Q (0, true, gpa) s') ->
  (forall gpa s', xshares s s' -> Q (EFAULT, false, gpa) s') ->
  wp (xh_vm_gla2gpa others (Datatypes.S (Datatypes.S N)) vcpu paging gla prot) Q s.
Proof.
  intros Hs Hcr Hg H1 H2 H3. destruct (frozen_ready s Hs) as (F1 & F2 & F3 & F4).
  apply wp_frozen; [done|apply Hs|]. set (m1 := set_state vcpu VCPU_FROZEN (xvm s)) in *.
  apply (gla2gpa_settles others vcpu Hi paging gla prot Hg Hcr m1); try done; [by apply memory_only_tame|].
  intros r m [(gpa & -> & Hm & Ho)|[(gpa & -> & Hm)|(gpa & -> & Hm)]].
  - destruct (shares_back s m Hs Hm). auto.
  - destruct (raised_back s m Hs Hm). auto.
  - destruct (shares_back s m Hs Hm). auto.
Qed.

(** The regions of a set-up: none empty, together [len] bytes. *)
Definition iov_ok (len : Z) (iov : list vm_copyinfo) : Prop :=
  Forall (fun c => 0 < ci_len c) iov /\ foldr (fun c n => ci_len c + n) 0 iov = len.

Lemma xcopy_setup paging prot cnt : cr3 paging in_u 52 -> forall gla len s (Q : Z * bool * list vm_copyinfo -> S -> Prop),
  io_ready s -> gla in_u 64 -> 0 <= len ->
  (0 < len -> gla mod XHYVE_PAGE_SIZE + len <= Z.of_nat cnt * XHYVE_PAGE_SIZE) ->
  (forall iov s', xshares s s' -> iov_ok len iov -> Q (0, false, iov) s') ->
  (forall iov s', xraised s s' -> Q (0, true, iov) s') ->
  (forall iov s', xshares s s' -> Q (EFAULT, false, iov) s') ->
  wp (xh_vm_copy_setup others (Datatypes.S (Datatypes.S N)) cnt vcpu paging gla len prot) Q s.
Proof.
  intros Hcr. induction cnt as [|cnt IH]; intros gla len s Q Hs Hg H0 Hfit H1 H2 H3; cbn [xh_vm_copy_setup];
    destruct (Z.ltb_spec 0 len) as [Hpos|Hpos]; try (apply wp_ret, H1; [by apply xshares_refl|split; [done|cbn; lia]]).
  { specialize (Hfit Hpos). pose proof (Z.mod_pos_bound gla XHYVE_PAGE_SIZE ltac:(done)). lia. }
  specialize (Hfit Hpos). apply wp_bind, xgla2gpa; try done; cbn [Z.eqb negb orb];
    [|intros; by apply wp_ret, H2|intros; by apply wp_ret, H3].
  intros gpa s1 Hs1 Ho. change XHYVE_PAGE_MASK with (Z.ones 12). rewrite Z.land_ones by lia.
  change (2 ^ 12) with XHYVE_PAGE_SIZE. unfold same_offset in Ho. rewrite Ho.
  set (off := gla mod XHYVE_PAGE_SIZE) in *. assert (Hoff : 0 <= off < XHYVE_PAGE_SIZE) by (by apply Z.mod_pos_bound).
  set (n := Z.min len (XHYVE_PAGE_SIZE - off)). pose proof (xshares_ready s s1 Hs Hs1) as Hr1.
  apply wp_bind. unfold xh_vm_map_gpa. apply wp_bind, wp_gets, wp_bind, wp_KASSERT.
  { by rewrite (io_mapped _ Hr1). }
  apply wp_gets. destruct (map_gpa gpa n (gmem s1)) as [va|]; [|by apply wp_ret, H3].
  apply wp_bind, IH; try done; [apply u64_in_u|lia|..].
  - intros Hrem. assert (n = XHYVE_PAGE_SIZE - off) as -> by lia.
    unfold u64. change XHYVE_PAGE_SIZE with (2 ^ 12) in *. rewrite mod_pow_mod by lia.
    replace (gla + (2 ^ 12 - off)) with (gla - off + 1 * 2 ^ 12) by lia. rewrite Z.mod_add by lia.
    unfold off. rewrite Zminus_mod_idemp_r, Z.sub_diag. change (0 mod 2 ^ 12) with 0. lia.
  - intros iov s2 Hs2 [Hf Hl]. apply wp_ret, H1; [by eapply xshares_trans|].
    split; [constructor; [cbn; lia|done]|cbn; lia].
  - intros iov s2 Hs2. apply wp_ret, H2. by eapply xraised_trans.
  - intros iov s2 Hs2. apply wp_ret, H3. by eapply xshares_trans.
Qed.

Lemma copyin_iov_spec iov (m : hva -> Z) : forall len, bytes_ok m -> iov_ok len iov ->
  exists l, copyin_iov iov len m = Some l /\ length l = Z.to_nat len /\ Forall (fun b => b in_u 8) l.
Proof.
  induction iov as [|c iov IH]; intros len Hm [Hf Hl]; cbn in Hl.
  { subst len. by exists []. }
  inversion_clear Hf as [|? ? Hc Hf']. cbn [copyin_iov].
  assert (Hrest : 0 <= foldr (fun c n => ci_len c + n) 0 iov).
  { clear -Hf'. induction Hf' as [|x k Hx Hk IH]; cbn; lia. }
  rewrite (proj2 (Z.ltb_lt 0 len)), (proj2 (Z.eqb_neq (ci_len c) 0)), Z.min_r by lia.
  destruct (IH (len - ci_len c) Hm) as (l & -> & Hlen & Hb); [split; [done|lia]|].
  eexists. split; [done|]. split; [rewrite length_app, length_read_bytes; lia|].
  apply Forall_app_2; [by apply read_bytes_range|done].
Qed.

Lemma copyout_iov_spec iov : forall src len (m : hva -> Z), bytes_ok m -> Forall (fun b => b in_u 8) src -> iov_ok len iov ->
  exists m' : hva -> Z, copyout_iov src iov len m = Some m' /\ bytes_ok m'.
Proof.
  induction iov as [|c iov IH]; intros src len m Hm Hb [Hf Hl]; cbn in Hl.
  { subst len. by exists m. }
  inversion_clear Hf as [|? ? Hc Hf']. cbn [copyout_iov].
  assert (Hrest : 0 <= foldr (fun c n => ci_len c + n) 0 iov).
  { clear -Hf'. induction Hf' as [|x k Hx Hk IH]; cbn; lia. }
  rewrite (proj2 (Z.ltb_lt 0 len)), (proj2 (Z.eqb_neq (ci_len c) 0)), Z.min_r by lia.
  apply IH; [apply write_bytes_ok; [done|by apply Forall_take]|by apply Forall_drop|split; [done|lia]].
Qed.

(** [vie_alignment_check] returns, in any state. *)
Lemma alignment_returns cl n cr0 rf g s : is_size n = true -> 0 <= cl <= 3 ->
  exists b : bool, vie_alignment_check cl n cr0 rf g s = Return (b, s).
Proof.
  intros Hn Hc. unfold vie_alignment_check, bind, KASSERT. rewrite Hn.
  rewrite (proj2 (Z.leb_le 0 cl)), (proj2 (Z.leb_le cl 3)) by lia. cbn [andb].
  destruct (_ || _); eexists; reflexivity.
Qed.

(** *** The loop *)
Section Loop.
Context (x : vm_inout) (vis : vm_inout_str) (f : inout_func H).
Context (Hhandlers : handlers_frame).

Record string_ok : Prop := {
  sto_bytes : ix_bytes x = 1 \/ ix_bytes x = 2 \/ ix_bytes x = 4;
  sto_cr3 : cr3 (is_paging vis) in_u 52;
  sto_cpl : 0 <= cpl (is_paging vis) <= 3;
  sto_addr : addrsize_ok (cpu_mode (is_paging vis)) (is_addrsize vis);
  sto_seg : data_seg (is_seg_name vis);
  sto_desc : cpu_mode (is_paging vis) <> CPU_MODE_64BIT -> desc_ok (is_seg_desc vis);
  sto_func : f <> NullFunc;
}.
Context (Hok : string_ok).

(** The index register after [k] elements. *)
Definition index_after (k : nat) (index : Z) : Z :=
  u64 (if tst (is_rflags vis) PSL_D then index - Z.of_nat k * ix_bytes x else index + Z.of_nat k * ix_bytes x).

(** The calls of a device that [k] elements take. *)
Definition counted (k : nat) : nat := match f with DeviceFunc _ => k | _ => 0%nat end.

(** The CPU is as it was; memory and devices may differ. *)
Record cpu_kept s s' : Prop := {
  ck_cookie : cookie (xvm s') = cookie (xvm s);
  ck_vcpus : vcpus (xvm s') = vcpus (xvm s);
  ck_ready : io_ready s';
}.

(** A fault was injected into the CPU; its other registers are as they were. *)
Record cpu_faulted s s' : Prop := {
  cf_pending : exception_pending (get_vcpu vcpu (xvm s')) = true;
  cf_idle : idle vcpu (xvm s');
  cf_cpus : has_vcpus (xvm s');
  cf_regs r : r <> VM_REG_GUEST_CR2 -> r <> VM_REG_GUEST_INTR_SHADOW -> view vcpu (xvm s') r = view vcpu (xvm s) r;
}.

(** The device of the port stopped the program, called with a value of the
    instruction while the CPU was as in [s0]. *)
Definition handler_stopped s0 : Prop := exists h v s1, f = DeviceFunc h /\ cpu_kept s0 s1 /\
  forall r s2, run_handler h vcpu (ix_in x) (ix_port x) (ix_bytes x) v s1 <> Return (r, s2).

Inductive loop_end s (n k : nat) : Z -> S -> Prop :=
| le_all s' : k = n -> cpu_kept s s' -> ncalls s' = (ncalls s + counted k)%nat -> loop_end s n k 0 s'
| le_fault s' : (k < n)%nat -> cpu_faulted s s' -> ncalls s' = (ncalls s + counted k)%nat -> loop_end s n k 0 s'
| le_error e s' : (k < n)%nat -> e <> 0 -> cpu_kept s s' ->
    (ncalls s' = (ncalls s + counted k)%nat \/ ncalls s' = (ncalls s + counted (Datatypes.S k))%nat) -> loop_end s n k e s'.

Lemma shares_cpu_kept s s' : io_ready s -> xshares s s' -> cpu_kept s s'.
Proof.
  intros Hs Hx. pose proof (xshares_ready s s' Hs Hx). destruct Hx as [E _ _ _]. split; [by rewrite E|by rewrite E|done].
Qed.

Lemma kept_view_io s s' r : cpu_kept s s' -> view vcpu (xvm s') r = view vcpu (xvm s) r.
Proof. intros [E _ _]. unfold view. by rewrite E. Qed.

Lemma cpu_kept_trans s1 s2 s3 : cpu_kept s1 s2 -> cpu_kept s2 s3 -> cpu_kept s1 s3.
Proof. intros [? ? _] [? ? ?]. split; congruence. Qed.

Lemma raised_faulted s s1 s2 : cpu_kept s s1 -> xraised s1 s2 -> cpu_faulted s s2.
Proof.
  intros K [R1 R2 R3 R4 _]. split; try done. intros r N1 N2. by rewrite R4, (kept_view_io s s1).
Qed.

Lemma ncalls_user s s' : user s' = user s -> ncalls s' = ncalls s.
Proof. unfold ncalls. by intros ->. Qed.

Lemma handler_kept s s' : io_ready s -> handler_step s s' -> cpu_kept s s'.
Proof.
  intros [H1 H2 H3 [] H5 H6] [E1 E2 [E3 E4] E5 E6]. split; [done|done|].
  assert (Hg : get_vcpu vcpu (xvm s') = get_vcpu vcpu (xvm s)) by (unfold get_vcpu; by rewrite E2).
  split; [unfold idle; by rewrite Hg|by rewrite Hg|unfold has_vcpus; by rewrite E2| |by apply E5|by rewrite E6].
  split; by rewrite ?E3, ?E4.
Qed.

Lemma call_spec s0 v s : f <> NullFunc -> io_ready s -> cpu_kept s0 s ->
  wpe (call_handler run_handler vcpu f (ix_in x) (ix_port x) (ix_bytes x) v)
     (fun _ s' => cpu_kept s s' /\ ncalls s' = (ncalls s + counted 1)%nat) (handler_stopped s0) s.
Proof.
  intros Hnull Hs K. unfold call_handler, counted, handler_stopped. destruct f as [| |h]; [done|..].
  - apply wpe_wp, wp_ret. split; [|lia]. by split.
  - unfold wpe. destruct (run_handler h vcpu _ _ _ _ s) as [[r s']| |] eqn:E.
    + destruct (Hhandlers _ _ _ _ _ _ _ _ E) as [Hst Hn]. split; [by apply handler_kept|]. rewrite Hn. lia.
    + exists h, v, s. split; [done|]. split; [done|]. intros r s2. by rewrite E.
    + exists h, v, s. split; [done|]. split; [done|]. intros r s2. by rewrite E.
Qed.

Lemma index_step k index : index_after k (u64 (if tst (is_rflags vis) PSL_D then index - ix_bytes x else index + ix_bytes x)) =
  index_after (Datatypes.S k) index.
Proof.
  unfold index_after, u64. destruct (tst (is_rflags vis) PSL_D).
  - rewrite Zminus_mod_idemp_l. f_equal. lia.
  - rewrite Zplus_mod_idemp_l. f_equal. lia.
Qed.

Lemma index_zero index : index in_u 64 -> index_after 0 index = index.
Proof. intros Hx. unfold index_after. rewrite Z.mul_0_l, Z.sub_0_r, Z.add_0_r. destruct (tst _ _); by apply u64_id. Qed.

Definition loop_post s (n : nat) (index count : Z) (r : Z * Z * Z) s' : Prop :=
  exists k, (k <= n)%nat /\ r.1.2 = index_after k index /\ r.2 = count - Z.of_nat k /\ loop_end s n k r.1.1 s'.

(** A later stretch of the loop, after one element. *)
Lemma loop_post_step s s1 n index count r s' :
  cpu_kept s s1 -> ncalls s1 = (ncalls s + counted 1)%nat ->
  loop_post s1 n (u64 (if tst (is_rflags vis) PSL_D then index - ix_bytes x else index + ix_bytes x)) (count - 1) r s' ->
  loop_post s (Datatypes.S n) index count r s'.
Proof.
  intros K Hn (k & Hk & E1 & E2 & Hend). exists (Datatypes.S k). split; [lia|]. split; [by rewrite E1, index_step|].
  split; [lia|].
  assert (Hc : forall j, (counted (Datatypes.S j) = counted 1 + counted j)%nat) by (intros j; unfold counted; by destruct f).
  inversion Hend as [s2 -> K2 N2|s2 Hlt F2 N2|e s2 Hlt He K2 N2]; subst s2.
  - apply le_all; [done|by eapply cpu_kept_trans|]. specialize (Hc n). lia.
  - apply le_fault; [lia| |specialize (Hc k); lia]. destruct F2 as [F1 F2 F3 F4]. split; try done.
    intros r' H1 H2. by rewrite F4, (kept_view_io s s1).
  - apply le_error; [lia|done|by eapply cpu_kept_trans|]. pose proof (Hc (Datatypes.S k)). specialize (Hc k). lia.
Qed.

Lemma operand_bytes : is_size (ix_bytes x) = true /\ 1 <= ix_bytes x <= 4.
Proof. destruct (sto_bytes Hok) as [-> | [-> | ->]]; split; try done; lia. Qed.

Local Abbreviation prot := (if ix_in x then XHYVE_PROT_WRITE else XHYVE_PROT_READ).

(** The handler's part of an element, memory being accessible. *)
Lemma transfer_spec s0 iov s (Q : Z * Z * Z -> S -> Prop) index count (k : cmd S (Z * Z * Z)) :
  io_ready s -> cpu_kept s0 s -> iov_ok (ix_bytes x) iov ->
  (forall e s', e <> 0 -> cpu_kept s s' -> ncalls s' = (ncalls s + counted 1)%nat -> Q (e, index, count) s') ->
  (forall s', cpu_kept s s' -> ncalls s' = (ncalls s + counted 1)%nat -> wpe k Q (handler_stopped s0) s') ->
  wpe (val <- (if ix_in x then ret 0 else b <- xh_vm_copyin iov (ix_bytes x) ;; ret (le_combine b)) ;;
      r <- call_handler run_handler vcpu f (ix_in x) (ix_port x) (ix_bytes x) val ;;
      if negb (r.1 =? 0) then ret (r.1, index, count)
      else when (ix_in x) (xh_vm_copyout (le_split (Z.to_nat (ix_bytes x)) r.2) iov (ix_bytes x)) ;;; k) Q (handler_stopped s0) s.
Proof.
  intros Hs K0 Hiov He Hk. apply wpe_after.
  assert (Hval : forall Q' : Z -> S -> Prop, (forall v, Q' v s) ->
    wp (if ix_in x then ret 0 else b <- xh_vm_copyin iov (ix_bytes x) ;; ret (le_combine b)) Q' s).
  { intros Q' HQ'. destruct (ix_in x); [by apply wp_ret|]. apply wp_bind. unfold wp at 1, xh_vm_copyin.
    destruct (copyin_iov_spec iov (host_mem (xvm s)) (ix_bytes x) (io_bytes _ Hs) Hiov) as (l & -> & _). by apply wp_ret. }
  apply Hval. intros v. apply wpe_bind. eapply wpe_conseq; [by apply call_spec; [apply Hok|..]|]. cbv beta. intros r s1 [K1 N1].
  apply wpe_if; intros Er.
  - apply wpe_wp, wp_ret, He; [|done|done]. apply negb_true_iff, Z.eqb_neq in Er. done.
  - apply wpe_after. apply wp_when; intros Ei; [|by apply Hk]. unfold wp at 1, xh_vm_copyout.
    destruct (copyout_iov_spec iov (le_split (Z.to_nat (ix_bytes x)) r.2) (ix_bytes x) (host_mem (xvm s1))
      (io_bytes _ (ck_ready _ _ K1)) (le_split_bytes _ _) Hiov) as (m' & -> & Hb').
    apply Hk; [|exact N1]. destruct K1 as [C1 C2 [R1 R2 R3 [] R5 R6]]. by split.
Qed.

Lemma loop_spec s0 n : forall index count s, io_ready s -> cpu_kept s0 s -> index in_u 64 -> Z.of_nat n <= count -> count in_u 64 ->
  wpe (inout_loop others (Datatypes.S (Datatypes.S N)) run_handler vcpu x vis f n index count) (loop_post s n index count)
    (handler_stopped s0) s.
Proof.
  destruct operand_bytes as [Hsz Hb]. destruct Hok as [_ Hcr Hcpl Hadr Hseg Hdesc _].
  induction n as [|n IH]; intros index count s Hs K0 Hx Hle Hc; cbn [inout_loop].
  { apply wpe_wp, wp_ret. exists 0%nat. split; [done|]. split; [by rewrite index_zero|]. split; [cbn; lia|].
    apply le_all; [done|by split|unfold counted; destruct f; lia]. }
  assert (Hstop : forall s1 e, loop_end s (Datatypes.S n) 0 e s1 -> loop_post s (Datatypes.S n) index count (e, index, count) s1).
  { intros s1 e Hend. exists 0%nat. split; [lia|]. split; [by rewrite index_zero|]. split; [cbn; lia|done]. }
  assert (Hcnt0 : counted 0 = 0%nat) by (unfold counted; by destruct f).
  assert (Hprot : 0 <= prot <= 3) by (destruct (ix_in x); by vm_compute).
  assert (Hfault : forall s1 s2, xshares s s1 -> xraised s1 s2 -> loop_end s (Datatypes.S n) 0 0 s2).
  { intros s1 s2 S1 R2. apply le_fault; [lia|eapply raised_faulted; [by apply shares_cpu_kept|done]|].
    rewrite Hcnt0, (ncalls_user s1 s2), (ncalls_user s s1); [lia|apply S1|apply R2]. }
  apply wpe_after. unfold wp at 1. rewrite calculate_gla_returns by (done || by destruct Hx).
  match goal with |- context [if ?b then Some _ else None] => destruct b end.
  2: { apply wpe_after, xinject; [done|unfold IDT_GP; lia|done|]. intros s1 R1. apply wpe_wp, wp_ret, Hstop.
       apply (Hfault s); [by apply xshares_refl|done]. }
  set (g := gla_of _ _ _ _ _). assert (Hgr : g in_u 64) by apply gla_of_range. clearbody g.
  apply wpe_after, xcopy_setup; try done; [lia| | | |]; cbn [Z.eqb negb].
  - intros _. pose proof (Z.mod_pos_bound g XHYVE_PAGE_SIZE ltac:(done)). unfold XHYVE_PAGE_SIZE in *. lia.
  - intros iov s1 S1 Hiov. pose proof (xshares_ready _ _ Hs S1) as Hs1.
    apply wpe_after. unfold wp at 1.
    destruct (alignment_returns (cpl (is_paging vis)) (ix_bytes x) (is_cr0 vis) (is_rflags vis) g s1 Hsz Hcpl) as [[] ->].
    + apply wpe_after, xinject; [done|unfold IDT_AC; lia|done|].
      intros s2 R2. apply wpe_wp, wp_ret, Hstop. by apply (Hfault s1).
    + pose proof (shares_cpu_kept s s1 Hs S1) as K1.
      assert (N1 : ncalls s1 = ncalls s) by (apply ncalls_user, S1).
      apply transfer_spec; [done|by eapply cpu_kept_trans|done|..].
      * intros e s2 He K2 N2. apply Hstop. apply le_error; [lia|done|by eapply cpu_kept_trans|].
        right. by rewrite N2, N1.
      * intros s2 K2 N2. eapply wpe_conseq; [apply IH|].
        -- apply K2.
        -- do 2 (eapply cpu_kept_trans; [|done]). done.
        -- apply u64_in_u.
        -- destruct Hc. rewrite u64_id; lia.
        -- apply u64_in_u.
        -- intros r s3 Hp. eapply (loop_post_step s s2); [by eapply cpu_kept_trans|by rewrite N2, N1|].
           destruct Hc. rewrite (u64_id (count - 1)) in Hp by lia. exact Hp.
  - intros iov s1 R1. apply wpe_wp, wp_ret, Hstop. apply (Hfault s); [by apply xshares_refl|done].
  - intros iov s1 S1. apply wpe_wp, wp_ret, Hstop. apply le_error; [lia|done|by apply shares_cpu_kept|].
    left. rewrite Hcnt0, (ncalls_user s s1); [lia|apply S1].
Qed.

(** *** The whole instruction *)

Local Abbreviation asize := (is_addrsize vis).

Definition idxreg : vm_reg_name := if ix_in x then VM_REG_GUEST_RDI else VM_REG_GUEST_RSI.
Definition start_index : Z := low asize (is_index vis).
Definition start_count : Z := low asize (is_count vis).
Definition batch : nat := Z.to_nat (Z.min start_count 16).

(** The registers after [k] elements. *)
Definition io_regs (k : nat) (g : rfile) : rfile :=
  let g := put_reg asize idxreg (index_after k start_index) g in
  if ix_rep x then put_reg asize VM_REG_GUEST_RCX (start_count - Z.of_nat k) g else g.

Definition next_rip s : Z := nextrip (get_vcpu vcpu (xvm s)).

Inductive string_end s (k : nat) : Z -> S -> Prop :=
| se_done s' : k = batch -> exception_pending (get_vcpu vcpu (xvm s')) = false ->
    ncalls s' = (ncalls s + counted k)%nat ->
    next_rip s' = (if Z.of_nat k =? start_count then next_rip s else view vcpu (xvm s) VM_REG_GUEST_RIP) ->
    string_end s k 0 s'
| se_fault s' : (k < batch)%nat -> exception_pending (get_vcpu vcpu (xvm s')) = true ->
    ncalls s' = (ncalls s + counted k)%nat -> next_rip s' = view vcpu (xvm s) VM_REG_GUEST_RIP -> string_end s k 0 s'
| se_error e s' : (k < batch)%nat -> e <> 0 -> exception_pending (get_vcpu vcpu (xvm s')) = false ->
    (ncalls s' = (ncalls s + counted k)%nat \/ ncalls s' = (ncalls s + counted (Datatypes.S k))%nat) ->
    next_rip s' = next_rip s -> string_end s k e s'.

Definition string_result s (retval : Z) s' : Prop :=
  exists k, (k <= batch)%nat /\ idle vcpu (xvm s') /\
    (forall r, r <> VM_REG_GUEST_CR2 -> r <> VM_REG_GUEST_INTR_SHADOW ->
       view vcpu (xvm s') r = io_regs k (view vcpu (xvm s)) r) /\
    string_end s k retval s'.

Definition agree (g h : rfile) : Prop := forall r, r <> VM_REG_GUEST_CR2 -> r <> VM_REG_GUEST_INTR_SHADOW -> g r = h r.

Lemma agree_put n r v g h : r <> VM_REG_GUEST_CR2 -> r <> VM_REG_GUEST_INTR_SHADOW -> agree g h ->
  agree (put_reg n r v g) (put_reg n r v h).
Proof.
  intros H1 H2 Ha q Hq1 Hq2. unfold put_reg, upd. case_bool_decide; [|by apply Ha].
  by rewrite (Ha r).
Qed.

Lemma asize_operand : operand_size asize /\ is_size asize = true.
Proof.
  pose proof (sto_addr Hok) as Ha. unfold addrsize_ok in Ha. unfold operand_size.
  destruct (cpu_mode (is_paging vis)); destruct Ha as [-> | ->]; auto.
Qed.

(** Writing a register from the user level. *)
Lemma xput r v s (g : rfile) (Q : Z -> S -> Prop) : has_vcpus (xvm s) -> idle vcpu (xvm s) -> operand_reg r ->
  r <> VM_REG_GUEST_CR2 -> r <> VM_REG_GUEST_INTR_SHADOW -> v in_u 64 -> agree (view vcpu (xvm s)) g ->
  (forall s', agree (view vcpu (xvm s')) (put_reg asize r v g) -> vcpus (xvm s') = vcpus (xvm s) -> user s' = user s -> Q 0 s') ->
  wp (update_register vcpu r v asize) Q s.
Proof.
  intros Hc Hd Hr H1 H2 Hv Hg HQ. destruct asize_operand as [Hn _]. unfold wp. rewrite xupdate by done.
  apply HQ; [|done|done]. intros q Hq1 Hq2. rewrite <- (agree_put asize r v _ _ H1 H2 Hg q Hq1 Hq2).
  change (view vcpu (setr vcpu r (put_reg asize r v (view vcpu (xvm s)) r) (xvm s)) q =
    put_reg asize r v (view vcpu (xvm s)) q).
  rewrite view_setr by (done || by apply put_reg_range). unfold put_reg, upd at 1 3. case_bool_decide; [|done].
  subst. unfold upd. by rewrite bool_decide_eq_true_2.
Qed.

Lemma io_regs_rip k g : io_regs k g VM_REG_GUEST_RIP = g VM_REG_GUEST_RIP.
Proof. unfold io_regs, idxreg, put_reg, upd. by destruct (ix_rep x), (ix_in x). Qed.

(** The end of the instruction: index, count and restart. *)
Lemma finish_spec k retval s s1 (Q : Z -> S -> Prop) :
  has_vcpus (xvm s1) -> idle vcpu (xvm s1) -> agree (view vcpu (xvm s1)) (view vcpu (xvm s)) -> (Z.of_nat k <= start_count) ->
  (forall s', idle vcpu (xvm s') -> agree (view vcpu (xvm s')) (io_regs k (view vcpu (xvm s))) ->
     exception_pending (get_vcpu vcpu (xvm s')) = exception_pending (get_vcpu vcpu (xvm s1)) -> ncalls s' = ncalls s1 ->
     next_rip s' = (if (retval =? 0) && negb (start_count - Z.of_nat k =? 0) then view vcpu (xvm s) VM_REG_GUEST_RIP
                    else next_rip s1) -> Q retval s') ->
  wp (error <- update_register vcpu idxreg (index_after k start_index) asize ;;
      KASSERT (error =? 0) ;;;
      when (ix_rep x) (error <- update_register vcpu VM_REG_GUEST_RCX (start_count - Z.of_nat k) asize ;; KASSERT (error =? 0)) ;;;
      when ((retval =? 0) && negb (start_count - Z.of_nat k =? 0))
        (error <- xh_vm_restart_instruction vcpu ;; KASSERT (error =? 0)) ;;;
      ret retval) Q s1.
Proof.
  intros Hc Hd Ha Hk HQ. destruct asize_operand as [Hn _].
  assert (Hcnt : start_count - Z.of_nat k in_u 64) by (pose proof (low_range64 asize (is_count vis) Hn); unfold start_count in *; lia).
  apply wp_bind, (xput idxreg _ s1 (view vcpu (xvm s))); try done;
    [by unfold idxreg; destruct (ix_in x)..|apply u64_in_u|].
  intros s2 A2 V2 U2. apply wp_bind, wp_KASSERT; [done|].
  assert (Hc2 : has_vcpus (xvm s2)) by (unfold has_vcpus; by rewrite V2).
  assert (G2 : get_vcpu vcpu (xvm s2) = get_vcpu vcpu (xvm s1)) by (unfold get_vcpu; by rewrite V2).
  apply wp_bind, (wp_conseq _ (fun _ s3 => agree (view vcpu (xvm s3)) (io_regs k (view vcpu (xvm s))) /\
    vcpus (xvm s3) = vcpus (xvm s1) /\ user s3 = user s1)).
  { unfold io_regs. apply wp_when; intros ->; [|done].
    apply wp_bind, (xput VM_REG_GUEST_RCX _ s2 (put_reg asize idxreg (index_after k start_index) (view vcpu (xvm s)))); try done.
    - unfold idle. by rewrite G2.
    - intros s3 A3 V3 U3. apply wp_KASSERT; [done|]. split; [done|]. split; congruence. }
  intros _ s3 (A3 & V3 & U3).
  assert (Hc3 : has_vcpus (xvm s3)) by (unfold has_vcpus; by rewrite V3).
  assert (G3 : get_vcpu vcpu (xvm s3) = get_vcpu vcpu (xvm s1)) by (unfold get_vcpu; by rewrite V3).
  assert (Hd3 : idle vcpu (xvm s3)) by (unfold idle; by rewrite G3).
  apply wp_bind, wp_when; intros Er; rewrite Er in HQ.
  - apply wp_bind. eapply wp_conseq; [by apply xrestart|]. cbv beta. intros e s4 (-> & E4 & _ & G4).
    apply wp_KASSERT; [done|]. apply wp_ret.
    assert (Ev : forall r, view vcpu (xvm s4) r = view vcpu (xvm s3) r) by (intros r; by rewrite E4).
    assert (Hrip : view vcpu (xvm s3) VM_REG_GUEST_RIP = view vcpu (xvm s) VM_REG_GUEST_RIP).
    { rewrite A3, io_regs_rip by done. done. }
    apply HQ; unfold next_rip, idle, ncalls.
    + rewrite G4. exact Hd3.
    + intros r H1 H2. rewrite Ev. by apply A3.
    + rewrite G4, <- G3. done.
    + rewrite E4. change (calls (iorest (user s3)) = calls (iorest (user s1))). by rewrite U3.
    + rewrite G4. exact Hrip.
  - apply wp_ret, HQ; try done; unfold next_rip, ncalls; by rewrite ?G3, ?U3.
Qed.

Lemma string_spec s : io_ready s ->
  wpe (inout_string others (Datatypes.S (Datatypes.S N)) run_handler vcpu x vis f) (string_result s) (handler_stopped s) s.
Proof.
  intros Hs. destruct asize_operand as [Hn Hsz]. unfold inout_string.
  apply wpe_after, wp_KASSERT.
  { pose proof (sto_addr Hok) as Ha. unfold addrsize_ok in Ha. by destruct (cpu_mode (is_paging vis)); destruct Ha as [-> | ->]. }
  apply wpe_after, wp_bind, wp_KASSERT; [done|]. apply wp_ret. rewrite !size_mask by done. fold (low asize (is_index vis)) (low asize (is_count vis)).
  fold start_index start_count. fold batch. pose proof (low_range64 asize (is_count vis) Hn) as Hc64. fold start_count in Hc64.
  assert (Hbatch : Z.of_nat batch <= start_count) by (unfold batch; lia).
  apply wpe_bind. eapply wpe_conseq; [apply (loop_spec s); try done; by apply low_range64|].
  intros [[retval index] count] s1 (k & Hk & E1 & E2 & Hend). cbn [fst snd] in *. subst index count.
  assert (Hcom : has_vcpus (xvm s1) /\ idle vcpu (xvm s1) /\ agree (view vcpu (xvm s1)) (view vcpu (xvm s))).
  { inversion Hend as [s2 _ K _|s2 _ F _|e s2 _ _ K _]; subst s2.
    1, 3: split; [apply K|]; split; [apply K|]; intros r _ _; by apply kept_view_io.
    split; [apply F|]. split; [apply F|]. intros r H1 H2. by apply (cf_regs _ _ F). }
  destruct Hcom as (Hc1 & Hd1 & Ha1).
  apply wpe_wp, (finish_spec k retval s s1); try done; [lia|]. intros s' Hd' Ha' Hp' Hn' Hr'.
  exists k. split; [done|]. split; [done|]. split; [exact Ha'|].
  inversion Hend as [s2 Ek K Nc|s2 Ek F Nc|e s2 Ek He K Nc]; subst s2.
  - subst k retval. apply se_done; [done|rewrite Hp'; apply K|congruence|]. rewrite Hr'. cbn [Z.eqb andb].
    destruct (Z.eqb_spec (start_count - Z.of_nat batch) 0), (Z.eqb_spec (Z.of_nat batch) start_count); try lia; [|done].
    cbn [negb]. unfold next_rip, get_vcpu. by rewrite (ck_vcpus _ _ K).
  - subst retval. apply se_fault; [done|rewrite Hp'; apply F|congruence|]. rewrite Hr'. cbn [Z.eqb andb].
    rewrite (proj2 (Z.eqb_neq _ 0)) by lia. done.
  - subst e. apply se_error; [done|done|rewrite Hp'; apply K|rewrite Hn'; exact Nc|]. rewrite Hr', (proj2 (Z.eqb_neq retval 0)) by done.
    cbn [andb]. unfold next_rip, get_vcpu. by rewrite (ck_vcpus _ _ K).
Qed.

(** *** IN and OUT *)

(** What IN leaves in RAX: the value in the low bytes, the rest of EAX above
    it, and zero in the upper half. *)
Definition in_value (n eax v : Z) : Z := low n v + 2 ^ (8 * n) * (eax / 2 ^ (8 * n)).

Inductive plain_result s (retval : Z) s' : Prop :=
| pl_call v s1 :
    call_handler run_handler vcpu f (ix_in x) (ix_port x) (ix_bytes x) (low (ix_bytes x) (ix_eax x)) s = Return ((retval, v), s1) ->
    cpu_kept s s1 ->
    s' = (if (retval =? 0) && ix_in x
          then s1 <| xvm ::= setr vcpu VM_REG_GUEST_RAX (in_value (ix_bytes x) (ix_eax x) v) |> else s1) ->
    plain_result s retval s'.

Lemma merge_in n eax v : operand_size n ->
  Z.lor (clr eax (size2mask n)) (Z.land v (size2mask n)) = in_value n eax v.
Proof. intros Hn. rewrite Z.lor_comm. by apply merge_low. Qed.

Lemma plain_spec s : f <> NullFunc -> io_ready s -> ix_bytes x = 1 \/ ix_bytes x = 2 \/ ix_bytes x = 4 ->
  wpe (inout_plain run_handler vcpu x f) (plain_result s) (handler_stopped s) s.
Proof.
  intros Hnull Hs Hb. assert (Hn : operand_size (ix_bytes x)) by (unfold operand_size; tauto).
  unfold inout_plain.
  apply wpe_after, wp_bind, wp_KASSERT; [by apply operand_size_is|]. apply wp_ret.
  rewrite (size_mask (ix_bytes x) (ix_eax x)) by (by apply operand_size_is). fold (low (ix_bytes x) (ix_eax x)).
  pose proof (call_spec s (low (ix_bytes x) (ix_eax x)) s Hnull Hs ltac:(done)) as Hc. unfold wpe in Hc. unfold wpe, bind.
  destruct (call_handler _ _ _ _ _ _ _ s) as [[[retval v] s1]| |] eqn:Hr; [|done..]. destruct Hc as [K1 _]. cbn [fst snd].
  assert (Hfin : forall s', s' = (if (retval =? 0) && ix_in x
          then s1 <| xvm ::= setr vcpu VM_REG_GUEST_RAX (in_value (ix_bytes x) (ix_eax x) v) |> else s1) ->
          plain_result s retval s') by (intros s' E; by apply (pl_call s retval s' v s1)).
  destruct ((retval =? 0) && ix_in x); cbn [when]; [|by apply Hfin].
  unfold bind. destruct (ck_ready _ _ K1). rewrite merge_in, xset by done. by apply Hfin.
Qed.
End Loop.

(** *** Any exit *)

(** An exit for a port, with the fields of a string instruction. *)
Record exit_ok (x : vm_inout) (vis : vm_inout_str) s : Prop := {
  ex_port : 0 <= ix_port x < MAX_IOPORTS;
  ex_bytes : ix_bytes x = 1 \/ ix_bytes x = 2 \/ ix_bytes x = 4;
  ex_func : io_handler (inout_handlers (user s) (ix_port x)) <> NullFunc;
  ex_string : ix_string x = true -> string_ok x vis (io_handler (inout_handlers (user s) (ix_port x)));
}.

(** The table refuses the access: no device for a strict machine, or a handler
    for the other direction only. *)
Definition refused (x : vm_inout) (strict : bool) s : bool :=
  let e := inout_handlers (user s) (ix_port x) in
  (strict && is_default_func (io_handler e)) || negb (tst (io_flags e) (if ix_in x then IOPORT_F_IN else IOPORT_F_OUT)).

Definition inout_result (x : vm_inout) (vis : vm_inout_str) (strict : bool) s (retval : Z) s' : Prop :=
  let f := io_handler (inout_handlers (user s) (ix_port x)) in
  if refused x strict s then retval = -1 /\ s' = s
  else if ix_string x then string_result x vis f s retval s'
  else plain_result x f s retval s'.

Lemma emulate_spec x vis strict s : handlers_frame -> io_ready s -> exit_ok x vis s ->
  wpe (emulate_inout others (Datatypes.S (Datatypes.S N)) run_handler vcpu x vis strict) (inout_result x vis strict s)
    (refused x strict s = false /\ handler_stopped x (io_handler (inout_handlers (user s) (ix_port x))) s) s.
Proof.
  intros Hh Hs [Hp Hb Hf Hok]. unfold emulate_inout. apply wpe_after, wp_KASSERT; [apply Z.ltb_lt; lia|].
  apply wpe_after, wp_KASSERT; [by destruct Hb as [-> | [-> | ->]]|].
  apply wpe_after, wp_gets. unfold inout_result, refused. cbv zeta.
  set (e := inout_handlers (user s) (ix_port x)) in *.
  apply wpe_if; intros E1; rewrite E1; cbn [orb]; [by apply wpe_wp, wp_ret|].
  apply wpe_if; intros E2; rewrite E2; [by apply wpe_wp, wp_ret|].
  eapply wpe_escape; [intros Hst; split; [reflexivity|exact Hst]|].
  apply wpe_if; intros E3; rewrite E3; [by apply string_spec; [|apply Hok|]|by apply plain_spec].
Qed.
End Correct.


(** *** A device that counts *)
Module InoutExample.

(** One device: reads give its counter, every call counts. *)
Definition counter (_ : unit) (_ : Z) (input : bool) (_ bytes eax : Z) : cmd (xhyve regs unit (iodevs unit nat)) (Z * Z) :=
  n <- gets (fun s => iorest (user s)) ;;
  update (fun s => s <| user ::= fun u => u <| iorest := S n |> |>) ;;;
  ret (0, if input then Z.of_nat n else eax).

Definition device_table : Z -> ioentry unit := fun p =>
  if p =? 0x3f8 then mk_ioentry 7 IOPORT_F_INOUT (DeviceFunc tt) else default_entry.

Definition running : xhyve regs unit (iodevs unit nat) :=
  mk_xhyve (machine vcpu0) (mk_guest_map VM_MMAP_ALL (3 * GB) 0x10000 0 (Some (1, 0)) None) (mk_iodevs device_table 5%nat).

Definition no_paging : vm_guest_paging := mk_paging 0 0 CPU_MODE_PROTECTED PAGING_MODE_FLAT.

(** REP INSB of 20 elements to offset 0x100 in a flat segment. *)
Definition rep_insb : vm_inout := mk_inout 1 true true true 0x3f8 0.
Definition rep_insb_str : vm_inout_str :=
  mk_inout_str no_paging 2 1 0x100 20 4 VM_REG_GUEST_ES (mk_seg_desc 0 0xffffffff 0xc093).

Definition nobody (_ _ : nat) (m : vm regs unit) : vm regs unit := m.

Lemma running_ready : io_ready 0 running.
Proof.
  split; try done. split; [|repeat constructor|cbn; lia].
  constructor; [|done]. split; try done. exists 1. split; [done|cbn; lia].
Qed.

Lemma rep_insb_ok : exit_ok rep_insb rep_insb_str running.
Proof.
  split; [by vm_compute|by left|done|]. intros _.
  split; [by left|done|done|by right|unfold data_seg; member| |done]. intros _. repeat split; by vm_compute.
Qed.


(** The first 16 elements: the counter's values in memory, the registers moved,
    the instruction to be executed again. *)
Example rep_insb_runs : match emulate_inout nobody 2 counter 0 rep_insb rep_insb_str false running with
  | Return (retval, s') => retval = 0 /\ iorest (user s') = 21%nat /\
      read_bytes_at 17 (1, 0x100) (host_mem (xvm s')) = map Z.of_nat (seq 5 16) ++ [0] /\
      view 0 (xvm s') VM_REG_GUEST_RDI = 0x110 /\ view 0 (xvm s') VM_REG_GUEST_RCX = 4
  | _ => False
  end.
Proof. by vm_compute. Qed.

(** IN AL, DX clears the upper half of RAX, which the processor leaves alone:
    the exit carries only EAX. *)
Example in_al_clears_rax :
  let s := running <| xvm ::= fun m => m <| cookie := fun _ _ => 0xffffffffffffffff |> |> in
  match emulate_inout nobody 2 counter 0 (mk_inout 1 true false false 0x3f8 0xffffffff) rep_insb_str false s with
  | Return (retval, s') => retval = 0 /\ view 0 (xvm s') VM_REG_GUEST_RAX = 0x00000000ffffff05
  | _ => False
  end.
Proof. by vm_compute. Qed.

(** The registers of PCI configuration space and a device of eight ports. *)
Definition static_ports : list (inout_port unit) :=
  map (fun p => mk_iop p p 1 IOPORT_F_INOUT (DeviceFunc tt)) [0xcf8; 0xcfc; 0xcfd; 0xcfe; 0xcff].
Definition eight_ports : inout_port unit := mk_iop 1 0x2000 8 IOPORT_F_INOUT (DeviceFunc tt).

Lemma static_ports_ok : static_ok static_ports.
Proof.
  split; [by apply (bool_decide_unpack _); vm_compute|].
  intros iop Hin. unfold static_ports in Hin. cbn in Hin.
  repeat (apply elem_of_cons in Hin as [->|Hin]; [by split|]). by apply elem_of_nil in Hin.
Qed.

Lemma ports_dispatch_witness : exists t, port_reach static_ports [eight_ports] t /\
  (forall p, 0 <= p < MAX_IOPORTS -> t p = dispatch static_ports [eight_ports] p) /\
  (forall iop, device_iop iop -> exists t',
     register_inout iop t = Return (if can_register static_ports [eight_ports] iop then 0 else -1, t') /\
     forall p, 0 <= p < MAX_IOPORTS ->
       t' p = dispatch static_ports (if can_register static_ports [eight_ports] iop then [iop; eight_ports] else [eight_ports]) p) /\
  (forall l1 iop l2, [eight_ports] = l1 ++ iop :: l2 -> exists t', unregister_inout iop t = Return (0, t') /\
     forall p, 0 <= p < MAX_IOPORTS -> t' p = dispatch static_ports (l1 ++ l2) p).
Proof.
  destruct (init_ok static_ports (fun _ => mk_ioentry 0 0 NullFunc) static_ports_ok) as (t0 & E0 & Hok0).
  destruct (register_ok static_ports [] t0 eight_ports static_ports_ok Hok0 ltac:(by split)) as (t & E & _).
  exists t. assert (Hr : port_reach static_ports [eight_ports] t).
  { refine (pr_register static_ports eight_ports [] t0 0 t (pr_init _ _ t0 E0) _ _); [by split|].
    rewrite E. by vm_compute. }
  split; [exact Hr|]. exact (ports_dispatch static_ports [eight_ports] t static_ports_ok Hr).
Defined.
End InoutExample.

(** ** The ports handled inside the monitor *)

Definition TIMER_CNTR0 : Z := 0x40.
Definition TIMER_CNTR1 : Z := 0x41.
Definition TIMER_CNTR2 : Z := 0x42.
Definition TIMER_MODE : Z := 0x43.
Definition NMISC_PORT : Z := 0x61.
Definition IO_ICU1 : Z := 0x20.
Definition IO_ICU2 : Z := 0xa0.
Definition IO_ELCR1 : Z := 0x4d0.
Definition IO_ELCR2 : Z := 0x4d1.
Definition IO_PMTMR : Z := 0x408.
Definition IO_RTC : Z := 0x70.
Definition MAX_VMM_IOPORTS : Z := 1280.
Definition EIO : Z := 5.

(** [vatpit_handler], [vatpit_nmisc_handler] and so on. *)
Inductive ioport_func : Type :=
| Vatpit | VatpitNmisc | VatpicMaster | VatpicSlave | VatpicElc
| Vpmtmr | VrtcAddr | VrtcData.

(** The initialised array; other entries are null. *)
Definition ioport_handlers : list (Z * ioport_func) :=
  [(TIMER_MODE, Vatpit); (TIMER_CNTR0, Vatpit); (TIMER_CNTR1, Vatpit);
   (TIMER_CNTR2, Vatpit); (NMISC_PORT, VatpitNmisc); (IO_ICU1, VatpicMaster);
   (IO_ICU1 + 1, VatpicMaster); (IO_ICU2, VatpicSlave); (IO_ICU2 + 1, VatpicSlave);
   (IO_ELCR1, VatpicElc); (IO_ELCR2, VatpicElc); (IO_PMTMR, Vpmtmr);
   (IO_RTC, VrtcAddr); (IO_RTC + 1, VrtcData)].

Definition ioport_handler (port : Z) : option ioport_func :=
  match List.find (fun e => e.1 =? port) ioport_handlers with Some e => Some e.2 | None => None end.

Section Monitor.
Context {X D : Type} `{!VmmOps X}.
Local Abbreviation M := (vm X D).
(** A handler's return value and [*val]; [uninit] is the uninitialised [val]. *)
Context (run_port : ioport_func -> Z -> bool -> Z -> Z -> Z -> cmd M (Z * Z)) (uninit : Z).
Context (vcpuid : Z).

(** The result: return value, [*retu] and the exit, whose [eax] IN updates. *)
Definition emulate_inout_port (x : vm_inout) : cmd M (Z * bool * vm_inout) :=
  match (if MAX_VMM_IOPORTS <=? ix_port x then None else ioport_handler (ix_port x)) with
  | None => ret (0, true, x)
  | Some h =>
      mask <- vie_size2mask (ix_bytes x) ;;
      let mask := u32 mask in
      r <- run_port h vcpuid (ix_in x) (ix_port x) (ix_bytes x) (if ix_in x then uninit else Z.land (ix_eax x) mask) ;;
      if negb (r.1 =? 0) then ret (EIO, false, x)
      else if ix_in x then
        let eax := Z.lor (clr (ix_eax x) mask) (Z.land r.2 mask) in
        error <- vm_set_register vcpuid VM_REG_GUEST_RAX eax ;;
        KASSERT (error =? 0) ;;;
        ret (0, false, mk_inout (ix_bytes x) (ix_in x) (ix_string x) (ix_rep x) (ix_port x) eax)
      else ret (0, false, x)
  end.

Definition vm_handle_inout (x : vm_inout) : cmd M (Z * bool * vm_inout) :=
  KASSERT ((ix_bytes x =? 1) || (ix_bytes x =? 2) || (ix_bytes x =? 4)) ;;;
  if ix_string x then ret (0, true, x) else emulate_inout_port x.
End Monitor.


Section MonitorCorrect.
Context {X D : Type} `{!VmmOps X, !VmmLaws X}.
Local Abbreviation M := (vm X D).
Implicit Types m : M.
Context (run_port : ioport_func -> Z -> bool -> Z -> Z -> Z -> cmd M (Z * Z)) (uninit vcpuid : Z) (Hi : is_vcpu vcpuid).

(** A handler returns, and changes devices only. *)
Definition ports_ok : Prop := forall h input port bytes val m,
  wp (run_port h vcpuid input port bytes val) (fun r m' => device_step m m' /\ r.2 in_u 32) m.

Inductive monitor_result (x : vm_inout) m : Z * bool * vm_inout -> M -> Prop :=
| mo_user : ix_string x = true \/ ioport_handler (ix_port x) = None -> monitor_result x m (0, true, x) m
| mo_error h v e y m1 : ix_string x = false -> ioport_handler (ix_port x) = Some h -> e <> 0 ->
    run_port h vcpuid (ix_in x) (ix_port x) (ix_bytes x) v m = Return ((e, y), m1) -> device_step m m1 ->
    monitor_result x m (EIO, false, x) m1
| mo_out h m1 y : ix_string x = false -> ioport_handler (ix_port x) = Some h -> ix_in x = false ->
    run_port h vcpuid false (ix_port x) (ix_bytes x) (low (ix_bytes x) (ix_eax x)) m = Return ((0, y), m1) ->
    device_step m m1 -> monitor_result x m (0, false, x) m1
| mo_in h y m1 : ix_string x = false -> ioport_handler (ix_port x) = Some h -> ix_in x = true ->
    run_port h vcpuid true (ix_port x) (ix_bytes x) uninit m = Return ((0, y), m1) -> device_step m m1 ->
    let eax := in_value (ix_bytes x) (ix_eax x) y in
    monitor_result x m (0, false, mk_inout (ix_bytes x) (ix_in x) (ix_string x) (ix_rep x) (ix_port x) eax)
      (setr vcpuid VM_REG_GUEST_RAX eax m1).

Lemma small_ports port h : ioport_handler port = Some h -> (MAX_VMM_IOPORTS <=? port) = false.
Proof.
  unfold ioport_handler. destruct (List.find _ _) as [e|] eqn:E; [|done]. intros _. apply List.find_some in E as [Hin Hp].
  apply Z.eqb_eq in Hp. subst. cbn in Hin. by repeat destruct Hin as [<-|Hin].
Qed.

Lemma handle_inout_spec x m : ports_ok -> ix_bytes x = 1 \/ ix_bytes x = 2 \/ ix_bytes x = 4 ->
  wp (vm_handle_inout run_port uninit vcpuid x) (monitor_result x m) m.
Proof.
  intros Hp Hb. unfold vm_handle_inout. apply wp_bind, wp_KASSERT; [by destruct Hb as [-> | [-> | ->]]|].
  apply wp_if; intros Es; [apply wp_ret, mo_user; by left|]. unfold emulate_inout_port.
  destruct (ioport_handler (ix_port x)) as [h|] eqn:Eh.
  2: { destruct (_ <=? _); apply wp_ret, mo_user; by right. }
  rewrite (small_ports _ _ Eh).
  assert (Hn : operand_size (ix_bytes x)) by (unfold operand_size; tauto).
  apply wp_bind, wp_bind, wp_KASSERT; [by apply operand_size_is|]. apply wp_ret.
  assert (Hu : u32 (size2mask (ix_bytes x)) = size2mask (ix_bytes x)) by (by destruct Hb as [-> | [-> | ->]]).
  cbv zeta. rewrite Hu, (size_mask (ix_bytes x) (ix_eax x)) by (by apply operand_size_is).
  fold (low (ix_bytes x) (ix_eax x)).
  set (v := if ix_in x then uninit else low (ix_bytes x) (ix_eax x)).
  destruct (wp_elim _ _ _ (Hp h (ix_in x) (ix_port x) (ix_bytes x) v m)) as ([e y] & m1 & Er & Hst & Hy).
  apply wp_bind. unfold wp at 1. rewrite Er. cbn [fst snd].
  apply wp_if; intros Ee; [apply negb_true_iff, Z.eqb_neq in Ee; by apply wp_ret, (mo_error x m h v e y m1)|].
  apply negb_false_iff, Z.eqb_eq in Ee. subst e. unfold v in Er.
  apply wp_if; intros Ei; rewrite Ei in Er; [|by apply wp_ret, (mo_out x m h m1 y)].
  rewrite merge_in by done. apply wp_bind, wp_set_register; [done|by left|done|]. apply wp_bind, wp_KASSERT; [done|].
  by apply wp_ret, (mo_in x m h y m1).
Qed.
End MonitorCorrect.

(** [vm_handle_inout] hands string instructions and ports without a handler
    in the monitor to the user level untouched; for the other ports it calls
    the handler of the port once, turns its failure into [EIO], and merges the
    value of a successful IN into EAX; it never aborts. *)
Theorem handle_inout_correct {X D : Type} `{!VmmOps X, !VmmLaws X}
    (run_port : ioport_func -> Z -> bool -> Z -> Z -> Z -> cmd (vm X D) (Z * Z)) uninit vcpuid x m
    (Hi : is_vcpu vcpuid) (Hp : ports_ok run_port vcpuid) (Hb : ix_bytes x = 1 \/ ix_bytes x = 2 \/ ix_bytes x = 4) :
  exists r m', vm_handle_inout run_port uninit vcpuid x m = Return (r, m') /\
    monitor_result run_port uninit vcpuid x m r m'.
Proof. by apply wp_elim, handle_inout_spec. Qed.

Lemma handle_inout_correct_witness :
  let echo := fun (_ : ioport_func) (_ : Z) (_ : bool) (_ _ v : Z) => @ret (vm regs unit) _ (0, u32 v) in
  exists r m', vm_handle_inout echo 0x5a 0 (mk_inout 1 true false false IO_RTC 0x1234) (machine frozen) = Return (r, m') /\
    monitor_result echo 0x5a 0 (mk_inout 1 true false false IO_RTC 0x1234) (machine frozen) r m'.
Proof.
  intros echo. apply (handle_inout_correct echo 0x5a 0 (mk_inout 1 true false false IO_RTC 0x1234) (machine frozen)).
  - done.
  - intros h input port bytes val m. apply wp_ret. split; [by destruct m|apply u32_in_u].
  - by left.
Defined.
