(* ===== verification/PciCfg.v ===== *)
(** * PCI configuration space (src/src/pci_emul.c)

    The 256 bytes of configuration space of an emulated device, its base
    address registers, its capability list with MSI and MSI-X, and the two ways
    a guest reaches them: the port pair 0xcf8/0xcfc and the extended
    configuration window.  A base address register that is enabled is
    registered with the port table or the memory map ([Decoder]); masking and
    unmasking INTx goes to the interrupt router ([Lintr]).  Configuration
    space is a function from offsets to bytes; every access asserts its
    bounds. *)

From S2P Require Import Prelude Effects.

Local Open Scope cmd_scope.

Definition PCI_BUSMAX : Z := 255.
Definition PCI_SLOTMAX : Z := 31.
Definition PCI_FUNCMAX : Z := 7.
Definition PCI_REGMAX : Z := 255.
Definition PCIR_COMMAND : Z := 0x04.
Definition PCIM_CMD_PORTEN : Z := 0x0001.
Definition PCIM_CMD_MEMEN : Z := 0x0002.
Definition PCIM_CMD_BUSMASTEREN : Z := 0x0004.
Definition PCIM_CMD_INTxDIS : Z := 0x0400.
Definition PCIR_STATUS : Z := 0x06.
Definition PCIM_STATUS_CAPPRESENT : Z := 0x0010.
Definition PCIR_REVID : Z := 0x08.
Definition PCIR_HDRTYPE : Z := 0x0e.
Definition PCIM_MFDEV : Z := 0x80.
Definition PCIY_MSI : Z := 0x05.
Definition PCIY_EXPRESS : Z := 0x10.
Definition PCIY_MSIX : Z := 0x11.
Definition PCIR_BAR (x : Z) : Z := 0x10 + x * 4.
Definition PCI_BARMAX : Z := 5.
Definition PCIM_BAR_MEM_SPACE : Z := 0.
Definition PCIM_BAR_IO_SPACE : Z := 1.
Definition PCIM_BAR_MEM_32 : Z := 0.
Definition PCIM_BAR_MEM_64 : Z := 4.
Definition PCIM_BAR_MEM_PREFETCH : Z := 8.
Definition PCIM_BAR_MEM_BASE : Z := 0xfffffffffffffff0.
Definition PCIM_BAR_IO_BASE : Z := 0xfffffffc.
Definition PCIR_CAP_PTR : Z := 0x34.
Definition PCIR_INTLINE : Z := 0x3c.
Definition PCIR_INTPIN : Z := 0x3d.
Definition PCIM_MSICTRL_64BIT : Z := 0x80.
Definition PCIM_MSICTRL_MME_MASK : Z := 0x70.
Definition PCIM_MSICTRL_MSI_ENABLE : Z := 0x1.
Definition PCIM_MSIXCTRL_MSIX_ENABLE : Z := 0x8000.
Definition PCIM_MSIXCTRL_FUNCTION_MASK : Z := 0x4000.
Definition CONF1_DATA_PORT0 : Z := 0xcfc.
Definition CONF1_ENABLE : Z := 0x80000000.
Definition CAP_START_OFFSET : Z := 0x40.
Definition PCIM_MSIX_BIR_MASK : Z := 0x7.
Definition PCIM_MSIX_VCTRL_MASK : Z := 0x1.
Definition PCIEM_TYPE_ROOT_PORT : Z := 0x0040.
Definition PCIECAP_VERSION : Z := 0x2.
Definition MSIX_TABLE_ENTRY_SIZE : Z := 16.
Definition MAX_MSIX_TABLE_ENTRIES : Z := 2048.
Definition roundup2 (x y : Z) : Z := Z.land (x + (y - 1)) (Z.lnot (y - 1)).
Definition PBA_SIZE (msgnum : Z) : Z := roundup2 msgnum 64 / 8.
Definition PCI_EMUL_IOBASE : Z := 0x2000.
Definition PCI_EMUL_IOLIMIT : Z := 0x10000.
Definition PCI_EMUL_ECFG_BASE : Z := 0xE0000000.
Definition PCI_EMUL_ECFG_SIZE : Z := (PCI_BUSMAX + 1) * 1024 * 1024.
Definition PCI_EMUL_MEMLIMIT32 : Z := PCI_EMUL_ECFG_BASE.
Definition PCI_EMUL_MEMBASE64 : Z := 0xD000000000.
Definition PCI_EMUL_MEMLIMIT64 : Z := 0xFD00000000.
Definition PCI_EINVAL : Z := 22.

Inductive pcibar_type : Type := PCIBAR_NONE | PCIBAR_IO | PCIBAR_MEM32 | PCIBAR_MEM64 | PCIBAR_MEMHI64.
#[export] Instance pcibar_type_eq_dec : EqDecision pcibar_type.
Proof. solve_decision. Defined.

Record pcibar : Type := mk_pcibar { bar_type : pcibar_type; bar_size : Z; bar_addr : Z }.
#[export] Instance eta_pcibar : Eta pcibar := fun b => mk_pcibar (bar_type b) (bar_size b) (bar_addr b).

Record pi_msi_t : Type := mk_msi { msi_enabled : bool; msi_addr : Z; msi_msg_data : Z; msi_maxmsgnum : Z }.
#[export] Instance eta_pi_msi_t : Eta pi_msi_t := fun m =>
  mk_msi (msi_enabled m) (msi_addr m) (msi_msg_data m) (msi_maxmsgnum m).

(** The table is the bytes of its entries, [None] before it is allocated. *)
Record pi_msix_t : Type := mk_msix {
  msix_enabled : bool;
  table_bar : Z;
  pba_bar : Z;
  table_offset : Z;
  table_count : Z;
  pba_offset : Z;
  pba_size : Z;
  msix_function_mask : bool;
  msix_table : option (list Z);
}.
#[export] Instance eta_pi_msix_t : Eta pi_msix_t := fun m =>
  mk_msix (msix_enabled m) (table_bar m) (pba_bar m) (table_offset m) (table_count m) (pba_offset m) (pba_size m)
    (msix_function_mask m) (msix_table m).

(** [struct pci_devinst]; the name stands for the identity of the device, the
    interrupt line is part of the router. *)
Record devinst : Type := mk_devinst {
  pi_prevcap : Z;
  pi_capend : Z;
  pi_msi : pi_msi_t;
  pi_msix : pi_msix_t;
  pi_cfgdata : Z -> Z;
  pi_bar : list pcibar;
}.
#[export] Instance eta_devinst : Eta devinst := fun p =>
  mk_devinst (pi_prevcap p) (pi_capend p) (pi_msi p) (pi_msix p) (pi_cfgdata p) (pi_bar p).

Definition no_bar : pcibar := mk_pcibar PCIBAR_NONE 0 0.
Definition no_msi : pi_msi_t := mk_msi false 0 0 0.
Definition no_msix : pi_msix_t := mk_msix false 0 0 0 0 0 0 false None.
Definition no_devinst : devinst := mk_devinst 0 0 no_msi no_msix (fun _ => 0) (replicate 6 no_bar).

(** ** The neighbours *)

Inductive bar_space : Type := IoSpace | MemSpace.
#[export] Instance bar_space_eq_dec : EqDecision bar_space.
Proof. solve_decision. Defined.

(** The range of a register of a device. *)
Record bar_range : Type := mk_range { br_space : bar_space; br_dev : Z; br_idx : Z; br_base : Z; br_size : Z }.

(** Registration with the port table or the memory map. *)
Class Decoder (W : Type) := {
  dec_register : bar_range -> cmd W Z;
  dec_unregister : bar_range -> cmd W Z;
}.

(** [pci_lintr_update] of a device, given what [pci_lintr_permitted] says. *)
Class Lintr (R : Type) := { lintr_update : Z -> bool -> cmd R unit }.

Record pci (R W : Type) : Type := mk_pci {
  pdevs : list devinst;
  fi_devi : Z -> Z -> Z -> option Z;
  router : R;
  decoder : W;
  cfgenable : bool;
  cfgbus : Z;
  cfgslot : Z;
  cfgfunc : Z;
  cfgoff : Z;
  pci_emul_iobase : Z;
  pci_emul_membase32 : Z;
  pci_emul_membase64 : Z;
}.
Arguments mk_pci {R W}.
Arguments pdevs {R W}.
Arguments fi_devi {R W}.
Arguments router {R W}.
Arguments decoder {R W}.
Arguments cfgenable {R W}.
Arguments cfgbus {R W}.
Arguments cfgslot {R W}.
Arguments cfgfunc {R W}.
Arguments cfgoff {R W}.
Arguments pci_emul_iobase {R W}.
Arguments pci_emul_membase32 {R W}.
Arguments pci_emul_membase64 {R W}.
#[export] Instance eta_pci {R W} : Eta (pci R W) := fun s =>
  mk_pci (pdevs s) (fi_devi s) (router s) (decoder s) (cfgenable s) (cfgbus s) (cfgslot s) (cfgfunc s) (cfgoff s)
    (pci_emul_iobase s) (pci_emul_membase32 s) (pci_emul_membase64 s).

(** ** Bytes *)

Definition cfg_read (n off : Z) (c : Z -> Z) : Z := le_combine (map (fun i => c (off + Z.of_nat i)) (seq 0 (Z.to_nat n))).
Definition cfg_write (n off v : Z) (c : Z -> Z) : Z -> Z := fun j =>
  if (off <=? j) && (j <? off + n) then nth (Z.to_nat (j - off)) (le_split (Z.to_nat n) v) 0 else c j.

(** The assertion of the accessors of [n] bytes. *)
Definition cfg_in_range (n off : Z) : bool := (off <=? PCI_REGMAX + 1 - n) && (Z.land off (n - 1) =? 0).

Section Config.
Context {R W : Type} `{!Lintr R, !Decoder W}.
Local Abbreviation S := (pci R W).
Local Abbreviation M := (cmd S).

(** What the device's own emulation does with an access; [None] for a null
    callback.  [cfgread] gives [needcfg] and [*eax]. *)
Context (pe_cfgread : Z -> option (Z -> Z -> Z -> M (bool * Z))) (pe_cfgwrite : Z -> option (Z -> Z -> Z -> M Z)).

Definition get_pdev (d : Z) (s : S) : devinst := default no_devinst (pdevs s !! Z.to_nat d).
Definition on_pdev (d : Z) (f : devinst -> devinst) : M unit := update (fun s => s <| pdevs ::= alter f (Z.to_nat d) |>).
Definition get_bar (d idx : Z) (s : S) : pcibar := default no_bar (pi_bar (get_pdev d s) !! Z.to_nat idx).
Definition on_bar (d idx : Z) (f : pcibar -> pcibar) : M unit :=
  on_pdev d (fun p => p <| pi_bar ::= alter f (Z.to_nat idx) |>).

Definition on_decoder {A} (c : cmd W A) : M A := fun s =>
  match c (decoder s) with Return (a, w) => Return (a, s <| decoder := w |>) | Panic => Panic | Hang => Hang end.
Definition on_router {A} (c : cmd R A) : M A := fun s =>
  match c (router s) with Return (a, r) => Return (a, s <| router := r |>) | Panic => Panic | Hang => Hang end.

Definition pci_get_cfgdata (n d off : Z) : M Z :=
  KASSERT (cfg_in_range n off) ;;; gets (fun s => cfg_read n off (pi_cfgdata (get_pdev d s))).
Definition pci_set_cfgdata (n d off v : Z) : M unit :=
  KASSERT (cfg_in_range n off) ;;; on_pdev d (fun p => p <| pi_cfgdata ::= cfg_write n off v |>).

Definition cfg_width (bytes : Z) : Z := if bytes =? 1 then 1 else if bytes =? 2 then 2 else 4.
Definition CFGWRITE (d coff val bytes : Z) : M unit := pci_set_cfgdata (cfg_width bytes) d coff val.
Definition CFGREAD (d coff bytes : Z) : M Z := pci_get_cfgdata (cfg_width bytes) d coff.

(** ** INTx *)

Definition pci_lintr_permitted (p : devinst) : bool :=
  negb (msi_enabled (pi_msi p) || msix_enabled (pi_msix p) ||
        tst (cfg_read 2 PCIR_COMMAND (pi_cfgdata p)) PCIM_CMD_INTxDIS).

Definition update_lintr (d : Z) : M unit :=
  p <- gets (get_pdev d) ;; on_router (lintr_update d (pci_lintr_permitted p)).

(** ** Base address registers *)

Definition range_of (d idx : Z) (b : pcibar) : bar_range :=
  match bar_type b with
  | PCIBAR_IO => mk_range IoSpace d idx (i32 (bar_addr b)) (i32 (bar_size b))
  | _ => mk_range MemSpace d idx (bar_addr b) (bar_size b)
  end.

Definition modify_bar_registration (d idx : Z) (registration : bool) : M unit :=
  b <- gets (get_bar d idx) ;;
  error <- (match bar_type b with
            | PCIBAR_IO | PCIBAR_MEM32 | PCIBAR_MEM64 =>
                on_decoder (if registration then dec_register (range_of d idx b) else dec_unregister (range_of d idx b))
            | PCIBAR_NONE | PCIBAR_MEMHI64 => ret PCI_EINVAL
            end) ;;
  KASSERT (error =? 0).

Definition unregister_bar (d idx : Z) : M unit := modify_bar_registration d idx false.
Definition register_bar (d idx : Z) : M unit := modify_bar_registration d idx true.

Definition porten (p : devinst) : bool := tst (cfg_read 2 PCIR_COMMAND (pi_cfgdata p)) PCIM_CMD_PORTEN.
Definition memen (p : devinst) : bool := tst (cfg_read 2 PCIR_COMMAND (pi_cfgdata p)) PCIM_CMD_MEMEN.

Definition update_bar_address (d addr idx : Z) (type : pcibar_type) : M unit :=
  b <- gets (get_bar d idx) ;;
  p <- gets (get_pdev d) ;;
  let decode := if bool_decide (bar_type b = PCIBAR_IO) then porten p else memen p in
  when decode (unregister_bar d idx) ;;;
  (match type with
   | PCIBAR_IO | PCIBAR_MEM32 => on_bar d idx (fun b => b <| bar_addr := addr |>)
   | PCIBAR_MEM64 => on_bar d idx (fun b => b <| bar_addr ::= fun a => Z.lor (clr a 0xffffffff) addr |>)
   | PCIBAR_MEMHI64 => on_bar d idx (fun b => b <| bar_addr ::= fun a => Z.lor (Z.land a 0xffffffff) addr |>)
   | PCIBAR_NONE => fun _ => Panic
   end) ;;;
  when decode (register_bar d idx).

(** The three allocators; the memory of a device that asks for [hostbase] comes
    from there. *)
Inductive window : Type := IoWindow | Mem32Window | Mem64Window | HostWindow (hostbase : Z).

Definition window_base (w : window) (s : S) : Z :=
  match w with
  | IoWindow => pci_emul_iobase s
  | Mem32Window => pci_emul_membase32 s
  | Mem64Window => pci_emul_membase64 s
  | HostWindow hostbase => hostbase
  end.

Definition set_window (w : window) (v : Z) (s : S) : S :=
  match w with
  | IoWindow => s <| pci_emul_iobase := v |>
  | Mem32Window => s <| pci_emul_membase32 := v |>
  | Mem64Window => s <| pci_emul_membase64 := v |>
  | HostWindow _ => s
  end.

(** The address, or [None] for the result -1. *)
Definition pci_emul_alloc_resource (w : window) (limit size : Z) : M (option Z) :=
  KASSERT (Z.land size (u64 (size - 1)) =? 0) ;;;
  base <- gets (window_base w) ;;
  let base := u64 (roundup2 base size) in
  if u64 (base + size) <=? limit then update (set_window w (u64 (base + size))) ;;; ret (Some base) else ret None.

Definition pbar_size (type : pcibar_type) (size : Z) : Z :=
  let size := if negb (Z.land size (u64 (size - 1)) =? 0) then u64 (Z.shiftl 1 (Z.log2 size + 1)) else size in
  match type with PCIBAR_IO => if size <? 4 then 4 else size | _ => if size <? 16 then 16 else size end.

(** The window with its limit, the mask and the low bits of the register. *)
Definition pbar_window (type : pcibar_type) (hostbase size : Z) : M (option (window * Z) * Z * Z) :=
  match type with
  | PCIBAR_NONE => ret (None, 0, 0)
  | PCIBAR_IO => ret (Some (IoWindow, PCI_EMUL_IOLIMIT), PCIM_BAR_IO_BASE, PCIM_BAR_IO_SPACE)
  | PCIBAR_MEM64 =>
      if 32 * 1024 * 1024 <? size then
        ret (Some (if size =? 0x100000000 then HostWindow hostbase else Mem64Window, PCI_EMUL_MEMLIMIT64),
             PCIM_BAR_MEM_BASE, Z.lor (Z.lor PCIM_BAR_MEM_SPACE PCIM_BAR_MEM_64) PCIM_BAR_MEM_PREFETCH)
      else
        ret (Some (Mem32Window, PCI_EMUL_MEMLIMIT32), PCIM_BAR_MEM_BASE, Z.lor PCIM_BAR_MEM_SPACE PCIM_BAR_MEM_64)
  | PCIBAR_MEM32 =>
      ret (Some (Mem32Window, PCI_EMUL_MEMLIMIT32), PCIM_BAR_MEM_BASE, Z.lor PCIM_BAR_MEM_SPACE PCIM_BAR_MEM_32)
  | PCIBAR_MEMHI64 => fun _ => Panic
  end.

Definition pci_emul_alloc_pbar (d idx hostbase : Z) (type : pcibar_type) (size : Z) : M Z :=
  KASSERT ((0 <=? idx) && (idx <=? PCI_BARMAX)) ;;;
  let size := pbar_size type size in
  w <- pbar_window type hostbase size ;;
  let '(win, mask, lobits) := w in
  addr <- (match win with Some (win, limit) => pci_emul_alloc_resource win limit size | None => ret (Some 0) end) ;;
  match addr with
  | None => ret (-1)
  | Some addr =>
      on_bar d idx (fun _ => mk_pcibar type size addr) ;;;
      let bar := Z.lor (Z.land addr mask) lobits in
      pci_set_cfgdata 4 d (PCIR_BAR idx) (u32 bar) ;;;
      when (bool_decide (type = PCIBAR_MEM64))
        (KASSERT (idx + 1 <=? PCI_BARMAX) ;;;
         on_bar d (idx + 1) (fun b => b <| bar_type := PCIBAR_MEMHI64 |>) ;;;
         pci_set_cfgdata 4 d (PCIR_BAR (idx + 1)) (Z.shiftr bar 32)) ;;;
      register_bar d idx ;;;
      ret 0
  end.

Definition pci_emul_alloc_bar (d idx : Z) (type : pcibar_type) (size : Z) : M Z := pci_emul_alloc_pbar d idx 0 type size.

(** ** Adding capabilities *)

Fixpoint copy_cap (d off : Z) (capdata : list Z) : M unit :=
  match capdata with
  | [] => skip
  | b :: capdata => pci_set_cfgdata 1 d off b ;;; copy_cap d (off + 1) capdata
  end.

Definition pci_emul_add_capability (d : Z) (capdata : list Z) : M Z :=
  let caplen := Z.of_nat (length capdata) in
  KASSERT (0 <? caplen) ;;;
  let reallen := roundup2 caplen 4 in
  sts <- pci_get_cfgdata 2 d PCIR_STATUS ;;
  p <- gets (get_pdev d) ;;
  let present := tst sts PCIM_STATUS_CAPPRESENT in
  let capoff := if present then pi_capend p + 1 else CAP_START_OFFSET in
  if PCI_REGMAX + 1 <? capoff + reallen then ret (-1) else
  (if present then pci_set_cfgdata 1 d (pi_prevcap p + 1) (u8 capoff)
   else pci_set_cfgdata 1 d PCIR_CAP_PTR (u8 capoff) ;;;
        pci_set_cfgdata 2 d PCIR_STATUS (Z.lor sts PCIM_STATUS_CAPPRESENT)) ;;;
  copy_cap d capoff capdata ;;;
  pci_set_cfgdata 1 d (capoff + 1) 0 ;;;
  on_pdev d (fun p => p <| pi_prevcap := capoff |> <| pi_capend := capoff + reallen - 1 |>) ;;;
  ret 0.

(** The bytes of [struct msicap], [struct msixcap] and [struct pciecap]. *)
Definition pci_populate_msicap (msgnum nextptr : Z) : M (list Z) :=
  KASSERT ((Z.land msgnum (msgnum - 1) =? 0) && ((1 <=? msgnum) && (msgnum <=? 32))) ;;;
  let mmc := Z.log2 msgnum in
  ret (PCIY_MSI :: u8 nextptr :: le_split 2 (u16 (Z.lor PCIM_MSICTRL_64BIT (Z.shiftl mmc 1))) ++ replicate 10 0).

Definition pci_emul_add_msicap (d msgnum : Z) : M Z :=
  msicap <- pci_populate_msicap msgnum 0 ;; pci_emul_add_capability d msicap.

Definition pci_populate_msixcap (msgnum barnum msix_tab_size : Z) : M (list Z) :=
  KASSERT (msix_tab_size mod 4096 =? 0) ;;;
  ret (PCIY_MSIX :: 0 :: le_split 2 (u16 (msgnum - 1)) ++ le_split 4 (Z.land barnum PCIM_MSIX_BIR_MASK) ++
       le_split 4 (Z.lor msix_tab_size (Z.land barnum PCIM_MSIX_BIR_MASK))).

(** Every entry has its vector masked. *)
Definition masked_entry : list Z := replicate 12 0 ++ le_split 4 PCIM_MSIX_VCTRL_MASK.

Definition pci_msix_table_init (d table_entries : Z) : M unit :=
  KASSERT (0 <? table_entries) ;;;
  KASSERT (table_entries <=? MAX_MSIX_TABLE_ENTRIES) ;;;
  on_pdev d (fun p => p <| pi_msix ::= fun m => m <| msix_table := Some (mjoin (replicate (Z.to_nat table_entries) masked_entry)) |> |>).

Definition pci_emul_add_msixcap (d msgnum barnum : Z) : M Z :=
  KASSERT ((1 <=? msgnum) && (msgnum <=? MAX_MSIX_TABLE_ENTRIES)) ;;;
  KASSERT ((0 <=? barnum) && (barnum <=? PCI_BARMAX)) ;;;
  let tab_size := u32 (roundup2 (u32 (msgnum * MSIX_TABLE_ENTRY_SIZE)) 4096) in
  on_pdev d (fun p => p <| pi_msix ::= fun m =>
    m <| table_bar := barnum |> <| pba_bar := barnum |> <| table_offset := 0 |> <| table_count := msgnum |>
      <| pba_offset := tab_size |> <| pba_size := PBA_SIZE msgnum |> |>) ;;;
  pci_msix_table_init d msgnum ;;;
  msixcap <- pci_populate_msixcap msgnum barnum tab_size ;;
  pci_emul_alloc_bar d barnum PCIBAR_MEM32 (u32 (tab_size + PBA_SIZE msgnum)) ;;;
  pci_emul_add_capability d msixcap.

Definition pciecap_bytes : list Z :=
  PCIY_EXPRESS :: 0 :: le_split 2 (Z.lor PCIECAP_VERSION PCIEM_TYPE_ROOT_PORT) ++ replicate 8 0 ++
  le_split 4 0x411 ++ replicate 2 0 ++ le_split 2 0x11 ++ replicate 40 0.

Definition pci_emul_add_pciecap (d type : Z) : M Z :=
  if negb (type =? PCIEM_TYPE_ROOT_PORT) then ret (-1) else pci_emul_add_capability d pciecap_bytes.

(** ** Writes to a base address register *)

(** The new address and register value, by type. *)
Definition write_addr (d idx eax : Z) (b : pcibar) : M Z :=
  let mask := u64 (Z.lnot (bar_size b - 1)) in
  match bar_type b with
  | PCIBAR_NONE => on_bar d idx (fun b => b <| bar_addr := 0 |>) ;;; ret 0
  | PCIBAR_IO =>
      let addr := Z.land (Z.land eax mask) 0xffff in
      when (negb (addr =? bar_addr b)) (update_bar_address d addr idx PCIBAR_IO) ;;;
      ret (Z.lor addr PCIM_BAR_IO_SPACE)
  | PCIBAR_MEM32 =>
      let addr := Z.land eax mask in
      when (negb (addr =? bar_addr b)) (update_bar_address d addr idx PCIBAR_MEM32) ;;;
      ret (Z.lor addr (Z.lor PCIM_BAR_MEM_SPACE PCIM_BAR_MEM_32))
  | PCIBAR_MEM64 =>
      let addr := Z.land eax mask in
      when (negb (addr =? u32 (bar_addr b))) (update_bar_address d addr idx PCIBAR_MEM64) ;;;
      ret (Z.lor addr (Z.lor (Z.lor PCIM_BAR_MEM_SPACE PCIM_BAR_MEM_64) PCIM_BAR_MEM_PREFETCH))
  | PCIBAR_MEMHI64 =>
      lo <- gets (get_bar d (idx - 1)) ;;
      let mask := u64 (Z.lnot (bar_size lo - 1)) in
      let addr := Z.land (u64 (Z.shiftl eax 32)) mask in
      let bar := Z.shiftr addr 32 in
      when (negb (bar =? Z.shiftr (bar_addr lo) 32)) (update_bar_address d addr (idx - 1) PCIBAR_MEMHI64) ;;;
      ret bar
  end.

(** The special handling of a write to register [idx]. *)
Definition write_bar (d idx eax : Z) : M unit :=
  b <- gets (get_bar d idx) ;;
  bar <- write_addr d idx eax b ;;
  pci_set_cfgdata 4 d (PCIR_BAR idx) (u32 bar).

(** ** Capabilities *)

Definition msixcap_cfgwrite (d capoff offset bytes val : Z) : M unit :=
  val <- (if (offset - capoff =? 2) && (bytes =? 2) then
            let rwmask := Z.lor PCIM_MSIXCTRL_MSIX_ENABLE PCIM_MSIXCTRL_FUNCTION_MASK in
            msgctrl <- pci_get_cfgdata 2 d offset ;;
            let msgctrl := Z.lor (clr msgctrl rwmask) (Z.land val rwmask) in
            on_pdev d (fun p => p <| pi_msix ::= fun m => m <| msix_enabled := tst msgctrl PCIM_MSIXCTRL_MSIX_ENABLE |>
                                                      <| msix_function_mask := tst msgctrl PCIM_MSIXCTRL_FUNCTION_MASK |> |>) ;;;
            update_lintr d ;;; ret msgctrl
          else ret val) ;;
  CFGWRITE d offset val bytes.

Definition msicap_cfgwrite (d capoff offset bytes val : Z) : M unit :=
  val <- (if (offset - capoff =? 2) && (bytes =? 2) then
            let rwmask := Z.lor PCIM_MSICTRL_MME_MASK PCIM_MSICTRL_MSI_ENABLE in
            msgctrl <- pci_get_cfgdata 2 d offset ;;
            let msgctrl := Z.lor (clr msgctrl rwmask) (Z.land val rwmask) in
            addrlo <- pci_get_cfgdata 4 d (capoff + 4) ;;
            msgdata <- pci_get_cfgdata 2 d (if tst msgctrl PCIM_MSICTRL_64BIT then capoff + 12 else capoff + 8) ;;
            let mme := Z.land msgctrl PCIM_MSICTRL_MME_MASK in
            on_pdev d (fun p => p <| pi_msi ::= fun m =>
              if tst msgctrl PCIM_MSICTRL_MSI_ENABLE
              then mk_msi true addrlo msgdata (Z.shiftl 1 (Z.shiftr mme 4))
              else m <| msi_enabled := false |> <| msi_maxmsgnum := 0 |> |>) ;;;
            update_lintr d ;;; ret msgctrl
          else ret val) ;;
  CFGWRITE d offset val bytes.

Definition pciecap_cfgwrite (d capoff offset bytes val : Z) : M unit := CFGWRITE d offset val bytes.

(** The loop that looks for the capability [offset] belongs to. *)
Fixpoint find_cap (fuel : nat) (d offset capoff : Z) : M Z :=
  match fuel with
  | O => fun _ => Hang
  | Datatypes.S fuel =>
      nextoff <- pci_get_cfgdata 1 d (capoff + 1) ;;
      if nextoff =? 0 then ret capoff
      else if (capoff <=? offset) && (offset <? nextoff) then ret capoff
      else find_cap fuel d offset nextoff
  end.

Definition pci_emul_capwrite (d offset bytes val : Z) : M unit :=
  if negb (Z.land offset (bytes - 1) =? 0) then skip else
  capoff <- find_cap 64 d offset CAP_START_OFFSET ;;
  KASSERT (capoff <=? offset) ;;;
  let go offset bytes val :=
    capid <- pci_get_cfgdata 1 d capoff ;;
    if capid =? PCIY_MSI then msicap_cfgwrite d capoff offset bytes val
    else if capid =? PCIY_MSIX then msixcap_cfgwrite d capoff offset bytes val
    else if capid =? PCIY_EXPRESS then pciecap_cfgwrite d capoff offset bytes val
    else skip in
  if (offset =? capoff) || (offset =? capoff + 1) then
    if (offset =? capoff) && (bytes =? 4) then go (offset + 2) 2 (Z.shiftr val 16) else skip
  else go offset bytes val.

Definition pci_emul_iscap (p : devinst) (offset : Z) : bool :=
  tst (cfg_read 2 PCIR_STATUS (pi_cfgdata p)) PCIM_STATUS_CAPPRESENT &&
  ((CAP_START_OFFSET <=? offset) && (offset <=? pi_capend p)).

(** ** Command and status *)

(** Registering or unregistering every register whose space changed. *)
Fixpoint toggle_bars (d : Z) (idxs : list Z) (changed : Z) : M unit :=
  match idxs with
  | [] => skip
  | i :: idxs =>
      b <- gets (get_bar d i) ;;
      p <- gets (get_pdev d) ;;
      (match bar_type b with
       | PCIBAR_NONE | PCIBAR_MEMHI64 => skip
       | PCIBAR_IO => when (tst changed PCIM_CMD_PORTEN) (if porten p then register_bar d i else unregister_bar d i)
       | PCIBAR_MEM32 | PCIBAR_MEM64 =>
           when (tst changed PCIM_CMD_MEMEN) (if memen p then register_bar d i else unregister_bar d i)
       end) ;;;
      toggle_bars d idxs changed
  end.

Definition pci_emul_cmdsts_write (d coff new bytes : Z) : M unit :=
  cmd <- pci_get_cfgdata 2 d PCIR_COMMAND ;;
  let rshift := Z.land coff 0x3 * 8 in
  let readonly := Z.shiftr 0xFFFFF880 rshift in
  old <- CFGREAD d coff bytes ;;
  CFGWRITE d coff (Z.lor (clr new readonly) (Z.land old readonly)) bytes ;;;
  cmd2 <- pci_get_cfgdata 2 d PCIR_COMMAND ;;
  let changed := Z.lxor cmd cmd2 in
  toggle_bars d (seqZ 0 (PCI_BARMAX + 1)) changed ;;;
  update_lintr d.

(** ** Accesses *)

Definition pci_emul_is_mfdev (bus slot : Z) (s : S) : bool :=
  (1 <? Z.of_nat (length (List.filter (fun f => match fi_devi s bus slot f with Some _ => true | None => false end)
                            (seqZ 0 (PCI_FUNCMAX + 1))))).

Definition pci_emul_hdrtype_fixup (bus slot off bytes rv : Z) (s : S) : Z :=
  if (off <=? PCIR_HDRTYPE) && (PCIR_HDRTYPE <? off + bytes) then
    let mfdev := pci_emul_is_mfdev bus slot s in
    if (bytes =? 1) || (bytes =? 2) then if mfdev then Z.lor (clr rv PCIM_MFDEV) PCIM_MFDEV else clr rv PCIM_MFDEV
    else if bytes =? 4 then
      if mfdev then Z.lor (clr rv (Z.shiftl PCIM_MFDEV 16)) (Z.shiftl PCIM_MFDEV 16) else clr rv (Z.shiftl PCIM_MFDEV 16)
    else rv
  else rv.

Definition cfg_read_access (d bus slot coff bytes eax : Z) : M Z :=
  r <- (match pe_cfgread d with Some f => f coff bytes eax | None => ret (true, eax) end) ;;
  eax <- (if r.1 : bool then CFGREAD d coff bytes else ret r.2) ;;
  gets (pci_emul_hdrtype_fixup bus slot coff bytes eax).

Definition cfg_write_access (d coff bytes eax : Z) : M unit :=
  handled <- (match pe_cfgwrite d with Some f => e <- f coff bytes eax ;; ret (e =? 0) | None => ret false end) ;;
  if handled : bool then skip else
  if (PCIR_BAR 0 <=? coff) && (coff <? PCIR_BAR (PCI_BARMAX + 1)) then
    if negb (bytes =? 4) || negb (Z.land coff 0x3 =? 0) then skip
    else write_bar d ((coff - PCIR_BAR 0) / 4) eax
  else
    p <- gets (get_pdev d) ;;
    if pci_emul_iscap p coff then pci_emul_capwrite d coff bytes eax
    else if (PCIR_COMMAND <=? coff) && (coff <? PCIR_REVID) then pci_emul_cmdsts_write d coff eax bytes
    else CFGWRITE d coff eax bytes.

(** The result is [*eax]. *)
Definition pci_cfgrw (input : bool) (bus slot func coff bytes eax : Z) : M Z :=
  pi <- gets (fun s => fi_devi s bus slot func) ;;
  match pi with
  | None => ret (if input then 0xffffffff else eax)
  | Some d =>
      if negb ((bytes =? 1) || (bytes =? 2) || (bytes =? 4)) || negb (Z.land coff (bytes - 1) =? 0)
      then ret (if input then 0xffffffff else eax)
      else if PCI_REGMAX + 1 <=? coff then
        ret (if input then if coff <=? PCI_REGMAX + 4 then 0 else 0xffffffff else eax)
      else if input then cfg_read_access d bus slot coff bytes eax
      else cfg_write_access d coff bytes eax ;;; ret eax
  end.

(** The port pair. *)
Definition pci_emul_cfgaddr (input : bool) (bytes eax : Z) : M Z :=
  if negb (bytes =? 4) then ret (if input then if bytes =? 2 then 0xffff else 0xff else eax)
  else if input then
    gets (fun s => Z.lor (Z.lor (Z.lor (Z.lor (Z.shiftl (cfgbus s) 16) (Z.shiftl (cfgslot s) 11)) (Z.shiftl (cfgfunc s) 8))
                            (cfgoff s)) (if cfgenable s then CONF1_ENABLE else 0))
  else
    update (fun s => s <| cfgenable := Z.land eax CONF1_ENABLE =? CONF1_ENABLE |> <| cfgoff := Z.land eax PCI_REGMAX |>
                       <| cfgfunc := Z.land (Z.shiftr eax 8) PCI_FUNCMAX |> <| cfgslot := Z.land (Z.shiftr eax 11) PCI_SLOTMAX |>
                       <| cfgbus := Z.land (Z.shiftr eax 16) PCI_BUSMAX |>) ;;; ret eax.

Definition pci_emul_cfgdata (input : bool) (port bytes eax : Z) : M Z :=
  KASSERT ((bytes =? 1) || (bytes =? 2) || (bytes =? 4)) ;;;
  s <- gets id ;;
  let coff := cfgoff s + (port - CONF1_DATA_PORT0) in
  if cfgenable s then pci_cfgrw input (cfgbus s) (cfgslot s) (cfgfunc s) coff bytes eax
  else ret (if input then 0xffffffff else eax).

(** The extended configuration window: the address names the register; a read
    replaces the lower half of the 64-bit value. *)
Definition pci_emul_ecfg_handler (input : bool) (addr bytes val : Z) : M Z :=
  let coff := Z.land addr 0xfff in
  let func := Z.land (Z.shiftr addr 12) 0x7 in
  let slot := Z.land (Z.shiftr addr 15) 0x1f in
  let bus := Z.land (Z.shiftr addr 20) 0xff in
  let val := if input then 0xffffffffffffffff else val in
  eax <- pci_cfgrw input bus slot func coff bytes (u32 val) ;;
  ret (Z.lor (Z.land val 0xffffffff00000000) (u32 eax)).

(** ** The memory of a device *)

Context (pe_barread : Z -> Z -> Z -> Z -> M Z) (pe_barwrite : Z -> Z -> Z -> Z -> Z -> M unit).

(** The register that holds the ports of an access. *)
Definition io_bar_hit (port bytes : Z) (b : pcibar) : bool :=
  bool_decide (bar_type b = PCIBAR_IO) && ((bar_addr b <=? port) && (port + bytes <=? bar_addr b + bar_size b)).

Fixpoint io_bars (port bytes i : Z) (bars : list pcibar) : option (Z * pcibar) :=
  match bars with
  | [] => None
  | b :: bars => if io_bar_hit port bytes b then Some (i, b) else io_bars port bytes (i + 1) bars
  end.

(** The result and [*eax]. *)
Definition pci_emul_io_handler (d : Z) (input : bool) (port bytes eax : Z) : M (Z * Z) :=
  p <- gets (get_pdev d) ;;
  match io_bars port bytes 0 (pi_bar p) with
  | Some (i, b) =>
      let offset := port - bar_addr b in
      if input then v <- pe_barread d i offset bytes ;; ret (0, u32 v)
      else pe_barwrite d i offset bytes eax ;;; ret (0, eax)
  | None => ret (-1, eax)
  end.

(** The result is [*val]. *)
Definition pci_emul_mem_handler (d bidx : Z) (write : bool) (addr size val : Z) : M Z :=
  KASSERT (bidx <=? PCI_BARMAX) ;;;
  b <- gets (get_bar d bidx) ;;
  KASSERT (bool_decide (bar_type b = PCIBAR_MEM32) || bool_decide (bar_type b = PCIBAR_MEM64)) ;;;
  KASSERT ((bar_addr b <=? addr) && (u64 (addr + size) <=? u64 (bar_addr b + bar_size b))) ;;;
  let offset := addr - bar_addr b in
  if write then
    (if size =? 8 then
       pe_barwrite d bidx offset 4 (Z.land val 0xffffffff) ;;; pe_barwrite d bidx (offset + 4) 4 (Z.shiftr val 32)
     else pe_barwrite d bidx offset size val) ;;;
    ret val
  else if size =? 8 then
    lo <- pe_barread d bidx offset 4 ;;
    hi <- pe_barread d bidx (offset + 4) 4 ;;
    ret (Z.lor lo (u64 (Z.shiftl hi 32)))
  else pe_barread d bidx offset size.

(** ** Message signalled interrupts *)

Definition pci_valid_pba_offset (m : pi_msix_t) (offset : Z) : bool :=
  if offset <? pba_offset m then false else if u32 (pba_offset m + pba_size m) <=? offset then false else true.

(** Bytes of the table; the table ends where its allocation ends. *)
Definition table_load (m : pi_msix_t) (at_ n : Z) : M Z := fun s =>
  match msix_table m with
  | Some t => if (0 <=? at_) && (at_ + n <=? Z.of_nat (length t))
              then Return (le_combine (take (Z.to_nat n) (drop (Z.to_nat at_) t)), s) else Panic
  | None => Panic
  end.

Definition table_store (d at_ n v : Z) : M unit :=
  p <- gets (get_pdev d) ;;
  match msix_table (pi_msix p) with
  | Some t =>
      KASSERT ((0 <=? at_) && (at_ + n <=? Z.of_nat (length t))) ;;;
      on_pdev d (fun p => p <| pi_msix ::= fun m =>
        m <| msix_table := Some (list_inserts (Z.to_nat at_) (le_split (Z.to_nat n) v) t) |> |>)
  | None => fun _ => Panic
  end.

Definition pci_emul_msix_twrite (d offset size value : Z) : M Z :=
  if negb ((size =? 4) || (size =? 8)) then ret (-1) else
  p <- gets (get_pdev d) ;;
  let tab_index := i32 (offset / MSIX_TABLE_ENTRY_SIZE) in
  if table_count (pi_msix p) <=? tab_index then ret (-1) else
  let msix_entry_offset := offset mod MSIX_TABLE_ENTRY_SIZE in
  if negb (msix_entry_offset mod size =? 0) then ret (-1) else
  table_store d (tab_index * MSIX_TABLE_ENTRY_SIZE + msix_entry_offset) size (if size =? 4 then u32 value else value) ;;;
  ret 0.

Definition pci_emul_msix_tread (d offset size : Z) : M Z :=
  if negb ((size =? 1) || (size =? 4) || (size =? 8)) then ret 0xffffffffffffffff else
  let msix_entry_offset := offset mod MSIX_TABLE_ENTRY_SIZE in
  if negb (msix_entry_offset mod size =? 0) then ret 0xffffffffffffffff else
  p <- gets (get_pdev d) ;;
  let tab_index := i32 (offset / MSIX_TABLE_ENTRY_SIZE) in
  if tab_index <? table_count (pi_msix p) then
    table_load (pi_msix p) (tab_index * MSIX_TABLE_ENTRY_SIZE + msix_entry_offset) size
  else ret (if pci_valid_pba_offset (pi_msix p) offset then 0 else 0xffffffffffffffff).

Definition pci_msix_table_bar (m : pi_msix_t) : Z := match msix_table m with Some _ => table_bar m | None => -1 end.
Definition pci_msix_pba_bar (m : pi_msix_t) : Z := match msix_table m with Some _ => pba_bar m | None => -1 end.

Definition pci_msi_enabled (p : devinst) : bool := msi_enabled (pi_msi p).
Definition pci_msi_maxmsgnum (p : devinst) : Z := if msi_enabled (pi_msi p) then msi_maxmsgnum (pi_msi p) else 0.
Definition pci_msix_enabled (p : devinst) : bool := msix_enabled (pi_msix p) && negb (msi_enabled (pi_msi p)).

(** The message that goes to [xh_vm_lapic_msi], if any: address and data. *)
Definition pci_generate_msix (d index : Z) : M (option (Z * Z)) :=
  p <- gets (get_pdev d) ;;
  let m := pi_msix p in
  if negb (pci_msix_enabled p) then ret None
  else if msix_function_mask m then ret None
  else if table_count m <=? index then ret None
  else
    let e := index * MSIX_TABLE_ENTRY_SIZE in
    vector_control <- table_load m (e + 12) 4 ;;
    if negb (tst vector_control PCIM_MSIX_VCTRL_MASK) then
      addr <- table_load m e 8 ;;
      msg_data <- table_load m (e + 8) 4 ;;
      ret (Some (addr, msg_data))
    else ret None.

Definition pci_generate_msi (d index : Z) : M (option (Z * Z)) :=
  p <- gets (get_pdev d) ;;
  ret (if pci_msi_enabled p && (index <? pci_msi_maxmsgnum p)
       then Some (msi_addr (pi_msi p), u64 (msi_msg_data (pi_msi p) + index)) else None).

(** ** A new device *)

Definition pci_emul_init (pe_init : Z -> M Z) (bus slot func : Z) : M Z :=
  d <- gets (fun s => Z.of_nat (length (pdevs s))) ;;
  update (fun s => s <| pdevs ::= fun l => l ++ [no_devinst] |>) ;;;
  pci_set_cfgdata 1 d PCIR_INTLINE 255 ;;;
  pci_set_cfgdata 1 d PCIR_INTPIN 0 ;;;
  pci_set_cfgdata 1 d PCIR_COMMAND (Z.lor (Z.lor PCIM_CMD_PORTEN PCIM_CMD_MEMEN) PCIM_CMD_BUSMASTEREN) ;;;
  err <- pe_init d ;;
  when (err =? 0)
    (update (fun s => s <| fi_devi ::= fun f b sl fn =>
       if (b =? bus) && (sl =? slot) && (fn =? func) then Some d else f b sl fn |>)) ;;;
  ret err.
End Config.
