(* ===== verification/PciCaps.v ===== *)
(** * The capability list of a PCI device

    Facts on configuration space (PciCfg.v): reading what was written, the
    bytes an access leaves alone, and the chain of capabilities.  A write of
    the guest never changes the identifier or the link of a capability, so the
    search of [pci_emul_capwrite] ends at the capability it looks for. *)

From S2P Require Import Prelude Effects PciCfg.

Local Open Scope cmd_scope.

(** ** Bytes *)

Lemma nth_le_split n v i : (i < n)%nat -> nth i (le_split n v) 0 = (v / 2 ^ (8 * Z.of_nat i)) mod 256.
Proof.
  revert v i. induction n as [|n IH]; intros v i Hi; [lia|]. destruct i as [|i]; cbn [le_split nth].
  - by rewrite Z.div_1_r.
  - rewrite IH by lia. rewrite Z.div_div by lia. do 2 f_equal.
    replace (8 * Z.of_nat (S i)) with (8 + 8 * Z.of_nat i) by lia. by rewrite Z.pow_add_r by lia.
Qed.

Lemma byte_testbit n v i b : (i < n)%nat -> 0 <= b < 8 ->
  Z.testbit (nth i (le_split n v) 0) b = Z.testbit v (8 * Z.of_nat i + b).
Proof.
  intros Hi Hb. rewrite nth_le_split by done. change 256 with (2 ^ 8). rewrite Z.mod_pow2_bits_low by lia.
  rewrite Z.div_pow2_bits by lia. f_equal. lia.
Qed.

Lemma cfg_read_ext n off c c' : (forall j, off <= j < off + n -> c j = c' j) -> cfg_read n off c = cfg_read n off c'.
Proof.
  intros Hc. unfold cfg_read. f_equal. apply map_ext_in. intros i Hi%in_seq. apply Hc. lia.
Qed.

Lemma write_outside n off v c j : ~ (off <= j < off + n) -> cfg_write n off v c j = c j.
Proof.
  intros Hj. unfold cfg_write. destruct (Z.leb_spec off j), (Z.ltb_spec j (off + n)); cbn; done || lia.
Qed.

Lemma write_inside n off v c i : (i < Z.to_nat n)%nat ->
  cfg_write n off v c (off + Z.of_nat i) = nth i (le_split (Z.to_nat n) v) 0.
Proof.
  intros Hi. unfold cfg_write. rewrite (proj2 (Z.leb_le _ _)), (proj2 (Z.ltb_lt _ _)) by lia. cbn [andb].
  f_equal. lia.
Qed.

Lemma map_nth_seq (l : list Z) : map (fun i => nth i l 0) (seq 0 (length l)) = l.
Proof.
  induction l as [|x l IH]; [done|]. cbn [length seq map nth]. f_equal. rewrite <- seq_shift, map_map. exact IH.
Qed.

Lemma read_write n off v c : 0 <= n -> cfg_read n off (cfg_write n off v c) = v mod 2 ^ (8 * n).
Proof.
  intros Hn. unfold cfg_read. rewrite (map_ext_in _ (fun i => nth i (le_split (Z.to_nat n) v) 0)).
  - pose proof (map_nth_seq (le_split (Z.to_nat n) v)) as E. rewrite length_le_split in E. rewrite E, le_combine_split.
    do 2 f_equal. lia.
  - intros i Hi%in_seq. apply write_inside. lia.
Qed.

Definition bytes_cfg (c : Z -> Z) : Prop := forall j, c j in_u 8.

Lemma write_bytes n off v c : bytes_cfg c -> bytes_cfg (cfg_write n off v c).
Proof.
  intros Hc j. unfold cfg_write. split_if; [|apply Hc].
  destruct (nth_in_or_default (Z.to_nat (j - off)) (le_split (Z.to_nat n) v) 0) as [Hin| ->]; [|done].
  exact (proj1 (List.Forall_forall _ _) (le_split_bytes (Z.to_nat n) v) _ Hin).
Qed.

Lemma cfg_read_range n off c : 0 <= n -> bytes_cfg c -> cfg_read n off c in_u (8 * n).
Proof.
  intros Hn Hc. unfold cfg_read.
  pose proof (le_combine_range (map (fun i => c (off + Z.of_nat i)) (seq 0 (Z.to_nat n)))) as H.
  rewrite length_map, length_seq, Z2Nat.id in H by done. apply H. apply List.Forall_map, List.Forall_forall. intros i _. apply Hc.
Qed.

(** A byte of a register that was read. *)
Lemma read_byte n off c i : bytes_cfg c -> (i < Z.to_nat n)%nat ->
  nth i (le_split (Z.to_nat n) (cfg_read n off c)) 0 = c (off + Z.of_nat i).
Proof.
  intros Hc Hi. unfold cfg_read.
  set (l := map (fun i => c (off + Z.of_nat i)) (seq 0 (Z.to_nat n))).
  assert (Hl : length l = Z.to_nat n) by (unfold l; by rewrite length_map, length_seq).
  rewrite <- Hl. rewrite le_split_combine.
  - unfold l. rewrite (nth_indep _ 0 (c (off + Z.of_nat 0))) by (rewrite length_map, length_seq; done).
    rewrite (map_nth (fun i => c (off + Z.of_nat i))), seq_nth by done. done.
  - apply List.Forall_map, List.Forall_forall. intros k _. apply Hc.
Qed.

(** ** The chain *)

Record cap : Type := mk_cap { c_id : Z; c_off : Z; c_len : Z }.

(** The least length of the capabilities that the guest can write. *)
Definition cap_fits (x : cap) : Prop :=
  (c_id x = PCIY_MSI -> 16 <= c_len x) /\ (c_id x = PCIY_MSIX -> 12 <= c_len x).

(** [x] and the capabilities linked after it, up to [e]. *)
Fixpoint chain (c : Z -> Z) (x : cap) (xs : list cap) (e : Z) : Prop :=
  c (c_off x) = c_id x /\ c_off x mod 4 = 0 /\ 4 <= c_len x /\ c_len x mod 4 = 0 /\ cap_fits x /\
  match xs with
  | [] => c (c_off x + 1) = 0 /\ c_off x + c_len x = e
  | y :: xs => c (c_off x + 1) = c_off y /\ c_off y = c_off x + c_len x /\ chain c y xs e
  end.

Lemma chain_bounds c e xs : forall x, chain c x xs e -> c_off x + 4 * Z.of_nat (length (x :: xs)) <= e.
Proof.
  induction xs as [|y xs IH]; intros x (_ & _ & Hl & _ & _ & Hx); cbn [length].
  - lia.
  - destruct Hx as (_ & Ho & Hy). specialize (IH y Hy). cbn [length] in IH. lia.
Qed.

Lemma chain_ext c c' e xs : forall x,
  (forall y, y ∈ x :: xs -> c' (c_off y) = c (c_off y) /\ c' (c_off y + 1) = c (c_off y + 1)) ->
  chain c x xs e -> chain c' x xs e.
Proof.
  induction xs as [|y xs IH]; intros x Hc; cbn; intros (H1 & H2 & H3 & H4 & H5 & H6);
    destruct (Hc x ltac:(by left)) as [E1 E2]; rewrite E1, E2; do 5 (split; [done|]); [done|].
  destruct H6 as (H6 & H7 & H8). split; [done|]. split; [done|]. apply IH; [|done]. intros z Hz. apply Hc. by right.
Qed.

Lemma chain_unique c e xs : forall x x' xs', chain c x xs e -> chain c x' xs' e -> c_off x = c_off x' -> 0 <= c_off x ->
  x :: xs = x' :: xs'.
Proof.
  induction xs as [|y xs IH]; intros [i o l] [i' o' l'] xs'; cbn [chain c_id c_off c_len].
  - intros (H1 & _ & H3 & _ & _ & H6 & H7). destruct xs' as [|y' xs']; cbn [chain c_id c_off c_len].
    + intros (H1' & _ & _ & _ & _ & _ & H7') <- _. do 2 f_equal; lia || congruence.
    + intros (_ & _ & H3' & _ & _ & H6' & H7' & _) <- Ho. lia.
  - intros (H1 & _ & H3 & _ & _ & H6 & H7 & H8). destruct xs' as [|y' xs']; cbn [chain c_id c_off c_len].
    + intros (_ & _ & _ & _ & _ & H6' & _) <- Ho. lia.
    + intros (H1' & _ & _ & _ & _ & H6' & H7' & H8') <- Ho.
      assert (Ey : y :: xs = y' :: xs') by (apply IH; [done|done|congruence|lia]). injection Ey as -> ->.
      do 2 f_equal; lia || congruence.
Qed.

(** The members lie one after the other. *)
Lemma chain_member c e xs : forall x y, chain c x xs e -> y ∈ x :: xs ->
  c_off x <= c_off y /\ c_off y + c_len y <= e /\ c_off y mod 4 = 0 /\ 4 <= c_len y /\ c_len y mod 4 = 0 /\ cap_fits y /\
  c (c_off y) = c_id y.
Proof.
  induction xs as [|z xs IH]; intros x y Hx Hy.
  - apply list_elem_of_singleton in Hy as ->. destruct Hx as (H1 & H2 & H3 & H4 & H5 & H6 & H7). repeat split; try done; try lia; apply H5.
  - pose proof (chain_bounds c e (z :: xs) x Hx) as Hb. destruct Hx as (H1 & H2 & H3 & H4 & H5 & H6 & H7 & H8).
    pose proof (chain_bounds c e xs z H8) as Hb2. cbn [length] in Hb, Hb2.
    apply elem_of_cons in Hy as [->|Hy].
    + repeat split; try done; try lia; apply H5.
    + destruct (IH z y H8 Hy) as (K1 & K2 & K3). split; [lia|done].
Qed.

(** Two members that hold the same byte are one. *)
Lemma chain_disjoint c e xs : forall x y y' o, chain c x xs e -> y ∈ x :: xs -> y' ∈ x :: xs ->
  c_off y <= o < c_off y + c_len y -> c_off y' <= o < c_off y' + c_len y' -> y = y'.
Proof.
  induction xs as [|z xs IH]; intros x y y' o Hx Hy Hy' Ho Ho'.
  { apply list_elem_of_singleton in Hy as ->. by apply list_elem_of_singleton in Hy' as ->. }
  pose proof Hx as (_ & _ & _ & _ & _ & _ & Hz & Hch).
  apply elem_of_cons in Hy as [->|Hy]; apply elem_of_cons in Hy' as [->|Hy']; [done| | |by apply (IH z y y' o)].
  - destruct (chain_member c e xs z y' Hch Hy'). lia.
  - destruct (chain_member c e xs z y Hch Hy). lia.
Qed.

(** What lies inside a member, behind its header, is no header. *)
Lemma chain_inside c e xs : forall x y z j, chain c x xs e -> y ∈ x :: xs -> z ∈ x :: xs ->
  c_off y + 2 <= j < c_off y + c_len y -> j <> c_off z /\ j <> c_off z + 1.
Proof.
  induction xs as [|w xs IH]; intros x y z j Hx Hy Hz Hj.
  { apply list_elem_of_singleton in Hy as ->. apply list_elem_of_singleton in Hz as ->. lia. }
  pose proof (chain_member c e (w :: xs) x) as Hmem. pose proof Hx as (_ & _ & Hl & _ & _ & _ & Ho & Hw).
  apply elem_of_cons in Hy as [->|Hy]; apply elem_of_cons in Hz as [->|Hz].
  - lia.
  - destruct (chain_member c e xs w z Hw Hz). lia.
  - destruct (chain_member c e xs w y Hw Hy). lia.
  - by apply (IH w y z j).
Qed.

(** ** The search *)

Section Caps.
Context {R W : Type} `{!Lintr R, !Decoder W}.
Local Abbreviation S := (pci R W).
Implicit Types s : S.

Lemma wp_get_cfg n d off (Q : Z -> S -> Prop) s : cfg_in_range n off = true ->
  Q (cfg_read n off (pi_cfgdata (get_pdev d s))) s -> wp (pci_get_cfgdata n d off) Q s.
Proof. intros Hr HQ. apply wp_bind, wp_KASSERT; [done|]. by apply wp_gets. Qed.

Lemma read1 off c : cfg_read 1 off c = c off.
Proof.
  unfold cfg_read. change (seq 0 (Z.to_nat 1)) with [0%nat]. cbn [map le_combine].
  replace (off + Z.of_nat 0) with off by lia. lia.
Qed.

Lemma in_range1 off : off <= 255 -> cfg_in_range 1 off = true.
Proof. intros Ho. unfold cfg_in_range, PCI_REGMAX. cbn. rewrite Z.land_0_r. apply andb_true_iff. by rewrite Z.leb_le. Qed.

Lemma find_cap_spec e xs d s (Q : Z -> S -> Prop) : bytes_cfg (pi_cfgdata (get_pdev d s)) -> e <= 256 ->
  forall x fuel offset, chain (pi_cfgdata (get_pdev d s)) x xs e -> 0 < c_off x <= offset -> offset < e ->
  (length (x :: xs) <= fuel)%nat ->
  (forall y, y ∈ x :: xs -> c_off y <= offset < c_off y + c_len y -> Q (c_off y) s) ->
  wp (find_cap fuel d offset (c_off x)) Q s.
Proof.
  intros Hb He. induction xs as [|y xs IH]; intros x [|fuel] offset Hx Ho Hoe Hf HQ; cbn [length] in Hf; try lia; cbn [find_cap];
    pose proof (chain_bounds _ _ _ _ Hx) as Hbx; cbn [length] in Hbx.
  - pose proof Hx as (_ & _ & _ & _ & _ & Hn & Hend).
    apply wp_bind, wp_get_cfg; [apply in_range1; lia|]. rewrite read1, Hn. cbn [Z.eqb].
    apply wp_ret, HQ; [by left|lia].
  - pose proof Hx as (_ & _ & Hlen & _ & _ & Hn & Ho' & Hy). pose proof (chain_bounds _ _ _ _ Hy) as Hby. cbn [length] in Hby.
    apply wp_bind, wp_get_cfg; [apply in_range1; lia|]. rewrite read1, Hn.
    rewrite (proj2 (Z.eqb_neq _ _)) by lia. rewrite (proj2 (Z.leb_le _ _)) by lia. cbn [andb].
    apply wp_if; intros E; bools.
    + apply wp_ret, HQ; [by left|lia].
    + apply IH; [done|lia|done|cbn [length]; lia|]. intros z Hz. apply HQ. by right.
Qed.
End Caps.
