(* ===== verification/PciBar.v ===== *)
(** * Base address registers and the address decoders

    A guest programs the base address registers of a device, enables and
    disables its address spaces and writes its capabilities.  The invariant of
    this file says that the port table and the memory map hold exactly the
    ranges of the enabled registers, that a register reads as the address it
    decodes, and that the capability list stays intact.  It is proved for every
    guest access, against the interface [DecoderLaws] of the two tables and
    [LintrLaws] of the interrupt router. *)

From S2P Require Import Prelude Effects PciCfg PciCaps.

Local Open Scope cmd_scope.

(** ** Alignment *)

Definition align (k v : Z) : Z := 2 ^ k * (v / 2 ^ k).

Lemma mask_align k v : 0 <= k <= 64 -> v in_u 64 -> Z.land v (u64 (Z.lnot (2 ^ k - 1))) = align k v.
Proof.
  intros Hk Hv. assert (H2 : 0 <= v / 2 ^ k) by (apply Z.div_pos; lia).
  apply Z.bits_inj'. intros i Hi. unfold align, u64. rewrite (Z.mul_comm (2 ^ k)), <- Z.shiftl_mul_pow2, Z.shiftl_spec by lia.
  rewrite Z.land_spec. destruct (Z.ltb_spec i 64).
  - rewrite Z.mod_pow2_bits_low, Z.lnot_spec by lia. replace (2 ^ k - 1) with (Z.ones k) by (rewrite Z.ones_equiv; lia).
    destruct (Z.ltb_spec i k).
    + rewrite Z.ones_spec_low by lia. rewrite andb_false_r, Z.testbit_neg_r by lia. done.
    + rewrite Z.ones_spec_high by lia. rewrite andb_true_r. rewrite Z.div_pow2_bits by lia. f_equal. lia.
  - rewrite Z.mod_pow2_bits_high, andb_false_r by lia. destruct (Z.ltb_spec i k); [by rewrite Z.testbit_neg_r by lia|].
    rewrite Z.div_pow2_bits by lia. replace (i - k + k) with i by lia.
    symmetry. apply (proj1 (in_u_bits 64 v ltac:(lia)) Hv). lia.
Qed.

Lemma mask_align16 k v : 0 <= k <= 64 -> Z.land (Z.land v (u64 (Z.lnot (2 ^ k - 1)))) 0xffff = align k (v mod 2 ^ 16).
Proof.
  intros Hk. rewrite <- Z.land_assoc, (Z.land_comm (u64 _)), Z.land_assoc. change 0xffff with (Z.ones 16).
  rewrite Z.land_ones by lia. apply mask_align; [done|]. pose proof (mod_in_u 16 v ltac:(lia)). lia.
Qed.

Lemma align_mod k v : 0 <= k -> align k v mod 2 ^ k = 0.
Proof. intros Hk. unfold align. rewrite Z.mul_comm. by apply Z.mod_mul, Z.pow_nonzero. Qed.

Lemma align_range k v : 0 <= k -> 0 <= v -> 0 <= align k v <= v.
Proof.
  intros Hk Hv. unfold align. assert (Hp : 0 < 2 ^ k) by (by apply Z.pow_pos_nonneg).
  pose proof (Z.mul_div_le v (2 ^ k) Hp). pose proof (Z.div_pos v (2 ^ k) Hv Hp). nia.
Qed.

Lemma align_id k v : 0 <= k -> v mod 2 ^ k = 0 -> align k v = v.
Proof. intros Hk Hv. unfold align. pose proof (Z.div_mod v (2 ^ k) (Z.pow_nonzero 2 k ltac:(done) Hk)). lia. Qed.

(** An aligned block inside a power of two. *)
Lemma aligned_fits k n v : 0 <= k <= n -> v mod 2 ^ k = 0 -> v in_u n -> v + 2 ^ k <= 2 ^ n.
Proof.
  intros Hk Hv Hn. pose proof (align_id k v ltac:(lia) Hv) as E. unfold align in E.
  replace (2 ^ n) with (2 ^ k * 2 ^ (n - k)) in * by (rewrite <- Z.pow_add_r by lia; f_equal; lia).
  pose proof (Z.pow_pos_nonneg 2 k ltac:(lia) ltac:(lia)).
  assert (v / 2 ^ k < 2 ^ (n - k)) by nia. nia.
Qed.

(** Low and high halves of a 64-bit address, and what a write to one of them
    leaves. *)
Lemma mod_of_mod_pow k n v : 0 <= k <= n -> v mod 2 ^ k = 0 -> (v mod 2 ^ n) mod 2 ^ k = 0.
Proof.
  intros Hk Hv. pose proof (Z.div_mod v (2 ^ n) (Z.pow_nonzero 2 n ltac:(done) ltac:(lia))) as E.
  replace (v mod 2 ^ n) with (v - 2 ^ n * (v / 2 ^ n)) by lia.
  replace (2 ^ n) with (2 ^ k * 2 ^ (n - k)) by (rewrite <- Z.pow_add_r by lia; f_equal; lia).
  rewrite <- Z.mul_assoc, (Z.mul_comm (2 ^ k)), Zminus_mod, Z.mod_mul by (apply Z.pow_nonzero; lia).
  rewrite Hv. apply Z.mod_0_l. apply Z.pow_nonzero; lia.
Qed.

Definition set_low (v addr : Z) : Z := 2 ^ 32 * (addr / 2 ^ 32) + v.
Definition set_high (v addr : Z) : Z := addr mod 2 ^ 32 + v.

Lemma set_low_bits v addr : v in_u 32 -> Z.lor (clr addr 0xffffffff) v = set_low v addr.
Proof.
  intros Hv. unfold set_low. rewrite Z.add_comm, add_lor_high by (lia || done). rewrite Z.lor_comm. f_equal.
  unfold clr. replace (Z.lnot 0xffffffff) with (Z.lnot (Z.ones 32)) by done. rewrite <- Z.ldiff_land, Z.ldiff_ones_r by lia.
  by rewrite Z.shiftr_div_pow2 by lia.
Qed.

Lemma set_high_bits v addr : v mod 2 ^ 32 = 0 -> Z.lor (Z.land addr 0xffffffff) v = set_high v addr.
Proof.
  intros Hv. unfold set_high. pose proof (Z.div_mod v (2 ^ 32) ltac:(lia)) as E.
  replace (Z.land addr 0xffffffff) with (addr mod 2 ^ 32) by (change 0xffffffff with (Z.ones 32); by rewrite Z.land_ones by lia).
  rewrite E at 2. rewrite Hv, Z.add_0_r, add_lor_high by (lia || by apply mod_in_u). f_equal.
  rewrite Z.shiftl_mul_pow2 by lia. lia.
Qed.

Lemma alter_insert {A} (f : A -> A) (l : list A) n x : l !! n = Some x -> alter f n l = <[n := f x]> l.
Proof.
  intros H. apply list_eq. intros j. destruct (decide (n = j)) as [->|Hj].
  - rewrite list_lookup_alter_eq, H, list_lookup_insert_eq by (by eapply lookup_lt_Some). done.
  - by rewrite list_lookup_alter_ne, list_lookup_insert_ne.
Qed.

Lemma mod0_le k n v : 0 <= k <= n -> v mod 2 ^ n = 0 -> v mod 2 ^ k = 0.
Proof.
  intros Hk Hv. apply Z.mod_divide in Hv; [|apply Z.pow_nonzero; lia]. apply Z.mod_divide; [apply Z.pow_nonzero; lia|].
  etransitivity; [|exact Hv]. exists (2 ^ (n - k)). rewrite <- Z.pow_add_r by lia. f_equal. lia.
Qed.

Lemma set_low_parts a addr : a in_u 32 -> set_low a addr mod 2 ^ 32 = a /\ set_low a addr / 2 ^ 32 = addr / 2 ^ 32.
Proof. intros Ha. unfold set_low. change (2 ^ 32) with 4294967296 in *. Z.div_mod_to_equations. lia. Qed.

Lemma set_high_parts a addr : a mod 2 ^ 32 = 0 -> set_high a addr mod 2 ^ 32 = addr mod 2 ^ 32 /\ set_high a addr / 2 ^ 32 = a / 2 ^ 32.
Proof. intros Ha. unfold set_high. change (2 ^ 32) with 4294967296 in *. Z.div_mod_to_equations. lia. Qed.

Lemma align_big k v : 32 <= k -> v in_u 32 -> align k v = 0.
Proof.
  intros Hk Hv. unfold align. rewrite Z.div_small; [by rewrite Z.mul_0_r|]. split; [lia|].
  apply Z.lt_le_trans with (2 ^ 32); [lia|]. by apply Z.pow_le_mono_r.
Qed.

Lemma set_low_aligned k v addr : 4 <= k <= 63 -> v in_u 32 -> addr mod 2 ^ k = 0 -> set_low (align k v) addr mod 2 ^ k = 0.
Proof.
  intros Hk Hv Ha. destruct (Z.le_gt_cases k 32).
  - unfold set_low. rewrite Z.add_mod by (apply Z.pow_nonzero; lia). rewrite align_mod, Z.add_0_r by lia.
    rewrite Z.mod_mod by (apply Z.pow_nonzero; lia). apply mod0_le with 32; [lia|]. rewrite Z.mul_comm. by apply Z.mod_mul.
  - rewrite align_big by (done || lia). unfold set_low. pose proof (mod0_le 32 k addr ltac:(lia) Ha).
    replace (2 ^ 32 * (addr / 2 ^ 32) + 0) with addr by (change (2 ^ 32) with 4294967296 in *; Z.div_mod_to_equations; lia). done.
Qed.

Lemma align_high k v : 0 <= k -> align k (2 ^ 32 * v) mod 2 ^ 32 = 0.
Proof.
  intros Hk. destruct (Z.le_gt_cases k 32).
  - rewrite align_id; [rewrite Z.mul_comm; by apply Z.mod_mul|lia|]. apply mod0_le with 32; [lia|].
    rewrite Z.mul_comm. by apply Z.mod_mul.
  - apply mod0_le with k; [lia|]. by apply align_mod.
Qed.

Lemma set_high_aligned k v addr : 4 <= k <= 63 -> addr mod 2 ^ k = 0 ->
  set_high (align k (2 ^ 32 * v)) addr mod 2 ^ k = 0.
Proof.
  intros Hk Ha. unfold set_high. rewrite Z.add_mod by (apply Z.pow_nonzero; lia). rewrite align_mod, Z.add_0_r by lia.
  rewrite Z.mod_mod by (apply Z.pow_nonzero; lia). destruct (Z.le_gt_cases k 32); [apply mod_of_mod_pow; [lia|done]|].
  rewrite (mod0_le 32 k addr) by (done || lia). apply Z.mod_0_l. apply Z.pow_nonzero; lia.
Qed.

Lemma align_high_range k v : 0 <= k -> v in_u 32 -> align k (2 ^ 32 * v) in_u 64 /\ align k (2 ^ 32 * v) / 2 ^ 32 in_u 32.
Proof.
  intros Hk Hv. pose proof (align_range k (2 ^ 32 * v) Hk ltac:(lia)).
  change (2 ^ 64) with 18446744073709551616. change (2 ^ 32) with 4294967296 in *. Z.div_mod_to_equations. lia.
Qed.

Lemma lor_flags n a f : 0 <= n -> a mod 2 ^ n = 0 -> f in_u n -> Z.lor a f = a + f.
Proof.
  intros Hn Ha Hf. pose proof (align_id n a Hn Ha) as E. unfold align in E. rewrite Z.lor_comm.
  rewrite <- E at 1. rewrite Z.mul_comm, <- Z.shiftl_mul_pow2, <- add_lor_high by done. lia.
Qed.

(** ** The interfaces *)

Definition range_ok (r : bar_range) : Prop :=
  0 <= br_base r /\ 0 < br_size r /\
  br_base r + br_size r <= match br_space r with IoSpace => 2 ^ 16 | MemSpace => 2 ^ 64 end.

Definition apart (r r' : bar_range) : Prop :=
  br_space r = br_space r' -> br_base r + br_size r <= br_base r' \/ br_base r' + br_size r' <= br_base r.

(** The ranges that are registered, by device and register. *)
Definition regs_map : Type := Z -> Z -> option bar_range.
Definition put (F : regs_map) (d i : Z) (v : option bar_range) : regs_map := fun d' i' =>
  if (d' =? d) && (i' =? i) then v else F d' i'.

Class DecoderLaws (W : Type) `{!Decoder W} := {
  dec_holds : W -> regs_map -> Prop;
  (** Ranges that are not taken by the chip set. *)
  dec_free : bar_range -> Prop;
  dec_ext w F G : (forall d i, F d i = G d i) -> dec_holds w F -> dec_holds w G;
  dec_register_ok w F r : dec_holds w F -> F (br_dev r) (br_idx r) = None -> range_ok r -> dec_free r ->
    (forall d i r', F d i = Some r' -> apart r r') ->
    wp (dec_register r) (fun e w' => e = 0 /\ dec_holds w' (put F (br_dev r) (br_idx r) (Some r))) w;
  dec_unregister_ok w F r : dec_holds w F -> F (br_dev r) (br_idx r) = Some r ->
    wp (dec_unregister r) (fun e w' => e = 0 /\ dec_holds w' (put F (br_dev r) (br_idx r) None)) w;
}.

(** The router knows of each of the [n] devices whether INTx is permitted. *)
Class LintrLaws (R : Type) `{!Lintr R} := {
  lintr_holds : R -> Z -> (Z -> bool) -> Prop;
  lintr_ext r n f g : (forall d, 0 <= d < n -> f d = g d) -> lintr_holds r n f -> lintr_holds r n g;
  lintr_update_ok r n f d b : lintr_holds r n f -> 0 <= d < n ->
    wp (lintr_update d b) (fun _ r' => lintr_holds r' n (fun d' => if d' =? d then b else f d')) r;
}.

(** ** The invariant *)

Definition bar_reg (p : devinst) (i : Z) : Z := cfg_read 4 (PCIR_BAR i) (pi_cfgdata p).
Definition bar_at (p : devinst) (i : Z) : pcibar := default no_bar (pi_bar p !! Z.to_nat i).

(** A register has a power of two as its size and an aligned address in its
    space, and configuration space shows this address and the type. *)
Definition bar_ok (p : devinst) (i : Z) : Prop :=
  let b := bar_at p i in
  match bar_type b with
  | PCIBAR_NONE => True
  | PCIBAR_IO => exists k, bar_size b = 2 ^ k /\ 2 <= k <= 16 /\ bar_addr b mod 2 ^ k = 0 /\ bar_addr b in_u 16 /\
                           bar_reg p i = bar_addr b + 1
  | PCIBAR_MEM32 => exists k, bar_size b = 2 ^ k /\ 4 <= k <= 31 /\ bar_addr b mod 2 ^ k = 0 /\ bar_addr b in_u 32 /\
                              bar_reg p i = bar_addr b
  | PCIBAR_MEM64 => exists k f, bar_size b = 2 ^ k /\ 4 <= k <= 63 /\ bar_addr b mod 2 ^ k = 0 /\ bar_addr b in_u 64 /\
                                i < PCI_BARMAX /\ bar_type (bar_at p (i + 1)) = PCIBAR_MEMHI64 /\
                                0 <= f < 16 /\ bar_reg p i = bar_addr b mod 2 ^ 32 + f /\
                                bar_reg p (i + 1) = bar_addr b / 2 ^ 32
  | PCIBAR_MEMHI64 => 0 < i /\ bar_type (bar_at p (i - 1)) = PCIBAR_MEM64
  end.

Definition is_bar (i : Z) : Prop := 0 <= i <= PCI_BARMAX.

Definition has_caps (p : devinst) : bool := tst (cfg_read 2 PCIR_STATUS (pi_cfgdata p)) PCIM_STATUS_CAPPRESENT.

Definition caps_ok (p : devinst) : Prop := has_caps p = true ->
  exists x xs, c_off x = CAP_START_OFFSET /\ chain (pi_cfgdata p) x xs (pi_capend p + 1) /\ pi_capend p <= PCI_REGMAX.

Record dev_ok (p : devinst) : Prop := {
  dv_bytes : bytes_cfg (pi_cfgdata p);
  dv_length : length (pi_bar p) = 6%nat;
  dv_bars i : is_bar i -> bar_ok p i;
  dv_caps : caps_ok p;
}.

(** The range of a register that is enabled. *)
Definition decodes (p : devinst) (i : Z) : bool :=
  match bar_type (bar_at p i) with
  | PCIBAR_IO => porten p
  | PCIBAR_MEM32 | PCIBAR_MEM64 => memen p
  | PCIBAR_NONE | PCIBAR_MEMHI64 => false
  end.
Definition dev_active (d : Z) (p : devinst) (i : Z) : option bar_range :=
  if bool_decide (is_bar i) && decodes p i then Some (range_of d i (bar_at p i)) else None.
Definition active (devs : list devinst) : regs_map := fun d i =>
  if 0 <=? d then match devs !! Z.to_nat d with Some p => dev_active d p i | None => None end else None.

Definition permitted (devs : list devinst) (d : Z) : bool := pci_lintr_permitted (default no_devinst (devs !! Z.to_nat d)).

(** ** Programming a register *)

Definition set_addr (p : devinst) (i a : Z) : devinst :=
  p <| pi_bar ::= alter (fun b => b <| bar_addr := a |>) (Z.to_nat i) |>.

Lemma bar_at_set p i a j : length (pi_bar p) = 6%nat -> is_bar i -> 0 <= j ->
  bar_at (set_addr p i a) j = if j =? i then bar_at p i <| bar_addr := a |> else bar_at p j.
Proof.
  intros Hl Hi Hj. unfold is_bar, PCI_BARMAX in *. unfold bar_at, set_addr, upd. cbn [pi_bar].
  destruct (Z.eqb_spec j i) as [->|Hne].
  - rewrite list_lookup_alter_eq. destruct (lookup_lt_is_Some_2 (pi_bar p) (Z.to_nat i)) as [b Hb]; [lia|]. by rewrite Hb.
  - by rewrite list_lookup_alter_ne by lia.
Qed.

Lemma set_addr_id p i : set_addr p i (bar_addr (bar_at p i)) = p.
Proof.
  unfold set_addr, bar_at, upd. destruct p as [pc ce m mx c bars]. cbn [pi_bar]. f_equal. apply list_eq. intros n.
  rewrite list_lookup_alter. case_decide as E; [|done]. subst n. destruct (bars !! Z.to_nat i) as [[t z a]|]; done.
Qed.

Lemma decodes_set p i a j : length (pi_bar p) = 6%nat -> is_bar i -> 0 <= j -> decodes (set_addr p i a) j = decodes p j.
Proof.
  intros Hl Hi Hj. unfold decodes. rewrite bar_at_set by done. destruct (Z.eqb_spec j i) as [->|]; done.
Qed.

Lemma dev_active_set d p i a j : length (pi_bar p) = 6%nat -> is_bar i ->
  dev_active d (set_addr p i a) j =
  if j =? i then if decodes p i then Some (range_of d i (bar_at p i <| bar_addr := a |>)) else None else dev_active d p j.
Proof.
  intros Hl Hi. unfold dev_active. destruct (bool_decide_reflect (is_bar j)) as [Hj|Hj]; cbn [andb].
  - unfold is_bar in Hj. rewrite decodes_set, bar_at_set by (done || lia). destruct (Z.eqb_spec j i) as [->|]; done.
  - destruct (Z.eqb_spec j i) as [->|]; done.
Qed.

(** The reference for a write of [v] to register [i]: the new address and what
    the register reads as. *)
Definition program (p : devinst) (i v : Z) : devinst * Z :=
  let b := bar_at p i in
  match bar_type b with
  | PCIBAR_NONE => (set_addr p i 0, 0)
  | PCIBAR_IO => let a := align (Z.log2 (bar_size b)) (v mod 2 ^ 16) in (set_addr p i a, a + 1)
  | PCIBAR_MEM32 => let a := align (Z.log2 (bar_size b)) v in (set_addr p i a, a)
  | PCIBAR_MEM64 =>
      let a := align (Z.log2 (bar_size b)) v in (set_addr p i (set_low a (bar_addr b)), a + 12)
  | PCIBAR_MEMHI64 =>
      let lo := bar_at p (i - 1) in
      let a := align (Z.log2 (bar_size lo)) (2 ^ 32 * v) in (set_addr p (i - 1) (set_high a (bar_addr lo)), a / 2 ^ 32)
  end.

Definition bar_written (p : devinst) (i v : Z) : devinst :=
  (program p i v).1 <| pi_cfgdata ::= cfg_write 4 (PCIR_BAR i) (program p i v).2 |>.

Lemma bar_reg_written p i j x : bar_reg (p <| pi_cfgdata ::= cfg_write 4 (PCIR_BAR i) x |>) j =
  if j =? i then x mod 2 ^ 32 else bar_reg p j.
Proof.
  unfold bar_reg, PCIR_BAR, upd. cbn [pi_cfgdata]. destruct (Z.eqb_spec j i) as [->|Hne].
  - by rewrite read_write by lia.
  - apply cfg_read_ext. intros n Hn. apply write_outside. lia.
Qed.

Lemma bar_type_set p i a j : length (pi_bar p) = 6%nat -> is_bar i -> 0 <= j ->
  bar_type (bar_at (set_addr p i a) j) = bar_type (bar_at p j).
Proof. intros Hl Hi Hj. rewrite bar_at_set by done. destruct (Z.eqb_spec j i) as [->|]; done. Qed.

(** A register that another write leaves alone. *)
Lemma bar_ok_keep p p' j : is_bar j -> bar_at p' j = bar_at p j ->
  (forall k, 0 <= k -> bar_type (bar_at p k) <> PCIBAR_NONE -> bar_type (bar_at p' k) = bar_type (bar_at p k)) ->
  (bar_type (bar_at p j) <> PCIBAR_NONE -> bar_type (bar_at p j) <> PCIBAR_MEMHI64 -> bar_reg p' j = bar_reg p j) ->
  (bar_type (bar_at p j) = PCIBAR_MEM64 -> bar_reg p' (j + 1) = bar_reg p (j + 1)) ->
  bar_ok p j -> bar_ok p' j.
Proof.
  intros Hj Hb Ht Hr Hr2. unfold is_bar in Hj. unfold bar_ok. rewrite Hb. destruct (bar_type (bar_at p j)) eqn:E; try done.
  - by rewrite Hr.
  - by rewrite Hr.
  - intros (k & f & H1 & H2 & H3 & H4 & H5 & H6 & H7). exists k, f. rewrite Hr, Hr2, Ht by (done || lia || by rewrite H6). done.
  - intros [Hj0 Hlo]. split; [done|]. by rewrite Ht by (lia || by rewrite Hlo).
Qed.

(** The invariant of a device after address [c] and register [i] changed. *)
Lemma bars_ok_write p c a i x : dev_ok p -> is_bar c -> is_bar i -> x in_u 32 ->
  (c = i /\ bar_type (bar_at p i) <> PCIBAR_MEMHI64) \/ (c = i - 1 /\ bar_type (bar_at p i) = PCIBAR_MEMHI64) ->
  let p' := set_addr p c a <| pi_cfgdata ::= cfg_write 4 (PCIR_BAR i) x |> in
  bar_ok p' c -> forall j, is_bar j -> bar_ok p' j.
Proof.
  intros Hp Hc Hi Hx Hci p' Hok j Hj. destruct (decide (j = c)) as [->|Hne]; [done|].
  assert (Hl := dv_length p Hp). unfold is_bar in *. pose proof (dv_bars p Hp j Hj) as Hpj.
  assert (Hat : forall k, bar_at p' k = bar_at (set_addr p c a) k) by done.
  assert (Hrg : forall k, bar_reg p' k = if k =? i then x mod 2 ^ 32 else bar_reg p k) by (intros k; apply (bar_reg_written (set_addr p c a))).
  apply (bar_ok_keep p); try done.
  - rewrite Hat, bar_at_set by (done || lia). by rewrite (proj2 (Z.eqb_neq _ _)).
  - intros k Hk _. rewrite Hat. by apply bar_type_set.
  - intros Hn Hh. rewrite Hrg. rewrite (proj2 (Z.eqb_neq _ _)); [done|]. intros ->. by destruct Hci as [[-> _]|[_ Hci]].
  - intros H64. rewrite Hrg. rewrite (proj2 (Z.eqb_neq _ _)); [done|]. intros E. unfold bar_ok in Hpj. rewrite H64 in Hpj.
    destruct Hpj as (k & f & _ & _ & _ & _ & _ & Hh & _). rewrite E in Hh. destruct Hci as [[_ Hci]|[-> _]]; [done|lia].
Qed.

Lemma caps_ok_write p n off x : caps_ok p -> off + n <= PCIR_STATUS \/ PCIR_STATUS + 2 <= off ->
  (has_caps p = true -> off + n <= CAP_START_OFFSET \/ pi_capend p < off) ->
  caps_ok (p <| pi_cfgdata ::= cfg_write n off x |>).
Proof.
  intros Hp Hs Hc H. unfold upd in *.
  assert (Hh : has_caps p = true).
  { rewrite <- H. unfold has_caps. cbn [pi_cfgdata]. f_equal. apply cfg_read_ext. intros j Hj. symmetry. apply write_outside. lia. }
  destruct (Hp Hh) as (y & ys & Hy & Hch & He). exists y, ys. split; [done|]. split; [|done]. cbn [pi_cfgdata pi_capend].
  refine (chain_ext _ _ _ _ _ _ Hch). intros z Hz. pose proof (chain_member _ _ _ _ _ Hch Hz) as (Hz1 & Hz2 & _ & Hz3 & _).
  rewrite Hy in Hz1. specialize (Hc Hh). split; apply write_outside; lia.
Qed.

(** What a write leaves: address [c] and the register [i]. *)
Definition written (p : devinst) (c a i x : Z) : devinst := set_addr p c a <| pi_cfgdata ::= cfg_write 4 (PCIR_BAR i) x |>.

Lemma bar_at_written p c a i x j : length (pi_bar p) = 6%nat -> is_bar c -> 0 <= j ->
  bar_at (written p c a i x) j = if j =? c then bar_at p c <| bar_addr := a |> else bar_at p j.
Proof. exact (bar_at_set p c a j). Qed.

Lemma io_written p i v : dev_ok p -> is_bar i -> bar_type (bar_at p i) = PCIBAR_IO ->
  let a := align (Z.log2 (bar_size (bar_at p i))) (v mod 2 ^ 16) in a + 1 in_u 32 /\ bar_ok (written p i a i (a + 1)) i.
Proof.
  intros Hp Hi Ht a. pose proof (dv_bars p Hp i Hi) as Hb. unfold bar_ok in *. rewrite Ht in Hb.
  destruct Hb as (k & Hk & Hkr & _). subst a. rewrite Hk, Z.log2_pow2 by lia.
  pose proof (mod_in_u 16 v ltac:(lia)). pose proof (align_range k (v mod 2 ^ 16) ltac:(lia) ltac:(lia)).
  rewrite bar_at_written, Z.eqb_refl by (apply Hp || done || (unfold is_bar in Hi; lia)). cbn. rewrite Ht. split; [lia|].
  exists k. unfold written. rewrite bar_reg_written, Z.eqb_refl, (Z.mod_small (align k (v mod 2 ^ 16) + 1)) by lia.
  repeat split; try done; try lia. apply align_mod. lia.
Qed.

Lemma mem32_written p i v : dev_ok p -> is_bar i -> v in_u 32 -> bar_type (bar_at p i) = PCIBAR_MEM32 ->
  let a := align (Z.log2 (bar_size (bar_at p i))) v in a in_u 32 /\ bar_ok (written p i a i a) i.
Proof.
  intros Hp Hi Hv Ht a. pose proof (dv_bars p Hp i Hi) as Hb. unfold bar_ok in *. rewrite Ht in Hb.
  destruct Hb as (k & Hk & Hkr & _). subst a. rewrite Hk, Z.log2_pow2 by lia.
  pose proof (align_range k v ltac:(lia) ltac:(lia)).
  rewrite bar_at_written, Z.eqb_refl by (apply Hp || done || (unfold is_bar in Hi; lia)). cbn. rewrite Ht. split; [lia|].
  exists k. unfold written. rewrite bar_reg_written, Z.eqb_refl, (Z.mod_small (align k v) (2 ^ 32)) by lia.
  repeat split; try done; try lia. apply align_mod. lia.
Qed.

Lemma mem64_written p i v : dev_ok p -> is_bar i -> v in_u 32 -> bar_type (bar_at p i) = PCIBAR_MEM64 ->
  let a := align (Z.log2 (bar_size (bar_at p i))) v in
  a in_u 32 /\ a + 12 in_u 32 /\ bar_ok (written p i (set_low a (bar_addr (bar_at p i))) i (a + 12)) i.
Proof.
  intros Hp Hi Hv Ht a. pose proof (dv_bars p Hp i Hi) as Hb. unfold bar_ok in *. rewrite Ht in Hb.
  destruct Hb as (k & f & Hk & Hkr & Hal & Har & Hlt & Hhi & Hf & Hr & Hr2). unfold a. rewrite Hk, Z.log2_pow2 by lia.
  assert (Ha : align k v in_u 32) by (pose proof (align_range k v ltac:(lia) ltac:(lia)); lia).
  assert (Ha12 : align k v + 12 in_u 32).
  { pose proof (aligned_fits 4 32 (align k v) ltac:(lia)
      (mod0_le 4 k _ ltac:(lia) (align_mod k v ltac:(lia))) Ha). lia. }
  destruct (set_low_parts (align k v) (bar_addr (bar_at p i)) Ha) as [E1 E2].
  split; [done|]. split; [done|]. assert (Hl := dv_length p Hp). unfold is_bar in Hi.
  rewrite bar_at_written, Z.eqb_refl by (done || lia). rewrite bar_at_written by (done || lia). cbn. rewrite Ht.
  rewrite (proj2 (Z.eqb_neq (i + 1) i)) by lia. exists k, 12. unfold written.
  rewrite !bar_reg_written, Z.eqb_refl, (proj2 (Z.eqb_neq (i + 1) i)) by lia. rewrite E1, E2, (Z.mod_small (align k v + 12)) by done.
  repeat split; try done; try lia; [by apply set_low_aligned| |].
  - unfold set_low. change (2 ^ 32) with 4294967296 in *. Z.div_mod_to_equations. lia.
  - unfold set_low. change (2 ^ 64) with 18446744073709551616 in *. change (2 ^ 32) with 4294967296 in *. Z.div_mod_to_equations. lia.
Qed.

Lemma memhi_written p i v : dev_ok p -> is_bar i -> v in_u 32 -> bar_type (bar_at p i) = PCIBAR_MEMHI64 ->
  let lo := bar_at p (i - 1) in let a := align (Z.log2 (bar_size lo)) (2 ^ 32 * v) in
  is_bar (i - 1) /\ a / 2 ^ 32 in_u 32 /\ bar_ok (written p (i - 1) (set_high a (bar_addr lo)) i (a / 2 ^ 32)) (i - 1).
Proof.
  intros Hp Hi Hv Ht lo a. pose proof (dv_bars p Hp i Hi) as Hb. unfold bar_ok in Hb. rewrite Ht in Hb. destruct Hb as [Hi0 Hlo].
  assert (Hi1 : is_bar (i - 1)) by (unfold is_bar in *; lia). pose proof (dv_bars p Hp (i - 1) Hi1) as Hb. unfold bar_ok in *.
  rewrite Hlo in Hb. destruct Hb as (k & f & Hk & Hkr & Hal & Har & Hlt & Hhi & Hf & Hr & Hr2).
  unfold a, lo. rewrite Hk, Z.log2_pow2 by lia.
  destruct (align_high_range k v ltac:(lia) Hv) as [Ha Hx]. pose proof (align_high k v ltac:(lia)) as Hz.
  destruct (set_high_parts _ (bar_addr (bar_at p (i - 1))) Hz) as [E1 E2].
  split; [done|]. split; [done|]. assert (Hl := dv_length p Hp). unfold is_bar in Hi, Hi1.
  rewrite bar_at_written, Z.eqb_refl by (done || lia). rewrite bar_at_written by (done || lia). cbn. rewrite Hlo.
  rewrite (proj2 (Z.eqb_neq (i - 1 + 1) (i - 1))) by lia. exists k, f. unfold written.
  rewrite !bar_reg_written, (proj2 (Z.eqb_neq (i - 1) i)), (proj2 (Z.eqb_eq (i - 1 + 1) i)) by lia.
  rewrite E1, E2, (Z.mod_small (align _ _ / _)) by done.
  repeat split; try done; try lia; [by apply set_high_aligned| |].
  - unfold set_high. change (2 ^ 32) with 4294967296 in *. Z.div_mod_to_equations. lia.
  - unfold set_high. change (2 ^ 64) with 18446744073709551616 in *. change (2 ^ 32) with 4294967296 in *. Z.div_mod_to_equations. lia.
Qed.

Lemma written_ok p c a i x : dev_ok p -> is_bar c -> is_bar i -> x in_u 32 ->
  (c = i /\ bar_type (bar_at p i) <> PCIBAR_MEMHI64) \/ (c = i - 1 /\ bar_type (bar_at p i) = PCIBAR_MEMHI64) ->
  bar_ok (written p c a i x) c -> dev_ok (written p c a i x).
Proof.
  intros Hp Hc Hi Hx Hci Hok. split.
  - apply write_bytes. exact (dv_bytes p Hp).
  - cbn. rewrite length_alter. exact (dv_length p Hp).
  - by apply bars_ok_write.
  - unfold is_bar, PCI_BARMAX in *.
    apply caps_ok_write; [exact (dv_caps p Hp)| |intros _]; unfold PCIR_BAR, PCIR_STATUS, CAP_START_OFFSET; lia.
Qed.

Lemma program_ok p i v : dev_ok p -> is_bar i -> v in_u 32 -> dev_ok (bar_written p i v) /\ (program p i v).2 in_u 32.
Proof.
  intros Hp Hi Hv. unfold bar_written, program. destruct (bar_type (bar_at p i)) eqn:Ht; cbn [fst snd].
  - split; [|lia]. apply (written_ok p i 0 i 0); try done; [by left; rewrite Ht|]. unfold bar_ok.
    rewrite bar_at_written, Z.eqb_refl by (apply Hp || done || (unfold is_bar in Hi; lia)). cbn. by rewrite Ht.
  - destruct (io_written p i v Hp Hi Ht) as [Hx Hok]. split; [|done]. apply written_ok; try done. left. by rewrite Ht.
  - destruct (mem32_written p i v Hp Hi Hv Ht) as [Hx Hok]. split; [|done]. apply written_ok; try done. left. by rewrite Ht.
  - destruct (mem64_written p i v Hp Hi Hv Ht) as (_ & Hx & Hok). split; [|done]. apply written_ok; try done. left. by rewrite Ht.
  - destruct (memhi_written p i v Hp Hi Hv Ht) as (Hc & Hx & Hok). split; [|done]. apply written_ok; try done. right. by rewrite Ht.
Qed.

Section Bars.
Context {R W : Type} `{!Lintr R, !LintrLaws R, !Decoder W, !DecoderLaws W}.
Local Abbreviation S := (pci R W).
Implicit Types s : S.

(** Enabled registers do not overlap each other or the chip set. *)
Record no_overlap (devs : list devinst) : Prop := {
  no_apart d i r d' i' r' : active devs d i = Some r -> active devs d' i' = Some r' -> d <> d' \/ i <> i' -> apart r r';
  no_free d i r : active devs d i = Some r -> dec_free r;
}.

Definition ndevs s : Z := Z.of_nat (length (pdevs s)).

Record pci_ok s : Prop := {
  pk_devs p : p ∈ pdevs s -> dev_ok p;
  pk_funcs bus slot func d : fi_devi s bus slot func = Some d -> 0 <= d < ndevs s;
  pk_dec : dec_holds (decoder s) (active (pdevs s));
  pk_lintr : lintr_holds (router s) (ndevs s) (permitted (pdevs s));
  pk_off : 0 <= cfgoff s;
}.

(** ** Devices *)

Lemma get_pdev_lookup d s : 0 <= d < ndevs s -> pdevs s !! Z.to_nat d = Some (get_pdev d s).
Proof.
  intros Hd. unfold ndevs, get_pdev in *. destruct (lookup_lt_is_Some_2 (pdevs s) (Z.to_nat d)) as [p Hp]; [lia|]. by rewrite Hp.
Qed.

Lemma get_pdev_ok d s : pci_ok s -> 0 <= d < ndevs s -> dev_ok (get_pdev d s).
Proof. intros Hs Hd. apply (pk_devs s Hs). by eapply list_elem_of_lookup_2, get_pdev_lookup. Qed.

Lemma get_bar_at d i s : get_bar d i s = bar_at (get_pdev d s) i.
Proof. done. Qed.

Definition set_pdev (d : Z) (p : devinst) s : S := s <| pdevs ::= <[Z.to_nat d := p]> |>.

Lemma wp_on_pdev d f (Q : unit -> S -> Prop) s : 0 <= d < ndevs s ->
  Q tt (set_pdev d (f (get_pdev d s)) s) -> wp (on_pdev d f) Q s.
Proof.
  intros Hd HQ. apply wp_update. unfold set_pdev, upd in *.
  by rewrite (alter_insert _ _ _ _ (get_pdev_lookup d s Hd)).
Qed.

(** A device command ends in such a state. *)
Definition dev_step (d : Z) (p : devinst) (w : W) (r : R) s : S := set_pdev d p s <| decoder := w |> <| router := r |>.

Lemma ndevs_step d p w r s : ndevs (dev_step d p w r s) = ndevs s.
Proof. unfold ndevs, dev_step, set_pdev, upd. cbn [pdevs]. by rewrite length_insert. Qed.

Lemma get_step d p w r s : 0 <= d < ndevs s -> get_pdev d (dev_step d p w r s) = p.
Proof.
  unfold ndevs. intros Hd. unfold get_pdev, dev_step, set_pdev, upd. cbn [pdevs]. rewrite list_lookup_insert_eq by lia. done.
Qed.

Lemma step_step d p p' w w' r r' s : dev_step d p' w' r' (dev_step d p w r s) = dev_step d p' w' r' s.
Proof. unfold dev_step, set_pdev, upd. cbn. by rewrite list_insert_insert_eq. Qed.

Lemma step_id d s : 0 <= d < ndevs s -> s = dev_step d (get_pdev d s) (decoder s) (router s) s.
Proof.
  intros Hd. unfold dev_step, set_pdev, upd. cbn. rewrite list_insert_id by by apply get_pdev_lookup. by destruct s.
Qed.

Lemma set_pdev_step d p s : set_pdev d p s = dev_step d p (decoder s) (router s) s.
Proof. done. Qed.

Lemma set_pdev_step_step d p p' w r s : set_pdev d p' (dev_step d p w r s) = dev_step d p' w r s.
Proof. rewrite set_pdev_step, step_step. done. Qed.

Lemma active_step devs d p d' i : 0 <= d < Z.of_nat (length devs) ->
  active (<[Z.to_nat d := p]> devs) d' i = if d' =? d then dev_active d p i else active devs d' i.
Proof.
  intros Hd. unfold active. destruct (Z.eqb_spec d' d) as [->|Hne].
  - rewrite (proj2 (Z.leb_le 0 d)) by lia. by rewrite list_lookup_insert_eq by lia.
  - split_if; [|done]. rewrite list_lookup_insert_ne by lia. done.
Qed.

Lemma active_at d i s : 0 <= d < ndevs s -> active (pdevs s) d i = dev_active d (get_pdev d s) i.
Proof. intros Hd. unfold active. rewrite (proj2 (Z.leb_le 0 d)) by lia. by rewrite get_pdev_lookup. Qed.

Lemma permitted_step devs d p d' : 0 <= d < Z.of_nat (length devs) -> 0 <= d' ->
  permitted (<[Z.to_nat d := p]> devs) d' = if d' =? d then pci_lintr_permitted p else permitted devs d'.
Proof.
  intros Hd Hd'. unfold permitted. destruct (Z.eqb_spec d' d) as [->|Hne].
  - by rewrite list_lookup_insert_eq by lia.
  - by rewrite list_lookup_insert_ne by lia.
Qed.

Lemma pci_ok_step d p w r s : pci_ok s -> 0 <= d < ndevs s -> dev_ok p ->
  dec_holds w (active (<[Z.to_nat d := p]> (pdevs s))) ->
  lintr_holds r (ndevs s) (permitted (<[Z.to_nat d := p]> (pdevs s))) -> pci_ok (dev_step d p w r s).
Proof.
  intros Hs Hd Hp Hw Hr. split.
  - intros q Hq. change (q ∈ <[Z.to_nat d := p]> (pdevs s)) in Hq. apply list_elem_of_lookup_1 in Hq as [n Hq].
    apply list_lookup_insert_Some in Hq as [(_ & <- & _) | (_ & Hq)]; [done|].
    apply (pk_devs s Hs). by eapply list_elem_of_lookup_2.
  - intros b sl f d'. rewrite ndevs_step. exact (pk_funcs s Hs b sl f d').
  - exact Hw.
  - rewrite ndevs_step. exact Hr.
  - exact (pk_off s Hs).
Qed.

(** ** Elementary commands *)

Lemma wp_set_cfg n d off v (Q : unit -> S -> Prop) s : cfg_in_range n off = true -> 0 <= d < ndevs s ->
  Q tt (set_pdev d (get_pdev d s <| pi_cfgdata ::= cfg_write n off v |>) s) -> wp (pci_set_cfgdata n d off v) Q s.
Proof. intros Hr Hd HQ. apply wp_bind, wp_KASSERT; [done|]. by apply wp_on_pdev. Qed.

Lemma wp_on_decoder {A} (c : cmd W A) (Q : A -> S -> Prop) s :
  wp c (fun a w => Q a (s <| decoder := w |>)) (decoder s) -> wp (on_decoder c) Q s.
Proof. unfold wp, on_decoder. by destruct (c (decoder s)) as [[a w]| |]. Qed.

Lemma wp_on_router {A} (c : cmd R A) (Q : A -> S -> Prop) s :
  wp c (fun a r => Q a (s <| router := r |>)) (router s) -> wp (on_router c) Q s.
Proof. unfold wp, on_router. by destruct (c (router s)) as [[a r]| |]. Qed.

Definition decodable (b : pcibar) : Prop := bar_type b <> PCIBAR_NONE /\ bar_type b <> PCIBAR_MEMHI64.

Lemma range_dev d i b : br_dev (range_of d i b) = d.
Proof. unfold range_of. by destruct (bar_type b). Qed.
Lemma range_idx d i b : br_idx (range_of d i b) = i.
Proof. unfold range_of. by destruct (bar_type b). Qed.

Lemma wp_register d i F (Q : unit -> S -> Prop) s (b := bar_at (get_pdev d s) i) : decodable b -> dec_holds (decoder s) F ->
  F d i = None -> range_ok (range_of d i b) -> dec_free (range_of d i b) ->
  (forall d' i' r', F d' i' = Some r' -> apart (range_of d i b) r') ->
  (forall w, dec_holds w (put F d i (Some (range_of d i b))) -> Q tt (s <| decoder := w |>)) ->
  wp (register_bar d i) Q s.
Proof.
  intros [Hn Hh] HF Hnone Hok Hfree Hapart HQ. unfold register_bar, modify_bar_registration.
  apply wp_bind, wp_gets. rewrite get_bar_at. fold b. apply wp_bind.
  apply (wp_conseq _ (fun e s' => e = 0 /\ exists w, s' = s <| decoder := w |> /\ dec_holds w (put F d i (Some (range_of d i b))))).
  - pose proof (dec_register_ok (decoder s) F (range_of d i b) HF) as Hreg. rewrite range_dev, range_idx in Hreg.
    specialize (Hreg Hnone Hok Hfree Hapart).
    destruct (bar_type b); try done; apply wp_on_decoder; refine (wp_conseq _ _ _ _ Hreg _); intros e w [-> Hw]; eauto.
  - intros e s' (-> & w & -> & Hw). apply wp_KASSERT; [done|]. by apply HQ.
Qed.

Lemma wp_unregister d i F (Q : unit -> S -> Prop) s (b := bar_at (get_pdev d s) i) : decodable b -> dec_holds (decoder s) F ->
  F d i = Some (range_of d i b) ->
  (forall w, dec_holds w (put F d i None) -> Q tt (s <| decoder := w |>)) ->
  wp (unregister_bar d i) Q s.
Proof.
  intros [Hn Hh] HF Hsome HQ. unfold unregister_bar, modify_bar_registration.
  apply wp_bind, wp_gets. rewrite get_bar_at. fold b. apply wp_bind.
  apply (wp_conseq _ (fun e s' => e = 0 /\ exists w, s' = s <| decoder := w |> /\ dec_holds w (put F d i None))).
  - pose proof (dec_unregister_ok (decoder s) F (range_of d i b) HF) as Hreg. rewrite range_dev, range_idx in Hreg.
    specialize (Hreg Hsome).
    destruct (bar_type b); try done; apply wp_on_decoder; refine (wp_conseq _ _ _ _ Hreg _); intros e w [-> Hw]; eauto.
  - intros e s' (-> & w & -> & Hw). apply wp_KASSERT; [done|]. by apply HQ.
Qed.

Lemma wp_update_lintr d f (Q : unit -> S -> Prop) s : 0 <= d < ndevs s -> lintr_holds (router s) (ndevs s) f ->
  (forall d', 0 <= d' < ndevs s -> d' <> d -> f d' = permitted (pdevs s) d') ->
  (forall r, lintr_holds r (ndevs s) (permitted (pdevs s)) -> Q tt (s <| router := r |>)) ->
  wp (update_lintr d) Q s.
Proof.
  intros Hd Hf Hp HQ. apply wp_bind, wp_gets, wp_on_router.
  refine (wp_conseq _ _ _ _ (lintr_update_ok (router s) (ndevs s) f d _ Hf Hd) _).
  intros [] r Hr. apply HQ. refine (lintr_ext r (ndevs s) _ _ _ Hr). intros d' Hd'. cbn beta.
  destruct (Z.eqb_spec d' d) as [->|Hne]; [|by apply Hp]. unfold permitted. by rewrite get_pdev_lookup.
Qed.

(** ** Changing an address *)

(** The address after [update_bar_address]. *)
Definition moved (type : pcibar_type) (addr old : Z) : Z :=
  match type with
  | PCIBAR_MEM64 => Z.lor (clr old 0xffffffff) addr
  | PCIBAR_MEMHI64 => Z.lor (Z.land old 0xffffffff) addr
  | _ => addr
  end.

Lemma wp_on_bar d i f a (Q : unit -> S -> Prop) s : 0 <= d < ndevs s ->
  (forall b, pi_bar (get_pdev d s) !! Z.to_nat i = Some b -> f b = b <| bar_addr := a |>) ->
  Q tt (set_pdev d (set_addr (get_pdev d s) i a) s) -> wp (on_bar d i f) Q s.
Proof.
  intros Hd Hf HQ. apply wp_on_pdev; [done|]. unfold set_addr in HQ.
  replace (get_pdev d s <| pi_bar ::= alter f (Z.to_nat i) |>)
    with (get_pdev d s <| pi_bar ::= alter (fun b => b <| bar_addr := a |>) (Z.to_nat i) |>); [done|].
  unfold upd. f_equal. apply list_eq. intros n. rewrite !list_lookup_alter. case_decide; [|done].
  destruct (pi_bar (get_pdev d s) !! Z.to_nat i) as [b|] eqn:E; [|done]. cbn. by rewrite Hf.
Qed.

Lemma bar_lookup p i : length (pi_bar p) = 6%nat -> is_bar i -> pi_bar p !! Z.to_nat i = Some (bar_at p i).
Proof.
  intros Hl Hi. unfold is_bar, PCI_BARMAX, bar_at in *. destruct (lookup_lt_is_Some_2 (pi_bar p) (Z.to_nat i)) as [b Hb]; [lia|].
  by rewrite Hb.
Qed.

Lemma wp_move d i type addr (Q : unit -> S -> Prop) s (p := get_pdev d s) (a := moved type addr (bar_addr (bar_at p i))) :
  0 <= d < ndevs s -> length (pi_bar p) = 6%nat -> is_bar i -> type <> PCIBAR_NONE ->
  Q tt (set_pdev d (set_addr p i a) s) ->
  wp (match type with
      | PCIBAR_IO | PCIBAR_MEM32 => on_bar d i (fun b => b <| bar_addr := addr |>)
      | PCIBAR_MEM64 => on_bar d i (fun b => b <| bar_addr ::= fun a => Z.lor (clr a 0xffffffff) addr |>)
      | PCIBAR_MEMHI64 => on_bar d i (fun b => b <| bar_addr ::= fun a => Z.lor (Z.land a 0xffffffff) addr |>)
      | PCIBAR_NONE => fun _ => Panic
      end) Q s.
Proof.
  intros Hd Hl Hi Ht HQ.
  assert (Hb : forall b, pi_bar p !! Z.to_nat i = Some b -> b = bar_at p i) by (intros b Hb; by rewrite bar_lookup in Hb; simplify_eq).
  destruct type; try done; apply (wp_on_bar d i _ a); try done; intros b ->%Hb; done.
Qed.

(** What is registered after register [i] moved. *)
Lemma active_moved d i a s (p := get_pdev d s) : 0 <= d < ndevs s -> length (pi_bar p) = 6%nat -> is_bar i ->
  forall d' j, active (<[Z.to_nat d := set_addr p i a]> (pdevs s)) d' j =
    put (active (pdevs s)) d i (if decodes p i then Some (range_of d i (bar_at p i <| bar_addr := a |>)) else None) d' j.
Proof.
  intros Hd Hl Hi d' j. rewrite active_step by done. unfold put. destruct (Z.eqb_spec d' d) as [->|]; cbn [andb]; [|done].
  rewrite dev_active_set by done. destruct (j =? i); [done|]. by rewrite active_at.
Qed.

Lemma dev_active_some d p i : is_bar i -> decodes p i = true -> dev_active d p i = Some (range_of d i (bar_at p i)).
Proof. intros Hi Hd. unfold dev_active. by rewrite bool_decide_true, Hd by done. Qed.

Lemma decodes_code p i : decodable (bar_at p i) ->
  (if bool_decide (bar_type (bar_at p i) = PCIBAR_IO) then porten p else memen p) = decodes p i.
Proof. intros [Hn Hh]. unfold decodes. by destruct (bar_type (bar_at p i)). Qed.

Lemma regs_put_put F d i v v' d' j : put (put F d i v) d i v' d' j = put F d i v' d' j.
Proof. unfold put. by destruct ((d' =? d) && (j =? i)). Qed.

Lemma put_same F d i v : put F d i v d i = v.
Proof. unfold put. by rewrite !Z.eqb_refl. Qed.

Lemma wp_update_bar_address d i type addr (Q : unit -> S -> Prop) s
    (p := get_pdev d s) (a := moved type addr (bar_addr (bar_at p i))) (devs' := <[Z.to_nat d := set_addr p i a]> (pdevs s)) :
  0 <= d < ndevs s -> length (pi_bar p) = 6%nat -> is_bar i -> type <> PCIBAR_NONE -> decodable (bar_at p i) ->
  dec_holds (decoder s) (active (pdevs s)) -> no_overlap devs' ->
  range_ok (range_of d i (bar_at p i <| bar_addr := a |>)) ->
  (forall w, dec_holds w (active devs') -> Q tt (dev_step d (set_addr p i a) w (router s) s)) ->
  wp (update_bar_address d addr i type) Q s.
Proof.
  intros Hd Hl Hi Ht Hb Hdec Hno Hr HQ. pose proof (active_moved d i a s Hd Hl Hi) as Hact. fold p in Hact. fold devs' in Hact.
  apply wp_bind, wp_gets, wp_bind, wp_gets. rewrite get_bar_at. fold p. rewrite (decodes_code p i Hb).
  apply wp_bind, wp_when; intros Hdc; rewrite Hdc in Hact.
  - apply (wp_unregister d i (active (pdevs s))); [done|done|by rewrite active_at, dev_active_some|]. intros w1 Hw1.
    apply wp_bind. apply (wp_move d i type addr); try done.
    apply wp_when; [intros _|by rewrite Hdc].
    set (s2 := set_pdev d (set_addr p i a) (s <| decoder := w1 |>)). change (wp (register_bar d i) Q s2).
    assert (Hp2 : get_pdev d s2 = set_addr p i a) by (by apply (get_step d (set_addr p i a) w1 (router s) s)).
    assert (Hb2 : bar_at (get_pdev d s2) i = bar_at p i <| bar_addr := a |>).
    { rewrite Hp2, bar_at_set by (done || (unfold is_bar in Hi; lia)). by rewrite Z.eqb_refl. }
    assert (Hme : active devs' d i = Some (range_of d i (bar_at p i <| bar_addr := a |>))) by (by rewrite Hact, put_same).
    apply (wp_register d i (put (active (pdevs s)) d i None)); rewrite ?Hb2; [exact Hb|exact Hw1| | | | |].
    + by rewrite put_same.
    + done.
    + by apply (no_free devs' Hno d i).
    + intros d' j r' Hr'. apply (no_apart devs' Hno d i _ d' j r' Hme).
      * rewrite Hact. unfold put in *. by destruct ((d' =? d) && (j =? i)).
      * unfold put in Hr'. destruct (Z.eqb_spec d' d), (Z.eqb_spec j i); cbn [andb] in Hr'; simplify_eq; auto.
    + intros w Hw. apply (HQ w). refine (dec_ext w _ _ _ Hw). intros d' j. by rewrite Hact, regs_put_put.
  - apply wp_bind. apply (wp_move d i type addr); try done.
    apply wp_when; [by rewrite Hdc|intros _]. rewrite set_pdev_step. apply HQ. refine (dec_ext _ _ _ _ Hdec). intros d' j.
    rewrite Hact. unfold put. destruct (Z.eqb_spec d' d) as [->|], (Z.eqb_spec j i) as [->|]; cbn [andb]; try done.
    rewrite active_at by done. fold p. unfold dev_active. by rewrite Hdc, andb_false_r.
Qed.

(** ** Writing a register *)

Lemma range_ok_bar p d i : dev_ok p -> is_bar i -> decodable (bar_at p i) -> range_ok (range_of d i (bar_at p i)).
Proof.
  intros Hp Hi [Hn Hh]. pose proof (dv_bars p Hp i Hi) as Hb. unfold bar_ok in Hb. unfold range_ok, range_of.
  destruct (bar_type (bar_at p i)); try done; cbn [br_base br_size br_space].
  - destruct Hb as (k & Hk & Hkr & Hal & Har & _). pose proof (aligned_fits k 16 _ ltac:(lia) Hal Har).
    assert (0 < 2 ^ k <= 2 ^ 16) by (split; [by apply Z.pow_pos_nonneg; lia|by apply Z.pow_le_mono_r; lia]).
    rewrite !i32_small by lia. lia.
  - destruct Hb as (k & Hk & Hkr & Hal & Har & _). pose proof (aligned_fits k 32 _ ltac:(lia) Hal Har).
    assert (0 < 2 ^ k) by (by apply Z.pow_pos_nonneg; lia). lia.
  - destruct Hb as (k & f & Hk & Hkr & Hal & Har & _). pose proof (aligned_fits k 64 _ ltac:(lia) Hal Har).
    assert (0 < 2 ^ k) by (by apply Z.pow_pos_nonneg; lia). lia.
Qed.

(** The enabled ranges depend on the registers and the command register only. *)
Lemma dev_active_ext d p p' j : pi_bar p' = pi_bar p ->
  cfg_read 2 PCIR_COMMAND (pi_cfgdata p') = cfg_read 2 PCIR_COMMAND (pi_cfgdata p) -> dev_active d p' j = dev_active d p j.
Proof. intros Hb Hc. unfold dev_active, decodes, porten, memen, bar_at. by rewrite Hb, Hc. Qed.

Lemma active_ext d p p' s d' j : 0 <= d < ndevs s -> (forall j, dev_active d p' j = dev_active d p j) ->
  active (<[Z.to_nat d := p']> (pdevs s)) d' j = active (<[Z.to_nat d := p]> (pdevs s)) d' j.
Proof. intros Hd H. rewrite !active_step by done. by destruct (d' =? d). Qed.

Lemma no_overlap_ext devs devs' : (forall d i, active devs d i = active devs' d i) -> no_overlap devs -> no_overlap devs'.
Proof.
  intros H [H1 H2]. split; intros *; rewrite <- !H; [apply H1|apply H2].
Qed.

Lemma wp_maybe_move d c type addr (moves : bool) (Q : unit -> S -> Prop) s
    (p := get_pdev d s) (old := bar_addr (bar_at p c)) (p' := set_addr p c (moved type addr old)) :
  pci_ok s -> 0 <= d < ndevs s -> is_bar c -> type <> PCIBAR_NONE -> decodable (bar_at p c) ->
  (moves = false -> moved type addr old = old) ->
  no_overlap (<[Z.to_nat d := p']> (pdevs s)) -> range_ok (range_of d c (bar_at p' c)) ->
  (forall w, dec_holds w (active (<[Z.to_nat d := p']> (pdevs s))) -> Q tt (dev_step d p' w (router s) s)) ->
  wp (when moves (update_bar_address d addr c type)) Q s.
Proof.
  intros Hs Hd Hc Ht Hb Hold Hno Hr HQ. pose proof (dv_length _ (get_pdev_ok d s Hs Hd)) as Hl.
  apply wp_when; intros E.
  - apply wp_update_bar_address; try done; [exact (pk_dec s Hs)|]. unfold p' in Hr.
    rewrite bar_at_set, Z.eqb_refl in Hr by (done || (unfold is_bar in Hc; lia)). exact Hr.
  - specialize (Hold E). unfold p' in *. rewrite Hold in *. unfold old, p in *. rewrite set_addr_id in *.
    rewrite (step_id d s Hd). apply HQ. refine (dec_ext _ _ _ _ (pk_dec s Hs)). intros d' j.
    rewrite active_step by done. destruct (Z.eqb_spec d' d) as [->|]; [by apply active_at|done].
Qed.

Section WriteAddr.
Context (d i v : Z) (s : S).
Let p := get_pdev d s.
Context (Hs : pci_ok s) (Hd : 0 <= d < ndevs s) (Hi : is_bar i) (Hv : v in_u 32).
Let p1 := (program p i v).1.
Context (Hno : no_overlap (<[Z.to_nat d := p1]> (pdevs s))).

Local Abbreviation written_post := (fun bar s' => bar = (program p i v).2 /\
  exists w, s' = dev_step d p1 w (router s) s /\ dec_holds w (active (<[Z.to_nat d := p1]> (pdevs s)))).

(** One of the branches, for register [c] with the address [addr]. *)
Lemma wp_write_branch c type addr (moves : bool) bar :
  is_bar c -> type <> PCIBAR_NONE -> decodable (bar_at p c) ->
  (moves = false -> moved type addr (bar_addr (bar_at p c)) = bar_addr (bar_at p c)) ->
  p1 = set_addr p c (moved type addr (bar_addr (bar_at p c))) -> bar = (program p i v).2 ->
  wp (when moves (update_bar_address d addr c type) ;;; ret bar) written_post s.
Proof.
  intros Hc Ht Hb Hm Hp1 ->. assert (Hp : dev_ok p) by (by apply get_pdev_ok). pose proof (dv_length p Hp) as Hl.
  destruct (program_ok p i v Hp Hi Hv) as [Hok _].
  apply wp_bind, wp_maybe_move; try done; fold p; rewrite <- Hp1; [done| |].
  - change (bar_at p1 c) with (bar_at (bar_written p i v) c). apply range_ok_bar; [done|done|].
    change (decodable (bar_at p1 c)). unfold decodable. rewrite Hp1, bar_type_set by (done || (unfold is_bar in Hc; lia)). done.
  - intros w Hw. apply wp_ret. split; [done|]. by exists w.
Qed.

Lemma wp_write_none : bar_type (bar_at p i) = PCIBAR_NONE ->
  wp (on_bar d i (fun b => b <| bar_addr := 0 |>) ;;; ret 0) written_post s.
Proof.
  intros Ht. assert (Hp : dev_ok p) by (by apply get_pdev_ok). pose proof (dv_length p Hp) as Hl.
  apply wp_bind, (wp_on_bar d i _ 0); [done|done|]. apply wp_ret. unfold p1, program. rewrite Ht. split; [done|].
  exists (decoder s). split; [by rewrite set_pdev_step|]. refine (dec_ext _ _ _ _ (pk_dec s Hs)). intros d' j.
  pose proof (active_moved d i 0 s Hd Hl Hi d' j) as E. fold p in E. cbn [fst]. rewrite E.
  assert (Hdc : decodes p i = false) by (unfold decodes; by rewrite Ht). rewrite Hdc. unfold put.
  destruct (Z.eqb_spec d' d) as [->|], (Z.eqb_spec j i) as [->|]; cbn [andb]; try done. rewrite active_at by done.
  fold p. unfold dev_active. by rewrite Hdc, andb_false_r.
Qed.

Lemma wp_write_addr : wp (write_addr d i v (bar_at p i)) written_post s.
Proof.
  assert (Hp : dev_ok p) by (by apply get_pdev_ok). pose proof (dv_bars p Hp i Hi) as Hb.
  unfold bar_ok in Hb. unfold write_addr. destruct (bar_type (bar_at p i)) eqn:Ht.
  - by apply wp_write_none.
  - destruct Hb as (k & Hk & Hkr & Hal & Har & _). rewrite Hk, mask_align16 by lia.
    apply (wp_write_branch i); try done; unfold p1, program; rewrite ?Ht, ?Hk, ?Z.log2_pow2 by lia; try done.
    + unfold decodable. by rewrite Ht.
    + intros E. bools. done.
    + cbn [snd]. apply (lor_flags 1); [done| |done]. apply (mod0_le 1 k); [lia|]. apply align_mod. lia.
  - destruct Hb as (k & Hk & Hkr & Hal & Har & _). rewrite Hk, mask_align by lia.
    apply (wp_write_branch i); try done; unfold p1, program; rewrite ?Ht, ?Hk, ?Z.log2_pow2 by lia; try done.
    + unfold decodable. by rewrite Ht.
    + intros E. bools. done.
    + cbn [snd]. by rewrite Z.lor_0_r.
  - destruct Hb as (k & f & Hk & Hkr & Hal & Har & _). rewrite Hk, mask_align by lia.
    destruct (mem64_written p i v Hp Hi Hv Ht) as (Ha & _). rewrite Hk, Z.log2_pow2 in Ha by lia.
    apply (wp_write_branch i); try done; unfold p1, program; rewrite ?Ht, ?Hk, ?Z.log2_pow2 by lia; cbn [fst snd moved].
    + unfold decodable. by rewrite Ht.
    + intros E. bools. rewrite set_low_bits by done. rewrite E. unfold set_low, u32. rewrite <- Z.div_mod by lia. done.
    + by rewrite set_low_bits.
    + apply (lor_flags 4); [done| |done]. apply (mod0_le 4 k); [lia|]. apply align_mod. lia.
  - destruct Hb as [Hi0 Hlo]. apply wp_bind, wp_gets. rewrite get_bar_at. fold p.
    assert (Hi1 : is_bar (i - 1)) by (unfold is_bar in *; lia). pose proof (dv_bars p Hp (i - 1) Hi1) as Hb. unfold bar_ok in Hb.
    rewrite Hlo in Hb. destruct Hb as (k & f & Hk & Hkr & Hal & Har & _).
    rewrite Z.shiftl_mul_pow2, (Z.mul_comm v), u64_id by lia. rewrite Hk, mask_align by lia.
    pose proof (align_high k v ltac:(lia)) as Hz. rewrite !Z.shiftr_div_pow2 by lia.
    apply (wp_write_branch (i - 1)); try done; unfold p1, program; rewrite ?Ht, ?Hk, ?Z.log2_pow2 by lia; cbn [fst snd moved].
    + unfold decodable. by rewrite Hlo.
    + intros E. bools. rewrite set_high_bits by done. unfold set_high.
      pose proof (Z.div_mod (bar_addr (bar_at p (i - 1))) (2 ^ 32) ltac:(lia)).
      pose proof (Z.div_mod (align k (2 ^ 32 * v)) (2 ^ 32) ltac:(lia)). lia.
    + by rewrite set_high_bits.
    + done.
Qed.
End WriteAddr.

Lemma cfg_in_range4 i : is_bar i -> cfg_in_range 4 (PCIR_BAR i) = true.
Proof.
  unfold is_bar, PCI_BARMAX. intros Hi. assert (E : i = 0 \/ i = 1 \/ i = 2 \/ i = 3 \/ i = 4 \/ i = 5) by lia.
  by destruct E as [->|[->|[->|[->|[->| ->]]]]].
Qed.

Lemma bar_written_active d p i v j : is_bar i -> dev_active d (bar_written p i v) j = dev_active d (program p i v).1 j.
Proof.
  intros Hi. apply dev_active_ext; [done|]. apply cfg_read_ext. intros n Hn. apply write_outside.
  unfold PCIR_COMMAND, PCIR_BAR, is_bar in *. lia.
Qed.

Lemma wp_write_bar d i v (Q : unit -> S -> Prop) s (p := get_pdev d s) (p' := bar_written p i v) :
  pci_ok s -> 0 <= d < ndevs s -> is_bar i -> v in_u 32 -> no_overlap (<[Z.to_nat d := p']> (pdevs s)) ->
  (forall w, dec_holds w (active (<[Z.to_nat d := p']> (pdevs s))) -> Q tt (dev_step d p' w (router s) s)) ->
  wp (write_bar d i v) Q s.
Proof.
  intros Hs Hd Hi Hv Hno HQ. destruct (program_ok p i v (get_pdev_ok d s Hs Hd) Hi Hv) as [Hok Hx].
  assert (Hact : forall d' j, active (<[Z.to_nat d := p']> (pdevs s)) d' j =
    active (<[Z.to_nat d := (program p i v).1]> (pdevs s)) d' j)
    by (intros d' j; apply active_ext; [done|]; intros k; by apply bar_written_active).
  apply wp_bind, wp_gets, wp_bind. rewrite get_bar_at.
  refine (wp_conseq _ _ _ _ (wp_write_addr d i v s Hs Hd Hi Hv (no_overlap_ext _ _ Hact Hno)) _).
  intros bar s1 (-> & w & -> & Hw). fold p. rewrite u32_id by done.
  apply wp_set_cfg; [by apply cfg_in_range4|by rewrite ndevs_step|]. rewrite get_step by done. rewrite set_pdev_step_step.
  apply HQ. refine (dec_ext _ _ _ _ Hw). intros d' j. by rewrite Hact.
Qed.

(** ** The command register *)

(** What is registered of the device while the loop of [pci_emul_cmdsts_write]
    is at register [k]: [old] from there on. *)
Definition midway (d k : Z) (old : devinst) (devs : list devinst) : regs_map := fun d' i =>
  if (d' =? d) && (k <=? i) then dev_active d old i else active devs d' i.

Definition cmd_of (p : devinst) : Z := cfg_read 2 PCIR_COMMAND (pi_cfgdata p).

(** Registers of the same space are enabled together. *)
Lemma decodes_space p d i d' i' : decodable (bar_at p i) -> decodable (bar_at p i') ->
  br_space (range_of d i (bar_at p i)) = br_space (range_of d' i' (bar_at p i')) -> decodes p i = decodes p i'.
Proof.
  intros [H1 H2] [H3 H4]. unfold range_of, decodes. by destruct (bar_type (bar_at p i)), (bar_type (bar_at p i')).
Qed.

Lemma dev_active_inv d p i r : dev_active d p i = Some r ->
  is_bar i /\ decodes p i = true /\ decodable (bar_at p i) /\ r = range_of d i (bar_at p i).
Proof.
  unfold dev_active. destruct (bool_decide_reflect (is_bar i)) as [Hi|]; cbn [andb]; [|done].
  destruct (decodes p i) eqn:E; [|done]. intros [= <-]. split; [done|]. split; [done|]. split; [|done].
  unfold decodes, decodable in *. by destruct (bar_type (bar_at p i)).
Qed.

Lemma dev_active_none d p i : decodes p i = false -> dev_active d p i = None.
Proof. intros E. unfold dev_active. by rewrite E, andb_false_r. Qed.

Section Toggle.
Context (d : Z) (old : devinst) (s0 : S).
Let p := get_pdev d s0.
Let changed := Z.lxor (cmd_of old) (cmd_of p).
Context (Hd : 0 <= d < ndevs s0) (Hp : dev_ok p) (Hbars : pi_bar old = pi_bar p) (Hno : no_overlap (pdevs s0)).

Lemma toggle_flag i bit_ : decodes p i = tst (cmd_of p) (bit bit_) -> decodes old i = tst (cmd_of old) (bit bit_) -> 0 <= bit_ ->
  decodes p i = if tst changed (bit bit_) then negb (decodes old i) else decodes old i.
Proof.
  intros -> -> Hb. destruct (tst changed (bit bit_)) eqn:E.
  - by apply tst_lxor_true.
  - symmetry. by apply tst_lxor_false.
Qed.

Lemma bar_at_old i : bar_at old i = bar_at p i.
Proof. unfold bar_at. by rewrite Hbars. Qed.

Lemma midway_next k v d' j : dev_active d p k = v -> midway d (k + 1) old (pdevs s0) d' j = put (midway d k old (pdevs s0)) d k v d' j.
Proof.
  intros <-. unfold midway, put. destruct (Z.eqb_spec d' d) as [->|]; cbn [andb]; [|done].
  destruct (Z.eqb_spec j k) as [->|Hne].
  - rewrite (proj2 (Z.leb_gt (k + 1) k)) by lia. by apply active_at.
  - by replace (k + 1 <=? j) with (k <=? j) by lia.
Qed.

Lemma midway_here k : midway d k old (pdevs s0) d k = dev_active d old k.
Proof. unfold midway. by rewrite Z.eqb_refl, Z.leb_refl. Qed.

(** A register that becomes enabled is apart from all others. *)
Lemma toggle_apart k d' i' r' : is_bar k -> decodable (bar_at p k) -> decodes p k = true -> decodes old k = false ->
  midway d k old (pdevs s0) d' i' = Some r' -> apart (range_of d k (bar_at p k)) r'.
Proof.
  intros Hk Hb Hnew Hold Hr.
  assert (Hme : active (pdevs s0) d k = Some (range_of d k (bar_at p k))) by (rewrite active_at by done; by apply dev_active_some).
  unfold midway in Hr. destruct (Z.eqb_spec d' d) as [->|Hne]; cbn [andb] in Hr.
  - destruct (Z.leb_spec k i').
    + apply dev_active_inv in Hr as (Hi & Hdec & Hb' & ->). rewrite bar_at_old in *.
      assert (Hki : i' <> k) by (intros ->; congruence).
      destruct (decodes p i') eqn:E.
      * apply (no_apart _ Hno d k _ d i' _ Hme); [|auto]. rewrite active_at by done. by apply dev_active_some.
      * intros Hsp. exfalso. pose proof (decodes_space p d k d i' Hb Hb' Hsp). congruence.
    + apply (no_apart _ Hno d k _ d i' _ Hme Hr). right. lia.
  - apply (no_apart _ Hno d k _ d' i' _ Hme Hr). auto.
Qed.

Lemma wp_toggle k flag (Q : unit -> S -> Prop) w : is_bar k -> decodable (bar_at p k) -> 0 <= flag ->
  decodes p k = tst (cmd_of p) (bit flag) -> decodes old k = tst (cmd_of old) (bit flag) ->
  dec_holds w (midway d k old (pdevs s0)) ->
  (forall w', dec_holds w' (midway d (k + 1) old (pdevs s0)) -> Q tt (s0 <| decoder := w' |>)) ->
  wp (when (tst changed (bit flag)) (if tst (cmd_of p) (bit flag) then register_bar d k else unregister_bar d k)) Q
     (s0 <| decoder := w |>).
Proof.
  intros Hk Hb Hf Hnew Hold Hw HQ. pose proof (toggle_flag k flag Hnew Hold Hf) as Htog. apply wp_when; intros E; rewrite E in Htog.
  - rewrite <- Hnew. destruct (decodes p k) eqn:Hdp; symmetry in Htog.
    + apply negb_true_iff in Htog.
      apply (wp_register d k (midway d k old (pdevs s0))); [done|done| | | | |]; change (get_pdev d (s0 <| decoder := w |>)) with p.
      * rewrite midway_here. by apply dev_active_none.
      * by apply range_ok_bar.
      * apply (no_free _ Hno d k). rewrite active_at by done. by apply dev_active_some.
      * intros d' i' r'. by apply toggle_apart.
      * intros w' Hw'. apply (HQ w'). refine (dec_ext _ _ _ _ Hw'). intros d' j. symmetry. apply midway_next. by apply dev_active_some.
    + apply negb_false_iff in Htog.
      apply (wp_unregister d k (midway d k old (pdevs s0))); [done|done| |]; change (get_pdev d (s0 <| decoder := w |>)) with p.
      * rewrite midway_here, dev_active_some by done. by rewrite bar_at_old.
      * intros w' Hw'. apply (HQ w'). refine (dec_ext _ _ _ _ Hw'). intros d' j. symmetry. apply midway_next. by apply dev_active_none.
  - apply (HQ w). refine (dec_ext _ _ _ _ Hw). intros d' j. rewrite (midway_next k _ d' j eq_refl). unfold put.
    destruct (Z.eqb_spec d' d) as [->|], (Z.eqb_spec j k) as [->|]; cbn [andb]; try done. rewrite midway_here.
    unfold dev_active. by rewrite Htog, bar_at_old.
Qed.

Lemma midway_skip k d' j : decodes p k = false -> decodes old k = false ->
  midway d (k + 1) old (pdevs s0) d' j = midway d k old (pdevs s0) d' j.
Proof.
  intros Hp1 Hp2. rewrite (midway_next k None) by (by apply dev_active_none). unfold put.
  destruct (Z.eqb_spec d' d) as [->|], (Z.eqb_spec j k) as [->|]; cbn [andb]; try done. rewrite midway_here.
  symmetry. by apply dev_active_none.
Qed.

Lemma midway_end k d' j : PCI_BARMAX < k -> midway d k old (pdevs s0) d' j = active (pdevs s0) d' j.
Proof.
  intros Hk. unfold midway. destruct (Z.eqb_spec d' d) as [->|]; cbn [andb]; [|done]. destruct (Z.leb_spec k j); [|done].
  rewrite active_at by done. unfold dev_active. by rewrite bool_decide_false by (unfold is_bar; lia).
Qed.

Lemma wp_toggle_bars n (Q : unit -> S -> Prop) : forall k w, 0 <= k -> k + Z.of_nat n = PCI_BARMAX + 1 ->
  dec_holds w (midway d k old (pdevs s0)) ->
  (forall w', dec_holds w' (active (pdevs s0)) -> Q tt (s0 <| decoder := w' |>)) ->
  wp (toggle_bars d (seqZ k (Z.of_nat n)) changed) Q (s0 <| decoder := w |>).
Proof.
  induction n as [|n IH]; intros k w Hk Hn Hw HQ.
  { change (seqZ k (Z.of_nat 0)) with (@nil Z). apply (HQ w). refine (dec_ext _ _ _ _ Hw). intros d' j. apply midway_end. lia. }
  rewrite seqZ_cons by lia. cbn [toggle_bars]. replace (Z.pred (Z.of_nat (Datatypes.S n))) with (Z.of_nat n) by lia.
  replace (Z.succ k) with (k + 1) by lia.
  assert (Hkb : is_bar k) by (unfold is_bar; lia).
  assert (Hnext : forall w', dec_holds w' (midway d (k + 1) old (pdevs s0)) ->
    wp (toggle_bars d (seqZ (k + 1) (Z.of_nat n)) changed) Q (s0 <| decoder := w' |>)) by (intros w' Hw'; apply IH; try done; lia).
  apply wp_bind, wp_gets, wp_bind, wp_gets, wp_bind. change (get_bar d k (s0 <| decoder := w |>)) with (bar_at p k).
  change (get_pdev d (s0 <| decoder := w |>)) with p. destruct (bar_type (bar_at p k)) eqn:Ht.
  - apply wp_skip, Hnext. refine (dec_ext _ _ _ _ Hw). intros d' j. symmetry. apply midway_skip; unfold decodes; by rewrite ?bar_at_old, Ht.
  - apply (wp_toggle k 0); try done; unfold decodable, decodes; by rewrite ?bar_at_old, Ht.
  - apply (wp_toggle k 1); try done; unfold decodable, decodes; by rewrite ?bar_at_old, Ht.
  - apply (wp_toggle k 1); try done; unfold decodable, decodes; by rewrite ?bar_at_old, Ht.
  - apply wp_skip, Hnext. refine (dec_ext _ _ _ _ Hw). intros d' j. symmetry. apply midway_skip; unfold decodes; by rewrite ?bar_at_old, Ht.
Qed.
End Toggle.

(** The reference for a write to the command and status registers: bits 0 to 6
    and 8 to 10 of the command register are writable. *)
Definition cmd_value (p : devinst) (coff n v : Z) : Z :=
  let readonly := Z.shiftr 0xFFFFF880 (Z.land coff 0x3 * 8) in
  Z.lor (clr v readonly) (Z.land (cfg_read n coff (pi_cfgdata p)) readonly).
Definition cmd_written (p : devinst) (coff n v : Z) : devinst := p <| pi_cfgdata ::= cfg_write n coff (cmd_value p coff n v) |>.

Definition is_width (n : Z) : Prop := n = 1 \/ n = 2 \/ n = 4.
Definition aligned_in (coff n : Z) : Prop := is_width n /\ coff mod n = 0 /\ 0 <= coff <= PCI_REGMAX.

Lemma width_range n coff : aligned_in coff n -> cfg_in_range n coff = true /\ cfg_width n = n /\ coff + n <= PCI_REGMAX + 1.
Proof.
  unfold aligned_in, is_width, cfg_in_range, PCI_REGMAX. intros (Hn & Hm & Hc).
  assert (E : Z.land coff (n - 1) = coff mod n /\ coff + n <= 256).
  { destruct Hn as [->|[->| ->]].
    - rewrite Z.land_0_r, Z.mod_1_r. lia.
    - change (2 - 1) with (Z.ones 1). rewrite Z.land_ones by lia. change (2 ^ 1) with 2. split; [done|]. Z.div_mod_to_equations. lia.
    - change (4 - 1) with (Z.ones 2). rewrite Z.land_ones by lia. change (2 ^ 2) with 4. split; [done|]. Z.div_mod_to_equations. lia. }
  destruct E as [E1 E2]. rewrite E1, Hm. split; [|split].
  - apply andb_true_iff. split; [apply Z.leb_le; lia|done].
  - by destruct Hn as [->|[->| ->]].
  - lia.
Qed.

Lemma byte_ext a b : a in_u 8 -> b in_u 8 -> (forall i, 0 <= i < 8 -> Z.testbit a i = Z.testbit b i) -> a = b.
Proof.
  intros Ha Hb H. apply Z.bits_inj'. intros i Hi. destruct (Z.lt_ge_cases i 8); [by apply H|].
  rewrite (proj2 (proj1 (in_u_bits 8 a ltac:(lia)) Ha) i), (proj2 (proj1 (in_u_bits 8 b ltac:(lia)) Hb) i) by done. done.
Qed.

(** The status register is read-only. *)
Lemma status_kept p coff n v j : bytes_cfg (pi_cfgdata p) -> aligned_in coff n -> PCIR_COMMAND <= coff < PCIR_REVID ->
  6 <= j < 8 -> cfg_write n coff (cmd_value p coff n v) (pi_cfgdata p) j = pi_cfgdata p j.
Proof.
  unfold PCIR_COMMAND, PCIR_REVID. intros Hb Ha Hc Hj.
  destruct (decide (coff <= j < coff + n)) as [Hin|]; [|by apply write_outside].
  pose proof (write_bytes n coff (cmd_value p coff n v) (pi_cfgdata p) Hb j) as Hwb.
  apply byte_ext; [done|apply Hb|]. intros b Hbb. set (i := Z.to_nat (j - coff)).
  assert (Hi : (i < Z.to_nat n)%nat) by (unfold i; lia). assert (Hji : j = coff + Z.of_nat i) by (unfold i; lia).
  rewrite Hji, write_inside, <- (read_byte n coff (pi_cfgdata p) i Hb Hi), !byte_testbit by done.
  unfold cmd_value. assert (Hro : Z.testbit (Z.shiftr 0xFFFFF880 (Z.land coff 3 * 8)) (8 * Z.of_nat i + b) = true).
  { change 3 with (Z.ones 2). rewrite Z.land_ones by lia. change (2 ^ 2) with 4.
    assert (Hcm : coff mod 4 = coff - 4) by (Z.div_mod_to_equations; lia). rewrite Hcm, Z.shiftr_spec by lia.
    replace (8 * Z.of_nat i + b + (coff - 4) * 8) with (8 * (j - 4) + b) by lia.
    assert (E : 16 <= 8 * (j - 4) + b < 32) by lia. remember (8 * (j - 4) + b) as m eqn:Em. clear Em.
    change 0xFFFFF880 with (Z.lor 0xF880 (Z.shiftl (Z.ones 16) 16)). rewrite Z.lor_spec, Z.shiftl_spec, Z.ones_spec_low by lia.
    apply orb_true_r. }
  rewrite Z.lor_spec, clr_testbit, Z.land_spec, Hro by lia. by rewrite andb_false_r, andb_true_r.
Qed.

(** A write that changes neither a base address register nor the status
    register nor the header of a capability. *)
Lemma dev_ok_cfg p p' : dev_ok p -> bytes_cfg (pi_cfgdata p') -> pi_bar p' = pi_bar p -> pi_capend p' = pi_capend p ->
  (forall j, 0x10 <= j < 0x28 \/ 6 <= j < 8 -> pi_cfgdata p' j = pi_cfgdata p j) ->
  (has_caps p = true -> exists x xs, c_off x = CAP_START_OFFSET /\ chain (pi_cfgdata p) x xs (pi_capend p + 1) /\
    forall y, y ∈ x :: xs ->
    pi_cfgdata p' (c_off y) = pi_cfgdata p (c_off y) /\ pi_cfgdata p' (c_off y + 1) = pi_cfgdata p (c_off y + 1)) ->
  dev_ok p'.
Proof.
  intros Hp Hb Hbar Hend Hj Hcap. assert (Hat : forall k, bar_at p' k = bar_at p k) by (intros k; unfold bar_at; by rewrite Hbar).
  assert (Hreg : forall k, is_bar k -> bar_reg p' k = bar_reg p k).
  { intros k Hk. apply cfg_read_ext. intros j Hjk. apply Hj. unfold PCIR_BAR, is_bar, PCI_BARMAX in *. lia. }
  split; [done|rewrite Hbar; exact (dv_length p Hp)| |].
  - intros k Hk. pose proof (dv_bars p Hp k Hk) as Hok. apply (bar_ok_keep p); try done.
    + intros k' _ _. by rewrite Hat.
    + intros _ _. by apply Hreg.
    + intros H64. unfold bar_ok in Hok. rewrite H64 in Hok. destruct Hok as (? & ? & _ & _ & _ & _ & Hlt & _).
      apply Hreg. unfold is_bar in *. lia.
  - intros Hh. assert (Hh' : has_caps p = true).
    { rewrite <- Hh. unfold has_caps. f_equal. apply cfg_read_ext. unfold PCIR_STATUS. intros j Hjr. symmetry. apply Hj. lia. }
    destruct (dv_caps p Hp Hh') as (_ & _ & _ & _ & He). destruct (Hcap Hh') as (x & xs & Hx & Hch & Hy). exists x, xs. rewrite Hend.
    split; [done|]. split; [|done]. by refine (chain_ext _ _ _ _ _ _ Hch).
Qed.

Lemma cmd_written_ok p coff n v : dev_ok p -> aligned_in coff n -> PCIR_COMMAND <= coff < PCIR_REVID ->
  dev_ok (cmd_written p coff n v).
Proof.
  intros Hp Ha Hc. destruct (width_range n coff Ha) as (_ & _ & _). destruct Ha as (Hn & Hm & Hr).
  assert (Hend : coff + n <= 8) by (unfold PCIR_COMMAND, PCIR_REVID, is_width in *; destruct Hn as [->|[->| ->]]; Z.div_mod_to_equations; lia).
  unfold PCIR_COMMAND in Hc. apply (dev_ok_cfg p); try done.
  - by apply write_bytes, dv_bytes.
  - intros j [Hj|Hj]; [apply write_outside; lia|]. apply status_kept; [by apply dv_bytes|done|done|done].
  - intros Hh. destruct (dv_caps p Hp Hh) as (x & xs & Hx & Hch & _). exists x, xs. split; [done|]. split; [done|]. intros y Hy.
    pose proof (chain_member _ _ _ _ _ Hch Hy) as (Hy1 & _). rewrite Hx in Hy1.
    unfold CAP_START_OFFSET in Hy1. split; apply write_outside; lia.
Qed.

Lemma wp_CFGWRITE d coff v n (Q : unit -> S -> Prop) s : aligned_in coff n -> 0 <= d < ndevs s ->
  Q tt (set_pdev d (get_pdev d s <| pi_cfgdata ::= cfg_write n coff v |>) s) -> wp (CFGWRITE d coff v n) Q s.
Proof. intros Ha Hd HQ. destruct (width_range n coff Ha) as (Hr & Hw & _). unfold CFGWRITE. rewrite Hw. by apply wp_set_cfg. Qed.

Lemma wp_cmdsts d coff v n (Q : unit -> S -> Prop) s (p := get_pdev d s) (p' := cmd_written p coff n v) :
  pci_ok s -> 0 <= d < ndevs s -> aligned_in coff n -> PCIR_COMMAND <= coff < PCIR_REVID ->
  no_overlap (<[Z.to_nat d := p']> (pdevs s)) ->
  (forall w r, dec_holds w (active (<[Z.to_nat d := p']> (pdevs s))) ->
     lintr_holds r (ndevs s) (permitted (<[Z.to_nat d := p']> (pdevs s))) -> Q tt (dev_step d p' w r s)) ->
  wp (pci_emul_cmdsts_write d coff v n) Q s.
Proof.
  intros Hs Hd Ha Hc Hno HQ. assert (Hp : dev_ok p) by (by apply get_pdev_ok).
  pose proof (cmd_written_ok p coff n v Hp Ha Hc) as Hok. destruct (width_range n coff Ha) as (Hr & Hw & _).
  unfold pci_emul_cmdsts_write. apply wp_bind, wp_get_cfg; [done|]. apply wp_bind. unfold CFGREAD. rewrite Hw. apply wp_get_cfg; [done|].
  apply wp_bind, wp_CFGWRITE; [done|done|]. set (s1 := set_pdev d _ s). apply wp_bind, wp_get_cfg; [done|].
  assert (Hn1 : ndevs s1 = ndevs s) by apply (ndevs_step d _ (decoder s) (router s) s).
  assert (Hp1 : get_pdev d s1 = p') by (by apply (get_step d p' (decoder s) (router s) s)).
  assert (Hpd : pdevs s1 = <[Z.to_nat d := p']> (pdevs s)) by done.
  change (cfg_read 2 PCIR_COMMAND (pi_cfgdata (get_pdev d s))) with (cmd_of p). change (cfg_read 2 PCIR_COMMAND (pi_cfgdata (get_pdev d s1))) with (cmd_of (get_pdev d s1)).
  apply wp_bind. change (seqZ 0 (PCI_BARMAX + 1)) with (seqZ 0 (Z.of_nat 6)).
  change s1 with (s1 <| decoder := decoder s |>) at 2. apply wp_toggle_bars.
  - by rewrite Hn1.
  - by rewrite Hp1.
  - by rewrite Hp1.
  - by rewrite Hpd.
  - lia.
  - done.
  - refine (dec_ext _ _ _ _ (pk_dec s Hs)). intros d' j. unfold midway. rewrite Hpd, active_step by done.
    destruct (Z.eqb_spec d' d) as [->|]; cbn [andb]; [|done]. rewrite active_at by done. fold p.
    destruct (Z.leb_spec 0 j); [done|]. unfold dev_active. by rewrite bool_decide_false by (unfold is_bar; lia).
  - intros w Hwd. apply (wp_update_lintr d (permitted (pdevs s))).
    + change (ndevs (s1 <| decoder := w |>)) with (ndevs s1). by rewrite Hn1.
    + change (ndevs (s1 <| decoder := w |>)) with (ndevs s1). rewrite Hn1. exact (pk_lintr s Hs).
    + intros d' Hd' Hne. change (pdevs (s1 <| decoder := w |>)) with (<[Z.to_nat d := p']> (pdevs s)).
      rewrite permitted_step by (done || lia). by rewrite (proj2 (Z.eqb_neq _ _)).
    + intros r Hrr. apply (HQ w r); [done|]. change (ndevs (s1 <| decoder := w |>)) with (ndevs s1) in Hrr. by rewrite Hn1 in Hrr.
Qed.
End Bars.
