(* ===== verification/PciSafe.v ===== *)
(** * Guest accesses to PCI configuration space

    Every access of a guest to configuration space, through the port pair or
    the extended window, returns and keeps the invariant of [PciBar], provided
    the guest does not program two enabled registers onto each other.  The
    device after the access is given by a reference function. *)

From S2P Require Import Prelude Effects PciCfg PciCaps PciBar.

Local Open Scope cmd_scope.

(** ** References for capability writes *)

Definition msix_ctrl (p : devinst) (offset v : Z) : Z :=
  let rwmask := Z.lor PCIM_MSIXCTRL_MSIX_ENABLE PCIM_MSIXCTRL_FUNCTION_MASK in
  Z.lor (clr (cfg_read 2 offset (pi_cfgdata p)) rwmask) (Z.land v rwmask).

Definition msi_ctrl (p : devinst) (offset v : Z) : Z :=
  let rwmask := Z.lor PCIM_MSICTRL_MME_MASK PCIM_MSICTRL_MSI_ENABLE in
  Z.lor (clr (cfg_read 2 offset (pi_cfgdata p)) rwmask) (Z.land v rwmask).

Definition put_cfg (n off v : Z) (p : devinst) : devinst := p <| pi_cfgdata ::= cfg_write n off v |>.

Definition msix_written (p : devinst) (capoff offset n v : Z) : devinst :=
  if (offset - capoff =? 2) && (n =? 2) then
    let c := msix_ctrl p offset v in
    put_cfg 2 offset c (p <| pi_msix ::= fun m => m <| msix_enabled := tst c PCIM_MSIXCTRL_MSIX_ENABLE |>
                                              <| msix_function_mask := tst c PCIM_MSIXCTRL_FUNCTION_MASK |> |>)
  else put_cfg n offset v p.

(** The state that the message control register [c] programs. *)
Definition msi_programmed (p : devinst) (capoff c : Z) (m : pi_msi_t) : pi_msi_t :=
  if tst c PCIM_MSICTRL_MSI_ENABLE then
    mk_msi true (cfg_read 4 (capoff + 4) (pi_cfgdata p))
      (cfg_read 2 (if tst c PCIM_MSICTRL_64BIT then capoff + 12 else capoff + 8) (pi_cfgdata p))
      (Z.shiftl 1 (Z.shiftr (Z.land c PCIM_MSICTRL_MME_MASK) 4))
  else m <| msi_enabled := false |> <| msi_maxmsgnum := 0 |>.

Definition msi_written (p : devinst) (capoff offset n v : Z) : devinst :=
  if (offset - capoff =? 2) && (n =? 2) then
    let c := msi_ctrl p offset v in
    put_cfg 2 offset c (p <| pi_msi ::= msi_programmed p capoff c |>)
  else put_cfg n offset v p.

(** A write behind the header of capability [y]. *)
Definition body_written (p : devinst) (y : cap) (offset n v : Z) : devinst :=
  if c_id y =? PCIY_MSI then msi_written p (c_off y) offset n v
  else if c_id y =? PCIY_MSIX then msix_written p (c_off y) offset n v
  else if c_id y =? PCIY_EXPRESS then put_cfg n offset v p
  else p.

(** The header is read-only; a write of four bytes to it is cut down to its
    upper half. *)
Definition cap_written (p : devinst) (y : cap) (offset n v : Z) : devinst :=
  if (offset =? c_off y) || (offset =? c_off y + 1) then
    if (offset =? c_off y) && (n =? 4) then body_written p y (offset + 2) 2 (Z.shiftr v 16) else p
  else body_written p y offset n v.

Section Caps.
Context {R W : Type} `{!Lintr R, !LintrLaws R, !Decoder W, !DecoderLaws W}.
Local Abbreviation S := (pci R W).
Implicit Types s : S.

(** What a device command that touches no base address register achieves. *)
Definition quiet_step (d : Z) (p' : devinst) s s' : Prop := exists r,
  s' = dev_step d p' (decoder s) r s /\ lintr_holds r (ndevs s) (permitted (<[Z.to_nat d := p']> (pdevs s))).

Lemma wp_quiet_write d p1 r coff v n (Q : unit -> S -> Prop) s : 0 <= d < ndevs s -> aligned_in coff n ->
  coff + n <= 4 \/ 6 <= coff -> lintr_holds r (ndevs s) (permitted (<[Z.to_nat d := p1]> (pdevs s))) ->
  (forall s', quiet_step d (put_cfg n coff v p1) s s' -> Q tt s') ->
  wp (CFGWRITE d coff v n) Q (dev_step d p1 (decoder s) r s).
Proof.
  intros Hd Ha Hc Hr HQ. apply wp_CFGWRITE; [done|by rewrite ndevs_step|]. rewrite get_step, set_pdev_step_step by done.
  apply HQ. exists r. split; [done|]. refine (lintr_ext _ _ _ _ _ Hr). intros d' Hd'.
  rewrite !permitted_step by (done || lia). destruct (d' =? d); [|done]. unfold pci_lintr_permitted. cbn. do 3 f_equal.
  apply cfg_read_ext. intros j Hj. symmetry. apply write_outside. unfold PCIR_COMMAND in *. lia.
Qed.

Lemma wp_lintr_step d p1 (Q : unit -> S -> Prop) s : pci_ok s -> 0 <= d < ndevs s ->
  (forall r, lintr_holds r (ndevs s) (permitted (<[Z.to_nat d := p1]> (pdevs s))) -> Q tt (dev_step d p1 (decoder s) r s)) ->
  wp (update_lintr d) Q (set_pdev d p1 s).
Proof.
  intros Hs Hd HQ. rewrite set_pdev_step. set (s1 := dev_step d p1 _ _ s).
  assert (Hn : ndevs s1 = ndevs s) by apply ndevs_step.
  apply (wp_update_lintr d (permitted (pdevs s))); rewrite ?Hn; [done|exact (pk_lintr s Hs)| |].
  - intros d' Hd' Hne. change (pdevs s1) with (<[Z.to_nat d := p1]> (pdevs s)). rewrite permitted_step by (done || lia).
    by rewrite (proj2 (Z.eqb_neq _ _)).
  - intros r Hr. by apply (HQ r).
Qed.

Lemma ctrl_off capoff offset n : (offset - capoff =? 2) && (n =? 2) = true -> offset = capoff + 2 /\ n = 2.
Proof. intros E. bools. lia. Qed.

Lemma lintr_here d s : pci_ok s -> 0 <= d < ndevs s ->
  lintr_holds (router s) (ndevs s) (permitted (<[Z.to_nat d := get_pdev d s]> (pdevs s))).
Proof. intros Hs Hd. rewrite list_insert_id by by apply get_pdev_lookup. exact (pk_lintr s Hs). Qed.

Lemma wp_plain_write d coff v n (Q : unit -> S -> Prop) s : pci_ok s -> 0 <= d < ndevs s -> aligned_in coff n ->
  coff + n <= 4 \/ 6 <= coff ->
  (forall s', quiet_step d (put_cfg n coff v (get_pdev d s)) s s' -> Q tt s') -> wp (CFGWRITE d coff v n) Q s.
Proof.
  intros Hs Hd Ha Hc HQ. rewrite (step_id d s Hd). apply wp_quiet_write; try done. by apply lintr_here.
Qed.

Lemma wp_msixcap d capoff offset v n (Q : unit -> S -> Prop) s : pci_ok s -> 0 <= d < ndevs s -> aligned_in offset n ->
  6 <= offset -> (forall s', quiet_step d (msix_written (get_pdev d s) capoff offset n v) s s' -> Q tt s') ->
  wp (msixcap_cfgwrite d capoff offset n v) Q s.
Proof.
  intros Hs Hd Ha Ho HQ. unfold msixcap_cfgwrite, msix_written in *. apply wp_bind, wp_if; intros E; rewrite E in HQ.
  - destruct (ctrl_off _ _ _ E) as [Eo ->]. destruct (width_range 2 offset Ha) as (Hr & _ & _).
    apply wp_bind, wp_get_cfg; [done|]. apply wp_bind, wp_on_pdev; [done|]. apply wp_bind, wp_lintr_step; [done|done|].
    intros r Hlr. apply wp_ret, wp_quiet_write; try done. lia.
  - apply wp_ret, wp_plain_write; try done. lia.
Qed.

Lemma wp_msicap d capoff offset v n (Q : unit -> S -> Prop) s : pci_ok s -> 0 <= d < ndevs s -> aligned_in offset n ->
  6 <= offset -> capoff mod 4 = 0 -> capoff + 16 <= PCI_REGMAX + 1 ->
  (forall s', quiet_step d (msi_written (get_pdev d s) capoff offset n v) s s' -> Q tt s') ->
  wp (msicap_cfgwrite d capoff offset n v) Q s.
Proof.
  intros Hs Hd Ha Ho Hm Hc HQ. unfold msicap_cfgwrite, msi_written in *. apply wp_bind, wp_if; intros E; rewrite E in HQ.
  - destruct (ctrl_off _ _ _ E) as [Eo ->]. destruct (width_range 2 offset Ha) as (Hr & _ & _). unfold PCI_REGMAX in Hc.
    assert (Hal : forall k n, is_width n -> 0 <= k <= 12 -> k mod 4 = 0 -> cfg_in_range n (capoff + k) = true).
    { intros k m Hmw Hk Hk4. apply width_range. split; [done|]. split; [|unfold PCI_REGMAX; lia].
      destruct Hmw as [->|[->| ->]]; Z.div_mod_to_equations; lia. }
    apply wp_bind, wp_get_cfg; [done|]. apply wp_bind, wp_get_cfg; [apply Hal; [unfold is_width; lia|lia|done]|].
    apply wp_bind, wp_get_cfg; [split_if; apply Hal; (unfold is_width; lia) || lia || done|].
    apply wp_bind, wp_on_pdev; [done|]. apply wp_bind, wp_lintr_step; [done|done|].
    intros r Hlr. apply wp_ret, wp_quiet_write; try done. lia.
  - apply wp_ret, wp_plain_write; try done. lia.
Qed.

(** [y] is the capability of [p] that holds [offset]. *)
Definition in_cap (p : devinst) (y : cap) (offset : Z) : Prop := exists x xs,
  c_off x = CAP_START_OFFSET /\ chain (pi_cfgdata p) x xs (pi_capend p + 1) /\ y ∈ x :: xs /\
  c_off y <= offset < c_off y + c_len y.

Definition same_decoding (p p' : devinst) : Prop := pi_bar p' = pi_bar p /\ cmd_of p' = cmd_of p.

Lemma in_cap_facts p y offset : in_cap p y offset -> pi_capend p <= PCI_REGMAX ->
  CAP_START_OFFSET <= c_off y /\ c_off y mod 4 = 0 /\ 4 <= c_len y /\ c_len y mod 4 = 0 /\ cap_fits y /\
  pi_cfgdata p (c_off y) = c_id y /\ c_off y + c_len y <= PCI_REGMAX + 1.
Proof.
  intros (x & xs & Hx & Hch & Hy & _) He. pose proof (chain_member _ _ _ _ _ Hch Hy) as (H1 & H2 & H3 & H4 & H5 & H6 & H7).
  rewrite Hx in H1. repeat split; try done; [apply H6|apply H6|lia].
Qed.

Lemma in_cap_unique p y y' offset : in_cap p y offset -> in_cap p y' offset -> y = y'.
Proof.
  intros (x & xs & Hx & Hch & Hy & Ho) (x' & xs' & Hx' & Hch' & Hy' & Ho').
  assert (E : x :: xs = x' :: xs') by (apply (chain_unique _ _ xs x x' xs' Hch Hch'); rewrite ?Hx, ?Hx'; done).
  injection E as <- <-. by apply (chain_disjoint (pi_cfgdata p) (pi_capend p + 1) xs x y y' offset).
Qed.

Lemma put_body_ok p q y offset off n v : dev_ok p -> has_caps p = true -> in_cap p y offset -> pi_cfgdata q = pi_cfgdata p ->
  pi_bar q = pi_bar p -> pi_capend q = pi_capend p -> c_off y + 2 <= off -> off + n <= c_off y + c_len y -> 0 < n ->
  dev_ok (put_cfg n off v q) /\ same_decoding p (put_cfg n off v q) /\ in_cap (put_cfg n off v q) y offset.
Proof.
  intros Hp Hh (x & xs & Hx & Hch & Hy & Hin) Ec Eb Ee Ho He Hn.
  pose proof (chain_member _ _ _ _ _ Hch Hy) as (Hy1 & Hy2 & _). rewrite Hx in Hy1. unfold CAP_START_OFFSET in Hy1.
  assert (Hkeep : forall z, z ∈ x :: xs -> cfg_write n off v (pi_cfgdata p) (c_off z) = pi_cfgdata p (c_off z) /\
    cfg_write n off v (pi_cfgdata p) (c_off z + 1) = pi_cfgdata p (c_off z + 1)).
  { intros z Hz. assert (Hsame : forall j, c_off y + 2 <= j < c_off y + c_len y -> j <> c_off z /\ j <> c_off z + 1)
      by (intros j Hj; by apply (chain_inside (pi_cfgdata p) (pi_capend p + 1) xs x y z j Hch)).
    split; apply write_outside; intros Hj; [destruct (Hsame (c_off z)) as [[] _]|destruct (Hsame (c_off z + 1)) as [_ []]]; done || lia. }
  unfold put_cfg, upd. split; [|split].
  - apply (dev_ok_cfg p); cbn [pi_cfgdata pi_bar pi_capend]; rewrite ?Ec; try done.
    + by apply write_bytes, dv_bytes.
    + intros j Hj. apply write_outside. lia.
    + intros _. by exists x, xs.
  - split; cbn; [done|]. unfold cmd_of. cbn. rewrite Ec. apply cfg_read_ext. intros j Hj. unfold PCIR_COMMAND in *. apply write_outside. lia.
  - exists x, xs. cbn. rewrite Ec, Ee. split; [done|]. split; [by refine (chain_ext _ _ _ _ _ _ Hch)|done].
Qed.

Lemma body_written_ok p y offset off n v : dev_ok p -> has_caps p = true -> in_cap p y offset ->
  c_off y + 2 <= off -> off + n <= c_off y + c_len y -> 0 < n ->
  dev_ok (body_written p y off n v) /\ same_decoding p (body_written p y off n v) /\ in_cap (body_written p y off n v) y offset.
Proof.
  intros Hp Hh Hy Ho He Hn. unfold body_written, msi_written, msix_written.
  repeat match goal with |- context [if ?b then _ else _] => destruct b eqn:?; cbv zeta end; try done;
    by apply (put_body_ok p _ y offset); repeat (match goal with H : (_ - _ =? 2) && _ = true |- _ => apply ctrl_off in H as [? ->] end).
Qed.

Lemma cap_block y offset n : c_off y mod 4 = 0 -> c_len y mod 4 = 0 -> c_off y <= offset < c_off y + c_len y -> is_width n ->
  offset mod n = 0 -> offset + n <= c_off y + c_len y /\ (offset <> c_off y -> offset <> c_off y + 1 -> c_off y + 2 <= offset).
Proof. intros H1 H2 H3 [->|[->| ->]] H4; Z.div_mod_to_equations; lia. Qed.

Lemma cap_written_ok p y offset n v : dev_ok p -> has_caps p = true -> in_cap p y offset -> pi_capend p <= PCI_REGMAX ->
  aligned_in offset n ->
  dev_ok (cap_written p y offset n v) /\ same_decoding p (cap_written p y offset n v) /\ in_cap (cap_written p y offset n v) y offset.
Proof.
  intros Hp Hh Hy He (Hn & Hm & Hr). pose proof (in_cap_facts p y offset Hy He) as (H1 & H2 & H3 & H4 & _).
  pose proof Hy as (_ & _ & _ & _ & _ & Hin). destruct (cap_block y offset n H2 H4 Hin Hn Hm) as [Hend Hbody].
  unfold cap_written. destruct (Z.eqb_spec offset (c_off y)) as [->|Hne]; cbn [orb andb].
  - destruct (n =? 4); [|done]. apply (body_written_ok p y (c_off y)); done || lia.
  - destruct (Z.eqb_spec offset (c_off y + 1)); [done|]. apply (body_written_ok p y offset); try done; [by apply Hbody|].
    unfold is_width in Hn. lia.
Qed.

(** The dispatch of [pci_emul_capwrite] on the capability at [capoff]. *)
Definition cap_dispatch (d capoff offset bytes val : Z) : cmd S unit :=
  capid <- pci_get_cfgdata 1 d capoff ;;
  if capid =? PCIY_MSI then msicap_cfgwrite d capoff offset bytes val
  else if capid =? PCIY_MSIX then msixcap_cfgwrite d capoff offset bytes val
  else if capid =? PCIY_EXPRESS then pciecap_cfgwrite d capoff offset bytes val
  else skip.

Lemma quiet_same d s : pci_ok s -> 0 <= d < ndevs s -> quiet_step d (get_pdev d s) s s.
Proof. intros Hs Hd. exists (router s). split; [by apply step_id|by apply lintr_here]. Qed.

Lemma wp_dispatch d y offset off n v (Q : unit -> S -> Prop) s (p := get_pdev d s) : pci_ok s -> 0 <= d < ndevs s ->
  in_cap p y offset -> pi_capend p <= PCI_REGMAX -> aligned_in off n -> c_off y + 2 <= off ->
  (forall s', quiet_step d (body_written p y off n v) s s' -> Q tt s') -> wp (cap_dispatch d (c_off y) off n v) Q s.
Proof.
  intros Hs Hd Hy He Ha Ho HQ. pose proof (in_cap_facts p y offset Hy He) as (H1 & H2 & H3 & H4 & H5 & H6 & H7).
  unfold CAP_START_OFFSET in H1. apply wp_bind, wp_get_cfg; [apply in_range1; unfold PCI_REGMAX in *; lia|].
  rewrite read1. fold p. rewrite H6. unfold body_written in HQ. fold p in HQ.
  destruct (Z.eqb_spec (c_id y) PCIY_MSI) as [E|_].
  { apply wp_msicap; try done; [lia|]. destruct H5 as [H5 _]. specialize (H5 E). lia. }
  destruct (Z.eqb_spec (c_id y) PCIY_MSIX) as [E|_]; [apply wp_msixcap; try done; lia|].
  destruct (Z.eqb_spec (c_id y) PCIY_EXPRESS) as [E|_].
  - apply wp_plain_write; try done. lia.
  - apply wp_skip, HQ. by apply quiet_same.
Qed.

Lemma wp_capwrite d offset n v (Q : unit -> S -> Prop) s (p := get_pdev d s) : pci_ok s -> 0 <= d < ndevs s ->
  aligned_in offset n -> pci_emul_iscap p offset = true ->
  (forall y s', in_cap p y offset -> quiet_step d (cap_written p y offset n v) s s' -> Q tt s') ->
  wp (pci_emul_capwrite d offset n v) Q s.
Proof.
  intros Hs Hd Ha Hc HQ. assert (Hp : dev_ok p) by (by apply get_pdev_ok). unfold pci_emul_iscap in Hc.
  apply andb_true_iff in Hc as [Hh Hc]. bools. destruct (dv_caps p Hp Hh) as (x & xs & Hx & Hch & He).
  pose proof (chain_bounds _ _ _ _ Hch) as Hlen. rewrite Hx in Hlen. unfold CAP_START_OFFSET, PCI_REGMAX in *.
  destruct (width_range n offset Ha) as (Hr & _ & _). unfold cfg_in_range in Hr. apply andb_true_iff in Hr as [_ Hr].
  unfold pci_emul_capwrite. rewrite Hr. cbn [negb]. apply wp_bind.
  change CAP_START_OFFSET with 0x40. rewrite <- Hx. apply (find_cap_spec (pi_capend p + 1) xs d s); try done; try lia.
  { exact (dv_bytes p Hp). } 
  intros y Hy Hin. assert (Hyc : in_cap p y offset) by (exists x, xs; done).
  pose proof (in_cap_facts p y offset Hyc He) as (H1 & H2 & H3 & H4 & _ & _ & H7). unfold PCI_REGMAX in H7.
  destruct Ha as (Hn & Hm & Hrg). destruct (cap_block y offset n H2 H4 Hin Hn Hm) as [Hend Hbody].
  apply wp_bind, wp_KASSERT; [apply Z.leb_le; lia|]. specialize (HQ y). unfold cap_written in HQ.
  apply wp_if; intros E; rewrite E in HQ.
  - apply wp_if; intros E2; rewrite E2 in HQ.
    + bools. subst offset. apply (wp_dispatch d y (c_off y)); [done|done|done|done| |lia|intros s'; by apply HQ].
      unfold CAP_START_OFFSET in H1. split; [unfold is_width; lia|]. split; [Z.div_mod_to_equations; lia|unfold PCI_REGMAX; lia].
    + apply wp_skip, HQ; [done|]. by apply quiet_same.
  - apply (wp_dispatch d y offset); try done; [|intros s'; by apply HQ]. bools. apply Hbody; lia.
Qed.

(** ** Accesses *)

(** The device after a write of the guest that its emulation does not handle
    itself. *)
Inductive guest_write (p : devinst) (coff n v : Z) : devinst -> Prop :=
| gw_ignored : PCIR_BAR 0 <= coff < PCIR_BAR (PCI_BARMAX + 1) -> n <> 4 -> guest_write p coff n v p
| gw_bar i : is_bar i -> coff = PCIR_BAR i -> n = 4 -> guest_write p coff n v (bar_written p i v)
| gw_cap y : pci_emul_iscap p coff = true -> in_cap p y coff -> guest_write p coff n v (cap_written p y coff n v)
| gw_cmd : PCIR_COMMAND <= coff < PCIR_REVID -> guest_write p coff n v (cmd_written p coff n v)
| gw_other : ~ PCIR_BAR 0 <= coff < PCIR_BAR (PCI_BARMAX + 1) -> ~ PCIR_COMMAND <= coff < PCIR_REVID ->
    pci_emul_iscap p coff = false -> guest_write p coff n v (put_cfg n coff v p).

(** The access is handled and the invariant kept. *)
Definition write_result (d coff n v : Z) s s' : Prop :=
  pci_ok s' /\ fi_devi s' = fi_devi s /\
  exists p', guest_write (get_pdev d s) coff n v p' /\ pdevs s' = <[Z.to_nat d := p']> (pdevs s).

(** Every enabled register stays apart from the others. *)
Definition write_allowed (d coff n v : Z) s : Prop :=
  forall p', guest_write (get_pdev d s) coff n v p' -> no_overlap (<[Z.to_nat d := p']> (pdevs s)).

Lemma quiet_result d p' coff n v s s' : pci_ok s -> 0 <= d < ndevs s -> dev_ok p' -> same_decoding (get_pdev d s) p' ->
  guest_write (get_pdev d s) coff n v p' -> quiet_step d p' s s' -> write_result d coff n v s s'.
Proof.
  intros Hs Hd Hp' [Hb Hc] Hg (r & -> & Hr). split; [|split; [done|by exists p']].
  apply pci_ok_step; try done. refine (dec_ext _ _ _ _ (pk_dec s Hs)). intros d' j. rewrite active_step by done.
  destruct (Z.eqb_spec d' d) as [->|]; [|done]. rewrite active_at by done. symmetry. by apply dev_active_ext.
Qed.

Lemma cmd_bar_written p i v : is_bar i -> cmd_of (bar_written p i v) = cmd_of p.
Proof.
  intros Hi. unfold bar_written.
  assert (Hc : pi_cfgdata (program p i v).1 = pi_cfgdata p) by (unfold program; by destruct (bar_type (bar_at p i))).
  unfold cmd_of, upd. cbn. rewrite Hc. apply cfg_read_ext. intros j Hj. apply write_outside.
  unfold PCIR_COMMAND, PCIR_BAR, is_bar in *. lia.
Qed.

Lemma permitted_bar p i v : is_bar i -> pci_lintr_permitted (bar_written p i v) = pci_lintr_permitted p.
Proof.
  intros Hi. unfold pci_lintr_permitted. pose proof (cmd_bar_written p i v Hi) as E.
  unfold cmd_of in E. rewrite E. unfold bar_written, program. by destruct (bar_type (bar_at p i)).
Qed.

Lemma lintr_bar d i v s : pci_ok s -> 0 <= d < ndevs s -> is_bar i ->
  lintr_holds (router s) (ndevs s) (permitted (<[Z.to_nat d := bar_written (get_pdev d s) i v]> (pdevs s))).
Proof.
  intros Hs Hd Hi. refine (lintr_ext _ _ _ _ _ (lintr_here d s Hs Hd)). intros d' Hd'.
  rewrite !permitted_step by (done || lia). destruct (d' =? d); [|done]. symmetry. by apply permitted_bar.
Qed.

Lemma other_ok p coff n v : dev_ok p -> aligned_in coff n -> ~ PCIR_BAR 0 <= coff < PCIR_BAR (PCI_BARMAX + 1) ->
  ~ PCIR_COMMAND <= coff < PCIR_REVID -> pci_emul_iscap p coff = false ->
  dev_ok (put_cfg n coff v p) /\ same_decoding p (put_cfg n coff v p) /\ (coff + n <= 4 \/ 6 <= coff).
Proof.
  intros Hp (Hn & Hm & Hr) Hb Hc Hi. unfold PCIR_BAR, PCI_BARMAX, PCIR_COMMAND, PCIR_REVID in *.
  assert (Hout : forall j, 0x10 <= j < 0x28 \/ 4 <= j < 8 -> ~ coff <= j < coff + n)
    by (intros j Hj; unfold is_width in Hn; destruct Hn as [->|[->| ->]]; Z.div_mod_to_equations; lia).
  split; [|split].
  - apply (dev_ok_cfg p); try done; [by apply write_bytes, dv_bytes| |].
    + intros j Hj. apply write_outside, Hout. lia.
    + intros Hh. destruct (dv_caps p Hp Hh) as (x & xs & Hx & Hch & _). exists x, xs. split; [done|]. split; [done|]. intros y Hy.
      pose proof (chain_member _ _ _ _ _ Hch Hy) as (H1 & H2 & H3 & H4 & _). rewrite Hx in H1.
      unfold pci_emul_iscap in Hi. change (tst _ PCIM_STATUS_CAPPRESENT) with (has_caps p) in Hi. rewrite Hh in Hi. cbn [andb] in Hi.
      unfold CAP_START_OFFSET in *. assert (Hcap : coff < 0x40 \/ pi_capend p < coff) by (bools; lia).
      assert (coff + n <= 0x40 \/ pi_capend p < coff) by (unfold is_width in Hn; destruct Hn as [->|[->| ->]]; Z.div_mod_to_equations; lia).
      split; apply write_outside; lia.
  - split; [done|]. apply cfg_read_ext. unfold PCIR_COMMAND. intros j Hj. apply write_outside, Hout. lia.
  - pose proof (Hout 4 ltac:(lia)). pose proof (Hout 5 ltac:(lia)). unfold is_width in Hn. lia.
Qed.

(** The status register shows no capabilities from then on. *)
Lemma guest_write_no_caps p coff n v p' : dev_ok p -> aligned_in coff n -> has_caps p = false -> guest_write p coff n v p' ->
  has_caps p' = false.
Proof.
  intros Hp Ha Hh Hg. assert (Hkeep : forall c, (forall j, 6 <= j < 8 -> c j = pi_cfgdata p j) ->
    tst (cfg_read 2 PCIR_STATUS c) PCIM_STATUS_CAPPRESENT = false).
  { intros c Hc. rewrite <- Hh. unfold has_caps. f_equal. apply cfg_read_ext. unfold PCIR_STATUS. intros j Hj. apply Hc. lia. }
  destruct Hg as [H | i Hi -> -> | y Hc _ | Hc | Hb Hm Hc]; [done| | | |].
  - unfold has_caps, bar_written, upd. cbn [pi_cfgdata]. apply Hkeep. intros j Hj. unfold is_bar, PCIR_BAR in *.
    replace (pi_cfgdata (program p i v).1) with (pi_cfgdata p) by (unfold program; by destruct (bar_type (bar_at p i))).
    apply write_outside. lia.
  - unfold pci_emul_iscap in Hc. change (tst _ PCIM_STATUS_CAPPRESENT) with (has_caps p) in Hc. by rewrite Hh in Hc.
  - apply Hkeep. intros j Hj. apply (status_kept p coff n v j); [by apply dv_bytes|done|done|done].
  - apply Hkeep. intros j Hj. apply write_outside. destruct Ha as (Hn & Hmod & Hr). unfold is_width, PCIR_COMMAND, PCIR_REVID in *.
    destruct Hn as [->|[->| ->]]; Z.div_mod_to_equations; lia.
Qed.

(** The device's own emulation.  A device that handles writes itself, like the
    ISA bridge with its PIRQ routing registers, has no capabilities; what it
    does not handle it leaves alone.  A read changes nothing. *)
Section Accesses.
Context (pe_cfgread : Z -> option (Z -> Z -> Z -> cmd S (bool * Z))) (pe_cfgwrite : Z -> option (Z -> Z -> Z -> cmd S Z)).

Definition own_plain s : Prop := forall d, 0 <= d < ndevs s -> pe_cfgwrite d <> None -> has_caps (get_pdev d s) = false.

Record emulation_ok : Prop := {
  em_write d f coff n v s : pe_cfgwrite d = Some f -> pci_ok s -> own_plain s -> 0 <= d < ndevs s -> aligned_in coff n -> v in_u 32 ->
    wp (f coff n v) (fun e s' => pci_ok s' /\ own_plain s' /\ (e = 0 \/ pdevs s' = pdevs s)) s;
  em_read d f coff n v s : pe_cfgread d = Some f -> pci_ok s -> 0 <= d < ndevs s ->
    wp (f coff n v) (fun _ s' => s' = s) s;
}.
Context (Hem : emulation_ok).

Lemma wp_default_write d coff n v s : pci_ok s -> 0 <= d < ndevs s -> aligned_in coff n -> v in_u 32 -> write_allowed d coff n v s ->
  wp (cfg_write_access (fun _ => None) d coff n v) (fun _ s' => write_result d coff n v s s') s.
Proof.
  intros Hs Hd Ha Hv Hall. assert (Hp : dev_ok (get_pdev d s)) by (by apply get_pdev_ok).
  apply wp_bind, wp_ret. cbv beta iota. destruct (width_range n coff Ha) as (Hr & _ & Hend).
  apply wp_if; intros Eb.
  - assert (Hbar : PCIR_BAR 0 <= coff < PCIR_BAR (PCI_BARMAX + 1)) by (bools; done).
    assert (E4 : negb (n =? 4) || negb (Z.land coff 3 =? 0) = negb (n =? 4)).
    { destruct (Z.eqb_spec n 4) as [->|]; [|done]. unfold cfg_in_range in Hr. apply andb_true_iff in Hr as [_ Hr].
      change (4 - 1) with 3 in Hr. by rewrite Hr. }
    rewrite E4. destruct (Z.eqb_spec n 4) as [->|Hn4]; cbn [negb].
    + set (i := (coff - PCIR_BAR 0) / 4). destruct Ha as (_ & Hm & _). unfold PCIR_BAR, PCI_BARMAX in Hbar.
      assert (Hi : is_bar i) by (unfold is_bar, i, PCIR_BAR, PCI_BARMAX; Z.div_mod_to_equations; lia).
      assert (Hci : coff = PCIR_BAR i) by (unfold i, PCIR_BAR; Z.div_mod_to_equations; lia).
      assert (Hg : guest_write (get_pdev d s) coff 4 v (bar_written (get_pdev d s) i v)) by (by apply gw_bar).
      destruct (program_ok (get_pdev d s) i v Hp Hi Hv) as [Hok _].
      apply wp_write_bar; try done; [by apply Hall|]. intros w Hw. split; [|split; [done|eexists; done]].
      apply pci_ok_step; try done. by apply lintr_bar.
    + apply wp_skip. apply (quiet_result d (get_pdev d s)); try done; [by apply gw_ignored|by apply quiet_same].
  - assert (Hbar : ~ PCIR_BAR 0 <= coff < PCIR_BAR (PCI_BARMAX + 1)) by (bools; lia).
    apply wp_bind, wp_gets. apply wp_if; intros Ec.
    + assert (Hh : has_caps (get_pdev d s) = true) by (unfold pci_emul_iscap in Ec; by apply andb_true_iff in Ec as [? _]).
      destruct (dv_caps _ Hp Hh) as (_ & _ & _ & _ & He).
      apply wp_capwrite; try done. intros y s' Hy Hq. destruct (cap_written_ok _ y coff n v Hp Hh Hy He Ha) as (Hok & Hsame & _).
      apply (quiet_result d (cap_written (get_pdev d s) y coff n v)); try done. by apply gw_cap.
    + apply wp_if; intros Em.
      * assert (Hc : PCIR_COMMAND <= coff < PCIR_REVID) by (bools; done).
        assert (Hg : guest_write (get_pdev d s) coff n v (cmd_written (get_pdev d s) coff n v)) by (by apply gw_cmd).
        apply wp_cmdsts; try done; [by apply Hall|]. intros w r Hw Hlr. split; [|split; [done|eexists; done]].
        apply pci_ok_step; try done. by apply cmd_written_ok.
      * assert (Hc : ~ PCIR_COMMAND <= coff < PCIR_REVID) by (bools; lia).
        destruct (other_ok _ coff n v Hp Ha Hbar Hc Ec) as (Hok & Hsame & Hout).
        apply wp_plain_write; try done. intros s' Hq. by apply (quiet_result d (put_cfg n coff v (get_pdev d s))); try apply gw_other.
Qed.

Lemma get_pdev_same d s s' : pdevs s' = pdevs s -> get_pdev d s' = get_pdev d s.
Proof. intros E. unfold get_pdev. by rewrite E. Qed.

Definition bus_ok s : Prop := pci_ok s /\ own_plain s.

Lemma own_plain_write d coff n v p' s s' : pci_ok s -> 0 <= d < ndevs s -> aligned_in coff n -> own_plain s ->
  guest_write (get_pdev d s) coff n v p' -> pdevs s' = <[Z.to_nat d := p']> (pdevs s) -> own_plain s'.
Proof.
  intros Hs Hd Ha Hc Hg Hpd d' Hd' Hf. assert (Hn : ndevs s' = ndevs s) by (unfold ndevs; by rewrite Hpd, length_insert).
  rewrite Hn in Hd'. unfold get_pdev. rewrite Hpd. destruct (decide (d' = d)) as [->|Hne].
  - rewrite list_lookup_insert_eq by (unfold ndevs in Hd; lia). cbn [default].
    apply (guest_write_no_caps (get_pdev d s) coff n v); [by apply get_pdev_ok|done|by apply Hc|done].
  - rewrite list_lookup_insert_ne by lia. by apply Hc.
Qed.

Lemma wp_write_access d coff n v s : bus_ok s -> 0 <= d < ndevs s -> aligned_in coff n -> v in_u 32 -> write_allowed d coff n v s ->
  wp (cfg_write_access pe_cfgwrite d coff n v) (fun _ => bus_ok) s.
Proof.
  intros [Hs Hc] Hd Ha Hv Hall. assert (Hdef : forall s1, pci_ok s1 -> own_plain s1 -> pdevs s1 = pdevs s ->
    wp (cfg_write_access (fun _ => None) d coff n v) (fun _ => bus_ok) s1).
  { intros s1 Hs1 Hc1 Epd. pose proof (get_pdev_same d s s1 Epd) as Eg.
    assert (Hd1 : 0 <= d < ndevs s1) by (unfold ndevs; by rewrite Epd).
    assert (Hall1 : write_allowed d coff n v s1) by (unfold write_allowed; rewrite Eg, Epd; exact Hall).
    refine (wp_conseq _ _ _ _ (wp_default_write d coff n v s1 Hs1 Hd1 Ha Hv Hall1) _).
    intros [] s' (Hs' & _ & p' & Hg & Epd'). split; [done|]. by apply (own_plain_write d coff n v p' s1). }
  unfold cfg_write_access. destruct (pe_cfgwrite d) as [f|] eqn:Ef; [|by apply Hdef].
  apply wp_bind, wp_bind. refine (wp_conseq _ _ _ _ (em_write Hem d f coff n v s Ef Hs Hc Hd Ha Hv) _).
  intros e s1 (Hs1 & Hc1 & He). apply wp_ret, wp_if; intros E0; [by apply wp_skip|].
  destruct He as [->|Epd]; [done|]. by apply (Hdef s1).
Qed.

Definition read_value (d bus slot coff n : Z) s : Z :=
  pci_emul_hdrtype_fixup bus slot coff n (cfg_read n coff (pi_cfgdata (get_pdev d s))) s.

Lemma wp_read_access d bus slot coff n v s : pci_ok s -> 0 <= d < ndevs s -> aligned_in coff n ->
  wp (cfg_read_access pe_cfgread d bus slot coff n v)
     (fun a s' => s' = s /\ (pe_cfgread d = None -> a = read_value d bus slot coff n s)) s.
Proof.
  intros Hs Hd Ha. destruct (width_range n coff Ha) as (Hr & Hw & _). unfold cfg_read_access, CFGREAD. apply wp_bind. rewrite Hw.
  destruct (pe_cfgread d) as [f|] eqn:Ef.
  - refine (wp_conseq _ _ _ _ (em_read Hem d f coff n v s Ef Hs Hd) _). intros [needcfg e] s' ->. apply wp_bind.
    apply wp_if; intros _; [apply wp_get_cfg; [done|]|apply wp_ret]; apply wp_gets; done.
  - apply wp_ret, wp_bind, wp_get_cfg; [done|]. apply wp_gets. done.
Qed.

(** A write that reaches a register of a device must keep the enabled ranges
    apart. *)
Definition cfg_allowed (input : bool) (bus slot func coff n v : Z) s : Prop :=
  input = false -> forall d, fi_devi s bus slot func = Some d -> aligned_in coff n -> write_allowed d coff n v s.

Lemma wp_cfgrw input bus slot func coff n v s : bus_ok s -> 0 <= coff -> v in_u 32 -> cfg_allowed input bus slot func coff n v s ->
  wp (pci_cfgrw pe_cfgread pe_cfgwrite input bus slot func coff n v) (fun _ => bus_ok) s.
Proof.
  intros Hok Hc Hv Hall. pose proof Hok as [Hs _]. unfold pci_cfgrw. apply wp_bind, wp_gets.
  destruct (fi_devi s bus slot func) as [d|] eqn:Ed; [|by apply wp_ret].
  pose proof (pk_funcs s Hs _ _ _ _ Ed) as Hd. apply wp_if; intros E1; [by apply wp_ret|].
  apply wp_if; intros E2; [by apply wp_ret|].
  assert (Ha : aligned_in coff n).
  { apply orb_false_iff in E1 as [Ew Em]. apply negb_false_iff in Ew, Em.
    assert (Hw : is_width n) by (unfold is_width; bools; lia). split; [done|].
    split; [|bools; unfold PCI_REGMAX in *; lia]. apply Z.eqb_eq in Em. destruct Hw as [->|[->| ->]].
    - by rewrite Z.mod_1_r.
    - change (2 - 1) with (Z.ones 1) in Em. by rewrite Z.land_ones in Em.
    - change (4 - 1) with (Z.ones 2) in Em. by rewrite Z.land_ones in Em. }
  destruct input.
  - refine (wp_conseq _ _ _ _ (wp_read_access d bus slot coff n v s Hs Hd Ha) _). by intros a s' [-> _].
  - apply wp_bind. refine (wp_conseq _ _ _ _ (wp_write_access d coff n v s Hok Hd Ha Hv (Hall eq_refl d Ed Ha)) _).
    intros [] s' Hres. by apply wp_ret.
Qed.

(** ** Entry points *)

Inductive pci_access : Type :=
| AddrPort (input : bool) (bytes eax : Z)
| DataPort (input : bool) (port bytes eax : Z)
| Window (input : bool) (addr bytes val : Z).

Definition run_access (a : pci_access) : cmd S Z :=
  match a with
  | AddrPort input bytes eax => pci_emul_cfgaddr input bytes eax
  | DataPort input port bytes eax => pci_emul_cfgdata pe_cfgread pe_cfgwrite input port bytes eax
  | Window input addr bytes val => pci_emul_ecfg_handler pe_cfgread pe_cfgwrite input addr bytes val
  end.

(** What instructions can ask for, and the guest's part of keeping its
    registers apart. *)
Definition access_allowed (a : pci_access) s : Prop :=
  match a with
  | AddrPort _ _ eax => eax in_u 32
  | DataPort input port bytes eax =>
      is_width bytes /\ CONF1_DATA_PORT0 <= port < CONF1_DATA_PORT0 + 4 /\ eax in_u 32 /\
      (cfgenable s = true ->
       cfg_allowed input (cfgbus s) (cfgslot s) (cfgfunc s) (cfgoff s + (port - CONF1_DATA_PORT0)) bytes eax s)
  | Window input addr bytes val =>
      val in_u 64 /\
      cfg_allowed input (Z.land (Z.shiftr addr 20) 0xff) (Z.land (Z.shiftr addr 15) 0x1f) (Z.land (Z.shiftr addr 12) 0x7)
        (Z.land addr 0xfff) bytes (u32 (if input then 0xffffffffffffffff else val)) s
  end.

(** The registers a port or window access is for. *)
Lemma land_nonneg x m : 0 <= m -> 0 <= Z.land x m.
Proof. intros Hm. apply Z.land_nonneg. by right. Qed.

Lemma wp_access a s : bus_ok s -> access_allowed a s -> wp (run_access a) (fun _ => bus_ok) s.
Proof.
  intros Hok. pose proof Hok as [Hs Hc]. destruct a as [input bytes eax|input port bytes eax|input addr bytes val]; cbn [run_access access_allowed].
  - intros _. unfold pci_emul_cfgaddr. apply wp_if; intros _; [by apply wp_ret|]. destruct input; [by apply wp_gets|].
    apply wp_bind, wp_update, wp_ret. split; [|done]. destruct Hs as [H1 H2 H3 H4 H5]. split; try done. by apply land_nonneg.
  - intros (Hw & Hp & He & Hall). unfold pci_emul_cfgdata. apply wp_bind, wp_KASSERT; [by destruct Hw as [->|[->| ->]]|].
    apply wp_bind, wp_gets. pose proof (pk_off s Hs). apply wp_if; intros E; [|by apply wp_ret]. unfold id in *.
    apply wp_cfgrw; [done|lia|done|by apply Hall].
  - intros (Hv & Hall). unfold pci_emul_ecfg_handler. apply wp_bind.
    refine (wp_conseq _ _ _ _ (wp_cfgrw input _ _ _ _ bytes _ s Hok _ (u32_in_u _) Hall) _); [by apply land_nonneg|].
    intros a s' Hs'. by apply wp_ret.
Qed.

Inductive pci_step : S -> S -> Prop :=
| ps_access a v s s' : access_allowed a s -> run_access a s = Return (v, s') -> pci_step s s'.

Lemma pci_reachable s0 s : bus_ok s0 -> rtc pci_step s0 s -> bus_ok s.
Proof.
  intros H0. induction 1 as [s|s s1 s2 Hstep _ IH]; [done|]. apply IH. inversion_clear Hstep as [a v ? ? Ha Hrun].
  exact (wp_run _ _ _ _ _ (wp_access a s H0 Ha) Hrun).
Qed.
End Accesses.
End Caps.

(** C3: whatever sequence of configuration space accesses a guest makes,
    through the port pair or the extended window, aligned or not, to any bus,
    slot, function, offset and width, as long as it enables no register that
    overlaps another enabled one or a port or range of the chip set, the
    configuration ports and the extended window among them ([no_overlap]): the
    next access returns without failing an assertion or looping, the port table
    and the memory map hold exactly the ranges of the enabled base address
    registers, each register reads as the address it decodes, the chain of
    capabilities from 0x40 on is intact, and the interrupt router knows of each
    device whether INTx is permitted ([pci_ok]).  The capability pointer at
    0x34 is an ordinary register here, which the guest can overwrite.  A device
    that handles writes itself must keep this too, and has no capabilities. *)
Theorem config_access_safe {R W : Type} `{!Lintr R, !LintrLaws R, !Decoder W, !DecoderLaws W} pe_cfgread pe_cfgwrite
  (s0 s : pci R W) (a : pci_access) : emulation_ok pe_cfgread pe_cfgwrite -> pci_ok s0 -> own_plain pe_cfgwrite s0 ->
  rtc (pci_step pe_cfgread pe_cfgwrite) s0 s -> access_allowed a s ->
  exists v s', run_access pe_cfgread pe_cfgwrite a s = Return (v, s') /\ pci_ok s'.
Proof.
  intros Hem H0 Hc Hr Ha. pose proof (pci_reachable pe_cfgread pe_cfgwrite Hem s0 s (conj H0 Hc) Hr) as Hok.
  destruct (wp_elim _ _ _ (wp_access pe_cfgread pe_cfgwrite Hem a s Hok Ha)) as (v & s' & E & [Hs' _]). by exists v, s'.
Qed.
