(* ===== verification/PciProg.v ===== *)
(** * Programming a PCI device

    What a driver achieves by writing configuration space: sizing and moving a
    64-bit base address register, and setting up message signalled
    interrupts. *)

From S2P Require Import Prelude Effects PciCfg PciCaps PciBar PciSafe.

Local Open Scope cmd_scope.

(** ** Arithmetic of the two halves *)

Lemma align_split k v : 4 <= k <= 63 -> 0 <= v -> align k (v mod 2 ^ 32) + align k (2 ^ 32 * (v / 2 ^ 32)) = align k v \/ 32 < k.
Proof.
  intros Hk Hv. destruct (Z.le_gt_cases k 32) as [Hle|]; [left|lia].
  rewrite (align_id k (2 ^ 32 * _)) by (lia || (rewrite Z.mul_comm; apply (mod0_le k 32); [lia|by apply Z.mod_mul])).
  unfold align. assert (E : 2 ^ 32 = 2 ^ k * 2 ^ (32 - k)) by (rewrite <- Z.pow_add_r by lia; f_equal; lia).
  assert (Hp : 0 < 2 ^ k) by (by apply Z.pow_pos_nonneg; lia).
  pose proof (Z.div_mod v (2 ^ 32) ltac:(lia)) as Ev. set (q := v / 2 ^ 32) in *. set (r := v mod 2 ^ 32) in *.
  assert (Ed : v / 2 ^ k = 2 ^ (32 - k) * q + r / 2 ^ k).
  { rewrite Ev, E. replace (2 ^ k * 2 ^ (32 - k) * q + r) with (r + 2 ^ (32 - k) * q * 2 ^ k) by lia.
    rewrite Z.div_add by lia. lia. }
  rewrite Ed, E. lia.
Qed.

Lemma align_halves k v : 4 <= k <= 63 -> v in_u 64 ->
  align k (v mod 2 ^ 32) + align k (2 ^ 32 * (v / 2 ^ 32)) = align k v.
Proof.
  intros Hk Hv. destruct (align_split k v Hk ltac:(lia)) as [|Hgt]; [done|].
  rewrite (align_big k (v mod 2 ^ 32)) by (lia || by apply mod_in_u). unfold align.
  assert (E : 2 ^ k = 2 ^ 32 * 2 ^ (k - 32)) by (rewrite <- Z.pow_add_r by lia; f_equal; lia).
  assert (Hp : 0 < 2 ^ (k - 32)) by (by apply Z.pow_pos_nonneg; lia).
  rewrite E, Z.div_mul_cancel_l, <- Z.div_div by lia. lia.
Qed.

(** ** The write of a register *)

Section Prog.
Context {R W : Type} `{!Lintr R, !LintrLaws R, !Decoder W, !DecoderLaws W}.
Local Abbreviation S := (pci R W).
Implicit Types s : S.
Context (pe_cfgread : Z -> option (Z -> Z -> Z -> cmd S (bool * Z))) (pe_cfgwrite : Z -> option (Z -> Z -> Z -> cmd S Z)).

(** A device whose emulation leaves its configuration space to this file. *)
Record plain_device (bus slot func d : Z) s : Prop := {
  pd_here : fi_devi s bus slot func = Some d;
  pd_read : pe_cfgread d = None;
  pd_write : pe_cfgwrite d = None;
}.

Lemma guest_write_bar p i v p' : dev_ok p -> is_bar i -> guest_write p (PCIR_BAR i) 4 v p' -> p' = bar_written p i v.
Proof.
  intros Hp Hi Hg. unfold is_bar, PCI_BARMAX in Hi.
  inversion Hg as [| j Hj E | y Hc Hy | Hc | Hb]; subst; unfold PCIR_BAR, PCIR_COMMAND, PCIR_REVID, PCI_BARMAX in *; try lia.
  - f_equal. lia.
  - unfold pci_emul_iscap, CAP_START_OFFSET in Hc. bools. lia.
Qed.

Lemma not_refused coff n : aligned_in coff n ->
  negb ((n =? 1) || (n =? 2) || (n =? 4)) || negb (Z.land coff (n - 1) =? 0) = false /\ (PCI_REGMAX + 1 <=? coff) = false.
Proof.
  intros Ha. destruct (width_range n coff Ha) as (Hin & _ & _). unfold cfg_in_range in Hin.
  apply andb_true_iff in Hin as [_ ->]. destruct Ha as ([->|[->| ->]] & _ & Hc); split; done || (apply Z.leb_gt; lia).
Qed.

Lemma wp_plain_cfg_write bus slot func d coff n v (Q : Z -> S -> Prop) s : pci_ok s -> plain_device bus slot func d s ->
  aligned_in coff n -> v in_u 32 -> write_allowed d coff n v s ->
  (forall s' p', pci_ok s' -> plain_device bus slot func d s' -> guest_write (get_pdev d s) coff n v p' ->
     pdevs s' = <[Z.to_nat d := p']> (pdevs s) -> get_pdev d s' = p' -> Q v s') ->
  wp (pci_cfgrw pe_cfgread pe_cfgwrite false bus slot func coff n v) Q s.
Proof.
  intros Hs [Hf Hr Hw] Ha Hv Hall HQ. pose proof (pk_funcs s Hs _ _ _ _ Hf) as Hd.
  destruct (width_range n coff Ha) as (Hin & Hwd & _). destruct (not_refused coff n Ha) as [E1 E2]. unfold pci_cfgrw. apply wp_bind, wp_gets. rewrite Hf.
  rewrite E1, E2.
  unfold cfg_write_access. rewrite Hw. apply wp_bind.
  refine (wp_conseq _ _ _ _ (wp_default_write d coff n v s Hs Hd Ha Hv Hall) _).
  intros [] s' (Hs' & Hfi & p' & Hg & Hpd). apply wp_ret. apply (HQ s' p'); try done.
  - split; try done. by rewrite Hfi.
  - unfold get_pdev. rewrite Hpd, list_lookup_insert_eq by (unfold ndevs in Hd; lia). done.
Qed.

Lemma wp_plain_cfg_read bus slot func d coff n v (Q : Z -> S -> Prop) s : pci_ok s -> plain_device bus slot func d s ->
  aligned_in coff n -> Q (read_value d bus slot coff n s) s ->
  wp (pci_cfgrw pe_cfgread pe_cfgwrite true bus slot func coff n v) Q s.
Proof.
  intros Hs [Hf Hr Hw] Ha HQ. pose proof (pk_funcs s Hs _ _ _ _ Hf) as Hd.
  destruct (width_range n coff Ha) as (Hin & Hwd & _). destruct (not_refused coff n Ha) as [E1 E2]. unfold pci_cfgrw. apply wp_bind, wp_gets. rewrite Hf.
  rewrite E1, E2.
  unfold cfg_read_access, CFGREAD. rewrite Hr, Hwd. apply wp_bind, wp_ret, wp_bind, wp_get_cfg; [done|]. by apply wp_gets.
Qed.

(** ** A 64-bit register *)

Lemma memen_cmd p : memen p = tst (cmd_of p) PCIM_CMD_MEMEN.
Proof. done. Qed.

Lemma bar_quiet d p i v j : dev_ok p -> is_bar i -> memen p = false ->
  bar_type (bar_at p i) = PCIBAR_MEM64 \/ bar_type (bar_at p i) = PCIBAR_MEMHI64 ->
  dev_active d (bar_written p i v) j = dev_active d p j.
Proof.
  intros Hp Hi Hm Ht. rewrite bar_written_active by done. pose proof (dv_length p Hp) as Hl.
  assert (Hset : forall c a, is_bar c -> bar_type (bar_at p c) = PCIBAR_MEM64 -> dev_active d (set_addr p c a) j = dev_active d p j).
  { intros c a Hc Htc. rewrite dev_active_set by done. assert (Hdc : decodes p c = false) by (unfold decodes; by rewrite Htc).
    rewrite Hdc. destruct (Z.eqb_spec j c) as [->|]; [|done]. symmetry. by apply dev_active_none. }
  unfold program. destruct Ht as [Ht|Ht]; rewrite Ht; cbn [fst]; apply Hset; try done.
  - pose proof (dv_bars p Hp i Hi) as Hb. unfold bar_ok in Hb. rewrite Ht in Hb. unfold is_bar in *. lia.
  - pose proof (dv_bars p Hp i Hi) as Hb. unfold bar_ok in Hb. rewrite Ht in Hb. apply Hb.
Qed.

Lemma quiet_allowed d i v s : pci_ok s -> 0 <= d < ndevs s -> is_bar i -> memen (get_pdev d s) = false -> no_overlap (pdevs s) ->
  bar_type (bar_at (get_pdev d s) i) = PCIBAR_MEM64 \/ bar_type (bar_at (get_pdev d s) i) = PCIBAR_MEMHI64 ->
  write_allowed d (PCIR_BAR i) 4 v s /\
  no_overlap (<[Z.to_nat d := bar_written (get_pdev d s) i v]> (pdevs s)).
Proof.
  intros Hs Hd Hi Hm Hno Ht. pose proof (get_pdev_ok d s Hs Hd) as Hp.
  assert (H : no_overlap (<[Z.to_nat d := bar_written (get_pdev d s) i v]> (pdevs s))).
  { refine (no_overlap_ext _ _ _ Hno). intros d' j. rewrite active_step by done. destruct (Z.eqb_spec d' d) as [->|]; [|done].
    rewrite active_at by done. symmetry. by apply bar_quiet. }
  split; [|done]. intros p' Hg. by rewrite (guest_write_bar _ i v p' Hp Hi Hg).
Qed.

(** The driver writes both halves and reads them back. *)
Definition program64 (bus slot func i v : Z) : cmd S (Z * Z) :=
  pci_cfgrw pe_cfgread pe_cfgwrite false bus slot func (PCIR_BAR i) 4 (v mod 2 ^ 32) ;;;
  pci_cfgrw pe_cfgread pe_cfgwrite false bus slot func (PCIR_BAR (i + 1)) 4 (v / 2 ^ 32) ;;;
  lo <- pci_cfgrw pe_cfgread pe_cfgwrite true bus slot func (PCIR_BAR i) 4 0 ;;
  hi <- pci_cfgrw pe_cfgread pe_cfgwrite true bus slot func (PCIR_BAR (i + 1)) 4 0 ;;
  ret (lo, hi).

Lemma bar_aligned i : is_bar i -> aligned_in (PCIR_BAR i) 4.
Proof.
  unfold is_bar, PCI_BARMAX, PCIR_BAR. intros Hi. split; [unfold is_width; lia|]. unfold PCI_REGMAX.
  split; [Z.div_mod_to_equations|]; lia.
Qed.

Lemma read_bar d bus slot i s : is_bar i -> read_value d bus slot (PCIR_BAR i) 4 s = bar_reg (get_pdev d s) i.
Proof.
  unfold is_bar, PCI_BARMAX. intros Hi. unfold read_value, pci_emul_hdrtype_fixup, PCIR_HDRTYPE.
  rewrite (proj2 (Z.leb_gt _ _)) by (unfold PCIR_BAR; lia). done.
Qed.

Lemma written_low p i v k : dev_ok p -> is_bar i -> v in_u 32 -> bar_type (bar_at p i) = PCIBAR_MEM64 ->
  bar_size (bar_at p i) = 2 ^ k -> 4 <= k <= 63 ->
  let p1 := bar_written p i v in
  bar_at p1 i = bar_at p i <| bar_addr := set_low (align k v) (bar_addr (bar_at p i)) |> /\
  bar_type (bar_at p1 (i + 1)) = PCIBAR_MEMHI64 /\ bar_reg p1 i = align k v + 12.
Proof.
  intros Hp Hi Hv Ht Hk Hkr. assert (Hl := dv_length p Hp). pose proof (dv_bars p Hp i Hi) as Hb. unfold bar_ok in Hb. rewrite Ht in Hb.
  destruct Hb as (k' & f & Hk' & Hkr' & _ & _ & Hlt & Hhi & _).
  destruct (mem64_written p i v Hp Hi Hv Ht) as (_ & H12 & _). rewrite Hk, Z.log2_pow2 in H12 by lia.
  cbv zeta. unfold bar_written, program. rewrite Ht, Hk, Z.log2_pow2 by lia. cbn [fst snd]. unfold is_bar in Hi.
  rewrite bar_reg_written, Z.eqb_refl, (Z.mod_small (align k v + 12)) by done.
  change (bar_at (_ <| pi_cfgdata ::= _ |>) ?j) with (bar_at (set_addr p i (set_low (align k v) (bar_addr (bar_at p i)))) j).
  rewrite bar_type_set, bar_at_set, Z.eqb_refl by (done || lia). done.
Qed.

Lemma written_high p i v k : dev_ok p -> is_bar i -> v in_u 32 -> bar_type (bar_at p (i + 1)) = PCIBAR_MEMHI64 ->
  i < PCI_BARMAX -> bar_size (bar_at p i) = 2 ^ k -> 4 <= k <= 63 ->
  let p1 := bar_written p (i + 1) v in
  bar_addr (bar_at p1 i) = set_high (align k (2 ^ 32 * v)) (bar_addr (bar_at p i)) /\
  bar_reg p1 (i + 1) = align k (2 ^ 32 * v) / 2 ^ 32 /\ bar_reg p1 i = bar_reg p i.
Proof.
  intros Hp Hi Hv Ht Hlt Hk Hkr. assert (Hl := dv_length p Hp). assert (Hi1 : is_bar (i + 1)) by (unfold is_bar in *; lia).
  destruct (memhi_written p (i + 1) v Hp Hi1 Hv Ht) as (_ & Hx & _). replace (i + 1 - 1) with i in Hx by lia.
  rewrite Hk, Z.log2_pow2 in Hx by lia.
  cbv zeta. unfold bar_written, program. rewrite Ht. replace (i + 1 - 1) with i by lia. rewrite Hk, Z.log2_pow2 by lia. cbn [fst snd].
  rewrite !bar_reg_written, Z.eqb_refl, (proj2 (Z.eqb_neq i (i + 1))), (Z.mod_small (align _ _ / _)) by (done || lia).
  split; [|done]. change (bar_at (_ <| pi_cfgdata ::= _ |>) i) with (bar_at (set_addr p i (set_high (align k (2 ^ 32 * v)) (bar_addr (bar_at p i)))) i).
  unfold is_bar in Hi. rewrite bar_at_set, Z.eqb_refl by (done || lia). done.
Qed.

Lemma wp_quiet_bar bus slot func d i v (Q : Z -> S -> Prop) s : pci_ok s -> plain_device bus slot func d s -> is_bar i ->
  bar_type (bar_at (get_pdev d s) i) = PCIBAR_MEM64 \/ bar_type (bar_at (get_pdev d s) i) = PCIBAR_MEMHI64 ->
  memen (get_pdev d s) = false -> no_overlap (pdevs s) -> v in_u 32 ->
  (forall s', pci_ok s' -> plain_device bus slot func d s' -> get_pdev d s' = bar_written (get_pdev d s) i v ->
     memen (get_pdev d s') = false -> no_overlap (pdevs s') ->
     (forall d' j, active (pdevs s') d' j = active (pdevs s) d' j) -> Q v s') ->
  wp (pci_cfgrw pe_cfgread pe_cfgwrite false bus slot func (PCIR_BAR i) 4 v) Q s.
Proof.
  intros Hs Hpd Hi Ht Hm Hno Hv HQ. pose proof (pk_funcs s Hs _ _ _ _ (pd_here _ _ _ _ _ Hpd)) as Hd.
  pose proof (get_pdev_ok d s Hs Hd) as Hp. destruct (quiet_allowed d i v s Hs Hd Hi Hm Hno Ht) as [Hal Hno1].
  apply (wp_plain_cfg_write bus slot func d); [done|done|by apply bar_aligned|done|done|].
  intros s' p' Hs' Hpd' Hg Epd Eg. apply guest_write_bar in Hg; [|done|done]. subst p'.
  apply HQ; try done; rewrite ?Eg, ?Epd; try done.
  - by rewrite memen_cmd, cmd_bar_written.
  - intros d' j. rewrite active_step by done. destruct (Z.eqb_spec d' d) as [->|]; [|done].
    rewrite active_at by done. by apply bar_quiet.
Qed.

Lemma halves_value k v old : 4 <= k <= 63 -> v in_u 64 ->
  let a := align k (v mod 2 ^ 32) in let b := align k (2 ^ 32 * (v / 2 ^ 32)) in
  a = align k v mod 2 ^ 32 /\ b / 2 ^ 32 = align k v / 2 ^ 32 /\ set_high b (set_low a old) = align k v.
Proof.
  intros Hk Hv a b. assert (Ha : a in_u 32).
  { pose proof (mod_in_u 32 v ltac:(lia)). pose proof (align_range k (v mod 2 ^ 32) ltac:(lia) ltac:(lia)). unfold a. lia. }
  pose proof (align_high k (v / 2 ^ 32) ltac:(lia)) as Hb. fold b in Hb.
  pose proof (align_halves k v Hk Hv) as E. fold a b in E. rewrite <- E. unfold set_high, set_low.
  change (2 ^ 32) with 4294967296 in *. clearbody a b. clear E Hv. Z.div_mod_to_equations. lia.
Qed.

Lemma wp_program64 bus slot func d i v k s : pci_ok s -> plain_device bus slot func d s -> is_bar i ->
  bar_type (bar_at (get_pdev d s) i) = PCIBAR_MEM64 -> bar_size (bar_at (get_pdev d s) i) = 2 ^ k -> 0 <= k ->
  memen (get_pdev d s) = false -> no_overlap (pdevs s) -> v in_u 64 ->
  wp (program64 bus slot func i v) (fun r s' =>
    r = (align k v mod 2 ^ 32 + 12, align k v / 2 ^ 32) /\ bar_addr (bar_at (get_pdev d s') i) = align k v /\
    pci_ok s' /\ forall d' j, active (pdevs s') d' j = active (pdevs s) d' j) s.
Proof.
  intros Hs Hpd Hi Ht Hk Hk0 Hm Hno Hv. pose proof (pk_funcs s Hs _ _ _ _ (pd_here _ _ _ _ _ Hpd)) as Hd.
  pose proof (get_pdev_ok d s Hs Hd) as Hp. pose proof (dv_bars _ Hp i Hi) as Hb. unfold bar_ok in Hb. rewrite Ht in Hb.
  destruct Hb as (k' & f & Hk' & Hkr & _ & _ & Hlt & _). rewrite Hk in Hk'. apply Z.pow_inj_r in Hk' as <-; [|lia|done|lia].
  assert (Hlo : v mod 2 ^ 32 in_u 32) by (by apply mod_in_u).
  assert (Hhi : v / 2 ^ 32 in_u 32) by (change (2 ^ 64) with 18446744073709551616 in Hv; change (2 ^ 32) with 4294967296; Z.div_mod_to_equations; lia).
  assert (Hi1 : is_bar (i + 1)) by (unfold is_bar in *; lia).
  destruct (written_low _ i (v mod 2 ^ 32) k Hp Hi Hlo Ht Hk Hkr) as (E1 & E2 & E3).
  apply wp_bind, (wp_quiet_bar bus slot func d); try done; [by left|]. intros s1 Hs1 Hpd1 Eg1 Hm1 Hno1 Ha1. rewrite <- Eg1 in E1, E2, E3.
  pose proof (pk_funcs s1 Hs1 _ _ _ _ (pd_here _ _ _ _ _ Hpd1)) as Hd1. pose proof (get_pdev_ok d s1 Hs1 Hd1) as Hp1.
  assert (Hk1 : bar_size (bar_at (get_pdev d s1) i) = 2 ^ k) by (by rewrite E1).
  destruct (written_high _ i (v / 2 ^ 32) k Hp1 Hi Hhi E2 Hlt Hk1 Hkr) as (F1 & F2 & F3).
  apply wp_bind, (wp_quiet_bar bus slot func d); try done; [by right|]. intros s2 Hs2 Hpd2 Eg2 _ _ Ha2. rewrite <- Eg2 in F1, F2, F3.
  apply wp_bind, (wp_plain_cfg_read bus slot func d); [done|done|by apply bar_aligned|].
  apply wp_bind, (wp_plain_cfg_read bus slot func d); [done|done|by apply bar_aligned|]. apply wp_ret.
  destruct (halves_value k v (bar_addr (bar_at (get_pdev d s) i)) Hkr Hv) as (G1 & G2 & G3).
  rewrite !read_bar, F3, E3, F2, F1, E1 by done. cbn [bar_addr].
  split; [by rewrite G2, <- G1|]. split; [exact G3|]. split; [done|]. intros d' j. by rewrite Ha2.
Qed.

(** ** Message signalled interrupts *)

Lemma guest_write_cap p y coff n v p' : dev_ok p -> pci_emul_iscap p coff = true -> in_cap p y coff ->
  guest_write p coff n v p' -> p' = cap_written p y coff n v.
Proof.
  intros Hp Hc Hy Hg. assert (Ho : 0x40 <= coff) by (unfold pci_emul_iscap, CAP_START_OFFSET in Hc; bools; lia).
  destruct Hg as [H | j Hj E | y' _ Hy' | H | Hb Hm H]; unfold is_bar, PCIR_BAR, PCIR_COMMAND, PCIR_REVID, PCI_BARMAX in *; try lia.
  - by rewrite (in_cap_unique p y y' coff).
  - congruence.
Qed.

Lemma in_cap_move p y o o' : in_cap p y o -> c_off y <= o' < c_off y + c_len y -> in_cap p y o'.
Proof. intros (x & xs & Hx & Hch & Hy & _) Ho. by exists x, xs. Qed.

Lemma in_cap_iscap p y o : has_caps p = true -> in_cap p y o -> pci_emul_iscap p o = true.
Proof.
  intros Hh (x & xs & Hx & Hch & Hy & Ho). pose proof (chain_member _ _ _ _ _ Hch Hy) as (H1 & H2 & _). rewrite Hx in H1.
  unfold pci_emul_iscap. change (tst _ PCIM_STATUS_CAPPRESENT) with (has_caps p). rewrite Hh. cbn [andb].
  apply andb_true_iff. split; apply Z.leb_le; lia.
Qed.

Lemma same_has_caps p p' y o n v : dev_ok p -> has_caps p = true -> in_cap p y o -> pi_capend p <= PCI_REGMAX -> aligned_in o n ->
  p' = cap_written p y o n v -> has_caps p' = true /\ pi_capend p' = pi_capend p.
Proof.
  intros Hp Hh Hy He Ha ->. pose proof (in_cap_facts p y o Hy He) as (H1 & H2 & H3 & H4 & _). unfold CAP_START_OFFSET in H1.
  pose proof Hy as (_ & _ & _ & _ & _ & Hin).
  assert (Hput : forall q m off w, pi_cfgdata q = pi_cfgdata p -> 8 <= off -> has_caps (put_cfg m off w q) = has_caps p).
  { intros q m off w Eq Hoff. unfold has_caps, put_cfg, upd. cbn. rewrite Eq. f_equal. apply cfg_read_ext. unfold PCIR_STATUS.
    intros j Hj. apply write_outside. lia. }
  unfold cap_written, body_written, msi_written, msix_written.
  repeat match goal with |- context [if ?b then _ else _] => destruct b; cbv zeta end; split; try done; rewrite Hput; done || lia.
Qed.

Lemma wp_cap_write bus slot func d y off n v (Q : Z -> S -> Prop) s (p := get_pdev d s) : pci_ok s -> plain_device bus slot func d s ->
  has_caps p = true -> in_cap p y off -> aligned_in off n -> v in_u 32 -> no_overlap (pdevs s) ->
  (forall s', pci_ok s' -> plain_device bus slot func d s' -> get_pdev d s' = cap_written p y off n v ->
     has_caps (get_pdev d s') = true -> in_cap (get_pdev d s') y off -> no_overlap (pdevs s') -> Q v s') ->
  wp (pci_cfgrw pe_cfgread pe_cfgwrite false bus slot func off n v) Q s.
Proof.
  intros Hs Hpd Hh Hy Ha Hv Hno HQ. pose proof (pk_funcs s Hs _ _ _ _ (pd_here _ _ _ _ _ Hpd)) as Hd.
  assert (Hp : dev_ok p) by (by apply get_pdev_ok). destruct (dv_caps p Hp Hh) as (_ & _ & _ & _ & He).
  destruct (cap_written_ok p y off n v Hp Hh Hy He Ha) as (Hok & [Hb Hc] & Hy').
  assert (Hno' : no_overlap (<[Z.to_nat d := cap_written p y off n v]> (pdevs s))).
  { refine (no_overlap_ext _ _ _ Hno). intros d' j. rewrite active_step by done. destruct (Z.eqb_spec d' d) as [->|]; [|done].
    rewrite active_at by done. symmetry. by apply dev_active_ext. }
  pose proof (in_cap_iscap p y off Hh Hy) as Hisc.
  apply (wp_plain_cfg_write bus slot func d); try done.
  { intros p' Hg. by rewrite (guest_write_cap p y off n v p' Hp Hisc Hy Hg). }
  intros s' p' Hs' Hpd' Hg Epd Eg. apply (guest_write_cap _ y) in Hg; [|done|done|done]. subst p'.
  apply HQ; try done; rewrite ?Eg, ?Epd; try done.
  exact (proj1 (same_has_caps p _ y off n v Hp Hh Hy He Ha eq_refl)).
Qed.

(** The driver's set-up: address, data, then the control word. *)
Definition setup_msi (bus slot func off addr data ctrl : Z) : cmd S unit :=
  pci_cfgrw pe_cfgread pe_cfgwrite false bus slot func (off + 4) 4 addr ;;;
  pci_cfgrw pe_cfgread pe_cfgwrite false bus slot func (off + 12) 2 data ;;;
  pci_cfgrw pe_cfgread pe_cfgwrite false bus slot func (off + 2) 2 ctrl ;;; skip.

Lemma msi_ctrl_fields p offset v : tst (cfg_read 2 offset (pi_cfgdata p)) PCIM_MSICTRL_64BIT = true ->
  tst v PCIM_MSICTRL_MSI_ENABLE = true -> 0 <= v ->
  let c := msi_ctrl p offset v in
  tst c PCIM_MSICTRL_MSI_ENABLE = true /\ tst c PCIM_MSICTRL_64BIT = true /\
  Z.shiftr (Z.land c PCIM_MSICTRL_MME_MASK) 4 = (v / 16) mod 8.
Proof.
  change PCIM_MSICTRL_64BIT with (bit 7). change PCIM_MSICTRL_MSI_ENABLE with (bit 0). rewrite !tst_bit by lia. intros H7 H0 Hv c.
  assert (Hbit : forall i, 0 <= i -> Z.testbit c i = if Z.testbit 0x71 i then Z.testbit v i else Z.testbit (cfg_read 2 offset (pi_cfgdata p)) i).
  { intros i Hi. unfold c, msi_ctrl. change (Z.lor PCIM_MSICTRL_MME_MASK PCIM_MSICTRL_MSI_ENABLE) with 0x71.
    rewrite Z.lor_spec, clr_testbit, Z.land_spec by done.
    destruct (Z.testbit 0x71 i); rewrite ?andb_true_r, ?andb_false_r, ?orb_false_r; done. }
  rewrite !tst_bit, !Hbit by lia. split; [done|]. split; [done|].
  change 8 with (2 ^ 3). change 16 with (2 ^ 4). apply Z.bits_inj'. intros i Hi.
  rewrite Z.shiftr_spec, Z.land_spec, Hbit by lia. destruct (Z.lt_ge_cases i 3).
  - rewrite Z.mod_pow2_bits_low, Z.div_pow2_bits by lia. assert (E : i = 0 \/ i = 1 \/ i = 2) by lia.
    destruct E as [->|[->| ->]]; cbn; by rewrite andb_true_r.
  - rewrite Z.mod_pow2_bits_high by lia. change PCIM_MSICTRL_MME_MASK with (Z.shiftl (Z.ones 3) 4).
    rewrite Z.shiftl_spec, Z.ones_spec_high, andb_false_r by lia. done.
Qed.

(** A write behind the header of an MSI capability. *)
Lemma msi_cap_written p y k n v : c_id y = PCIY_MSI -> 2 <= k ->
  cap_written p y (c_off y + k) n v = msi_written p (c_off y) (c_off y + k) n v.
Proof.
  intros Hid Hk. unfold cap_written, body_written. rewrite Hid.
  rewrite (proj2 (Z.eqb_neq (c_off y + k) (c_off y))), (proj2 (Z.eqb_neq (c_off y + k) (c_off y + 1))) by lia. done.
Qed.

Lemma msi_body_written p off k n v : k <> 2 -> msi_written p off (off + k) n v = put_cfg n (off + k) v p.
Proof. intros Hk. unfold msi_written. by rewrite (proj2 (Z.eqb_neq (off + k - off) 2)) by lia. Qed.

(** The message of vector [index] once the capability at [off] is set up. *)
Definition msi_message (addr data ctrl index : Z) : option (Z * Z) :=
  if index <? 2 ^ ((ctrl / 16) mod 8) then Some (addr, data + index) else None.

Lemma msi_state p off addr data ctrl : addr in_u 32 -> data in_u 16 -> 0 <= ctrl ->
  tst (cfg_read 2 (off + 2) (pi_cfgdata p)) PCIM_MSICTRL_64BIT = true -> tst ctrl PCIM_MSICTRL_MSI_ENABLE = true ->
  pi_msi (msi_written (put_cfg 2 (off + 12) data (put_cfg 4 (off + 4) addr p)) off (off + 2) 2 ctrl) =
  mk_msi true addr data (2 ^ ((ctrl / 16) mod 8)).
Proof.
  intros Ha Hd Hc H64 Hen. unfold msi_written. rewrite (proj2 (Z.eqb_eq (off + 2 - off) 2)) by lia. change (true && (2 =? 2)) with true. cbv iota zeta.
  set (p2 := put_cfg 2 (off + 12) data (put_cfg 4 (off + 4) addr p)).
  assert (Hold : cfg_read 2 (off + 2) (pi_cfgdata p2) = cfg_read 2 (off + 2) (pi_cfgdata p)).
  { unfold p2, put_cfg, upd. cbn. apply cfg_read_ext. intros j Hj. rewrite !write_outside by lia. done. }
  rewrite <- Hold in H64. destruct (msi_ctrl_fields p2 (off + 2) ctrl H64 Hen Hc) as (F1 & F2 & F3).
  cbv zeta. unfold put_cfg at 1, upd at 1 2. cbn [pi_msi]. unfold msi_programmed. rewrite F1, F2, F3. f_equal.
  - unfold p2, put_cfg, upd. cbn [pi_cfgdata]. rewrite (cfg_read_ext 4 _ _ (cfg_write 4 (off + 4) addr (pi_cfgdata p))).
    + rewrite read_write by lia. by apply Z.mod_small.
    + intros j Hj. apply write_outside. lia.
  - unfold p2, put_cfg, upd. cbn [pi_cfgdata]. rewrite read_write by lia. by apply Z.mod_small.
  - by rewrite Z.shiftl_1_l.
Qed.

Lemma wp_setup_msi bus slot func d y addr data ctrl s (p := get_pdev d s) : pci_ok s -> plain_device bus slot func d s ->
  has_caps p = true -> in_cap p y (c_off y) -> c_id y = PCIY_MSI -> no_overlap (pdevs s) ->
  tst (cfg_read 2 (c_off y + 2) (pi_cfgdata p)) PCIM_MSICTRL_64BIT = true ->
  addr in_u 32 -> data in_u 16 -> ctrl in_u 16 -> tst ctrl PCIM_MSICTRL_MSI_ENABLE = true ->
  wp (setup_msi bus slot func (c_off y) addr data ctrl)
     (fun _ s' => pci_ok s' /\ pi_msi (get_pdev d s') = mk_msi true addr data (2 ^ ((ctrl / 16) mod 8))) s.
Proof.
  intros Hs Hpd Hh Hy Hid Hno H64 Ha Hda Hc Hen. pose proof (pk_funcs s Hs _ _ _ _ (pd_here _ _ _ _ _ Hpd)) as Hd.
  assert (Hp : dev_ok p) by (by apply get_pdev_ok). destruct (dv_caps p Hp Hh) as (_ & _ & _ & _ & He).
  destruct (in_cap_facts p y _ Hy He) as (H1 & H2 & _ & _ & [Hfit _] & _ & H7). specialize (Hfit Hid).
  unfold CAP_START_OFFSET, PCI_REGMAX in *.
  assert (Hal : forall k n, is_width n -> 0 <= k < 16 -> k mod n = 0 -> aligned_in (c_off y + k) n).
  { intros k n Hn Hk Hkn. split; [done|]. split; [|unfold PCI_REGMAX; lia]. destruct Hn as [->|[->| ->]]; Z.div_mod_to_equations; lia. }
  assert (A4 : aligned_in (c_off y + 4) 4) by (apply Hal; unfold is_width; lia || done).
  assert (A12 : aligned_in (c_off y + 12) 2) by (apply Hal; unfold is_width; lia || done).
  assert (A2 : aligned_in (c_off y + 2) 2) by (apply Hal; unfold is_width; lia || done).
  apply wp_bind, (wp_cap_write bus slot func d y); try done; [apply (in_cap_move p y (c_off y)); [done|lia]|].
  intros s1 Hs1 Hpd1 E1 Hh1 Hy1 Hno1.
  apply wp_bind, (wp_cap_write bus slot func d y); try done; [apply (in_cap_move _ y _ _ Hy1); lia|lia|].
  intros s2 Hs2 Hpd2 E2 Hh2 Hy2 Hno2.
  apply wp_bind, (wp_cap_write bus slot func d y); try done; [apply (in_cap_move _ y _ _ Hy2); lia|lia|].
  intros s3 Hs3 Hpd3 E3 Hh3 Hy3 Hno3. apply wp_skip. split; [done|].
  rewrite E3, E2, E1, !msi_cap_written, (msi_body_written _ _ 12), (msi_body_written _ _ 4) by (done || lia).
  apply msi_state; done || lia.
Qed.
End Prog.

(** C12: a driver that sizes or moves a 64-bit base address register with memory
    decoding switched off, by writing any 64-bit value in two halves, reads
    back this value rounded down to the size of the register with the type
    bits (so all ones give the size), the register decodes exactly that
    address from then on, and nothing else is decoded differently. *)
Theorem bar64_roundtrip {R W : Type} `{!Lintr R, !LintrLaws R, !Decoder W, !DecoderLaws W} pe_cfgread pe_cfgwrite
  (s : pci R W) bus slot func d i k v : pci_ok s -> plain_device pe_cfgread pe_cfgwrite bus slot func d s -> is_bar i ->
  bar_type (bar_at (get_pdev d s) i) = PCIBAR_MEM64 -> bar_size (bar_at (get_pdev d s) i) = 2 ^ k -> 0 <= k ->
  memen (get_pdev d s) = false -> no_overlap (pdevs s) -> v in_u 64 ->
  exists r s', program64 pe_cfgread pe_cfgwrite bus slot func i v s = Return (r, s') /\
    r = (align k v mod 2 ^ 32 + 12, align k v / 2 ^ 32) /\ bar_addr (bar_at (get_pdev d s') i) = align k v /\
    pci_ok s' /\ forall d' j, active (pdevs s') d' j = active (pdevs s) d' j.
Proof. intros. apply wp_elim. by apply wp_program64. Qed.

(** C25: a driver that writes the message address, the message data and an
    enabling control word to the MSI capability of a device, in this order,
    gets from then on, for each vector the device signals, the message it
    programmed with the vector number added to the data, for as many vectors
    as the control word enables and for no others. *)
Theorem msi_delivered {R W : Type} `{!Lintr R, !LintrLaws R, !Decoder W, !DecoderLaws W} pe_cfgread pe_cfgwrite
  (s : pci R W) bus slot func d y addr data ctrl : pci_ok s -> plain_device pe_cfgread pe_cfgwrite bus slot func d s ->
  has_caps (get_pdev d s) = true -> in_cap (get_pdev d s) y (c_off y) -> c_id y = PCIY_MSI -> no_overlap (pdevs s) ->
  tst (cfg_read 2 (c_off y + 2) (pi_cfgdata (get_pdev d s))) PCIM_MSICTRL_64BIT = true ->
  addr in_u 32 -> data in_u 16 -> ctrl in_u 16 -> tst ctrl PCIM_MSICTRL_MSI_ENABLE = true ->
  exists s', setup_msi pe_cfgread pe_cfgwrite bus slot func (c_off y) addr data ctrl s = Return (tt, s') /\ pci_ok s' /\
    forall index, 0 <= index -> pci_generate_msi d index s' = Return (msi_message addr data ctrl index, s').
Proof.
  intros Hs Hpd Hh Hy Hid Hno H64 Ha Hda Hc Hen.
  destruct (wp_elim _ _ _ (wp_setup_msi pe_cfgread pe_cfgwrite bus slot func d y addr data ctrl s Hs Hpd Hh Hy Hid Hno H64 Ha Hda Hc Hen))
    as ([] & s' & Hrun & Hs' & Hm). exists s'. split; [done|]. split; [done|]. intros index Hi.
  unfold pci_generate_msi, gets, bind, pci_msi_enabled, pci_msi_maxmsgnum, msi_message. rewrite Hm. cbn [msi_enabled msi_maxmsgnum msi_addr msi_msg_data andb].
  unfold ret. do 3 f_equal. destruct (Z.ltb_spec index (2 ^ ((ctrl / 16) mod 8))) as [Hlt|]; [|done].
  rewrite u64_id; [done|]. pose proof (mod_in_u 3 (ctrl / 16) ltac:(lia)) as H8. change (2 ^ 3) with 8 in H8.
  assert (2 ^ ((ctrl / 16) mod 8) <= 2 ^ 7) by (apply Z.pow_le_mono_r; lia). lia.
Qed.
