(* ===== verification/PciSetup.v ===== *)
(** * Setting up PCI devices

    The initialisation of a device adds capabilities and allocates base address
    registers.  Both keep the invariant of [PciBar]: a capability is linked
    behind the last one and found by the search, and the allocator hands out
    aligned ranges that are apart from all others. *)

From S2P Require Import Prelude Effects PciCfg PciCaps PciBar PciSafe.

Local Open Scope cmd_scope.

(** ** Appending to the chain *)

Lemma last_default {A} (l : list A) : forall a d d', List.last (a :: l) d = List.last (a :: l) d'.
Proof. induction l as [|b l IH]; intros a d d'; [done|]. exact (IH b d d'). Qed.

Lemma chain_snoc c c' e y xs : forall x, chain c x xs e ->
  (forall j, c_off x <= j < e -> j <> c_off (List.last (x :: xs) x) + 1 -> c' j = c j) ->
  c' (c_off (List.last (x :: xs) x) + 1) = e -> c_off y = e -> chain c' y [] (e + c_len y) -> 0 < e ->
  chain c' x (xs ++ [y]) (e + c_len y).
Proof.
  induction xs as [|z xs IH]; intros x Hx Hsame Hlink Hy Hchy He.
  - cbn [List.last] in *. destruct Hx as (H1 & H2 & H3 & H4 & H5 & H6 & H7). cbn [app chain].
    rewrite Hsame by lia. rewrite Hlink. split; [done|]. do 4 (split; [done|]). split; [by rewrite Hy|]. split; [lia|]. exact Hchy.
  - destruct Hx as (H1 & H2 & H3 & H4 & H5 & H6 & H7 & H8). pose proof (chain_bounds _ _ _ _ H8) as Hb. cbn [length] in Hb.
    assert (El : List.last (x :: z :: xs) x = List.last (z :: xs) z) by (apply (last_default xs z x z)).
    rewrite El in *. assert (Hlz : c_off z <= c_off (List.last (z :: xs) z)).
    { apply (chain_member c e xs z _ H8). apply list_elem_of_In. destruct (exists_last (l := z :: xs)) as (l & a & E); [done|].
      rewrite E, last_last. apply in_or_app. right. by left. }
    cbn [app chain]. rewrite !Hsame by lia. split; [done|]. do 4 (split; [done|]). split; [done|]. split; [done|].
    apply IH; try done. intros j Hj Hne. apply Hsame; [lia|done].
Qed.

(** ** Adding a capability *)

Definition last_cap (p : devinst) (x : cap) (xs : list cap) : Prop :=
  c_off x = CAP_START_OFFSET /\ chain (pi_cfgdata p) x xs (pi_capend p + 1) /\ pi_capend p <= PCI_REGMAX /\
  pi_prevcap p = c_off (List.last (x :: xs) x).

(** The capabilities of a device during its initialisation. *)
Inductive cap_list (p : devinst) : list cap -> Prop :=
| cl_none : has_caps p = false -> cap_list p []
| cl_some x xs : has_caps p = true -> last_cap p x xs -> cap_list p (x :: xs).

Definition caps_end (p : devinst) (l : list cap) : Z := match l with [] => CAP_START_OFFSET | _ => pi_capend p + 1 end.

(** The reference: header link of the last capability, bytes, end of list. *)
Definition cap_bytes (off : Z) (capdata : list Z) (c : Z -> Z) : Z -> Z := fun j =>
  if (off <=? j) && (j <? off + Z.of_nat (length capdata)) then nth (Z.to_nat (j - off)) capdata 0 else c j.

Lemma cap_bytes_cons off b l c j : cap_bytes off (b :: l) c j = cap_bytes (off + 1) l (fun j => if j =? off then b else c j) j.
Proof.
  unfold cap_bytes. cbn [length]. destruct (Z.eqb_spec j off) as [->|Hne].
  - rewrite (proj2 (Z.leb_le off off)), (proj2 (Z.ltb_lt _ _)), (proj2 (Z.leb_gt (off + 1) off)) by lia. cbn [andb].
    by replace (Z.to_nat (off - off)) with 0%nat by lia.
  - destruct (Z.leb_spec off j), (Z.leb_spec (off + 1) j); cbn [andb]; try lia; try done.
    replace (off + Z.of_nat (Datatypes.S (length l))) with (off + 1 + Z.of_nat (length l)) by lia.
    split_if; [|done]. replace (Z.to_nat (j - off)) with (Datatypes.S (Z.to_nat (j - (off + 1)))) by lia. done.
Qed.

Lemma write_one off v c j : v in_u 8 -> cfg_write 1 off v c j = if j =? off then v else c j.
Proof.
  intros Hv. unfold cfg_write. destruct (Z.eqb_spec j off) as [->|Hne].
  - rewrite (proj2 (Z.leb_le off off)), (proj2 (Z.ltb_lt off (off + 1))) by lia. replace (Z.to_nat (off - off)) with 0%nat by lia.
    cbn. by apply Z.mod_small.
  - destruct (Z.leb_spec off j), (Z.ltb_spec j (off + 1)); cbn; done || lia.
Qed.

Lemma lnot_align k v : 0 <= k -> Z.land v (Z.lnot (2 ^ k - 1)) = align k v.
Proof.
  intros Hk. replace (2 ^ k - 1) with (Z.ones k) by (rewrite Z.ones_equiv; lia). rewrite <- Z.ldiff_land, Z.ldiff_ones_r by done.
  rewrite Z.shiftl_mul_pow2, Z.shiftr_div_pow2 by done. unfold align. lia.
Qed.

Lemma roundup2_pow k x : 0 <= k -> roundup2 x (2 ^ k) = align k (x + (2 ^ k - 1)).
Proof. intros Hk. by apply lnot_align. Qed.

Lemma roundup4 x : 0 <= x -> x <= roundup2 x 4 < x + 4 /\ roundup2 x 4 mod 4 = 0.
Proof.
  intros Hx. change 4 with (2 ^ 2). rewrite roundup2_pow by lia. unfold align. change (2 ^ 2) with 4. Z.div_mod_to_equations. lia.
Qed.

(** The bytes that link a capability behind [l]: the link of the last one or,
    for the first, the capability pointer and the status register. *)
Definition link_byte (l : list cap) (j : Z) : bool :=
  match l with
  | [] => (j =? PCIR_CAP_PTR) || ((PCIR_STATUS <=? j) && (j <? PCIR_STATUS + 2))
  | x :: xs => j =? c_off (List.last (x :: xs) x) + 1
  end.

(** The link to the new capability: configuration space [c1] after it. *)
Record linked (p : devinst) (l : list cap) (c1 : Z -> Z) : Prop := {
  lk_bytes : bytes_cfg c1;
  lk_frame j : 0x10 <= j < 0x28 \/ 4 <= j < 6 -> c1 j = pi_cfgdata p j;
  lk_same j : link_byte l j = false -> c1 j = pi_cfgdata p j;
  lk_first : l = [] -> c1 PCIR_CAP_PTR = CAP_START_OFFSET /\
    cfg_read 2 PCIR_STATUS c1 = Z.lor (cfg_read 2 PCIR_STATUS (pi_cfgdata p)) PCIM_STATUS_CAPPRESENT;
  lk_status : tst (cfg_read 2 PCIR_STATUS c1) PCIM_STATUS_CAPPRESENT = true;
  lk_chain x xs : l = x :: xs ->
    (forall j, CAP_START_OFFSET <= j < pi_capend p + 1 -> j <> c_off (List.last (x :: xs) x) + 1 -> c1 j = pi_cfgdata p j) /\
    c1 (c_off (List.last (x :: xs) x) + 1) = pi_capend p + 1;
}.

(** The new configuration space and the chain. *)
Lemma chain_added p l c1 c2 y capdata : dev_ok p -> cap_list p l -> linked p l c1 ->
  y = mk_cap (nth 0 capdata 0) (caps_end p l) (roundup2 (Z.of_nat (length capdata)) 4) -> cap_fits y ->
  (2 <= length capdata)%nat -> caps_end p l + c_len y <= 256 ->
  (forall j, c2 j = if j =? caps_end p l + 1 then 0 else cap_bytes (caps_end p l) capdata c1 j) ->
  exists x xs, l ++ [y] = x :: xs /\ c_off x = CAP_START_OFFSET /\ chain c2 x xs (caps_end p l + c_len y) /\
    c_off (List.last (x :: xs) x) = caps_end p l.
Proof.
  intros Hp Hl Hlk Hy Hfit Hlen Hend Hc2. destruct (roundup4 (Z.of_nat (length capdata)) ltac:(lia)) as [Hr1 Hr2].
  assert (Hyl : c_len y = roundup2 (Z.of_nat (length capdata)) 4) by (by rewrite Hy).
  assert (Hyo : c_off y = caps_end p l) by (by rewrite Hy). assert (Hyi : c_id y = nth 0 capdata 0) by (by rewrite Hy).
  assert (Hmod : caps_end p l mod 4 = 0 /\ 0x40 <= caps_end p l).
  { destruct Hl as [|x xs Hh (Hx & Hch & He & _)]; [done|]. cbn [caps_end]. unfold CAP_START_OFFSET in Hx.
    pose proof (chain_bounds _ _ _ _ Hch). split; [|lia]. clear -Hch. revert x Hch.
    induction xs as [|z xs IH]; intros x (_ & H2 & _ & H4 & _ & H6); [|apply (IH z), H6]. Z.div_mod_to_equations. lia. }
  assert (Hchy : chain c2 y [] (caps_end p l + c_len y)).
  { cbn [chain]. rewrite Hyo, Hyi, Hyl, !Hc2. rewrite (proj2 (Z.eqb_neq (caps_end p l) (caps_end p l + 1))), Z.eqb_refl by lia.
    unfold cap_bytes. rewrite (proj2 (Z.leb_le _ _)), (proj2 (Z.ltb_lt _ _)) by lia. cbn [andb].
    replace (Z.to_nat (caps_end p l - caps_end p l)) with 0%nat by lia.
    split; [done|]. split; [lia|]. split; [Z.div_mod_to_equations; lia|]. split; [done|]. split; [done|]. split; [done|lia]. }
  destruct Hl as [Hh|x xs Hh (Hx & Hch & He & Hprev)]; cbn [caps_end app] in *.
  - exists y, []. by rewrite Hyo.
  - destruct (lk_chain _ _ _ Hlk x xs eq_refl) as [Hsame Hlink]. exists x, (xs ++ [y]). split; [done|]. split; [done|].
    assert (Hlast : c_off (List.last (x :: xs) x) + 1 < pi_capend p + 1 /\ 0x40 <= c_off (List.last (x :: xs) x)).
    { destruct (exists_last (l := x :: xs)) as (l' & a & E); [done|]. rewrite E, last_last.
      assert (Ha : a ∈ x :: xs) by (rewrite E; apply list_elem_of_In, in_or_app; right; by left).
      pose proof (chain_member _ _ _ _ _ Hch Ha) as (H1 & H2 & _ & H4 & _). unfold CAP_START_OFFSET in Hx. lia. }
    assert (Hold : forall j, j < pi_capend p + 1 -> c2 j = c1 j).
    { intros j Hj. rewrite Hc2, (proj2 (Z.eqb_neq _ _)) by lia. unfold cap_bytes. by rewrite (proj2 (Z.leb_gt _ _)) by lia. }
    split.
    + apply (chain_snoc (pi_cfgdata p)); try done; try lia.
      * intros j Hj Hne. rewrite Hold by lia. apply Hsame; [lia|done].
      * rewrite Hold by lia. done.
    + change (x :: xs ++ [y]) with ((x :: xs) ++ [y]). by rewrite last_last.
Qed.

Section Setup.
Context {R W : Type} `{!Lintr R, !LintrLaws R, !Decoder W, !DecoderLaws W}.
Local Abbreviation S := (pci R W).
Implicit Types s : S.

Lemma wp_copy_cap d l (Q : unit -> S -> Prop) : forall off s, 0 <= d < ndevs s -> 0 <= off -> off + Z.of_nat (length l) <= 256 ->
  Forall (fun b => b in_u 8) l ->
  (forall c, (forall j, c j = cap_bytes off l (pi_cfgdata (get_pdev d s)) j) ->
     Q tt (set_pdev d (get_pdev d s <| pi_cfgdata := c |>) s)) ->
  wp (copy_cap d off l) Q s.
Proof.
  induction l as [|b l IH]; intros off s Hd Ho Hlen Hb HQ; cbn [copy_cap].
  - apply wp_skip. specialize (HQ (pi_cfgdata (get_pdev d s))). rewrite set_pdev_step in HQ.
    replace (get_pdev d s <| pi_cfgdata := pi_cfgdata (get_pdev d s) |>) with (get_pdev d s) in HQ by (by destruct (get_pdev d s)).
    rewrite <- step_id in HQ by done. apply HQ. intros j. unfold cap_bytes. cbn [length].
    destruct (Z.leb_spec off j), (Z.ltb_spec j (off + Z.of_nat 0)); cbn [andb]; done || lia.
  - apply Forall_cons in Hb as [Hb1 Hb]. cbn [length] in Hlen.
    apply wp_bind, wp_set_cfg; [apply in_range1; lia|done|]. rewrite set_pdev_step. set (s1 := dev_step d _ _ _ s).
    assert (Hg : get_pdev d s1 = get_pdev d s <| pi_cfgdata ::= cfg_write 1 off b |>) by (by apply get_step).
    apply IH; try lia; try done; [unfold s1; by rewrite ndevs_step|]. intros c Hc. rewrite Hg in *. unfold s1.
    rewrite set_pdev_step_step. apply (HQ c). intros j. rewrite Hc, cap_bytes_cons. unfold cap_bytes. cbn [pi_cfgdata].
    split_if; [done|]. by apply write_one.
Qed.

Lemma wp_link d l (Q : unit -> S -> Prop) s (p := get_pdev d s) : dev_ok p -> 0 <= d < ndevs s -> cap_list p l ->
  caps_end p l <= PCI_REGMAX ->
  (forall c1, linked p l c1 -> Q tt (set_pdev d (p <| pi_cfgdata := c1 |>) s)) ->
  wp (if has_caps p then pci_set_cfgdata 1 d (pi_prevcap p + 1) (u8 (caps_end p l))
      else pci_set_cfgdata 1 d PCIR_CAP_PTR (u8 (caps_end p l)) ;;;
           pci_set_cfgdata 2 d PCIR_STATUS (Z.lor (cfg_read 2 PCIR_STATUS (pi_cfgdata p)) PCIM_STATUS_CAPPRESENT)) Q s.
Proof.
  intros Hp Hd Hl Hend HQ. unfold PCI_REGMAX in Hend. destruct Hl as [Hh|x xs Hh (Hx & Hch & He & Hprev)]; rewrite Hh; cbn [caps_end] in *.
  - apply wp_bind, wp_set_cfg; [done|done|]. rewrite set_pdev_step.
    apply wp_set_cfg; [done|by rewrite ndevs_step|]. rewrite get_step, set_pdev_step_step by done.
    pose proof (cfg_read_range 2 PCIR_STATUS _ ltac:(lia) (dv_bytes p Hp)) as Hsts.
    set (sts := cfg_read 2 PCIR_STATUS (pi_cfgdata p)) in *.
    apply (HQ (cfg_write 2 PCIR_STATUS (Z.lor sts PCIM_STATUS_CAPPRESENT) (cfg_write 1 PCIR_CAP_PTR (u8 CAP_START_OFFSET) (pi_cfgdata p)))).
    assert (Hread : cfg_read 2 PCIR_STATUS (cfg_write 2 PCIR_STATUS (Z.lor sts PCIM_STATUS_CAPPRESENT)
      (cfg_write 1 PCIR_CAP_PTR (u8 CAP_START_OFFSET) (pi_cfgdata p))) = Z.lor sts PCIM_STATUS_CAPPRESENT).
    { rewrite read_write by lia. apply Z.mod_small, lor_in_u; [lia|exact Hsts|done]. }
    split; [by apply write_bytes, write_bytes, dv_bytes| | | | |done].
    + intros j Hj. unfold PCIR_STATUS, PCIR_CAP_PTR. rewrite !write_outside by lia. done.
    + unfold link_byte, PCIR_STATUS, PCIR_CAP_PTR. intros j Hj. rewrite !write_outside by lia. done.
    + intros _. split; [|exact Hread]. rewrite write_outside by (unfold PCIR_STATUS, PCIR_CAP_PTR; lia). by rewrite write_one.
    + rewrite Hread.
      change PCIM_STATUS_CAPPRESENT with (bit 4). rewrite tst_bit, Z.lor_spec by lia. apply orb_true_r.
  - set (z := List.last (x :: xs) x) in *. assert (Hz : 0x40 <= c_off z /\ c_off z + 4 <= pi_capend p + 1).
    { unfold z. destruct (exists_last (l := x :: xs)) as (l' & a & E); [done|]. rewrite E, last_last.
      assert (Ha : a ∈ x :: xs) by (rewrite E; apply list_elem_of_In, in_or_app; right; by left).
      pose proof (chain_member _ _ _ _ _ Hch Ha) as (H1 & H2 & _ & H4 & _). unfold CAP_START_OFFSET in Hx. lia. }
    rewrite Hprev. apply wp_set_cfg; [apply in_range1; unfold PCI_REGMAX in He; lia|done|].
    apply (HQ (cfg_write 1 (c_off z + 1) (u8 (pi_capend p + 1)) (pi_cfgdata p))).
    split; [by apply write_bytes, dv_bytes| | |done| |].
    + intros j Hj. by rewrite write_outside by lia.
    + unfold link_byte. fold z. intros j Hj. by rewrite write_outside by lia.
    + rewrite (cfg_read_ext 2 _ _ (pi_cfgdata p)); [done|]. unfold PCIR_STATUS. intros j Hj. by rewrite write_outside by lia.
    + intros x' xs' [= <- <-]. fold z. split; [intros j Hj Hne; rewrite write_outside by lia; done|].
      rewrite write_one by apply u8_in_u. rewrite Z.eqb_refl. apply u8_id. unfold PCI_REGMAX in He. lia.
Qed.

(** What a successful call leaves. *)
Record cap_added (p p' : devinst) (l : list cap) (y : cap) (capdata : list Z) : Prop := {
  ca_ok : dev_ok p';
  ca_bars : same_decoding p p';
  ca_intr : pi_msi p' = pi_msi p /\ pi_msix p' = pi_msix p;
  ca_list : cap_list p' (l ++ [y]);
  ca_data k : (2 <= k < length capdata)%nat -> pi_cfgdata p' (c_off y + Z.of_nat k) = nth k capdata 0;
  ca_frame j : link_byte l j = false -> ~ (c_off y <= j < c_off y + c_len y) -> pi_cfgdata p' j = pi_cfgdata p j;
  ca_first : l = [] -> pi_cfgdata p' PCIR_CAP_PTR = CAP_START_OFFSET /\
    cfg_read 2 PCIR_STATUS (pi_cfgdata p') = Z.lor (cfg_read 2 PCIR_STATUS (pi_cfgdata p)) PCIM_STATUS_CAPPRESENT;
}.

Lemma cap_added_intro p l c1 c2 y capdata : dev_ok p -> cap_list p l -> linked p l c1 -> Forall (fun b => b in_u 8) capdata ->
  y = mk_cap (nth 0 capdata 0) (caps_end p l) (roundup2 (Z.of_nat (length capdata)) 4) -> cap_fits y ->
  (2 <= length capdata)%nat -> caps_end p l + c_len y <= 256 ->
  (forall j, c2 j = if j =? caps_end p l + 1 then 0 else cap_bytes (caps_end p l) capdata c1 j) ->
  cap_added p (p <| pi_cfgdata := c2 |> <| pi_prevcap := caps_end p l |> <| pi_capend := caps_end p l + c_len y - 1 |>) l y capdata.
Proof.
  intros Hp Hl Hlk Hb Hy Hfit Hlen Hend Hc2. set (p' := p <| pi_cfgdata := c2 |> <| pi_prevcap := _ |> <| pi_capend := _ |>).
  destruct (chain_added p l c1 c2 y capdata Hp Hl Hlk Hy Hfit Hlen Hend Hc2) as (x & xs & El & Hx & Hch & Hlast).
  assert (Hbig : 0x40 <= caps_end p l).
  { destruct Hl as [|z zs Hh (Hz & Hchz & _)]; [done|]. pose proof (chain_bounds _ _ _ _ Hchz). unfold CAP_START_OFFSET in Hz.
    cbn [caps_end length] in *. lia. }
  assert (Hlow : forall j, j < 0x40 -> c2 j = c1 j).
  { intros j Hj. rewrite Hc2, (proj2 (Z.eqb_neq _ _)) by lia. unfold cap_bytes. by rewrite (proj2 (Z.leb_gt _ _)) by lia. }
  assert (Hbytes : bytes_cfg c2).
  { intros j. rewrite Hc2. split_if; [done|]. unfold cap_bytes. split_if; [|apply (lk_bytes _ _ _ Hlk)].
    destruct (nth_in_or_default (Z.to_nat (j - caps_end p l)) capdata 0) as [Hin| ->]; [|done].
    exact (proj1 (List.Forall_forall _ _) Hb _ Hin). }
  assert (Hend' : pi_capend p' + 1 = caps_end p l + c_len y) by (cbn; lia).
  assert (Hcmd : cmd_of p' = cmd_of p).
  { apply cfg_read_ext. cbn [pi_cfgdata]. unfold PCIR_COMMAND. intros j Hj. rewrite Hlow by lia. apply (lk_frame _ _ _ Hlk). lia. }
  assert (Hcaps : has_caps p' = true).
  { rewrite <- (lk_status _ _ _ Hlk). unfold has_caps. f_equal. apply cfg_read_ext. unfold PCIR_STATUS. intros j Hj. apply Hlow. lia. }
  assert (Hat : forall k, bar_at p' k = bar_at p k) by done.
  assert (Hreg : forall k, is_bar k -> bar_reg p' k = bar_reg p k).
  { intros k Hk. apply cfg_read_ext. intros j Hjk. unfold PCIR_BAR, is_bar, PCI_BARMAX in *. rewrite Hlow by lia.
    apply (lk_frame _ _ _ Hlk). lia. }
  destruct (roundup4 (Z.of_nat (length capdata)) ltac:(lia)) as [Hrl _].
  split; [|by split|done| | | |].
  - split; [exact Hbytes|exact (dv_length p Hp)| |].
    + intros k Hk. pose proof (dv_bars p Hp k Hk) as Hok. apply (bar_ok_keep p); try done.
      * intros _ _. by apply Hreg.
      * intros H64. unfold bar_ok in Hok. rewrite H64 in Hok. destruct Hok as (? & ? & _ & _ & _ & _ & Hlt & _).
        apply Hreg. unfold is_bar in *. lia.
    + intros _. exists x, xs. rewrite Hend'. split; [done|]. split; [done|]. unfold PCI_REGMAX. lia.
  - rewrite El. apply cl_some; [done|]. split; [done|]. rewrite Hend'. split; [done|]. split; [unfold PCI_REGMAX; lia|]. by rewrite Hlast.
  - intros k Hk. cbn [pi_cfgdata]. rewrite Hy. cbn [c_off]. change (c2 (caps_end p l + Z.of_nat k) = nth k capdata 0).
    rewrite Hc2, (proj2 (Z.eqb_neq _ _)) by lia. unfold cap_bytes.
    rewrite (proj2 (Z.leb_le _ _)), (proj2 (Z.ltb_lt _ _)) by lia. cbn [andb]. f_equal. lia.
  - intros j Hlj Hj. rewrite Hy in Hj. cbn [c_off c_len] in Hj. change (c2 j = pi_cfgdata p j).
    rewrite Hc2, (proj2 (Z.eqb_neq _ _)) by lia. unfold cap_bytes.
    replace ((caps_end p l <=? j) && (j <? caps_end p l + Z.of_nat (length capdata))) with false by lia. by apply (lk_same _ _ _ Hlk).
  - intros E. destruct (lk_first _ _ _ Hlk E) as [Hptr Hsts]. split; [change (c2 PCIR_CAP_PTR = CAP_START_OFFSET); by rewrite Hlow|].
    rewrite <- Hsts. apply cfg_read_ext. unfold PCIR_STATUS. intros j Hj. apply Hlow. lia.
Qed.

Lemma quiet_ok d p' s : pci_ok s -> 0 <= d < ndevs s -> dev_ok p' -> same_decoding (get_pdev d s) p' ->
  pci_lintr_permitted p' = pci_lintr_permitted (get_pdev d s) -> pci_ok (dev_step d p' (decoder s) (router s) s).
Proof.
  intros Hs Hd Hp' [Hb Hc] Hl. apply pci_ok_step; try done.
  - refine (dec_ext _ _ _ _ (pk_dec s Hs)). intros d' j. rewrite active_step by done.
    destruct (Z.eqb_spec d' d) as [->|]; [|done]. rewrite active_at by done. symmetry. by apply dev_active_ext.
  - refine (lintr_ext _ _ _ _ _ (pk_lintr s Hs)). intros d' Hd'. rewrite permitted_step by (done || lia).
    destruct (Z.eqb_spec d' d) as [->|]; [|done]. unfold permitted. by rewrite get_pdev_lookup.
Qed.

Lemma wp_add_capability d l capdata (Q : Z -> S -> Prop) s (p := get_pdev d s)
    (y := mk_cap (nth 0 capdata 0) (caps_end p l) (roundup2 (Z.of_nat (length capdata)) 4)) :
  pci_ok s -> 0 <= d < ndevs s -> cap_list p l -> Forall (fun b => b in_u 8) capdata -> (2 <= length capdata)%nat -> cap_fits y ->
  (forall p', caps_end p l + c_len y <= 256 -> cap_added p p' l y capdata -> Q 0 (dev_step d p' (decoder s) (router s) s)) ->
  (256 < caps_end p l + c_len y -> Q (-1) s) ->
  wp (pci_emul_add_capability d capdata) Q s.
Proof.
  intros Hs Hd Hl Hb Hlen Hfit HQ HQ2. assert (Hp : dev_ok p) by (by apply get_pdev_ok).
  destruct (roundup4 (Z.of_nat (length capdata)) ltac:(lia)) as [Hr1 Hr2].
  unfold pci_emul_add_capability. apply wp_bind, wp_KASSERT; [apply Z.ltb_lt; lia|]. apply wp_bind, wp_get_cfg; [done|].
  apply wp_bind, wp_gets. change (tst (cfg_read 2 PCIR_STATUS (pi_cfgdata (get_pdev d s))) PCIM_STATUS_CAPPRESENT) with (has_caps p).
  fold p. assert (Eo : (if has_caps p then pi_capend p + 1 else CAP_START_OFFSET) = caps_end p l) by (destruct Hl as [->|? ? -> _]; done).
  rewrite Eo. apply wp_if; intros E.
  { apply wp_ret, HQ2. apply Z.ltb_lt in E. exact E. }
  apply Z.ltb_ge in E. change (PCI_REGMAX + 1) with 256 in E.
  assert (Hbig : 0x40 <= caps_end p l).
  { destruct Hl as [|z zs Hh (Hz & Hchz & _)]; [done|]. pose proof (chain_bounds _ _ _ _ Hchz). unfold CAP_START_OFFSET in Hz.
    cbn [caps_end length] in *. lia. }
  apply wp_bind, (wp_link d l); [done|done|done|unfold PCI_REGMAX; fold p; lia|]. intros c1 Hlk. fold p. rewrite set_pdev_step.
  apply wp_bind, wp_copy_cap; [by rewrite ndevs_step|lia|lia|done|]. rewrite get_step, ?set_pdev_step_step by done. intros c Hc.
  rewrite set_pdev_step_step. apply wp_bind, wp_set_cfg; [apply in_range1; lia|by rewrite ndevs_step|].
  rewrite get_step, set_pdev_step_step by done. apply wp_bind, wp_on_pdev; [by rewrite ndevs_step|].
  rewrite get_step, set_pdev_step_step by done. apply wp_ret.
  match goal with |- Q 0 (dev_step d ?q _ _ _) => replace q with
    (p <| pi_cfgdata := cfg_write 1 (caps_end p l + 1) 0 c |> <| pi_prevcap := caps_end p l |> <| pi_capend := caps_end p l + c_len y - 1 |>) by done end.
  apply HQ; [done|]. apply (cap_added_intro p l c1); try done. intros j. rewrite write_one by done. by rewrite Hc.
Qed.

Lemma cap_added_ok d p' l y capdata s : pci_ok s -> 0 <= d < ndevs s -> cap_added (get_pdev d s) p' l y capdata ->
  pci_ok (dev_step d p' (decoder s) (router s) s).
Proof.
  intros Hs Hd [Hok Hsame [Hm Hx] _ _ _ _]. apply quiet_ok; try done. unfold pci_lintr_permitted. rewrite Hm, Hx.
  destruct Hsame as [_ Hc]. unfold cmd_of in Hc. by rewrite Hc.
Qed.
End Setup.

(** C26: adding a capability to a device that is being initialised either
    refuses it, exactly when the configuration space has no room for its bytes
    rounded up to a multiple of four, and changes nothing; or links it behind
    the capabilities the device has: they stay in the list in their order, the
    new one has the identifier and the contents it was given and starts where
    the previous one ended; outside the new capability only the link byte of
    the last one changes or, for the first, the capability pointer and the
    capability bit of the status register, so the contents of the others stay;
    and the device keeps its invariant, so that every later search ends at the
    capability it looks for. *)
Theorem capability_added {R W : Type} `{!Lintr R, !LintrLaws R, !Decoder W, !DecoderLaws W} (s : pci R W) d l capdata
    (y := mk_cap (nth 0 capdata 0) (caps_end (get_pdev d s) l) (roundup2 (Z.of_nat (length capdata)) 4)) :
  pci_ok s -> 0 <= d < ndevs s -> cap_list (get_pdev d s) l -> Forall (fun b => b in_u 8) capdata -> (2 <= length capdata)%nat ->
  cap_fits y ->
  exists e s', pci_emul_add_capability d capdata s = Return (e, s') /\ pci_ok s' /\
    (if c_off y + c_len y <=? 256 then e = 0 /\ cap_added (get_pdev d s) (get_pdev d s') l y capdata else e = -1 /\ s' = s).
Proof.
  intros Hs Hd Hl Hb Hlen Hfit. apply wp_elim. apply (wp_add_capability d l); try done; fold y.
  - intros p' Hend Hadd. split; [by eapply cap_added_ok|]. change (c_off y) with (caps_end (get_pdev d s) l).
    rewrite (proj2 (Z.leb_le _ _)) by done. by rewrite get_step.
  - intros Hend. split; [done|]. change (c_off y) with (caps_end (get_pdev d s) l). by rewrite (proj2 (Z.leb_gt _ _)) by done.
Qed.
