(* ===== verification/PciAlloc.v ===== *)
(** * Allocating base address registers

    [pci_emul_alloc_pbar] rounds the size of a register up to a power of two,
    takes an aligned range from the window of its type and registers it.  The
    ranges it hands out are apart from all others, so registration succeeds
    and the invariant of [PciBar] is kept. *)

From S2P Require Import Prelude Effects PciCfg PciCaps PciBar PciSafe PciSetup.

Local Open Scope cmd_scope.

(** ** Sizes *)

Lemma land_pred_pow k : 0 <= k -> Z.land (2 ^ k) (2 ^ k - 1) = 0.
Proof.
  intros Hk. replace (2 ^ k - 1) with (Z.ones k) by (rewrite Z.ones_equiv; lia). rewrite Z.land_ones by done.
  apply Z.mod_same, Z.pow_nonzero; lia.
Qed.

Lemma land_pred_zero x : 0 < x -> Z.land x (x - 1) = 0 -> x = 2 ^ Z.log2 x.
Proof.
  intros Hx Hl. pose proof (Z.log2_spec x Hx) as [H1 H2]. pose proof (Z.log2_nonneg x) as Hk. set (k := Z.log2 x) in *.
  destruct (Z.eq_dec x (2 ^ k)) as [|Hne]; [done|exfalso].
  assert (Hb : Z.testbit (Z.land x (x - 1)) k = true).
  { rewrite Z.pow_succ_r in H2 by done. rewrite Z.land_spec. apply andb_true_iff.
    assert (Hbit : forall y, 2 ^ k <= y < 2 * 2 ^ k -> Z.testbit y k = true).
    { intros y Hy. replace y with ((y - 2 ^ k) + 1 * 2 ^ k) by lia. rewrite Z.add_comm, Z.testbit_true by done.
      rewrite Z.mul_1_l. replace ((2 ^ k + (y - 2 ^ k)) / 2 ^ k) with 1; [done|].
      apply Z.div_unique_pos with (y - 2 ^ k); lia. }
    split; apply Hbit; lia. }
  by rewrite Hl, Z.bits_0 in Hb.
Qed.

(** The size of a register: a power of two that holds what was asked for, at
    most twice as much or the least size. *)
Lemma pbar_size_pow type size : 0 < size <= 2 ^ 62 ->
  exists k, pbar_size type size = 2 ^ k /\ (if bool_decide (type = PCIBAR_IO) then 2 else 4) <= k <= 62 /\ size <= 2 ^ k.
Proof.
  intros Hs. unfold pbar_size. rewrite (u64_id (size - 1)) by lia.
  assert (Hk : exists k, (if negb (Z.land size (size - 1) =? 0) then u64 (Z.shiftl 1 (Z.log2 size + 1)) else size) = 2 ^ k /\
    0 <= k <= 62 /\ size <= 2 ^ k).
  { pose proof (Z.log2_nonneg size). pose proof (Z.log2_spec size ltac:(lia)) as [H1 H2].
    pose proof (Z.log2_le_mono size (2 ^ 62) ltac:(lia)) as H3. rewrite Z.log2_pow2 in H3 by lia.
    destruct (Z.eqb_spec (Z.land size (size - 1)) 0) as [E|E]; cbn [negb].
    - apply land_pred_zero in E; [|lia]. exists (Z.log2 size). rewrite <- E. lia.
    - assert (Z.log2 size <> 62).
      { intros E62. rewrite E62 in H1. replace size with (2 ^ 62) in E by lia. by rewrite land_pred_pow in E. }
      exists (Z.log2 size + 1). rewrite Z.shiftl_1_l, u64_id; [unfold Z.succ in H2; lia|]. split; [by apply Z.pow_nonneg|].
      apply Z.pow_lt_mono_r; lia. }
  destruct Hk as (k & -> & Hk & Hle). assert (Hmin : forall m, 0 <= m <= 4 -> exists k', (if 2 ^ k <? 2 ^ m then 2 ^ m else 2 ^ k) = 2 ^ k' /\
    m <= k' <= 62 /\ size <= 2 ^ k').
  { intros m Hm. destruct (Z.ltb_spec (2 ^ k) (2 ^ m)) as [Hlt|Hge]; [exists m; lia|]. exists k. split; [done|]. split; [|done].
    split; [|lia]. apply (Z.pow_le_mono_r_iff 2); lia. }
  destruct type; cbv iota; [apply (Hmin 4)|apply (Hmin 2)|apply (Hmin 4)|apply (Hmin 4)|apply (Hmin 4)]; lia.
Qed.

(** ** The allocator *)

Lemma roundup_range k b : 0 <= k -> 0 <= b -> b <= roundup2 b (2 ^ k) < b + 2 ^ k /\ roundup2 b (2 ^ k) mod 2 ^ k = 0.
Proof.
  intros Hk Hb. rewrite roundup2_pow by done. split; [|by apply align_mod]. unfold align.
  assert (0 < 2 ^ k) by (by apply Z.pow_pos_nonneg). pose proof (Z.div_mod (b + (2 ^ k - 1)) (2 ^ k) ltac:(lia)).
  pose proof (Z.mod_pos_bound (b + (2 ^ k - 1)) (2 ^ k) ltac:(lia)). lia.
Qed.

Lemma mem_base_mask a : a in_u 64 -> a mod 2 ^ 4 = 0 -> Z.land a PCIM_BAR_MEM_BASE = a.
Proof. intros Ha Hm. change PCIM_BAR_MEM_BASE with (u64 (Z.lnot (2 ^ 4 - 1))). rewrite mask_align by (lia || done). by apply align_id. Qed.

Lemma io_base_mask a : a in_u 16 -> a mod 2 ^ 2 = 0 -> Z.land a PCIM_BAR_IO_BASE = a.
Proof.
  intros Ha Hm. change PCIM_BAR_IO_BASE with (Z.land (u64 (Z.lnot (2 ^ 2 - 1))) (Z.ones 32)). rewrite Z.land_assoc.
  rewrite mask_align by lia. rewrite align_id by (lia || done). rewrite Z.land_ones by lia. apply Z.mod_small. lia.
Qed.

(** ** The new register *)

Definition put_bar (i : Z) (b : pcibar) (p : devinst) : devinst := p <| pi_bar ::= alter (fun _ => b) (Z.to_nat i) |>.

Lemma put_bar_at i b p j : length (pi_bar p) = 6%nat -> is_bar i -> 0 <= j ->
  bar_at (put_bar i b p) j = if j =? i then b else bar_at p j.
Proof.
  intros Hl Hi Hj. unfold is_bar, PCI_BARMAX in *. unfold bar_at, put_bar, upd. cbn [pi_bar].
  destruct (Z.eqb_spec j i) as [->|Hne].
  - rewrite list_lookup_alter_eq. destruct (lookup_lt_is_Some_2 (pi_bar p) (Z.to_nat i)) as [x Hx]; [lia|]. by rewrite Hx.
  - by rewrite list_lookup_alter_ne by lia.
Qed.

(** Types of registers that are allocated, with the least logarithm of their
    size and the number of address bits. *)
Definition allocatable (type : pcibar_type) : Prop := type = PCIBAR_IO \/ type = PCIBAR_MEM32 \/ type = PCIBAR_MEM64.
Definition size_ok (type : pcibar_type) (k : Z) : Prop :=
  match type with PCIBAR_IO => 2 <= k <= 16 | PCIBAR_MEM32 => 4 <= k <= 31 | _ => 4 <= k <= 63 end.
Definition addr_bits (type : pcibar_type) : Z := match type with PCIBAR_IO => 16 | PCIBAR_MEM32 => 32 | _ => 64 end.

(** The device with register [i] allocated at [a]; [f] are the low bits. *)
Definition bar_added (p : devinst) (i : Z) (type : pcibar_type) (size a f : Z) : devinst :=
  let p1 := put_cfg 4 (PCIR_BAR i) (u32 (a + f)) (put_bar i (mk_pcibar type size a) p) in
  if bool_decide (type = PCIBAR_MEM64) then
    put_cfg 4 (PCIR_BAR (i + 1)) (Z.shiftr (a + f) 32) (put_bar (i + 1) (bar_at p (i + 1) <| bar_type := PCIBAR_MEMHI64 |>) p1)
  else p1.

Record free_slot (p : devinst) (i : Z) (type : pcibar_type) : Prop := {
  fs_bar : is_bar i;
  fs_none : bar_type (bar_at p i) = PCIBAR_NONE;
  fs_high : type = PCIBAR_MEM64 -> i < PCI_BARMAX /\ bar_type (bar_at p (i + 1)) = PCIBAR_NONE;
}.

Lemma bar_added_at p i type size a f j : dev_ok p -> free_slot p i type -> is_bar j ->
  bar_at (bar_added p i type size a f) j =
  if j =? i then mk_pcibar type size a
  else if bool_decide (type = PCIBAR_MEM64) && (j =? i + 1) then bar_at p (i + 1) <| bar_type := PCIBAR_MEMHI64 |> else bar_at p j.
Proof.
  intros Hp [Hi Hn Hh] Hj. pose proof (dv_length p Hp) as Hl. unfold bar_added. destruct (bool_decide_reflect (type = PCIBAR_MEM64)) as [E|E]; cbn [andb].
  - destruct (Hh E) as [Hlt _]. assert (Hi1 : is_bar (i + 1)) by (unfold is_bar in *; lia). unfold is_bar in Hj.
    change (bar_at (put_cfg ?n ?o ?v ?q) j) with (bar_at q j). rewrite put_bar_at; [|cbn; by rewrite length_alter|done|lia].
    change (bar_at (put_cfg ?n ?o ?v ?q) j) with (bar_at q j). rewrite put_bar_at by (done || lia).
    destruct (Z.eqb_spec j i) as [->|]; [|done]. by rewrite (proj2 (Z.eqb_neq i (i + 1))) by lia.
  - change (bar_at (put_cfg ?n ?o ?v ?q) j) with (bar_at q j). unfold is_bar in Hj. by rewrite put_bar_at by (done || lia).
Qed.

Lemma bar_added_reg p i type size a f j : is_bar i -> a + f in_u 64 ->
  bar_reg (bar_added p i type size a f) j =
  if bool_decide (type = PCIBAR_MEM64) && (j =? i + 1) then (a + f) / 2 ^ 32
  else if j =? i then (a + f) mod 2 ^ 32 else bar_reg p j.
Proof.
  intros Hi Haf. unfold bar_added, put_cfg. assert (Hhi : (a + f) / 2 ^ 32 in_u 32).
  { change (2 ^ 64) with 18446744073709551616 in Haf. change (2 ^ 32) with 4294967296. Z.div_mod_to_equations. lia. }
  destruct (bool_decide (type = PCIBAR_MEM64)); cbn [andb]; rewrite !bar_reg_written.
  - rewrite Z.shiftr_div_pow2 by lia. destruct (Z.eqb_spec j (i + 1)); [by apply Z.mod_small|].
    change (bar_reg (put_bar ?k ?b ?q) j) with (bar_reg q j). rewrite bar_reg_written. unfold u32. by rewrite Z.mod_mod by lia.
  - unfold u32. by rewrite Z.mod_mod by lia.
Qed.

Lemma low_bits type k a f : allocatable type -> size_ok type k -> a mod 2 ^ k = 0 -> a in_u (addr_bits type) ->
  match type with PCIBAR_IO => f = 1 | PCIBAR_MEM32 => f = 0 | _ => 0 <= f < 16 end ->
  a + f in_u 64 /\ (a + f) mod 2 ^ 32 = a mod 2 ^ 32 + f /\ (a + f) / 2 ^ 32 = a / 2 ^ 32.
Proof.
  intros Hal Hk Ha Har Hf. assert (Ha4 : a mod 2 ^ 2 = 0 /\ (type <> PCIBAR_IO -> a mod 2 ^ 4 = 0)).
  { destruct Hal as [->|[->| ->]]; cbn [size_ok] in Hk; split; try done; intros; by apply (mod0_le _ k); [lia|]. }
  change (2 ^ 2) with 4 in Ha4. change (2 ^ 4) with 16 in Ha4. destruct Ha4 as [Ha2 Ha4].
  destruct Hal as [->|[->| ->]]; cbn [addr_bits] in Har; [|specialize (Ha4 ltac:(done))..];
    change (2 ^ 64) with 18446744073709551616 in *; change (2 ^ 32) with 4294967296 in *; change (2 ^ 16) with 65536 in *;
    Z.div_mod_to_equations; lia.
Qed.

Lemma bar_at_none p j : length (pi_bar p) = 6%nat -> PCI_BARMAX < j -> bar_type (bar_at p j) = PCIBAR_NONE.
Proof. intros Hl Hj. unfold PCI_BARMAX, bar_at in *. by rewrite lookup_ge_None_2 by lia. Qed.

(** The register itself. *)
Lemma bar_added_here p i type k a f : dev_ok p -> free_slot p i type -> allocatable type -> size_ok type k ->
  a mod 2 ^ k = 0 -> a in_u (addr_bits type) ->
  match type with PCIBAR_IO => f = 1 | PCIBAR_MEM32 => f = 0 | _ => 0 <= f < 16 end ->
  bar_ok (bar_added p i type (2 ^ k) a f) i.
Proof.
  intros Hp Hfs Hal Hk Ha Har Hf. pose proof Hfs as [Hi Hn Hh]. destruct (low_bits type k a f Hal Hk Ha Har Hf) as (H64 & Hlo & Hhi).
  unfold bar_ok. rewrite bar_added_at, Z.eqb_refl by done. cbn [bar_type bar_size bar_addr].
  destruct Hal as [->|[->| ->]]; cbn [size_ok addr_bits] in *.
  - exists k. rewrite bar_added_reg, Z.eqb_refl, Hlo by done. rewrite bool_decide_false by done. cbn [andb]. rewrite (Z.mod_small a (2 ^ 32)) by lia. by rewrite Hf.
  - exists k. rewrite bar_added_reg, Z.eqb_refl, Hlo by done. rewrite bool_decide_false by done. cbn [andb]. rewrite (Z.mod_small a (2 ^ 32)) by lia. rewrite Hf, Z.add_0_r. done.
  - destruct (Hh eq_refl) as [Hlt _]. assert (Hi1 : is_bar (i + 1)) by (unfold is_bar in *; lia). exists k, f.
    rewrite bar_added_at, !bar_added_reg, Hlo, Hhi by done. rewrite bool_decide_true by done. cbn [andb].
    rewrite (proj2 (Z.eqb_neq i (i + 1))), (proj2 (Z.eqb_neq (i + 1) i)), !Z.eqb_refl by lia. done.
Qed.

Lemma bar_added_other p i type k a f j : dev_ok p -> free_slot p i type -> a + f in_u 64 -> is_bar j -> j <> i ->
  ~ (type = PCIBAR_MEM64 /\ j = i + 1) -> bar_ok (bar_added p i type (2 ^ k) a f) j.
Proof.
  intros Hp Hfs H64 Hj Hne Hni. pose proof Hfs as [Hi Hn Hh]. pose proof (dv_length p Hp) as Hl. set (p' := bar_added p i type (2 ^ k) a f).
  assert (Hb1 : bool_decide (type = PCIBAR_MEM64) && (j =? i + 1) = false).
  { destruct (bool_decide_reflect (type = PCIBAR_MEM64)); [|done]. cbn. apply Z.eqb_neq. intros Ej. by apply Hni. }
  assert (Hreg : forall n, n <> i -> ~ (type = PCIBAR_MEM64 /\ n = i + 1) -> bar_reg p' n = bar_reg p n).
  { intros n H1 H2. unfold p'. rewrite bar_added_reg, (proj2 (Z.eqb_neq n i)) by done.
    destruct (bool_decide_reflect (type = PCIBAR_MEM64)); [|done]. cbn [andb]. rewrite (proj2 (Z.eqb_neq _ _)); [done|]. intros En. by apply H2. }
  apply (bar_ok_keep p); try done.
  - unfold p'. by rewrite bar_added_at, (proj2 (Z.eqb_neq j i)), Hb1.
  - intros n Hn0 Hnn. assert (Hnb : is_bar n).
    { unfold is_bar. split; [done|]. destruct (Z.le_gt_cases n PCI_BARMAX); [done|]. by rewrite bar_at_none in Hnn. }
    unfold p'. rewrite bar_added_at by done. destruct (Z.eqb_spec n i) as [->|]; [done|].
    destruct (bool_decide_reflect (type = PCIBAR_MEM64)) as [E|]; [|done]. cbn [andb]. destruct (Z.eqb_spec n (i + 1)) as [->|]; [|done].
    by destruct (Hh E) as [_ ?].
  - intros _ _. by apply Hreg.
  - intros Hj64. pose proof (dv_bars p Hp j Hj) as Hok. unfold bar_ok in Hok. rewrite Hj64 in Hok.
    destruct Hok as (? & ? & _ & _ & _ & _ & _ & Hhi & _). apply Hreg; [intros E; rewrite E in Hhi; congruence|].
    intros [_ E]. apply Hne. lia.
  - by apply dv_bars.
Qed.

Lemma bar_added_ok p i type k a f : dev_ok p -> free_slot p i type -> allocatable type -> size_ok type k ->
  a mod 2 ^ k = 0 -> a in_u (addr_bits type) ->
  match type with PCIBAR_IO => f = 1 | PCIBAR_MEM32 => f = 0 | _ => 0 <= f < 16 end ->
  dev_ok (bar_added p i type (2 ^ k) a f).
Proof.
  intros Hp Hfs Hal Hk Ha Har Hf. pose proof Hfs as [Hi Hn Hh]. destruct (low_bits type k a f Hal Hk Ha Har Hf) as (H64 & _ & _).
  pose proof (bar_added_here p i type k a f Hp Hfs Hal Hk Ha Har Hf) as Hhere. pose proof (dv_length p Hp) as Hl.
  set (p' := bar_added p i type (2 ^ k) a f) in *. split.
  - unfold p', bar_added. destruct (bool_decide _); repeat (apply write_bytes); exact (dv_bytes p Hp).
  - unfold p', bar_added. destruct (bool_decide _); cbn; by rewrite ?length_alter.
  - intros j Hj. destruct (decide (j = i)) as [->|Hne]; [done|].
    destruct (decide (type = PCIBAR_MEM64 /\ j = i + 1)) as [[E ->]|Hni].
    + assert (Hat : bar_type (bar_at p' (i + 1)) = PCIBAR_MEMHI64 /\ bar_type (bar_at p' i) = type).
      { unfold p'. rewrite !bar_added_at, bool_decide_true, (proj2 (Z.eqb_neq (i + 1) i)), !Z.eqb_refl by (done || lia). done. }
      unfold bar_ok. destruct Hat as [-> Hat]. replace (i + 1 - 1) with i by lia. rewrite Hat. unfold is_bar in *. split; [lia|done].
    + by apply bar_added_other.
  - unfold is_bar, PCI_BARMAX in Hi. unfold p', bar_added. destruct (bool_decide_reflect (type = PCIBAR_MEM64)) as [E|].
    + destruct (Hh E) as [Hlt _]. unfold PCI_BARMAX in Hlt.
      apply (caps_ok_write (put_bar _ _ _)); [apply (caps_ok_write (put_bar i _ p)); [exact (dv_caps p Hp)| |intros _]| |intros _];
        unfold PCIR_BAR, PCIR_STATUS, CAP_START_OFFSET; lia.
    + apply (caps_ok_write (put_bar i _ p)); [exact (dv_caps p Hp)| |intros _]; unfold PCIR_BAR, PCIR_STATUS, CAP_START_OFFSET; lia.
Qed.

Section Alloc.
Context {R W : Type} `{!Lintr R, !LintrLaws R, !Decoder W, !DecoderLaws W}.
Local Abbreviation S := (pci R W).
Implicit Types s : S.

(** Memory for registers below 4 GB starts at [m32]. *)
Context (m32 : Z).

Definition in_windows (r : bar_range) : Prop :=
  match br_space r with
  | IoSpace => PCI_EMUL_IOBASE <= br_base r /\ br_base r + br_size r <= PCI_EMUL_IOLIMIT
  | MemSpace => (m32 <= br_base r /\ br_base r + br_size r <= PCI_EMUL_MEMLIMIT32) \/
                (PCI_EMUL_MEMBASE64 <= br_base r /\ br_base r + br_size r <= PCI_EMUL_MEMLIMIT64)
  end.

(** The chip set leaves the windows alone. *)
Definition windows_free : Prop := forall r, range_ok r -> in_windows r -> dec_free r.

(** Everything that is registered was allocated. *)
Record alloc_ok s : Prop := {
  al_io : PCI_EMUL_IOBASE <= pci_emul_iobase s <= PCI_EMUL_IOLIMIT;
  al_mem32 : 0 <= m32 <= pci_emul_membase32 s /\ pci_emul_membase32 s <= PCI_EMUL_MEMLIMIT32;
  al_mem64 : PCI_EMUL_MEMBASE64 <= pci_emul_membase64 s <= PCI_EMUL_MEMLIMIT64;
  al_used d i r : active (pdevs s) d i = Some r ->
    match br_space r with
    | IoSpace => br_base r + br_size r <= pci_emul_iobase s
    | MemSpace => br_base r + br_size r <= pci_emul_membase32 s \/
                  (PCI_EMUL_MEMBASE64 <= br_base r /\ br_base r + br_size r <= pci_emul_membase64 s)
    end;
}.

(** The window of a register of type [type] and size [size], which is not the
    special size of 4 GB. *)
Definition window_of (type : pcibar_type) (size : Z) : window :=
  match type with
  | PCIBAR_IO => IoWindow
  | PCIBAR_MEM64 => if 32 * 1024 * 1024 <? size then Mem64Window else Mem32Window
  | _ => Mem32Window
  end.
Definition limit_of (w : window) : Z :=
  match w with IoWindow => PCI_EMUL_IOLIMIT | Mem32Window => PCI_EMUL_MEMLIMIT32 | _ => PCI_EMUL_MEMLIMIT64 end.
Definition low_flags (type : pcibar_type) (size : Z) : Z :=
  match type with
  | PCIBAR_IO => 1
  | PCIBAR_MEM64 => if 32 * 1024 * 1024 <? size then 12 else 4
  | _ => 0
  end.

Lemma wp_resource w k (Q : option Z -> S -> Prop) s (b := window_base w s) (a := roundup2 b (2 ^ k)) :
  0 <= b <= 2 ^ 62 -> 0 <= k <= 62 ->
  (a + 2 ^ k <= limit_of w -> Q (Some a) (set_window w (a + 2 ^ k) s)) -> (limit_of w < a + 2 ^ k -> Q None s) ->
  wp (pci_emul_alloc_resource w (limit_of w) (2 ^ k)) Q s.
Proof.
  intros Hb Hk H1 H2. destruct (roundup_range k b ltac:(lia) ltac:(lia)) as [Hr _]. fold a in Hr.
  assert (Hp : 0 < 2 ^ k <= 2 ^ 62) by (split; [by apply Z.pow_pos_nonneg; lia|by apply Z.pow_le_mono_r; lia]).
  unfold pci_emul_alloc_resource. rewrite (u64_id (2 ^ k - 1)) by lia.
  apply wp_bind, wp_KASSERT; [by rewrite land_pred_pow by lia|]. apply wp_bind, wp_gets. fold b. fold a.
  rewrite (u64_id a) by lia. rewrite (u64_id (a + 2 ^ k)) by lia. apply wp_if; intros E; bools.
  - apply wp_bind, wp_update, wp_ret. by apply H1.
  - apply wp_ret. by apply H2.
Qed.

Lemma pci_ok_window w v s : pci_ok s -> pci_ok (set_window w v s).
Proof. intros [H1 H2 H3 H4 H5]. by destruct w; split. Qed.

Lemma window_pdevs w v s : pdevs (set_window w v s) = pdevs s.
Proof. by destruct w. Qed.
Lemma window_decoder w v s : decoder (set_window w v s) = decoder s.
Proof. by destruct w. Qed.

(** The value written to the register. *)
Lemma reg_value type k a : allocatable type -> size_ok type k -> a mod 2 ^ k = 0 -> a in_u (addr_bits type) ->
  Z.lor (Z.land a (if bool_decide (type = PCIBAR_IO) then PCIM_BAR_IO_BASE else PCIM_BAR_MEM_BASE)) (low_flags type (2 ^ k)) =
  a + low_flags type (2 ^ k).
Proof.
  intros Hal Hk Ha Har. destruct Hal as [->|[->| ->]]; cbn [size_ok addr_bits low_flags] in *.
  - rewrite bool_decide_true, io_base_mask by (done || by apply (mod0_le 2 k); [lia|]).
    apply (lor_flags 1); [done| |done]. by apply (mod0_le 1 k); [lia|].
  - rewrite bool_decide_false, mem_base_mask by (done || lia || by apply (mod0_le 4 k); [lia|]).
    rewrite Z.lor_0_r. lia.
  - rewrite bool_decide_false, mem_base_mask by (done || by apply (mod0_le 4 k); [lia|]).
    apply (lor_flags 4); [done| |by split_if]. by apply (mod0_le 4 k); [lia|].
Qed.

Lemma pbar_window_of type hostbase k (Q : option (window * Z) * Z * Z -> S -> Prop) s : allocatable type -> k <> 32 ->
  Q (Some (window_of type (2 ^ k), limit_of (window_of type (2 ^ k))),
     if bool_decide (type = PCIBAR_IO) then PCIM_BAR_IO_BASE else PCIM_BAR_MEM_BASE, low_flags type (2 ^ k)) s ->
  0 <= k -> wp (pbar_window type hostbase (2 ^ k)) Q s.
Proof.
  intros Hal Hk HQ Hk0. destruct Hal as [->|[->| ->]]; try (apply wp_ret; exact HQ). cbn [pbar_window window_of limit_of low_flags] in *.
  rewrite bool_decide_false in HQ by done. destruct (32 * 1024 * 1024 <? 2 ^ k); apply wp_ret; [|exact HQ].
  destruct (Z.eqb_spec (2 ^ k) 0x100000000) as [E|]; [|exact HQ]. change 0x100000000 with (2 ^ 32) in E.
  apply Z.pow_inj_r in E; lia.
Qed.

(** A range that was cut from its window. *)
Lemma fresh_range type k s (w := window_of type (2 ^ k)) (a := roundup2 (window_base w s) (2 ^ k)) :
  alloc_ok s -> allocatable type -> (if bool_decide (type = PCIBAR_IO) then 2 else 4) <= k <= 62 -> a + 2 ^ k <= limit_of w ->
  size_ok type k /\ a mod 2 ^ k = 0 /\ a in_u (addr_bits type) /\ window_base w s <= a /\ 0 <= window_base w s.
Proof.
  intros [Hio [Hm1 Hm2] Hm6 _] Hal Hk Hfit. unfold PCI_EMUL_IOBASE, PCI_EMUL_IOLIMIT, PCI_EMUL_MEMLIMIT32, PCI_EMUL_ECFG_BASE, PCI_EMUL_MEMBASE64, PCI_EMUL_MEMLIMIT64 in *.
  assert (Hb : 0 <= window_base w s) by (unfold w; destruct Hal as [->|[->| ->]]; cbn [window_of]; try split_if; cbn [window_base]; lia).
  assert (Hk0 : 0 <= k) by (destruct (bool_decide _); lia).
  destruct (roundup_range k (window_base w s) Hk0 Hb) as [Hr Hm]. fold a in Hr, Hm.
  assert (Hp : 0 < 2 ^ k) by (by apply Z.pow_pos_nonneg).
  assert (Hlt : forall n, 0 <= n -> 2 ^ k < 2 ^ n -> k < n) by (intros n Hn Hlt; by apply (Z.pow_lt_mono_r_iff 2)).
  pose proof (Hlt 16 ltac:(lia)) as H16. pose proof (Hlt 32 ltac:(lia)) as H32. clearbody a.
  unfold w in *. destruct Hal as [->|[->| ->]]; cbn [window_of limit_of window_base size_ok addr_bits bool_decide] in *;
    unfold PCI_EMUL_IOLIMIT, PCI_EMUL_MEMLIMIT32, PCI_EMUL_ECFG_BASE, PCI_EMUL_MEMLIMIT64 in *.
  - rewrite bool_decide_true in Hk by done. lia.
  - rewrite bool_decide_false in Hk by done. lia.
  - rewrite bool_decide_false in Hk by done. destruct (32 * 1024 * 1024 <? 2 ^ k); cbn [window_base limit_of] in *;
      unfold PCI_EMUL_MEMLIMIT32, PCI_EMUL_ECFG_BASE, PCI_EMUL_MEMLIMIT64 in *; lia.
Qed.

Lemma flags_ok type size : allocatable type ->
  match type with PCIBAR_IO => low_flags type size = 1 | PCIBAR_MEM32 => low_flags type size = 0 | _ => 0 <= low_flags type size < 16 end.
Proof. intros [->|[->| ->]]; cbn [low_flags]; try done. split_if; lia. Qed.

Lemma cmd_added p i type size a f : is_bar i -> cmd_of (bar_added p i type size a f) = cmd_of p.
Proof.
  intros Hi. unfold is_bar in Hi. apply cfg_read_ext. intros j Hj. unfold bar_added, put_cfg, put_bar, upd, PCIR_COMMAND, PCIR_BAR in *.
  destruct (bool_decide _); cbn [pi_cfgdata]; rewrite !write_outside by lia; done.
Qed.

(** What is registered after the allocation. *)
Lemma active_added d i type size a f s (p := get_pdev d s) : dev_ok p -> 0 <= d < ndevs s -> free_slot p i type -> allocatable type ->
  porten p = true -> memen p = true ->
  let p' := bar_added p i type size a f in
  decodes p' i = true /\ forall d' j, active (<[Z.to_nat d := p']> (pdevs s)) d' j = put (active (pdevs s)) d i (Some (range_of d i (mk_pcibar type size a))) d' j.
Proof.
  intros Hp Hd Hfs Hal Hport Hmem p'. pose proof Hfs as [Hi Hn Hh].
  assert (Hen : porten p' = true /\ memen p' = true).
  { pose proof (cmd_added p i type size a f Hi) as E. unfold cmd_of in E. unfold porten, memen, p'. rewrite E. done. }
  assert (Hdec : forall j, is_bar j -> j <> i -> decodes p' j = decodes p j /\ (decodes p j = true -> bar_at p' j = bar_at p j)).
  { intros j Hj Hne. assert (Hat : bar_at p' j = bar_at p j \/
      (bar_type (bar_at p' j) = PCIBAR_MEMHI64 /\ bar_type (bar_at p j) = PCIBAR_NONE)).
    { unfold p'. rewrite bar_added_at, (proj2 (Z.eqb_neq j i)) by done.
      destruct (bool_decide_reflect (type = PCIBAR_MEM64)) as [E|]; cbn [andb]; [|by left].
      destruct (Z.eqb_spec j (i + 1)) as [->|]; [|by left]. right. split; [done|]. by destruct (Hh E). }
    unfold decodes. destruct Hen as [-> ->], Hat as [-> | [-> ->]]; by rewrite ?Hport, ?Hmem. }
  assert (Hme : decodes p' i = true).
  { unfold decodes, p'. rewrite bar_added_at, Z.eqb_refl by done. cbn [bar_type]. fold p'. destruct Hen as [H1 H2]. by destruct Hal as [->|[->| ->]]. }
  split; [done|]. intros d' j. rewrite active_step by done. unfold put. destruct (Z.eqb_spec d' d) as [->|]; cbn [andb]; [|done].
  destruct (Z.eqb_spec j i) as [->|Hne].
  - rewrite dev_active_some by done. unfold p'. by rewrite bar_added_at, Z.eqb_refl.
  - rewrite active_at by done. fold p. unfold dev_active. destruct (bool_decide_reflect (is_bar j)) as [Hj|]; [|done]. cbn [andb].
    destruct (Hdec j Hj Hne) as [-> Hb]. destruct (decodes p j); [|done]. by rewrite Hb.
Qed.

Lemma wp_put_bar d i f b (Q : unit -> S -> Prop) s : 0 <= d < ndevs s -> f (bar_at (get_pdev d s) i) = b ->
  length (pi_bar (get_pdev d s)) = 6%nat -> is_bar i ->
  Q tt (set_pdev d (put_bar i b (get_pdev d s)) s) -> wp (on_bar d i f) Q s.
Proof.
  intros Hd Hf Hl Hi HQ. apply wp_on_pdev; [done|].
  replace (get_pdev d s <| pi_bar ::= alter f (Z.to_nat i) |>) with (put_bar i b (get_pdev d s)); [done|].
  unfold put_bar, upd. f_equal. apply list_eq. intros n. rewrite !list_lookup_alter. case_decide; [|done].
  subst n. rewrite bar_lookup by done. cbn. by rewrite Hf.
Qed.

(** Configuration space and the registers of the device are filled in. *)
Lemma wp_fill d i type size a bar f (Q : unit -> S -> Prop) s (p := get_pdev d s) (p' := bar_added p i type size a f) :
  0 <= d < ndevs s -> dev_ok p -> free_slot p i type -> bar = a + f ->
  wp (register_bar d i ;;; ret 0) (fun r s' => r = 0 /\ Q tt s') (set_pdev d p' s) ->
  wp (on_bar d i (fun _ => mk_pcibar type size a) ;;;
      pci_set_cfgdata 4 d (PCIR_BAR i) (u32 bar) ;;;
      when (bool_decide (type = PCIBAR_MEM64))
        (KASSERT (i + 1 <=? PCI_BARMAX) ;;;
         on_bar d (i + 1) (fun b => b <| bar_type := PCIBAR_MEMHI64 |>) ;;;
         pci_set_cfgdata 4 d (PCIR_BAR (i + 1)) (Z.shiftr bar 32)) ;;;
      register_bar d i ;;; ret 0) (fun r s' => r = 0 /\ Q tt s') s.
Proof.
  intros Hd Hp Hfs -> HQ. pose proof Hfs as [Hi Hn Hh]. pose proof (dv_length p Hp) as Hl.
  apply wp_bind. apply (wp_put_bar d i _ (mk_pcibar type size a)); try done. rewrite set_pdev_step.
  apply wp_bind, wp_set_cfg; [by apply cfg_in_range4|by rewrite ndevs_step|]. rewrite get_step, set_pdev_step_step by done.
  fold p. set (p1 := put_cfg 4 (PCIR_BAR i) (u32 (a + f)) (put_bar i (mk_pcibar type size a) p)).
  change (put_bar i (mk_pcibar type size a) p <| pi_cfgdata ::= cfg_write 4 (PCIR_BAR i) (u32 (a + f)) |>) with p1.
  apply wp_bind, wp_when; intros E; unfold p', bar_added in HQ; rewrite E in HQ; fold p1 in HQ; [|exact HQ].
  apply bool_decide_eq_true in E. destruct (Hh E) as [Hlt _]. assert (Hi1 : is_bar (i + 1)) by (unfold is_bar in *; lia).
  assert (Hat : bar_at p1 (i + 1) = bar_at p (i + 1)).
  { unfold is_bar in Hi. change (bar_at p1 (i + 1)) with (bar_at (put_bar i (mk_pcibar type size a) p) (i + 1)).
    by rewrite put_bar_at, (proj2 (Z.eqb_neq (i + 1) i)) by (done || lia). }
  apply wp_bind, wp_KASSERT; [by apply Z.leb_le; lia|].
  apply wp_bind, (wp_put_bar d (i + 1) _ (bar_at p (i + 1) <| bar_type := PCIBAR_MEMHI64 |>)); rewrite ?get_step, ?ndevs_step by done; try done.
  - by rewrite Hat.
  - cbn. by rewrite length_alter.
  - rewrite set_pdev_step_step. apply wp_set_cfg; [by apply cfg_in_range4|by rewrite ndevs_step|].
    rewrite get_step, set_pdev_step_step by done. exact HQ.
Qed.

Section Fresh.
Context (d i : Z) (type : pcibar_type) (k : Z) (s : S).
Let w := window_of type (2 ^ k).
Let a := roundup2 (window_base w s) (2 ^ k).
Let p := get_pdev d s.
Let p' := bar_added p i type (2 ^ k) a (low_flags type (2 ^ k)).
Let r0 := range_of d i (mk_pcibar type (2 ^ k) a).
Context (Hs : pci_ok s) (Hal : alloc_ok s) (Hfree : windows_free) (Hd : 0 <= d < ndevs s) (Hfs : free_slot p i type)
  (Ht : allocatable type) (Hk : (if bool_decide (type = PCIBAR_IO) then 2 else 4) <= k <= 62) (Hfit : a + 2 ^ k <= limit_of w)
  (Hport : porten p = true) (Hmem : memen p = true).

Lemma fresh_fields : br_base r0 = a /\ br_size r0 = 2 ^ k /\ range_ok r0 /\
  br_space r0 = if bool_decide (type = PCIBAR_IO) then IoSpace else MemSpace.
Proof.
  destruct (fresh_range type k s Hal Ht Hk Hfit) as (Hsz & Hm & Ha & _). fold w a in Hm, Ha.
  assert (Hp : 0 < 2 ^ k) by (apply Z.pow_pos_nonneg; [done|]; destruct (bool_decide _); lia).
  unfold r0, range_of, range_ok. destruct Ht as [->|[->| ->]]; cbn [bar_type bar_addr bar_size br_base br_size br_space addr_bits size_ok] in *;
    rewrite ?bool_decide_true, ?bool_decide_false by done.
  - pose proof (aligned_fits k 16 a ltac:(lia) Hm Ha). assert (2 ^ k <= 2 ^ 16) by (apply Z.pow_le_mono_r; lia).
    rewrite !i32_small by lia. repeat split; lia.
  - pose proof (aligned_fits k 32 a ltac:(lia) Hm Ha). repeat split; lia.
  - pose proof (aligned_fits k 64 a ltac:(lia) Hm Ha). repeat split; lia.
Qed.

Lemma fresh_window : in_windows r0 /\ dec_free r0.
Proof.
  destruct fresh_fields as (Eb & Es & Hr & Esp). assert (Hin : in_windows r0); [|split; [done|by apply Hfree]].
  destruct (fresh_range type k s Hal Ht Hk Hfit) as (_ & _ & _ & Hb & _). fold w a in Hb. destruct Hal as [Hio [Hm1 Hm2] Hm6 _].
  unfold in_windows. rewrite Eb, Es, Esp. clearbody a. unfold w in *. destruct Ht as [->|[->| ->]]; cbn [window_of] in *;
    rewrite ?bool_decide_true, ?bool_decide_false by done; [|left|destruct (_ <? _); [right|left]]; cbn [window_base limit_of] in *; lia.
Qed.

Lemma fresh_apart d' i' r' : active (pdevs s) d' i' = Some r' -> apart r0 r'.
Proof.
  intros Hr'. pose proof (al_used s Hal d' i' r' Hr') as Hu. destruct fresh_fields as (Eb & Es & _ & Esp).
  destruct (fresh_range type k s Hal Ht Hk Hfit) as (_ & _ & _ & Hb & _). fold w a in Hb.
  destruct Hal as [Hio [Hm1 Hm2] Hm6 _]. intros E. rewrite <- E in Hu. rewrite Eb, Es. rewrite Esp in Hu. clearbody a.
  unfold PCI_EMUL_MEMLIMIT32, PCI_EMUL_ECFG_BASE, PCI_EMUL_MEMBASE64 in *.
  unfold w in *. destruct Ht as [->|[->| ->]]; cbn [window_of] in *; rewrite ?bool_decide_true, ?bool_decide_false in Hu by done;
    [|destruct Hu as [Hu|Hu]|destruct (_ <? _), Hu as [Hu|Hu]]; cbn [window_base limit_of] in *;
    unfold PCI_EMUL_MEMLIMIT32, PCI_EMUL_ECFG_BASE in *; lia.
Qed.

Local Abbreviation s1 := (set_window w (a + 2 ^ k) s).

Lemma fresh_active d' j : active (<[Z.to_nat d := p']> (pdevs s)) d' j = put (active (pdevs s)) d i (Some r0) d' j.
Proof. apply (active_added d i type (2 ^ k) a); try done. by apply get_pdev_ok. Qed.

Lemma fresh_dev : dev_ok p'.
Proof.
  destruct (fresh_range type k s Hal Ht Hk Hfit) as (Hsz & Hm & Ha & _). apply bar_added_ok; try done; [by apply get_pdev_ok|].
  by apply flags_ok.
Qed.

Lemma fresh_pci_ok w' : dec_holds w' (put (active (pdevs s)) d i (Some r0)) -> pci_ok (dev_step d p' w' (router s) s1).
Proof.
  intros Hw'. apply pci_ok_step; [by apply pci_ok_window|unfold ndevs; rewrite window_pdevs; exact Hd|exact fresh_dev| |]; rewrite window_pdevs.
  - refine (dec_ext _ _ _ _ Hw'). intros d' j. by rewrite fresh_active.
  - replace (ndevs s1) with (ndevs s) by (unfold ndevs; by rewrite window_pdevs).
    refine (lintr_ext _ _ _ _ _ (pk_lintr s Hs)). intros d' Hd'. rewrite permitted_step by (done || lia).
    destruct (Z.eqb_spec d' d) as [->|]; [|done]. unfold permitted. rewrite get_pdev_lookup by done. cbn [default]. fold p.
    pose proof (cmd_added p i type (2 ^ k) a (low_flags type (2 ^ k)) (fs_bar _ _ _ Hfs)) as E. unfold cmd_of in E.
    assert (Hm : pi_msi p' = pi_msi p /\ pi_msix p' = pi_msix p) by (unfold p', bar_added; destruct (bool_decide (type = PCIBAR_MEM64)); split; reflexivity).
    change (id p) with p. unfold pci_lintr_permitted. destruct Hm as [-> ->]. fold p' in E. by rewrite E.
Qed.

Lemma fresh_alloc_ok w' : alloc_ok (dev_step d p' w' (router s) s1).
Proof.
  destruct fresh_fields as (Eb & Es & _ & Esp). destruct (fresh_range type k s Hal Ht Hk Hfit) as (_ & _ & _ & Hb & _). fold w a in Hb.
  assert (Hp : 0 < 2 ^ k) by (apply Z.pow_pos_nonneg; [done|]; destruct (bool_decide _); lia).
  pose proof fresh_active as Hact. clearbody a p'. destruct Hal as [Hio [Hm1 Hm2] Hm6 Hu].
  assert (Hw : pci_emul_iobase s <= pci_emul_iobase s1 <= PCI_EMUL_IOLIMIT /\
    pci_emul_membase32 s <= pci_emul_membase32 s1 <= PCI_EMUL_MEMLIMIT32 /\
    pci_emul_membase64 s <= pci_emul_membase64 s1 <= PCI_EMUL_MEMLIMIT64 /\
    match br_space r0 with
    | IoSpace => a + 2 ^ k <= pci_emul_iobase s1
    | MemSpace => a + 2 ^ k <= pci_emul_membase32 s1 \/ (PCI_EMUL_MEMBASE64 <= a /\ a + 2 ^ k <= pci_emul_membase64 s1)
    end).
  { rewrite Esp. unfold w in *. destruct Ht as [->|[->| ->]]; cbn [window_of] in *;
      rewrite ?bool_decide_true, ?bool_decide_false by done; [| |destruct (_ <? _)]; cbn [window_base limit_of set_window] in *; cbn; lia. }
  destruct Hw as (H1 & H2 & H3 & H4).
  split; [cbn; lia|cbn; lia|cbn; lia|]. intros d' j r. cbn [pdevs]. change (pdevs (dev_step d p' w' (router s) s1)) with (<[Z.to_nat d := p']> (pdevs s1)).
  rewrite window_pdevs, Hact. unfold put. destruct ((d' =? d) && (j =? i)).
  - intros [= <-]. rewrite Eb, Es. exact H4.
  - intros Hr%Hu. destruct (br_space r); cbn; lia.
Qed.
End Fresh.

Lemma fresh_no_overlap d i r0 devs devs' : no_overlap devs ->
  (forall d' j, active devs' d' j = put (active devs) d i (Some r0) d' j) -> dec_free r0 ->
  (forall d' j r', active devs d' j = Some r' -> apart r0 r') -> no_overlap devs'.
Proof.
  intros [H1 H2] Hact Hf Hap. split.
  - intros d1 i1 r1 d2 i2 r2. rewrite !Hact. unfold put. intros E1 E2 Hne.
    destruct (Z.eqb_spec d1 d) as [->|], (Z.eqb_spec i1 i) as [->|]; cbn [andb] in E1;
    destruct (Z.eqb_spec d2 d) as [->|], (Z.eqb_spec i2 i) as [->|]; cbn [andb] in E2; simplify_eq; try tauto;
    try (by eapply Hap); try (by eapply H1); intros Hsp; apply or_comm; by eapply Hap.
  - intros d1 i1 r1. rewrite Hact. unfold put. destruct (_ && _); [by intros [= <-]|apply H2].
Qed.

(** What an allocation leaves. *)
Definition allocated (d i : Z) (type : pcibar_type) (n a : Z) (s s' : S) : Prop :=
  let r := range_of d i (mk_pcibar type n a) in
  bar_at (get_pdev d s') i = mk_pcibar type n a /\ in_windows r /\ a mod n = 0 /\
  (forall d' j, active (pdevs s') d' j = put (active (pdevs s)) d i (Some r) d' j) /\
  (forall d' j r', active (pdevs s) d' j = Some r' -> apart r r') /\ dec_free r.

Lemma wp_alloc_pbar d i type size k s (p := get_pdev d s) (w := window_of type (2 ^ k)) (a := roundup2 (window_base w s) (2 ^ k))
    (Q : Z -> S -> Prop) :
  pci_ok s -> alloc_ok s -> windows_free -> 0 <= d < ndevs s -> free_slot p i type -> allocatable type ->
  porten p = true -> memen p = true -> k <> 32 -> pbar_size type size = 2 ^ k ->
  (if bool_decide (type = PCIBAR_IO) then 2 else 4) <= k <= 62 ->
  (limit_of w < a + 2 ^ k -> Q (-1) s) ->
  (forall s', a + 2 ^ k <= limit_of w -> allocated d i type (2 ^ k) a s s' -> pci_ok s' -> alloc_ok s' ->
     window_base w s' = a + 2 ^ k -> Q 0 s') ->
  wp (pci_emul_alloc_bar d i type size) Q s.
Proof.
  intros Hs Hal Hfree Hd Hfs Ht Hport Hmem Hk32 Hsz Hk Hfull Hfit. pose proof (fs_bar _ _ _ Hfs) as Hi. unfold is_bar in Hi.
  assert (Hk0 : 0 <= k <= 62) by (destruct (bool_decide _); lia).
  unfold pci_emul_alloc_bar, pci_emul_alloc_pbar. apply wp_bind, wp_KASSERT; [apply andb_true_iff; split; apply Z.leb_le; lia|].
  rewrite Hsz. apply wp_bind, pbar_window_of; [done|done| |lia]. fold w. apply wp_bind.
  assert (Hb : 0 <= window_base w s <= 2 ^ 62).
  { destruct Hal as [Hio [Hm1 Hm2] Hm6 _]. unfold PCI_EMUL_IOBASE, PCI_EMUL_IOLIMIT, PCI_EMUL_MEMLIMIT32, PCI_EMUL_ECFG_BASE, PCI_EMUL_MEMBASE64, PCI_EMUL_MEMLIMIT64 in *.
    unfold w. destruct Ht as [->|[->| ->]]; cbn [window_of]; try split_if; cbn [window_base]; lia. }
  apply wp_resource; [done|done| |intros Hlt; apply wp_ret, Hfull, Hlt]. fold a. intros Hle.
  destruct (fresh_range type k s Hal Ht Hk Hle) as (Hso & Ham & Har & _). fold w a in Ham, Har.
  set (s1 := set_window w (a + 2 ^ k) s). set (f := low_flags type (2 ^ k)). set (p' := bar_added p i type (2 ^ k) a f).
  assert (Hg1 : get_pdev d s1 = p) by (unfold get_pdev, s1; by rewrite window_pdevs).
  assert (Hn1 : ndevs s1 = ndevs s) by (unfold ndevs, s1; by rewrite window_pdevs).
  refine (wp_conseq _ (fun r s' => r = 0 /\ Q 0 s') _ _ _ ltac:(intros r s' [-> HQ]; exact HQ)).
  apply (wp_fill d i type (2 ^ k) a _ f (fun _ => Q 0)); rewrite ?Hg1, ?Hn1; [done|by apply get_pdev_ok|done|by apply reg_value|].
  fold p'. rewrite set_pdev_step. set (s2 := dev_step d p' (decoder s1) (router s1) s1).
  assert (Hg2 : get_pdev d s2 = p') by (apply get_step; by rewrite Hn1).
  assert (Hat : bar_at p' i = mk_pcibar type (2 ^ k) a).
  { unfold p'. rewrite bar_added_at, Z.eqb_refl by (done || by apply get_pdev_ok). done. }
  destruct (fresh_fields d i type k s Hal Hfs Ht Hk Hle) as (_ & _ & Hr & _).
  destruct (fresh_window d i type k s Hal Hfree Hfs Ht Hk Hle) as [Hwin Hdf].
  pose proof (fresh_apart d i type k s Hal Hfs Ht Hk Hle) as Hap.
  apply wp_bind, (wp_register d i (active (pdevs s))); rewrite ?Hg2, ?Hat; try done.
  - unfold decodable. by destruct Ht as [->|[->| ->]].
  - change (decoder s2) with (decoder s1). unfold s1. rewrite window_decoder. exact (pk_dec s Hs).
  - rewrite active_at by done. fold p. apply dev_active_none. unfold decodes. by rewrite (fs_none _ _ _ Hfs).
  - intros w' Hw'. apply wp_ret. split; [done|].
    change (s2 <| decoder := w' |>) with (dev_step d p' w' (router s1) s1).
    replace (router s1) with (router s) by (unfold s1; by destruct w).
    apply Hfit; [done| |by apply fresh_pci_ok|by apply fresh_alloc_ok|unfold s1; unfold w; destruct Ht as [->|[->| ->]]; cbn [window_of]; try split_if; done].
    unfold allocated. rewrite get_step by (by rewrite Hn1). repeat split; try done.
    intros d' j. change (pdevs (dev_step d p' w' (router s) s1)) with (<[Z.to_nat d := p']> (pdevs s1)). unfold s1. rewrite window_pdevs.
    by apply fresh_active.
Qed.

(** C10: A device asks for a base address register of [size] bytes.  Its slot is
    free and its address spaces are enabled, as they are while the machine is
    set up.  The size is rounded up to a power of two, of at least 4 ports or
    16 bytes of memory; only a register of exactly 4 GB comes from elsewhere.
    When the window of its type has no room the result is -1 and nothing
    changes.  Otherwise the register decodes an aligned range inside the
    window, apart from every range that is registered, the table of ranges has
    it and no other new one, and the invariants hold: later allocations cannot
    collide either. *)
Theorem bar_allocated d i type size s (n := pbar_size type size) (w := window_of type n) (a := roundup2 (window_base w s) n) :
  pci_ok s -> alloc_ok s -> windows_free -> no_overlap (pdevs s) -> 0 <= d < ndevs s -> free_slot (get_pdev d s) i type ->
  allocatable type -> porten (get_pdev d s) = true -> memen (get_pdev d s) = true -> 0 < size <= 2 ^ 62 -> n <> 2 ^ 32 ->
  size <= n /\ (exists k, n = 2 ^ k /\ (if bool_decide (type = PCIBAR_IO) then 2 else 4) <= k) /\
  if limit_of w <? a + n then pci_emul_alloc_bar d i type size s = Return (-1, s)
  else exists s', pci_emul_alloc_bar d i type size s = Return (0, s') /\ allocated d i type n a s s' /\
    window_base w s' = a + n /\ pci_ok s' /\ alloc_ok s' /\ no_overlap (pdevs s').
Proof.
  intros Hs Hal Hfree Hno Hd Hfs Ht Hport Hmem Hsz Hn32. destruct (pbar_size_pow type size Hsz) as (k & Hk & Hkr & Hle). fold n in Hk.
  split; [lia|]. split; [exists k; destruct (bool_decide _); lia|].
  assert (Hk32 : k <> 32) by (intros ->; by rewrite Hk in Hn32).
  assert (Hwp : wp (pci_emul_alloc_bar d i type size) (fun r s' =>
    if limit_of w <? a + n then r = -1 /\ s' = s else r = 0 /\ allocated d i type n a s s' /\
    window_base w s' = a + n /\ pci_ok s' /\ alloc_ok s' /\ no_overlap (pdevs s')) s).
  { unfold a, w. rewrite Hk. apply (wp_alloc_pbar d i type size k); try done.
    - intros Hlt. by rewrite (proj2 (Z.ltb_lt _ _)).
    - intros s' Hfit Ha H1 H2 H3. rewrite (proj2 (Z.ltb_ge _ _)) by done. repeat (split; [done|]).
      destruct Ha as (_ & _ & _ & Hact & Hap & Hdf). by apply (fresh_no_overlap d i _ (pdevs s) (pdevs s') Hno Hact). }
  unfold wp in Hwp. destruct (pci_emul_alloc_bar d i type size s) as [[r s']| |]; try done.
  destruct (limit_of w <? a + n); [by destruct Hwp as [-> ->]|]. destruct Hwp as (-> & Hrest). by exists s'.
Qed.
End Alloc.
