(* ===== verification/PciMsix.v ===== *)
(** * The MSI-X table

    A device with MSI-X has a table of 16-byte entries that the guest reads and
    writes through a base address register.  The offsets come from the guest,
    so the accessors must never leave the allocation. *)

From S2P Require Import Prelude Effects PciCfg PciCaps PciBar.

Local Open Scope cmd_scope.

(** ** Slices of a list *)

Lemma slice_inserted {A} (a : nat) (l t : list A) : (a + length l <= length t)%nat ->
  take (length l) (drop a (list_inserts a l t)) = l.
Proof.
  intros Hl. apply list_eq. intros j. destruct (decide (j < length l)%nat).
  - rewrite lookup_take_lt, lookup_drop, list_lookup_inserts by lia. f_equal. lia.
  - rewrite lookup_take_ge, lookup_ge_None_2 by lia. done.
Qed.

Lemma slice_apart {A} (a o n : nat) (l t : list A) : (o + n <= a \/ a + length l <= o)%nat ->
  take n (drop o (list_inserts a l t)) = take n (drop o t).
Proof.
  intros Ho. apply list_eq. intros j. destruct (decide (j < n)%nat); [|by rewrite !lookup_take_ge by lia].
  rewrite !lookup_take_lt, !lookup_drop by lia.
  destruct Ho; [by rewrite list_lookup_inserts_lt by lia|by rewrite list_lookup_inserts_ge by lia].
Qed.

(** ** The table *)

(** The allocation holds the entries that the device has. *)
Record msix_table_ok (p : devinst) : Prop := {
  tk_count : 1 <= table_count (pi_msix p) <= MAX_MSIX_TABLE_ENTRIES;
  tk_table : exists t, msix_table (pi_msix p) = Some t /\ Z.of_nat (length t) = MSIX_TABLE_ENTRY_SIZE * table_count (pi_msix p);
}.

(** Accesses that reach the table: aligned and inside. *)
Definition in_table (p : devinst) (offset size : Z) : bool :=
  (offset mod size =? 0) && (offset <? MSIX_TABLE_ENTRY_SIZE * table_count (pi_msix p)).

Section Msix.
Context {R W : Type}.
Local Abbreviation S := (pci R W).
Implicit Types s : S.

Lemma table_index offset : offset in_u 35 ->
  i32 (offset / MSIX_TABLE_ENTRY_SIZE) = offset / 16 /\ i32 (offset / MSIX_TABLE_ENTRY_SIZE) * MSIX_TABLE_ENTRY_SIZE + offset mod MSIX_TABLE_ENTRY_SIZE = offset.
Proof.
  intros Ho. unfold MSIX_TABLE_ENTRY_SIZE. change (2 ^ 35) with 34359738368 in Ho.
  assert (0 <= offset / 16 < 2147483648) by (Z.div_mod_to_equations; lia). rewrite i32_small by lia.
  split; [done|]. Z.div_mod_to_equations. lia.
Qed.

Lemma entry_offset offset size : size = 1 \/ size = 4 \/ size = 8 -> (offset mod MSIX_TABLE_ENTRY_SIZE) mod size = offset mod size.
Proof. intros [->|[->| ->]]; unfold MSIX_TABLE_ENTRY_SIZE; Z.div_mod_to_equations; lia. Qed.

(** An aligned access that starts in the table ends there. *)
Lemma inside_table c offset size : size = 1 \/ size = 4 \/ size = 8 -> offset mod size = 0 -> offset < 16 * c -> offset + size <= 16 * c.
Proof. intros [->|[->| ->]] Hm Hlt; Z.div_mod_to_equations; lia. Qed.

(** The bytes of an access. *)
Definition slice (p : devinst) (offset size : Z) : Z :=
  le_combine (take (Z.to_nat size) (drop (Z.to_nat offset) (default [] (msix_table (pi_msix p))))).

(** A read in full: the table, the pending bits, which are zero, or all ones. *)
Lemma tread_spec d offset size s (p := get_pdev d s) : msix_table_ok p -> offset in_u 35 ->
  pci_emul_msix_tread d offset size s =
  Return (if negb ((size =? 1) || (size =? 4) || (size =? 8)) || negb (offset mod size =? 0) then 0xffffffffffffffff
          else if in_table p offset size then slice p offset size
          else if pci_valid_pba_offset (pi_msix p) offset then 0 else 0xffffffffffffffff, s).
Proof.
  intros [Hc (t & Ht & Hlen)] Ho. destruct (table_index offset Ho) as [E1 E2]. unfold pci_emul_msix_tread.
  destruct ((size =? 1) || (size =? 4) || (size =? 8)) eqn:Esz; cbn [negb orb]; [|done].
  assert (Hsz : size = 1 \/ size = 4 \/ size = 8) by lia. rewrite entry_offset by done.
  destruct (Z.eqb_spec (offset mod size) 0) as [Em|]; cbn [negb]; [|done].
  cbn [bind gets]. fold p. rewrite E2, E1. unfold in_table, slice. rewrite Em. cbn [andb]. unfold MSIX_TABLE_ENTRY_SIZE in *.
  replace (offset <? 16 * table_count (pi_msix p)) with (offset / 16 <? table_count (pi_msix p)).
  2:{ destruct (Z.ltb_spec (offset / 16) (table_count (pi_msix p))); symmetry; [apply Z.ltb_lt|apply Z.ltb_ge]; Z.div_mod_to_equations; lia. }
  destruct (Z.ltb_spec (offset / 16) (table_count (pi_msix p))) as [Hlt|]; [|done].
  assert (Hin : offset < 16 * table_count (pi_msix p)) by (Z.div_mod_to_equations; lia).
  pose proof (inside_table _ _ _ Hsz Em Hin). unfold table_load. rewrite Ht.
  rewrite (proj2 (Z.leb_le 0 offset)), (proj2 (Z.leb_le _ _)) by lia. done.
Qed.

(** What a write leaves of the device. *)
Definition table_written (p : devinst) (offset size value : Z) : devinst :=
  p <| pi_msix ::= fun m => m <| msix_table ::= fmap (list_inserts (Z.to_nat offset) (le_split (Z.to_nat size) value)) |> |>.

Lemma le_split_u32 v : le_split (Z.to_nat 4) (u32 v) = le_split (Z.to_nat 4) v.
Proof. exact (le_split_mod 4 v). Qed.

Lemma twrite_spec d offset size value s (p := get_pdev d s) : 0 <= d < ndevs s -> msix_table_ok p -> offset in_u 35 ->
  pci_emul_msix_twrite d offset size value s =
  if ((size =? 4) || (size =? 8)) && in_table p offset size
  then Return (0, set_pdev d (table_written p offset size value) s) else Return (-1, s).
Proof.
  intros Hd [Hc (t & Ht & Hlen)] Ho. destruct (table_index offset Ho) as [E1 E2]. unfold pci_emul_msix_twrite.
  destruct ((size =? 4) || (size =? 8)) eqn:Esz; cbn [negb andb]; [|done].
  assert (Hsz : size = 1 \/ size = 4 \/ size = 8) by lia. cbn [bind gets]. fold p. rewrite E2, E1. unfold in_table.
  pose proof (entry_offset offset size Hsz) as Eo. unfold MSIX_TABLE_ENTRY_SIZE in *.
  destruct (Z.leb_spec (table_count (pi_msix p)) (offset / 16)) as [Hge|Hlt].
  { rewrite (proj2 (Z.ltb_ge _ _)), andb_false_r by (Z.div_mod_to_equations; lia). done. }
  assert (Hin : offset < 16 * table_count (pi_msix p)) by (Z.div_mod_to_equations; lia).
  rewrite (proj2 (Z.ltb_lt _ _)), andb_true_r by lia. rewrite Eo.
  destruct (Z.eqb_spec (offset mod size) 0) as [Em|]; cbn [negb]; [|done].
  pose proof (inside_table _ _ _ Hsz Em Hin).
  assert (Hw : wp (table_store d offset size (if size =? 4 then u32 value else value) ;;; ret 0)
    (fun r s' => r = 0 /\ s' = set_pdev d (table_written p offset size value) s) s).
  { apply wp_bind. unfold table_store. apply wp_bind, wp_gets. fold p. rewrite Ht.
    apply wp_bind, wp_KASSERT; [apply andb_true_iff; split; apply Z.leb_le; lia|]. apply wp_on_pdev; [done|]. apply wp_ret. split; [done|].
    fold p. f_equal. unfold table_written, upd. rewrite Ht. cbn [fmap option_fmap option_map].
    destruct (Z.eqb_spec size 4) as [->|]; [by rewrite le_split_u32|done]. }
  unfold wp in Hw. match goal with |- ?c s = _ => destruct (c s) as [[r s']| |]; try done end. by destruct Hw as [-> ->].
Qed.

Lemma table_written_ok p offset size value : msix_table_ok p -> msix_table_ok (table_written p offset size value).
Proof.
  intros [Hc (t & Ht & Hlen)]. split; [done|]. unfold table_written, upd. cbn. rewrite Ht. cbn. eexists. split; [done|].
  by rewrite length_inserts.
Qed.

Lemma slice_written p offset size value : msix_table_ok p -> size = 4 \/ size = 8 -> 0 <= offset -> in_table p offset size = true ->
  slice (table_written p offset size value) offset size = value mod 2 ^ (8 * size).
Proof.
  intros [Hc (t & Ht & Hlen)] Hsz Ho Hin. unfold in_table, MSIX_TABLE_ENTRY_SIZE in *. bools.
  assert (Hend : offset + size <= 16 * table_count (pi_msix p)) by (apply inside_table; lia).
  unfold slice, table_written, upd. cbn [pi_msix msix_table]. rewrite Ht. cbn [fmap option_fmap option_map default].
  change (id ?x) with x. set (l := le_split (Z.to_nat size) value).
  replace (Z.to_nat size) with (length l) by apply length_le_split. rewrite slice_inserted.
  - unfold l. rewrite le_combine_split. do 2 f_equal. lia.
  - unfold l. rewrite length_le_split. lia.
Qed.

Lemma slice_other p offset size value o n : 0 <= offset -> 0 <= size -> 0 <= o -> 0 <= n -> o + n <= offset \/ offset + size <= o ->
  slice (table_written p offset size value) o n = slice p o n.
Proof.
  intros H1 H2 H3 H4 Ho. unfold slice, table_written, upd. cbn [pi_msix msix_table].
  destruct (msix_table (pi_msix p)) as [t|]; [|done]. cbn [fmap option_fmap option_map default]. change (id ?x) with x.
  rewrite slice_apart; [done|]. rewrite length_le_split. lia.
Qed.

(** C11: The guest writes [size] bytes at an [offset] of its choice in the
    register that holds the table.  The write has an effect, and the result 0,
    exactly when it is 4 or 8 bytes wide, aligned and starts inside the table;
    then it stays inside the allocation, reading the same place gives the
    value, every read that does not touch the place gives what it gave before,
    and the table keeps its size.  All other writes give -1 and leave the
    machine as it was.  No read or write, whatever its offset and width, runs
    out of the allocation. *)
Theorem msix_table_bounds d offset size value s (p := get_pdev d s)
    (hit := ((size =? 4) || (size =? 8)) && in_table p offset size) :
  0 <= d < ndevs s -> msix_table_ok p -> offset in_u 35 ->
  exists s', pci_emul_msix_twrite d offset size value s = Return (if hit then 0 else -1, s') /\
    msix_table_ok (get_pdev d s') /\ (hit = false -> s' = s) /\
    (hit = true -> pci_emul_msix_tread d offset size s' = Return (value mod 2 ^ (8 * size), s')) /\
    (forall o n, o in_u 35 -> exists v, pci_emul_msix_tread d o n s' = Return (v, s') /\
       (o + n <= offset \/ offset + size <= o -> pci_emul_msix_tread d o n s = Return (v, s))).
Proof.
  intros Hd Hp Ho. rewrite twrite_spec by done. fold p. fold hit. destruct hit eqn:Eh.
  - unfold hit in Eh. apply andb_true_iff in Eh as [Esz Hin]. assert (Hsz : size = 4 \/ size = 8) by lia.
    set (s' := set_pdev d (table_written p offset size value) s). exists s'.
    assert (Hg : get_pdev d s' = table_written p offset size value) by (by apply (get_step d _ (decoder s) (router s) s)).
    pose proof (table_written_ok p offset size value Hp) as Hp'. rewrite Hg. split; [done|]. split; [done|]. split; [done|]. split.
    + intros _. rewrite tread_spec by (rewrite ?Hg; done). rewrite Hg.
      replace (in_table (table_written p offset size value) offset size) with (in_table p offset size) by done.
      rewrite Hin, slice_written by (done || lia). unfold in_table in Hin. bools.
      replace ((size =? 1) || (size =? 4) || (size =? 8)) with true by lia. rewrite (proj2 (Z.eqb_eq (offset mod size) 0)) by lia. done.
    + intros o n Hon. rewrite !tread_spec by (rewrite ?Hg; done). rewrite Hg. eexists. split; [done|]. intros Hap. fold p. do 2 f_equal.
      replace (in_table (table_written p offset size value) o n) with (in_table p o n) by done.
      replace (pci_valid_pba_offset (pi_msix (table_written p offset size value)) o) with (pci_valid_pba_offset (pi_msix p) o) by done.
      destruct ((n =? 1) || (n =? 4) || (n =? 8)) eqn:En; cbn [negb orb]; [|done]. by rewrite slice_other by lia.
  - exists s. fold p. do 4 (split; [done|]). intros o n Hon. rewrite tread_spec by done. by eexists.
Qed.
End Msix.
