(* ===== verification/PciWire.v ===== *)
(** * The PCI bus wired to its neighbours

    The port table of [Inout] and the memory map of [MemRange] are what base
    address registers are registered with, and the router of [PciIrq] is what
    masks INTx.  Here they are shown to keep the promises ([DecoderLaws],
    [LintrLaws]) that the theorems about the bus rest on. *)

From stdpp Require Import sorting.
From S2P Require Import Prelude Effects VmmCommon Interface Inout MemRange PciIrq PciCfg PciCaps PciBar PciSafe.

Local Open Scope cmd_scope.

(** ** The port table and the memory map *)

(** Handlers of the bus: a device, by its ports; a device and its register. *)
Record decoders : Type := mk_decoders { io_table : Z -> ioentry Z; mem_table : memmap (Z * Z) }.
#[export] Instance eta_decoders : Eta decoders := fun w => mk_decoders (io_table w) (mem_table w).

Definition on_io {A} (c : cmd (Z -> ioentry Z) A) : cmd decoders A := fun w =>
  match c (io_table w) with Return (a, t) => Return (a, w <| io_table := t |>) | Panic => Panic | Hang => Hang end.
Definition on_mem {A} (c : cmd (memmap (Z * Z)) A) : cmd decoders A := fun w =>
  match c (mem_table w) with Return (a, t) => Return (a, w <| mem_table := t |>) | Panic => Panic | Hang => Hang end.

(** The name of a device is a string in its structure; the default handler's is
    the address 0. *)
Definition pi_name (d : Z) : Z := d + 1.
Definition iop_of (r : bar_range) : inout_port Z :=
  mk_iop (pi_name (br_dev r)) (br_base r) (br_size r) IOPORT_F_INOUT (DeviceFunc (br_dev r)).
Definition mem_of (r : bar_range) : mem_range (Z * Z) :=
  mk_mem_range (pi_name (br_dev r)) MEM_F_RW (br_dev r, br_idx r) (br_base r) (br_size r).

Definition is_io (r : bar_range) : bool := bool_decide (br_space r = IoSpace).

Section Tables.
Variables (RB_INSERT_COLOR : mmio_rb_tree (Z * Z) -> mmio_rb_tree (Z * Z))
  (RB_REMOVE : mmio_rb_range (Z * Z) -> mmio_rb_tree (Z * Z) -> mmio_rb_tree (Z * Z)).

(** What [modify_bar_registration] calls; a range that is removed is given
    without flags and handler. *)
Definition table_register (r : bar_range) : cmd decoders Z :=
  if is_io r then on_io (register_inout (iop_of r)) else on_mem (register_mem RB_INSERT_COLOR (mem_of r)).
Definition table_unregister (r : bar_range) : cmd decoders Z :=
  if is_io r then on_io (unregister_inout (mk_iop (pi_name (br_dev r)) (br_base r) (br_size r) 0 NullFunc))
  else on_mem (unregister_mem RB_REMOVE (mk_mem_range (pi_name (br_dev r)) 0 (0, 0) (br_base r) (br_size r))).

#[export] Instance tables : Decoder decoders := { dec_register := table_register; dec_unregister := table_unregister }.

Hypothesis color_inorder : forall t, inorder (RB_INSERT_COLOR t) = inorder t.
Hypothesis remove_inorder : forall t x pre post, ordered (inorder t) -> inorder t = pre ++ x :: post ->
  inorder (RB_REMOVE x t) = pre ++ post.

(** The ports and the memory of the chip set. *)
Context (static : list (inout_port Z)) (chip : list (mem_range (Z * Z))) (Hstatic : static_ok static).

Definition not_chip (r : bar_range) : Prop :=
  if is_io r then forall p, br_base r <= p < br_base r + br_size r -> existsb (fun x => iop_port x =? p) static = false
  else forall c, c ∈ chip -> m_base c + m_size c <= br_base r \/ br_base r + br_size r <= m_base c.

(** A node holds what its parameters say. *)
Definition node_ok (e : mmio_rb_range (Z * Z)) : Prop :=
  mr_base e = m_base (mr_param e) /\ mr_end e = m_base (mr_param e) + m_size (mr_param e) - 1.

(** The ranges [l] are registered. *)
Record tables_hold (w : decoders) (l : list bar_range) : Prop := {
  th_nodup : NoDup l;
  th_range r : r ∈ l -> range_ok r;
  th_io : table_ok static (map iop_of (List.filter is_io l)) (io_table w);
  th_mem : mem_ok (mem_table w);
  th_nodes e : e ∈ inorder (mmio_rb_root (mem_table w)) -> node_ok e;
  th_tree : map mr_param (inorder (mmio_rb_root (mem_table w))) ≡ₚ chip ++ map mem_of (List.filter (fun r => negb (is_io r)) l);
}.

Definition keyed (F : regs_map) (l : list bar_range) : Prop :=
  forall d i r, F d i = Some r <-> r ∈ l /\ br_dev r = d /\ br_idx r = i.

Lemma wp_on_io {A} (c : cmd (Z -> ioentry Z) A) (Q : A -> decoders -> Prop) w :
  wp c (fun a t => Q a (w <| io_table := t |>)) (io_table w) -> wp (on_io c) Q w.
Proof. unfold wp, on_io. by destruct (c (io_table w)) as [[a t]| |]. Qed.
Lemma wp_on_mem {A} (c : cmd (memmap (Z * Z)) A) (Q : A -> decoders -> Prop) w :
  wp c (fun a t => Q a (w <| mem_table := t |>)) (mem_table w) -> wp (on_mem c) Q w.
Proof. unfold wp, on_mem. by destruct (c (mem_table w)) as [[a t]| |]. Qed.

Lemma wp_return {S A} (c : cmd S A) (Q : A -> S -> Prop) s a s' : c s = Return (a, s') -> Q a s' -> wp c Q s.
Proof. unfold wp. by intros ->. Qed.

Lemma filter_list_elem (f : bar_range -> bool) l r : r ∈ List.filter f l <-> r ∈ l /\ f r = true.
Proof. by rewrite !list_elem_of_In, filter_In. Qed.

Lemma io_device r : is_io r = true -> range_ok r -> device_iop (iop_of r).
Proof.
  intros Hio (H1 & H2 & H3). apply bool_decide_eq_true in Hio. rewrite Hio in H3. split; [|done].
  unfold VERIFY_IOPORT, MAX_IOPORTS. cbn. change (2 ^ 16) with 65536 in H3. lia.
Qed.

Lemma io_free w l r : tables_hold w l -> is_io r = true -> not_chip r -> (forall r', r' ∈ l -> apart r r') ->
  can_register static (map iop_of (List.filter is_io l)) (iop_of r) = true.
Proof.
  intros Hw Hio Hfree Hap. apply can_register_spec. intros p Hp. unfold covers in Hp. cbn in Hp. bools.
  unfold unclaimed. unfold not_chip in Hfree. rewrite Hio in Hfree. rewrite (Hfree p), andb_true_r by lia.
  apply negb_true_iff, not_true_iff_false. intros (x & Hx & Hc)%existsb_exists. apply in_map_iff in Hx as (r' & <- & Hr').
  apply list_elem_of_In, filter_list_elem in Hr' as [Hr' Hio']. specialize (Hap r' Hr'). unfold covers in Hc. cbn in Hc. bools.
  unfold is_io in *. apply bool_decide_eq_true in Hio, Hio'. destruct (Hap ltac:(congruence)); lia.
Qed.

(** A range that is apart from the nodes of the tree. *)
Lemma mem_free w l r : tables_hold w l -> is_io r = false -> range_ok r -> not_chip r -> (forall r', r' ∈ l -> apart r r') ->
  forall e, e ∈ inorder (mmio_rb_root (mem_table w)) -> mr_end e < br_base r \/ br_base r + br_size r - 1 < mr_base e.
Proof.
  intros Hw Hio Hr Hfree Hap e He. destruct (th_nodes w l Hw e He) as [-> ->].
  assert (Hin : mr_param e ∈ chip ++ map mem_of (List.filter (fun r => negb (is_io r)) l)).
  { rewrite <- (th_tree w l Hw). apply list_elem_of_fmap. by exists e. }
  unfold not_chip in Hfree. rewrite Hio in Hfree. apply elem_of_app in Hin as [Hc|Hl].
  - destruct (Hfree _ Hc); lia.
  - apply list_elem_of_fmap in Hl as (r' & -> & [Hr' Hio']%filter_list_elem). specialize (Hap r' Hr'). apply negb_true_iff in Hio'.
    assert (E : br_space r = br_space r').
    { unfold is_io in *. apply bool_decide_eq_false in Hio, Hio'. by destruct (br_space r), (br_space r'). }
    cbn. destruct (Hap E); lia.
Qed.

Lemma wp_register_io w l r : tables_hold w l -> is_io r = true -> range_ok r -> not_chip r -> r ∉ l ->
  (forall r', r' ∈ l -> apart r r') -> wp (table_register r) (fun e w' => e = 0 /\ tables_hold w' (r :: l)) w.
Proof.
  intros Hw Hio Hr Hfree Hnew Hap. unfold table_register. rewrite Hio. apply wp_on_io.
  destruct (register_ok static _ (io_table w) (iop_of r) Hstatic (th_io w l Hw) (io_device r Hio Hr)) as (t' & E & Ht).
  rewrite (io_free w l r) in E, Ht by done. apply (wp_return _ _ _ _ _ E). split; [done|]. destruct Hw as [H1 H2 H3 H4 H5 H6]. split.
  - by constructor.
  - intros r' [->|Hr']%elem_of_cons; [done|by apply H2].
  - cbn [List.filter]. by rewrite Hio.
  - done.
  - done.
  - cbn [List.filter]. by rewrite Hio.
Qed.

Lemma wp_register_mem w l r : tables_hold w l -> is_io r = false -> range_ok r -> not_chip r -> r ∉ l ->
  (forall r', r' ∈ l -> apart r r') -> wp (table_register r) (fun e w' => e = 0 /\ tables_hold w' (r :: l)) w.
Proof.
  intros Hw Hio Hr Hfree Hnew Hap. unfold table_register. rewrite Hio. apply wp_on_mem.
  assert (Hfit : fits (mem_of r)).
  { destruct Hr as (R1 & R2 & R3). unfold fits. cbn. destruct (br_space r); [|done]. change (2 ^ 16) with 65536 in R3. lia. }
  destruct (register_run RB_INSERT_COLOR color_inorder false (mem_of r) (mem_table w) (th_mem w l Hw) Hfit)
    as (err & m' & E & Hreg & _ & _ & Hok).
  pose proof (mem_free w l r Hw Hio Hr Hfree Hap) as Hsep. unfold registered in Hreg. cbn [get_tree] in Hreg.
  destruct Hr as (R1 & R2 & R3).
  destruct (existsb _ _) eqn:Ex in Hreg.
  { exfalso. apply existsb_exists in Ex as (e & He & Hin). apply list_elem_of_In in He. unfold MemRange.in_range in Hin. cbn in Hin. bools.
    destruct (Hsep e He); lia. }
  destruct (bool_decide _) eqn:Eb in Hreg.
  { exfalso. apply bool_decide_eq_true, Exists_exists in Eb as (e & He & [O1 O2]). cbn in O1, O2. destruct (Hsep e He); lia. }
  destruct Hreg as [-> Hperm]. apply (wp_return _ _ _ _ _ E). split; [done|]. destruct Hw as [H1 H2 H3 H4 H5 H6]. split.
  - by constructor.
  - intros r' [->|Hr']%elem_of_cons; [done|by apply H2].
  - cbn [List.filter]. by rewrite Hio.
  - done.
  - cbn [mem_table]. intros e. rewrite Hperm. intros [->|He]%elem_of_cons; [done|by apply H5].
  - cbn [mem_table List.filter]. rewrite Hio. cbn [negb map]. rewrite Hperm. cbn [map mr_param]. rewrite H6. by rewrite Permutation_middle.
Qed.

Lemma filter_split (f : bar_range -> bool) l1 r l2 : List.filter f (l1 ++ r :: l2) =
  List.filter f l1 ++ (if f r then r :: List.filter f l2 else List.filter f l2).
Proof. rewrite List.filter_app. cbn [List.filter]. by destruct (f r). Qed.

Lemma rest_ok l1 r l2 : NoDup (l1 ++ r :: l2) -> (forall r', r' ∈ l1 ++ r :: l2 -> range_ok r') ->
  NoDup (l1 ++ l2) /\ (forall r', r' ∈ l1 ++ l2 -> range_ok r').
Proof.
  intros Hn Hr. rewrite <- Permutation_middle in Hn. apply NoDup_cons in Hn as [_ Hn]. split; [done|].
  intros r' Hr'. apply Hr. rewrite <- Permutation_middle. by right.
Qed.

Lemma wp_unregister_io w l1 r l2 : tables_hold w (l1 ++ r :: l2) -> is_io r = true ->
  wp (table_unregister r) (fun e w' => e = 0 /\ tables_hold w' (l1 ++ l2)) w.
Proof.
  intros Hw Hio. unfold table_unregister. rewrite Hio. apply wp_on_io. destruct Hw as [H1 H2 H3 H4 H5 H6].
  rewrite filter_split, Hio, map_app in H3. destruct (unregister_ok static _ (iop_of r) _ (io_table w) Hstatic H3) as (t' & E & Ht).
  apply (wp_return _ _ _ _ _ E). split; [done|]. destruct (rest_ok l1 r l2 H1 H2) as [H7 H8]. split; try done.
  - by rewrite List.filter_app, map_app.
  - rewrite filter_split, Hio in H6. cbn [negb] in H6. by rewrite List.filter_app.
Qed.

(** The node of a range that is registered. *)
Lemma node_of w l1 r l2 : tables_hold w (l1 ++ r :: l2) -> is_io r = false ->
  exists pre e post, inorder (mmio_rb_root (mem_table w)) = pre ++ e :: post /\ mr_param e = mem_of r /\
    map mr_param (pre ++ post) ≡ₚ chip ++ map mem_of (List.filter (fun r => negb (is_io r)) (l1 ++ l2)).
Proof.
  intros Hw Hio. pose proof (th_tree w _ Hw) as Ht. rewrite filter_split, Hio, map_app in Ht. cbn [negb map] in Ht.
  assert (Hin : mem_of r ∈ map mr_param (inorder (mmio_rb_root (mem_table w)))).
  { rewrite Ht, !elem_of_app, elem_of_cons. auto. }
  apply list_elem_of_fmap in Hin as (e & Ee & He). apply list_elem_of_split in He as (pre & post & Esp). exists pre, e, post.
  split; [done|]. split; [done|]. rewrite Esp, map_app in Ht. cbn [map] in Ht. rewrite <- Ee in Ht.
  rewrite List.filter_app, !map_app. apply (Permutation_cons_inv (a := mem_of r)).
  rewrite !Permutation_middle. rewrite Ht. done.
Qed.

Lemma wp_unregister_mem w l1 r l2 : tables_hold w (l1 ++ r :: l2) -> is_io r = false ->
  wp (table_unregister r) (fun e w' => e = 0 /\ tables_hold w' (l1 ++ l2)) w.
Proof.
  intros Hw Hio. unfold table_unregister. rewrite Hio. apply wp_on_mem.
  destruct (node_of w l1 r l2 Hw Hio) as (pre & e & post & Esp & Ee & Hrest).
  set (gone := mk_mem_range (pi_name (br_dev r)) 0 (0, 0) (br_base r) (br_size r)).
  assert (Hr : range_ok r) by (apply (th_range w _ Hw); rewrite elem_of_app, elem_of_cons; auto). destruct Hr as (R1 & R2 & R3).
  pose proof (m_root _ (th_mem w _ Hw)) as Hord.
  assert (Hein : e ∈ inorder (mmio_rb_root (mem_table w))) by (rewrite Esp, elem_of_app, elem_of_cons; auto).
  destruct (th_nodes w _ Hw e Hein) as [Eb En]. rewrite Ee in Eb, En. cbn in Eb, En.
  assert (Hhit : MemRange.in_range (br_base r) e = true) by (unfold MemRange.in_range; lia).
  assert (Honly : forall x, x ∈ inorder (mmio_rb_root (mem_table w)) -> MemRange.in_range (br_base r) x = true -> x = e).
  { intros x Hx Hin. apply (ordered_disjoint (inorder (mmio_rb_root (mem_table w)))); try done.
    unfold MemRange.in_range, overlaps in *. lia. }
  destruct (unregister_run RB_REMOVE remove_inorder gone (mem_table w) (th_mem w _ Hw)) as (m' & E & Hin & _ & Hok).
  { intros x Hx Hxin. cbn in Hxin. rewrite (Honly x Hx Hxin), Ee. done. }
  cbn [m_base gone] in E, Hin. assert (Ex : existsb (MemRange.in_range (br_base r)) (inorder (mmio_rb_root (mem_table w))) = true).
  { apply existsb_exists. exists e. by rewrite <- list_elem_of_In. }
  rewrite Ex in E. apply (wp_return _ _ _ _ _ E). split; [done|]. destruct Hw as [H1 H2 H3 H4 H5 H6].
  assert (Hpp : inorder (mmio_rb_root m') = pre ++ post).
  { rewrite Hin, Esp, List.filter_app. cbn [List.filter]. rewrite Hhit. cbn [negb]. rewrite <- List.filter_app. apply filter_all.
    intros y Hy. apply negb_true_iff, not_true_is_false. intros Hiny. rewrite Esp in Hord. apply (ordered_once _ _ _ Hord).
    rewrite <- (Honly y); [done| |done]. rewrite Esp, elem_of_app, elem_of_cons. apply elem_of_app in Hy. tauto. }
  destruct (rest_ok l1 r l2 H1 H2) as [H7 H8]. split; try done.
  - rewrite filter_split, Hio in H3. by rewrite List.filter_app.
  - change (mem_table (w <| mem_table := m' |>)) with m'. rewrite Hpp. intros x Hx. apply H5. rewrite Esp, elem_of_app, elem_of_cons. apply elem_of_app in Hx. tauto.
  - change (mem_table (w <| mem_table := m' |>)) with m'. by rewrite Hpp.
Qed.

(** What is registered, as the theorems about the bus see it. *)
Definition tables_holds (w : decoders) (F : regs_map) : Prop := exists l, keyed F l /\ tables_hold w l.

Lemma register_holds w F r : tables_holds w F -> F (br_dev r) (br_idx r) = None -> range_ok r -> not_chip r ->
  (forall d i r', F d i = Some r' -> apart r r') ->
  wp (table_register r) (fun e w' => e = 0 /\ tables_holds w' (put F (br_dev r) (br_idx r) (Some r))) w.
Proof.
  intros (l & Hk & Hw) Hnone Hr Hfree Hap.
  assert (Hkey : forall r', r' ∈ l -> F (br_dev r') (br_idx r') = Some r') by (intros r' Hr'; by apply Hk).
  assert (Hnew : r ∉ l) by (intros Hin; rewrite (Hkey r Hin) in Hnone; done).
  assert (Hap' : forall r', r' ∈ l -> apart r r') by (intros r' Hr'; by eapply Hap, Hkey).
  apply (wp_conseq _ (fun e w' => e = 0 /\ tables_hold w' (r :: l))).
  { destruct (is_io r) eqn:E; [by apply wp_register_io|by apply wp_register_mem]. }
  intros e w' [-> Hw']. split; [done|]. exists (r :: l). split; [|done]. intros d i r'. unfold put. rewrite elem_of_cons.
  destruct (Z.eqb_spec d (br_dev r)) as [->|], (Z.eqb_spec i (br_idx r)) as [->|]; cbn [andb]; split.
  - intros [= <-]. auto.
  - intros ([->|Hin] & E1 & E2); [done|]. pose proof (Hkey r' Hin) as E. rewrite E1, E2 in E. congruence.
  - intros (Hin & ? & ?)%Hk. auto.
  - intros ([->|Hin] & E1 & E2); [congruence|]. by apply Hk.
  - intros (Hin & ? & ?)%Hk. auto.
  - intros ([->|Hin] & E1 & E2); [congruence|]. by apply Hk.
  - intros (Hin & ? & ?)%Hk. auto.
  - intros ([->|Hin] & E1 & E2); [congruence|]. by apply Hk.
Qed.

Lemma unregister_holds w F r : tables_holds w F -> F (br_dev r) (br_idx r) = Some r ->
  wp (table_unregister r) (fun e w' => e = 0 /\ tables_holds w' (put F (br_dev r) (br_idx r) None)) w.
Proof.
  intros (l & Hk & Hw) Hsome. destruct (proj1 (Hk _ _ _) Hsome) as (Hin & _).
  apply list_elem_of_split in Hin as (l1 & l2 & ->).
  apply (wp_conseq _ (fun e w' => e = 0 /\ tables_hold w' (l1 ++ l2))).
  { destruct (is_io r) eqn:E; [by apply wp_unregister_io|by apply wp_unregister_mem]. }
  intros e w' [-> Hw']. split; [done|]. exists (l1 ++ l2). split; [|done].
  pose proof (th_nodup w _ Hw) as Hn. rewrite <- Permutation_middle in Hn. apply NoDup_cons in Hn as [Hni _].
  assert (Hmem : forall r', r' ∈ l1 ++ r :: l2 <-> r' = r \/ r' ∈ l1 ++ l2) by (intros r'; rewrite <- Permutation_middle, elem_of_cons; done).
  assert (Hother : forall d i r', (d <> br_dev r \/ i <> br_idx r) -> F d i = Some r' <-> r' ∈ l1 ++ l2 /\ br_dev r' = d /\ br_idx r' = i).
  { intros d i r' Hne. rewrite (Hk d i r'), Hmem. split; [|by intros (Hr' & E1 & E2); auto]. intros ([->|Hr'] & E1 & E2); [|done]. subst. tauto. }
  intros d i r'. unfold put. destruct (Z.eqb_spec d (br_dev r)) as [->|], (Z.eqb_spec i (br_idx r)) as [->|]; cbn [andb]; auto.
  split; [done|]. intros (Hr' & E1 & E2). assert (F (br_dev r) (br_idx r) = Some r') by (apply Hk; rewrite Hmem; auto).
  assert (r' = r) by congruence. by subst.
Qed.

#[export] Instance tables_laws : DecoderLaws decoders.
Proof.
  refine {| dec_holds := tables_holds; dec_free := not_chip; dec_register_ok := register_holds; dec_unregister_ok := unregister_holds |}.
  intros w F G HFG (l & Hk & Hw). exists l. split; [|done]. intros d i r. by rewrite <- HFG.
Defined.

(** ** Where an access goes *)

Definition io_owner (F : regs_map) (p : Z) (d i : Z) : Prop :=
  exists r, F d i = Some r /\ br_space r = IoSpace /\ br_base r <= p < br_base r + br_size r.
Definition mem_owner (F : regs_map) (a : Z) (d i : Z) : Prop :=
  exists r, F d i = Some r /\ br_space r = MemSpace /\ br_base r <= a < br_base r + br_size r.

Lemma io_dispatch w F p : tables_holds w F -> 0 <= p < MAX_IOPORTS ->
  (forall d i, io_owner F p d i -> io_table w p = mk_ioentry (pi_name d) IOPORT_F_INOUT (DeviceFunc d)) /\
  ((forall d i, ~ io_owner F p d i) -> io_table w p = dispatch static [] p).
Proof.
  intros (l & Hk & Hw) Hp. pose proof (th_io w l Hw) as Ht. rewrite (tb_dispatch _ _ _ Ht) by done. unfold dispatch. split.
  - intros d i (r & (Hin & Hd & Hi)%Hk & Hsp & Hpr). assert (Hio : is_io r = true) by (by apply bool_decide_eq_true).
    destruct (List.find _ _) as [x|] eqn:E.
    + apply List.find_some in E as [Hx Hc]. apply in_map_iff in Hx as (r' & <- & Hr'). apply list_elem_of_In in Hr'.
      assert (Hsub : r ∈ List.filter is_io l) by (by apply filter_list_elem).
      apply list_elem_of_split in Hr' as (l1 & l2 & El). pose proof (tb_apart _ _ _ Ht) as Hap. rewrite El, map_app in Hap.
      apply fop_middle in Hap as (_ & H1 & H2). rewrite El in Hsub. rewrite List.Forall_forall in H1, H2.
      assert (Hcr : covers p (iop_of r) = true) by (unfold covers; cbn; lia).
      apply elem_of_app in Hsub as [Hs|[Hs|Hs]%elem_of_cons]; [exfalso|by subst|exfalso].
      * apply (H1 (iop_of r)) with p; [apply in_map; by apply list_elem_of_In|done|done].
      * apply (H2 (iop_of r)) with p; [apply in_map; by apply list_elem_of_In|done|done].
    + exfalso. pose proof (List.find_none _ _ E (iop_of r)) as Hn.
      assert (Hcr : covers p (iop_of r) = true) by (unfold covers; cbn; lia). rewrite Hn in Hcr; [done|].
      apply in_map, list_elem_of_In, filter_list_elem. done.
  - intros Hno. destruct (List.find _ _) as [x|] eqn:E; [exfalso|done]. apply List.find_some in E as [Hx Hc].
    apply in_map_iff in Hx as (r & <- & Hr). apply list_elem_of_In, filter_list_elem in Hr as [Hr Hio].
    apply (Hno (br_dev r) (br_idx r)). exists r. split; [by apply Hk|]. apply bool_decide_eq_true in Hio. split; [done|].
    unfold covers in Hc. cbn in Hc. lia.
Qed.

Lemma mem_dispatches w F q a : tables_holds w F ->
  (forall d i, mem_owner F a d i -> m_handler ∘ mr_param <$> mmio_rb_lookup q (mmio_rb_root (mem_table w)) a = Some (d, i)) /\
  ((forall d i, ~ mem_owner F a d i) -> (forall c, c ∈ chip -> ~ (m_base c <= a < m_base c + m_size c)) ->
   mmio_rb_lookup q (mmio_rb_root (mem_table w)) a = None).
Proof.
  intros (l & Hk & Hw). pose proof (m_root _ (th_mem w l Hw)) as Hord. rewrite lookup_find by done. split.
  - intros d i (r & (Hin & Hd & Hi)%Hk & Hsp & Har). assert (Hio : is_io r = false) by (apply bool_decide_eq_false; by rewrite Hsp).
    apply list_elem_of_split in Hin as (l1 & l2 & ->). destruct (node_of w l1 r l2 Hw Hio) as (pre & e & post & Esp & Ee & _).
    assert (Hein : e ∈ inorder (mmio_rb_root (mem_table w))) by (rewrite Esp, elem_of_app, elem_of_cons; auto).
    destruct (th_nodes w _ Hw e Hein) as [Eb En]. rewrite Ee in Eb, En. cbn in Eb, En.
    rewrite (find_in_range _ a e Hord Hein) by (unfold MemRange.in_range; lia). cbn. rewrite Ee. cbn. by subst.
  - intros Hno Hch. destruct (List.find _ _) as [e|] eqn:E; [exfalso|done]. apply List.find_some in E as [He Hin].
    apply list_elem_of_In in He. destruct (th_nodes w l Hw e He) as [Eb En].
    assert (Hp : mr_param e ∈ chip ++ map mem_of (List.filter (fun r => negb (is_io r)) l)).
    { rewrite <- (th_tree w l Hw). apply list_elem_of_fmap. by exists e. }
    unfold MemRange.in_range in Hin. apply elem_of_app in Hp as [Hc|Hl]; [apply (Hch _ Hc); lia|].
    apply list_elem_of_fmap in Hl as (r & Er & [Hr Hio]%filter_list_elem). rewrite Er in Eb, En. cbn in Eb, En.
    apply (Hno (br_dev r) (br_idx r)). exists r. split; [by apply Hk|]. apply negb_true_iff, bool_decide_eq_false in Hio.
    split; [by destruct (br_space r)|]. lia.
Qed.

(** The same through the range a vCPU has at hand. *)
Lemma emulate_owner w F a d i q vcpu emulate : tables_holds w F -> 0 <= vcpu < VM_MAXCPU -> mem_owner F a d i ->
  exists e m, emulate_mem q vcpu a emulate (mem_table w) = emulate e m /\ m_handler (mr_param e) = (d, i).
Proof.
  intros Hw Hv Ho. destruct (mem_dispatches w F q a Hw) as [Hm _]. specialize (Hm d i Ho). destruct Hw as (l & Hk & Hw).
  destruct (lookup_run q vcpu a (mem_table w) (th_mem w l Hw) Hv) as (m & E & _).
  rewrite lookup_find in Hm by apply (th_mem w l Hw). unfold serves in E.
  destruct (List.find _ (inorder (mmio_rb_root (mem_table w)))) as [e|]; [|done]. injection Hm as Hm.
  exists e, m. split; [|done]. unfold emulate_mem. by rewrite (bind_return _ _ _ _ _ E).
Qed.

Lemma emulate_free w F a q vcpu emulate : tables_holds w F -> 0 <= vcpu < VM_MAXCPU -> (forall d i, ~ mem_owner F a d i) ->
  (forall c, c ∈ chip -> ~ (m_base c <= a < m_base c + m_size c)) ->
  exists m, emulate_mem q vcpu a emulate (mem_table w) =
    match List.find (MemRange.in_range a) (inorder (mmio_rb_fallback (mem_table w))) with Some e => emulate e m | None => Return (ESRCH, m) end.
Proof.
  intros Hw Hv Hno Hch. destruct (mem_dispatches w F q a Hw) as [_ Hm]. specialize (Hm Hno Hch). destruct Hw as (l & Hk & Hw).
  destruct (lookup_run q vcpu a (mem_table w) (th_mem w l Hw) Hv) as (m & E & _).
  rewrite lookup_find in Hm by apply (th_mem w l Hw). unfold serves in E. rewrite Hm in E.
  exists m. unfold emulate_mem. rewrite (bind_return _ _ _ _ _ E).
  destruct (List.find _ (inorder (mmio_rb_fallback (mem_table w)))); reflexivity.
Qed.

Lemma io_port_range w F d i r p : tables_holds w F -> F d i = Some r -> br_space r = IoSpace ->
  br_base r <= p < br_base r + br_size r -> 0 <= p < MAX_IOPORTS.
Proof.
  intros (l & Hk & Hw) (Hin & _)%Hk Hsp Hp. destruct (th_range w l Hw r Hin) as (H1 & H2 & H3). rewrite Hsp in H3.
  change (2 ^ 16) with MAX_IOPORTS in H3. lia.
Qed.

(** Two registered port ranges do not share a port. *)
Lemma io_owner_unique w F p d i d' i' : tables_holds w F -> io_owner F p d i -> io_owner F p d' i' -> d = d' /\ i = i'.
Proof.
  intros (l & Hk & Hw) (r & (Hin & <- & <-)%Hk & Hsp & Hpr) (r' & (Hin' & <- & <-)%Hk & Hsp' & Hpr').
  pose proof (tb_apart _ _ _ (th_io w l Hw)) as Hap.
  assert (Hf : r ∈ List.filter is_io l) by (apply filter_list_elem; split; [done|by apply bool_decide_eq_true]).
  assert (Hf' : r' ∈ List.filter is_io l) by (apply filter_list_elem; split; [done|by apply bool_decide_eq_true]).
  apply list_elem_of_split in Hf as (l1 & l2 & El). rewrite El, map_app in Hap. apply fop_middle in Hap as (_ & H1 & H2).
  rewrite El in Hf'. rewrite List.Forall_forall in H1, H2.
  assert (Hc : covers p (iop_of r) = true) by (unfold covers; cbn; lia).
  assert (Hc' : covers p (iop_of r') = true) by (unfold covers; cbn; lia).
  apply elem_of_app in Hf' as [Hs|[Hs|Hs]%elem_of_cons]; [exfalso|by subst|exfalso].
  - apply (H1 (iop_of r')) with p; [apply in_map; by apply list_elem_of_In|done|done].
  - apply (H2 (iop_of r')) with p; [apply in_map; by apply list_elem_of_In|done|done].
Qed.

Lemma io_bars_first p n k bars j b : bars !! j = Some b -> io_bar_hit p n b = true ->
  (forall j' b', (j' < j)%nat -> bars !! j' = Some b' -> io_bar_hit p n b' = false) -> io_bars p n k bars = Some (k + Z.of_nat j, b).
Proof.
  revert k j. induction bars as [|x bars IH]; intros k [|j] Hj Hb Hno; try done; cbn [io_bars].
  - injection Hj as ->. rewrite Hb. by rewrite Z.add_0_r.
  - rewrite (Hno 0%nat x) by (done || lia). rewrite (IH (k + 1) j Hj Hb); [do 2 f_equal; lia|].
    intros j' b' Hlt Hb'. by apply (Hno (S j') b'); [lia|].
Qed.

(** ** Executions

    The configuration accesses of the guest, and its accesses to memory, whose
    ranges the vCPUs keep at hand. *)
Section Bus.
Context {R : Type} `{!Lintr R, !LintrLaws R}.
Context (pe_cfgread : Z -> option (Z -> Z -> Z -> cmd (pci R decoders) (bool * Z)))
  (pe_cfgwrite : Z -> option (Z -> Z -> Z -> cmd (pci R decoders) Z)).
Implicit Types s : pci R decoders.

Inductive bus_step : pci R decoders -> pci R decoders -> Prop :=
| bs_config s s' : pci_step pe_cfgread pe_cfgwrite s s' -> bus_step s s'
| bs_memory q vcpu a e m s : 0 <= vcpu < VM_MAXCPU -> emulate_lookup q vcpu a (mem_table (decoder s)) = Return (e, m) ->
    bus_step s (s <| decoder ::= fun w => w <| mem_table := m |> |>).

Lemma lookup_holds w F q vcpu a e m : tables_holds w F -> 0 <= vcpu < VM_MAXCPU ->
  emulate_lookup q vcpu a (mem_table w) = Return (e, m) -> tables_holds (w <| mem_table := m |>) F.
Proof.
  intros (l & Hk & []) Hv E. exists l. split; [done|].
  destruct (lookup_run q vcpu a (mem_table w) ltac:(done) Hv) as (m' & E' & Er & _ & Hm). rewrite E' in E. injection E as <- <-.
  split; try done; change (mem_table (w <| mem_table := m' |>)) with m'; by rewrite Er.
Qed.

Lemma bus_reachable s0 s : emulation_ok pe_cfgread pe_cfgwrite -> pci_ok s0 -> own_plain pe_cfgwrite s0 -> rtc bus_step s0 s -> pci_ok s.
Proof.
  intros Hem H0 Hc Hr. enough (H : bus_ok pe_cfgwrite s) by apply H. assert (H : bus_ok pe_cfgwrite s0) by done. clear H0 Hc. revert H.
  induction Hr as [|x y z Hs _ IH]; [done|]. intros H. apply IH. destruct Hs as [s s' Hs|q vcpu a e m s Hv E].
  - apply (pci_reachable pe_cfgread pe_cfgwrite Hem s s' H). by apply rtc_once.
  - destruct H as [[] Hc]. split; [|done]. split; try done. by apply (lookup_holds (decoder s) _ q vcpu a e).
Qed.

(** The register behind an active range. *)
Lemma active_bar d i r s : pci_ok s -> active (pdevs s) d i = Some r ->
  0 <= d < ndevs s /\ is_bar i /\ decodes (get_pdev d s) i = true /\ r = range_of d i (bar_at (get_pdev d s) i).
Proof.
  intros Hs. unfold active. destruct (Z.leb_spec 0 d); [|done]. destruct (pdevs s !! Z.to_nat d) as [p|] eqn:E; [|done].
  pose proof (lookup_lt_Some _ _ _ E). unfold get_pdev. rewrite E. cbn [default from_option id]. unfold dev_active.
  destruct (bool_decide_reflect (is_bar i)); [|done]. destruct (decodes p i); [|done]. intros [= <-]. unfold ndevs. split_and!; done || lia.
Qed.

Lemma active_of d i s : 0 <= d < ndevs s -> is_bar i -> decodes (get_pdev d s) i = true ->
  active (pdevs s) d i = Some (range_of d i (bar_at (get_pdev d s) i)).
Proof.
  intros Hd Hi Hc. unfold active. rewrite (proj2 (Z.leb_le 0 d)), (get_pdev_lookup d s Hd) by lia. unfold dev_active.
  by rewrite bool_decide_eq_true_2, Hc.
Qed.

(** A port register as its range shows it. *)
Lemma io_range d i s : dev_ok (get_pdev d s) -> is_bar i -> bar_type (bar_at (get_pdev d s) i) = PCIBAR_IO ->
  let b := bar_at (get_pdev d s) i in let r := range_of d i b in
  br_space r = IoSpace /\ br_base r = bar_addr b /\ br_size r = bar_size b.
Proof.
  intros Hp Hi Ht b r. pose proof (dv_bars _ Hp i Hi) as Hb. unfold bar_ok in Hb. cbv zeta in Hb. rewrite Ht in Hb.
  destruct Hb as (k & E & Hk & _ & Ha & _). unfold r, range_of. fold b in Ht, E, Ha. rewrite Ht. cbn. split; [done|].
  assert (0 < bar_size b <= 2 ^ 16) by (rewrite E; split; [lia|apply Z.pow_le_mono_r; lia]).
  change (2 ^ 16) with 65536 in *. rewrite !i32_small by lia. done.
Qed.

Lemma space_io p d i : decodes p i = true -> br_space (range_of d i (bar_at p i)) = IoSpace -> bar_type (bar_at p i) = PCIBAR_IO.
Proof. unfold decodes, range_of. by destruct (bar_type (bar_at p i)). Qed.

Context (pe_barread : Z -> Z -> Z -> Z -> cmd (pci R decoders) Z) (pe_barwrite : Z -> Z -> Z -> Z -> Z -> cmd (pci R decoders) unit).

(** [pci_emul_io_handler] picks the register of the access. *)
Lemma io_handler_bar s d i r p n input eax : pci_ok s -> active (pdevs s) d i = Some r -> br_space r = IoSpace ->
  br_base r <= p -> 0 < n -> p + n <= br_base r + br_size r ->
  pci_emul_io_handler pe_barread pe_barwrite d input p n eax s =
  (if input then v <- pe_barread d i (p - br_base r) n ;; ret (0, u32 v)
   else pe_barwrite d i (p - br_base r) n eax ;;; ret (0, eax)) s.
Proof.
  intros Hs Ha Hsp H1 Hn H2. destruct (active_bar d i r s Hs Ha) as (Hd & Hi & Hdc & ->). pose proof (get_pdev_ok d s Hs Hd) as Hp.
  pose proof (space_io _ d i Hdc Hsp) as Ht. destruct (io_range d i s Hp Hi Ht) as (_ & Eb & Es). rewrite Eb, Es in *.
  unfold pci_emul_io_handler. rewrite (bind_return _ _ s (get_pdev d s) s) by done.
  assert (Hpor : forall j, is_bar j -> bar_type (bar_at (get_pdev d s) j) = PCIBAR_IO -> decodes (get_pdev d s) j = true).
  { intros j _ Hj. unfold decodes in *. by rewrite Hj, Ht in *. }
  rewrite (io_bars_first p n 0 (pi_bar (get_pdev d s)) (Z.to_nat i) (bar_at (get_pdev d s) i)).
  - rewrite Z.add_0_l, Z2Nat.id by (unfold is_bar in Hi; lia). by destruct input.
  - unfold bar_at. unfold is_bar, PCI_BARMAX in Hi.
    destruct (lookup_lt_is_Some_2 (pi_bar (get_pdev d s)) (Z.to_nat i)) as [b E]; [rewrite (dv_length _ Hp); lia|]. by rewrite E.
  - unfold io_bar_hit. rewrite bool_decide_eq_true_2 by done. lia.
  - intros j b Hlt Hj. apply not_true_is_false. unfold io_bar_hit. intros [Htj%bool_decide_eq_true Hh]%andb_prop.
    assert (Hbj : bar_at (get_pdev d s) (Z.of_nat j) = b) by (unfold bar_at; by rewrite Nat2Z.id, Hj).
    assert (Hij : is_bar (Z.of_nat j)) by (unfold is_bar in *; lia). rewrite <- Hbj in Htj, Hh.
    destruct (io_range d _ s Hp Hij Htj) as (Sj & Bj & Zj).
    destruct (io_owner_unique (decoder s) (active (pdevs s)) p d i d (Z.of_nat j) (pk_dec s Hs)) as [_ E].
    + eexists. split; [exact Ha|]. split; [done|]. rewrite Eb, Es. lia.
    + eexists. split; [by apply active_of; auto|]. split; [done|]. rewrite Bj, Zj. lia.
    + unfold is_bar in Hi. lia.
Qed.

(** What an access to a memory register comes down to: 64 bits as two halves. *)
Definition bar_access (d i : Z) (write : bool) (offset size val : Z) : cmd (pci R decoders) Z :=
  match write, size =? 8 with
  | true, true => pe_barwrite d i offset 4 (Z.land val 0xffffffff) ;;; pe_barwrite d i (offset + 4) 4 (Z.shiftr val 32) ;;; ret val
  | true, false => pe_barwrite d i offset size val ;;; ret val
  | false, true => lo <- pe_barread d i offset 4 ;; hi <- pe_barread d i (offset + 4) 4 ;; ret (Z.lor lo (u64 (Z.shiftl hi 32)))
  | false, false => pe_barread d i offset size
  end.

Lemma bind_assoc {S A B C} (c : cmd S A) (f : A -> cmd S B) (g : B -> cmd S C) (x : S) :
  bind (bind c f) g x = bind c (fun a => bind (f a) g) x.
Proof. unfold bind. by destruct (c x) as [[a x']| |]. Qed.

Lemma mem_handler_bar s d i r a n write v : pci_ok s -> active (pdevs s) d i = Some r -> br_space r = MemSpace ->
  br_base r <= a -> 0 < n -> a + n <= br_base r + br_size r -> br_base r + br_size r < 2 ^ 64 ->
  pci_emul_mem_handler pe_barread pe_barwrite d i write a n v s = bar_access d i write (a - br_base r) n v s.
Proof.
  intros Hs Ha Hsp H1 Hn H2 H3. destruct (active_bar d i r s Hs Ha) as (Hd & Hi & Hdc & ->). pose proof (get_pdev_ok d s Hs Hd) as Hp.
  set (b := bar_at (get_pdev d s) i) in *.
  assert (Hb : (bar_type b = PCIBAR_MEM32 \/ bar_type b = PCIBAR_MEM64) /\ br_base (range_of d i b) = bar_addr b /\ br_size (range_of d i b) = bar_size b /\ 0 <= bar_addr b).
  { pose proof (dv_bars _ Hp i Hi) as Hb. unfold bar_ok in Hb. cbv zeta in Hb. fold b in Hb. unfold decodes in Hdc. fold b in Hdc.
    unfold range_of in *. destruct (bar_type b); try done; [destruct Hb as (k & Hb)|destruct Hb as (k & f & Hb)].
    all: split_and!; auto; destruct Hb as (_ & _ & _ & Hb & _); lia. }
  destruct Hb as (Ht & Eb & Es & H0). rewrite Eb, Es in *. unfold pci_emul_mem_handler.
  rewrite KASSERT_true by (unfold is_bar in Hi; lia). rewrite (bind_return _ _ s b s) by done.
  rewrite KASSERT_true by (destruct Ht as [->| ->]; done). rewrite !u64_id by lia. rewrite KASSERT_true by lia.
  cbv zeta. unfold bar_access. destruct write, (n =? 8); try done. by rewrite bind_assoc.
Qed.
End Bus.

(** C6: after any sequence of configuration accesses that keeps the enabled
    registers apart and off the chip set, and of memory accesses, on a bus
    wired to the port table and the memory map.  An access to I/O ports inside
    an enabled register is dispatched to its device, whose handler reads or
    writes that register at the offset of the port; a port that no enabled
    register has is left to the chip set.  A memory access inside an enabled
    register that does not end at the top of the address space, by any vCPU,
    with whatever range the vCPU used last, goes to the handler of that
    register, which reads or writes it at the offset of the address, 64 bits
    as two halves; an address that neither a register nor the chip set has is
    left to the fallback ranges, and without one fails with [ESRCH].  So
    moving, enabling and disabling registers takes effect on the very next
    access, and no stale range is left behind. *)
Theorem bar_dispatch {R : Type} `{!Lintr R, !LintrLaws R} pe_cfgread pe_cfgwrite pe_barread pe_barwrite (s0 s : pci R decoders) :
  emulation_ok pe_cfgread pe_cfgwrite -> pci_ok s0 -> own_plain pe_cfgwrite s0 -> rtc (bus_step pe_cfgread pe_cfgwrite) s0 s ->
  (forall d i r p n input eax, active (pdevs s) d i = Some r -> br_space r = IoSpace ->
     br_base r <= p -> 0 < n -> p + n <= br_base r + br_size r ->
     io_table (decoder s) p = mk_ioentry (pi_name d) IOPORT_F_INOUT (DeviceFunc d) /\
     pci_emul_io_handler pe_barread pe_barwrite d input p n eax s =
     (if input then v <- pe_barread d i (p - br_base r) n ;; ret (0, u32 v)
      else pe_barwrite d i (p - br_base r) n eax ;;; ret (0, eax)) s) /\
  (forall p, 0 <= p < MAX_IOPORTS -> (forall d i, ~ io_owner (active (pdevs s)) p d i) -> io_table (decoder s) p = dispatch static [] p) /\
  (forall d i r a n write v q vcpu emulate, active (pdevs s) d i = Some r -> br_space r = MemSpace ->
     br_base r <= a -> 0 < n -> a + n <= br_base r + br_size r -> br_base r + br_size r < 2 ^ 64 -> 0 <= vcpu < VM_MAXCPU ->
     (exists e m, emulate_mem q vcpu a emulate (mem_table (decoder s)) = emulate e m /\ m_handler (mr_param e) = (d, i)) /\
     pci_emul_mem_handler pe_barread pe_barwrite d i write a n v s = bar_access pe_barread pe_barwrite d i write (a - br_base r) n v s) /\
  (forall a q vcpu emulate, (forall d i, ~ mem_owner (active (pdevs s)) a d i) ->
     (forall c, c ∈ chip -> ~ (m_base c <= a < m_base c + m_size c)) -> 0 <= vcpu < VM_MAXCPU ->
     exists m, emulate_mem q vcpu a emulate (mem_table (decoder s)) =
       match List.find (MemRange.in_range a) (inorder (mmio_rb_fallback (mem_table (decoder s)))) with
       | Some e => emulate e m
       | None => Return (ESRCH, m)
       end).
Proof.
  intros Hem H0 Hc Hr. pose proof (bus_reachable pe_cfgread pe_cfgwrite s0 s Hem H0 Hc Hr) as Hs. pose proof (pk_dec s Hs) as Hdec.
  split; [|split; [|split]].
  - intros d i r p n input eax Ha Hsp H1 Hn H2. split; [|by apply io_handler_bar].
    apply (io_dispatch (decoder s) (active (pdevs s)) p Hdec) with i; [|exists r; split; [done|]; split; [done|lia]].
    apply (io_port_range (decoder s) (active (pdevs s)) d i r); [done..|lia].
  - intros p Hp Hno. by apply (io_dispatch (decoder s) (active (pdevs s)) p Hdec Hp).
  - intros d i r a n write v q vcpu emulate Ha Hsp H1 Hn H2 H3 Hv. split; [|by apply mem_handler_bar].
    apply (emulate_owner (decoder s) (active (pdevs s))); [done..|]. exists r. split; [done|]. split; [done|lia].
  - intros a q vcpu emulate Hno Hch Hv. by apply (emulate_free (decoder s) (active (pdevs s))).
Qed.
End Tables.

(** ** The interrupt router *)

Section Router.
Context {V : Type} `{!IntxOut V}.
Implicit Types s : intx V.

(** The router keeps what [pci_lintr_permitted] said with each device. *)
#[export] Instance intx_lintr : Lintr (intx V) := {
  lintr_update d b := on_dev d (fun l => l <| l_permitted := b |>) ;;; pci_lintr_update d
}.

Definition knows s (n : Z) (f : Z -> bool) : Prop :=
  Z.of_nat (length (devs s)) = n /\ forall d, 0 <= d < n -> l_permitted (get_dev d s) = f d.

(** Assertion and deassertion leave the devices alone. *)
Lemma irq_assert_devs d s s' : pci_irq_assert d s = Return (tt, s') -> devs s' = devs s.
Proof.
  unfold pci_irq_assert. rewrite (bind_return _ _ s (get_dev d s) s) by done. destruct (0 <? _); [|by intros [= <-]].
  destruct (_ <=? NPIRQS); [|done]. rewrite KASSERT_true by done. cbv zeta.
  unfold on_pirq, bind, update, gets, xemit. destruct (_ && _); by intros [= <-].
Qed.

Lemma irq_deassert_devs d s s' : pci_irq_deassert d s = Return (tt, s') -> devs s' = devs s.
Proof.
  unfold pci_irq_deassert. rewrite (bind_return _ _ s (get_dev d s) s) by done. destruct (0 <? _); [|by intros [= <-]].
  destruct (_ <=? NPIRQS); [|done]. rewrite KASSERT_true by done. cbv zeta.
  unfold on_pirq, bind, update, gets, xemit. destruct (_ && _); by intros [= <-].
Qed.

Lemma knows_state d st s n f : knows s n f -> knows (s <| devs ::= alter (fun l => l <| l_state := st |>) (Z.to_nat d) |>) n f.
Proof.
  intros [Hl Hp]. split; [unfold upd; cbn; by rewrite length_alter|]. intros d' Hd'. rewrite <- (Hp d' Hd'). unfold get_dev, upd. cbn [devs].
  rewrite list_lookup_alter. case_decide as E; [|done]. rewrite <- E. by destruct (devs s !! Z.to_nat d).
Qed.

Lemma update_knows d s s' n f : knows s n f -> pci_lintr_update d s = Return (tt, s') -> knows s' n f.
Proof.
  intros Hk. unfold pci_lintr_update. rewrite (bind_return _ _ s (get_dev d s) s) by done. destruct (_ && _).
  - unfold bind. destruct (pci_irq_deassert d s) as [[[] s1]| |] eqn:E; try done. intros [= <-]. apply knows_state.
    unfold knows, get_dev in *. by rewrite (irq_deassert_devs d s s1 E).
  - destruct (_ && _); cbn [when]; [|by intros [= <-]]. unfold bind, on_dev, update. intros E.
    pose proof (knows_state d ASSERTED s n f Hk) as Hk'. unfold knows, get_dev in *. by rewrite (irq_assert_devs _ _ _ E).
Qed.

Definition intx_holds s (n : Z) (f : Z -> bool) : Prop := (exists w0, intx_ok w0 s) /\ knows s n f.

#[export] Instance intx_lintr_laws : LintrLaws (intx V).
Proof.
  refine {| lintr_holds := intx_holds |}.
  - intros r n f g Hfg (Hok & Hl & Hp). split; [done|]. split; [done|]. intros d Hd. rewrite <- Hfg by done. by apply Hp.
  - intros r n f d b ((w0 & Hok) & Hl & Hp) Hd. set (r1 := r <| devs ::= alter (fun l => l <| l_permitted := b |>) (Z.to_nat d) |>).
    assert (Hd' : 0 <= d < Z.of_nat (length (devs r))) by lia.
    assert (Hok1 : intx_ok w0 r1) by (exact (wp_run _ _ _ _ _ (wp_run_intx w0 (XPermit d b) r Hok Hd') eq_refl)).
    assert (Hl1 : length (devs r1) = length (devs r)) by (unfold r1, upd; cbn; by rewrite length_alter).
    assert (Hk1 : knows r1 n (fun d' => if d' =? d then b else f d')).
    { split; [by rewrite Hl1|]. intros d' Hdn. destruct (Z.eqb_spec d' d) as [->|Hne]; [unfold r1; by rewrite get_dev_alter|].
      rewrite <- (Hp d' Hdn). unfold get_dev, r1, upd. cbn [devs]. by rewrite list_lookup_alter_ne by lia. }
    unfold lintr_update, intx_lintr. apply wp_bind, wp_update. fold r1.
    pose proof (wp_run_intx w0 (XUpdate d) r1 Hok1) as Hwp. cbn [run_intx intx_allowed] in Hwp. rewrite Hl1 in Hwp.
    destruct (wp_elim _ _ _ (Hwp Hd')) as ([] & r2 & E & Hok2). apply (wp_return _ _ _ _ _ E). split; [by exists w0|].
    by apply (update_knows d r1).
Defined.
End Router.
