(* ===== verification/PciLpc.v ===== *)
(** * The ISA bridge (src/src/pci_lpc.c)

    The configuration space of the bridge holds the routing registers of the
    eight PIRQ links, at 0x60 and 0x68.  A write of one byte goes to the
    interrupt router and is read back into configuration space.  The bridge is
    the only device that handles configuration writes itself; here it is shown
    to keep what the theorems about the bus ask of such a device. *)

From S2P Require Import Prelude Effects VmmCommon Interface PciIrq PciCfg PciCaps PciBar PciSafe PciWire.

Local Open Scope cmd_scope.

Definition PCIR_VENDOR : Z := 0x00.
Definition PCIR_DEVICE : Z := 0x02.
Definition PCIR_SUBCLASS : Z := 0x0a.
Definition PCIR_CLASS : Z := 0x0b.
Definition PCIC_BRIDGE : Z := 0x06.
Definition PCIS_BRIDGE_ISA : Z := 0x01.
Definition LPC_DEV : Z := 0x7000.
Definition LPC_VENDOR : Z := 0x8086.

Section Lpc.
Context {V W : Type} `{!IntxOut V, !Decoder W, !DecoderLaws W}.
Local Abbreviation S := (pci (intx V) W).
Implicit Types s : S.

(** The link of a register, 0 for none. *)
Definition lpc_pirq_pin (coff : Z) : Z :=
  let pirq_pin := 0 in
  let pirq_pin := if (0x60 <=? coff) && (coff <=? 0x63) then coff - 0x60 + 1 else pirq_pin in
  if (0x68 <=? coff) && (coff <=? 0x6b) then coff - 0x68 + 5 else pirq_pin.

Definition pci_lpc_cfgwrite (d coff bytes val : Z) : cmd S Z :=
  if bytes =? 1 then
    let pirq_pin := lpc_pirq_pin coff in
    if negb (pirq_pin =? 0) then
      on_router (pirq_write pirq_pin (u8 val)) ;;;
      v <- on_router (pirq_read pirq_pin) ;;
      pci_set_cfgdata 1 d coff v ;;; ret 0
    else ret (-1)
  else ret (-1).

(** [lpc_pirq_routed] for the bridge [d]. *)
Fixpoint lpc_show (d base first : Z) (pins : list Z) : cmd S unit :=
  match pins with
  | [] => skip
  | pin :: pins =>
      v <- on_router (pirq_read (pin + first)) ;;
      pci_set_cfgdata 1 d (base + pin) v ;;; lpc_show d base first pins
  end.
Definition lpc_pirq_routed (d : Z) : cmd S unit := lpc_show d 0x60 1 [0; 1; 2; 3] ;;; lpc_show d 0x68 5 [0; 1; 2; 3].

(** Its configuration space after [lpc_init]. *)
Definition lpc_config (d : Z) : cmd S unit :=
  pci_set_cfgdata 2 d PCIR_DEVICE LPC_DEV ;;;
  pci_set_cfgdata 2 d PCIR_VENDOR LPC_VENDOR ;;;
  pci_set_cfgdata 1 d PCIR_CLASS PCIC_BRIDGE ;;;
  pci_set_cfgdata 1 d PCIR_SUBCLASS PCIS_BRIDGE_ISA.

(** ** The router *)

Definition pirq_value (v : Z) : Z := Z.land v (Z.lor PIRQ_DIS PIRQ_IRQ).

Lemma wp_pirq_value pin v (r : intx V) : 1 <= pin <= NPIRQS -> length (pirqs r) = 8%nat ->
  wp (pirq_write pin v) (fun _ r' => devs r' = devs r /\ preg (get_pirq (pin - 1) r') = pirq_value v) r.
Proof.
  intros Hp Hl. unfold pirq_write. apply wp_bind, wp_KASSERT; [unfold pirq_pin_ok; lia|]. apply wp_bind, wp_gets.
  change (Z.land v (Z.lor PIRQ_DIS PIRQ_IRQ)) with (pirq_value v). set (p := get_pirq (pin - 1) r).
  apply wp_when; intros E; [|split; [done|by apply negb_false_iff, Z.eqb_eq in E]].
  apply wp_bind, (wp_conseq _ (fun _ r1 => devs r1 = devs r /\ pirqs r1 = pirqs r)); [by apply wp_when; intros _; [apply wp_update|]|].
  intros [] r1 [Ed Ep]. apply wp_bind, wp_update. set (r2 := r1 <| pirqs ::= _ |>).
  assert (H2 : devs r2 = devs r /\ preg (get_pirq (pin - 1) r2) = pirq_value v).
  { split; [done|]. unfold r2. rewrite get_pirq_alter by (rewrite ?Ep; unfold NPIRQS in *; done || lia). by rewrite Z.eqb_refl. }
  apply wp_when; intros _; [by apply wp_update|done].
Qed.

(** ** What the bridge promises *)

Lemma lpc_pin_range coff : lpc_pirq_pin coff <> 0 -> 1 <= lpc_pirq_pin coff <= NPIRQS /\ 0x60 <= coff < 0x6c.
Proof.
  unfold lpc_pirq_pin, NPIRQS. destruct (Z.leb_spec 0x60 coff), (Z.leb_spec coff 0x63), (Z.leb_spec 0x68 coff), (Z.leb_spec coff 0x6b); cbn; lia.
Qed.

Lemma cfg_in_range1 coff : 0 <= coff <= PCI_REGMAX -> cfg_in_range 1 coff = true.
Proof. intros Hc. apply (width_range 1 coff). split; [by left|]. split; [by rewrite Z.mod_1_r|done]. Qed.

(** A byte of the routing registers of a device without capabilities. *)
Lemma dev_ok_route p coff v : dev_ok p -> has_caps p = false -> 0x60 <= coff < 0x6c -> dev_ok (put_cfg 1 coff v p) /\
  has_caps (put_cfg 1 coff v p) = false /\ same_decoding p (put_cfg 1 coff v p).
Proof.
  intros Hp Hh Hc. split; [|split; [|split; [done|]]].
  - apply (dev_ok_cfg p); try done; [by apply write_bytes, dv_bytes| |by rewrite Hh]. intros j Hj. apply write_outside. lia.
  - rewrite <- Hh. unfold has_caps, put_cfg, upd. cbn [pi_cfgdata]. f_equal. apply cfg_read_ext. unfold PCIR_STATUS. intros j Hj.
    apply write_outside. lia.
  - apply cfg_read_ext. unfold PCIR_COMMAND. intros j Hj. apply write_outside. lia.
Qed.

Lemma pci_ok_route d p' r s : pci_ok s -> 0 <= d < ndevs s -> dev_ok p' -> same_decoding (get_pdev d s) p' ->
  pi_msi p' = pi_msi (get_pdev d s) -> pi_msix p' = pi_msix (get_pdev d s) ->
  lintr_holds r (ndevs s) (permitted (pdevs s)) -> pci_ok (dev_step d p' (decoder s) r s).
Proof.
  intros Hs Hd Hp' [Eb Ec] Em Ex Hr. apply pci_ok_step; try done.
  - refine (dec_ext _ _ _ _ (pk_dec s Hs)). intros d' j. rewrite active_step by done.
    destruct (Z.eqb_spec d' d) as [->|]; [|done]. rewrite active_at by done. symmetry. by apply dev_active_ext.
  - refine (lintr_ext _ _ _ _ _ Hr). intros d' Hd'. rewrite permitted_step by (done || lia).
    destruct (Z.eqb_spec d' d) as [->|]; [|done]. unfold permitted. rewrite get_pdev_lookup by done. cbn [default].
    change (id (get_pdev d s)) with (get_pdev d s). unfold pci_lintr_permitted, cmd_of in *. by rewrite Em, Ex, Ec.
Qed.

(** A write that the bridge handles. *)
Lemma wp_lpc_write d coff v (Q : Z -> S -> Prop) s : pci_ok s -> 0 <= d < ndevs s -> has_caps (get_pdev d s) = false -> lpc_pirq_pin coff <> 0 ->
  (forall r, let p' := put_cfg 1 coff (pirq_value (u8 v)) (get_pdev d s) in let s' := dev_step d p' (decoder s) r s in
     preg (get_pirq (lpc_pirq_pin coff - 1) r) = pirq_value (u8 v) -> pci_ok s' -> has_caps p' = false -> Q 0 s') ->
  wp (pci_lpc_cfgwrite d coff 1 v) Q s.
Proof.
  intros Hs Hd Hh Hpin HQ. destruct (lpc_pin_range coff Hpin) as [Hr Hc]. unfold pci_lpc_cfgwrite. cbn [Z.eqb Pos.eqb].
  rewrite (proj2 (Z.eqb_neq _ _)) by done. cbn [negb]. destruct (pk_lintr s Hs) as ((w0 & Hok) & Hl & Hk).
  pose proof (b_length _ _ _ (x_bal _ _ Hok)) as Hlen.
  destruct (wp_elim _ _ _ (wp_pirq_write w0 (lpc_pirq_pin coff) (u8 v) (router s) Hok Hr)) as ([] & r & E & Hok').
  pose proof (wp_run _ _ _ _ _ (wp_pirq_value (lpc_pirq_pin coff) (u8 v) (router s) Hr Hlen) E) as [Ed Ev].
  apply wp_bind, wp_on_router, (wp_return _ _ _ _ _ E). apply wp_bind, wp_on_router, wp_bind, wp_KASSERT; [unfold pirq_pin_ok; lia|].
  apply wp_gets. change (router (s <| router := r |>)) with r. rewrite Ev.
  apply wp_bind, wp_set_cfg; [apply cfg_in_range1; unfold PCI_REGMAX; lia|done|]. apply wp_ret.
  destruct (dev_ok_route (get_pdev d s) coff (pirq_value (u8 v)) (get_pdev_ok d s Hs Hd) Hh Hc) as (Hok2 & Hh2 & Hsd).
  apply (HQ r Ev); [|done]. apply pci_ok_route; try done. split; [by exists w0|]. unfold knows, get_dev in *. by rewrite Ed.
Qed.

Definition lpc_only (lpc : Z) : Z -> option (Z -> Z -> Z -> cmd S Z) := fun d => if d =? lpc then Some (pci_lpc_cfgwrite d) else None.

Lemma lpc_emulation_ok lpc : emulation_ok (fun _ => None) (lpc_only lpc).
Proof.
  split; [|done]. intros d f coff n v s Hf Hs Hc Hd Ha Hv. unfold lpc_only in Hf. destruct (Z.eqb_spec d lpc) as [->|]; [|done].
  injection Hf as <-. assert (Hh : has_caps (get_pdev lpc s) = false) by (apply Hc; [done|]; unfold lpc_only; by rewrite Z.eqb_refl).
  destruct (decide (n = 1 /\ lpc_pirq_pin coff <> 0)) as [[-> Hpin]|Hno].
  - apply wp_lpc_write; try done. cbv zeta. intros r Hr Hok Hh'. split; [done|]. split; [|by left]. intros d' Hd' Hf.
    unfold lpc_only in Hf. destruct (Z.eqb_spec d' lpc) as [->|]; [|done]. by rewrite get_step.
  - unfold pci_lpc_cfgwrite. destruct (Z.eqb_spec n 1) as [->|]; [|apply wp_ret; auto].
    destruct (Z.eqb_spec (lpc_pirq_pin coff) 0); cbn [negb]; [apply wp_ret; auto|]. by destruct Hno.
Qed.
End Lpc.

(** the guest routes a PIRQ link by writing one byte to a register of the ISA
    bridge.  The write is handled by the bridge alone, the router has the
    value with its writable bits, reading the register gives exactly what the
    router has, and the bus keeps its invariant. *)
Theorem lpc_routes_pirq {V W : Type} `{!IntxOut V, !Decoder W, !DecoderLaws W} (s : pci (intx V) W)
    bus slot func d coff v w : pci_ok s -> fi_devi s bus slot func = Some d -> has_caps (get_pdev d s) = false ->
  lpc_pirq_pin coff <> 0 -> v in_u 32 ->
  exists s', pci_cfgrw (fun _ => None) (lpc_only d) false bus slot func coff 1 v s = Return (v, s') /\ pci_ok s' /\
    preg (get_pirq (lpc_pirq_pin coff - 1) (router s')) = Z.land v 0x8f /\
    pci_cfgrw (fun _ => None) (lpc_only d) true bus slot func coff 1 w s' = Return (Z.land v 0x8f, s').
Proof.
  intros Hs Hf Hh Hpin Hv. pose proof (pk_funcs s Hs _ _ _ _ Hf) as Hd. destruct (lpc_pin_range coff Hpin) as [Hr Hc].
  assert (E256 : (PCI_REGMAX + 1 <=? coff) = false) by (unfold PCI_REGMAX; lia).
  assert (Hval : pirq_value (u8 v) = Z.land v 0x8f /\ Z.land v 0x8f in_u 8).
  { unfold pirq_value, u8. change (Z.lor PIRQ_DIS PIRQ_IRQ) with 0x8f. rewrite <- (Z.land_ones v 8) by lia. rewrite <- Z.land_assoc.
    change (Z.land (Z.ones 8) 143) with 143. split; [done|]. pose proof (Z.land_nonneg v 143). split; [apply Z.land_nonneg; by right|].
    change 143 with (Z.land 143 (Z.ones 8)). rewrite Z.land_assoc, Z.land_ones by lia. by apply Z.mod_pos_bound. }
  destruct Hval as [Ev Hv8].
  assert (Hw : wp (pci_cfgrw (fun _ => None) (lpc_only d) false bus slot func coff 1 v) (fun a s' => a = v /\ pci_ok s' /\ fi_devi s' = fi_devi s /\
    0 <= d < ndevs s' /\ preg (get_pirq (lpc_pirq_pin coff - 1) (router s')) = Z.land v 0x8f /\
    cfg_read 1 coff (pi_cfgdata (get_pdev d s')) = Z.land v 0x8f) s).
  { unfold pci_cfgrw. apply wp_bind, wp_gets. rewrite Hf, E256. cbn [Z.eqb Pos.eqb orb negb]. rewrite Z.land_0_r. cbn [Z.eqb negb].
    apply wp_bind. unfold cfg_write_access, lpc_only. rewrite Z.eqb_refl. apply wp_bind, wp_bind. apply wp_lpc_write; try done.
    cbv zeta. intros r Hr' Hok Hh'. apply wp_ret. cbn [Z.eqb]. apply wp_skip, wp_ret. rewrite get_step, ndevs_step by done.
    split; [done|]. split; [done|]. split; [done|]. split; [done|]. split; [by rewrite <- Ev|]. rewrite Ev.
    unfold put_cfg, upd. cbn [pi_cfgdata]. rewrite read_write by lia. apply Z.mod_small. exact Hv8. }
  destruct (wp_elim _ _ _ Hw) as (a & s' & E & -> & Hs' & Hf' & Hd' & Hp & Hread). exists s'. split; [done|]. split; [done|]. split; [done|].
  unfold pci_cfgrw, bind, gets. rewrite Hf', Hf, E256. cbn [Z.eqb Pos.eqb orb negb]. rewrite Z.land_0_r. cbn [Z.eqb negb].
  unfold cfg_read_access, bind, ret, CFGREAD, pci_get_cfgdata, gets, bind. cbn [fst cfg_width Z.eqb Pos.eqb].
  rewrite cfg_in_range1 by (unfold PCI_REGMAX; lia). cbn. unfold pci_emul_hdrtype_fixup, PCIR_HDRTYPE.
  rewrite (proj2 (Z.leb_gt coff 14)) by lia. cbn [andb]. by rewrite Hread.
Qed.
