(* ===== verification/PciExample.v ===== *)
(** * A small machine

    A card with a 64-bit base address register and an MSI capability, and an
    ISA bridge, on a bus that is wired to the port table with the ports of the
    chip set, the memory map with the extended configuration window, and the
    interrupt router.  The theorems about the bus apply to it. *)

From stdpp Require Import sorting.
From S2P Require Import Prelude Effects VmmCommon Interface Inout MemRange PciIrq.
From S2P Require Import PciCfg PciCaps PciBar PciSafe PciProg PciSetup PciAlloc PciMsix PciWire PciLpc.

Local Open Scope cmd_scope.

Module PciExample.

(** ** The tables *)

Definition chip_ports : list (inout_port Z) :=
  map (fun p => mk_iop p p 1 IOPORT_F_INOUT (DeviceFunc p)) [0xcf8; 0xcfc; 0xcfd; 0xcfe; 0xcff].
Definition ecfg : mem_range (Z * Z) :=
  mk_mem_range (-1) (Z.lor MEM_F_RW MEM_F_IMMUTABLE) (-1, 0) PCI_EMUL_ECFG_BASE PCI_EMUL_ECFG_SIZE.

Lemma chip_ports_ok : static_ok chip_ports.
Proof.
  split; [by apply (bool_decide_unpack _); vm_compute|].
  intros iop Hin. unfold chip_ports in Hin. cbn in Hin.
  repeat (apply elem_of_cons in Hin as [->|Hin]; [by split|]). by apply elem_of_nil in Hin.
Qed.

Definition io0 : Z -> ioentry Z :=
  match init_inout chip_ports (fun _ => mk_ioentry 0 0 NullFunc) with Return (_, t) => t | _ => fun _ => default_entry end.
Definition mem0 : memmap (Z * Z) :=
  match register_mem MemExample.color ecfg init_mem with Return (_, m) => m | _ => init_mem end.

Lemma io0_ok : table_ok chip_ports [] io0.
Proof. destruct (init_ok chip_ports (fun _ => mk_ioentry 0 0 NullFunc) chip_ports_ok) as (t & E & Ht). unfold io0. by rewrite E. Qed.

Lemma mem0_ok : mem_ok mem0.
Proof.
  apply (mem_reachable MemExample.color MemExample.remove MemExample.color_keeps MemExample.remove_keeps).
  eapply rtc_l; [eapply (ms_op _ _ (MRegister false ecfg)); [by vm_compute|by vm_compute]|]. done.
Qed.

#[export] Instance wired : Decoder decoders := tables MemExample.color MemExample.remove.
#[export] Instance wired_laws : DecoderLaws decoders :=
  tables_laws MemExample.color MemExample.remove MemExample.color_keeps MemExample.remove_keeps chip_ports [ecfg] chip_ports_ok.

Lemma tables0 : dec_holds (mk_decoders io0 mem0) (fun _ _ => None).
Proof.
  exists []. split; [intros d i r; split; [done|by intros [?%elem_of_nil _]]|]. split; cbn.
  - constructor.
  - by intros r ?%elem_of_nil.
  - exact io0_ok.
  - exact mem0_ok.
  - intros e He. vm_compute in He. apply elem_of_cons in He as [->|He]; [by vm_compute|by apply elem_of_nil in He].
  - by vm_compute.
Qed.

(** ** The router *)

Definition router0 : intx (list intx_call) :=
  mk_intx (replicate 8 (mk_pirq PIRQ_DIS 0 0)) (replicate 16 0) false 8 0 [mk_lintr 1 IDLE 1 16 true; mk_lintr 1 IDLE 2 17 true] [].

Lemma router0_ok f : f 0 = true -> f 1 = true -> lintr_holds router0 2 f.
Proof.
  intros H0 H1. split.
  - eexists. apply fresh_ok. split; [done|..].
    + intros i Hi. unfold NPIRQS in Hi. assert (H : i ∈ seqZ 0 8) by (apply elem_of_seqZ; lia).
      cbn in H. repeat (apply elem_of_cons in H as [-> |H]; [done|]). by apply elem_of_nil in H.
    + intros l H. cbn in H. repeat (apply elem_of_cons in H as [-> |H]; [done|]). by apply elem_of_nil in H.
  - split; [done|]. intros d Hd. assert (E : d = 0 \/ d = 1) by lia. by destruct E as [-> | ->].
Qed.

(** ** The devices *)

Definition card : devinst := mk_devinst 0x40 0x4f no_msi no_msix
  (cfg_write 2 PCIR_STATUS PCIM_STATUS_CAPPRESENT (cfg_write 1 PCIR_CAP_PTR 0x40 (cfg_write 4 (PCIR_BAR 0) 0x80000004
    (cfg_write 1 0x40 PCIY_MSI (cfg_write 2 0x42 0x84 (fun _ => 0))))))
  ([mk_pcibar PCIBAR_MEM64 0x100000 0x80000000; mk_pcibar PCIBAR_MEMHI64 0 0] ++ replicate 4 no_bar).
Definition bridge : devinst := mk_devinst 0 0 no_msi no_msix (cfg_write 1 PCIR_COMMAND 7 (fun _ => 0)) (replicate 6 no_bar).

Definition msi_cap : cap := mk_cap PCIY_MSI 0x40 16.

Lemma each_bar (P : Z -> Prop) : P 0 -> P 1 -> P 2 -> P 3 -> P 4 -> P 5 -> forall i, is_bar i -> P i.
Proof.
  intros H0 H1 H2 H3 H4 H5 i Hi. unfold is_bar, PCI_BARMAX in Hi.
  assert (E : i = 0 \/ i = 1 \/ i = 2 \/ i = 3 \/ i = 4 \/ i = 5) by lia. by destruct E as [->|[->|[->|[->|[->| ->]]]]].
Qed.

Lemma card_chain : chain (pi_cfgdata card) msi_cap [] (pi_capend card + 1).
Proof. by vm_compute. Qed.

Lemma card_ok : dev_ok card.
Proof.
  split.
  - unfold card. cbn [pi_cfgdata]. do 5 apply write_bytes. intros j. lia.
  - done.
  - apply each_bar; unfold bar_ok; cbn; try done. exists 20, 4. by vm_compute.
  - intros _. exists msi_cap, []. split; [done|]. split; [exact card_chain|done].
Qed.

Lemma bridge_ok : dev_ok bridge.
Proof.
  split.
  - unfold bridge. cbn [pi_cfgdata]. apply write_bytes. intros j. lia.
  - done.
  - by apply each_bar.
  - by intros H.
Qed.

Definition machine : pci (intx (list intx_call)) decoders :=
  mk_pci [card; bridge] (fun bus slot func => if (bus =? 0) && (func =? 0) then if slot =? 2 then Some 0 else if slot =? 31 then Some 1 else None else None)
    router0 (mk_decoders io0 mem0) false 0 0 0 0 PCI_EMUL_IOBASE 0xc0000000 PCI_EMUL_MEMBASE64.

Lemma machine_dev d : 0 <= d < ndevs machine -> d = 0 \/ d = 1.
Proof. unfold ndevs. cbn. lia. Qed.

Lemma idle d i : active (pdevs machine) d i = None.
Proof.
  unfold active. destruct (Z.leb_spec 0 d); [|done]. destruct (decide (d = 0 \/ d = 1)) as [E|Hne].
  - assert (Hb : forall p, p = card \/ p = bridge -> dev_active d p i = None).
    { intros p Hp. unfold dev_active. destruct (bool_decide_reflect (is_bar i)) as [Hi|]; [|done]. cbn [andb].
      assert (Hdc : decodes p i = false) by (destruct Hp as [->| ->]; revert i Hi; by apply each_bar). by rewrite Hdc. }
    destruct E as [-> | ->]; apply Hb; auto.
  - rewrite lookup_ge_None_2; [done|]. cbn. lia.
Qed.

Lemma machine_apart : no_overlap (pdevs machine).
Proof. split; intros *; by rewrite idle. Qed.

Lemma machine_ok : pci_ok machine.
Proof.
  split.
  - intros p Hp. cbn in Hp. apply elem_of_cons in Hp as [->|[->|Hp%elem_of_nil]%elem_of_cons]; [exact card_ok|exact bridge_ok|done].
  - intros bus slot func d. cbn. unfold ndevs. cbn. repeat (case_match; try done); intros [= <-]; lia.
  - refine (dec_ext _ _ _ _ tables0). intros d i. by rewrite idle.
  - by apply router0_ok.
  - done.
Qed.

Local Abbreviation no_read := (fun _ : Z => None).

Lemma machine_plain : own_plain (lpc_only 1) machine.
Proof. intros d [-> | ->]%machine_dev Hf; [by cbn in Hf|done]. Qed.

Lemma card_plain : plain_device no_read (lpc_only 1) 0 2 0 0 machine.
Proof. done. Qed.

(** ** Accesses *)

(** The guest enables the memory of the card, through the extended window. *)
Definition enable : pci_access := Window false 0xe0010004 2 6.
Definition enabled : devinst := cmd_written card 4 2 6.

Lemma enable_only p' : guest_write card 4 2 6 p' -> p' = enabled.
Proof.
  intros Hg. destruct Hg as [H | i Hi E | y Hc | H | H1 H2 H3]; unfold is_bar, PCIR_BAR, PCI_BARMAX, PCIR_COMMAND, PCIR_REVID in *;
    try lia; [|done]. by vm_compute in Hc.
Qed.

Lemma enabled_active d i r : active [enabled; bridge] d i = Some r -> d = 0 /\ i = 0 /\ r = mk_range MemSpace 0 0 0x80000000 0x100000.
Proof.
  unfold active. destruct (Z.leb_spec 0 d); [|done]. destruct (decide (d = 0 \/ d = 1)) as [E|Hne].
  2: { rewrite lookup_ge_None_2; [done|]. cbn. lia. }
  assert (Hb : forall p, p = enabled \/ p = bridge -> decodes p i = true -> is_bar i -> p = enabled /\ i = 0).
  { intros p Hp Hdc Hi. revert Hdc. destruct Hp as [->| ->].
    - apply (each_bar (fun i => decodes enabled i = true -> enabled = enabled /\ i = 0)); try done; try exact Hi; intros Hdc; by vm_compute in Hdc.
    - apply (each_bar (fun i => decodes bridge i = true -> bridge = enabled /\ i = 0)); try done; try exact Hi; intros Hdc; by vm_compute in Hdc. }
  intros Hr. assert (Ha : exists p, (p = enabled \/ p = bridge) /\ (p = enabled -> d = 0) /\ dev_active d p i = Some r).
  { destruct E as [-> | ->]; [exists enabled|exists bridge]; split; auto. split; [|done]. intros Eb. by apply (f_equal pi_capend) in Eb. }
  destruct Ha as (p & Hp & Hd & (Hi & Hdc & _ & ->)%dev_active_inv). destruct (Hb p Hp Hdc Hi) as [-> ->]. by rewrite (Hd eq_refl).
Qed.

Lemma enabled_apart : no_overlap [enabled; bridge].
Proof.
  split.
  - intros d i r d' i' r' (-> & -> & _)%enabled_active (-> & -> & _)%enabled_active. lia.
  - intros d i r (_ & _ & ->)%enabled_active. intros c [->|Hc%elem_of_nil]%elem_of_cons; [|done]. right. by vm_compute.
Qed.

Lemma enable_allowed : access_allowed enable machine.
Proof.
  split; [done|]. intros _ d Hd Ha p' Hg.
  assert (E : d = 0) by (by vm_compute in Hd; injection Hd). subst d. apply enable_only in Hg as ->. exact enabled_apart.
Qed.

Lemma enable_run : exists v s, run_access no_read (lpc_only 1) enable machine = Return (v, s) /\ pdevs s = [enabled; bridge].
Proof.
  apply wp_elim. cbn [run_access enable]. unfold pci_emul_ecfg_handler. apply wp_bind.
  apply (wp_plain_cfg_write no_read (lpc_only 1) 0 2 0 0); [exact machine_ok|exact card_plain| |by vm_compute| |].
  - split; [by right; left|by vm_compute].
  - intros p' ->%enable_only. exact enabled_apart.
  - intros s' p' _ _ ->%enable_only Hpd _. apply wp_ret. by rewrite Hpd.
Qed.

Lemma config_access_safe_witness :
  exists v s', run_access no_read (lpc_only 1) enable machine = Return (v, s') /\ pci_ok s'.
Proof.
  apply (config_access_safe no_read (lpc_only 1) machine machine enable (lpc_emulation_ok 1) machine_ok machine_plain); [done|].
  exact enable_allowed.
Defined.

(** The next access to the memory of the card finds it, 8 bytes as two halves;
    past its end only a fallback range could answer. *)
Definition offset_read (d i offset size : Z) : cmd (pci (intx (list intx_call)) decoders) Z := ret (256 * offset + size).
Definition no_write (d i offset size v : Z) : cmd (pci (intx (list intx_call)) decoders) unit := skip.

Local Abbreviation card_step := (bus_step MemExample.color MemExample.remove MemExample.color_keeps MemExample.remove_keeps
  chip_ports [ecfg] chip_ports_ok no_read (lpc_only 1)).

Lemma bar_dispatch_witness : exists s, rtc card_step machine s /\
  (exists e m, emulate_mem ecfg 0 0x80012340 (fun e => ret (m_handler (mr_param e)).2) (mem_table (decoder s)) = Return ((m_handler (mr_param e)).2, m) /\
     m_handler (mr_param e) = (0, 0)) /\
  pci_emul_mem_handler offset_read no_write 0 0 false 0x80012340 8 0 s = Return (Z.lor 0x1234004 (Z.shiftl 0x1234404 32), s) /\
  (exists m, emulate_mem ecfg 0 0x80100000 (fun _ => ret 0) (mem_table (decoder s)) =
     match List.find (MemRange.in_range 0x80100000) (inorder (mmio_rb_fallback (mem_table (decoder s)))) with
     | Some _ => Return (0, m) | None => Return (ESRCH, m) end).
Proof.
  destruct enable_run as (v & s1 & E & Hpd).
  assert (Hr1 : rtc card_step machine s1)
    by (apply rtc_once, bs_config; exact (ps_access _ _ enable v machine s1 enable_allowed E)).
  destruct (bar_dispatch MemExample.color MemExample.remove MemExample.color_keeps MemExample.remove_keeps chip_ports [ecfg] chip_ports_ok
    no_read (lpc_only 1) offset_read no_write machine s1 (lpc_emulation_ok 1) machine_ok machine_plain Hr1) as (_ & _ & Hmem & Hnone).
  exists s1. split; [exact Hr1|].
  assert (Ha : active (pdevs s1) 0 0 = Some (mk_range MemSpace 0 0 0x80000000 0x100000)) by (rewrite Hpd; by vm_compute).
  destruct (Hmem 0 0 _ 0x80012340 8 false 0 ecfg 0 (fun e => ret (m_handler (mr_param e)).2) Ha) as [He Hh]; try (done || (cbn; lia)).
  split; [exact He|]. split; [rewrite Hh; by vm_compute|].
  apply (Hnone 0x80100000 ecfg 0 (fun _ => ret 0)).
  - intros d i (r & Hr' & _ & Hb). rewrite Hpd in Hr'. apply enabled_active in Hr' as (_ & _ & ->). cbn in Hb. lia.
  - intros c [->|Hc%elem_of_nil]%elem_of_cons; [|done]. cbn. unfold PCI_EMUL_ECFG_BASE. lia.
  - done.
Defined.

(** Sizing the register: all ones give the size of 1 MB. *)
Lemma bar64_roundtrip_witness : exists s',
  program64 no_read (lpc_only 1) 0 2 0 0 0xffffffffffffffff machine = Return ((0xfff0000c, 0xffffffff), s').
Proof.
  destruct (bar64_roundtrip no_read (lpc_only 1) machine 0 2 0 0 0 20 0xffffffffffffffff machine_ok card_plain) as (r & s' & E & -> & _);
    try done; [exact machine_apart|]. exists s'. exact E.
Defined.

(** Four messages are enabled; the third is sent with its number. *)
Lemma msi_delivered_witness : exists s',
  setup_msi no_read (lpc_only 1) 0 2 0 0x40 0xfee00000 0x4030 0x21 machine = Return (tt, s') /\
  pci_generate_msi 0 2 s' = Return (Some (0xfee00000, 0x4032), s') /\ pci_generate_msi 0 4 s' = Return (None, s').
Proof.
  destruct (msi_delivered no_read (lpc_only 1) machine 0 2 0 0 msi_cap 0xfee00000 0x4030 0x21 machine_ok card_plain) as (s' & E & _ & Hm);
    try done.
  - exists msi_cap, []. split; [done|]. split; [exact card_chain|]. split; [by left|done].
  - exact machine_apart.
  - exists s'. split; [exact E|]. split; [exact (Hm 2 ltac:(lia))|exact (Hm 4 ltac:(lia))].
Defined.

Lemma capability_added_witness : exists s', pci_emul_add_capability 0 pciecap_bytes machine = Return (0, s') /\
  cap_list (get_pdev 0 s') [msi_cap; mk_cap PCIY_EXPRESS 0x50 60].
Proof.
  destruct (capability_added machine 0 [msi_cap] pciecap_bytes machine_ok) as (e & s' & E & _ & H); try done.
  - apply cl_some; [done|]. split; [done|]. split; [exact card_chain|done].
  - by apply (bool_decide_unpack _); vm_compute.
  - vm_compute. lia.
  - destruct H as [-> [_ _ _ Hl _]]. exists s'. split; [exact E|exact Hl].
Defined.

Lemma windows_ok : windows_free 0xc0000000.
Proof.
  intros r Hr Hw. unfold in_windows in Hw. change (not_chip chip_ports [ecfg] r). unfold not_chip, is_io. destruct (br_space r).
  - rewrite bool_decide_true by done. intros p Hp. unfold PCI_EMUL_IOBASE in Hw. apply not_true_iff_false.
    intros (x & Hx & He%Z.eqb_eq)%existsb_exists. unfold chip_ports in Hx. cbn [map In] in Hx.
    repeat destruct Hx as [<-|Hx]; cbn [iop_port] in He; lia || done.
  - rewrite bool_decide_false by done. intros c [->|Hc%elem_of_nil]%elem_of_cons; [|done].
    unfold PCI_EMUL_MEMLIMIT32, PCI_EMUL_MEMBASE64, ecfg, PCI_EMUL_ECFG_SIZE, PCI_BUSMAX in *. cbn. unfold PCI_EMUL_ECFG_BASE in *. lia.
Qed.

Lemma machine_alloc : alloc_ok 0xc0000000 machine.
Proof. split; [done|done|done|]. intros d i r. by rewrite idle. Qed.

(** 5000 bytes become 8 kB at the start of the window. *)
Lemma bar_allocated_witness : exists s', pci_emul_alloc_bar 1 2 PCIBAR_MEM64 5000 machine = Return (0, s') /\
  bar_at (get_pdev 1 s') 2 = mk_pcibar PCIBAR_MEM64 8192 0xc0000000 /\ pci_ok s'.
Proof.
  destruct (bar_allocated 0xc0000000 1 2 PCIBAR_MEM64 5000 machine machine_ok machine_alloc windows_ok machine_apart) as (_ & _ & H); try done.
  - by right; right.
  - destruct H as (s' & E & (Hb & _) & _ & Hs' & _). exists s'. split; [exact E|]. split; [exact Hb|exact Hs'].
Defined.

(** A table of two entries; the address of the second one is written. *)
Definition table_card : devinst :=
  bridge <| pi_msix := mk_msix true 0 0 0 2 4096 8 false (Some (mjoin (replicate 2 masked_entry))) |>.

Lemma msix_table_bounds_witness : exists s', pci_emul_msix_twrite 0 16 8 0xfee01000 (machine <| pdevs := [table_card] |>) = Return (0, s') /\
  pci_emul_msix_tread 0 16 8 s' = Return (0xfee01000, s').
Proof.
  destruct (msix_table_bounds 0 16 8 0xfee01000 (machine <| pdevs := [table_card] |>)) as (s' & E & _ & _ & H & _); [done| |done|].
  - split; [done|]. by eexists.
  - exists s'. split; [exact E|]. by apply H.
Defined.

(** Link 2 is routed to interrupt 11. *)
Lemma lpc_routes_pirq_witness : exists s',
  pci_cfgrw no_read (lpc_only 1) false 0 31 0 0x61 1 0x0b machine = Return (0x0b, s') /\
  preg (get_pirq 1 (router s')) = 0x0b /\ pci_cfgrw no_read (lpc_only 1) true 0 31 0 0x61 1 0 s' = Return (0x0b, s').
Proof.
  destruct (lpc_routes_pirq machine 0 31 0 1 0x61 0x0b 0 machine_ok) as (s' & E & _ & Hp & Hr); try done.
  exists s'. split; [exact E|]. split; [exact Hp|exact Hr].
Defined.
End PciExample.
