(* ===== verification/Ini.v ===== *)
(** * The INI parser (src/src/ini/ini.c)

    The reader of configuration files.  A file is the list of its bytes; a C
    string is the list of its characters before the terminating null, so a
    line with a null byte ends there.  Writing a null character into the line
    buffer cuts the string, which is what [take] does here. *)

From Stdlib Require Import Ascii String.
From S2P Require Import Prelude.

Definition str (s : string) : list ascii := list_ascii_of_string s.
Arguments str s%_string.

Definition MAX_SECTION : nat := 50.
Definition MAX_NAME : nat := 50.
Definition INI_MAX_LINE : nat := 200.
Definition INI_INLINE_COMMENT_PREFIXES : list ascii := str ";".

Definition nul : ascii := Ascii.zero.
Definition newline : ascii := "010".

(** [isspace] of the C locale. *)
Definition isspace (c : ascii) : bool := let n := N_of_ascii c in (((9 <=? n) && (n <=? 13)) || (n =? 32))%N.

(** [strchr] for a character that is not null. *)
Definition strchr (chars : list ascii) (c : ascii) : bool := existsb (Ascii.eqb c) chars.

Fixpoint rstrip (s : list ascii) : list ascii :=
  match s with
  | [] => []
  | c :: s => match rstrip s with [] => if isspace c then [] else [c] | s' => c :: s' end
  end.

Fixpoint lskip (s : list ascii) : list ascii :=
  match s with
  | [] => []
  | c :: s' => if isspace c then lskip s' else s
  end.

(** The index of the character that is found; [None] for null [chars]. *)
Fixpoint find_chars_or_comment (chars : option (list ascii)) (was_space : bool) (s : list ascii) : nat :=
  match s with
  | [] => 0
  | c :: s =>
      if match chars with Some chars => strchr chars c | None => false end || (was_space && strchr INI_INLINE_COMMENT_PREFIXES c)
      then 0 else S (find_chars_or_comment chars (isspace c) s)
  end.

Definition strncpy0 (src : list ascii) (size : nat) : list ascii := take (size - 1) src.

Fixpoint cstr (s : list ascii) : list ascii :=
  match s with [] => [] | c :: s => if Ascii.eqb c nul then [] else c :: cstr s end.

(** [fgets] with room for [n] characters: the line and the rest of the file. *)
Fixpoint fgets (n : nat) (file : list ascii) : list ascii * list ascii :=
  match n, file with
  | O, _ => ([], file)
  | _, [] => ([], [])
  | S n, c :: file => if Ascii.eqb c newline then ([c], file) else let r := fgets n file in (c :: r.1, r.2)
  end.

Record ini (U : Type) : Type := mk_ini {
  section : list ascii;
  prev_name : list ascii;
  lineno : Z;
  error : Z;
  user : U;
}.
Arguments mk_ini {U}.
Arguments section {U}.
Arguments prev_name {U}.
Arguments lineno {U}.
Arguments error {U}.
Arguments user {U}.
#[export] Instance eta_ini U : Eta (ini U) := fun i => mk_ini (section i) (prev_name i) (lineno i) (error i) (user i).

Section Parse.
Context {U : Type}.
(** The handler: the section, the name and the value; the result is not zero on success. *)
Context (handler : U -> list ascii -> list ascii -> list ascii -> U * bool).

Definition first_error (i : ini U) : ini U := if error i =? 0 then i <| error := lineno i |> else i.

Definition ini_call (name value : list ascii) (i : ini U) : ini U :=
  let r := handler (user i) (section i) name value in
  let i := i <| user := r.1 |> in
  if r.2 then i else first_error i.

(** A line that starts with a byte order mark. *)
Definition has_bom (line : list ascii) : bool :=
  match line with
  | a :: b :: c :: _ => Ascii.eqb a "239" && Ascii.eqb b "187" && Ascii.eqb c "191"
  | _ => false
  end.

Definition section_line (start : list ascii) (i : ini U) : ini U :=
  let e := find_chars_or_comment (Some (str "]")) false start in
  match drop e start with
  | c :: _ => if Ascii.eqb c "]" then i <| section := strncpy0 (take e start) MAX_SECTION |> <| prev_name := [] |> else first_error i
  | [] => first_error i
  end.

Definition pair_line (start : list ascii) (i : ini U) : ini U :=
  let e := find_chars_or_comment (Some (str "=:")) false start in
  match drop e start with
  | c :: after =>
      if Ascii.eqb c "=" || Ascii.eqb c ":" then
        let name := rstrip (take e start) in
        let value := lskip after in
        let value := rstrip (take (find_chars_or_comment None false value) value) in
        ini_call name value (i <| prev_name := strncpy0 name MAX_NAME |>)
      else first_error i
  | [] => first_error i
  end.

(** One round of the loop of [ini_parse_stream]. *)
Definition ini_line (line : list ascii) (i : ini U) : ini U :=
  let i := i <| lineno ::= fun n => n + 1 |> in
  let bom := if has_bom line && (lineno i =? 1) then 3%nat else 0%nat in
  let s := rstrip (drop bom line) in
  let start := lskip s in
  let moved := (0 <? bom + (length s - length start))%nat in
  match start with
  | [] => i
  | c :: rest =>
      if Ascii.eqb c ";" || Ascii.eqb c "#" then i
      else if match prev_name i with [] => false | _ => moved end then ini_call (prev_name i) start i
      else if Ascii.eqb c "[" then section_line rest i
      else pair_line start i
  end.

(** The reader gives a line and what is left of the stream, or nothing at its
    end. *)
Fixpoint ini_loop (reader : list ascii -> option (list ascii * list ascii)) (fuel : nat) (stream : list ascii) (i : ini U) : option (ini U) :=
  match reader stream with
  | None => Some i
  | Some (line, stream) => match fuel with O => None | S fuel => ini_loop reader fuel stream (ini_line (cstr line) i) end
  end.

(** The user data and the line of the first error.  A reader that takes a byte
    at least each time needs no more fuel than there are bytes. *)
Definition ini_parse_stream (reader : list ascii -> option (list ascii * list ascii)) (stream : list ascii) (u : U) : option (U * Z) :=
  match ini_loop reader (length stream) stream (mk_ini [] [] 0 0 u) with
  | Some i => Some (user i, error i)
  | None => None
  end.

Definition read_line (file : list ascii) : option (list ascii * list ascii) :=
  match file with [] => None | _ => Some (fgets (INI_MAX_LINE - 1) file) end.

Definition ini_parse_file (file : list ascii) (u : U) : option (U * Z) := ini_parse_stream read_line file u.

(** [None] for a file that cannot be opened. *)
Definition ini_parse (file : option (list ascii)) (u : U) : option (U * Z) :=
  match file with None => Some (u, -1) | Some file => ini_parse_file file u end.

(** ** Reading lines *)

Section Loop.
Context (reader : list ascii -> option (list ascii * list ascii)).
Context (Hshort : forall s line rest, reader s = Some (line, rest) -> (length rest < length s)%nat).

Lemma loop_total fuel : forall s i, (length s <= fuel)%nat -> exists i', ini_loop reader fuel s i = Some i'.
Proof.
  induction fuel as [|fuel IH]; intros s i Hl; cbn [ini_loop]; destruct (reader s) as [[line rest]|] eqn:E; try (by eexists);
    apply Hshort in E; [lia|]. apply IH. lia.
Qed.

Lemma loop_more fuel : forall fuel' s i i', (fuel <= fuel')%nat -> ini_loop reader fuel s i = Some i' -> ini_loop reader fuel' s i = Some i'.
Proof.
  induction fuel as [|fuel IH]; intros [|fuel'] s i i' Hf; cbn [ini_loop]; destruct (reader s) as [[line rest]|]; try done; [lia|].
  apply IH. lia.
Qed.

Lemma loop_line s line rest i i' : reader s = Some (line, rest) ->
  ini_loop reader (length rest) rest (ini_line (cstr line) i) = Some i' -> ini_loop reader (length s) s i = Some i'.
Proof.
  intros E H. pose proof (Hshort s line rest E) as Hs. destruct (length s) as [|n] eqn:El; [lia|]. cbn [ini_loop]. rewrite E.
  refine (loop_more _ _ _ _ _ _ H). lia.
Qed.
End Loop.

Lemma fgets_shorter n file : (0 < n)%nat -> file <> [] -> (length (fgets n file).2 < length file)%nat.
Proof.
  revert file. induction n as [|n IH]; intros [|c file] Hn Hf; [lia|lia|done|]. cbn [fgets]. destruct (Ascii.eqb c newline); cbn; [lia|].
  destruct n as [|n]; [cbn; lia|]. destruct file as [|c' file]; [cbn; lia|]. specialize (IH (c' :: file) ltac:(lia) ltac:(done)). cbn [length] in *. lia.
Qed.

Lemma read_line_shorter s line rest : read_line s = Some (line, rest) -> (length rest < length s)%nat.
Proof.
  unfold read_line. generalize (INI_MAX_LINE - 1)%nat (Nat.lt_0_succ 198 : 0 < INI_MAX_LINE - 1)%nat. intros n Hn.
  destruct s as [|c s]; [done|]. intros [= E]. change rest with (line, rest).2. rewrite <- E. by apply fgets_shorter.
Qed.

(** ** Termination and the line of an error *)

(** The error is no line, or one that was read. *)
Definition numbered (i : ini U) : Prop := 0 <= error i <= lineno i.

Lemma first_error_numbered i : numbered i -> numbered (first_error i) /\ lineno (first_error i) = lineno i.
Proof. unfold numbered, first_error. destruct (error i =? 0); cbn; lia. Qed.

Lemma ini_call_numbered name value i : numbered i -> numbered (ini_call name value i) /\ lineno (ini_call name value i) = lineno i.
Proof. intros H. unfold ini_call. destruct (handler _ _ _ _) as [u []]; cbn [fst snd]; [done|]. match goal with |- numbered (first_error ?k) /\ _ => exact (first_error_numbered k H) end. Qed.

Lemma ini_line_numbered line i : numbered i -> numbered (ini_line line i) /\ lineno (ini_line line i) = lineno i + 1.
Proof.
  intros H. set (j := i <| lineno ::= fun n => n + 1 |>). assert (Hj : numbered j) by (unfold numbered in *; cbn; lia).
  change (lineno i + 1) with (lineno j). unfold ini_line. cbv zeta. fold j.
  destruct (lskip _) as [|c rest]; [done|]. destruct (Ascii.eqb c ";" || Ascii.eqb c "#"); [done|].
  destruct (match prev_name j with [] => false | _ => _ end); [by apply ini_call_numbered|].
  destruct (Ascii.eqb c "["); [unfold section_line|unfold pair_line]; destruct (drop _ _) as [|d after]; try (by apply first_error_numbered).
  - destruct (Ascii.eqb d "]"); [done|by apply first_error_numbered].
  - destruct (Ascii.eqb d "=" || Ascii.eqb d ":"); [|by apply first_error_numbered]. match goal with |- numbered (ini_call _ _ ?k) /\ _ => exact (ini_call_numbered _ _ k Hj) end.
Qed.

Lemma loop_numbered fuel : forall s i i', numbered i -> ini_loop read_line fuel s i = Some i' ->
  numbered i' /\ lineno i' <= lineno i + Z.of_nat fuel.
Proof.
  induction fuel as [|fuel IH]; intros s i i' Hi; cbn [ini_loop]; destruct (read_line s) as [[line rest]|]; try done.
  - intros [= <-]. split; [done|lia].
  - destruct (ini_line_numbered (cstr line) i Hi) as [Hl E]. intros H. destruct (IH _ _ _ Hl H) as [Hn Hle]. split; [done|lia].
  - intros [= <-]. split; [done|lia].
Qed.

Lemma ini_parse_file_total file u : exists u' e, ini_parse_file file u = Some (u', e) /\ 0 <= e <= Z.of_nat (length file).
Proof.
  destruct (loop_total read_line read_line_shorter (length file) file (mk_ini [] [] 0 0 u) ltac:(lia)) as [i' E].
  destruct (loop_numbered _ _ (mk_ini [] [] 0 0 u) _ ltac:(unfold numbered; cbn; lia) E) as [Hn Hl].
  exists (user i'), (error i'). unfold ini_parse_file, ini_parse_stream. rewrite E. split; [done|]. unfold numbered in Hn. cbn in Hl. lia.
Qed.

(** ** Lines of a file *)

(** The file [file] takes the parser from [i] to [i']. *)
Definition parses (file : list ascii) (i i' : ini U) : Prop := ini_loop read_line (length file) file i = Some i'.

Lemma parses_nil i : parses [] i i.
Proof. done. Qed.

Lemma fgets_line body rest n : newline ∉ body -> (length body < n)%nat -> fgets n (body ++ newline :: rest) = (body ++ [newline], rest).
Proof.
  revert n. induction body as [|c body IH]; intros n Hb Hn; destruct n as [|n]; cbn [length] in Hn; try lia; cbn [app fgets].
  - done.
  - apply not_elem_of_cons in Hb as [Hc Hb]. rewrite (proj2 (Ascii.eqb_neq c newline)) by done. rewrite IH by (done || lia). done.
Qed.

Lemma cstr_id s : nul ∉ s -> cstr s = s.
Proof.
  induction s as [|c s IH]; intros Hs; [done|]. apply not_elem_of_cons in Hs as [Hc Hs]. cbn. rewrite (proj2 (Ascii.eqb_neq c nul)) by done.
  by rewrite IH.
Qed.

(** A text line of its own. *)
Definition text_line (body : list ascii) : Prop := (newline ∉ body) /\ (nul ∉ body) /\ (length body < INI_MAX_LINE - 1)%nat.

Lemma parses_line body rest i i' : text_line body -> parses rest (ini_line (body ++ [newline]) i) i' -> parses (body ++ newline :: rest) i i'.
Proof.
  intros (Hn & Hz & Hl) Hp. apply (loop_line read_line read_line_shorter _ (body ++ [newline]) rest).
  - rewrite <- (fgets_line body rest _ Hn Hl). unfold read_line. by destruct body.
  - rewrite cstr_id; [exact Hp|]. rewrite not_elem_of_app. split; [done|]. by intros [H|H%elem_of_nil]%elem_of_cons.
Qed.

(** ** Stripping *)

Lemma rstrip_app a b : rstrip (a ++ b) = match rstrip b with [] => rstrip a | s => a ++ s end.
Proof.
  induction a as [|c a IH]; cbn [app rstrip].
  - by destruct (rstrip b).
  - rewrite IH. destruct (rstrip b) as [|x s]; [done|]. by destruct a.
Qed.

Definition no_space (s : list ascii) : Prop := Forall (fun c => isspace c = false) s.

Lemma rstrip_no_space s : no_space s -> rstrip s = s.
Proof. induction 1 as [|c s Hc Hs IH]; [done|]. cbn. rewrite IH, Hc. by destruct s. Qed.

Lemma find_skips chars s t b : (forall c, c ∈ s -> strchr chars c = false) -> no_space s ->
  (b = true -> match s with c :: _ => strchr INI_INLINE_COMMENT_PREFIXES c = false | [] => True end) ->
  find_chars_or_comment (Some chars) b (s ++ t) = (length s + find_chars_or_comment (Some chars) (match s with [] => b | _ => false end) t)%nat.
Proof.
  revert b. induction s as [|c s IH]; intros b Hc Hs Hb; [done|]. inversion_clear Hs as [|? ? Hsp Hs']. cbn [app find_chars_or_comment].
  rewrite Hc by (by left). cbn [orb]. assert (E : b && strchr INI_INLINE_COMMENT_PREFIXES c = false) by (destruct b; [by apply Hb|done]).
  rewrite E, Hsp. cbn [length Nat.add]. f_equal. rewrite IH; [by destruct s|intros x Hx; apply Hc; by right|done|done].
Qed.
End Parse.
