(* ===== verification/Manager.v ===== *)
(** * Virtual machine configurations (src/src/xhyve-manager.c)

    The settings of a virtual machine, from include/xhyve-manager/config.def;
    writing and loading the configuration file; and the arguments that the
    hypervisor is started with.  The X-macro table is the list [all_cfg], the
    fields of [struct xhyve_virtual_machine] are a function on it. *)

From Stdlib Require Import Ascii String.
From S2P Require Import Prelude Ini.

(** The entries of config.def. *)
Inductive cfg : Type :=
| machine_name | machine_type | machine_uuid
| boot_kernel | boot_initrd | boot_options
| acpi_enabled
| processor_cpus
| memory_size
| bridge_slot | bridge_driver | bridge_configinfo
| lpc_slot | lpc_driver
| lpc_dev_config
| internal_storage_slot | internal_storage_driver | internal_storage_configinfo
| external_storage_slot | external_storage_driver | external_storage_configinfo
| networking_slot | networking_driver | networking_configinfo.
#[export] Instance cfg_eq_dec : EqDecision cfg.
Proof. solve_decision. Defined.

Definition all_cfg : list cfg :=
  [machine_name; machine_type; machine_uuid; boot_kernel; boot_initrd; boot_options; acpi_enabled; processor_cpus; memory_size;
   bridge_slot; bridge_driver; bridge_configinfo; lpc_slot; lpc_driver; lpc_dev_config;
   internal_storage_slot; internal_storage_driver; internal_storage_configinfo;
   external_storage_slot; external_storage_driver; external_storage_configinfo;
   networking_slot; networking_driver; networking_configinfo].

(** Section, name and default. *)
Definition cfg_entry (f : cfg) : string * string * string :=
  match f with
  | machine_name => ("machine", "name", "default")
  | machine_type => ("machine", "type", "linux")
  | machine_uuid => ("machine", "uuid", "")
  | boot_kernel => ("boot", "kernel", "vmlinuz")
  | boot_initrd => ("boot", "initrd", "initrd.gz")
  | boot_options => ("boot", "options", "earlyprintk=serial console=ttyS0 acpi=off")
  | acpi_enabled => ("acpi", "enabled", "false")
  | processor_cpus => ("processor", "cpus", "1")
  | memory_size => ("memory", "size", "1G")
  | bridge_slot => ("bridge", "slot", "0:0")
  | bridge_driver => ("bridge", "driver", "hostbridge")
  | bridge_configinfo => ("bridge", "configinfo", "")
  | lpc_slot => ("lpc", "slot", "31")
  | lpc_driver => ("lpc", "driver", "lpc")
  | lpc_dev_config => ("lpc_dev", "config", "com1,stdio")
  | internal_storage_slot => ("internal_storage", "slot", "4")
  | internal_storage_driver => ("internal_storage", "driver", "virtio-blk")
  | internal_storage_configinfo => ("internal_storage", "configinfo", "/usr/local/Library/xhyve/vdisks/hdd.img")
  | external_storage_slot => ("external_storage", "slot", "3")
  | external_storage_driver => ("external_storage", "driver", "ahci-cd")
  | external_storage_configinfo => ("external_storage", "configinfo", "")
  | networking_slot => ("networking", "slot", "2:0")
  | networking_driver => ("networking", "driver", "virtio-net")
  | networking_configinfo => ("networking", "configinfo", "")
  end%string.

Definition cfg_section (f : cfg) : list ascii := str (cfg_entry f).1.1.
Definition cfg_name (f : cfg) : list ascii := str (cfg_entry f).1.2.
Definition cfg_default (f : cfg) : list ascii := str (cfg_entry f).2.

Fixpoint MATCH (s n : list ascii) : bool :=
  match s, n with
  | [], [] => true
  | a :: s, b :: n => Ascii.eqb a b && MATCH s n
  | _, _ => false
  end.

Definition xhyve_virtual_machine : Type := cfg -> list ascii.
Definition set_cfg (f : cfg) (v : list ascii) (m : xhyve_virtual_machine) : xhyve_virtual_machine := fun g =>
  if bool_decide (g = f) then v else m g.

(** ** The configuration file *)

Definition handler (pconfig : xhyve_virtual_machine) (section name value : list ascii) : xhyve_virtual_machine * bool :=
  match List.find (fun f => MATCH section (cfg_section f) && MATCH name (cfg_name f)) all_cfg with
  | Some f => (set_cfg f value pconfig, true)
  | None => (pconfig, true)
  end.

Definition initialize_machine_config : xhyve_virtual_machine := cfg_default.

(** [None] when the program exits. *)
Definition load_machine_config (file : option (list ascii)) (newFile : bool) : option xhyve_virtual_machine :=
  match ini_parse handler file initialize_machine_config with
  | Some (machine, e) => if (e <? 0) && negb newFile then None else Some machine
  | None => None
  end.

Fixpoint write_fields (section : list ascii) (l : list cfg) (machine : xhyve_virtual_machine) : list ascii :=
  match l with
  | [] => []
  | f :: l =>
      (if MATCH section (cfg_section f) then [] else [newline] ++ str "[" ++ cfg_section f ++ str "]" ++ [newline]) ++
      cfg_name f ++ str " = " ++ machine f ++ [newline] ++ write_fields (cfg_section f) l machine
  end.
Definition write_machine_config (machine : xhyve_virtual_machine) : list ascii := write_fields [] all_cfg machine.

(** ** Starting *)

Definition get_firmware_type (machine : xhyve_virtual_machine) : option (list ascii) :=
  if MATCH (machine machine_type) (str "bsd") then Some (str "fbsd")
  else if MATCH (machine machine_type) (str "linux") then Some (str "kexec")
  else None.

(** [ret] is the string built so far; [None] is a null argument. *)
Fixpoint form_config_string (ret : list ascii) (fmt : list ascii) (args : list (option (list ascii))) : list ascii :=
  match fmt with
  | [] => ret
  | c :: fmt =>
      if Ascii.eqb c "s" then
        match args with
        | Some s :: args => form_config_string (ret ++ s ++ match fmt with [] => [] | _ => str "," end) fmt args
        | None :: args => form_config_string ret fmt args
        | [] => ret
        end
      else form_config_string ret fmt args
  end.

Record start_strings : Type := mk_start {
  s_firmware : list ascii;
  s_acpi : option (list ascii);
  s_bridge : option (list ascii);
  s_lpc : option (list ascii);
  s_lpc_dev : option (list ascii);
  s_networking : option (list ascii);
  s_internal : option (list ascii);
  s_external : option (list ascii);
}.
#[export] Instance eta_start_strings : Eta start_strings := fun a =>
  mk_start (s_firmware a) (s_acpi a) (s_bridge a) (s_lpc a) (s_lpc_dev a) (s_networking a) (s_internal a) (s_external a).

Definition append (s : option (list ascii)) (v : list ascii) : option (list ascii) :=
  Some (form_config_string [] (str "ss") [s; Some v]).
Definition append_set (s : option (list ascii)) (v : list ascii) : option (list ascii) := if MATCH v [] then s else append s v.

(** The [CFG] of [start_machine] for one entry. *)
Definition start_field (m : xhyve_virtual_machine) (f : cfg) (a : start_strings) : start_strings :=
  let s := cfg_section f in
  let a := if MATCH s (str "boot")
           then a <| s_firmware := form_config_string [] (str "ss") [Some (s_firmware a); Some (m f)] |> else a in
  let a := if MATCH s (str "bridge") then a <| s_bridge ::= fun b => append_set b (m f) |> else a in
  let a := if MATCH s (str "lpc") then a <| s_lpc ::= fun b => append_set b (m f) |> else a in
  let a := if MATCH s (str "lpc_dev") then a <| s_lpc_dev ::= fun b => append_set b (m f) |> else a in
  let a := if MATCH s (str "networking") then a <| s_networking ::= fun b => append_set b (m f) |> else a in
  let a := if MATCH s (str "internal_storage") then a <| s_internal ::= fun b => append_set b (m f) |> else a in
  let a := if MATCH s (str "external_storage") && negb (MATCH (m external_storage_configinfo) [])
           then a <| s_external ::= fun b => append b (m f) |> else a in
  if MATCH s (str "acpi") && MATCH (m acpi_enabled) (str "true")
  then a <| s_acpi := Some (form_config_string [] (str "s") [Some (str "-A")]) |> else a.

(** The arguments [run_xhyve] gets, [None] when the program exits; a null
    argument is [None]. *)
Definition start_machine (m : xhyve_virtual_machine) : option (list (option (list ascii))) :=
  match get_firmware_type m with
  | None => None
  | Some firmware =>
      let a := fold_left (fun a f => start_field m f a) all_cfg (mk_start firmware None None None None None None None) in
      Some ([Some (str "xhyve"); Some (str "-f"); Some (s_firmware a); Some (str "-U"); Some (m machine_uuid);
             Some (str "-m"); Some (m memory_size); Some (str "-c"); Some (m processor_cpus);
             Some (str "-s"); s_bridge a; Some (str "-l"); s_lpc_dev a; Some (str "-s"); s_lpc a;
             Some (str "-s"); s_networking a; Some (str "-s"); s_internal a] ++
            match s_external a with Some e => [Some (str "-s"); Some e] | None => [] end ++
            match s_acpi a with Some x => [Some x] | None => [] end)
  end.

(** ** Values that survive the file *)

(** What a field can hold: text without line ends that has no blanks at its
    ends and nothing that starts a comment, and that fits in a line. *)
Definition storable (f : cfg) (v : list ascii) : bool :=
  negb (existsb (fun c => Ascii.eqb c newline || Ascii.eqb c nul) v) && MATCH (rstrip v) v && MATCH (lskip v) v &&
  (find_chars_or_comment None false v =? length v)%nat && (length (cfg_name f) + length v <? 195)%nat.

Lemma MATCH_spec s n : MATCH s n = true <-> s = n.
Proof.
  revert n. induction s as [|a s IH]; intros [|b n]; cbn; try done. rewrite andb_true_iff, Ascii.eqb_eq, IH. split; [by intros [-> ->]|by intros [= -> ->]].
Qed.

Lemma MATCH_refl s : MATCH s s = true.
Proof. by apply MATCH_spec. Qed.

(** What the names of the table have in common. *)
Record plain_name (n : list ascii) : Prop := {
  pn_space : no_space n;
  pn_chars c : c ∈ n -> strchr (str "=:") c = false;
  pn_text c : c ∈ n -> c <> newline /\ c <> nul;
  pn_head : exists c n', n = c :: n' /\ (c ∉ str ";#[") /\ Ascii.eqb c "239" = false;
}.

Definition plain_nameb (n : list ascii) : bool :=
  forallb (fun c => negb (isspace c) && negb (strchr (str "=:") c) && negb (Ascii.eqb c newline) && negb (Ascii.eqb c nul)) n &&
  match n with c :: _ => negb (strchr (str ";#[") c) && negb (Ascii.eqb c "239") | [] => false end.

Lemma plain_name_spec n : plain_nameb n = true -> plain_name n.
Proof.
  unfold plain_nameb. intros [Hall Hhd]%andb_true_iff. rewrite forallb_forall in Hall.
  assert (Hc : forall c, c ∈ n -> isspace c = false /\ strchr (str "=:") c = false /\ c <> newline /\ c <> nul).
  { intros c Hin%list_elem_of_In. specialize (Hall c Hin). rewrite !andb_true_iff, !negb_true_iff, !Ascii.eqb_neq in Hall. tauto. }
  split.
  - apply Forall_forall. intros c Hin. by apply Hc.
  - intros c Hin. by apply Hc.
  - intros c Hin. by apply Hc.
  - destruct n as [|c n']; [done|]. exists c, n'. rewrite andb_true_iff, !negb_true_iff in Hhd. destruct Hhd as [H1 H2]. split; [done|]. split; [|done].
    intros Hin%list_elem_of_In. assert (Ht : strchr (str ";#[") c = true) by (apply existsb_exists; exists c; by rewrite Ascii.eqb_refl).
    congruence.
Qed.

Lemma cfg_name_plain f : plain_name (cfg_name f).
Proof. apply plain_name_spec. by destruct f. Qed.

Lemma cfg_section_plain f : plain_name (cfg_section f).
Proof. apply plain_name_spec. by destruct f. Qed.

Record clean (v : list ascii) : Prop := {
  cl_text c : c ∈ v -> c <> newline /\ c <> nul;
  cl_rstrip : rstrip v = v;
  cl_lskip : lskip v = v;
  cl_comment : find_chars_or_comment None false v = length v;
}.

Lemma storable_clean f v : storable f v = true -> clean v /\ (length (cfg_name f) + length v < 195)%nat.
Proof.
  unfold storable. rewrite !andb_true_iff, !MATCH_spec, Nat.eqb_eq, Nat.ltb_lt, negb_true_iff. intros ((((H1 & H2) & H3) & H4) & H5).
  split; [|done]. split; try done. intros c Hc%list_elem_of_In. split; intros ->.
  - apply not_true_iff_false in H1. apply H1, existsb_exists. exists newline. by rewrite Ascii.eqb_refl.
  - apply not_true_iff_false in H1. apply H1, existsb_exists. exists nul. by rewrite orb_true_r.
Qed.

(** ** One line *)

Implicit Types i : ini xhyve_virtual_machine.

(** A blank and the value, as it is left at the end of the line. *)
Definition after_equals (v : list ascii) : list ascii := match v with [] => [] | _ => " "%char :: v end.

Lemma rstrip_pair n v : plain_name n -> clean v -> rstrip (n ++ str " = " ++ v ++ [newline]) = n ++ str " =" ++ after_equals v.
Proof.
  intros Hn Hv. replace (n ++ str " = " ++ v ++ [newline]) with ((n ++ str " =") ++ ((str " " ++ v) ++ [newline])) by (by rewrite <- !app_assoc).
  assert (E1 : rstrip ((str " " ++ v) ++ [newline]) = after_equals v).
  { rewrite rstrip_app. change (rstrip [newline]) with (@nil ascii). cbn [str list_ascii_of_string app rstrip]. rewrite (cl_rstrip v Hv).
    by destruct v. }
  assert (E2 : rstrip (n ++ str " =") = n ++ str " =") by (by rewrite rstrip_app).
  rewrite rstrip_app, E1. destruct (after_equals v) eqn:E; [by rewrite E2, app_nil_r|by rewrite <- app_assoc].
Qed.

Lemma pair_line_call n v i : plain_name n -> clean v ->
  pair_line handler (n ++ str " =" ++ after_equals v) i = ini_call handler n v (i <| prev_name := strncpy0 n MAX_NAME |>).
Proof.
  intros Hn Hv. unfold pair_line. rewrite (find_skips (str "=:") n); [|exact (pn_chars n Hn)|exact (pn_space n Hn)|done].
  assert (E : find_chars_or_comment (Some (str "=:")) (match n with [] => false | _ => false end) (str " =" ++ after_equals v) = 1%nat) by (by destruct n).
  rewrite E. assert (Ed : drop (length n + 1) (n ++ str " =" ++ after_equals v) = "="%char :: after_equals v).
  { replace (length n + 1)%nat with (length (n ++ str " ")) by (rewrite length_app; done).
    replace (n ++ str " =" ++ after_equals v) with ((n ++ str " ") ++ "="%char :: after_equals v) by (by rewrite <- app_assoc). by rewrite drop_app_length. }
  assert (Et : take (length n + 1) (n ++ str " =" ++ after_equals v) = n ++ str " ").
  { replace (length n + 1)%nat with (length (n ++ str " ")) by (rewrite length_app; done).
    replace (n ++ str " =" ++ after_equals v) with ((n ++ str " ") ++ "="%char :: after_equals v) by (by rewrite <- app_assoc). by rewrite take_app_length. }
  rewrite Ed, Et. cbn [Ascii.eqb]. cbv zeta.
  assert (En : rstrip (n ++ str " ") = n) by (rewrite rstrip_app; cbn; by apply rstrip_no_space, pn_space).
  assert (El : lskip (after_equals v) = v) by (destruct v as [|c v]; [done|]; exact (cl_lskip _ Hv)).
  rewrite En, El, (cl_comment v Hv), firstn_all, (cl_rstrip v Hv). done.
Qed.

Lemma ini_pair n v i : plain_name n -> clean v ->
  ini_line handler (n ++ str " = " ++ v ++ [newline]) i =
  ini_call handler n v (i <| lineno ::= fun k => k + 1 |> <| prev_name := strncpy0 n MAX_NAME |>).
Proof.
  intros Hn Hv. destruct (pn_head n Hn) as (c & n' & E & Hc & H239). unfold ini_line.
  assert (Hb : has_bom (n ++ str " = " ++ v ++ [newline]) = false).
  { subst n. destruct n' as [|b [|d n'']]; cbn; by rewrite H239. }
  rewrite Hb. cbn [andb]. rewrite drop_0, rstrip_pair by done.
  assert (Hl : lskip (n ++ str " =" ++ after_equals v) = n ++ str " =" ++ after_equals v).
  { pose proof (pn_space n Hn) as Hs. subst n. inversion_clear Hs as [|? ? Hsp _]. cbn [app lskip]. by rewrite Hsp. }
  rewrite Hl, Nat.sub_diag. cbn [Nat.add]. rewrite <- pair_line_call by done. change (prev_name (i <| lineno ::= fun k => k + 1 |>)) with (prev_name i). rewrite E. cbn [app].
  assert (Hne : Ascii.eqb c ";" = false /\ Ascii.eqb c "#" = false /\ Ascii.eqb c "[" = false).
  { repeat split; apply Ascii.eqb_neq; intros ->; apply Hc, list_elem_of_In; cbn; tauto. }
  destruct Hne as (-> & -> & ->). cbn [orb]. by destruct (prev_name i).
Qed.

Lemma ini_blank i : ini_line handler [newline] i = i <| lineno ::= fun k => k + 1 |>.
Proof. reflexivity. Qed.

Lemma ini_section f i : ini_line handler ((str "[" ++ cfg_section f ++ str "]") ++ [newline]) i =
  i <| lineno ::= fun k => k + 1 |> <| section := cfg_section f |> <| prev_name := [] |>.
Proof. unfold ini_line. destruct f; cbn; by destruct (prev_name i). Qed.

(** The entry is found by its section and name. *)
Lemma handler_finds f m v : handler m (cfg_section f) (cfg_name f) v = (set_cfg f v m, true).
Proof. by destruct f. Qed.

Lemma section_text f : text_line (str "[" ++ cfg_section f ++ str "]").
Proof.
  assert (H : forallb (fun c => negb (Ascii.eqb c newline) && negb (Ascii.eqb c nul)) (str "[" ++ cfg_section f ++ str "]") = true /\
    (length (str "[" ++ cfg_section f ++ str "]") < INI_MAX_LINE - 1)%nat) by (split; [by destruct f|destruct f; cbn; lia]).
  destruct H as [Hc Hl]. rewrite forallb_forall in Hc. split; [|split; [|done]]; intros Hin%list_elem_of_In; by specialize (Hc _ Hin).
Qed.

Lemma pair_text f v : clean v -> (length (cfg_name f) + length v < 195)%nat -> text_line (cfg_name f ++ str " = " ++ v).
Proof.
  intros Hv Hl. assert (Hc : forall c, c ∈ cfg_name f ++ str " = " ++ v -> c <> newline /\ c <> nul).
  { intros c. rewrite !elem_of_app. intros [Hin|[Hin|Hin]].
    - by apply (pn_text _ (cfg_name_plain f)).
    - apply list_elem_of_In in Hin. cbn in Hin. repeat destruct Hin as [<-|Hin]; done.
    - by apply (cl_text v Hv). }
  split; [|split].
  - intros Hin. by destruct (Hc newline Hin).
  - intros Hin. by destruct (Hc nul Hin).
  - rewrite !length_app. change (length (str " = ")) with 3%nat. unfold INI_MAX_LINE. lia.
Qed.

(** The lines that start a section. *)
Definition heading (sec : list ascii) (f : cfg) : list ascii :=
  if MATCH sec (cfg_section f) then [] else [newline] ++ str "[" ++ cfg_section f ++ str "]" ++ [newline].

Lemma heading_parses f i : exists i1, section i1 = cfg_section f /\ error i1 = error i /\ user i1 = user i /\
  forall rest i', parses handler rest i1 i' -> parses handler (heading (section i) f ++ rest) i i'.
Proof.
  unfold heading. destruct (MATCH (section i) (cfg_section f)) eqn:E.
  - apply MATCH_spec in E. by exists i.
  - eexists. split; [|split; [|split; [|intros rest i' H]]].
    4: { replace (([newline] ++ str "[" ++ cfg_section f ++ str "]" ++ [newline]) ++ rest)
           with ([] ++ newline :: (str "[" ++ cfg_section f ++ str "]") ++ newline :: rest) by (cbn [app]; by rewrite <- !app_assoc).
         apply parses_line.
         - split; [apply not_elem_of_nil|]. split; [apply not_elem_of_nil|]. unfold INI_MAX_LINE. cbn. lia.
         - cbn [app]. rewrite ini_blank. apply parses_line; [apply section_text|]. rewrite ini_section. exact H. }
    all: done.
Qed.

(** The line of an entry. *)
Lemma entry_parses f v i : storable f v = true -> section i = cfg_section f ->
  exists i1, section i1 = cfg_section f /\ error i1 = error i /\ user i1 = set_cfg f v (user i) /\
  forall rest i', parses handler rest i1 i' -> parses handler (cfg_name f ++ str " = " ++ v ++ [newline] ++ rest) i i'.
Proof.
  intros [Hv Hlen]%storable_clean Hs. exists (ini_line handler ((cfg_name f ++ str " = " ++ v) ++ [newline]) i).
  assert (E : ini_line handler ((cfg_name f ++ str " = " ++ v) ++ [newline]) i =
    ini_call handler (cfg_name f) v (i <| lineno ::= fun k => k + 1 |> <| prev_name := strncpy0 (cfg_name f) MAX_NAME |>)).
  { rewrite <- ini_pair by (done || apply cfg_name_plain). by rewrite <- !app_assoc. }
  rewrite E. unfold ini_call. cbn. rewrite Hs, handler_finds. cbn. split; [done|]. split; [done|]. split; [done|]. intros rest i' H.
  replace (cfg_name f ++ " "%char :: "="%char :: " "%char :: v ++ newline :: rest) with ((cfg_name f ++ str " = " ++ v) ++ newline :: rest)
    by (by rewrite <- !app_assoc).
  apply parses_line; [by apply pair_text|]. rewrite E. unfold ini_call. cbn. rewrite Hs, handler_finds. exact H.
Qed.

Lemma write_parses l : forall m i, (forall f, f ∈ l -> storable f (m f) = true) ->
  exists i', parses handler (write_fields (section i) l m) i i' /\ error i' = error i /\
    forall g, user i' g = if bool_decide (g ∈ l) then m g else user i g.
Proof.
  induction l as [|f l IH]; intros m i Hst.
  { exists i. split; [apply parses_nil|]. split; [done|]. intros g. by rewrite bool_decide_false by apply not_elem_of_nil. }
  destruct (heading_parses f i) as (i1 & Hs1 & He1 & Hu1 & Hp1).
  destruct (entry_parses f (m f) i1 (Hst f ltac:(by left)) Hs1) as (i2 & Hs2 & He2 & Hu2 & Hp2).
  destruct (IH m i2) as (i' & Hp & He & Hu); [intros g Hg; apply Hst; by right|]. exists i'. split; [|split].
  - cbn [write_fields]. apply Hp1, Hp2. by rewrite <- Hs2.
  - congruence.
  - intros g. rewrite Hu, Hu2, Hu1. unfold set_cfg. destruct (decide (g = f)) as [->|Hne].
    + rewrite (bool_decide_true (f ∈ f :: l)) by (by left). rewrite (bool_decide_true (f = f)) by done. by destruct (bool_decide _).
    + rewrite (bool_decide_false (g = f)) by done.
      assert (Hiff : bool_decide (g ∈ f :: l) = bool_decide (g ∈ l)) by (apply bool_decide_ext; rewrite elem_of_cons; tauto). by rewrite Hiff.
Qed.

Lemma all_cfg_all f : f ∈ all_cfg.
Proof. apply (bool_decide_unpack _). by destruct f. Qed.

(** C13: the settings of a machine survive the configuration file: loading the
    file that was written gives every setting back, without a parse error, for
    all settings that are text without line ends, have no blanks at their ends
    and no blank before a semicolon, and fit in a line. *)
Theorem config_roundtrip m : (forall f, storable f (m f) = true) ->
  exists m', load_machine_config (Some (write_machine_config m)) false = Some m' /\ (forall f, m' f = m f) /\
    ini_parse handler (Some (write_machine_config m)) initialize_machine_config = Some (m', 0).
Proof.
  intros Hst. destruct (write_parses all_cfg m (mk_ini [] [] 0 0 initialize_machine_config) (fun f _ => Hst f)) as (i' & Hp & He & Hu).
  assert (E : ini_parse handler (Some (write_machine_config m)) initialize_machine_config = Some (user i', 0)).
  { unfold ini_parse, ini_parse_file, ini_parse_stream. unfold parses in Hp. cbn [section] in Hp. unfold write_machine_config. rewrite Hp.
    by rewrite He. }
  exists (user i'). split; [unfold load_machine_config; by rewrite E|]. split; [|done].
  intros f. rewrite Hu, bool_decide_true; [done|apply all_cfg_all].
Qed.

(** Loading exits only when there is no file. *)
Lemma load_none file newFile : load_machine_config file newFile = None <-> file = None /\ newFile = false.
Proof.
  unfold load_machine_config. destruct file as [file|]; [|by destruct newFile; cbn; intuition].
  destruct (ini_parse_file_total handler file initialize_machine_config) as (m & e & E & He). cbn [ini_parse]. rewrite E.
  rewrite (proj2 (Z.ltb_ge e 0)) by lia. split; [done|by intros []].
Qed.

(** ** The arguments of the hypervisor *)

(** Strings separated by commas. *)
Fixpoint commas (l : list (list ascii)) : list ascii :=
  match l with [] => [] | [s] => s | s :: l => s ++ str "," ++ commas l end.
Definition argument (l : list (list ascii)) : option (list ascii) := match l with [] => None | _ => Some (commas l) end.
Definition set_fields (m : xhyve_virtual_machine) (l : list cfg) : list (list ascii) := List.filter (fun v => negb (MATCH v [])) (map m l).

Lemma commas_snoc s l v : commas ((s :: l) ++ [v]) = commas (s :: l) ++ str "," ++ v.
Proof. revert s. induction l as [|t l IH]; intros s; [done|]. cbn [app commas] in *. rewrite IH. by rewrite <- !app_assoc. Qed.

Lemma append_argument l v : append (argument l) v = argument (l ++ [v]).
Proof.
  destruct l as [|s l]; [unfold append; cbn; by rewrite app_nil_r|]. unfold append, argument. cbn [form_config_string str list_ascii_of_string Ascii.eqb].
  cbn -[commas]. rewrite app_nil_r. change (s :: l ++ [v]) with ((s :: l) ++ [v]). rewrite commas_snoc. by rewrite <- app_assoc.
Qed.

Lemma set_fields_snoc m l f : append_set (argument (set_fields m l)) (m f) = argument (set_fields m (l ++ [f])).
Proof.
  unfold append_set, set_fields. rewrite map_app, List.filter_app. cbn [map List.filter]. destruct (MATCH (m f) []); cbn [negb]; [by rewrite app_nil_r|].
  apply append_argument.
Qed.

(** The strings that an entry changes. *)
Definition start_entry (m : xhyve_virtual_machine) (f : cfg) (a : start_strings) : start_strings :=
  let '(mk_start fw ac br lp ld ne st ex) := a in
  match f with
  | boot_kernel | boot_initrd | boot_options => mk_start (default [] (append (Some fw) (m f))) ac br lp ld ne st ex
  | acpi_enabled => mk_start fw (if MATCH (m acpi_enabled) (str "true") then Some (str "-A") else ac) br lp ld ne st ex
  | bridge_slot | bridge_driver | bridge_configinfo => mk_start fw ac (append_set br (m f)) lp ld ne st ex
  | lpc_slot | lpc_driver => mk_start fw ac br (append_set lp (m f)) ld ne st ex
  | lpc_dev_config => mk_start fw ac br lp (append_set ld (m f)) ne st ex
  | networking_slot | networking_driver | networking_configinfo => mk_start fw ac br lp ld (append_set ne (m f)) st ex
  | internal_storage_slot | internal_storage_driver | internal_storage_configinfo => mk_start fw ac br lp ld ne (append_set st (m f)) ex
  | external_storage_slot | external_storage_driver | external_storage_configinfo =>
      mk_start fw ac br lp ld ne st (if MATCH (m external_storage_configinfo) [] then ex else append ex (m f))
  | machine_name | machine_type | machine_uuid | processor_cpus | memory_size => a
  end.

Lemma start_field_entry m f a : start_field m f a = start_entry m f a.
Proof.
  destruct a, f; try reflexivity; unfold start_field; cbn;
    try (by destruct (MATCH (m external_storage_configinfo) [])); by destruct (MATCH (m acpi_enabled) _).
Qed.

(** What each option is made of. *)
Definition bridge_fields : list cfg := [bridge_slot; bridge_driver; bridge_configinfo].
Definition lpc_fields : list cfg := [lpc_slot; lpc_driver].
Definition internal_fields : list cfg := [internal_storage_slot; internal_storage_driver; internal_storage_configinfo].
Definition external_fields : list cfg := [external_storage_slot; external_storage_driver; external_storage_configinfo].
Definition networking_fields : list cfg := [networking_slot; networking_driver; networking_configinfo].

Lemma start_strings_spec m fw :
  fold_left (fun a f => start_field m f a) all_cfg (mk_start fw None None None None None None None) =
  mk_start (commas [fw; m boot_kernel; m boot_initrd; m boot_options])
    (if MATCH (m acpi_enabled) (str "true") then Some (str "-A") else None)
    (argument (set_fields m bridge_fields)) (argument (set_fields m lpc_fields)) (argument (set_fields m [lpc_dev_config]))
    (argument (set_fields m networking_fields)) (argument (set_fields m internal_fields))
    (if MATCH (m external_storage_configinfo) [] then None else argument (map m external_fields)).
Proof.
  assert (Hdev3 : forall a b c, append_set (append_set (append_set None (m a)) (m b)) (m c) = argument (set_fields m [a; b; c])).
  { intros a b c. change (@None (list ascii)) with (argument (set_fields m [])). rewrite (set_fields_snoc m [] a); cbn [app]; rewrite (set_fields_snoc m [a] b); cbn [app]. apply (set_fields_snoc m [a; b] c). }
  assert (Hdev2 : forall a b, append_set (append_set None (m a)) (m b) = argument (set_fields m [a; b])).
  { intros a b. change (@None (list ascii)) with (argument (set_fields m [])). rewrite (set_fields_snoc m [] a); cbn [app]. apply (set_fields_snoc m [a] b). }
  assert (Hdev1 : forall a, append_set None (m a) = argument (set_fields m [a])) by (intros a; exact (set_fields_snoc m [] a)).
  assert (Hadd3 : forall a b c, append (append (append None a) b) c = argument [a; b; c]).
  { intros a b c. change (@None (list ascii)) with (argument []). rewrite (append_argument [] a); cbn [app]; rewrite (append_argument [a] b); cbn [app]. apply (append_argument [a; b] c). }
  assert (Hfw : forall a b c, default [] (append (Some (default [] (append (Some (default [] (append (Some fw) a))) b))) c) = commas [fw; a; b; c]).
  { intros a b c. change (Some fw) with (argument [fw]). rewrite append_argument. cbn [app argument default]. change (Some (id ?x)) with (Some x).
    change (Some (commas [fw; a])) with (argument [fw; a]). rewrite append_argument. cbn [app argument default]. change (Some (id ?x)) with (Some x).
    change (Some (commas [fw; a; b])) with (argument [fw; a; b]). by rewrite append_argument. }
  unfold all_cfg. cbn [fold_left]. rewrite !start_field_entry. cbn [start_entry]. rewrite Hfw, !Hdev3, Hdev2, Hdev1. f_equal.
  destruct (MATCH (m external_storage_configinfo) []); [done|apply Hadd3].
Qed.

(** The options, each device's from its set fields. *)
Definition device_options : list (string * list cfg) :=
  [("-s"%string, bridge_fields); ("-l"%string, [lpc_dev_config]); ("-s"%string, lpc_fields);
   ("-s"%string, networking_fields); ("-s"%string, internal_fields)].
Definition arguments (m : xhyve_virtual_machine) (fw : list ascii) : list (option (list ascii)) :=
  map Some [str "xhyve"; str "-f"; commas [fw; m boot_kernel; m boot_initrd; m boot_options]; str "-U"; m machine_uuid;
            str "-m"; m memory_size; str "-c"; m processor_cpus] ++
  flat_map (fun o => [Some (str o.1); argument (set_fields m o.2)]) device_options ++
  (if MATCH (m external_storage_configinfo) [] then [] else map Some [str "-s"; commas (map m external_fields)]) ++
  (if MATCH (m acpi_enabled) (str "true") then [Some (str "-A")] else []).

Definition firmwares : list (list ascii * list ascii) := [(str "bsd", str "fbsd"); (str "linux", str "kexec")].

Lemma start_machine_some m fw : (m machine_type, fw) ∈ firmwares -> start_machine m = Some (arguments m fw).
Proof.
  intros H. assert (get_firmware_type m = Some fw) as E.
  { unfold get_firmware_type. unfold firmwares in H. rewrite !elem_of_cons in H. destruct H as [[= -> ->]|[[= -> ->]|H]]; [reflexivity..|by apply not_elem_of_nil in H]. }
  unfold start_machine. rewrite E. cbv zeta. rewrite start_strings_spec. cbn [s_firmware s_acpi s_bridge s_lpc s_lpc_dev s_networking s_internal s_external].
  unfold arguments. by destruct (MATCH (m external_storage_configinfo) []), (MATCH (m acpi_enabled) (str "true")).
Qed.

Lemma get_firmware_type_none m : get_firmware_type m = None <-> m machine_type ∉ map fst firmwares.
Proof.
  change (map fst firmwares) with [str "bsd"; str "linux"]. rewrite !not_elem_of_cons. unfold get_firmware_type.
  rewrite <- !MATCH_spec. destruct (MATCH (m machine_type) (str "bsd")), (MATCH (m machine_type) (str "linux"));
    split; intros H; try discriminate; try (destruct H as (H1 & H2 & _); by destruct H1 || by destruct H2).
  - repeat split; [discriminate..|apply not_elem_of_nil].
  - reflexivity.
Qed.

Lemma start_machine_none m : start_machine m = None <-> m machine_type ∉ map fst firmwares.
Proof.
  rewrite <- get_firmware_type_none. unfold start_machine. destruct (get_firmware_type m); [|done]. split; discriminate.
Qed.

(** A null argument comes from a device without set fields. *)
Definition devices : list (list cfg) := map snd device_options.

Lemma argument_none l : argument l = None <-> l = [].
Proof. by destruct l. Qed.

Lemma not_some {A} (l : list A) : None ∉ map Some l.
Proof. intros H. by apply list_elem_of_fmap in H as (x & E & _). Qed.

Lemma set_fields_nil m l : set_fields m l = [] <-> forall f, f ∈ l -> m f = [].
Proof.
  unfold set_fields. induction l as [|g l IH]; cbn; [split; [intros _ f H; by apply not_elem_of_nil in H|done]|].
  destruct (MATCH (m g) []) eqn:E; cbn.
  - apply MATCH_spec in E. rewrite IH. split; intros H f; [intros [->|]%elem_of_cons; auto|intros ?; apply H; by right].
  - split; [done|]. intros H. by rewrite (H g) in E by left.
Qed.

Lemma arguments_null m fw : None ∈ arguments m fw <-> exists d, d ∈ devices /\ forall f, f ∈ d -> m f = [].
Proof.
  unfold arguments. rewrite !elem_of_app. split.
  - intros [H|[H|[H|H]]].
    + by apply not_some in H.
    + apply list_elem_of_In, in_flat_map in H as ([o d] & Hd & Hn). exists d. split.
      * apply list_elem_of_In. exact (in_map snd _ (o, d) Hd).
      * apply set_fields_nil, argument_none. destruct Hn as [Hn|[Hn|[]]]; [discriminate Hn|exact Hn].
    + destruct (MATCH _ _); [by apply not_elem_of_nil in H|by apply not_some in H].
    + destruct (MATCH _ _); [by apply (not_some [str "-A"]) in H|by apply not_elem_of_nil in H].
  - intros (d & Hd & Hf). right; left. apply set_fields_nil, argument_none in Hf. apply list_elem_of_fmap in Hd as (o & -> & Ho).
    apply list_elem_of_In, in_flat_map. exists o. split; [by apply list_elem_of_In|]. right; left. exact Hf.
Qed.

(** The entries of [exec_args]. *)
Definition exec_args_size : nat := 23.

Lemma arguments_length m fw : (19 <= length (arguments m fw) < exec_args_size)%nat.
Proof.
  unfold arguments, exec_args_size. destruct (MATCH (m external_storage_configinfo) []), (MATCH (m acpi_enabled) (str "true")); cbn; lia.
Qed.

(** C14: starting a machine.  The program exits exactly when the type is
    neither "bsd" nor "linux".  Otherwise the hypervisor gets the firmware's
    name with kernel, initial disk and options, the identifier, memory and
    processors as they are in the configuration, each device as its set fields
    separated by commas, the external storage only when it names an image, and
    "-A" only when ACPI is "true"; the arguments fit in the array with its
    terminating entry; and one of them is null exactly when no field of some
    device is set. *)
Theorem start_arguments (m : xhyve_virtual_machine) :
  (start_machine m = None <-> m machine_type <> str "bsd" /\ m machine_type <> str "linux") /\
  forall fw, (m machine_type, fw) ∈ firmwares ->
    start_machine m = Some (arguments m fw) /\
    (19 <= length (arguments m fw) < exec_args_size)%nat /\
    (None ∈ arguments m fw <-> exists d, d ∈ devices /\ forall f, f ∈ d -> m f = []).
Proof.
  split.
  - rewrite start_machine_none. change (map fst firmwares) with [str "bsd"; str "linux"]. rewrite !not_elem_of_cons.
    split; [by intros (? & ? & _)|]. intros [H1 H2]. repeat split; [exact H1|exact H2|apply not_elem_of_nil].
  - intros fw H. split; [by apply start_machine_some|]. split; [apply arguments_length|apply arguments_null].
Qed.

(** ** Concrete configurations *)

(** Settings other than the defaults, one with the separators and the
    comment character of the format inside. *)
Definition example_machine : xhyve_virtual_machine :=
  set_cfg machine_type (str "bsd") (set_cfg boot_options (str "root=/dev/vda1 x=[a;b] #c") (set_cfg external_storage_configinfo (str "/tmp/a b.iso")
    (set_cfg lpc_dev_config [] initialize_machine_config))).

Lemma config_roundtrip_witness :
  exists m', load_machine_config (Some (write_machine_config example_machine)) false = Some m' /\ (forall f, m' f = example_machine f) /\
    ini_parse handler (Some (write_machine_config example_machine)) initialize_machine_config = Some (m', 0).
Proof. apply (config_roundtrip example_machine). intros f. by destruct f; vm_compute. Defined.

(** A machine whose console device is not set gets a null argument. *)
Lemma start_arguments_witness :
  start_machine example_machine = Some (arguments example_machine (str "fbsd")) /\ arguments example_machine (str "fbsd") !! 12%nat = Some None.
Proof. split; [apply (start_arguments example_machine); left|reflexivity]. Defined.

Example start_default :
  start_machine initialize_machine_config = Some (map (fun s => Some (str s))
    ["xhyve"; "-f"; "kexec,vmlinuz,initrd.gz,earlyprintk=serial console=ttyS0 acpi=off"; "-U"; ""; "-m"; "1G"; "-c"; "1";
     "-s"; "0:0,hostbridge"; "-l"; "com1,stdio"; "-s"; "31,lpc"; "-s"; "2:0,virtio-net";
     "-s"; "4,virtio-blk,/usr/local/Library/xhyve/vdisks/hdd.img"]%string).
Proof. by vm_compute. Qed.

(** A value with a comment's start is cut when it is read back. *)
Example comment_cut :
  let m := set_cfg boot_options (str "a ;b") initialize_machine_config in
  storable boot_options (str "a ;b") = false /\
  (fun m' => m' boot_options) <$> load_machine_config (Some (write_machine_config m)) false = Some (str "a").
Proof. by vm_compute. Qed.

(** A line without a separator is no error for the program. *)
Example invalid_file_loads :
  ini_parse handler (Some (str "nonsense")) initialize_machine_config = Some (initialize_machine_config, 1) /\
  load_machine_config (Some (str "nonsense")) false = Some initialize_machine_config.
Proof. split; reflexivity. Qed.
