(* ===== verification/Virtio.v ===== *)
(** * Virtio devices (src/src/virtio.c, include/xhyve/virtio.h)

    The part that all virtio devices share: the registers a driver finds behind
    base address register 0, and the queues of requests in guest memory.  A
    queue is set up by its page frame number; its descriptors, available ring
    and used ring are read and written through host pointers.

    The state is a device's [virtio_softc], its PCI function [P] (the class
    [VirtioPci]), its own data [D], and guest memory with the map of the user
    level ([VmApi]).  Guest memory is shared: [guest n] is what the guest's
    CPUs write before the [n]-th load of the device.  An access through a
    pointer that is null or leaves guest memory is the outcome [Panic].
    Diagnostics are not modelled. *)

From S2P Require Import Prelude Effects Vmm Paging VmApi PciCfg.

Local Open Scope cmd_scope.

Definition VRING_DESC_F_NEXT : Z := 1.
Definition VRING_DESC_F_INDIRECT : Z := 4.
Definition VRING_AVAIL_F_NO_INTERRUPT : Z := 1.
Definition VRING_ALIGN : Z := 4096.
Definition VRING_PFN : Z := 12.
Definition VTCFG_R_HOSTCAP : Z := 0.
Definition VTCFG_R_GUESTCAP : Z := 4.
Definition VTCFG_R_PFN : Z := 8.
Definition VTCFG_R_QNUM : Z := 12.
Definition VTCFG_R_QSEL : Z := 14.
Definition VTCFG_R_QNOTIFY : Z := 16.
Definition VTCFG_R_STATUS : Z := 18.
Definition VTCFG_R_ISR : Z := 19.
Definition VTCFG_R_CFGVEC : Z := 20.
Definition VTCFG_R_QVEC : Z := 22.
Definition VTCFG_R_CFG0 : Z := 20.
Definition VTCFG_R_CFG1 : Z := 24.
Definition VTCFG_ISR_QUEUES : Z := 0x01.
Definition VIRTIO_MSI_NO_VECTOR : Z := 0xFFFF.
Definition VIRTIO_F_NOTIFY_ON_EMPTY : Z := 0x1000000.
Definition VIRTIO_RING_F_INDIRECT_DESC : Z := 0x10000000.
Definition VIRTIO_RING_F_EVENT_IDX : Z := 0x20000000.
Definition VIRTIO_USE_MSIX : Z := 0x01.
Definition VQ_ALLOC : Z := 0x01.
Definition VQ_MAX_DESCRIPTORS : Z := 512.

Definition vring_size (qsz : Z) : Z :=
  let size := u64 (16 * qsz + 2 * (3 + qsz)) in
  let size := roundup2 size VRING_ALIGN in
  let size := size + (2 * 3 + 8 * qsz) in
  roundup2 size VRING_ALIGN.

(** A null pointer is [None]. *)
Record vqueue_info : Type := mk_vq {
  vq_qsize : Z;
  vq_flags : Z;
  vq_last_avail : Z;
  vq_save_used : Z;
  vq_msix_idx : Z;
  vq_pfn : Z;
  vq_desc : option hva;
  vq_avail : option hva;
  vq_used : option hva;
}.
#[export] Instance eta_vq : Eta vqueue_info := fun q =>
  mk_vq (vq_qsize q) (vq_flags q) (vq_last_avail q) (vq_save_used q) (vq_msix_idx q) (vq_pfn q) (vq_desc q) (vq_avail q) (vq_used q).

Record virtio_softc : Type := mk_vs {
  vs_flags : Z;
  vs_negotiated_caps : Z;
  vs_queues : list vqueue_info;
  vs_curq : Z;
  vs_status : Z;
  vs_isr : Z;
  vs_msix_cfg_idx : Z;
}.
#[export] Instance eta_vs : Eta virtio_softc := fun v =>
  mk_vs (vs_flags v) (vs_negotiated_caps v) (vs_queues v) (vs_curq v) (vs_status v) (vs_isr v) (vs_msix_cfg_idx v).

(** The numbers of [struct virtio_consts]; its functions are below. *)
Record virtio_consts : Type := mk_vc { vc_nvq : Z; vc_cfgsize : Z; vc_hv_caps : Z }.

(** What virtio uses of its PCI function. *)
Class VirtioPci (P : Type) := {
  vp_msix_enabled : P -> bool;
  vp_table_bar : P -> Z;
  vp_pba_bar : P -> Z;
  vp_msix_tread : Z -> Z -> cmd P Z;
  vp_msix_twrite : Z -> Z -> Z -> cmd P Z;
  vp_generate_msix : Z -> cmd P unit;
  vp_generate_msi : Z -> cmd P unit;
  vp_lintr_assert : cmd P unit;
  vp_lintr_deassert : cmd P unit;
}.

(** A function that is set up answers every call and stays so. *)
Class VirtioPciLaws (P : Type) `{!VirtioPci P} := {
  vp_ok : P -> Prop;
  msix_tread_returns o n p : vp_ok p -> o in_u 31 -> wp (vp_msix_tread o n) (fun _ p' => vp_ok p') p;
  msix_twrite_returns o n v p : vp_ok p -> o in_u 31 -> v in_u 64 -> wp (vp_msix_twrite o n v) (fun _ p' => vp_ok p') p;
  generate_msix_keeps i p p' : vp_ok p -> vp_generate_msix i p = Return (tt, p') -> vp_ok p';
  generate_msi_returns i p : vp_ok p -> wp (vp_generate_msi i) (fun _ p' => vp_ok p') p;
  lintr_assert_returns p : vp_ok p -> wp vp_lintr_assert (fun _ p' => vp_ok p') p;
  lintr_deassert_returns p : vp_ok p -> wp vp_lintr_deassert (fun _ p' => vp_ok p') p;
}.

Record vio (P D : Type) : Type := mk_vio {
  vsc : virtio_softc;
  vpi : P;
  vdev : D;
  vgmap : guest_map;
  vmem : hva -> Z;
  vloads : nat;
}.
Arguments mk_vio {P D}.
Arguments vsc {P D}.
Arguments vpi {P D}.
Arguments vdev {P D}.
Arguments vgmap {P D}.
Arguments vmem {P D}.
Arguments vloads {P D}.
#[export] Instance eta_vio {P D} : Eta (vio P D) := fun s => mk_vio (vsc s) (vpi s) (vdev s) (vgmap s) (vmem s) (vloads s).

(** One of the two blocks of guest memory contains the [n] bytes at [h]. *)
Definition block_ok (base : option hva) (len : Z) (h : hva) (n : Z) : bool :=
  match base with
  | Some b => (h.1 =? b.1) && (b.2 <=? h.2) && (h.2 + n <=? b.2 + len)
  | None => false
  end.
Definition host_ok (g : guest_map) (h : hva) (n : Z) : bool :=
  block_ok (lowmem_addr g) (lowmem g) h n || block_ok (highmem_addr g) (highmem g) h n.

(** ** The registers *)

Record config_reg : Type := mk_cr { cr_offset : Z; cr_size : Z; cr_ro : bool }.
Definition config_regs : list config_reg :=
  [mk_cr VTCFG_R_HOSTCAP 4 true; mk_cr VTCFG_R_GUESTCAP 4 false; mk_cr VTCFG_R_PFN 4 false; mk_cr VTCFG_R_QNUM 2 true;
   mk_cr VTCFG_R_QSEL 2 false; mk_cr VTCFG_R_QNOTIFY 2 false; mk_cr VTCFG_R_STATUS 1 false; mk_cr VTCFG_R_ISR 1 false;
   mk_cr VTCFG_R_CFGVEC 2 false; mk_cr VTCFG_R_QVEC 2 false].

(** The binary search; [Panic] when it reads behind the table. *)
Fixpoint find_cr_loop {S} (fuel : nat) (lo hi offset : Z) : cmd S (option config_reg) :=
  if lo <=? hi then
    match fuel with
    | O => fun _ => Hang
    | Datatypes.S fuel =>
        let mid := Z.shiftr (u32 (hi + lo)) 1 in
        match config_regs !! Z.to_nat mid with
        | None => fun _ => Panic
        | Some cr =>
            if cr_offset cr =? offset then ret (Some cr)
            else if cr_offset cr <? offset then find_cr_loop fuel (u32 (mid + 1)) hi offset
            else find_cr_loop fuel lo (u32 (mid - 1)) offset
        end
    end
  else ret None.
Definition vi_find_cr {S} (offset : Z) : cmd S (option config_reg) :=
  find_cr_loop (length config_regs) 0 (Z.of_nat (length config_regs) - 1) offset.

Section Virtio.
Context {P D : Type} `{!VirtioPci P}.
Context (guest : nat -> (hva -> Z) -> hva -> Z).
Context (vc : virtio_consts).
Local Abbreviation S := (vio P D).
Local Abbreviation M := (cmd S).

(** ** Guest memory *)

Definition paddr_guest2host (gaddr len : Z) : M (option hva) :=
  st <- gets (fun s => mmap_style (vgmap s)) ;;
  KASSERT (bool_decide (st = VM_MMAP_ALL)) ;;;
  gets (fun s => map_gpa gaddr len (vgmap s)).

(** The [n]-byte load from a volatile field at offset [off] of [p]. *)
Definition vload (n : nat) (p : option hva) (off : Z) : M Z := fun s =>
  match p with
  | None => Panic
  | Some b =>
      let h := hva_add b off in
      let m := guest (vloads s) (vmem s) in
      if host_ok (vgmap s) h (Z.of_nat n)
      then Return (load n h m, s <| vmem := m |> <| vloads ::= Datatypes.S |>) else Panic
  end.
Definition vstore (n : nat) (p : option hva) (off v : Z) : M unit := fun s =>
  match p with
  | None => Panic
  | Some b =>
      let h := hva_add b off in
      if host_ok (vgmap s) h (Z.of_nat n) then Return (tt, s <| vmem ::= store n h v |>) else Panic
  end.

(** The fields of [struct virtio_desc]. *)
Definition vd_addr (p : option hva) : M Z := vload 8 p 0.
Definition vd_len (p : option hva) : M Z := vload 4 p 8.
Definition vd_flags (p : option hva) : M Z := vload 2 p 12.
Definition vd_next (p : option hva) : M Z := vload 2 p 14.
Definition desc_at (p : option hva) (i : Z) : option hva := (fun b => hva_add b (16 * i)) <$> p.

(** [struct vring_avail] and [struct vring_used]. *)
Definition va_flags (q : vqueue_info) : M Z := vload 2 (vq_avail q) 0.
Definition va_idx (q : vqueue_info) : M Z := vload 2 (vq_avail q) 2.
Definition va_ring (q : vqueue_info) (i : Z) : M Z := vload 2 (vq_avail q) (4 + 2 * i).
Definition vu_idx (q : vqueue_info) : M Z := vload 2 (vq_used q) 2.
Definition set_vu_idx (q : vqueue_info) (v : Z) : M unit := vstore 2 (vq_used q) 2 v.
Definition set_vu_ring (q : vqueue_info) (i idx tlen : Z) : M unit :=
  vstore 4 (vq_used q) (4 + 8 * i) idx ;;; vstore 4 (vq_used q) (8 + 8 * i) tlen.
Definition VQ_USED_EVENT_IDX (q : vqueue_info) : M Z := va_ring q (vq_qsize q).

(** ** Queues *)

(** [vs_queues[i]]. *)
Definition get_vq (i : Z) : M vqueue_info := fun s =>
  match (if 0 <=? i then vs_queues (vsc s) !! Z.to_nat i else None) with Some q => Return (q, s) | None => Panic end.
Definition on_vq (i : Z) (f : vqueue_info -> vqueue_info) : M unit :=
  update (fun s => s <| vsc ::= fun v => v <| vs_queues ::= alter f (Z.to_nat i) |> |>).
Definition on_pi {A} (c : cmd P A) : M A := fun s =>
  match c (vpi s) with Return (a, p) => Return (a, s <| vpi := p |>) | Panic => Panic | Hang => Hang end.

Definition vi_vq_init (pfn : Z) : M unit :=
  i <- gets (fun s => vs_curq (vsc s)) ;;
  on_vq i (fun q => q <| vq_pfn := pfn |>) ;;;
  q <- get_vq i ;;
  let phys := u64 (Z.shiftl pfn VRING_PFN) in
  let size := vring_size (vq_qsize q) in
  base <- paddr_guest2host phys size ;;
  let avail := (fun b => hva_add b (vq_qsize q * 16)) <$> base in
  let base' := (fun b => hva_add b ((2 + vq_qsize q + 1) * 2)) <$> avail in
  let used := (fun b : hva => (b.1, roundup2 b.2 VRING_ALIGN)) <$> base' in
  on_vq i (fun q => q <| vq_desc := base |> <| vq_avail := avail |> <| vq_used := used |>
                     <| vq_flags := VQ_ALLOC |> <| vq_last_avail := 0 |> <| vq_save_used := 0 |>).

Definition vq_ring_ready (q : vqueue_info) : bool := tst (vq_flags q) VQ_ALLOC.

Definition vq_has_descs (i : Z) : M bool :=
  q <- get_vq i ;;
  if vq_ring_ready q then x <- va_idx q ;; ret (negb (vq_last_avail q =? x)) else ret false.

(** An entry of [iov], with the flags when the caller wants them. *)
Record iovec : Type := mk_iov { iov_base : option hva; iov_len : Z; iov_flags : option Z }.

(** [iov] holds the entries recorded so far. *)
Definition vq_record (i : Z) (vd : option hva) (iov : list iovec) (n_iov : Z) (flags : bool) : M (list iovec) :=
  if n_iov <=? i then ret iov
  else
    a <- vd_addr vd ;; l <- vd_len vd ;;
    base <- paddr_guest2host a l ;;
    len <- vd_len vd ;;
    fl <- (if flags then f <- vd_flags vd ;; ret (Some f) else ret None) ;;
    ret (iov ++ [mk_iov base len fl]).

(** The loop over an indirect table; [None] for the ends that return -1.  One
    round of fuel for each descriptor up to [VQ_MAX_DESCRIPTORS]. *)
Fixpoint indir_loop (fuel : nat) (vindir : option hva) (n_indir n_iov : Z) (flags : bool) (next i : Z) (iov : list iovec) : M (option Z * list iovec) :=
  match fuel with
  | O => fun _ => Hang
  | Datatypes.S fuel =>
      let vp := desc_at vindir next in
      f <- vd_flags vp ;;
      if tst f VRING_DESC_F_INDIRECT then ret (None, iov)
      else
        iov <- vq_record i vp iov n_iov flags ;;
        let i := i + 1 in
        if VQ_MAX_DESCRIPTORS <? i then ret (None, iov)
        else
          f <- vd_flags vp ;;
          if negb (tst f VRING_DESC_F_NEXT) then ret (Some i, iov)
          else
            next <- vd_next vp ;;
            if n_indir <=? next then ret (None, iov)
            else indir_loop fuel vindir n_indir n_iov flags next i iov
  end.

(** One descriptor of the queue: itself or its indirect table. *)
Definition chain_desc (vdir : option hva) (n_iov : Z) (flags : bool) (i : Z) (iov : list iovec) : M (option Z * list iovec) :=
  f <- vd_flags vdir ;;
  if negb (tst f VRING_DESC_F_INDIRECT) then
    iov <- vq_record i vdir iov n_iov flags ;; ret (Some (i + 1), iov)
  else if negb (tst (vc_hv_caps vc) VIRTIO_RING_F_INDIRECT_DESC) then ret (None, iov)
  else
    len <- vd_len vdir ;;
    let n_indir := len / 16 in
    len <- vd_len vdir ;;
    if negb (Z.land len 0xf =? 0) || (n_indir =? 0) then ret (None, iov)
    else
      addr <- vd_addr vdir ;; len <- vd_len vdir ;;
      vindir <- paddr_guest2host addr len ;;
      indir_loop (Z.to_nat (VQ_MAX_DESCRIPTORS + 1 - i)) vindir n_indir n_iov flags 0 i iov.

Fixpoint chain_loop (fuel : nat) (q : vqueue_info) (n_iov : Z) (flags : bool) (next i : Z) (iov : list iovec) : M (Z * list iovec) :=
  if i <? VQ_MAX_DESCRIPTORS then
    match fuel with
    | O => fun _ => Hang
    | Datatypes.S fuel =>
        if vq_qsize q <=? next then ret (-1, iov)
        else
          let vdir := desc_at (vq_desc q) next in
          r <- chain_desc vdir n_iov flags i iov ;;
          match r with
          | (None, iov) => ret (-1, iov)
          | (Some i, iov) =>
              f <- vd_flags vdir ;;
              if negb (tst f VRING_DESC_F_NEXT) then ret (i, iov)
              else next <- vd_next vdir ;; chain_loop fuel q n_iov flags next i iov
          end
    end
  else ret (-1, iov).

(** The return value, [*pidx] when it is set, and the entries of [iov] that
    are. *)
Definition vq_getchain (i : Z) (n_iov : Z) (flags : bool) : M (Z * option Z * list iovec) :=
  q <- get_vq i ;;
  let idx := vq_last_avail q in
  x <- va_idx q ;;
  let ndesc := u16 (x - idx) in
  if ndesc =? 0 then ret (0, None, [])
  else if vq_qsize q <? ndesc then ret (-1, None, [])
  else
    next <- va_ring q (Z.land idx (vq_qsize q - 1)) ;;
    on_vq i (fun q => q <| vq_last_avail ::= fun a => u16 (a + 1) |>) ;;;
    r <- chain_loop (Z.to_nat VQ_MAX_DESCRIPTORS) q n_iov flags next 0 [] ;;
    ret (r.1, Some next, r.2).

Definition vq_retchain (i : Z) : M unit := on_vq i (fun q => q <| vq_last_avail ::= fun a => u16 (a - 1) |>).

Definition vq_relchain (i idx iolen : Z) : M unit :=
  q <- get_vq i ;;
  let mask := u16 (vq_qsize q - 1) in
  uidx <- vu_idx q ;;
  set_vu_ring q (Z.land uidx mask) idx iolen ;;;
  set_vu_idx q (u16 (uidx + 1)).

Definition vq_interrupt (i : Z) : M unit :=
  e <- gets (fun s => vp_msix_enabled (vpi s)) ;;
  if e then q <- get_vq i ;; on_pi (vp_generate_msix (vq_msix_idx q))
  else
    update (fun s => s <| vsc ::= fun v => v <| vs_isr ::= fun x => Z.lor x VTCFG_ISR_QUEUES |> |>) ;;;
    on_pi (vp_generate_msi 0) ;;; on_pi vp_lintr_assert.

Definition vq_endchains (i : Z) (used_all_avail : bool) : M unit :=
  q <- get_vq i ;;
  let old_idx := vq_save_used q in
  new_idx <- vu_idx q ;;
  on_vq i (fun q => q <| vq_save_used := new_idx |>) ;;;
  caps <- gets (fun s => vs_negotiated_caps (vsc s)) ;;
  intr <- (if used_all_avail && tst caps VIRTIO_F_NOTIFY_ON_EMPTY then ret true
           else if tst caps VIRTIO_RING_F_EVENT_IDX then
             event_idx <- VQ_USED_EVENT_IDX q ;;
             ret (u16 (new_idx - event_idx - 1) <? u16 (new_idx - old_idx))
           else if new_idx =? old_idx then ret false
           else f <- va_flags q ;; ret (negb (tst f VRING_AVAIL_F_NO_INTERRUPT))) ;;
  when intr (vq_interrupt i).

(** ** Reset *)

Definition reset_vq (q : vqueue_info) : vqueue_info :=
  q <| vq_flags := 0 |> <| vq_last_avail := 0 |> <| vq_save_used := 0 |> <| vq_pfn := 0 |> <| vq_msix_idx := VIRTIO_MSI_NO_VECTOR |>.

Definition vi_reset_dev : M unit :=
  update (fun s => s <| vsc ::= fun v => v <| vs_queues ::= map reset_vq |> <| vs_negotiated_caps := 0 |> <| vs_curq := 0 |> |>) ;;;
  isr <- gets (fun s => vs_isr (vsc s)) ;;
  when (negb (isr =? 0)) (on_pi vp_lintr_deassert) ;;;
  update (fun s => s <| vsc ::= fun v => v <| vs_isr := 0 |> <| vs_msix_cfg_idx := VIRTIO_MSI_NO_VECTOR |> |>).

(** ** Register accesses *)

(** The functions of [struct virtio_consts]; [None] for null. *)
Context (vc_reset : M unit) (vc_qnotify : option (Z -> M unit)) (vq_notify : Z -> option (Z -> M unit)).
Context (vc_cfgread : option (Z -> Z -> Z -> M (Z * Z))) (vc_cfgwrite : option (Z -> Z -> Z -> M Z)).
Context (vc_apply_features : option (Z -> M unit)).

Definition config_size : M Z := e <- gets (fun s => vp_msix_enabled (vpi s)) ;; ret (if e then VTCFG_R_CFG1 else VTCFG_R_CFG0).

(** The offset in the registers of the device itself, when the access is in
    them. *)
Definition device_offset (offset size : Z) : M (option Z) :=
  if (size =? 1) || (size =? 2) || (size =? 4) then
    csize <- config_size ;;
    if csize <=? offset then
      let newoff := u32 (offset - csize) in
      let max := if vc_cfgsize vc =? 0 then 0x100000000 else vc_cfgsize vc in
      ret (if max <? u32 (newoff + size) then None else Some newoff)
    else ret None
  else ret None.

Definition msix_bar (baridx : Z) : M bool :=
  gets (fun s => tst (vs_flags (vsc s)) VIRTIO_USE_MSIX && ((baridx =? vp_table_bar (vpi s)) || (baridx =? vp_pba_bar (vpi s)))).

(** The switches; [value] is what the register reads as otherwise. *)
Definition read_cr (offset value : Z) : M Z :=
  v <- gets vsc ;;
  let curq := vs_curq v in
  if offset =? VTCFG_R_HOSTCAP then ret (u32 (vc_hv_caps vc))
  else if offset =? VTCFG_R_GUESTCAP then ret (vs_negotiated_caps v)
  else if offset =? VTCFG_R_PFN then if curq <? vc_nvq vc then q <- get_vq curq ;; ret (vq_pfn q) else ret value
  else if offset =? VTCFG_R_QNUM then if curq <? vc_nvq vc then q <- get_vq curq ;; ret (vq_qsize q) else ret 0
  else if offset =? VTCFG_R_QSEL then ret (u32 curq)
  else if offset =? VTCFG_R_QNOTIFY then ret 0
  else if offset =? VTCFG_R_STATUS then ret (vs_status v)
  else if offset =? VTCFG_R_ISR then
    update (fun s => s <| vsc ::= fun v => v <| vs_isr := 0 |> |>) ;;;
    when (negb (vs_isr v =? 0)) (on_pi vp_lintr_deassert) ;;;
    ret (vs_isr v)
  else if offset =? VTCFG_R_CFGVEC then ret (vs_msix_cfg_idx v)
  else if offset =? VTCFG_R_QVEC then if curq <? vc_nvq vc then q <- get_vq curq ;; ret (vq_msix_idx q) else ret VIRTIO_MSI_NO_VECTOR
  else ret value.

Definition vi_pci_read (baridx offset size : Z) : M Z :=
  m <- msix_bar baridx ;;
  if m then on_pi (vp_msix_tread offset size)
  else
    KASSERT (baridx =? 0) ;;;
    let value := if size =? 1 then 0xff else if size =? 2 then 0xffff else 0xffffffff in
    o <- device_offset offset size ;;
    r <- match o with
         | None => ret (1, value)
         | Some newoff => match vc_cfgread with None => fun _ => Panic | Some f => f newoff size value end
         end ;;
    if r.1 =? 0 then ret r.2
    else
      cr <- vi_find_cr (i32 offset) ;;
      match cr with
      | Some cr => if cr_size cr =? size then read_cr offset r.2 else ret r.2
      | None => ret r.2
      end.

Definition write_cr (offset value : Z) : M unit :=
  if offset =? VTCFG_R_GUESTCAP then
    let caps := u32 (Z.land value (vc_hv_caps vc)) in
    update (fun s => s <| vsc ::= fun v => v <| vs_negotiated_caps := caps |> |>) ;;;
    match vc_apply_features with Some f => f caps | None => skip end
  else if offset =? VTCFG_R_PFN then
    curq <- gets (fun s => vs_curq (vsc s)) ;;
    if vc_nvq vc <=? curq then skip else vi_vq_init (u32 value)
  else if offset =? VTCFG_R_QSEL then update (fun s => s <| vsc ::= fun v => v <| vs_curq := i32 value |> |>)
  else if offset =? VTCFG_R_QNOTIFY then
    if vc_nvq vc <=? value then skip
    else match vq_notify value with
         | Some f => f value
         | None => match vc_qnotify with Some f => f value | None => skip end
         end
  else if offset =? VTCFG_R_STATUS then
    update (fun s => s <| vsc ::= fun v => v <| vs_status := u8 value |> |>) ;;;
    when (value =? 0) vc_reset
  else if offset =? VTCFG_R_CFGVEC then update (fun s => s <| vsc ::= fun v => v <| vs_msix_cfg_idx := u16 value |> |>)
  else if offset =? VTCFG_R_QVEC then
    curq <- gets (fun s => vs_curq (vsc s)) ;;
    if vc_nvq vc <=? curq then skip
    else get_vq curq ;;; on_vq curq (fun q => q <| vq_msix_idx := u16 value |>)
  else skip.

Definition vi_pci_write (baridx offset size value : Z) : M unit :=
  m <- msix_bar baridx ;;
  if m then on_pi (vp_msix_twrite offset size value) ;;; skip
  else
    KASSERT (baridx =? 0) ;;;
    o <- device_offset offset size ;;
    e <- match o with
         | None => ret 1
         | Some newoff => match vc_cfgwrite with None => fun _ => Panic | Some f => f newoff size (u32 value) end
         end ;;
    if e =? 0 then skip
    else
      cr <- vi_find_cr (i32 offset) ;;
      match cr with
      | Some cr => if (cr_size cr =? size) && negb (cr_ro cr) then write_cr offset value else skip
      | None => skip
      end.
End Virtio.
