(* ===== verification/VirtioChain.v ===== *)
(** * Chains of descriptors (src/src/virtio.c)

    [vq_getchain] against a specification of the chains a driver can build: a
    descriptor stands for itself or for the chain of its indirect table. *)

From S2P Require Import Prelude Effects Vmm Paging VmApi PciCfg Virtio.

Local Open Scope cmd_scope.

(** ** Blocks of guest memory *)

Record map_ok (g : guest_map) : Prop := {
  mo_style : mmap_style g = VM_MMAP_ALL;
  mo_low : 0 <= lowmem g < 2 ^ 62;
  mo_high : 0 <= highmem g < 2 ^ 62;
}.

Lemma block_ok_spec base len h n : block_ok base len h n = true <-> exists b, base = Some b /\ h.1 = b.1 /\ b.2 <= h.2 /\ h.2 + n <= b.2 + len.
Proof.
  unfold block_ok. destruct base as [b|]; [|split; [done|by intros (b & [=] & _)]].
  rewrite !andb_true_iff, Z.eqb_eq, !Z.leb_le. split; [intros [[? ?] ?]; by exists b|]. intros (b' & [= <-] & ? & ? & ?). done.
Qed.

Lemma host_ok_sub g h n k l : host_ok g h n = true -> 0 <= k -> k + l <= n -> host_ok g (hva_add h k) l = true.
Proof.
  unfold host_ok. rewrite !orb_true_iff, !block_ok_spec. unfold hva_add. cbn [fst snd].
  intros [(b & Eb & E & H1 & H2)|(b & Eb & E & H1 & H2)] Hk Hl; [left|right]; exists b; repeat split; try done; lia.
Qed.

Lemma block_add b (base : option hva) len k n : base = Some b -> 0 <= k -> k + n <= len -> block_ok base len (hva_add b k) n = true.
Proof. intros E Hk Hn. apply block_ok_spec. exists b. unfold hva_add. cbn. repeat split; try done; lia. Qed.

Lemma map_gpa_host_ok g a len h : map_ok g -> 0 <= a -> 0 <= len < 2 ^ 63 -> map_gpa a len g = Some h -> host_ok g h len = true.
Proof.
  intros [_ Hl Hh] Ha Hlen. unfold map_gpa, host_ok.
  destruct (Z.ltb_spec a (lowmem g)) as [Hlt|_], (Z.leb_spec (u64 (a + len)) (lowmem g)) as [H|H]; cbn [andb].
  { rewrite u64_id in H by lia. destruct (lowmem_addr g) as [b|] eqn:E; [|done]. intros [= <-]. by rewrite block_add. }
  all: destruct (Z.leb_spec (4 * GB) a); [|done]; destruct (Z.ltb_spec (a - 4 * GB) (highmem g)); [|done]; cbn [andb];
    rewrite u64_id by (unfold GB in *; lia); destruct (Z.leb_spec (a - 4 * GB + len) (highmem g)); [|done];
    destruct (highmem_addr g) as [b|] eqn:E; [|done]; intros [= <-]; apply orb_true_iff; right; apply block_add; done || lia.
Qed.

(** ** Descriptors *)

Record desc : Type := mk_desc { d_addr : Z; d_len : Z; d_flags : Z; d_next : Z }.

Definition desc_of (m : hva -> Z) (h : hva) : desc :=
  mk_desc (load 8 (hva_add h 0) m) (load 4 (hva_add h 8) m) (load 2 (hva_add h 12) m) (load 2 (hva_add h 14) m).

Definition indirect (d : desc) : bool := tst (d_flags d) VRING_DESC_F_INDIRECT.
Definition has_next (d : desc) : bool := tst (d_flags d) VRING_DESC_F_NEXT.
(** The length of an indirect table. *)
Definition table_len (d : desc) : Prop := d_len d mod 16 = 0 /\ 0 < d_len d.

Lemma desc_of_range m h : bytes_ok m -> 0 <= d_addr (desc_of m h) /\ 0 <= d_len (desc_of m h) < 2 ^ 32 /\ 0 <= d_next (desc_of m h).
Proof.
  intros Hm. cbn. pose proof (load_range 8 (hva_add h 0) m Hm). pose proof (load_range 4 (hva_add h 8) m Hm).
  pose proof (load_range 2 (hva_add h 14) m Hm). cbn in *; lia.
Qed.

Section Spec.
Context (m : hva -> Z) (g : guest_map) (caps qsize : Z) (ring : hva).

(** The chain of an indirect table of [n] descriptors from entry [i] on. *)
Inductive table_chain (tbl : hva) (n : Z) : Z -> list desc -> Prop :=
| table_last i (d := desc_of m (hva_add tbl (16 * i))) : indirect d = false -> has_next d = false -> table_chain tbl n i [d]
| table_next i (d := desc_of m (hva_add tbl (16 * i))) ds : indirect d = false -> has_next d = true -> d_next d < n ->
    table_chain tbl n (d_next d) ds -> table_chain tbl n i (d :: ds).

(** The descriptors that one descriptor of the queue stands for. *)
Inductive stands_for (d : desc) : list desc -> Prop :=
| direct_desc : indirect d = false -> stands_for d [d]
| indirect_desc tbl ds : indirect d = true -> tst caps VIRTIO_RING_F_INDIRECT_DESC = true -> table_len d ->
    map_gpa (d_addr d) (d_len d) g = Some tbl -> table_chain tbl (d_len d / 16) 0 ds -> stands_for d ds.

(** The chain from entry [i] of the queue on. *)
Inductive chain : Z -> list desc -> Prop :=
| chain_last i (d := desc_of m (hva_add ring (16 * i))) ds : i < qsize -> stands_for d ds -> has_next d = false -> chain i ds
| chain_next i (d := desc_of m (hva_add ring (16 * i))) ds ds' : i < qsize -> stands_for d ds -> has_next d = true ->
    chain (d_next d) ds' -> chain i (ds ++ ds').
End Spec.

Lemma table_chain_inv m tbl n i ds (d := desc_of m (hva_add tbl (16 * i))) : table_chain m tbl n i ds ->
  indirect d = false /\ ((has_next d = false /\ ds = [d]) \/
    exists ds', has_next d = true /\ d_next d < n /\ table_chain m tbl n (d_next d) ds' /\ ds = d :: ds').
Proof. destruct 1; (split; [done|]); [by left|right; by eexists]. Qed.

Lemma chain_inv m g caps qsize ring i ds (d := desc_of m (hva_add ring (16 * i))) : chain m g caps qsize ring i ds ->
  i < qsize /\ exists ds1, stands_for m g caps d ds1 /\ ((has_next d = false /\ ds = ds1) \/
    exists ds', has_next d = true /\ chain m g caps qsize ring (d_next d) ds' /\ ds = ds1 ++ ds').
Proof. destruct 1; (split; [done|]); eexists; (split; [done|]); [by left|right; by eexists]. Qed.

Lemma table_chain_length m tbl n i ds : table_chain m tbl n i ds -> (0 < length ds)%nat.
Proof. by destruct 1; cbn; lia. Qed.

Lemma chain_length m g caps qsize ring i ds : chain m g caps qsize ring i ds -> (0 < length ds)%nat.
Proof.
  induction 1 as [? ? ? Hi Hs|? ? ? ? Hi Hs Hn Hc IH]; [|rewrite length_app; lia]. destruct Hs; [cbn; lia|by eapply table_chain_length].
Qed.

Lemma table_chain_det m tbl n i ds : table_chain m tbl n i ds -> forall ds', table_chain m tbl n i ds' -> ds = ds'.
Proof.
  induction 1 as [i d Hi Hn|i d ds Hi Hn Hlt Hc IH]; intros ds' [_ [[E ->]|(l & E & _ & Hl & ->)]]%table_chain_inv; fold d in E |- *; try congruence.
  f_equal. by apply IH.
Qed.

Lemma stands_for_det m g caps d ds ds' : stands_for m g caps d ds -> stands_for m g caps d ds' -> ds = ds'.
Proof.
  intros [Hi|tbl l Hi _ _ Ht Hc]; inversion 1 as [|tbl' l' ? ? ? Ht' Hc']; try congruence. rewrite Ht in Ht'. injection Ht' as <-.
  by apply (table_chain_det _ _ _ _ _ Hc).
Qed.

(** ** Code that only loads *)

Section Reads.
Context {P D : Type} `{!VirtioPci P}.
Context (guest : nat -> (hva -> Z) -> hva -> Z) (vc : virtio_consts).
Context (Hquiet : forall n m, guest n m = m).
Local Abbreviation S := (vio P D).

Definition tick (k : nat) (s : S) : S := s <| vloads := k |>.

(** [c] reads [v]: it returns it and only counts loads. *)
Definition reads {A} (c : cmd S A) (v : A) (s : S) : Prop := forall j, exists k, c (tick j s) = Return (v, tick k s).

Lemma reads_ret {A} (v : A) s : reads (ret v) v s.
Proof. intros j. by exists j. Qed.

Lemma reads_bind {A B} (c : cmd S A) (f : A -> cmd S B) v w s : reads c v s -> reads (f v) w s -> reads (bind c f) w s.
Proof. intros Hc Hf j. destruct (Hc j) as [k E]. destruct (Hf k) as [k' E']. exists k'. unfold bind. by rewrite E. Qed.

Lemma reads_gets {A} (f : S -> A) s : (forall j, f (tick j s) = f s) -> reads (gets f) (f s) s.
Proof. intros H j. exists j. unfold gets. by rewrite H. Qed.

Lemma reads_vload n b off s : host_ok (vgmap s) (hva_add b off) (Z.of_nat n) = true ->
  reads (vload guest n (Some b) off) (load n (hva_add b off) (vmem s)) s.
Proof. intros H j. exists (Datatypes.S j). unfold vload. cbn. by rewrite H, Hquiet. Qed.

Lemma reads_guest2host a len s : mmap_style (vgmap s) = VM_MMAP_ALL -> reads (paddr_guest2host a len) (map_gpa a len (vgmap s)) s.
Proof.
  intros H. unfold paddr_guest2host. eapply reads_bind; [by apply reads_gets|]. rewrite H. intros j. by exists j.
Qed.

(** A descriptor in guest memory. *)
Section Desc.
Context (s : S) (h : hva) (Hh : host_ok (vgmap s) h 16 = true).

Lemma reads_vd_addr : reads (vd_addr guest (Some h)) (d_addr (desc_of (vmem s) h)) s.
Proof. apply reads_vload. apply (host_ok_sub _ _ _ _ _ Hh); lia. Qed.
Lemma reads_vd_len : reads (vd_len guest (Some h)) (d_len (desc_of (vmem s) h)) s.
Proof. apply reads_vload. apply (host_ok_sub _ _ _ _ _ Hh); lia. Qed.
Lemma reads_vd_flags : reads (vd_flags guest (Some h)) (d_flags (desc_of (vmem s) h)) s.
Proof. apply reads_vload. apply (host_ok_sub _ _ _ _ _ Hh); lia. Qed.
Lemma reads_vd_next : reads (vd_next guest (Some h)) (d_next (desc_of (vmem s) h)) s.
Proof. apply reads_vload. apply (host_ok_sub _ _ _ _ _ Hh); lia. Qed.
End Desc.

(** The entry of [iov] for a descriptor. *)
Definition entry (g : guest_map) (flags : bool) (d : desc) : iovec :=
  mk_iov (map_gpa (d_addr d) (d_len d) g) (d_len d) (if flags then Some (d_flags d) else None).

(** [iov] after [ds] was recorded from number [i] on. *)
Definition record_all (g : guest_map) (n_iov : Z) (flags : bool) (i : Z) (iov : list iovec) (ds : list desc) : list iovec :=
  iov ++ map (entry g flags) (take (Z.to_nat (n_iov - i)) ds).

Lemma record_all_app g n_iov flags i iov ds ds' :
  record_all g n_iov flags (i + Z.of_nat (length ds)) (record_all g n_iov flags i iov ds) ds' = record_all g n_iov flags i iov (ds ++ ds').
Proof.
  unfold record_all. rewrite take_app, map_app, app_assoc. repeat f_equal. lia.
Qed.

Lemma reads_record i h iov n_iov flags s : mmap_style (vgmap s) = VM_MMAP_ALL -> host_ok (vgmap s) h 16 = true ->
  reads (vq_record guest i (Some h) iov n_iov flags) (record_all (vgmap s) n_iov flags i iov [desc_of (vmem s) h]) s.
Proof.
  intros Hst Hh. unfold vq_record, record_all. destruct (Z.leb_spec n_iov i) as [Hi|Hi].
  - replace (Z.to_nat (n_iov - i)) with 0%nat by lia. rewrite app_nil_r. apply reads_ret.
  - rewrite take_ge by (cbn; lia). eapply reads_bind; [by apply reads_vd_addr|]. eapply reads_bind; [by apply reads_vd_len|].
    eapply reads_bind; [by apply reads_guest2host|]. eapply reads_bind; [by apply reads_vd_len|].
    eapply reads_bind; [|apply reads_ret]. destruct flags; [|apply reads_ret]. eapply reads_bind; [by apply reads_vd_flags|apply reads_ret].
Qed.

(** A buffer is all in guest memory. *)
Definition iov_safe (g : guest_map) (e : iovec) : Prop := forall h, iov_base e = Some h -> host_ok g h (iov_len e) = true.

Section Loops.
Context (s : S) (Hmap : map_ok (vgmap s)) (Hbytes : bytes_ok (vmem s)).
Context (n_iov : Z) (flags : bool).
Local Abbreviation g := (vgmap s).
Local Abbreviation m := (vmem s).
Local Abbreviation record := (record_all g n_iov flags).
Local Abbreviation safe := (Forall (iov_safe g)).

Lemma record_safe i iov ds : (forall d, d ∈ ds -> exists h, d = desc_of m h) -> safe iov -> safe (record i iov ds).
Proof.
  intros Hds Hiov. apply Forall_app. split; [done|]. apply Forall_map, Forall_take, Forall_forall. intros d Hd h Hh.
  destruct (Hds d Hd) as [h' ->]. destruct (desc_of_range m h' Hbytes) as (Ha & Hl & _). apply (map_gpa_host_ok _ (d_addr (desc_of m h'))); try done. cbn in *; lia.
Qed.

Lemma record_one_safe i iov h : safe iov -> safe (record i iov [desc_of m h]).
Proof. apply record_safe. intros d ->%list_elem_of_singleton. by exists h. Qed.

(** What one round of the loop over a table does with descriptor [d]. *)
Definition indir_round (rest : Z -> Z -> list iovec -> cmd S (option Z * list iovec)) (n i : Z) (iov : list iovec) (d : desc) : cmd S (option Z * list iovec) :=
  if indirect d then ret (None, iov)
  else if VQ_MAX_DESCRIPTORS <? i + 1 then ret (None, record i iov [d])
  else if negb (has_next d) then ret (Some (i + 1), record i iov [d])
  else if n <=? d_next d then ret (None, record i iov [d])
  else rest (d_next d) (i + 1) (record i iov [d]).

Lemma reads_indir_round fuel tbl n next i iov w (h := hva_add tbl (16 * next)) : host_ok g h 16 = true ->
  reads (indir_round (indir_loop guest fuel (Some tbl) n n_iov flags) n i iov (desc_of m h)) w s ->
  reads (indir_loop guest (Datatypes.S fuel) (Some tbl) n n_iov flags next i iov) w s.
Proof.
  intros Hh Hw. unfold indir_round, indirect, has_next in Hw. cbn [indir_loop]. cbv zeta. change (desc_at (Some tbl) next) with (Some h).
  eapply reads_bind; [by apply reads_vd_flags|]. destruct (tst _ VRING_DESC_F_INDIRECT); [done|].
  eapply reads_bind; [apply reads_record; [apply Hmap|done]|]. destruct (VQ_MAX_DESCRIPTORS <? i + 1); [done|].
  eapply reads_bind; [by apply reads_vd_flags|]. destruct (negb _); [done|].
  eapply reads_bind; [by apply reads_vd_next|]. by destruct (n <=? _).
Qed.

Lemma indir_spec tbl n (Ht : host_ok g tbl (16 * n) = true) fuel : forall next i iov,
  0 <= i <= VQ_MAX_DESCRIPTORS -> (Z.to_nat (VQ_MAX_DESCRIPTORS + 1 - i) <= fuel)%nat -> 0 <= next < n -> safe iov ->
  exists r iov', reads (indir_loop guest fuel (Some tbl) n n_iov flags next i iov) (r, iov') s /\ safe iov' /\
    match r with
    | Some j => exists ds, table_chain m tbl n next ds /\ j = i + Z.of_nat (length ds) /\ j <= VQ_MAX_DESCRIPTORS /\ iov' = record i iov ds
    | None => forall ds, table_chain m tbl n next ds -> VQ_MAX_DESCRIPTORS < i + Z.of_nat (length ds)
    end.
Proof.
  induction fuel as [|fuel IH]; intros next i iov Hi Hf Hn Hs; [lia|].
  set (h := hva_add tbl (16 * next)). set (d := desc_of m h).
  assert (Hh : host_ok g h 16 = true) by (apply (host_ok_sub _ _ _ _ _ Ht); lia).
  pose proof (fun w => reads_indir_round fuel tbl n next i iov w Hh) as Hround. unfold indir_round in Hround. fold h d in Hround.
  pose proof (record_one_safe i iov h Hs) as Hs'. fold d in Hs'.
  destruct (indirect d) eqn:Ei.
  { exists None, iov. split; [apply Hround, reads_ret; done|]. split; [done|]. intros ds [Hd _]%table_chain_inv. unfold d, h in Ei. congruence. }
  destruct (Z.ltb_spec VQ_MAX_DESCRIPTORS (i + 1)) as [Hmax|Hmax].
  { exists None, (record i iov [d]). split; [apply Hround, reads_ret; done|]. split; [done|]. intros ds Hd%table_chain_length. lia. }
  destruct (has_next d) eqn:En; cbn [negb] in Hround.
  2:{ exists (Some (i + 1)), (record i iov [d]). split; [apply Hround, reads_ret; done|]. split; [done|].
      exists [d]. repeat split; [by apply table_last|cbn; lia]. }
  destruct (Z.leb_spec n (d_next d)) as [Hnx|Hnx].
  { exists None, (record i iov [d]). split; [apply Hround, reads_ret; done|]. split; [done|].
    intros ds [_ [[Hd _]|(? & _ & Hd & _)]]%table_chain_inv; unfold d, h in *; [congruence|lia]. }
  destruct (IH (d_next d) (i + 1) (record i iov [d])) as (r & iov' & Hr & Hs2 & Hspec); [lia|lia| |done|].
  { split; [|done]. by apply desc_of_range. }
  exists r, iov'. split; [by apply Hround|]. split; [done|]. destruct r as [j|].
  - destruct Hspec as (ds & Hd & -> & Hj & ->). exists (d :: ds). repeat split; [by apply table_next|cbn [length]; lia|done|].
    exact (record_all_app g n_iov flags i iov [d] ds).
  - intros ds [_ [[Hd _]|(ds' & _ & _ & Hd & ->)]]%table_chain_inv; [unfold d, h in *; congruence|]. specialize (Hspec ds' Hd). cbn [length]. lia.
Qed.

(** The tables that a driver may be asked for are in guest memory. *)
Definition tables_mapped (q : vqueue_info) (ring : hva) : Prop := forall k, 0 <= k < vq_qsize q ->
  let d := desc_of m (hva_add ring (16 * k)) in
  tst (vc_hv_caps vc) VIRTIO_RING_F_INDIRECT_DESC = true -> indirect d = true -> table_len d -> is_Some (map_gpa (d_addr d) (d_len d) g).

Lemma table_len_spec len : 0 <= len -> negb (Z.land len 0xf =? 0) || (len / 16 =? 0) = false <-> len mod 16 = 0 /\ 0 < len.
Proof.
  intros Hl. change 0xf with (Z.ones 4). rewrite Z.land_ones by lia. change (2 ^ 4) with 16. rewrite orb_false_iff, negb_false_iff, Z.eqb_eq, Z.eqb_neq.
  pose proof (Z.div_mod len 16 ltac:(lia)). pose proof (Z.mod_pos_bound len 16 ltac:(lia)). split; intros [? ?]; split; lia.
Qed.

Lemma desc_spec h i iov (d := desc_of m h) : host_ok g h 16 = true -> 0 <= i < VQ_MAX_DESCRIPTORS -> safe iov ->
  (tst (vc_hv_caps vc) VIRTIO_RING_F_INDIRECT_DESC = true -> indirect d = true -> table_len d -> is_Some (map_gpa (d_addr d) (d_len d) g)) ->
  exists r iov', reads (chain_desc guest vc (Some h) n_iov flags i iov) (r, iov') s /\ safe iov' /\
    match r with
    | Some j => exists ds, stands_for m g (vc_hv_caps vc) d ds /\ j = i + Z.of_nat (length ds) /\ j <= VQ_MAX_DESCRIPTORS /\ iov' = record i iov ds
    | None => forall ds, stands_for m g (vc_hv_caps vc) d ds -> VQ_MAX_DESCRIPTORS < i + Z.of_nat (length ds)
    end.
Proof.
  intros Hh Hi Hs Htab. destruct (desc_of_range m h Hbytes) as (Ha & Hl & _). fold d in Ha, Hl.
  pose proof (reads_vd_flags s h Hh) as Rf. pose proof (reads_vd_len s h Hh) as Rl. fold d in Rf, Rl. unfold chain_desc.
  destruct (indirect d) eqn:Ei; pose proof Ei as Ei'; unfold indirect in Ei'.
  2:{ exists (Some (i + 1)), (record i iov [d]). split.
      { eapply reads_bind; [exact Rf|]. rewrite Ei'. eapply reads_bind; [apply reads_record; [apply Hmap|done]|apply reads_ret]. }
      split; [by apply record_one_safe|]. exists [d]. repeat split; [by apply direct_desc|cbn; lia]. }
  destruct (tst (vc_hv_caps vc) VIRTIO_RING_F_INDIRECT_DESC) eqn:Ec; cbn [negb].
  2:{ exists None, iov. split; [eapply reads_bind; [exact Rf|]; rewrite Ei'; apply reads_ret|]. split; [done|]. intros ds Hd. inversion Hd; congruence. }
  destruct (negb (Z.land (d_len d) 0xf =? 0) || (d_len d / 16 =? 0)) eqn:Et.
  { exists None, iov. split.
    { eapply reads_bind; [exact Rf|]. rewrite Ei'. cbn [negb]. do 2 (eapply reads_bind; [exact Rl|]). rewrite Et. apply reads_ret. }
    split; [done|]. intros ds Hd. inversion Hd as [|? ? ? ? Hlen]; [congruence|]. apply table_len_spec in Hlen; [congruence|lia]. }
  apply table_len_spec in Et as Hlen; [|lia]. destruct (Htab eq_refl eq_refl Hlen) as [tbl Htbl].
  assert (Hok : host_ok g tbl (16 * (d_len d / 16)) = true).
  { replace (16 * (d_len d / 16)) with (d_len d) by (destruct Hlen; pose proof (Z.div_mod (d_len d) 16 ltac:(lia)); lia).
    apply (map_gpa_host_ok _ (d_addr d)); try done. lia. }
  destruct (indir_spec tbl (d_len d / 16) Hok (Z.to_nat (VQ_MAX_DESCRIPTORS + 1 - i)) 0 i iov) as (r & iov' & Hr & Hs' & Hspec); [lia|lia| |done|].
  { destruct Hlen. pose proof (Z.div_mod (d_len d) 16 ltac:(lia)). lia. }
  exists r, iov'. split.
  { eapply reads_bind; [exact Rf|]. rewrite Ei'. cbn [negb]. do 2 (eapply reads_bind; [exact Rl|]). rewrite Et. eapply reads_bind; [by apply reads_vd_addr|].
    eapply reads_bind; [exact Rl|]. eapply reads_bind; [apply reads_guest2host, Hmap|]. fold d. by rewrite Htbl. }
  split; [done|]. destruct r as [j|].
  - destruct Hspec as (ds & Hd & Hj). exists ds. split; [by apply (indirect_desc _ _ _ _ tbl)|done].
  - intros ds Hd. inversion Hd as [|tbl' ? ? ? ? Htbl' Hc]; [congruence|]. rewrite Htbl in Htbl'. injection Htbl' as <-. by apply Hspec.
Qed.

Lemma chain_spec q ring (Hd : vq_desc q = Some ring) (Hr : host_ok g ring (16 * vq_qsize q) = true) (Ht : tables_mapped q ring) fuel :
  forall next i iov, 0 <= i -> (Z.to_nat (VQ_MAX_DESCRIPTORS - i) <= fuel)%nat -> 0 <= next -> safe iov ->
  exists r iov', reads (chain_loop guest vc fuel q n_iov flags next i iov) (r, iov') s /\ safe iov' /\
    ((exists ds, chain m g (vc_hv_caps vc) (vq_qsize q) ring next ds /\ r = i + Z.of_nat (length ds) /\ r <= VQ_MAX_DESCRIPTORS /\ iov' = record i iov ds) \/
     (r = -1 /\ forall ds, chain m g (vc_hv_caps vc) (vq_qsize q) ring next ds -> VQ_MAX_DESCRIPTORS < i + Z.of_nat (length ds))).
Proof.
  induction fuel as [|fuel IH]; intros next i iov Hi Hf Hn Hs; cbn [chain_loop]; destruct (Z.ltb_spec i VQ_MAX_DESCRIPTORS) as [Hlt|Hge];
    [lia| | |]; try (exists (-1), iov; split; [apply reads_ret|]; split; [done|]; right; split; [done|]; intros ds Hc%chain_length; lia).
  destruct (Z.leb_spec (vq_qsize q) next) as [Hq|Hq].
  { exists (-1), iov. split; [apply reads_ret|]. split; [done|]. right. split; [done|]. intros ds [Hc _]%chain_inv. lia. }
  set (h := hva_add ring (16 * next)). set (d := desc_of m h). rewrite Hd. change (desc_at (Some ring) next) with (Some h). cbv zeta.
  assert (Hh : host_ok g h 16 = true) by (apply (host_ok_sub _ _ _ _ _ Hr); lia).
  destruct (desc_spec h i iov Hh ltac:(lia) Hs (Ht next ltac:(lia))) as (r & iov1 & Rd & Hs1 & Hspec). fold d in Hspec.
  destruct r as [j|].
  2:{ exists (-1), iov1. split; [eapply reads_bind; [exact Rd|apply reads_ret]|]. split; [done|]. right. split; [done|].
      intros ds (_ & ds1 & Hd1 & Hrest)%chain_inv. specialize (Hspec ds1 Hd1). destruct Hrest as [[_ ->]|(l & _ & _ & ->)]; rewrite ?length_app; lia. }
  destruct Hspec as (ds0 & Hd0 & -> & Hj & ->). pose proof (reads_vd_flags s h Hh) as Rf. fold d in Rf.
  destruct (has_next d) eqn:En; pose proof En as En'; unfold has_next in En'.
  2:{ eexists _, _. split; [eapply reads_bind; [exact Rd|]; cbv beta iota; eapply reads_bind; [exact Rf|]; rewrite En'; apply reads_ret|].
      split; [done|]. left. exists ds0. repeat split; try done. by apply chain_last. }
  destruct (IH (d_next d) (i + Z.of_nat (length ds0)) (record i iov ds0)) as (r & iov' & Rr & Hs' & Hspec); [lia| | |done|].
  { assert (0 < length ds0)%nat by (destruct Hd0; [cbn; lia|by eapply table_chain_length]). lia. }
  { by apply desc_of_range. }
  exists r, iov'. split.
  { eapply reads_bind; [exact Rd|]; cbv beta iota. eapply reads_bind; [exact Rf|]. rewrite En'. eapply reads_bind; [by apply reads_vd_next|]. exact Rr. }
  split; [done|]. destruct Hspec as [(ds & Hc & -> & Hle & ->)|[-> Hbad]]; [left|right].
  - exists (ds0 ++ ds). rewrite length_app. repeat split; [by apply chain_next|lia|lia|apply record_all_app].
  - split; [done|]. intros ds (_ & ds1 & Hd1 & [[E _]|(l & _ & Hl & ->)])%chain_inv; [fold h d in E; congruence|].
    rewrite (stands_for_det _ _ _ _ _ _ Hd1 Hd0), length_app. specialize (Hbad l Hl). lia.
Qed.
End Loops.

(** ** Taking a request *)

(** A queue whose rings are in guest memory. *)
Record queue_ready (i : Z) (q : vqueue_info) (ring avail used : hva) (s : S) : Prop := {
  qr_index : 0 <= i;
  qr_queue : vs_queues (vsc s) !! Z.to_nat i = Some q;
  qr_alloc : vq_ring_ready q = true;
  qr_size : exists k, 0 <= k <= 15 /\ vq_qsize q = 2 ^ k;
  qr_desc : vq_desc q = Some ring /\ host_ok (vgmap s) ring (16 * vq_qsize q) = true;
  qr_avail : vq_avail q = Some avail /\ host_ok (vgmap s) avail (6 + 2 * vq_qsize q) = true;
  qr_used : vq_used q = Some used /\ host_ok (vgmap s) used (6 + 8 * vq_qsize q) = true;
  qr_last : vq_last_avail q in_u 16;
  qr_map : map_ok (vgmap s);
  qr_bytes : bytes_ok (vmem s);
}.

(** The fields of the available ring. *)
Definition avail_idx (avail : hva) (m : hva -> Z) : Z := load 2 (hva_add avail 2) m.
Definition avail_ring (avail : hva) (j : Z) (m : hva -> Z) : Z := load 2 (hva_add avail (4 + 2 * j)) m.

Definition advance (i : Z) (s : S) : S :=
  s <| vsc ::= fun v => v <| vs_queues ::= alter (fun q => q <| vq_last_avail ::= fun a => u16 (a + 1) |>) (Z.to_nat i) |> |>.

Lemma reads_get_vq i q s : 0 <= i -> vs_queues (vsc s) !! Z.to_nat i = Some q -> reads (get_vq i) q s.
Proof. intros Hi Hq j. exists j. unfold get_vq. rewrite (proj2 (Z.leb_le 0 i)) by done. cbn. by rewrite Hq. Qed.

Lemma reads_run {A} (c : cmd S A) v s : reads c v s -> exists k, c s = Return (v, tick k s).
Proof. intros H. destruct (H (vloads s)) as [k E]. exists k. rewrite <- E. by destruct s. Qed.

Section Getchain.
Context (s : S) (i : Z) (q : vqueue_info) (ring avail used : hva) (Hready : queue_ready i q ring avail used s).

Lemma reads_va_idx : reads (va_idx guest q) (avail_idx avail (vmem s)) s.
Proof.
  destruct Hready as [_ _ _ (k & Hk & Hsz) _ [Ea Ha] _ _ _ _]. unfold va_idx. rewrite Ea. apply reads_vload. apply (host_ok_sub _ _ _ _ _ Ha); lia.
Qed.

Lemma reads_va_ring j : 0 <= j <= vq_qsize q -> reads (va_ring guest q j) (avail_ring avail j (vmem s)) s.
Proof.
  intros Hj. destruct Hready as [_ _ _ _ _ [Ea Ha] _ _ _ _]. unfold va_ring. rewrite Ea. apply reads_vload. apply (host_ok_sub _ _ _ _ _ Ha); lia.
Qed.

Lemma mask_index x : 0 <= Z.land x (vq_qsize q - 1) < vq_qsize q /\ Z.land x (vq_qsize q - 1) = x mod vq_qsize q.
Proof.
  destruct Hready as [_ _ _ (k & Hk & ->) _ _ _ _ _ _]. replace (2 ^ k - 1) with (Z.ones k) by (rewrite Z.ones_equiv; lia).
  rewrite Z.land_ones by lia. split; [apply Z.mod_pos_bound; lia|done].
Qed.

(** The loads up to the head of the chain, then the rest. *)
Lemma getchain_head n_iov flags w (head := avail_ring avail (vq_last_avail q mod vq_qsize q) (vmem s)) :
  u16 (avail_idx avail (vmem s) - vq_last_avail q) <> 0 -> u16 (avail_idx avail (vmem s) - vq_last_avail q) <= vq_qsize q ->
  reads (chain_loop guest vc (Z.to_nat VQ_MAX_DESCRIPTORS) q n_iov flags head 0 []) w (advance i s) ->
  exists k, vq_getchain guest vc i n_iov flags s = Return ((w.1, Some head, w.2), tick k (advance i s)).
Proof.
  intros H0 H1 Hw. destruct (mask_index (vq_last_avail q)) as [Hmr Hm].
  destruct (reads_get_vq i q s (qr_index _ _ _ _ _ _ Hready) (qr_queue _ _ _ _ _ _ Hready) (vloads s)) as [k1 E1].
  destruct (reads_va_idx k1) as [k2 E2]. destruct (reads_va_ring (Z.land (vq_last_avail q) (vq_qsize q - 1)) ltac:(lia) k2) as [k3 E3].
  destruct (Hw k3) as [k4 E4]. exists k4. unfold vq_getchain. replace s with (tick (vloads s) s) at 1 by (by destruct s).
  rewrite (bind_return _ _ _ _ _ E1). cbv zeta. rewrite (bind_return _ _ _ _ _ E2).
  rewrite (proj2 (Z.eqb_neq _ _)) by done. rewrite (proj2 (Z.ltb_ge _ _)) by done. rewrite (bind_return _ _ _ _ _ E3), Hm. fold head.
  transitivity (bind (chain_loop guest vc (Z.to_nat VQ_MAX_DESCRIPTORS) q n_iov flags head 0 []) (fun r => ret (r.1, Some head, r.2)) (tick k3 (advance i s)));
    [done|]. by rewrite (bind_return _ _ _ _ _ E4).
Qed.
End Getchain.

(** C15: taking a request from a queue while the guest leaves its memory alone.
    Nothing is taken when the available ring is empty (0) or claims more
    entries than the queue has (-1).  Else the entry after the last one taken is
    consumed and its number reported, and the result is the number of
    descriptors of its chain, direct and through indirect tables, when the
    chain is well formed and has at most 512 of them, with the first [n_iov]
    of them recorded in order: the translation of the address, null when the
    buffer is not in guest memory, the length and the flags.  It is -1 exactly
    when there is no such chain, loops included.  Every recorded buffer that is
    not null lies in guest memory, and so does every access of the device on
    the way; for this the indirect tables that the queue names must be in guest
    memory, which the code does not check. *)
Theorem getchain_correct s i q ring avail used n_iov flags
    (Hready : queue_ready i q ring avail used s) (Htab : tables_mapped s q ring)
    (n := u16 (avail_idx avail (vmem s) - vq_last_avail q)) (head := avail_ring avail (vq_last_avail q mod vq_qsize q) (vmem s))
    (is_chain := chain (vmem s) (vgmap s) (vc_hv_caps vc) (vq_qsize q) ring head) :
  exists k,
    (n = 0 -> vq_getchain guest vc i n_iov flags s = Return ((0, None, []), tick k s)) /\
    (vq_qsize q < n -> vq_getchain guest vc i n_iov flags s = Return ((-1, None, []), tick k s)) /\
    (0 < n <= vq_qsize q -> exists r iov,
      vq_getchain guest vc i n_iov flags s = Return ((r, Some head, iov), tick k (advance i s)) /\
      Forall (iov_safe (vgmap s)) iov /\
      ((exists ds, is_chain ds /\ r = Z.of_nat (length ds) /\ r <= VQ_MAX_DESCRIPTORS /\
          iov = map (entry (vgmap s) flags) (take (Z.to_nat n_iov) ds)) \/
       (r = -1 /\ forall ds, is_chain ds -> VQ_MAX_DESCRIPTORS < Z.of_nat (length ds)))).
Proof.
  pose proof Hready as [Hi Hq Ha Hsz Hd Hav Hu Hl Hmap Hb].
  assert (Hpos : 0 < vq_qsize q) by (destruct Hsz as (p & Hp & Hqs); rewrite Hqs; lia).
  destruct (Z_le_gt_dec n (vq_qsize q)) as [Hle|Hgt].
  - destruct (Z.eq_dec n 0) as [H0|H0].
    + destruct (reads_run (vq_getchain guest vc i n_iov flags) (0, None, []) s) as [k E]; [|exists k; split; [done|split; lia]].
      unfold vq_getchain. eapply reads_bind; [by apply reads_get_vq|]. cbv zeta. eapply reads_bind; [by eapply reads_va_idx|]. fold n. rewrite H0. apply reads_ret.
    + destruct (chain_spec (advance i s) Hmap Hb n_iov flags q ring (proj1 Hd) (proj2 Hd) Htab (Z.to_nat VQ_MAX_DESCRIPTORS) head 0 [])
        as (r & iov & Hr & Hs & Hspec); [lia|lia| |done|].
      { unfold head, avail_ring. by apply load_range. }
      destruct (getchain_head s i q ring avail used Hready n_iov flags _ H0 Hle Hr) as [k E].
      exists k. split; [done|]. split; [lia|]. intros _. exists r, iov. split; [exact E|]. split; [exact Hs|].
      destruct Hspec as [(ds & Hc & -> & Hle' & ->)|Hbad]; [left|by right]. exists ds. repeat split; try done. cbn. by rewrite Z.sub_0_r.
  - destruct (reads_run (vq_getchain guest vc i n_iov flags) (-1, None, []) s) as [k E];
      [|exists k; split; [lia|split; [done|lia]]].
    unfold vq_getchain. eapply reads_bind; [by apply reads_get_vq|]. cbv zeta. eapply reads_bind; [by eapply reads_va_idx|]. fold n.
    rewrite (proj2 (Z.eqb_neq n 0)) by lia. rewrite (proj2 (Z.ltb_lt _ _)) by lia. apply reads_ret.
Qed.
End Reads.
