(* ===== verification/VirtioRing.v ===== *)
(** * The rings of a queue (src/src/virtio.c)

    Setting a queue up places its rings in guest memory as the virtio
    specification says; returning requests fills the used ring and raises
    interrupts as the driver asked for. *)

From S2P Require Import Prelude Effects Vmm Paging VmApi PciCfg PciAlloc Virtio VirtioChain.

Local Open Scope cmd_scope.

(** ** Loads and stores of different places *)

Definition apart (h : hva) (n : Z) (h' : hva) (n' : Z) : Prop := h.1 <> h'.1 \/ h.2 + n <= h'.2 \/ h'.2 + n' <= h.2.

Lemma store_other n h v m a : apart h (Z.of_nat n) a 1 -> store n h v m a = m a.
Proof.
  intros Ha. unfold store, write_bytes_at. rewrite length_le_split.
  destruct (Z.eqb_spec a.1 h.1) as [E|E]; cbn [andb]; [|done]. destruct (Z.leb_spec h.2 a.2), (Z.ltb_spec a.2 (h.2 + Z.of_nat n)); cbn [andb]; try done.
  unfold apart in Ha. lia.
Qed.

Lemma load_ext n h m m' : (forall k, 0 <= k < Z.of_nat n -> m (hva_add h k) = m' (hva_add h k)) -> load n h m = load n h m'.
Proof. intros H. unfold load, read_bytes_at. f_equal. apply map_ext_in. intros k Hk%in_seq. apply H. lia. Qed.

Lemma load_store_other n h n' h' v m : apart h' (Z.of_nat n') h (Z.of_nat n) -> load n h (store n' h' v m) = load n h m.
Proof. intros Ha. apply load_ext. intros k Hk. apply store_other. unfold apart, hva_add in *. cbn [fst snd]. lia. Qed.

Lemma store_bytes n h v m : bytes_ok m -> bytes_ok (store n h v m).
Proof. intros Hm. apply write_bytes_ok; [done|apply le_split_bytes]. Qed.

(** ** The layout *)

(** The blocks of guest memory start at page boundaries. *)
Definition blocks_aligned (g : guest_map) : Prop :=
  forall b, lowmem_addr g = Some b \/ highmem_addr g = Some b -> b.2 mod VRING_ALIGN = 0 /\ 0 <= b.2 < 2 ^ 62.

Lemma vring_size_spec qsz : 0 <= qsz <= 2 ^ 15 ->
  0 <= vring_size qsz < 2 ^ 21 /\
  forall b, 0 <= b -> b mod VRING_ALIGN = 0 -> let used := roundup2 (b + 16 * qsz + (2 + qsz + 1) * 2) VRING_ALIGN in
    b + 18 * qsz + 6 <= used /\ used mod VRING_ALIGN = 0 /\ used + 6 + 8 * qsz <= b + vring_size qsz.
Proof.
  intros Hq. unfold vring_size. change VRING_ALIGN with (2 ^ 12). rewrite u64_id by lia.
  set (x := 16 * qsz + 2 * (3 + qsz)). destruct (roundup_range 12 x ltac:(lia) ltac:(lia)) as [H1 E1].
  set (y := roundup2 x (2 ^ 12)) in *. destruct (roundup_range 12 (y + (2 * 3 + 8 * qsz)) ltac:(lia) ltac:(lia)) as [H2 E2].
  split; [lia|]. intros b Hb Eb. cbv zeta. destruct (roundup_range 12 (b + 16 * qsz + (2 + qsz + 1) * 2) ltac:(lia) ltac:(lia)) as [H3 E3].
  set (u := roundup2 (b + 16 * qsz + (2 + qsz + 1) * 2) (2 ^ 12)) in *. assert (u = b + y); [|subst x; lia].
  apply Z.mod_divide in E1 as [p Ep], E3 as [r Er], Eb as [t Et]; [|lia..]. change (2 ^ 12) with 4096 in *. subst x. lia.
Qed.

Lemma map_gpa_aligned g a len h : blocks_aligned g -> 0 <= a < 2 ^ 62 -> a mod VRING_ALIGN = 0 -> map_gpa a len g = Some h -> h.2 mod VRING_ALIGN = 0 /\ 0 <= h.2.
Proof.
  intros Hb Ha Em. assert (Hadd : forall b k, b.2 mod VRING_ALIGN = 0 -> 0 <= b.2 -> 0 <= k -> k mod VRING_ALIGN = 0 ->
    (hva_add b k).2 mod VRING_ALIGN = 0 /\ 0 <= (hva_add b k).2).
  { intros b k E1 H1 Hk E2. unfold hva_add. cbn. rewrite Z.add_mod, E1, E2 by done. split; [done|lia]. }
  unfold map_gpa. destruct (_ && _).
  { destruct (lowmem_addr g) as [b|] eqn:E; [|done]. intros [= <-]. destruct (Hb b (or_introl E)). apply Hadd; try done; lia. }
  destruct (Z.leb_spec (4 * GB) a); [|done]. destruct (_ && _); [|done]. destruct (highmem_addr g) as [b|] eqn:E; [|done]. intros [= <-].
  destruct (Hb b (or_intror E)). apply Hadd; try done; [lia|lia|]. rewrite Zminus_mod, Em. done.
Qed.

Section Rings.
Context {P D : Type} `{!VirtioPci P}.
Context (guest : nat -> (hva -> Z) -> hva -> Z).
Local Abbreviation S := (vio P D).

Lemma get_vq_run i q (s : S) : 0 <= i -> vs_queues (vsc s) !! Z.to_nat i = Some q -> get_vq i s = Return (q, s).
Proof. intros Hi Hq. unfold get_vq. rewrite (proj2 (Z.leb_le 0 i)) by done. by rewrite Hq. Qed.

Lemma alter_known {A} (f : A -> A) (i : nat) (l : list A) x : l !! i = Some x -> alter f i l = <[i := f x]> l.
Proof.
  intros Hx. apply list_eq. intros j. destruct (decide (j = i)) as [->|Hj].
  - rewrite list_lookup_alter_eq, Hx, list_lookup_insert_eq by (by apply lookup_lt_Some in Hx). done.
  - by rewrite list_lookup_alter_ne, list_lookup_insert_ne.
Qed.

Lemma alter_twice {A} (f g : A -> A) (i : nat) (l : list A) x : l !! i = Some x -> alter g i (alter f i l) = alter (fun _ => g (f x)) i l.
Proof.
  intros Hx. rewrite (alter_known f i l x Hx), (alter_known (fun _ => g (f x)) i l x Hx), (alter_known g i _ (f x)).
  - by rewrite list_insert_insert_eq.
  - apply list_lookup_insert_eq. by apply lookup_lt_Some in Hx.
Qed.

Definition on_queues (f : list vqueue_info -> list vqueue_info) (s : S) : S := s <| vsc ::= fun v => v <| vs_queues ::= f |> |>.

Lemma queues_twice (s : S) i f g q : vs_queues (vsc s) !! i = Some q ->
  on_queues (alter g i) (on_queues (alter f i) s) = on_queues (alter (fun _ => g (f q)) i) s.
Proof.
  destruct s as [[fl caps qs cq st isr cfg] pi dv gm m n]. intros E. cbn [vsc vs_queues] in E.
  change (mk_vio (mk_vs fl caps (alter g i (alter f i qs)) cq st isr cfg) pi dv gm m n =
          mk_vio (mk_vs fl caps (alter (fun _ => g (f q)) i qs) cq st isr cfg) pi dv gm m n). by rewrite (alter_twice f g i qs q).
Qed.

(** The queue after its set-up at [base]. *)
Definition init_vq (pfn : Z) (base : option hva) (q : vqueue_info) : vqueue_info :=
  q <| vq_pfn := pfn |> <| vq_desc := base |> <| vq_avail := (fun b => hva_add b (vq_qsize q * 16)) <$> base |>
    <| vq_used := (fun b : hva => (b.1, roundup2 (b.2 + vq_qsize q * 16 + (2 + vq_qsize q + 1) * 2) VRING_ALIGN)) <$> base |>
    <| vq_flags := VQ_ALLOC |> <| vq_last_avail := 0 |> <| vq_save_used := 0 |>.

Lemma init_run (s : S) q pfn (i := vs_curq (vsc s)) (base := map_gpa (pfn * VRING_ALIGN) (vring_size (vq_qsize q)) (vgmap s)) :
  0 <= i -> vs_queues (vsc s) !! Z.to_nat i = Some q -> mmap_style (vgmap s) = VM_MMAP_ALL -> pfn in_u 32 ->
  vi_vq_init pfn s = Return (tt, on_queues (alter (fun _ => init_vq pfn base q) (Z.to_nat i)) s).
Proof.
  intros Hi Hq Hst Hpfn. assert (Hphys : u64 (Z.shiftl pfn VRING_PFN) = pfn * VRING_ALIGN).
  { unfold VRING_PFN. rewrite Z.shiftl_mul_pow2 by lia. change (2 ^ 12) with VRING_ALIGN. apply u64_id. unfold VRING_ALIGN. lia. }
  unfold vi_vq_init, bind, gets, on_vq, update. fold i. set (s1 := s <| vsc ::= _ |>).
  rewrite (get_vq_run i (q <| vq_pfn := pfn |>)) by
    (done || (change (vs_queues (vsc s1)) with (alter (fun q => q <| vq_pfn := pfn |>) (Z.to_nat i) (vs_queues (vsc s))); by rewrite list_lookup_alter_eq, Hq)).
  cbn [vq_qsize]. unfold paddr_guest2host, bind, gets, KASSERT. change (vgmap s1) with (vgmap s). rewrite Hst.
  change (vq_qsize (q <| vq_pfn := pfn |>)) with (vq_qsize q). rewrite Hphys. cbn [bool_decide].
  cbv beta iota zeta. do 2 f_equal. change (vgmap s1) with (vgmap s). fold base. etransitivity; [exact (queues_twice s (Z.to_nat i) _ _ q Hq)|]. unfold init_vq. clearbody base. by destruct base as [b|].
Qed.

(** Setting up a queue by its page frame number.  When guest memory holds
    the whole area, the queue is ready with no request taken, and its rings
    are laid out as the virtio specification says: the descriptors at the
    address given, the available ring behind them, the used ring from the next
    page boundary on, all three apart and inside the area.  Nothing but the
    queue changes.  An area that is not all in guest memory is not refused:
    the queue counts as ready, and the first look at it goes through a null
    pointer. *)
Theorem queue_setup (s : S) i q pfn (base := map_gpa (pfn * VRING_ALIGN) (vring_size (vq_qsize q)) (vgmap s))
    (Hi : vs_curq (vsc s) = i /\ 0 <= i) (Hq : vs_queues (vsc s) !! Z.to_nat i = Some q)
    (Hsize : exists k, 0 <= k <= 15 /\ vq_qsize q = 2 ^ k)
    (Hmap : map_ok (vgmap s)) (Hal : blocks_aligned (vgmap s)) (Hb : bytes_ok (vmem s)) (Hpfn : pfn in_u 32) :
  exists q', let s' := s <| vsc ::= fun v => v <| vs_queues ::= alter (fun _ => q') (Z.to_nat i) |> |> in
    vi_vq_init pfn s = Return (tt, s') /\ vq_qsize q' = vq_qsize q /\ vq_last_avail q' = 0 /\ vq_save_used q' = 0 /\ vq_pfn q' = pfn /\
    match base with
    | Some b => exists used : hva, used.1 = b.1 /\ used.2 mod VRING_ALIGN = 0 /\
        b.2 + 16 * vq_qsize q + (6 + 2 * vq_qsize q) <= used.2 /\ used.2 + (6 + 8 * vq_qsize q) <= b.2 + vring_size (vq_qsize q) /\
        queue_ready i q' b (hva_add b (16 * vq_qsize q)) used s'
    | None => vq_has_descs guest i s' = Panic
    end.
Proof.
  destruct Hi as [Ei Hi]. destruct Hsize as (k & Hk & Hqs). pose proof (Z.pow_le_mono_r 2 k 15 ltac:(lia) ltac:(lia)) as Hle.
  assert (Hpos : 0 < 2 ^ k) by (apply Z.pow_pos_nonneg; lia). destruct (vring_size_spec (vq_qsize q) ltac:(lia)) as [Hvs Hlay].
  set (q' := init_vq pfn base q). exists q'. cbv zeta. set (s' := s <| vsc ::= _ |>).
  assert (Hq' : vs_queues (vsc s') !! Z.to_nat i = Some q')
    by (change (vs_queues (vsc s')) with (alter (fun _ => q') (Z.to_nat i) (vs_queues (vsc s))); by rewrite list_lookup_alter_eq, Hq).
  split; [subst i; exact (init_run s q pfn Hi Hq (mo_style _ Hmap) Hpfn)|]. do 4 (split; [done|]). destruct base as [b|] eqn:Eb.
  2:{ unfold vq_has_descs. rewrite (bind_return _ _ _ _ _ (get_vq_run i q' s' Hi Hq')). done. }
  assert (Hpa : 0 <= pfn * VRING_ALIGN < 2 ^ 62) by (unfold VRING_ALIGN; lia).
  destruct (map_gpa_aligned _ _ _ _ Hal Hpa (Z.mod_mul pfn VRING_ALIGN ltac:(done)) Eb) as [Ealn Hb0].
  pose proof (map_gpa_host_ok (vgmap s) (pfn * VRING_ALIGN) (vring_size (vq_qsize q)) b Hmap (proj1 Hpa) ltac:(lia) Eb) as Hok.
  destruct (Hlay b.2 Hb0 Ealn) as (H1 & H2 & H3). cbv zeta in H1, H2, H3. rewrite <- (Z.mul_comm (vq_qsize q) 16) in H1, H2, H3.
  set (u := roundup2 (b.2 + vq_qsize q * 16 + (2 + vq_qsize q + 1) * 2) VRING_ALIGN) in *.
  exists (b.1, u). cbn [fst snd]. do 2 (split; [done|]). split; [lia|]. split; [lia|].
  constructor; try done.
  - by exists k.
  - split; [done|]. change (vq_qsize q') with (vq_qsize q). replace b with (hva_add b 0) by (destruct b; unfold hva_add; cbn; f_equal; lia).
    apply (host_ok_sub _ _ _ _ _ Hok); lia.
  - split; [rewrite (Z.mul_comm 16); done|]. apply (host_ok_sub _ _ _ _ _ Hok); change (vq_qsize q') with (vq_qsize q); lia.
  - split; [done|]. change (vq_qsize q') with (vq_qsize q). replace (b.1, u) with (hva_add b (u - b.2)) by (unfold hva_add; f_equal; lia).
    apply (host_ok_sub _ _ _ _ _ Hok); lia.
Qed.

(** ** The used ring *)

Context (Hquiet : forall n m, guest n m = m).

Definition used_idx (used : hva) (m : hva -> Z) : Z := load 2 (hva_add used 2) m.
(** Entry [j], counted from the start of time. *)
Definition used_entry (qsize : Z) (used : hva) (j : Z) (m : hva -> Z) : Z * Z :=
  (load 4 (hva_add used (4 + 8 * (j mod qsize))) m, load 4 (hva_add used (8 + 8 * (j mod qsize))) m).

(** Memory after one request was returned. *)
Definition release (qsize : Z) (used : hva) (e : Z * Z) (m : hva -> Z) : hva -> Z :=
  let u := used_idx used m in
  store 2 (hva_add used 2) (u16 (u + 1)) (store 4 (hva_add used (8 + 8 * (u mod qsize))) e.2 (store 4 (hva_add used (4 + 8 * (u mod qsize))) e.1 m)).

Lemma release_bytes qsize used e m : bytes_ok m -> bytes_ok (release qsize used e m).
Proof. intros Hm. by repeat apply store_bytes. Qed.

Section Release.
Context (qsize : Z) (used : hva) (Hq : 0 < qsize).

Lemma release_idx e m : used_idx used (release qsize used e m) = u16 (used_idx used m + 1).
Proof. unfold used_idx at 1, release. cbv zeta. rewrite load_store. apply u16_id, u16_in_u. Qed.

Lemma release_same e m : e.1 in_u 32 -> e.2 in_u 32 -> used_entry qsize used (used_idx used m) (release qsize used e m) = e.
Proof.
  intros H1 H2. unfold used_entry, release. cbv zeta. set (u := used_idx used m). pose proof (Z.mod_pos_bound u qsize Hq).
  assert (Hi : forall o, 4 <= o -> apart (hva_add used 2) (Z.of_nat 2) (hva_add used (o + 8 * (u mod qsize))) (Z.of_nat 4))
    by (intros o Ho; unfold apart, hva_add; cbn [fst snd]; right; lia).
  rewrite !(load_store_other _ _ 2) by (apply Hi; lia). rewrite (load_store_other _ _ 4) by (unfold apart, hva_add; cbn [fst snd]; right; lia).
  rewrite !load_store, !Z.mod_small by lia. by destruct e.
Qed.

Lemma release_other e m j : j mod qsize <> used_idx used m mod qsize -> used_entry qsize used j (release qsize used e m) = used_entry qsize used j m.
Proof.
  intros Hj. unfold used_entry, release. cbv zeta. set (u := used_idx used m) in *.
  pose proof (Z.mod_pos_bound u qsize Hq). pose proof (Z.mod_pos_bound j qsize Hq).
  f_equal; rewrite !load_store_other; try done; unfold apart, hva_add; cbn [fst snd]; right; lia.
Qed.

Lemma release_outside e m a : apart used (6 + 8 * qsize) a 1 -> release qsize used e m a = m a.
Proof.
  intros Ha. pose proof (Z.mod_pos_bound (used_idx used m) qsize Hq). unfold release. cbv zeta.
  rewrite !store_other; try done; unfold apart, hva_add in *; cbn [fst snd]; lia.
Qed.
End Release.

Definition releases (qsize : Z) (used : hva) (l : list (Z * Z)) (m : hva -> Z) : hva -> Z := fold_left (fun m e => release qsize used e m) l m.

Section Releases.
Context (k qsize : Z) (used : hva) (Hk : 0 <= k <= 15) (Hqs : qsize = 2 ^ k).

Lemma qsize_pos : 0 < qsize.
Proof. rewrite Hqs. apply Z.pow_pos_nonneg; lia. Qed.

Lemma u16_mod_qsize x : u16 x mod qsize = x mod qsize.
Proof.
  apply Z.mod_mod_divide. rewrite Hqs. exists (2 ^ (16 - k)). rewrite <- Z.pow_add_r by lia. f_equal. lia.
Qed.

Lemma mod_apart u a : 0 < a < qsize -> (u + a) mod qsize <> u mod qsize.
Proof.
  intros Ha E. pose proof qsize_pos. pose proof (Z.mod_pos_bound u qsize ltac:(lia)).
  pose proof (Z.div_mod u qsize ltac:(lia)). pose proof (Z.div_mod (u + a) qsize ltac:(lia)). rewrite E in *.
  assert (qsize * ((u + a) / qsize - u / qsize) = a) by lia.
  destruct (Z.lt_trichotomy ((u + a) / qsize - u / qsize) 0) as [|[Hz|]]; [nia|rewrite Hz in *; lia|nia].
Qed.

Lemma releases_spec l : forall m, bytes_ok m -> Z.of_nat (length l) <= qsize -> Forall (fun e => e.1 in_u 32 /\ e.2 in_u 32) l ->
  let m' := releases qsize used l m in
  bytes_ok m' /\ used_idx used m' = u16 (used_idx used m + Z.of_nat (length l)) /\
  (forall j e, l !! j = Some e -> used_entry qsize used (used_idx used m + Z.of_nat j) m' = e) /\
  (forall j, (forall i, 0 <= i < Z.of_nat (length l) -> (used_idx used m + i) mod qsize <> j mod qsize) ->
    used_entry qsize used j m' = used_entry qsize used j m) /\
  (forall a, apart used (6 + 8 * qsize) a 1 -> m' a = m a).
Proof.
  pose proof qsize_pos as Hpos. induction l as [|e l IH]; intros m Hm Hl Hf.
  { cbv zeta. change (releases qsize used [] m) with m. change (Z.of_nat (length [])) with 0.
    rewrite Z.add_0_r, u16_id by (by apply (load_range 2)). do 2 (split; [done|]). split; [|done]. intros j e He. by rewrite lookup_nil in He. }
  inversion_clear Hf as [|? ? [H1 H2] Hf']. set (m1 := release qsize used e m). cbn [length] in *.
  destruct (IH m1 (release_bytes _ _ _ _ Hm) ltac:(lia) Hf') as (Hb & Hi & Hin & Hout & Ha). change (releases qsize used (e :: l) m) with (releases qsize used l m1).
  cbv zeta. set (u := used_idx used m) in *. assert (Hu : used_idx used m1 = u16 (u + 1)) by apply release_idx.
  assert (Hmod : forall i, (used_idx used m1 + i) mod qsize = (u + 1 + i) mod qsize).
  { intros i. rewrite Hu, Z.add_mod, u16_mod_qsize, <- Z.add_mod by lia. done. }
  assert (Hent : forall j j' m, j mod qsize = j' mod qsize -> used_entry qsize used j m = used_entry qsize used j' m).
  { intros j j' m0 E. unfold used_entry. by rewrite E. }
  split; [done|]. split; [rewrite Hi, Hu; unfold u16; rewrite Zplus_mod_idemp_l; f_equal; lia|]. split; [|split].
  - intros [|j] e' He; cbn in He.
    + injection He as <-. rewrite Z.add_0_r, Hout; [by apply release_same|]. intros i Hr. rewrite Hmod, <- Z.add_assoc. apply mod_apart. lia.
    + rewrite <- (Hin j e' He). apply Hent. rewrite Hmod. f_equal. lia.
  - intros j Hj. rewrite Hout.
    + apply release_other; [done|]. fold u. intros E. apply (Hj 0); [lia|]. by rewrite Z.add_0_r.
    + intros i Hr. rewrite Hmod, <- Z.add_assoc. apply Hj. lia.
  - intros a Hap. rewrite Ha by done. by apply release_outside.
Qed.
End Releases.

(** ** Returning requests *)

Definition with_mem (f : (hva -> Z) -> hva -> Z) (s : S) : S := s <| vmem ::= f |>.

Lemma ready_mem i q ring avail used (s : S) k f : (bytes_ok (vmem s) -> bytes_ok (f (vmem s))) ->
  queue_ready i q ring avail used s -> queue_ready i q ring avail used (tick k (with_mem f s)).
Proof. intros Hf [? ? ? ? ? ? ? ? ? Hb]. split; try done. by apply Hf. Qed.

Lemma vstore_run n b off v (s : S) : host_ok (vgmap s) (hva_add b off) (Z.of_nat n) = true ->
  vstore n (Some b) off v s = Return (tt, with_mem (store n (hva_add b off) v) s).
Proof. intros H. unfold vstore. cbv zeta. by rewrite H. Qed.

Lemma reads_vu_idx (s : S) i q ring avail used : queue_ready i q ring avail used s -> reads (vu_idx guest q) (used_idx used (vmem s)) s.
Proof.
  intros [_ _ _ (k & Hk & Hs) _ _ [Eu Hu] _ _ _]. unfold vu_idx. rewrite Eu. apply (reads_vload guest Hquiet). apply (host_ok_sub _ _ _ _ _ Hu); lia.
Qed.

Lemma relchain_run (s : S) i q ring avail used e : queue_ready i q ring avail used s ->
  exists k, vq_relchain guest i e.1 e.2 s = Return (tt, tick k (with_mem (release (vq_qsize q) used e) s)).
Proof.
  intros Hr. pose proof Hr as [Hi Hq _ (p & Hp & Hs) _ _ [Eu Hu] _ _ _]. assert (Hpos : 0 < vq_qsize q) by (rewrite Hs; apply Z.pow_pos_nonneg; lia).
  destruct (mask_index s i q ring avail used Hr (used_idx used (vmem s))) as [Hm Em]. destruct (reads_run _ _ _ (reads_vu_idx _ _ _ _ _ _ Hr)) as [k E].
  exists k. unfold vq_relchain. rewrite (bind_return _ _ _ _ _ (get_vq_run i q s Hi Hq)). cbv zeta. rewrite (bind_return _ _ _ _ _ E).
  assert (E1 : u16 (vq_qsize q - 1) = vq_qsize q - 1).
  { apply u16_id. pose proof (Z.pow_le_mono_r 2 p 15 ltac:(lia) ltac:(lia)). rewrite Hs in *. lia. }
  rewrite E1, Em. set (j := used_idx used (vmem s) mod vq_qsize q) in *. rewrite Em in Hm.
  assert (Hok : forall o n, 0 <= o -> o + n <= 6 + 8 * vq_qsize q -> host_ok (vgmap s) (hva_add used o) n = true)
    by (intros o n Ho Hn; apply (host_ok_sub _ _ _ _ _ Hu); lia).
  unfold set_vu_ring, set_vu_idx, bind. rewrite Eu.
  rewrite (vstore_run 4 used (4 + 8 * j)) by (apply Hok; lia). rewrite (vstore_run 4 used (8 + 8 * j)) by (apply Hok; lia).
  by rewrite (vstore_run 2 used 2) by (apply Hok; lia).
Qed.

Fixpoint relchain_all (i : Z) (l : list (Z * Z)) : cmd S unit :=
  match l with [] => ret tt | e :: l => vq_relchain guest i e.1 e.2 ;;; relchain_all i l end.

Lemma relchain_all_run i q ring avail used l : forall s, queue_ready i q ring avail used s ->
  exists k, relchain_all i l s = Return (tt, tick k (with_mem (releases (vq_qsize q) used l) s)).
Proof.
  induction l as [|e l IH]; intros s Hr; cbn [relchain_all].
  - exists (vloads s). destruct s. done.
  - destruct (relchain_run s i q ring avail used e Hr) as [k E]. rewrite (bind_return _ _ _ _ _ E).
    destruct (IH (tick k (with_mem (release (vq_qsize q) used e) s))) as [k' E'].
    + apply ready_mem; [apply release_bytes|done].
    + exists k'. exact E'.
Qed.

(** The driver's event index is among the [n] indices from [old] on. *)
Lemma event_crossed old n event : old in_u 16 -> event in_u 16 -> 0 <= n <= 2 ^ 15 ->
  (u16 (u16 (old + n) - event - 1) <? u16 (u16 (old + n) - old)) = true <-> exists j, 0 <= j < n /\ u16 (old + j) = event.
Proof.
  intros Ho He Hn. rewrite Z.ltb_lt. unfold u16. rewrite !Zminus_mod_idemp_l.
  replace ((old + n) mod 2 ^ 16 - event - 1) with ((old + n) mod 2 ^ 16 - (event + 1)) by lia. rewrite !Zminus_mod_idemp_l.
  replace (old + n - old) with n by lia. rewrite (Z.mod_small n) by lia.
  pose proof (Z.div_mod (old + n - (event + 1)) (2 ^ 16) ltac:(lia)) as Hd. set (x := (old + n - (event + 1)) mod 2 ^ 16) in *.
  pose proof (Z.mod_pos_bound (old + n - (event + 1)) (2 ^ 16) ltac:(lia)) as Hx. fold x in Hx. split.
  - intros Hlt. exists (n - 1 - x). split; [lia|]. symmetry. apply (Z.mod_unique _ _ ((old + n - (event + 1)) / 2 ^ 16)); lia.
  - intros (j & Hj & E). pose proof (Z.div_mod (old + j) (2 ^ 16) ltac:(lia)) as Hd'. rewrite E in Hd'.
    assert (x = n - 1 - j); [|lia]. symmetry. apply (Z.mod_unique _ _ ((old + j) / 2 ^ 16)); lia.
Qed.

(** Does the device interrupt when the used index goes from [old] to [new]? *)
Definition must_interrupt (avail : hva) (q : vqueue_info) (all : bool) (caps old new : Z) (m : hva -> Z) : bool :=
  if all && tst caps VIRTIO_F_NOTIFY_ON_EMPTY then true
  else if tst caps VIRTIO_RING_F_EVENT_IDX then u16 (new - avail_ring avail (vq_qsize q) m - 1) <? u16 (new - old)
  else if new =? old then false else negb (tst (load 2 (hva_add avail 0) m) VRING_AVAIL_F_NO_INTERRUPT).

Lemma endchains_run (s : S) i q ring avail used all (new := used_idx used (vmem s)) : queue_ready i q ring avail used s ->
  exists k, vq_endchains guest i all s =
    when (must_interrupt avail q all (vs_negotiated_caps (vsc s)) (vq_save_used q) new (vmem s)) (vq_interrupt i)
      (tick k (on_queues (alter (fun q => q <| vq_save_used := new |>) (Z.to_nat i)) s)).
Proof.
  intros Hr. pose proof Hr as [Hi Hq _ (p & Hp & Hs) _ [Ea Ha] _ _ _ _]. assert (Hpos : 0 < vq_qsize q) by (rewrite Hs; apply Z.pow_pos_nonneg; lia).
  destruct (reads_run _ _ _ (reads_vu_idx _ _ _ _ _ _ Hr)) as [k1 E1]. set (s1 := on_queues _ s).
  assert (Hload : forall off, 0 <= off -> off + 2 <= 6 + 2 * vq_qsize q -> reads (vload guest 2 (vq_avail q) off) (load 2 (hva_add avail off) (vmem s)) s1).
  { intros off H0 H1. rewrite Ea. apply (reads_vload guest Hquiet 2 avail off s1). apply (host_ok_sub _ _ _ _ _ Ha); lia. }
  set (caps := vs_negotiated_caps (vsc s)). set (old := vq_save_used q).
  assert (Hintr : reads (if all && tst caps VIRTIO_F_NOTIFY_ON_EMPTY then ret true
           else if tst caps VIRTIO_RING_F_EVENT_IDX then event <- VQ_USED_EVENT_IDX guest q ;; ret (u16 (new - event - 1) <? u16 (new - old))
           else if new =? old then ret false
           else f <- va_flags guest q ;; ret (negb (tst f VRING_AVAIL_F_NO_INTERRUPT)))%cmd (must_interrupt avail q all caps old new (vmem s)) s1).
  { unfold must_interrupt. destruct (all && _); [apply reads_ret|]. destruct (tst caps VIRTIO_RING_F_EVENT_IDX).
    - eapply reads_bind; [apply Hload; lia|apply reads_ret].
    - destruct (new =? old); [apply reads_ret|]. eapply reads_bind; [apply Hload; lia|apply reads_ret]. }
  destruct (Hintr k1) as [k2 E2]. exists k2. unfold vq_endchains. rewrite (bind_return _ _ _ _ _ (get_vq_run i q s Hi Hq)). cbv zeta.
  rewrite (bind_return _ _ _ _ _ E1). fold new.
  transitivity (bind (if all && tst caps VIRTIO_F_NOTIFY_ON_EMPTY then ret true
           else if tst caps VIRTIO_RING_F_EVENT_IDX then event <- VQ_USED_EVENT_IDX guest q ;; ret (u16 (new - event - 1) <? u16 (new - old))
           else if new =? old then ret false
           else f <- va_flags guest q ;; ret (negb (tst f VRING_AVAIL_F_NO_INTERRUPT)))%cmd (fun intr => when intr (vq_interrupt i)) (tick k1 s1)); [done|].
  by rewrite (bind_return _ _ _ _ _ E2).
Qed.

Lemma must_interrupt_spec avail q all caps u n m : u in_u 16 -> bytes_ok m -> 0 <= n <= 2 ^ 15 ->
  must_interrupt avail q all caps u (u16 (u + n)) m = true <->
  (all = true /\ tst caps VIRTIO_F_NOTIFY_ON_EMPTY = true) \/
  (tst caps VIRTIO_RING_F_EVENT_IDX = true /\ exists j, 0 <= j < n /\ u16 (u + j) = avail_ring avail (vq_qsize q) m) \/
  (tst caps VIRTIO_RING_F_EVENT_IDX = false /\ n <> 0 /\ tst (load 2 (hva_add avail 0) m) VRING_AVAIL_F_NO_INTERRUPT = false).
Proof.
  intros Hu Hm Hn. unfold must_interrupt. destruct all, (tst caps VIRTIO_F_NOTIFY_ON_EMPTY); cbn [andb]; [by intuition| | |].
  all: destruct (tst caps VIRTIO_RING_F_EVENT_IDX).
  1, 3, 5: rewrite event_crossed by (done || by apply (load_range 2)); intuition congruence.
  all: assert (E : (u16 (u + n) =? u) = (n =? 0)) by (destruct (Z.eqb_spec n 0) as [->|Hn0];
    [rewrite Z.add_0_r, u16_id by done; apply Z.eqb_refl|apply Z.eqb_neq; unfold u16; intros E;
     pose proof (Z.div_mod (u + n) (2 ^ 16) ltac:(lia)); rewrite E in *; lia]);
    rewrite E; destruct (Z.eqb_spec n 0), (tst (load 2 _ m) _); cbn [negb]; intuition congruence.
Qed.

(** What an interrupt does: a message with the queue's vector, or else the
    interrupt status bit, message 0 and the INTx pin. *)
Lemma vq_interrupt_run (s : S) i q : 0 <= i -> vs_queues (vsc s) !! Z.to_nat i = Some q ->
  vq_interrupt i s =
  if vp_msix_enabled (vpi s) then on_pi (vp_generate_msix (vq_msix_idx q)) s
  else (on_pi (vp_generate_msi 0) ;;; on_pi vp_lintr_assert) (s <| vsc ::= fun v => v <| vs_isr ::= fun x => Z.lor x VTCFG_ISR_QUEUES |> |>).
Proof.
  intros Hi Hq. unfold vq_interrupt. rewrite (bind_return _ _ s (vp_msix_enabled (vpi s)) s) by done. destruct (vp_msix_enabled _); [|done].
  by rewrite (bind_return _ _ _ _ _ (get_vq_run i q s Hi Hq)).
Qed.

End Rings.
