(* ===== verification/VirtioReg.v ===== *)
(** * The registers of a virtio device (src/src/virtio.c)

    Every access a driver can make to the registers returns and keeps the
    device in order, and what a driver writes takes effect as specified. *)

From S2P Require Import Prelude Effects Vmm Paging VmApi PciCfg Virtio VirtioChain VirtioRing.

Local Open Scope cmd_scope.

(** ** Finding a register *)

Lemma find_up {S} fuel lo hi offset cr (s : S) : (lo <=? hi) = true -> config_regs !! Z.to_nat (Z.shiftr (u32 (hi + lo)) 1) = Some cr -> cr_offset cr < offset ->
  find_cr_loop (Datatypes.S fuel) lo hi offset s = find_cr_loop fuel (u32 (Z.shiftr (u32 (hi + lo)) 1 + 1)) hi offset s.
Proof.
  intros Hl Hcr Ho. cbn [find_cr_loop]. cbv zeta. rewrite Hl, Hcr, (proj2 (Z.eqb_neq _ _)), (proj2 (Z.ltb_lt _ _)) by lia. done.
Qed.

(** The binary search finds what a search from the start does. *)
Lemma find_cr_spec {S} offset (s : S) : 0 <= offset < 2 ^ 31 ->
  vi_find_cr offset s = Return (List.find (fun cr => cr_offset cr =? offset) config_regs, s).
Proof.
  intros Ho. destruct (Z.ltb_spec offset 23) as [H|H].
  - assert (Hin : In offset (seqZ 0 23)) by (apply list_elem_of_In, elem_of_seqZ; lia). cbn in Hin. by repeat (destruct Hin as [<-|Hin]; [reflexivity|]).
  - assert (E : List.find (fun cr => cr_offset cr =? offset) config_regs = None).
    { destruct (List.find _ _) as [cr|] eqn:E; [|done]. apply find_some in E as [Hin E%Z.eqb_eq].
      assert (cr_offset cr <= 22); [|lia]. assert (Hall : Forall (fun cr => cr_offset cr <= 22) config_regs) by (repeat constructor; done).
      by apply (proj1 (List.Forall_forall _ _) Hall). }
    rewrite E. unfold vi_find_cr. change (length config_regs) with 10%nat. change (Z.of_nat 10 - 1) with 9.
    rewrite (find_up 9 0 9 offset _ s eq_refl eq_refl) by (cbn; unfold VTCFG_R_QSEL; lia). change (u32 _) with 5.
    rewrite (find_up 8 5 9 offset _ s eq_refl eq_refl) by (cbn; unfold VTCFG_R_ISR; lia). change (u32 _) with 8.
    rewrite (find_up 7 8 9 offset _ s eq_refl eq_refl) by (cbn; unfold VTCFG_R_CFGVEC; lia). change (u32 _) with 9.
    by rewrite (find_up 6 9 9 offset _ s eq_refl eq_refl) by (cbn; unfold VTCFG_R_QVEC; lia).
Qed.

(** ** Accesses *)

Section Regs.
Context {P D : Type} `{!VirtioPci P, !VirtioPciLaws P}.
Context (guest : nat -> (hva -> Z) -> hva -> Z) (vc : virtio_consts).
Local Abbreviation S := (vio P D).
Local Abbreviation M := (cmd S).
Context (vc_reset : M unit) (vc_qnotify : option (Z -> M unit)) (vq_notify : Z -> option (Z -> M unit)).
Context (vc_cfgread : option (Z -> Z -> Z -> M (Z * Z))) (vc_cfgwrite : option (Z -> Z -> Z -> M Z)).
Context (vc_apply_features : option (Z -> M unit)).

(** What holds of a device between accesses: one queue per number, each with a
    size that is a power of two, and a selected queue that may not exist. *)
Record vs_ok (s : S) : Prop := {
  vo_nvq : Z.of_nat (length (vs_queues (vsc s))) = vc_nvq vc;
  vo_sizes : Forall (fun q => exists k, 0 <= k <= 15 /\ vq_qsize q = 2 ^ k) (vs_queues (vsc s));
  vo_curq : 0 <= vs_curq (vsc s);
  vo_caps : vs_negotiated_caps (vsc s) = Z.land (vs_negotiated_caps (vsc s)) (vc_hv_caps vc);
  vo_style : mmap_style (vgmap s) = VM_MMAP_ALL;
  vo_pci : vp_ok (vpi s);
}.

Definition keeps {A} (c : M A) : Prop := forall s, vs_ok s -> wp c (fun _ s' => vs_ok s') s.

(** When [c] returns, the device is in order. *)
Definition keeps_if {A} (c : M A) : Prop := forall s a s', vs_ok s -> c s = Return (a, s') -> vs_ok s'.

(** The offsets that the device's own functions are called with. *)
Definition in_config (o n : Z) : Prop := 0 <= o /\ (n = 1 \/ n = 2 \/ n = 4) /\ (vc_cfgsize vc <> 0 -> o + n <= vc_cfgsize vc).

(** What the functions of a device promise: they return and keep the device in
    order, inside its registers; a notification keeps the device in order when
    it returns, which depends on the requests. *)
Record device_laws : Prop := {
  dl_reset : keeps vc_reset;
  dl_qnotify f : vc_qnotify = Some f -> forall i, keeps_if (f i);
  dl_notify i f : vq_notify i = Some f -> forall j, keeps_if (f j);
  dl_cfgread : exists f, vc_cfgread = Some f /\ forall o n v, in_config o n -> keeps (f o n v);
  dl_cfgwrite : exists f, vc_cfgwrite = Some f /\ forall o n v, in_config o n -> keeps (f o n v);
  dl_apply f : vc_apply_features = Some f -> forall c, keeps (f c);
  dl_caps : vc_hv_caps vc in_u 32;
}.

Lemma keeps_pi {A} (c : cmd P A) : (forall p, vp_ok p -> wp c (fun _ p' => vp_ok p') p) -> keeps (on_pi c).
Proof.
  intros Hc s Hs. specialize (Hc (vpi s) (vo_pci s Hs)). unfold wp, on_pi in *. destruct (c (vpi s)) as [[a p]| |]; try done. by destruct Hs.
Qed.

Lemma vio_keeps_bind {A B} (c : M A) (f : A -> M B) : keeps c -> (forall a, keeps (f a)) -> keeps (bind c f).
Proof. intros Hc Hf s Hs. apply wp_bind. apply (wp_conseq _ _ _ _ (Hc s Hs)). intros a s' Hs'. by apply Hf. Qed.

Lemma wp_vio_keeps {A B} (c : M A) (f : A -> M B) Q s : keeps c -> vs_ok s -> (forall a s', vs_ok s' -> wp (f a) Q s') -> wp (bind c f) Q s.
Proof. intros Hc Hs Hf. apply wp_bind. exact (wp_conseq _ _ _ _ (Hc s Hs) Hf). Qed.

Lemma vio_keeps_ret {A} (a : A) : keeps (ret a).
Proof. intros s Hs. exact Hs. Qed.

Lemma vio_keeps_when b c : (b = true -> keeps c) -> keeps (when b c).
Proof. intros Hc s Hs. destruct b; [by apply Hc|exact Hs]. Qed.

Lemma keeps_on_vq i f : (forall q, vq_qsize (f q) = vq_qsize q) -> keeps (on_vq i f).
Proof.
  intros Hf s [Hn Hs Hc Hcap Hst Hp]. apply wp_update. split; try done.
  - change (Z.of_nat (length (alter f (Z.to_nat i) (vs_queues (vsc s)))) = vc_nvq vc). by rewrite length_alter.
  - change (Forall (fun q => exists k, 0 <= k <= 15 /\ vq_qsize q = 2 ^ k) (alter f (Z.to_nat i) (vs_queues (vsc s)))).
    apply Forall_alter; [done|]. intros q Hq (k & Hk & E). exists k. by rewrite Hf.
Qed.

Lemma wp_get_vq i (Q : vqueue_info -> S -> Prop) s : vs_ok s -> 0 <= i < vc_nvq vc -> (forall q, Q q s) -> wp (get_vq i) Q s.
Proof.
  intros Hs Hi HQ. destruct (lookup_lt_is_Some_2 (vs_queues (vsc s)) (Z.to_nat i)) as [q Hq]; [pose proof (vo_nvq s Hs); lia|].
  unfold wp. rewrite (get_vq_run i q) by (done || lia). apply HQ.
Qed.

Lemma keeps_guest2host a len : keeps (paddr_guest2host a len).
Proof. intros s Hs. unfold wp, paddr_guest2host, bind, gets, KASSERT. rewrite (vo_style s Hs). exact Hs. Qed.

Lemma keeps_vq_init pfn s : vs_ok s -> vs_curq (vsc s) < vc_nvq vc -> wp (vi_vq_init pfn) (fun _ s' => vs_ok s') s.
Proof.
  intros Hs Hc. pose proof (vo_curq s Hs) as H0. unfold vi_vq_init. apply wp_bind, wp_gets. set (i := vs_curq (vsc s)) in *.
  apply wp_vio_keeps; [by apply keeps_on_vq|done|]. intros _ s1 Hs1. apply wp_bind, (wp_get_vq i _ _ Hs1 ltac:(lia)). intros q.
  apply wp_vio_keeps; [apply keeps_guest2host|done|]. intros base s2 Hs2. by apply keeps_on_vq.
Qed.

Lemma keeps_reset_dev : keeps vi_reset_dev.
Proof.
  unfold vi_reset_dev. apply vio_keeps_bind.
  { intros s [Hn Hs Hc Hcap Hst Hp]. apply wp_update. split; try done.
    - cbn. by rewrite length_map.
    - cbn. apply Forall_map, (Forall_impl _ _ _ Hs). intros q (k & Hk & E). by exists k. }
  intros _. apply vio_keeps_bind; [intros s Hs; exact Hs|]. intros isr. apply vio_keeps_bind.
  { apply vio_keeps_when. intros _. apply keeps_pi, lintr_deassert_returns. }
  intros _ s [Hn Hs Hc Hcap Hst Hp]. by split.
Qed.

(** An update of fields that the invariant does not mention. *)
Ltac keeps_update := let Hs := fresh in intros ? Hs; destruct Hs; apply wp_update; by split.

Lemma keeps_read_cr offset value : keeps (read_cr vc offset value).
Proof.
  intros s Hs. unfold read_cr. apply wp_bind, wp_gets. cbv zeta. pose proof (vo_curq s Hs) as H0.
  assert (Hq : forall (f : vqueue_info -> Z) v, wp (if vs_curq (vsc s) <? vc_nvq vc then q <- get_vq (vs_curq (vsc s)) ;; ret (f q) else ret v) (fun _ s' => vs_ok s') s).
  { intros f v. apply wp_if; intros Hlt; [|exact Hs]. apply Z.ltb_lt in Hlt. apply wp_bind, (wp_get_vq (vs_curq (vsc s)) _ _ Hs ltac:(lia)). intros q. exact Hs. }
  repeat (apply wp_if; intros _; [try exact Hs; try apply Hq|]); [|exact Hs].
  apply wp_vio_keeps; [keeps_update|done|]. intros _ s1 Hs1. apply wp_vio_keeps; [apply vio_keeps_when; intros _; apply keeps_pi, lintr_deassert_returns|done|].
  intros _ s2 Hs2. exact Hs2.
Qed.

Lemma caps_offered v : 0 <= v -> vc_hv_caps vc in_u 32 -> let c := u32 (Z.land v (vc_hv_caps vc)) in c = Z.land c (vc_hv_caps vc).
Proof.
  intros Hv Hc. cbv zeta. rewrite u32_id; [by rewrite <- Z.land_assoc, Z.land_diag|]. split; [apply Z.land_nonneg; lia|].
  assert (E : Z.land v (vc_hv_caps vc) = Z.land v (vc_hv_caps vc) mod 2 ^ 32); [|rewrite E; apply Z.mod_pos_bound; lia].
  rewrite <- Z.land_ones, <- Z.land_assoc, Z.land_ones, Z.mod_small by lia. done.
Qed.

Lemma keeps_write_cr offset value : device_laws -> 0 <= value -> (offset = VTCFG_R_QSEL -> value in_u 16) -> offset <> VTCFG_R_QNOTIFY ->
  keeps (write_cr vc vc_reset vc_qnotify vq_notify vc_apply_features offset value).
Proof.
  intros [Hreset _ _ _ _ Hap Hcaps] Hv Hsel Hnot. unfold write_cr.
  assert (Hif : forall (b : bool) (c d : M unit), (b = true -> keeps c) -> keeps d -> keeps (if b then c else d)) by (intros [] c d H1 H2; auto).
  apply Hif; [intros _|apply Hif; [intros _|apply Hif; [intros E|apply Hif; [intros E|apply Hif; [intros _|apply Hif; [intros _|apply Hif; [intros _|]]]]]]].
  - cbv zeta. apply vio_keeps_bind.
    + intros s [? ? ? ? ? ?]. apply wp_update. split; try done. by apply caps_offered.
    + intros _. destruct vc_apply_features as [f|]; [by apply (Hap f)|apply vio_keeps_ret].
  - intros s Hs. apply wp_bind, wp_gets. apply wp_if; intros Hlt; [exact Hs|]. apply Z.leb_gt in Hlt. by apply keeps_vq_init.
  - apply Z.eqb_eq in E. specialize (Hsel E). intros s [? ? ? ? ? ?]. apply wp_update. split; try done. cbn. rewrite i32_small; lia.
  - by apply Z.eqb_eq in E.
  - apply vio_keeps_bind; [keeps_update|]. intros _. apply vio_keeps_when. by intros _.
  - keeps_update.
  - intros s Hs. apply wp_bind, wp_gets. apply wp_if; intros Hlt; [exact Hs|]. apply Z.leb_gt in Hlt. pose proof (vo_curq s Hs).
    apply wp_bind, (wp_get_vq (vs_curq (vsc s)) _ _ Hs ltac:(lia)). intros q. by apply keeps_on_vq.
  - apply vio_keeps_ret.
Qed.

Lemma wp_device_offset offset size s : vs_ok s -> 0 <= offset < 2 ^ 31 ->
  wp (device_offset vc offset size) (fun o s' => vs_ok s' /\ forall n, o = Some n -> in_config n size) s.
Proof.
  intros Hs Ho. unfold device_offset, config_size. apply wp_if; intros Hsz; [|apply wp_ret; by split]. rewrite !orb_true_iff, !Z.eqb_eq in Hsz.
  do 2 apply wp_bind. apply wp_gets, wp_ret. set (csize := if vp_msix_enabled (vpi s) then VTCFG_R_CFG1 else VTCFG_R_CFG0). assert (0 <= csize <= 24) by (unfold csize, VTCFG_R_CFG1, VTCFG_R_CFG0; destruct (vp_msix_enabled _); lia).
  apply wp_if; intros Hc; [|apply wp_ret; by split]. apply Z.leb_le in Hc. apply wp_ret. split; [done|]. intros n.
  rewrite (u32_id (offset - csize)), u32_id by lia. destruct (Z.ltb_spec (if vc_cfgsize vc =? 0 then 0x100000000 else vc_cfgsize vc) (offset - csize + size)) as [|Hle]; [done|].
  intros [= <-]. split; [lia|]. split; [tauto|]. intros Hne. by rewrite (proj2 (Z.eqb_neq _ _)) in Hle.
Qed.

(** The table entry found for an offset has that offset. *)
Lemma keeps_find_cr {A} offset (f : option config_reg -> M A) : 0 <= offset < 2 ^ 31 ->
  (forall cr, (forall c, cr = Some c -> In c config_regs /\ cr_offset c = offset) -> keeps (f cr)) -> keeps (bind (vi_find_cr (i32 offset)) f).
Proof.
  intros Ho Hf s Hs. rewrite i32_small by lia. apply wp_bind. unfold wp at 1. rewrite find_cr_spec by done. apply Hf; [|done].
  intros c E%find_some. by rewrite Z.eqb_eq in E.
Qed.

Definition pci_read := vi_pci_read vc vc_cfgread.
Definition pci_write := vi_pci_write vc vc_reset vc_qnotify vq_notify vc_cfgwrite vc_apply_features.

Lemma pci_read_returns baridx offset size s : device_laws -> vs_ok s -> 0 <= offset < 2 ^ 31 -> msix_bar baridx s = Return (true, s) \/ baridx = 0 ->
  wp (pci_read baridx offset size) (fun _ s' => vs_ok s') s.
Proof.
  intros Hl Hs Ho Hbar. destruct (dl_cfgread Hl) as (f & Ef & Hf). unfold pci_read, vi_pci_read. apply wp_bind. unfold msix_bar in *. apply wp_gets. unfold gets in Hbar.
  destruct (tst _ _ && _); [by apply keeps_pi; [intros p Hp; apply msix_tread_returns|]|]. destruct Hbar as [[=]| ->].
  apply wp_bind, wp_KASSERT; [done|]. cbv zeta. apply wp_bind. apply (wp_conseq _ _ _ _ (wp_device_offset offset size s Hs Ho)). intros o s1 [Hs1 Hin].
  apply wp_vio_keeps; [destruct o as [n|]; [rewrite Ef; by apply Hf, Hin|apply vio_keeps_ret]|done|]. intros r s2 Hs2. apply wp_if; intros _; [exact Hs2|].
  apply keeps_find_cr; [done| |done]. intros [cr|] _; [|apply vio_keeps_ret]. destruct (cr_size cr =? size); [apply keeps_read_cr|apply vio_keeps_ret].
Qed.

Lemma pci_write_returns baridx offset size value s : device_laws -> vs_ok s -> 0 <= offset < 2 ^ 31 -> 0 <= size <= 8 -> value in_u (8 * size) -> offset <> VTCFG_R_QNOTIFY \/ msix_bar baridx s = Return (true, s) ->
  msix_bar baridx s = Return (true, s) \/ baridx = 0 -> wp (pci_write baridx offset size value) (fun _ s' => vs_ok s') s.
Proof.
  intros Hl Hs Ho Hsz Hv Hnot Hbar. destruct (dl_cfgwrite Hl) as (f & Ef & Hf). unfold pci_write, vi_pci_write. apply wp_bind. unfold msix_bar in *. apply wp_gets. unfold gets in Hbar, Hnot.
  destruct (tst _ _ && _).
  { assert (value in_u 64) by (pose proof (Z.pow_le_mono_r 2 (8 * size) 64 ltac:(lia) ltac:(lia)); lia).
    apply wp_vio_keeps; [apply keeps_pi; intros p Hp; by apply msix_twrite_returns|done|]. intros _ s1 Hs1. exact Hs1. }
  destruct Hnot as [Hnot|[=]], Hbar as [[=]| ->].
  apply wp_bind, wp_KASSERT; [done|]. apply wp_bind. apply (wp_conseq _ _ _ _ (wp_device_offset offset size s Hs Ho)). intros o s1 [Hs1 Hin].
  apply wp_vio_keeps; [destruct o as [n|]; [rewrite Ef; by apply Hf, Hin|apply vio_keeps_ret]|done|]. intros e s2 Hs2. apply wp_if; intros _; [exact Hs2|].
  apply keeps_find_cr; [done| |done]. intros [cr|] Hcr; [|apply vio_keeps_ret].
  destruct (Z.eqb_spec (cr_size cr) size) as [Ecr|]; [|apply vio_keeps_ret]. destruct (negb (cr_ro cr)); cbn [andb]; [|apply vio_keeps_ret].
  apply keeps_write_cr; [done|lia| |done]. intros ->. destruct (Hcr cr eq_refl) as [Hreg E]. assert (Hsize : Forall (fun c => cr_offset c = VTCFG_R_QSEL -> cr_size c = 2) config_regs) by (repeat constructor; done).
  rewrite (proj1 (List.Forall_forall _ _) Hsize cr Hreg E) in Ecr. subst size. exact Hv.
Qed.

Lemma device_offset_low offset size (s : S) : offset < VTCFG_R_CFG0 -> device_offset vc offset size s = Return (None, s).
Proof.
  intros Ho. unfold device_offset, config_size, bind, gets, ret. destruct (_ || _); [|done].
  rewrite (proj2 (Z.leb_gt _ _)); [done|]. unfold VTCFG_R_CFG0, VTCFG_R_CFG1 in *. destruct (vp_msix_enabled _); lia.
Qed.

Lemma write_notify size value s : msix_bar 0 s = Return (false, s) ->
  pci_write 0 VTCFG_R_QNOTIFY size value s =
  if size =? 2 then write_cr vc vc_reset vc_qnotify vq_notify vc_apply_features VTCFG_R_QNOTIFY value s else Return (tt, s).
Proof.
  intros Hm. unfold pci_write, vi_pci_write. rewrite (bind_return _ _ _ _ _ Hm). rewrite KASSERT_true by done.
  rewrite (bind_return _ _ _ _ _ (device_offset_low VTCFG_R_QNOTIFY size s ltac:(done))). rewrite (bind_return _ _ _ _ s eq_refl). cbn [Z.eqb].
  rewrite (bind_return _ _ _ _ _ (find_cr_spec VTCFG_R_QNOTIFY s ltac:(done))). change (List.find _ _) with (Some (mk_cr VTCFG_R_QNOTIFY 2 false)).
  cbn [cr_size cr_ro negb]. rewrite andb_true_r, (Z.eqb_sym size 2). by destruct (2 =? size).
Qed.

Lemma notify_keeps value : device_laws -> keeps_if (write_cr vc vc_reset vc_qnotify vq_notify vc_apply_features VTCFG_R_QNOTIFY value).
Proof.
  intros Hl s a s' Hs. change (write_cr vc vc_reset vc_qnotify vq_notify vc_apply_features VTCFG_R_QNOTIFY value) with
    (if vc_nvq vc <=? value then skip else match vq_notify value with Some f => f value | None => match vc_qnotify with Some f => f value | None => skip end end).
  destruct (vc_nvq vc <=? value); [by intros [= _ <-]|]. destruct (vq_notify value) as [f|] eqn:E; [by apply (dl_notify Hl value f E)|].
  destruct vc_qnotify as [f|] eqn:E'; [by apply (dl_qnotify Hl f E')|by intros [= _ <-]].
Qed.

(** A guest reaches the register block and the MSI-X table, with offsets and
    values of the width of the access. *)
Definition guest_access (baridx offset size value : Z) (s : S) : Prop :=
  0 <= offset < 2 ^ 31 /\ 0 <= size <= 8 /\ value in_u (8 * size) /\ (msix_bar baridx s = Return (true, s) \/ baridx = 0).

Inductive reg_step (s : S) : S -> Prop :=
| reg_read baridx offset size v s' : guest_access baridx offset size 0 s -> pci_read baridx offset size s = Return (v, s') -> reg_step s s'
| reg_write baridx offset size value s' : guest_access baridx offset size value s -> pci_write baridx offset size value s = Return (tt, s') -> reg_step s s'.

Lemma msix_bar_run baridx (s : S) : exists b, msix_bar baridx s = Return (b, s).
Proof. by eexists. Qed.

Lemma reg_step_keeps s s' : device_laws -> vs_ok s -> reg_step s s' -> vs_ok s'.
Proof.
  intros Hl Hs [b o n v s1 (Ho & Hn & _ & Hb) E|b o n v s1 (Ho & Hn & Hv & Hb) E]; [exact (wp_run _ _ _ _ _ (pci_read_returns b o n s Hl Hs Ho Hb) E)|].
  destruct (Z.eq_dec o VTCFG_R_QNOTIFY) as [->|Hne]; [|exact (wp_run _ _ _ _ _ (pci_write_returns b o n v s Hl Hs Ho Hn Hv (or_introl Hne) Hb) E)].
  destruct (msix_bar_run b s) as [[] Em].
  - exact (wp_run _ _ _ _ _ (pci_write_returns b _ n v s Hl Hs Ho Hn Hv (or_intror Em) Hb) E).
  - destruct Hb as [Hb| ->]; [congruence|]. rewrite write_notify in E by done. destruct (n =? 2); [by apply (notify_keeps v Hl) in E|by injection E as <-].
Qed.

(** A register with this offset and width, that can be written. *)
Definition is_reg (offset size : Z) : Prop := exists cr, In cr config_regs /\ cr_offset cr = offset /\ cr_size cr = size.
Definition is_writable (offset size : Z) : Prop := exists cr, In cr config_regs /\ cr_offset cr = offset /\ cr_size cr = size /\ cr_ro cr = false.

Definition all_ones (size : Z) : Z := if size =? 1 then 0xff else if size =? 2 then 0xffff else 0xffffffff.

Lemma find_reg offset cr : List.find (fun c => cr_offset c =? offset) config_regs = Some cr -> In cr config_regs /\ cr_offset cr = offset.
Proof. intros [H1 H2]%List.find_some. split; [done|]. by apply Z.eqb_eq. Qed.

Lemma read_unknown offset size s : msix_bar 0 s = Return (false, s) -> 0 <= offset < VTCFG_R_CFG0 -> ~ is_reg offset size ->
  pci_read 0 offset size s = Return (all_ones size, s).
Proof.
  intros Hm Ho Hno. unfold pci_read, vi_pci_read. rewrite (bind_return _ _ _ _ _ Hm). rewrite KASSERT_true by done.
  rewrite (bind_return _ _ _ _ _ (device_offset_low offset size s ltac:(lia))). rewrite (bind_return _ _ _ _ s eq_refl). cbn [fst snd Z.eqb].
  rewrite i32_small by (unfold VTCFG_R_CFG0 in *; lia). rewrite (bind_return _ _ _ _ _ (find_cr_spec offset s ltac:(unfold VTCFG_R_CFG0 in *; lia))).
  destruct (List.find _ _) as [cr|] eqn:E; [|done]. apply find_reg in E as [Hin Eo].
  destruct (Z.eqb_spec (cr_size cr) size); [|done]. destruct Hno. by exists cr.
Qed.

Lemma write_unknown offset size value s : msix_bar 0 s = Return (false, s) -> 0 <= offset < VTCFG_R_CFG0 -> ~ is_writable offset size ->
  pci_write 0 offset size value s = Return (tt, s).
Proof.
  intros Hm Ho Hno. unfold pci_write, vi_pci_write. rewrite (bind_return _ _ _ _ _ Hm). rewrite KASSERT_true by done.
  rewrite (bind_return _ _ _ _ _ (device_offset_low offset size s ltac:(lia))). rewrite (bind_return _ _ _ _ s eq_refl). cbn [fst snd Z.eqb].
  rewrite i32_small by (unfold VTCFG_R_CFG0 in *; lia). rewrite (bind_return _ _ _ _ _ (find_cr_spec offset s ltac:(unfold VTCFG_R_CFG0 in *; lia))).
  destruct (List.find _ _) as [cr|] eqn:E; [|done]. apply find_reg in E as [Hin Eo].
  destruct (Z.eqb_spec (cr_size cr) size); [|done]. destruct (cr_ro cr) eqn:Er; [done|]. destruct Hno. by exists cr.
Qed.

(** An access to a register in full. *)
Lemma read_known cr s : msix_bar 0 s = Return (false, s) -> In cr config_regs -> cr_offset cr < VTCFG_R_CFG0 ->
  pci_read 0 (cr_offset cr) (cr_size cr) s = read_cr vc (cr_offset cr) (all_ones (cr_size cr)) s.
Proof.
  intros Hm Hin Ho. unfold pci_read, vi_pci_read. rewrite (bind_return _ _ _ _ _ Hm). rewrite KASSERT_true by done.
  rewrite (bind_return _ _ _ _ _ (device_offset_low (cr_offset cr) (cr_size cr) s ltac:(lia))). rewrite (bind_return _ _ _ _ s eq_refl). cbn [fst snd Z.eqb].
  unfold config_regs in Hin. cbn in Hin. repeat (destruct Hin as [<-|Hin]; [try done; reflexivity|]). done.
Qed.

Lemma write_known cr value s : msix_bar 0 s = Return (false, s) -> In cr config_regs -> cr_offset cr < VTCFG_R_CFG0 -> cr_ro cr = false ->
  pci_write 0 (cr_offset cr) (cr_size cr) value s = write_cr vc vc_reset vc_qnotify vq_notify vc_apply_features (cr_offset cr) value s.
Proof.
  intros Hm Hin Ho Hro. unfold pci_write, vi_pci_write. rewrite (bind_return _ _ _ _ _ Hm). rewrite KASSERT_true by done.
  rewrite (bind_return _ _ _ _ _ (device_offset_low (cr_offset cr) (cr_size cr) s ltac:(lia))). rewrite (bind_return _ _ _ _ s eq_refl). cbn [fst snd Z.eqb].
  unfold config_regs in Hin. cbn in Hin. repeat (destruct Hin as [<-|Hin]; [try done; reflexivity|]). done.
Qed.

Lemma msix_bar_same b (s s' : S) x : vpi s' = vpi s -> vs_flags (vsc s') = vs_flags (vsc s) -> msix_bar b s = Return (x, s) -> msix_bar b s' = Return (x, s').
Proof. unfold msix_bar, gets. intros -> -> E. by injection E as ->. Qed.

(** The queue that the driver works on, if there is one. *)
Definition selected (s : S) : option vqueue_info := vs_queues (vsc s) !! Z.to_nat (vs_curq (vsc s)).

(** A queue is selected by its number, and a number without a queue shows size 0. *)
Lemma select_queue value s (s' := s <| vsc ::= fun v => v <| vs_curq := value |> |>) : msix_bar 0 s = Return (false, s) -> vs_ok s -> value in_u 16 ->
  pci_write 0 VTCFG_R_QSEL 2 value s = Return (tt, s') /\
  pci_read 0 VTCFG_R_QSEL 2 s' = Return (value, s') /\
  pci_read 0 VTCFG_R_QNUM 2 s' = Return (match selected s' with Some q => vq_qsize q | None => 0 end, s').
Proof.
  intros Hm Hs Hv. assert (Hm' : msix_bar 0 s' = Return (false, s')) by (by apply (msix_bar_same 0 s)).
  split; [|split].
  - rewrite (write_known (mk_cr VTCFG_R_QSEL 2 false)) by (done || (cbn; tauto)). cbn [cr_offset].
    change (Return (tt, s <| vsc ::= fun v => v <| vs_curq := i32 value |> |>) = Return (tt, s')). by rewrite i32_small by lia.
  - rewrite (read_known (mk_cr VTCFG_R_QSEL 2 false)) by (done || (cbn; tauto)). cbn [cr_offset].
    change (Return (u32 value, s') = Return (value, s')). by rewrite u32_id by lia.
  - rewrite (read_known (mk_cr VTCFG_R_QNUM 2 true)) by (done || (cbn; tauto)). cbn [cr_offset].
    change ((if value <? vc_nvq vc then q <- get_vq value ;; ret (vq_qsize q) else ret 0) s' = Return (match vs_queues (vsc s) !! Z.to_nat value with Some q => vq_qsize q | None => 0 end, s')).
    pose proof (vo_nvq s Hs) as Hn. destruct (Z.ltb_spec value (vc_nvq vc)) as [Hlt|Hge].
    + destruct (lookup_lt_is_Some_2 (vs_queues (vsc s)) (Z.to_nat value)) as [q Hq]; [lia|]. rewrite Hq.
      by rewrite (bind_return _ _ _ _ _ (get_vq_run value q s' ltac:(lia) Hq)).
    + by rewrite lookup_ge_None_2 by lia.
Qed.

(** The features taken are those asked for that the device offers. *)
Lemma take_features value s (c := Z.land value (vc_hv_caps vc)) (s' := s <| vsc ::= fun v => v <| vs_negotiated_caps := c |> |>) :
  msix_bar 0 s = Return (false, s) -> vc_hv_caps vc in_u 32 -> value in_u 32 -> vc_apply_features = None ->
  pci_write 0 VTCFG_R_GUESTCAP 4 value s = Return (tt, s') /\ pci_read 0 VTCFG_R_GUESTCAP 4 s' = Return (c, s').
Proof.
  intros Hm Hc Hv Hnone. assert (Hm' : msix_bar 0 s' = Return (false, s')) by (by apply (msix_bar_same 0 s)).
  split.
  - rewrite (write_known (mk_cr VTCFG_R_GUESTCAP 4 false)) by (done || (cbn; tauto)). cbn [cr_offset]. unfold write_cr. cbn [Z.eqb]. rewrite Hnone.
    change (Return (tt, s <| vsc ::= fun v => v <| vs_negotiated_caps := u32 c |> |>) = Return (tt, s')). rewrite u32_id; [done|]. by apply land_in_u_l.
  - by rewrite (read_known (mk_cr VTCFG_R_GUESTCAP 4 false)) by (done || (cbn; tauto)).
Qed.

(** C28: whatever accesses a driver makes to the registers of a virtio device,
    in any order, with any values and between notifications that the device
    has answered, the next access to any register but the notification one
    returns: no assertion fails, no queue that does not exist is touched, the
    device's own registers are accessed within their size, and the negotiated
    features stay among those the device offers.  Below the device's own
    registers, a read at an offset or of a width that is not a register's gives
    all ones, and a write there or to a read-only register changes nothing.
    Selecting a queue takes effect: the selector reads back and the size register
    shows that queue's size, or 0 when there is no such queue; the features
    written read back as far as the device offers them.
    The device has functions for its own registers, which return and keep this
    ([device_laws], shown for the block device in [VirtioBlk]; the entropy device
    has none, and the code calls through a null pointer there), and so does its
    PCI function ([VirtioPciLaws], shown for a function of the bus). *)
Theorem registers_safe s0 s baridx offset size value (Hl : device_laws) (H0 : vs_ok s0) (Hr : rtc reg_step s0 s)
    (Ha : guest_access baridx offset size value s) :
  (exists v s', pci_read baridx offset size s = Return (v, s') /\ vs_ok s') /\
  (offset <> VTCFG_R_QNOTIFY -> exists s', pci_write baridx offset size value s = Return (tt, s') /\ vs_ok s') /\
  (msix_bar baridx s = Return (false, s) -> offset < VTCFG_R_CFG0 ->
     (~ is_reg offset size -> pci_read baridx offset size s = Return (all_ones size, s)) /\
     (~ is_writable offset size -> pci_write baridx offset size value s = Return (tt, s)) /\
     (offset = VTCFG_R_QSEL -> size = 2 -> exists s', pci_write baridx offset size value s = Return (tt, s') /\
        pci_read baridx VTCFG_R_QSEL 2 s' = Return (value, s') /\
        pci_read baridx VTCFG_R_QNUM 2 s' = Return (match vs_queues (vsc s') !! Z.to_nat value with Some q => vq_qsize q | None => 0 end, s')) /\
     (offset = VTCFG_R_GUESTCAP -> size = 4 -> vc_apply_features = None -> exists s', pci_write baridx offset size value s = Return (tt, s') /\
        pci_read baridx VTCFG_R_GUESTCAP 4 s' = Return (Z.land value (vc_hv_caps vc), s'))).
Proof.
  assert (Hs : vs_ok s) by (clear Ha; induction Hr as [|x y z Hxy _ IH]; [done|by apply IH, (reg_step_keeps x)]). destruct Ha as (Ho & Hn & Hv & Hb).
  split; [|split].
  - destruct (wp_elim _ _ _ (pci_read_returns baridx offset size s Hl Hs Ho Hb)) as (v & s' & E & Hs'). by exists v, s'.
  - intros Hne. destruct (wp_elim _ _ _ (pci_write_returns baridx offset size value s Hl Hs Ho Hn Hv (or_introl Hne) Hb)) as ([] & s' & E & Hs'). by exists s'.
  - intros Hm Hlow. destruct Hb as [Hb| ->]; [congruence|]. split; [|split; [|split]].
    + intros Hno. apply read_unknown; done || lia.
    + intros Hno. apply write_unknown; done || lia.
    + intros -> ->. eexists. exact (select_queue value s Hm Hs Hv).
    + intros -> -> Hnone. eexists. exact (take_features value s Hm (dl_caps Hl) Hv Hnone).
Qed.
End Regs.
