(* ===== verification/VirtioBlk.v ===== *)
(** * The virtio block device (src/src/pci_virtio_block.c)

    The device behind the registers and the queue of [Virtio]: its
    configuration registers, and the requests it takes from its queue and hands
    to the block backend ([BlockIf], src/src/block_if.c).  It is a function of
    the PCI bus ([PciCfg], [PciIrq]): the first part discharges what virtio
    expects of one. *)

From S2P Require Import Prelude Effects Vmm Paging VmApi PciIrq PciCfg PciCaps PciBar PciMsix PciWire Virtio VirtioChain VirtioRing VirtioReg.

Local Open Scope cmd_scope.

(** ** A function of the bus *)

(** The bus, and the messages that went to [xh_vm_lapic_msi], last first. *)
Record pci_fn (V W : Type) : Type := mk_fn { fn_bus : pci (intx V) W; fn_msgs : list (Z * Z) }.
Arguments mk_fn {V W}.
Arguments fn_bus {V W}.
Arguments fn_msgs {V W}.
#[export] Instance eta_fn {V W} : Eta (pci_fn V W) := fun f => mk_fn (fn_bus f) (fn_msgs f).

Section Function.
Context {V W : Type} `{!IntxOut V} (d : Z).
Local Abbreviation F := (pci_fn V W).

Definition on_bus {A} (c : cmd (pci (intx V) W) A) : cmd F A := fun f =>
  match c (fn_bus f) with Return (a, b) => Return (a, f <| fn_bus := b |>) | Panic => Panic | Hang => Hang end.
Definition at_router {A} (c : cmd (intx V) A) : cmd F A := fun f =>
  match c (router (fn_bus f)) with
  | Return (a, r) => Return (a, f <| fn_bus ::= fun b => b <| router := r |> |>) | Panic => Panic | Hang => Hang
  end.
Definition send (m : option (Z * Z)) : cmd F unit :=
  match m with Some m => update (fun f => f <| fn_msgs ::= cons m |>) | None => skip end.

Definition fn_virtio : VirtioPci F := {|
  vp_msix_enabled f := pci_msix_enabled (get_pdev d (fn_bus f));
  vp_table_bar f := pci_msix_table_bar (pi_msix (get_pdev d (fn_bus f)));
  vp_pba_bar f := pci_msix_pba_bar (pi_msix (get_pdev d (fn_bus f)));
  vp_msix_tread o n := on_bus (pci_emul_msix_tread d o n);
  vp_msix_twrite o n v := on_bus (pci_emul_msix_twrite d o n v);
  vp_generate_msix i := m <- on_bus (pci_generate_msix d i) ;; send m;
  vp_generate_msi i := m <- on_bus (pci_generate_msi d i) ;; send m;
  vp_lintr_assert := at_router (pci_lintr_assert d);
  vp_lintr_deassert := at_router (pci_lintr_deassert d);
|}.

(** The function is on the bus with its MSI-X table and its INTx pin. *)
Record fn_ok (f : F) : Prop := {
  fo_dev : 0 <= d < ndevs (fn_bus f);
  fo_table : msix_table_ok (get_pdev d (fn_bus f));
  fo_intx : exists w0, intx_ok w0 (router (fn_bus f));
  fo_pin : d < Z.of_nat (length (devs (router (fn_bus f))));
}.

(** A request of a device does not change how many there are. *)
Lemma assert_devs (r : intx V) r' : pci_lintr_assert d r = Return (tt, r') -> length (devs r') = length (devs r).
Proof.
  unfold pci_lintr_assert. rewrite (bind_return _ _ r (get_dev d r) r) by done. destruct (0 <? _); [|done]. rewrite KASSERT_true by done.
  destruct (bool_decide _); cbn [when]; [|by intros [= <-]]. destruct (l_permitted _).
  - unfold bind, on_dev, update. intros ->%irq_assert_devs. unfold upd. cbn. apply length_alter.
  - intros [= <-]. unfold upd. cbn. apply length_alter.
Qed.

Lemma deassert_devs (r : intx V) r' : pci_lintr_deassert d r = Return (tt, r') -> length (devs r') = length (devs r).
Proof.
  unfold pci_lintr_deassert. rewrite (bind_return _ _ r (get_dev d r) r) by done. destruct (0 <? _); [|done]. rewrite KASSERT_true by done.
  destruct (bool_decide (_ = ASSERTED)).
  - unfold bind, on_dev, update. intros ->%irq_deassert_devs. unfold upd. cbn. apply length_alter.
  - destruct (bool_decide _); cbn [when]; intros [= <-]; [|done]. unfold upd. cbn. apply length_alter.
Qed.

(** The device operations of [PciIrq] as operations of the function. *)
Lemma wp_router o c (f : F) : run_intx o = c -> (forall r r' : intx V, c r = Return (tt, r') -> length (devs r') = length (devs r)) ->
  (forall r : intx V, intx_allowed o r <-> 0 <= d < Z.of_nat (length (devs r))) -> fn_ok f -> wp (at_router c) (fun _ f' => fn_ok f') f.
Proof.
  intros Hc Hlen Hal [Hd Ht (w0 & Hx) Hp]. pose proof (wp_run_intx w0 o (router (fn_bus f)) Hx) as Hwp. rewrite Hc in Hwp.
  destruct (wp_elim _ _ _ (Hwp ltac:(apply Hal; lia))) as ([] & r & E & Hr). unfold wp, at_router. rewrite E.
  split; try done; [by exists w0|]. apply Hlen in E. cbn. by rewrite E.
Qed.

(** Code that leaves the bus as it is. *)
Lemma wp_same {A} (c : cmd (pci (intx V) W) A) (k : A -> cmd F unit) (f : F) a : c (fn_bus f) = Return (a, fn_bus f) ->
  wp (k a) (fun _ f' => fn_ok f') f -> wp (bind (on_bus c) k) (fun _ f' => fn_ok f') f.
Proof. intros E Hk. apply wp_bind. unfold wp at 1, on_bus. rewrite E. by destruct f. Qed.

Lemma send_ok m (f : F) : fn_ok f -> wp (send m) (fun _ f' => fn_ok f') f.
Proof. intros [? ? ? ?]. destruct m; by split. Qed.

(** Commands that do not change the bus. *)
Definition looks {A} (c : cmd (pci (intx V) W) A) : Prop := forall b a b', c b = Return (a, b') -> b' = b.

Lemma looks_bind {A B} (c : cmd (pci (intx V) W) A) (k : A -> cmd (pci (intx V) W) B) : looks c -> (forall a, looks (k a)) -> looks (bind c k).
Proof. intros Hc Hk b a b'. unfold bind. destruct (c b) as [[x b1]| |] eqn:E; try done. apply Hc in E as ->. apply Hk. Qed.
Lemma looks_ret {A} (a : A) : looks (ret a).
Proof. by intros b a' b' [= _ <-]. Qed.
Lemma looks_load m o n : looks (table_load m o n).
Proof. intros b a b'. unfold table_load. destruct (msix_table m); [|done]. destruct (_ && _); [|done]. by intros [= _ <-]. Qed.

Lemma looks_generate i : looks (pci_generate_msix d i).
Proof.
  unfold pci_generate_msix. apply looks_bind; [by intros b a b' [= _ <-]|]. intros p. cbv zeta.
  repeat (destruct (negb _) || destruct (msix_function_mask _) || destruct (_ <=? _)); try apply looks_ret.
  all: apply looks_bind; [apply looks_load|]; intros v; destruct (negb _); [|apply looks_ret].
  all: do 2 (apply looks_bind; [apply looks_load|]; intros ?); apply looks_ret.
Qed.

#[local] Existing Instance fn_virtio.

(** The bus keeps what virtio expects of it. *)
Definition fn_virtio_laws : VirtioPciLaws F.
Proof.
  refine {| vp_ok := fn_ok |}.
  - intros o n f Hf Ho. destruct (fo_dev f Hf) as [H1 H2]. pose proof (tread_spec d o n (fn_bus f) (fo_table f Hf) ltac:(lia)) as E.
    unfold wp, vp_msix_tread, fn_virtio, on_bus. rewrite E. by destruct f.
  - intros o n v f Hf Ho _. pose proof Hf as [Hd Ht Hx Hp]. pose proof (twrite_spec d o n v (fn_bus f) Hd Ht ltac:(lia)) as E.
    unfold wp, vp_msix_twrite, fn_virtio, on_bus. rewrite E. destruct (_ && _); [|by destruct f]. split; try done.
    + unfold ndevs, set_pdev, upd. cbn. by rewrite length_insert.
    + change (msix_table_ok (get_pdev d (set_pdev d (table_written (get_pdev d (fn_bus f)) o n v) (fn_bus f)))).
      rewrite set_pdev_step, get_step by done. by apply table_written_ok.
  - intros i f f' Hf. unfold vp_generate_msix, fn_virtio, bind, on_bus. destruct (pci_generate_msix d i (fn_bus f)) as [[m b]| |] eqn:E; try done.
    apply looks_generate in E as ->. intros E. apply (wp_run _ _ _ tt _ (send_ok m _ Hf)). by destruct f.
  - intros i f Hf. apply (wp_same _ _ _ _ eq_refl). by apply send_ok.
  - intros f Hf. by apply (wp_router (XAssert d)); [|apply assert_devs| |].
  - intros f Hf. by apply (wp_router (XDeassert d)); [|apply deassert_devs| |].
Defined.
End Function.

(** ** The block device *)

Definition VRING_DESC_F_WRITE : Z := 2.
Definition VTBLK_RINGSZ : Z := 64.
Definition VTBLK_S_OK : Z := 0.
Definition VTBLK_S_IOERR : Z := 1.
Definition VTBLK_S_UNSUPP : Z := 2.
Definition VTBLK_S_HOSTCAPS : Z := Z.lor (bit 2) (Z.lor (bit 6) (Z.lor (bit 9) (Z.lor (bit 10) VIRTIO_RING_F_INDIRECT_DESC))).
Definition VBH_OP_READ : Z := 0.
Definition VBH_OP_WRITE : Z := 1.
Definition VBH_OP_FLUSH : Z := 4.
Definition VBH_OP_FLUSH_OUT : Z := 5.
Definition VBH_OP_IDENT : Z := 8.
Definition VBH_FLAG_BARRIER : Z := 0x80000000.
Definition BLOCKIF_IOV_MAX : Z := 33.
Definition DEV_BSIZE : Z := 512.
Definition ENOSYS : Z := 78.
Definition EOPNOTSUPP : Z := 102.

(** [struct vtblk_config] is packed: these bytes. *)
Record vtblk_config : Type := mk_vtblk_config {
  vbc_capacity : Z; vbc_size_max : Z; vbc_seg_max : Z; vbc_cylinders : Z; vbc_heads : Z; vbc_sectors : Z; vbc_blk_size : Z;
  vbc_physical_block_exp : Z; vbc_alignment_offset : Z; vbc_min_io_size : Z; vbc_opt_io_size : Z; vbc_writeback : Z;
}.
Definition config_bytes (c : vtblk_config) : list Z :=
  le_split 8 (vbc_capacity c) ++ le_split 4 (vbc_size_max c) ++ le_split 4 (vbc_seg_max c) ++
  le_split 2 (vbc_cylinders c) ++ le_split 1 (vbc_heads c) ++ le_split 1 (vbc_sectors c) ++ le_split 4 (vbc_blk_size c) ++
  le_split 1 (vbc_physical_block_exp c) ++ le_split 1 (vbc_alignment_offset c) ++ le_split 2 (vbc_min_io_size c) ++ le_split 4 (vbc_opt_io_size c) ++
  le_split 1 (vbc_writeback c).

(** [struct pci_vtblk_ioreq] with the request of the backend in it. *)
Record pci_vtblk_ioreq : Type := mk_ioreq {
  br_iov : list iovec; br_iovcnt : Z; br_offset : Z; br_resid : Z; io_status : option hva; io_idx : Z;
}.

(** The backend: a request is queued (0) or refused (an error). *)
Class BlockIf (B : Type) := {
  blockif_read : pci_vtblk_ioreq -> cmd B Z;
  blockif_write : pci_vtblk_ioreq -> cmd B Z;
  blockif_flush : pci_vtblk_ioreq -> cmd B Z;
}.

Record pci_vtblk_softc (B : Type) : Type := mk_vtblk {
  vbsc_cfg : vtblk_config;
  bc : B;
  vbsc_ident : list Z;
  vbsc_ios : list pci_vtblk_ioreq;
}.
Arguments mk_vtblk {B}.
Arguments vbsc_cfg {B}.
Arguments bc {B}.
Arguments vbsc_ident {B}.
Arguments vbsc_ios {B}.
#[export] Instance eta_vtblk {B} : Eta (pci_vtblk_softc B) := fun s => mk_vtblk (vbsc_cfg s) (bc s) (vbsc_ident s) (vbsc_ios s).

Definition vtblk_vi_consts : virtio_consts := mk_vc 1 33 VTBLK_S_HOSTCAPS.

Section Block.
Context {P B : Type} `{!VirtioPci P, !BlockIf B}.
Context (guest : nat -> (hva -> Z) -> hva -> Z).
Local Abbreviation S := (vio P (pci_vtblk_softc B)).
Local Abbreviation M := (cmd S).

Definition pci_vtblk_reset : M unit := vi_reset_dev.

Definition on_bc {A} (c : cmd B A) : M A := fun s =>
  match c (bc (vdev s)) with Return (a, b) => Return (a, s <| vdev ::= fun v => v <| bc := b |> |>) | Panic => Panic | Hang => Hang end.

(** [vbsc_ios[idx]]. *)
Definition get_io (idx : Z) : M pci_vtblk_ioreq := fun s =>
  match (if 0 <=? idx then vbsc_ios (vdev s) !! Z.to_nat idx else None) with Some io => Return (io, s) | None => Panic end.

Definition pci_vtblk_done_locked (idx err : Z) : M unit :=
  io <- get_io idx ;;
  vstore 1 (io_status io) 0 (if (err =? EOPNOTSUPP) || (err =? ENOSYS) then VTBLK_S_UNSUPP else if negb (err =? 0) then VTBLK_S_IOERR else VTBLK_S_OK) ;;;
  vq_relchain guest 0 (io_idx io) 1 ;;;
  vq_endchains guest 0 false.

(** [iov[k]] and [flags[k]]; none of those read is missing. *)
Definition get_iov (iov : list iovec) (k : Z) : M (option hva * Z * Z) :=
  match iov !! Z.to_nat k with Some (mk_iov b l (Some f)) => ret (b, l, f) | _ => fun _ => Panic end.

(** [memset] and [strncpy] to guest memory. *)
Definition put_bytes (p : option hva) (l : list Z) : M unit := fun s =>
  match l, p with
  | [], _ => Return (tt, s)
  | _, None => Panic
  | _, Some h => if host_ok (vgmap s) h (Z.of_nat (length l)) then Return (tt, s <| vmem ::= write_bytes_at h l |>) else Panic
  end.

(** The direction of each data buffer, and the sum of their lengths. *)
Fixpoint check_bufs (writeop : bool) (bufs : list iovec) (iolen : Z) : M Z :=
  match bufs with
  | [] => ret iolen
  | mk_iov _ l (Some f) :: bufs => KASSERT (Bool.eqb (negb (tst f VRING_DESC_F_WRITE)) writeop) ;;; check_bufs writeop bufs (iolen + l)
  | _ :: _ => fun _ => Panic
  end.

Definition pci_vtblk_proc : M unit :=
  c <- vq_getchain guest vtblk_vi_consts 0 (BLOCKIF_IOV_MAX + 2) true ;;
  let '(n, pidx, iov) := c in
  KASSERT ((2 <=? n) && (n <=? BLOCKIF_IOV_MAX + 2)) ;;;
  let idx := default 0 pidx in
  io <- get_io idx ;;
  hdr <- get_iov iov 0 ;;
  let '(vbh, len0, flags0) := hdr in
  KASSERT (negb (tst flags0 VRING_DESC_F_WRITE)) ;;;
  KASSERT (len0 =? 16) ;;;
  let bufs := take (Z.to_nat (n - 2)) (drop 1 iov) in
  vbh_sector <- vload guest 8 vbh 8 ;;
  st <- get_iov iov (n - 1) ;;
  let '(status, len, fl) := st in
  KASSERT (len =? 1) ;;;
  KASSERT (tst fl VRING_DESC_F_WRITE) ;;;
  vbh_type <- vload guest 4 vbh 0 ;;
  let type := Z.land vbh_type (Z.lxor VBH_FLAG_BARRIER 0xffffffff) in
  iolen <- check_bufs (type =? VBH_OP_WRITE) bufs 0 ;;
  let io := mk_ioreq bufs (n - 2) (i64 (vbh_sector * DEV_BSIZE)) iolen status (io_idx io) in
  update (fun s => s <| vdev ::= fun v => v <| vbsc_ios ::= <[Z.to_nat idx := io]> |> |>) ;;;
  if type =? VBH_OP_READ then err <- on_bc (blockif_read io) ;; KASSERT (err =? 0)
  else if type =? VBH_OP_WRITE then err <- on_bc (blockif_write io) ;; KASSERT (err =? 0)
  else if (type =? VBH_OP_FLUSH) || (type =? VBH_OP_FLUSH_OUT) then err <- on_bc (blockif_flush io) ;; KASSERT (err =? 0)
  else if type =? VBH_OP_IDENT then
    b <- get_iov iov 1 ;;
    ident <- gets (fun s => vbsc_ident (vdev s)) ;;
    let '(base, l, _) := b in
    put_bytes base (replicate (Z.to_nat l) 0) ;;;
    put_bytes base (take (Z.to_nat l) ident) ;;;
    pci_vtblk_done_locked idx 0
  else pci_vtblk_done_locked idx EOPNOTSUPP.

(** The loop ends when the guest stops adding requests; [Hang] when it goes on
    for [rounds] of them. *)
Fixpoint pci_vtblk_notify (rounds : nat) (i : Z) : M unit :=
  h <- vq_has_descs guest 0 ;;
  if h : bool then match rounds with O => fun _ => Hang | Datatypes.S rounds => pci_vtblk_proc ;;; pci_vtblk_notify rounds i end else ret tt.

Definition pci_vtblk_cfgwrite (offset size value : Z) : M Z := ret 1.

(** The bytes are copied over the low ones of the value. *)
Definition pci_vtblk_cfgread (offset size value : Z) : M (Z * Z) := fun s =>
  let cfg := config_bytes (vbsc_cfg (vdev s)) in
  if (0 <=? offset) && (offset + size <=? Z.of_nat (length cfg))
  then Return ((0, le_combine (take (Z.to_nat size) (drop (Z.to_nat offset) cfg) ++ drop (Z.to_nat size) (le_split 4 value))), s) else Panic.
End Block.

(** ** The device keeps what its registers expect *)

Section Laws.
Context {P B : Type} `{!VirtioPci P, !VirtioPciLaws P, !BlockIf B}.
Context (guest : nat -> (hva -> Z) -> hva -> Z).
Local Abbreviation S := (vio P (pci_vtblk_softc B)).
Local Abbreviation M := (cmd S).
Local Abbreviation ok := (vs_ok (D := pci_vtblk_softc B) vtblk_vi_consts).
Local Abbreviation stays := (keeps_if (D := pci_vtblk_softc B) vtblk_vi_consts).

Lemma stays_bind {A C} (c : M A) (k : A -> M C) : stays c -> (forall a, stays (k a)) -> stays (bind c k).
Proof. intros Hc Hk s a s' Hs. unfold bind. destruct (c s) as [[x s1]| |] eqn:E; try done. apply Hk. by apply (Hc s x s1). Qed.

Lemma stays_ret {A} (a : A) : stays (ret a).
Proof. by intros s a' s' Hs [= _ <-]. Qed.
Lemma stays_stop {A} : stays (fun _ => @Panic (A * S)).
Proof. by intros s a s' Hs. Qed.
Lemma stays_hang {A} : stays (fun _ => @Hang (A * S)).
Proof. by intros s a s' Hs. Qed.
Lemma stays_gets {A} (f : S -> A) : stays (gets f).
Proof. by intros s a s' Hs [= _ <-]. Qed.
Lemma stays_assert b : stays (KASSERT b).
Proof. intros s a s' Hs. unfold KASSERT. destruct b; [|done]. by intros [= _ <-]. Qed.
Lemma stays_skip : stays skip.
Proof. by intros s a s' Hs [= _ <-]. Qed.
Lemma stays_keeps {A} (c : M A) : keeps vtblk_vi_consts c -> stays c.
Proof. intros Hc s a s' Hs E. exact (wp_run _ _ _ _ _ (Hc s Hs) E). Qed.

(** Changes of memory and of the device's own data. *)
Lemma ok_mem (s : S) m n v : ok s -> ok (s <| vmem := m |> <| vloads := n |> <| vdev := v |>).
Proof. intros [? ? ? ? ? ?]. by split. Qed.

Lemma stays_vload n p o : stays (vload guest n p o).
Proof.
  intros s a s' Hs. unfold vload. destruct p as [b|]; [|done]. cbv zeta. destruct (host_ok _ _ _); [|done]. intros [= _ <-].
  exact (ok_mem s _ (Datatypes.S (vloads s)) (vdev s) Hs).
Qed.
Lemma stays_vstore n p o v : stays (vstore n p o v).
Proof.
  intros s a s' Hs. unfold vstore. destruct p as [b|]; [|done]. cbv zeta. destruct (host_ok _ _ _); [|done]. intros [= _ <-].
  exact (ok_mem s _ (vloads s) (vdev s) Hs).
Qed.
Lemma stays_put p l : stays (put_bytes p l).
Proof.
  intros s a s' Hs. unfold put_bytes. destruct l; [by intros [= _ <-]|]. destruct p; [|done]. destruct (host_ok _ _ _); [|done]. intros [= _ <-].
  exact (ok_mem s _ (vloads s) (vdev s) Hs).
Qed.
Lemma stays_vdev f : stays (update (fun s => s <| vdev ::= f |>)).
Proof. intros s a s' Hs [= _ <-]. exact (ok_mem s (vmem s) (vloads s) _ Hs). Qed.
Lemma stays_bc {A} (c : cmd B A) : stays (on_bc c).
Proof.
  intros s a s' Hs. unfold on_bc. destruct (c _) as [[x b]| |]; try done. intros [= _ <-]. exact (ok_mem s (vmem s) (vloads s) _ Hs).
Qed.
Lemma stays_io i : stays (get_io i).
Proof. intros s a s' Hs. unfold get_io. destruct (if 0 <=? i then _ else None); [|done]. by intros [= _ <-]. Qed.
Lemma stays_get_vq i : stays (get_vq i).
Proof. intros s a s' Hs. unfold get_vq. destruct (if 0 <=? i then _ else None); [|done]. by intros [= _ <-]. Qed.
Lemma stays_get_iov iov k : stays (get_iov iov k).
Proof. unfold get_iov. repeat case_match; (apply stays_ret || apply stays_stop). Qed.
Lemma stays_on_vq i f : (forall q, vq_qsize (f q) = vq_qsize q) -> stays (on_vq i f).
Proof. intros Hf. by apply stays_keeps, keeps_on_vq. Qed.
Lemma stays_guest2host a len : stays (paddr_guest2host a len).
Proof. apply stays_keeps, keeps_guest2host. Qed.
Lemma stays_pi_msix i : stays (on_pi (vp_generate_msix i)).
Proof.
  intros s a s' Hs. unfold on_pi. destruct (vp_generate_msix i (vpi s)) as [[[] p]| |] eqn:E; try done. intros [= _ <-].
  destruct Hs as [? ? ? ? ? Hp]. split; try done. by apply (generate_msix_keeps i (vpi s)).
Qed.

#[local] Hint Resolve stays_ret stays_stop stays_hang stays_gets stays_assert stays_skip stays_vload stays_vstore stays_put stays_vdev stays_bc
  stays_io stays_get_vq stays_get_iov stays_guest2host stays_pi_msix : stays.

(** One construct of a program after the other. *)
Ltac stays_go := repeat first
  [ done | apply stays_bind; [|intros ?] | apply stays_on_vq; done | solve [auto 2 with stays]
  | match goal with |- stays (let '(_, _) := ?x in _) => destruct x end
  | match goal with |- stays (match ?x with _ => _ end) => destruct x end ].

Lemma stays_record i vd iov n_iov flags : stays (vq_record guest i vd iov n_iov flags).
Proof. unfold vq_record, vd_addr, vd_len, vd_flags. stays_go. Qed.

Lemma stays_indir fuel : forall vindir n n_iov flags next i iov, stays (indir_loop guest fuel vindir n n_iov flags next i iov).
Proof.
  induction fuel as [|fuel IH]; intros; cbn [indir_loop]; [apply stays_hang|]. unfold vd_flags, vd_next. cbv zeta. pose proof stays_record. stays_go.
Qed.

Lemma stays_chain fuel : forall q n_iov flags next i iov, stays (chain_loop guest vtblk_vi_consts fuel q n_iov flags next i iov).
Proof.
  induction fuel as [|fuel IH]; intros; cbn [chain_loop]; [destruct (_ <? _); [apply stays_hang|apply stays_ret]|].
  unfold chain_desc, vd_flags, vd_next, vd_len, vd_addr. cbv zeta. pose proof stays_record. pose proof stays_indir. stays_go.
Qed.

Lemma stays_getchain i n_iov flags : stays (vq_getchain guest vtblk_vi_consts i n_iov flags).
Proof. unfold vq_getchain, va_idx, va_ring. cbv zeta. pose proof stays_chain. stays_go. Qed.

Lemma stays_interrupt i : stays (vq_interrupt i).
Proof.
  unfold vq_interrupt. apply stays_bind; [apply stays_gets|]. intros e. destruct e; [stays_go|]. apply stays_bind.
  { intros s a s' [? ? ? ? ? ?] [= _ <-]. by split. }
  intros _. apply stays_bind; [|intros _]; apply stays_keeps, keeps_pi; [apply generate_msi_returns|apply lintr_assert_returns].
Qed.

Lemma stays_done idx err : stays (pci_vtblk_done_locked guest idx err).
Proof.
  unfold pci_vtblk_done_locked, vq_relchain, vq_endchains, vu_idx, set_vu_ring, set_vu_idx, VQ_USED_EVENT_IDX, va_ring, va_flags. cbv zeta.
  pose proof stays_interrupt. unfold when. stays_go.
Qed.

Lemma stays_check writeop bufs : forall iolen, stays (check_bufs writeop bufs iolen).
Proof. induction bufs as [|[b l f] bufs IH]; intros iolen; cbn [check_bufs]; stays_go. Qed.

Lemma stays_notify rounds i : stays (pci_vtblk_notify guest rounds i).
Proof.
  assert (Hh : stays (vq_has_descs guest 0)) by (unfold vq_has_descs, va_idx; stays_go).
  assert (Hp : stays (pci_vtblk_proc guest)).
  { unfold pci_vtblk_proc. cbv zeta. pose proof stays_getchain. pose proof stays_check. pose proof stays_done. stays_go. }
  induction rounds as [|n IH]; cbn [pci_vtblk_notify]; stays_go.
Qed.

Lemma config_size_33 c : length (config_bytes c) = 33%nat.
Proof. done. Qed.

Lemma vtblk_laws rounds : device_laws (D := pci_vtblk_softc B) vtblk_vi_consts pci_vtblk_reset (Some (pci_vtblk_notify guest rounds)) (fun _ => None)
  (Some pci_vtblk_cfgread) (Some pci_vtblk_cfgwrite) None.
Proof.
  split; try done.
  - apply keeps_reset_dev.
  - intros f [= <-] i. apply stays_notify.
  - eexists. split; [done|]. intros o n v (Ho & Hn & Hs) s Hok. unfold wp, pci_vtblk_cfgread. cbv zeta. rewrite config_size_33.
    specialize (Hs ltac:(done)). cbn in Hs. rewrite (proj2 (Z.leb_le 0 o)), (proj2 (Z.leb_le _ _)) by lia. done.
  - eexists. split; [done|]. intros o n v _. apply vio_keeps_ret.
Qed.
End Laws.
