(* ===== verification/VirtioExample.v ===== *)
(** * A block device and its driver

    A virtio block device on a bus, with a request in its queue: a header and an
    indirect table with a data buffer and the status byte.  The theorems about
    virtio apply to it.  A guest that changes a descriptor while the device
    reads it, and a device without registers of its own, show what the code
    does not check. *)

From S2P Require Import Prelude Effects Vmm Paging VmApi PciIrq PciCfg PciCaps PciBar PciMsix PciWire PciExample.
From S2P Require Import Virtio VirtioChain VirtioRing VirtioReg VirtioBlk.

Local Open Scope cmd_scope.

Module VirtioExample.

(** ** The device *)

Definition table : pi_msix_t := mk_msix false 1 1 0 2 0x1000 0x1000 false (Some (replicate 32 0)).
Definition disk : devinst := mk_devinst 0 0 no_msi table (fun _ => 0) (replicate 6 no_bar).
Definition bus : pci (intx (list intx_call)) unit :=
  mk_pci [disk; disk] (fun _ _ _ => None) PciExample.router0 tt false 0 0 0 0 PCI_EMUL_IOBASE 0xc0000000 PCI_EMUL_MEMBASE64.

#[export] Instance disk_fn : VirtioPci (pci_fn (list intx_call) unit) := fn_virtio 0.
#[export] Instance disk_laws : VirtioPciLaws (pci_fn (list intx_call) unit) := fn_virtio_laws 0.

Lemma bus_ok : fn_ok 0 (mk_fn bus []).
Proof.
  split; [done| |exact (proj1 (PciExample.router0_ok (fun _ => true) eq_refl eq_refl))|done].
  split; [done|]. eexists. split; [done|]. reflexivity.
Qed.

(** A backend that takes every request. *)
#[export] Instance take_all : BlockIf (list pci_vtblk_ioreq) := {
  blockif_read io := update (cons io) ;;; ret 0;
  blockif_write io := update (cons io) ;;; ret 0;
  blockif_flush io := update (cons io) ;;; ret 0;
}.

(** ** Guest memory *)

Definition gmap0 : guest_map := mk_guest_map VM_MMAP_ALL (3 * GB) 0x10000 0 (Some (1, 0)) None.
Definition ring : hva := (1, 0x1000).
Definition avail : hva := (1, 0x1400).
Definition used : hva := (1, 0x2000).

Definition put_desc (h : hva) (a l f n : Z) (m : hva -> Z) : hva -> Z :=
  store 8 h a (store 4 (hva_add h 8) l (store 2 (hva_add h 12) f (store 2 (hva_add h 14) n m))).
(** Descriptor 3 is the header, 5 the indirect table. *)
Definition mem0 : hva -> Z :=
  put_desc (hva_add ring 48) 0x4000 16 VRING_DESC_F_NEXT 5 (
  put_desc (hva_add ring 80) 0x3000 32 VRING_DESC_F_INDIRECT 0 (
  put_desc (1, 0x3000) 0x5000 512 (VRING_DESC_F_NEXT + VRING_DESC_F_WRITE) 1 (
  put_desc (1, 0x3010) 0x6000 1 VRING_DESC_F_WRITE 0 (
  store 2 (hva_add avail 2) 1 (store 2 (hva_add avail 4) 3 (fun _ => 0)))))).

Definition quiet (n : nat) (m : hva -> Z) : hva -> Z := m.

Definition queue0 : vqueue_info := mk_vq 64 0 0 0 VIRTIO_MSI_NO_VECTOR 0 None None None.
Definition soft : pci_vtblk_softc (list pci_vtblk_ioreq) :=
  mk_vtblk (mk_vtblk_config 2048 0 33 0 0 0 512 0 0 0 0 0) [] (replicate 21 0) ((fun i => mk_ioreq [] 0 0 0 None (Z.of_nat i)) <$> seq 0 64).
Definition dev0 : vio (pci_fn (list intx_call) unit) (pci_vtblk_softc (list pci_vtblk_ioreq)) :=
  mk_vio (mk_vs VIRTIO_USE_MSIX 0 [queue0] 0 0 0 VIRTIO_MSI_NO_VECTOR) (mk_fn bus []) soft gmap0 mem0 0.

Local Abbreviation read := (pci_read vtblk_vi_consts (Some pci_vtblk_cfgread)).
Local Abbreviation write := (pci_write vtblk_vi_consts pci_vtblk_reset (Some (pci_vtblk_notify quiet 64)) (fun _ => None) (Some pci_vtblk_cfgwrite) None).

(** The driver sets up its queue at page 1. *)
Definition after {A} (c : cmd (vio (pci_fn (list intx_call) unit) (pci_vtblk_softc (list pci_vtblk_ioreq))) A) s := match c s with Return (_, s') => s' | _ => s end.
Definition dev1 := after (write 0 VTCFG_R_PFN 4 1) dev0.
Definition queue1 : vqueue_info := default queue0 (vs_queues (vsc dev1) !! 0%nat).

Lemma dev0_ok : vs_ok vtblk_vi_consts dev0.
Proof. split; try done; [|exact bus_ok]. repeat constructor. by exists 6. Qed.

Lemma mem0_bytes : bytes_ok mem0.
Proof. unfold mem0, put_desc. do 18 apply store_bytes. intros a. done. Qed.

Lemma ready : queue_ready 0 queue1 ring avail used dev1.
Proof. split; try done; [by exists 6|exact mem0_bytes]. Qed.

Lemma tables_ok : tables_mapped vtblk_vi_consts dev1 queue1 ring.
Proof.
  intros k Hk. cbv zeta. set (d := desc_of _ _). intros _ Hi _.
  assert (H : forallb (fun k => let d := desc_of (vmem dev1) (hva_add ring (16 * k)) in negb (indirect d) || bool_decide (is_Some (map_gpa (d_addr d) (d_len d) (vgmap dev1)))) (seqZ 0 64) = true)
    by (vm_compute; reflexivity).
  rewrite List.forallb_forall in H. specialize (H k ltac:(apply list_elem_of_In, elem_of_seqZ; exact Hk)). cbv zeta in H. fold d in H.
  rewrite Hi in H. by apply bool_decide_eq_true in H.
Qed.

(** ** The request *)

Definition result {S A} (o : outcome (A * S)) : option A := match o with Return (a, _) => Some a | _ => None end.

Definition request : list iovec :=
  [mk_iov (Some (1, 0x4000)) 16 (Some 1); mk_iov (Some (1, 0x5000)) 512 (Some 3); mk_iov (Some (1, 0x6000)) 1 (Some 2)].

Lemma head_is : avail_ring avail (vq_last_avail queue1 mod vq_qsize queue1) (vmem dev1) = 3.
Proof. by vm_compute. Qed.
Lemma one_available : 0 < u16 (avail_idx avail (vmem dev1) - vq_last_avail queue1) <= vq_qsize queue1.
Proof. by vm_compute. Qed.
Lemma request_taken : result (vq_getchain quiet vtblk_vi_consts 0 35 true dev1) = Some (3, Some 3, request).
Proof. by vm_compute. Qed.

Lemma getchain_correct_witness : exists k ds,
  chain (vmem dev1) (vgmap dev1) VTBLK_S_HOSTCAPS 64 ring 3 ds /\ length ds = 3%nat /\
  vq_getchain quiet vtblk_vi_consts 0 35 true dev1 = Return ((3, Some 3, request), tick k (advance 0 dev1)).
Proof.
  destruct (getchain_correct quiet vtblk_vi_consts (fun _ _ => eq_refl) dev1 0 queue1 ring avail used 35 true ready tables_ok) as (k & _ & _ & H).
  destruct (H one_available) as (r & iov & E & _ & Hc). rewrite head_is in E, Hc.
  pose proof request_taken as R. rewrite E in R. apply Some_inj in R. injection R as -> ->.
  destruct Hc as [(ds & Hds & Hlen & _)|[[=] _]]. exists k, ds. split; [exact Hds|]. split; [lia|exact E].
Defined.


(** After the set-up of the queue, the driver selects it and reads its size. *)
Lemma registers_safe_witness :
  rtc (reg_step vtblk_vi_consts pci_vtblk_reset (Some (pci_vtblk_notify quiet 64)) (fun _ => None) (Some pci_vtblk_cfgread) (Some pci_vtblk_cfgwrite) None) dev0 dev1 /\
  exists s', write 0 VTCFG_R_QSEL 2 0 dev1 = Return (tt, s') /\ read 0 VTCFG_R_QNUM 2 s' = Return (64, s').
Proof.
  assert (Hr : rtc (reg_step vtblk_vi_consts pci_vtblk_reset (Some (pci_vtblk_notify quiet 64)) (fun _ => None) (Some pci_vtblk_cfgread) (Some pci_vtblk_cfgwrite) None) dev0 dev1).
  { apply rtc_once, (reg_write _ _ _ _ _ _ _ _ 0 VTCFG_R_PFN 4 1); [|reflexivity]. unfold guest_access. repeat split; try done. by right. }
  assert (Ha : guest_access 0 VTCFG_R_QSEL 2 0 dev1) by (unfold guest_access; repeat split; try done; by right).
  destruct (registers_safe vtblk_vi_consts pci_vtblk_reset (Some (pci_vtblk_notify quiet 64)) (fun _ => None) (Some pci_vtblk_cfgread) (Some pci_vtblk_cfgwrite) None
    dev0 dev1 0 VTCFG_R_QSEL 2 0 (vtblk_laws quiet 64) dev0_ok Hr Ha) as (_ & _ & H).
  destruct (H eq_refl eq_refl) as (_ & _ & Hsel & _). destruct (Hsel eq_refl eq_refl) as (s' & E & _ & Hq).
  split; [exact Hr|]. exists s'. split; [exact E|]. rewrite Hq.
  assert (R : after (write 0 VTCFG_R_QSEL 2 0) dev1 = s') by (unfold after; by rewrite E). rewrite <- R. reflexivity.
Defined.

(** The whole way: the driver notifies the device, which hands the request to
    its backend. *)
Example request_handed : result (write 0 VTCFG_R_QNOTIFY 2 0 dev1) = Some tt /\
  (br_iov <$> bc (vdev (after (write 0 VTCFG_R_QNOTIFY 2 0) dev1))) = [[mk_iov (Some (1, 0x5000)) 512 (Some 3)]].
Proof. by vm_compute. Qed.

(** ** What the code does not check *)

(** A guest that lengthens the header's descriptor after its translation. *)
Definition racing (n : nat) (m : hva -> Z) : hva -> Z := if (n =? 5)%nat then store 4 (hva_add ring 56) 0x100000 m else m.

Example length_read_twice : option_map (fun r => (r.1.1, map iov_len (take 1 r.2))) (result (vq_getchain racing vtblk_vi_consts 0 35 true dev1)) = Some (3, [0x100000]) /\
  option_map (fun r => forallb (fun e => match iov_base e with Some h => host_ok gmap0 h (iov_len e) | None => true end) (take 1 r.2))
    (result (vq_getchain racing vtblk_vi_consts 0 35 true dev1)) = Some false.
Proof. by vm_compute. Qed.

(** A device without registers of its own, as the entropy device is. *)
Example no_config_aborts : vi_pci_read (mk_vc 1 0 0) None 0 VTCFG_R_CFG0 1 dev0 = Panic.
Proof. by vm_compute. Qed.

(** A request of one descriptor ends the process. *)
Example short_request_aborts :
  write 0 VTCFG_R_QNOTIFY 2 0 (dev1 <| vmem ::= store 2 (hva_add ring 60) 0 |>) = Panic.
Proof. by vm_compute. Qed.
End VirtioExample.
